(* ===== verification/_CoqProject ===== *)
-Q . S2P
Prelude.v
PyFloat.v
PyNum.v
PyStr.v
WorkflowDag.v
WorkflowDagCycle.v
WorkflowDagSort.v
SemVer.v
Cron.v
PyDict.v
ClusterStores.v
Election.v
ClusterHealth.v
RateLimit.v
RateLimitSpec.v
Quota.v
ResponseCache.v
Routing.v
RoutingSpec.v
Gateway.v
GatewaySpec.v
AuditLog.v
Deployments.v
TtlCache.v
Scheduler.v
Migrations.v
Approval.v
PluginPipeline.v
WorkflowExec.v
AuthModel.v
OrgModel.v
OrgManager.v
OrgSpec.v
OrgOps.v
OrgTheorems.v
PyMath.v
ProviderManager.v
ModelCosts.v
Reputation.v
RoutingEngine.v
Traffic.v
Classifier.v
ModelRouter.v
ModelRouterSpec.v
AuthSessions.v
AuthTokens.v
AuthCredentials.v
AuthManager.v
AuthManagerSpec.v
BillingModel.v
BillingManager.v
BillingInvoices.v
Tenancy.v
PyVal.v
Bm25.v
Fusion.v
Search.v
SearchSpec.v
Redis.v
DistQueue.v
DistSpec.v
DistConc.v
DistServices.v
SecKeys.v
ZeroTrust.v
SecServices.v
SecPrivacy.v
SecCompliance.v
PluginParts.v
PluginManager.v
Orchestration.v
OrchWorkflow.v
Consensus.v
Chunking.v
Knowledge.v
VectorStore.v
Embedding.v
ClusterOps.v
Memory.v
