(* ===== verification/Prelude.v ===== *)
(** * AI Router: verification development

    AI Router is a Python service: an API gateway in front of language-model
    providers and of the platform's own services, a cluster layer that keeps
    several nodes consistent, an orchestrator of agent workflows, and the usual
    platform services (audit, plugins, releases, tenants, billing).  This
    library models the parts that decide something: what runs, who is admitted,
    who leads, what is remembered.  Every definition is executable, follows the
    Python source under [src/app] statement by statement, and is named after it
    where the language allows.

    ** How Python is modelled

    - a call that may raise is a [result]; a method that changes an object and
      may raise is an [SE] computation, whose outcome keeps the state at the
      moment of the exception, since Python does not roll back (this file);
    - a [dict] is an association list in insertion order ([PyDict]); where order
      cannot be observed, a [gmap];
    - a [float] is an IEEE binary64 number with the rounding arithmetic of
      [SpecFloat] ([PyFloat]), [round] and [sum] are those of CPython 3.12
      ([PyMath]); [int] is [Z]; an expression that may be either is a [num]
      ([PyNum]);
    - strings are byte strings, with the methods the code uses ([PyStr]); text
      is assumed ASCII where Python asks Unicode questions ([isdigit], [upper]);
    - readings of the clock, generated ids and the outcomes of callbacks are
      arguments; a method under a lock is one atomic step, and interleavings are
      sequences of such steps;
    - code outside [src/] is a type class of operations, with its documented
      laws as a second class where a theorem relies on them ([KvClient] and
      [KvLaws], [LeaseApi], [GatewayEnv], [HashEnv], [TokenEnv] and [TokenLaws],
      [PasswordEnv], [JwtCodec], [MathLib], [SetOrder] and [SetOrderLaws], [CursorCodec]
      and [CursorLaws], [VectorStore], [EmbeddingService], [RegexEnv], [LuaJson] and
      [LuaJsonLaws], [CipherLib] and [CipherLaws], [ManifestMac], [JsonLib],
      [TokenEstimator] and [TokenEstimatorLaws], [EmbeddingProvider], [TextDigest],
      [EmbedClock], [BackupData], [Embedder], [MathLog10]); a Redis server is the interface [Redis] with the effects of
      its commands as [RedisLaws], and what runs against it is a program of
      commands; so are the stores that the
      source itself abstracts ([MigrationStore], [MemoryStore], [SecretBackend]).

    ** Files

    - [WorkflowDag] ([orchestration/dag.py]): [WorkflowDAG] validates a workflow
      by depth-first search and sorts it by levels.  [WorkflowDagCycle] shows
      that validation accepts exactly the acyclic workflows with known
      dependencies and that every error it reports is real; [WorkflowDagSort]
      that sorting always returns and that its levels are a correct schedule, as
      early as possible.
    - [WorkflowExec] ([DAGExecutor] of [orchestration/dag.py]):
      the execution of a workflow: sequential, parallel and conditional nodes,
      pauses, retries and dead letters; when agents and pauses come back the
      execution ends, it runs one task per agent step reached, and a conditional
      node takes the branch its condition names.
    - [ClusterStores] ([cluster/repository.py], [cluster/models.py]): the node,
      job and lease stores.
    - [Election] ([cluster/election.py]): lease, key-value and Kubernetes leader
      election over the stores and client interfaces: no other node is elected
      during a lease; the outcome of each election; a stale leader that keeps
      its belief.
    - [ClusterHealth] ([cluster/health.py], [cluster/failover.py]):
      heartbeats, the reassessment of members (its in-place loop is pointwise),
      and the release of a failed member's jobs.
    - [ClusterOps] ([cluster/autoscale.py], [cluster/replication.py],
      [cluster/discovery.py]): the autoscaler, whose evaluation makes a chain of
      decisions within the bounds it checks, backups and their restoration, replication, the failover of a region, and
      the parsing of peers.
    - [Cron] ([cluster/scheduler.py], [CronExpression]): parsing of
      schedules and the search for the next match, which is the least one after a
      time that does not match itself.
    - [Scheduler] ([DistributedScheduler]): ticks claim exactly
      the due jobs they may; a failing job is tried a bounded number of times;
      two defects of the attempt counter and of overlapping runs.
    - [Deployments] ([cluster/deployments.py]): the rolling,
      blue-green and canary state machines; one active deployment per component,
      nothing deployed without a passed health check, completion of rolling
      deployments; and a published traffic that a canary does not split.
    - [RateLimit], [RateLimitSpec] ([gateway/ratelimit.py]): the four limiters
      and their registry; the windows refine a limiter that keeps the whole
      history (the sliding one without the precision that it is given), the
      buckets stay within capacity, keys do not influence each other.
    - [Quota] ([gateway/quota.py]): usage stays within the limit and a refund
      undoes its charge.
    - [ResponseCache] ([gateway/cache.py]): bounded, with oldest-first eviction.
    - [Routing], [RoutingSpec] ([gateway/routing.py]): patterns, route
      resolution and version negotiation.
    - [Gateway], [GatewaySpec] ([gateway/gateway.py], [gateway/middleware.py]):
      the middleware chain over all of the above: an unauthorised request has no
      effect, the quota is charged only for answered requests, every request is
      answered.  A request that is cancelled is not modelled.
    - [AuditLog] ([security/audit.py]): the hash chain verifies itself, and a
      forged chain exhibits a collision.
    - [TtlCache] ([cache.py]): the LRU cache with expiry.
    - [PluginParts] ([plugins/lifecycle.py], [versioning.py], [validation.py],
      [signing.py], [permissions.py], [registry.py], [marketplace.py]): the life
      cycle, in which no plugin operates unverified, versions, manifests,
      permissions, the extension registry, the marketplace.
    - [PluginManager] ([plugins/manager.py]): installation, upgrade with rollback
      and the rest over the above and the directory of plugins, whatever the code
      of the plugins does.  Every loaded plugin has a vetted manifest, plugins do
      not touch each other, a failed upgrade is undone when its directory can be
      copied back; and what it leaves behind.
    - [Migrations] ([migrations/manager.py],
      [migrations/repository.py]): upgrades up to the first failure and the
      rollbacks that undo them, over the interface of the version store.
    - [Approval] ([orchestration/approval.py]): a decision on a checkpoint is
      final.
    - [SemVer] ([release/version.py]): parsing and printing are
      inverse, precedence is a total order, bumps go up.
    - [ProviderManager] ([providers/manager.py]): the breaker refines the three-state
      machine of the documentation while it is probed one request at a time, which it
      does not see to itself; a provider with an open circuit is never offered to
      the router.
    - [ModelCosts] ([capability_registry.py], [costs.py]): the capability
      filter and the conservation of the token accounts.
    - [Reputation], [RoutingEngine] ([reputation.py],
      [benchmark/live.py], [routing.py], [ProviderMetrics] of [router.py]): the
      metrics of a provider, its scores, and the ranking of the candidates.
    - [Traffic] ([traffic_distribution.py]): weights, canaries, A/B tests and
      where a selection comes from.
    - [Classifier] ([classifier.py]) and [PluginPipeline] ([plugin/]): the task
      of a prompt and the hook chains around a request.
    - [ModelRouter], [ModelRouterSpec] ([router.py], [ChatResponse] of [models.py]): retry with
      back-off, failover over the plan, streaming, persistence of the metrics; and
      a [chat] that never returns an answer, because the response refuses the
      attribute it assigns.

    - [AuthModel], [AuthSessions], [AuthTokens], [AuthCredentials], [AuthManager], [AuthManagerSpec]
      ([auth/]): users and roles, the RBAC and ABAC decisions, sessions, signed
      tokens with their denylist, API keys, passwords with lockout, and the
      manager and middleware that compose them.  Over every sequence of manager
      operations: the sessions of a user stay bounded, a session that was ended
      stays ended, a refresh token is accepted once, and the middleware lets a
      request through only with a credential of its own that proves a live
      principal.
    - [BillingModel], [BillingManager], [BillingInvoices] ([billing/]): plans, coupons, usage, invoices,
      payments and the subscription life cycle.  Over every sequence of
      operations: a tenant has at most one current subscription, an invoice is
      paid at most once and never changes afterwards, invoices are numbered
      consecutively, and the limits of a tenant are those of its plan.
    - [OrgModel], [OrgManager], [OrgSpec], [OrgOps], [OrgTheorems] ([organization/]): organisations, members, teams, projects and
      invitations over generic repositories ([PyDict]).  Over every sequence of manager
      operations: the repositories stay consistent, a tenant never reaches
      another's records, an invitation is accepted once, and membership and
      ownership guard the operations that need them; two defects of archived
      organisations and of slugs.
    - [Tenancy] ([tenancy/]): the tenant life cycle (deletion is
      final), the middleware that resolves and admits a tenant, the isolation of
      keys and the bounded audit trail.
    - [PyVal]: dynamic values of type [Any].
    - [Bm25], [Fusion], [Search], [SearchSpec] ([retrieval/]): the keyword index,
      normalisation and fusion of scores, and semantic and hybrid search.  The
      index refines the corpus, a keyword search returns the best matches, fusion
      loses no document and does not depend on the iteration order of sets, a
      search shows a page of a ranking; and the places where the code does less:
      stale postings, filters that are not applied, cursors that lead nowhere.
    - [Redis]: programs of Redis commands, the abstract contents of a server,
      runs, weakest preconditions, and a server in memory.
    - [DistQueue] ([distributed/distributed_queue.py], [redis_client.py],
      [lease.py], [dlq.py], [idempotency.py], [worker.py]): the distributed queue,
      locks, leases, dead letters and the worker.  [DistSpec]: what each operation
      does when nobody interferes; the lock scripts refine an owner variable, a
      dequeue takes the oldest task of the highest priority.  [DistConc]:
      processes interleave, stop, and keys expire; an ownership discipline on
      programs shows that no two processes work on the same task, and that the
      retries that are scheduled never happen; with the reaper of leases the
      first fails.  The commands of a process succeed, but for the publication of
      the worker's event, which may raise.
    - [DistServices] ([distributed_scheduler.py], [worker_registry.py],
      [retry.py], [event_bus.py]): leader election over the lock, where a leader
      demotes itself, jobs within their run limits, heartbeats, retries, events.
    - [SecKeys] ([security/keys.py], [security/crypto.py]): keys with their versions and
      statuses, envelope, field and storage encryption over a cipher.  A key that
      was ended is never handed out again; an encrypted field decrypts to itself
      under the same keys, and envelopes do not survive a rotation.
    - [ZeroTrust] ([security/zero_trust.py]): policies, sessions, lockout.  The
      decision is that of the first policy of the highest priority that matches;
      a session that was revoked is refused for good.
    - [SecServices] ([security/secrets.py], [security/threat.py]): the secret
      manager, whose cache is never stale, and incidents, of which each signal
      has one that is open.  [SecPrivacy] ([security/privacy.py]): masking, which
      reveals only what it shows, and data subject requests.  [SecCompliance]
      ([security/compliance.py], [security/monitoring.py]): control reports
      and alerts.
    - [Orchestration] ([orchestration/memory.py], [budget.py], [planner.py],
      [agents.py], [executor.py]): the memory of an execution with its references,
      budgets, plans and their parallel execution, whose result does not depend on
      the interleaving when the router is a function of the request.
      [OrchWorkflow] ([workflow.py], [executor.py]): the sequential engine, whose
      skipping runs a well-nested list of steps like the structured program that
      it denotes; its parallel branches are run in order, and a time limit
      absorbs the cancellations of an outer one, which Python passes on.  [Consensus] ([consensus.py], [reflection.py], [debate.py],
      [orchestrator.py]): votes, reviews with retries, rounds of debate, and the
      orchestrator over them.
    - [Chunking] ([knowledge/chunking/]): the strategies that cut a text.  Each
      ends on every text, the recursive one loses no visible character and reads
      no overlap, the windows are slices from which the text is rebuilt.  [Knowledge]
      ([knowledge/repository.py], [service.py]): collections, documents, chunks;
      the counts of documents are right while identifiers are new, those of
      chunks are not.
      [VectorStore] ([knowledge/vector_store/]): records with distinct ids, and a
      search that returns the best ones.  [Embedding] ([knowledge/embedding/]):
      batches, retries and the cache, which is transparent while it is coherent.
    - [Memory] ([memory/]): long-term memory: duplicates, scores, expiry,
      archival, pruning, compaction, search and extraction, with metadata objects
      that entries share.  What maintenance does to each entry, what a search
      returns, and how a duplicate takes over the entry of another tenant.

    The gateway requires the limiter, quota, cache and routing files and its
    theorems use their lemmas; the cluster files share [ClusterStores]; the
    model router composes the provider manager, the routing engine, the traffic
    distribution, the classifier and the plugin pipeline; the managers of
    [auth/] and [billing/] compose their stores, and their theorems range over
    sequences of manager operations.

    ** Fuel and bounds

    The recursion of [detect_cycle] has as fuel one more than the number of
    steps, its walk back one more than the number of coloured nodes, and the
    loop of [topological_sort] one more than the number of steps and edges; the
    theorems show that this is always enough, so that running out of fuel is
    never an outcome.  The execution of a workflow has the nesting
    depth of its nodes as fuel, which is enough ([execute_terminates]): every call
    of an agent and every pause is an answer that is given, so what they take is
    not modelled.  A structured run of the sequential engine has the size
    of its steps, the resolution of references the length of its text, the
    printing of the shortest decimal the 17 digits that always suffice, and the
    strategies of chunking the length of the text and three, which is enough
    ([recursive_split_lossless], [create_strategy_terminates]).  The cron search has the bound of the source, 366 * 24 * 60
    turns, and its error is an outcome of the code.  All other loops are
    structural.

    ** Not modelled

    The HTTP clients of the model providers and of the protocols for tools, the
    SQL and hosted variants of stores whose in-memory variant is modelled, the
    parsers of document formats, failures of the Redis connection (but for the
    publication of a worker), the cancellation of tasks where no component above
    names it, HTTP endpoints
    and dashboards, telemetry and logging, which are input and output around
    third-party services; the assembly of prompts and citations; background
    tasks, whose bodies are modelled as steps that may happen at any time;
    serialisers ([to_dict]) and status reports.

    ** Extensions

    What would come next: conversations and their sessions ([memory/session.py],
    [memory/conversation.py]), the assembly of contexts ([rag/], [citations/]),
    the release pipeline ([release/]). *)

From stdpp Require Import base list strings gmap sorting.
From Stdlib Require Import Sorted.
From Stdlib Require String.


(** ** Python results

    A call that may raise returns [result E A]: [Ok a] for a normal return,
    [Err e] for the exception [e]. *)

Inductive result (E A : Type) : Type :=
| Ok (a : A)
| Err (e : E).
Arguments Ok {E A} a.
Arguments Err {E A} e.

Declare Scope py_scope.
Delimit Scope py_scope with py.

Notation "'try' x <- c 'in' k" :=
  (match c with Ok x => k | Err e => Err e end)
  (at level 10, x name, c at level 100, k at level 200) : py_scope.

Definition is_ok {E A} (r : result E A) : bool :=
  match r with Ok _ => true | Err _ => false end.

(** ** State and exceptions

    A method that changes an object and may raise: the state at the moment of
    the exception is part of the outcome, because Python does not roll back. *)

Definition SE (E S A : Type) : Type := S → result E A * S.

#[export] Instance SE_ret E S : MRet (SE E S) := λ A a s, (Ok a, s).
#[export] Instance SE_bind E S : MBind (SE E S) := λ A B f m s,
  match m s with
  | (Ok a, s') => f a s'
  | (Err e, s') => (Err e, s')
  end.

Section StateException.
Context {E S : Type}.

Definition se_get : SE E S S := λ s, (Ok s, s).
Definition se_modify (f : S → S) : SE E S unit := λ s, (Ok tt, f s).
Definition se_raise {A} (e : E) : SE E S A := λ s, (Err e, s).
Definition se_lift {A} (r : result E A) : SE E S A := λ s, (r, s).

Lemma se_bind_Ok {A B} (m : SE E S A) (f : A → SE E S B) s a s' :
  m s = (Ok a, s') → (m ≫= f) s = f a s'.
Proof. intros H. unfold mbind, SE_bind. by rewrite H. Qed.

Lemma se_bind_Err {A B} (m : SE E S A) (f : A → SE E S B) s e s' :
  m s = (Err e, s') → (m ≫= f) s = (Err e, s').
Proof. intros H. unfold mbind, SE_bind. by rewrite H. Qed.

Lemma se_bind_inv {A B} (m : SE E S A) (f : A → SE E S B) s b s' :
  (m ≫= f) s = (Ok b, s') → ∃ a s1, m s = (Ok a, s1) ∧ f a s1 = (Ok b, s').
Proof.
  unfold mbind, SE_bind. destruct (m s) as [[a|e] s1]; [|done]. eauto.
Qed.

(** A bind preserves what both its parts preserve, exceptions included. *)
Definition se_inv {A} (I : S → Prop) (m : SE E S A) : Prop := ∀ s, I s → I (m s).2.

Lemma se_inv_bind {A B} (I : S → Prop) (m : SE E S A) (f : A → SE E S B) :
  se_inv I m → (∀ a, se_inv I (f a)) → se_inv I (m ≫= f).
Proof.
  intros Hm Hf s Hs. specialize (Hm s Hs). unfold mbind, SE_bind.
  destruct (m s) as [[a|e] s1]; simpl in *; [by apply Hf|done].
Qed.

Lemma se_inv_lift {A} (I : S → Prop) (r : result E A) : se_inv I (se_lift r).
Proof. by intros s Hs. Qed.

Lemma se_inv_ret {A} (I : S → Prop) (a : A) : se_inv I (mret a).
Proof. by intros s Hs. Qed.
End StateException.

(** ** Automation shared by the components *)

(** [split_ifs] performs the case analysis of every Boolean test and match
    scrutinee of the goal, keeping the equations. *)
Ltac split_ifs :=
  repeat match goal with
  | |- context [if ?b then _ else _] => destruct b eqn:?
  | |- context [match ?x with _ => _ end] => destruct x eqn:?
  end.

(** The same on a hypothesis. *)
Ltac split_ifs_in H :=
  repeat match type of H with
  | context [if ?b then _ else _] => destruct b eqn:?
  | context [match ?x with _ => _ end] => destruct x eqn:?
  end.

(** [bool_to_prop] turns the Boolean comparisons the code performs into the
    propositions they decide. *)
Ltac bool_to_prop :=
  repeat match goal with
  | H : _ && _ = true |- _ => apply andb_prop in H as [? ?]
  | H : _ || _ = false |- _ => apply orb_false_elim in H as [? ?]
  | H : negb _ = true |- _ => apply negb_true_iff in H
  | H : negb _ = false |- _ => apply negb_false_iff in H
  | H : Z.ltb _ _ = true |- _ => apply Z.ltb_lt in H
  | H : Z.ltb _ _ = false |- _ => apply Z.ltb_ge in H
  | H : Z.leb _ _ = true |- _ => apply Z.leb_le in H
  | H : Z.leb _ _ = false |- _ => apply Z.leb_gt in H
  | H : Z.eqb _ _ = true |- _ => apply Z.eqb_eq in H
  | H : Z.eqb _ _ = false |- _ => apply Z.eqb_neq in H
  | H : Nat.ltb _ _ = true |- _ => apply Nat.ltb_lt in H
  | H : Nat.ltb _ _ = false |- _ => apply Nat.ltb_ge in H
  | H : Nat.leb _ _ = true |- _ => apply Nat.leb_le in H
  | H : Nat.leb _ _ = false |- _ => apply Nat.leb_gt in H
  | H : Nat.eqb _ _ = true |- _ => apply Nat.eqb_eq in H
  | H : Nat.eqb _ _ = false |- _ => apply Nat.eqb_neq in H
  | H : bool_decide _ = true |- _ => apply bool_decide_eq_true in H
  | H : bool_decide _ = false |- _ => apply bool_decide_eq_false in H
  end.

Create HintDb pydb.
Create Rewrite HintDb pyrw.
#[export] Hint Resolve se_inv_bind se_inv_lift se_inv_ret : pydb.

(** [se_steps H] follows a sequence of binds that returned normally,
    producing one equation per step. *)
Ltac se_steps H :=
  repeat (let a := fresh "a" in let s := fresh "s" in let E := fresh "E" in
          apply se_bind_inv in H as (a & s & E & H)).

(** ** Python strings *)

(** The empty string is falsy: [a or b] on strings. *)
Definition str_or (a b : string) : string :=
  match a with EmptyString => b | _ => a end.

Definition truthy (s : string) : bool :=
  match s with EmptyString => false | _ => true end.

(** Strings are ordered by code point. *)
Definition str_lt (a b : string) : bool := String.ltb a b.

(** ** Python's stable sort

    [sorted(l, key=f)] and [list.sort] are stable; the comparison the library
    performs is [key(y) < key(x)].  [lt] is that comparison.  The insertion
    below puts an element before the first one that is not smaller, so that
    equal elements keep their order. *)

Section StableSort.
Context {A : Type} (lt : A → A → bool).

Fixpoint sort_insert (x : A) (l : list A) : list A :=
  match l with
  | [] => [x]
  | y :: l' => if lt y x then y :: sort_insert x l' else x :: l
  end.

Fixpoint py_sorted (l : list A) : list A :=
  match l with
  | [] => []
  | x :: l' => sort_insert x (py_sorted l')
  end.

Lemma sort_insert_perm x l : sort_insert x l ≡ₚ x :: l.
Proof.
  induction l as [|y l IH]; simpl; [done|].
  destruct (lt y x); [|done]. rewrite IH. apply Permutation_swap.
Qed.

Lemma py_sorted_perm l : py_sorted l ≡ₚ l.
Proof.
  induction l as [|x l IH]; simpl; [done|].
  by rewrite sort_insert_perm, IH.
Qed.

Lemma elem_of_py_sorted x l : x ∈ py_sorted l ↔ x ∈ l.
Proof. by rewrite py_sorted_perm. Qed.

Lemma length_py_sorted l : length (py_sorted l) = length l.
Proof. apply Permutation_length, py_sorted_perm. Qed.

(** The result is sorted for every comparison that is asymmetric and whose
    negation is transitive (a strict weak order). *)
Context (Hasym : ∀ x y, lt x y = true → lt y x = false).
Context (Htrans : ∀ x y z, lt y x = false → lt z y = false → lt z x = false).

Let le x y := lt y x = false.

Lemma sort_insert_sorted x l :
  StronglySorted le l → StronglySorted le (sort_insert x l).
Proof.
  induction 1 as [|y l Hl IH Hy]; simpl; [by repeat constructor|].
  destruct (lt y x) eqn:E.
  - constructor; [done|]. rewrite sort_insert_perm.
    constructor; [by apply Hasym|done].
  - constructor; [by constructor|]. constructor; [done|].
    eapply Forall_impl; [exact Hy|]. intros z Hz. by eapply Htrans.
Qed.

Lemma py_sorted_sorted l : StronglySorted le (py_sorted l).
Proof. induction l; simpl; [constructor|by apply sort_insert_sorted]. Qed.
End StableSort.

(** When the comparison refines an integer key, the result is sorted by it,
    whatever breaks the ties. *)
Lemma py_sorted_key {A} (lt : A → A → bool) (f : A → Z) l :
  (∀ x y, lt x y = true → (f x <= f y)%Z) → (∀ x y, lt x y = false → (f y <= f x)%Z) →
  StronglySorted (λ x y, (f x <= f y)%Z) (py_sorted lt l).
Proof.
  intros Ht Hf. induction l as [|x l IH]; simpl; [constructor|].
  induction IH as [|y k Hk IHk Hy]; simpl; [by repeat constructor|].
  destruct (lt y x) eqn:E.
  - constructor; [done|]. rewrite sort_insert_perm. constructor; [by apply Ht|done].
  - constructor; [by constructor|]. constructor; [by apply Hf|].
    eapply Forall_impl; [exact Hy|]. intros z Hz. specialize (Hf _ _ E). simpl in Hz. lia.
Qed.

#[export] Hint Rewrite @length_py_sorted @elem_of_py_sorted : pyrw.

(** ** Lists *)

(** [len(l)] *)
Definition zlen {A} (l : list A) : Z := Z.of_nat (length l).

Lemma zlen_app {A} (l k : list A) : zlen (l ++ k) = (zlen l + zlen k)%Z.
Proof. unfold zlen. rewrite length_app. lia. Qed.

Lemma zlen_replicate {A} n (x : A) : (0 <= n)%Z → zlen (replicate (Z.to_nat n) x) = n.
Proof. unfold zlen. rewrite length_replicate. lia. Qed.

(** A [StronglySorted] list relates every element to the later ones. *)
Lemma StronglySorted_app_inv {A} (R : relation A) l1 l2 :
  StronglySorted R (l1 ++ l2) →
  StronglySorted R l1 ∧ StronglySorted R l2 ∧ ∀ x y, x ∈ l1 → y ∈ l2 → R x y.
Proof.
  induction l1 as [|z l1 IH]; simpl; intros H.
  { repeat split; [constructor|done|set_solver]. }
  inversion H as [|?? Hs Hf]; subst. destruct (IH Hs) as (H1 & H2 & H3).
  apply Forall_app in Hf as [Hf1 Hf2].
  split; [by constructor|]. split; [done|].
  intros x y [->|Hx]%elem_of_cons Hy; [|by apply H3].
  by eapply Forall_forall in Hf2.
Qed.

Lemma StronglySorted_snoc {A} (R : relation A) l x :
  StronglySorted R l → Forall (λ y, R y x) l → StronglySorted R (l ++ [x]).
Proof.
  induction 1 as [|y l Hs IH Hy]; simpl; intros Hx.
  { repeat constructor. }
  apply Forall_cons in Hx as [Hyx Hx]. constructor; [by apply IH|].
  apply Forall_app; split; [done|by constructor].
Qed.

Lemma elem_of_concat {A} (x : A) (ls : list (list A)) :
  x ∈ concat ls ↔ ∃ l, x ∈ l ∧ l ∈ ls.
Proof.
  rewrite list_elem_of_In, in_concat. setoid_rewrite list_elem_of_In. naive_solver.
Qed.

Lemma filter_all {A} (P : A → Prop) `{!∀ x, Decision (P x)} (l : list A) :
  (∀ x, x ∈ l → P x) → filter P l = l.
Proof.
  induction l as [|x l IH]; intros Hl; [done|].
  rewrite filter_cons_True by (apply Hl; set_solver). rewrite IH; [done|].
  intros y Hy. apply Hl. set_solver.
Qed.

Lemma Forall_filter_of {A} (Q P : A → Prop) `{!∀ x, Decision (P x)} (l : list A) :
  Forall Q l → Forall Q (filter P l).
Proof.
  rewrite !Forall_forall. intros Hl x [_ Hx]%list_elem_of_filter. by apply Hl.
Qed.

Lemma StronglySorted_filter {A} (R : relation A) (P : A → Prop)
    `{!∀ x, Decision (P x)} (l : list A) :
  StronglySorted R l → StronglySorted R (filter P l).
Proof.
  induction 1 as [|x l Hs IH Hx]; [constructor|].
  destruct (decide (P x)).
  - rewrite filter_cons_True by done. constructor; [done|]. by apply Forall_filter_of.
  - by rewrite filter_cons_False.
Qed.
