(* ===== verification/PyFloat.v ===== *)
(** * Python floats

    A Python [float] is an IEEE 754 binary64 number and every operation rounds
    to nearest, ties to even.  The model uses the executable specification of
    that arithmetic in the standard library ([SpecFloat], precision 53,
    [emax] 1024), so [fadd], [fsub], [fmul], [fdiv] are the machine's
    operations, rounding, infinities and NaN included, and the comparisons are
    those of Python: every one is false on NaN.  Times ([time.time()]) are
    floats.

    Comparison is analysed through [fkey], which sends the floats other than
    NaN to integer triples ordered lexicographically. *)

From Stdlib Require Import ZArith Lia.
From Stdlib Require Import SpecFloat.
From stdpp Require Import base list numbers.
From S2P Require Import Prelude.

Abbreviation float := spec_float (only parsing).

Definition fprec : Z := 53.
Definition femax : Z := 1024.

Definition fadd : float → float → float := SFadd fprec femax.
Definition fsub : float → float → float := SFsub fprec femax.
Definition fmul : float → float → float := SFmul fprec femax.
Definition fdiv : float → float → float := SFdiv fprec femax.

(** [a < b], [a <= b], [a == b]; [a > b] is [flt b a]. *)
Definition flt (a b : float) : bool := SFltb a b.
Definition fle (a b : float) : bool := SFleb a b.
Definition feq (a b : float) : bool := SFeqb a b.

(** [float(z)] for an [int] *)
Definition float_of_Z (z : Z) : float := binary_normalize fprec femax z 0 false.

Definition fzero : float := S754_zero false.
Definition finf : float := S754_infinity false.

Definition is_nan (a : float) : bool :=
  match a with S754_nan => true | _ => false end.

(** [min(a, b)] and [max(a, b)] of Python return [b] only when it is strictly
    smaller (larger) than [a]. *)
Definition fmin (a b : float) : float := if flt b a then b else a.
Definition fmax (a b : float) : float := if flt a b then b else a.

(** [int(a)]: truncation toward zero; [int] raises on NaN and infinities. *)
Definition ftrunc (a : float) : option Z :=
  match a with
  | S754_zero _ => Some 0%Z
  | S754_finite s m e =>
      let v := if (0 <=? e)%Z then (Z.pos m * 2 ^ e)%Z else (Z.pos m / 2 ^ (- e))%Z in
      Some (if s then (- v)%Z else v)
  | _ => None
  end.

Instance float_eq_dec : EqDecision float.
Proof. solve_decision. Defined.

(** ** Order *)

Definition fkey (a : float) : Z * Z * Z :=
  match a with
  | S754_infinity true => (-2, 0, 0)
  | S754_finite true m e => (-1, -e, - Z.pos m)
  | S754_zero _ => (0, 0, 0)
  | S754_finite false m e => (1, e, Z.pos m)
  | S754_infinity false => (2, 0, 0)
  | S754_nan => (3, 0, 0)
  end%Z.

Definition key_lt (p q : Z * Z * Z) : Prop :=
  (p.1.1 < q.1.1 ∨ p.1.1 = q.1.1 ∧
   (p.1.2 < q.1.2 ∨ p.1.2 = q.1.2 ∧ p.2 < q.2))%Z.

Definition key_le (p q : Z * Z * Z) : Prop := key_lt p q ∨ p = q.

Lemma fcompare_key a b :
  is_nan a = false → is_nan b = false →
  match SFcompare a b with
  | Some Lt => key_lt (fkey a) (fkey b)
  | Some Gt => key_lt (fkey b) (fkey a)
  | Some Eq => fkey a = fkey b
  | None => False
  end.
Proof.
  destruct a as [[]|[]| |[] m e], b as [[]|[]| |[] m' e']; simpl; try done;
    intros _ _; unfold key_lt; simpl; try lia.
  all: destruct (Z.compare_spec e e'); simpl; try lia.
  all: change (Pos.compare_cont Eq m m') with (Pos.compare m m').
  all: destruct (Pos.compare_spec m m'); subst; simpl; try done; lia.
Qed.

Lemma fcompare_nan a b :
  is_nan a = true ∨ is_nan b = true → SFcompare a b = None.
Proof. destruct a as [[]|[]| |[]], b as [[]|[]| |[]]; naive_solver. Qed.

Lemma flt_key a b :
  flt a b = true ↔ is_nan a = false ∧ is_nan b = false ∧ key_lt (fkey a) (fkey b).
Proof.
  unfold flt, SFltb. destruct (is_nan a) eqn:Ha.
  { rewrite fcompare_nan by auto. naive_solver. }
  destruct (is_nan b) eqn:Hb.
  { rewrite fcompare_nan by auto. naive_solver. }
  pose proof (fcompare_key a b Ha Hb) as H.
  destruct (SFcompare a b) as [[]|]; unfold key_lt in *; try done; split;
    naive_solver (subst; try lia; rewrite ?H in *; lia).
Qed.

Lemma fle_key a b :
  fle a b = true ↔ is_nan a = false ∧ is_nan b = false ∧ key_le (fkey a) (fkey b).
Proof.
  unfold fle, SFleb. destruct (is_nan a) eqn:Ha.
  { rewrite fcompare_nan by auto. naive_solver. }
  destruct (is_nan b) eqn:Hb.
  { rewrite fcompare_nan by auto. naive_solver. }
  pose proof (fcompare_key a b Ha Hb) as H. unfold key_le.
  destruct (SFcompare a b) as [[]|]; try done; split; try naive_solver.
  intros (_&_&[Hlt|Heq]); exfalso; unfold key_lt in *; [lia|].
  rewrite Heq in H. lia.
Qed.

(** The laws of the order that the components use. *)

Lemma flt_irrefl a : flt a a = false.
Proof. apply not_true_is_false. rewrite flt_key. unfold key_lt. lia. Qed.

Lemma flt_trans a b c : flt a b = true → flt b c = true → flt a c = true.
Proof. rewrite !flt_key. unfold key_lt. intuition lia. Qed.

Lemma flt_asym a b : flt a b = true → flt b a = false.
Proof.
  intros H. apply not_true_is_false. intros H'.
  pose proof (flt_trans a b a H H') as Ha. by rewrite flt_irrefl in Ha.
Qed.

Lemma fle_refl a : is_nan a = false → fle a a = true.
Proof. rewrite fle_key. unfold key_le. auto. Qed.

Lemma key_le_iff p q :
  key_le p q ↔ (p.1.1 < q.1.1 ∨ p.1.1 = q.1.1 ∧
   (p.1.2 < q.1.2 ∨ p.1.2 = q.1.2 ∧ p.2 <= q.2))%Z.
Proof.
  unfold key_le, key_lt. destruct p as [[a b] c], q as [[a' b'] c']; simpl.
  split; [intros [?|[= -> -> ->]]; lia|].
  intros H. destruct (decide (a = a' ∧ b = b' ∧ c = c')) as [(->&->&->)|?]; [auto|lia].
Qed.

Lemma fle_trans a b c : fle a b = true → fle b c = true → fle a c = true.
Proof. rewrite !fle_key, !key_le_iff. intuition lia. Qed.

Lemma flt_fle a b : flt a b = true → fle a b = true.
Proof. rewrite flt_key, fle_key. unfold key_le. naive_solver. Qed.

Lemma flt_fle_trans a b c : flt a b = true → fle b c = true → flt a c = true.
Proof. rewrite !flt_key, !fle_key, !key_le_iff. unfold key_lt. intuition lia. Qed.

Lemma fle_flt_trans a b c : fle a b = true → flt b c = true → flt a c = true.
Proof. rewrite !flt_key, !fle_key, !key_le_iff. unfold key_lt. intuition lia. Qed.

(** On numbers, [not (a < b)] is [b <= a]. *)
Lemma flt_false_fle a b :
  is_nan a = false → is_nan b = false → flt a b = false → fle b a = true.
Proof.
  intros Ha Hb H. apply fle_key. repeat split; [done..|].
  assert (¬ key_lt (fkey a) (fkey b)) as Hn.
  { intros Hlt. assert (flt a b = true); [by apply flt_key|congruence]. }
  apply key_le_iff. unfold key_lt in Hn. lia.
Qed.

Lemma fle_flt_false a b : fle b a = true → flt a b = false.
Proof.
  intros H. apply not_true_is_false. intros H'.
  pose proof (fle_flt_trans _ _ _ H H') as Hb. by rewrite flt_irrefl in Hb.
Qed.

Lemma fle_not_nan a b : fle a b = true → is_nan a = false ∧ is_nan b = false.
Proof. rewrite fle_key. naive_solver. Qed.

Lemma flt_not_nan a b : flt a b = true → is_nan a = false ∧ is_nan b = false.
Proof. rewrite flt_key. naive_solver. Qed.

Lemma flt_total a b :
  is_nan a = false → is_nan b = false → flt a b = true ∨ fle b a = true.
Proof.
  intros. destruct (flt a b) eqn:?; [by left|right; by apply flt_false_fle].
Qed.

Lemma fmin_le_l a b : is_nan a = false → is_nan b = false → fle (fmin a b) a = true.
Proof.
  intros Ha Hb. unfold fmin. destruct (flt b a) eqn:E; [by apply flt_fle|by apply fle_refl].
Qed.

#[export] Hint Resolve flt_irrefl fle_refl flt_fle : pydb.
