(* ===== verification/PyNum.v ===== *)
(** * Python numbers: [int] and [float] mixed

    The code mixes [int] and [float] freely ([min(self.burst, tokens + ...)]
    returns an [int] or a [float]).  [num] is such a value; the arithmetic
    follows Python: two [int]s stay exact, an [int] meeting a [float] is
    converted (and may raise [OverflowError]), comparisons of an [int] with a
    [float] are exact, [/] is true division. *)

From Stdlib Require Import ZArith Lia.
From Stdlib Require Import SpecFloat.
From stdpp Require Import base numbers list.
From S2P Require Import Prelude PyFloat.

Open Scope Z_scope.

Inductive ArithError := ZeroDivisionError | OverflowError | ValueError.

Inductive num := NInt (z : Z) | NFloat (f : float).

Instance num_eq_dec : EqDecision num.
Proof. solve_decision. Defined.

(** [float(z)]: an [int] beyond the range of [float] raises. *)
Definition int_to_float (z : Z) : result ArithError float :=
  match float_of_Z z with
  | S754_infinity _ => Err OverflowError
  | f => Ok f
  end.

Definition to_float (a : num) : result ArithError float :=
  match a with NInt z => int_to_float z | NFloat f => Ok f end.

(** A binary operator on mixed operands. *)
Definition num_lift (fi : Z → Z → Z) (ff : float → float → float) (a b : num)
    : result ArithError num :=
  match a, b with
  | NInt x, NInt y => Ok (NInt (fi x y))
  | _, _ =>
      match to_float a, to_float b with
      | Ok x, Ok y => Ok (NFloat (ff x y))
      | Err e, _ => Err e
      | _, Err e => Err e
      end
  end.

Definition num_add : num → num → result ArithError num := num_lift Z.add fadd.
Definition num_sub : num → num → result ArithError num := num_lift Z.sub fsub.
Definition num_mul : num → num → result ArithError num := num_lift Z.mul fmul.

(** [z / w] on two [int]s: the exact quotient rounded once. *)
Definition int_truediv (z w : Z) : result ArithError float :=
  match z, w with
  | _, 0 => Err ZeroDivisionError
  | 0, Z.pos _ => Ok (S754_zero false)
  | 0, Z.neg _ => Ok (S754_zero true)
  | _, _ =>
      let '(q, e, l) :=
        SFdiv_core_binary fprec femax (Z.abs z) 0 (Z.abs w) 0 in
      match binary_round_aux fprec femax (xorb (z <? 0) (w <? 0)) q e l with
      | S754_infinity _ => Err OverflowError
      | f => Ok f
      end
  end.

Definition is_fzero (f : float) : bool :=
  match f with S754_zero _ => true | _ => false end.

Definition float_truediv (x y : float) : result ArithError float :=
  if is_fzero y then Err ZeroDivisionError else Ok (fdiv x y).

Definition num_div (a b : num) : result ArithError float :=
  match a, b with
  | NInt x, NInt y => int_truediv x y
  | _, _ =>
      match to_float a, to_float b with
      | Ok x, Ok y => float_truediv x y
      | Err e, _ => Err e
      | _, Err e => Err e
      end
  end.

(** The exact comparison of an [int] with a finite [float] [m * 2^e]. *)
Definition int_float_compare (z : Z) (f : float) : option comparison :=
  match f with
  | S754_zero _ => Some (Z.compare z 0)
  | S754_infinity s => Some (if s then Gt else Lt)
  | S754_nan => None
  | S754_finite s m e =>
      let v := if s then Z.neg m else Z.pos m in
      Some (if 0 <=? e then Z.compare z (v * 2 ^ e) else Z.compare (z * 2 ^ (- e)) v)
  end.

Definition num_compare (a b : num) : option comparison :=
  match a, b with
  | NInt x, NInt y => Some (Z.compare x y)
  | NInt x, NFloat g => int_float_compare x g
  | NFloat f, NInt y => CompOpp <$> int_float_compare y f
  | NFloat f, NFloat g => SFcompare f g
  end.

Definition num_lt (a b : num) : bool :=
  match num_compare a b with Some Lt => true | _ => false end.
Definition num_le (a b : num) : bool :=
  match num_compare a b with Some Lt | Some Eq => true | _ => false end.

(** [min(a, b)]: the first argument unless the second is strictly smaller. *)
Definition num_min (a b : num) : num := if num_lt b a then b else a.

(** [int(a)] *)
Definition num_int (a : num) : result ArithError Z :=
  match a with
  | NInt z => Ok z
  | NFloat f =>
      match ftrunc f with
      | Some z => Ok z
      | None => Err (if is_nan f then ValueError else OverflowError)
      end
  end.

(** ** Floor division of floats

    CPython computes [x // y] from the exact remainder [fmod(x, y)]: the
    quotient [(x - mod) / y], lowered by one when the remainder's sign is not
    the divisor's, then [floor]ed and corrected by rounding. *)

Definition fneg (f : float) : bool :=
  match f with
  | S754_finite s _ _ | S754_zero s | S754_infinity s => s
  | S754_nan => false
  end.

Definition fmod (x y : float) : float :=
  match x, y with
  | S754_finite sx mx ex, S754_finite _ my ey =>
      let e := Z.min ex ey in
      let r := Z.rem (Z.pos mx * 2 ^ (ex - e)) (Z.pos my * 2 ^ (ey - e)) in
      if r =? 0 then S754_zero sx
      else binary_normalize fprec femax (if sx then - r else r) e sx
  | S754_zero s, S754_finite _ _ _ => x
  | S754_finite _ _ _, S754_infinity _ => x
  | S754_zero _, S754_infinity _ => x
  | _, _ => S754_nan
  end.

Definition ffloor (x : float) : float :=
  match x with
  | S754_finite s m e =>
      if 0 <=? e then x
      else
        let v := if s then Z.neg m else Z.pos m in
        let q := v / 2 ^ (- e) in
        if q =? 0 then S754_zero s else float_of_Z q
  | _ => x
  end.

Definition fone : float := float_of_Z 1.
Definition fhalf : float := S754_finite false (2 ^ 52)%positive (-53).

Definition ffloordiv (x y : float) : result ArithError float :=
  if is_fzero y then Err ZeroDivisionError
  else
    let r := fmod x y in
    let div := fdiv (fsub x r) y in
    let div := if negb (is_fzero r) && xorb (fneg y) (flt r fzero)
               then fsub div fone else div in
    Ok (if is_fzero div then S754_zero (fneg (fdiv x y))
        else
          let fl := ffloor div in
          if flt fhalf (fsub div fl) then fadd fl fone else fl).

(** ** Laws used by the components *)

Lemma num_min_le_int (z : Z) (b : num) :
  num_le (num_min (NInt z) b) (NInt z) = true.
Proof.
  unfold num_min, num_lt, num_le. destruct (num_compare b (NInt z)) as [[]|] eqn:E;
    simpl; rewrite ?E; try done; by rewrite Z.compare_refl.
Qed.

Lemma num_le_int_int x y : num_le (NInt x) (NInt y) = (x <=? y).
Proof. unfold num_le; simpl. unfold Z.leb. by destruct (x ?= y). Qed.

(** The integer part of a number that is at most [z] is at most [z]. *)
Lemma num_int_le (a : num) (z t : Z) :
  num_le a (NInt z) = true → num_int a = Ok t → 0 <= z → t <= z.
Proof.
  destruct a as [x|f]; simpl.
  { rewrite num_le_int_int. intros H [= ->] _. lia. }
  unfold num_le; simpl. unfold ftrunc.
  destruct f as [s|s| |s m e]; simpl; try done.
  - intros H [= <-] ?; destruct z; simpl in *; try lia; done.
  - destruct (0 <=? e) eqn:He.
    + intros H [= <-] _. bool_to_prop.
      assert (0 < 2 ^ e) by (apply Z.pow_pos_nonneg; lia).
      destruct s; simpl in *.
      * destruct (Z.compare_spec z (Z.neg m * 2 ^ e)); simpl in *; try done; lia.
      * destruct (Z.compare_spec z (Z.pos m * 2 ^ e)); simpl in *; try done; lia.
    + bool_to_prop. intros H [= <-] Hz.
      assert (0 < 2 ^ (- e)) as Hp by (apply Z.pow_pos_nonneg; lia).
      pose proof (Z.div_pos (Z.pos m) (2 ^ (- e)) ltac:(lia) Hp).
      destruct s; simpl in *.
      * lia.
      * destruct (Z.compare_spec (z * 2 ^ (- e)) (Z.pos m)); simpl in *; try done.
        -- apply Z.div_le_upper_bound; lia.
        -- apply Z.div_le_upper_bound; lia.
Qed.

Lemma num_lt_float f g : num_lt (NFloat f) (NFloat g) = flt f g.
Proof.
  unfold num_lt; simpl. unfold flt, SFltb. by destruct (SFcompare f g) as [[]|].
Qed.

#[global] Arguments num_add : simpl never.
#[global] Arguments num_sub : simpl never.
#[global] Arguments num_mul : simpl never.
#[global] Arguments num_div : simpl never.
#[global] Arguments num_int : simpl never.
