(* ===== verification/PyStr.v ===== *)
(** * Python string methods

    The string operations the components use, on strings of bytes: [split],
    [join], [startswith], [endswith], [in], [strip], [upper], [str(int)], and
    the decimal [int(str)]. *)

From Stdlib Require Import ZArith Lia.
From Stdlib Require Import Ascii.
From Stdlib Require String.
From stdpp Require Import base numbers strings pretty list.
From S2P Require Import Prelude.


(** [s.split(c)] for a one-character separator; never empty. *)
Fixpoint split_on (c : ascii) (s : string) : list string :=
  match s with
  | EmptyString => [EmptyString]
  | String a s' =>
      if decide (a = c) then EmptyString :: split_on c s'
      else match split_on c s' with
           | [] => [String a EmptyString]
           | w :: ws => String a w :: ws
           end
  end.

(** [sep.join(l)] *)
Definition join (sep : string) (l : list string) : string := String.concat sep l.

(** [s.rstrip(c)] for one character *)
Fixpoint rstrip_char (c : ascii) (s : string) : string :=
  match s with
  | EmptyString => EmptyString
  | String a s' =>
      match rstrip_char c s' with
      | EmptyString => if decide (a = c) then EmptyString else String a EmptyString
      | t => String a t
      end
  end.

(** [s.startswith(p)], [s.endswith(p)] *)
Definition startswith (p s : string) : bool := String.prefix p s.

Fixpoint endswith (p s : string) : bool :=
  bool_decide (s = p) || match s with EmptyString => false | String _ s' => endswith p s' end.

(** [sub in s] *)
Fixpoint contains (sub s : string) : bool :=
  String.prefix sub s || match s with EmptyString => false | String _ s' => contains sub s' end.

Definition is_space (a : ascii) : bool :=
  let n := Ascii.nat_of_ascii a in
  (Nat.leb 9 n && Nat.leb n 13) || (Nat.leb 28 n && Nat.leb n 32).

Fixpoint lstrip (s : string) : string :=
  match s with
  | String a s' => if is_space a then lstrip s' else s
  | EmptyString => EmptyString
  end.

Fixpoint rstrip (s : string) : string :=
  match s with
  | EmptyString => EmptyString
  | String a s' =>
      match rstrip s' with
      | EmptyString => if is_space a then EmptyString else String a EmptyString
      | t => String a t
      end
  end.

Definition strip (s : string) : string := rstrip (lstrip s).

Definition upper_ascii (a : ascii) : ascii :=
  let n := Ascii.nat_of_ascii a in
  if Nat.leb 97 n && Nat.leb n 122 then Ascii.ascii_of_nat (n - 32) else a.

Fixpoint upper (s : string) : string :=
  match s with
  | EmptyString => EmptyString
  | String a s' => String (upper_ascii a) (upper s')
  end.

Definition lower_ascii (a : ascii) : ascii :=
  let n := Ascii.nat_of_ascii a in
  if Nat.leb 65 n && Nat.leb n 90 then Ascii.ascii_of_nat (n + 32) else a.

Fixpoint lower (s : string) : string :=
  match s with
  | EmptyString => EmptyString
  | String a s' => String (lower_ascii a) (lower s')
  end.

(** [str(z)] *)
Definition str_of_Z (z : Z) : string := pretty z.

(** ** Decimal numerals *)

Definition is_digit (a : ascii) : bool :=
  let n := Ascii.nat_of_ascii a in Nat.leb 48 n && Nat.leb n 57.

Definition digit_value (a : ascii) : Z := Z.of_nat (Ascii.nat_of_ascii a) - 48.

Fixpoint all_digits (s : string) : bool :=
  match s with
  | EmptyString => true
  | String a s' => is_digit a && all_digits s'
  end.

(** [s.isdigit()] on ASCII: at least one character, digits only. *)
Definition isdigit (s : string) : bool := truthy s && all_digits s.

Fixpoint digits_value (acc : Z) (s : string) : Z :=
  match s with
  | EmptyString => acc
  | String a s' => digits_value (10 * acc + digit_value a) s'
  end.

(** [int(s)] on a numeral accepted by [isdigit] *)
Definition int_of_digits (s : string) : Z := digits_value 0 s.

(** [s.partition(c)]: the part before the first [c], and the part after it. *)
Fixpoint partition (c : ascii) (s : string) : string * option string :=
  match s with
  | EmptyString => (EmptyString, None)
  | String a s' =>
      if decide (a = c) then (EmptyString, Some s')
      else let '(l, r) := partition c s' in (String a l, r)
  end.

(** [int(s)] on a text: surrounding blanks, a sign, digits with single
    underscores between them. *)
Fixpoint int_digits (acc : Z) (after_digit : bool) (s : string) : option Z :=
  match s with
  | EmptyString => if after_digit then Some acc else None
  | String a s' =>
      if is_digit a then int_digits (10 * acc + digit_value a) true s'
      else if bool_decide (a = Ascii.ascii_of_nat 95) && after_digit then int_digits acc false s'
      else None
  end.

Definition py_int (s : string) : option Z :=
  match strip s with
  | String a s' =>
      if decide (a = Ascii.ascii_of_nat 45) then Z.opp <$> int_digits 0 false s'
      else if decide (a = Ascii.ascii_of_nat 43) then int_digits 0 false s'
      else int_digits 0 false (String a s')
  | EmptyString => None
  end.

(** [s.split()]: the words between runs of white space. *)
Fixpoint words (s : string) : list string :=
  match s with
  | EmptyString => []
  | String a s' =>
      if is_space a then words s'
      else match s' with
      | EmptyString => [String a EmptyString]
      | String b _ =>
          if is_space b then String a EmptyString :: words s'
          else match words s' with w :: ws => String a w :: ws | [] => [String a EmptyString] end
      end
  end.

(** ** Laws *)

Lemma split_on_nonempty c s : split_on c s ≠ [].
Proof. destruct s as [|a s]; simpl; [done|]. case_decide; [done|]. by destruct (split_on c s). Qed.

Lemma concat_char sep a w ws :
  String.concat sep (String a w :: ws) = String a (String.concat sep (w :: ws)).
Proof. by destruct ws. Qed.

(** Splitting and joining with the same separator is the identity. *)
Lemma join_split c s : join (String c EmptyString) (split_on c s) = s.
Proof.
  unfold join. induction s as [|a s IH]; [done|]. cbn [split_on].
  pose proof (split_on_nonempty c s) as Hne. case_decide as E.
  - subst. destruct (split_on c s) as [|w ws]; [done|].
    change (String c (String.concat (String c EmptyString) (w :: ws)) = String c s). by rewrite IH.
  - destruct (split_on c s) as [|w ws]; [done|]. by rewrite concat_char, IH.
Qed.

(** No part of a split contains the separator. *)
Fixpoint no_char (c : ascii) (s : string) : bool :=
  match s with
  | EmptyString => true
  | String a s' => negb (bool_decide (a = c)) && no_char c s'
  end.

Lemma split_on_parts c s : Forall (λ w, no_char c w = true) (split_on c s).
Proof.
  induction s as [|a s IH]; simpl; [by repeat constructor|]. case_decide.
  - by constructor.
  - destruct (split_on c s) as [|w ws]; simpl.
    + constructor; [|constructor]. simpl. by rewrite bool_decide_eq_false_2.
    + apply Forall_cons in IH as [Hw Hws]. constructor; [|done]. simpl.
      by rewrite bool_decide_eq_false_2, Hw.
Qed.

Lemma split_on_app_sep c w s :
  no_char c w = true → split_on c (w +:+ String c s) = w :: split_on c s.
Proof.
  induction w as [|a w IH]; simpl; intros Hw; [by rewrite decide_True|].
  apply andb_prop in Hw as [Ha Hw]. rewrite decide_False by (by intros ->; case_bool_decide).
  by rewrite IH.
Qed.

Lemma split_on_single c w : no_char c w = true → split_on c w = [w].
Proof.
  induction w as [|a w IH]; simpl; intros Hw; [done|].
  apply andb_prop in Hw as [Ha Hw]. rewrite decide_False by (by intros ->; case_bool_decide).
  by rewrite IH.
Qed.

Lemma split_join c l :
  l ≠ [] → Forall (λ w, no_char c w = true) l → split_on c (join (String c EmptyString) l) = l.
Proof.
  intros Hne Hl. induction Hl as [|w l Hw Hl IH]; [done|]. unfold join in *.
  destruct l as [|w' l]; [by apply split_on_single|].
  change (String.concat (String c EmptyString) (w :: w' :: l))
    with (w +:+ (String c EmptyString +:+ String.concat (String c EmptyString) (w' :: l))).
  change (String c EmptyString +:+ String.concat (String c EmptyString) (w' :: l))
    with (String c (String.concat (String c EmptyString) (w' :: l))).
  rewrite split_on_app_sep by done. by rewrite IH.
Qed.

(** ** Numerals and [str] *)

Open Scope Z_scope.

(** Canonical numerals: digits without a leading zero, or ["0"]. *)
Definition numeral (s : string) : bool :=
  match s with
  | EmptyString => false
  | String a s' =>
      is_digit a && all_digits s' &&
      (negb (bool_decide (a = Ascii.ascii_of_nat 48)) || bool_decide (s' = EmptyString))
  end.

Lemma digits_value_app acc a b :
  digits_value acc (a +:+ b) = digits_value (digits_value acc a) b.
Proof. revert acc. induction a as [|c a IH]; intros acc; simpl; [done|]. apply IH. Qed.

Lemma all_digits_app a b : all_digits (a +:+ b) = all_digits a && all_digits b.
Proof. induction a as [|c a IH]; simpl; [done|]. rewrite IH. by rewrite andb_assoc. Qed.

Lemma digit_char (n : N) :
  (n < 10)%N → is_digit (pretty_N_char n) = true ∧ digit_value (pretty_N_char n) = Z.of_N n.
Proof.
  intros Hn.
  assert (n = 0 ∨ n = 1 ∨ n = 2 ∨ n = 3 ∨ n = 4 ∨ n = 5 ∨ n = 6 ∨ n = 7 ∨ n = 8 ∨ n = 9)%N by lia.
  by repeat destruct_or?; subst.
Qed.

(** Every digit is the character of its value. *)
Lemma char_digit a :
  is_digit a = true → ∃ n, (n < 10)%N ∧ a = pretty_N_char n.
Proof.
  unfold is_digit. intros [H1%Nat.leb_le H2%Nat.leb_le]%andb_prop.
  exists (N.of_nat (Ascii.nat_of_ascii a - 48)). split; [lia|].
  rewrite <- (Ascii.ascii_nat_embedding a) at 1. revert H1 H2.
  generalize (Ascii.nat_of_ascii a) as m. intros m H1 H2.
  do 58 (destruct m as [|m]; [try lia; try done|]). lia.
Qed.

Lemma str_app_assoc (a b c : string) : (a +:+ b) +:+ c = a +:+ (b +:+ c).
Proof.
  induction a as [|x a IH]; [done|].
  change (String x ((a +:+ b) +:+ c) = String x (a +:+ (b +:+ c))). by rewrite IH.
Qed.

Lemma str_app_nil (a : string) : a +:+ EmptyString = a.
Proof. induction a as [|x a IH]; [done|]. change (String x (a +:+ EmptyString) = String x a). by rewrite IH. Qed.

(** The digits that [pretty] puts in front of an accumulator. *)
Lemma pretty_go_spec (x : N) (s : string) :
  (0 < x)%N →
  ∃ a d, pretty_N_go x s = String a d +:+ s ∧ is_digit a = true ∧ all_digits d = true ∧
    a ≠ Ascii.ascii_of_nat 48 ∧ int_of_digits (String a d) = Z.of_N x.
Proof.
  revert s. induction (N.lt_wf_0 x) as [x _ IH]. intros s Hx.
  rewrite pretty_N_go_step by done.
  assert (x mod 10 < 10)%N as Hr by (by apply N.mod_lt).
  destruct (digit_char _ Hr) as [Hd Hv].
  pose proof (N.div_mod x 10 ltac:(done)) as Hx10.
  destruct (decide (x `div` 10 = 0)%N) as [Hq|Hq].
  - rewrite Hq, pretty_N_go_0. exists (pretty_N_char (x mod 10)), EmptyString.
    split; [done|]. split; [done|]. split; [done|]. split.
    + intros Heq. rewrite Heq in Hv. change (digit_value _) with 0 in Hv. lia.
    + unfold int_of_digits. simpl. lia.
  - destruct (IH (x `div` 10)%N) with (s := String (pretty_N_char (x mod 10)) s)
      as (a & d & -> & Ha & Hda & Hne & Hval); [apply N.div_lt; lia|lia|].
    exists a, (d +:+ String (pretty_N_char (x mod 10)) EmptyString).
    split; [|split; [done|split; [|split; [done|]]]].
    + change (String a (d +:+ (String (pretty_N_char (x mod 10)) s))
        = String a ((d +:+ String (pretty_N_char (x mod 10)) EmptyString) +:+ s)).
      by rewrite str_app_assoc.
    + rewrite all_digits_app. simpl. by rewrite Hda, Hd.
    + unfold int_of_digits in *. simpl in *. rewrite digits_value_app. simpl. rewrite Hval. lia.
Qed.

(** [str(z)] of a natural number is a canonical numeral that reads back as [z]. *)
Lemma str_of_Z_spec z :
  0 <= z → numeral (str_of_Z z) = true ∧ int_of_digits (str_of_Z z) = z.
Proof.
  intros Hz. destruct z as [|p|p]; [done| |lia].
  destruct (pretty_go_spec (N.pos p) EmptyString) as (a & d & Hp & Ha & Hd & Hne & Hv); [lia|].
  unfold str_of_Z. change (pretty (Z.pos p)) with (pretty_N_go (N.pos p) EmptyString).
  rewrite Hp, str_app_nil. split; [|done]. simpl. rewrite Ha, Hd. simpl.
  by rewrite bool_decide_eq_false_2.
Qed.

Lemma pretty_go_value (d s : string) (acc : N) :
  all_digits d = true → (0 < acc)%N →
  pretty_N_go (Z.to_N (digits_value (Z.of_N acc) d)) s = pretty_N_go acc (d +:+ s).
Proof.
  revert acc s. induction d as [|a d IH]; intros acc s Hd Hacc; cbn [digits_value]; [by rewrite N2Z.id|].
  simpl in Hd. apply andb_prop in Hd as [Ha Hd]. destruct (char_digit a Ha) as (n & Hn & ->).
  destruct (digit_char n Hn) as [_ Hv]. rewrite Hv.
  replace (10 * Z.of_N acc + Z.of_N n) with (Z.of_N (10 * acc + n)) by lia.
  rewrite IH by (done || lia). rewrite pretty_N_go_step by lia.
  rewrite (N.mul_comm 10 acc), N.div_add_l, N.div_small, N.add_0_r by lia.
  by rewrite N.add_comm, N.Div0.mod_add, N.mod_small.
Qed.

(** A canonical numeral is printed as it was read. *)
Lemma str_of_int_of_digits d : numeral d = true → str_of_Z (int_of_digits d) = d.
Proof.
  destruct d as [|a d]; [done|]. simpl. intros [[Ha Hd]%andb_prop Hc]%andb_prop.
  destruct (char_digit a Ha) as (n & Hn & ->). destruct (digit_char n Hn) as [_ Hv].
  unfold int_of_digits. cbn [digits_value]. rewrite Hv. change (10 * 0 + Z.of_N n) with (Z.of_N n).
  destruct (decide (n = 0)%N) as [->|Hn0].
  { apply orb_prop in Hc as [Hc|Hc]; [done|]. apply bool_decide_eq_true in Hc as ->. done. }
  pose proof (pretty_go_value d EmptyString n Hd ltac:(lia)) as Hp.
  assert (0 < digits_value (Z.of_N n) d) as Hpos.
  { clear -Hd Hn0. assert (0 < Z.of_N n) as H by lia. revert H. generalize (Z.of_N n) as acc.
    induction d as [|b d IH]; intros acc Hacc; simpl in *; [done|].
    apply andb_prop in Hd as [Hb Hd]. apply IH; [done|].
    destruct (char_digit b Hb) as (m & Hm & ->). destruct (digit_char m Hm) as [_ ->]. lia. }
  unfold str_of_Z. destruct (digits_value (Z.of_N n) d) as [|p|p] eqn:E; [lia| |lia].
  change (pretty (Z.pos p)) with (pretty_N_go (N.pos p) EmptyString).
  change (Z.to_N (Z.pos p)) with (N.pos p) in Hp. rewrite Hp, str_app_nil.
  rewrite pretty_N_go_step by lia.
  rewrite N.div_small, N.mod_small by lia. apply pretty_N_go_0.
Qed.

(** ** Characters of a string *)

Fixpoint all_chars (P : ascii → bool) (s : string) : bool :=
  match s with EmptyString => true | String a s' => P a && all_chars P s' end.

Lemma all_chars_app P a b : all_chars P (a +:+ b) = all_chars P a && all_chars P b.
Proof.
  induction a as [|x a IH]; [done|]. change (P x && all_chars P (a +:+ b) = (P x && all_chars P a) && all_chars P b).
  by rewrite IH, andb_assoc.
Qed.

Lemma all_chars_mono (P Q : ascii → bool) s :
  (∀ a, P a = true → Q a = true) → all_chars P s = true → all_chars Q s = true.
Proof.
  intros HPQ. induction s as [|a s IH]; simpl; [done|]. intros [Ha Hs]%andb_prop.
  by rewrite HPQ, IH.
Qed.

Lemma all_chars_no_char P c s : P c = false → all_chars P s = true → no_char c s = true.
Proof.
  intros Hc. induction s as [|a s IH]; simpl; [done|]. intros [Ha Hs]%andb_prop.
  rewrite bool_decide_eq_false_2, IH; [done|done|]. intros ->. congruence.
Qed.

Lemma strip_id s : all_chars (λ a, negb (is_space a)) s = true → strip s = s.
Proof.
  intros Hs. unfold strip.
  assert (lstrip s = s) as ->.
  { destruct s as [|a s]; simpl in *; [done|]. apply andb_prop in Hs as [Ha _].
    by destruct (is_space a). }
  induction s as [|a s IH]; simpl in *; [done|]. apply andb_prop in Hs as [Ha Hs].
  rewrite IH by done. destruct s; [by destruct (is_space a)|done].
Qed.

Lemma split_all_chars P c s :
  Forall (λ w, all_chars P w = true) (split_on c s) →
  all_chars (λ a, P a || bool_decide (a = c)) s = true.
Proof.
  induction s as [|a s IH]; simpl; [done|]. case_decide as E.
  - intros [_ Hs]%Forall_cons. rewrite (bool_decide_eq_true_2 _ E), orb_true_r. by apply IH.
  - destruct (split_on c s) as [|w ws] eqn:Es; [by destruct (split_on_nonempty c s)|].
    intros [Hw Hws]%Forall_cons. simpl in Hw. apply andb_prop in Hw as [Ha Hw].
    rewrite Ha. simpl. apply IH. by constructor.
Qed.

(** ** Partition *)

Lemma partition_app c a b : no_char c a = true → partition c (a +:+ String c b) = (a, Some b).
Proof.
  induction a as [|x a IH]; intros Ha.
  - change (partition c (String c b) = (EmptyString, Some b)). simpl. by rewrite decide_True.
  - change (partition c (String x (a +:+ String c b)) = (String x a, Some b)).
    simpl in *. apply andb_prop in Ha as [Hx Ha]. rewrite decide_False, IH; [done..|].
    intros ->. by case_bool_decide.
Qed.

Lemma partition_none c a : no_char c a = true → partition c a = (a, None).
Proof.
  induction a as [|x a IH]; intros Ha; [done|]. simpl in *. apply andb_prop in Ha as [Hx Ha].
  rewrite decide_False, IH; [done..|]. intros ->. by case_bool_decide.
Qed.

Lemma partition_inv c s l r :
  partition c s = (l, r) → s = l +:+ match r with Some b => String c b | None => EmptyString end.
Proof.
  revert l. induction s as [|a s IH]; intros l; simpl; [by intros [= <- <-]|].
  case_decide as E; [intros [= <- <-]; by subst|].
  destruct (partition c s) as [l' r']. intros [= <- <-].
  change (String a s = String a (l' +:+ match r' with Some b => String c b | None => EmptyString end)).
  f_equal. by apply IH.
Qed.

(** ** [int] of a printed number *)

Lemma all_digits_chars s : all_digits s = all_chars is_digit s.
Proof. induction s as [|a s IH]; simpl; [done|]. by rewrite IH. Qed.

Lemma numeral_chars s : numeral s = true → all_chars is_digit s = true.
Proof.
  destruct s as [|a s]; [done|]. simpl. intros [[Ha Hs]%andb_prop _]%andb_prop.
  by rewrite Ha, <- all_digits_chars.
Qed.

Lemma int_digits_value acc b s :
  all_digits s = true → int_digits acc b s = if truthy s || b then Some (digits_value acc s) else None.
Proof.
  revert acc b. induction s as [|a s IH]; intros acc b; simpl; [by destruct b|].
  intros [Ha Hs]%andb_prop. rewrite Ha, IH by done. by rewrite orb_true_r.
Qed.

Lemma digit_no_space a : is_digit a = true → is_space a = false.
Proof.
  intros (n & Hn & ->)%char_digit.
  assert (n = 0 ∨ n = 1 ∨ n = 2 ∨ n = 3 ∨ n = 4 ∨ n = 5 ∨ n = 6 ∨ n = 7 ∨ n = 8 ∨ n = 9)%N by lia.
  by repeat destruct_or?; subst.
Qed.

Lemma py_int_str z : 0 <= z → py_int (str_of_Z z) = Some z.
Proof.
  intros Hz. destruct (str_of_Z_spec z Hz) as [Hn Hv]. unfold py_int.
  pose proof (numeral_chars _ Hn) as Hd. rewrite strip_id.
  2: { eapply all_chars_mono; [|exact Hd]. intros a Ha. by rewrite (digit_no_space a Ha). }
  destruct (str_of_Z z) as [|a s] eqn:E; [done|]. simpl in Hd. apply andb_prop in Hd as [Ha Hs].
  rewrite !decide_False; [|intros ->; done..].
  rewrite int_digits_value by (simpl; by rewrite Ha, all_digits_chars).
  by rewrite <- Hv.
Qed.
