(* ===== verification/WorkflowDagCycle.v ===== *)
(** * Correctness of the cycle detection of workflow DAGs

    The depth first search of [WorkflowDag.detect_cycle] terminates within its
    fuel and never raises; the empty answer means that the dependency relation
    is well founded on every id, and a non-empty answer is a genuine closed
    chain of dependencies.  [validate] therefore accepts exactly the workflows
    whose dependencies are known and acyclic. *)

From stdpp Require Import base list strings gmap relations.
From S2P Require Import Prelude PyFloat WorkflowDag.

Module WorkflowDagCycle.
Import WorkflowDag.

(** [dep_edge g d x]: the step [x] depends on [d]. *)
Definition dep_edge (g : gmap string (list string)) (d x : string) : Prop :=
  d ≠ "START" ∧ d ∈ default [] (g !! x).

(** Consecutive elements are related. *)
Fixpoint linked {A} (R : relation A) (l : list A) : Prop :=
  match l with
  | a :: ((b :: _) as l') => R a b ∧ linked R l'
  | _ => True
  end.

(** A closed chain: each element is a dependency of the next one and the last
    element is the first. *)
Definition dep_cycle (g : gmap string (list string)) (c : list string) : Prop :=
  linked (dep_edge g) c ∧ 2 ≤ length c ∧ head c = last c.

Lemma linked_tc {A} (R : relation A) l x y :
  linked R (x :: l) → l ≠ [] → last l = Some y → tc R x y.
Proof.
  revert x. induction l as [|z l IH]; intros x Hl Hne Hy; [done|].
  destruct Hl as [Hxz Hl]. destruct l as [|w l].
  - simplify_eq/=. by apply tc_once.
  - eapply tc_l; [exact Hxz|]. by apply IH.
Qed.

Lemma Acc_no_cycle {A} (R : relation A) x : Acc R x → ¬ tc R x x.
Proof.
  induction 1 as [x _ IH]. intros Hc.
  assert (∃ y, R y x ∧ rtc R x y) as (y & Hy & Hr).
  { revert Hc. apply (tc_ind_r (λ z, ∃ y, R y z ∧ rtc R x y) x);
      eauto using tc_rtc, rtc_refl. }
  apply (IH y Hy). eapply tc_l; [exact Hy|].
  apply rtc_tc in Hr as [->|Hr]; [by apply tc_once|].
  exact Hr.
Qed.

Section Search.
Context (g : gmap string (list string)).

(** The grey nodes are the recursion stack, linked by the parent map; the black
    ones depend on well founded nodes only. *)
Record dfs_inv (st : dfs_state) (stk : list string) : Prop := {
  inv_gray : ∀ x, color st !! x = Some GRAY ↔ x ∈ stk;
  inv_nodup : NoDup stk;
  inv_chain : linked (λ a b, parent st !! a = Some b ∧ dep_edge g a b) stk;
  inv_black : ∀ x, color st !! x = Some BLACK → Acc (dep_edge g) x;
  inv_dom : ∀ x, is_Some (g !! x) → is_Some (color st !! x)
}.

Definition whites (st : dfs_state) : gmap string Color :=
  filter (λ kv, kv.2 = WHITE) (color st).

Lemma whites_set st x c :
  c ≠ WHITE → whites (DfsState (<[x := c]> (color st)) (parent st)) = delete x (whites st).
Proof.
  intros Hc. unfold whites. simpl. rewrite map_filter_insert_False by done.
  apply map_filter_delete.
Qed.

Lemma whites_lookup st x : color st !! x = Some WHITE → whites st !! x = Some WHITE.
Proof. intros. unfold whites. by apply map_lookup_filter_Some. Qed.

(** Walking the parent links from the top of the stack reaches every element of
    the stack. *)
Lemma walk_back_spec fuel par dep cur rest acc :
  linked (λ a b, par !! a = Some b ∧ dep_edge g a b) (cur :: rest) →
  dep ∈ cur :: rest → length (cur :: rest) ≤ fuel →
  ∃ suf, walk_back fuel par dep cur acc = Ok (acc ++ suf) ∧
         linked (dep_edge g) (cur :: suf) ∧ last (cur :: suf) = Some dep.
Proof.
  revert cur rest acc. induction fuel as [|fuel IH]; intros cur rest acc Hl Hd Hf;
    [simpl in Hf; lia|]. simpl.
  case_decide as Heq; [subst; exists []; by rewrite app_nil_r|].
  destruct rest as [|b rest]; [set_solver|].
  destruct Hl as [[Hpar Hedge] Hl]. rewrite Hpar. simpl.
  destruct (IH b rest (acc ++ [b])) as (suf & Hw & Hlink & Hlast);
    [done|set_solver|simpl in *; lia|].
  exists (b :: suf). rewrite Hw, <-app_assoc. split; [done|].
  split; [by split|]. by rewrite last_cons_cons.
Qed.

#[local] Arguments walk_back : simpl never.

Lemma stack_size st stk : dfs_inv st stk → length stk ≤ size (color st).
Proof.
  intros Hi. rewrite <-(size_list_to_set (C:=gset string)) by apply Hi.
  rewrite <-(size_dom (D:=gset string)). apply subseteq_size.
  intros x Hx%elem_of_list_to_set. apply (inv_gray _ _ Hi) in Hx.
  apply elem_of_dom. eauto.
Qed.

(** Painting a white node grey pushes it on the stack. *)
Lemma dfs_push st stk node :
  dfs_inv st stk → color st !! node = Some WHITE →
  match stk with
  | [] => True
  | b :: _ => parent st !! node = Some b ∧ dep_edge g node b
  end →
  dfs_inv (DfsState (<[node := GRAY]> (color st)) (parent st)) (node :: stk).
Proof.
  intros Hi Hw Hlink. split; simpl.
  - intros x. rewrite lookup_insert, elem_of_cons.
    case_decide; [naive_solver|]. rewrite (inv_gray _ _ Hi). naive_solver.
  - apply NoDup_cons. split; [|apply Hi].
    intros Hin%(inv_gray _ _ Hi). congruence.
  - destruct stk; [done|]. split; [done|]. apply Hi.
  - intros x. rewrite lookup_insert. case_decide; [done|]. apply Hi.
  - intros x Hx. rewrite lookup_insert. case_decide; [done|]. by apply Hi.
Qed.

(** Painting the top of the stack black pops it once its dependencies are well
    founded. *)
Lemma dfs_pop st stk node :
  dfs_inv st (node :: stk) →
  (∀ d, dep_edge g d node → Acc (dep_edge g) d) →
  dfs_inv (DfsState (<[node := BLACK]> (color st)) (parent st)) stk.
Proof.
  intros Hi Hacc.
  assert (node ∉ stk ∧ NoDup stk) as [Hn Hnd] by (apply NoDup_cons, Hi).
  split; simpl.
  - intros x. rewrite lookup_insert. case_decide; [naive_solver|].
    rewrite (inv_gray _ _ Hi), elem_of_cons. naive_solver.
  - done.
  - pose proof (inv_chain _ _ Hi) as Hc. destruct stk; [done|]. apply Hc.
  - intros x. rewrite lookup_insert. case_decide; [|apply Hi].
    intros _. subst. by constructor.
  - intros x Hx. rewrite lookup_insert. case_decide; [done|]. by apply Hi.
Qed.

(** The parent link written before a recursive call. *)
Lemma dfs_set_parent st stk dep node :
  dfs_inv st stk → color st !! dep = Some WHITE →
  dfs_inv (DfsState (color st) (<[dep := node]> (parent st))) stk.
Proof.
  intros Hi Hw. split; simpl; [apply Hi..| |apply Hi|apply Hi].
  assert (dep ∉ stk) as Hn.
  { intros Hin%(inv_gray _ _ Hi). congruence. }
  pose proof (inv_chain _ _ Hi) as Hc. clear Hi. induction stk as [|a stk IH]; [done|].
  destruct stk as [|b stk]; [done|]. destruct Hc as [[Hp He] Hc].
  split; [split; [rewrite lookup_insert_ne; set_solver|done]|].
  apply IH; [set_solver|done].
Qed.

(** The outcome of a search started below the stack [stk]. *)
Definition dfs_post (st : dfs_state) (stk : list string) (node : string)
    (r : result DagError (dfs_state * option (list string))) : Prop :=
  match r with
  | Ok (st', None) =>
      dfs_inv st' stk ∧ color st' !! node = Some BLACK ∧ whites st' ⊆ whites st
      ∧ (∀ x, color st !! x = Some BLACK → color st' !! x = Some BLACK)
  | Ok (_, Some c) => dep_cycle g c
  | Err _ => False
  end.

Lemma dfs_loop_spec rec node deps st stk n :
  (∀ dep st' stk', dfs_inv st' stk' → color st' !! dep = Some WHITE →
     match stk' with
     | [] => True
     | b :: _ => parent st' !! dep = Some b ∧ dep_edge g dep b
     end →
     size (whites st') ≤ n → dfs_post st' stk' dep (rec dep st')) →
  dfs_inv st (node :: stk) → size (whites st) ≤ n →
  (∀ d, d ∈ deps → d ∈ default [] (g !! node)) →
  (∀ d, dep_edge g d node → d ∉ deps → Acc (dep_edge g) d) →
  dfs_post st stk node (dfs_loop rec node deps st).
Proof.
  intros Hrec. revert st. induction deps as [|dep deps IH]; intros st Hi Hn Hsub Hacc.
  { simpl. split; [apply dfs_pop; set_solver|]. simpl.
    rewrite lookup_insert_eq, whites_set by done.
    split; [done|]. split; [apply delete_subseteq|].
    intros x Hx. rewrite lookup_insert. by case_decide. }
  simpl. case_decide as Hs.
  { subst. apply IH; [done|done|set_solver|].
    intros d Hd Hnd. apply Hacc; [done|]. destruct Hd. set_solver. }
  assert (dep_edge g dep node) as Hedge by (split; [done|apply Hsub; set_solver]).
  destruct (color st !! dep) as [[| |]|] eqn:Hcol.
  - pose proof (Hrec dep (DfsState (color st) (<[dep := node]> (parent st))) (node :: stk))
      as Hp. destruct (rec dep _) as [[st' [c|]]|e]; simpl in Hp.
    + apply Hp; [by apply dfs_set_parent|done|by rewrite lookup_insert_eq|done].
    + destruct Hp as (Hi' & Hb & Hw & Hbl);
        [by apply dfs_set_parent|done|by rewrite lookup_insert_eq|done|].
      assert (dfs_post st' stk node (dfs_loop rec node deps st')) as Hpost.
      { apply IH; [done| |set_solver|].
        { apply map_subseteq_size in Hw. unfold whites in *; simpl in *; lia. }
        intros d Hd Hnd. destruct (decide (d = dep)) as [->|]; [by apply Hi'|].
        apply Hacc; set_solver. }
      unfold dfs_post in *.
      destruct (dfs_loop rec node deps st') as [[st'' [c|]]|e]; [done| |done].
      destruct Hpost as (?&?&Hw'&Hbl'). split; [done|]. split; [done|]. split.
      * etrans; [exact Hw'|exact Hw].
      * intros x Hx. by apply Hbl', Hbl.
    + exfalso. apply Hp; [by apply dfs_set_parent|done|by rewrite lookup_insert_eq|done].
  - destruct (walk_back_spec (S (size (color st))) (parent st) dep node stk [dep; node])
      as (suf & Hw & Hlink & Hlast).
    { apply Hi. } { by apply (inv_gray _ _ Hi). }
    { pose proof (stack_size _ _ Hi). lia. }
    rewrite Hw. simpl. split; [by split|]. split; [simpl; lia|].
    by rewrite last_cons_cons.
  - apply IH; [done|done|set_solver|]. intros d Hd Hnd.
    destruct (decide (d = dep)) as [->|]; [by apply Hi|apply Hacc; set_solver].
  - apply IH; [done|done|set_solver|]. intros d Hd Hnd.
    destruct (decide (d = dep)) as [->|]; [|apply Hacc; set_solver].
    constructor. intros y [_ Hy]. destruct (g !! dep) eqn:E; [|set_solver].
    assert (is_Some (color st !! dep)) as [? ?] by (apply Hi; eauto). congruence.
Qed.

Lemma dfs_spec fuel node st stk :
  dfs_inv st stk → color st !! node = Some WHITE →
  match stk with
  | [] => True
  | b :: _ => parent st !! node = Some b ∧ dep_edge g node b
  end →
  size (whites st) ≤ fuel → dfs_post st stk node (dfs fuel g node st).
Proof.
  revert node st stk. induction fuel as [|fuel IH]; intros node st stk Hi Hw Hl Hf.
  { apply whites_lookup in Hw. apply Nat.le_0_r, map_size_empty_inv in Hf.
    by rewrite Hf in Hw. }
  simpl.
  assert (size (whites (DfsState (<[node:=GRAY]> (color st)) (parent st))) ≤ fuel) as Hf'.
  { rewrite whites_set by done.
    rewrite map_size_delete_Some by (eexists; by apply whites_lookup). lia. }
  pose proof (dfs_loop_spec (dfs fuel g) node (default [] (g !! node))
    (DfsState (<[node:=GRAY]> (color st)) (parent st)) stk fuel) as Hp.
  unfold dfs_post in *.
  destruct (dfs_loop _ _ _ _) as [[st' [c|]]|e].
  - apply Hp; [done|by apply dfs_push|done|done|]. intros d [_ Hd]. done.
  - destruct Hp as (?&?&Hsub&Hbl); [done|by apply dfs_push|done|done| |].
    { intros d [_ Hd]. done. }
    rewrite whites_set in Hsub by done.
    split; [done|]. split; [done|]. split.
    + etrans; [exact Hsub|]. apply delete_subseteq.
    + intros x Hx. apply Hbl. simpl. rewrite lookup_insert_ne; [done|]. congruence.
  - apply Hp; [done|by apply dfs_push|done|done|]. intros d [_ Hd]. done.
Qed.

Lemma detect_loop_spec fuel steps st :
  dfs_inv st [] → size (whites st) ≤ fuel →
  (∀ s, s ∈ steps → is_Some (g !! id s)) →
  match detect_loop fuel g steps st with
  | Ok [] => ∀ s, s ∈ steps → Acc (dep_edge g) (id s)
  | Ok c => dep_cycle g c
  | Err _ => False
  end.
Proof.
  revert st. induction steps as [|s steps IH]; intros st Hi Hf Hdom; simpl; [set_solver|].
  assert (∀ st', dfs_inv st' [] → color st' !! id s = Some BLACK →
    size (whites st') ≤ fuel →
    match detect_loop fuel g steps st' with
    | Ok [] => ∀ s', s' ∈ s :: steps → Acc (dep_edge g) (id s')
    | Ok c => dep_cycle g c
    | Err _ => False
    end) as Hnext.
  { intros st' Hi' Hb Hf'. specialize (IH st' Hi' Hf').
    destruct (detect_loop _ _ _ _) as [[|??]|];
      [|apply IH; set_solver|apply IH; set_solver].
    intros s' [->|Hs']%elem_of_cons; [by apply Hi'|apply IH; set_solver]. }
  destruct (inv_dom _ _ Hi (id s)) as [col Hcol]; [apply Hdom; set_solver|].
  rewrite Hcol. destruct col.
  - pose proof (dfs_spec fuel (id s) st [] Hi Hcol I Hf) as Hp.
    destruct (dfs fuel g (id s) st) as [[st' [c|]]|]; simpl in Hp; [| |done].
    + by destruct c; [destruct Hp as (_&?&_); simpl in *; lia|].
    + destruct Hp as (Hi' & Hb & Hw & Hbl). apply Hnext; [done|done|].
      apply map_subseteq_size in Hw. lia.
  - apply (inv_gray _ _ Hi) in Hcol. set_solver.
  - by apply Hnext.
Qed.
End Search.

(** ** The workflow as a relation *)

(** [depends steps d x]: some step with id [x] lists [d] as a dependency. *)
Definition depends (steps : list WorkflowStep) (d x : string) : Prop :=
  d ≠ "START" ∧ ∃ s, s ∈ steps ∧ id s = x ∧ d ∈ depends_on s.

Definition acyclic (steps : list WorkflowStep) : Prop :=
  ∀ x, ¬ tc (depends steps) x x.

Definition deps_known (steps : list WorkflowStep) : Prop :=
  ∀ s d, s ∈ steps → d ∈ depends_on s → d = "START" ∨ d ∈ id <$> steps.

Lemma foldl_insert_lookup {B} (f : WorkflowStep → B) steps (m : gmap string B) x :
  foldl (λ m s, <[id s := f s]> m) m steps !! x
  = match last (filter (λ s, id s = x) steps) with
    | Some s => Some (f s)
    | None => m !! x
    end.
Proof.
  induction steps as [|s steps IH] using rev_ind; [done|].
  rewrite foldl_app, filter_app. simpl. rewrite lookup_insert.
  rewrite filter_cons, filter_nil.
  case_decide; [by rewrite last_snoc|]. by rewrite app_nil_r.
Qed.

Lemma last_filter_id steps x s :
  last (filter (λ s, id s = x) steps) = Some s → s ∈ steps ∧ id s = x.
Proof. intros H%last_Some_elem_of. apply list_elem_of_filter in H. naive_solver. Qed.

Lemma dep_graph_dom steps s : s ∈ steps → is_Some (dep_graph steps !! id s).
Proof.
  intros Hs. unfold dep_graph. rewrite foldl_insert_lookup.
  destruct (last _) eqn:E; [eauto|]. apply last_None in E.
  assert (s ∈ filter (λ s', id s' = id s) steps) as H; [by apply list_elem_of_filter|].
  rewrite E in H. set_solver.
Qed.

Lemma dep_edge_depends steps d x : dep_edge (dep_graph steps) d x → depends steps d x.
Proof.
  intros [Hs Hd]. split; [done|]. unfold dep_graph in Hd.
  rewrite foldl_insert_lookup in Hd.
  destruct (last _) as [s|] eqn:E; [|simpl in Hd; set_solver].
  apply last_filter_id in E as [??]. eauto.
Qed.

Lemma NoDup_id_eq steps s s' :
  NoDup (id <$> steps) → s ∈ steps → s' ∈ steps → id s = id s' → s = s'.
Proof.
  intros Hnd (i & Hi)%list_elem_of_lookup (j & Hj)%list_elem_of_lookup Heq.
  assert (i = j) as ->; [|congruence].
  eapply NoDup_lookup; [exact Hnd| |]; rewrite list_lookup_fmap;
    [by rewrite Hi|by rewrite Hj; simpl; rewrite Heq].
Qed.

Lemma depends_dep_edge steps d x :
  NoDup (id <$> steps) → depends steps d x → dep_edge (dep_graph steps) d x.
Proof.
  intros Hnd [Hs (s & Hin & <- & Hd)]. split; [done|].
  unfold dep_graph. rewrite foldl_insert_lookup.
  destruct (last _) as [s'|] eqn:E.
  - apply last_filter_id in E as [??]. by rewrite (NoDup_id_eq steps s' s).
  - destruct (dep_graph_dom steps s Hin) as [? Hg]. unfold dep_graph in Hg.
    by rewrite foldl_insert_lookup, E in Hg.
Qed.

Lemma white_colors_lookup steps x c :
  white_colors steps !! x = Some c → c = WHITE ∧ ∃ s, s ∈ steps ∧ id s = x.
Proof.
  unfold white_colors. rewrite (foldl_insert_lookup (λ _, WHITE)).
  destruct (last _) as [s|] eqn:E; [|done]. intros [= <-].
  apply last_filter_id in E. eauto.
Qed.

Lemma initial_inv steps :
  dfs_inv (dep_graph steps) (DfsState (white_colors steps) ∅) [].
Proof.
  split; simpl; [|constructor|done| |].
  - intros x. split; [intros [? _]%white_colors_lookup; done|set_solver].
  - intros x [? _]%white_colors_lookup. done.
  - intros x. unfold dep_graph, white_colors.
    rewrite foldl_insert_lookup, (foldl_insert_lookup (λ _, WHITE)).
    by destruct (last _); [eauto|intros [? ?]].
Qed.

Lemma initial_whites steps :
  size (whites (DfsState (white_colors steps) ∅)) ≤ S (length steps).
Proof.
  transitivity (size (white_colors steps)).
  { apply map_subseteq_size, map_filter_subseteq. }
  unfold white_colors. rewrite <-(Nat.add_0_r (length steps)).
  change 0 with (size (∅ : gmap string Color)) at 1.
  generalize (∅ : gmap string Color) as m. induction steps as [|s steps IH]; simpl; [lia|].
  intros m. rewrite IH. rewrite map_size_insert. destruct (m !! id s); simpl; lia.
Qed.

(** The search answers on every workflow: the fuel suffices and no access
    raises. *)
Lemma detect_cycle_spec steps :
  match detect_cycle steps with
  | Ok [] => ∀ s, s ∈ steps → Acc (dep_edge (dep_graph steps)) (id s)
  | Ok c => dep_cycle (dep_graph steps) c
  | Err _ => False
  end.
Proof.
  apply detect_loop_spec; [apply initial_inv|apply initial_whites|apply dep_graph_dom].
Qed.

Lemma dep_cycle_tc R (c : list string) x :
  linked R c → 2 ≤ length c → head c = last c → head c = Some x → tc R x x.
Proof.
  intros Hl Hlen Hhl Hx. destruct c as [|y [|z c]]; [done|simpl in *; lia|].
  simpl in Hx. simplify_eq. apply (linked_tc R (z :: c)); [exact Hl|done|].
  symmetry. exact Hhl.
Qed.

Lemma linked_impl {A} (R R' : relation A) l :
  (∀ x y, R x y → R' x y) → linked R l → linked R' l.
Proof.
  intros HR. induction l as [|a [|b l] IH]; [done|done|].
  intros [? ?]. split; [by apply HR|by apply IH].
Qed.

Lemma check_deps_spec all steps :
  match check_deps all steps with
  | Ok _ => ∀ s d, s ∈ steps → d ∈ depends_on s → d = "START" ∨ d ∈ id <$> all
  | Err (ValueError i d) =>
      ∃ s, s ∈ steps ∧ id s = i ∧ d ∈ depends_on s ∧ d ≠ "START" ∧ d ∉ id <$> all
  | Err _ => False
  end.
Proof.
  assert (∀ deps, match first_unknown all deps with
    | None => ∀ d, d ∈ deps → d = "START" ∨ d ∈ id <$> all
    | Some d => d ∈ deps ∧ d ≠ "START" ∧ d ∉ id <$> all
    end) as Hf.
  { induction deps as [|d deps IH]; simpl; [set_solver|].
    destruct (known_dep all d) eqn:E; unfold known_dep in E.
    - destruct (first_unknown all deps); [set_solver|].
      intros d' [->|?]%elem_of_cons; [|auto].
      apply orb_true_iff in E as [?|?]; bool_to_prop; auto.
    - bool_to_prop. set_solver. }
  induction steps as [|s steps IH]; simpl; [set_solver|].
  specialize (Hf (depends_on s)). destruct (first_unknown all (depends_on s)) as [d|].
  - exists s. set_solver.
  - destruct (check_deps all steps) as [?|[]]; set_solver.
Qed.

(** An accepted workflow has known dependencies and a well founded dependency
    relation. *)
Lemma validated_acc steps :
  NoDup (id <$> steps) → validate steps = Ok tt →
  deps_known steps ∧ ∀ s, s ∈ steps → Acc (depends steps) (id s).
Proof.
  intros Hnd Hv. unfold validate in Hv. pose proof (check_deps_spec steps steps) as Hk.
  pose proof (detect_cycle_spec steps) as Hd.
  destruct (check_deps steps steps) as [?|e]; [|done].
  destruct (detect_cycle steps) as [[|c0 c]|]; [|done|done].
  split; [done|]. intros s Hs. specialize (Hd s Hs).
  induction Hd as [x _ IH]. constructor. intros d Hdep.
  by apply IH, depends_dep_edge.
Qed.

(** (C1) [WorkflowDAG._validate] decides well-formedness of a workflow with
    distinct step ids: it accepts exactly when every dependency is a step of
    the workflow (or ["START"]) and the dependency relation is acyclic; the
    depth first search needs no more fuel than the number of steps. *)
Theorem validate_iff_acyclic (steps : list WorkflowStep)
    (Hids : NoDup (id <$> steps)) :
  validate steps = Ok tt ↔ deps_known steps ∧ acyclic steps.
Proof.
  unfold validate. pose proof (check_deps_spec steps steps) as Hk.
  pose proof (detect_cycle_spec steps) as Hd.
  destruct (check_deps steps steps) as [?|e].
  - destruct (detect_cycle steps) as [[|c0 c]|]; [|split|done].
    + split; [|done]. intros _. split; [done|]. intros x Hc.
      assert (∃ s, s ∈ steps ∧ id s = x) as (s & Hs & <-).
      { clear -Hc. assert (∃ d, depends steps d x) as [d [_ (s & ? & ? & _)]]; [|eauto].
        revert Hc. generalize x at 1. intros y. induction 1; eauto. }
      eapply Acc_no_cycle; [by apply Hd|].
      eapply (tc_congruence (λ x, x)); [|exact Hc]. intros ??. by apply depends_dep_edge.
    + done.
    + intros [_ Hac]. destruct Hd as (Hl & Hlen & Hhl). exfalso.
      eapply (Hac c0), dep_cycle_tc; [|exact Hlen|exact Hhl|done].
      eapply linked_impl; [|exact Hl]. apply dep_edge_depends.
  - split; [done|]. intros [Hdk _]. destruct e; try done.
    destruct Hk as (s & ? & ? & ? & ? & ?). destruct (Hdk s dep); naive_solver.
Qed.

(** (C2) The errors of [_validate] are genuine: a [ValueError] names a step and
    a dependency of it that no step defines, a [CycleError] carries a closed
    chain of dependencies of the workflow, and nothing else is raised. *)
Theorem validate_error_sound (steps : list WorkflowStep) (e : DagError)
    (He : validate steps = Err e) :
  match e with
  | ValueError i d =>
      ∃ s, s ∈ steps ∧ id s = i ∧ d ∈ depends_on s ∧ d ≠ "START" ∧ d ∉ id <$> steps
  | CycleError c =>
      linked (depends steps) c ∧ 2 ≤ length c ∧ head c = last c
  | _ => False
  end.
Proof.
  unfold validate in He. pose proof (check_deps_spec steps steps) as Hk.
  pose proof (detect_cycle_spec steps) as Hd.
  destruct (check_deps steps steps) as [?|e'].
  - destruct (detect_cycle steps) as [[|c0 c]|]; simplify_eq; [|done].
    destruct Hd as (Hl & Hlen & Hhl). split; [|done].
    eapply linked_impl; [|exact Hl]. apply dep_edge_depends.
  - simplify_eq. by destruct e.
Qed.

Lemma validate_iff_acyclic_witness :
  NoDup (id <$> diamond) ∧ deps_known diamond ∧ acyclic diamond.
Proof.
  assert (NoDup (id <$> diamond)) as H by (apply (bool_decide_unpack _); vm_compute; exact I).
  split; [exact H|]. apply (validate_iff_acyclic diamond H). vm_compute. reflexivity.
Defined.

Lemma validate_error_sound_witness :
  linked (depends [mk "a" ["b"]; mk "b" ["c"]; mk "c" ["b"]]) ["b"; "c"; "b"].
Proof.
  apply (validate_error_sound [mk "a" ["b"]; mk "b" ["c"]; mk "c" ["b"]]
           (CycleError ["b"; "c"; "b"])).
  vm_compute. reflexivity.
Defined.
End WorkflowDagCycle.
