(* ===== verification/WorkflowDagSort.v ===== *)
(** * Correctness of the topological sort of workflow DAGs

    [WorkflowDag.topological_sort] is Kahn's algorithm by levels.  It always
    returns (the fuel suffices and no dictionary access raises), and on a
    validated workflow its levels partition the steps, put every dependency of
    a step in an earlier level, and place each step as early as possible. *)

From stdpp Require Import base list strings gmap relations.
From S2P Require Import Prelude PyFloat WorkflowDag WorkflowDagCycle.

Module WorkflowDagSort.
Import WorkflowDag WorkflowDagCycle.

(** ** Counting edges *)

Definition indeg (x : string) (E : list (string * string)) : nat :=
  length (filter (λ e, e.2 = x) E).

(** The edges whose source has not been visited. *)
Definition remaining (V : gset string) (E : list (string * string)) : list (string * string) :=
  filter (λ e, e.1 ∉ V) E.

Definition succs (d : string) (E : list (string * string)) : list string :=
  (filter (λ e, e.1 = d) E).*2.

Definition occ (x : string) (l : list string) : nat := length (filter (λ y, y = x) l).

Lemma indeg_app x E E' : indeg x (E ++ E') = indeg x E + indeg x E'.
Proof. unfold indeg. by rewrite filter_app, length_app. Qed.

Lemma succs_app d E E' : succs d (E ++ E') = succs d E ++ succs d E'.
Proof. unfold succs. by rewrite filter_app, fmap_app. Qed.

Lemma indeg_zero x V E : indeg x (remaining V E) = 0 ↔ ∀ d, (d, x) ∈ E → d ∈ V.
Proof.
  unfold indeg, remaining. rewrite length_zero_iff_nil. split.
  - intros Hnil d Hd. destruct (decide (d ∈ V)) as [|Hn]; [done|].
    assert ((d, x) ∈ filter (λ e, e.2 = x) (filter (λ e, e.1 ∉ V) E)) as Hin.
    { by rewrite !list_elem_of_filter. }
    rewrite Hnil in Hin. set_solver.
  - intros Hall. destruct (filter _ _) as [|[d y] l] eqn:Hf; [done|].
    assert ((d, y) ∈ (d, y) :: l) as Hin by set_solver.
    rewrite <-Hf, !list_elem_of_filter in Hin. simpl in Hin. naive_solver.
Qed.

(** Visiting a node removes the edges out of it. *)
Lemma remaining_visit V E n x :
  n ∉ V →
  indeg x (remaining V E) = indeg x (remaining ({[n]} ∪ V) E) + occ x (succs n E) ∧
  length (remaining V E) = length (remaining ({[n]} ∪ V) E) + length (succs n E).
Proof.
  intros Hn. induction E as [|[d y] E [IH1 IH2]]; [done|].
  unfold remaining, succs, indeg, occ in *. rewrite !filter_cons. simpl.
  destruct (decide (d = n)) as [->|Hd].
  - rewrite decide_True by done. rewrite decide_False by set_solver.
    csimpl. rewrite !filter_cons. simpl.
    case_decide; simpl; rewrite ?length_fmap in *; simpl; lia.
  - destruct (decide (d ∈ V)).
    + rewrite decide_False by auto. rewrite decide_False by set_solver. done.
    + rewrite decide_True by done. rewrite decide_True by set_solver.
      rewrite !filter_cons. simpl. case_decide; simpl; lia.
Qed.

(** ** The graph built from the steps *)

Record graph_ok (ids : list string) (E : list (string * string))
    (ind : gmap string Z) (g : gmap string (list string)) : Prop := {
  go_succ : ∀ d, default [] (g !! d) = succs d E;
  go_ind : ∀ x, default 0%Z (ind !! x) = Z.of_nat (indeg x E);
  go_dom : ∀ x, is_Some (ind !! x) ↔ x ∈ ids
}.

Lemma add_edges_ok ids E sid deps ind g :
  graph_ok ids E ind g → sid ∈ ids →
  graph_ok ids (E ++ ((λ d, (d, sid)) <$> filter (λ d, d ≠ "START") deps))
    (add_edges sid deps (ind, g)).1 (add_edges sid deps (ind, g)).2.
Proof.
  intros Hg Hs. revert E ind g Hg. induction deps as [|d deps IH]; intros E ind g Hg; simpl.
  { by rewrite app_nil_r. }
  rewrite filter_cons. destruct (decide (d = "START")) as [->|Hd].
  { rewrite decide_False by naive_solver. by apply IH. }
  rewrite decide_True by done. csimpl. rewrite cons_middle, app_assoc. apply IH.
  destruct Hg as [H1 H2 H3]. split.
  - intros d'. rewrite lookup_insert, succs_app. unfold succs at 2.
    rewrite filter_cons, filter_nil. simpl. case_decide; subst; simpl;
      [by rewrite H1|by rewrite app_nil_r].
  - intros x. rewrite lookup_insert, indeg_app. unfold indeg at 2.
    rewrite filter_cons, filter_nil. simpl. case_decide; subst; simpl; rewrite H2; lia.
  - intros x. rewrite lookup_insert. case_decide; subst; [|by apply H3].
    split; eauto.
Qed.

Lemma add_step_ok ids E s ind g :
  graph_ok ids E ind g →
  graph_ok (ids ++ [id s]) (E ++ step_edges s) (add_step (ind, g) s).1 (add_step (ind, g) s).2.
Proof.
  intros [H1 H2 H3]. unfold add_step, step_edges. apply add_edges_ok; [|set_solver].
  split; [done| |].
  - intros x. destruct (ind !! id s) eqn:E'; [done|].
    rewrite lookup_insert. case_decide; subst; [|done]. rewrite <-H2, E'. done.
  - intros x. rewrite elem_of_app, list_elem_of_singleton.
    destruct (ind !! id s) eqn:E'; [|rewrite lookup_insert; case_decide]; rewrite ?H3.
    + assert (id s ∈ ids) by (apply H3; eauto). naive_solver.
    + naive_solver.
    + naive_solver.
Qed.

Lemma build_graph_ok steps :
  graph_ok (id <$> steps) (edges steps) (build_graph steps).1 (build_graph steps).2.
Proof.
  unfold build_graph, edges. induction steps as [|s steps IH] using rev_ind.
  { split; [done|done|]. intros x. split; [intros [? ?]; done|set_solver]. }
  rewrite foldl_app, fmap_app, bind_app. simpl. rewrite app_nil_r.
  destruct (foldl add_step (∅, ∅) steps) as [ind g]. by apply add_step_ok.
Qed.

Lemma elem_of_edges steps d x : (d, x) ∈ edges steps ↔ depends steps d x.
Proof.
  unfold edges, depends, step_edges. rewrite list_elem_of_bind. split.
  - intros (s & Hs & Hin). apply list_elem_of_fmap in Hs as (d' & [= -> ->] & Hd).
    apply list_elem_of_filter in Hd as [??]. eauto 10.
  - intros (Hd & s & Hs & <- & Hin). exists s. split; [|done].
    apply list_elem_of_fmap. exists d. by rewrite list_elem_of_filter.
Qed.

Lemma step_map_lookup steps x :
  x ∈ id <$> steps → ∃ s, step_map steps !! x = Some s ∧ s ∈ steps ∧ id s = x.
Proof.
  intros (s & -> & Hs)%list_elem_of_fmap. unfold step_map.
  rewrite (foldl_insert_lookup (λ s, s)).
  destruct (last _) as [s'|] eqn:E.
  - apply last_filter_id in E as [??]. eauto.
  - destruct (dep_graph_dom steps s Hs) as [? Hg]. unfold dep_graph in Hg.
    by rewrite foldl_insert_lookup, E in Hg.
Qed.

(** ** The loop invariant *)

Section Kahn.
Context (steps : list WorkflowStep) (g : gmap string (list string)).
Let ids := id <$> steps.
Let E := edges steps.
Context (Hsucc : ∀ d, default [] (g !! d) = succs d E).

(** [pending] is the part of the state still to be popped: the queue, and the
    node just popped while it is being visited. *)
Record kahn_inv (ind : gmap string Z) (pending : list string) (V : gset string) : Prop := {
  k_ind : ∀ x, default 0%Z (ind !! x) = Z.of_nat (indeg x (remaining V E));
  k_dom : ∀ x, is_Some (ind !! x) ↔ x ∈ ids;
  k_ready : ∀ x, x ∈ pending → x ∈ ids ∧ indeg x (remaining V E) = 0;
  k_done : ∀ x, x ∈ ids → indeg x (remaining V E) = 0 → x ∈ V ∨ x ∈ pending
}.

Lemma succ_ids d x : x ∈ succs d E → x ∈ ids ∧ (d, x) ∈ E.
Proof.
  unfold succs. intros ([d' x'] & -> & Hin)%list_elem_of_fmap. simpl.
  apply list_elem_of_filter in Hin as [<- Hin]. split; [|done].
  apply elem_of_edges in Hin as (_ & s & Hs & <- & _). by apply list_elem_of_fmap_2.
Qed.

Lemma release_spec ns ind q (c : string → nat) :
  (∀ x, default 0%Z (ind !! x) = Z.of_nat (c x + occ x ns)) →
  (∀ x, is_Some (ind !! x) ↔ x ∈ ids) → (∀ x, x ∈ ns → x ∈ ids) →
  ∃ ind' new, release ns ind q = Ok (ind', q ++ new) ∧
    (∀ x, default 0%Z (ind' !! x) = Z.of_nat (c x)) ∧
    (∀ x, is_Some (ind' !! x) ↔ x ∈ ids) ∧
    (∀ x, x ∈ new ↔ x ∈ ns ∧ c x = 0) ∧ length new ≤ length ns.
Proof.
  revert ind q. induction ns as [|n ns IH]; intros ind q Hc Hdom Hns; simpl.
  { exists ind, []. rewrite app_nil_r. split; [done|]. split.
    { intros x. rewrite Hc. unfold occ. simpl. by rewrite Nat.add_0_r. }
    split; [done|]. split; [set_solver|done]. }
  destruct (proj2 (Hdom n)) as [d Hd]; [apply Hns; set_solver|]. rewrite Hd.
  pose proof (Hc n) as Hcn. rewrite Hd in Hcn. unfold occ in Hcn.
  rewrite filter_cons, decide_True in Hcn by done. simpl in Hcn.
  destruct (IH (<[n:=(d - 1)%Z]> ind) (if decide (d - 1 = 0)%Z then q ++ [n] else q))
    as (ind' & new & Hr & Hi & Hdom' & Hnew & Hlen).
  - intros x. rewrite lookup_insert. case_decide; subst; simpl; [unfold occ; lia|].
    rewrite Hc. unfold occ. rewrite filter_cons, decide_False by done. done.
  - intros x. rewrite lookup_insert. case_decide; subst; [|apply Hdom].
    split; [intros _; apply Hns; set_solver|eauto].
  - set_solver.
  - rewrite Hr. case_decide as Hz.
    + exists ind', (n :: new). rewrite <-app_assoc. split; [done|]. split; [done|].
      split; [done|]. split; [|simpl; lia]. intros x. rewrite !elem_of_cons, Hnew.
      split; [|naive_solver]. intros [->|?]; [|naive_solver]. split; [auto|lia].
    + exists ind', new. split; [done|]. split; [done|]. split; [done|].
      split; [|simpl; lia]. intros x. rewrite Hnew, elem_of_cons.
      split; [naive_solver|]. intros [[->|?] Hx]; [|done]. split; [|done].
      assert (length (filter (λ y, y = n) ns) ≠ 0) as Hocc by lia.
      destruct (filter (λ y, y = n) ns) as [|y l] eqn:Hf; [done|].
      assert (y ∈ y :: l) as Hy by set_solver. rewrite <-Hf in Hy.
      apply list_elem_of_filter in Hy as [-> ?]. done.
Qed.

(** The work left: queue entries to pop and edges to follow. *)
Definition work (q : list string) (V : gset string) : nat :=
  length q + length (remaining V E).

Lemma visit_spec node ind q V lv :
  kahn_inv ind (node :: q) V →
  ∃ st', visit steps g node (KahnState ind q V lv) = Ok st' ∧
    kahn_inv (in_degree st') (queue st') (visited st') ∧
    work (queue st') (visited st') ≤ work q V ∧
    ∃ new lv', queue st' = q ++ new ∧ level st' = lv ++ lv' ∧
      (node ∈ V ∧ visited st' = V ∧ new = [] ∧ lv' = [] ∨
       node ∉ V ∧ visited st' = {[node]} ∪ V ∧
       (∀ x, x ∈ new → (node, x) ∈ E) ∧
       ∃ s, lv' = [s] ∧ s ∈ steps ∧ id s = node).
Proof.
  intros [Hind Hdom Hready Hdone]. unfold visit. simpl. case_decide as HV.
  { eexists. split; [done|]. simpl. split.
    { split; [done|done|set_solver|]. intros x Hx H0.
      destruct (Hdone x Hx H0) as [|[->|]%elem_of_cons]; auto. }
    split; [done|]. exists [], []. rewrite !app_nil_r. auto 10. }
  destruct (Hready node) as [Hid _]; [set_solver|].
  destruct (step_map_lookup steps node Hid) as (s & Hs & Hin & Hsid). rewrite Hs, Hsucc.
  destruct (release_spec (succs node E) ind q
    (λ x, indeg x (remaining ({[node]} ∪ V) E))) as (ind' & new & Hr & Hi & Hd & Hnew & Hlen).
  { intros x. rewrite Hind. by destruct (remaining_visit V E node x HV) as [-> _]. }
  { done. } { intros x ?%succ_ids. naive_solver. }
  rewrite Hr. eexists. split; [done|]. simpl. split; [split; [done|done| |]|split].
  - intros x [Hx|Hx]%elem_of_app.
    + destruct (Hready x) as [? H0]; [set_solver|]. split; [done|].
      destruct (remaining_visit V E node x HV) as [? _]. lia.
    + apply Hnew in Hx as [Hx ?]. split; [|done]. by apply succ_ids in Hx as [? _].
  - intros x Hx H0. destruct (decide (indeg x (remaining V E) = 0)) as [H0'|H0'].
    + destruct (Hdone x Hx H0') as [|[->|]%elem_of_cons]; set_solver.
    + right. apply elem_of_app. right. apply Hnew. split; [|done].
      destruct (remaining_visit V E node x HV) as [Heq _].
      assert (occ x (succs node E) ≠ 0) as Hocc by lia. unfold occ in Hocc.
      destruct (filter (λ y, y = x) (succs node E)) as [|y l] eqn:Hf; [done|].
      assert (y ∈ y :: l) as Hy by set_solver. rewrite <-Hf in Hy.
      by apply list_elem_of_filter in Hy as [-> ?].
  - unfold work. rewrite length_app.
    destruct (remaining_visit V E node node HV) as [_ ->]. lia.
  - exists new, [s]. split; [done|]. split; [done|]. right.
    split; [done|]. split; [done|]. split; [|eauto].
    intros x [Hx _]%Hnew. by apply succ_ids in Hx as [_ ?].
Qed.

(** What a level adds: unvisited steps whose dependencies were visited before
    the level began. *)
Record level_inv (q0 : list string) (V0 : gset string) (n : nat) (st : kahn_state)
    : Prop := {
  l_inv : kahn_inv (in_degree st) (queue st) (visited st);
  l_len : n ≤ length (queue st);
  l_ready : ∀ x, x ∈ take n (queue st) → x ∈ q0 ∧ indeg x (remaining V0 E) = 0;
  l_next : ∀ x, x ∈ drop n (queue st) → ∃ s, s ∈ level st ∧ (id s, x) ∈ E;
  l_vis : visited st = V0 ∪ list_to_set (id <$> level st);
  l_nodup : NoDup (id <$> level st);
  l_new : ∀ s, s ∈ level st →
    s ∈ steps ∧ id s ∈ q0 ∧ id s ∉ V0 ∧ indeg (id s) (remaining V0 E) = 0
}.

Lemma run_level_spec q0 V0 n st :
  level_inv q0 V0 n st →
  ∃ st', run_level n steps g st = Ok st' ∧ level_inv q0 V0 0 st' ∧
    work (queue st') (visited st') + n ≤ work (queue st) (visited st).
Proof.
  revert st. induction n as [|n IH]; intros st Hl; simpl.
  { exists st. split; [done|]. split; [done|lia]. }
  destruct Hl as [Hk Hlen Hready Hnext Hvis Hnd Hnew].
  destruct st as [ind q V lv]. simpl in *. destruct q as [|node q]; [simpl in Hlen; lia|].
  destruct (visit_spec node ind q V lv Hk) as
    (st' & Hv & Hk' & Hw & new & lv' & Hq & Hlv & Hcase).
  rewrite Hv. simpl in *.
  destruct (IH st') as (st'' & Hrun & Hl' & Hw').
  - split; [done| | | | | |].
    + rewrite Hq, length_app. lia.
    + intros x. rewrite Hq, take_app_le by lia. intros Hx. apply Hready. set_solver.
    + intros x. rewrite Hq, drop_app_le by lia. intros [Hx|Hx]%elem_of_app.
      * destruct (Hnext x Hx) as (s & ? & ?). exists s. rewrite Hlv. set_solver.
      * destruct Hcase as [(_ & _ & -> & _)|(_ & _ & Hn & s & -> & _ & <-)]; [set_solver|].
        exists s. rewrite Hlv. split; [set_solver|by apply Hn].
    + rewrite Hlv. destruct Hcase as [(_ & -> & _ & ->)|(_ & -> & _ & s & -> & _ & <-)].
      * by rewrite app_nil_r.
      * rewrite Hvis, fmap_app, list_to_set_app_L. simpl. set_solver.
    + rewrite Hlv. destruct Hcase as [(_ & _ & _ & ->)|(Hn & _ & _ & s & -> & _ & <-)].
      * by rewrite app_nil_r.
      * rewrite fmap_app. apply NoDup_app. split; [done|]. split; [|by apply NoDup_singleton].
        intros x Hx. simpl. intros ->%list_elem_of_singleton. apply Hn. rewrite Hvis.
        apply elem_of_union. right. by apply elem_of_list_to_set.
    + rewrite Hlv. intros s [Hs|Hs]%elem_of_app; [by apply Hnew|].
      destruct Hcase as [(_ & _ & _ & ->)|(Hn & _ & _ & s' & -> & Hin & <-)]; [set_solver|].
      apply list_elem_of_singleton in Hs as ->. split; [done|].
      destruct (Hready (id s')) as [? ?]; [set_solver|].
      split; [done|]. split; [rewrite Hvis in Hn; set_solver|done].
  - rewrite Hrun. exists st''. split; [done|]. split; [done|].
    unfold work in *. simpl in *. lia.
Qed.

(** ** Levels *)

(** Every dependency of a step of level [i] is in an earlier level. *)
Definition layered (levels : list (list WorkflowStep)) : Prop :=
  ∀ i lv s d, levels !! i = Some lv → s ∈ lv → depends steps d (id s) →
    ∃ j lv', j < i ∧ levels !! j = Some lv' ∧ d ∈ id <$> lv'.

(** A step of level [i + 1] depends on a step of level [i]. *)
Definition tight (levels : list (list WorkflowStep)) : Prop :=
  ∀ i lv lv' s, levels !! i = Some lv → levels !! S i = Some lv' → s ∈ lv' →
    ∃ s', s' ∈ lv ∧ depends steps (id s') (id s).

Record levels_ok (levels : list (list WorkflowStep)) (V : gset string) : Prop := {
  lo_layered : layered levels;
  lo_tight : tight levels;
  lo_nonempty : Forall (λ lv, lv ≠ []) levels;
  lo_vis : V = list_to_set (id <$> concat levels);
  lo_nodup : NoDup (id <$> concat levels);
  lo_steps : ∀ s, s ∈ concat levels → s ∈ steps
}.

(** The queue of the next level was filled by the last one. *)
Definition fed (levels : list (list WorkflowStep)) (q : list string) : Prop :=
  match last levels with
  | None => True
  | Some lv => ∀ x, x ∈ q → ∃ s, s ∈ lv ∧ (id s, x) ∈ E
  end.

Lemma levels_ok_snoc levels V lv :
  levels_ok levels V → lv ≠ [] → NoDup (id <$> lv) →
  (∀ s, s ∈ lv → s ∈ steps ∧ id s ∉ V ∧ indeg (id s) (remaining V E) = 0) →
  fed levels (id <$> lv) →
  levels_ok (levels ++ [lv]) (V ∪ list_to_set (id <$> lv)).
Proof.
  intros [Hlay Hti Hne Hvis Hnd Hst] Hlv Hlnd Hnew Hfed.
  assert (∀ i l, (levels ++ [lv]) !! i = Some l →
    levels !! i = Some l ∨ i = length levels ∧ l = lv) as Hlook.
  { intros i l [?|[? Hl]]%lookup_app_Some; [by left|right].
    apply list_lookup_singleton_Some in Hl as [??]. split; [lia|done]. }
  split.
  - intros i l s d Hi Hs Hd. destruct (Hlook _ _ Hi) as [Hi'|[-> ->]].
    + destruct (Hlay i l s d Hi' Hs Hd) as (j & l' & ? & ? & ?).
      exists j, l'. split; [done|]. split; [by apply lookup_app_l_Some|done].
    + destruct (Hnew s Hs) as (_ & _ & H0).
      apply indeg_zero with (d := d) in H0; [|by apply elem_of_edges].
      rewrite Hvis in H0. apply elem_of_list_to_set, list_elem_of_fmap in H0 as (s' & -> & Hs').
      apply elem_of_concat in Hs' as (l' & Hs' & Hl').
      apply list_elem_of_lookup in Hl' as [j Hj].
      exists j, l'. split; [by apply lookup_lt_Some in Hj|].
      split; [by apply lookup_app_l_Some|by apply list_elem_of_fmap_2].
  - intros i l l' s Hi Hi' Hs. destruct (Hlook _ _ Hi') as [Hi2|[Hlen ->]].
    + eapply (Hti i); [|exact Hi2|done].
      destruct (Hlook _ _ Hi) as [?|[-> _]]; [done|].
      apply lookup_lt_Some in Hi2. lia.
    + destruct (Hlook _ _ Hi) as [Hi2|[-> _]]; [|lia].
      unfold fed in Hfed. rewrite last_lookup, <-Hlen in Hfed. simpl in Hfed.
      rewrite Hi2 in Hfed. destruct (Hfed (id s)) as (s' & ? & ?); [by apply list_elem_of_fmap_2|].
      exists s'. split; [done|]. by apply elem_of_edges.
  - apply Forall_app. split; [done|by apply Forall_singleton].
  - rewrite concat_app. simpl. rewrite app_nil_r, fmap_app, list_to_set_app_L. by rewrite Hvis.
  - rewrite concat_app. simpl. rewrite app_nil_r, fmap_app. apply NoDup_app.
    split; [done|]. split; [|done]. intros x Hx (s & -> & Hs)%list_elem_of_fmap.
    destruct (Hnew s Hs) as (_ & Hn & _). apply Hn. rewrite Hvis. by apply elem_of_list_to_set.
  - intros s. rewrite concat_app, elem_of_app. simpl. rewrite app_nil_r.
    intros [?|Hs]; [by apply Hst|by apply Hnew].
Qed.

Lemma run_levels_spec fuel st levels :
  kahn_inv (in_degree st) (queue st) (visited st) →
  levels_ok levels (visited st) → fed levels (queue st) →
  work (queue st) (visited st) < fuel →
  ∃ levels' V, run_levels fuel steps g st levels = Ok (levels', V) ∧
    levels_ok levels' V ∧ ∀ x, x ∈ ids → indeg x (remaining V E) = 0 → x ∈ V.
Proof.
  revert st levels. induction fuel as [|fuel IH]; intros st levels Hk Hl Hfed Hf; [lia|].
  simpl. destruct (queue st) as [|x0 q0] eqn:Eq.
  { exists levels, (visited st). split; [done|]. split; [done|].
    intros x Hx H0. destruct (k_done _ _ _ Hk x Hx H0); [done|set_solver]. }
  rewrite <-Eq in *. assert (0 < length (queue st)) as Hpos by (rewrite Eq; simpl; lia).
  clear x0 q0 Eq.
  destruct (run_level_spec (queue st) (visited st) (length (queue st))
    (KahnState (in_degree st) (queue st) (visited st) [])) as (st' & Hr & Hlv & Hw).
  { split; simpl; [done|done| | | |constructor|set_solver].
    - rewrite take_ge by done. intros x Hx. split; [done|]. by apply Hk.
    - rewrite drop_ge by done. set_solver.
    - set_solver. }
  rewrite Hr. simpl in Hw. destruct Hlv as [Hk' _ _ Hnext Hvis Hnd Hnew].
  rewrite drop_0 in Hnext. apply IH; [done| | |lia].
  - destruct (level st') as [|s0 lv0] eqn:Elv; [by rewrite Hvis; simpl; rewrite union_empty_r_L|].
    rewrite <-Elv in *. rewrite Hvis. apply levels_ok_snoc; [done|by rewrite Elv|done| |].
    + intros s Hs. destruct (Hnew s Hs) as (?&?&?&?). done.
    + unfold fed in *. destruct (last levels); [|done].
      intros x (s & -> & Hs)%list_elem_of_fmap. apply Hfed. by apply Hnew.
  - destruct (level st') as [|s0 lv0] eqn:Elv.
    + assert (queue st' = []) as ->; [|by unfold fed; destruct (last levels); set_solver].
      apply elem_of_nil_inv. intros x Hx. destruct (Hnext x Hx). set_solver.
    + unfold fed. by rewrite last_snoc.
Qed.
End Kahn.

Lemma topological_sort_spec steps :
  ∃ levels V, levels_ok steps levels V ∧
    (∀ x, x ∈ id <$> steps → (∀ d, depends steps d x → d ∈ V) → x ∈ V) ∧
    topological_sort steps =
      match filter (λ i, i ∉ V) (id <$> steps) with
      | [] => Ok levels
      | unvisited =>
          match map_steps (step_map steps) unvisited with
          | Ok l => Ok (levels ++ [l])
          | Err e => Err e
          end
      end.
Proof.
  unfold topological_sort. destruct (build_graph_ok steps) as [Hs Hi Hd].
  destruct (build_graph steps) as [ind g]. simpl in Hs, Hi, Hd. cbv beta iota zeta.
  assert (remaining ∅ (edges steps) = edges steps) as Hrem.
  { apply filter_all. set_solver. }
  destruct (run_levels_spec steps g Hs (kahn_fuel steps)
    (KahnState ind (filter (λ i, default 0%Z (ind !! i) = 0%Z) (id <$> steps)) ∅ []) [])
    as (levels & V & Hr & Hok & Hdone).
  - simpl. split; rewrite ?Hrem; [done|done| |].
    + intros x Hx. apply list_elem_of_filter in Hx as [H0 Hx]. rewrite Hi in H0.
      split; [done|lia].
    + intros x Hx H0. right. apply list_elem_of_filter. rewrite Hi. split; [lia|done].
  - split; [by intros ? ?|by intros ? ?|constructor|done|constructor|set_solver].
  - done.
  - unfold work, kahn_fuel. simpl. rewrite Hrem.
    pose proof (length_filter (λ i, default 0%Z (ind !! i) = 0%Z) (id <$> steps)) as Hle.
    rewrite length_fmap in Hle. lia.
  - exists levels, V. split; [done|]. split.
    + intros x Hx Hdeps. apply Hdone; [done|]. apply indeg_zero.
      intros d ?%elem_of_edges. auto.
    + by rewrite Hr.
Qed.

Lemma map_steps_ok steps l :
  (∀ x, x ∈ l → x ∈ id <$> steps) → is_ok (map_steps (step_map steps) l) = true.
Proof.
  induction l as [|x l IH]; intros Hl; simpl; [done|].
  destruct (step_map_lookup steps x) as (s & -> & _); [apply Hl; set_solver|].
  destruct (map_steps _ _); [done|]. apply IH. set_solver.
Qed.

(** [topological_sort] returns on every list of steps, validated or not:
    the [while] loop stops and no dictionary access raises [KeyError]. *)
Theorem topological_sort_total (steps : list WorkflowStep) :
  ∃ levels, topological_sort steps = Ok levels.
Proof.
  destruct (topological_sort_spec steps) as (levels & V & _ & _ & ->).
  destruct (filter _ _) as [|x l] eqn:Ef; [eauto|].
  destruct (map_steps (step_map steps) (x :: l)) as [l'|e] eqn:Em; [eauto|].
  assert (is_ok (map_steps (step_map steps) (x :: l)) = true) as H; [|by rewrite Em in H].
  apply map_steps_ok. intros y. rewrite <-Ef, list_elem_of_filter. naive_solver.
Qed.

Lemma sorted_levels steps :
  NoDup (id <$> steps) → deps_known steps → (∀ s, s ∈ steps → Acc (depends steps) (id s)) →
  ∃ levels V, levels_ok steps levels V ∧ topological_sort steps = Ok levels ∧
    ∀ s, s ∈ steps → id s ∈ V.
Proof.
  intros Hnd Hk Hacc.
  destruct (topological_sort_spec steps) as (levels & V & Hok & Hdone & Heq).
  assert (∀ s, s ∈ steps → id s ∈ V) as Hall.
  { assert (∀ x, Acc (depends steps) x → x ∈ id <$> steps → x ∈ V) as H.
    { induction 1 as [x _ IH]. intros Hx. apply Hdone; [done|]. intros d Hd.
      apply IH; [done|]. destruct Hd as (Hs & s & Hin & _ & Hd).
      by destruct (Hk s d Hin Hd). }
    intros s Hs. apply H; [by apply Hacc|by apply list_elem_of_fmap_2]. }
  exists levels, V. split; [done|]. split; [|done]. rewrite Heq.
  destruct (filter _ _) as [|x l] eqn:Ef; [done|].
  assert (x ∈ x :: l) as Hx by set_solver. rewrite <-Ef, list_elem_of_filter in Hx.
  destruct Hx as [Hn (s & -> & Hs)%list_elem_of_fmap]. by destruct Hn; apply Hall.
Qed.

(** The levels are the steps, layered; [topological_sort_correct] below. *)
Lemma topological_layers (steps : list WorkflowStep)
    (Hids : NoDup (id <$> steps)) (Hv : validate steps = Ok tt) :
  ∃ levels, topological_sort steps = Ok levels ∧
    concat levels ≡ₚ steps ∧ Forall (λ lv, lv ≠ []) levels ∧
    layered steps levels ∧ tight steps levels.
Proof.
  destruct (validated_acc steps Hids Hv) as [Hk Hacc].
  destruct (sorted_levels steps Hids Hk Hacc) as (levels & V & Hok & Heq & Hall).
  destruct Hok as [Hlay Hti Hne Hvis Hnd Hst].
  exists levels. split; [done|]. split; [|done].
  apply NoDup_Permutation; [by eapply NoDup_fmap_1|by eapply NoDup_fmap_1|].
  intros s. split; [apply Hst|]. intros Hs. pose proof (Hall s Hs) as HV.
  rewrite Hvis in HV. apply elem_of_list_to_set, list_elem_of_fmap in HV as (s' & Heq' & Hs').
  by rewrite (NoDup_id_eq steps s s' Hids Hs (Hst _ Hs') Heq').
Qed.

(** (C3) On a validated workflow with distinct ids the levels of
    [topological_sort] are a topological layering: together they are the steps,
    each exactly once; no level is empty; every dependency of a step is in an
    earlier level; and a step of a later level depends on a step of the level
    just before, so no step runs later than its dependencies require. *)
Theorem topological_sort_correct (steps : list WorkflowStep)
    (Hids : NoDup (id <$> steps)) (Hv : validate steps = Ok tt) :
  ∃ levels, topological_sort steps = Ok levels ∧
    concat levels ≡ₚ steps ∧ Forall (λ lv, lv ≠ []) levels ∧
    layered steps levels ∧ tight steps levels.
Proof. exact (topological_layers steps Hids Hv). Qed.

Lemma topological_sort_correct_witness :
  ∃ levels, topological_sort diamond = Ok levels ∧ concat levels ≡ₚ diamond ∧
    layered diamond levels.
Proof.
  assert (NoDup (id <$> diamond)) as H by (apply (bool_decide_unpack _); vm_compute; exact I).
  assert (validate diamond = Ok tt) as Hv by (vm_compute; reflexivity).
  destruct (topological_sort_correct diamond H Hv) as (levels & Heq & Hp & _ & Hl & _).
  exists levels. split; [exact Heq|]. split; [exact Hp|exact Hl].
Defined.
End WorkflowDagSort.
