(* ===== verification/SemVer.v ===== *)
(** * Semantic versions ([app/release/version.py])

    [SemanticVersion]: parsing, printing, precedence and bumping.  The regular
    expression of [parse] is given by its grammar: the text up to the first
    ["+"] is [core(-prerelease)?], what follows is the build; digits and letters
    are ASCII.  [_pre_key] is the list [[1]] for a release and [[0, ...]] for a
    pre-release, so a release compares above; the tuples [("num", n)] sort below
    [("str", s)]. *)

From Stdlib Require Import ZArith Lia Ascii.
From Stdlib Require String.
From stdpp Require Import base numbers strings list.
From S2P Require Import Prelude PyStr.


From Stdlib Require String OrdersEx.

Open Scope Z_scope.

Record SemanticVersion := MkVersion {
  major : Z;
  minor : Z;
  patch : Z;
  prerelease : string;
  build : string
}.

Inductive VersionError :=
| InvalidNumber (name : string) (value : Z)
| InvalidVersion (text : string)
| UnknownBump (bump : string).

(** The constructor with [__post_init__]. *)
Definition make (ma mi pa : Z) (pre bld : string) : result VersionError SemanticVersion :=
  if ma <? 0 then Err (InvalidNumber "major" ma)
  else if mi <? 0 then Err (InvalidNumber "minor" mi)
  else if pa <? 0 then Err (InvalidNumber "patch" pa)
  else Ok (MkVersion ma mi pa pre bld).

(** ** Parsing *)

Definition dot : ascii := Ascii.ascii_of_nat 46.
Definition hyphen : ascii := Ascii.ascii_of_nat 45.
Definition plus : ascii := Ascii.ascii_of_nat 43.

(** [[0-9a-zA-Z-]] *)
Definition is_ident_char (a : ascii) : bool :=
  let n := Ascii.nat_of_ascii a in
  is_digit a || (Nat.leb 65 n && Nat.leb n 90) || (Nat.leb 97 n && Nat.leb n 122) || Nat.eqb n 45.

Fixpoint all_ident (s : string) : bool :=
  match s with EmptyString => true | String a s' => is_ident_char a && all_ident s' end.

Definition build_ident (s : string) : bool := truthy s && all_ident s.
Definition pre_ident (s : string) : bool := build_ident s && (negb (all_digits s) || numeral s).

(** An optional dotted list of identifiers. *)
Definition part_ok (ident : string → bool) (p : option string) : bool :=
  match p with None => true | Some s => forallb ident (split_on dot s) end.

Definition parse (text : string) : result VersionError SemanticVersion :=
  let '(lhs, bld) := partition plus (strip text) in
  let '(core, pre) := partition hyphen lhs in
  match split_on dot core with
  | [a; b; c] =>
      if numeral a && numeral b && numeral c && part_ok pre_ident pre && part_ok build_ident bld
      then make (int_of_digits a) (int_of_digits b) (int_of_digits c)
             (default EmptyString pre) (default EmptyString bld)
      else Err (InvalidVersion text)
  | _ => Err (InvalidVersion text)
  end.

(** [__str__] *)
Definition to_string (v : SemanticVersion) : string :=
  (str_of_Z (major v) +:+ "." +:+ str_of_Z (minor v) +:+ "." +:+ str_of_Z (patch v))
  +:+ (if truthy (prerelease v) then "-" +:+ prerelease v else EmptyString)
  +:+ (if truthy (build v) then "+" +:+ build v else EmptyString).

(** ** Release candidates *)

Definition is_prerelease (v : SemanticVersion) : bool := truthy (prerelease v).
Definition is_rc (v : SemanticVersion) : bool := startswith "rc" (prerelease v).

Fixpoint lstrip_dots (s : string) : string :=
  match s with
  | String a s' => if decide (a = dot) then lstrip_dots s' else s
  | EmptyString => EmptyString
  end.

Definition rc_number (v : SemanticVersion) : Z :=
  if negb (is_rc v) then 0
  else
    let suffix := lstrip_dots (String.substring 2 (String.length (prerelease v)) (prerelease v)) in
    if truthy suffix then default 0 (py_int suffix) else 1.

(** ** Precedence *)

Inductive KeyPart := Num (n : Z) | Str (s : string).

(** [None] is the key [[1]] of a release. *)
Definition pre_key (v : SemanticVersion) : option (list KeyPart) :=
  if truthy (prerelease v) then
    Some ((λ p, if isdigit p then Num (int_of_digits p) else Str p) <$> split_on dot (prerelease v))
  else None.

Definition part_compare (a b : KeyPart) : comparison :=
  match a, b with
  | Num n, Num m => Z.compare n m
  | Num _, Str _ => Lt
  | Str _, Num _ => Gt
  | Str s, Str t => String.compare s t
  end.

(** Lists and tuples compare element by element; a proper prefix is smaller. *)
Fixpoint list_compare {A} (c : A → A → comparison) (l k : list A) : comparison :=
  match l, k with
  | [], [] => Eq
  | [], _ => Lt
  | _, [] => Gt
  | x :: l', y :: k' => match c x y with Eq => list_compare c l' k' | r => r end
  end.

Definition key_compare (a b : option (list KeyPart)) : comparison :=
  match a, b with
  | None, None => Eq
  | None, Some _ => Gt
  | Some _, None => Lt
  | Some l, Some k => list_compare part_compare l k
  end.

Definition base_key (v : SemanticVersion) : list Z := [major v; minor v; patch v].

(** [_compare] *)
Definition compare (a b : SemanticVersion) : comparison :=
  match list_compare Z.compare (base_key a) (base_key b) with
  | Eq => key_compare (pre_key a) (pre_key b)
  | r => r
  end.

Definition version_lt (a b : SemanticVersion) : bool := match compare a b with Lt => true | _ => false end.
Definition version_le (a b : SemanticVersion) : bool := match compare a b with Gt => false | _ => true end.
Definition version_gt (a b : SemanticVersion) : bool := match compare a b with Gt => true | _ => false end.
Definition version_ge (a b : SemanticVersion) : bool := match compare a b with Lt => false | _ => true end.
Definition version_eq (a b : SemanticVersion) : bool := match compare a b with Eq => true | _ => false end.

(** ** Bumping *)

Definition bump_major (pre : string) (v : SemanticVersion) := make (major v + 1) 0 0 pre "".
Definition bump_minor (pre : string) (v : SemanticVersion) := make (major v) (minor v + 1) 0 pre "".
Definition bump_patch (pre : string) (v : SemanticVersion) := make (major v) (minor v) (patch v + 1) pre "".
Definition as_release (v : SemanticVersion) := make (major v) (minor v) (patch v) "" "".
Definition as_rc (number : Z) (v : SemanticVersion) :=
  make (major v) (minor v) (patch v) ("rc." +:+ str_of_Z number) "".

Definition next (bump pre : string) (v : SemanticVersion) : result VersionError SemanticVersion :=
  if decide (bump = "major"%string) then bump_major pre v
  else if decide (bump = "minor"%string) then bump_minor pre v
  else if decide (bump = "patch"%string) then bump_patch pre v
  else if decide (bump = "rc"%string) then as_rc (rc_number v + 1) v
  else if decide (bump = "release"%string) then as_release v
  else Err (UnknownBump bump).

(** ** The order *)

(** The laws of a comparison: antisymmetry, transitivity, and that equivalent
    elements compare alike. *)
Class Comparison {A} (c : A → A → comparison) : Prop := {
  cmp_anti : ∀ a b, c b a = CompOpp (c a b);
  cmp_trans : ∀ a b d, c a b = Lt → c b d = Lt → c a d = Lt;
  cmp_eq_l : ∀ a b d, c a b = Eq → c a d = c b d
}.

Lemma cmp_eq_r {A} (c : A → A → comparison) `{!Comparison c} a b d : c b d = Eq → c a b = c a d.
Proof.
  intros H. rewrite (cmp_anti b a), (cmp_anti d a). f_equal. by apply cmp_eq_l.
Qed.

#[export] Instance Z_comparison : Comparison Z.compare.
Proof.
  split.
  - intros. apply Z.compare_antisym.
  - intros a b d. rewrite !Z.compare_lt_iff. lia.
  - intros a b d ->%Z.compare_eq_iff. done.
Qed.

#[export] Instance string_comparison : Comparison String.compare.
Proof.
  split.
  - intros. apply String.compare_antisym.
  - intros a b d H1 H2.
    exact (@StrictOrder_Transitive _ _ OrdersEx.String_as_OT.lt_strorder a b d H1 H2).
  - intros a b d ->%String.compare_eq_iff. done.
Qed.

#[export] Instance part_comparison : Comparison part_compare.
Proof.
  split.
  - intros [] []; simpl; try done; apply cmp_anti.
  - intros [] [] []; simpl; try done; apply cmp_trans.
  - intros [] [] []; simpl; try done; apply cmp_eq_l.
Qed.

#[export] Instance list_comparison {A} (c : A → A → comparison) :
  Comparison c → Comparison (list_compare c).
Proof.
  intros Hc. split.
  - induction a as [|x l IH]; intros [|y k]; simpl; try done.
    rewrite (cmp_anti x y). destruct (c x y); simpl; auto.
  - induction a as [|x l IH]; intros [|y k] [|z m]; simpl; try done.
    destruct (c x y) eqn:E1; try done; destruct (c y z) eqn:E2; try done.
    + rewrite (cmp_eq_l _ _ z E1), E2. apply IH.
    + rewrite (cmp_eq_l _ _ z E1), E2. done.
    + by rewrite <- (cmp_eq_r c x y z E2), E1.
    + by rewrite (cmp_trans x y z E1 E2).
  - induction a as [|x l IH]; intros [|y k] [|z m]; simpl; try done.
    destruct (c x y) eqn:E1; try done. intros H. rewrite (cmp_eq_l _ _ z E1).
    destruct (c y z); auto.
Qed.

#[export] Instance key_comparison : Comparison key_compare.
Proof.
  split.
  - intros [] []; simpl; try done; apply cmp_anti.
  - intros [] [] []; simpl; try done; apply cmp_trans.
  - intros [] [] []; simpl; try done; apply cmp_eq_l.
Qed.

#[export] Instance version_comparison : Comparison compare.
Proof.
  unfold compare. split.
  - intros a b. rewrite (cmp_anti (base_key a) (base_key b)).
    destruct (list_compare _ (base_key a) (base_key b)); simpl; [apply cmp_anti|done|done].
  - intros a b d. generalize (base_key a) (base_key b) (base_key d). intros x y z.
    destruct (list_compare _ x y) eqn:E1; try done; destruct (list_compare _ y z) eqn:E2; try done.
    + rewrite (cmp_eq_l _ _ z E1), E2. apply cmp_trans.
    + by rewrite (cmp_eq_l _ _ z E1), E2.
    + by rewrite <- (cmp_eq_r _ x y z E2), E1.
    + by rewrite (cmp_trans x y z E1 E2).
  - intros a b d. generalize (base_key a) (base_key b) (base_key d). intros x y z.
    destruct (list_compare _ x y) eqn:E1; try done. intros H. rewrite (cmp_eq_l _ _ z E1).
    destruct (list_compare _ y z); try done. by apply cmp_eq_l.
Qed.

(** * Semantic versions: theorems

    Parsing and printing are inverse to each other, precedence is a total order
    on versions up to the build, and bumping moves upwards. *)

Open Scope Z_scope.

(** ** Valid versions *)

Definition dotted (ident : string → bool) (s : string) : Prop :=
  s = EmptyString ∨ forallb ident (split_on dot s) = true.

(** Non-negative numbers and well-formed suffixes. *)
Definition valid (v : SemanticVersion) : Prop :=
  0 <= major v ∧ 0 <= minor v ∧ 0 <= patch v ∧
  dotted pre_ident (prerelease v) ∧ dotted build_ident (build v).

Definition suffix_char (a : ascii) : bool := is_ident_char a || bool_decide (a = dot).

Lemma all_ident_chars s : all_ident s = all_chars is_ident_char s.
Proof. induction s as [|a s IH]; simpl; [done|]. by rewrite IH. Qed.

Lemma dotted_chars ident s :
  (∀ w, ident w = true → all_ident w = true) → dotted ident s → all_chars suffix_char s = true.
Proof.
  intros Hid [->|Hs]; [done|]. apply split_all_chars. apply Forall_forall. intros w Hw.
  rewrite <- all_ident_chars. apply Hid. rewrite forallb_forall in Hs.
  by apply Hs, list_elem_of_In.
Qed.

Lemma pre_ident_all w : pre_ident w = true → all_ident w = true.
Proof. intros [[_ ?]%andb_prop _]%andb_prop. done. Qed.
Lemma build_ident_all w : build_ident w = true → all_ident w = true.
Proof. intros [_ ?]%andb_prop. done. Qed.

(** What the three classes of characters exclude. *)
Lemma digit_not_space a : is_digit a = true → negb (is_space a) = true.
Proof.
  unfold is_digit, is_space. intros [H1%Nat.leb_le H2%Nat.leb_le]%andb_prop.
  rewrite (proj2 (Nat.leb_gt _ 13)) by lia. rewrite (proj2 (Nat.leb_gt _ 32)) by lia.
  by rewrite !andb_false_r.
Qed.

Lemma suffix_not_space a : suffix_char a = true → negb (is_space a) = true.
Proof. destruct a as [[] [] [] [] [] [] [] []]; vm_compute; done. Qed.

(** ** Print, then parse *)

Definition core_text (v : SemanticVersion) : string :=
  str_of_Z (major v) +:+ "." +:+ str_of_Z (minor v) +:+ "." +:+ str_of_Z (patch v).

Definition core_char (a : ascii) : bool := is_digit a || bool_decide (a = dot).

Lemma core_chars v : valid v → all_chars core_char (core_text v) = true.
Proof.
  intros (H1 & H2 & H3 & _). unfold core_text.
  assert (∀ z, 0 <= z → all_chars core_char (str_of_Z z) = true) as Hz.
  { intros z Hz. apply (all_chars_mono is_digit); [|by apply numeral_chars, str_of_Z_spec].
    intros a Ha. unfold core_char. by rewrite Ha. }
  rewrite !all_chars_app, !Hz by done. done.
Qed.

Lemma core_split v :
  valid v → split_on dot (core_text v) = [str_of_Z (major v); str_of_Z (minor v); str_of_Z (patch v)].
Proof.
  intros (H1 & H2 & H3 & _). unfold core_text.
  assert (∀ z, 0 <= z → no_char dot (str_of_Z z) = true) as Hz.
  { intros z Hz. apply (all_chars_no_char is_digit); [done|]. by apply numeral_chars, str_of_Z_spec. }
  change ("." +:+ str_of_Z (minor v) +:+ "." +:+ str_of_Z (patch v))
    with (String dot (str_of_Z (minor v) +:+ String dot (str_of_Z (patch v)))).
  rewrite !split_on_app_sep, split_on_single by auto. done.
Qed.

Definition opt (s : string) : option string := if truthy s then Some s else None.

Lemma default_opt s : default EmptyString (opt s) = s.
Proof. by destruct s. Qed.

Lemma part_ok_opt ident s : dotted ident s → part_ok ident (opt s) = true.
Proof. intros [->|Hs]; [done|]. unfold opt. by destruct (truthy s). Qed.

Lemma partition_opt c a s :
  no_char c a = true →
  partition c (a +:+ (if truthy s then String c s else EmptyString)) = (a, opt s).
Proof.
  intros Ha. unfold opt. destruct (truthy s); [by apply partition_app|].
  rewrite str_app_nil. by apply partition_none.
Qed.

Lemma parse_print v : valid v → parse (to_string v) = Ok v.
Proof.
  intros Hv. pose proof Hv as (H1 & H2 & H3 & Hpre & Hbld).
  assert (to_string v = (core_text v +:+ (if truthy (prerelease v) then String hyphen (prerelease v) else EmptyString))
            +:+ (if truthy (build v) then String plus (build v) else EmptyString)) as Hs.
  { symmetry. apply str_app_assoc. }
  pose proof (core_chars v Hv) as Hc. pose proof (dotted_chars _ _ pre_ident_all Hpre) as Hp.
  pose proof (dotted_chars _ _ build_ident_all Hbld) as Hb.
  unfold parse. rewrite strip_id.
  - rewrite Hs, partition_opt.
    + rewrite partition_opt by (by apply (all_chars_no_char core_char)).
      rewrite core_split by done. rewrite !part_ok_opt by done.
      destruct (str_of_Z_spec _ H1) as [-> ->], (str_of_Z_spec _ H2) as [-> ->],
        (str_of_Z_spec _ H3) as [-> ->]. simpl. rewrite !default_opt. unfold make.
      rewrite !(proj2 (Z.ltb_ge _ _)) by done. by destruct v.
    + apply (all_chars_no_char (λ a, core_char a || suffix_char a || bool_decide (a = hyphen))); [done|].
      rewrite all_chars_app. apply andb_true_intro. split.
      * eapply all_chars_mono; [|exact Hc]. intros a ->. done.
      * destruct (truthy _); [|done]. simpl. eapply all_chars_mono; [|exact Hp].
        intros a ->. by rewrite orb_true_r.
  - rewrite Hs, !all_chars_app. apply andb_true_intro. split; [apply andb_true_intro; split|].
    + eapply all_chars_mono; [|exact Hc]. intros a Ha. apply suffix_not_space.
      unfold core_char, suffix_char, is_ident_char in *.
      apply orb_prop in Ha as [Ha|Ha]; rewrite Ha; [done|apply orb_true_r].
    + destruct (truthy _); [|done]. simpl. eapply all_chars_mono; [|exact Hp]. apply suffix_not_space.
    + destruct (truthy (build v)); [|reflexivity]. simpl. eapply all_chars_mono; [|exact Hb]. apply suffix_not_space.
Qed.

(** ** Parse, then print *)

Lemma part_ok_dotted ident p :
  (∀ w, ident w = true → truthy w = true) → part_ok ident p = true →
  dotted ident (default EmptyString p) ∧ opt (default EmptyString p) = p.
Proof.
  intros Hid. destruct p as [s|]; simpl; [|by split; [left|]]. intros Hs. split; [by right|].
  unfold opt. destruct s as [|a s]; [|done]. simpl in Hs. rewrite andb_true_r in Hs.
  by apply Hid in Hs.
Qed.

Lemma suffix_text c p :
  (if truthy (default EmptyString p) then String c (default EmptyString p) else EmptyString)
  = match opt (default EmptyString p) with Some b => String c b | None => EmptyString end.
Proof. unfold opt. by destruct (truthy _). Qed.

Lemma parse_sound text v : parse text = Ok v → valid v ∧ to_string v = strip text.
Proof.
  unfold parse. destruct (partition plus (strip text)) as [lhs bld] eqn:E1.
  destruct (partition hyphen lhs) as [core pre] eqn:E2.
  destruct (split_on dot core) as [|a [|b [|c [|]]]] eqn:E3; try done.
  destruct (_ && _) eqn:Hok; [|done]. bool_to_prop.
  destruct (part_ok_dotted pre_ident pre) as [Hpre Hpo]; [|done|].
  { intros w Hw. by apply andb_prop in Hw as [[? _]%andb_prop _]. }
  destruct (part_ok_dotted build_ident bld) as [Hbld Hbo]; [|done|].
  { intros w Hw. by apply andb_prop in Hw as [? _]. }
  unfold make. destruct (_ <? 0) eqn:L1; [done|]. destruct (_ <? 0) eqn:L2 in |- *; [done|].
  destruct (_ <? 0) eqn:L3 in |- *; [done|]. intros [= <-]. bool_to_prop. split.
  { split; [done|]. split; [done|]. split; [done|]. by split. }
  rewrite (partition_inv _ _ _ _ E1), (partition_inv _ _ _ _ E2).
  pose proof (join_split dot core) as Hj. rewrite E3 in Hj.
  unfold to_string; simpl. rewrite !str_of_int_of_digits by done.
  change ("-" +:+ default EmptyString pre) with (String hyphen (default EmptyString pre)).
  change ("+" +:+ default EmptyString bld) with (String plus (default EmptyString bld)).
  rewrite !suffix_text, Hpo, Hbo, <- Hj.
  change (join (String dot EmptyString) [a; b; c]) with (a +:+ "." +:+ b +:+ "." +:+ c).
  by rewrite !str_app_assoc.
Qed.

(** Printing and parsing are inverse: every valid version is parsed back from
    its text, and whatever [parse] accepts is a valid version whose text is the
    input without surrounding blanks. *)
Theorem semver_round_trip :
  (∀ v, valid v → parse (to_string v) = Ok v) ∧
  (∀ text v, parse text = Ok v → valid v ∧ to_string v = strip text).
Proof. split; [apply parse_print|apply parse_sound]. Qed.

(** ** Precedence *)

Lemma pre_key_inj a b :
  dotted pre_ident a → dotted pre_ident b →
  (λ p, if isdigit p then Num (int_of_digits p) else Str p) <$> split_on dot a
  = (λ p, if isdigit p then Num (int_of_digits p) else Str p) <$> split_on dot b →
  a ≠ EmptyString → b ≠ EmptyString → a = b.
Proof.
  intros [?|Ha] [?|Hb] Heq Hna Hnb; try done.
  rewrite <- (join_split dot a), <- (join_split dot b). f_equal.
  rewrite forallb_forall in Ha, Hb. revert Heq.
  generalize (split_on dot a) (split_on dot b) Ha Hb. clear.
  intros l. induction l as [|x l IH]; intros [|y k] Hl Hk; csimpl; try done. intros [= Hxy Heq].
  f_equal; [|apply IH; [intros; apply Hl|intros; apply Hk|done]; by right].
  pose proof (Hl x (or_introl eq_refl)) as Hx. pose proof (Hk y (or_introl eq_refl)) as Hy.
  assert (∀ w, pre_ident w = true → isdigit w = true → numeral w = true) as Hnum.
  { intros w [_ Hw]%andb_prop [_ Hd]%andb_prop. rewrite Hd in Hw. done. }
  destruct (isdigit x) eqn:Ex, (isdigit y) eqn:Ey; simplify_eq; [|done].
  rewrite <- (str_of_int_of_digits x), <- (str_of_int_of_digits y) by auto. by f_equal.
Qed.

Lemma list_compare_eq {A} (c : A → A → comparison) l k :
  (∀ x y, c x y = Eq → x = y) → list_compare c l k = Eq → l = k.
Proof.
  intros Hc. revert k. induction l as [|x l IH]; intros [|y k]; simpl; try done.
  destruct (c x y) eqn:E; try done. intros H. f_equal; [by apply Hc|by apply IH].
Qed.

Lemma part_compare_eq x y : part_compare x y = Eq → x = y.
Proof.
  destruct x, y; simpl; try done; intros H; f_equal; [by apply Z.compare_eq|].
  by apply String.compare_eq_iff.
Qed.

(** Precedence is a total order on valid versions up to the build: two
    versions compare, comparison is antisymmetric and transitive, versions
    compare equal exactly when numbers and pre-release agree, and a pre-release
    precedes its release. *)
Theorem semver_total_order :
  (∀ a b, compare b a = CompOpp (compare a b)) ∧
  (∀ a b c, version_le a b = true → version_le b c = true → version_le a c = true) ∧
  (∀ a b, valid a → valid b →
     (version_eq a b = true ↔
      major a = major b ∧ minor a = minor b ∧ patch a = patch b ∧ prerelease a = prerelease b)) ∧
  (∀ v r, prerelease v ≠ EmptyString → as_release v = Ok r → version_lt v r = true).
Proof.
  split; [intros; apply cmp_anti|]. split; [|split].
  - intros a b c. unfold version_le.
    destruct (compare a b) eqn:E1; try done; destruct (compare b c) eqn:E2; try done; intros _ _.
    + by rewrite (cmp_eq_l _ _ c E1), E2.
    + by rewrite (cmp_eq_l _ _ c E1), E2.
    + by rewrite <- (cmp_eq_r _ a b c E2), E1.
    + by rewrite (cmp_trans a b c E1 E2).
  - intros a b (_ & _ & _ & Ha & _) (_ & _ & _ & Hb & _). unfold version_eq. split.
    + destruct (compare a b) eqn:E; try done. intros _. unfold compare in E.
      destruct (list_compare _ (base_key a) (base_key b)) eqn:Eb; try done.
      apply list_compare_eq in Eb; [|apply Z.compare_eq]. injection Eb as -> -> ->.
      split; [done|]. split; [done|]. split; [done|]. unfold pre_key in E.
      destruct (prerelease a) as [|ca pa] eqn:Epa, (prerelease b) as [|cb pb] eqn:Epb; try done.
      simpl in E. apply list_compare_eq in E; [|apply part_compare_eq].
      by apply (pre_key_inj (String ca pa) (String cb pb)).
    + intros (H1 & H2 & H3 & H4).
      assert (compare a b = compare b b) as ->.
      { unfold compare, base_key, pre_key. by rewrite H1, H2, H3, H4. }
      pose proof (cmp_anti b b) as Hbb. by destruct (compare b b).
  - intros v r Hne. unfold as_release, make. do 3 (destruct (_ <? 0); [done|]). intros [= <-].
    unfold version_lt, compare, base_key. simpl. rewrite !Z.compare_refl.
    unfold pre_key; simpl. by destruct (prerelease v).
Qed.

Lemma valid_nonneg v : valid v → 0 <= major v ∧ 0 <= minor v ∧ 0 <= patch v.
Proof. intros (?&?&?&_). done. Qed.

(** Bumping the major, minor or patch number of a valid version succeeds and
    gives a greater version, whatever pre-release is asked for; releasing a
    pre-release gives a greater version; an unknown bump raises. *)
Theorem semver_bumps_increase (v : SemanticVersion) (bump pre : string) :
  valid v →
  match next bump pre v with
  | Ok v' =>
      (bump ∈ ["major"; "minor"; "patch"]%string → version_lt v v' = true) ∧
      (bump = "release"%string → version_le v v' = true)
  | Err e => e = UnknownBump bump
  end.
Proof.
  intros (H1 & H2 & H3)%valid_nonneg.
  assert (∀ n : Z, (n ?= n + 1) = Lt) as Hsucc by (intros; apply Z.compare_lt_iff; lia).
  unfold next, bump_major, bump_minor, bump_patch, as_rc, as_release, make.
  repeat case_decide; subst; try done;
    repeat (rewrite (proj2 (Z.ltb_ge _ 0)); [|lia]);
    (split; [intros Hin|intros Hr]); try done;
    try (unfold version_lt, compare, base_key; simpl; rewrite ?Z.compare_refl, ?Hsucc; done).
  - repeat (apply elem_of_cons in Hin as [?|Hin]; [done|]). by apply elem_of_nil in Hin.
  - repeat (apply elem_of_cons in Hin as [?|Hin]; [done|]). by apply elem_of_nil in Hin.
  - unfold version_le, compare, base_key; simpl. rewrite !Z.compare_refl.
    unfold pre_key; simpl. by destruct (prerelease v).
Qed.

Lemma semver_bumps_increase_witness :
  match next "minor" "rc.1" (MkVersion 1 2 3 "" "") with
  | Ok v' => version_lt (MkVersion 1 2 3 "" "") v' = true
  | Err _ => False
  end.
Proof.
  assert (valid (MkVersion 1 2 3 "" "")) as Hv.
  { unfold valid. simpl. split; [lia|]. split; [lia|]. split; [lia|]. split; by left. }
  pose proof (semver_bumps_increase (MkVersion 1 2 3 "" "") "minor" "rc.1" Hv) as H.
  destruct (next "minor" "rc.1" (MkVersion 1 2 3 "" "")) as [v'|e] eqn:E; [|discriminate E].
  apply H. right. left.
Defined.

(** Two surprises of the precedence: [next("rc")] of a release goes down, to a
    candidate of the same version; and versions that differ in their build are
    equal although [__hash__], taken of the text, tells them apart. *)
Theorem semver_surprises :
  (∃ v', next "rc" "" (MkVersion 1 0 0 "" "") = Ok v' ∧
     version_lt v' (MkVersion 1 0 0 "" "") = true) ∧
  version_eq (MkVersion 1 0 0 "" "a") (MkVersion 1 0 0 "" "b") = true ∧
  to_string (MkVersion 1 0 0 "" "a") ≠ to_string (MkVersion 1 0 0 "" "b").
Proof.
  split; [eexists; split; vm_compute; reflexivity|]. split; [reflexivity|]. vm_compute. discriminate.
Qed.
