(* ===== verification/Cron.v ===== *)
(** * Cron expressions ([app/cluster/scheduler.py], [CronExpression])

    The parser of the five fields and the search for the next matching minute.
    A [datetime] is the proleptic Gregorian ordinal of its day with the time of
    day, as Python's own arithmetic has it; [ord2ymd] is the conversion to month
    and day.  The search is the bounded loop of the source, 366 * 24 * 60 turns,
    so no fuel is added; the theorem says what each of its outcomes means. *)

From Stdlib Require Import ZArith Lia Ascii.
From stdpp Require Import base numbers strings gmap list.
From S2P Require Import Prelude PyStr.


Open Scope Z_scope.
Open Scope py_scope.

(** ** Dates *)

Record datetime := MkDatetime {
  dt_ordinal : Z;
  dt_hour : Z;
  dt_minute : Z;
  dt_second : Z;
  dt_microsecond : Z
}.

(** [datetime.max.toordinal()] *)
Definition MAXORDINAL : Z := 3652059.

Definition days_in_month (leap : bool) (month : Z) : Z :=
  if bool_decide (month = 2) then if leap then 29 else 28
  else if bool_decide (month ∈ [4; 6; 9; 11]) then 30 else 31.

(** Days of the year before a month. *)
Definition days_before_month (leap : bool) (month : Z) : Z :=
  foldl (λ acc m, acc + days_in_month leap m) 0 (seqZ 1 (month - 1)).

(** Month and day of an ordinal ([datetime._ord2ymd]). *)
Definition ord2md (ordinal : Z) : Z * Z :=
  let n := ordinal - 1 in
  let n400 := n mod 146097 in
  let n100 := n400 / 36524 in
  let n := n400 mod 36524 in
  let n4 := n / 1461 in
  let n := n mod 1461 in
  let n1 := n / 365 in
  let n := n mod 365 in
  if (n1 =? 4) || (n100 =? 4) then (12, 31)
  else
    let leap := (n1 =? 3) && (negb (n4 =? 24) || (n100 =? 3)) in
    let month := (n + 50) / 32 in
    let month := if n <? days_before_month leap month then month - 1 else month in
    (month, n - days_before_month leap month + 1).

Definition dt_month (dt : datetime) : Z := (ord2md (dt_ordinal dt)).1.
Definition dt_day (dt : datetime) : Z := (ord2md (dt_ordinal dt)).2.
(** Monday is 0. *)
Definition weekday (dt : datetime) : Z := (dt_ordinal dt + 6) mod 7.

(** ** Errors *)

Inductive CronError :=
| FieldCount (n : nat)
| BadInteger (text : string)
| BadStep (piece : string)
| OutOfRange (value low high : Z)
| InvalidToken (piece : string)
| EmptyField
| NoFutureMatch
| DateOverflow.

(** ** Parsing *)

Record CronExpression := MkCron {
  minutes : gset Z;
  hours : gset Z;
  doms : gset Z;
  months : gset Z;
  dows : gset Z
}.

(** [range(start, stop, step)] for a positive step *)
Definition py_range (start stop step : Z) : list Z :=
  (λ i, start + i * step) <$> seqZ 0 ((stop - start + step - 1) / step).

Definition to_int (s : string) : result CronError Z :=
  match py_int s with Some z => Ok z | None => Err (BadInteger s) end.

Definition slash : ascii := Ascii.ascii_of_nat 47.
Definition dash : ascii := Ascii.ascii_of_nat 45.
Definition comma : ascii := Ascii.ascii_of_nat 44.

(** One piece of the comma-separated list. *)
Definition parse_piece (low high : Z) (piece : string) : result CronError (list Z) :=
  match partition slash piece with
  | (base, Some step_raw) =>
      try step <- to_int step_raw in
      if step <=? 0 then Err (BadStep piece)
      else if decide (base = "*"%string) then Ok (py_range low (high + 1) step)
      else match partition dash base with
      | (start, Some stop) =>
          try a <- to_int start in try b <- to_int stop in Ok (py_range a (b + 1) step)
      | (_, None) => try a <- to_int base in Ok (py_range a (high + 1) step)
      end
  | (_, None) =>
      match partition dash piece with
      | (start, Some stop) =>
          try a <- to_int start in try b <- to_int stop in Ok (py_range a (b + 1) 1)
      | (_, None) =>
          if isdigit piece then
            let value := int_of_digits piece in
            if (value <? low) || (high <? value) then Err (OutOfRange value low high) else Ok [value]
          else Err (InvalidToken piece)
      end
  end.

Fixpoint parse_pieces (low high : Z) (pieces : list string) (values : gset Z)
    : result CronError (gset Z) :=
  match pieces with
  | [] => Ok values
  | p :: ps => try vs <- parse_piece low high p in parse_pieces low high ps (values ∪ list_to_set vs)
  end.

Definition full (low high : Z) : gset Z := list_to_set (py_range low (high + 1) 1).

Definition parse_field (low high : Z) (raw : string) : result CronError (gset Z) :=
  if decide (raw = "*"%string) then Ok (full low high)
  else
    try values <- parse_pieces low high (split_on comma raw) ∅ in
    if decide (values = ∅) then Err EmptyField else Ok values.

Definition cron_parse (expression : string) : result CronError CronExpression :=
  match words expression with
  | [m; h; dom; mon; dow] =>
      try ms <- parse_field 0 59 m in
      try hs <- parse_field 0 23 h in
      try ds <- parse_field 1 31 dom in
      try mons <- parse_field 1 12 mon in
      try dws <- parse_field 0 6 dow in
      Ok (MkCron ms hs ds mons dws)
  | parts => Err (FieldCount (length parts))
  end.

(** ** Matching *)

Definition day_matches (c : CronExpression) (dt : datetime) : bool :=
  let dom_matches := bool_decide (dt_day dt ∈ doms c) in
  let dow_matches := bool_decide (weekday dt ∈ dows c) in
  let dom_restricted := bool_decide (doms c ≠ full 1 31) in
  let dow_restricted := bool_decide (dows c ≠ full 0 6) in
  if dom_restricted && dow_restricted then dom_matches || dow_matches
  else dom_matches && dow_matches.

Definition matches (c : CronExpression) (dt : datetime) : bool :=
  bool_decide (dt_minute dt ∈ minutes c) && bool_decide (dt_hour dt ∈ hours c)
  && day_matches c dt && bool_decide (dt_month dt ∈ months c).

(** ** The next match *)

(** [dt + timedelta(...)] for a number of minutes, hours or days. *)
Definition add_days (d : Z) (dt : datetime) : result CronError datetime :=
  if MAXORDINAL <? dt_ordinal dt + d then Err DateOverflow
  else Ok (MkDatetime (dt_ordinal dt + d) (dt_hour dt) (dt_minute dt) (dt_second dt) (dt_microsecond dt)).

Definition replace_time (h m s us : Z) (dt : datetime) : datetime :=
  MkDatetime (dt_ordinal dt) h m s us.

Definition add_minutes (m : Z) (dt : datetime) : result CronError datetime :=
  let t := dt_hour dt * 60 + dt_minute dt + m in
  add_days (t / 1440)
    (replace_time (t mod 1440 / 60) (t mod 60) (dt_second dt) (dt_microsecond dt) dt).

(** The loop over the minutes of an hour: the minute found, or none. *)
Fixpoint scan_minutes (turns : nat) (ms : gset Z) (minute : Z) : option Z :=
  match turns with
  | O => None
  | S turns' =>
      if decide (minute ∈ ms) then Some minute
      else if minute =? 59 then None
      else scan_minutes turns' ms (minute + 1)
  end.

Definition next_hour (c : datetime) : result CronError datetime :=
  add_minutes 60 (replace_time (dt_hour c) 0 (dt_second c) (dt_microsecond c) c).

Definition next_day (c : datetime) : result CronError datetime :=
  try d <- add_days 1 c in Ok (replace_time 0 0 (dt_second d) (dt_microsecond d) d).

Fixpoint search (turns : nat) (c : CronExpression) (cand : datetime) : result CronError datetime :=
  match turns with
  | O => Err NoFutureMatch
  | S turns' =>
      if negb (bool_decide (dt_month cand ∈ months c)) || negb (day_matches c cand)
      then try cand' <- next_day cand in search turns' c cand'
      else
        match (if decide (dt_hour cand ∈ hours c) then scan_minutes 60 (minutes c) (dt_minute cand)
               else None) with
        | Some m => Ok (replace_time (dt_hour cand) m (dt_second cand) (dt_microsecond cand) cand)
        | None => try cand' <- next_hour cand in search turns' c cand'
        end
  end.

Definition search_turns : nat := Z.to_nat (366 * 24 * 60).

Definition next_after (c : CronExpression) (dt : datetime) : result CronError datetime :=
  let candidate := replace_time (dt_hour dt) (dt_minute dt) 0 0 dt in
  try candidate <-
    (if negb (dt_second dt =? 0) || negb (dt_microsecond dt =? 0)
     then add_minutes 1 candidate else Ok candidate) in
  search search_turns c candidate.

(** Wednesday, 1 January 2025 has ordinal 739252. *)
Example new_year_2025 : ord2md 739252 = (1, 1) ∧ weekday (MkDatetime 739252 0 0 0 0) = 2.
Proof. split; reflexivity. Qed.

Example leap_day_2024 : ord2md (739252 - 307) = (2, 29) ∧ ord2md (739252 - 306) = (3, 1).
Proof. split; reflexivity. Qed.

(** * What the cron search finds

    Minutes are numbered from ordinal 0 ([stamp]); [match_at] tells whether the
    schedule matches a numbered minute.  The bounded loop of [next_after] is
    shown to find the least matching minute. *)

Open Scope Z_scope.
Open Scope py_scope.

Definition stamp (dt : datetime) : Z := dt_ordinal dt * 1440 + dt_hour dt * 60 + dt_minute dt.

Definition of_stamp (t : Z) : datetime := MkDatetime (t / 1440) (t mod 1440 / 60) (t mod 60) 0 0.

Definition match_at (c : CronExpression) (t : Z) : bool := matches c (of_stamp t).

Definition end_of_time : Z := (MAXORDINAL + 1) * 1440.

(** A [datetime] of Python at or before [datetime.max]. *)
Record dt_wf (dt : datetime) : Prop := {
  wf_ordinal : dt_ordinal dt <= MAXORDINAL;
  wf_hour : 0 <= dt_hour dt < 24;
  wf_minute : 0 <= dt_minute dt < 60
}.

(** The candidates of the search: on a whole minute. *)
Definition whole (dt : datetime) : Prop := dt_second dt = 0 ∧ dt_microsecond dt = 0.

Lemma stamp_day dt : dt_wf dt → stamp dt / 1440 = dt_ordinal dt.
Proof. intros [_ ??]. unfold stamp. Z.to_euclidean_division_equations; lia. Qed.

Lemma stamp_hour dt : dt_wf dt → stamp dt mod 1440 / 60 = dt_hour dt.
Proof. intros [_ ??]. unfold stamp. Z.to_euclidean_division_equations; lia. Qed.

Lemma stamp_minute dt : dt_wf dt → stamp dt mod 60 = dt_minute dt.
Proof. intros [_ ??]. unfold stamp. Z.to_euclidean_division_equations; lia. Qed.

Lemma of_stamp_stamp dt : dt_wf dt → whole dt → of_stamp (stamp dt) = dt.
Proof.
  intros Hwf [Hs Hu]. unfold of_stamp. rewrite stamp_day, stamp_hour, stamp_minute by done.
  destruct dt; simpl in *. by subst.
Qed.

Lemma match_at_stamp c dt : dt_wf dt → whole dt → match_at c (stamp dt) = matches c dt.
Proof. intros. unfold match_at. by rewrite of_stamp_stamp. Qed.

(** ** Moving on *)

Lemma add_days_spec d dt :
  match add_days d dt with
  | Ok dt' => dt' = MkDatetime (dt_ordinal dt + d) (dt_hour dt) (dt_minute dt) (dt_second dt) (dt_microsecond dt)
              ∧ dt_ordinal dt + d <= MAXORDINAL
  | Err e => e = DateOverflow ∧ MAXORDINAL < dt_ordinal dt + d
  end.
Proof. unfold add_days. destruct (Z.ltb_spec MAXORDINAL (dt_ordinal dt + d)); [done|]. split; [done|lia]. Qed.

Lemma add_minutes_spec m dt :
  dt_wf dt → 0 <= m →
  match add_minutes m dt with
  | Ok dt' => dt_wf dt' ∧ stamp dt' = stamp dt + m ∧ dt_second dt' = dt_second dt
              ∧ dt_microsecond dt' = dt_microsecond dt
  | Err e => e = DateOverflow ∧ end_of_time <= stamp dt + m
  end.
Proof.
  intros [Ho Hh Hm] Hpos. unfold add_minutes.
  set (t := dt_hour dt * 60 + dt_minute dt + m).
  pose proof (add_days_spec (t / 1440) (replace_time (t mod 1440 / 60) (t mod 60) (dt_second dt)
    (dt_microsecond dt) dt)) as Ha.
  destruct (add_days _ _) as [dt'|e]; simpl in Ha; destruct Ha as [-> Hle].
  - split; [split; simpl; [done|..]; Z.to_euclidean_division_equations; lia|].
    split; [|done]. unfold stamp; simpl. subst t. Z.to_euclidean_division_equations; lia.
  - split; [done|]. unfold end_of_time, stamp. subst t. Z.to_euclidean_division_equations; lia.
Qed.

Lemma next_hour_spec dt :
  dt_wf dt → whole dt →
  match next_hour dt with
  | Ok dt' => dt_wf dt' ∧ whole dt' ∧ stamp dt' = stamp dt - dt_minute dt + 60
  | Err e => e = DateOverflow ∧ end_of_time <= stamp dt - dt_minute dt + 60
  end.
Proof.
  intros [Ho Hh Hm] [Hs Hu]. unfold next_hour.
  set (dt0 := replace_time _ _ _ _ _).
  assert (dt_wf dt0) as Hwf0 by (split; simpl; lia).
  pose proof (add_minutes_spec 60 dt0 Hwf0 ltac:(lia)) as Ha.
  assert (stamp dt0 = stamp dt - dt_minute dt) as Hst by (unfold stamp; simpl; lia).
  rewrite Hst in Ha. destruct (add_minutes 60 dt0) as [dt'|e]; [|done].
  destruct Ha as (Hwf & Hst' & Hs' & Hu'). split; [done|]. split; [|lia].
  split; simpl in *; congruence.
Qed.

Lemma next_day_spec dt :
  dt_wf dt → whole dt →
  match next_day dt with
  | Ok dt' => dt_wf dt' ∧ whole dt' ∧ stamp dt' = (dt_ordinal dt + 1) * 1440
  | Err e => e = DateOverflow ∧ end_of_time <= (dt_ordinal dt + 1) * 1440
  end.
Proof.
  intros [Ho Hh Hm] [Hs Hu]. unfold next_day. pose proof (add_days_spec 1 dt) as Ha.
  destruct (add_days 1 dt) as [dt'|e]; destruct Ha as [-> Ha]; simpl.
  - split; [split; simpl; lia|]. split; [done|]. unfold stamp; simpl. lia.
  - split; [done|]. unfold end_of_time. lia.
Qed.

(** ** What is skipped does not match *)

(** The minutes of a day whose month or day does not match. *)
Lemma no_match_day c dt t :
  dt_wf dt →
  negb (bool_decide (dt_month dt ∈ months c)) || negb (day_matches c dt) = true →
  stamp dt <= t < (dt_ordinal dt + 1) * 1440 → match_at c t = false.
Proof.
  intros Hwf Hno Ht. assert (t / 1440 = dt_ordinal dt) as Hd.
  { destruct Hwf. unfold stamp in Ht. Z.to_euclidean_division_equations; lia. }
  unfold match_at, matches. 
  assert (day_matches c (of_stamp t) = day_matches c dt) as ->.
  { unfold day_matches, dt_day, weekday. simpl. by rewrite Hd. }
  assert (dt_month (of_stamp t) = dt_month dt) as ->.
  { unfold dt_month. simpl. by rewrite Hd. }
  apply orb_true_elim in Hno as [Hn|Hn]; apply negb_true_iff in Hn; rewrite Hn;
    by rewrite ?andb_false_r.
Qed.

(** Minute [m] of the hour of [dt]. *)
Lemma match_in_hour c dt t :
  dt_wf dt → stamp dt <= t < stamp dt - dt_minute dt + 60 →
  match_at c t = true → dt_hour dt ∈ hours c ∧ dt_minute dt + (t - stamp dt) ∈ minutes c.
Proof.
  intros Hwf Ht. unfold match_at, matches.
  assert (dt_hour (of_stamp t) = dt_hour dt) as ->.
  { destruct Hwf. simpl. unfold stamp in Ht. Z.to_euclidean_division_equations; lia. }
  assert (dt_minute (of_stamp t) = dt_minute dt + (t - stamp dt)) as ->.
  { destruct Hwf. simpl. unfold stamp in *. Z.to_euclidean_division_equations; lia. }
  rewrite !andb_true_iff, !bool_decide_eq_true. naive_solver.
Qed.

Lemma scan_minutes_spec turns ms minute :
  0 <= minute < 60 → (60 - minute <= Z.of_nat turns) →
  match scan_minutes turns ms minute with
  | Some m => minute <= m < 60 ∧ m ∈ ms ∧ ∀ k, minute <= k < m → k ∉ ms
  | None => ∀ k, minute <= k < 60 → k ∉ ms
  end.
Proof.
  revert minute. induction turns as [|turns IH]; intros minute Hm Ht; [lia|]. simpl.
  case_decide as Hin; [split; [lia|]; split; [done|]; lia|].
  destruct (Z.eqb_spec minute 59) as [->|Hne].
  { intros k Hk. assert (k = 59) as -> by lia. done. }
  specialize (IH (minute + 1) ltac:(lia) ltac:(lia)).
  destruct (scan_minutes turns ms (minute + 1)) as [m|].
  - destruct IH as (Hb & Hi & Hk). split; [lia|]. split; [done|]. intros k Hr.
    destruct (decide (k = minute)) as [->|]; [done|]. apply Hk. lia.
  - intros k Hr. destruct (decide (k = minute)) as [->|]; [done|]. apply IH. lia.
Qed.

(** ** The search *)

(** No minute from [a] on and before [b] matches. *)
Definition silent (c : CronExpression) (a b : Z) : Prop := ∀ t, a <= t < b → match_at c t = false.

Lemma silent_app c a b d : silent c a b → silent c b d → silent c a d.
Proof. intros H1 H2 t Ht. destruct (decide (t < b)); [apply H1|apply H2]; lia. Qed.

(** What an outcome of the search from minute [a] means. *)
Definition outcome (c : CronExpression) (a : Z) (turns : nat) (r : result CronError datetime) : Prop :=
  match r with
  | Ok dt => dt_wf dt ∧ whole dt ∧ matches c dt = true ∧ a <= stamp dt ∧ silent c a (stamp dt)
  | Err NoFutureMatch => silent c a (a / 60 * 60 + 60 * Z.of_nat turns)
  | Err DateOverflow => silent c a end_of_time
  | Err _ => False
  end.

Lemma outcome_step c a b turns r :
  silent c a b → a / 60 * 60 + 60 <= b → outcome c b turns r → outcome c a (S turns) r.
Proof.
  intros Hs Hab. unfold outcome. destruct r as [dt|[]]; try done.
  - intros (Hwf & Hw & Hm & Hle & Hsil). split; [done|]. split; [done|]. split; [done|].
    split; [Z.to_euclidean_division_equations; lia|]. by eapply silent_app.
  - intros Hsil t Ht. apply (silent_app _ _ _ _ Hs Hsil).
    Z.to_euclidean_division_equations; lia.
  - intros Hsil. by eapply silent_app.
Qed.

(** Leaving an hour without a match. *)
Lemma no_match_hour c dt :
  dt_wf dt →
  (if decide (dt_hour dt ∈ hours c) then scan_minutes 60 (minutes c) (dt_minute dt) else None) = None →
  silent c (stamp dt) (stamp dt - dt_minute dt + 60).
Proof.
  intros Hwf Hn t Ht. apply not_true_is_false. intros Hm.
  destruct (match_in_hour c dt t Hwf Ht Hm) as [Hh Hmin]. rewrite decide_True in Hn by done.
  pose proof (scan_minutes_spec 60 (minutes c) (dt_minute dt) (wf_minute _ Hwf)) as Hs.
  rewrite Hn in Hs. destruct Hwf. eapply Hs; [lia| |exact Hmin]. lia.
Qed.

(** The minute the scan of an hour finds. *)
Lemma found_minute c dt m :
  dt_wf dt → whole dt →
  negb (bool_decide (dt_month dt ∈ months c)) || negb (day_matches c dt) = false →
  (if decide (dt_hour dt ∈ hours c) then scan_minutes 60 (minutes c) (dt_minute dt) else None) = Some m →
  ∀ turns, outcome c (stamp dt) turns
    (Ok (replace_time (dt_hour dt) m (dt_second dt) (dt_microsecond dt) dt)).
Proof.
  intros Hwf Hw Hday Hf turns. apply orb_false_elim in Hday as [Hmo Hd].
  apply negb_false_iff in Hmo, Hd. case_decide as Hh; [|done].
  pose proof (scan_minutes_spec 60 (minutes c) (dt_minute dt) (wf_minute _ Hwf)) as Hs.
  rewrite Hf in Hs. destruct (Hs ltac:(destruct Hwf; lia)) as (Hb & Hin & Hk).
  set (r := replace_time _ _ _ _ _).
  assert (stamp r = stamp dt + (m - dt_minute dt)) as Hst by (unfold stamp; simpl; lia).
  split; [destruct Hwf; split; simpl; lia|]. split; [done|]. split; [|split; [lia|]].
  - unfold matches. simpl. rewrite !(bool_decide_eq_true_2 _) by done.
    change (day_matches c r) with (day_matches c dt). rewrite Hd.
    change (dt_month r) with (dt_month dt). by rewrite Hmo.
  - intros t Ht. apply not_true_is_false. intros Hm.
    destruct (match_in_hour c dt t Hwf ltac:(lia) Hm) as [_ Hmin]. eapply Hk; [|exact Hmin]. lia.
Qed.

Lemma search_outcome turns c dt :
  dt_wf dt → whole dt → outcome c (stamp dt) turns (search turns c dt).
Proof.
  revert dt. induction turns as [|turns IH]; intros dt Hwf Hw.
  { intros t Ht. Z.to_euclidean_division_equations; lia. }
  cbn [search]. destruct (negb _ || negb _) eqn:Eday.
  - pose proof (next_day_spec dt Hwf Hw) as Hn.
    assert (silent c (stamp dt) ((dt_ordinal dt + 1) * 1440)) as Hs by (intros t; by apply no_match_day).
    assert (stamp dt / 60 * 60 + 60 <= (dt_ordinal dt + 1) * 1440) as Hadv.
    { destruct Hwf. unfold stamp. Z.to_euclidean_division_equations; lia. }
    destruct (next_day dt) as [dt'|e].
    + destruct Hn as (Hwf' & Hw' & Hst). eapply outcome_step; [done|done|]. rewrite <- Hst. by apply IH.
    + destruct Hn as [-> He]. intros t Ht. apply Hs. lia.
  - destruct (if decide _ then _ else _) as [m|] eqn:Ef; [by apply found_minute|].
    pose proof (no_match_hour c dt Hwf Ef) as Hs. pose proof (next_hour_spec dt Hwf Hw) as Hn.
    assert (stamp dt / 60 * 60 + 60 <= stamp dt - dt_minute dt + 60) as Hadv.
    { rewrite <- (stamp_minute dt Hwf). Z.to_euclidean_division_equations; lia. }
    destruct (next_hour dt) as [dt'|e].
    + destruct Hn as (Hwf' & Hw' & Hst). eapply outcome_step; [done|done|]. rewrite <- Hst. by apply IH.
    + destruct Hn as [-> He]. intros t Ht. apply Hs. lia.
Qed.

(** The first minute the search considers: the minute of [dt], or the next one
    when [dt] has seconds. *)
Definition first_minute (dt : datetime) : Z :=
  if negb (dt_second dt =? 0) || negb (dt_microsecond dt =? 0) then stamp dt + 1 else stamp dt.

Lemma next_after_outcome c dt :
  dt_wf dt → outcome c (first_minute dt) search_turns (next_after c dt).
Proof.
  intros Hwf. unfold next_after, first_minute.
  set (cand := replace_time _ _ _ _ dt).
  assert (dt_wf cand ∧ whole cand ∧ stamp cand = stamp dt) as (Hwf0 & Hw0 & Hst0).
  { split; [destruct Hwf; split; simpl; lia|]. done. }
  rewrite <- Hst0. destruct (negb _ || negb _); [|by apply search_outcome].
  pose proof (add_minutes_spec 1 cand Hwf0 ltac:(lia)) as Ha.
  destruct (add_minutes 1 cand) as [dt'|e].
  - destruct Ha as (Hwf' & <- & Hs & Hu). apply search_outcome; [done|]. destruct Hw0. split; congruence.
  - destruct Ha as [-> He]. intros t Ht. lia.
Qed.

(** From a time that is not a matching whole minute the search finds a strictly
    later one. *)
Lemma strictly_later c dt r :
  dt_wf dt → (whole dt → matches c dt = false) → dt_wf r → whole r → matches c r = true →
  first_minute dt <= stamp r → stamp dt < stamp r.
Proof.
  intros Hwf Hno Hwr Hw Hm Hle. unfold first_minute in Hle.
  destruct (Z.eqb_spec (dt_second dt) 0) as [Hs|]; simpl in Hle; [|lia].
  destruct (Z.eqb_spec (dt_microsecond dt) 0) as [Hu|]; simpl in Hle; [|lia].
  destruct (decide (stamp r = stamp dt)) as [He|]; [|lia].
  rewrite <- (match_at_stamp c r Hwr Hw), He, match_at_stamp in Hm by done.
  rewrite Hno in Hm; done.
Qed.

Lemma silent_after c dt b :
  silent c (first_minute dt) b → ∀ t, stamp dt < t < b → match_at c t = false.
Proof. intros Hs t Ht. apply Hs. unfold first_minute. destruct (_ || _); lia. Qed.

(** (C10) [next_after] finds the first match strictly after the given time, when
    that time is not itself a whole minute that matches: it returns a minute
    that matches, strictly later, with no match in between; it raises
    [ValueError] only when no minute of the next sixty years of 365 days matches, and an
    overflow only when none matches before the end of the calendar.  No other
    error occurs.  (The excluded case is [next_after_not_strict] below.) *)
Theorem next_after_least (c : CronExpression) (dt : datetime) :
  dt_wf dt → (whole dt → matches c dt = false) →
  match next_after c dt with
  | Ok r =>
      matches c r = true ∧ whole r ∧ stamp dt < stamp r ∧
      ∀ t, stamp dt < t < stamp r → match_at c t = false
  | Err NoFutureMatch =>
      ∀ t, stamp dt < t < stamp dt + 60 * 365 * 1440 → match_at c t = false
  | Err DateOverflow => ∀ t, stamp dt < t < end_of_time → match_at c t = false
  | Err _ => False
  end.
Proof.
  intros Hwf Hno. pose proof (next_after_outcome c dt Hwf) as Ho. unfold outcome in Ho.
  destruct (next_after c dt) as [r|[]]; try done.
  - destruct Ho as (Hwr & Hw & Hm & Hle & Hs). split; [done|]. split; [done|].
    split; [by eapply strictly_later|]. by apply silent_after.
  - intros t Ht. eapply silent_after; [exact Ho|]. unfold search_turns. rewrite Z2Nat.id by lia.
    split; [lia|]. unfold first_minute. destruct (_ || _); Z.to_euclidean_division_equations; lia.
  - by apply silent_after.
Qed.

Definition parsed (e : string) : CronExpression :=
  match cron_parse e with Ok c => c | Err _ => MkCron ∅ ∅ ∅ ∅ ∅ end.

Lemma next_after_least_witness :
  ∃ r, next_after (parsed "*/15 9-17 * * 0-4") (MkDatetime 739252 23 1 5 0) = Ok r ∧
    r = MkDatetime 739253 9 0 0 0 ∧
    ∀ t, 739252 * 1440 + 1381 < t < stamp r → match_at (parsed "*/15 9-17 * * 0-4") t = false.
Proof.
  pose proof (next_after_least (parsed "*/15 9-17 * * 0-4") (MkDatetime 739252 23 1 5 0)) as H.
  exists (MkDatetime 739253 9 0 0 0).
  assert (next_after (parsed "*/15 9-17 * * 0-4") (MkDatetime 739252 23 1 5 0)
          = Ok (MkDatetime 739253 9 0 0 0)) as E by (vm_compute; reflexivity).
  rewrite E in H. split; [exact E|]. split; [reflexivity|].
  apply H; [split; simpl; unfold MAXORDINAL; lia|]. intros [Hs _]. discriminate Hs.
Defined.

(** ** Schedules that always fire *)

Lemma elem_of_py_range x a b step :
  0 < step → x ∈ py_range a b step ↔ a <= x < b ∧ (x - a) mod step = 0.
Proof.
  intros Hs. unfold py_range. rewrite list_elem_of_fmap. setoid_rewrite elem_of_seqZ. split.
  - intros (i & -> & Hi). replace (a + i * step - a) with (i * step) by lia.
    rewrite Z.mod_mul by lia. split; [|done]. Z.to_euclidean_division_equations; nia.
  - intros [Hb Hm]. apply Z.mod_divide in Hm as [i Hi]; [|lia]. exists i. split; [lia|].
    Z.to_euclidean_division_equations; nia.
Qed.

Lemma elem_of_full x low high : x ∈ full low high ↔ low <= x <= high.
Proof.
  unfold full. rewrite elem_of_list_to_set, elem_of_py_range by lia. rewrite Z.mod_1_r. lia.
Qed.

(** The twelve months, by the day of the year. *)
Lemma month_table (leap : bool) (n : Z) :
  0 <= n < 365 →
  let month := (n + 50) / 32 in
  let month := if n <? days_before_month leap month then month - 1 else month in
  1 <= month <= 12 ∧ 1 <= n - days_before_month leap month + 1 <= 31.
Proof.
  intros Hn.
  assert (forallb (λ n,
    let month := (n + 50) / 32 in
    let month := if n <? days_before_month leap month then month - 1 else month in
    (1 <=? month) && (month <=? 12) && (1 <=? n - days_before_month leap month + 1)
    && (n - days_before_month leap month + 1 <=? 31)) (seqZ 0 365) = true) as Hall
    by (destruct leap; vm_compute; reflexivity).
  rewrite forallb_forall in Hall. specialize (Hall n).
  rewrite <- list_elem_of_In, elem_of_seqZ in Hall. specialize (Hall ltac:(lia)).
  simpl in *. rewrite !andb_true_iff, !Z.leb_le in Hall. lia.
Qed.

Lemma calendar_ranges dt : 1 <= dt_month dt <= 12 ∧ 1 <= dt_day dt <= 31 ∧ 0 <= weekday dt <= 6.
Proof.
  assert (0 <= weekday dt <= 6) as Hw.
  { unfold weekday. pose proof (Z.mod_pos_bound (dt_ordinal dt + 6) 7 ltac:(lia)). lia. }
  unfold dt_month, dt_day, ord2md. destruct (_ || _); [simpl; lia|]. cbn [fst snd].
  match goal with |- context [days_before_month ?l (((?n mod 365) + 50) / 32)] =>
    destruct (month_table l (n mod 365) (Z.mod_pos_bound n 365 ltac:(lia))) as [Hm Hd] end.
  done.
Qed.

(** A schedule without restrictions on days that names a minute and an hour
    fires within a day of any time. *)
Theorem daily_schedule_fires (c : CronExpression) (dt : datetime) (h m : Z) :
  dt_wf dt → first_minute dt + 1440 <= end_of_time →
  doms c = full 1 31 → dows c = full 0 6 → months c = full 1 12 →
  0 <= h < 24 → h ∈ hours c → 0 <= m < 60 → m ∈ minutes c →
  ∃ r, next_after c dt = Ok r ∧ matches c r = true ∧
    first_minute dt <= stamp r < first_minute dt + 1440.
Proof.
  intros Hwf Hend Hdom Hdow Hmon Hh Hin Hm Him.
  set (t0 := first_minute dt) in *.
  assert (∃ t, t0 <= t < t0 + 1440 ∧ match_at c t = true) as (t & Ht & Hmt).
  { exists (t0 + (h * 60 + m - t0) mod 1440).
    pose proof (Z.mod_pos_bound (h * 60 + m - t0) 1440 ltac:(lia)) as Hb. split; [lia|].
    assert ((t0 + (h * 60 + m - t0) mod 1440) mod 1440 = h * 60 + m) as Hmod.
    { rewrite Zplus_mod_idemp_r. replace (t0 + (h * 60 + m - t0)) with (h * 60 + m) by lia.
      apply Z.mod_small. lia. }
    set (t := t0 + (h * 60 + m - t0) mod 1440) in *. destruct (calendar_ranges (of_stamp t)) as (Hmo & Hda & Hwd).
    unfold match_at, matches, day_matches. rewrite Hdom, Hdow, Hmon.
    rewrite !(bool_decide_eq_false_2 (full _ _ ≠ _)) by (by intros H).
    cbn [andb]. rewrite !(bool_decide_eq_true_2 (_ ∈ full _ _)) by (apply elem_of_full; lia).
    simpl. rewrite Hmod.
    assert (t mod 60 = m) as ->. { Z.to_euclidean_division_equations; lia. }
    assert ((h * 60 + m) / 60 = h) as ->. { Z.to_euclidean_division_equations; lia. }
    by rewrite !bool_decide_eq_true_2. }
  pose proof (next_after_outcome c dt Hwf) as Ho. fold t0 in Ho.
  destruct (next_after c dt) as [r|[]]; try done; simpl in Ho.
  - destruct Ho as (_ & _ & Hmr & Hle & Hs). exists r. split; [done|]. split; [done|].
    split; [done|]. destruct (decide (stamp r < t0 + 1440)); [done|].
    rewrite (Hs t) in Hmt; [done|lia].
  - rewrite (Ho t) in Hmt; [done|]. unfold search_turns. rewrite Z2Nat.id by lia.
    Z.to_euclidean_division_equations; lia.
  - rewrite (Ho t) in Hmt; [done|lia].
Qed.

Lemma daily_schedule_fires_witness :
  ∃ r, next_after (parsed "30 6 * * *") (MkDatetime 739252 23 1 5 0) = Ok r ∧
    matches (parsed "30 6 * * *") r = true ∧
    first_minute (MkDatetime 739252 23 1 5 0) <= stamp r
      < first_minute (MkDatetime 739252 23 1 5 0) + 1440.
Proof.
  apply (daily_schedule_fires (parsed "30 6 * * *") (MkDatetime 739252 23 1 5 0) 6 30).
  - split; simpl; unfold MAXORDINAL; lia.
  - vm_compute. discriminate.
  - vm_compute. reflexivity.
  - vm_compute. reflexivity.
  - vm_compute. reflexivity.
  - lia.
  - refine (bool_decide_eq_true_1 (6 ∈ hours _) _). vm_compute. reflexivity.
  - lia.
  - refine (bool_decide_eq_true_1 (30 ∈ minutes _) _). vm_compute. reflexivity.
Defined.

(** A matching time on a whole minute is its own successor: [next_after]
    returns it, although it is documented to be strictly later. *)
Theorem next_after_not_strict (c : CronExpression) (dt : datetime) :
  dt_wf dt → whole dt → matches c dt = true → next_after c dt = Ok dt.
Proof.
  intros Hwf Hw Hm. pose proof (next_after_outcome c dt Hwf) as Ho.
  assert (first_minute dt = stamp dt) as Hf.
  { destruct Hw as [Hs Hu]. unfold first_minute. by rewrite Hs, Hu. }
  rewrite Hf in Ho. rewrite <- (match_at_stamp c dt Hwf Hw) in Hm.
  assert (stamp dt < end_of_time) as Hlt.
  { destruct Hwf. unfold end_of_time, stamp. lia. }
  destruct (next_after c dt) as [r|[]]; try done; simpl in Ho.
  - destruct Ho as (Hwr & Hwh & _ & Hle & Hs). f_equal.
    rewrite <- (of_stamp_stamp r Hwr Hwh), <- (of_stamp_stamp dt Hwf Hw). f_equal.
    destruct (decide (stamp r = stamp dt)); [done|]. rewrite (Hs (stamp dt)) in Hm; [done|lia].
  - rewrite (Ho (stamp dt)) in Hm; [done|]. unfold search_turns. rewrite Z2Nat.id by lia.
    Z.to_euclidean_division_equations; lia.
  - rewrite (Ho (stamp dt)) in Hm; [done|lia].
Qed.

Lemma next_after_not_strict_witness :
  next_after (parsed "0 0 * * *") (MkDatetime 739252 0 0 0 0) = Ok (MkDatetime 739252 0 0 0 0).
Proof.
  apply (next_after_not_strict (parsed "0 0 * * *") (MkDatetime 739252 0 0 0 0)).
  - split; simpl; unfold MAXORDINAL; lia.
  - split; reflexivity.
  - vm_compute. reflexivity.
Defined.

(** ** Fields *)

Lemma str_of_Z_chars z : 0 <= z → all_chars is_digit (str_of_Z z) = true.
Proof. intros Hz. apply numeral_chars. by apply str_of_Z_spec. Qed.

Lemma digits_no_char c s :
  is_digit c = false → all_chars is_digit s = true → no_char c s = true.
Proof. apply all_chars_no_char. Qed.

Lemma isdigit_str z : 0 <= z → isdigit (str_of_Z z) = true.
Proof.
  intros Hz. unfold isdigit. rewrite all_digits_chars, str_of_Z_chars by done.
  destruct (str_of_Z_spec z Hz) as [Hn _]. by destruct (str_of_Z z).
Qed.

(** A field of a single piece that is not a star. *)
Lemma parse_field_piece low high raw vs x :
  raw ≠ "*"%string → no_char comma raw = true → parse_piece low high raw = Ok vs → x ∈ vs →
  parse_field low high raw = Ok (list_to_set vs).
Proof.
  intros Hne Hc Hp Hx. unfold parse_field. rewrite decide_False by done.
  rewrite split_on_single by done. simpl. rewrite Hp. rewrite (left_id_L ∅ (∪)).
  rewrite decide_False; [done|]. intros He. apply (not_elem_of_empty (C := gset Z) x).
  rewrite <- He. by apply elem_of_list_to_set.
Qed.

Lemma parse_field_error low high raw e :
  raw ≠ "*"%string → no_char comma raw = true → parse_piece low high raw = Err e →
  parse_field low high raw = Err e.
Proof.
  intros Hne Hc Hp. unfold parse_field. rewrite decide_False by done.
  rewrite split_on_single by done. simpl. by rewrite Hp.
Qed.

Lemma parse_number low high a :
  0 <= a →
  parse_field low high (str_of_Z a) =
    if bool_decide (low <= a <= high) then Ok {[a]} else Err (OutOfRange a low high).
Proof.
  intros Ha. pose proof (str_of_Z_chars a Ha) as Hc.
  assert (str_of_Z a ≠ "*"%string) as Hs by (intros H; by rewrite H in Hc).
  assert (parse_piece low high (str_of_Z a) =
    if (a <? low) || (high <? a) then Err (OutOfRange a low high) else Ok [a]) as Hp.
  { unfold parse_piece. rewrite !partition_none by (by apply digits_no_char).
    rewrite isdigit_str by done. by rewrite (proj2 (str_of_Z_spec a Ha)). }
  case_bool_decide as Hr.
  - rewrite (parse_field_piece _ _ _ [a] a); [f_equal; set_solver|done|by apply digits_no_char| |by left].
    rewrite Hp. destruct (Z.ltb_spec a low), (Z.ltb_spec high a); simpl; done || lia.
  - apply parse_field_error; [done|by apply digits_no_char|]. rewrite Hp.
    destruct (Z.ltb_spec a low), (Z.ltb_spec high a); simpl; done || lia.
Qed.

Lemma parse_range low high a b :
  0 <= a → 0 <= b →
  parse_field low high (str_of_Z a +:+ "-" +:+ str_of_Z b) =
    if bool_decide (a <= b) then Ok (full a b) else Err EmptyField.
Proof.
  intros Ha Hb. pose proof (str_of_Z_chars a Ha) as Hca. pose proof (str_of_Z_chars b Hb) as Hcb.
  set (raw := str_of_Z a +:+ "-" +:+ str_of_Z b).
  assert (raw = str_of_Z a +:+ String dash (str_of_Z b)) as Hraw by done.
  assert (∀ c, is_digit c = false → c ≠ dash → no_char c raw = true) as Hno.
  { intros c Hc Hd. apply (all_chars_no_char (λ x, is_digit x || bool_decide (x = dash))).
    - rewrite Hc. by rewrite bool_decide_eq_false_2.
    - rewrite Hraw, all_chars_app. simpl.
      rewrite !(all_chars_mono is_digit _ _ (λ x Hx, orb_true_intro _ _ (or_introl Hx))); done. }
  assert (no_char comma raw = true) as Hcomma by (by apply Hno).
  assert (raw ≠ "*"%string) as Hstar.
  { intros H. specialize (Hno (Ascii.ascii_of_nat 42) eq_refl ltac:(done)). by rewrite H in Hno. }
  assert (parse_piece low high raw = Ok (py_range a (b + 1) 1)) as Hp.
  { unfold parse_piece. rewrite partition_none by (by apply Hno).
    rewrite Hraw, partition_app by (by apply digits_no_char).
    unfold to_int. by rewrite !py_int_str. }
  case_bool_decide as Hab.
  - rewrite (parse_field_piece _ _ _ _ a Hstar Hcomma Hp); [done|].
    apply elem_of_py_range; [lia|]. rewrite Z.mod_1_r. lia.
  - unfold parse_field. rewrite decide_False by done. rewrite split_on_single by done.
    simpl. rewrite Hp. rewrite decide_True; [done|].
    apply set_eq. intros x. rewrite elem_of_union, elem_of_list_to_set, elem_of_py_range by lia.
    split; [intros [?|?]; [done|lia]|done].
Qed.

Lemma parse_step low high n :
  low <= high → 1 <= n →
  parse_field low high ("*/" +:+ str_of_Z n) = Ok (list_to_set (py_range low (high + 1) n)).
Proof.
  intros Hlow Hn. pose proof (str_of_Z_chars n ltac:(lia)) as Hc.
  apply (parse_field_piece _ _ _ _ low).
  - intros H. apply (f_equal String.length) in H. simpl in H. discriminate H.
  - change (no_char comma (String (Ascii.ascii_of_nat 42) (String slash (str_of_Z n))) = true).
    simpl. by apply digits_no_char.
  - change ("*/" +:+ str_of_Z n) with ("*" +:+ String slash (str_of_Z n)).
    unfold parse_piece. rewrite partition_app by done. unfold to_int. rewrite py_int_str by lia.
    rewrite (proj2 (Z.leb_gt n 0)) by lia. by rewrite decide_True.
  - apply elem_of_py_range; [lia|]. rewrite Z.sub_diag, Z.mod_0_l by lia. lia.
Qed.

(** A field denotes what its notation says: a number within the bounds is
    itself, [a-b] the numbers from [a] to [b], and [*/n] every [n]-th number
    from the lower bound; a number out of bounds and an empty range are
    refused. *)
Theorem cron_field_meaning (low high a b n : Z) :
  low <= high → 0 <= a → 0 <= b → 1 <= n →
  parse_field low high (str_of_Z a) =
    (if bool_decide (low <= a <= high) then Ok {[a]} else Err (OutOfRange a low high)) ∧
  parse_field low high (str_of_Z a +:+ "-" +:+ str_of_Z b) =
    (if bool_decide (a <= b) then Ok (full a b) else Err EmptyField) ∧
  ∃ s, parse_field low high ("*/" +:+ str_of_Z n) = Ok s ∧
    ∀ x, x ∈ s ↔ low <= x <= high ∧ (x - low) mod n = 0.
Proof.
  intros Hlow Ha Hb Hn. split; [by apply parse_number|]. split; [by apply parse_range|].
  eexists. split; [by apply parse_step|].
  intros x. rewrite elem_of_list_to_set, elem_of_py_range by lia. lia.
Qed.

Lemma cron_field_meaning_witness :
  parse_field 0 59 "40" = Ok {[40]} ∧ parse_field 0 59 "50-70" = Ok (full 50 70).
Proof.
  destruct (cron_field_meaning 0 59 40 70 15) as (H1 & _); [lia..|].
  destruct (cron_field_meaning 0 59 50 70 15) as (_ & H2 & _); [lia..|].
  split; [exact H1|exact H2].
Defined.
