(* ===== verification/PyDict.v ===== *)
(** * Python dictionaries

    A [dict] keeps its items in insertion order: an assignment to a key that
    is present replaces the value and keeps the position, a new key goes last,
    and iteration ([items], [keys], [values]) follows the order.  The model is
    the list of items; [dict_wf] says that no key occurs twice, which every
    operation preserves. *)

From Stdlib Require Import ZArith Lia.
From stdpp Require Import base numbers strings gmap list.
From S2P Require Import Prelude.


Abbreviation dict K V := (list (K * V)) (only parsing).

Section Dict.
Context {K : Type} `{EqDecision K} {V : Type}.
Implicit Types (d : dict K V) (k : K) (v : V).

(** [d.get(k)] *)
Fixpoint dict_get k d : option V :=
  match d with
  | [] => None
  | (k', v) :: d' => if decide (k = k') then Some v else dict_get k d'
  end.

(** [d[k] = v] *)
Fixpoint dict_set k v d : dict K V :=
  match d with
  | [] => [(k, v)]
  | (k', v') :: d' =>
      if decide (k = k') then (k, v) :: d' else (k', v') :: dict_set k v d'
  end.

(** [d.pop(k, None)] and [del d[k]] *)
Fixpoint dict_pop k d : dict K V :=
  match d with
  | [] => []
  | (k', v') :: d' => if decide (k = k') then d' else (k', v') :: dict_pop k d'
  end.

Definition dict_mem k d : bool :=
  match dict_get k d with Some _ => true | None => false end.

Definition dict_keys d : list K := d.*1.
Definition dict_values d : list V := d.*2.

Definition dict_wf d : Prop := NoDup d.*1.

Lemma dict_get_set_eq k v d : dict_get k (dict_set k v d) = Some v.
Proof.
  induction d as [|[k' v'] d IH]; simpl.
  - by rewrite decide_True.
  - case_decide; simpl; [by rewrite decide_True|by rewrite decide_False].
Qed.

Lemma dict_get_set_ne k k' v d : k ≠ k' → dict_get k' (dict_set k v d) = dict_get k' d.
Proof.
  intros Hne. induction d as [|[k1 v1] d IH]; simpl.
  - by rewrite decide_False.
  - case_decide; simpl; [subst; by rewrite !decide_False|by rewrite IH].
Qed.

Lemma dict_get_set k k' v d :
  dict_get k' (dict_set k v d) = if decide (k = k') then Some v else dict_get k' d.
Proof.
  case_decide; [subst; apply dict_get_set_eq|by apply dict_get_set_ne].
Qed.

Lemma dict_get_None k d : dict_get k d = None ↔ k ∉ d.*1.
Proof.
  induction d as [|[k' v'] d IH]; csimpl; [set_solver|].
  rewrite not_elem_of_cons. case_decide; naive_solver.
Qed.

Lemma dict_get_elem_of k v d : dict_get k d = Some v → (k, v) ∈ d.
Proof.
  induction d as [|[k' v'] d IH]; simpl; [done|].
  case_decide; intros; simplify_eq; set_solver.
Qed.

Lemma dict_elem_of_get k v d : dict_wf d → (k, v) ∈ d → dict_get k d = Some v.
Proof.
  unfold dict_wf. induction d as [|[k' v'] d IH]; simpl; [set_solver|].
  intros [Hk Hd]%NoDup_cons [?|Hin]%elem_of_cons; simplify_eq.
  - by rewrite decide_True.
  - rewrite decide_False; [by apply IH|].
    intros ->. apply Hk, list_elem_of_fmap. by exists (k', v).
Qed.

Lemma dict_keys_set k v d :
  (dict_set k v d).*1 = if dict_mem k d then d.*1 else d.*1 ++ [k].
Proof.
  unfold dict_mem. induction d as [|[k' v'] d IH]; csimpl; [done|].
  case_decide; subst; csimpl; [done|]. rewrite IH. by destruct (dict_get k d).
Qed.

Lemma dict_set_wf k v d : dict_wf d → dict_wf (dict_set k v d).
Proof.
  unfold dict_wf. rewrite dict_keys_set. unfold dict_mem.
  destruct (dict_get k d) eqn:E; [done|]. intros Hd.
  apply NoDup_app. split; [done|]. split; [|by apply NoDup_singleton].
  intros x Hx ->%list_elem_of_singleton. by apply dict_get_None in E.
Qed.

Lemma dict_pop_sublist k d : dict_pop k d `sublist_of` d.
Proof.
  induction d as [|[k' v'] d IH]; simpl; [done|].
  case_decide; [by apply sublist_cons|by apply sublist_skip].
Qed.

Lemma dict_pop_wf k d : dict_wf d → dict_wf (dict_pop k d).
Proof.
  unfold dict_wf. intros Hd. eapply sublist_NoDup; [exact Hd|].
  apply fmap_sublist, dict_pop_sublist.
Qed.

Lemma dict_get_pop_eq k d : dict_wf d → dict_get k (dict_pop k d) = None.
Proof.
  unfold dict_wf. induction d as [|[k' v'] d IH]; simpl; [done|].
  intros [Hk Hd]%NoDup_cons. case_decide; subst; simpl.
  - by apply dict_get_None.
  - rewrite decide_False by done. by apply IH.
Qed.

Lemma dict_get_pop_ne k k' d : k ≠ k' → dict_get k' (dict_pop k d) = dict_get k' d.
Proof.
  intros Hne. induction d as [|[k1 v1] d IH]; simpl; [done|].
  case_decide; subst; simpl; [by rewrite decide_False|by rewrite IH].
Qed.

Lemma dict_pop_id k d : dict_get k d = None → dict_pop k d = d.
Proof.
  induction d as [|[k' v'] d IH]; simpl; [done|].
  case_decide; [done|]. intros. by rewrite IH.
Qed.

Lemma length_dict_pop k d :
  dict_mem k d = true → length d = S (length (dict_pop k d)).
Proof.
  unfold dict_mem. induction d as [|[k' v'] d IH]; simpl; [done|].
  case_decide; subst; simpl; [done|]. intros. by rewrite IH.
Qed.

Lemma length_dict_set k v d :
  length (dict_set k v d) = if dict_mem k d then length d else S (length d).
Proof.
  unfold dict_mem. induction d as [|[k' v'] d IH]; simpl; [done|].
  case_decide; subst; simpl; [done|]. rewrite IH. by destruct (dict_get k d).
Qed.

Lemma dict_set_elem_of k v d p : p ∈ dict_set k v d → p = (k, v) ∨ p ∈ d.
Proof.
  induction d as [|[k' v'] d IH]; simpl; [set_solver|].
  case_decide; set_solver.
Qed.

Lemma dict_set_Forall (P : K * V → Prop) k v d :
  Forall P d → P (k, v) → Forall P (dict_set k v d).
Proof.
  rewrite !Forall_forall. intros Hd Hk p [->|Hp]%dict_set_elem_of; auto.
Qed.

Lemma dict_pop_Forall (P : K * V → Prop) k d : Forall P d → Forall P (dict_pop k d).
Proof.
  induction 1 as [|[k' v'] d Hp Hd IH]; simpl; [done|]. case_decide; [done|by constructor].
Qed.

(** Updating in place the values of a list of keys, one after the other, is a
    pointwise update when no key repeats. *)
Fixpoint dict_update_all (f : V → V) (ks : list K) d : dict K V :=
  match ks with
  | [] => d
  | k :: ks' =>
      dict_update_all f ks'
        (match dict_get k d with Some v => dict_set k (f v) d | None => d end)
  end.

Lemma dict_update_all_get f ks d k :
  NoDup ks →
  dict_get k (dict_update_all f ks d)
  = if decide (k ∈ ks) then f <$> dict_get k d else dict_get k d.
Proof.
  revert d. induction ks as [|k' ks IH]; intros d Hnd; simpl; [done|].
  apply NoDup_cons in Hnd as [Hk' Hnd]. rewrite IH by done.
  destruct (decide (k = k')) as [->|Hne].
  - rewrite (decide_False (P := k' ∈ ks)) by done.
    rewrite decide_True by set_solver.
    destruct (dict_get k' d) eqn:E; simpl; [by rewrite dict_get_set_eq|done].
  - assert (dict_get k (match dict_get k' d with Some v => dict_set k' (f v) d | None => d end)
      = dict_get k d) as ->.
    { destruct (dict_get k' d); [by rewrite dict_get_set_ne|done]. }
    destruct (decide (k ∈ ks)); [rewrite decide_True by set_solver|
      rewrite decide_False by set_solver]; done.
Qed.

Lemma dict_update_all_wf f ks d : dict_wf d → dict_wf (dict_update_all f ks d).
Proof.
  revert d. induction ks as [|k ks IH]; intros d Hd; simpl; [done|].
  apply IH. destruct (dict_get k d); [by apply dict_set_wf|done].
Qed.
End Dict.

Lemma dict_get_fmap `{EqDecision K} {V W} (f : V → W) (k : K) (d : dict K V) :
  dict_get k ((λ p, (p.1, f p.2)) <$> d) = f <$> dict_get k d.
Proof. induction d as [|[k' v'] d IH]; simpl; [done|]. by case_decide. Qed.

#[export] Hint Resolve dict_set_wf dict_pop_wf : pydb.
#[export] Hint Rewrite @dict_get_set_eq @length_dict_set : pyrw.

(** ** Objects are stored under their own id *)

Definition keyed {V} (key : V → string) (r : dict string V) : Prop :=
  dict_wf r ∧ Forall (λ p, key p.2 = p.1) r.

Section Keyed.
Context {V : Type} (key : V → string).

Lemma keyed_nil : keyed key [].
Proof. split; [constructor|done]. Qed.

Lemma keyed_set v r : keyed key r → keyed key (dict_set (key v) v r).
Proof. intros [Hw Hk]. split; [by apply dict_set_wf|by apply dict_set_Forall]. Qed.

Lemma keyed_pop k r : keyed key r → keyed key (dict_pop k r).
Proof. intros [Hw Hk]. split; [by apply dict_pop_wf|by apply dict_pop_Forall]. Qed.

Lemma keyed_get k v r : keyed key r → dict_get k r = Some v → key v = k.
Proof.
  intros [_ Hk] Hg. apply dict_get_elem_of in Hg.
  eapply Forall_forall in Hk; [|exact Hg]. done.
Qed.

Lemma keyed_value v r : keyed key r → v ∈ dict_values r → dict_get (key v) r = Some v.
Proof.
  intros [Hw Hk] Hv. apply list_elem_of_fmap in Hv as ([k w] & -> & Hin).
  eapply Forall_forall in Hk; [|exact Hin]. simpl in *. subst. by apply dict_elem_of_get.
Qed.
End Keyed.

#[export] Hint Resolve keyed_nil keyed_set keyed_pop : pydb.

(** * Repositories: lemmas

    Searching, counting, restricting and deleting in a [dict] of objects stored
    under their own id, as the in-memory repositories of [src/app] do. *)

#[local] Open Scope Z_scope.

Section Repo.
Context {V : Type}.
Implicit Types (r : dict string V) (P Q : V → bool) (v w : V).

Lemma keyed_wf (key : V → string) r : keyed key r → dict_wf r.
Proof. by intros []. Qed.

(** ** Searching *)

Lemma repo_find_Some P r v :
  dict_wf r → List.find P (dict_values r) = Some v → ∃ k, dict_get k r = Some v ∧ P v = true.
Proof.
  intros Hw [Hin HP]%List.find_some. apply list_elem_of_In, list_elem_of_fmap in Hin as ([k w] & -> & Hin).
  exists k. split; [by apply dict_elem_of_get|done].
Qed.

Lemma repo_find_None P r k v : List.find P (dict_values r) = None → dict_get k r = Some v → P v = false.
Proof.
  intros Hf Hg%dict_get_elem_of. apply (List.find_none _ _ Hf), list_elem_of_In, list_elem_of_fmap. by exists (k, v).
Qed.

Lemma keyed_find_Some key P r v :
  keyed key r → List.find P (dict_values r) = Some v → dict_get (key v) r = Some v ∧ P v = true.
Proof.
  intros Hk Hf. destruct (repo_find_Some P r v (proj1 Hk) Hf) as (k & Hg & HP).
  split; [|done]. by rewrite (keyed_get key _ _ _ Hk Hg).
Qed.

(** ** Counting *)

Definition rcount P r : Z := zlen (List.filter P (dict_values r)).

Lemma rcount_nonneg P r : 0 <= rcount P r.
Proof. unfold rcount, zlen. lia. Qed.

Lemma rcount_cons P k v r : rcount P ((k, v) :: r) = (if P v then 1 else 0) + rcount P r.
Proof. unfold rcount, dict_values. cbn. destruct (P v); unfold zlen; rewrite ?length_cons; lia. Qed.

Lemma rcount_set_le P k v r : rcount P (dict_set k v r) <= rcount P r + (if P v then 1 else 0).
Proof.
  induction r as [|[k' v'] r IH]; simpl dict_set.
  - rewrite rcount_cons. unfold rcount. simpl. lia.
  - case_decide; rewrite !rcount_cons; [|lia]. destruct (P v'), (P v); lia.
Qed.

Lemma rcount_set_over P k v v0 r :
  dict_get k r = Some v0 → (P v = true → P v0 = true) → rcount P (dict_set k v r) <= rcount P r.
Proof.
  intros Hg HP. induction r as [|[k' v'] r IH]; simpl in *; [done|].
  case_decide; rewrite !rcount_cons; [|specialize (IH Hg); lia].
  simplify_eq. destruct (P v); [rewrite HP by done|destruct (P v0)]; lia.
Qed.

Lemma rcount_pop_le P k r : rcount P (dict_pop k r) <= rcount P r.
Proof.
  induction r as [|[k' v'] r IH]; simpl; [done|]. case_decide; rewrite ?rcount_cons; destruct (P v'); lia.
Qed.

Lemma rcount_zero P r : (∀ k v, dict_get k r = Some v → P v = false) → dict_wf r → rcount P r = 0.
Proof.
  intros HP Hw. assert (∀ k v, (k, v) ∈ r → P v = false) as HP' by (intros k v Hin; by eapply HP, dict_elem_of_get).
  clear HP Hw. induction r as [|[k v] r IH]; [done|]. rewrite rcount_cons, (HP' k v) by set_solver.
  rewrite IH; [done|]. intros k' v' Hin. apply (HP' k'). set_solver.
Qed.

Lemma rcount_set_new P k v r :
  dict_get k r = None → rcount P (dict_set k v r) = rcount P r + (if P v then 1 else 0).
Proof.
  induction r as [|[k' v'] r IH]; simpl; intros Hg; [rewrite rcount_cons; unfold rcount; simpl; lia|].
  case_decide; [done|]. rewrite !rcount_cons, IH by done. lia.
Qed.

Lemma rcount_set_same P k v v0 r :
  dict_get k r = Some v0 → P v = P v0 → rcount P (dict_set k v r) = rcount P r.
Proof.
  intros Hg HP. induction r as [|[k' v'] r IH]; simpl in *; [done|].
  case_decide; rewrite !rcount_cons; [|by rewrite IH]. simplify_eq. by rewrite HP.
Qed.

Lemma rcount_pop P k v r :
  dict_get k r = Some v → rcount P (dict_pop k r) = rcount P r - (if P v then 1 else 0).
Proof.
  induction r as [|[k' v'] r IH]; simpl; [done|]. intros Hg.
  case_decide; rewrite !rcount_cons; [simplify_eq; lia|]. rewrite IH by done. lia.
Qed.

Lemma zlen_sorted (lt : V → V → bool) l : zlen (py_sorted lt l) = zlen l.
Proof. unfold zlen. by rewrite length_py_sorted. Qed.

(** ** Deleting several keys *)

Definition pop_all (ks : list string) r : dict string V := foldl (λ d k, dict_pop k d) r ks.

Lemma pop_all_wf ks r : dict_wf r → dict_wf (pop_all ks r).
Proof. revert r. induction ks as [|k ks IH]; intros r Hw; simpl; [done|]. by apply IH, dict_pop_wf. Qed.

Lemma keyed_pop_all key ks r : keyed key r → keyed key (pop_all ks r).
Proof. revert r. induction ks as [|k ks IH]; intros r Hw; simpl; [done|]. by apply IH, keyed_pop. Qed.

Lemma get_pop_all ks r k :
  dict_wf r → dict_get k (pop_all ks r) = if decide (k ∈ ks) then None else dict_get k r.
Proof.
  revert r. induction ks as [|k' ks IH]; intros r Hw; simpl; [done|].
  rewrite IH by by apply dict_pop_wf. destruct (decide (k ∈ ks)); [by rewrite decide_True by set_solver|].
  destruct (decide (k' = k)) as [->|Hne].
  - rewrite decide_True by set_solver. by apply dict_get_pop_eq.
  - rewrite decide_False by set_solver. by apply dict_get_pop_ne.
Qed.

Lemma rcount_pop_all_le P ks r : rcount P (pop_all ks r) <= rcount P r.
Proof.
  revert r. induction ks as [|k ks IH]; intros r; simpl; [done|].
  etransitivity; [apply IH|apply rcount_pop_le].
Qed.

(** ** Unique attributes *)

(** No two objects agree on [f]. *)
Definition unique_by {A} (f : V → A) r : Prop :=
  ∀ k k' v v', dict_get k r = Some v → dict_get k' r = Some v' → f v = f v' → k = k'.

Lemma unique_by_set {A} (f : V → A) k v r :
  unique_by f r → (∀ k' v', dict_get k' r = Some v' → f v' = f v → k' = k) → unique_by f (dict_set k v r).
Proof.
  intros Hu Hk k1 k2 v1 v2. rewrite !dict_get_set. intros H1 H2 Hf.
  repeat case_decide; simplify_eq; eauto. symmetry. eauto.
Qed.

Lemma unique_by_over {A} (f : V → A) k v v0 r :
  unique_by f r → dict_get k r = Some v0 → f v = f v0 → unique_by f (dict_set k v r).
Proof. intros Hu Hg Hf. apply unique_by_set; [done|]. intros k' v' Hg' E. eapply Hu; [done|done|congruence]. Qed.

Lemma unique_by_pop {A} (f : V → A) k r : dict_wf r → unique_by f r → unique_by f (dict_pop k r).
Proof.
  intros Hw Hu k1 k2 v1 v2 H1 H2. assert (∀ k' v', dict_get k' (dict_pop k r) = Some v' → dict_get k' r = Some v') as Hp.
  { intros k' v' Hg. destruct (decide (k = k')) as [->|Hne]; [by rewrite dict_get_pop_eq in Hg|].
    by rewrite dict_get_pop_ne in Hg. }
  eapply Hu; eauto.
Qed.

Lemma unique_by_pop_all {A} (f : V → A) ks r : dict_wf r → unique_by f r → unique_by f (pop_all ks r).
Proof.
  revert r. induction ks as [|k ks IH]; intros r Hw Hu; simpl; [done|].
  apply IH; [by apply dict_pop_wf|by apply unique_by_pop].
Qed.

(** ** Restriction *)

(** The part of a repository that satisfies [P]. *)
Definition rview P r : dict string V := List.filter (λ p, P p.2) r.

Lemma rview_set_other P k v r :
  P v = false → (∀ v0, dict_get k r = Some v0 → P v0 = false) → rview P (dict_set k v r) = rview P r.
Proof.
  intros Hv H0. unfold rview. induction r as [|[k' v'] r IH]; simpl in *; [by rewrite Hv|].
  case_decide; simpl.
  - subst. rewrite Hv. by rewrite (H0 v').
  - by rewrite IH.
Qed.

Lemma rview_pop_other P k r : (∀ v0, dict_get k r = Some v0 → P v0 = false) → rview P (dict_pop k r) = rview P r.
Proof.
  intros H0. unfold rview. induction r as [|[k' v'] r IH]; simpl in *; [done|].
  case_decide; simpl; [by rewrite (H0 v')|by rewrite IH].
Qed.

Lemma rview_pop_all_other P ks r :
  dict_wf r → (∀ k v0, k ∈ ks → dict_get k r = Some v0 → P v0 = false) → rview P (pop_all ks r) = rview P r.
Proof.
  revert r. induction ks as [|k ks IH]; intros r Hw H0; simpl; [done|]. rewrite IH.
  - apply rview_pop_other. intros v0. apply H0. set_solver.
  - by apply dict_pop_wf.
  - intros k1 v0 Hk Hg. destruct (decide (k = k1)) as [->|Hne]; [by rewrite dict_get_pop_eq in Hg|].
    rewrite dict_get_pop_ne in Hg by done. apply (H0 k1); [set_solver|exact Hg].
Qed.

Lemma rcount_rview P r : rcount P r = zlen (rview P r).
Proof.
  induction r as [|[k v] r IH]; [done|]. rewrite rcount_cons, IH. unfold rview. cbn [List.filter snd].
  destruct (P v); unfold zlen; rewrite ?length_cons; lia.
Qed.

Lemma rview_get P r k v : dict_get k (rview P r) = Some v → dict_wf r → dict_get k r = Some v ∧ P v = true.
Proof.
  intros Hg%dict_get_elem_of Hw. unfold rview in Hg. apply list_elem_of_In, List.filter_In in Hg as [Hin HP].
  split; [|done]. by apply dict_elem_of_get, list_elem_of_In.
Qed.
End Repo.

#[export] Hint Resolve keyed_pop_all pop_all_wf keyed_wf : pydb.
