(* ===== verification/ClusterStores.v ===== *)
(** * Cluster repositories ([app/cluster/repository.py], [app/cluster/models.py])

    The in-memory stores of the cluster: members ([NodeStore]), scheduled jobs
    ([JobStore]) and the TTL leases behind leader election ([LeaseStore]).
    Each store holds a Python dict ([PyDict]) from an id to its record, and the
    operations are the methods, with the clock reading [now] of
    [time.time()] as an argument.  A method that raises [KeyError] returns
    [Err]. *)

From stdpp Require Import base list strings gmap.
From Stdlib Require String.
From S2P Require Import Prelude PyFloat PyDict.

Inductive StoreError := KeyError (k : string).

(** ** Data *)

Inductive NodeRole := LEADER | FOLLOWER | STANDBY.
Inductive NodeState :=
| JOINING | JOINED | HEALTHY | DEGRADED | SUSPECTED | FAILED | LEAVING | LEFT.
Inductive JobType := RECURRING | DELAYED | CRON | SINGLETON | FAILOVER.
Inductive JobState :=
| J_PENDING | J_SCHEDULED | J_RUNNING | J_SUCCEEDED | J_FAILED | J_CANCELLED | J_REASSIGNED.

#[export] Instance NodeRole_eq_dec : EqDecision NodeRole.
Proof. solve_decision. Defined.
#[export] Instance NodeState_eq_dec : EqDecision NodeState.
Proof. solve_decision. Defined.
#[export] Instance JobType_eq_dec : EqDecision JobType.
Proof. solve_decision. Defined.
#[export] Instance JobState_eq_dec : EqDecision JobState.
Proof. solve_decision. Defined.

Record NodeInfo := MkNodeInfo {
  n_id : string;
  n_name : string;
  n_address : string;
  n_port : Z;
  n_role : NodeRole;
  n_state : NodeState;
  n_region : string;
  n_zone : string;
  n_labels : dict string string;
  n_version : string;
  n_capacity : Z;
  n_leader_epoch : Z;
  n_joined_at : float;
  n_last_seen : float
}.

Record Heartbeat := MkHeartbeat {
  hb_node_id : string;
  hb_timestamp : float;
  hb_state : NodeState;
  hb_load : float
}.

(** Attribute assignments on a node. *)
Definition set_state (st : NodeState) (n : NodeInfo) : NodeInfo :=
  MkNodeInfo (n_id n) (n_name n) (n_address n) (n_port n) (n_role n) st (n_region n)
    (n_zone n) (n_labels n) (n_version n) (n_capacity n) (n_leader_epoch n)
    (n_joined_at n) (n_last_seen n).
Definition set_role (r : NodeRole) (n : NodeInfo) : NodeInfo :=
  MkNodeInfo (n_id n) (n_name n) (n_address n) (n_port n) r (n_state n) (n_region n)
    (n_zone n) (n_labels n) (n_version n) (n_capacity n) (n_leader_epoch n)
    (n_joined_at n) (n_last_seen n).
Definition set_epoch (e : Z) (n : NodeInfo) : NodeInfo :=
  MkNodeInfo (n_id n) (n_name n) (n_address n) (n_port n) (n_role n) (n_state n) (n_region n)
    (n_zone n) (n_labels n) (n_version n) (n_capacity n) e
    (n_joined_at n) (n_last_seen n).
Definition set_last_seen (t : float) (n : NodeInfo) : NodeInfo :=
  MkNodeInfo (n_id n) (n_name n) (n_address n) (n_port n) (n_role n) (n_state n) (n_region n)
    (n_zone n) (n_labels n) (n_version n) (n_capacity n) (n_leader_epoch n)
    (n_joined_at n) t.

(** ** [NodeStore] *)

Record NodeStore := MkNodeStore {
  ns_nodes : dict string NodeInfo;
  ns_history : list NodeInfo;
  ns_heartbeats : dict string Heartbeat
}.

Definition ns_new : NodeStore := MkNodeStore [] [] [].

Definition ns_register (node : NodeInfo) (s : NodeStore) : NodeStore :=
  MkNodeStore (dict_set (n_id node) node (ns_nodes s)) (ns_history s) (ns_heartbeats s).

Definition ns_get (node_id : string) (s : NodeStore) : option NodeInfo :=
  dict_get node_id (ns_nodes s).

Definition ns_require (node_id : string) (s : NodeStore) : result StoreError NodeInfo :=
  match ns_get node_id s with
  | Some n => Ok n
  | None => Err (KeyError node_id)
  end.

(** [update(node_id, **changes)]; [f] performs the attribute assignments. *)
Definition ns_update (node_id : string) (f : NodeInfo → NodeInfo) (s : NodeStore)
    : result StoreError NodeStore :=
  match dict_get node_id (ns_nodes s) with
  | None => Err (KeyError node_id)
  | Some n =>
      Ok (MkNodeStore (dict_set node_id (f n) (ns_nodes s)) (ns_history s) (ns_heartbeats s))
  end.

Definition ns_remove (node_id : string) (s : NodeStore) : NodeStore :=
  match dict_get node_id (ns_nodes s) with
  | Some n => MkNodeStore (dict_pop node_id (ns_nodes s)) (ns_history s ++ [n]) (ns_heartbeats s)
  | None => s
  end.

Definition ns_all (s : NodeStore) : list NodeInfo :=
  py_sorted (λ a b, str_lt (n_id a) (n_id b)) (dict_values (ns_nodes s)).

Definition ns_by_state (st : NodeState) (s : NodeStore) : list NodeInfo :=
  filter (λ n, n_state n = st) (ns_all s).

Definition node_alive (n : NodeInfo) : bool :=
  match n_state n with FAILED | LEFT | LEAVING => false | _ => true end.

Definition ns_alive (s : NodeStore) : list NodeInfo :=
  filter (λ n, node_alive n = true) (ns_all s).

Definition ns_mark (node_id : string) (st : NodeState) (s : NodeStore)
    : result StoreError NodeStore :=
  ns_update node_id (set_state st) s.

Definition ns_touch (node_id : string) (load now : float) (s : NodeStore) : NodeStore :=
  let nodes :=
    match dict_get node_id (ns_nodes s) with
    | Some n => dict_set node_id (set_state HEALTHY (set_last_seen now n)) (ns_nodes s)
    | None => ns_nodes s
    end in
  MkNodeStore nodes (ns_history s)
    (dict_set node_id (MkHeartbeat node_id now HEALTHY load) (ns_heartbeats s)).

Definition ns_record_heartbeat (h : Heartbeat) (s : NodeStore) : NodeStore :=
  let nodes :=
    match dict_get (hb_node_id h) (ns_nodes s) with
    | Some n =>
        dict_set (hb_node_id h) (set_state (hb_state h) (set_last_seen (hb_timestamp h) n))
          (ns_nodes s)
    | None => ns_nodes s
    end in
  MkNodeStore nodes (ns_history s) (dict_set (hb_node_id h) h (ns_heartbeats s)).

Definition ns_last_heartbeat (node_id : string) (s : NodeStore) : option Heartbeat :=
  dict_get node_id (ns_heartbeats s).

(** Python's [max(l, key=f)]: the first element with the greatest key. *)
Fixpoint max_by (f : NodeInfo → Z) (best : NodeInfo) (l : list NodeInfo) : NodeInfo :=
  match l with
  | [] => best
  | n :: l' => max_by f (if (f best <? f n)%Z then n else best) l'
  end.

Definition ns_leader (s : NodeStore) : option NodeInfo :=
  match filter (λ n, n_role n = LEADER) (ns_all s) with
  | [] => None
  | n :: l => Some (max_by n_leader_epoch n l)
  end.

(** The dict with [f] applied to every value, in place. *)
Definition dict_map {K V W} (f : V → W) (d : dict K V) : dict K W :=
  (λ kv, (kv.1, f kv.2)) <$> d.

Definition ns_set_leader (node_id : string) (epoch : option Z) (s : NodeStore) : NodeStore :=
  let demoted := dict_map (λ n, set_epoch 0 (set_role FOLLOWER n)) (ns_nodes s) in
  let nodes :=
    match dict_get node_id demoted with
    | Some n =>
        let e := match epoch with Some e => e | None => (n_leader_epoch n + 1)%Z end in
        dict_set node_id (set_epoch e (set_role LEADER n)) demoted
    | None => demoted
    end in
  MkNodeStore nodes (ns_history s) (ns_heartbeats s).

Definition ns_next_epoch (s : NodeStore) : Z :=
  (match n_leader_epoch <$> dict_values (ns_nodes s) with
   | [] => 0
   | e :: l => foldl Z.max e l
   end + 1)%Z.

Definition ns_len (s : NodeStore) : nat := length (ns_nodes s).

(** ** [JobStore] *)

Record JobSpec := MkJobSpec {
  j_name : string;
  j_type : JobType;
  j_id : string;
  j_interval : float;
  j_delay : float;
  j_cron : string;
  j_singleton : bool;
  j_failover : bool;
  j_owner : option string;
  j_payload : string;  (* opaque, handed to the handler *)
  j_attempts : Z;      (* metadata["_attempts"], 0 when absent *)
  j_retries : Z;       (* metadata["retries"], 0 when absent *)
  j_priority : Z;
  j_timeout : float;
  j_last_run : float;
  j_next_run : float;
  j_created_at : float
}.

Record JobRun := MkJobRun {
  r_id : string;
  r_job_id : string;
  r_job_name : string;
  r_node_id : string;
  r_state : JobState;
  r_started_at : float;
  r_finished_at : float;
  r_result : option string;  (* opaque *)
  r_error : string;
  r_attempts : Z
}.

Definition set_owner (o : option string) (j : JobSpec) : JobSpec :=
  MkJobSpec (j_name j) (j_type j) (j_id j) (j_interval j) (j_delay j) (j_cron j)
    (j_singleton j) (j_failover j) o (j_payload j) (j_attempts j) (j_retries j) (j_priority j)
    (j_timeout j) (j_last_run j) (j_next_run j) (j_created_at j).

Record JobStore := MkJobStore {
  js_jobs : dict string JobSpec;
  js_runs : dict string JobRun
}.

Definition js_add (job : JobSpec) (s : JobStore) : JobStore :=
  MkJobStore (dict_set (j_id job) job (js_jobs s)) (js_runs s).

Definition js_get (job_id : string) (s : JobStore) : option JobSpec :=
  dict_get job_id (js_jobs s).

Definition js_require (job_id : string) (s : JobStore) : result StoreError JobSpec :=
  match js_get job_id s with Some j => Ok j | None => Err (KeyError job_id) end.

Definition js_remove (job_id : string) (s : JobStore) : JobStore * bool :=
  (MkJobStore (dict_pop job_id (js_jobs s)) (js_runs s), dict_mem job_id (js_jobs s)).

(** [(j.priority, j.created_at)] compared as a tuple. *)
Definition job_lt (a b : JobSpec) : bool :=
  if (j_priority a =? j_priority b)%Z then flt (j_created_at a) (j_created_at b)
  else (j_priority a <? j_priority b)%Z.

Definition js_all (s : JobStore) : list JobSpec := py_sorted job_lt (dict_values (js_jobs s)).

Definition js_due (now : float) (s : JobStore) : list JobSpec :=
  filter (λ j, flt fzero (j_next_run j) && fle (j_next_run j) now = true) (js_all s).

Definition js_by_owner (node_id : string) (s : JobStore) : list JobSpec :=
  filter (λ j, j_owner j = Some node_id) (js_all s).

Definition js_orphaned (s : JobStore) : list JobSpec :=
  filter (λ j, j_failover j = true ∧ j_owner j = None) (js_all s).

Definition js_claim (job_id node_id : string) (s : JobStore) : JobStore * bool :=
  match dict_get job_id (js_jobs s) with
  | None => (s, false)
  | Some job =>
      match j_owner job with
      | Some o =>
          if decide (o ≠ node_id) then (s, false)
          else (MkJobStore (dict_set job_id (set_owner (Some node_id) job) (js_jobs s)) (js_runs s), true)
      | None =>
          (MkJobStore (dict_set job_id (set_owner (Some node_id) job) (js_jobs s)) (js_runs s), true)
      end
  end.

Definition js_update (job_id : string) (f : JobSpec → JobSpec) (s : JobStore)
    : result StoreError JobStore :=
  match dict_get job_id (js_jobs s) with
  | None => Err (KeyError job_id)
  | Some j => Ok (MkJobStore (dict_set job_id (f j) (js_jobs s)) (js_runs s))
  end.

Definition js_add_run (run : JobRun) (s : JobStore) : JobStore :=
  MkJobStore (js_jobs s) (dict_set (r_id run) run (js_runs s)).

Definition js_get_run (run_id : string) (s : JobStore) : option JobRun :=
  dict_get run_id (js_runs s).

(** [values.sort(key=started_at, reverse=True)] keeps the order of equals. *)
Definition js_list_runs (job_id : option string) (limit : nat) (s : JobStore) : list JobRun :=
  let values :=
    match job_id with
    | Some j => filter (λ r, r_job_id r = j) (dict_values (js_runs s))
    | None => dict_values (js_runs s)
    end in
  take limit (py_sorted (λ a b, flt (r_started_at b) (r_started_at a)) values).

Definition js_len (s : JobStore) : nat := length (js_jobs s).

(** ** [LeaseStore] *)

Abbreviation LeaseStore := (gmap string (string * float)).

Definition ls_acquire (name holder : string) (ttl now : float) (s : LeaseStore)
    : LeaseStore * bool :=
  match s !! name with
  | Some (h, expires) =>
      if bool_decide (h ≠ holder) && flt now expires then (s, false)
      else (<[name := (holder, fadd now ttl)]> s, true)
  | None => (<[name := (holder, fadd now ttl)]> s, true)
  end.

Definition ls_renew (name holder : string) (ttl now : float) (s : LeaseStore)
    : LeaseStore * bool :=
  match s !! name with
  | None => (s, false)
  | Some (h, expires) =>
      if decide (h ≠ holder) then (s, false)
      else if fle expires now then (s, false)
      else (<[name := (holder, fadd now ttl)]> s, true)
  end.

Definition ls_release (name holder : string) (s : LeaseStore) : LeaseStore * bool :=
  match s !! name with
  | None => (s, false)
  | Some (h, _) => if decide (h ≠ holder) then (s, false) else (delete name s, true)
  end.

Definition ls_get (name : string) (now : float) (s : LeaseStore)
    : LeaseStore * option (string * float) :=
  match s !! name with
  | None => (s, None)
  | Some (h, expires) =>
      if fle expires now then (delete name s, None) else (s, Some (h, expires))
  end.

Definition ls_snapshot (s : LeaseStore) : LeaseStore := s.

(** ** Lemmas on the stores *)

Lemma dict_get_map {V W} (f : V → W) k (d : dict string V) :
  dict_get k (dict_map f d) = f <$> dict_get k d.
Proof.
  induction d as [|[k' v] d IH]; simpl; [done|]. by case_decide.
Qed.

Lemma dict_map_keys {V W} (f : V → W) (d : dict string V) : (dict_map f d).*1 = d.*1.
Proof. induction d as [|[k v] d IH]; csimpl; [done|]. by rewrite IH. Qed.

(** Every job is stored under its own id. *)
Definition jobs_wf (s : JobStore) : Prop :=
  dict_wf (js_jobs s) ∧ ∀ k j, dict_get k (js_jobs s) = Some j → j_id j = k.

Lemma elem_of_js_all s j :
  jobs_wf s → j ∈ js_all s ↔ dict_get (j_id j) (js_jobs s) = Some j.
Proof.
  intros [Hwf Hid]. unfold js_all, dict_values. rewrite elem_of_py_sorted. split.
  - intros ([k j'] & -> & Hin)%list_elem_of_fmap. simpl.
    apply dict_elem_of_get in Hin; [|done]. by rewrite (Hid _ _ Hin).
  - intros Hg%dict_get_elem_of. apply list_elem_of_fmap. by exists (j_id j, j).
Qed.

Lemma js_all_ids_nodup s : jobs_wf s → NoDup (j_id <$> js_all s).
Proof.
  intros [Hwf Hid]. unfold js_all. rewrite py_sorted_perm.
  assert (j_id <$> dict_values (js_jobs s) = (js_jobs s).*1) as ->; [|done].
  assert (∀ k j, (k, j) ∈ js_jobs s → j_id j = k) as H.
  { intros k j Hin. apply Hid. by apply dict_elem_of_get. }
  clear Hid Hwf. unfold dict_values. induction (js_jobs s) as [|[k j] d IH]; csimpl; [done|].
  rewrite (H k j) by set_solver. f_equal. apply IH. set_solver.
Qed.

Lemma js_update_wf s job_id f s' :
  (∀ j, j_id (f j) = j_id j) → jobs_wf s → js_update job_id f s = Ok s' → jobs_wf s'.
Proof.
  intros Hf [Hwf Hid] Hu. unfold js_update in Hu.
  destruct (dict_get job_id (js_jobs s)) as [j|] eqn:E; simplify_eq. split; simpl.
  - auto with pydb.
  - intros k j'. rewrite dict_get_set. case_decide; [|apply Hid].
    intros [= <-]. subst. rewrite Hf. by apply Hid.
Qed.
