(* ===== verification/Election.v ===== *)
(** * Leader election ([app/cluster/election.py])

    Three strategies share the state of [Elector]: the leader a node believes
    in, the epoch, and the observers notified by [_changed].  [LeaseElection]
    runs over the [LeaseStore] of the cluster repositories; [RedisElection]
    runs over an injected key-value client, which is the interface [KvClient]
    here; [KubernetesLeaseElection] runs over an injected transport, the
    interface [LeaseApi].

    Every call reads the clock itself, so an operation takes each reading as
    an argument. *)

From stdpp Require Import base list strings gmap.
From S2P Require Import Prelude PyFloat PyDict ClusterStores.

Module Election.

(** ** [Elector] *)

Record Elector := MkElector {
  e_node : string;          (* self.node.id *)
  e_node_epoch : Z;         (* self.node.leader_epoch *)
  e_leader : option string; (* self._leader *)
  e_epoch : Z               (* self._epoch *)
}.

(** What an observer is called with. *)
Definition Notification : Type := option string * Z.

Definition new_elector (node : string) (node_epoch : Z) : Elector :=
  MkElector node node_epoch None 0.

Definition is_leader (e : Elector) : bool := bool_decide (e_leader e = Some (e_node e)).
Definition current_leader (e : Elector) : option string := e_leader e.

Definition changed (leader : option string) (epoch : Z) (e : Elector)
    : Elector * list Notification :=
  if decide (leader = e_leader e ∧ epoch = e_epoch e) then (e, [])
  else (MkElector (e_node e) (e_node_epoch e) leader epoch, [(leader, epoch)]).

(** ** [LeaseElection] *)

Definition lease_name : string := "cluster-leader".

(** [_try_acquire] *)
Definition try_acquire (ttl now : float) (e : Elector) (s : LeaseStore)
    : Elector * LeaseStore * list Notification * bool :=
  let '(s', acquired) := ls_acquire lease_name (e_node e) ttl now s in
  if acquired then
    let '(e', ns) := changed (Some (e_node e)) (e_node_epoch e + 1) e in
    (e', s', ns, true)
  else (e, s', [], false).

(** [_acquire_or_renew]; [now] is the reading of [acquire] or [renew] and
    [now'] the one of [get]. *)
Definition lease_elect (ttl now now' : float) (e : Elector) (s : LeaseStore)
    : Elector * LeaseStore * list Notification * bool :=
  if is_leader e then
    let '(s', ok) := ls_renew lease_name (e_node e) ttl now s in (e, s', [], ok)
  else
    let '(e1, s1, ns, ok) := try_acquire ttl now e s in
    if ok then (e1, s1, ns, true)
    else
      let '(s2, holder) := ls_get lease_name now' s1 in
      match holder with
      | Some (h, _) =>
          let '(e2, ns') := changed (Some h) (e_epoch e1) e1 in (e2, s2, ns', false)
      | None => (e1, s2, [], false)
      end.

Definition lease_step_down (e : Elector) (s : LeaseStore)
    : Elector * LeaseStore * list Notification * bool :=
  let '(s', released) := ls_release lease_name (e_node e) s in
  if released then
    let '(e', ns) := changed None (e_epoch e) e in (e', s', ns, true)
  else (e, s', [], false).

(** ** A cluster of lease electors

    The electors of several nodes share one store; an execution is a sequence
    of calls. *)

Inductive call :=
| Elect (node : string) (now now' : float)
| StepDown (node : string).

Definition caller (c : call) : string :=
  match c with Elect n _ _ | StepDown n => n end.

Record cluster := MkCluster {
  electors : gmap string Elector;
  leases : LeaseStore
}.

Definition do_call (ttl : float) (c : call) (cl : cluster) : cluster * bool :=
  match electors cl !! caller c with
  | None => (cl, false)
  | Some e =>
      let '(e', s', _, ok) :=
        match c with
        | Elect _ now now' => lease_elect ttl now now' e (leases cl)
        | StepDown _ => lease_step_down e (leases cl)
        end in
      (MkCluster (<[caller c := e']> (electors cl)) s', ok)
  end.

(** The execution and the answers of its calls. *)
Fixpoint run (ttl : float) (cs : list call) (cl : cluster) : cluster * list bool :=
  match cs with
  | [] => (cl, [])
  | c :: cs' =>
      let '(cl1, ok) := do_call ttl c cl in
      let '(cl2, oks) := run ttl cs' cl1 in
      (cl2, ok :: oks)
  end.

(** Each elector is registered under its own node id. *)
Definition cluster_wf (cl : cluster) : Prop :=
  ∀ n e, electors cl !! n = Some e → e_node e = n.

(** All clock readings of a call precede [t]. *)
Definition before (t : float) (c : call) : Prop :=
  match c with
  | Elect _ now now' => flt now t = true ∧ flt now' t = true
  | StepDown _ => True
  end.

Lemma changed_node l ep e : e_node (changed l ep e).1 = e_node e.
Proof. unfold changed. by case_decide. Qed.

(** A live lease of another holder: [acquire] fails and nothing changes. *)
Lemma acquire_held name h h' ttl now expires s :
  s !! name = Some (h, expires) → h ≠ h' → flt now expires = true →
  ls_acquire name h' ttl now s = (s, false).
Proof.
  intros Hs Hne Hlt. unfold ls_acquire. rewrite Hs, Hlt.
  by rewrite bool_decide_true.
Qed.

Lemma renew_other name h h' ttl now expires s :
  s !! name = Some (h, expires) → h ≠ h' → ls_renew name h' ttl now s = (s, false).
Proof. intros Hs Hne. unfold ls_renew. by rewrite Hs, decide_True. Qed.

Lemma release_other name h h' expires s :
  s !! name = Some (h, expires) → h ≠ h' → ls_release name h' s = (s, false).
Proof. intros Hs Hne. unfold ls_release. by rewrite Hs, decide_True. Qed.

Lemma get_live name h now expires s :
  s !! name = Some (h, expires) → flt now expires = true →
  ls_get name now s = (s, Some (h, expires)).
Proof.
  intros Hs Hlt. unfold ls_get. rewrite Hs.
  destruct (fle expires now) eqn:E; [|done].
  apply fle_flt_false in E. congruence.
Qed.

(** A node that calls within another node's lease neither wins nor disturbs. *)
Lemma do_call_held ttl c cl h expires :
  cluster_wf cl → leases cl !! lease_name = Some (h, expires) →
  caller c ≠ h → before expires c →
  leases (do_call ttl c cl).1 = leases cl ∧ (do_call ttl c cl).2 = false ∧
  cluster_wf (do_call ttl c cl).1 ∧
  electors (do_call ttl c cl).1 !! h = electors cl !! h.
Proof.
  intros Hwf Hs Hne Hb. unfold do_call.
  destruct (electors cl !! caller c) as [e|] eqn:He; [|done].
  pose proof (Hwf _ _ He) as Hn.
  assert (∀ e', e_node e' = caller c →
    cluster_wf (MkCluster (<[caller c:=e']> (electors cl)) (leases cl)) ∧
    <[caller c:=e']> (electors cl) !! h = electors cl !! h) as Hupd.
  { intros e' He'. split; [|by rewrite lookup_insert_ne].
    intros n x. simpl. rewrite lookup_insert. case_decide; naive_solver. }
  destruct c as [n now now'|n]; simpl in *.
  - destruct Hb as [Hb1 Hb2]. unfold lease_elect, try_acquire. destruct (is_leader e).
    + rewrite (renew_other _ h) with (expires := expires) by congruence. simpl.
      destruct (Hupd e Hn). done.
    + rewrite (acquire_held _ h) with (expires := expires) by congruence. simpl.
      rewrite (get_live _ h) with (expires := expires) by done. simpl.
      pose proof (changed_node (Some h) (e_epoch e) e) as Hc.
      destruct (changed (Some h) (e_epoch e) e) as [e' ns]. simpl in *.
      destruct (Hupd e') as [? ?]; [congruence|]. done.
  - unfold lease_step_down. rewrite (release_other _ h) with (expires := expires) by congruence.
    simpl. destruct (Hupd e Hn). done.
Qed.

Lemma run_held ttl cs cl h expires :
  cluster_wf cl → leases cl !! lease_name = Some (h, expires) →
  Forall (λ c, caller c ≠ h ∧ before expires c) cs →
  (run ttl cs cl).2 = replicate (length cs) false ∧
  leases (run ttl cs cl).1 = leases cl ∧
  electors (run ttl cs cl).1 !! h = electors cl !! h.
Proof.
  revert cl. induction cs as [|c cs IH]; intros cl Hwf Hs Hcs; [done|].
  apply Forall_cons in Hcs as [[Hne Hb] Hcs].
  destruct (do_call_held ttl c cl h expires Hwf Hs Hne Hb) as (Hl & Hok & Hwf' & He).
  simpl. destruct (do_call ttl c cl) as [cl1 ok]. simpl in *.
  destruct (IH cl1) as (IH1 & IH2 & IH3); [done|congruence|done|].
  destruct (run ttl cs cl1) as [cl2 oks]. simpl in *. subst.
  split; [done|]. split; congruence.
Qed.

(** Winning an election leaves the node's lease in the store. *)
Lemma elect_won ttl now now' e s e' s' ns :
  lease_elect ttl now now' e s = (e', s', ns, true) →
  s' !! lease_name = Some (e_node e, fadd now ttl) ∧ is_leader e' = true ∧ e_node e' = e_node e.
Proof.
  unfold lease_elect, try_acquire. destruct (is_leader e) eqn:Hl.
  - unfold ls_renew. destruct (s !! lease_name) as [[h exp]|]; [|done].
    case_decide; [done|]. destruct (fle exp now); [done|].
    intros [= <- <- <-]. by rewrite lookup_insert_eq.
  - destruct (ls_acquire lease_name (e_node e) ttl now s) as [s1 ok] eqn:Ha.
    destruct ok.
    + destruct (changed _ _ _) as [e1 ns1] eqn:Hc. intros [= <- <- <-].
      split.
      * unfold ls_acquire in Ha. destruct (s !! lease_name) as [[h exp]|];
          [destruct (_ && _)|]; simplify_eq; by rewrite lookup_insert_eq.
      * unfold changed in Hc. case_decide as Hd; simplify_eq; simpl.
        -- by unfold is_leader; rewrite bool_decide_true by (by rewrite <-(proj1 Hd)).
        -- by unfold is_leader; rewrite bool_decide_true.
    + destruct (ls_get lease_name now' s1) as [s2 [[h exp]|]].
      * destruct (changed _ _ _) as [e2 ns2]. done.
      * done.
Qed.

(** (C4) Mutual exclusion of [LeaseElection]: after the call [elect] of a node
    has returned [True] at time [now], every call of every other node whose
    clock readings are before the expiry [now + lease_ttl] returns [False],
    and the winner's lease stays in the store, whatever the sequence of those
    calls. *)
Theorem lease_election_exclusive (ttl now now' : float) (n : string)
    (cl cl1 : cluster) (cs : list call)
    (Hwf : cluster_wf cl)
    (Hwon : do_call ttl (Elect n now now') cl = (cl1, true))
    (Hcs : Forall (λ c, caller c ≠ n ∧ before (fadd now ttl) c) cs) :
  (run ttl cs cl1).2 = replicate (length cs) false ∧
  leases (run ttl cs cl1).1 !! lease_name = Some (n, fadd now ttl).
Proof.
  unfold do_call in Hwon. simpl in Hwon.
  destruct (electors cl !! n) as [e|] eqn:He; [|done].
  destruct (lease_elect ttl now now' e (leases cl)) as [[[e' s'] ns] ok] eqn:Hel.
  injection Hwon as <- ->. apply elect_won in Hel as (Hs & _ & Hn).
  rewrite (Hwf _ _ He) in Hs, Hn.
  assert (cluster_wf (MkCluster (<[n:=e']> (electors cl)) s')) as Hwf'.
  { intros m x. simpl. rewrite lookup_insert. case_decide; naive_solver. }
  destruct (run_held ttl cs (MkCluster (<[n:=e']> (electors cl)) s') n (fadd now ttl))
    as (H1 & H2 & _); [done|done|done|]. split; [exact H1|]. by rewrite H2.
Qed.

(** ** The belief of an elector *)

(** The elector of a leader is never changed by its own [elect]. *)
Lemma leader_elect_same ttl now now' e s :
  is_leader e = true → (lease_elect ttl now now' e s).1.1.1 = e.
Proof. intros Hl. unfold lease_elect. rewrite Hl. by destruct (ls_renew _ _ _ _ _). Qed.

Lemma run_belief ttl cs cl n e :
  electors cl !! n = Some e → is_leader e = true →
  Forall (λ c, c ≠ StepDown n) cs →
  electors (run ttl cs cl).1 !! n = Some e.
Proof.
  intros He Hl. revert cl He. induction cs as [|c cs IH]; intros cl He Hcs; [done|].
  apply Forall_cons in Hcs as [Hc Hcs]. simpl.
  assert (electors (do_call ttl c cl).1 !! n = Some e) as He1.
  { unfold do_call. destruct (decide (caller c = n)) as [Heq|Hne].
    - rewrite Heq, He. destruct c as [m now now'|m]; simpl in Heq; [|congruence].
      pose proof (leader_elect_same ttl now now' e (leases cl) Hl) as Hs.
      destruct (lease_elect ttl now now' e (leases cl)) as [[[e' s'] ns] ok].
      simpl in *. rewrite Hs. apply lookup_insert_eq.
    - destruct (electors cl !! caller c) as [e0|]; [|done].
      destruct (match c with Elect _ _ _ => _ | StepDown _ => _ end) as [[[e' s'] ns] ok].
      simpl. by rewrite lookup_insert_ne. }
  destruct (do_call ttl c cl) as [cl1 ok]. simpl in *.
  specialize (IH cl1 He1 Hcs). by destruct (run ttl cs cl1).
Qed.

(** The belief of a lease elector outlives its lease.  When the lease of a
    leader [a] has expired and another node [b] is elected, both nodes report
    [is_leader], and they go on doing so through any further [elect] calls:
    the failed [renew] does not reset [_leader]. *)
Theorem lease_election_two_leaders (ttl now now' : float) (a b : string)
    (ea eb : Elector) (expires : float) (cl : cluster) (cs : list call)
    (Hab : a ≠ b)
    (Ha : electors cl !! a = Some ea) (Hna : e_node ea = a) (Hla : is_leader ea = true)
    (Hb : electors cl !! b = Some eb) (Hnb : e_node eb = b) (Hlb : is_leader eb = false)
    (Hlease : leases cl !! lease_name = Some (a, expires))
    (Hexp : flt now expires = false)
    (Hcs : Forall (λ c, c ≠ StepDown a ∧ c ≠ StepDown b) cs) :
  let cl1 := (do_call ttl (Elect b now now') cl).1 in
  ∃ ea' eb', electors (run ttl cs cl1).1 !! a = Some ea' ∧ is_leader ea' = true ∧
             electors (run ttl cs cl1).1 !! b = Some eb' ∧ is_leader eb' = true.
Proof.
  intros cl1. unfold cl1, do_call. simpl. rewrite Hb.
  destruct (lease_elect ttl now now' eb (leases cl)) as [[[e' s'] ns] ok] eqn:Hel.
  assert (ok = true) as ->.
  { unfold lease_elect, try_acquire, ls_acquire in Hel.
    rewrite Hlb, Hlease, Hexp, andb_false_r in Hel.
    by destruct (changed _ _ eb); simplify_eq. }
  apply elect_won in Hel as (_ & Hl' & Hn').
  exists ea, e'. simpl. split; [|split; [done|split; [|done]]].
  - apply run_belief; [simpl; by rewrite lookup_insert_ne|done|].
    eapply Forall_impl; [exact Hcs|]. naive_solver.
  - apply run_belief; [simpl; by rewrite lookup_insert_eq|done|].
    eapply Forall_impl; [exact Hcs|]. naive_solver.
Qed.

(** ** [RedisElection] over an injected client *)

(** The client the class documents: [set_nx], [get], [delete], [expire]. *)
Class KvClient (S : Type) := {
  kv_set_nx : string → string → float → S → S * bool;
  kv_get : string → S → option string;
  kv_delete : string → S → S * bool;
  kv_expire : string → float → S → S * bool
}.

(** The documented behaviour of these commands between two expirations. *)
Class KvLaws (S : Type) `{KvClient S} : Prop := {
  set_nx_absent : ∀ k v ttl s, kv_get k s = None →
    (kv_set_nx k v ttl s).2 = true ∧ kv_get k (kv_set_nx k v ttl s).1 = Some v;
  set_nx_present : ∀ k v ttl s w, kv_get k s = Some w → kv_set_nx k v ttl s = (s, false);
  expire_present : ∀ k ttl s w, kv_get k s = Some w →
    (kv_expire k ttl s).2 = true ∧ kv_get k (kv_expire k ttl s).1 = Some w;
  expire_absent : ∀ k ttl s, kv_get k s = None → kv_expire k ttl s = (s, false);
  delete_spec : ∀ k s, kv_get k (kv_delete k s).1 = None ∧
    ((kv_delete k s).2 = true ↔ is_Some (kv_get k s))
}.

Definition redis_key : string := "cluster:leader".

Section Redis.
Context {S : Type} `{KvClient S}.

Definition redis_elect (ttl : float) (e : Elector) (s : S)
    : Elector * S * list Notification * bool :=
  if is_leader e then
    let '(s', renewed) := kv_expire redis_key ttl s in
    if renewed then (e, s', [], true)
    else let '(e', ns) := changed None (e_epoch e) e in (e', s', ns, false)
  else
    let '(s', acquired) := kv_set_nx redis_key (e_node e) ttl s in
    if acquired then
      let '(e', ns) := changed (Some (e_node e)) (e_node_epoch e + 1) e in (e', s', ns, true)
    else match kv_get redis_key s' with
    | Some holder => let '(e', ns) := changed (Some holder) (e_epoch e) e in (e', s', ns, false)
    | None => (e, s', [], false)
    end.

Definition redis_step_down (e : Elector) (s : S) : Elector * S * list Notification * bool :=
  if is_leader e then
    let '(s', deleted) := kv_delete redis_key s in
    if deleted then let '(e', ns) := changed None (e_epoch e) e in (e', s', ns, true)
    else (e, s', [], false)
  else (e, s, [], false).

Context {Hlaws : KvLaws S}.

(** The four outcomes of [elect] as a function of the key and of the belief. *)
Lemma redis_elect_cases ttl e s :
  let '(e', s', _, ok) := redis_elect ttl e s in
  match is_leader e, kv_get redis_key s with
  | true, Some w => ok = true ∧ e' = e ∧ kv_get redis_key s' = Some w
  | true, None => ok = false ∧ e_leader e' = None
  | false, None => ok = true ∧ is_leader e' = true ∧ kv_get redis_key s' = Some (e_node e)
  | false, Some w => ok = false ∧ e_leader e' = Some w ∧ s' = s
  end.
Proof.
  unfold redis_elect.
  assert (∀ l ep, e_leader (changed l ep e).1 = l ∧ e_node (changed l ep e).1 = e_node e) as Hch.
  { intros l ep. unfold changed. case_decide; naive_solver. }
  destruct (is_leader e) eqn:Hl, (kv_get redis_key s) as [w|] eqn:Hk.
  - destruct (expire_present redis_key ttl s w Hk) as [H1 H2].
    destruct (kv_expire redis_key ttl s) as [s' ?]. simpl in *. by subst.
  - rewrite (expire_absent redis_key ttl s Hk).
    destruct (Hch None (e_epoch e)). by destruct (changed None (e_epoch e) e).
  - rewrite (set_nx_present redis_key (e_node e) ttl s w Hk), Hk.
    destruct (Hch (Some w) (e_epoch e)). by destruct (changed (Some w) (e_epoch e) e).
  - destruct (set_nx_absent redis_key (e_node e) ttl s Hk) as [H1 H2].
    destruct (kv_set_nx redis_key (e_node e) ttl s) as [s' ?]. simpl in *. subst.
    destruct (Hch (Some (e_node e)) (e_node_epoch e + 1)%Z) as [Hc1 Hc2].
    destruct (changed _ _ e) as [e' ns]. simpl in *. split; [done|]. split; [|done].
    unfold is_leader. apply bool_decide_true. congruence.
Qed.
End Redis.

(** [RedisElection.elect] over any client with the documented behaviour: a
    node that does not believe itself leader wins exactly when the key is
    absent, and otherwise learns the holder and leaves the key alone; a node
    that does believe itself leader wins exactly when the key exists, whoever
    holds it, since [expire] does not look at the owner; when the key is gone
    it gives its belief up. *)
Theorem redis_election_outcome {S : Type} `{KvClient S} (Hlaws : KvLaws S)
    (ttl : float) (e e' : Elector) (s s' : S) (ns : list Notification) (ok : bool)
    (Hel : redis_elect ttl e s = (e', s', ns, ok)) :
  match is_leader e, kv_get redis_key s with
  | false, None => ok = true ∧ is_leader e' = true ∧ kv_get redis_key s' = Some (e_node e)
  | false, Some w => ok = false ∧ e_leader e' = Some w ∧ s' = s
  | true, Some w => ok = true ∧ e' = e ∧ kv_get redis_key s' = Some w
  | true, None => ok = false ∧ e_leader e' = None
  end.
Proof.
  pose proof (redis_elect_cases ttl e s) as Hc. rewrite Hel in Hc.
  by destruct (is_leader e), (kv_get redis_key s).
Qed.

(** A client: one dictionary. *)
#[export] Instance map_kv : KvClient (gmap string string) := {
  kv_set_nx k v _ s := match s !! k with Some _ => (s, false) | None => (<[k := v]> s, true) end;
  kv_get k s := s !! k;
  kv_delete k s := (delete k s, bool_decide (is_Some (s !! k)));
  kv_expire k _ s := (s, bool_decide (is_Some (s !! k)))
}.

#[export] Instance map_kv_laws : KvLaws (gmap string string).
Proof.
  split; simpl.
  - intros k v ttl s Hk. rewrite Hk. simpl. by rewrite lookup_insert_eq.
  - intros k v ttl s w Hk. by rewrite Hk.
  - intros k ttl s w Hk. rewrite Hk. split; [by apply bool_decide_true|done].
  - intros k ttl s Hk. rewrite Hk. f_equal.
  - intros k s. rewrite lookup_delete_eq. split; [done|]. by rewrite bool_decide_eq_true.
Qed.

(** ** [KubernetesLeaseElection] over an injected transport *)

(** The parts of a [Lease] object the code writes and reads. *)
Record K8sLease := MkK8sLease {
  holder_identity : option string;
  renew_time : float;
  lease_transitions : Z
}.

(** The requests sent to the lease URL; [Err] is an exception of the transport. *)
Class LeaseApi (S : Type) := {
  api_get : S → result string (option K8sLease);
  api_put : K8sLease → S → result string S;
  api_post : K8sLease → S → result string S;
  api_delete : S → result string S
}.

Record K8sElector := MkK8sElector {
  k_elector : Elector;
  k_lease : option K8sLease
}.

Section Kubernetes.
Context {S : Type} `{LeaseApi S}.

(** [_holder] *)
Definition k8s_holder (k : K8sElector) : option string :=
  match k_lease k with None => None | Some l => holder_identity l end.

(** [_renewed_lease] *)
Definition renewed_lease (holder : string) (epoch : Z) (now : float) : K8sLease :=
  MkK8sLease (Some holder) now epoch.

(** [elect]: [Err] is the exception it lets escape; the read error is caught. *)
Definition k8s_elect (now : float) (k : K8sElector) (s : S)
    : K8sElector * S * list Notification * result string bool :=
  match api_get s with
  | Err _ => (k, s, [], Ok false)
  | Ok lease =>
      let e := k_elector k in
      let k1 := MkK8sElector e lease in
      match k8s_holder k1 with
      | Some h =>
          if decide (h = e_node e) then
            match api_put (renewed_lease (e_node e) (e_epoch e) now) s with
            | Err x => (k1, s, [], Err x)
            | Ok s' =>
                let '(e', ns) := changed (Some (e_node e)) (e_epoch e) e in
                (MkK8sElector e' lease, s', ns, Ok true)
            end
          else
            let '(e', ns) := changed (Some h) (e_epoch e) e in
            (MkK8sElector e' lease, s, ns, Ok false)
      | None =>
          let l := renewed_lease (e_node e) (e_epoch e + 1) now in
          match api_post l s with
          | Err x => (k1, s, [], Err x)
          | Ok s' =>
              let '(e', ns) := changed (Some (e_node e)) (e_epoch e + 1) e in
              (MkK8sElector e' (Some l), s', ns, Ok true)
          end
      end
  end.

Definition k8s_step_down (k : K8sElector) (s : S)
    : K8sElector * S * list Notification * result string bool :=
  if is_leader (k_elector k) then
    match api_delete s with
    | Err x => (k, s, [], Err x)
    | Ok s' =>
        let '(e', ns) := changed None (e_epoch (k_elector k)) (k_elector k) in
        (MkK8sElector e' None, s', ns, Ok true)
    end
  else (k, s, [], Ok false).
End Kubernetes.

(** ** Witnesses *)

Definition two_nodes : cluster :=
  MkCluster (<["a" := new_elector "a" 0]> {["b" := new_elector "b" 0]}) ∅.

Definition fsec (z : Z) : float := float_of_Z z.

Lemma two_nodes_wf : cluster_wf two_nodes.
Proof.
  intros n e. unfold two_nodes. simpl. rewrite lookup_insert.
  case_decide; [naive_solver|]. rewrite lookup_singleton. case_decide; naive_solver.
Qed.

Lemma lease_election_exclusive_witness :
  ∃ cl1, do_call (fsec 15) (Elect "a" (fsec 100) (fsec 100)) two_nodes = (cl1, true) ∧
    (run (fsec 15) [Elect "b" (fsec 101) (fsec 102); Elect "b" (fsec 114) (fsec 114)] cl1).2
    = [false; false].
Proof.
  eexists. split; [vm_compute; reflexivity|].
  refine (proj1 (lease_election_exclusive (fsec 15) (fsec 100) (fsec 100) "a" two_nodes _
    [Elect "b" (fsec 101) (fsec 102); Elect "b" (fsec 114) (fsec 114)] two_nodes_wf _ _)).
  - vm_compute. reflexivity.
  - repeat constructor; try discriminate.
Defined.

Lemma lease_election_two_leaders_witness :
  ∃ ea' eb',
    electors (run (fsec 15) [Elect "a" (fsec 117) (fsec 117); Elect "b" (fsec 118) (fsec 118)]
      (do_call (fsec 15) (Elect "b" (fsec 116) (fsec 116))
         (do_call (fsec 15) (Elect "a" (fsec 100) (fsec 100)) two_nodes).1).1).1 !! "a" = Some ea'
    ∧ is_leader ea' = true ∧
    electors (run (fsec 15) [Elect "a" (fsec 117) (fsec 117); Elect "b" (fsec 118) (fsec 118)]
      (do_call (fsec 15) (Elect "b" (fsec 116) (fsec 116))
         (do_call (fsec 15) (Elect "a" (fsec 100) (fsec 100)) two_nodes).1).1).1 !! "b" = Some eb'
    ∧ is_leader eb' = true.
Proof.
  apply (lease_election_two_leaders (fsec 15) (fsec 116) (fsec 116) "a" "b"
    (MkElector "a" 0 (Some "a") 1) (new_elector "b" 0) (fsec 115)
    (do_call (fsec 15) (Elect "a" (fsec 100) (fsec 100)) two_nodes).1
    [Elect "a" (fsec 117) (fsec 117); Elect "b" (fsec 118) (fsec 118)]);
    try (vm_compute; reflexivity); [discriminate|].
  repeat constructor; discriminate.
Defined.

Lemma redis_election_outcome_witness :
  (redis_elect (fsec 15) (MkElector "a" 0 (Some "a") 1)
     ({[redis_key := "b"]} : gmap string string)).2 = true.
Proof.
  destruct (redis_elect (fsec 15) (MkElector "a" 0 (Some "a") 1)
     ({[redis_key := "b"]} : gmap string string)) as [[[e' s'] ns] ok] eqn:H.
  exact (proj1 (redis_election_outcome map_kv_laws (fsec 15) (MkElector "a" 0 (Some "a") 1) e'
    ({[redis_key := "b"]} : gmap string string) s' ns ok H)).
Defined.
End Election.
