(* ===== verification/ClusterHealth.v ===== *)
(** * Health monitoring and failover
    ([app/cluster/health.py], [app/cluster/failover.py])

    [evaluate] reassesses the members in place and returns the transitions;
    the failover manager, subscribed to them, releases the failover jobs of a
    failed node.  The loops mutate the shared stores; the theorems give their
    effect pointwise. *)

From stdpp Require Import base list strings gmap.
From S2P Require Import Prelude PyFloat PyDict ClusterStores.

Module ClusterHealth.

(** ** [HealthMonitor] *)

Definition Transition : Type := string * NodeState * NodeState.

Definition send_heartbeat (node_id : string) (load now : float) (s : NodeStore) : NodeStore :=
  ns_touch node_id load now s.

Definition receive_heartbeat (h : Heartbeat) (s : NodeStore) : NodeStore :=
  ns_record_heartbeat h s.

Definition last_seen (node_id : string) (s : NodeStore) : float :=
  match ns_get node_id s with Some n => n_last_seen n | None => fzero end.

(** [now - self.last_seen(node_id) > self.config.heartbeat_timeout] *)
Definition is_stale (timeout now : float) (node_id : string) (s : NodeStore) : bool :=
  flt timeout (fsub now (last_seen node_id s)).

(** The members [evaluate] skips. *)
Definition settled (st : NodeState) : bool :=
  match st with LEFT | LEAVING | FAILED => true | _ => false end.

Definition assessed (stale : bool) (previous : NodeState) : NodeState :=
  if stale then if decide (previous = HEALTHY) then FAILED else SUSPECTED
  else HEALTHY.

Fixpoint evaluate_loop (timeout now : float) (nodes : list NodeInfo)
    (s : NodeStore) (trans : list Transition)
    : result StoreError (NodeStore * list Transition) :=
  match nodes with
  | [] => Ok (s, trans)
  | node :: nodes' =>
      if settled (n_state node) then evaluate_loop timeout now nodes' s trans
      else
        let previous := n_state node in
        let new_state := assessed (is_stale timeout now (n_id node) s) previous in
        if decide (new_state = previous) then evaluate_loop timeout now nodes' s trans
        else match ns_mark (n_id node) new_state s with
        | Err e => Err e
        | Ok s' =>
            evaluate_loop timeout now nodes' s' (trans ++ [(n_id node, previous, new_state)])
        end
  end.

Definition evaluate (timeout now : float) (s : NodeStore)
    : result StoreError (NodeStore * list Transition) :=
  evaluate_loop timeout now (ns_all s) s [].

Definition dead_nodes (s : NodeStore) : list NodeInfo := ns_by_state FAILED s.

(** ** [FailoverManager] *)

Fixpoint reassign_loop (jobs : list JobSpec) (s : JobStore) (reassigned : nat)
    : result StoreError (JobStore * nat) :=
  match jobs with
  | [] => Ok (s, reassigned)
  | job :: jobs' =>
      if j_failover job then
        match js_update (j_id job) (set_owner None) s with
        | Err e => Err e
        | Ok s' => reassign_loop jobs' s' (S reassigned)
        end
      else reassign_loop jobs' s reassigned
  end.

Record FailoverRecord := MkFailoverRecord {
  fr_node_id : string;
  fr_jobs_reassigned : nat;
  fr_timestamp : float
}.

Definition reassign (node_id : string) (now : float) (nodes : NodeStore)
    (jobs : JobStore) (history : list FailoverRecord)
    : result StoreError (JobStore * list FailoverRecord * nat) :=
  match ns_get node_id nodes with
  | None => Ok (jobs, history, 0)
  | Some _ =>
      match reassign_loop (js_by_owner node_id jobs) jobs 0 with
      | Err e => Err e
      | Ok (jobs', n) => Ok (jobs', history ++ [MkFailoverRecord node_id n now], n)
      end
  end.

(** [_on_health_change] *)
Definition on_health_change (t : Transition) (now : float) (nodes : NodeStore)
    (jobs : JobStore) (history : list FailoverRecord)
    : result StoreError (JobStore * list FailoverRecord * nat) :=
  let '(node_id, _, new_state) := t in
  if decide (new_state = FAILED) then reassign node_id now nodes jobs history
  else Ok (jobs, history, 0).

Definition reassign_orphans (jobs : JobStore) : nat := length (js_orphaned jobs).

(** ** Invariant: every member is stored under its own id *)

Definition nodes_wf (s : NodeStore) : Prop :=
  dict_wf (ns_nodes s) ∧ ∀ k n, dict_get k (ns_nodes s) = Some n → n_id n = k.

Lemma nodes_wf_update s k n nodes h hb :
  nodes_wf s → n_id n = k → nodes = dict_set k n (ns_nodes s) →
  nodes_wf (MkNodeStore nodes h hb).
Proof.
  intros [Hwf Hid] Hk ->. split; simpl; [auto with pydb|].
  intros k' n'. rewrite dict_get_set. case_decide; [naive_solver|apply Hid].
Qed.

Lemma elem_of_ns_all s n :
  nodes_wf s → n ∈ ns_all s ↔ dict_get (n_id n) (ns_nodes s) = Some n.
Proof.
  intros [Hwf Hid]. unfold ns_all, dict_values. rewrite elem_of_py_sorted. split.
  - intros ([k n'] & -> & Hin)%list_elem_of_fmap. simpl.
    apply dict_elem_of_get in Hin; [|done]. by rewrite (Hid _ _ Hin).
  - intros Hg%dict_get_elem_of. apply list_elem_of_fmap. by exists (n_id n, n).
Qed.

Lemma ns_all_ids_nodup s : nodes_wf s → NoDup (n_id <$> ns_all s).
Proof.
  intros [Hwf Hid]. unfold ns_all. rewrite py_sorted_perm.
  assert (n_id <$> dict_values (ns_nodes s) = (ns_nodes s).*1) as ->; [|done].
  assert (∀ k n, (k, n) ∈ ns_nodes s → n_id n = k) as H.
  { intros k n Hin. apply Hid. by apply dict_elem_of_get. }
  clear Hid Hwf. unfold dict_values. induction (ns_nodes s) as [|[k n] d IH]; csimpl; [done|].
  rewrite (H k n) by set_solver. f_equal. apply IH. set_solver.
Qed.

(** ** [evaluate], pointwise *)

(** The reference: what one member becomes. *)
Definition reassess (timeout now : float) (n : NodeInfo) : NodeInfo :=
  if settled (n_state n) then n
  else set_state (assessed (flt timeout (fsub now (n_last_seen n))) (n_state n)) n.

Definition transition_of (timeout now : float) (n : NodeInfo) : option Transition :=
  if decide (n_state (reassess timeout now n) = n_state n) then None
  else Some (n_id n, n_state n, n_state (reassess timeout now n)).

Lemma set_state_same n : set_state (n_state n) n = n.
Proof. by destruct n. Qed.

(** The three outcomes for a member. *)
Lemma reassess_cases timeout now n :
  (settled (n_state n) = true ∧ transition_of timeout now n = None ∧ reassess timeout now n = n)
  ∨ (settled (n_state n) = false ∧
     let st := assessed (flt timeout (fsub now (n_last_seen n))) (n_state n) in
     st = n_state n ∧ transition_of timeout now n = None ∧ reassess timeout now n = n)
  ∨ (settled (n_state n) = false ∧
     let st := assessed (flt timeout (fsub now (n_last_seen n))) (n_state n) in
     st ≠ n_state n ∧ transition_of timeout now n = Some (n_id n, n_state n, st) ∧
     reassess timeout now n = set_state st n).
Proof.
  unfold transition_of, reassess. destruct (settled (n_state n)) eqn:Hset.
  { left. by rewrite decide_True. }
  right. simpl. case_decide as Hs; [left|by right]. by rewrite Hs, set_state_same.
Qed.

(** One turn of the loop, seen pointwise. *)
Lemma pointwise_turn (f : NodeInfo → NodeInfo) n ids (d0 d1 d' : dict string NodeInfo) :
  n_id n ∉ ids → dict_get (n_id n) d0 = Some n →
  (∀ k, dict_get k d1 = if decide (k = n_id n) then Some (f n) else dict_get k d0) →
  (∀ k, dict_get k d' = if decide (k ∈ ids) then f <$> dict_get k d1 else dict_get k d1) →
  ∀ k, dict_get k d' = if decide (k ∈ n_id n :: ids) then f <$> dict_get k d0 else dict_get k d0.
Proof.
  intros Hn H0 H1 Hd k. rewrite Hd, H1. destruct (decide (k = n_id n)) as [->|Hne].
  - rewrite decide_False by done. rewrite decide_True by set_solver. by rewrite H0.
  - destruct (decide (k ∈ ids)); [rewrite decide_True by set_solver|
      rewrite decide_False by set_solver]; done.
Qed.

Lemma evaluate_loop_spec timeout now nodes s trans :
  NoDup (n_id <$> nodes) →
  (∀ n, n ∈ nodes → dict_get (n_id n) (ns_nodes s) = Some n) →
  ∃ s', evaluate_loop timeout now nodes s trans
      = Ok (s', trans ++ omap (transition_of timeout now) nodes) ∧
    ∀ k, dict_get k (ns_nodes s')
      = if decide (k ∈ n_id <$> nodes) then reassess timeout now <$> dict_get k (ns_nodes s)
        else dict_get k (ns_nodes s).
Proof.
  revert s trans. induction nodes as [|n nodes IH]; intros s trans Hnd Hs; csimpl.
  { exists s. by rewrite app_nil_r. }
  apply NoDup_cons in Hnd as [Hn Hnd].
  pose proof (Hs n ltac:(set_solver)) as Hg.
  assert (is_stale timeout now (n_id n) s = flt timeout (fsub now (n_last_seen n))) as Hst.
  { unfold is_stale, last_seen, ns_get. by rewrite Hg. }
  rewrite Hst.
  assert (reassess timeout now n = n → ∀ k, dict_get k (ns_nodes s)
    = if decide (k = n_id n) then Some (reassess timeout now n) else dict_get k (ns_nodes s)) as Hid.
  { intros -> k. case_decide; congruence. }
  destruct (reassess_cases timeout now n) as
    [(-> & -> & Hr)|[(-> & Hsame & -> & Hr)|(-> & Hdiff & -> & Hr)]].
  - destruct (IH s trans Hnd) as (s' & Heq & Hk); [set_solver|].
    exists s'. split; [done|]. eapply pointwise_turn; eauto.
  - rewrite decide_True by done.
    destruct (IH s trans Hnd) as (s' & Heq & Hk); [set_solver|].
    exists s'. split; [done|]. eapply pointwise_turn; eauto.
  - rewrite decide_False by done. unfold ns_mark, ns_update. rewrite Hg.
    match goal with |- context [evaluate_loop _ _ nodes ?s1 ?t1] =>
      destruct (IH s1 t1 Hnd) as (s' & Heq & Hk) end.
    { intros m Hm. simpl. rewrite dict_get_set_ne; [apply Hs; set_solver|].
      intros Heq. apply Hn. rewrite Heq. by apply list_elem_of_fmap_2. }
    exists s'. rewrite Heq. split; [by rewrite <-app_assoc|].
    eapply pointwise_turn; [exact Hn|exact Hg| |exact Hk].
    intros k. simpl. rewrite dict_get_set, Hr. repeat case_decide; congruence.
Qed.

(** [HealthMonitor.evaluate] never raises and, although it marks nodes in
    the shared store while it iterates, its effect is pointwise: every member
    becomes the reassessment of what it was (unchanged when it has failed, left
    or is leaving; otherwise healthy when its heartbeat is fresh, failed when a
    healthy node went stale, suspected when another node is stale), no member
    appears or disappears, and the transitions reported are exactly the state
    changes, in the order of the ids. *)
Theorem evaluate_pointwise (timeout now : float) (s : NodeStore) (Hwf : nodes_wf s) :
  ∃ s', evaluate timeout now s = Ok (s', omap (transition_of timeout now) (ns_all s)) ∧
    ∀ k, ns_get k s' = reassess timeout now <$> ns_get k s.
Proof.
  destruct (evaluate_loop_spec timeout now (ns_all s) s []) as (s' & Heq & Hk).
  { by apply ns_all_ids_nodup. }
  { intros n Hn. by apply elem_of_ns_all. }
  exists s'. split; [exact Heq|]. intros k. unfold ns_get. rewrite Hk.
  case_decide as Hin; [done|].
  destruct (dict_get k (ns_nodes s)) as [n|] eqn:E; [|done].
  exfalso. apply Hin. apply list_elem_of_fmap. exists n.
  pose proof (proj2 Hwf _ _ E) as Hid.
  split; [done|]. apply elem_of_ns_all; [done|]. by rewrite Hid.
Qed.

(** ** Failover *)

Definition released (node_id : string) (j : JobSpec) : JobSpec :=
  if j_failover j && bool_decide (j_owner j = Some node_id) then set_owner None j else j.

Lemma reassign_loop_spec jobs s n :
  NoDup (j_id <$> jobs) →
  (∀ j, j ∈ jobs → dict_get (j_id j) (js_jobs s) = Some j) →
  ∃ s', reassign_loop jobs s n = Ok (s', n + length (filter (λ j, j_failover j = true) jobs)) ∧
    js_jobs s' = dict_update_all (set_owner None)
                   (j_id <$> filter (λ j, j_failover j = true) jobs) (js_jobs s).
Proof.
  revert s n. induction jobs as [|j jobs IH]; intros s n Hnd Hs; simpl.
  { exists s. by rewrite Nat.add_0_r. }
  apply NoDup_cons in Hnd as [Hj Hnd]. rewrite filter_cons.
  pose proof (Hs j ltac:(set_solver)) as Hg. destruct (j_failover j) eqn:Hf.
  - rewrite decide_True by done. unfold js_update. rewrite Hg.
    destruct (IH (MkJobStore (dict_set (j_id j) (set_owner None j) (js_jobs s)) (js_runs s)) (S n))
      as (s' & Heq & Hd); [done| |].
    { intros i Hi. simpl. rewrite dict_get_set_ne; [apply Hs; set_solver|].
      intros Heq. apply Hj. rewrite Heq. by apply list_elem_of_fmap_2. }
    exists s'. rewrite Heq. split; [simpl; f_equal; f_equal; lia|].
    csimpl. rewrite Hg. exact Hd.
  - rewrite decide_False by done. apply IH; [done|set_solver].
Qed.

(** [FailoverManager.reassign] of a member releases exactly the work that
    can move: every failover job it owned loses its owner, every other job
    (jobs of other nodes, and its own jobs without failover) is unchanged, and
    the count returned and recorded in the history is the number of jobs
    released. *)
Theorem reassign_releases (node_id : string) (now : float) (nodes : NodeStore)
    (jobs : JobStore) (history : list FailoverRecord) (node : NodeInfo)
    (Hwf : jobs_wf jobs) (Hnode : ns_get node_id nodes = Some node) :
  ∃ jobs' n, reassign node_id now nodes jobs history
      = Ok (jobs', history ++ [MkFailoverRecord node_id n now], n) ∧
    n = length (filter (λ j, j_failover j = true ∧ j_owner j = Some node_id) (js_all jobs)) ∧
    ∀ k, js_get k jobs' = released node_id <$> js_get k jobs.
Proof.
  unfold reassign. rewrite Hnode.
  destruct (reassign_loop_spec (js_by_owner node_id jobs) jobs 0) as (s' & Heq & Hd).
  { eapply sublist_NoDup; [by apply js_all_ids_nodup|].
    apply fmap_sublist, sublist_filter. }
  { intros j [_ Hj]%list_elem_of_filter. by apply elem_of_js_all. }
  rewrite Heq. simpl. eexists _, _. split; [done|]. split.
  { unfold js_by_owner. rewrite list_filter_filter.
    done. }
  intros k. unfold js_get. rewrite Hd, dict_update_all_get.
  2:{ eapply sublist_NoDup; [by apply js_all_ids_nodup|].
      apply fmap_sublist. etrans; apply sublist_filter. }
  destruct (dict_get k (js_jobs jobs)) as [j|] eqn:E; simpl; [|by case_decide].
  pose proof (proj2 Hwf _ _ E) as Hid. unfold released.
  case_decide as Hin.
  - apply list_elem_of_fmap in Hin as (j' & -> & Hj').
    apply list_elem_of_filter in Hj' as [Hf Hj'].
    apply list_elem_of_filter in Hj' as [Ho Hj'].
    apply elem_of_js_all in Hj'; [|done]. assert (j' = j) as -> by congruence.
    by rewrite Hf, bool_decide_true.
  - destruct (j_failover j && bool_decide (j_owner j = Some node_id)) eqn:Hb; [|done].
    bool_to_prop. exfalso. apply Hin. apply list_elem_of_fmap. exists j.
    split; [done|]. apply list_elem_of_filter. split; [done|].
    apply list_elem_of_filter. split; [done|]. apply elem_of_js_all; [done|]. by rewrite Hid.
Qed.

(** ** Witnesses *)

Definition demo_node (i : string) (st : NodeState) (seen : Z) : NodeInfo :=
  MkNodeInfo i i "" 0 FOLLOWER st "default" "default" [] "1.0.0" 1 0 fzero (float_of_Z seen).

Definition demo_nodes : NodeStore :=
  ns_register (demo_node "b" HEALTHY 10) (ns_register (demo_node "a" JOINED 95) ns_new).

Definition demo_job (i : string) (f : bool) (o : option string) : JobSpec :=
  MkJobSpec i FAILOVER i (float_of_Z 60) fzero "" false f o "" 0 0 0 (float_of_Z 30)
    fzero fzero fzero.

Definition demo_jobs : JobStore :=
  js_add (demo_job "j2" false (Some "b")) (js_add (demo_job "j1" true (Some "b")) (MkJobStore [] [])).

Lemma demo_nodes_wf : nodes_wf demo_nodes.
Proof.
  apply (nodes_wf_update (ns_register (demo_node "a" JOINED 95) ns_new) "b"
    (demo_node "b" HEALTHY 10)); [|done|done].
  apply (nodes_wf_update ns_new "a" (demo_node "a" JOINED 95)); [|done|done].
  split; [constructor|done].
Qed.

Lemma evaluate_pointwise_witness :
  ∃ s', evaluate (float_of_Z 30) (float_of_Z 100) demo_nodes
    = Ok (s', [("a", JOINED, HEALTHY); ("b", HEALTHY, FAILED)]).
Proof.
  destruct (evaluate_pointwise (float_of_Z 30) (float_of_Z 100) demo_nodes demo_nodes_wf)
    as (s' & H & _).
  exists s'. etransitivity; [exact H|]. vm_compute. reflexivity.
Defined.

Lemma reassign_releases_witness :
  ∃ jobs', reassign "b" (float_of_Z 100) demo_nodes demo_jobs []
    = Ok (jobs', [MkFailoverRecord "b" 1 (float_of_Z 100)], 1).
Proof.
  assert (jobs_wf demo_jobs) as Hwf.
  { split; [apply (bool_decide_unpack _); vm_compute; exact I|].
    intros k j. unfold demo_jobs. simpl.
    repeat case_decide; naive_solver. }
  destruct (reassign_releases "b" (float_of_Z 100) demo_nodes demo_jobs []
    (demo_node "b" HEALTHY 10) Hwf) as (jobs' & n & H & Hn & _).
  { vm_compute. reflexivity. }
  exists jobs'. assert (n = 1) as -> by (rewrite Hn; vm_compute; reflexivity). exact H.
Defined.
End ClusterHealth.
