(* ===== verification/RateLimit.v ===== *)
(** * Gateway rate limiting ([app/gateway/ratelimit.py])

    The four strategies ([TokenBucketLimiter], [LeakyBucketLimiter],
    [SlidingWindowLimiter], [FixedWindowLimiter]), the factory
    [create_rate_limit_strategy] and the registry [RateLimiter].  Each method
    is a state-and-exception computation on the object; numbers are Python's
    ([PyNum]), so rounding, [ZeroDivisionError] and [OverflowError] occur as in
    the code.  A method reads the clock once ([now = time.time()]); creating a
    missing entry of a [defaultdict(time.time)] reads it again, later: a
    [Clock] holds both readings. *)

From Stdlib Require Import ZArith Lia.
From stdpp Require Import base numbers strings list.
From S2P Require Import Prelude PyFloat PyNum PyDict.

Open Scope Z_scope.

Record Clock := MkClock { now : float; later : float }.

Record RateLimitDecision := MkDecision {
  allowed : bool;
  strategy : string;
  key : string;
  limit : Z;
  remaining : Z;
  retry_after : num;
  reset_at : num
}.

(** The dictionaries returned by the [status] methods. *)
Inductive LimiterStatus :=
| TokenStatus (k : string) (available : num) (capacity rest : Z) (rate : num)
| LeakyStatus (k : string) (queued capacity rest : Z) (rate : num)
| SlidingStatus (k : string) (used lim rest : Z) (window_seconds : num)
| FixedStatus (k : string) (used lim rest : Z) (window_seconds : num) (bucket : Z).

Abbreviation Arith := (SE ArithError).

(** The interface the four strategies implement. *)
Class RateLimitStrategy (S : Type) := {
  check : string → Z → Clock → Arith S RateLimitDecision;
  reset : string → S → S;
  status : string → Clock → Arith S LimiterStatus;
  strategy_keys : S → list string
}.

(** ** Token bucket *)

Record TokenBucketLimiter := MkTokenBucket {
  tb_rate : num;
  tb_burst : Z;
  tb_initial : option num;
  tb_tokens : dict string num;
  tb_updated : dict string float
}.

Definition tb_set_tokens (k : string) (v : num) (s : TokenBucketLimiter) : TokenBucketLimiter :=
  MkTokenBucket (tb_rate s) (tb_burst s) (tb_initial s) (dict_set k v (tb_tokens s)) (tb_updated s).
Definition tb_set_updated (k : string) (v : float) (s : TokenBucketLimiter) : TokenBucketLimiter :=
  MkTokenBucket (tb_rate s) (tb_burst s) (tb_initial s) (tb_tokens s) (dict_set k v (tb_updated s)).

(** [self._tokens[key]]: a missing key gets [float(burst)] or [float(initial)]. *)
Definition tb_tokens_at (k : string) : Arith TokenBucketLimiter num := λ s,
  match dict_get k (tb_tokens s) with
  | Some t => (Ok t, s)
  | None =>
      match to_float (default (NInt (tb_burst s)) (tb_initial s)) with
      | Ok f => (Ok (NFloat f), tb_set_tokens k (NFloat f) s)
      | Err e => (Err e, s)
      end
  end.

(** [self._updated[key]]: a missing key gets a new clock reading. *)
Definition tb_updated_at (k : string) (c : Clock) : Arith TokenBucketLimiter float := λ s,
  match dict_get k (tb_updated s) with
  | Some t => (Ok t, s)
  | None => (Ok (later c), tb_set_updated k (later c) s)
  end.

Definition tb_refill (k : string) (c : Clock) : Arith TokenBucketLimiter num :=
  tokens ← tb_tokens_at k;
  updated ← tb_updated_at k c;
  s ← se_get;
  let elapsed := fsub (now c) updated in
  gained ← se_lift (num_mul (NFloat elapsed) (tb_rate s));
  total ← se_lift (num_add tokens gained);
  let tokens := num_min (NInt (tb_burst s)) total in
  se_modify (tb_set_tokens k tokens);;
  se_modify (tb_set_updated k (now c));;
  mret tokens.

Definition tb_check (k : string) (cost : Z) (c : Clock)
    : Arith TokenBucketLimiter RateLimitDecision :=
  tokens ← tb_refill k c;
  s ← se_get;
  let burst := NInt (tb_burst s) in
  if num_le (NInt cost) tokens then
    rest ← se_lift (num_sub tokens (NInt cost));
    se_modify (tb_set_tokens k rest);;
    r ← se_lift (num_int (num_min burst rest));
    missing ← se_lift (num_sub burst tokens);
    missing ← se_lift (num_add missing (NInt cost));
    wait ← se_lift (num_div missing (tb_rate s));
    mret (MkDecision true "token_bucket" k (tb_burst s) r (NFloat fzero)
            (NFloat (fadd (now c) wait)))
  else
    deficit ← se_lift (num_sub (NInt cost) tokens);
    wait ← se_lift (num_div deficit (tb_rate s));
    mret (MkDecision false "token_bucket" k (tb_burst s) 0 (NFloat wait)
            (NFloat (fadd (now c) wait))).

Definition tb_reset (k : string) (s : TokenBucketLimiter) : TokenBucketLimiter :=
  MkTokenBucket (tb_rate s) (tb_burst s) (tb_initial s)
    (dict_pop k (tb_tokens s)) (dict_pop k (tb_updated s)).

Definition tb_status (k : string) (c : Clock) : Arith TokenBucketLimiter LimiterStatus :=
  tokens ← tb_refill k c;
  s ← se_get;
  r ← se_lift (num_int (num_min (NInt (tb_burst s)) tokens));
  mret (TokenStatus k tokens (tb_burst s) r (tb_rate s)).

#[export] Instance token_bucket_strategy : RateLimitStrategy TokenBucketLimiter := {
  check := tb_check; reset := tb_reset; status := tb_status;
  strategy_keys s := dict_keys (tb_tokens s)
}.

(** ** Leaky bucket *)

Record LeakyBucketLimiter := MkLeakyBucket {
  lb_rate : num;
  lb_capacity : Z;
  lb_queues : dict string (list float);
  lb_last_drip : dict string float
}.

Definition lb_set_queue (k : string) (q : list float) (s : LeakyBucketLimiter) : LeakyBucketLimiter :=
  MkLeakyBucket (lb_rate s) (lb_capacity s) (dict_set k q (lb_queues s)) (lb_last_drip s).
Definition lb_set_drip (k : string) (t : float) (s : LeakyBucketLimiter) : LeakyBucketLimiter :=
  MkLeakyBucket (lb_rate s) (lb_capacity s) (lb_queues s) (dict_set k t (lb_last_drip s)).

Definition lb_queue_at (k : string) : Arith LeakyBucketLimiter (list float) := λ s,
  match dict_get k (lb_queues s) with
  | Some q => (Ok q, s)
  | None => (Ok [], lb_set_queue k [] s)
  end.

Definition lb_drip_at (k : string) (c : Clock) : Arith LeakyBucketLimiter float := λ s,
  match dict_get k (lb_last_drip s) with
  | Some t => (Ok t, s)
  | None => (Ok (later c), lb_set_drip k (later c) s)
  end.

Definition lb_drain (k : string) (c : Clock) : Arith LeakyBucketLimiter unit :=
  queue ← lb_queue_at k;
  last ← lb_drip_at k c;
  s ← se_get;
  drips ← se_lift (num_mul (NFloat (fsub (now c) last)) (lb_rate s));
  drip_count ← se_lift (num_int drips);
  if drip_count <=? 0 then mret tt
  else
    se_modify (lb_set_queue k (drop (Z.to_nat (Z.min drip_count (zlen queue))) queue));;
    se_modify (lb_set_drip k (now c)).

Definition lb_check (k : string) (cost : Z) (c : Clock)
    : Arith LeakyBucketLimiter RateLimitDecision :=
  lb_drain k c;;
  queue ← lb_queue_at k;
  s ← se_get;
  if zlen queue + cost <=? lb_capacity s then
    let queue := queue ++ replicate (Z.to_nat cost) (now c) in
    se_modify (lb_set_queue k queue);;
    wait ← se_lift (num_div (NInt (zlen queue)) (lb_rate s));
    mret (MkDecision true "leaky_bucket" k (lb_capacity s) (lb_capacity s - zlen queue)
            (NFloat fzero) (NFloat (fadd (now c) wait)))
  else
    let oldest := default (now c) (head queue) in
    wait ← se_lift (num_div (NInt (zlen queue + cost - lb_capacity s)) (lb_rate s));
    mret (MkDecision false "leaky_bucket" k (lb_capacity s) 0 (NFloat wait)
            (NFloat (fadd oldest wait))).

Definition lb_reset (k : string) (s : LeakyBucketLimiter) : LeakyBucketLimiter :=
  MkLeakyBucket (lb_rate s) (lb_capacity s)
    (dict_pop k (lb_queues s)) (dict_pop k (lb_last_drip s)).

Definition lb_status (k : string) (c : Clock) : Arith LeakyBucketLimiter LimiterStatus :=
  lb_drain k c;;
  queue ← lb_queue_at k;
  s ← se_get;
  mret (LeakyStatus k (zlen queue) (lb_capacity s) (lb_capacity s - zlen queue) (lb_rate s)).

#[export] Instance leaky_bucket_strategy : RateLimitStrategy LeakyBucketLimiter := {
  check := lb_check; reset := lb_reset; status := lb_status;
  strategy_keys s := dict_keys (lb_queues s)
}.

(** ** Sliding window *)

Record SlidingWindowLimiter := MkSlidingWindow {
  sw_limit : Z;
  sw_window_seconds : num;
  sw_precision : num;
  sw_windows : dict string (list float)
}.

Definition sw_set_window (k : string) (w : list float) (s : SlidingWindowLimiter) : SlidingWindowLimiter :=
  MkSlidingWindow (sw_limit s) (sw_window_seconds s) (sw_precision s)
    (dict_set k w (sw_windows s)).

Definition sw_window_at (k : string) : Arith SlidingWindowLimiter (list float) := λ s,
  match dict_get k (sw_windows s) with
  | Some w => (Ok w, s)
  | None => (Ok [], sw_set_window k [] s)
  end.

(** [while window and window[0] < cutoff: window.popleft()] *)
Fixpoint pop_expired (cutoff : num) (w : list float) : list float :=
  match w with
  | t :: w' => if num_lt (NFloat t) cutoff then pop_expired cutoff w' else w
  | [] => []
  end.

Definition sw_prune (k : string) (now : float) : Arith SlidingWindowLimiter unit :=
  window ← sw_window_at k;
  s ← se_get;
  cutoff ← se_lift (num_sub (NFloat now) (sw_window_seconds s));
  se_modify (sw_set_window k (pop_expired cutoff window)).

Definition sw_check (k : string) (cost : Z) (c : Clock)
    : Arith SlidingWindowLimiter RateLimitDecision :=
  sw_prune k (now c);;
  window ← sw_window_at k;
  s ← se_get;
  if zlen window + cost <=? sw_limit s then
    let window := window ++ replicate (Z.to_nat cost) (now c) in
    se_modify (sw_set_window k window);;
    reset ← se_lift (num_add (NFloat (default (now c) (head window))) (sw_window_seconds s));
    mret (MkDecision true "sliding_window" k (sw_limit s) (sw_limit s - zlen window)
            (NFloat fzero) reset)
  else
    let oldest := default (now c) (head window) in
    reset ← se_lift (num_add (NFloat oldest) (sw_window_seconds s));
    wait ← se_lift (num_sub reset (NFloat (now c)));
    mret (MkDecision false "sliding_window" k (sw_limit s) 0 wait reset).

Definition sw_reset (k : string) (s : SlidingWindowLimiter) : SlidingWindowLimiter :=
  MkSlidingWindow (sw_limit s) (sw_window_seconds s) (sw_precision s) (dict_pop k (sw_windows s)).

Definition sw_status (k : string) (c : Clock) : Arith SlidingWindowLimiter LimiterStatus :=
  sw_prune k (now c);;
  window ← sw_window_at k;
  s ← se_get;
  mret (SlidingStatus k (zlen window) (sw_limit s)
          (Z.max 0 (sw_limit s - zlen window)) (sw_window_seconds s)).

#[export] Instance sliding_window_strategy : RateLimitStrategy SlidingWindowLimiter := {
  check := sw_check; reset := sw_reset; status := sw_status;
  strategy_keys s := dict_keys (sw_windows s)
}.

(** ** Fixed window *)

Record FixedWindowLimiter := MkFixedWindow {
  fw_limit : Z;
  fw_window_seconds : num;
  fw_counts : dict string (dict Z Z)
}.

Definition fw_set_counts (k : string) (d : dict Z Z) (s : FixedWindowLimiter) : FixedWindowLimiter :=
  MkFixedWindow (fw_limit s) (fw_window_seconds s) (dict_set k d (fw_counts s)).

Definition fw_counts_at (k : string) : Arith FixedWindowLimiter (dict Z Z) := λ s,
  match dict_get k (fw_counts s) with
  | Some d => (Ok d, s)
  | None => (Ok [], fw_set_counts k [] s)
  end.

(** [int(now // self.window_seconds)] *)
Definition fw_bucket (now : float) (window_seconds : num) : result ArithError Z :=
  match to_float window_seconds with
  | Err e => Err e
  | Ok w => match ffloordiv now w with Err e => Err e | Ok q => num_int (NFloat q) end
  end.

Definition fw_check (k : string) (cost : Z) (c : Clock)
    : Arith FixedWindowLimiter RateLimitDecision :=
  s ← se_get;
  bucket ← se_lift (fw_bucket (now c) (fw_window_seconds s));
  counts ← fw_counts_at k;
  let counts := if dict_mem bucket counts then counts else [(bucket, 0)] in
  se_modify (fw_set_counts k counts);;
  let used := default 0 (dict_get bucket counts) in
  if used + cost <=? fw_limit s then
    se_modify (fw_set_counts k (dict_set bucket (used + cost) counts));;
    reset ← se_lift (num_mul (NInt (bucket + 1)) (fw_window_seconds s));
    mret (MkDecision true "fixed_window" k (fw_limit s) (fw_limit s - (used + cost))
            (NFloat fzero) reset)
  else
    reset ← se_lift (num_mul (NInt (bucket + 1)) (fw_window_seconds s));
    wait ← se_lift (num_sub reset (NFloat (now c)));
    mret (MkDecision false "fixed_window" k (fw_limit s) 0 wait reset).

Definition fw_reset (k : string) (s : FixedWindowLimiter) : FixedWindowLimiter :=
  MkFixedWindow (fw_limit s) (fw_window_seconds s) (dict_pop k (fw_counts s)).

Definition fw_status (k : string) (c : Clock) : Arith FixedWindowLimiter LimiterStatus :=
  s ← se_get;
  bucket ← se_lift (fw_bucket (now c) (fw_window_seconds s));
  counts ← fw_counts_at k;
  let used := default 0 (dict_get bucket counts) in
  mret (FixedStatus k used (fw_limit s) (Z.max 0 (fw_limit s - used)) (fw_window_seconds s) bucket).

#[export] Instance fixed_window_strategy : RateLimitStrategy FixedWindowLimiter := {
  check := fw_check; reset := fw_reset; status := fw_status;
  strategy_keys s := dict_keys (fw_counts s)
}.

(** ** Factory and registry *)

(** The strategies the factory can build. *)
Inductive AnyLimiter :=
| AToken (s : TokenBucketLimiter)
| ALeaky (s : LeakyBucketLimiter)
| ASliding (s : SlidingWindowLimiter)
| AFixed (s : FixedWindowLimiter).

(** Running a method of the object held by [AnyLimiter]. *)
Definition on_limiter {S A} (inj : S → AnyLimiter) (m : Arith S A) (s : S)
    : result ArithError A * AnyLimiter :=
  let '(r, s') := m s in (r, inj s').

#[export] Instance any_limiter_strategy : RateLimitStrategy AnyLimiter := {
  check k cost c a :=
    match a with
    | AToken s => on_limiter AToken (check k cost c) s
    | ALeaky s => on_limiter ALeaky (check k cost c) s
    | ASliding s => on_limiter ASliding (check k cost c) s
    | AFixed s => on_limiter AFixed (check k cost c) s
    end;
  reset k a :=
    match a with
    | AToken s => AToken (reset k s)
    | ALeaky s => ALeaky (reset k s)
    | ASliding s => ASliding (reset k s)
    | AFixed s => AFixed (reset k s)
    end;
  status k c a :=
    match a with
    | AToken s => on_limiter AToken (status k c) s
    | ALeaky s => on_limiter ALeaky (status k c) s
    | ASliding s => on_limiter ASliding (status k c) s
    | AFixed s => on_limiter AFixed (status k c) s
    end;
  strategy_keys a :=
    match a with
    | AToken s => strategy_keys s
    | ALeaky s => strategy_keys s
    | ASliding s => strategy_keys s
    | AFixed s => strategy_keys s
    end
}.

(** The fields of [GatewayConfig] that the limiter reads. *)
Record GatewayConfig := MkConfig {
  default_rate_limit_strategy : string;
  default_requests_per_minute : Z;
  default_burst : Z;
  sliding_window_precision : num
}.

(** The keyword arguments that the factory looks up. *)
Record Overrides := MkOverrides {
  ov_rate_per_second : option num;
  ov_burst : option Z;
  ov_initial : option num;
  ov_capacity : option Z;
  ov_limit : option Z;
  ov_window_seconds : option num;
  ov_precision : option num
}.

Definition no_overrides : Overrides := MkOverrides None None None None None None None.

Inductive LimiterError :=
| ArithmeticError (e : ArithError)
| UnknownStrategy (name : string)
| RateLimitExceeded (k strategy : string) (retry_after : num) (limit : Z).

Definition arith {A} (r : result ArithError A) : result LimiterError A :=
  match r with Ok a => Ok a | Err e => Err (ArithmeticError e) end.

Definition sixty : num := NFloat (float_of_Z 60).

Definition create_rate_limit_strategy (name : string) (config : GatewayConfig) (o : Overrides)
    : result LimiterError AnyLimiter :=
  let rpm := default_requests_per_minute config in
  let rate :=
    match arith (num_div (NInt rpm) sixty) with
    | Ok f => Ok (default (NFloat f) (ov_rate_per_second o))
    | Err e => Err e
    end in
  if decide (name = "token_bucket"%string) then
    match rate with
    | Ok r => Ok (AToken (MkTokenBucket r (default (default_burst config) (ov_burst o))
                            (ov_initial o) [] []))
    | Err e => Err e
    end
  else if decide (name = "leaky_bucket"%string) then
    match rate with
    | Ok r => Ok (ALeaky (MkLeakyBucket r (default (default_burst config) (ov_capacity o)) [] []))
    | Err e => Err e
    end
  else if decide (name = "sliding_window"%string) then
    Ok (ASliding (MkSlidingWindow (default rpm (ov_limit o)) (default sixty (ov_window_seconds o))
                    (default (sliding_window_precision config) (ov_precision o)) []))
  else if decide (name = "fixed_window"%string) then
    Ok (AFixed (MkFixedWindow (default rpm (ov_limit o)) (default sixty (ov_window_seconds o)) []))
  else Err (UnknownStrategy name).

Record Policy := MkPolicy {
  p_strategy : string;
  p_limit : option Z;
  p_window_seconds : option num;
  p_overrides : Overrides
}.

Record RateLimiter := MkRateLimiter {
  rl_config : GatewayConfig;
  rl_policies : dict string Policy;
  rl_limiters : dict string AnyLimiter
}.

Definition new_rate_limiter (config : GatewayConfig) : RateLimiter := MkRateLimiter config [] [].

Definition set_policy (k : string) (strategy : option string) (limit : option Z)
    (window_seconds : option num) (o : Overrides) (s : RateLimiter) : RateLimiter :=
  let strategy := str_or (default ""%string strategy) (default_rate_limit_strategy (rl_config s)) in
  MkRateLimiter (rl_config s)
    (dict_set k (MkPolicy strategy limit window_seconds o) (rl_policies s))
    (dict_pop k (rl_limiters s)).

(** [limit or default]: [None] and [0] are falsy. *)
Definition limit_or (limit : option Z) (d : Z) : Z :=
  match limit with Some 0 | None => d | Some l => l end.

(** [overrides.setdefault(name, value)] *)
Definition setdefault {A} (o : option A) (v : A) : option A :=
  match o with Some x => Some x | None => Some v end.

Definition build (p : Policy) (config : GatewayConfig) : result LimiterError AnyLimiter :=
  let o := p_overrides p in
  let lim := match p_limit p with Some l => setdefault (ov_limit o) l | None => ov_limit o end in
  let win := match p_window_seconds p with
             | Some w => setdefault (ov_window_seconds o) w | None => ov_window_seconds o end in
  let burst := if decide (p_strategy p = "token_bucket"%string)
               then setdefault (ov_burst o) (limit_or (p_limit p) (default_burst config))
               else ov_burst o in
  let capacity := if decide (p_strategy p = "leaky_bucket"%string)
                  then setdefault (ov_capacity o) (limit_or (p_limit p) (default_burst config))
                  else ov_capacity o in
  create_rate_limit_strategy (p_strategy p) config
    (MkOverrides (ov_rate_per_second o) burst (ov_initial o) capacity lim win (ov_precision o)).

Abbreviation Registry := (SE LimiterError RateLimiter).

Definition set_limiter (k : string) (a : AnyLimiter) (s : RateLimiter) : RateLimiter :=
  MkRateLimiter (rl_config s) (rl_policies s) (dict_set k a (rl_limiters s)).

Definition limiter_for (k : string) : Registry AnyLimiter := λ s,
  match dict_get k (rl_limiters s) with
  | Some a => (Ok a, s)
  | None =>
      let policy := default (MkPolicy (default_rate_limit_strategy (rl_config s)) None None no_overrides)
                      (dict_get k (rl_policies s)) in
      match build policy (rl_config s) with
      | Ok a => (Ok a, set_limiter k a s)
      | Err e => (Err e, s)
      end
  end.

(** A method call on the object stored under [k]. *)
Definition call_limiter {A} (k : string) (m : Arith AnyLimiter A) (a : AnyLimiter) : Registry A := λ s,
  let '(r, a') := m a in (arith r, set_limiter k a' s).

Definition rl_check (k : string) (cost : Z) (c : Clock) : Registry RateLimitDecision :=
  a ← limiter_for k;
  call_limiter k (check k cost c) a.

Definition rl_enforce (k : string) (cost : Z) (c : Clock) : Registry RateLimitDecision :=
  d ← rl_check k cost c;
  if allowed d then mret d
  else se_raise (RateLimitExceeded k (strategy d) (retry_after d) (limit d)).

Definition rl_status (k : string) (c : Clock) : Registry LimiterStatus :=
  a ← limiter_for k;
  call_limiter k (status k c) a.

Definition rl_reset (k : string) (s : RateLimiter) : RateLimiter :=
  match dict_get k (rl_limiters s) with
  | Some a => set_limiter k (reset k a) s
  | None => s
  end.

Definition rl_reset_all (s : RateLimiter) : RateLimiter :=
  MkRateLimiter (rl_config s) (rl_policies s)
    ((λ '(k, a), (k, foldl (λ a k, reset k a) a (strategy_keys a))) <$> rl_limiters s).

Definition rl_policies_copy (s : RateLimiter) : dict string Policy := rl_policies s.
