(* ===== verification/RateLimitSpec.v ===== *)
(** * Rate limiting: theorems

    What the limiters of [RateLimit] promise: the sliding and the fixed window
    implement a reference limiter that keeps the whole history of admitted
    requests, the leaky bucket never exceeds its capacity, the token bucket
    never grants more than its burst, and the keys of the registry do not
    interfere. *)

From Stdlib Require Import ZArith Lia Sorted.
From stdpp Require Import base numbers strings list.
From S2P Require Import Prelude PyFloat PyNum PyDict RateLimit.

Open Scope Z_scope.

(** A request to a limiter: its cost and the clock readings of the call. *)
Abbreviation request := (Z * Clock)%type (only parsing).

Section Runs.
Context {S : Type} `{!RateLimitStrategy S}.

(** The decisions of consecutive [check] calls for one key. *)
Fixpoint run (k : string) (reqs : list request) : Arith S (list RateLimitDecision) :=
  match reqs with
  | [] => mret []
  | (cost, c) :: reqs' =>
      d ← check k cost c;
      ds ← run k reqs';
      mret (d :: ds)
  end.
End Runs.

Module SlidingWindow.

(** A unit admitted at [t] counts at [n] unless it lies before the cutoff. *)
Definition in_window (w : num) (n t : float) : bool :=
  match num_sub (NFloat n) w with
  | Ok cut => negb (num_lt (NFloat t) cut)
  | Err _ => true
  end.

Definition units_in_window (w : num) (n : float) (log : list float) : Z :=
  zlen (filter (λ t, in_window w n t = true) log).

(** The reference limiter: it forgets nothing and counts the units admitted
    within the window. *)
Fixpoint log_run (lim : Z) (w : num) (log : list float) (reqs : list request)
    : list bool * list float :=
  match reqs with
  | [] => ([], log)
  | (cost, c) :: reqs' =>
      let ok := units_in_window w (now c) log + cost <=? lim in
      let log' := if ok then log ++ replicate (Z.to_nat cost) (now c) else log in
      let '(oks, final) := log_run lim w log' reqs' in (ok :: oks, final)
  end.

(** The time stamps of the units that a run admitted. *)
Fixpoint admitted (reqs : list request) (ds : list RateLimitDecision) : list float :=
  match reqs, ds with
  | (cost, c) :: reqs', d :: ds' =>
      (if allowed d then replicate (Z.to_nat cost) (now c) else []) ++ admitted reqs' ds'
  | _, _ => []
  end.

(** The clock does not run backwards, and neither does the cutoff. *)
Definition clock_le (wf : float) (a b : float) : Prop :=
  fle a b = true ∧ fle (fsub a wf) (fsub b wf) = true.

Definition clock_ok (wf : float) (reqs : list request) : Prop :=
  StronglySorted (clock_le wf) ((λ r, now r.2) <$> reqs) ∧
  Forall (λ r, is_nan (now r.2) = false) reqs.

Lemma in_window_cutoff w wf n t :
  to_float w = Ok wf → in_window w n t = negb (flt t (fsub n wf)).
Proof.
  intros Hw. unfold in_window, num_sub, num_lift. simpl. rewrite Hw.
  by rewrite num_lt_float.
Qed.

Lemma units_in_window_cutoff w wf n l :
  to_float w = Ok wf →
  units_in_window w n l = zlen (filter (λ t, negb (flt t (fsub n wf)) = true) l).
Proof.
  intros Hw. unfold units_in_window. f_equal. apply list_filter_iff. intros t.
  by rewrite (in_window_cutoff _ wf).
Qed.

(** Popping the expired head of a sorted deque is filtering it. *)
Lemma pop_expired_filter cut l :
  StronglySorted (λ a b, fle a b = true) l →
  pop_expired (NFloat cut) l = filter (λ t, negb (flt t cut) = true) l.
Proof.
  induction 1 as [|t l Hs IH Ht]; [done|]. cbn [pop_expired].
  rewrite num_lt_float. destruct (flt t cut) eqn:E.
  - rewrite IH. symmetry. apply filter_cons_False. by rewrite E.
  - symmetry. apply filter_all. intros x [->|Hx]%elem_of_cons; [by rewrite E|].
    rewrite Forall_forall in Ht. specialize (Ht x Hx). simpl in Ht.
    destruct (flt x cut) eqn:Ex; [|done]. by rewrite (fle_flt_trans _ _ _ Ht Ex) in E.
Qed.

Lemma filter_window_mono c1 c2 (l : list float) :
  fle c1 c2 = true →
  filter (λ t, negb (flt t c2) = true) (filter (λ t, negb (flt t c1) = true) l)
  = filter (λ t, negb (flt t c2) = true) l.
Proof.
  intros Hc. rewrite list_filter_filter. apply list_filter_iff. intros t. split; [naive_solver|].
  intros Ht. split; [done|]. destruct (flt t c1) eqn:E; [|done].
  by rewrite (flt_fle_trans _ _ _ E Hc) in Ht.
Qed.

Lemma sorted_app_replicate n (x : float) l :
  is_nan x = false → StronglySorted (λ a b, fle a b = true) l →
  Forall (λ t, fle t x = true) l →
  StronglySorted (λ a b, fle a b = true) (l ++ replicate n x).
Proof.
  intros Hx Hl Hf. induction n as [|n IH]; simpl; [by rewrite app_nil_r|].
  rewrite replicate_cons_app, app_assoc. apply StronglySorted_snoc; [done|].
  apply Forall_app. split; [done|]. apply Forall_replicate. by apply fle_refl.
Qed.

Section Refinement.
Context (k : string) (wf : float).
Implicit Types (s : SlidingWindowLimiter) (log : list float).

Definition window_of s : list float := default [] (dict_get k (sw_windows s)).

(** The object holds enough of the log: at every later cutoff the same units
    count. *)
Record represents (log : list float) (last : option float) s : Prop := {
  rep_float : to_float (sw_window_seconds s) = Ok wf;
  rep_sorted : StronglySorted (λ a b, fle a b = true) (log);
  rep_wsorted : StronglySorted (λ a b, fle a b = true) (window_of s);
  rep_window :
    match last with
    | None => log = [] ∧ window_of s = []
    | Some n =>
        Forall (λ t, fle t n = true) log ∧
        ∀ cut, fle (fsub n wf) cut = true →
          filter (λ t, negb (flt t cut) = true) (window_of s)
          = filter (λ t, negb (flt t cut) = true) log
    end
}.

Lemma represents_kept log last s n :
  represents log last s → (∀ m, last = Some m → clock_le wf m n) →
  Forall (λ t, fle t n = true) log ∧
  pop_expired (NFloat (fsub n wf)) (window_of s)
  = filter (λ t, negb (flt t (fsub n wf)) = true) log.
Proof.
  intros [_ _ Hws Hwin] Hle. rewrite pop_expired_filter by done.
  destruct last as [m|]; [|by destruct Hwin as [-> ->]].
  destruct Hwin as [Hbef Hwin]. destruct (Hle m) as [Hn Hcut]; [done|].
  split; [|by apply Hwin]. eapply Forall_impl; [exact Hbef|].
  intros t Ht. exact (fle_trans _ _ _ Ht Hn).
Qed.

Lemma sw_prune_spec s n cut :
  num_sub (NFloat n) (sw_window_seconds s) = Ok cut →
  ∃ s1, sw_prune k n s = (Ok tt, s1) ∧
    dict_get k (sw_windows s1) = Some (pop_expired cut (window_of s)) ∧
    sw_limit s1 = sw_limit s ∧ sw_window_seconds s1 = sw_window_seconds s.
Proof.
  intros Hsub.
  unfold sw_prune, sw_window_at, mbind, SE_bind, se_get, se_lift, se_modify, window_of.
  destruct (dict_get k (sw_windows s)) as [l|] eqn:E; simpl; rewrite Hsub;
    (eexists; split; [done|]); simpl; by rewrite dict_get_set_eq.
Qed.

(** What [check] leaves behind represents the extended log. *)
Lemma represents_after log n s kept new :
  to_float (sw_window_seconds s) = Ok wf →
  StronglySorted (λ a b, fle a b = true) log → is_nan n = false →
  Forall (λ t, fle t n = true) log →
  kept = filter (λ t, negb (flt t (fsub n wf)) = true) log →
  window_of s = kept ++ replicate new n →
  represents (log ++ replicate new n) (Some n) s.
Proof.
  intros Hw Hs Hn Hlog -> Hwin.
  assert (Forall (λ t, fle t n = true) (replicate new n)) as Hrep.
  { apply Forall_replicate. by apply fle_refl. }
  split; [done|by apply sorted_app_replicate| |].
  - rewrite Hwin. apply sorted_app_replicate; [done| |by apply Forall_filter_of].
    by apply StronglySorted_filter.
  - split; [by apply Forall_app|]. intros cut Hcut.
    rewrite Hwin, !filter_app. f_equal. by apply filter_window_mono.
Qed.

Lemma sw_check_spec log last s cost c :
  represents log last s → 0 <= cost →
  is_nan (now c) = false →
  (∀ n, last = Some n → clock_le wf n (now c)) →
  let w := sw_window_seconds s in
  let ok := units_in_window w (now c) log + cost <=? sw_limit s in
  let log' := if ok then log ++ replicate (Z.to_nat cost) (now c) else log in
  ∃ d s', sw_check k cost c s = (Ok d, s') ∧ allowed d = ok ∧
    sw_limit s' = sw_limit s ∧ sw_window_seconds s' = w ∧
    represents log' (Some (now c)) s'.
Proof.
  intros Hrep Hcost Hnan Hle w ok log'.
  destruct (represents_kept _ _ _ _ Hrep Hle) as [Hlog Hpop].
  destruct Hrep as [Hw Hs Hws _].
  set (kept := filter (λ t, negb (flt t (fsub (now c) wf)) = true) log) in *.
  assert (units_in_window w (now c) log = zlen kept) as Hunits.
  { by apply units_in_window_cutoff. }
  destruct (sw_prune_spec s (now c) (NFloat (fsub (now c) wf))) as (s1 & Hp & Hg & Hl1 & Hw1).
  { unfold num_sub, num_lift. simpl. by rewrite Hw. }
  rewrite Hpop in Hg.
  assert (∀ f, num_add (NFloat f) (sw_window_seconds s1) = Ok (NFloat (fadd f wf))) as Hadd.
  { intros f. unfold num_add, num_lift. simpl. by rewrite Hw1, Hw. }
  unfold sw_check. rewrite (se_bind_Ok _ _ _ _ _ Hp).
  unfold sw_window_at, mbind, SE_bind, se_get, se_lift, se_modify, mret, SE_ret.
  rewrite Hg, Hl1, <- Hunits. fold ok. unfold log'. destruct ok; simpl; rewrite Hadd; simpl;
    do 2 eexists; (split; [done|]); simpl; (do 3 (split; [done|])).
  - apply (represents_after _ _ _ kept); [simpl; by rewrite Hw1|done..|].
    unfold window_of; simpl. by rewrite dict_get_set_eq.
  - rewrite <- (app_nil_r log). change [] with (replicate 0 (now c)).
    apply (represents_after _ _ _ kept); [by rewrite Hw1|done..|].
    unfold window_of; simpl. by rewrite Hg, app_nil_r.
Qed.

Lemma run_spec reqs log last s :
  represents log last s → Forall (λ r, 0 <= r.1) reqs → clock_ok wf reqs →
  (∀ n, last = Some n → Forall (λ r, clock_le wf n (now r.2)) reqs) →
  ∃ ds s', run k reqs s = (Ok ds, s') ∧
    (allowed <$> ds, log ++ admitted reqs ds)
    = log_run (sw_limit s) (sw_window_seconds s) log reqs.
Proof.
  revert log last s. induction reqs as [|[cost c] reqs IH]; intros log last s Hrep Hcost Hclk Hlast.
  { exists [], s. split; [done|]. simpl. by rewrite app_nil_r. }
  apply Forall_cons in Hcost as [Hc Hcost].
  destruct Hclk as [Hsort Hnan]. csimpl in *.
  apply Forall_cons in Hnan as [Hn Hnan].
  inversion Hsort as [|?? Hsort' Hnext]; subst.
  destruct (sw_check_spec log last s cost c) as (d & s1 & Hck & Hd & Hl & Hw & Hrep1); try done.
  { intros n ->. specialize (Hlast n eq_refl). by apply Forall_cons in Hlast as [? _]. }
  destruct (IH _ _ _ Hrep1) as (ds & s2 & Hrun & Hres); try done.
  { intros n [= <-]. by rewrite Forall_fmap in Hnext. }
  exists (d :: ds), s2. split.
  - simpl. rewrite (se_bind_Ok _ _ _ _ _ Hck). by rewrite (se_bind_Ok _ _ _ _ _ Hrun).
  - rewrite Hl, Hw in Hres. csimpl. rewrite <- Hres, <- Hd. f_equal.
    destruct (allowed d); simpl; by rewrite <- ?app_assoc.
Qed.
End Refinement.

(** A limiter that has no entry for the key represents the empty log. *)
Lemma represents_fresh k wf s :
  to_float (sw_window_seconds s) = Ok wf → dict_get k (sw_windows s) = None →
  represents k wf [] None s.
Proof.
  intros Hw Hk. split; [done|constructor|..]; unfold window_of; rewrite Hk; simpl; [constructor|done].
Qed.

Lemma units_in_window_app w n l l' :
  units_in_window w n (l ++ l') <= units_in_window w n l + zlen l'.
Proof.
  unfold units_in_window. rewrite filter_app, zlen_app. unfold zlen.
  pose proof (length_filter (λ t, in_window w n t = true) l'). lia.
Qed.

(** At a later time no more units count. *)
Lemma units_in_window_later w wf n n' l :
  to_float w = Ok wf → clock_le wf n n' → units_in_window w n' l <= units_in_window w n l.
Proof.
  intros Hw [_ Hcut]. rewrite !(units_in_window_cutoff _ wf) by done.
  rewrite <- (filter_window_mono _ _ _ Hcut). unfold zlen. apply inj_le, length_filter.
Qed.

Lemma log_run_snoc lim w log reqs cost c :
  (log_run lim w log (reqs ++ [(cost, c)])).2
  = let L := (log_run lim w log reqs).2 in
    if units_in_window w (now c) L + cost <=? lim
    then L ++ replicate (Z.to_nat cost) (now c) else L.
Proof.
  revert log. induction reqs as [|[cost' c'] reqs IH]; intros log; simpl; [done|].
  specialize (IH (if units_in_window w (now c') log + cost' <=? lim
                  then log ++ replicate (Z.to_nat cost') (now c') else log)).
  destruct (log_run _ _ _ (reqs ++ _)), (log_run _ _ _ reqs). exact IH.
Qed.

Lemma log_step_bound lim w n L cost :
  0 <= cost → units_in_window w n L <= lim →
  units_in_window w n (if units_in_window w n L + cost <=? lim
                       then L ++ replicate (Z.to_nat cost) n else L) <= lim.
Proof.
  intros Hc HL. destruct (_ <=? _) eqn:E; [|done]. bool_to_prop.
  pose proof (units_in_window_app w n L (replicate (Z.to_nat cost) n)).
  rewrite zlen_replicate in *; lia.
Qed.

(** In the reference limiter the units of a window never exceed the limit. *)
Lemma log_run_bound lim w wf reqs n :
  to_float w = Ok wf → 0 <= lim → Forall (λ r, 0 <= r.1) reqs → clock_ok wf reqs →
  Forall (λ r, clock_le wf (now r.2) n) reqs →
  units_in_window w n (log_run lim w [] reqs).2 <= lim.
Proof.
  intros Hw Hlim. revert n. induction reqs as [|[cost c] reqs IH] using rev_ind;
    intros n Hc [Hs Hnan] Hn; [done|].
  apply Forall_app in Hc as [Hc Hc1], Hn as [_ Hn1], Hnan as [Hnan _].
  rewrite Forall_singleton in Hc1, Hn1. rewrite fmap_app in Hs.
  apply StronglySorted_app_inv in Hs as (Hs & _ & Hlast).
  rewrite log_run_snoc. etrans; [apply (units_in_window_later _ wf (now c)); [exact Hw|exact Hn1]|].
  apply log_step_bound; [done|]. apply IH; [done|by split|].
  apply Forall_forall. intros r Hr. apply Hlast; [by apply (list_elem_of_fmap_2 (λ r, now r.2))|by constructor].
Qed.

(** [SlidingWindowLimiter.check] implements the reference limiter: as long as
    the clock does not run backwards, the decisions for a key are exactly
    those of counting, in the complete history of admitted units, the ones that
    are not older than the window.  No call raises. *)
Theorem sliding_window_refines (k : string) (s : SlidingWindowLimiter) (wf : float)
    (reqs : list request) :
  to_float (sw_window_seconds s) = Ok wf →
  dict_get k (sw_windows s) = None →
  Forall (λ r, 0 <= r.1) reqs → clock_ok wf reqs →
  ∃ ds s', run k reqs s = (Ok ds, s') ∧
    allowed <$> ds = (log_run (sw_limit s) (sw_window_seconds s) [] reqs).1 ∧
    admitted reqs ds = (log_run (sw_limit s) (sw_window_seconds s) [] reqs).2.
Proof.
  intros Hw Hk Hc Hclk.
  destruct (run_spec k wf reqs [] None s) as (ds & s' & Hrun & Hres); [|done..|].
  { by apply represents_fresh. }
  exists ds, s'. rewrite <- Hres. done.
Qed.

Definition clk (t : Z) : Clock := MkClock (float_of_Z t) (float_of_Z t).
Definition sw_example : SlidingWindowLimiter := MkSlidingWindow 2 (NInt 10) (NInt 1) [].
Definition sw_requests : list request := [(1, clk 0); (1, clk 5); (1, clk 6); (1, clk 11)].

Lemma sliding_window_refines_witness :
  ∃ ds s', run "k" sw_requests sw_example = (Ok ds, s') ∧
    allowed <$> ds = [true; true; false; true] ∧ length (admitted sw_requests ds) = 3%nat.
Proof.
  destruct (sliding_window_refines "k" sw_example (float_of_Z 10) sw_requests)
    as (ds & s' & H1 & H2 & H3).
  - reflexivity.
  - reflexivity.
  - repeat constructor; simpl; lia.
  - split; repeat constructor.
  - exists ds, s'. split; [exact H1|]. rewrite H2, H3. split; vm_compute; reflexivity.
Defined.

(** However the requests come, at the time of any of them at most [limit]
    units admitted by the limiter lie within the window. *)
Theorem sliding_window_bound (k : string) (s : SlidingWindowLimiter) (wf : float)
    (reqs : list request) (cost : Z) (c : Clock) :
  to_float (sw_window_seconds s) = Ok wf → 0 <= sw_limit s →
  dict_get k (sw_windows s) = None →
  Forall (λ r, 0 <= r.1) (reqs ++ [(cost, c)]) → clock_ok wf (reqs ++ [(cost, c)]) →
  ∃ ds s', run k (reqs ++ [(cost, c)]) s = (Ok ds, s') ∧
    units_in_window (sw_window_seconds s) (now c) (admitted (reqs ++ [(cost, c)]) ds) <= sw_limit s.
Proof.
  intros Hw Hlim Hk Hc Hclk.
  destruct (run_spec k wf (reqs ++ [(cost, c)]) [] None s) as (ds & s' & Hrun & Hres); [|done..|].
  { by apply represents_fresh. }
  exists ds, s'. split; [done|]. apply (f_equal snd) in Hres. simpl in Hres. rewrite Hres.
  destruct Hclk as [Hs Hnan]. apply Forall_app in Hc as [Hc Hc1], Hnan as [Hnan _].
  rewrite Forall_singleton in Hc1. rewrite fmap_app in Hs.
  apply StronglySorted_app_inv in Hs as (Hs & _ & Hlast).
  rewrite log_run_snoc. apply log_step_bound; [done|]. apply (log_run_bound _ _ wf); [done..|by split|].
  apply Forall_forall. intros r Hr. apply Hlast; [by apply (list_elem_of_fmap_2 (λ r, now r.2))|by constructor].
Qed.

Lemma sliding_window_bound_witness :
  ∃ ds s', run "k" (sw_requests ++ [(1, clk 12)]) sw_example = (Ok ds, s') ∧
    units_in_window (NInt 10) (now (clk 12)) (admitted (sw_requests ++ [(1, clk 12)]) ds) <= 2.
Proof.
  apply (sliding_window_bound "k" sw_example (float_of_Z 10) sw_requests 1 (clk 12)).
  - reflexivity.
  - simpl; lia.
  - reflexivity.
  - repeat constructor; simpl; lia.
  - split; repeat constructor.
Defined.
End SlidingWindow.

Module FixedWindow.

(** The cost admitted so far in bucket [b]. *)
Definition spent (b : Z) (log : list (Z * Z)) : Z :=
  foldr (λ p acc, (if decide (p.1 = b) then p.2 else 0) + acc) 0 log.

(** The reference limiter keeps every admitted (bucket, cost). *)
Fixpoint log_run (lim : Z) (log : list (Z * Z)) (reqs : list (Z * Z)) : list bool * list (Z * Z) :=
  match reqs with
  | [] => ([], log)
  | (b, cost) :: reqs' =>
      let ok := spent b log + cost <=? lim in
      let '(oks, final) := log_run lim (if ok then (b, cost) :: log else log) reqs' in
      (ok :: oks, final)
  end.

(** The bucket of a clock reading, when neither it nor the reset time
    overflows. *)
Definition clock_bucket (w : num) (c : Clock) (b : Z) : Prop :=
  fw_bucket (now c) w = Ok b ∧
  is_ok (try r <- num_mul (NInt (b + 1)) w in num_sub r (NFloat (now c)))%py = true.

Lemma spent_above b log :
  Forall (λ p, p.1 < b) log → spent b log = 0.
Proof.
  unfold spent. induction 1 as [|p log Hp _ IH]; simpl; [done|].
  rewrite decide_False by lia. lia.
Qed.

Section Refinement.
Context (k : string).
Implicit Types (s : FixedWindowLimiter) (log : list (Z * Z)).

(** The object holds the cost spent in the latest bucket it has seen. *)
Definition represents log s : Prop :=
  match default [] (dict_get k (fw_counts s)) with
  | [] => log = []
  | [(b, used)] => used = spent b log ∧ Forall (λ p, p.1 <= b) log
  | _ => False
  end.

Definition buckets_from s b : Prop :=
  ∀ p, p ∈ default [] (dict_get k (fw_counts s)) → p.1 <= b.

Lemma fw_counts_at_spec s :
  ∃ s1, fw_counts_at k s = (Ok (default [] (dict_get k (fw_counts s))), s1) ∧
    fw_limit s1 = fw_limit s ∧ fw_window_seconds s1 = fw_window_seconds s.
Proof. unfold fw_counts_at. destruct (dict_get k (fw_counts s)); eauto. Qed.

(** The entry that [check] looks up or creates. *)
Lemma represents_current log s b :
  represents log s → buckets_from s b →
  let counts := default [] (dict_get k (fw_counts s)) in
  (if dict_mem b counts then counts else [(b, 0)]) = [(b, spent b log)] ∧
  Forall (λ p, p.1 <= b) log.
Proof.
  unfold represents, buckets_from. intros Hrep Hb.
  destruct (default [] (dict_get k (fw_counts s))) as [|[b' used] [|]] eqn:E; simpl in *; try done.
  { subst. done. }
  destruct Hrep as [-> Hle]. specialize (Hb _ (proj2 (list_elem_of_singleton _ _) eq_refl)). simpl in Hb.
  unfold dict_mem; simpl. case_decide as Hbb.
  - subst. done.
  - split; [|eapply Forall_impl; [exact Hle|]; simpl; lia].
    rewrite spent_above; [done|]. eapply Forall_impl; [exact Hle|]. simpl. lia.
Qed.

Lemma fw_check_spec log s cost c b :
  represents log s → buckets_from s b → 0 <= cost →
  clock_bucket (fw_window_seconds s) c b →
  let ok := spent b log + cost <=? fw_limit s in
  ∃ d s', fw_check k cost c s = (Ok d, s') ∧ allowed d = ok ∧
    fw_limit s' = fw_limit s ∧ fw_window_seconds s' = fw_window_seconds s ∧
    represents (if ok then (b, cost) :: log else log) s' ∧
    dict_keys (default [] (dict_get k (fw_counts s'))) = [b].
Proof.
  intros Hrep Hb Hcost [Hbk Hok] ok.
  destruct (represents_current _ _ _ Hrep Hb) as [Hcur Hle].
  destruct (num_mul (NInt (b + 1)) (fw_window_seconds s)) as [r|e] eqn:Hr; [|done].
  destruct (num_sub r (NFloat (now c))) as [w|e] eqn:Hw; [|done].
  destruct (fw_counts_at_spec s) as (s1 & Hat & Hl & Hws).
  unfold fw_check. rewrite (se_bind_Ok _ _ s s s) by done.
  rewrite (se_bind_Ok _ _ s b s) by (unfold se_lift; by rewrite Hbk).
  rewrite (se_bind_Ok _ _ _ _ _ Hat). cbv zeta. rewrite Hcur.
  unfold mbind, SE_bind, se_lift, se_modify, mret, SE_ret. simpl.
  rewrite decide_True by done. simpl. fold ok. destruct ok; simpl; rewrite Hr, ?Hw;
    do 2 eexists; (split; [done|]); simpl; (do 3 (split; [done|]));
    unfold represents; simpl; rewrite !dict_get_set_eq; simpl.
  - rewrite decide_True by done. split; [split|done]; [|by constructor].
    simpl. rewrite decide_True by done. lia.
  - done.
Qed.

Lemma fw_run_spec reqs bs log s :
  represents log s → Forall (λ r, 0 <= r.1) reqs →
  Forall2 (λ r b, clock_bucket (fw_window_seconds s) r.2 b) reqs bs →
  StronglySorted Z.le bs → Forall (buckets_from s) bs →
  ∃ ds s', run k reqs s = (Ok ds, s') ∧
    allowed <$> ds = (log_run (fw_limit s) log (zip bs (fst <$> reqs))).1.
Proof.
  intros Hrep Hc Hbs. revert log s Hrep Hbs Hc. revert bs.
  induction reqs as [|[cost c] reqs IH]; intros bs log s Hrep Hbs Hc Hsort Hfrom;
    inversion Hbs as [|? b ? bs' Hb Hbs']; subst.
  { by exists [], s. }
  apply Forall_cons in Hc as [Hc1 Hc], Hfrom as [Hfrom _].
  inversion Hsort as [|?? Hsort' Hmin]; subst.
  destruct (fw_check_spec log s cost c b) as (d & s1 & Hck & Hd & Hl & Hw & Hrep1 & Hkeys); try done.
  destruct (IH bs' _ s1 Hrep1) as (ds & s2 & Hrun & Hres); [by rewrite Hw|done..| |].
  { eapply Forall_impl; [exact Hmin|]. intros b' Hb' p Hp.
    apply (list_elem_of_fmap_2 fst) in Hp. unfold dict_keys in Hkeys. rewrite Hkeys in Hp.
    apply list_elem_of_singleton in Hp. lia. }
  exists (d :: ds), s2. split.
  - simpl. rewrite (se_bind_Ok _ _ _ _ _ Hck). by rewrite (se_bind_Ok _ _ _ _ _ Hrun).
  - csimpl. rewrite Hl in Hres. rewrite Hres, Hd. by destruct (log_run _ _ (zip bs' _)).
Qed.
End Refinement.

(** In the reference limiter no bucket is overspent. *)
Lemma fw_log_run_bound lim log reqs :
  0 <= lim → Forall (λ r, 0 <= r.2) reqs → (∀ b, spent b log <= lim) →
  ∀ b, spent b (log_run lim log reqs).2 <= lim.
Proof.
  intros Hlim Hc. revert log. induction Hc as [|[b cost] reqs Hc _ IH]; intros log Hlog; simpl; [done|].
  assert (∀ b', spent b' (if spent b log + cost <=? lim then (b, cost) :: log else log) <= lim) as Hn.
  { intros b'. destruct (_ <=? _) eqn:E; [|done]. bool_to_prop. simpl. specialize (Hlog b').
    case_decide; subst; simpl in *; lia. }
  specialize (IH _ Hn). by destruct (log_run _ _ reqs).
Qed.

(** (C31) [FixedWindowLimiter.check] implements the reference limiter: from a limiter
    without an entry for the key, with a limit and costs that are not negative,
    over requests whose clock readings fall into buckets (finite, with a window
    that can be divided by) that do not decrease, no call raises, a request is
    admitted exactly when the cost already admitted in its bucket leaves room for
    it, and so no bucket ever admits more than [limit]. *)
Theorem fixed_window_refines (k : string) (s : FixedWindowLimiter)
    (reqs : list request) (bs : list Z) :
  dict_get k (fw_counts s) = None → 0 <= fw_limit s →
  Forall (λ r, 0 <= r.1) reqs →
  Forall2 (λ r b, clock_bucket (fw_window_seconds s) r.2 b) reqs bs →
  StronglySorted Z.le bs →
  let ref := log_run (fw_limit s) [] (zip bs (fst <$> reqs)) in
  ∃ ds s', run k reqs s = (Ok ds, s') ∧ allowed <$> ds = ref.1 ∧
    ∀ b, spent b ref.2 <= fw_limit s.
Proof.
  intros Hk Hlim Hc Hbs Hsort ref.
  destruct (fw_run_spec k reqs bs [] s) as (ds & s' & Hrun & Hres); [|done..| |].
  { unfold represents. by rewrite Hk. }
  { apply Forall_forall. intros b _ p. rewrite Hk. simpl. intros []%elem_of_nil. }
  exists ds, s'. split; [done|]. split; [done|]. apply fw_log_run_bound; [done| |done].
  apply Forall_forall. intros [b cost] Hin. apply elem_of_zip_r in Hin.
  rewrite Forall_forall in Hc. apply list_elem_of_fmap in Hin as ([cost' c] & -> & Hin).
  by apply (Hc (cost', c)).
Qed.

Definition fw_clock (t : Z) : Clock := MkClock (float_of_Z t) (float_of_Z t).
Definition fw_requests : list request := [(1, fw_clock 3); (1, fw_clock 5); (1, fw_clock 9); (1, fw_clock 10)].

Lemma fixed_window_refines_witness :
  ∃ ds s', run "k" fw_requests (MkFixedWindow 2 (NInt 10) []) = (Ok ds, s') ∧
    allowed <$> ds = [true; true; false; true].
Proof.
  destruct (fixed_window_refines "k" (MkFixedWindow 2 (NInt 10) []) fw_requests [0; 0; 0; 1])
    as (ds & s' & H1 & H2 & H3).
  - reflexivity.
  - simpl; lia.
  - repeat constructor; simpl; lia.
  - repeat constructor; vm_compute; reflexivity.
  - repeat constructor; lia.
  - exists ds, s'. split; [exact H1|]. rewrite H2. vm_compute. reflexivity.
Defined.
End FixedWindow.

Module LeakyBucket.

(** The calls a client can make on one limiter. *)
Inductive call :=
| Check (k : string) (cost : Z) (c : Clock)
| Status (k : string) (c : Clock)
| Reset (k : string).

(** The state after a call, whether it returned or raised. *)
Definition after (x : call) (s : LeakyBucketLimiter) : LeakyBucketLimiter :=
  match x with
  | Check k cost c => (check k cost c s).2
  | Status k c => (status k c s).2
  | Reset k => reset k s
  end.

Definition bounded (cap : Z) (s : LeakyBucketLimiter) : Prop :=
  lb_capacity s = cap ∧ Forall (λ p, zlen p.2 <= cap) (lb_queues s).

Section Bounded.
Context (cap : Z) (Hcap : 0 <= cap).

Lemma bounded_set_queue k q s :
  bounded cap s → zlen q <= cap → bounded cap (lb_set_queue k q s).
Proof. intros [Hc Hq] Hl. split; [done|]. by apply dict_set_Forall. Qed.

Lemma bounded_set_drip k t s : bounded cap s → bounded cap (lb_set_drip k t s).
Proof. done. Qed.

Lemma queue_at_spec k s :
  bounded cap s →
  ∃ q s1, lb_queue_at k s = (Ok q, s1) ∧ zlen q <= cap ∧ bounded cap s1 ∧ lb_rate s1 = lb_rate s.
Proof.
  intros Hs. unfold lb_queue_at. destruct (dict_get k (lb_queues s)) as [q|] eqn:E.
  - exists q, s. split; [done|]. split; [|done]. destruct Hs as [_ Hq].
    rewrite Forall_forall in Hq. by apply (Hq (k, q)), dict_get_elem_of.
  - exists [], (lb_set_queue k [] s). split; [done|]. split; [done|].
    split; [by apply bounded_set_queue|done].
Qed.

Lemma drip_at_inv k c : se_inv (bounded cap) (lb_drip_at k c).
Proof. intros s Hs. unfold lb_drip_at. by destruct (dict_get k (lb_last_drip s)). Qed.

Lemma drain_inv k c : se_inv (bounded cap) (lb_drain k c).
Proof.
  intros s Hs. destruct (queue_at_spec k s Hs) as (q & s1 & Hq & Hl & Hs1 & _).
  unfold lb_drain. rewrite (se_bind_Ok _ _ _ _ _ Hq). revert s1 Hs1 Hq.
  intros s1 Hs1 _. revert s1 Hs1. apply se_inv_bind; [apply drip_at_inv|]. intros t.
  apply se_inv_bind; [by intros s1 Hs1|]. intros s1. apply se_inv_bind; [apply se_inv_lift|]. intros d.
  apply se_inv_bind; [apply se_inv_lift|]. intros n. destruct (n <=? 0); [apply se_inv_ret|].
  apply se_inv_bind; [|by intros ? s2 Hs2]. intros s2 Hs2. apply bounded_set_queue; [done|].
  unfold zlen in *. rewrite length_drop. lia.
Qed.

Lemma check_inv k cost c : se_inv (bounded cap) (lb_check k cost c).
Proof.
  unfold lb_check. apply se_inv_bind; [apply drain_inv|]. intros _ s Hs.
  destruct (queue_at_spec k s Hs) as (q & s1 & Hq & Hl & Hs1 & _).
  rewrite (se_bind_Ok _ _ _ _ _ Hq). rewrite (se_bind_Ok _ _ s1 s1 s1) by done.
  destruct (zlen q + cost <=? lb_capacity s1) eqn:E.
  - apply se_inv_bind; [|by intros []; apply se_inv_bind; [apply se_inv_lift|intros; apply se_inv_ret]|done].
    bool_to_prop. intros s2 Hs2. apply bounded_set_queue; [done|].
    destruct Hs1 as [Hc _]. rewrite zlen_app. unfold zlen at 2. rewrite length_replicate. lia.
  - apply se_inv_bind; [apply se_inv_lift|intros; apply se_inv_ret|done].
Qed.

Lemma status_inv k c : se_inv (bounded cap) (lb_status k c).
Proof.
  unfold lb_status. apply se_inv_bind; [apply drain_inv|]. intros _ s Hs.
  destruct (queue_at_spec k s Hs) as (q & s1 & Hq & _ & Hs1 & _).
  by rewrite (se_bind_Ok _ _ _ _ _ Hq).
Qed.

Lemma reset_inv k s : bounded cap s → bounded cap (lb_reset k s).
Proof.
  intros [Hc Hq]. split; [done|]. by apply dict_pop_Forall.
Qed.

Lemma after_bounded xs s : bounded cap s → bounded cap (foldl (flip after) s xs).
Proof.
  revert s. induction xs as [|x xs IH]; intros s Hs; simpl; [done|]. apply IH.
  destruct x; simpl; [by apply check_inv|by apply status_inv|by apply reset_inv].
Qed.
End Bounded.

(** (C39) Whatever calls were made before, and whichever of them raised, no queue of
    a [LeakyBucketLimiter] whose capacity is not negative is longer than its
    capacity, and an admitted request whose cost is not negative reports as
    remaining the capacity that its queue leaves, between 0 and the capacity
    less the cost. *)
Theorem leaky_bucket_bounded (rate : num) (cap : Z) (xs : list call)
    (k : string) (cost : Z) (c : Clock) :
  0 <= cap → 0 <= cost →
  let s := foldl (flip after) (MkLeakyBucket rate cap [] []) xs in
  (∀ k' q, dict_get k' (lb_queues s) = Some q → zlen q <= cap) ∧
  ∀ d s', check k cost c s = (Ok d, s') → allowed d = true →
    0 <= remaining d <= cap - cost ∧
    ∃ q, dict_get k (lb_queues s') = Some q ∧ remaining d = cap - zlen q.
Proof.
  intros Hcap Hcost s.
  assert (bounded cap s) as Hs by (by apply after_bounded).
  split.
  { intros k' q Hq. destruct Hs as [_ Hs]. rewrite Forall_forall in Hs.
    by apply (Hs (k', q)), dict_get_elem_of. }
  intros d s' Hck Hd. simpl in Hck. unfold lb_check in Hck.
  apply se_bind_inv in Hck as (u & s1 & Hdr & Hck).
  assert (bounded cap s1) as Hs1.
  { pose proof (drain_inv cap Hcap k c s Hs) as Hi. by rewrite Hdr in Hi. }
  destruct (queue_at_spec cap Hcap k s1 Hs1) as (q & s2 & Hq & Hl & Hs2 & _).
  rewrite (se_bind_Ok _ _ _ _ _ Hq) in Hck. rewrite (se_bind_Ok _ _ s2 s2 s2) in Hck by done.
  destruct (zlen q + cost <=? lb_capacity s2) eqn:E.
  - cbv zeta in Hck. rewrite (se_bind_Ok _ _ _ tt _) in Hck by done.
    apply se_bind_inv in Hck as (w & s3 & Hw & Hck).
    injection Hw as Hw <-. injection Hck as <- <-. simpl.
    destruct Hs2 as [Hc _]. bool_to_prop. rewrite Hc in *.
    rewrite zlen_app, zlen_replicate by done. split; [unfold zlen in *; lia|].
    eexists. split; [by rewrite dict_get_set_eq|]. by rewrite zlen_app, zlen_replicate.
  - apply se_bind_inv in Hck as (w & s3 & Hw & Hck). injection Hck as <- _. done.
Qed.

Definition lb_clock (t : Z) : Clock := MkClock (float_of_Z t) (float_of_Z t).

Lemma leaky_bucket_bounded_witness :
  let s := foldl (flip after) (MkLeakyBucket (NInt 1) 2 [] [])
             [Check "k" 1 (lb_clock 0); Check "k" 5 (lb_clock 1)] in
  (∀ k' q, dict_get k' (lb_queues s) = Some q → zlen q <= 2) ∧
  ∃ d s', check "k" 2 (lb_clock 1) s = (Ok d, s') ∧ allowed d = true ∧ 0 <= remaining d <= 2 - 2.
Proof.
  destruct (leaky_bucket_bounded (NInt 1) 2
    [Check "k" 1 (lb_clock 0); Check "k" 5 (lb_clock 1)] "k" 2 (lb_clock 1)) as [H1 H2].
  - lia.
  - lia.
  - split; [exact H1|]. do 2 eexists. split; [vm_compute; reflexivity|].
    split; [reflexivity|]. simpl. lia.
Defined.
End LeakyBucket.

Module TokenBucket.

Lemma num_le_int_trans a x b :
  num_le (NInt a) x = true → num_le x (NInt b) = true → a <= b.
Proof.
  destruct x as [z|f]; [rewrite !num_le_int_int; lia|].
  unfold num_le; simpl. destruct f as [s|s| |s m e]; simpl; try done.
  - destruct a, b; simpl; try done; lia.
  - by destruct s.
  - destruct (0 <=? e) eqn:He; simpl.
    + destruct (Z.compare_spec a ((if s then Z.neg m else Z.pos m) * 2 ^ e)),
        (Z.compare_spec b ((if s then Z.neg m else Z.pos m) * 2 ^ e)); simpl; try done; lia.
    + bool_to_prop. assert (0 < 2 ^ (- e)) by (apply Z.pow_pos_nonneg; lia).
      destruct (Z.compare_spec (a * 2 ^ (- e)) (if s then Z.neg m else Z.pos m)),
        (Z.compare_spec (b * 2 ^ (- e)) (if s then Z.neg m else Z.pos m)); simpl; try done; nia.
Qed.

Lemma refill_spec k c s tokens s1 :
  tb_refill k c s = (Ok tokens, s1) →
  num_le tokens (NInt (tb_burst s)) = true ∧
  tb_burst s1 = tb_burst s ∧ tb_rate s1 = tb_rate s ∧
  dict_get k (tb_tokens s1) = Some tokens ∧ dict_get k (tb_updated s1) = Some (now c).
Proof.
  unfold tb_refill. intros H.
  apply se_bind_inv in H as (t & s2 & Ht & H).
  assert (tb_burst s2 = tb_burst s ∧ tb_rate s2 = tb_rate s) as [Hb Hr].
  { unfold tb_tokens_at in Ht. destruct (dict_get k (tb_tokens s)); [by simplify_eq|].
    destruct (to_float _); by simplify_eq. }
  apply se_bind_inv in H as (u & s3 & Hu & H).
  assert (tb_burst s3 = tb_burst s2 ∧ tb_rate s3 = tb_rate s2) as [Hb' Hr'].
  { unfold tb_updated_at in Hu. destruct (dict_get k (tb_updated s2)); by simplify_eq. }
  rewrite (se_bind_Ok _ _ s3 s3 s3) in H by done.
  apply se_bind_inv in H as (g & s4 & Hg & H). injection Hg as _ <-.
  apply se_bind_inv in H as (v & s4 & Hv & H). injection Hv as _ <-.
  injection H as <- <-. rewrite <- Hb, <- Hb'. split; [apply num_min_le_int|].
  simpl. rewrite !dict_get_set_eq. by rewrite Hr', Hr.
Qed.

(** A decision of the token bucket: the refilled bucket never holds more than
    [burst]; the request is granted exactly when the bucket holds its cost, which
    is then taken out; a refused request leaves the bucket as refilled.  In
    particular no request above [burst] is ever granted. *)
Theorem token_bucket_outcome (k : string) (cost : Z) (c : Clock)
    (s s' : TokenBucketLimiter) (d : RateLimitDecision) :
  check k cost c s = (Ok d, s') →
  ∃ tokens,
    num_le tokens (NInt (tb_burst s)) = true ∧
    allowed d = num_le (NInt cost) tokens ∧
    dict_get k (tb_updated s') = Some (now c) ∧
    (if allowed d
     then cost <= tb_burst s ∧
       ∃ rest, num_sub tokens (NInt cost) = Ok rest ∧ dict_get k (tb_tokens s') = Some rest ∧
         (0 <= tb_burst s → remaining d <= tb_burst s)
     else dict_get k (tb_tokens s') = Some tokens ∧ remaining d = 0).
Proof.
  simpl. unfold tb_check. intros H.
  apply se_bind_inv in H as (tokens & s1 & Href & H).
  destruct (refill_spec _ _ _ _ _ Href) as (Hle & Hb & Hr & Ht & Hu).
  rewrite (se_bind_Ok _ _ s1 s1 s1) in H by done. cbv zeta in H.
  exists tokens. split; [done|].
  destruct (num_le (NInt cost) tokens) eqn:E; se_steps H;
    repeat match goal with E : se_lift _ _ = _ |- _ => injection E as ? <- end;
    injection H as <- <-; simpl.
  - match goal with E : se_modify _ _ = _ |- _ => injection E as <- <- end.
    split; [done|]. split; [done|]. split; [by eapply num_le_int_trans|].
    eexists. split; [done|]. simpl. rewrite dict_get_set_eq. split; [done|]. intros Hpos.
    eapply num_int_le; [|done|done]. rewrite Hb. apply num_min_le_int.
  - done.
Qed.

Definition tick (now later : float) : Clock := MkClock now later.

(** Two clock readings one float apart. *)
Definition t0 : float := float_of_Z 1700000000.
Definition t1 : float :=
  fadd t0 (SpecFloat.S754_finite false (2 ^ 52)%positive (-74)).

Lemma token_bucket_outcome_witness :
  ∃ d s', check "k" 1 (tick t0 t0) (MkTokenBucket (NInt 2) 3 None [] []) = (Ok d, s') ∧
    allowed d = true ∧ remaining d = 2 ∧ 1 <= 3.
Proof.
  destruct (check "k" 1 (tick t0 t0) (MkTokenBucket (NInt 2) 3 None [] [])) as [[d|e] s'] eqn:E;
    [|vm_compute in E; discriminate E].
  exists d, s'. split; [reflexivity|].
  destruct (token_bucket_outcome _ _ _ _ _ _ E) as (tokens & _ & _ & _ & H).
  assert (allowed d = true) as Ha by (vm_compute in E; injection E as <- _; reflexivity).
  rewrite Ha in H. destruct H as [Hcost _]. split; [exact Ha|].
  split; [vm_compute in E; injection E as <- _; reflexivity|exact Hcost].
Defined.

(** The time stamp of a new key is read from the clock after [now], so the
    first refill sees a negative elapsed time: when the clock advances in between,
    a fresh bucket of burst 1 refuses the very first request of cost 1, and grants
    it when both readings agree. *)
Theorem token_bucket_first_request :
  let fresh := MkTokenBucket (NFloat (float_of_Z 2)) 1 None [] [] in
  flt t0 t1 = true ∧
  (∃ d s', check "k" 1 (tick t0 t1) fresh = (Ok d, s') ∧ allowed d = false) ∧
  (∃ d s', check "k" 1 (tick t0 t0) fresh = (Ok d, s') ∧ allowed d = true).
Proof.
  split; [by vm_compute|]. split; do 2 eexists; (split; [vm_compute; reflexivity|]); done.
Qed.
End TokenBucket.

Module Registry.

Inductive call :=
| SetPolicy (k : string) (st : option string) (lim : option Z) (w : option num) (o : Overrides)
| Check (k : string) (cost : Z) (c : Clock)
| Enforce (k : string) (cost : Z) (c : Clock)
| Status (k : string) (c : Clock)
| Reset (k : string).

Definition call_key (x : call) : string :=
  match x with
  | SetPolicy k _ _ _ _ | Check k _ _ | Enforce k _ _ | Status k _ | Reset k => k
  end.

Definition after (x : call) (s : RateLimiter) : RateLimiter :=
  match x with
  | SetPolicy k st lim w o => set_policy k st lim w o s
  | Check k cost c => (rl_check k cost c s).2
  | Enforce k cost c => (rl_enforce k cost c s).2
  | Status k c => (rl_status k c s).2
  | Reset k => rl_reset k s
  end.

(** The two registries agree on what concerns [k]. *)
Definition same_at (k : string) (s s' : RateLimiter) : Prop :=
  rl_config s = rl_config s' ∧
  dict_get k (rl_policies s) = dict_get k (rl_policies s') ∧
  dict_get k (rl_limiters s) = dict_get k (rl_limiters s').

#[local] Instance same_at_equiv k : Equivalence (same_at k).
Proof.
  split; [done|intros ?? (?&?&?); done|intros ??? (?&?&?) (?&?&?)].
  split; [by etrans|]. split; by etrans.
Qed.

Lemma set_limiter_other k k' a s : k' ≠ k → same_at k (set_limiter k' a s) s.
Proof. intros Hne. split; [done|]. split; [done|]. simpl. by apply dict_get_set_ne. Qed.

Lemma limiter_for_other k k' s : k' ≠ k → same_at k (limiter_for k' s).2 s.
Proof.
  intros Hne. unfold limiter_for. destruct (dict_get k' (rl_limiters s)); [done|].
  destruct (build _ _); [by apply set_limiter_other|done].
Qed.

Lemma call_other {A} k k' (m : Arith AnyLimiter A) s :
  k' ≠ k → same_at k ((a ← limiter_for k'; call_limiter k' m a) s).2 s.
Proof.
  intros Hne. pose proof (limiter_for_other k k' s Hne) as Hl.
  unfold mbind, SE_bind. destruct (limiter_for k' s) as [[a|e] s1]; [|done].
  unfold call_limiter. destruct (m a) as [r a']. simpl in *. etrans; [|exact Hl].
  by apply set_limiter_other.
Qed.

Lemma after_other k x s : call_key x ≠ k → same_at k (after x s) s.
Proof.
  intros Hne. destruct x as [k' st lim w o|k' cost c|k' cost c|k' c|k']; simpl in *.
  - split; [done|]. simpl. rewrite dict_get_set_ne, dict_get_pop_ne by done. done.
  - by apply call_other.
  - pose proof (call_other k k' (check k' cost c) s Hne) as Hl.
    unfold rl_enforce, rl_check in *. unfold mbind at 1, SE_bind at 1.
    destruct ((a ← limiter_for k'; call_limiter k' (check k' cost c) a) s) as [[d|e] s1]; [|done].
    by destruct (allowed d).
  - by apply call_other.
  - unfold rl_reset. destruct (dict_get k' (rl_limiters s)); [by apply set_limiter_other|done].
Qed.

Lemma afters_other k xs s :
  Forall (λ x, call_key x ≠ k) xs → same_at k (foldl (flip after) s xs) s.
Proof.
  intros Hxs. revert s. induction Hxs as [|x xs Hx _ IH]; intros s; simpl; [done|].
  etrans; [apply IH|]. by apply after_other.
Qed.

Lemma check_local k cost c s s' :
  same_at k s s' → (rl_check k cost c s).1 = (rl_check k cost c s').1.
Proof.
  intros (Hc & Hp & Hl). unfold rl_check, limiter_for, mbind, SE_bind. rewrite Hl, Hp, Hc.
  destruct (dict_get k (rl_limiters s')) as [a|].
  - unfold call_limiter. by destruct (check k cost c a).
  - destruct (build _ _) as [a|e]; [|done]. unfold call_limiter. by destruct (check k cost c a).
Qed.

(** The keys of a [RateLimiter] are isolated: no sequence of calls for other
    keys (policies, checks, enforcement, status, resets; also calls that raise)
    changes the answer that a check of key [k] gets. *)
Theorem rate_limiter_isolated (k : string) (xs : list call) (s : RateLimiter)
    (cost : Z) (c : Clock) :
  Forall (λ x, call_key x ≠ k) xs →
  (rl_check k cost c (foldl (flip after) s xs)).1 = (rl_check k cost c s).1.
Proof. intros Hxs. by apply check_local, afters_other. Qed.

Definition config : GatewayConfig := MkConfig "fixed_window" 1 30 (NInt 1).
Definition at_zero : Clock := MkClock fzero fzero.

Lemma rate_limiter_isolated_witness :
  (rl_check "a" 1 at_zero (foldl (flip after) (new_rate_limiter config)
     [Check "b" 1 at_zero; Enforce "b" 1 at_zero; Reset "b"])).1
  = (rl_check "a" 1 at_zero (new_rate_limiter config)).1.
Proof. apply rate_limiter_isolated. repeat constructor; simpl; discriminate. Defined.

(** A policy with [limit=0] does not close a token bucket or a leaky bucket:
    [policy.get("limit") or default_burst] takes 0 for a missing value, so the
    limiter is built with the default burst, while the window strategies are
    built with the limit 0. *)
Theorem zero_limit_policy (k : string) (s s' : RateLimiter) (st : string) (a : AnyLimiter) :
  dict_wf (rl_limiters s) →
  limiter_for k (set_policy k (Some st) (Some 0) None no_overrides s) = (Ok a, s') →
  match a with
  | AToken t => tb_burst t = default_burst (rl_config s)
  | ALeaky t => lb_capacity t = default_burst (rl_config s)
  | ASliding t => sw_limit t = 0
  | AFixed t => fw_limit t = 0
  end.
Proof.
  intros Hwf. unfold limiter_for, set_policy; simpl.
  rewrite dict_get_pop_eq, dict_get_set_eq by done. simpl.
  destruct (build _ _) as [b|e] eqn:E; intros H; simplify_eq. revert E.
  unfold build, create_rate_limit_strategy; simpl.
  split_ifs; intros; simplify_eq; try done.
Qed.

Lemma zero_limit_policy_witness :
  ∃ a s', limiter_for "k" (set_policy "k" (Some "token_bucket"%string) (Some 0) None no_overrides
                             (new_rate_limiter config)) = (Ok a, s') ∧
    match a with AToken t => tb_burst t = 30 | _ => False end.
Proof.
  destruct (limiter_for "k" (set_policy "k" (Some "token_bucket"%string) (Some 0) None no_overrides
              (new_rate_limiter config))) as [[a|e] s'] eqn:E; [|vm_compute in E; discriminate E].
  exists a, s'. split; [reflexivity|].
  pose proof (zero_limit_policy "k" (new_rate_limiter config) s' "token_bucket" a
    (NoDup_nil_2) E) as H.
  vm_compute in E. injection E as <- _. exact H.
Defined.
End Registry.
