(* ===== verification/Quota.v ===== *)
(** * Gateway quotas ([app/gateway/quota.py])

    [QuotaManager] counts the usage of each (scope, bucket) against a limit.
    The lock makes every method atomic, so an execution is a sequence of
    calls.  [sorted] of a set does not depend on the set's iteration order. *)

From Stdlib Require Import ZArith Lia.
From stdpp Require Import base numbers strings gmap list.
From S2P Require Import Prelude PyDict.

Open Scope Z_scope.

Definition QUOTA_BUCKET_NAMES : list string :=
  ["requests"; "tokens"; "storage"; "embeddings"; "mcp_calls"]%string.

(** The fields of [GatewayConfig] that hold the default limits. *)
Record QuotaConfig := MkQuotaConfig {
  max_quota_requests : Z;
  max_quota_tokens : Z;
  max_quota_storage : Z;
  max_quota_embeddings : Z;
  max_quota_mcp_calls : Z
}.

(** [BUCKET_KEYS.get(bucket, "max_quota_requests")], as the field it names. *)
Definition bucket_field (bucket : string) : QuotaConfig → Z :=
  default max_quota_requests
    (dict_get bucket
       [("requests", max_quota_requests); ("tokens", max_quota_tokens);
        ("storage", max_quota_storage); ("embeddings", max_quota_embeddings);
        ("mcp_calls", max_quota_mcp_calls)]%string).

Record QuotaConsumption := MkConsumption {
  qc_bucket : string;
  qc_used : Z;
  qc_limit : Z;
  qc_remaining : Z
}.

Inductive QuotaError :=
| QuotaExceededError (bucket : string) (limit used : Z)
| UnknownBucket (bucket : string).

Abbreviation cell := (string * string)%type (only parsing).

Record QuotaManager := MkQuota {
  q_config : QuotaConfig;
  q_usage : dict cell Z;
  q_limits : dict cell Z;
  q_scopes : dict string (gset string)
}.

Definition new_quota (config : QuotaConfig) : QuotaManager := MkQuota config [] [] [].

Definition default_limit (bucket : string) (s : QuotaManager) : Z :=
  bucket_field bucket (q_config s).

(** [self._scopes.setdefault(scope, set()).add(bucket)] *)
Definition note_bucket (scope bucket : string) (d : dict string (gset string))
    : dict string (gset string) :=
  dict_set scope ({[ bucket ]} ∪ default ∅ (dict_get scope d)) d.

Definition set_limit (scope bucket : string) (limit : Z) (s : QuotaManager)
    : result QuotaError QuotaManager :=
  if decide (bucket ∈ QUOTA_BUCKET_NAMES) then
    Ok (MkQuota (q_config s) (q_usage s) (dict_set (scope, bucket) limit (q_limits s))
          (note_bucket scope bucket (q_scopes s)))
  else Err (UnknownBucket bucket).

Definition limit_for (scope bucket : string) (s : QuotaManager) : Z :=
  default (default_limit bucket s) (dict_get (scope, bucket) (q_limits s)).

Definition usage (scope bucket : string) (s : QuotaManager) : Z :=
  default 0 (dict_get (scope, bucket) (q_usage s)).

Definition consumption (scope bucket : string) (s : QuotaManager) : QuotaConsumption :=
  let limit := limit_for scope bucket s in
  let used := usage scope bucket s in
  MkConsumption bucket used limit (Z.max 0 (limit - used)).

Definition set_usage (scope bucket : string) (used : Z) (s : QuotaManager) : QuotaManager :=
  MkQuota (q_config s) (dict_set (scope, bucket) used (q_usage s)) (q_limits s) (q_scopes s).

Definition quota_check (scope bucket : string) (amount : Z) : SE QuotaError QuotaManager QuotaConsumption := λ s,
  let limit := limit_for scope bucket s in
  let used := usage scope bucket s in
  if limit <? used + amount then (Err (QuotaExceededError bucket limit used), s)
  else
    let s' := set_usage scope bucket (used + amount) s in
    (Ok (MkConsumption bucket (used + amount) limit (limit - used - amount)),
     MkQuota (q_config s') (q_usage s') (q_limits s') (note_bucket scope bucket (q_scopes s'))).

Definition try_check (scope bucket : string) (amount : Z) (s : QuotaManager)
    : option QuotaConsumption * QuotaManager :=
  match quota_check scope bucket amount s with
  | (Ok c, s') => (Some c, s')
  | (Err _, s') => (None, s')
  end.

Definition refund (scope bucket : string) (amount : Z) (s : QuotaManager)
    : QuotaConsumption * QuotaManager :=
  let used := Z.max 0 (usage scope bucket s - amount) in
  let s' := set_usage scope bucket used s in
  let limit := limit_for scope bucket s' in
  (MkConsumption bucket used limit (Z.max 0 (limit - used)), s').

Definition quota_reset (scope bucket : option string) (s : QuotaManager) : QuotaManager :=
  let usage :=
    match scope, bucket with
    | None, _ => []
    | Some sc, None => filter (λ p, p.1.1 ≠ sc) (q_usage s)
    | Some sc, Some b => dict_pop (sc, b) (q_usage s)
    end in
  MkQuota (q_config s) usage (q_limits s) (q_scopes s).

Definition scope_buckets (scope : string) (s : QuotaManager) : list string :=
  py_sorted str_lt (elements (default ∅ (dict_get scope (q_scopes s)))).

Definition usage_by_scope (scope : string) (s : QuotaManager) : dict string Z :=
  (λ b, (b, usage scope b s)) <$> scope_buckets scope s.

Definition summary (scope : string) (s : QuotaManager) : string * dict string QuotaConsumption :=
  (scope, (λ b, (b, consumption scope b s)) <$> scope_buckets scope s).

(** ** Behaviour *)

(** The calls that change the manager, apart from [set_limit]. *)
Inductive call :=
| Check (scope bucket : string) (amount : Z)
| TryCheck (scope bucket : string) (amount : Z)
| Refund (scope bucket : string) (amount : Z)
| Reset (scope bucket : option string).

Definition after (x : call) (s : QuotaManager) : QuotaManager :=
  match x with
  | Check sc b n => (quota_check sc b n s).2
  | TryCheck sc b n => (try_check sc b n s).2
  | Refund sc b n => (refund sc b n s).2
  | Reset sc b => quota_reset sc b s
  end.

Definition nonneg (x : call) : Prop :=
  match x with Check _ _ n | TryCheck _ _ n | Refund _ _ n => 0 <= n | Reset _ _ => True end.

Lemma usage_set_usage sc b sc' b' n s :
  usage sc b (set_usage sc' b' n s)
  = if decide ((sc', b') = (sc, b)) then n else usage sc b s.
Proof.
  unfold usage, set_usage; simpl. rewrite dict_get_set. by case_decide.
Qed.

(** [check] admits exactly when the amount fits, charges that cell only, and
    changes nothing when it raises. *)
Lemma quota_check_spec sc b n s :
  let '(r, s') := quota_check sc b n s in
  (∀ sc' b', limit_for sc' b' s' = limit_for sc' b' s) ∧
  if limit_for sc b s <? usage sc b s + n
  then r = Err (QuotaExceededError b (limit_for sc b s) (usage sc b s)) ∧ s' = s
  else r = Ok (MkConsumption b (usage sc b s + n) (limit_for sc b s)
                 (limit_for sc b s - usage sc b s - n)) ∧
    ∀ sc' b', usage sc' b' s'
      = if decide ((sc, b) = (sc', b')) then usage sc b s + n else usage sc' b' s.
Proof.
  unfold quota_check. destruct (_ <? _) eqn:E; split; try done. split; [done|].
  intros sc' b'. apply (usage_set_usage sc' b' sc b).
Qed.

Lemma try_check_after sc b n s : (try_check sc b n s).2 = (quota_check sc b n s).2.
Proof. unfold try_check. by destruct (quota_check sc b n s) as [[] ?]. Qed.

Lemma filter_scope_get sc b sc' (d : dict cell Z) :
  dict_get (sc, b) (filter (λ p, p.1.1 ≠ sc') d)
  = if decide (sc = sc') then None else dict_get (sc, b) d.
Proof.
  induction d as [|[[s1 b1] v] d IH]; [by case_decide|].
  rewrite filter_cons. simpl. repeat case_decide; simplify_eq/=;
    rewrite ?decide_True, ?decide_False by congruence; try done; naive_solver.
Qed.

(** The cells that [reset(scope, bucket)] forgets. *)
Definition covers (x y : option string) (sc b : string) : bool :=
  match x, y with
  | None, _ => true
  | Some sc', None => bool_decide (sc = sc')
  | Some sc', Some b' => bool_decide ((sc', b') = (sc, b))
  end.

Lemma reset_usage sc b x y s :
  dict_wf (q_usage s) →
  usage sc b (quota_reset x y s) = if covers x y sc b then 0 else usage sc b s.
Proof.
  intros Hwf. unfold usage, quota_reset, covers. destruct x as [sc'|], y as [b'|]; simpl; try done.
  - case_bool_decide as E; [rewrite E, dict_get_pop_eq by done; done|].
    by rewrite dict_get_pop_ne.
  - rewrite filter_scope_get. case_bool_decide; by case_decide.
Qed.

Record quota_inv (lim : string → string → Z) (s : QuotaManager) : Prop := {
  qi_wf : dict_wf (q_usage s);
  qi_limit : ∀ sc b, limit_for sc b s = lim sc b;
  qi_usage : ∀ sc b, 0 <= usage sc b s <= lim sc b
}.

Lemma set_usage_inv lim sc b n s :
  quota_inv lim s → 0 <= n <= lim sc b → quota_inv lim (set_usage sc b n s).
Proof.
  intros [Hwf Hlim Hu] Hn. split; [by apply dict_set_wf|done|].
  intros sc' b'. rewrite usage_set_usage. case_decide; [by simplify_eq|done].
Qed.

Lemma quota_check_inv lim sc b n s :
  quota_inv lim s → 0 <= n → quota_inv lim (quota_check sc b n s).2.
Proof.
  intros Hs Hn. unfold quota_check. destruct (_ <? _) eqn:E; [done|]. bool_to_prop.
  rewrite (qi_limit _ _ Hs) in E. pose proof (qi_usage _ _ Hs sc b).
  by destruct (set_usage_inv lim sc b (usage sc b s + n) s Hs ltac:(lia)).
Qed.

Lemma quota_after_inv lim x s :
  (∀ sc b, 0 <= lim sc b) → quota_inv lim s → nonneg x → quota_inv lim (after x s).
Proof.
  intros Hlim Hs Hx. destruct x as [sc b n|sc b n|sc b n|x y]; simpl in *.
  - by apply quota_check_inv.
  - rewrite try_check_after. by apply quota_check_inv.
  - apply set_usage_inv; [done|]. pose proof (qi_usage _ _ Hs sc b). specialize (Hlim sc b). lia.
  - pose proof (qi_wf _ _ Hs) as Hwf. split.
    + destruct x as [sc|], y as [b|]; simpl; try apply NoDup_nil_2; [by apply dict_pop_wf|].
      eapply sublist_NoDup; [exact Hwf|]. by apply fmap_sublist, sublist_filter.
    + intros sc b. apply (qi_limit _ _ Hs).
    + intros sc b. rewrite reset_usage by done. pose proof (qi_usage _ _ Hs sc b).
      specialize (Hlim sc b). destruct (covers x y sc b); lia.
Qed.

Lemma quota_afters_inv lim xs s :
  (∀ sc b, 0 <= lim sc b) → quota_inv lim s → Forall nonneg xs →
  quota_inv lim (foldl (flip after) s xs).
Proof.
  intros Hlim Hs Hxs. revert s Hs. induction Hxs as [|x xs Hx _ IH]; intros s Hs; simpl; [done|].
  by apply IH, quota_after_inv.
Qed.

(** Usage never exceeds the limit: after any sequence of checks, refunds and
    resets with non-negative amounts, started with no usage, every cell's usage
    lies between 0 and its limit. *)
Theorem quota_never_exceeded (s : QuotaManager) (xs : list call) :
  q_usage s = [] → (∀ sc b, 0 <= limit_for sc b s) → Forall nonneg xs →
  ∀ sc b, let s' := foldl (flip after) s xs in
    0 <= usage sc b s' <= limit_for sc b s' ∧ limit_for sc b s' = limit_for sc b s.
Proof.
  intros Hs Hlim Hxs sc b s'.
  destruct (quota_afters_inv (λ sc b, limit_for sc b s) xs s) as [_ Hl Hu]; [done| |done|].
  - split; [rewrite Hs; apply NoDup_nil_2|done|]. intros sc' b'. unfold usage. rewrite Hs. by split.
  - fold s' in Hl, Hu. rewrite Hl. auto.
Qed.

Definition config : QuotaConfig := MkQuotaConfig 5 5 5 5 5.

Lemma quota_never_exceeded_witness :
  let s' := foldl (flip after) (new_quota config)
    [Check "t:c" "requests" 3; TryCheck "t:c" "requests" 3; Refund "t:c" "requests" 1] in
  usage "t:c" "requests" s' = 2 ∧ usage "t:c" "requests" s' <= limit_for "t:c" "requests" s'.
Proof.
  split; [reflexivity|].
  apply (quota_never_exceeded (new_quota config)
    [Check "t:c" "requests" 3; TryCheck "t:c" "requests" 3; Refund "t:c" "requests" 1]).
  - reflexivity.
  - intros sc b. unfold limit_for, default_limit, bucket_field. simpl.
    repeat case_decide; simpl; lia.
  - repeat constructor; simpl; lia.
Defined.

Definition is_check (x : call) : Prop :=
  match x with Check _ _ n | TryCheck _ _ n => 0 <= n | _ => False end.

Lemma checks_grow xs s sc b :
  Forall is_check xs → usage sc b s <= usage sc b (foldl (flip after) s xs).
Proof.
  intros Hxs. revert s. induction Hxs as [|x xs Hx _ IH]; intros s; simpl; [done|].
  etrans; [|apply IH].
  assert (∀ sc' b' n, 0 <= n → usage sc b s <= usage sc b (quota_check sc' b' n s).2) as Hc.
  { intros sc' b' n Hn. pose proof (quota_check_spec sc' b' n s) as Hck.
    destruct (quota_check sc' b' n s) as [r s'], Hck as [_ Hck]. simpl.
    destruct (_ <? _); [by destruct Hck as [_ ->]|]. destruct Hck as [_ ->].
    case_decide; simplify_eq; lia. }
  destruct x; simpl in *; try done; [|rewrite try_check_after]; by apply Hc.
Qed.

(** A refund undoes its check: when a request that was charged fails after
    other requests were charged, refunding it takes back exactly its amount from
    its cell and leaves every other cell as it is. *)
Theorem quota_refund_exact (sc b : string) (n : Z) (s : QuotaManager) (c : QuotaConsumption)
    (s1 : QuotaManager) (xs : list call) :
  quota_check sc b n s = (Ok c, s1) → 0 <= usage sc b s → Forall is_check xs →
  let s2 := foldl (flip after) s1 xs in
  ∀ sc' b', usage sc' b' (refund sc b n s2).2
    = usage sc' b' s2 - if decide ((sc, b) = (sc', b')) then n else 0.
Proof.
  intros Hck Hu Hxs s2 sc' b'.
  pose proof (quota_check_spec sc b n s) as Hs. rewrite Hck in Hs. destruct Hs as [_ Hs].
  destruct (_ <? _) eqn:E; [by destruct Hs|]. destruct Hs as [_ Hs].
  pose proof (checks_grow xs s1 sc b Hxs) as Hg. rewrite Hs, decide_True in Hg by done.
  unfold refund. cbn [snd]. rewrite usage_set_usage. fold s2 in Hg. case_decide; simplify_eq; lia.
Qed.

Lemma quota_refund_exact_witness :
  let s1 := (quota_check "a" "tokens" 2 (new_quota config)).2 in
  let s2 := foldl (flip after) s1 [Check "a" "tokens" 1] in
  usage "a" "tokens" (refund "a" "tokens" 2 s2).2 = 1.
Proof.
  intros s1 s2.
  etrans; [apply (quota_refund_exact "a" "tokens" 2 (new_quota config)
    (MkConsumption "tokens" 2 5 3) s1 [Check "a" "tokens" 1])|].
  - reflexivity.
  - by vm_compute.
  - repeat constructor; simpl; lia.
  - reflexivity.
Defined.
