(* ===== verification/ResponseCache.v ===== *)
(** * Gateway response cache ([app/gateway/cache.py])

    [ResponseCache] maps a key to a response with the time it was stored and
    its time to live.  The response type is left open: the cache only stores
    and returns the object ([Gateway] stores references, because the
    middlewares modify a response after it was cached). *)

From Stdlib Require Import ZArith Lia.
From stdpp Require Import base numbers strings list.
From S2P Require Import Prelude PyFloat PyNum PyDict.
From Stdlib Require String.

Open Scope Z_scope.

Record CacheConfig := MkCacheConfig {
  cache_enabled : bool;
  cache_ttl_seconds : num;
  cache_max_entries : Z
}.

Section Cache.
Context {R : Type}.

Record CacheEntry := MkEntry {
  ce_key : string;
  ce_response : R;
  ce_stored_at : float;
  ce_ttl_seconds : num
}.

(** [now - self.stored_at > self.ttl_seconds] *)
Definition is_expired (now : float) (e : CacheEntry) : bool :=
  num_lt (ce_ttl_seconds e) (NFloat (fsub now (ce_stored_at e))).

Record ResponseCache := MkCache {
  rc_config : CacheConfig;
  rc_entries : dict string CacheEntry
}.

Definition new_cache (config : CacheConfig) : ResponseCache := MkCache config [].

Definition set_entries (d : dict string CacheEntry) (s : ResponseCache) : ResponseCache :=
  MkCache (rc_config s) d.

Definition cache_get (k : string) (now : float) (s : ResponseCache) : option R * ResponseCache :=
  match dict_get k (rc_entries s) with
  | None => (None, s)
  | Some e =>
      if is_expired now e then (None, set_entries (dict_pop k (rc_entries s)) s)
      else (Some (ce_response e), s)
  end.

(** The loop of [_evict_oldest]: the best key so far and its time. *)
Fixpoint find_oldest (oldest_key : option string) (oldest_stored : float)
    (d : dict string CacheEntry) : option string :=
  match d with
  | [] => oldest_key
  | (k, e) :: d' =>
      if flt (ce_stored_at e) oldest_stored then find_oldest (Some k) (ce_stored_at e) d'
      else find_oldest oldest_key oldest_stored d'
  end.

Definition evict_oldest (d : dict string CacheEntry) : dict string CacheEntry :=
  match find_oldest None finf d with
  | Some k => dict_pop k d
  | None => d
  end.

Definition cache_set (k : string) (r : R) (ttl : option num) (now : float) (s : ResponseCache)
    : CacheEntry * ResponseCache :=
  let ttl := default (cache_ttl_seconds (rc_config s)) ttl in
  let d := rc_entries s in
  let d := if (cache_max_entries (rc_config s) <=? zlen d) && negb (dict_mem k d)
           then evict_oldest d else d in
  let e := MkEntry k r now ttl in
  (e, set_entries (dict_set k e d) s).

Definition cache_invalidate (k : string) (s : ResponseCache) : bool * ResponseCache :=
  (dict_mem k (rc_entries s), set_entries (dict_pop k (rc_entries s)) s).

Definition invalidate_prefix (prefix : string) (s : ResponseCache) : Z * ResponseCache :=
  let keys := filter (λ k, String.prefix prefix k = true) (dict_keys (rc_entries s)) in
  (zlen keys, set_entries (foldl (λ d k, dict_pop k d) (rc_entries s) keys) s).

Definition cache_clear (s : ResponseCache) : ResponseCache := set_entries [] s.

Definition cache_size (s : ResponseCache) : Z := zlen (rc_entries s).

Definition cache_prune (now : float) (s : ResponseCache) : Z * ResponseCache :=
  let expired := (filter (λ p, is_expired now p.2 = true) (rc_entries s)).*1 in
  (zlen expired, set_entries (foldl (λ d k, dict_pop k d) (rc_entries s) expired) s).

(** ** Eviction *)

Lemma find_oldest_spec d k0 t0 :
  (find_oldest k0 t0 d = k0 ∧ ∀ k e, (k, e) ∈ d → flt (ce_stored_at e) t0 = false) ∨
  ∃ k e, find_oldest k0 t0 d = Some k ∧ (k, e) ∈ d ∧ flt (ce_stored_at e) t0 = true ∧
    ∀ k' e', (k', e') ∈ d → flt (ce_stored_at e') (ce_stored_at e) = false.
Proof.
  revert k0 t0. induction d as [|[k e] d IH]; intros k0 t0; simpl.
  { left. split; [done|]. intros ?? []%elem_of_nil. }
  destruct (flt (ce_stored_at e) t0) eqn:E.
  - right. destruct (IH (Some k) (ce_stored_at e)) as [[Hf Hmin]|(k1 & e1 & Hf & Hin & Hlt & Hmin)].
    + exists k, e. repeat split; [done|by constructor|done|].
      intros k' e' [?|?]%elem_of_cons; [simplify_eq; apply flt_irrefl|by eapply Hmin].
    + exists k1, e1. repeat split; [done|by constructor|by eapply flt_trans|].
      intros k' e' [?|?]%elem_of_cons; [simplify_eq; by apply flt_asym|by eapply Hmin].
  - destruct (IH k0 t0) as [[Hf Hmin]|(k1 & e1 & Hf & Hin & Hlt & Hmin)].
    + left. split; [done|]. intros k' e' [?|?]%elem_of_cons; [by simplify_eq|by eapply Hmin].
    + right. exists k1, e1. repeat split; [done|by constructor|done|].
      intros k' e' [?|?]%elem_of_cons; [simplify_eq|by eapply Hmin].
      destruct (flt (ce_stored_at e) (ce_stored_at e1)) eqn:E'; [|done].
      by rewrite (flt_trans _ _ _ E' Hlt) in E.
Qed.

(** Every stored time is a number below infinity. *)
Definition timed (s : ResponseCache) : Prop :=
  Forall (λ p, flt (ce_stored_at p.2) finf = true) (rc_entries s).

Definition cache_wf (s : ResponseCache) : Prop := dict_wf (rc_entries s) ∧ timed s.

(** Eviction removes one entry, and an oldest one. *)
Lemma evict_oldest_spec d :
  dict_wf d → d ≠ [] → Forall (λ p, flt (ce_stored_at p.2) finf = true) d →
  ∃ k e, evict_oldest d = dict_pop k d ∧ dict_get k d = Some e ∧
    zlen d = 1 + zlen (evict_oldest d) ∧
    ∀ k' e', (k', e') ∈ d → flt (ce_stored_at e') (ce_stored_at e) = false.
Proof.
  intros Hwf Hne Ht. unfold evict_oldest.
  destruct (find_oldest_spec d None finf) as [[Hf Hall]|(k & e & Hf & Hin & Hlt & Hmin)].
  - destruct d as [|[k e] d]; [done|]. apply Forall_cons in Ht as [Ht _].
    specialize (Hall k e ltac:(by constructor)). simpl in Ht. congruence.
  - rewrite Hf. pose proof (dict_elem_of_get _ _ _ Hwf Hin) as Hg. exists k, e.
    split; [done|]. split; [done|]. split; [|done]. unfold zlen. rewrite (length_dict_pop k d); [lia|].
    unfold dict_mem. by rewrite Hg.
Qed.

(** ** Sequences of calls *)

Inductive call :=
| Get (k : string) (now : float)
| Set_ (k : string) (r : R) (ttl : option num) (now : float)
| Invalidate (k : string)
| InvalidatePrefix (p : string)
| Clear
| Prune (now : float).

Definition after (x : call) (s : ResponseCache) : ResponseCache :=
  match x with
  | Get k t => (cache_get k t s).2
  | Set_ k r ttl t => (cache_set k r ttl t s).2
  | Invalidate k => (cache_invalidate k s).2
  | InvalidatePrefix p => (invalidate_prefix p s).2
  | Clear => cache_clear s
  | Prune t => (cache_prune t s).2
  end.

Definition call_timed (x : call) : Prop :=
  match x with Set_ _ _ _ t => flt t finf = true | _ => True end.

Definition bound (cfg : CacheConfig) : Z := Z.max 1 (cache_max_entries cfg).

Record cache_inv (cfg : CacheConfig) (s : ResponseCache) : Prop := {
  ci_config : rc_config s = cfg;
  ci_wf : dict_wf (rc_entries s);
  ci_timed : timed s;
  ci_size : zlen (rc_entries s) <= bound cfg
}.

Lemma pop_inv cfg k s :
  cache_inv cfg s → cache_inv cfg (set_entries (dict_pop k (rc_entries s)) s).
Proof.
  intros [Hc Hwf Ht Hs]. split; [done|by apply dict_pop_wf|by apply dict_pop_Forall|].
  simpl. unfold zlen in *. pose proof (sublist_length _ _ (dict_pop_sublist k (rc_entries s))). lia.
Qed.

Lemma pops_inv cfg ks s :
  cache_inv cfg s → cache_inv cfg (set_entries (foldl (λ d k, dict_pop k d) (rc_entries s) ks) s).
Proof.
  revert s. induction ks as [|k ks IH]; intros s Hs; simpl; [by destruct s|].
  apply (IH (set_entries (dict_pop k (rc_entries s)) s)). by apply pop_inv.
Qed.

Lemma set_inv cfg k r ttl t s :
  cache_inv cfg s → flt t finf = true → cache_inv cfg (cache_set k r ttl t s).2.
Proof.
  intros Hs Ht. unfold cache_set. simpl.
  set (d := if _ && _ then _ else _).
  assert (dict_wf d ∧ Forall (λ p, flt (ce_stored_at p.2) finf = true) d ∧
          zlen d <= bound cfg ∧ (dict_mem k d = false → zlen d < bound cfg)) as (Hwf & Hd & Hl & Hm).
  { destruct Hs as [Hc Hwf Htm Hsz]. unfold d. rewrite Hc.
    destruct (cache_max_entries cfg <=? zlen (rc_entries s)) eqn:E1; simpl.
    - destruct (dict_mem k (rc_entries s)) eqn:E2; simpl; [by rewrite E2|].
      destruct (decide (rc_entries s = [])) as [Hnil|Hnil].
      { rewrite Hnil. unfold bound, zlen. simpl.
        split; [apply NoDup_nil_2|]. split; [constructor|]. lia. }
      destruct (evict_oldest_spec _ Hwf Hnil Htm) as (k1 & e1 & Hev & _ & Hlen & _).
      rewrite Hev in *. split; [by apply dict_pop_wf|]. split; [by apply dict_pop_Forall|]. lia.
    - bool_to_prop. unfold bound in *. split; [done|]. split; [done|]. lia. }
  split; simpl; [by destruct Hs|by apply dict_set_wf|by apply dict_set_Forall|].
  unfold zlen in *. rewrite length_dict_set. destruct (dict_mem k d); [lia|]. specialize (Hm eq_refl). lia.
Qed.

Lemma cache_after_inv cfg x s : cache_inv cfg s → call_timed x → cache_inv cfg (after x s).
Proof.
  intros Hs Hx. destruct x as [k t|k r ttl t|k|p| |t]; simpl in *.
  - unfold cache_get. destruct (dict_get k (rc_entries s)); [|done].
    destruct (is_expired t _); [by apply pop_inv|done].
  - by apply set_inv.
  - by apply pop_inv.
  - by apply pops_inv.
  - destruct Hs. split; simpl; [done|apply NoDup_nil_2|constructor|].
    unfold zlen, bound. simpl. lia.
  - by apply pops_inv.
Qed.

Lemma cache_afters_inv cfg xs s :
  cache_inv cfg s → Forall call_timed xs → cache_inv cfg (foldl (flip after) s xs).
Proof.
  intros Hs Hxs. revert s Hs. induction Hxs as [|x xs Hx _ IH]; intros s Hs; simpl; [done|].
  by apply IH, cache_after_inv.
Qed.

Lemma new_cache_inv cfg : cache_inv cfg (new_cache cfg).
Proof. split; [done|apply NoDup_nil_2|constructor|]. unfold bound, zlen. simpl. lia. Qed.
End Cache.

Arguments CacheEntry : clear implicits.
Arguments ResponseCache : clear implicits.
Arguments call : clear implicits.

(** The cache holds at most [max(1, cache_max_entries)] responses, whatever
    calls are made; and what was just stored is found again until its time to
    live has passed, with no other key changed except an evicted one. *)
Theorem response_cache_bounded {R} (cfg : CacheConfig) (xs : list (call R))
    (k : string) (r : R) (ttl : option num) (t now : float) :
  Forall call_timed xs → flt t finf = true →
  let s := foldl (flip after) (new_cache cfg) xs in
  let s' := (cache_set k r ttl t s).2 in
  cache_size s <= bound cfg ∧ cache_size s' <= bound cfg ∧
  (cache_get k now s').1
  = (if num_lt (default (cache_ttl_seconds cfg) ttl) (NFloat (fsub now t)) then None else Some r) ∧
  (∀ k' e, dict_get k' (rc_entries s) = Some e → k' ≠ k →
     dict_get k' (rc_entries s') = Some e ∨
     cache_max_entries cfg <= cache_size s ∧
     ∀ k2 e2, (k2, e2) ∈ rc_entries s → flt (ce_stored_at e2) (ce_stored_at e) = false).
Proof.
  intros Hxs Ht s s'.
  assert (cache_inv cfg s) as Hs by (apply cache_afters_inv; [apply new_cache_inv|done]).
  split; [apply (ci_size _ _ Hs)|].
  split; [apply (ci_size cfg); by apply set_inv|]. split.
  - unfold cache_get, s', cache_set; simpl. rewrite dict_get_set_eq. unfold is_expired; simpl.
    rewrite (ci_config _ _ Hs). by destruct (num_lt _ _).
  - intros k' e Hk' Hne. unfold s', cache_set; simpl. rewrite dict_get_set_ne by done.
    rewrite (ci_config _ _ Hs).
    destruct (cache_max_entries cfg <=? zlen (rc_entries s)) eqn:E1; simpl; [|by left].
    destruct (dict_mem k (rc_entries s)); simpl; [by left|].
    destruct (evict_oldest_spec (rc_entries s)) as (k1 & e1 & -> & Hg & _ & Hmin);
      [apply (ci_wf _ _ Hs)| |apply (ci_timed _ _ Hs)|].
    { intros Hnil. by rewrite Hnil in Hk'. }
    destruct (decide (k1 = k')) as [->|Hk1]; [|left; by rewrite dict_get_pop_ne].
    right. bool_to_prop. split; [done|]. intros. assert (e = e1) as -> by congruence.
    by eapply Hmin.
Qed.

Definition small : CacheConfig := MkCacheConfig true (NInt 60) 2.

Lemma response_cache_bounded_witness :
  let s := foldl (flip after) (new_cache small)
    [Set_ "a" 1%nat None (float_of_Z 1); Set_ "b" 2%nat None (float_of_Z 2)] in
  let s' := (cache_set "c" 3%nat None (float_of_Z 3) s).2 in
  cache_size s' <= 2 ∧ (cache_get "c" (float_of_Z 5) s').1 = Some 3%nat ∧
  dict_get "a" (rc_entries s') = None.
Proof.
  intros s s'.
  destruct (response_cache_bounded small
    [Set_ "a" 1%nat None (float_of_Z 1); Set_ "b" 2%nat None (float_of_Z 2)]
    "c" 3%nat None (float_of_Z 3) (float_of_Z 5)) as (_ & H1 & H2 & _).
  - repeat constructor.
  - reflexivity.
  - split; [exact H1|]. split; [etrans; [exact H2|reflexivity]|reflexivity].
Defined.
