(* ===== verification/Routing.v ===== *)
(** * Gateway routing ([app/gateway/routing.py], [app/gateway/models.py])

    Route patterns, the [RouteRegistry] and the [VersionNegotiator].

    [compile_pattern] produces the regular expression
    ["^" + "/".join(chunks) + "/?$"] where a chunk is an escaped literal or a
    named group [[^/]+].  The model keeps the chunks and gives the meaning of
    that expression on a path split at ["/"]: one chunk per segment, an optional
    final ["/"], and [$] also before a final newline.  A group name that is not
    an identifier, or that occurs twice, makes [re.match] raise ([BadPattern]);
    names are made of ASCII letters, digits and ["_"]. *)

From Stdlib Require Import ZArith Lia Ascii.
From Stdlib Require String.
From stdpp Require Import base numbers strings list.
From S2P Require Import Prelude PyFloat PyNum PyStr PyDict.

Open Scope Z_scope.

(** ** Data *)

Inductive RouteProtocol := HTTP | SSE | WEBSOCKET | STREAM.
Inductive RouteVisibility := PUBLIC | AUTHENTICATED | PRIVATE.

#[export] Instance RouteProtocol_eq_dec : EqDecision RouteProtocol.
Proof. solve_decision. Defined.
#[export] Instance RouteVisibility_eq_dec : EqDecision RouteVisibility.
Proof. solve_decision. Defined.

(** A route; [r_handler] names its handler ([None] for a proxied route), and
    [r_permission], [r_service] are the metadata entries the gateway reads. *)
Record Route := MkRoute {
  r_pattern : string;
  r_handler : option string;
  r_methods : list string;
  r_version : string;
  r_protocol : RouteProtocol;
  r_visibility : RouteVisibility;
  r_cacheable : bool;
  r_cache_ttl_seconds : num;
  r_rate_limit_key : string;
  r_quota_bucket : string;
  r_permission : string;
  r_service : string
}.

Definition mem (x : string) (l : list string) : bool := bool_decide (x ∈ l).

(** [Route.matches] *)
Definition matches (method version : string) (r : Route) : bool :=
  (mem "ANY" (r_methods r) || mem method (r_methods r)) &&
  (negb (truthy version) || bool_decide (r_version r = version)).

(** ** Patterns *)

Inductive Chunk := Lit (s : string) | Param (name : string).

Definition slash : ascii := Ascii.ascii_of_nat 47.
Definition newline : string := String (Ascii.ascii_of_nat 10) EmptyString.

(** [s[1:]] and [s[:-1]] *)
Definition str_tail (s : string) : string :=
  match s with EmptyString => EmptyString | String _ s' => s' end.
Fixpoint str_init (s : string) : string :=
  match s with
  | EmptyString => EmptyString
  | String _ EmptyString => EmptyString
  | String a s' => String a (str_init s')
  end.

Definition compile_chunk (chunk : string) : Chunk :=
  if negb (truthy chunk) then Lit EmptyString
  else if startswith "{" chunk && endswith "}" chunk then Param (str_init (str_tail chunk))
  else if startswith ":" chunk && Nat.ltb 1 (String.length chunk) then Param (str_tail chunk)
  else Lit chunk.

Definition compile_pattern (pattern : string) : list Chunk :=
  compile_chunk <$> split_on slash pattern.

Definition names (cs : list Chunk) : list string :=
  omap (λ c, match c with Param n => Some n | Lit _ => None end) cs.

Definition ident_start (a : ascii) : bool :=
  let n := Ascii.nat_of_ascii a in
  (Nat.leb 65 n && Nat.leb n 90) || (Nat.leb 97 n && Nat.leb n 122) || Nat.eqb n 95.

Fixpoint ident_rest (s : string) : bool :=
  match s with
  | EmptyString => true
  | String a s' => (ident_start a || is_digit a) && ident_rest s'
  end.

Definition is_identifier (s : string) : bool :=
  match s with EmptyString => false | String a s' => ident_start a && ident_rest s' end.

Definition regex_ok (cs : list Chunk) : bool :=
  forallb is_identifier (names cs) && bool_decide (NoDup (names cs)).

Definition match_chunk (c : Chunk) (p : string) : option (dict string string) :=
  match c with
  | Lit s => if decide (p = s) then Some [] else None
  | Param n => if truthy p then Some [(n, p)] else None
  end.

(** The last chunk, where [$] may also stand before a final newline. *)
Definition match_last (c : Chunk) (p : string) : option (dict string string) :=
  match c with
  | Lit s => if decide (p = s ∨ p = s +:+ newline) then Some [] else None
  | Param n => match_chunk c p
  end.

Fixpoint match_chunks (cs : list Chunk) (ps : list string) : option (dict string string) :=
  match cs, ps with
  | [c], [p] => match_last c p
  | [c], [p; t] => if decide (t = EmptyString ∨ t = newline) then match_chunk c p else None
  | c :: cs', p :: ps' =>
      match match_chunk c p, match_chunks cs' ps' with
      | Some d, Some d' => Some (d ++ d')
      | _, _ => None
      end
  | _, _ => None
  end.

Inductive RouteError :=
| RouteNotFound (path method : string)
| MethodNotAllowed (path method : string) (allowed : list string)
| BadPattern
| ValueError_ (message : string)
| VersionNotSupported (version : string) (supported : list string).

(** [re.match(regex, path)] with the groups it captures *)
Definition re_match (cs : list Chunk) (path : string)
    : result RouteError (option (dict string string)) :=
  if regex_ok cs then Ok (match_chunks cs (split_on slash path)) else Err BadPattern.

(** ** [RouteRegistry] *)

Record RouteRegistry := MkRegistry {
  rr_default_version : string;
  rr_routes : dict string (dict string Route);
  rr_compiled : dict string (list Chunk);
  rr_revision : Z
}.

Definition new_registry (default_version : string) : RouteRegistry :=
  MkRegistry default_version [] [] 0.

Definition register (r : Route) (s : RouteRegistry) : result RouteError RouteRegistry :=
  if negb (startswith "/" (r_pattern r))
  then Err (ValueError_ "Route patterns must start with '/'")
  else
    let versions := default [] (dict_get (r_pattern r) (rr_routes s)) in
    Ok (MkRegistry (rr_default_version s)
          (dict_set (r_pattern r) (dict_set (r_version r) r versions) (rr_routes s))
          (if dict_mem (r_pattern r) (rr_compiled s) then rr_compiled s
           else dict_set (r_pattern r) (compile_pattern (r_pattern r)) (rr_compiled s))
          (rr_revision s + 1)).

(** [unregister(pattern, version)]; without a version [popitem] removes the
    entry that was added last. *)
Definition unregister (pattern version : string) (s : RouteRegistry) : bool * RouteRegistry :=
  match dict_get pattern (rr_routes s) with
  | None => (false, s)
  | Some versions =>
      let removed :=
        if truthy version then
          match dict_get version versions with
          | Some r => Some (r, dict_pop version versions)
          | None => None
          end
        else
          match last versions with
          | Some (_, r) => Some (r, take (length versions - 1) versions)
          | None => None
          end in
      match removed with
      | None => (false, s)
      | Some (_, rest) =>
          (true,
           match rest with
           | [] => MkRegistry (rr_default_version s) (dict_pop pattern (rr_routes s))
                     (dict_pop pattern (rr_compiled s)) (rr_revision s + 1)
           | _ => MkRegistry (rr_default_version s) (dict_set pattern rest (rr_routes s))
                    (rr_compiled s) (rr_revision s + 1)
           end)
      end
  end.

Definition get_route (pattern version : string) (s : RouteRegistry) : option Route :=
  match dict_get pattern (rr_routes s) with
  | None => None
  | Some versions =>
      if truthy version then dict_get version versions
      else match dict_get (rr_default_version s) versions with
           | Some r => Some r
           | None => head (dict_values versions)
           end
  end.

(** Tuples of strings compare lexicographically. *)
Definition pair_lt (a b : string * string) : bool :=
  str_lt a.1 b.1 || (bool_decide (a.1 = b.1) && str_lt a.2 b.2).

Definition list_routes (version : string) (s : RouteRegistry) : list Route :=
  let routes :=
    (filter (λ p, truthy version = false ∨ p.1 = version) (concat (dict_values (rr_routes s)))).*2 in
  py_sorted (λ a b, pair_lt (r_pattern a, r_version a) (r_pattern b, r_version b)) routes.

Definition reload (s : RouteRegistry) : Z * RouteRegistry :=
  (rr_revision s + 1,
   MkRegistry (rr_default_version s) (rr_routes s)
     (foldl (λ d p, dict_set p (compile_pattern p) d) (rr_compiled s) (dict_keys (rr_routes s)))
     (rr_revision s + 1)).

Definition clear (s : RouteRegistry) : RouteRegistry :=
  MkRegistry (rr_default_version s) [] [] (rr_revision s + 1).

Definition count (s : RouteRegistry) : Z :=
  foldr (λ v n, zlen v + n) 0 (dict_values (rr_routes s)).

Definition pick (versions : dict string Route) (method version : string) : option Route :=
  if truthy version then
    match dict_get version versions with
    | Some r => if matches method version r then Some r else None
    | None => None
    end
  else
    head (filter (λ r, matches method "" r = true)
            (py_sorted (λ a b, str_lt (r_version a) (r_version b)) (dict_values versions))).

Definition versions_for (pattern : string) (s : RouteRegistry) : list Route :=
  dict_values (default [] (dict_get pattern (rr_routes s))).

Definition static_score (pattern : string) : Z :=
  zlen (filter (λ c, truthy c && negb (startswith "{" c || startswith ":" c) = true)
          (split_on slash pattern)).

(** The routes of one pattern that match, with the captured parameters. *)
Fixpoint match_routes (method version path : string) (cs : list Chunk) (rs : list Route)
    : result RouteError (list (Route * dict string string)) :=
  match rs with
  | [] => Ok []
  | r :: rs' =>
      if negb (matches method version r) then match_routes method version path cs rs'
      else
        (try m <- re_match cs path in
         try rest <- match_routes method version path cs rs' in
         Ok (match m with Some params => (r, params) :: rest | None => rest end))%py
  end.

Fixpoint match_all (method version path : string) (compiled : dict string (list Chunk))
    (s : RouteRegistry) : result RouteError (list (Route * dict string string)) :=
  match compiled with
  | [] => Ok []
  | (pattern, cs) :: compiled' =>
      if decide (pattern = path) then match_all method version path compiled' s
      else
        (try here <- match_routes method version path cs (versions_for pattern s) in
         try rest <- match_all method version path compiled' s in
         Ok (here ++ rest))%py
  end.

Fixpoint any_match (path : string) (cs : list Chunk) (rs : list Route) : result RouteError bool :=
  match rs with
  | [] => Ok false
  | _ :: rs' => (try m <- re_match cs path in
                 match m with Some _ => Ok true | None => any_match path cs rs' end)%py
  end.

Definition of_version (version : string) (r : Route) : bool :=
  negb (truthy version) || bool_decide (r_version r = version).

Fixpoint has_any_route (path version : string) (compiled : dict string (list Chunk))
    (s : RouteRegistry) : result RouteError bool :=
  match compiled with
  | [] => Ok false
  | (pattern, cs) :: compiled' =>
      (try b <- any_match path cs (filter (λ r, of_version version r = true) (versions_for pattern s)) in
       if b then Ok true else has_any_route path version compiled' s)%py
  end.

(** The inner loop of [_allowed_methods]: [None] when a route accepts any method. *)
Fixpoint collect_methods (rs : list Route) (allowed : list string) : option (list string) :=
  match rs with
  | [] => Some allowed
  | r :: rs' =>
      if mem "ANY" (r_methods r) then None else collect_methods rs' (allowed ++ r_methods r)
  end.

Fixpoint allowed_loop (path version : string) (routes : dict string (dict string Route))
    (s : RouteRegistry) (allowed : list string) : result RouteError (list string) :=
  match routes with
  | [] => Ok (py_sorted str_lt (remove_dups allowed))
  | (pattern, versions) :: routes' =>
      let cs := default (compile_pattern pattern) (dict_get pattern (rr_compiled s)) in
      (try m <- re_match cs path in
       match m with
       | None => allowed_loop path version routes' s allowed
       | Some _ =>
           match collect_methods (filter (λ r, of_version version r = true) (dict_values versions)) allowed with
           | None => Ok ["ANY"%string]
           | Some allowed' => allowed_loop path version routes' s allowed'
           end
       end)%py
  end.

Definition allowed_methods (path version : string) (s : RouteRegistry)
    : result RouteError (list string) := allowed_loop path version (rr_routes s) s [].

(** [(score, pattern, version)] tuples *)
Definition match_lt (a b : Route * dict string string) : bool :=
  let sa := static_score (r_pattern a.1) in
  let sb := static_score (r_pattern b.1) in
  (sa <? sb) || ((sa =? sb) && pair_lt (r_pattern a.1, r_version a.1) (r_pattern b.1, r_version b.1)).

Definition resolve (path method version : string) (s : RouteRegistry)
    : result RouteError (Route * dict string string) :=
  let exact :=
    match dict_get path (rr_routes s) with
    | Some versions => pick versions method version
    | None => None
    end in
  match exact with
  | Some r => Ok (r, [])
  | None =>
      (try matched <- match_all method version path (rr_compiled s) s in
       match py_sorted match_lt matched with
       | best :: _ => Ok best
       | [] =>
           try b <- has_any_route path version (rr_compiled s) s in
           if b then
             try allowed <- allowed_methods path version s in
             Err (MethodNotAllowed path method allowed)
           else Err (RouteNotFound path method)
       end)%py
  end.

(** ** [VersionNegotiator] *)

Record VersionConfig := MkVersionConfig {
  default_version : string;
  supported_versions : list string;
  deprecated_versions : list string;
  deprecation_warning_header : string;
  version_header : string;
  allow_header_versioning : bool;
  version_header_priority : bool
}.

Record VersionInfo := MkVersionInfo {
  vi_version : string;
  vi_source : string;
  vi_deprecated : bool;
  vi_sunset : string
}.

(** [(clean_path, version)] *)
Definition strip_version_prefix (path : string) (cfg : VersionConfig) : string * string :=
  match split_on slash path with
  | _ :: candidate :: rest =>
      if truthy candidate && mem candidate (supported_versions cfg) then
        (if truthy (join "/" rest) then "/" +:+ join "/" rest else "/"%string, candidate)
      else (path, EmptyString)
  | _ => (path, EmptyString)
  end.

Definition dot : ascii := Ascii.ascii_of_nat 46.
Definition plus : ascii := Ascii.ascii_of_nat 43.
Definition comma : ascii := Ascii.ascii_of_nat 44.

Fixpoint accept_version (parts : list string) : option string :=
  match parts with
  | [] => None
  | part :: parts' =>
      let part := strip part in
      if startswith "application/vnd." part && contains "+json" part
      then Some (default EmptyString (head (split_on plus (default EmptyString (last (split_on dot part))))))
      else accept_version parts'
  end.

Definition header_version (headers : dict string string) (cfg : VersionConfig) : string :=
  if negb (allow_header_versioning cfg) then EmptyString
  else
    let value := default EmptyString (dict_get (version_header cfg) headers) in
    if truthy value then value
    else default value (accept_version (split_on comma (default EmptyString (dict_get "Accept"%string headers)))).

(** [list.index] for an element that is present *)
Fixpoint index_of (x : string) (l : list string) : Z :=
  match l with
  | [] => 0
  | y :: l' => if decide (x = y) then 0 else 1 + index_of x l'
  end.

Definition sunset (version : string) (cfg : VersionConfig) : string :=
  if mem version (deprecated_versions cfg)
  then "sunset-after-" +:+ str_of_Z (index_of version (deprecated_versions cfg) + 1)
         +:+ "-deprecation-cycles"
  else EmptyString.

(** The first non-empty value of the candidates, in order. *)
Fixpoint first_candidate (l : list (string * string)) : option (string * string) :=
  match l with
  | [] => None
  | (value, src) :: l' => if truthy value then Some (value, src) else first_candidate l'
  end.

Definition negotiate (headers : dict string string) (url_version : string)
    (query : dict string string) (cfg : VersionConfig) : result RouteError VersionInfo :=
  let header := (header_version headers cfg, "header"%string) in
  let url := (url_version, "url"%string) in
  let q := (default EmptyString (dict_get "version"%string query), "query"%string) in
  let order := if version_header_priority cfg then [header; url; q] else [url; header; q] in
  match first_candidate order with
  | None =>
      let d := default_version cfg in
      Ok (MkVersionInfo d "default" (mem d (deprecated_versions cfg)) (sunset d cfg))
  | Some (candidate, source) =>
      if negb (mem candidate (supported_versions cfg))
      then Err (VersionNotSupported candidate (supported_versions cfg))
      else Ok (MkVersionInfo candidate source (mem candidate (deprecated_versions cfg))
                 (sunset candidate cfg))
  end.

Definition quote : string := String (Ascii.ascii_of_nat 34) EmptyString.

Definition deprecation_headers (info : VersionInfo) (cfg : VersionConfig) : dict string string :=
  if negb (vi_deprecated info) then []
  else
    dict_set "Sunset"%string (vi_sunset info)
      (dict_set "Deprecation"%string ("version=" +:+ quote +:+ vi_version info +:+ quote)
         [(deprecation_warning_header cfg,
           "Deprecated version " +:+ quote +:+ vi_version info +:+ quote)]).

(** ** Invariant of the registry *)

Definition versions_ok (pattern : string) (versions : dict string Route) : Prop :=
  dict_wf versions ∧ versions ≠ [] ∧
  Forall (λ p, r_pattern p.2 = pattern ∧ r_version p.2 = p.1) versions.

Record registry_wf (s : RouteRegistry) : Prop := {
  rw_routes : dict_wf (rr_routes s);
  rw_compiled_wf : dict_wf (rr_compiled s);
  rw_versions : Forall (λ p, versions_ok p.1 p.2) (rr_routes s);
  rw_compiled : ∀ p, dict_get p (rr_compiled s)
                     = if dict_mem p (rr_routes s) then Some (compile_pattern p) else None
}.

(** A route is registered when it is stored under its pattern and version. *)
Definition registered (r : Route) (s : RouteRegistry) : Prop :=
  ∃ versions, dict_get (r_pattern r) (rr_routes s) = Some versions ∧
    dict_get (r_version r) versions = Some r.

Lemma registry_wf_new v : registry_wf (new_registry v).
Proof. split; simpl; [apply NoDup_nil_2..|constructor|done]. Qed.

Lemma versions_ok_get s p versions :
  registry_wf s → dict_get p (rr_routes s) = Some versions → versions_ok p versions.
Proof.
  intros Hs Hp. pose proof (rw_versions _ Hs) as Hv. rewrite Forall_forall in Hv.
  by apply (Hv (p, versions)), dict_get_elem_of.
Qed.

Lemma registry_wf_register r s s' :
  registry_wf s → register r s = Ok s' → registry_wf s' ∧ registered r s'.
Proof.
  intros Hs. unfold register. destruct (negb _); [done|]. intros [= <-].
  set (versions := default [] (dict_get (r_pattern r) (rr_routes s))).
  assert (versions_ok (r_pattern r) (dict_set (r_version r) r versions)) as Hv.
  { assert (dict_wf versions ∧ Forall (λ p, r_pattern p.2 = r_pattern r ∧ r_version p.2 = p.1) versions)
      as [Hwf Hf].
    { unfold versions. destruct (dict_get (r_pattern r) (rr_routes s)) eqn:E; simpl.
      - by destruct (versions_ok_get _ _ _ Hs E) as (? & _ & ?).
      - split; [apply NoDup_nil_2|constructor]. }
    split; [by apply dict_set_wf|]. split; [|by apply dict_set_Forall].
    destruct versions as [|[v0 r0] vs]; simpl; [done|by case_decide]. }
  split.
  - split; simpl.
    + apply dict_set_wf, Hs.
    + destruct (dict_mem _ (rr_compiled s)); [apply Hs|apply dict_set_wf, Hs].
    + apply dict_set_Forall; [apply Hs|done].
    + intros p. unfold dict_mem. rewrite dict_get_set. pose proof (rw_compiled _ Hs p) as Hc.
      destruct (dict_get (r_pattern r) (rr_compiled s)) eqn:E; rewrite ?dict_get_set;
        case_decide; subst; rewrite ?Hc; try done; unfold dict_mem in *; try done.
      by destruct (dict_get _ (rr_routes s)); simplify_eq.
  - exists (dict_set (r_version r) r versions). simpl. by rewrite !dict_get_set_eq.
Qed.
