(* ===== verification/RoutingSpec.v ===== *)
(** * Routing: theorems

    The registry's invariant under [unregister], and what [resolve] and
    [negotiate] of [Routing] promise. *)

From Stdlib Require Import ZArith Lia Ascii Sorted.
From Stdlib Require String.
From stdpp Require Import base numbers strings list.
From S2P Require Import Prelude PyFloat PyNum PyStr PyDict Routing.

Open Scope Z_scope.

Lemma registry_wf_unregister p v s : registry_wf s → registry_wf (unregister p v s).2.
Proof.
  intros Hs. unfold unregister. destruct (dict_get p (rr_routes s)) as [versions|] eqn:E; [|done].
  destruct (versions_ok_get _ _ _ Hs E) as (Hwf & Hne & Hf).
  set (removed := if truthy v then _ else _).
  assert (∀ r rest, removed = Some (r, rest) →
    dict_wf rest ∧ Forall (λ q, r_pattern q.2 = p ∧ r_version q.2 = q.1) rest) as Hrest.
  { intros r rest. unfold removed. destruct (truthy v).
    - destruct (dict_get v versions); intros; simplify_eq.
      split; [by apply dict_pop_wf|by apply dict_pop_Forall].
    - destruct (last versions) as [[]|]; intros; simplify_eq. split.
      + unfold dict_wf. rewrite fmap_take. by eapply sublist_NoDup, sublist_take.
      + by apply Forall_take. }
  destruct removed as [[r rest]|]; [|done]. destruct (Hrest r rest eq_refl) as [Hw1 Hf1]. simpl.
  destruct rest as [|q rest]; split; simpl.
  - apply dict_pop_wf, Hs.
  - apply dict_pop_wf, Hs.
  - apply dict_pop_Forall, Hs.
  - intros p'. unfold dict_mem. destruct (decide (p = p')) as [->|Hp].
    + by rewrite !dict_get_pop_eq by apply Hs.
    + rewrite !dict_get_pop_ne by done. apply (rw_compiled _ Hs).
  - apply dict_set_wf, Hs.
  - apply Hs.
  - apply dict_set_Forall; [apply Hs|]. done.
  - intros p'. unfold dict_mem. rewrite dict_get_set, (rw_compiled _ Hs). unfold dict_mem.
    case_decide; [subst; by rewrite E|done].
Qed.

(** ** [resolve] *)

(** All parameter names are identifiers, and no pattern repeats one. *)
Definition patterns_ok (s : RouteRegistry) : Prop :=
  ∀ p, dict_mem p (rr_routes s) = true → regex_ok (compile_pattern p) = true.

(** The parameters captured from [path] by the pattern of [r]. *)
Definition captures (r : Route) (path : string) : option (dict string string) :=
  match_chunks (compile_pattern (r_pattern r)) (split_on slash path).

Lemma match_chunk_self w : is_Some (match_chunk (compile_chunk w) w).
Proof.
  unfold compile_chunk. destruct w as [|a w]; [by eexists|]. simpl negb.
  cbv iota. destruct (_ && _); [by eexists|]. destruct (_ && _); [by eexists|].
  simpl. rewrite decide_True by done. by eexists.
Qed.

Lemma match_last_of c p : is_Some (match_chunk c p) → is_Some (match_last c p).
Proof.
  destruct c as [s|n]; simpl; [|done]. case_decide; [|by intros []].
  rewrite decide_True by auto. by eexists.
Qed.

(** Every pattern matches itself read as a path. *)
Lemma pattern_matches_self p :
  is_Some (match_chunks (compile_pattern p) (split_on slash p)).
Proof.
  unfold compile_pattern. pose proof (split_on_nonempty slash p) as Hne.
  induction (split_on slash p) as [|w ws IH]; [done|]. destruct ws as [|w' ws].
  - simpl. apply match_last_of, match_chunk_self.
  - destruct IH as [d' Hd']; [done|]. destruct (match_chunk_self w) as [d Hd].
    csimpl in *. rewrite Hd.
    destruct ws as [|w'' ws]; csimpl in *; rewrite Hd'; by eexists.
Qed.

Section Resolve.
Context (s : RouteRegistry) (Hs : registry_wf s) (Hok : patterns_ok s).
Context (path method version : string).

Lemma registered_iff r :
  registered r s ↔ ∃ p versions, (p, versions) ∈ rr_routes s ∧ r ∈ dict_values versions.
Proof.
  split.
  - intros (versions & Hp & Hv). exists (r_pattern r), versions.
    split; [by apply dict_get_elem_of|]. apply dict_get_elem_of in Hv.
    by apply (list_elem_of_fmap_2 snd) in Hv.
  - intros (p & versions & Hp & Hr). apply (dict_elem_of_get _ _ _ (rw_routes _ Hs)) in Hp.
    destruct (versions_ok_get _ _ _ Hs Hp) as (Hwf & _ & Hf).
    apply list_elem_of_fmap in Hr as ([v r'] & -> & Hr).
    rewrite Forall_forall in Hf. destruct (Hf _ Hr) as [Hpat Hver]. simpl in *.
    exists versions. rewrite Hpat, Hver. split; [done|]. by apply dict_elem_of_get.
Qed.

Lemma versions_for_iff p r :
  r ∈ versions_for p s ↔ registered r s ∧ r_pattern r = p.
Proof.
  unfold versions_for. split.
  - destruct (dict_get p (rr_routes s)) as [versions|] eqn:E; simpl; [|by intros ?%elem_of_nil].
    intros Hr. split.
    + apply registered_iff. exists p, versions. split; [by apply dict_get_elem_of|done].
    + destruct (versions_ok_get _ _ _ Hs E) as (_ & _ & Hf).
      apply list_elem_of_fmap in Hr as (q & -> & Hq). rewrite Forall_forall in Hf.
      by apply Hf.
  - intros [(versions & Hp & Hv) <-]. rewrite Hp. simpl.
    apply dict_get_elem_of in Hv. by apply (list_elem_of_fmap_2 snd) in Hv.
Qed.

Lemma compiled_iff p cs :
  (p, cs) ∈ rr_compiled s ↔ dict_mem p (rr_routes s) = true ∧ cs = compile_pattern p.
Proof.
  pose proof (rw_compiled _ Hs p) as Hc. split.
  - intros Hin. apply (dict_elem_of_get _ _ _ (rw_compiled_wf _ Hs)) in Hin.
    rewrite Hin in Hc. destruct (dict_mem p (rr_routes s)); by simplify_eq.
  - intros [Hm ->]. rewrite Hm in Hc. by apply dict_get_elem_of.
Qed.

Lemma registered_compiled r :
  registered r s → (r_pattern r, compile_pattern (r_pattern r)) ∈ rr_compiled s.
Proof.
  intros (versions & Hp & _). apply compiled_iff. unfold dict_mem. by rewrite Hp.
Qed.

Lemma match_routes_spec cs rs :
  regex_ok cs = true →
  ∃ l, match_routes method version path cs rs = Ok l ∧
    ∀ r d, (r, d) ∈ l ↔ r ∈ rs ∧ matches method version r = true ∧
      match_chunks cs (split_on slash path) = Some d.
Proof.
  intros Hcs. induction rs as [|r rs (l & Hl & Hin)]; simpl.
  { exists []. split; [done|]. intros r d. split; [by intros ?%elem_of_nil|by intros [?%elem_of_nil _]]. }
  destruct (matches method version r) eqn:Hm; simpl.
  - unfold re_match. rewrite Hcs, Hl. eexists. split; [done|]. intros r' d.
    destruct (match_chunks cs _) as [d0|]; rewrite ?elem_of_cons, Hin.
    + split; [intros [[= -> ->]|(? & ? & ?)]; auto|]. intros ([->|?] & ? & [= ->]); auto.
    + split; [by intros (_ & _ & ?)|by intros (_ & _ & ?)].
  - exists l. split; [done|]. intros r' d. rewrite Hin, elem_of_cons.
    split; [intros (? & ? & ?); auto|]. intros ([->|?] & ? & ?); [congruence|auto].
Qed.

Lemma match_all_spec compiled :
  (∀ p cs, (p, cs) ∈ compiled → regex_ok cs = true) →
  ∃ l, match_all method version path compiled s = Ok l ∧
    ∀ r d, (r, d) ∈ l ↔ ∃ p cs, (p, cs) ∈ compiled ∧ p ≠ path ∧ r ∈ versions_for p s ∧
      matches method version r = true ∧ match_chunks cs (split_on slash path) = Some d.
Proof.
  induction compiled as [|[p cs] compiled IH]; intros Hc; simpl.
  { exists []. split; [done|]. intros r d.
    split; [by intros ?%elem_of_nil|by intros (p & cs & ?%elem_of_nil & _)]. }
  destruct IH as (l & Hl & Hin); [intros ?? Hp; eapply Hc; by apply elem_of_cons; right|].
  destruct (match_routes_spec cs (versions_for p s)) as (l1 & Hl1 & Hin1).
  { apply (Hc p). by constructor. }
  setoid_rewrite elem_of_cons. case_decide as Hp.
  - exists l. split; [done|]. intros r d. rewrite Hin. naive_solver.
  - rewrite Hl1, Hl. eexists. split; [done|]. intros r d. rewrite elem_of_app, Hin1, Hin.
    naive_solver.
Qed.

Lemma any_match_spec cs rs :
  regex_ok cs = true →
  any_match path cs rs
  = Ok (bool_decide (rs ≠ []) && bool_decide (is_Some (match_chunks cs (split_on slash path)))).
Proof.
  intros Hcs. induction rs as [|r rs IH]; simpl; [done|].
  unfold re_match. rewrite Hcs. destruct (match_chunks cs _) as [d|]; [done|].
  rewrite IH. by rewrite !andb_false_r.
Qed.

Lemma has_any_route_spec compiled :
  (∀ p cs, (p, cs) ∈ compiled → regex_ok cs = true) →
  ∃ b, has_any_route path version compiled s = Ok b ∧
    (b = true ↔ ∃ p cs r, (p, cs) ∈ compiled ∧ r ∈ versions_for p s ∧ of_version version r = true ∧
      is_Some (match_chunks cs (split_on slash path))).
Proof.
  induction compiled as [|[p cs] compiled IH]; intros Hc; simpl.
  { exists false. split; [done|]. split; [done|]. by intros (p & cs & r & ?%elem_of_nil & _). }
  destruct IH as (b & Hb & Hiff); [intros ?? Hp; eapply Hc; by apply elem_of_cons; right|].
  rewrite any_match_spec by (apply (Hc p); by constructor).
  destruct (_ && _) eqn:E; bool_to_prop.
  - exists true. split; [done|]. split; [|done]. intros _.
    destruct (filter _ _) as [|r rs] eqn:F; [done|].
    assert (r ∈ filter (λ r, of_version version r = true) (versions_for p s)) as Hr
      by (rewrite F; by constructor).
    apply list_elem_of_filter in Hr as [Hv Hr]. exists p, cs, r. split; [by constructor|done].
  - exists b. split; [done|]. rewrite Hiff. split.
    + intros (p' & cs' & r & Hin & Hrest). exists p', cs', r. split; [by apply elem_of_cons; right|done].
    + intros (p' & cs' & r & Hin & Hr & Hv & Hm). apply elem_of_cons in Hin as [Hin|Hin].
      * simplify_eq. exfalso. apply andb_false_iff in E as [E|E]; bool_to_prop; [|done].
        apply E. intros F. assert (r ∈ filter (λ r, of_version version r = true) (versions_for p s)) as Hr'
          by (by apply list_elem_of_filter). rewrite F in Hr'. by apply elem_of_nil in Hr'.
      * by exists p', cs', r.
Qed.

Lemma allowed_loop_ok routes allowed :
  (∀ p v, (p, v) ∈ routes → dict_mem p (rr_routes s) = true) →
  is_ok (allowed_loop path version routes s allowed) = true.
Proof.
  revert allowed. induction routes as [|[p v] routes IH]; intros allowed Hr; simpl; [done|].
  assert (dict_mem p (rr_routes s) = true) as Hp by (apply (Hr p v); by constructor).
  rewrite (rw_compiled _ Hs p), Hp. simpl. unfold re_match. rewrite Hok by done.
  assert (∀ a, is_ok (allowed_loop path version routes s a) = true) as IH'.
  { intros a. apply IH. intros p' v' H. eapply Hr. by apply elem_of_cons; right. }
  destruct (match_chunks _ _); [|apply IH']. destruct (collect_methods _ _); [apply IH'|done].
Qed.

Lemma compiled_ok p cs : (p, cs) ∈ rr_compiled s → regex_ok cs = true.
Proof. intros [Hp ->]%compiled_iff. by apply Hok. Qed.

(** The matches that [resolve] collects, in terms of the registered routes. *)
Lemma matches_spec :
  ∃ l, match_all method version path (rr_compiled s) s = Ok l ∧
    ∀ r d, (r, d) ∈ l ↔ registered r s ∧ r_pattern r ≠ path ∧
      matches method version r = true ∧ captures r path = Some d.
Proof.
  destruct (match_all_spec (rr_compiled s) compiled_ok) as (l & Hl & Hin).
  exists l. split; [done|]. intros r d. rewrite Hin. setoid_rewrite versions_for_iff. split.
  - intros (p & cs & Hc & Hp & [Hr <-] & Hm & Hd). by apply compiled_iff in Hc as [_ ->].
  - intros (Hr & Hp & Hm & Hd). exists (r_pattern r), (compile_pattern (r_pattern r)).
    split; [by apply registered_compiled|done].
Qed.

Lemma any_route_spec :
  ∃ b, has_any_route path version (rr_compiled s) s = Ok b ∧
    (b = true ↔ ∃ r, registered r s ∧ of_version version r = true ∧ is_Some (captures r path)).
Proof.
  destruct (has_any_route_spec (rr_compiled s) compiled_ok) as (b & Hb & Hiff).
  exists b. split; [done|]. rewrite Hiff. setoid_rewrite versions_for_iff. split.
  - intros (p & cs & r & Hc & [Hr <-] & Hv & Hm). apply compiled_iff in Hc as [_ ->]. eauto.
  - intros (r & Hr & Hv & Hm). exists (r_pattern r), (compile_pattern (r_pattern r)), r.
    split; [by apply registered_compiled|done].
Qed.

Lemma allowed_methods_ok : ∃ a, allowed_methods path version s = Ok a.
Proof.
  pose proof (allowed_loop_ok (rr_routes s) []) as Ha. unfold allowed_methods.
  destruct (allowed_loop _ _ _ _) as [a|x]; [eauto|]. discriminate Ha.
  intros p v Hin. apply (dict_elem_of_get _ _ _ (rw_routes _ Hs)) in Hin.
  unfold dict_mem. by rewrite Hin.
Qed.

Lemma truthy_false v : truthy v = false → v = EmptyString.
Proof. by destruct v. Qed.

Lemma matches_version r :
  truthy version = true → matches method version r = true → r_version r = version.
Proof.
  unfold matches. intros ->. simpl. intros [_ Hv]%andb_prop. by bool_to_prop.
Qed.

Lemma pick_spec p versions :
  dict_get p (rr_routes s) = Some versions →
  match pick versions method version with
  | Some r => registered r s ∧ r_pattern r = p ∧ matches method version r = true
  | None => ∀ r, registered r s → r_pattern r = p → matches method version r = false
  end.
Proof.
  intros Hp. destruct (versions_ok_get _ _ _ Hs Hp) as (Hwf & _ & Hf).
  assert (∀ r, r ∈ dict_values versions ↔ registered r s ∧ r_pattern r = p) as Hiff.
  { intros r. rewrite <- versions_for_iff. unfold versions_for. by rewrite Hp. }
  unfold pick. destruct (truthy version) eqn:Ev.
  - destruct (dict_get version versions) as [r|] eqn:Er.
    + assert (registered r s ∧ r_pattern r = p) as Hr.
      { apply Hiff. apply dict_get_elem_of in Er. by apply (list_elem_of_fmap_2 snd) in Er. }
      destruct (matches method version r) eqn:Hm; [naive_solver|].
      intros r' Hr' Hp'. destruct (matches method version r') eqn:Hm'; [|done].
      destruct Hr' as (versions' & Hg & Hg'). rewrite Hp', Hp in Hg. simplify_eq.
      rewrite (matches_version r' Ev Hm') in Hg'. congruence.
    + intros r' Hr' Hp'. destruct (matches method version r') eqn:Hm'; [|done].
      destruct Hr' as (versions' & Hg & Hg'). rewrite Hp', Hp in Hg. simplify_eq.
      rewrite (matches_version r' Ev Hm') in Hg'. congruence.
  - apply truthy_false in Ev. subst version.
    set (l := filter _ _).
    assert (∀ r, r ∈ l ↔ matches method EmptyString r = true ∧ registered r s ∧ r_pattern r = p) as Hl.
    { intros r. unfold l. rewrite list_elem_of_filter, elem_of_py_sorted, Hiff. done. }
    destruct l as [|r l]; simpl.
    + intros r Hr Hpr. destruct (matches method EmptyString r) eqn:E; [|done].
      exfalso. eapply not_elem_of_nil, Hl. eauto.
    + destruct (proj1 (Hl r)) as (? & ? & ?); [by constructor|done].
Qed.

(** The exact pattern is looked up first. *)
Lemma exact_spec :
  match match dict_get path (rr_routes s) with
        | Some versions => pick versions method version | None => None end with
  | Some r => registered r s ∧ r_pattern r = path ∧ matches method version r = true
  | None => ∀ r, registered r s → r_pattern r = path → matches method version r = false
  end.
Proof.
  destruct (dict_get path (rr_routes s)) as [versions|] eqn:E; [by apply pick_spec|].
  intros r (versions & Hg & _) <-. congruence.
Qed.
End Resolve.

(** On a registry whose patterns compile, a failed resolution is one of the two
    gateway errors. *)
Lemma resolve_error s path method version e :
  registry_wf s → patterns_ok s → resolve path method version s = Err e →
  e = RouteNotFound path method ∨ ∃ allowed, e = MethodNotAllowed path method allowed.
Proof.
  intros Hs Hok. unfold resolve.
  destruct (match dict_get path (rr_routes s) with Some _ => _ | None => _ end); [done|].
  destruct (matches_spec s Hs Hok path method version) as (l & -> & _).
  destruct (py_sorted match_lt l); [|done].
  destruct (any_route_spec s Hs Hok path version) as ([] & -> & _); [|intros [= <-]; by left].
  destruct (allowed_methods_ok s Hs Hok path version) as [a ->]. intros [= <-]. right. eauto.
Qed.

Lemma negotiate_error headers url query cfg e :
  negotiate headers url query cfg = Err e → ∃ v, e = VersionNotSupported v (supported_versions cfg).
Proof.
  unfold negotiate. destruct (first_candidate _) as [[v src]|]; [|done].
  destruct (negb _); intros; simplify_eq. eauto.
Qed.

(** (C5) [RouteRegistry.resolve], on a registry that is well formed (routes are
    stored under their pattern) and whose patterns all compile: a returned
    route is registered, accepts the method and the version, and either its
    pattern is the path itself, or it captures the returned parameters from the
    path and no route registered under the path itself accepts the method and
    the version; [RouteNotFoundError] means that no route of the version matches
    the path; [MethodNotAllowedError] that some do and none accepts the method.
    Nothing else is raised. *)
Theorem resolve_correct (s : RouteRegistry) (path method version : string) :
  registry_wf s → patterns_ok s →
  match resolve path method version s with
  | Ok (r, params) =>
      registered r s ∧ matches method version r = true ∧
      (r_pattern r = path ∧ params = [] ∨
       r_pattern r ≠ path ∧ captures r path = Some params ∧
       ∀ r', registered r' s → r_pattern r' = path → matches method version r' = false)
  | Err (RouteNotFound p m) =>
      p = path ∧ m = method ∧
      ∀ r, registered r s → of_version version r = true → captures r path = None
  | Err (MethodNotAllowed p m allowed) =>
      p = path ∧ m = method ∧
      (∃ r, registered r s ∧ of_version version r = true ∧ is_Some (captures r path)) ∧
      ∀ r, registered r s → is_Some (captures r path) → matches method version r = false
  | Err _ => False
  end.
Proof.
  intros Hs Hok. pose proof (exact_spec s Hs path method version) as Hexact.
  unfold resolve. destruct (match dict_get path (rr_routes s) with Some _ => _ | None => _ end) as [r|].
  { naive_solver. }
  destruct (matches_spec s Hs Hok path method version) as (l & -> & Hl).
  assert (∀ r, registered r s → matches method version r = true → is_Some (captures r path) →
            ∃ d, (r, d) ∈ l) as Hcand.
  { intros r Hr Hm [d Hd]. exists d. apply Hl. split; [done|]. split; [|done].
    intros Hp. by rewrite Hexact in Hm. }
  destruct (py_sorted match_lt l) as [|[r params] rest] eqn:Hsort.
  - pose proof (py_sorted_perm match_lt l) as Hperm. rewrite Hsort in Hperm.
    apply Permutation_nil in Hperm as ->.
    destruct (any_route_spec s Hs Hok path version) as ([] & -> & Hb).
    + destruct (allowed_methods_ok s Hs Hok path version) as [a ->].
      split; [done|]. split; [done|]. split; [by apply Hb|]. intros r Hr Hc.
      destruct (matches method version r) eqn:Hm; [|done].
      by destruct (Hcand r Hr Hm Hc) as [d []%elem_of_nil].
    + split; [done|]. split; [done|]. intros r Hr Hv.
      destruct (captures r path) as [d|] eqn:Hc; [|done].
      assert (false = true); [|done]. apply Hb. exists r. rewrite Hc. eauto.
  - assert ((r, params) ∈ l) as Hin by (rewrite <- (elem_of_py_sorted match_lt), Hsort; by constructor).
    apply Hl in Hin as (Hr & Hp & Hm & Hc). split; [done|]. split; [done|]. right.
    done.
Qed.

Definition route (pattern : string) : Route :=
  MkRoute pattern (Some "h"%string) ["GET"%string] "v1" HTTP PUBLIC false (NInt 0) "" "" "" "".

Definition after_register (r : Route) (s : RouteRegistry) : RouteRegistry :=
  match register r s with Ok s' => s' | Err _ => s end.

Definition two_routes : RouteRegistry :=
  after_register (route "/{kind}/{id}") (after_register (route "/users/{id}") (new_registry "v1")).

Lemma after_register_wf r s : registry_wf s → registry_wf (after_register r s).
Proof.
  intros Hs. unfold after_register. destruct (register r s) eqn:E; [|done].
  by destruct (registry_wf_register _ _ _ Hs E).
Qed.

Lemma resolve_correct_witness :
  registry_wf two_routes ∧
  match resolve "/users/5" "POST" "v1" two_routes with
  | Err (MethodNotAllowed _ _ allowed) =>
      allowed = ["GET"%string] ∧
      ∃ r, registered r two_routes ∧ of_version "v1" r = true ∧ is_Some (captures r "/users/5")
  | _ => False
  end.
Proof.
  assert (registry_wf two_routes) as Hwf
    by (unfold two_routes; do 2 apply after_register_wf; apply registry_wf_new).
  split; [exact Hwf|].
  pose proof (resolve_correct two_routes "/users/5" "POST" "v1" Hwf) as H.
  assert (patterns_ok two_routes) as Hok.
  { intros p. unfold dict_mem, two_routes. simpl. repeat case_decide; subst; try discriminate;
      intros _; vm_compute; reflexivity. }
  specialize (H Hok).
  assert (resolve "/users/5" "POST" "v1" two_routes
          = Err (MethodNotAllowed "/users/5" "POST" ["GET"%string])) as E by (vm_compute; reflexivity).
  rewrite E in *. destruct H as (_ & _ & H & _). split; [reflexivity|exact H].
Defined.

(** Among the patterns with parameters the one with the fewest static
    segments wins: the path [/users/5] is routed to [/{kind}/{id}] although
    [/users/{id}] is registered. *)
Theorem resolve_prefers_generic :
  resolve "/users/5" "GET" "v1" two_routes
  = Ok (route "/{kind}/{id}", [("kind", "users"); ("id", "5")]%string) ∧
  registered (route "/users/{id}") two_routes ∧
  captures (route "/users/{id}") "/users/5" = Some [("id", "5")]%string.
Proof.
  split; [vm_compute; reflexivity|]. split; [|vm_compute; reflexivity].
  eexists. split; vm_compute; reflexivity.
Qed.

(** ** Version negotiation *)

(** The negotiated version is the first non-empty of header, URL and query
    (URL first without header priority) and is supported, or it is the
    configured default when all three are empty; an unsupported candidate
    raises, naming the supported versions.  The deprecation flag tells whether
    the version is deprecated. *)
Theorem negotiate_correct (headers : dict string string) (url_version : string)
    (query : dict string string) (cfg : VersionConfig) :
  let header := header_version headers cfg in
  let q := default EmptyString (dict_get "version"%string query) in
  let first := if version_header_priority cfg then str_or header url_version
               else str_or url_version header in
  let candidate := str_or first q in
  match negotiate headers url_version query cfg with
  | Ok info =>
      vi_version info = str_or candidate (default_version cfg) ∧
      (candidate = EmptyString ∨ candidate ∈ supported_versions cfg) ∧
      (vi_deprecated info = true ↔ vi_version info ∈ deprecated_versions cfg)
  | Err (VersionNotSupported v l) =>
      v = candidate ∧ l = supported_versions cfg ∧ v ∉ l ∧ v ≠ EmptyString
  | Err _ => False
  end.
Proof.
  intros header q first candidate.
  assert (∀ v, (mem v (deprecated_versions cfg) = true ↔ v ∈ deprecated_versions cfg)) as Hmem
    by (intros; apply bool_decide_eq_true).
  assert (match first_candidate (if version_header_priority cfg
            then [(header, "header"%string); (url_version, "url"%string); (q, "query"%string)]
            else [(url_version, "url"%string); (header, "header"%string); (q, "query"%string)]) with
          | Some (v, _) => v = candidate ∧ v ≠ EmptyString
          | None => candidate = EmptyString
          end) as Hc.
  { unfold candidate, first. destruct (version_header_priority cfg), header, url_version, q; simpl; done. }
  unfold negotiate. fold header q. destruct (first_candidate _) as [[v src]|].
  - destruct Hc as [-> Hne]. destruct (mem candidate (supported_versions cfg)) eqn:E; simpl.
    + split; [by destruct candidate|]. split; [right; by apply bool_decide_eq_true in E|apply Hmem].
    + apply bool_decide_eq_false in E. done.
  - simpl. rewrite Hc. split; [done|]. split; [by left|apply Hmem].
Qed.
