(* ===== verification/Gateway.v ===== *)
(** * The API gateway ([app/gateway/gateway.py], [app/gateway/middleware.py],
      [app/gateway/statistics.py])

    [APIGateway.dispatch] negotiates the version, resolves the route and runs
    the request through the middleware chain: error handling, correlation,
    logging, authentication, tenant, organization context, rate limit, quota,
    cache, and the route's handler.  A middleware is a function on the next
    handler, a state-and-exception computation over the gateway's state.

    The request object is part of the state (middlewares assign to it and read
    it after the next handler returned), and responses live in a heap: a cached
    response is the object that was returned to the first caller, and the
    middlewares assign headers to it.

    The authentication manager, the tenant manager, the handlers, the service
    dispatcher and the digest behind [cache_key] are interfaces.  Handlers
    return a fresh response or a plain value, or raise an [Exception]; the
    cancellation of a request, which nothing catches and after which the quota
    stays charged, is not modelled. *)

From Stdlib Require Import ZArith Lia.
From stdpp Require Import base numbers strings list.
From S2P Require Import Prelude PyFloat PyNum PyStr PyDict RateLimit Quota ResponseCache Routing.

Open Scope Z_scope.

(** ** Exceptions ([app/gateway/exceptions.py]) *)

Inductive GatewayError :=
| RouteNotFoundError (path method : string)
| MethodNotAllowedError (path method : string) (allowed : list string)
| VersionNotSupportedError (version : string) (supported : list string)
| RateLimitExceededError (k strategy : string) (retry_after : num) (limit : Z)
| QuotaExceeded (bucket : string) (limit used : Z)
| AuthenticationFailedError (message : string)
| ForbiddenError (permission : string)
| TenantIsolationError (message : string)
| WebSocketUpgradeError (message : string)
| ServiceError (status : Z) (code message : string).

Definition exc_status (e : GatewayError) : Z :=
  match e with
  | RouteNotFoundError _ _ => 404
  | MethodNotAllowedError _ _ _ => 405
  | VersionNotSupportedError _ _ => 400
  | RateLimitExceededError _ _ _ _ => 429
  | QuotaExceeded _ _ _ => 429
  | AuthenticationFailedError _ => 401
  | ForbiddenError _ => 403
  | TenantIsolationError _ => 403
  | WebSocketUpgradeError _ => 400
  | ServiceError st _ _ => st
  end.

(** An exception: a [GatewayError] or any other instance of [Exception], which is
    what the handlers of the middlewares catch.  A cancellation of the task that
    serves the request (a [BaseException]) passes through all of them, the refund
    of the quota included; requests are served to their end here. *)
Inductive Exn := Gw (e : GatewayError) | Other (message : string).

(** ** Requests and responses *)

(** [body]: the dictionary of an error, the internal error, or a value. *)
Inductive Body := BError (e : GatewayError) | BInternal | BValue (v : string).

Record GatewayResponse := MkResponse {
  status_code : Z;
  rs_headers : dict string string;
  rs_body : Body;
  content_type : string
}.

Record Principal := MkPrincipal {
  user_id : string;
  scopes : list string;
  roles : list string
}.

Record GatewayRequest := MkRequest {
  rq_method : string;
  rq_path : string;
  rq_headers : dict string string;
  rq_query : dict string string;
  rq_version : string;
  rq_client_id : string;
  rq_principal : option Principal;
  rq_tenant_id : string;
  rq_organization_id : string;
  rq_workspace_id : string;
  rq_path_params : dict string string;
  rq_correlation_id : string;
  rq_route : option Route;          (* metadata["route"] *)
  rq_quota_amount : Z               (* metadata.get("quota_amount", 1) *)
}.

Definition with_correlation (c : string) (r : GatewayRequest) : GatewayRequest :=
  MkRequest (rq_method r) (rq_path r) (rq_headers r) (rq_query r) (rq_version r) (rq_client_id r)
    (rq_principal r) (rq_tenant_id r) (rq_organization_id r) (rq_workspace_id r)
    (rq_path_params r) c (rq_route r) (rq_quota_amount r).
Definition with_principal (p : Principal) (client : string) (r : GatewayRequest) : GatewayRequest :=
  MkRequest (rq_method r) (rq_path r) (rq_headers r) (rq_query r) (rq_version r) client
    (Some p) (rq_tenant_id r) (rq_organization_id r) (rq_workspace_id r)
    (rq_path_params r) (rq_correlation_id r) (rq_route r) (rq_quota_amount r).
Definition with_tenant (t : string) (r : GatewayRequest) : GatewayRequest :=
  MkRequest (rq_method r) (rq_path r) (rq_headers r) (rq_query r) (rq_version r) (rq_client_id r)
    (rq_principal r) t (rq_organization_id r) (rq_workspace_id r)
    (rq_path_params r) (rq_correlation_id r) (rq_route r) (rq_quota_amount r).
Definition with_org (o w : string) (r : GatewayRequest) : GatewayRequest :=
  MkRequest (rq_method r) (rq_path r) (rq_headers r) (rq_query r) (rq_version r) (rq_client_id r)
    (rq_principal r) (rq_tenant_id r) o w
    (rq_path_params r) (rq_correlation_id r) (rq_route r) (rq_quota_amount r).
Definition with_target (path version : string) (route : option Route) (params : dict string string)
    (r : GatewayRequest) : GatewayRequest :=
  MkRequest (rq_method r) path (rq_headers r) (rq_query r) version (rq_client_id r)
    (rq_principal r) (rq_tenant_id r) (rq_organization_id r) (rq_workspace_id r)
    params (rq_correlation_id r) route (rq_quota_amount r).

(** ** Metrics *)

Record Metrics := MkMetrics {
  m_enabled : bool;
  m_requests : dict (string * string) Z;
  m_errors : dict (string * string) Z;
  m_latencies : dict string (list float);
  m_rate_limit_hits : dict string Z;
  m_quota_hits : dict string Z;
  m_versions : dict string Z;
  m_protocols : dict string Z
}.

(** [d[k] += 1] on a [defaultdict(int)] *)
Definition bump {K} `{EqDecision K} (k : K) (d : dict K Z) : dict K Z :=
  dict_set k (default 0 (dict_get k d) + 1) d.

Definition record_request (method path : string) (status : Z) (duration : float)
    (version protocol : string) (m : Metrics) : Metrics :=
  if negb (m_enabled m) then m
  else
    MkMetrics (m_enabled m) (bump (method, path) (m_requests m))
      (if 400 <=? status then bump (path, str_of_Z status) (m_errors m) else m_errors m)
      (dict_set path (default [] (dict_get path (m_latencies m)) ++ [duration]) (m_latencies m))
      (m_rate_limit_hits m) (m_quota_hits m)
      (bump (str_or version "unknown") (m_versions m)) (bump protocol (m_protocols m)).

Definition record_rate_limit_hit (strategy : string) (m : Metrics) : Metrics :=
  if negb (m_enabled m) then m
  else MkMetrics (m_enabled m) (m_requests m) (m_errors m) (m_latencies m)
         (bump strategy (m_rate_limit_hits m)) (m_quota_hits m) (m_versions m) (m_protocols m).

Definition record_quota_hit (bucket : string) (m : Metrics) : Metrics :=
  if negb (m_enabled m) then m
  else MkMetrics (m_enabled m) (m_requests m) (m_errors m) (m_latencies m)
         (m_rate_limit_hits m) (bump bucket (m_quota_hits m)) (m_versions m) (m_protocols m).

(** ** State and interfaces *)

Abbreviation loc := nat (only parsing).

Record GwState := MkState {
  gs_request : GatewayRequest;
  gs_limiter : RateLimiter;
  gs_quotas : QuotaManager;
  gs_cache : ResponseCache loc;
  gs_heap : list GatewayResponse;
  gs_metrics : Metrics;
  gs_calls : list GatewayRequest    (* the requests that reached a handler *)
}.

Definition set_request (f : GatewayRequest → GatewayRequest) (s : GwState) : GwState :=
  MkState (f (gs_request s)) (gs_limiter s) (gs_quotas s) (gs_cache s) (gs_heap s) (gs_metrics s)
    (gs_calls s).
Definition set_limiter_ (l : RateLimiter) (s : GwState) : GwState :=
  MkState (gs_request s) l (gs_quotas s) (gs_cache s) (gs_heap s) (gs_metrics s) (gs_calls s).
Definition set_quotas (q : QuotaManager) (s : GwState) : GwState :=
  MkState (gs_request s) (gs_limiter s) q (gs_cache s) (gs_heap s) (gs_metrics s) (gs_calls s).
Definition set_cache (c : ResponseCache loc) (s : GwState) : GwState :=
  MkState (gs_request s) (gs_limiter s) (gs_quotas s) c (gs_heap s) (gs_metrics s) (gs_calls s).
Definition set_metrics (f : Metrics → Metrics) (s : GwState) : GwState :=
  MkState (gs_request s) (gs_limiter s) (gs_quotas s) (gs_cache s) (gs_heap s) (f (gs_metrics s))
    (gs_calls s).
Definition set_heap (h : list GatewayResponse) (s : GwState) : GwState :=
  MkState (gs_request s) (gs_limiter s) (gs_quotas s) (gs_cache s) h (gs_metrics s) (gs_calls s).
Definition note_call (s : GwState) : GwState :=
  MkState (gs_request s) (gs_limiter s) (gs_quotas s) (gs_cache s) (gs_heap s) (gs_metrics s)
    (gs_calls s ++ [gs_request s]).

Abbreviation M := (SE Exn GwState).

Definition alloc (r : GatewayResponse) : M loc := λ s,
  (Ok (length (gs_heap s)), set_heap (gs_heap s ++ [r]) s).

Definition blank : GatewayResponse := MkResponse 200 [] BInternal "application/json".

Definition deref (l : loc) (s : GwState) : GatewayResponse := default blank (gs_heap s !! l).

(** [response.headers[k] = v] *)
Definition put_header (l : loc) (k v : string) (s : GwState) : GwState :=
  let r := deref l s in
  set_heap (<[l := MkResponse (status_code r) (dict_set k v (rs_headers r)) (rs_body r)
                     (content_type r)]> (gs_heap s)) s.

(** What a handler returns: a response, or a value that becomes a body. *)
Inductive HandlerResult := HResponse (r : GatewayResponse) | HValue (v : string).

Record CachePayload := MkPayload {
  cp_method : string; cp_path : string; cp_version : string; cp_route : string;
  cp_query : dict string string; cp_tenant : string; cp_client : string
}.

(** What the gateway needs from the other components. *)
Class GatewayEnv := {
  authenticate : dict string string → result string (option Principal);
  get_active : string → option string;
  call_handler : string → GatewayRequest → result Exn HandlerResult;
  dispatch_service : Route → GatewayRequest → result Exn GatewayResponse;
  digest : CachePayload → string
}.

(** The clock readings of one dispatch. *)
Record Times := MkTimes {
  t_started : float;
  t_finished : float;
  t_limiter : Clock;
  t_cache_get : float;
  t_cache_set : float
}.

Record GatewayOptions := MkOptions {
  correlation_header : string;
  has_authentication : bool;
  has_tenants : bool;
  versions : VersionConfig
}.

Section Gateway.
Context `{!GatewayEnv}.

Definition header_or (k : string) (d : string) (h : dict string string) : string :=
  default d (dict_get k h).

(** ** [error_response] *)

Definition error_response (e : Exn) : result Exn GatewayResponse :=
  let json := [("Content-Type", "application/json")]%string in
  match e with
  | Gw (RateLimitExceededError k st retry limit as g) =>
      match num_int retry with
      | Ok secs =>
          Ok (MkResponse (exc_status g)
                (json ++ [("Retry-After"%string, str_of_Z (secs + 1));
                          ("X-RateLimit-Limit"%string, str_of_Z limit);
                          ("X-RateLimit-Remaining"%string, "0"%string)]) (BError g) "application/json")
      | Err _ => Err (Other "int(retry_after)")
      end
  | Gw (QuotaExceeded b limit used as g) =>
      Ok (MkResponse (exc_status g) (json ++ [("X-Quota-Bucket"%string, b)]) (BError g) "application/json")
  | Gw g => Ok (MkResponse (exc_status g) json (BError g) "application/json")
  | Other _ => Ok (MkResponse 500 json BInternal "application/json")
  end.

(** ** The middlewares *)

Definition respond (e : Exn) : M loc :=
  r ← se_lift (error_response e);
  alloc r.

Definition error_handling (next : M loc) : M loc := λ s,
  match next s with
  | (Ok l, s') => (Ok l, s')
  | (Err (Gw e), s') => respond (Gw e) s'
  | (Err (Other _), s') => respond (Other "internal gateway error") s'
  end.

Definition correlation (header : string) (next : M loc) : M loc :=
  se_modify (set_request (λ r,
    match dict_get header (rq_headers r) with
    | Some c => with_correlation c r
    | None => r
    end));;
  l ← next;
  se_modify (λ s, put_header l header (rq_correlation_id (gs_request s)) s);;
  mret l.

Definition logging (t : Times) (next : M loc) : M loc :=
  l ← next;
  se_modify (λ s,
    let r := gs_request s in
    set_metrics (record_request (rq_method r) (rq_path r) (status_code (deref l s))
                   (fsub (t_finished t) (t_started t)) (rq_version r) "http") s);;
  mret l.

(** The permission a private route asks for. *)
Definition permitted (route : option Route) (p : Principal) : bool :=
  match route with
  | Some r =>
      if decide (r_visibility r = PRIVATE)
      then negb (truthy (r_permission r)) || mem (r_permission r) (scopes p) || mem "admin" (roles p)
      else true
  | None => true
  end.

Definition is_public (route : option Route) : bool :=
  match route with Some r => bool_decide (r_visibility r = PUBLIC) | None => false end.

Definition auth (next : M loc) : M loc := λ s,
  let req := gs_request s in
  if is_public (rq_route req) then next s
  else
    match authenticate (rq_headers req) with
    | Err m => (Err (Gw (AuthenticationFailedError m)), s)
    | Ok None => (Err (Gw (AuthenticationFailedError "Missing or invalid credentials")), s)
    | Ok (Some p) =>
        if negb (permitted (rq_route req) p)
        then (Err (Gw (ForbiddenError (default ""%string (r_permission <$> rq_route req)))), s)
        else next (set_request (with_principal p (str_or (rq_client_id req) (user_id p))) s)
    end.

Definition tenant (next : M loc) : M loc := λ s,
  let req := gs_request s in
  let tid := header_or "X-Tenant-ID" (rq_tenant_id req) (rq_headers req) in
  if negb (truthy tid) then (Err (Gw (TenantIsolationError "Missing tenant header X-Tenant-ID")), s)
  else
    match get_active tid with
    | None => (Err (Gw (TenantIsolationError tid)), s)
    | Some t => next (set_request (with_tenant t) s)
    end.

Definition org_context (next : M loc) : M loc :=
  se_modify (set_request (λ r,
    with_org (header_or "X-Organization-ID" (rq_organization_id r) (rq_headers r))
             (header_or "X-Workspace-ID" (rq_workspace_id r) (rq_headers r)) r));;
  next.

Definition rate_limit_key (req : GatewayRequest) : string :=
  let base :=
    match rq_route req with
    | Some r => str_or (r_rate_limit_key r) (rq_method req +:+ ":" +:+ rq_path req)
    | None => rq_method req +:+ ":" +:+ rq_path req
    end in
  str_or (rq_tenant_id req) "anon" +:+ ":" +:+ str_or (rq_client_id req) "anon" +:+ ":" +:+ base.

Definition rate_limit (t : Times) (next : M loc) : M loc := λ s,
  let k := rate_limit_key (gs_request s) in
  match rl_check k 1 (t_limiter t) (gs_limiter s) with
  | (Err _, l') => (Err (Other "rate limiter"), set_limiter_ l' s)
  | (Ok d, l') =>
      let s := set_limiter_ l' s in
      if negb (allowed d) then
        (Err (Gw (RateLimitExceededError k (strategy d) (retry_after d) (limit d))),
         set_metrics (record_rate_limit_hit (strategy d)) s)
      else
        (l ← next;
         se_modify (put_header l "X-RateLimit-Limit" (str_of_Z (limit d)));;
         se_modify (put_header l "X-RateLimit-Remaining" (str_of_Z (remaining d)));;
         mret l) s
  end.

Definition quota_bucket (req : GatewayRequest) : string :=
  match rq_route req with Some r => str_or (r_quota_bucket r) "requests" | None => "requests" end.

Definition quota_scope (req : GatewayRequest) : string :=
  rq_tenant_id req +:+ ":" +:+ rq_client_id req.

Definition refund_state (scope bucket : string) (amount : Z) (s : GwState) : GwState :=
  set_quotas (refund scope bucket amount (gs_quotas s)).2 s.

Definition quota (next : M loc) : M loc := λ s,
  let req := gs_request s in
  let bucket := quota_bucket req in
  let scope := quota_scope req in
  let amount := rq_quota_amount req in
  match quota_check scope bucket amount (gs_quotas s) with
  | (Err (QuotaExceededError b l u), q') =>
      (Err (Gw (QuotaExceeded b l u)), set_metrics (record_quota_hit bucket) (set_quotas q' s))
  | (Err (UnknownBucket b), q') =>
      (Err (Other b), set_metrics (record_quota_hit bucket) (set_quotas q' s))
  | (Ok _, q') =>
      match next (set_quotas q' s) with
      | (Ok l, s') =>
          (Ok l, if 500 <=? status_code (deref l s') then refund_state scope bucket amount s' else s')
      | (Err e, s') => (Err e, refund_state scope bucket amount s')
      end
  end.

Definition cache_key (req : GatewayRequest) (route : string) : string :=
  digest (MkPayload (rq_method req) (rq_path req) (rq_version req) route (rq_query req)
            (rq_tenant_id req) (rq_client_id req)).

Definition zero_num (n : num) : bool :=
  match n with NInt z => z =? 0 | NFloat f => is_fzero f end.

Definition cache (t : Times) (next : M loc) : M loc := λ s,
  let req := gs_request s in
  match rq_route req with
  | Some r =>
      if r_cacheable r && cache_enabled (rc_config (gs_cache s)) && mem (rq_method req) ["GET"; "HEAD"]%string
      then
        let k := cache_key req (r_pattern r) in
        let '(hit, c') := cache_get k (t_cache_get t) (gs_cache s) in
        let s := set_cache c' s in
        match hit with
        | Some l => (Ok l, put_header l "X-Cache" "HIT" s)
        | None =>
            match next s with
            | (Err e, s') => (Err e, s')
            | (Ok l, s') =>
                let st := status_code (deref l s') in
                if (200 <=? st) && (st <? 300) then
                  let ttl := if zero_num (r_cache_ttl_seconds r) then None else Some (r_cache_ttl_seconds r) in
                  let '(_, c2) := cache_set k l ttl (t_cache_set t) (gs_cache s') in
                  (Ok l, put_header l "X-Cache" "MISS" (set_cache c2 s'))
                else (Ok l, s')
            end
        end
      else next s
  | None => next s
  end.

(** [_invoke_route] *)
Definition invoke_route : M loc := λ s,
  let req := gs_request s in
  match rq_route req with
  | None => (Err (Gw (RouteNotFoundError (rq_path req) (rq_method req))), s)
  | Some r =>
      match r_handler r with
      | Some h =>
          let s := note_call s in
          match call_handler h req with
          | Ok (HResponse resp) => alloc resp s
          | Ok (HValue v) => alloc (MkResponse 200 [] (BValue v) "application/json") s
          | Err e => (Err e, s)
          end
      | None =>
          if decide (r_protocol r = WEBSOCKET)
          then (Err (Gw (WebSocketUpgradeError "Websocket routes must be dispatched via dispatch_websocket")), s)
          else
            let s := note_call s in
            match dispatch_service r req with
            | Ok resp => alloc resp s
            | Err e => (Err e, s)
            end
      end
  end.

(** ** [MiddlewareChain] *)

Record Middleware := MkMiddleware {
  mw_name : string;
  mw_handle : M loc → M loc
}.

Definition chain_append (m : Middleware) (ms : list Middleware) : list Middleware := ms ++ [m].
Definition chain_prepend (m : Middleware) (ms : list Middleware) : list Middleware := m :: ms.
Definition chain_remove (name : string) (ms : list Middleware) : bool * list Middleware :=
  let ms' := filter (λ m, mw_name m ≠ name) ms in
  (negb (Nat.eqb (length ms') (length ms)), ms').

(** The loop over the reversed list wraps the terminal handler. *)
Definition chain_build (ms : list Middleware) (terminal : M loc) : M loc :=
  foldl (λ handler m, mw_handle m handler) terminal (reverse ms).

(** [_build_default_chain] *)
Definition default_chain (o : GatewayOptions) (t : Times) : list Middleware :=
  [MkMiddleware "error_handling" error_handling;
   MkMiddleware "correlation" (correlation (correlation_header o));
   MkMiddleware "logging" (logging t)]
  ++ (if has_authentication o then [MkMiddleware "auth" auth] else [])
  ++ (if has_tenants o then [MkMiddleware "tenant" tenant] else [])
  ++ [MkMiddleware "org_context" org_context;
      MkMiddleware "rate_limit" (rate_limit t);
      MkMiddleware "quota" quota;
      MkMiddleware "cache" (cache t)].

Definition terminal (o : GatewayOptions) (t : Times) : M loc :=
  chain_build (default_chain o t) invoke_route.

(** ** [APIGateway.dispatch] *)

Definition route_exn (e : RouteError) : Exn :=
  match e with
  | RouteNotFound p m => Gw (RouteNotFoundError p m)
  | MethodNotAllowed p m a => Gw (MethodNotAllowedError p m a)
  | VersionNotSupported v l => Gw (VersionNotSupportedError v l)
  | BadPattern => Other "re.error"
  | ValueError_ m => Other m
  end.

(** The part of [dispatch] inside its [try]. *)
Definition process (o : GatewayOptions) (t : Times) (registry : RouteRegistry)
    (ri : result Exn VersionInfo) : M loc :=
  info ← se_lift ri;
  s ← se_get;
  let req := gs_request s in
  let '(clean, _) := strip_version_prefix (rq_path req) (versions o) in
  se_modify (set_request (with_target clean (vi_version info) None []));;
  match resolve clean (rq_method req) (vi_version info) registry with
  | Err e => se_raise (route_exn e)
  | Ok (r, params) =>
      se_modify (set_request (with_target clean (vi_version info) (Some r) params));;
      terminal o t
  end.

(** The version that [dispatch] negotiates for the request. *)
Definition request_info (o : GatewayOptions) (version : string) (req : GatewayRequest)
    : result Exn VersionInfo :=
  let '(_, url_version) := strip_version_prefix (rq_path req) (versions o) in
  match negotiate (rq_headers req) (str_or url_version version) (rq_query req) (versions o) with
  | Ok i => Ok i
  | Err e => Err (route_exn e)
  end.

(** [headers.update(...)], [headers.setdefault(...)] on the response *)
Definition finish (o : GatewayOptions) (info : VersionInfo) (l : loc) (s : GwState) : GwState :=
  let s := foldl (λ s kv, put_header l kv.1 kv.2 s) s (deprecation_headers info (versions o)) in
  match dict_get (correlation_header o) (rs_headers (deref l s)) with
  | Some _ => s
  | None => put_header l (correlation_header o) (rq_correlation_id (gs_request s)) s
  end.

Definition new_request (method path : string) (headers query : dict string string)
    (client_id tenant_id correlation_id : string) : GatewayRequest :=
  MkRequest (upper method) path headers query "" (str_or client_id (header_or "X-Client-ID" "" headers))
    None (str_or tenant_id (header_or "X-Tenant-ID" "" headers)) "" "" [] correlation_id None 1.

Definition dispatch (o : GatewayOptions) (t : Times) (registry : RouteRegistry)
    (req : GatewayRequest) (version : string) : M loc := λ s,
  let s := set_request (λ _, req) s in
  let ri := request_info o version req in
  let info := match ri with
              | Ok i => i
              | Err _ => MkVersionInfo (default_version (versions o)) "default" false ""
              end in
  match process o t registry ri s with
  | (Ok l, s') => (Ok l, finish o info l s')
  | (Err (Gw e), s') =>
      match respond (Gw e) s' with
      | (Ok l, s2) => (Ok l, finish o info l s2)
      | r => r
      end
  | (Err e, s') => (Err e, s')
  end.

(** [DispatchResult.cache_hit] *)
Definition cache_hit (l : loc) (s : GwState) : bool :=
  bool_decide (dict_get "X-Cache"%string (rs_headers (deref l s)) = Some "HIT"%string).
End Gateway.
