(* ===== verification/GatewaySpec.v ===== *)
(** * The API gateway: theorems

    What the composed pipeline of [Gateway] promises: a request that is not
    authorised has no effect, the quota is charged only for requests that are
    answered without a server error, and [dispatch] always answers. *)

From Stdlib Require Import ZArith Lia.
From stdpp Require Import base numbers strings list.
From S2P Require Import Prelude PyFloat PyNum PyStr PyDict RateLimit Quota ResponseCache Routing.
From S2P Require Import RoutingSpec Gateway.

Open Scope Z_scope.

Section Spec.
Context `{!GatewayEnv}.

(** ** The shape of the default chain *)

Definition inner (t : Times) : M nat :=
  org_context (rate_limit t (quota (cache t invoke_route))).

Definition guarded (o : GatewayOptions) (t : Times) : M nat :=
  let rest := if has_tenants o then tenant (inner t) else inner t in
  if has_authentication o then auth rest else rest.

Lemma terminal_eq o t :
  terminal o t
  = error_handling (correlation (correlation_header o) (logging t (guarded o t))).
Proof.
  unfold terminal, chain_build, default_chain, guarded, inner.
  by destruct (has_authentication o), (has_tenants o).
Qed.

(** ** The parts of the state that a step leaves alone *)

Definition same_services (s s' : GwState) : Prop :=
  gs_limiter s' = gs_limiter s ∧ gs_quotas s' = gs_quotas s ∧
  gs_cache s' = gs_cache s ∧ gs_calls s' = gs_calls s.

Lemma same_services_refl s : same_services s s.
Proof. done. Qed.

Lemma same_services_trans s1 s2 s3 :
  same_services s1 s2 → same_services s2 s3 → same_services s1 s3.
Proof. unfold same_services. intros (?&?&?&?) (?&?&?&?). repeat split; congruence. Qed.

Lemma deref_put_status l l' k v s :
  status_code (deref l (put_header l' k v s)) = status_code (deref l s).
Proof.
  unfold deref, put_header, set_heap; simpl. destruct (decide (l = l')) as [->|Hne].
  - destruct (decide (l' < length (gs_heap s))%nat) as [Hl|Hl].
    + rewrite list_lookup_insert_eq by done. done.
    + by rewrite list_insert_ge by lia.
  - by rewrite list_lookup_insert_ne.
Qed.

Lemma put_header_services l k v s : same_services s (put_header l k v s).
Proof. done. Qed.

Lemma finish_spec o info l s :
  same_services s (finish o info l s) ∧
  status_code (deref l (finish o info l s)) = status_code (deref l s).
Proof.
  unfold finish. generalize (deprecation_headers info (versions o)). intros kvs.
  assert (same_services s (foldl (λ s kv, put_header l kv.1 kv.2 s) s kvs) ∧
          status_code (deref l (foldl (λ s kv, put_header l kv.1 kv.2 s) s kvs))
          = status_code (deref l s)) as [Hs Hd].
  { revert s. induction kvs as [|[k v] kvs IH]; intros s; simpl; [done|].
    destruct (IH (put_header l k v s)) as [H1 H2]. split.
    - eapply same_services_trans; [apply put_header_services|exact H1].
    - by rewrite H2, deref_put_status. }
  destruct (dict_get _ _); [done|]. rewrite deref_put_status. split; [|done].
  eapply same_services_trans; [exact Hs|apply put_header_services].
Qed.

Lemma respond_spec e s :
  match respond e s with
  | (Ok l, s') =>
      same_services s s' ∧ gs_request s' = gs_request s ∧ l = length (gs_heap s) ∧
      status_code (deref l s') = match e with Gw g => exc_status g | Other _ => 500 end
  | (Err x, s') => s' = s ∧ x = Other "int(retry_after)" ∧
      ∃ k st retry lim, e = Gw (RateLimitExceededError k st retry lim) ∧ is_ok (num_int retry) = false
  end.
Proof.
  unfold respond, mbind, SE_bind, se_lift, alloc.
  assert (∀ r, error_response e = Ok r →
            status_code r = match e with Gw g => exc_status g | Other _ => 500 end) as Hst.
  { destruct e as [[]|]; simpl; intros r Hr; try (by simplify_eq).
    destruct (num_int retry_after); by simplify_eq. }
  destruct (error_response e) as [r|x] eqn:E.
  - split; [done|]. split; [done|]. split; [done|]. unfold deref; simpl.
    rewrite list_lookup_middle by done. simpl. by apply Hst.
  - split; [done|]. destruct e as [[]|]; simpl in E; try done.
    destruct (num_int retry_after) eqn:En; [done|]. simplify_eq.
    split; [done|]. do 4 eexists. split; [done|]. by rewrite En.
Qed.

(** ** Authorisation *)

(** A public route, or valid credentials with the permission of the route. *)
Definition authorised (route : option Route) (headers : dict string string) : bool :=
  is_public route ||
  match authenticate headers with Ok (Some p) => permitted route p | _ => false end.

Lemma auth_refuses next s :
  authorised (rq_route (gs_request s)) (rq_headers (gs_request s)) = false →
  ∃ e, auth next s = (Err (Gw e), s) ∧ (exc_status e = 401 ∨ exc_status e = 403) ∧
    ∀ k st rt lim, e ≠ RateLimitExceededError k st rt lim.
Proof.
  unfold authorised, auth. intros [Hp Ha]%orb_false_elim. rewrite Hp.
  destruct (authenticate _) as [[p|]|m]; [rewrite Ha; simpl|..];
    (eexists; split; [done|]); split; auto; done.
Qed.

Lemma terminal_refused o t s :
  has_authentication o = true →
  authorised (rq_route (gs_request s)) (rq_headers (gs_request s)) = false →
  ∃ l s', terminal o t s = (Ok l, s') ∧ same_services s s' ∧
    (status_code (deref l s') = 401 ∨ status_code (deref l s') = 403).
Proof.
  intros Ho Ha. rewrite terminal_eq. unfold guarded. rewrite Ho.
  set (rest := if has_tenants o then _ else _).
  set (s1 := set_request (λ r, match dict_get (correlation_header o) (rq_headers r) with
                               | Some c => with_correlation c r | None => r end) s).
  assert (authorised (rq_route (gs_request s1)) (rq_headers (gs_request s1)) = false) as Ha1.
  { unfold s1, set_request; simpl. by destruct (dict_get _ _). }
  destruct (auth_refuses rest s1 Ha1) as (e & He & Hst & Hnr).
  unfold error_handling, correlation.
  rewrite (se_bind_Ok _ _ s tt s1) by done.
  rewrite (se_bind_Err _ _ s1 (Gw e) s1).
  2: { unfold logging. by apply se_bind_Err. }
  pose proof (respond_spec (Gw e) s1) as Hr. destruct (respond (Gw e) s1) as [[l|x] s2].
  - destruct Hr as (Hs & _ & _ & Hl). exists l, s2. split; [done|]. rewrite Hl. split; [|done].
    destruct Hs as (?&?&?&?). by repeat split.
  - destruct Hr as (_ & _ & k & st & rt & lim & [= ->] & _). by destruct (Hnr k st rt lim).
Qed.
End Spec.

(** With authentication configured, a request to a route that is not public
    and without valid credentials (or, on a private route, without its
    permission) is answered with status 401 or 403 and changes nothing: no
    handler runs, no quota is charged, no token of the rate limiter is taken, and
    the cache is neither read nor written. *)
Theorem unauthorised_no_effect `{!GatewayEnv} (o : GatewayOptions) (t : Times)
    (registry : RouteRegistry) (req : GatewayRequest) (version : string) (s : GwState)
    (info : VersionInfo) (r : Route) (params : dict string string) :
  has_authentication o = true →
  request_info o version req = Ok info →
  resolve (strip_version_prefix (rq_path req) (versions o)).1 (rq_method req) (vi_version info)
    registry = Ok (r, params) →
  authorised (Some r) (rq_headers req) = false →
  ∃ l s', dispatch o t registry req version s = (Ok l, s') ∧
    same_services s s' ∧
    (status_code (deref l s') = 401 ∨ status_code (deref l s') = 403).
Proof.
  intros Ho Hi Hr Ha. unfold dispatch. rewrite Hi.
  set (s1 := set_request (λ _, req) s).
  destruct (strip_version_prefix (rq_path req) (versions o)) as [clean uv] eqn:Hc. simpl in Hr.
  set (s2 := set_request (with_target clean (vi_version info) (Some r) params)
               (set_request (with_target clean (vi_version info) None []) s1)).
  destruct (terminal_refused o t s2 Ho) as (l & s3 & Ht & Hs & Hst); [done|].
  assert (process o t registry (Ok info) s1 = (Ok l, s3)) as ->.
  { unfold process. rewrite (se_bind_Ok _ _ _ info s1) by done.
    rewrite (se_bind_Ok _ _ _ s1 s1) by done. cbv zeta.
    change (gs_request s1) with req. rewrite Hc.
    rewrite (se_bind_Ok _ _ _ tt _) by done. rewrite Hr.
    rewrite (se_bind_Ok _ _ _ tt _) by done. exact Ht. }
  destruct (finish_spec o info l s3) as [Hf1 Hf2].
  exists l, (finish o info l s3). split; [done|]. split; [|by rewrite Hf2].
  eapply same_services_trans; [|exact Hf1]. destruct Hs as (?&?&?&?). by repeat split.
Qed.

(** A small environment: one user, a handler that fails on request. *)
#[local] Instance demo_env : GatewayEnv := {
  authenticate h :=
    Ok (match dict_get "Authorization"%string h with
        | Some u => Some (MkPrincipal u ["read"%string] [])
        | None => None
        end);
  get_active t := Some t;
  call_handler h req :=
    if decide (h = "fail"%string) then Err (Other "boom") else Ok (HValue h);
  dispatch_service _ _ := Err (Gw (ServiceError 503 "service_unavailable" ""));
  digest p := cp_method p +:+ cp_path p +:+ cp_tenant p +:+ cp_client p
}.

Definition demo_versions : VersionConfig :=
  MkVersionConfig "v1" ["v1"; "v2"]%string ["v1"%string] "X-API-Deprecated" "X-API-Version" true true.
Definition demo_options : GatewayOptions := MkOptions "X-Correlation-ID" true false demo_versions.
Definition demo_times : Times :=
  MkTimes fzero fzero (MkClock fzero fzero) (float_of_Z 1) (float_of_Z 1).
Definition demo_route (pattern handler permission : string) : Route :=
  MkRoute pattern (Some handler) ["GET"%string] "v1" HTTP
    (if truthy permission then PRIVATE else AUTHENTICATED) true (NInt 0) "" "" permission "".
Definition demo_registry : RouteRegistry :=
  after_register (demo_route "/admin" "ok" "write")
    (after_register (demo_route "/fail" "fail" "") (after_register (demo_route "/a" "ok" "")
       (new_registry "v1"))).
Definition demo_state : GwState :=
  MkState (new_request "GET" "/a" [] [] "" "" "c0")
    (new_rate_limiter (MkConfig "fixed_window" 10 10 (NInt 1)))
    (new_quota (MkQuotaConfig 5 5 5 5 5)) (new_cache (MkCacheConfig true (NInt 60) 10)) []
    (MkMetrics true [] [] [] [] [] [] []) [].
Definition demo_request (path : string) (headers : dict string string) : GatewayRequest :=
  new_request "get" path headers [] "" "" "c1".

Lemma unauthorised_no_effect_witness :
  ∃ l s', dispatch demo_options demo_times demo_registry
            (demo_request "/admin" [("Authorization", "bob")]%string) "" demo_state = (Ok l, s') ∧
    same_services demo_state s' ∧
    (status_code (deref l s') = 401 ∨ status_code (deref l s') = 403).
Proof.
  eapply (unauthorised_no_effect demo_options demo_times demo_registry
    (demo_request "/admin" [("Authorization", "bob")]%string) "" demo_state).
  - reflexivity.
  - vm_compute; reflexivity.
  - vm_compute; reflexivity.
  - vm_compute; reflexivity.
Defined.

Section Charging.
Context `{!GatewayEnv}.

Definition keeps_quotas (m : M nat) : Prop := ∀ s, gs_quotas (m s).2 = gs_quotas s.

Lemma invoke_keeps : keeps_quotas invoke_route.
Proof. intros s. unfold invoke_route. split_ifs; try done. all: unfold alloc; by split_ifs. Qed.

Lemma cache_keeps t next : keeps_quotas next → keeps_quotas (cache t next).
Proof.
  intros Hn s. unfold cache. destruct (rq_route _) as [r|]; [|apply Hn].
  destruct (_ && _); [|apply Hn]. destruct (cache_get _ _ _) as [[l|] c']; [done|].
  pose proof (Hn (set_cache c' s)) as Hs. destruct (next (set_cache c' s)) as [[l|e] s'];
    simpl in *; [|done].
  destruct (_ && _); [|done]. unfold cache_set. done.
Qed.

(** Whether the response that comes back through the quota middleware is one
    that is paid for. *)
Definition answered (r : result Exn nat) (s : GwState) : bool :=
  match r with Ok l => status_code (deref l s) <? 500 | Err _ => false end.

Lemma quota_effect next s :
  keeps_quotas next →
  let req := gs_request s in
  0 <= usage (quota_scope req) (quota_bucket req) (gs_quotas s) →
  let '(r, s') := quota next s in
  ∀ sc b, usage sc b (gs_quotas s')
    = usage sc b (gs_quotas s)
      + if answered r s' && bool_decide ((quota_scope req, quota_bucket req) = (sc, b))
        then rq_quota_amount req else 0.
Proof.
  intros Hn req Hu. unfold quota. fold req.
  pose proof (quota_check_spec (quota_scope req) (quota_bucket req) (rq_quota_amount req) (gs_quotas s)) as Hc.
  destruct (quota_check _ _ _ _) as [[c|e] q'], Hc as [_ Hc].
  - destruct (_ <? _); [by destruct Hc|]. destruct Hc as [_ Hc].
    pose proof (Hn (set_quotas q' s)) as Hq. destruct (next (set_quotas q' s)) as [[l|e] s'];
      simpl in Hq; intros sc b; simpl.
    + destruct (500 <=? status_code (deref l s')) eqn:E; bool_to_prop.
      * change (deref l (refund_state _ _ _ s')) with (deref l s').
        rewrite (proj2 (Z.ltb_ge _ _)) by done. simpl. unfold refund_state; simpl.
        rewrite usage_set_usage, Hq, !Hc. repeat case_decide; simplify_eq; lia.
      * rewrite (proj2 (Z.ltb_lt _ _)) by done. simpl. rewrite Hq, Hc.
        case_bool_decide; case_decide; simplify_eq; lia.
    + unfold refund_state; simpl. rewrite usage_set_usage, Hq, !Hc.
      repeat case_decide; simplify_eq; lia.
  - destruct (_ <? _); [|by destruct Hc]. destruct Hc as [_ ->].
    destruct e; intros sc b; simpl; lia.
Qed.
End Charging.

(** (C6) The quota middleware around the cache and the route: the request's cell is
    charged with its amount exactly when it is answered (by the cache or the
    handler) with a status below 500; a refused quota, an exception of the
    handler or a server error leaves every cell's usage as it was (an exception
    is an [Exception]; a request that is cancelled is not covered). *)
Theorem quota_charged_exactly `{!GatewayEnv} (t : Times) (s : GwState) :
  let req := gs_request s in
  0 <= usage (quota_scope req) (quota_bucket req) (gs_quotas s) →
  let '(r, s') := quota (cache t invoke_route) s in
  ∀ sc b, usage sc b (gs_quotas s')
    = usage sc b (gs_quotas s)
      + if answered r s' && bool_decide ((quota_scope req, quota_bucket req) = (sc, b))
        then rq_quota_amount req else 0.
Proof. intros req Hu. apply quota_effect; [apply cache_keeps, invoke_keeps|done]. Qed.

Definition failing_state : GwState :=
  set_request (with_target "/fail" "v1" (Some (demo_route "/fail" "fail" "")) []) demo_state.

Lemma quota_charged_exactly_witness :
  usage ":" "requests" (gs_quotas (quota (cache demo_times invoke_route) failing_state).2) = 0 + 0.
Proof.
  pose proof (quota_charged_exactly demo_times failing_state) as H.
  destruct (quota (cache demo_times invoke_route) failing_state) as [r s'] eqn:E. simpl.
  rewrite H.
  - assert (r = Err (Other "boom")) as -> by (apply (f_equal fst) in E; vm_compute in E; by symmetry).
    reflexivity.
  - vm_compute. discriminate.
Defined.

Section Answers.
Context `{!GatewayEnv}.

(** The only exception that leaves the chain comes from formatting the
    [Retry-After] header. *)
Lemma terminal_total o t s :
  match (terminal o t s).1 with Ok _ => True | Err e => e = Other "int(retry_after)" end.
Proof.
  rewrite terminal_eq. unfold error_handling. set (m := correlation _ _).
  destruct (m s) as [[l|[e|e]] s1]; [done|..].
  - pose proof (respond_spec (Gw e) s1) as Hr. destruct (respond (Gw e) s1) as [[l|x] s2]; [done|].
    by destruct Hr as (_ & -> & _).
  - pose proof (respond_spec (Other "internal gateway error") s1) as Hr.
    destruct (respond _ s1) as [[l|x] s2]; [done|]. by destruct Hr as (_ & -> & _).
Qed.

(** The exceptions of [dispatch]'s own [try] block. *)
Definition routing_error (o : GatewayOptions) (registry : RouteRegistry) (version : string)
    (req : GatewayRequest) : option GatewayError :=
  match request_info o version req with
  | Err (Gw e) => Some e
  | Err (Other _) => None
  | Ok info =>
      match resolve (strip_version_prefix (rq_path req) (versions o)).1 (rq_method req)
              (vi_version info) registry with
      | Err (RouteNotFound p m) => Some (RouteNotFoundError p m)
      | Err (MethodNotAllowed p m a) => Some (MethodNotAllowedError p m a)
      | _ => None
      end
  end.

Lemma process_cases o t registry version req s :
  registry_wf registry → patterns_ok registry →
  let '(r, s') := process o t registry (request_info o version req) (set_request (λ _, req) s) in
  match routing_error o registry version req with
  | Some e => r = Err (Gw e) ∧ same_services s s'
  | None => match r with Ok _ => True | Err e => e = Other "int(retry_after)" end
  end.
Proof.
  intros Hwf Hok. unfold routing_error, request_info.
  set (s1 := set_request (λ _, req) s).
  destruct (strip_version_prefix (rq_path req) (versions o)) as [clean uv] eqn:Hc. simpl.
  destruct (negotiate _ _ _ _) as [info|e] eqn:Hn; simpl.
  2: { apply negotiate_error in Hn as [v ->]. done. }
  unfold process. rewrite (se_bind_Ok _ _ _ info s1) by done.
  rewrite (se_bind_Ok _ _ _ s1 s1) by done. cbv zeta. change (gs_request s1) with req. rewrite Hc.
  rewrite (se_bind_Ok _ _ _ tt _) by done.
  destruct (resolve clean (rq_method req) (vi_version info) registry) as [[r params]|e] eqn:Hr.
  - rewrite (se_bind_Ok _ _ _ tt _) by done. pose proof (terminal_total o t
      (set_request (with_target clean (vi_version info) (Some r) params)
         (set_request (with_target clean (vi_version info) None []) s1))) as Ht.
    by destruct (terminal o t _).
  - by destruct (resolve_error _ _ _ _ _ Hwf Hok Hr) as [->|[a ->]].
Qed.
End Answers.

(** [APIGateway.dispatch] answers every request when the registered patterns
    compile: the only exception that can leave it is the conversion of a
    [Retry-After] that is not a finite number; an unsupported version, an unknown
    path and a wrong method are answered with 400, 404 and 405 and change none of
    the limiter, the quotas, the cache and the handlers' calls. *)
Theorem dispatch_answers `{!GatewayEnv} (o : GatewayOptions) (t : Times)
    (registry : RouteRegistry) (req : GatewayRequest) (version : string) (s : GwState) :
  registry_wf registry → patterns_ok registry →
  match dispatch o t registry req version s with
  | (Ok l, s') =>
      match routing_error o registry version req with
      | Some e => status_code (deref l s') = exc_status e ∧ same_services s s'
      | None => True
      end
  | (Err e, _) => e = Other "int(retry_after)" ∧ routing_error o registry version req = None
  end.
Proof.
  intros Hwf Hok. unfold dispatch.
  pose proof (process_cases o t registry version req s Hwf Hok) as Hp.
  set (info := match request_info o version req with Ok i => i | Err _ => _ end).
  destruct (process _ _ _ _ _) as [[l|[e|e]] s1].
  - destruct (routing_error _ _ _ _); [by destruct Hp|done].
  - destruct (routing_error _ _ _ _) as [e'|] eqn:Er; [|by simplify_eq].
    destruct Hp as [[= ->] Hs]. pose proof (respond_spec (Gw e') s1) as Hr.
    destruct (respond (Gw e') s1) as [[l|x] s2].
    + destruct Hr as (Hs2 & _ & _ & Hl). destruct (finish_spec o info l s2) as [Hf1 Hf2].
      rewrite Hf2, Hl. split; [done|]. by eapply same_services_trans, same_services_trans.
    + destruct Hr as (_ & _ & k & st & rt & lim & [= ->] & _). exfalso. revert Er.
      unfold routing_error, request_info.
      destruct (strip_version_prefix _ _) as [? ?]. simpl.
      destruct (negotiate _ _ _ _) as [i|x'] eqn:Hn.
      * destruct (resolve _ _ _ _) as [[]|[]]; done.
      * apply negotiate_error in Hn as [v ->]. done.
  - destruct (routing_error _ _ _ _); [by destruct Hp as [? _]|done].
Qed.

Lemma demo_registry_wf : registry_wf demo_registry.
Proof. unfold demo_registry. do 3 apply after_register_wf. apply registry_wf_new. Defined.

Lemma demo_patterns_ok : patterns_ok demo_registry.
Proof.
  intros p. unfold dict_mem, demo_registry. simpl.
  repeat case_decide; subst; try discriminate; intros _; vm_compute; reflexivity.
Defined.

Lemma dispatch_answers_witness :
  ∃ l s', dispatch demo_options demo_times demo_registry (demo_request "/v2/a" []) "" demo_state
          = (Ok l, s') ∧ status_code (deref l s') = 404 ∧ same_services demo_state s'.
Proof.
  pose proof (dispatch_answers demo_options demo_times demo_registry (demo_request "/v2/a" []) ""
    demo_state demo_registry_wf demo_patterns_ok) as H.
  destruct (dispatch _ _ _ _ _ _) as [[l|e] s'].
  - exists l, s'. split; [reflexivity|]. vm_compute (routing_error _ _ _ _) in H. exact H.
  - destruct H as [_ H]. vm_compute in H. discriminate H.
Defined.

(** The cache returns the stored object itself: serving a second request from
    the cache marks the response that the first caller holds, which was a miss,
    as a hit. *)
Theorem cached_response_is_shared :
  let req := demo_request "/a" [("Authorization", "bob")]%string in
  let run := dispatch demo_options demo_times demo_registry req "" in
  ∃ l s1 s2, run demo_state = (Ok l, s1) ∧ run s1 = (Ok l, s2) ∧
    cache_hit l s1 = false ∧ cache_hit l s2 = true ∧ length (gs_calls s2) = 1%nat.
Proof.
  do 3 eexists. split; [vm_compute; reflexivity|]. split; [vm_compute; reflexivity|].
  vm_compute. done.
Qed.

(** The cache (and the rate limit and the quota) of an authenticated route is
    keyed by the [X-Client-ID] header when it is present, not by the
    authenticated user: a second user who sends the first user's client id is
    answered with the first user's cached response, without the handler being
    called for the second. *)
Theorem client_id_header_shares_cache :
  let as_user u := demo_request "/a" [("Authorization", u); ("X-Client-ID", "c")]%string in
  let run u := dispatch demo_options demo_times demo_registry (as_user u) "" in
  ∃ l s1 s2, run "alice"%string demo_state = (Ok l, s1) ∧ run "bob"%string s1 = (Ok l, s2) ∧
    (user_id <$> (gs_calls s2 ≫= λ r, match rq_principal r with Some p => [p] | None => [] end)) = ["alice"%string] ∧
    (user_id <$> rq_principal (gs_request s2)) = Some "bob"%string.
Proof.
  do 3 eexists. split; [vm_compute; reflexivity|]. split; [vm_compute; reflexivity|].
  split; vm_compute; reflexivity.
Qed.
