(* ===== verification/AuditLog.v ===== *)
(** * The audit log ([app/security/audit.py])

    [AuditRepository] keeps a list of records linked by keyed hashes, and
    [AuditService] is the facade that writes typed events.  HMAC-SHA-256 and
    the JSON text of a record are parameters ([HashEnv]): nothing is assumed of
    them, and the theorem about tampering exhibits a collision instead. *)

From Stdlib Require Import ZArith Lia.
From stdpp Require Import base numbers strings list.
From S2P Require Import Prelude PyFloat PyNum PyDict.

Open Scope Z_scope.

(** ** Data *)

Inductive AuditSeverity := INFO | WARNING | CRITICAL.
Inductive AuditEventType :=
| AUTHENTICATION | AUTHORIZATION | SECRET | CRYPTO | POLICY | PRIVACY | INCIDENT | COMPLIANCE | ADMIN.

#[export] Instance AuditSeverity_eq_dec : EqDecision AuditSeverity.
Proof. solve_decision. Defined.
#[export] Instance AuditEventType_eq_dec : EqDecision AuditEventType.
Proof. solve_decision. Defined.

(** What [to_dict] holds once [signature] and [hash] are removed. *)
Record AuditContent := MkContent {
  seq : Z;
  event : string;
  actor : string;
  action : string;
  resource : string;
  outcome : string;
  severity : AuditSeverity;
  event_type : AuditEventType;
  timestamp : float;
  metadata : dict string string;
  previous_hash : string
}.

#[export] Instance AuditContent_eq_dec : EqDecision AuditContent.
Proof. solve_decision. Defined.

Record AuditRecord := MkRecord {
  content : AuditContent;
  signature : string;
  hash : string
}.

Record AuditConfig := MkAuditConfig {
  audit_enabled : bool;
  audit_immutable : bool;
  audit_retention_days : Z;
  audit_hash_secret : string;
  node_id : string
}.

(** [hmac secret message] is the hexadecimal digest; [dumps] the JSON text. *)
Class HashEnv := {
  hmac : string → string → string;
  dumps : AuditContent → string
}.

Record AuditRepository := MkRepo {
  ar_config : AuditConfig;
  ar_records : list AuditRecord;
  ar_seq : Z;
  ar_last_hash : string;
  ar_violations : Z              (* the "audit_violations" metric *)
}.

Definition new_repo (config : AuditConfig) : AuditRepository :=
  MkRepo config [] 0 "genesis" 0.

Section Audit.
Context `{!HashEnv}.

(** [_chain_hash] *)
Definition chain_hash (cfg : AuditConfig) (c : AuditContent) : string :=
  let digest := hmac (audit_hash_secret cfg) (previous_hash c +:+ "|" +:+ dumps c) in
  if audit_immutable cfg then hmac (audit_hash_secret cfg) (digest +:+ "|" +:+ node_id cfg)
  else digest.

(** What a caller of [append] supplies. *)
Record AuditEvent := MkEvent {
  e_event : string;
  e_actor : string;
  e_action : string;
  e_resource : string;
  e_outcome : string;
  e_severity : AuditSeverity;
  e_type : AuditEventType;
  e_metadata : dict string string
}.

Definition append (e : AuditEvent) (now : float) (s : AuditRepository) : AuditRecord * AuditRepository :=
  let n := ar_seq s + 1 in
  let c := MkContent n (e_event e) (e_actor e) (e_action e) (e_resource e) (e_outcome e)
             (e_severity e) (e_type e) now (e_metadata e) (ar_last_hash s) in
  let sig := chain_hash (ar_config s) c in
  let r := MkRecord c sig (if audit_immutable (ar_config s) then sig else previous_hash c) in
  (r, MkRepo (ar_config s) (ar_records s ++ [r]) n sig (ar_violations s)).

(** The keyword arguments of [find]. *)
Inductive Filter :=
| FEventType (v : AuditEventType) | FSeverity (v : AuditSeverity) | FActor (v : string)
| FAction (v : string) | FOutcome (v : string) | FResource (v : string) | FEvent (v : string)
| FSeq (v : Z) | FAfter (v : float) | FBefore (v : float).

Definition filter_ok (f : Filter) (r : AuditRecord) : bool :=
  let c := content r in
  match f with
  | FEventType v => bool_decide (event_type c = v)
  | FSeverity v => bool_decide (severity c = v)
  | FActor v => bool_decide (actor c = v)
  | FAction v => bool_decide (action c = v)
  | FOutcome v => bool_decide (outcome c = v)
  | FResource v => bool_decide (resource c = v)
  | FEvent v => bool_decide (event c = v)
  | FSeq v => seq c =? v
  | FAfter v => flt v (timestamp c)
  | FBefore v => flt (timestamp c) v
  end.

Definition find (fs : list Filter) (s : AuditRepository) : list AuditRecord :=
  foldl (λ rs f, filter (λ r, filter_ok f r = true) rs) (ar_records s) fs.

Definition get (n : Z) (s : AuditRepository) : option AuditRecord :=
  if (1 <=? n) && (n <=? zlen (ar_records s)) then ar_records s !! Z.to_nat (n - 1) else None.

Definition audit_count (s : AuditRepository) : Z := zlen (ar_records s).

Inductive Violation :=
| BrokenLink (n : Z) (expected actual : string)
| SignatureMismatch (n : Z) (expected : string).

(** The loop of [verify_integrity]. *)
Fixpoint verify_loop (cfg : AuditConfig) (prev : string) (rs : list AuditRecord) : list Violation :=
  match rs with
  | [] => []
  | r :: rs' =>
      let c := content r in
      (if decide (previous_hash c = prev) then [] else [BrokenLink (seq c) prev (previous_hash c)])
      ++ (if decide (signature r = chain_hash cfg c) then []
          else [SignatureMismatch (seq c) (chain_hash cfg c)])
      ++ verify_loop cfg (signature r) rs'
  end.

Definition verify_integrity (s : AuditRepository) : list Violation * AuditRepository :=
  let v := verify_loop (ar_config s) "genesis" (ar_records s) in
  (v, match v with
      | _ :: _ =>
          if audit_immutable (ar_config s)
          then MkRepo (ar_config s) (ar_records s) (ar_seq s) (ar_last_hash s) (ar_violations s + 1)
          else s
      | [] => s
      end).

Definition with_previous (p : string) (c : AuditContent) : AuditContent :=
  MkContent (seq c) (event c) (actor c) (action c) (resource c) (outcome c) (severity c)
    (event_type c) (timestamp c) (metadata c) p.

(** The loop of [prune] that signs the kept records again. *)
Fixpoint resign (cfg : AuditConfig) (prev : string) (rs : list AuditRecord) : list AuditRecord :=
  match rs with
  | [] => []
  | r :: rs' =>
      let c := with_previous prev (content r) in
      let sig := chain_hash cfg c in
      MkRecord c sig sig :: resign cfg sig rs'
  end.

(** [while len(keep) > 1 and keep[0].timestamp < cutoff: keep.pop(0)] *)
Fixpoint pop_old (cutoff : float) (keep : list AuditRecord) : list AuditRecord * Z :=
  match keep with
  | r :: ((_ :: _) as rest) =>
      if flt (timestamp (content r)) cutoff
      then let '(k, n) := pop_old cutoff rest in (k, n + 1) else (keep, 0)
  | _ => (keep, 0)
  end.

Definition last_signature (rs : list AuditRecord) : string :=
  match last rs with Some r => signature r | None => "genesis" end.

Definition prune (retention_days : option Z) (now : float) (s : AuditRepository)
    : result ArithError (Z * AuditRepository) :=
  let cfg := ar_config s in
  let days := default (audit_retention_days cfg) retention_days in
  match int_to_float (days * 86400) with
  | Err e => Err e
  | Ok d =>
      let cutoff := fsub now d in
      let old := filter (λ r, flt (timestamp (content r)) cutoff = true) (ar_records s) in
      let keep := filter (λ r, fle cutoff (timestamp (content r)) = true) (ar_records s) in
      let removed := zlen old in
      Ok (if audit_immutable cfg then
            let '(keep, removed) :=
              match keep, last (ar_records s) with
              | [], Some r => ([r], Z.max 0 (removed - 1))
              | _, _ => (keep, removed)
              end in
            let '(keep, popped) := pop_old cutoff keep in
            let keep := resign cfg "genesis" keep in
            (removed + popped,
             MkRepo cfg keep (ar_seq s) (last_signature keep) (ar_violations s))
          else (removed, MkRepo cfg keep (ar_seq s) (ar_last_hash s) (ar_violations s)))
  end.

Definition export (s : AuditRepository) : list AuditRecord := ar_records s.

Definition status (s : AuditRepository) : Z * bool * Z * string :=
  (zlen (ar_records s), audit_immutable (ar_config s), ar_seq s, ar_last_hash s).

(** ** [AuditService] *)

Definition log (e : AuditEvent) (now : float) (s : AuditRepository)
    : option AuditRecord * AuditRepository :=
  if audit_enabled (ar_config s) then let '(r, s') := append e now s in (Some r, s') else (None, s).

Definition log_authentication (who result_ : string) (meta : dict string string) :=
  log (MkEvent "authentication" who "authenticate" "auth" result_
         (if decide (result_ = "success"%string) then INFO else WARNING) AUTHENTICATION meta).

Definition log_authorization (who result_ : string) (meta : dict string string) :=
  log (MkEvent "authorization" who "authorize" "authz" result_
         (if decide (result_ = "success"%string) then INFO else CRITICAL) AUTHORIZATION meta).

Definition log_secret (who act secret_name result_ : string) :=
  log (MkEvent "secret" who act ("secret:" +:+ secret_name) result_
         (if decide (act ∈ ["delete"; "rotate"]%string) then CRITICAL else INFO) SECRET []).

Definition log_admin (who act res result_ : string) :=
  log (MkEvent "admin" who act res result_ WARNING ADMIN []).

Definition service_verify (s : AuditRepository) : list Violation * AuditRepository := verify_integrity s.

(** ** The chain *)

(** The records from [prev] on are linked and signed. *)
Fixpoint chained (cfg : AuditConfig) (prev : string) (rs : list AuditRecord) : Prop :=
  match rs with
  | [] => True
  | r :: rs' =>
      previous_hash (content r) = prev ∧ signature r = chain_hash cfg (content r) ∧
      chained cfg (signature r) rs'
  end.

Lemma verify_loop_nil cfg prev rs : verify_loop cfg prev rs = [] ↔ chained cfg prev rs.
Proof.
  revert prev. induction rs as [|r rs IH]; intros prev; simpl; [done|].
  rewrite <- IH. case_decide; case_decide; simpl; split; naive_solver.
Qed.

Lemma chained_snoc cfg prev rs r :
  chained cfg prev rs →
  previous_hash (content r) = match last rs with Some l => signature l | None => prev end →
  signature r = chain_hash cfg (content r) →
  chained cfg prev (rs ++ [r]).
Proof.
  revert prev. induction rs as [|x rs IH]; intros prev; simpl; [naive_solver|].
  intros (Hp & Hs & Hc) Hl Hr. split; [done|]. split; [done|]. apply IH; [done| |done].
  rewrite Hl. destruct rs as [|y rs]; [done|]. simpl. destruct (last (y :: rs)) eqn:E; [done|].
  by apply last_None in E.
Qed.

Lemma resign_chained cfg prev rs : chained cfg prev (resign cfg prev rs).
Proof. revert prev. induction rs as [|r rs IH]; intros prev; simpl; [done|]. auto. Qed.

Record audit_inv (s : AuditRepository) : Prop := {
  ai_chained : chained (ar_config s) "genesis" (ar_records s);
  ai_last : ar_last_hash s = last_signature (ar_records s)
}.

Lemma new_repo_inv cfg : audit_inv (new_repo cfg).
Proof. done. Qed.

Lemma append_inv e now s : audit_inv s → audit_inv (append e now s).2.
Proof.
  intros [Hc Hl]. split; simpl.
  - by apply chained_snoc.
  - unfold last_signature. by rewrite last_snoc.
Qed.

Lemma prune_inv d now s n s' :
  audit_immutable (ar_config s) = true → audit_inv s → prune d now s = Ok (n, s') →
  audit_inv s' ∧ ar_config s' = ar_config s.
Proof.
  intros Him Hs. unfold prune. rewrite Him. destruct (int_to_float _) as [f|]; [|done].
  destruct (match filter _ _ with [] => _ | _ :: _ => _ end) as [keep removed].
  destruct (pop_old _ keep) as [keep' popped]. intros [= <- <-].
  split; [|done]. split; simpl; [apply resign_chained|done].
Qed.
End Audit.

(** ** Theorems *)

Section Operations.
Context `{!HashEnv}.

Inductive operation :=
| Append (e : AuditEvent) (now : float)
| Prune (days : option Z) (now : float)
| Verify.

Definition operate (x : operation) (s : AuditRepository) : AuditRepository :=
  match x with
  | Append e now => (append e now s).2
  | Prune d now => match prune d now s with Ok (_, s') => s' | Err _ => s end
  | Verify => (verify_integrity s).2
  end.

Definition is_prune (x : operation) : bool := match x with Prune _ _ => true | _ => false end.

Lemma verify_after_inv s : audit_inv s → (verify_integrity s).1 = [] ∧ (verify_integrity s).2 = s.
Proof.
  intros [Hc _]. apply verify_loop_nil in Hc. unfold verify_integrity. by rewrite Hc.
Qed.

Lemma operate_config xs s : ar_config (foldl (flip operate) s xs) = ar_config s.
Proof.
  revert s. induction xs as [|x xs IH]; intros s; [done|]. cbn [foldl flip]. rewrite IH.
  destruct x as [e t|d t|]; simpl; [done| |].
  - unfold prune. destruct (int_to_float _); [|done]. destruct (audit_immutable _); [|done].
    destruct (match filter _ _ with [] => _ | _ :: _ => _ end) as [keep removed].
    by destruct (pop_old _ keep).
  - destruct (verify_loop _ _ _); [done|]. by destruct (audit_immutable _).
Qed.

Lemma operate_inv xs s :
  audit_immutable (ar_config s) = true ∨ existsb is_prune xs = false →
  audit_inv s → audit_inv (foldl (flip operate) s xs).
Proof.
  revert s. induction xs as [|x xs IH]; intros s Hx Hs; [done|]. cbn [foldl flip].
  assert (audit_inv (operate x s) ∧ ar_config (operate x s) = ar_config s) as [Hi Hc].
  { destruct x as [e now|d now|]; cbn [operate].
    - split; [by apply append_inv|done].
    - destruct Hx as [Him|Hx]; [|done]. destruct (prune d now s) as [[n s']|] eqn:E; [|done].
      by eapply prune_inv.
    - by rewrite (proj2 (verify_after_inv s Hs)). }
  apply IH; [|done]. rewrite Hc. destruct Hx as [?|Hx]; [by left|right].
  simpl in Hx. by apply orb_false_elim in Hx as [_ ?].
Qed.
End Operations.

(** (C7) The log verifies itself: after any sequence of appends, verifications and
    (with an immutable log) prunings, [verify_integrity] reports no violation
    and the stored last hash is the signature of the last record. *)
Theorem audit_chain_valid `{!HashEnv} (cfg : AuditConfig) (xs : list operation) :
  audit_immutable cfg = true ∨ existsb is_prune xs = false →
  let s := foldl (flip operate) (new_repo cfg) xs in
  (verify_integrity s).1 = [] ∧ ar_last_hash s = last_signature (ar_records s).
Proof.
  intros Hx s. assert (audit_inv s) as Hs by (apply operate_inv; [exact Hx|apply new_repo_inv]).
  split; [by apply verify_after_inv|apply Hs].
Qed.

(** A toy environment: the digest is the message itself. *)
#[local] Instance demo_hash : HashEnv := {
  hmac _ m := m;
  dumps c := event c +:+ actor c
}.

Definition demo_event (a : string) : AuditEvent := MkEvent "login" a "go" "r" "success" INFO ADMIN [].
Definition config_of (immutable : bool) : AuditConfig := MkAuditConfig true immutable 1 "k" "n".
Definition day (n : Z) : float := float_of_Z (n * 86400).
Definition demo_log : list operation :=
  [Append (demo_event "a") (day 1); Append (demo_event "b") (day 5); Append (demo_event "c") (day 6)].

Lemma audit_chain_valid_witness :
  let s := foldl (flip operate) (new_repo (config_of true)) (demo_log ++ [Prune None (day 6)]) in
  (verify_integrity s).1 = [] ∧ length (ar_records s) = 2%nat.
Proof.
  split; [|vm_compute; reflexivity].
  apply (audit_chain_valid (config_of true) (demo_log ++ [Prune None (day 6)])). left. reflexivity.
Defined.

Section Binding.
Context `{!HashEnv}.

(** The records of the two logs at the same position differ, and their chain
    hashes agree. *)
Definition collision (cfg : AuditConfig) (rs rs' : list AuditRecord) : Prop :=
  ∃ i r r', rs !! i = Some r ∧ rs' !! i = Some r' ∧ content r ≠ content r' ∧
    chain_hash cfg (content r) = chain_hash cfg (content r').

Lemma chained_app cfg prev rs r :
  chained cfg prev (rs ++ [r]) →
  chained cfg prev rs ∧ signature r = chain_hash cfg (content r) ∧
  (rs ≠ [] → previous_hash (content r) = last_signature rs).
Proof.
  revert prev. induction rs as [|x rs IH]; intros prev; simpl; [naive_solver|].
  intros (Hp & Hs & Hc). destruct (IH _ Hc) as (H1 & H2 & H3).
  split; [done|]. split; [done|]. intros _. destruct rs as [|y rs].
  - by destruct Hc as [? _].
  - rewrite H3 by done. done.
Qed.

Lemma collision_app cfg rs rs' k k' :
  collision cfg rs rs' → collision cfg (rs ++ k) (rs' ++ k').
Proof.
  intros (i & r & r' & Hi & Hi' & Hc). exists i, r, r'.
  split; [by apply lookup_app_l_Some|]. split; [by apply lookup_app_l_Some|done].
Qed.

Lemma chain_binding cfg prev prev' rs rs' :
  chained cfg prev rs → chained cfg prev' rs' → length rs = length rs' →
  last_signature rs = last_signature rs' →
  (content <$> rs) = (content <$> rs') ∨ collision cfg rs rs'.
Proof.
  revert rs'. induction rs as [|r rs IH] using rev_ind; intros rs' Hc Hc' Hlen Hlast.
  { destruct rs'; [by left|done]. }
  destruct (exists_last (l := rs')) as (rs2 & r' & ->).
  { intros ->. rewrite length_app in Hlen. simpl in Hlen. lia. }
  apply chained_app in Hc as (Hc & Hs & Hp), Hc' as (Hc' & Hs' & Hp').
  unfold last_signature in Hlast. rewrite !last_snoc in Hlast.
  rewrite !length_app in Hlen. simpl in Hlen.
  destruct (decide (content r = content r')) as [E|E].
  - rewrite !fmap_app. csimpl. rewrite E.
    destruct (decide (rs = [])) as [->|Hne].
    { destruct rs2; [by left|simpl in Hlen; lia]. }
    assert (rs2 ≠ []) as Hne' by (intros ->; destruct rs; simpl in Hlen; [done|lia]).
    destruct (IH rs2) as [->|Hcol]; [done..|lia| |by left|].
    + by rewrite <- Hp, <- Hp', E.
    + right. by apply collision_app.
  - right. exists (length rs), r, r'. rewrite list_lookup_middle by done.
    assert (length rs = length rs2) as -> by lia. rewrite list_lookup_middle by done.
    split; [done|]. split; [done|]. split; [done|]. by rewrite <- Hs, <- Hs'.
Qed.
End Binding.

(** Tampering needs a collision: a log that passes verification, with as many
    records as the true log and the same last signature, holds the same
    contents, or it exhibits a position at which two different records have the
    same chain hash. *)
Theorem audit_chain_binding `{!HashEnv} (cfg : AuditConfig) (xs : list operation)
    (forged : list AuditRecord) :
  audit_immutable cfg = true ∨ existsb is_prune xs = false →
  let s := foldl (flip operate) (new_repo cfg) xs in
  verify_loop cfg "genesis" forged = [] →
  length forged = length (ar_records s) → last_signature forged = ar_last_hash s →
  (content <$> forged) = (content <$> ar_records s) ∨ collision cfg forged (ar_records s).
Proof.
  intros Hx s Hv Hlen Hlast.
  assert (audit_inv s) as [Hc Hl] by (apply operate_inv; [exact Hx|apply new_repo_inv]).
  assert (ar_config s = cfg) as Hcfg by apply operate_config.
  rewrite Hcfg in Hc. apply verify_loop_nil in Hv.
  eapply chain_binding; [exact Hv|exact Hc|done|]. by rewrite Hlast.
Qed.

Lemma audit_chain_binding_witness :
  let cfg := config_of true in
  let s := foldl (flip operate) (new_repo cfg) demo_log in
  (content <$> ar_records s) = (content <$> ar_records s) ∨
  collision cfg (ar_records s) (ar_records s).
Proof.
  intros cfg s. apply (audit_chain_binding cfg demo_log (ar_records s)).
  - left. reflexivity.
  - vm_compute. reflexivity.
  - reflexivity.
  - reflexivity.
Defined.

(** Pruning a log that is not immutable drops the old records without linking
    the rest again, and positions no longer are sequence numbers: the log that
    was valid then fails its own verification, and [get(2)] returns the record
    with sequence number 3. *)
Theorem audit_prune_breaks_chain :
  let s := foldl (flip operate) (new_repo (config_of false)) demo_log in
  ∃ s', prune None (day 6) s = Ok (1, s') ∧
    (verify_integrity s).1 = [] ∧ (verify_integrity s').1 ≠ [] ∧
    (seq ∘ content) <$> get 2 s' = Some 3.
Proof.
  eexists. split; [vm_compute; reflexivity|].
  split; [vm_compute; reflexivity|]. split; [vm_compute; discriminate|vm_compute; reflexivity].
Qed.
