(* ===== verification/Deployments.v ===== *)
(** * Zero-downtime deployments ([app/cluster/deployments.py])

    [DeploymentManager] drives rolling, blue-green and canary deployments as
    state machines advanced by [poll].  The health checker and whether an
    [apply_version] callback is installed are parameters; the calls of the
    callback are recorded.  [None] and the empty string are both "no previous
    version" to the code, and are one value here.  Clock readings are arguments. *)

From Stdlib Require Import ZArith Lia.
From stdpp Require Import base numbers strings list.
From S2P Require Import Prelude PyFloat PyNum PyStr PyDict ClusterStores.


Open Scope Z_scope.

(** ** Data ([app/cluster/models.py]) *)

Inductive DeploymentStrategy := ROLLING | BLUE_GREEN | CANARY.
Inductive DeploymentState :=
| PENDING | PREPARING | DEPLOYING | D_HEALTHY | COMPLETED | ROLLING_BACK | ROLLED_BACK | D_FAILED | CANCELLED.

#[export] Instance DeploymentStrategy_eq_dec : EqDecision DeploymentStrategy.
Proof. solve_decision. Defined.
#[export] Instance DeploymentState_eq_dec : EqDecision DeploymentState.
Proof. solve_decision. Defined.

Record DeploymentSpec := MkSpec {
  sp_name : string;
  sp_version : string;
  sp_strategy : DeploymentStrategy;
  sp_previous_version : string;
  sp_batch_size : Z;
  sp_canary_percentage : float;
  sp_nodes : list string;
  sp_id : string
}.

Record Deployment := MkDeployment {
  d_spec : DeploymentSpec;
  d_state : DeploymentState;
  d_created_at : float;
  d_updated_at : float;
  d_progress : float;
  d_deployed_nodes : list string;
  d_failed_nodes : list string;
  d_traffic : dict string float;
  d_error : string
}.

Definition set_dstate (st : DeploymentState) (d : Deployment) : Deployment :=
  MkDeployment (d_spec d) st (d_created_at d) (d_updated_at d) (d_progress d)
    (d_deployed_nodes d) (d_failed_nodes d) (d_traffic d) (d_error d).
Definition set_updated (t : float) (d : Deployment) : Deployment :=
  MkDeployment (d_spec d) (d_state d) (d_created_at d) t (d_progress d)
    (d_deployed_nodes d) (d_failed_nodes d) (d_traffic d) (d_error d).
Definition set_progress (p : float) (d : Deployment) : Deployment :=
  MkDeployment (d_spec d) (d_state d) (d_created_at d) (d_updated_at d) p
    (d_deployed_nodes d) (d_failed_nodes d) (d_traffic d) (d_error d).
Definition set_nodes (dep failed : list string) (d : Deployment) : Deployment :=
  MkDeployment (d_spec d) (d_state d) (d_created_at d) (d_updated_at d) (d_progress d)
    dep failed (d_traffic d) (d_error d).
Definition set_dtraffic (w : dict string float) (d : Deployment) : Deployment :=
  MkDeployment (d_spec d) (d_state d) (d_created_at d) (d_updated_at d) (d_progress d)
    (d_deployed_nodes d) (d_failed_nodes d) w (d_error d).
Definition set_error (e : string) (d : Deployment) : Deployment :=
  MkDeployment (d_spec d) (d_state d) (d_created_at d) (d_updated_at d) (d_progress d)
    (d_deployed_nodes d) (d_failed_nodes d) (d_traffic d) e.

Inductive DeploymentError :=
| AlreadyActive (name : string) | BadCanary | BadBatch | VersionActive (version name : string)
| UnknownDeployment (id : string) | NotHealthy | CannotRollBack.

(** What the deployments share: the active versions, the traffic, the calls of
    [apply_version] and the counters. *)
Record Shared := MkShared {
  sh_versions : dict string string;
  sh_traffic : dict string (dict string float);
  sh_applied : list (string * string * string);
  sh_completed : Z;
  sh_promoted : Z;
  sh_rolled_back : Z
}.

Record DeploymentManager := MkManager {
  dm_store : NodeStore;
  dm_deployments : dict string Deployment;
  dm_shared : Shared;
  dm_paused : list string
}.

Definition hundred : float := float_of_Z 100.

Definition is_active (st : DeploymentState) : bool :=
  match st with PENDING | PREPARING | DEPLOYING | D_HEALTHY => true | _ => false end.

(** ** Starting a deployment *)

Definition deploy (spec : DeploymentSpec) (now : float) (s : DeploymentManager)
    : result DeploymentError (Deployment * DeploymentManager) :=
  let sh := dm_shared s in
  if existsb (λ d, bool_decide (sp_name (d_spec d) = sp_name spec) && is_active (d_state d))
       (dict_values (dm_deployments s))
  then Err (AlreadyActive (sp_name spec))
  else if bool_decide (sp_strategy spec = CANARY) &&
          negb (flt fzero (sp_canary_percentage spec) && fle (sp_canary_percentage spec) hundred)
  then Err BadCanary
  else if bool_decide (sp_strategy spec = ROLLING) && (sp_batch_size spec <? 1)
  then Err BadBatch
  else
    let current := default ""%string (dict_get (sp_name spec) (sh_versions sh)) in
    if truthy current && bool_decide (current = sp_version spec)
    then Err (VersionActive (sp_version spec) (sp_name spec))
    else
      let spec :=
        if truthy current then
          MkSpec (sp_name spec) (sp_version spec) (sp_strategy spec)
            (str_or (sp_previous_version spec) current) (sp_batch_size spec)
            (sp_canary_percentage spec) (sp_nodes spec) (sp_id spec)
        else spec in
      let traffic :=
        if dict_mem (sp_name spec) (sh_traffic sh) then sh_traffic sh
        else dict_set (sp_name spec)
               [(str_or (sp_previous_version spec) (sp_version spec), hundred)] (sh_traffic sh) in
      let d := MkDeployment spec PENDING now now fzero [] [] [] "" in
      Ok (d, MkManager (dm_store s) (dict_set (sp_id spec) d (dm_deployments s))
               (MkShared (sh_versions sh) traffic (sh_applied sh) (sh_completed sh)
                  (sh_promoted sh) (sh_rolled_back sh)) (dm_paused s)).

Definition get_deployment (id : string) (s : DeploymentManager) : result DeploymentError Deployment :=
  match dict_get id (dm_deployments s) with Some d => Ok d | None => Err (UnknownDeployment id) end.

(** [sorted(..., key=created_at, reverse=True)] keeps the order of equal keys. *)
Definition list_deployments (s : DeploymentManager) : list Deployment :=
  py_sorted (λ a b, flt (d_created_at b) (d_created_at a)) (dict_values (dm_deployments s)).

Definition active_deployments (s : DeploymentManager) : list Deployment :=
  filter (λ d, is_active (d_state d) = true) (list_deployments s).

Definition traffic_weights (name : string) (s : DeploymentManager) : dict string float :=
  default [] (dict_get name (sh_traffic (dm_shared s))).

Definition current_version (name : string) (s : DeploymentManager) : option string :=
  dict_get name (sh_versions (dm_shared s)).

Definition target_nodes (spec : DeploymentSpec) (store : NodeStore) : list NodeInfo :=
  match sp_nodes spec with
  | [] => filter (λ n, n_state n ≠ LEAVING) (ns_alive store)
  | ids => omap (λ id, ns_get id store) ids
  end.

(** ** The state machine *)

Definition traffic_for (d : Deployment) : dict string float :=
  let spec := d_spec d in
  let green :=
    match sp_strategy spec with
    | CANARY => sp_canary_percentage spec
    | _ => match d_state d with D_HEALTHY | COMPLETED => hundred | _ => fzero end
    end in
  let weights := [(sp_version spec, green)] in
  if truthy (sp_previous_version spec)
  then dict_set (sp_previous_version spec) (fmax fzero (fsub hundred green)) weights
  else weights.

Section Machine.
Context (checker : string → string → bool) (has_apply : bool).

Definition apply_version (name version target : string) (sh : Shared) : Shared :=
  if has_apply then
    MkShared (sh_versions sh) (sh_traffic sh) (sh_applied sh ++ [(name, version, target)])
      (sh_completed sh) (sh_promoted sh) (sh_rolled_back sh)
  else sh.

(** All traffic of a component to one version. *)
Definition all_traffic (name version : string) (sh : Shared) : Shared :=
  MkShared (sh_versions sh) (dict_set name [(version, hundred)] (sh_traffic sh)) (sh_applied sh)
    (sh_completed sh) (sh_promoted sh) (sh_rolled_back sh).

Definition set_version (name version : string) (sh : Shared) : Shared :=
  MkShared (dict_set name version (sh_versions sh)) (sh_traffic sh) (sh_applied sh)
    (sh_completed sh) (sh_promoted sh) (sh_rolled_back sh).

Definition count_completed (sh : Shared) : Shared :=
  MkShared (sh_versions sh) (sh_traffic sh) (sh_applied sh)
    (sh_completed sh + 1) (sh_promoted sh) (sh_rolled_back sh).
Definition count_promoted (sh : Shared) : Shared :=
  MkShared (sh_versions sh) (sh_traffic sh) (sh_applied sh)
    (sh_completed sh) (sh_promoted sh + 1) (sh_rolled_back sh).
Definition count_rolled_back (sh : Shared) : Shared :=
  MkShared (sh_versions sh) (sh_traffic sh) (sh_applied sh)
    (sh_completed sh) (sh_promoted sh) (sh_rolled_back sh + 1).

Definition finalize (d : Deployment) (sh : Shared) : Deployment * Shared :=
  let spec := d_spec d in
  let sh := all_traffic (sp_name spec) (sp_version spec) (set_version (sp_name spec) (sp_version spec) sh) in
  match sp_strategy spec with
  | CANARY =>
      (set_progress hundred (set_dstate COMPLETED d),
       count_completed (apply_version (sp_name spec) (sp_version spec) "100%" sh))
  | _ => (set_dstate COMPLETED d, count_completed sh)
  end.

(** [_rollback], after a failed health check *)
Definition fail_back (error : string) (now : float) (d : Deployment) (sh : Shared) : Deployment * Shared :=
  let spec := d_spec d in
  let previous := sp_previous_version spec in
  let sh := if truthy previous
            then apply_version (sp_name spec) previous "100%" (all_traffic (sp_name spec) previous sh)
            else sh in
  (set_dstate ROLLED_BACK (set_updated now (set_error error d)), count_rolled_back sh).

Definition progress_of (deployed targets : Z) : float :=
  match int_truediv deployed (Z.max 1 targets) with Ok f => fmul f hundred | Err _ => fzero end.

Definition not_deployed (d : Deployment) (targets : list NodeInfo) : list NodeInfo :=
  filter (λ n, n_id n ∉ d_deployed_nodes d) targets.

Definition rolling_step (now : float) (targets : list NodeInfo) (d : Deployment) (sh : Shared)
    : Deployment * Shared :=
  let spec := d_spec d in
  let batch := take (Z.to_nat (sp_batch_size spec)) (not_deployed d targets) in
  match batch with
  | [] => let d := set_progress hundred d in finalize (set_dtraffic (traffic_for d) d) sh
  | _ =>
      let bad := filter (λ n, checker (sp_version spec) (n_id n) = false) batch in
      let d := set_nodes (d_deployed_nodes d) (d_failed_nodes d ++ (n_id <$> bad)) d in
      match bad with
      | _ :: _ =>
          fail_back ("health check failed for " +:+ str_of_Z (zlen (d_failed_nodes d)) +:+ " node(s)")
            now d sh
      | [] =>
          let sh := foldl (λ sh n, apply_version (sp_name spec) (sp_version spec) (n_id n) sh) sh batch in
          let d := set_nodes (d_deployed_nodes d ++ (n_id <$> batch)) (d_failed_nodes d) d in
          (set_updated now (set_progress (progress_of (zlen (d_deployed_nodes d)) (zlen targets)) d), sh)
      end
  end.

Definition blue_green_step (now : float) (targets : list NodeInfo) (d : Deployment) (sh : Shared)
    : Deployment * Shared :=
  let spec := d_spec d in
  if zlen targets <=? zlen (d_deployed_nodes d) then
    if negb (checker (sp_version spec) "green") then fail_back "green environment failed health check" now d sh
    else
      let d := set_progress hundred (set_dstate D_HEALTHY d) in
      (set_updated now (set_dtraffic (traffic_for d) d),
       apply_version (sp_name spec) (sp_version spec) "green" sh)
  else
    let pending := not_deployed d targets in
    let ok := filter (λ n, checker (sp_version spec) (n_id n) = true) pending in
    let bad := filter (λ n, checker (sp_version spec) (n_id n) = false) pending in
    let d := set_nodes (d_deployed_nodes d ++ (n_id <$> ok)) (d_failed_nodes d ++ (n_id <$> bad)) d in
    (set_updated now (set_progress (progress_of (zlen (d_deployed_nodes d)) (zlen targets)) d), sh).

Definition canary_step (now : float) (d : Deployment) (sh : Shared) : Deployment * Shared :=
  let spec := d_spec d in
  if negb (checker (sp_version spec) "canary") then fail_back "canary failed health check" now d sh
  else
    let d := set_progress (sp_canary_percentage spec) (set_dstate D_HEALTHY d) in
    (set_updated now (set_dtraffic (traffic_for d) d), sh).

Definition deploy_step (now : float) (store : NodeStore) (d : Deployment) (sh : Shared)
    : Deployment * Shared :=
  let targets := target_nodes (d_spec d) store in
  match sp_strategy (d_spec d) with
  | ROLLING => rolling_step now targets d sh
  | BLUE_GREEN => blue_green_step now targets d sh
  | CANARY => canary_step now d sh
  end.

Definition advance (now : float) (store : NodeStore) (d : Deployment) (sh : Shared)
    : Deployment * Shared :=
  match d_state d with
  | PENDING => let d := set_updated now (set_dstate PREPARING d) in (set_dtraffic (traffic_for d) d, sh)
  | PREPARING => (set_updated now (set_dstate DEPLOYING d), sh)
  | DEPLOYING => deploy_step now store d sh
  | D_HEALTHY => finalize d sh
  | _ => (d, sh)
  end.

Definition advance_id (now : float) (s : DeploymentManager) (id : string) : DeploymentManager :=
  match dict_get id (dm_deployments s) with
  | None => s
  | Some d =>
      if decide (sp_id (d_spec d) ∈ dm_paused s) then s
      else
        let '(d', sh') := advance now (dm_store s) d (dm_shared s) in
        MkManager (dm_store s) (dict_set id d' (dm_deployments s)) sh' (dm_paused s)
  end.

(** [poll]: the deployments in the order of the dictionary *)
Definition poll (now : float) (s : DeploymentManager) : DeploymentManager :=
  foldl (advance_id now) s (dict_keys (dm_deployments s)).

(** ** Operations on a deployment *)

Definition put (id : string) (d : Deployment) (sh : Shared) (s : DeploymentManager) : DeploymentManager :=
  MkManager (dm_store s) (dict_set id d (dm_deployments s)) sh (dm_paused s).

Definition promote (id : string) (now : float) (s : DeploymentManager)
    : result DeploymentError (Deployment * DeploymentManager) :=
  match get_deployment id s with
  | Err e => Err e
  | Ok d =>
      if decide (d_state d = D_HEALTHY) then
        let spec := d_spec d in
        let d' := set_updated now (set_progress hundred (set_dstate COMPLETED d)) in
        let sh := all_traffic (sp_name spec) (sp_version spec)
                    (set_version (sp_name spec) (sp_version spec) (dm_shared s)) in
        Ok (d', put id d' (count_promoted (apply_version (sp_name spec) (sp_version spec) "100%" sh)) s)
      else Err NotHealthy
  end.

Definition rollback (id : string) (now : float) (s : DeploymentManager)
    : result DeploymentError (Deployment * DeploymentManager) :=
  match get_deployment id s with
  | Err e => Err e
  | Ok d =>
      if decide (d_state d = CANCELLED) then Err CannotRollBack
      else
        let spec := d_spec d in
        let previous := sp_previous_version spec in
        let sh := dm_shared s in
        let d' := set_updated now (set_progress fzero
                    (set_error "rolled back on demand" (set_dstate ROLLED_BACK d))) in
        let sh :=
          if truthy previous
          then apply_version (sp_name spec) previous "100%" (all_traffic (sp_name spec) previous sh)
          else if dict_mem (sp_name spec) (sh_traffic sh)
          then MkShared (sh_versions sh) (dict_set (sp_name spec) [] (sh_traffic sh)) (sh_applied sh)
                 (sh_completed sh) (sh_promoted sh) (sh_rolled_back sh)
          else sh in
        Ok (d', put id d' (count_rolled_back sh) s)
  end.

Definition pause (id : string) (s : DeploymentManager) : result DeploymentError DeploymentManager :=
  match get_deployment id s with
  | Err e => Err e
  | Ok _ => Ok (MkManager (dm_store s) (dm_deployments s) (dm_shared s)
                  (if decide (id ∈ dm_paused s) then dm_paused s else id :: dm_paused s))
  end.

Definition resume_deployment (id : string) (s : DeploymentManager)
    : result DeploymentError DeploymentManager :=
  match get_deployment id s with
  | Err e => Err e
  | Ok _ => Ok (MkManager (dm_store s) (dm_deployments s) (dm_shared s)
                  (filter (λ x, x ≠ id) (dm_paused s)))
  end.

Definition dm_status (s : DeploymentManager)
    : list Deployment * list Deployment * dict string string * dict string (dict string float) :=
  (active_deployments s, list_deployments s, sh_versions (dm_shared s), sh_traffic (dm_shared s)).
End Machine.

Definition new_manager (store : NodeStore) : DeploymentManager :=
  MkManager store [] (MkShared [] [] [] 0 0 0) [].

(** * Deployments: theorems

    Safety of the deployment state machines (at most one active deployment per
    component, all traffic on one version, nothing deployed without a passed
    health check), the completion of rolling deployments, and two closed runs
    that show what rollback and canary do to the published state. *)

Open Scope Z_scope.

Section Invariant.
Context (checker : string → string → bool) (has_apply : bool).

Inductive call :=
| Deploy (spec : DeploymentSpec) (now : float)
| Poll (now : float)
| Promote (id : string) (now : float)
| Rollback (id : string) (now : float)
| Pause (id : string)
| Resume (id : string).

(** The manager after a call; a call that raises changes nothing. *)
Definition after (x : call) (s : DeploymentManager) : DeploymentManager :=
  match x with
  | Deploy spec now => match deploy spec now s with Ok (_, s') => s' | Err _ => s end
  | Poll now => poll checker has_apply now s
  | Promote id now => match promote has_apply id now s with Ok (_, s') => s' | Err _ => s end
  | Rollback id now => match rollback has_apply id now s with Ok (_, s') => s' | Err _ => s end
  | Pause id => match pause id s with Ok s' => s' | Err _ => s end
  | Resume id => match resume_deployment id s with Ok s' => s' | Err _ => s end
  end.

(** Every component's traffic goes to one version, or to none. *)
Definition traffic_ok (sh : Shared) : Prop :=
  Forall (λ p, p.2 = [] ∨ ∃ v, p.2 = [(v, hundred)]) (sh_traffic sh).

(** Every deployed node passed the health check of the version. *)
Definition nodes_checked (d : Deployment) : Prop :=
  Forall (λ n, checker (sp_version (d_spec d)) n = true) (d_deployed_nodes d).

Record manager_inv (s : DeploymentManager) : Prop := {
  mi_wf : dict_wf (dm_deployments s);
  mi_exclusive : ∀ id1 id2 d1 d2,
    dict_get id1 (dm_deployments s) = Some d1 → dict_get id2 (dm_deployments s) = Some d2 →
    is_active (d_state d1) = true → is_active (d_state d2) = true →
    sp_name (d_spec d1) = sp_name (d_spec d2) → id1 = id2;
  mi_checked : Forall (λ p, nodes_checked p.2) (dm_deployments s);
  mi_traffic : traffic_ok (dm_shared s)
}.

(** ** One step of one deployment *)

Lemma apply_version_traffic n v t sh : sh_traffic (apply_version has_apply n v t sh) = sh_traffic sh.
Proof. unfold apply_version. by destruct has_apply. Qed.

Lemma apply_all_traffic n v (ns : list NodeInfo) sh :
  sh_traffic (foldl (λ sh m, apply_version has_apply n v (n_id m) sh) sh ns) = sh_traffic sh.
Proof.
  revert sh. induction ns as [|m ns IH]; intros sh; simpl; [done|].
  by rewrite IH, apply_version_traffic.
Qed.

Lemma all_traffic_ok n v sh : traffic_ok sh → traffic_ok (all_traffic n v sh).
Proof. intros Hs. apply dict_set_Forall; [done|]. right. by exists v. Qed.

(** What a step keeps: the spec, inactivity, the health-check and the traffic
    invariants. *)
Definition step_ok (d : Deployment) (sh : Shared) (r : Deployment * Shared) : Prop :=
  d_spec r.1 = d_spec d ∧
  (is_active (d_state r.1) = true → is_active (d_state d) = true) ∧
  (nodes_checked d → nodes_checked r.1) ∧ (traffic_ok sh → traffic_ok r.2).

Lemma fail_back_ok e now d sh : step_ok d sh (fail_back has_apply e now d sh).
Proof.
  unfold fail_back. split; [done|]. split; [done|]. split; [done|]. simpl. intros Hs.
  destruct (truthy _); [|done]. unfold traffic_ok in *. simpl.
  rewrite apply_version_traffic. by apply all_traffic_ok.
Qed.

Lemma finalize_ok d sh : step_ok d sh (finalize has_apply d sh).
Proof.
  unfold finalize. destruct (sp_strategy (d_spec d)); (split; [done|]; split; [done|]; split; [done|]);
    simpl; intros Hs; unfold traffic_ok in *; simpl; rewrite ?apply_version_traffic; by apply all_traffic_ok.
Qed.

Lemma filter_ids_checked (v : string) (ns : list NodeInfo) :
  Forall (λ n, checker v n = true) (n_id <$> filter (λ n, checker v (n_id n) = true) ns).
Proof.
  apply Forall_fmap, Forall_forall. intros n [Hn _]%list_elem_of_filter. done.
Qed.

Lemma no_bad_checked v (ns : list NodeInfo) :
  filter (λ n, checker v (n_id n) = false) ns = [] → Forall (λ n, checker v n = true) (n_id <$> ns).
Proof.
  intros Hf. apply Forall_fmap, Forall_forall. intros n Hn. simpl.
  destruct (checker v (n_id n)) eqn:E; [done|].
  assert (n ∈ filter (λ n, checker v (n_id n) = false) ns) as Hin by (by apply list_elem_of_filter).
  rewrite Hf in Hin. by apply elem_of_nil in Hin.
Qed.

Lemma rolling_step_ok now ts d sh :
  d_state d = DEPLOYING → step_ok d sh (rolling_step checker has_apply now ts d sh).
Proof.
  intros Hst. unfold rolling_step. destruct (take _ _) as [|n batch] eqn:Eb.
  - apply (finalize_ok (set_dtraffic _ (set_progress hundred d)) sh).
  - destruct (filter _ (n :: batch)) as [|b bad] eqn:Ef.
    + split; [done|]. split; [by rewrite Hst|]. split.
      * intros Hd. apply Forall_app. split; [exact Hd|]. exact (no_bad_checked _ _ Ef).
      * cbn [snd]. unfold traffic_ok. by rewrite apply_all_traffic.
    + set (d1 := set_nodes (d_deployed_nodes d) _ d). exact (fail_back_ok _ now d1 sh).
Qed.

Lemma blue_green_step_ok now ts d sh :
  d_state d = DEPLOYING → step_ok d sh (blue_green_step checker has_apply now ts d sh).
Proof.
  intros Hst. unfold blue_green_step. destruct (_ <=? _).
  - destruct (negb _); [apply fail_back_ok|]. split; [done|]. split; [by rewrite Hst|].
    split; [done|]. cbn [snd]. unfold traffic_ok. by rewrite apply_version_traffic.
  - split; [done|]. split; [by rewrite Hst|]. split; [|done]. intros Hd.
    apply Forall_app. split; [exact Hd|]. apply filter_ids_checked.
Qed.

Lemma advance_ok now store d sh : step_ok d sh (advance checker has_apply now store d sh).
Proof.
  unfold advance. destruct (d_state d) eqn:Hst; try by rewrite ?Hst.
  - unfold step_ok; simpl. rewrite Hst. done.
  - unfold step_ok; simpl. rewrite Hst. done.
  - unfold deploy_step. destruct (sp_strategy (d_spec d)).
    + by apply rolling_step_ok.
    + by apply blue_green_step_ok.
    + unfold canary_step. destruct (negb _); [apply fail_back_ok|].
      unfold step_ok; simpl. rewrite Hst. done.
  - apply finalize_ok.
Qed.

(** ** The manager *)

(** Replacing a deployment by a successor keeps the invariant. *)
Lemma put_inv id d d' sh s :
  manager_inv s → dict_get id (dm_deployments s) = Some d →
  step_ok d (dm_shared s) (d', sh) → manager_inv (put id d' sh s).
Proof.
  intros [Hwf Hex Hck Htr] Hd (Hsp & Hact & Hn & Ht). split; simpl.
  - by apply dict_set_wf.
  - intros id1 id2 d1 d2. rewrite !dict_get_set. intros H1 H2 A1 A2 Hname.
    repeat case_decide; simplify_eq; simpl in *; try done;
      eapply Hex; eauto; congruence.
  - apply dict_set_Forall; [done|]. apply Hn. rewrite Forall_forall in Hck.
    by apply (Hck (id, d)), dict_get_elem_of.
  - by apply Ht.
Qed.

Lemma advance_id_inv now s id :
  manager_inv s → manager_inv (advance_id checker has_apply now s id).
Proof.
  intros Hs. unfold advance_id. destruct (dict_get id (dm_deployments s)) as [d|] eqn:E; [|done].
  case_decide; [done|]. pose proof (advance_ok now (dm_store s) d (dm_shared s)) as Ha.
  destruct (advance _ _ _ _ _ _) as [d' sh']. by eapply put_inv.
Qed.

Lemma poll_inv now s : manager_inv s → manager_inv (poll checker has_apply now s).
Proof.
  unfold poll. generalize (dict_keys (dm_deployments s)) as ids. intros ids. revert s.
  induction ids as [|id ids IH]; intros s Hs; simpl; [done|]. by apply IH, advance_id_inv.
Qed.

Lemma deploy_inv spec now s d s' :
  manager_inv s → deploy spec now s = Ok (d, s') → manager_inv s'.
Proof.
  intros [Hwf Hex Hck Htr]. unfold deploy.
  destruct (existsb _ _) eqn:Ea; [done|]. destruct (_ && _); [done|]. destruct (_ && _); [done|].
  destruct (_ && _); [done|]. set (spec' := if truthy _ then _ else _). intros [= <- <-].
  assert (sp_name spec' = sp_name spec) as Hname by (unfold spec'; by destruct (truthy _)).
  split; simpl.
  - by apply dict_set_wf.
  - assert (∀ id d, dict_get id (dm_deployments s) = Some d → is_active (d_state d) = true →
              sp_name (d_spec d) ≠ sp_name spec) as Hnew.
    { intros id d Hd Hact Hn. apply dict_get_elem_of, (list_elem_of_fmap_2 snd) in Hd. simpl in Hd.
      assert (existsb (λ d, bool_decide (sp_name (d_spec d) = sp_name spec) && is_active (d_state d))
                (dict_values (dm_deployments s)) = true); [|congruence].
      apply existsb_exists. exists d. split; [by apply list_elem_of_In|].
      by rewrite bool_decide_eq_true_2. }
    intros id1 id2 d1 d2. rewrite !dict_get_set. intros H1 H2 A1 A2 Hn.
    repeat case_decide; simplify_eq; simpl in *; try done.
    + exfalso. eapply Hnew; eauto. congruence.
    + exfalso. eapply Hnew; eauto. congruence.
    + by eapply Hex.
  - apply dict_set_Forall; [done|]. by constructor.
  - unfold traffic_ok; simpl. destruct (dict_mem _ _); [done|].
    apply dict_set_Forall; [done|]. right. by eexists.
Qed.

Lemma promote_ok d now sh :
  step_ok d sh (set_updated now (set_progress hundred (set_dstate COMPLETED d)),
    count_promoted (apply_version has_apply (sp_name (d_spec d)) (sp_version (d_spec d)) "100%"
      (all_traffic (sp_name (d_spec d)) (sp_version (d_spec d))
         (set_version (sp_name (d_spec d)) (sp_version (d_spec d)) sh)))).
Proof.
  split; [done|]. split; [done|]. split; [done|]. intros Hs. cbn [snd].
  unfold traffic_ok; simpl. rewrite apply_version_traffic. by apply all_traffic_ok.
Qed.

Lemma manager_after_inv x s : manager_inv s → manager_inv (after x s).
Proof.
  intros Hs. destruct x as [spec now|now|id now|id now|id|id]; simpl.
  - destruct (deploy spec now s) as [[d s']|] eqn:E; [by eapply deploy_inv|done].
  - by apply poll_inv.
  - unfold promote, get_deployment. destruct (dict_get id _) as [d|] eqn:E; [|done].
    case_decide; [|done]. eapply put_inv; [done|done|apply promote_ok].
  - unfold rollback, get_deployment. destruct (dict_get id _) as [d|] eqn:E; [|done].
    case_decide; [done|]. eapply put_inv; [done|done|].
    split; [done|]. split; [done|]. split; [done|]. intros Ht. cbn [snd].
    destruct (truthy _).
    + unfold traffic_ok; simpl. rewrite apply_version_traffic. by apply all_traffic_ok.
    + destruct (dict_mem _ _); [|done]. apply dict_set_Forall; [done|]. by left.
  - unfold pause, get_deployment. destruct (dict_get id _); [|done]. by destruct Hs.
  - unfold resume_deployment, get_deployment. destruct (dict_get id _); [|done]. by destruct Hs.
Qed.

Lemma manager_afters_inv xs s : manager_inv s → manager_inv (foldl (flip after) s xs).
Proof.
  revert s. induction xs as [|x xs IH]; intros s Hs; simpl; [done|]. by apply IH, manager_after_inv.
Qed.

Lemma new_manager_inv store : manager_inv (new_manager store).
Proof. split; simpl; [apply NoDup_nil_2|done|constructor|constructor]. Qed.
End Invariant.

(** (C8) Whatever calls are made, with a health checker that answers as a function
    of the version and the node: a component has at most one active deployment,
    and a node is marked as deployed only after it passed the health check of
    the version. *)
Theorem deployments_safe (checker : string → string → bool) (has_apply : bool)
    (store : NodeStore) (xs : list call) :
  let s := foldl (flip (after checker has_apply)) (new_manager store) xs in
  (∀ d1 d2, d1 ∈ active_deployments s → d2 ∈ active_deployments s →
     sp_name (d_spec d1) = sp_name (d_spec d2) → d1 = d2) ∧
  (∀ d n, d ∈ list_deployments s → n ∈ d_deployed_nodes d →
     checker (sp_version (d_spec d)) n = true).
Proof.
  intros s. destruct (manager_afters_inv checker has_apply xs _ (new_manager_inv checker store))
    as [Hwf Hex Hck _]. fold s in Hwf, Hex, Hck.
  assert (∀ d, d ∈ list_deployments s → ∃ id, dict_get id (dm_deployments s) = Some d) as Hin.
  { intros d Hd. unfold list_deployments in Hd. rewrite elem_of_py_sorted in Hd.
    apply list_elem_of_fmap in Hd as ([id d'] & -> & Hd). exists id. by apply dict_elem_of_get. }
  split.
  - intros d1 d2 [A1 H1]%list_elem_of_filter [A2 H2]%list_elem_of_filter Hname.
    destruct (Hin _ H1) as [i1 G1], (Hin _ H2) as [i2 G2].
    assert (i1 = i2) as -> by (by eapply Hex). congruence.
  - intros d n Hd Hn. destruct (Hin _ Hd) as [id Hg]. rewrite Forall_forall in Hck.
    apply dict_get_elem_of in Hg. specialize (Hck _ Hg). unfold nodes_checked in Hck.
    rewrite Forall_forall in Hck. by apply Hck.
Qed.

(** The published traffic of a component is entirely on one version, or on
    none: the split of a canary deployment is not published. *)
Theorem traffic_never_split (checker : string → string → bool) (has_apply : bool)
    (store : NodeStore) (xs : list call) (name : string) :
  let s := foldl (flip (after checker has_apply)) (new_manager store) xs in
  traffic_weights name s = [] ∨ ∃ v, traffic_weights name s = [(v, hundred)].
Proof.
  intros s. destruct (manager_afters_inv checker has_apply xs _ (new_manager_inv checker store))
    as [_ _ _ Htr]. fold s in Htr. unfold traffic_weights.
  destruct (dict_get name (sh_traffic (dm_shared s))) as [w|] eqn:E; simpl; [|by left].
  unfold traffic_ok in Htr. rewrite Forall_forall in Htr.
  by apply (Htr (name, w)), dict_get_elem_of.
Qed.

(** ** Rolling deployments complete *)

Section Completion.
Context (checker : string → string → bool) (has_apply : bool) (now : float) (store : NodeStore).

Fixpoint advances (n : nat) (d : Deployment) (sh : Shared) : Deployment * Shared :=
  match n with
  | O => (d, sh)
  | S n' => let '(d', sh') := advance checker has_apply now store d sh in advances n' d' sh'
  end.

Lemma advances_completed n d sh : d_state d = COMPLETED → advances n d sh = (d, sh).
Proof. intros Hd. induction n as [|n IH]; simpl; [done|]. unfold advance. by rewrite Hd. Qed.

Lemma not_deployed_less d (ts : list NodeInfo) n rest k :
  not_deployed d ts = n :: rest → (0 < k)%nat →
  (length (filter (λ m, n_id m ∉ d_deployed_nodes d ++ (n_id <$> take k (n :: rest))) ts)
   <= length rest)%nat.
Proof.
  intros Hnd Hk. unfold not_deployed in Hnd.
  rewrite (list_filter_iff _ (λ m, n_id m ∉ (n_id <$> take k (n :: rest)) ∧ n_id m ∉ d_deployed_nodes d)).
  2: { intros m. rewrite elem_of_app. naive_solver. }
  rewrite <- (list_filter_filter (λ m, n_id m ∉ (n_id <$> take k (n :: rest)))), Hnd.
  rewrite filter_cons_False; [apply length_filter|].
  destruct k; [lia|]. csimpl. intros Hn. apply Hn. by constructor.
Qed.

Context (d0 : Deployment).
Let spec := d_spec d0.
Let ts := target_nodes spec store.
Hypothesis (Hstrategy : sp_strategy spec = ROLLING).
Hypothesis (Hbatch : 1 <= sp_batch_size spec).
Hypothesis (Hhealthy : ∀ n, n ∈ ts → checker (sp_version spec) (n_id n) = true).

(** What a completed rolling deployment leaves behind. *)
Definition completed (r : Deployment * Shared) : Prop :=
  d_state r.1 = COMPLETED ∧
  dict_get (sp_name spec) (sh_versions r.2) = Some (sp_version spec) ∧
  dict_get (sp_name spec) (sh_traffic r.2) = Some [(sp_version spec, hundred)] ∧
  ∀ n, n ∈ ts → n_id n ∈ d_deployed_nodes r.1.

Lemma rolling_step_progress d sh :
  d_spec d = spec → d_state d = DEPLOYING →
  let r := rolling_step checker has_apply now ts d sh in
  match not_deployed d ts with
  | [] => completed r
  | _ :: rest => d_spec r.1 = spec ∧ d_state r.1 = DEPLOYING ∧
      (length (not_deployed r.1 ts) <= length rest)%nat
  end.
Proof.
  intros Hsp Hst. unfold rolling_step. rewrite Hsp.
  destruct (not_deployed d ts) as [|n rest] eqn:Hnd.
  - rewrite take_nil. unfold finalize. simpl. rewrite Hsp, Hstrategy. split; [done|].
    simpl. rewrite !dict_get_set_eq. split; [done|]. split; [done|]. intros n Hn.
    destruct (decide (n_id n ∈ d_deployed_nodes d)) as [?|Hd]; [done|]. exfalso.
    assert (n ∈ not_deployed d ts) as Hin by (by apply list_elem_of_filter).
    rewrite Hnd in Hin. by apply elem_of_nil in Hin.
  - assert (0 < Z.to_nat (sp_batch_size spec))%nat as Hk by lia.
    pose proof (not_deployed_less d ts n rest _ Hnd Hk) as Hless.
    destruct (take (Z.to_nat (sp_batch_size spec)) (n :: rest)) as [|m batch] eqn:Eb.
    { destruct (Z.to_nat (sp_batch_size spec)); [lia|done]. }
    assert (filter (λ n, checker (sp_version spec) (n_id n) = false) (m :: batch) = []) as ->.
    { destruct (filter _ (m :: batch)) as [|b bad] eqn:Ef; [done|]. exfalso.
      assert (b ∈ filter (λ n, checker (sp_version spec) (n_id n) = false) (m :: batch)) as Hb
        by (rewrite Ef; by constructor).
      apply list_elem_of_filter in Hb as [Hf Hb]. rewrite Hhealthy in Hf; [done|].
      assert (b ∈ n :: rest) as Hb'.
      { rewrite <- (take_drop (Z.to_nat (sp_batch_size spec)) (n :: rest)), Eb.
        apply elem_of_app. by left. }
      rewrite <- Hnd in Hb'. by apply list_elem_of_filter in Hb' as [_ ?]. }
    split; [done|]. split; [done|]. exact Hless.
Qed.

Lemma advances_deploying n d sh :
  d_spec d = spec → d_state d = DEPLOYING → (length (not_deployed d ts) < n)%nat →
  completed (advances n d sh).
Proof.
  revert d sh. induction n as [|n IH]; intros d sh Hsp Hst Hn; [lia|].
  simpl. unfold advance. rewrite Hst. unfold deploy_step. rewrite Hsp, Hstrategy. fold ts.
  pose proof (rolling_step_progress d sh Hsp Hst) as Hr. simpl in Hr.
  destruct (rolling_step _ _ _ _ _ _) as [d' sh']. destruct (not_deployed d ts) as [|m rest].
  - rewrite advances_completed by apply Hr. done.
  - destruct Hr as (Hsp' & Hst' & Hlen). simpl in *. apply IH; [done|done|lia].
Qed.
End Completion.

(** (C9) A rolling deployment whose health checks pass completes: after at most
    three polls more than it has target nodes it is [COMPLETED], every target is
    deployed, and the component's version and all of its traffic are the new
    version. *)
Theorem rolling_completes (checker : string → string → bool) (has_apply : bool) (now : float)
    (store : NodeStore) (d : Deployment) (sh : Shared) :
  d_state d = PENDING → sp_strategy (d_spec d) = ROLLING → 1 <= sp_batch_size (d_spec d) →
  (∀ n, n ∈ target_nodes (d_spec d) store → checker (sp_version (d_spec d)) (n_id n) = true) →
  completed store d
    (advances checker has_apply now store (length (target_nodes (d_spec d) store) + 3) d sh).
Proof.
  intros Hst Hstr Hb Hh. rewrite Nat.add_comm. cbn [Nat.add advances].
  unfold advance at 1. rewrite Hst. simpl. unfold advance at 1. simpl.
  set (d2 := set_updated now (set_dstate DEPLOYING _)).
  apply (advances_deploying checker has_apply now store d Hstr Hb Hh (S (length _)) d2);
    [done|done|]. apply Nat.lt_succ_r, length_filter.
Qed.

Definition demo_node (id : string) : NodeInfo :=
  MkNodeInfo id id "" 0 FOLLOWER HEALTHY "" "" [] "" 1 0 fzero fzero.
Definition demo_store : NodeStore := ns_register (demo_node "b") (ns_register (demo_node "a") ns_new).
Definition demo_spec (version id : string) (st : DeploymentStrategy) : DeploymentSpec :=
  MkSpec "api" version st "" 1 (float_of_Z 10) [] id.
Definition demo_deployment : Deployment :=
  MkDeployment (demo_spec "v1" "d1" ROLLING) PENDING fzero fzero fzero [] [] [] "".

Lemma rolling_completes_witness :
  completed demo_store demo_deployment
    (advances (λ _ _, true) true fzero demo_store 5 demo_deployment (MkShared [] [] [] 0 0 0)).
Proof.
  apply (rolling_completes (λ _ _, true) true fzero demo_store demo_deployment
    (MkShared [] [] [] 0 0 0)).
  - reflexivity.
  - reflexivity.
  - simpl; lia.
  - reflexivity.
Defined.

(** A canary deployment of [v2] over [v1], polled until it is healthy. *)
Definition demo_run (xs : list call) : DeploymentManager :=
  foldl (flip (after (λ _ _, true) false)) (new_manager demo_store)
    ([Deploy (demo_spec "v1" "d1" CANARY) fzero; Poll fzero; Poll fzero; Poll fzero; Poll fzero;
      Deploy (demo_spec "v2" "d2" CANARY) fzero; Poll fzero; Poll fzero; Poll fzero] ++ xs).

(** A healthy canary gets no published traffic: its own record says 10 and 90
    percent, but [traffic_weights], which the load balancer reads, still sends
    everything to the old version until the promotion. *)
Theorem canary_traffic_not_published :
  let s := demo_run [] in
  (∃ d, get_deployment "d2" s = Ok d ∧ d_state d = D_HEALTHY ∧
     d_traffic d = [("v2"%string, float_of_Z 10); ("v1"%string, float_of_Z 90)]) ∧
  traffic_weights "api" s = [("v1"%string, hundred)].
Proof.
  split; [|vm_compute; reflexivity]. eexists. split; [vm_compute; reflexivity|].
  split; vm_compute; reflexivity.
Qed.

(** Rolling back a completed deployment moves the traffic to the previous
    version but leaves the active version: [current_version] still names the
    version that was rolled back, and deploying it again is refused as already
    active. *)
Theorem rollback_keeps_version :
  let s := demo_run [Poll fzero; Rollback "d2" fzero] in
  traffic_weights "api" s = [("v1"%string, hundred)] ∧
  current_version "api" s = Some "v2"%string ∧
  deploy (demo_spec "v2" "d3" CANARY) fzero s = Err (VersionActive "v2" "api").
Proof. split; [|split]; vm_compute; reflexivity. Qed.
