(* ===== verification/TtlCache.v ===== *)
(** * The LRU cache with expiry ([app/cache.py])

    [TTLCache] is an [OrderedDict] from keys to entries, least recently used
    first, with hit and eviction counters; [CacheManager] holds named caches.
    Keys are the strings [_make_key] produces.  The lock makes each method
    atomic; the periodic clean-up is a call of [cleanup_expired] at any moment.
    Deleting a key and adding it again moves it to the end, so the order of the
    dictionary is the order of use. *)

From Stdlib Require Import ZArith Lia Sorted.
From stdpp Require Import base numbers strings list.
From S2P Require Import Prelude PyFloat PyNum PyDict.

Open Scope Z_scope.

Section Ttl.
Context {V : Type}.

Record TtlEntry := MkTtlEntry {
  te_value : V;
  te_created_at : float;
  te_expires_at : option float;
  te_ttl : Z
}.

Record CacheStats := MkStats { st_size : Z; st_hits : Z; st_misses : Z; st_evictions : Z }.

Record TTLCache := MkTtlCache {
  tc_max_size : Z;
  tc_default_ttl : Z;
  tc_cache : dict string TtlEntry;
  tc_stats : CacheStats
}.

Definition new_ttl_cache (max_size default_ttl : Z) : TTLCache :=
  MkTtlCache max_size default_ttl [] (MkStats 0 0 0 0).

Definition set_cache_stats (d : dict string TtlEntry) (st : CacheStats) (s : TTLCache) : TTLCache :=
  MkTtlCache (tc_max_size s) (tc_default_ttl s) d st.

(** [entry.expires_at and entry.expires_at < now]; [0.0] is falsy. *)
Definition entry_expired (now : float) (e : TtlEntry) : bool :=
  match te_expires_at e with
  | Some t => negb (is_fzero t) && flt t now
  | None => false
  end.

Definition cleanup_expired (now : float) (s : TTLCache) : Z * TTLCache :=
  let keys := (filter (λ p, entry_expired now p.2 = true) (tc_cache s)).*1 in
  let d := foldl (λ d k, dict_pop k d) (tc_cache s) keys in
  let st := tc_stats s in
  (zlen keys,
   set_cache_stats d (MkStats (zlen d) (st_hits st) (st_misses st) (st_evictions st + zlen keys)) s).

(** [OrderedDict.move_to_end] *)
Definition move_to_end (k : string) (e : TtlEntry) (d : dict string TtlEntry) : dict string TtlEntry :=
  dict_pop k d ++ [(k, e)].

Definition ttl_get (k : string) (now : float) (s : TTLCache) : option V * TTLCache :=
  let st := tc_stats s in
  match dict_get k (tc_cache s) with
  | None =>
      (None, set_cache_stats (tc_cache s) (MkStats (st_size st) (st_hits st) (st_misses st + 1) (st_evictions st)) s)
  | Some e =>
      if entry_expired now e then
        let d := dict_pop k (tc_cache s) in
        (None, set_cache_stats d (MkStats (zlen d) (st_hits st) (st_misses st + 1) (st_evictions st + 1)) s)
      else
        (Some (te_value e),
         set_cache_stats (move_to_end k e (tc_cache s))
           (MkStats (st_size st) (st_hits st + 1) (st_misses st) (st_evictions st)) s)
  end.

Inductive SetError := SetArith (e : ArithError) | EmptyCache.

(** [set(key, value, ttl)] with its two clock readings; [popitem] on an empty
    dictionary raises [KeyError] ([EmptyCache]). *)
Definition ttl_set (k : string) (v : V) (ttl : option Z) (now created : float)
    : SE SetError TTLCache unit := λ s,
  let ttl := match ttl with Some 0 | None => tc_default_ttl s | Some t => t end in
  let expires :=
    if 0 <? ttl then
      match int_to_float ttl with Ok f => Ok (Some (fadd now f)) | Err e => Err e end
    else Ok None in
  match expires with
  | Err e => (Err (SetArith e), s)
  | Ok expires_at =>
      let d := dict_pop k (tc_cache s) in
      let st := tc_stats s in
      let e := MkTtlEntry v created expires_at ttl in
      if tc_max_size s <=? zlen d then
        match d with
        | [] => (Err EmptyCache, set_cache_stats d st s)
        | _ :: d' =>
            let d' := dict_set k e d' in
            (Ok tt, set_cache_stats d' (MkStats (zlen d') (st_hits st) (st_misses st) (st_evictions st + 1)) s)
        end
      else
        let d' := dict_set k e d in
        (Ok tt, set_cache_stats d' (MkStats (zlen d') (st_hits st) (st_misses st) (st_evictions st)) s)
  end.

Definition ttl_delete (k : string) (s : TTLCache) : bool * TTLCache :=
  if dict_mem k (tc_cache s) then
    let d := dict_pop k (tc_cache s) in
    let st := tc_stats s in
    (true, set_cache_stats d (MkStats (zlen d) (st_hits st) (st_misses st) (st_evictions st)) s)
  else (false, s).

Definition ttl_clear (s : TTLCache) : TTLCache := set_cache_stats [] (MkStats 0 0 0 0) s.

Definition get_stats (s : TTLCache) : CacheStats * TTLCache :=
  let st := tc_stats s in
  let st' := MkStats (zlen (tc_cache s)) (st_hits st) (st_misses st) (st_evictions st) in
  (st', set_cache_stats (tc_cache s) st' s).

(** ** [CacheManager] *)

Definition get_cache (name : string) (max_size default_ttl : Z) (m : dict string TTLCache)
    : TTLCache * dict string TTLCache :=
  match dict_get name m with
  | Some c => (c, m)
  | None => let c := new_ttl_cache max_size default_ttl in (c, dict_set name c m)
  end.

Definition get_all_stats (m : dict string TTLCache) : dict string CacheStats * dict string TTLCache :=
  ((λ p, (p.1, (get_stats p.2).1)) <$> m, (λ p, (p.1, (get_stats p.2).2)) <$> m).

Definition clear_all (m : dict string TTLCache) : dict string TTLCache :=
  (λ p, (p.1, ttl_clear p.2)) <$> m.

Definition close_all (m : dict string TTLCache) : dict string TTLCache := [].

(** ** Order of use *)

Inductive call :=
| Get (k : string) (now : float)
| Put (k : string) (v : V) (ttl : option Z) (now created : float)
| Delete (k : string)
| Cleanup (now : float)
| Stats
| Clear.

Definition after (x : call) (s : TTLCache) : TTLCache :=
  match x with
  | Get k now => (ttl_get k now s).2
  | Put k v ttl now created => (ttl_set k v ttl now created s).2
  | Delete k => (ttl_delete k s).2
  | Cleanup now => (cleanup_expired now s).2
  | Stats => (get_stats s).2
  | Clear => ttl_clear s
  end.

(** The key that a call uses: a hit, or a successful store. *)
Definition used_key (x : call) (s : TTLCache) : option string :=
  match x with
  | Get k now => match (ttl_get k now s).1 with Some _ => Some k | None => None end
  | Put k v ttl now created => match (ttl_set k v ttl now created s).1 with Ok _ => Some k | Err _ => None end
  | _ => None
  end.

(** A run that remembers, for each key, the position of its last use. *)
Fixpoint track (n : nat) (xs : list call) (s : TTLCache) (u : string → nat)
    : TTLCache * (string → nat) :=
  match xs with
  | [] => (s, u)
  | x :: xs' =>
      let u' := match used_key x s with
                | Some k => λ k', if decide (k' = k) then n else u k'
                | None => u
                end in
      track (S n) xs' (after x s) u'
  end.

Definition by_use (u : string → nat) (d : dict string TtlEntry) : Prop :=
  StronglySorted (λ a b, u a < u b)%nat d.*1.

(** The invariant at position [n] of a run. *)
Record ttl_inv (n : nat) (u : string → nat) (max : Z) (s : TTLCache) : Prop := {
  ti_max : tc_max_size s = max;
  ti_wf : dict_wf (tc_cache s);
  ti_size : zlen (tc_cache s) <= max;
  ti_stats : st_size (tc_stats s) = zlen (tc_cache s);
  ti_sorted : by_use u (tc_cache s);
  ti_past : Forall (λ k, u k < n)%nat (tc_cache s).*1
}.

Lemma zlen_pop (k : string) (d : dict string TtlEntry) : zlen (dict_pop k d) <= zlen d.
Proof. unfold zlen. pose proof (sublist_length _ _ (dict_pop_sublist k d)). lia. Qed.

Lemma dict_set_fresh (k : string) (e : TtlEntry) (d : dict string TtlEntry) :
  dict_get k d = None → dict_set k e d = d ++ [(k, e)].
Proof.
  induction d as [|[k' e'] d IH]; simpl; [done|]. case_decide; [done|]. intros Hk. by rewrite IH.
Qed.

(** Removing an entry keeps everything. *)
Lemma sublist_sorted {A} (R : relation A) (l l' : list A) :
  l `sublist_of` l' → StronglySorted R l' → StronglySorted R l.
Proof.
  intros Hl. induction Hl as [|x l l' Hl IH|x l l' Hl IH]; intros Hs; [constructor|..];
    inversion Hs as [|?? Hs' Hf]; subst; [|by apply IH].
  constructor; [by apply IH|]. rewrite Forall_forall in *. intros y Hy.
  apply Hf. by eapply elem_of_submseteq, sublist_submseteq.
Qed.

Lemma pop_keys (k : string) (d : dict string TtlEntry) : (dict_pop k d).*1 `sublist_of` d.*1.
Proof. apply fmap_sublist, dict_pop_sublist. Qed.

Lemma sublist_inv n u max s d st :
  ttl_inv n u max s → d.*1 `sublist_of` (tc_cache s).*1 → st_size st = zlen d →
  ttl_inv n u max (set_cache_stats d st s).
Proof.
  intros [Hm Hwf Hsz Hst Hso Hpa] Hd Hst'. split; simpl; [done|by eapply sublist_NoDup| |done| |].
  - pose proof (sublist_length _ _ Hd) as Hl. rewrite !length_fmap in Hl. unfold zlen in *. lia.
  - by eapply sublist_sorted.
  - rewrite Forall_forall in *. intros k Hk. apply Hpa. by eapply elem_of_submseteq, sublist_submseteq.
Qed.

(** Putting a key that is not there at the end, as the newest. *)
Lemma snoc_inv n u max s d k e st :
  ttl_inv n u max s → d.*1 `sublist_of` (tc_cache s).*1 → k ∉ d.*1 → zlen d < max →
  st_size st = zlen d + 1 →
  ttl_inv (S n) (λ k', if decide (k' = k) then n else u k') max (set_cache_stats (d ++ [(k, e)]) st s).
Proof.
  intros Hs Hd Hk Hlt Hst.
  destruct (sublist_inv n u max s d (MkStats (zlen d) 0 0 0) Hs Hd eq_refl) as [Hm Hwf _ _ Hso Hpa].
  simpl in *.
  assert (∀ x, x ∈ d.*1 → x ≠ k) as Hne by (intros x Hx ->; done).
  split; simpl; [done|..].
  - unfold dict_wf. rewrite fmap_app. apply NoDup_app. split; [done|]. split; [|by apply NoDup_singleton].
    intros x Hx ->%list_elem_of_singleton. done.
  - rewrite zlen_app. unfold zlen in *. simpl. lia.
  - rewrite zlen_app. unfold zlen in *. simpl. lia.
  - unfold by_use. rewrite fmap_app. apply StronglySorted_snoc.
    + unfold by_use in Hso. revert Hne Hso. generalize (d.*1) as l.
      induction l as [|x l IH]; intros Hne Hl; [constructor|].
      inversion Hl as [|?? Hl' Hf]; subst. constructor.
      * apply IH; [|done]. intros y Hy. apply Hne. by constructor.
      * rewrite Forall_forall in *. intros y Hy.
        rewrite !decide_False; [by apply Hf|apply Hne; by constructor|apply Hne; by constructor].
    + apply Forall_forall. intros x Hx. rewrite (decide_True (P := k = k)) by done.
      rewrite decide_False by (by apply Hne). rewrite Forall_forall in Hpa. by apply Hpa.
  - rewrite fmap_app. apply Forall_app. split.
    + rewrite Forall_forall in *. intros x Hx. rewrite decide_False by (by apply Hne).
      specialize (Hpa x Hx). simpl in Hpa. lia.
    + constructor; [|constructor]. rewrite decide_True by done. lia.
Qed.

Lemma later_inv n u max s : ttl_inv n u max s → ttl_inv (S n) u max s.
Proof.
  intros [Hm Hwf Hsz Hst Hso Hpa]. split; try done. eapply Forall_impl; [exact Hpa|]. simpl. lia.
Qed.

Lemma pops_sublist ks (d : dict string TtlEntry) :
  (foldl (λ d k, dict_pop k d) d ks).*1 `sublist_of` d.*1.
Proof.
  revert d. induction ks as [|k ks IH]; intros d; simpl; [done|].
  etrans; [apply IH|apply pop_keys].
Qed.

Lemma ttl_get_inv n u max s k now :
  ttl_inv n u max s →
  ttl_inv (S n) (match used_key (Get k now) s with
                 | Some k => λ k', if decide (k' = k) then n else u k' | None => u end)
    max (after (Get k now) s).
Proof.
  intros Hs. simpl. unfold ttl_get. pose proof (ti_wf _ _ _ _ Hs) as Hwf.
  destruct (dict_get k (tc_cache s)) as [e|] eqn:E; [destruct (entry_expired now e)|]; simpl.
  - apply later_inv, sublist_inv; [done|apply pop_keys|done].
  - apply snoc_inv; [done|apply pop_keys|apply dict_get_None; by apply dict_get_pop_eq|..].
    + pose proof (ti_size _ _ _ _ Hs). unfold zlen in *.
      rewrite (length_dict_pop k (tc_cache s)) in * by (unfold dict_mem; by rewrite E). lia.
    + simpl. rewrite (ti_stats _ _ _ _ Hs). unfold zlen.
      rewrite (length_dict_pop k (tc_cache s)) by (unfold dict_mem; by rewrite E). lia.
  - apply later_inv, sublist_inv; [done|done|]. apply (ti_stats _ _ _ _ Hs).
Qed.

(** A store removes the key, then the head of a full dictionary, and appends. *)
Lemma set_cases k v ttl now created s :
  dict_wf (tc_cache s) →
  let d := dict_pop k (tc_cache s) in
  match ttl_set k v ttl now created s with
  | (Ok _, s') =>
      ∃ e ev st, s' = set_cache_stats (drop ev d ++ [(k, e)]) st s ∧ te_value e = v ∧
        (ev <= 1)%nat ∧ (ev = 1%nat → tc_max_size s <= zlen d ∧ d ≠ []) ∧
        (ev = 0%nat → zlen d < tc_max_size s) ∧ st_size st = zlen (drop ev d) + 1
  | (Err (SetArith _), s') => s' = s
  | (Err EmptyCache, s') => s' = set_cache_stats [] (tc_stats s) s ∧ d = [] ∧ tc_max_size s <= 0
  end.
Proof.
  intros Hwf d. unfold ttl_set. fold d.
  pose proof (dict_get_pop_eq k (tc_cache s) Hwf) as Hk. fold d in Hk.
  destruct (if 0 <? _ then _ else _) as [exp|]; [|done].
  destruct (tc_max_size s <=? zlen d) eqn:E; bool_to_prop.
  - destruct d as [|[k0 e0] d'] eqn:Ed; [done|].
    assert (dict_get k d' = None) as Hk' by (simpl in Hk; by case_decide).
    eexists. exists 1%nat. eexists. rewrite dict_set_fresh by done.
    split; [done|]. split; [done|]. split; [lia|]. split; [done|]. split; [done|].
    simpl. rewrite drop_0. by rewrite zlen_app.
  - eexists. exists 0%nat. eexists. rewrite dict_set_fresh by done.
    split; [done|]. split; [done|]. split; [lia|]. split; [done|]. split; [lia|].
    simpl. by rewrite zlen_app.
Qed.

Lemma ttl_put_inv n u max s k v ttl now created :
  1 <= max → ttl_inv n u max s →
  let x := Put k v ttl now created in
  ttl_inv (S n) (match used_key x s with
                 | Some k => λ k', if decide (k' = k) then n else u k' | None => u end)
    max (after x s).
Proof.
  intros Hmax Hs x. pose proof (ti_wf _ _ _ _ Hs) as Hwf.
  pose proof (set_cases k v ttl now created s Hwf) as Hc. simpl in *.
  destruct (ttl_set k v ttl now created s) as [[[]|[e|]] s']; simpl.
  - destruct Hc as (e & ev & st & -> & _ & Hev & H1 & H0 & Hst).
    assert ((drop ev (dict_pop k (tc_cache s))).*1 `sublist_of` (dict_pop k (tc_cache s)).*1) as Hsub.
    { rewrite fmap_drop. apply sublist_drop. }
    apply snoc_inv; [done| | |..].
    + etrans; [exact Hsub|apply pop_keys].
    + intros Hin. pose proof (dict_get_pop_eq k (tc_cache s) Hwf) as Hk. apply dict_get_None in Hk.
      apply Hk. by eapply elem_of_submseteq, sublist_submseteq.
    + pose proof (zlen_pop k (tc_cache s)). pose proof (ti_size _ _ _ _ Hs).
      unfold zlen in *. rewrite length_drop. destruct ev as [|[|]]; [|destruct (H1 eq_refl) as [_ Hne];
        destruct (dict_pop k (tc_cache s)); [done|simpl in *; lia]|lia].
      rewrite (ti_max _ _ _ _ Hs) in H0. specialize (H0 eq_refl). lia.
    + exact Hst.
  - subst. by apply later_inv.
  - destruct Hc as (_ & _ & Hm). rewrite (ti_max _ _ _ _ Hs) in Hm. lia.
Qed.

Lemma after_ttl_inv n u max s x :
  1 <= max → ttl_inv n u max s →
  ttl_inv (S n) (match used_key x s with
                 | Some k => λ k', if decide (k' = k) then n else u k' | None => u end)
    max (after x s).
Proof.
  intros Hmax Hs. destruct x as [k now|k v ttl now created|k|now| |].
  - by apply ttl_get_inv.
  - by apply ttl_put_inv.
  - simpl. unfold ttl_delete. destruct (dict_mem k _); [|by apply later_inv].
    apply later_inv, sublist_inv; [done|apply pop_keys|done].
  - simpl. apply later_inv, sublist_inv; [done|apply pops_sublist|done].
  - simpl. apply later_inv, sublist_inv; [done|done|done].
  - simpl. apply later_inv, sublist_inv; [done|apply sublist_nil_l|done].
Qed.

Lemma new_ttl_inv max ttl : 1 <= max → ttl_inv 0 (λ _, 0%nat) max (new_ttl_cache max ttl).
Proof.
  intros Hmax. split; simpl; [done|apply NoDup_nil_2|unfold zlen; simpl; lia|done|constructor|constructor].
Qed.

Lemma track_inv xs n u max s :
  1 <= max → ttl_inv n u max s →
  ttl_inv (n + length xs) (track n xs s u).2 max (track n xs s u).1.
Proof.
  intros Hmax. revert n u s. induction xs as [|x xs IH]; intros n u s Hs; simpl.
  { by rewrite Nat.add_0_r. }
  rewrite <- Nat.add_succ_comm. by apply IH, after_ttl_inv.
Qed.
End Ttl.

Arguments TtlEntry : clear implicits.
Arguments TTLCache : clear implicits.
Arguments call : clear implicits.

(** Least-recently-used eviction: after any calls on a cache of at least one
    place, it holds at most [max_size] entries and reports its size; storing a
    new value succeeds unless the expiry overflows, makes [get] return it until
    its entry expires, and the only other entry that can disappear is, in a full cache,
    the one whose last use lies before the last use of every entry that stays. *)
Theorem ttl_cache_lru {V} (max_size default_ttl : Z) (xs : list (call V))
    (k : string) (v : V) (ttl : option Z) (now created : float) :
  1 <= max_size →
  let '(s, last_use) := track 0 xs (new_ttl_cache max_size default_ttl) (λ _, 0%nat) in
  zlen (tc_cache s) <= max_size ∧ (get_stats s).1 = tc_stats s ∧
  match ttl_set k v ttl now created s with
  | (Ok _, s') =>
      (∃ e, dict_get k (tc_cache s') = Some e ∧
         ∀ later, (ttl_get k later s').1 = if entry_expired later e then None else Some v) ∧
      ∀ k0 e0, k0 ≠ k → dict_get k0 (tc_cache s) = Some e0 →
        dict_get k0 (tc_cache s') = Some e0 ∨
        (zlen (tc_cache s) = max_size ∧
         ∀ k1 e1, k1 ≠ k → dict_get k1 (tc_cache s') = Some e1 → (last_use k0 < last_use k1)%nat)
  | (Err (SetArith _), s') => s' = s
  | (Err EmptyCache, _) => False
  end.
Proof.
  intros Hmax. pose proof (track_inv xs 0 (λ _, 0%nat) max_size (new_ttl_cache max_size default_ttl) Hmax
    (new_ttl_inv max_size default_ttl Hmax)) as Hs.
  destruct (track 0 xs _ _) as [s u]. simpl in Hs. pose proof (ti_wf _ _ _ _ Hs) as Hwf.
  split; [apply (ti_size _ _ _ _ Hs)|]. split.
  { unfold get_stats. simpl. rewrite <- (ti_stats _ _ _ _ Hs). by destruct (tc_stats s). }
  pose proof (set_cases k v ttl now created s Hwf) as Hc. simpl in Hc.
  destruct (ttl_set k v ttl now created s) as [[[]|[e|]] s'].
  2: done.
  2: { destruct Hc as (_ & _ & Hm). rewrite (ti_max _ _ _ _ Hs) in Hm. lia. }
  destruct Hc as (e & ev & st & -> & Hv & Hev & H1 & H0 & _). simpl.
  set (d := dict_pop k (tc_cache s)) in *.
  assert (dict_get k d = None) as Hk by (by apply dict_get_pop_eq).
  assert (dict_get k (drop ev d) = None) as Hk'.
  { apply dict_get_None. apply dict_get_None in Hk. intros Hin. apply Hk.
    rewrite fmap_drop in Hin. eapply elem_of_submseteq; [exact Hin|].
    apply sublist_submseteq, sublist_drop. }
  rewrite <- (dict_set_fresh k e _ Hk'). split.
  { exists e. unfold ttl_get. simpl. rewrite dict_get_set_eq. split; [done|].
    intros later. rewrite <- Hv. by destruct (entry_expired later e). }
  intros k0 e0 Hne Hg. assert (dict_get k0 d = Some e0) as Hd by (by unfold d; rewrite dict_get_pop_ne).
  rewrite dict_get_set_ne by done. destruct ev as [|[|]]; [by left| |lia].
  destruct (H1 eq_refl) as [Hfull _]. pose proof (sublist_sorted _ _ _ (pop_keys k (tc_cache s)) (ti_sorted _ _ _ _ Hs)) as Hso.
  fold d in Hso. pose proof (zlen_pop k (tc_cache s)) as Hle. fold d in Hle.
  rewrite (ti_max _ _ _ _ Hs) in Hfull. pose proof (ti_size _ _ _ _ Hs).
  destruct d as [|[kh eh] d']; [done|]. simpl in Hd, Hso. cbn [drop].
  inversion Hso as [|?? _ Hfirst]; subst. case_decide; [|by left].
  simplify_eq. right. split; [lia|]. intros k1 e1 Hk1. rewrite dict_get_set_ne by done. intros Hg1.
  rewrite Forall_forall in Hfirst. apply Hfirst. apply dict_get_elem_of in Hg1.
  by apply (list_elem_of_fmap_2 fst) in Hg1.
Qed.

Lemma ttl_cache_lru_witness :
  let '(s, last_use) :=
    track 0 [Put "a" 1%nat None fzero fzero; Put "b" 2%nat None fzero fzero; Get "a" fzero]
      (new_ttl_cache 2 60) (λ _, 0%nat) in
  zlen (tc_cache s) = 2 ∧
  let s' := (ttl_set "c" 3%nat None fzero fzero s).2 in
  dict_get "b" (tc_cache s') = None ∧ (last_use "b"%string < last_use "a"%string)%nat.
Proof.
  pose proof (ttl_cache_lru 2 60
    [Put "a" 1%nat None fzero fzero; Put "b" 2%nat None fzero fzero; Get "a" fzero]
    "c" 3%nat None fzero fzero ltac:(lia)) as H.
  vm_compute in H. vm_compute. destruct H as (_ & _ & _ & H).
  split; [reflexivity|]. split; [reflexivity|]. repeat constructor.
Defined.
