(* ===== verification/Scheduler.v ===== *)
(** * The distributed scheduler ([app/cluster/scheduler.py], [DistributedScheduler])

    A scheduler claims the due jobs of the job store and runs their handlers.
    [tick] is atomic: [_claim] awaits nothing.  [_execute] is split at the await
    of the handler into [begin_execute], which records the run, and
    [end_execute], which takes the outcome of the handler; between the two any
    other step may happen.  Clock readings, run ids and the outcome are
    arguments; the conversions between [datetime] and time stamps depend on the
    time zone and are parameters, as is the text of a float. *)

From Stdlib Require Import ZArith Lia.
From stdpp Require Import base numbers strings gmap list.
From S2P Require Import Prelude PyFloat Cron PyDict ClusterStores.


Open Scope Z_scope.
Open Scope py_scope.

Inductive SchedError :=
| StoreFailure (e : StoreError)
| CronFailure (e : CronError)
| CronRequired
| JobNotFound (id : string).

Record Scheduler := MkScheduler {
  sc_node : string;
  sc_store : JobStore;
  sc_handlers : list string;  (* the names with a registered handler *)
  sc_tasks : list string;     (* job ids of the tasks created and not yet started *)
  sc_paused : bool;
  sc_last_tick : float;
  sc_executed : Z
}.

Definition set_store (st : JobStore) (s : Scheduler) : Scheduler :=
  MkScheduler (sc_node s) st (sc_handlers s) (sc_tasks s) (sc_paused s) (sc_last_tick s) (sc_executed s).
Definition set_tasks (ts : list string) (s : Scheduler) : Scheduler :=
  MkScheduler (sc_node s) (sc_store s) (sc_handlers s) ts (sc_paused s) (sc_last_tick s) (sc_executed s).

(** ** Attribute assignments *)

Definition set_next_run (t : float) (j : JobSpec) : JobSpec :=
  MkJobSpec (j_name j) (j_type j) (j_id j) (j_interval j) (j_delay j) (j_cron j)
    (j_singleton j) (j_failover j) (j_owner j) (j_payload j) (j_attempts j) (j_retries j)
    (j_priority j) (j_timeout j) (j_last_run j) t (j_created_at j).
Definition set_last_run (t : float) (j : JobSpec) : JobSpec :=
  MkJobSpec (j_name j) (j_type j) (j_id j) (j_interval j) (j_delay j) (j_cron j)
    (j_singleton j) (j_failover j) (j_owner j) (j_payload j) (j_attempts j) (j_retries j)
    (j_priority j) (j_timeout j) t (j_next_run j) (j_created_at j).
Definition set_attempts (n : Z) (j : JobSpec) : JobSpec :=
  MkJobSpec (j_name j) (j_type j) (j_id j) (j_interval j) (j_delay j) (j_cron j)
    (j_singleton j) (j_failover j) (j_owner j) (j_payload j) n (j_retries j)
    (j_priority j) (j_timeout j) (j_last_run j) (j_next_run j) (j_created_at j).

Definition set_run (st : JobState) (err : string) (finished : float) (res : option string)
    (r : JobRun) : JobRun :=
  MkJobRun (r_id r) (r_job_id r) (r_job_name r) (r_node_id r) st (r_started_at r) finished res err
    (r_attempts r).

(** The run object is shared with the store. *)
Definition put_run (run : JobRun) (s : Scheduler) : Scheduler := set_store (js_add_run run (sc_store s)) s.

Section Scheduling.
Context (fromtimestamp : float → datetime) (timestamp : datetime → float).
Context (float_text : float → string).

Abbreviation M := (SE SchedError Scheduler).

(** [CronExpression(cron).next_after(dt).timestamp()] *)
Definition cron_next (cron : string) (dt : datetime) : result SchedError float :=
  match cron_parse cron with
  | Err e => Err (CronFailure e)
  | Ok c => match next_after c dt with Err e => Err (CronFailure e) | Ok d => Ok (timestamp d) end
  end.

(** [self.store.update(...)] *)
Definition store_update (id : string) (f : JobSpec → JobSpec) : M unit := λ s,
  match js_update id f (sc_store s) with
  | Ok st => (Ok tt, set_store st s)
  | Err e => (Err (StoreFailure e), s)
  end.

(** ** Jobs *)

Definition add_job (spec : JobSpec) (now : float) (dnow : datetime) : M JobSpec := λ s,
  if bool_decide (j_type spec = CRON) && negb (truthy (j_cron spec)) then (Err CronRequired, s)
  else
    let next :=
      match j_type spec with
      | DELAYED => Ok (fadd now (j_delay spec))
      | CRON => cron_next (j_cron spec) dnow
      | _ => Ok (fadd now (j_interval spec))
      end in
    match next with
    | Err e => (Err e, s)
    | Ok t => let spec := set_next_run t spec in
              (Ok spec, set_store (js_add spec (sc_store s)) s)
    end.

(** The job type that [schedule] chooses. *)
Definition default_type (cron : string) (delay : float) (singleton failover : bool) : JobType :=
  if truthy cron then CRON
  else if negb (feq delay fzero) then DELAYED
  else if singleton then SINGLETON
  else if failover then FAILOVER
  else RECURRING.

Definition register_handler (name : string) (s : Scheduler) : Scheduler :=
  MkScheduler (sc_node s) (sc_store s) (name :: filter (λ n, n ≠ name) (sc_handlers s)) (sc_tasks s)
    (sc_paused s) (sc_last_tick s) (sc_executed s).

Definition unregister_handler (name : string) (s : Scheduler) : bool * Scheduler :=
  (bool_decide (name ∈ sc_handlers s),
   MkScheduler (sc_node s) (sc_store s) (filter (λ n, n ≠ name) (sc_handlers s)) (sc_tasks s)
     (sc_paused s) (sc_last_tick s) (sc_executed s)).

(** [schedule(name, handler, ...)]: the handler is registered, then the job is
    built and added.  [id] and [created] are generated, [job_timeout] is the
    configured default. *)
Definition schedule (name : string) (interval delay : float) (cron : string)
    (singleton failover : bool) (payload : string) (retries priority : Z) (timeout : option float)
    (job_type : option JobType) (job_timeout : float) (id : string) (created now : float)
    (dnow : datetime) : M JobSpec := λ s,
  let job_type := default (default_type cron delay singleton failover) job_type in
  let spec := MkJobSpec name job_type id interval delay cron singleton failover None payload 0
                retries priority (default job_timeout timeout) fzero fzero created in
  add_job spec now dnow (register_handler name s).

Definition remove_job (id : string) (s : Scheduler) : bool * Scheduler :=
  let '(st, removed) := js_remove id (sc_store s) in (removed, set_store st s).

Definition get_job (id : string) (s : Scheduler) : result SchedError JobSpec :=
  match js_get id (sc_store s) with Some j => Ok j | None => Err (JobNotFound id) end.

Definition pause_scheduler (s : Scheduler) : Scheduler :=
  MkScheduler (sc_node s) (sc_store s) (sc_handlers s) (sc_tasks s) true (sc_last_tick s) (sc_executed s).
Definition resume_scheduler (s : Scheduler) : Scheduler :=
  MkScheduler (sc_node s) (sc_store s) (sc_handlers s) (sc_tasks s) false (sc_last_tick s) (sc_executed s).

(** ** Claiming *)

Definition owned_by_other (node : string) (j : JobSpec) : bool :=
  truthy (default EmptyString (j_owner j)) && bool_decide (j_owner j ≠ Some node).

(** [_claim(job)]; [leader] is the answer of the leader check. *)
Definition claim (leader : bool) (job : JobSpec) : M bool := λ s,
  if j_singleton job && negb leader then (Ok false, s)
  else if owned_by_other (sc_node s) job && negb (j_failover job) then (Ok false, s)
  else
    let '(refused, s) :=
      if j_failover job then
        if owned_by_other (sc_node s) job then (true, s)
        else let '(st, ok) := js_claim (j_id job) (sc_node s) (sc_store s) in (negb ok, set_store st s)
      else (false, s) in
    if refused then (Ok false, s)
    else
      (store_update (j_id job) (set_owner (Some (sc_node s)));;
       se_modify (λ s, set_tasks (sc_tasks s ++ [j_id job]) s);;
       mret true) s.

Fixpoint claim_all (leader : bool) (jobs : list JobSpec) (started : Z) : M Z :=
  match jobs with
  | [] => mret started
  | j :: js => ok ← claim leader j; claim_all leader js (if ok : bool then started + 1 else started)
  end.

Definition tick (leader : bool) (now : float) : M Z :=
  se_modify (λ s, MkScheduler (sc_node s) (sc_store s) (sc_handlers s) (sc_tasks s) (sc_paused s)
                    now (sc_executed s));;
  s ← se_get;
  started ← claim_all leader (js_due now (sc_store s)) 0;
  se_modify (λ s, MkScheduler (sc_node s) (sc_store s) (sc_handlers s) (sc_tasks s) (sc_paused s)
                    (sc_last_tick s) (sc_executed s + started));;
  mret started.

(** ** Executing *)

Definition retry_next (job : JobSpec) (now : float) : result SchedError float :=
  match j_type job with
  | CRON => cron_next (j_cron job) (fromtimestamp now)
  | _ => Ok (fadd now (j_interval job))
  end.

(** [_fail]; [t1] is the finishing time and [t2] the reading of [_retry_next]. *)
Definition fail_run (job : JobSpec) (run : JobRun) (error : string) (t1 t2 : float) : M JobRun :=
  let failed := set_run J_FAILED error t1 (r_result run) run in
  se_modify (put_run failed);;
  if r_attempts run <=? j_retries job then
    t ← se_lift (retry_next job t2);
    store_update (j_id job) (λ j, set_next_run t (set_owner None j));;
    let pending := set_run J_PENDING error t1 (r_result run) run in
    se_modify (put_run pending);;
    mret pending
  else
    store_update (j_id job) (λ j, set_next_run fzero (set_owner None j));;
    mret failed.

Definition finish_success (job : JobSpec) (now : float) : M unit :=
  match j_type job with
  | DELAYED =>
      store_update (j_id job) (λ j, set_next_run fzero (set_last_run now j));;
      se_modify (λ s, set_store (js_remove (j_id job) (sc_store s)).1 s)
  | CRON =>
      t ← se_lift (cron_next (j_cron job) (fromtimestamp now));
      store_update (j_id job) (λ j, set_next_run t (set_last_run now j))
  | _ => store_update (j_id job) (λ j, set_next_run (fadd now (j_interval job)) (set_last_run now j))
  end.

(** Up to the await: the job and the run, and whether a handler is registered. *)
Definition begin_execute (id run_id : string) (started : float) : M (JobSpec * JobRun * bool) := λ s,
  match js_require id (sc_store s) with
  | Err e => (Err (StoreFailure e), s)
  | Ok job =>
      let attempt := j_attempts job + 1 in
      let run := MkJobRun run_id (j_id job) (j_name job) (sc_node s) J_RUNNING started fzero None ""
                   attempt in
      (store_update id (set_attempts attempt);;
       se_modify (put_run run);;
       mret (job, run, bool_decide (j_name job ∈ sc_handlers s))) s
  end.

Inductive Outcome := Returned (result : string) | TimedOut | Raised (error : string) | Cancelled.

(** From the await on.  A cancelled task re-raises, which ends it. *)
Definition end_execute (job : JobSpec) (run : JobRun) (o : Outcome) (t1 t2 : float) : M JobRun :=
  match o with
  | Returned r =>
      let run := set_run J_SUCCEEDED (r_error run) t1 (Some r) run in
      se_modify (put_run run);; finish_success job t2;; mret run
  | TimedOut => fail_run job run ("timed out after " +:+ float_text (j_timeout job) +:+ "s") t1 t2
  | Raised e => fail_run job run e t1 t2
  | Cancelled =>
      let run := set_run J_FAILED "cancelled" t1 (r_result run) run in
      se_modify (put_run run);;
      t ← se_lift (retry_next job t2);
      store_update (j_id job) (λ j, set_next_run t (set_owner None j));;
      mret run
  end.

(** An execution that nothing interleaves with.  The name of the job is quoted
    as [repr] does for a name without quotes. *)
Definition execute (id run_id : string) (o : Outcome) (t0 t1 t2 : float) : M JobRun :=
  p ← begin_execute id run_id t0;
  let '(job, run, registered) := (p : JobSpec * JobRun * bool) in
  if registered then end_execute job run o t1 t2
  else fail_run job run ("no handler registered for job '" +:+ j_name job +:+ "'") t1 t2.

Definition run_now (id run_id : string) (o : Outcome) (t0 t1 t2 : float) : M JobRun :=
  s ← se_get;
  job ← se_lift (get_job id s);
  execute (j_id job) run_id o t0 t1 t2.
End Scheduling.

(** * What the scheduler guarantees

    A tick claims exactly the due jobs it may claim; a job that fails is tried
    a bounded number of times; and the attempt counter, which successes do not
    reset. *)

Open Scope Z_scope.
Open Scope py_scope.

(** ** Claiming *)

(** Whether [_claim] accepts a job for a node. *)
Definition claimable (leader : bool) (node : string) (j : JobSpec) : bool :=
  (negb (j_singleton j) || leader) &&
  (if j_failover j then bool_decide (j_owner j = None ∨ j_owner j = Some node)
   else negb (owned_by_other node j)).

(** The state after a job was claimed. *)
Definition claimed (s : Scheduler) (j : JobSpec) : Scheduler :=
  set_tasks (sc_tasks s ++ [j_id j])
    (set_store (MkJobStore (dict_set (j_id j) (set_owner (Some (sc_node s)) j) (js_jobs (sc_store s)))
                  (js_runs (sc_store s))) s).

Lemma dict_set_set {V} k (v w : V) (d : dict string V) :
  dict_set k v (dict_set k w d) = dict_set k v d.
Proof.
  induction d as [|[k' v'] d IH]; simpl; [by rewrite decide_True|].
  case_decide; simpl; [by rewrite decide_True|]. by rewrite decide_False, IH.
Qed.

(** The last part of [_claim]. *)
Lemma take_spec j s j0 :
  dict_get (j_id j) (js_jobs (sc_store s)) = Some j0 → set_owner (Some (sc_node s)) j0 = set_owner (Some (sc_node s)) j →
  (store_update (j_id j) (set_owner (Some (sc_node s)));;
   se_modify (λ s, set_tasks (sc_tasks s ++ [j_id j]) s);; mret true) s = (Ok true, claimed s j).
Proof.
  intros Hg He. unfold mbind, SE_bind, store_update, js_update. by rewrite Hg, He.
Qed.

Lemma claim_failover j s :
  dict_get (j_id j) (js_jobs (sc_store s)) = Some j →
  let '(st, ok) := js_claim (j_id j) (sc_node s) (sc_store s) in
  ok = bool_decide (j_owner j = None ∨ j_owner j = Some (sc_node s)) ∧
  (ok = true → (store_update (j_id j) (set_owner (Some (sc_node s)));;
    se_modify (λ s, set_tasks (sc_tasks s ++ [j_id j]) s);; mret true) (set_store st s)
    = (Ok true, claimed s j)) ∧
  (ok = false → st = sc_store s).
Proof.
  intros Hg. unfold js_claim. rewrite Hg.
  assert (∀ st, st = MkJobStore (dict_set (j_id j) (set_owner (Some (sc_node s)) j) (js_jobs (sc_store s)))
                    (js_runs (sc_store s)) →
    (store_update (j_id j) (set_owner (Some (sc_node s)));;
     se_modify (λ s, set_tasks (sc_tasks s ++ [j_id j]) s);; mret true) (set_store st s)
     = (Ok true, claimed s j)) as Htake.
  { intros st ->. unfold mbind, SE_bind, store_update, js_update. simpl.
    by rewrite dict_get_set_eq, dict_set_set. }
  destruct (j_owner j) as [o|] eqn:Eo.
  - case_decide as Hne.
    + split; [|done]. symmetry. apply bool_decide_eq_false. naive_solver.
    + split; [|split; [|done]]; [|intros _; by apply Htake].
      symmetry. apply bool_decide_eq_true. right. f_equal. by destruct (decide (o = sc_node s)).
  - split; [by rewrite bool_decide_eq_true_2 by (by left)|]. split; [|done]. intros _. by apply Htake.
Qed.

Lemma claim_spec leader j s :
  js_get (j_id j) (sc_store s) = Some j →
  claim leader j s = if claimable leader (sc_node s) j then (Ok true, claimed s j) else (Ok false, s).
Proof.
  intros Hg. unfold claim, claimable. unfold js_get in Hg.
  destruct (j_singleton j && negb leader) eqn:Es.
  { by destruct (j_singleton j), leader. }
  assert (negb (j_singleton j) || leader = true) as -> by (by destruct (j_singleton j), leader).
  simpl. destruct (j_failover j) eqn:Ef; rewrite ?andb_true_r, ?andb_false_r.
  - pose proof (claim_failover j s Hg) as Hc. destruct (js_claim _ _ _) as [st ok].
    destruct Hc as (Hok & Ht & Hf). destruct (owned_by_other (sc_node s) j) eqn:Eo.
    { rewrite bool_decide_eq_false_2; [done|]. unfold owned_by_other in Eo. bool_to_prop.
      intros [Hn|Hn]; [by rewrite Hn in *|done]. }
    rewrite <- Hok. destruct ok; simpl; [by apply Ht|]. rewrite Hf by done. by destruct s.
  - destruct (owned_by_other (sc_node s) j); [done|]. by apply take_spec with (j0 := j).
Qed.

Lemma claimed_get s j id :
  js_get id (sc_store (claimed s j)) =
  if decide (j_id j = id) then Some (set_owner (Some (sc_node s)) j) else js_get id (sc_store s).
Proof. unfold js_get. simpl. apply dict_get_set. Qed.

(** The claims of a tick, one job after the other. *)
Lemma claim_all_spec leader jobs started s :
  NoDup (j_id <$> jobs) → Forall (λ j, js_get (j_id j) (sc_store s) = Some j) jobs →
  claim_all leader jobs started s =
    (Ok (started + zlen (filter (λ j, claimable leader (sc_node s) j = true) jobs)),
     foldl claimed s (filter (λ j, claimable leader (sc_node s) j = true) jobs)).
Proof.
  revert started s. induction jobs as [|j jobs IH]; intros started s Hnd Hall.
  { simpl. unfold zlen. simpl. by rewrite Z.add_0_r. }
  csimpl in Hnd. apply NoDup_cons in Hnd as [Hni Hnd]. apply Forall_cons in Hall as [Hj Hall].
  cbn [claim_all]. rewrite filter_cons. pose proof (claim_spec leader j s Hj) as Hc.
  destruct (claimable leader (sc_node s) j) eqn:Ecl.
  - rewrite decide_True by done. rewrite (se_bind_Ok _ _ _ _ _ Hc). rewrite IH; [|done|].
    + simpl. unfold zlen. simpl. f_equal. f_equal. lia.
    + rewrite Forall_forall in *. intros k Hk. rewrite claimed_get, decide_False; [by apply Hall|].
      intros Heq. apply Hni. rewrite Heq. by apply list_elem_of_fmap_2.
  - rewrite decide_False by done. rewrite (se_bind_Ok _ _ _ _ _ Hc). by rewrite IH.
Qed.

Lemma claimed_fold jobs s :
  let s' := foldl claimed s jobs in
  sc_node s' = sc_node s ∧ sc_tasks s' = sc_tasks s ++ (j_id <$> jobs) ∧
  sc_handlers s' = sc_handlers s ∧ sc_executed s' = sc_executed s ∧
  js_runs (sc_store s') = js_runs (sc_store s).
Proof.
  revert s. induction jobs as [|j jobs IH]; intros s; simpl; [by rewrite app_nil_r|].
  destruct (IH (claimed s j)) as (-> & -> & -> & -> & ->). csimpl. by rewrite <- app_assoc.
Qed.

Lemma claimed_fold_get jobs s id :
  NoDup (j_id <$> jobs) →
  js_get id (sc_store (foldl claimed s jobs)) =
  match list_find (λ j, j_id j = id) jobs with
  | Some (_, j) => Some (set_owner (Some (sc_node s)) j)
  | None => js_get id (sc_store s)
  end.
Proof.
  revert s. induction jobs as [|j jobs IH]; intros s Hnd; [done|].
  csimpl in Hnd. apply NoDup_cons in Hnd as [Hni Hnd]. cbn [foldl list_find].
  rewrite IH by done. destruct (decide (j_id j = id)) as [<-|Hne].
  - destruct (list_find _ jobs) as [[i k]|] eqn:El.
    + apply list_find_Some in El as (Hl & Hk & _). destruct Hni. rewrite <- Hk.
      apply list_elem_of_fmap_2. by eapply list_elem_of_lookup_2.
    + by rewrite claimed_get, decide_True.
  - destruct (list_find _ jobs) as [[i k]|]; [done|]. by rewrite claimed_get, decide_False.
Qed.

Lemma claimed_fold_wf jobs s : jobs_wf (sc_store s) → jobs_wf (sc_store (foldl claimed s jobs)).
Proof.
  revert s. induction jobs as [|j jobs IH]; intros s Hwf; [done|]. apply IH. destruct Hwf as [Hd Hid].
  split; simpl; [by apply dict_set_wf|]. intros k v. rewrite dict_get_set. case_decide; [|apply Hid].
  by intros [= <-].
Qed.

(** The jobs a tick claims. *)
Definition claims (leader : bool) (now : float) (s : Scheduler) : list JobSpec :=
  filter (λ j, claimable leader (sc_node s) j = true) (js_due now (sc_store s)).

Lemma elem_of_claims leader now s j :
  jobs_wf (sc_store s) →
  j ∈ claims leader now s ↔
  js_get (j_id j) (sc_store s) = Some j ∧ flt fzero (j_next_run j) = true ∧
  fle (j_next_run j) now = true ∧ claimable leader (sc_node s) j = true.
Proof.
  intros Hwf. unfold claims, js_due. rewrite !list_elem_of_filter, elem_of_js_all by done.
  unfold js_get. rewrite andb_true_iff. naive_solver.
Qed.

Lemma claims_nodup leader now s : jobs_wf (sc_store s) → NoDup (j_id <$> claims leader now s).
Proof.
  intros Hwf. eapply sublist_NoDup; [by apply js_all_ids_nodup|].
  apply fmap_sublist. etrans; apply sublist_filter.
Qed.

Lemma tick_steps leader now s :
  jobs_wf (sc_store s) →
  let s1 := MkScheduler (sc_node s) (sc_store s) (sc_handlers s) (sc_tasks s) (sc_paused s) now (sc_executed s) in
  let s2 := foldl claimed s1 (claims leader now s) in
  tick leader now s =
    (Ok (zlen (claims leader now s)),
     MkScheduler (sc_node s2) (sc_store s2) (sc_handlers s2) (sc_tasks s2) (sc_paused s2)
       (sc_last_tick s2) (sc_executed s2 + zlen (claims leader now s))).
Proof.
  intros Hwf s1 s2.
  assert (claim_all leader (js_due now (sc_store s1)) 0 s1 = (Ok (zlen (claims leader now s)), s2)) as Hc.
  { rewrite claim_all_spec; [done| |].
    - eapply sublist_NoDup; [apply (js_all_ids_nodup (sc_store s) Hwf)|].
      apply fmap_sublist, sublist_filter.
    - rewrite Forall_forall. intros j Hj. unfold js_due in Hj. apply list_elem_of_filter in Hj as [_ Hj].
      by apply elem_of_js_all. }
  unfold tick. unfold mbind at 1, SE_bind at 1. simpl. unfold mbind at 1, SE_bind at 1. simpl.
  fold s1. by rewrite (se_bind_Ok _ _ _ _ _ Hc).
Qed.

Lemma tick_claims_get leader now s :
  jobs_wf (sc_store s) →
  let s' := (tick leader now s).2 in
  jobs_wf (sc_store s') ∧ sc_node s' = sc_node s ∧
  ∀ id, js_get id (sc_store s') =
    (λ j, if flt fzero (j_next_run j) && fle (j_next_run j) now && claimable leader (sc_node s) j
          then set_owner (Some (sc_node s)) j else j) <$> js_get id (sc_store s).
Proof.
  intros Hwf s'. subst s'. rewrite tick_steps by done. cbn [snd].
  set (s1 := MkScheduler _ _ _ _ _ now _).
  split; [by apply claimed_fold_wf|]. split; [apply (claimed_fold (claims leader now s) s1)|].
  intros id. cbn [sc_store]. rewrite claimed_fold_get by (by apply claims_nodup).
  destruct (list_find _ _) as [[i j]|] eqn:El.
  - apply list_find_Some in El as (Hl & <- & _). apply list_elem_of_lookup_2 in Hl.
    apply elem_of_claims in Hl as (Hg & H1 & H2 & H3); [|done]. rewrite Hg. simpl. by rewrite H1, H2, H3.
  - rewrite list_find_None in El. change (sc_store s1) with (sc_store s).
    destruct (js_get id (sc_store s)) as [j|] eqn:Eg; [|done]. simpl.
    destruct (flt _ _ && _ && _) eqn:Ec; [|done]. bool_to_prop.
    assert (j_id j = id) as Hid by (by apply Hwf). rewrite Forall_forall in El.
    destruct (El j); [|done]. apply elem_of_claims; [done|]. by rewrite Hid.
Qed.

(** A tick claims exactly the due jobs that it may claim: a job that another
    node owns or, away from the leader, a singleton is left alone; every
    claimed job gets this node as its owner and one new task, nothing else of
    the store changes, and the tick does not raise. *)
Theorem tick_claims (leader : bool) (now : float) (s : Scheduler) :
  jobs_wf (sc_store s) →
  ∃ s', tick leader now s = (Ok (zlen (claims leader now s)), s') ∧
    sc_tasks s' = sc_tasks s ++ (j_id <$> claims leader now s) ∧
    NoDup (j_id <$> claims leader now s) ∧
    (∀ id, js_get id (sc_store s') =
       (λ j, if flt fzero (j_next_run j) && fle (j_next_run j) now && claimable leader (sc_node s) j
             then set_owner (Some (sc_node s)) j else j) <$> js_get id (sc_store s)) ∧
    sc_executed s' = sc_executed s + zlen (claims leader now s).
Proof.
  intros Hwf. pose proof (tick_claims_get leader now s Hwf) as (_ & _ & Hget).
  rewrite tick_steps in * by done. eexists. split; [done|].
  set (s1 := MkScheduler _ _ _ _ _ now _) in *.
  destruct (claimed_fold (claims leader now s) s1) as (_ & Ht & _ & He & _).
  split; [done|]. split; [by apply claims_nodup|]. split; [exact Hget|].
  cbn [sc_executed]. by rewrite He.
Qed.

Definition demo_job (id : string) (owner : option string) (singleton failover : bool) (t : JobType) : JobSpec :=
  MkJobSpec id t id (float_of_Z 60) fzero "" singleton failover owner "" 0 1 0 (float_of_Z 30)
    fzero (float_of_Z 10) fzero.

Definition demo_scheduler : Scheduler :=
  MkScheduler "n1"
    (js_add (demo_job "a" None false false RECURRING)
      (js_add (demo_job "b" (Some "n2"%string) false true FAILOVER)
        (js_add (demo_job "c" None true false SINGLETON) (MkJobStore [] []))))
    ["a"; "b"; "c"]%string [] false fzero 0.

Lemma demo_scheduler_wf : jobs_wf (sc_store demo_scheduler).
Proof.
  split; [apply (bool_decide_unpack _); vm_compute; exact I|].
  intros k j. simpl. repeat (case_decide; [intros [= <-]; simpl; congruence|]). done.
Qed.

Lemma tick_claims_witness :
  ∃ s', tick false (float_of_Z 20) demo_scheduler = (Ok 1, s') ∧ sc_tasks s' = ["a"%string].
Proof.
  destruct (tick_claims false (float_of_Z 20) demo_scheduler demo_scheduler_wf) as (s' & Ht & Hq & _).
  exists s'. split; [rewrite Ht; vm_compute; reflexivity|]. rewrite Hq. vm_compute. reflexivity.
Defined.

(** ** Executions *)

(** What an execution of one job leaves of another: its entry of the store. *)
Definition frame (id : string) (x : option JobSpec) (s : Scheduler) : Prop :=
  jobs_wf (sc_store s) ∧ js_get id (sc_store s) = x.

Lemma frame_id id j s : frame id (Some j) s → j_id j = id.
Proof. intros [[_ Hid] Hg]. by apply Hid. Qed.

Lemma put_run_frame id x run : se_inv (E := SchedError) (frame id x) (se_modify (put_run run)).
Proof. by intros s Hs. Qed.

Lemma store_update_frame id id' x f :
  id' ≠ id → (∀ j, j_id (f j) = j_id j) → se_inv (frame id x) (store_update id' f).
Proof.
  intros Hne Hf s [Hwf Hg]. unfold store_update. destruct (js_update id' f (sc_store s)) as [st|] eqn:E; [|done].
  split; simpl; [by eapply js_update_wf|]. unfold js_update in E. unfold js_get in *.
  destruct (dict_get id' _); simplify_eq/=. by rewrite dict_get_set_ne.
Qed.

Lemma remove_frame id id' x :
  id' ≠ id →
  se_inv (E := SchedError) (frame id x) (se_modify (λ s, set_store (js_remove id' (sc_store s)).1 s)).
Proof.
  intros Hne s [[Hwf Hid] Hg]. split; [split|]; simpl; [by apply dict_pop_wf| |].
  - intros k j Hk. apply Hid. destruct (decide (id' = k)) as [->|].
    + by rewrite dict_get_pop_eq in Hk.
    + by rewrite dict_get_pop_ne in Hk.
  - unfold js_get in *. simpl. by rewrite dict_get_pop_ne.
Qed.

#[local] Hint Resolve put_run_frame store_update_frame remove_frame : pydb.

Section Executions.
Context (fromtimestamp : float → datetime) (timestamp : datetime → float) (float_text : float → string).
Abbreviation exec := (execute fromtimestamp timestamp float_text).

Lemma fail_run_frame id x job run e t1 t2 :
  j_id job ≠ id → se_inv (frame id x) (fail_run fromtimestamp timestamp job run e t1 t2).
Proof.
  intros Hne. unfold fail_run. apply se_inv_bind; [auto with pydb|]. intros _.
  destruct (_ <=? _); repeat (apply se_inv_bind; [auto with pydb|intros ?]); auto with pydb.
Qed.

Lemma finish_success_frame id x job t :
  j_id job ≠ id → se_inv (frame id x) (finish_success fromtimestamp timestamp job t).
Proof.
  intros Hne. unfold finish_success.
  destruct (j_type job); try (apply se_inv_bind; [auto with pydb|intros ?]); auto with pydb.
Qed.

Lemma end_execute_frame id x job run o t1 t2 :
  j_id job ≠ id → se_inv (frame id x) (end_execute fromtimestamp timestamp float_text job run o t1 t2).
Proof.
  intros Hne. unfold end_execute. destruct o; try (by apply fail_run_frame);
    repeat (apply se_inv_bind; [auto using finish_success_frame with pydb|intros ?]); auto with pydb.
Qed.

Lemma store_update_self id f j s :
  (∀ j, j_id (f j) = j_id j) → frame id (Some j) s →
  ∃ s', store_update id f s = (Ok tt, s') ∧ frame id (Some (f j)) s' ∧ sc_handlers s' = sc_handlers s.
Proof.
  intros Hf [Hwf Hg]. unfold store_update. destruct (js_update id f (sc_store s)) as [st|] eqn:E.
  - eexists. split; [done|]. split; [|done]. split; simpl; [by eapply js_update_wf|].
    unfold js_update in E. unfold js_get in *. rewrite Hg in E. simplify_eq/=. by rewrite dict_get_set_eq.
  - unfold js_update in E. unfold js_get in Hg. by rewrite Hg in E.
Qed.

Lemma begin_execute_self id run_id t0 j s :
  frame id (Some j) s →
  ∃ run s', begin_execute id run_id t0 s = (Ok (j, run, bool_decide (j_name j ∈ sc_handlers s)), s') ∧
    r_attempts run = j_attempts j + 1 ∧ frame id (Some (set_attempts (j_attempts j + 1) j)) s' ∧
    sc_handlers s' = sc_handlers s.
Proof.
  intros Hs. unfold begin_execute, js_require. rewrite (proj2 Hs).
  destruct (store_update_self id (set_attempts (j_attempts j + 1)) j s (λ _, eq_refl) Hs)
    as (s1 & Hu & Hf & Hh).
  rewrite (se_bind_Ok _ _ _ _ _ Hu). eexists _, _. split; [reflexivity|]. done.
Qed.

Lemma begin_execute_frame id id' x run_id t0 s :
  id' ≠ id → frame id x s →
  frame id x (begin_execute id' run_id t0 s).2 ∧
  ∀ p, (begin_execute id' run_id t0 s).1 = Ok p → j_id p.1.1 = id'.
Proof.
  intros Hne Hs. unfold begin_execute, js_require.
  destruct (js_get id' (sc_store s)) as [job|] eqn:Eg; [|done].
  assert (j_id job = id') as Hid by (by apply Hs).
  destruct (store_update_self id' (set_attempts (j_attempts job + 1)) job s (λ _, eq_refl))
    as (s1 & Hu & _ & _); [by destruct Hs|].
  pose proof (store_update_frame id id' x (set_attempts (j_attempts job + 1)) Hne (λ _, eq_refl) s Hs) as Hf.
  rewrite Hu in Hf. rewrite (se_bind_Ok _ _ _ _ _ Hu). simpl. split; [exact Hf|]. by intros p [= <-].
Qed.

Lemma execute_frame id id' x run_id o t0 t1 t2 :
  id' ≠ id → se_inv (frame id x) (exec id' run_id o t0 t1 t2).
Proof.
  intros Hne s Hs. unfold execute.
  destruct (begin_execute_frame id id' x run_id t0 s Hne Hs) as [Hf Hid].
  destruct (begin_execute id' run_id t0 s) as [[[[job run] b]|e] s1] eqn:E; simpl in Hf, Hid.
  - rewrite (se_bind_Ok _ _ _ _ _ E). specialize (Hid _ eq_refl). simpl in Hid.
    destruct b; [apply end_execute_frame|apply fail_run_frame]; congruence || done.
  - by rewrite (se_bind_Err _ _ _ _ _ E).
Qed.

(** ** Failures *)

Definition fails (o : Outcome) : bool := match o with TimedOut | Raised _ => true | _ => false end.

(** A failed run counts as an attempt and releases the job; the last attempt
    takes it out of the schedule. *)
Lemma fail_run_self id job j run e t1 t2 s :
  j_id job = id → frame id (Some j) s →
  ∃ j', frame id (Some j') (fail_run fromtimestamp timestamp job run e t1 t2 s).2 ∧
    j_retries j' = j_retries j ∧ j_attempts j' = j_attempts j ∧
    (j_retries job < r_attempts run → j_next_run j' = fzero).
Proof.
  intros Hid Hs. unfold fail_run. unfold mbind at 1, SE_bind at 1. cbn [se_modify].
  assert (∀ r, frame id (Some j) (put_run r s)) as Hp by done.
  set (s0 := put_run _ s). specialize (Hp _ : frame id (Some j) s0).
  destruct (Z.leb_spec (r_attempts run) (j_retries job)) as [Hle|Hgt].
  - destruct (retry_next _ _ job t2) as [t|err] eqn:Et.
    2: { exists j. split; [by unfold mbind, SE_bind; simpl|]. split; [done|]. split; [done|lia]. }
    unfold mbind at 1, SE_bind at 1. cbn [se_lift].
    destruct (store_update_self id (λ j, set_next_run t (set_owner None j)) j s0 (λ _, eq_refl) Hp)
      as (s1 & Hu & Hf & _).
    rewrite Hid, (se_bind_Ok _ _ _ _ _ Hu). eexists. split; [exact Hf|]. split; [done|]. split; [done|lia].
  - destruct (store_update_self id (λ j, set_next_run fzero (set_owner None j)) j s0 (λ _, eq_refl) Hp)
      as (s1 & Hu & Hf & _).
    rewrite Hid, (se_bind_Ok _ _ _ _ _ Hu). eexists. split; [exact Hf|]. done.
Qed.

Lemma execute_fails id j run_id o t0 t1 t2 s :
  fails o = true → frame id (Some j) s →
  ∃ j', frame id (Some j') (exec id run_id o t0 t1 t2 s).2 ∧
    j_retries j' = j_retries j ∧ j_attempts j' = j_attempts j + 1 ∧
    (j_retries j < j_attempts j + 1 → j_next_run j' = fzero).
Proof.
  intros Ho Hs. destruct (begin_execute_self id run_id t0 j s Hs) as (run & s1 & Hb & Hr & Hf & _).
  pose proof (frame_id id j s Hs) as Hid.
  unfold execute. rewrite (se_bind_Ok _ _ _ _ _ Hb).
  assert (∀ e, ∃ j', frame id (Some j') (fail_run fromtimestamp timestamp j run e t1 t2 s1).2 ∧
    j_retries j' = j_retries j ∧ j_attempts j' = j_attempts j + 1 ∧
    (j_retries j < j_attempts j + 1 → j_next_run j' = fzero)) as Hfail.
  { intros e. destruct (fail_run_self id j _ run e t1 t2 s1 Hid Hf) as (j' & H1 & H2 & H3 & H4).
    exists j'. rewrite Hr in H4. done. }
  destruct (bool_decide _); [|apply Hfail]. destruct o; try done; apply Hfail.
Qed.

(** ** Cycles: a tick, then its tasks one after the other *)

Record Cycle := MkCycle {
  cy_leader : bool;
  cy_now : float;
  cy_times : float * float * float;
  cy_run_id : string → string;
  cy_outcome : string → Outcome
}.

Definition run_task (c : Cycle) (s : Scheduler) (id : string) : Scheduler :=
  let '(t0, t1, t2) := cy_times c in (exec id (cy_run_id c id) (cy_outcome c id) t0 t1 t2 s).2.

Definition cycle (s : Scheduler) (c : Cycle) : Scheduler :=
  let s1 := (tick (cy_leader c) (cy_now c) s).2 in
  set_tasks [] (foldl (run_task c) s1 (sc_tasks s1)).

Lemma run_task_frame c id x ids s :
  id ∉ ids → frame id x s → frame id x (foldl (run_task c) s ids).
Proof.
  revert s. induction ids as [|i ids IH]; intros s Hni Hs; [done|].
  apply not_elem_of_cons in Hni as [Hne Hni]. apply IH; [done|].
  unfold run_task. destruct (cy_times c) as [[t0 t1] t2]. by apply execute_frame.
Qed.

(** A job that has used up its attempts is not scheduled any more. *)
Definition spent (r : Z) (j : JobSpec) : Prop :=
  j_retries j = r ∧
  (j_attempts j <= Z.max 0 r ∨ (j_attempts j = Z.max 0 r + 1 ∧ j_next_run j = fzero)).

Lemma run_tasks_spent c id r j ids s :
  fails (cy_outcome c id) = true → NoDup ids → frame id (Some j) s → spent r j →
  (id ∈ ids → flt fzero (j_next_run j) = true) →
  ∃ j', frame id (Some j') (foldl (run_task c) s ids) ∧ spent r j'.
Proof.
  intros Hc. revert s. induction ids as [|i ids IH]; intros s Hnd Hs Hj Hdue; [by exists j|].
  apply NoDup_cons in Hnd as [Hni Hnd]. cbn [foldl]. destruct (decide (i = id)) as [->|Hne].
  - unfold run_task at 2. destruct (cy_times c) as [[t0 t1] t2].
    destruct (execute_fails id j (cy_run_id c id) (cy_outcome c id) t0 t1 t2 s Hc Hs)
      as (j' & Hf & Hr & Ha & Hn).
    exists j'. split; [by apply run_task_frame|]. destruct Hj as [Hjr Hj]. split; [congruence|].
    specialize (Hdue ltac:(by left)).
    destruct Hj as [Hle|[_ Hz]]; [|rewrite Hz in Hdue; done].
    rewrite Ha. destruct (decide (j_retries j < j_attempts j + 1)) as [Hlt|]; [|left; lia].
    destruct (decide (j_attempts j + 1 <= Z.max 0 r)); [by left|]. right. split; [lia|]. by apply Hn.
  - apply IH; [done| |done|].
    + unfold run_task. destruct (cy_times c) as [[t0 t1] t2]. by apply execute_frame.
    + intros Hin. apply Hdue. by right.
Qed.

Lemma cycle_spent c id r j s :
  fails (cy_outcome c id) = true → sc_tasks s = [] → frame id (Some j) s → spent r j →
  ∃ j', frame id (Some j') (cycle s c) ∧ spent r j'.
Proof.
  intros Hc Ht Hs Hj. unfold cycle.
  enough (∃ j', frame id (Some j') (foldl (run_task c) (tick (cy_leader c) (cy_now c) s).2
    (sc_tasks (tick (cy_leader c) (cy_now c) s).2)) ∧ spent r j') as Hgoal by done.
  rewrite tick_steps by apply Hs. cbn [snd].
  set (s1 := MkScheduler _ _ _ _ _ (cy_now c) _). set (cl := claims _ _ s).
  set (s2 := foldl claimed s1 cl).
  destruct (claimed_fold cl s1) as (_ & Htasks & _). fold s2 in Htasks.
  cbn [sc_tasks]. rewrite Htasks. change (sc_tasks s1) with (sc_tasks s). rewrite Ht. cbn [app].
  pose proof (claims_nodup (cy_leader c) (cy_now c) s (proj1 Hs)) as Hnd. fold cl in Hnd.
  assert (jobs_wf (sc_store s2)) as Hwf2 by (apply claimed_fold_wf, Hs).
  assert (js_get id (sc_store s2) = match list_find (λ j, j_id j = id) cl with
    | Some (_, j) => Some (set_owner (Some (sc_node s1)) j) | None => js_get id (sc_store s1) end) as Hg2
    by (by apply claimed_fold_get).
  destruct (list_find _ cl) as [[i k]|] eqn:El.
  - apply list_find_Some in El as (Hl & Hk & _). apply list_elem_of_lookup_2 in Hl.
    apply elem_of_claims in Hl as (Hgk & Hdue & _); [|apply Hs].
    rewrite Hk, (proj2 Hs) in Hgk. injection Hgk as <-.
    eapply (run_tasks_spent c id _ (set_owner (Some (sc_node s1)) j)); [done|done|by split|done|done].
  - apply run_tasks_spent with (j := j); [done|done| |done|].
    + split; [done|]. cbn [sc_store set_tasks]. rewrite Hg2. apply Hs.
    + intros Hin. apply list_elem_of_fmap in Hin as (k & Hk & Hin).
      rewrite list_find_None, Forall_forall in El. by destruct (El k Hin).
Qed.
End Executions.

Section Theorems.
Context (fromtimestamp : float → datetime) (timestamp : datetime → float) (float_text : float → string).

Lemma cycles_spent cs id r j s :
  Forall (λ c, fails (cy_outcome c id) = true) cs → sc_tasks s = [] → frame id (Some j) s → spent r j →
  ∃ j', frame id (Some j') (foldl (cycle fromtimestamp timestamp float_text) s cs) ∧ spent r j'.
Proof.
  revert j s. induction cs as [|c cs IH]; intros j s Hc Ht Hs Hj; [by exists j|].
  apply Forall_cons in Hc as [Hc Hcs]. cbn [foldl].
  destruct (cycle_spent fromtimestamp timestamp float_text c id r j s Hc Ht Hs Hj) as (j' & Hf & Hj').
  by apply (IH j').
Qed.

(** Bounded retries: a job whose handler always fails is tried at most
    [retries + 1] times, whatever the other jobs do and however long the
    scheduler runs; after the last attempt it is never due again. *)
Theorem failing_job_bounded (cs : list Cycle) (id : string) (j : JobSpec) (s : Scheduler) :
  jobs_wf (sc_store s) → sc_tasks s = [] → js_get id (sc_store s) = Some j → j_attempts j = 0 →
  0 <= j_retries j → Forall (λ c, fails (cy_outcome c id) = true) cs →
  ∃ j', js_get id (sc_store (foldl (cycle fromtimestamp timestamp float_text) s cs)) = Some j' ∧
    j_attempts j' <= j_retries j + 1 ∧
    (j_attempts j' = j_retries j + 1 →
     ∀ now, j' ∉ js_due now (sc_store (foldl (cycle fromtimestamp timestamp float_text) s cs))).
Proof.
  intros Hwf Ht Hg Ha Hr Hc.
  destruct (cycles_spent cs id (j_retries j) j s Hc Ht) as (j' & [_ Hg'] & Hr' & Hj').
  { done. }
  { split; [done|]. left. lia. }
  exists j'. split; [done|]. split; [lia|]. intros He now Hin.
  destruct Hj' as [?|[_ Hz]]; [lia|]. unfold js_due in Hin. apply list_elem_of_filter in Hin as [Hd _].
  rewrite Hz in Hd. by apply andb_prop in Hd as [Hd _].
Qed.

(** ** Successes *)

Definition periodic (t : JobType) : bool := match t with DELAYED | CRON => false | _ => true end.

Lemma execute_succeeds id j run_id res t0 t1 t2 s :
  periodic (j_type j) = true → j_name j ∈ sc_handlers s → frame id (Some j) s →
  ∃ run s', execute fromtimestamp timestamp float_text id run_id (Returned res) t0 t1 t2 s = (Ok run, s') ∧
    frame id (Some (set_next_run (fadd t2 (j_interval j))
                      (set_last_run t2 (set_attempts (j_attempts j + 1) j)))) s' ∧
    sc_handlers s' = sc_handlers s.
Proof.
  intros Ht Hh Hs. pose proof (frame_id id j s Hs) as Hid.
  destruct (begin_execute_self id run_id t0 j s Hs) as (run & s1 & Hb & Hr & Hf & Hh1).
  unfold execute. rewrite (se_bind_Ok _ _ _ _ _ Hb). rewrite bool_decide_eq_true_2 by done.
  cbn [end_execute]. unfold mbind at 1, SE_bind at 1. cbn [se_modify].
  set (s2 := put_run _ s1). assert (frame id (Some (set_attempts (j_attempts j + 1) j)) s2) as Hf2 by done.
  destruct (store_update_self id (λ j0, set_next_run (fadd t2 (j_interval j)) (set_last_run t2 j0)) _ s2
    (λ _, eq_refl) Hf2) as (s3 & Hu & Hf3 & Hh3).
  assert (finish_success fromtimestamp timestamp j t2 s2 = (Ok tt, s3)) as Hfin.
  { unfold finish_success. rewrite Hid. by destruct (j_type j). }
  rewrite (se_bind_Ok _ _ _ _ _ Hfin). eexists _, _. split; [reflexivity|]. split; [exact Hf3|].
  rewrite Hh3. exact Hh1.
Qed.

Fixpoint successes (n : nat) (id run_id res : string) (t0 t1 t2 : float) (s : Scheduler) : Scheduler :=
  match n with
  | O => s
  | S n' => successes n' id run_id res t0 t1 t2
              (execute fromtimestamp timestamp float_text id run_id (Returned res) t0 t1 t2 s).2
  end.

Lemma successes_attempts n id j run_id res t0 t1 t2 s :
  periodic (j_type j) = true → j_name j ∈ sc_handlers s → frame id (Some j) s →
  ∃ j', frame id (Some j') (successes n id run_id res t0 t1 t2 s) ∧
    j_attempts j' = j_attempts j + Z.of_nat n ∧ j_retries j' = j_retries j.
Proof.
  revert j s. induction n as [|n IH]; intros j s Ht Hh Hs; [exists j; split; [done|]; split; [lia|done]|].
  destruct (execute_succeeds id j run_id res t0 t1 t2 s Ht Hh Hs) as (run & s' & He & Hf & Hh').
  cbn [successes]. rewrite He. cbn [snd].
  destruct (IH (set_next_run (fadd t2 (j_interval j)) (set_last_run t2 (set_attempts (j_attempts j + 1) j))) s')
    as (j' & Hj' & Ha & Hr); [exact Ht|by rewrite Hh'|exact Hf|].
  exists j'. split; [done|]. split; [|done]. rewrite Ha. simpl. lia.
Qed.

(** The attempt counter is not reset by a success: after [retries] successful
    runs of a periodic job, its first failure ends it for good, although no
    retry was made. *)
Theorem success_consumes_retries (n : nat) (id : string) (j : JobSpec) (run_id res : string)
    (t0 t1 t2 : float) (o : Outcome) (s : Scheduler) :
  jobs_wf (sc_store s) → js_get id (sc_store s) = Some j → periodic (j_type j) = true →
  j_name j ∈ sc_handlers s → 0 <= j_attempts j → j_retries j <= Z.of_nat n → fails o = true →
  ∃ j' s', s' = (execute fromtimestamp timestamp float_text id run_id o t0 t1 t2
                   (successes n id run_id res t0 t1 t2 s)).2 ∧
    js_get id (sc_store s') = Some j' ∧ ∀ now, j' ∉ js_due now (sc_store s').
Proof.
  intros Hwf Hg Ht Hh Ha Hn Ho.
  destruct (successes_attempts n id j run_id res t0 t1 t2 s Ht Hh (conj Hwf Hg)) as (j1 & Hf & Ha1 & Hr1).
  destruct (execute_fails fromtimestamp timestamp float_text id j1 run_id o t0 t1 t2 _ Ho Hf)
    as (j' & Hf' & _ & _ & Hz).
  exists j'. eexists. split; [reflexivity|]. split; [apply Hf'|]. intros now Hin.
  unfold js_due in Hin. apply list_elem_of_filter in Hin as [Hd _].
  rewrite Hz in Hd by lia. by apply andb_prop in Hd as [Hd _].
Qed.
End Theorems.

(** ** Witnesses *)

Definition demo_cycle (n : Z) : Cycle :=
  MkCycle true (float_of_Z n) (float_of_Z n, float_of_Z n, float_of_Z n) (λ id, id) (λ _, Raised "no").

Lemma failing_job_bounded_witness :
  let s := foldl (cycle (λ _, MkDatetime 739252 0 0 0 0) (λ _, fzero) (λ _, EmptyString)) demo_scheduler
             [demo_cycle 20; demo_cycle 100; demo_cycle 200; demo_cycle 300] in
  ∃ j, js_get "a" (sc_store s) = Some j ∧ j_attempts j = 2 ∧ ∀ now, j ∉ js_due now (sc_store s).
Proof.
  destruct (failing_job_bounded (λ _, MkDatetime 739252 0 0 0 0) (λ _, fzero) (λ _, EmptyString)
    [demo_cycle 20; demo_cycle 100; demo_cycle 200; demo_cycle 300] "a"
    (demo_job "a" None false false RECURRING) demo_scheduler demo_scheduler_wf) as (j & Hg & _ & Hn).
  - reflexivity.
  - reflexivity.
  - reflexivity.
  - simpl; lia.
  - repeat constructor.
  - assert (j_attempts j = 2) as Ha.
    { vm_compute in Hg. injection Hg as <-. reflexivity. }
    exists j. split; [exact Hg|]. split; [exact Ha|]. apply Hn. exact Ha.
Defined.

Lemma success_consumes_retries_witness :
  ∃ j s, s = (execute (λ _, MkDatetime 739252 0 0 0 0) (λ _, fzero) (λ _, EmptyString) "a" "r"
                (Raised "no") fzero fzero fzero
                (successes (λ _, MkDatetime 739252 0 0 0 0) (λ _, fzero) (λ _, EmptyString)
                   1 "a" "r" "" fzero fzero fzero demo_scheduler)).2 ∧
    js_get "a" (sc_store s) = Some j ∧ ∀ now, j ∉ js_due now (sc_store s).
Proof.
  apply (success_consumes_retries (λ _, MkDatetime 739252 0 0 0 0) (λ _, fzero) (λ _, EmptyString)
    1 "a" (demo_job "a" None false false RECURRING) "r" "" fzero fzero fzero (Raised "no") demo_scheduler
    demo_scheduler_wf).
  - reflexivity.
  - reflexivity.
  - vm_compute. left.
  - simpl; lia.
  - simpl; lia.
  - reflexivity.
Defined.

(** A job that is still running is claimed again: its [next_run] changes only
    when the run ends, so every further tick starts another run of it. *)
Theorem running_job_claimed_again (leader : bool) (now later : float) (s : Scheduler) (j : JobSpec) :
  jobs_wf (sc_store s) → j ∈ claims leader now s → fle now later = true →
  let s1 := (tick leader now s).2 in
  set_owner (Some (sc_node s)) j ∈ claims leader later s1.
Proof.
  intros Hwf Hj Hle s1. apply elem_of_claims in Hj as (Hg & Hpos & Hdue & Hcl); [|done].
  destruct (tick_claims_get leader now s Hwf) as (Hwf1 & Hnode & Hget). fold s1 in Hwf1, Hnode, Hget.
  apply elem_of_claims; [done|]. rewrite Hnode. split; [|split; [done|split; [by eapply fle_trans|]]].
  - change (j_id (set_owner _ j)) with (j_id j). rewrite Hget, Hg. simpl. by rewrite Hpos, Hdue, Hcl.
  - unfold claimable in *. bool_to_prop. simpl.
    change (j_singleton (set_owner (Some (sc_node s)) j)) with (j_singleton j).
    change (j_failover (set_owner (Some (sc_node s)) j)) with (j_failover j).
    apply andb_true_intro. split; [done|]. destruct (j_failover j).
    + by rewrite bool_decide_eq_true_2 by (by right).
    + unfold owned_by_other. simpl. rewrite bool_decide_eq_false_2 by (by intros Hno). by rewrite andb_false_r.
Qed.

Lemma running_job_claimed_again_witness :
  let s1 := (tick true (float_of_Z 20) demo_scheduler).2 in
  set_owner (Some "n1"%string) (demo_job "a" None false false RECURRING)
    ∈ claims true (float_of_Z 21) s1.
Proof.
  apply (running_job_claimed_again true (float_of_Z 20) (float_of_Z 21) demo_scheduler
    (demo_job "a" None false false RECURRING) demo_scheduler_wf).
  - apply (elem_of_claims true (float_of_Z 20) demo_scheduler _ demo_scheduler_wf).
    split; [reflexivity|]. split; [reflexivity|]. split; reflexivity.
  - reflexivity.
Defined.
