(* ===== verification/Migrations.v ===== *)
(** * Schema migrations ([app/migrations/manager.py], [app/migrations/repository.py])

    [MigrationManager] applies and reverts migrations and records the applied
    versions in a store.  The store is an interface ([MigrationStore] with
    [MigrationStoreLaws]), as in the source; the in-memory store implements it
    and the manager's theorems are proved against it.  The steps [up] and [down]
    of a migration are arbitrary computations on the context that may raise;
    the log that the manager keeps under ["_log"] of the context is a field of
    its own, and the metadata of a migration, which nothing reads, is left out. *)

From Stdlib Require Import ZArith Lia Sorted Ascii.
From stdpp Require Import base numbers strings list.
From S2P Require Import Prelude PyFloat PyNum PyStr PyDict.


Open Scope Z_scope.

Inductive MigrationError :=
| MigrationConflictError (version : string)
| MigrationVersionError (version : string)
| MigrationLockedError
| MigrationFailureError (version message : string).

Record AppliedMigration := MkApplied { am_version : string; am_name : string; am_applied_at : float }.

(** ** The store *)

(** The protocol [MigrationStore], and what [MigrationLock] does with a store. *)
Class MigrationStore (S : Type) := {
  applied_versions : S → list string;
  record : AppliedMigration → S → result MigrationError S;
  unrecord : string → S → S;
  try_acquire : S → bool * S;
  release_store : S → S
}.

(** Recording adds a version once, unrecording removes it, and the lock leaves
    the versions alone. *)
Class MigrationStoreLaws (S : Type) `{!MigrationStore S} : Prop := {
  record_new : ∀ m s, am_version m ∉ applied_versions s →
    ∃ s', record m s = Ok s' ∧ applied_versions s' ≡ₚ am_version m :: applied_versions s;
  record_conflict : ∀ m s, am_version m ∈ applied_versions s →
    record m s = Err (MigrationConflictError (am_version m));
  unrecord_perm : ∀ v s, applied_versions (unrecord v s) ≡ₚ filter (λ w, w ≠ v) (applied_versions s);
  try_acquire_perm : ∀ s, applied_versions (try_acquire s).2 ≡ₚ applied_versions s;
  release_perm : ∀ s, applied_versions (release_store s) ≡ₚ applied_versions s
}.

(** [MemoryMigrationStore]; its advisory lock always succeeds. *)
Abbreviation MemoryMigrationStore := (list AppliedMigration).

Definition memory_record (m : AppliedMigration) (s : MemoryMigrationStore)
    : result MigrationError MemoryMigrationStore :=
  if decide (am_version m ∈ am_version <$> s) then Err (MigrationConflictError (am_version m))
  else Ok (s ++ [m]).

Definition memory_unrecord (v : string) (s : MemoryMigrationStore) : MemoryMigrationStore :=
  filter (λ m, am_version m ≠ v) s.

Lemma memory_unrecord_versions v s :
  am_version <$> memory_unrecord v s = filter (λ w, w ≠ v) (am_version <$> s).
Proof.
  unfold memory_unrecord. induction s as [|m s IH]; [done|]. rewrite filter_cons.
  destruct (decide (am_version m ≠ v)) as [Hv|Hv].
  - rewrite !fmap_cons, filter_cons_True by done. by rewrite IH.
  - rewrite fmap_cons, filter_cons_False by done. done.
Qed.

#[export] Instance memory_store : MigrationStore MemoryMigrationStore := {
  applied_versions s := am_version <$> s;
  record := memory_record;
  unrecord := memory_unrecord;
  try_acquire s := (true, s);
  release_store s := s
}.

#[export] Instance memory_store_laws : MigrationStoreLaws MemoryMigrationStore.
Proof.
  split; simpl; try done.
  - intros m s Hm. unfold memory_record. rewrite decide_False by done. eexists. split; [done|].
    rewrite fmap_app. csimpl. by rewrite Permutation_app_comm.
  - intros m s Hm. unfold memory_record. by rewrite decide_True.
  - intros v s. by rewrite memory_unrecord_versions.
Qed.

(** ** Versions *)

(** [_version_key]: a part that is no integer counts as 0. *)
Definition version_key (version : string) : list Z :=
  (λ part, default 0 (py_int part)) <$> split_on (Ascii.ascii_of_nat 46) version.

(** Tuples of integers are compared lexicographically. *)
Fixpoint key_ltb (a b : list Z) : bool :=
  match a, b with
  | [], [] => false
  | [], _ :: _ => true
  | _ :: _, [] => false
  | x :: a', y :: b' => (x <? y) || ((x =? y) && key_ltb a' b')
  end.

Section Manager.
Context {S C : Type} `{!MigrationStore S}.

(** A step of a migration: it may raise, and may have changed the context. *)
Abbreviation StepFn := (SE string C unit).

Record Migration := MkMigration {
  version : string;
  mig_name : string;
  up : option StepFn;
  down : option StepFn
}.

Record MigrationManager := MkMigrations {
  mm_store : S;
  mm_migrations : dict string Migration;
  mm_context : C;
  mm_log : list (string * string * bool);
  mm_held : bool
}.

Abbreviation M := (SE MigrationError MigrationManager).

Definition set_mstore (st : S) (s : MigrationManager) : MigrationManager :=
  MkMigrations st (mm_migrations s) (mm_context s) (mm_log s) (mm_held s).
Definition set_context (c : C) (s : MigrationManager) : MigrationManager :=
  MkMigrations (mm_store s) (mm_migrations s) c (mm_log s) (mm_held s).
Definition add_log (e : string * string * bool) (s : MigrationManager) : MigrationManager :=
  MkMigrations (mm_store s) (mm_migrations s) (mm_context s) (mm_log s ++ [e]) (mm_held s).
Definition set_held (b : bool) (s : MigrationManager) : MigrationManager :=
  MkMigrations (mm_store s) (mm_migrations s) (mm_context s) (mm_log s) b.

(** ** Registration *)

Definition register_migration (m : Migration) : M unit := λ s,
  if dict_mem (version m) (mm_migrations s) then (Err (MigrationVersionError (version m)), s)
  else if negb (truthy (version m)) then (Err (MigrationVersionError (version m)), s)
  else (Ok tt, MkMigrations (mm_store s) (dict_set (version m) m (mm_migrations s)) (mm_context s)
                 (mm_log s) (mm_held s)).

Fixpoint register_many (ms : list Migration) : M unit :=
  match ms with
  | [] => mret tt
  | m :: ms' => register_migration m;; register_many ms'
  end.

Definition get_migration (v : string) (s : MigrationManager) : option Migration :=
  dict_get v (mm_migrations s).

(** [[self._migrations[v] for v in sorted(self._migrations)]] *)
Definition migrations (s : MigrationManager) : list Migration :=
  omap (λ v, dict_get v (mm_migrations s)) (py_sorted str_lt (dict_keys (mm_migrations s))).

(** ** Planning *)

Definition is_applied (v : string) (s : MigrationManager) : bool :=
  bool_decide (v ∈ applied_versions (mm_store s)).

Definition pending (s : MigrationManager) : list Migration :=
  filter (λ m, version m ∉ applied_versions (mm_store s)) (migrations s).

(** The applied versions that are registered, by version number. *)
Definition ordered_applied (s : MigrationManager) : list string :=
  py_sorted (λ v w, key_ltb (version_key v) (version_key w))
    (filter (λ v, dict_mem v (mm_migrations s) = true) (applied_versions (mm_store s))).

Definition lookup_all (s : MigrationManager) (vs : list string) : list Migration :=
  omap (λ v, dict_get v (mm_migrations s)) vs.

(** [ordered[-steps:]] *)
Definition last_n {A} (n : Z) (l : list A) : list A := drop (length l - Z.to_nat n) l.

Definition plan_rollback (steps : Z) (s : MigrationManager) : list Migration :=
  lookup_all s (reverse (if 0 <? steps then last_n steps (ordered_applied s) else [])).

Definition plan_downgrade_to (target : string) (s : MigrationManager) : list Migration :=
  lookup_all s
    (reverse (filter (λ v, key_ltb (version_key target) (version_key v) = true) (ordered_applied s))).

(** ** Execution *)

(** Running a step of a migration on the context. *)
Definition run_step (v : string) (step : option StepFn) : M unit := λ s,
  match step with
  | None => (Ok tt, s)
  | Some f =>
      match f (mm_context s) with
      | (Ok _, c) => (Ok tt, set_context c s)
      | (Err msg, c) => (Err (MigrationFailureError v msg), set_context c s)
      end
  end.

(** [self.store.record(...)] *)
Definition store_record (a : AppliedMigration) : M unit := λ s,
  match record a (mm_store s) with
  | Ok st => (Ok tt, set_mstore st s)
  | Err e => (Err e, s)
  end.

Definition execute_up (dry_run : bool) (now : float) (m : Migration) : M unit :=
  (if dry_run then mret tt
   else
     run_step (version m) (up m);;
     store_record (MkApplied (version m) (mig_name m) now));;
  se_modify (add_log ("up"%string, version m, dry_run)).

Definition execute_down (dry_run : bool) (m : Migration) : M unit :=
  (if dry_run then mret tt
   else
     run_step (version m) (down m);;
     se_modify (λ s, set_mstore (unrecord (version m) (mm_store s)) s));;
  se_modify (add_log ("down"%string, version m, dry_run)).

(** The loops collect what was done. *)
Fixpoint for_each (f : Migration → M unit) (ms : list Migration) (acc : list Migration) : M (list Migration) :=
  match ms with
  | [] => mret acc
  | m :: ms' => f m;; for_each f ms' (acc ++ [m])
  end.

(** [MigrationLock.acquire]: [readings] are the clock readings of the loop
    condition; after the last one the deadline has passed. *)
Fixpoint acquire_loop (deadline : float) (readings : list float) (s : MigrationManager)
    : bool * MigrationManager :=
  match readings with
  | [] => (false, s)
  | t :: ts =>
      if flt t deadline then
        let '(ok, st) := try_acquire (mm_store s) in
        if ok : bool then (true, set_held true (set_mstore st s))
        else acquire_loop deadline ts (set_mstore st s)
      else (false, s)
  end.

Definition release_lock (s : MigrationManager) : MigrationManager :=
  if mm_held s then set_held false (set_mstore (release_store (mm_store s)) s) else s.

(** The lock around a plan, released whatever happens. *)
Definition locked {A} (dry_run : bool) (deadline : float) (readings : list float) (body : M A) : M A := λ s,
  if dry_run then body s
  else
    let '(acquired, s) := acquire_loop deadline readings s in
    if acquired then let '(r, s) := body s in (r, release_lock s)
    else (Err MigrationLockedError, s).

Definition upgrade (dry_run : bool) (deadline : float) (readings : list float) (now : float)
    : M (list Migration) :=
  locked dry_run deadline readings (λ s, for_each (execute_up dry_run now) (pending s) [] s).

Definition downgrade_to (target : string) (dry_run : bool) (deadline : float) (readings : list float)
    : M (list Migration) :=
  locked dry_run deadline readings
    (λ s, for_each (execute_down dry_run) (plan_downgrade_to target s) [] s).

Definition rollback_migrations (steps : Z) (dry_run : bool) (deadline : float) (readings : list float)
    : M (list Migration) :=
  if steps <=? 0 then mret []
  else
    locked dry_run deadline readings
      (λ s, for_each (execute_down dry_run) (plan_rollback steps s) [] s).
End Manager.

Arguments Migration C : clear implicits.
Arguments MigrationManager S C : clear implicits.

(** * Migrations: theorems

    Proved against the interface of the store: what an upgrade does, also when a
    step fails half-way, and that a rollback undoes it. *)

Open Scope Z_scope.

(** ** The order of version keys *)

Lemma key_ltb_asym a b : key_ltb a b = true → key_ltb b a = false.
Proof.
  revert b. induction a as [|x a IH]; intros [|y b]; simpl; try done.
  destruct (Z.ltb_spec x y), (Z.ltb_spec y x), (Z.eqb_spec x y), (Z.eqb_spec y x); simpl; try lia; try done.
  apply IH.
Qed.

Lemma key_ltb_negtrans a b c : key_ltb b a = false → key_ltb c b = false → key_ltb c a = false.
Proof.
  revert b c. induction a as [|x a IH]; intros [|y b] [|z c]; simpl; try done.
  destruct (Z.ltb_spec y x), (Z.ltb_spec z y), (Z.ltb_spec z x), (Z.eqb_spec y x), (Z.eqb_spec z y),
    (Z.eqb_spec z x); simpl; try lia; try done. apply IH.
Qed.

(** A list sorted strictly is the only sorted permutation of itself. *)
Lemma py_sorted_unique {A} (lt : A → A → bool) (l l' : list A) :
  (∀ x y, lt x y = true → lt y x = false) →
  (∀ x y z, lt y x = false → lt z y = false → lt z x = false) →
  StronglySorted (λ x y, lt x y = true) l → l' ≡ₚ l → py_sorted lt l' = l.
Proof.
  intros Hasym Htrans Hl Hp. rewrite <- (py_sorted_perm lt l') in Hp.
  pose proof (py_sorted_sorted lt Hasym Htrans l') as Hs. revert Hs Hp.
  generalize (py_sorted lt l') as k. clear l'.
  induction Hl as [|x l Hl IH Hx]; intros k Hs Hp; [by apply Permutation_nil_r in Hp|].
  destruct k as [|y k]; [by apply Permutation_nil_l in Hp|].
  inversion Hs as [|?? Hk Hy]; subst. rewrite Forall_forall in Hx, Hy.
  assert (x = y) as ->.
  { assert (x ∈ y :: k) as [?|Hin]%elem_of_cons by (rewrite Hp; by left); [done|].
    assert (y ∈ x :: l) as [?|Hin']%elem_of_cons by (rewrite <- Hp; by left); [done|].
    specialize (Hx y Hin'). specialize (Hy x Hin). simpl in Hy. congruence. }
  f_equal. apply IH; [done|]. by apply Permutation_cons_inv in Hp.
Qed.

Section Spec.
Context {S C : Type} `{!MigrationStore S} `{!MigrationStoreLaws S}.
Implicit Types s : MigrationManager S C.
Implicit Types m : Migration C.

(** Every migration is registered under its own version. *)
Definition mm_wf s : Prop :=
  dict_wf (mm_migrations s) ∧ ∀ v m, dict_get v (mm_migrations s) = Some m → version m = v.

Lemma register_wf m s : mm_wf s → mm_wf (register_migration m s).2.
Proof.
  intros [Hwf Hv]. unfold register_migration. destruct (dict_mem _ _); [done|].
  destruct (negb _); [done|]. split; simpl; [by apply dict_set_wf|].
  intros v m'. rewrite dict_get_set. case_decide; [|apply Hv]. by intros [= <-].
Qed.

Lemma lookup_versions s vs :
  mm_wf s → Forall (λ v, v ∈ dict_keys (mm_migrations s)) vs → version <$> lookup_all s vs = vs.
Proof.
  intros [_ Hv]. unfold lookup_all. induction 1 as [|v vs Hin Hvs IH]; [done|]. simpl.
  destruct (dict_get v (mm_migrations s)) as [m|] eqn:E.
  - csimpl. by rewrite IH, (Hv _ _ E).
  - by apply dict_get_None in E.
Qed.

Lemma migrations_versions s :
  mm_wf s → version <$> migrations s = py_sorted str_lt (dict_keys (mm_migrations s)).
Proof.
  intros Hwf. apply lookup_versions; [done|]. rewrite Forall_forall. intros v.
  by rewrite elem_of_py_sorted.
Qed.

Lemma migrations_nodup s : mm_wf s → NoDup (version <$> migrations s).
Proof. intros Hwf. rewrite migrations_versions, py_sorted_perm by done. apply Hwf. Qed.

Lemma pending_nodup s : mm_wf s → NoDup (version <$> pending s).
Proof.
  intros Hwf. eapply sublist_NoDup; [by apply migrations_nodup|]. apply fmap_sublist, sublist_filter.
Qed.

Lemma pending_perm s s' :
  mm_migrations s' = mm_migrations s → applied_versions (mm_store s') ≡ₚ applied_versions (mm_store s) →
  pending s' = pending s.
Proof.
  intros Hm Hp. unfold pending, migrations. rewrite Hm. apply list_filter_iff. intros m. by rewrite Hp.
Qed.

(** ** The lock *)

Lemma acquire_spec deadline readings s b s0 :
  acquire_loop deadline readings s = (b, s0) →
  mm_migrations s0 = mm_migrations s ∧ mm_context s0 = mm_context s ∧
  applied_versions (mm_store s0) ≡ₚ applied_versions (mm_store s) ∧ (b = true → mm_held s0 = true).
Proof.
  revert s. induction readings as [|t ts IH]; intros s; simpl; [by intros [= <- <-]|].
  destruct (flt t deadline); [|by intros [= <- <-]].
  pose proof (try_acquire_perm (mm_store s)) as Hp. destruct (try_acquire (mm_store s)) as [ok st].
  simpl in Hp. destruct ok; [by intros [= <- <-]|]. intros H. apply IH in H as (H1 & H2 & H3 & H4).
  split; [done|]. split; [done|]. split; [|done]. by rewrite H3.
Qed.

Lemma release_lock_spec s :
  mm_migrations (release_lock s) = mm_migrations s ∧ mm_context (release_lock s) = mm_context s ∧
  applied_versions (mm_store (release_lock s)) ≡ₚ applied_versions (mm_store s) ∧ mm_held (release_lock s) = false.
Proof.
  unfold release_lock. destruct (mm_held s) eqn:E; [|done].
  split; [done|]. split; [done|]. split; [apply release_perm|done].
Qed.

(** ** Going up *)

(** A step on the context; a migration without one does nothing. *)
Definition step (f : option (SE string C unit)) : SE string C unit := default (mret tt) f.

Lemma run_step_spec v f s :
  run_step v f s =
  match step f (mm_context s) with
  | (Ok _, c) => (Ok tt, set_context c s)
  | (Err msg, c) => (Err (MigrationFailureError v msg), set_context c s)
  end.
Proof. unfold run_step, step. destruct f; simpl; [done|]. by destruct s. Qed.

(** The migrations that succeed, the failure that stops them, and the context
    they leave. *)
Fixpoint ups (ms : list (Migration C)) (c : C) : list (Migration C) * option (string * string) * C :=
  match ms with
  | [] => ([], None, c)
  | m :: ms' =>
      match step (up m) c with
      | (Ok _, c1) => let '(d, e, c2) := ups ms' c1 in (m :: d, e, c2)
      | (Err msg, c1) => ([], Some (version m, msg), c1)
      end
  end.

Lemma ups_prefix ms c d e c' : ups ms c = (d, e, c') → d = take (length d) ms ∧ (e = None → d = ms).
Proof.
  revert c d. induction ms as [|m ms IH]; intros c d; simpl; [by intros [= <- <- <-]|].
  destruct (step (up m) c) as [[[]|msg] c1]; [|by intros [= <- <- <-]].
  destruct (ups ms c1) as [[d1 e1] c2] eqn:E. intros [= <- <- <-].
  destruct (IH _ _ E) as [Hd He]. split; [simpl; by rewrite <- Hd|]. intros Hn. by rewrite He.
Qed.

Lemma execute_up_spec now m s :
  version m ∉ applied_versions (mm_store s) →
  match step (up m) (mm_context s) with
  | (Ok _, c) => ∃ st,
      execute_up false now m s =
        (Ok tt, add_log ("up"%string, version m, false) (set_mstore st (set_context c s))) ∧
      applied_versions st ≡ₚ version m :: applied_versions (mm_store s)
  | (Err msg, c) => execute_up false now m s = (Err (MigrationFailureError (version m) msg), set_context c s)
  end.
Proof.
  intros Hnew. unfold execute_up, mbind, SE_bind. rewrite run_step_spec.
  destruct (step (up m) (mm_context s)) as [[u|msg] c]; [|done].
  destruct (record_new (MkApplied (version m) (mig_name m) now) (mm_store s) Hnew) as (st & Hrec & Hp).
  exists st. split; [|done]. unfold store_record. simpl. by rewrite Hrec.
Qed.

Lemma for_each_up ms acc now s d e c :
  NoDup (version <$> ms) → (∀ v, v ∈ version <$> ms → v ∉ applied_versions (mm_store s)) →
  ups ms (mm_context s) = (d, e, c) →
  ∃ s', for_each (execute_up false now) ms acc s =
      (match e with None => Ok (acc ++ d) | Some (v, msg) => Err (MigrationFailureError v msg) end, s') ∧
    mm_migrations s' = mm_migrations s ∧ mm_context s' = c ∧ mm_held s' = mm_held s ∧
    applied_versions (mm_store s') ≡ₚ (version <$> d) ++ applied_versions (mm_store s).
Proof.
  revert acc s d. induction ms as [|m ms IH]; intros acc s d Hnd Hnew.
  { intros [= <- <- <-]. exists s. by rewrite app_nil_r. }
  csimpl in Hnd. apply NoDup_cons in Hnd as [Hni Hnd]. cbn [ups for_each]. intros Hu.
  pose proof (execute_up_spec now m s (Hnew (version m) ltac:(csimpl; by left))) as He.
  destruct (step (up m) (mm_context s)) as [[[]|msg] c1] eqn:Es.
  2: { injection Hu as <- <- <-. exists (set_context c1 s). split; [|done].
       by rewrite (se_bind_Err _ _ _ _ _ He). }
  destruct (ups ms c1) as [[d1 e1] c2] eqn:Eu. injection Hu as <- <- <-.
  destruct He as (st & He & Hp). rewrite (se_bind_Ok _ _ _ _ _ He).
  set (s1 := add_log _ _) in *.
  destruct (IH (acc ++ [m]) s1 d1) as (s' & Hf & Hm & Hc & Hh & Ha); [done| |done|].
  { intros v Hv. change (applied_versions (mm_store s1)) with (applied_versions st). rewrite Hp.
    apply not_elem_of_cons. split; [intros ->; by apply Hni|]. apply Hnew. csimpl. by right. }
  exists s'. split; [by rewrite Hf, <- app_assoc|].
  split; [done|]. split; [done|]. split; [done|]. rewrite Ha. csimpl.
  change (applied_versions (mm_store s1)) with (applied_versions st). rewrite Hp.
  by rewrite <- Permutation_middle.
Qed.

(** What is left to do once a prefix of the plan was applied. *)
Lemma pending_after s s' n :
  mm_wf s → mm_migrations s' = mm_migrations s →
  applied_versions (mm_store s') ≡ₚ (version <$> take n (pending s)) ++ applied_versions (mm_store s) →
  pending s' = drop n (pending s).
Proof.
  intros Hwf Hm Hp. pose proof (pending_nodup s Hwf) as Hnd.
  assert (pending s' = filter (λ m, version m ∉ version <$> take n (pending s)) (pending s)) as ->.
  { revert Hp. generalize (version <$> take n (pending s)) as X. intros X Hp.
    unfold pending. rewrite list_filter_filter. unfold migrations. rewrite Hm.
    apply list_filter_iff. intros m. rewrite Hp, elem_of_app. naive_solver. }
  rewrite <- (take_drop n (pending s)) in Hnd.
  trans (filter (λ m, version m ∉ version <$> take n (pending s))
           (take n (pending s) ++ drop n (pending s))); [by rewrite take_drop|].
  revert Hnd. generalize (take n (pending s)) as a, (drop n (pending s)) as b. intros a b Hnd.
  rewrite fmap_app in Hnd. apply NoDup_app in Hnd as (_ & Hdis & _). rewrite filter_app.
  rewrite (filter_all _ b).
  - assert (filter (λ m, version m ∉ version <$> a) a = []) as ->; [|done].
    apply elem_of_nil_inv. intros m [Hm1 Hm2]%list_elem_of_filter. apply Hm1. by apply list_elem_of_fmap_2.
  - intros m Hin Hina. apply (Hdis _ Hina). by apply list_elem_of_fmap_2.
Qed.

(** An upgrade under the lock. *)
Lemma upgrade_spec deadline readings now s s0 d e c :
  mm_wf s → acquire_loop deadline readings s = (true, s0) →
  ups (pending s) (mm_context s) = (d, e, c) →
  ∃ s', upgrade false deadline readings now s =
      (match e with None => Ok d | Some (v, msg) => Err (MigrationFailureError v msg) end, s') ∧
    mm_migrations s' = mm_migrations s ∧ mm_context s' = c ∧ mm_held s' = false ∧
    applied_versions (mm_store s') ≡ₚ (version <$> d) ++ applied_versions (mm_store s) ∧
    pending s' = drop (length d) (pending s).
Proof.
  intros Hwf Hacq Hu. destruct (acquire_spec _ _ _ _ _ Hacq) as (Hm0 & Hc0 & Hp0 & _).
  assert (pending s0 = pending s) as Hpend by (by apply pending_perm).
  destruct (for_each_up (pending s) [] now s0 d e c) as (s1 & Hf & Hm1 & Hc1 & _ & Hp1).
  { by apply pending_nodup. }
  { intros v (m & -> & Hin)%list_elem_of_fmap. rewrite Hp0. by apply list_elem_of_filter in Hin as [? _]. }
  { by rewrite Hc0. }
  destruct (release_lock_spec s1) as (Hm2 & Hc2 & Hp2 & Hh2).
  exists (release_lock s1). split.
  { unfold upgrade, locked. rewrite Hacq, Hpend, Hf. done. }
  split; [congruence|]. split; [congruence|]. split; [done|].
  assert (applied_versions (mm_store (release_lock s1)) ≡ₚ (version <$> d) ++ applied_versions (mm_store s))
    as Happ by (by rewrite Hp2, Hp1, Hp0).
  split; [done|]. apply pending_after; [done|congruence|].
  destruct (ups_prefix _ _ _ _ _ Hu) as [Hd _]. by rewrite <- Hd.
Qed.

(** ** Going down *)

Lemma execute_down_spec m s c :
  step (down m) (mm_context s) = (Ok tt, c) →
  execute_down false m s =
    (Ok tt, add_log ("down"%string, version m, false)
              (set_mstore (unrecord (version m) (mm_store s)) (set_context c s))).
Proof. intros Hd. unfold execute_down, mbind, SE_bind. rewrite run_step_spec, Hd. done. Qed.

Lemma for_each_app f l k acc s :
  for_each f (l ++ k) acc s =
  match for_each f l acc s with
  | (Ok acc', s') => for_each f k acc' s'
  | (Err e, s') => (Err e, s') : result MigrationError (list (Migration C)) * MigrationManager S C
  end.
Proof.
  revert acc s. induction l as [|m l IH]; intros acc s; [done|]. cbn [app for_each].
  unfold mbind, SE_bind. destruct (f m s) as [[[]|e] s1]; [apply IH|done].
Qed.

(** [down] undoes [up]. *)
Definition reversible m : Prop :=
  ∀ c c', step (up m) c = (Ok tt, c') → step (down m) c' = (Ok tt, c).

(** Reverting the migrations of a successful run, last first. *)
Lemma for_each_down ms c s acc :
  Forall reversible ms → ups ms c = (ms, None, mm_context s) →
  ∃ s', for_each (execute_down false) (reverse ms) acc s = (Ok (acc ++ reverse ms), s') ∧
    mm_migrations s' = mm_migrations s ∧ mm_context s' = c ∧ mm_held s' = mm_held s ∧
    applied_versions (mm_store s') ≡ₚ filter (λ v, v ∉ version <$> ms) (applied_versions (mm_store s)).
Proof.
  intros Hrev. revert c s acc. induction Hrev as [|m ms Hm Hms IH]; intros c s acc Hu.
  { simpl in Hu. injection Hu as Hc. exists s. split; [by rewrite app_nil_r|]. split; [done|].
    split; [done|]. split; [done|]. by rewrite filter_all by (intros v _; apply not_elem_of_nil). }
  simpl in Hu. destruct (step (up m) c) as [[[]|msg] c1] eqn:Es; [|done].
  destruct (ups ms c1) as [[d e] c2] eqn:Eu. injection Hu as Hd He Hc. rewrite Hd, He, Hc in Eu.
  destruct (IH c1 s acc Eu) as (s1 & Hf & Hm1 & Hc1 & Hh1 & Hp1).
  rewrite reverse_cons, for_each_app, Hf. cbn [for_each].
  assert (step (down m) (mm_context s1) = (Ok tt, c)) as Hdown by (rewrite Hc1; by apply Hm).
  rewrite (se_bind_Ok _ _ _ _ _ (execute_down_spec m s1 c Hdown)).
  eexists. split; [by rewrite <- app_assoc|]. split; [done|]. split; [done|]. split; [done|].
  cbn [mm_store set_mstore add_log set_context]. rewrite unrecord_perm, Hp1, list_filter_filter.
  apply Permutation_refl', list_filter_iff. intros v. csimpl. rewrite not_elem_of_cons. done.
Qed.

(** The versions in the order of their numbers, which is the order of their
    texts (as with zero-padded numbers). *)
Definition well_numbered s : Prop :=
  StronglySorted (λ v w, key_ltb (version_key v) (version_key w) = true)
    (py_sorted str_lt (dict_keys (mm_migrations s))).

Lemma ordered_applied_all s ms :
  mm_wf s → well_numbered s → ms = migrations s →
  applied_versions (mm_store s) ≡ₚ version <$> ms → ordered_applied s = version <$> ms.
Proof.
  intros Hwf Hnum -> Hp. unfold ordered_applied.
  apply py_sorted_unique; [intros ??; apply key_ltb_asym|intros ???; apply key_ltb_negtrans| |].
  - by rewrite migrations_versions.
  - rewrite Hp, filter_all; [done|]. intros v. rewrite migrations_versions, elem_of_py_sorted by done.
    intros Hin. unfold dict_mem. destruct (dict_get v (mm_migrations s)) eqn:E; [done|].
    by apply dict_get_None in E.
Qed.

Lemma lookup_versions_inv s (ms : list (Migration C)) :
  mm_wf s → Forall (λ m, dict_get (version m) (mm_migrations s) = Some m) ms →
  lookup_all s (version <$> ms) = ms.
Proof.
  intros Hwf. induction 1 as [|m ms Hm Hms IH]; [done|]. rewrite fmap_cons.
  unfold lookup_all in *. cbn [omap list_omap]. rewrite Hm. f_equal. exact IH.
Qed.

Lemma migrations_registered s :
  mm_wf s → Forall (λ m, dict_get (version m) (mm_migrations s) = Some m) (migrations s).
Proof.
  intros [_ Hv]. rewrite Forall_forall. intros m Hin. unfold migrations in Hin.
  apply list_elem_of_omap in Hin as (v & _ & Hg). by rewrite (Hv _ _ Hg).
Qed.

Lemma ups_app l k c :
  ups (l ++ k) c =
  match ups l c with
  | (d, None, c1) => let '(d2, e, c2) := ups k c1 in (d ++ d2, e, c2)
  | r => r
  end.
Proof.
  revert c. induction l as [|m l IH]; intros c; simpl; [by destruct (ups k c) as [[??]?]|].
  destruct (step (up m) c) as [[[]|msg] c1]; [|done]. rewrite IH.
  destruct (ups l c1) as [[d [e|]] c2]; [done|]. by destruct (ups k c2) as [[??]?].
Qed.

(** A rollback under the lock, of what an upgrade from scratch applied. *)
Lemma rollback_migrations_spec n deadline readings s s0 c ms :
  mm_wf s → well_numbered s → Forall reversible ms → ms = migrations s → 0 < n →
  applied_versions (mm_store s) ≡ₚ version <$> ms → ups ms c = (ms, None, mm_context s) →
  acquire_loop deadline readings s = (true, s0) →
  let keep := take (length ms - Z.to_nat n) ms in
  let undo := drop (length ms - Z.to_nat n) ms in
  ∃ s', rollback_migrations n false deadline readings s = (Ok (reverse undo), s') ∧
    ups keep c = (keep, None, mm_context s') ∧ mm_held s' = false ∧
    applied_versions (mm_store s') ≡ₚ version <$> keep.
Proof.
  intros Hwf Hnum Hrev Hms Hn Hp Hu Hacq keep undo.
  destruct (acquire_spec _ _ _ _ _ Hacq) as (Hm0 & Hc0 & Hp0 & _).
  assert (mm_wf s0) as Hwf0 by (unfold mm_wf; by rewrite Hm0).
  assert (ms = migrations s0) as Hms0 by (unfold migrations; by rewrite Hm0).
  assert (ms = keep ++ undo) as Hsplit by (symmetry; apply take_drop).
  assert (plan_rollback n s0 = reverse undo) as Hplan.
  { unfold plan_rollback. rewrite (proj2 (Z.ltb_lt 0 n) Hn).
    rewrite (ordered_applied_all s0 ms Hwf0); [|unfold well_numbered; by rewrite Hm0|done|by rewrite Hp0].
    unfold last_n. rewrite length_fmap, <- fmap_drop, <- fmap_reverse. apply lookup_versions_inv; [done|].
    apply Forall_reverse, Forall_drop. rewrite Hms0. by apply migrations_registered. }
  rewrite Hsplit, ups_app in Hu. destruct (ups keep c) as [[d [e|]] c1] eqn:Ek; [done|].
  destruct (ups_prefix _ _ _ _ _ Ek) as [_ Hd]. rewrite (Hd eq_refl) in *.
  destruct (ups undo c1) as [[d2 e2] c2] eqn:Eu. injection Hu as Hd2 He2 Hc2.
  apply app_inv_head in Hd2. rewrite Hd2, He2, Hc2, <- Hc0 in Eu.
  destruct (for_each_down undo c1 s0 []) as (s1 & Hf & Hm1 & Hc1 & _ & Hp1); [by apply Forall_drop|done|].
  destruct (release_lock_spec s1) as (_ & Hcr & Hpr & Hhr).
  exists (release_lock s1). split; [|split; [by rewrite Hcr, Hc1|split; [done|]]].
  { unfold rollback_migrations, locked. rewrite (proj2 (Z.leb_gt n 0)) by lia. rewrite Hacq, Hplan, Hf. done. }
  rewrite Hpr, Hp1, Hp0, Hp. rewrite Hsplit, fmap_app, filter_app.
  pose proof (migrations_nodup s Hwf) as Hnd. rewrite <- Hms, Hsplit, fmap_app in Hnd.
  apply NoDup_app in Hnd as (_ & Hdis & _).
  rewrite (filter_all _ (version <$> keep)) by (intros v Hv; by apply Hdis).
  assert (filter (λ v, v ∉ version <$> undo) (version <$> undo) = []) as ->; [|by rewrite app_nil_r].
  apply elem_of_nil_inv. by intros v [Hv1 Hv2]%list_elem_of_filter.
Qed.
End Spec.

(** ** Theorems *)

(** An upgrade applies the pending migrations in order up to the first failure:
    exactly those are recorded, the context is what their steps leave (the
    partial effect of the failing one included), the rest stays pending, so that
    a second upgrade continues there, and the lock is released in any case. *)
Theorem upgrade_outcome {S C} `{!MigrationStore S} `{!MigrationStoreLaws S}
    (s s0 : MigrationManager S C) (deadline : float) (readings : list float) (now : float) :
  mm_wf s → acquire_loop deadline readings s = (true, s0) →
  let '(applied, failure, c) := ups (pending s) (mm_context s) in
  let '(r, s') := upgrade false deadline readings now s in
  r = match failure with
      | None => Ok (pending s)
      | Some (v, msg) => Err (MigrationFailureError v msg)
      end ∧
  mm_context s' = c ∧ mm_held s' = false ∧ pending s' = drop (length applied) (pending s) ∧
  applied_versions (mm_store s') ≡ₚ (version <$> applied) ++ applied_versions (mm_store s).
Proof.
  intros Hwf Hacq. destruct (ups (pending s) (mm_context s)) as [[d e] c] eqn:Hu.
  destruct (upgrade_spec deadline readings now s s0 d e c Hwf Hacq Hu)
    as (s' & -> & _ & Hc & Hh & Hp & Hpend).
  split; [|done]. destruct (ups_prefix _ _ _ _ _ Hu) as [_ Hd].
  destruct e as [[v msg]|]; [done|]. by rewrite Hd.
Qed.

(** A rollback undoes an upgrade: after a successful upgrade of an empty schema,
    rolling back [n] steps reverts the last [n] migrations, last first, and
    leaves context and records as if only the others had been applied, when
    every [down] undoes its [up] and the versions are numbered in the order of
    their texts. *)
Theorem upgrade_rollback {S C} `{!MigrationStore S} `{!MigrationStoreLaws S}
    (s s0 s1 s2 : MigrationManager S C) (ms : list (Migration C)) (n : Z)
    (deadline : float) (readings : list float) (now : float) :
  mm_wf s → well_numbered s → Forall reversible (migrations s) → applied_versions (mm_store s) = [] →
  acquire_loop deadline readings s = (true, s0) → upgrade false deadline readings now s = (Ok ms, s1) →
  acquire_loop deadline readings s1 = (true, s2) → 0 < n →
  let keep := take (length ms - Z.to_nat n) ms in
  ∃ s', rollback_migrations n false deadline readings s1 = (Ok (reverse (drop (length keep) ms)), s') ∧
    ups keep (mm_context s) = (keep, None, mm_context s') ∧
    applied_versions (mm_store s') ≡ₚ version <$> keep ∧ mm_held s' = false.
Proof.
  intros Hwf Hnum Hrev Hnone Hacq Hup Hacq1 Hn.
  destruct (ups (pending s) (mm_context s)) as [[d e] c] eqn:Hu.
  destruct (upgrade_spec deadline readings now s s0 d e c Hwf Hacq Hu)
    as (s1' & Hup' & Hm & Hc & _ & Hp & _).
  rewrite Hup in Hup'. injection Hup' as Hr <-. destruct e as [[v msg]|]; [done|]. injection Hr as <-.
  destruct (ups_prefix _ _ _ _ _ Hu) as [_ Hd]. specialize (Hd eq_refl).
  assert (pending s = migrations s) as Hall.
  { unfold pending. rewrite Hnone. apply filter_all. intros m _. apply not_elem_of_nil. }
  rewrite Hall in *. rewrite Hd in *. rewrite Hnone, app_nil_r in Hp.
  destruct (rollback_migrations_spec n deadline readings s1 s2 (mm_context s) (migrations s))
    as (s' & Hroll & Hk & Hh & Ha); try done.
  - unfold mm_wf. by rewrite Hm.
  - unfold well_numbered. by rewrite Hm.
  - unfold migrations. by rewrite Hm.
  - by rewrite Hc.
  - intros keep. exists s'. split; [|split; [exact Hk|done]]. rewrite Hroll. unfold keep. rewrite length_take.
    by rewrite Nat.min_l by lia.
Qed.

(** ** Examples: migrations that push their version on a list *)

Definition demo_migration (v : string) : Migration (list string) :=
  MkMigration v v (Some (λ c, (Ok tt, v :: c)))
    (Some (λ c, match c with
                | w :: c' => if decide (w = v) then (Ok tt, c') else (Err "out of order"%string, c)
                | [] => (Err "empty"%string, c)
                end)).

Definition demo_manager (vs : list string) : MigrationManager MemoryMigrationStore (list string) :=
  (register_many (demo_migration <$> vs) (MkMigrations [] [] [] [] false)).2.

Definition demo_deadline : float := float_of_Z 30.

Lemma demo_manager_wf vs : mm_wf (demo_manager vs).
Proof.
  unfold demo_manager. assert (∀ ms (s : MigrationManager MemoryMigrationStore (list string)),
    mm_wf s → mm_wf (register_many ms s).2) as H.
  { induction ms as [|m ms IH]; intros s Hs; [done|]. cbn [register_many].
    pose proof (register_wf m s Hs) as Hr. unfold mbind, SE_bind.
    destruct (register_migration m s) as [[[]|e] s']; [by apply IH|done]. }
  apply H. split; [apply NoDup_nil_2|done].
Qed.

Lemma upgrade_outcome_witness :
  let '(r, s') := upgrade false demo_deadline [fzero] fzero (demo_manager ["002"; "001"]%string) in
  mm_context s' = ["002"; "001"]%string ∧ pending s' = [].
Proof.
  pose proof (upgrade_outcome (demo_manager ["002"; "001"]%string)
    (set_held true (demo_manager ["002"; "001"]%string)) demo_deadline [fzero] fzero
    (demo_manager_wf _) eq_refl) as H.
  destruct (ups _ _) as [[d e] c] eqn:Eu. destruct (upgrade _ _ _ _ _) as [r s'] eqn:Er.
  destruct H as (_ & Hc & _ & Hp & _). rewrite Hc, Hp.
  vm_compute in Eu. injection Eu as <- <- <-. split; reflexivity.
Defined.

Lemma demo_reversible v : reversible (demo_migration v).
Proof. intros c c'. cbn. intros [= <-]. by rewrite decide_True. Qed.

Lemma upgrade_rollback_witness :
  let s := demo_manager ["001"; "002"]%string in
  ∃ ms s1 s', upgrade false demo_deadline [fzero] fzero s = (Ok ms, s1) ∧
    rollback_migrations 1 false demo_deadline [fzero] s1 = (Ok (reverse (drop 1 ms)), s') ∧
    ups (take 1 ms) (mm_context s) = (take 1 ms, None, mm_context s').
Proof.
  intros s. destruct (upgrade false demo_deadline [fzero] fzero s) as [[ms|e] s1] eqn:E.
  2: { exfalso. apply (f_equal (λ p, is_ok p.1)) in E. vm_compute in E. discriminate E. }
  assert (length ms = 2%nat) as Hlen.
  { apply (f_equal (λ p, match p.1 with Ok l => length l | Err _ => 0%nat end)) in E.
    vm_compute in E. symmetry. exact E. }
  destruct (upgrade_rollback s (set_held true (set_mstore (mm_store s) s)) s1
    (set_held true (set_mstore (mm_store s1) s1)) ms 1 demo_deadline [fzero] fzero)
    as (s' & Hr & Hk & _).
  - apply demo_manager_wf.
  - repeat constructor.
  - repeat constructor; apply demo_reversible.
  - reflexivity.
  - reflexivity.
  - exact E.
  - reflexivity.
  - lia.
  - rewrite Hlen in Hr, Hk. rewrite length_take, Hlen in Hr. exists ms, s1, s'.
    split; [reflexivity|]. split; [exact Hr|exact Hk].
Defined.

(** With versions that are not padded the two orders differ: ["10"] is applied
    before ["9"], and the rollback of one step starts with ["10"] although ["9"]
    was applied last. *)
Theorem rollback_not_last_applied :
  let s1 := (upgrade false demo_deadline [fzero] fzero (demo_manager ["9"; "10"]%string)).2 in
  applied_versions (mm_store s1) = ["10"; "9"]%string ∧
  version <$> plan_rollback 1 s1 = ["10"%string] ∧
  (rollback_migrations 1 false demo_deadline [fzero] s1).1 = Err (MigrationFailureError "10" "out of order").
Proof. split; [|split]; vm_compute; reflexivity. Qed.
