(* ===== verification/Approval.v ===== *)
(** * Approval checkpoints ([app/orchestration/approval.py])

    A workflow stops at a checkpoint until a person approves or rejects it.
    [ApprovalManager] keeps the undecided checkpoints in memory and every
    checkpoint in a [MemoryStore], the abstract key-value store of
    [app/memory/store.py], which is an interface here.  Generated ids and clock
    readings are arguments. *)

From Stdlib Require Import ZArith Lia.
From stdpp Require Import base numbers strings list.
From S2P Require Import Prelude PyFloat PyDict.

Open Scope Z_scope.

(** ** Data *)

Record ApprovalCheckpoint := MkCheckpoint {
  checkpoint_id : string;
  workflow_id : string;
  step_id : string;
  cp_prompt : string;
  cp_context : dict string string;
  cp_status : string;
  cp_created_at : float;
  cp_decided_at : float;
  cp_decided_by : string;
  cp_notes : string
}.

(** The values of the stored dictionaries. *)
Inductive DataValue := DText (s : string) | DTime (t : float) | DContext (c : option (dict string string)).

Abbreviation Data := (dict string DataValue).

Class MemoryStore (S : Type) := {
  ms_get : string → S → option Data;
  ms_set : string → Data → S → S;
  ms_keys : string → S → list string
}.

(** What is set is what is read, under that key only. *)
Class MemoryStoreLaws (S : Type) `{!MemoryStore S} : Prop := {
  ms_get_set : ∀ k v s, ms_get k (ms_set k v s) = Some v;
  ms_get_set_ne : ∀ k k' v s, k ≠ k' → ms_get k' (ms_set k v s) = ms_get k' s
}.

(** A table from keys to values; all its keys are of checkpoints. *)
#[export] Instance table_store : MemoryStore (dict string Data) := {
  ms_get := dict_get;
  ms_set := dict_set;
  ms_keys pattern d := dict_keys d
}.

#[export] Instance table_store_laws : MemoryStoreLaws (dict string Data).
Proof. split; simpl; intros; [apply dict_get_set_eq|by apply dict_get_set_ne]. Qed.

Section Manager.
Context {S : Type} `{!MemoryStore S}.

Record ApprovalManager := MkApprovals {
  am_store : S;
  am_pending : dict string ApprovalCheckpoint
}.

(** [f"approval:{checkpoint_id}"] *)
Definition approval_key (id : string) : string := "approval:" +:+ id.

Definition create_checkpoint (id workflow step prompt : string) (context : option (dict string string))
    (now : float) (s : ApprovalManager) : ApprovalCheckpoint * ApprovalManager :=
  let cp := MkCheckpoint id workflow step prompt (default [] context) "pending" now fzero "" "" in
  let data :=
    [("checkpoint_id", DText id); ("workflow_id", DText workflow); ("step_id", DText step);
     ("prompt", DText prompt); ("context", DContext context); ("status", DText "pending");
     ("created_at", DTime now)]%string in
  (cp, MkApprovals (ms_set (approval_key id) data (am_store s)) (dict_set id cp (am_pending s))).

(** The common body of [approve] and [reject]. *)
Definition decide_checkpoint (status id user notes : string) (now : float) (s : ApprovalManager)
    : bool * ApprovalManager :=
  match dict_get id (am_pending s) with
  | None => (false, s)
  | Some cp =>
      if decide (cp_status cp = "pending"%string) then
        let cp := MkCheckpoint (checkpoint_id cp) (workflow_id cp) (step_id cp) (cp_prompt cp)
                    (cp_context cp) status (cp_created_at cp) now user notes in
        let data :=
          [("checkpoint_id", DText id); ("status", DText status); ("decided_at", DTime now);
           ("decided_by", DText user); ("notes", DText notes)]%string in
        (true, MkApprovals (ms_set (approval_key id) data (am_store s)) (dict_set id cp (am_pending s)))
      else (false, s)
  end.

Definition approve := decide_checkpoint "approved".
Definition reject := decide_checkpoint "rejected".

(** [data.get("status", "unknown") if data else "unknown"] *)
Definition status_of (data : option Data) : string :=
  match data with
  | Some d => match dict_get "status"%string d with Some (DText st) => st | _ => "unknown" end
  | None => "unknown"
  end.

Definition get_status (id : string) (s : ApprovalManager) : string :=
  match dict_get id (am_pending s) with
  | Some cp => cp_status cp
  | None => status_of (ms_get (approval_key id) (am_store s))
  end.

Definition list_pending (s : ApprovalManager) : list ApprovalCheckpoint :=
  filter (λ cp, cp_status cp = "pending"%string) (dict_values (am_pending s)).

Definition list_all (s : ApprovalManager) : list Data :=
  omap (λ k, match ms_get k (am_store s) with Some [] | None => None | Some d => Some d end)
    (ms_keys "approval:*" (am_store s)).

(** The loop of [clean_completed] over the keys. *)
Definition clean_completed (s : ApprovalManager) : Z * ApprovalManager :=
  let done_ := filter (λ p, cp_status p.2 ≠ "pending"%string) (am_pending s) in
  (zlen done_, MkApprovals (am_store s) (filter (λ p, cp_status p.2 = "pending"%string) (am_pending s))).

(** [wait_for_decision]: one turn per poll, with the clock reading of the loop
    condition and the manager at that moment. *)
Fixpoint wait_for_decision (id : string) (start timeout : float) (turns : list (float * ApprovalManager))
    : string :=
  match turns with
  | [] => "timeout"
  | (t, s) :: turns' =>
      if flt (fsub t start) timeout then
        let st := get_status id s in
        if decide (st = "approved"%string ∨ st = "rejected"%string) then st
        else wait_for_decision id start timeout turns'
      else "timeout"
  end.

(** ** Sequences of calls *)

Inductive call :=
| Create (id workflow step prompt : string) (context : option (dict string string)) (now : float)
| Approve (id user notes : string) (now : float)
| Reject (id user notes : string) (now : float)
| Clean.

Definition after (x : call) (s : ApprovalManager) : ApprovalManager :=
  match x with
  | Create id w st p c now => (create_checkpoint id w st p c now s).2
  | Approve id u n now => (approve id u n now s).2
  | Reject id u n now => (reject id u n now s).2
  | Clean => (clean_completed s).2
  end.

(** The generated ids are new. *)
Definition creates (id : string) (x : call) : bool :=
  match x with Create id' _ _ _ _ _ => bool_decide (id' = id) | _ => false end.

Definition afters (xs : list call) (s : ApprovalManager) : ApprovalManager := foldl (flip after) s xs.
End Manager.
Arguments ApprovalManager S : clear implicits.

Section Spec.
Context {S : Type} `{!MemoryStore S} `{!MemoryStoreLaws S}.
Implicit Types s : ApprovalManager S.

(** A checkpoint that was decided: in memory, if still there, and in the store. *)
Definition decided (id status : string) s : Prop :=
  status ≠ "pending"%string ∧
  (∀ cp, dict_get id (am_pending s) = Some cp → cp_status cp = status) ∧
  status_of (ms_get (approval_key id) (am_store s)) = status.

Lemma approval_key_inj id id' : approval_key id = approval_key id' → id = id'.
Proof. apply (inj (String.append "approval:")). Qed.

Lemma decided_status id status s : decided id status s → get_status id s = status.
Proof.
  intros (_ & Hp & Hs). unfold get_status. destruct (dict_get id (am_pending s)) as [cp|] eqn:E; [|done].
  by apply Hp.
Qed.

Lemma decide_other status id id' user notes now s d :
  decided id' d s → decided id' d (decide_checkpoint status id user notes now s).2.
Proof.
  intros (Hnp & Hp & Hs). unfold decide_checkpoint.
  destruct (dict_get id (am_pending s)) as [cp|] eqn:E; [|done].
  case_decide as Ep; [|done]. destruct (decide (id = id')) as [->|Hne].
  { exfalso. apply Hnp. by rewrite <- (Hp cp E). }
  split; [done|]. split; simpl.
  - intros cp' Hg. rewrite dict_get_set_ne in Hg by done. by apply Hp.
  - rewrite ms_get_set_ne; [done|]. intros H. by apply Hne, approval_key_inj.
Qed.

Lemma dict_get_filter (P : string * ApprovalCheckpoint → Prop) `{!∀ p, Decision (P p)} id d cp :
  dict_wf d → dict_get id (filter P d) = Some cp → dict_get id d = Some cp.
Proof.
  intros Hwf Hg. apply dict_get_elem_of in Hg. apply list_elem_of_filter in Hg as [_ Hg].
  by apply dict_elem_of_get.
Qed.

(** The keys of the dictionary in memory stay distinct. *)
Lemma after_wf x s : dict_wf (am_pending s) → dict_wf (am_pending (after x s)).
Proof.
  intros Hwf. destruct x as [id w st p c now|id u n now|id u n now|]; simpl.
  - by apply dict_set_wf.
  - unfold approve, decide_checkpoint. destruct (dict_get id _); [|done]. case_decide; [|done].
    by apply dict_set_wf.
  - unfold reject, decide_checkpoint. destruct (dict_get id _); [|done]. case_decide; [|done].
    by apply dict_set_wf.
  - unfold dict_wf. eapply sublist_NoDup; [exact Hwf|]. by apply fmap_sublist, sublist_filter.
Qed.

Lemma after_decided x id d s :
  creates id x = false → dict_wf (am_pending s) → decided id d s → decided id d (after x s).
Proof.
  intros Hx Hwf Hd. destruct x as [id' w st p c now|id' u n now|id' u n now|]; simpl in *.
  - apply bool_decide_eq_false in Hx. destruct Hd as (Hnp & Hp & Hs). split; [done|]. split; simpl.
    + intros cp Hg. rewrite dict_get_set_ne in Hg by done. by apply Hp.
    + rewrite ms_get_set_ne; [done|]. intros H. by apply Hx, approval_key_inj.
  - by apply decide_other.
  - by apply decide_other.
  - destruct Hd as (Hnp & Hp & Hs). split; [done|]. split; [|done]. simpl.
    intros cp Hg. apply Hp. by eapply dict_get_filter.
Qed.

Lemma afters_decided xs id d s :
  Forall (λ x, creates id x = false) xs → dict_wf (am_pending s) → decided id d s →
  decided id d (afters xs s).
Proof.
  revert s. induction xs as [|x xs IH]; intros s Hx Hwf Hd; [done|].
  apply Forall_cons in Hx as [Hx Hxs]. apply IH; [done|by apply after_wf|by apply after_decided].
Qed.

Lemma decide_decides status id user notes now s s' :
  status ≠ "pending"%string → decide_checkpoint status id user notes now s = (true, s') →
  decided id status s'.
Proof.
  intros Hst. unfold decide_checkpoint. destruct (dict_get id (am_pending s)) as [cp|]; [|done].
  case_decide; [|done]. intros [= <-]. split; [done|]. split; simpl.
  - intros cp'. rewrite dict_get_set_eq. by intros [= <-].
  - by rewrite ms_get_set.
Qed.

(** A decided checkpoint refuses another decision. *)
Lemma decided_refuses status id user notes now s d :
  decided id d s → decide_checkpoint status id user notes now s = (false, s).
Proof.
  intros (Hnp & Hp & _). unfold decide_checkpoint.
  destruct (dict_get id (am_pending s)) as [cp|]; [|done].
  rewrite decide_False; [done|]. by rewrite (Hp cp eq_refl).
Qed.
End Spec.

(** Decisions are final: once [approve] (or [reject]) has returned [True] for a
    checkpoint, then whatever calls follow, cleaning included, its status is
    that decision and every further decision on it is refused, as long as the
    generated ids are new; and a waiter that polls before its timeout returns
    that decision. *)
Theorem approval_final {S} `{!MemoryStore S} `{!MemoryStoreLaws S} (s s1 : ApprovalManager S)
    (id user notes : string) (approved : bool) (now : float) (xs : list call) :
  dict_wf (am_pending s) →
  (if approved then approve else reject) id user notes now s = (true, s1) →
  Forall (λ x, creates id x = false) xs →
  let s2 := afters xs s1 in
  get_status id s2 = (if approved then "approved" else "rejected")%string ∧
  (∀ u n t, (approve id u n t s2).1 = false ∧ (reject id u n t s2).1 = false) ∧
  (∀ start timeout t, flt (fsub t start) timeout = true →
     wait_for_decision id start timeout [(t, s2)] = (if approved then "approved" else "rejected")%string).
Proof.
  intros Hwf Hd Hx s2. set (st := (if approved then "approved" else "rejected")%string).
  assert (decided id st s1 ∧ s1 = (after (if approved then Approve id user notes now
    else Reject id user notes now) s)) as [Hd1 Hs1].
  { destruct approved; (split; [eapply decide_decides; [|exact Hd]; done|]); simpl; by rewrite Hd. }
  assert (dict_wf (am_pending s1)) as Hwf1 by (rewrite Hs1; by apply after_wf).
  pose proof (afters_decided xs id st s1 Hx Hwf1 Hd1) as Hd2. fold s2 in Hd2.
  pose proof (decided_status id st s2 Hd2) as Hst. split; [done|]. split.
  - intros u n t. unfold approve, reject. by rewrite !(decided_refuses _ _ _ _ _ _ _ Hd2).
  - intros start timeout t Ht. simpl. rewrite Ht, Hst. rewrite decide_True; [done|].
    unfold st. destruct approved; [by left|by right].
Qed.

Definition demo_approvals : ApprovalManager (dict string Data) :=
  (create_checkpoint "c1" "w" "s" "Deploy?" None fzero (MkApprovals [] [])).2.

Lemma approval_final_witness :
  let s2 := afters [Clean; Reject "c1" "bob" "" fzero; Clean]
              (approve "c1" "ann" "ok" fzero demo_approvals).2 in
  am_pending s2 = [] ∧ get_status "c1" s2 = "approved"%string.
Proof.
  split; [reflexivity|].
  destruct (approval_final demo_approvals (approve "c1" "ann" "ok" fzero demo_approvals).2 "c1" "ann" "ok"
    true fzero [Clean; Reject "c1" "bob" "" fzero; Clean]) as [H _].
  - apply (bool_decide_unpack _). vm_compute. exact I.
  - reflexivity.
  - repeat constructor.
  - exact H.
Defined.
