(* ===== verification/PluginPipeline.v ===== *)
(** * Plugin registry and middleware pipeline

    [PluginRegistry] of [src/app/plugin/registry.py] and [MiddlewarePipeline]
    of [src/app/plugin/pipeline.py]: the hooks of the enabled plugins run in
    the order of registration, a plugin may cancel the request, and what the
    plugins ask to change is aggregated.

    A plugin is user code.  The outcome of one hook call is all the pipeline
    sees of it: the method is missing, it raises, it returns something that is
    not a [HookResult], or it returns one.  [Args] is what a hook is called
    with. *)

From stdpp Require Import base numbers strings gmap list.
From S2P Require Import Prelude PyDict.


Section Pipeline.
Context {Req Resp Val Args : Type}.

Record HookResult := mk_hook {
  should_cancel : bool;
  cancel_reason : string;
  modified_request : option Req;
  modified_response : option Resp;
  hook_metadata : dict string Val
}.

(** [HookResult()] *)
Definition hook_neutral : HookResult := mk_hook false ""%string None None [].

Inductive HookOutcome :=
  | NoMethod
  | HookRaised
  | NotAHookResult
  | HookReturned (r : HookResult).

Definition run_hook (o : HookOutcome) : HookResult :=
  match o with HookReturned r => r | _ => hook_neutral end.

(** [d.update(e)] *)
Definition dict_update (d e : dict string Val) : dict string Val :=
  fold_left (λ d kv, dict_set kv.1 kv.2 d) e d.

Definition aggregate (agg r : HookResult) : HookResult :=
  mk_hook (should_cancel agg) (cancel_reason agg)
    (match modified_request r with Some q => Some q | None => modified_request agg end)
    (match modified_response r with Some q => Some q | None => modified_response agg end)
    (dict_update (hook_metadata agg) (hook_metadata r)).

(** A plugin, as the outcomes of its hooks. *)
Definition Plugin : Type := Args → HookOutcome.

(** The loop of [_execute_hook_chain]: the result and the number of plugins
    called.  Every plugin is called with the same arguments. *)
Fixpoint hook_loop (args : Args) (plugins : list Plugin) (agg : HookResult) : HookResult * nat :=
  match plugins with
  | [] => (agg, 0)
  | p :: rest =>
      let r := run_hook (p args) in
      if should_cancel r then (r, 1)
      else let '(res, n) := hook_loop args rest (aggregate agg r) in (res, S n)
  end.

Definition execute_hook_chain (args : Args) (plugins : list Plugin) : HookResult :=
  (hook_loop args plugins hook_neutral).1.

(** ** The registry *)

Record PluginRegistry := mk_registry {
  reg_plugins : dict string Plugin;
  reg_disabled : gset string
}.

Definition get_enabled (r : PluginRegistry) : list Plugin :=
  (filter (λ np : string * Plugin, np.1 ∉ reg_disabled r) (reg_plugins r)).*2.

Definition plugin_enabled (r : PluginRegistry) (name : string) : bool :=
  dict_mem name (reg_plugins r) && bool_decide (name ∉ reg_disabled r).

Definition enable (name : string) (r : PluginRegistry) : bool * PluginRegistry :=
  if dict_mem name (reg_plugins r)
  then (true, mk_registry (reg_plugins r) (reg_disabled r ∖ {[name]})) else (false, r).

Definition disable (name : string) (r : PluginRegistry) : bool * PluginRegistry :=
  if dict_mem name (reg_plugins r)
  then (true, mk_registry (reg_plugins r) ({[name]} ∪ reg_disabled r)) else (false, r).

(** [discover_and_load] on the plugins the loader returns. *)
Definition register_loaded (found : list (string * Plugin)) (r : PluginRegistry) : PluginRegistry :=
  fold_left (λ r np, mk_registry (dict_set np.1 np.2 (reg_plugins r)) (reg_disabled r ∖ {[np.1]}))
    found r.

(** ** What a chain does *)

Definition cancels (args : Args) (p : Plugin) : bool := should_cancel (run_hook (p args)).

(** The last request a list of plugins asked for. *)
Fixpoint last_request (args : Args) (plugins : list Plugin) (q : option Req) : option Req :=
  match plugins with
  | [] => q
  | p :: rest =>
      last_request args rest
        (match modified_request (run_hook (p args)) with Some q' => Some q' | None => q end)
  end.

Lemma hook_loop_no_cancel args plugins agg :
  should_cancel agg = false → Forall (λ p, cancels args p = false) plugins →
  let '(r, n) := hook_loop args plugins agg in
  n = length plugins ∧ should_cancel r = false ∧
  modified_request r = last_request args plugins (modified_request agg).
Proof.
  revert agg. induction plugins as [|p rest IH]; intros agg Ha Hc; simpl; [done|].
  apply Forall_cons in Hc as [Hp Hc]. unfold cancels in Hp. rewrite Hp.
  specialize (IH (aggregate agg (run_hook (p args))) Ha Hc).
  destruct (hook_loop args rest _) as [r n]. destruct IH as (-> & Hr & Hq). done.
Qed.

Lemma hook_loop_cancel args before p after agg :
  Forall (λ q, cancels args q = false) before → cancels args p = true →
  hook_loop args (before ++ p :: after) agg = (run_hook (p args), S (length before)).
Proof.
  revert agg. induction before as [|q before IH]; intros agg Hb Hp; simpl.
  - unfold cancels in Hp. by rewrite Hp.
  - apply Forall_cons in Hb as [Hq Hb]. unfold cancels in Hq. rewrite Hq.
    by rewrite IH.
Qed.

(** A hook chain stops at the first plugin that cancels: it returns that
    plugin's result and calls no plugin after it.  When no plugin cancels, all
    are called, the result does not cancel, and the request it asks for is the
    one of the last plugin that asked for a change. *)
Theorem hook_chain_correct (args : Args) (plugins : list Plugin) :
  (∃ before p after, plugins = before ++ p :: after ∧
     Forall (λ q, cancels args q = false) before ∧ cancels args p = true ∧
     hook_loop args plugins hook_neutral = (run_hook (p args), S (length before))) ∨
  (Forall (λ q, cancels args q = false) plugins ∧
   let '(r, n) := hook_loop args plugins hook_neutral in
   n = length plugins ∧ should_cancel r = false ∧
   modified_request r = last_request args plugins None).
Proof.
  assert (Forall (λ q, cancels args q = false) plugins ∨
    ∃ before p after, plugins = before ++ p :: after ∧
      Forall (λ q, cancels args q = false) before ∧ cancels args p = true) as [H|H].
  { induction plugins as [|q rest [IH|(b & p & a & -> & Hb & Hp)]].
    - left. constructor.
    - destruct (cancels args q) eqn:E; [right; by exists [], q, rest|left; by constructor].
    - right. destruct (cancels args q) eqn:E.
      + by exists [], q, (b ++ p :: a).
      + exists (q :: b), p, a. split; [done|]. split; [by constructor|done]. }
  - right. split; [done|]. by apply hook_loop_no_cancel.
  - left. destruct H as (b & p & a & -> & Hb & Hp). exists b, p, a.
    split; [done|]. split; [done|]. split; [done|]. by apply hook_loop_cancel.
Qed.

(** A plugin that fails in a hook is invisible: the chain returns what it
    would return without it. *)
Lemma failing_plugin_ignored args before p after :
  run_hook (p args) = hook_neutral →
  execute_hook_chain args (before ++ p :: after) = execute_hook_chain args (before ++ after).
Proof.
  intros Hp. unfold execute_hook_chain. generalize hook_neutral as agg. intros agg.
  revert agg. induction before as [|q before IH]; intros agg; simpl.
  - rewrite Hp. simpl.
    assert (aggregate agg hook_neutral = agg) as -> by by destruct agg.
    by destruct (hook_loop args after agg).
  - destruct (should_cancel (run_hook (q args))); [done|].
    specialize (IH (aggregate agg (run_hook (q args)))).
    destruct (hook_loop args (before ++ p :: after) _), (hook_loop args (before ++ after) _).
    done.
Qed.
End Pipeline.

Arguments HookResult : clear implicits.
Arguments HookOutcome : clear implicits.
Arguments Plugin : clear implicits.
Arguments PluginRegistry : clear implicits.
