(* ===== verification/WorkflowExec.v ===== *)
(** * Execution of workflow DAGs

    [DAGExecutor] of [src/app/orchestration/dag.py]: the levels of the
    topological sort are executed one after the other; a step is a task for an
    agent or a control node (conditional, parallel, merge, retry, timeout,
    wait) with sub-steps.

    The agents are arguments: [known_agent] tells which names the registry
    has, [run_agent n s] is the outcome of the [n]-th call of the workflow when
    it is a call of an agent for step [s], and [run_sleep n] when it is a sleep
    (of a [WAIT] node, or of a [RETRY] node between two attempts): it returns,
    or it is cut by a cancellation.  A call that never comes back (an agent
    that hangs, a wait of infinite duration) has no execution in this model.
    [eval_condition] is Python's [eval] of a
    condition after the references to the execution memory are resolved.

    The coroutines of [asyncio.gather] are run one after the other in the
    order they are given; since the outcomes of the agents are arguments, this
    fixes the order of the events inside a level and what a [MERGE] node sees
    of the steps it runs beside, and nothing else.  When a cancellation reaches
    a step it comes from the innermost enclosing [TIMEOUT] node. *)

From Stdlib Require Import ZArith Lia.
From stdpp Require Import base numbers strings gmap list.
From S2P Require Import Prelude PyFloat PyStr WorkflowDag WorkflowDagCycle WorkflowDagSort PyDict.


Module WorkflowExec.
Import WorkflowDag.

(** What a step leaves in [outputs]. *)
Inductive Value := VStr (s : string) | VBool (b : bool).

Instance Value_eq_dec : EqDecision Value.
Proof. solve_decision. Defined.

Inductive TEvent := Started (step : string) | Finished (step : string).

Record xstate := mk_x {
  x_outputs : dict string Value;
  x_timeline : list TEvent;
  x_calls : nat
}.

Inductive TaskOutcome :=
  | Content (s : string)
  | AgentRaises (message : string)
  | AgentTimesOut
  | AgentCancelled.

Inductive SleepOutcome := SleepReturns | SleepCancelled.

(** The exceptions that travel through the executor; [EFuel] marks the
    exhausted fuel of the model. *)
Inductive WExn :=
  | EAgent (message : string)
  | ETimeoutError
  | ECancelled
  | EDag (e : DagError)
  | EFuel.

Instance DagError_eq_dec : EqDecision DagError.
Proof. solve_decision. Defined.

Instance WExn_eq_dec : EqDecision WExn.
Proof. solve_decision. Defined.

Record WorkflowResult := mk_result {
  wr_outputs : dict string Value;
  wr_success : bool;
  wr_error : option WExn
}.

(** ** Merging *)

Definition value_truthy (v : Value) : bool :=
  match v with VStr s => truthy s | VBool b => b end.

Definition value_str (v : Value) : string :=
  match v with VStr s => s | VBool true => "True" | VBool false => "False" end.

Definition line_end : string := String (Ascii.ascii_of_nat 10) EmptyString.

Definition merge_outputs (outputs : dict string Value) (strategy : string) : string :=
  let values := value_str <$> List.filter value_truthy (dict_values outputs) in
  if bool_decide (strategy = "first") then default "" (head values)
  else if bool_decide (strategy = "last") then default "" (last values)
  else join (line_end +:+ line_end) values.

Section Exec.
Context (known_agent : string → bool).
Context (run_agent : nat → WorkflowStep → TaskOutcome).
Context (run_sleep : nat → SleepOutcome).
Context (eval_condition : string → bool).
Context (exn_str : WExn → string).

Definition evaluate_condition (c : string) : bool :=
  if truthy c then eval_condition c else true.

Definition log_event (e : TEvent) (st : xstate) : xstate :=
  mk_x (x_outputs st) (x_timeline st ++ [e]) (x_calls st).

Definition put_output (k : string) (v : Value) (st : xstate) : xstate :=
  mk_x (dict_set k v (x_outputs st)) (x_timeline st) (x_calls st).

(** [if r is not None: outputs[id] = r] *)
Definition put_opt (k : string) (v : option Value) (st : xstate) : xstate :=
  match v with Some v => put_output k v st | None => st end.

(** [_execute_task]: an unknown agent yields empty content, not an error. *)
Definition execute_task (s : WorkflowStep) (st : xstate) : result WExn (option Value) * xstate :=
  if known_agent (str_or (agent s) "chat") then
    let st' := mk_x (x_outputs st) (x_timeline st) (S (x_calls st)) in
    (match run_agent (x_calls st) s with
     | Content c => Ok (Some (VStr c))
     | AgentRaises m => Err (EAgent m)
     | AgentTimesOut => Err ETimeoutError
     | AgentCancelled => Err ECancelled
     end, st')
  else (Ok (Some (VStr "")), st).

(** [await asyncio.sleep(...)]; nothing is raised when the duration is not a
    number, since the node then sleeps for one second. *)
Definition sleep_for (st : xstate) : result WExn unit * xstate :=
  (match run_sleep (x_calls st) with SleepReturns => Ok tt | SleepCancelled => Err ECancelled end,
   mk_x (x_outputs st) (x_timeline st) (S (x_calls st))).

Abbreviation step_fun := (WorkflowStep → xstate → result WExn (option Value) * xstate).

(** ** Running several steps *)

(** [gather(..., return_exceptions=True)]: every step is run and its
    exception is a result.  A cancellation comes from outside: it cancels the
    gathering itself and is raised. *)
Fixpoint gather (rec : step_fun) (steps : list WorkflowStep) (st : xstate)
    : result WExn (list (result WExn (option Value))) * xstate :=
  match steps with
  | [] => (Ok [], st)
  | s :: rest =>
      let '(r, st1) := rec s st in
      match r with
      | Err ECancelled => (Err ECancelled, st1)
      | Err EFuel => (Err EFuel, st1)
      | _ =>
          let '(rs, st2) := gather rec rest st1 in
          (match rs with Ok l => Ok (r :: l) | Err e => Err e end, st2)
      end
  end.

(** The loop that stores the gathered results. *)
Fixpoint store_results (steps : list WorkflowStep) (rs : list (result WExn (option Value)))
    (st : xstate) : xstate :=
  match steps, rs with
  | s :: steps', r :: rs' =>
      store_results steps' rs'
        (match r with
         | Err e => put_output (id s) (VStr ("Error: " +:+ exn_str e)) st
         | Ok v => put_opt (id s) v st
         end)
  | _, _ => st
  end.

Definition gather_store (rec : step_fun) (steps : list WorkflowStep) (st : xstate)
    : result WExn unit * xstate :=
  match gather rec steps st with
  | (Ok rs, st') => (Ok tt, store_results steps rs st')
  | (Err e, st') => (Err e, st')
  end.

(** A level: one step alone, or several gathered. *)
Definition run_one_level (rec : step_fun) (lv : list WorkflowStep) (st : xstate)
    : result WExn unit * xstate :=
  match lv with
  | [s] =>
      let '(r, st') := rec s st in
      match r with Ok v => (Ok tt, put_opt (id s) v st') | Err e => (Err e, st') end
  | _ => gather_store rec lv st
  end.

Fixpoint run_level_list (rec : step_fun) (levels : list (list WorkflowStep)) (st : xstate)
    : result WExn unit * xstate :=
  match levels with
  | [] => (Ok tt, st)
  | lv :: rest =>
      let '(r, st') := run_one_level rec lv st in
      match r with Ok _ => run_level_list rec rest st' | Err e => (Err e, st') end
  end.

(** The steps one by one, as the [RETRY] and [TIMEOUT] nodes run them. *)
Fixpoint run_sequence (rec : step_fun) (steps : list WorkflowStep) (st : xstate)
    : result WExn unit * xstate :=
  match steps with
  | [] => (Ok tt, st)
  | s :: rest =>
      let '(r, st') := rec s st in
      match r with
      | Ok v => run_sequence rec rest (put_opt (id s) v st')
      | Err e => (Err e, st')
      end
  end.

(** [WorkflowDAG(steps).topological_sort()] *)
Definition sorted_levels_of (steps : list WorkflowStep) : result WExn (list (list WorkflowStep)) :=
  match WorkflowDAG steps with
  | Err e => Err (EDag e)
  | Ok steps => match topological_sort steps with Ok l => Ok l | Err e => Err (EDag e) end
  end.

(** The body of a [RETRY] or [TIMEOUT] node; nothing without sub-steps. *)
Definition run_substeps (rec : step_fun) (subs : list WorkflowStep) (st : xstate)
    : result WExn unit * xstate :=
  match subs with
  | [] => (Ok tt, st)
  | _ =>
      match sorted_levels_of subs with
      | Err e => (Err e, st)
      | Ok levels => run_sequence rec (concat levels) st
      end
  end.

(** [except Exception] does not catch a cancellation. *)
Definition caught (e : WExn) : bool :=
  match e with ECancelled | EFuel => false | _ => true end.

(** The [RETRY] loop with [attempts] left: the error of an earlier attempt is
    kept, and raised at the end even when a later attempt succeeded; between
    two attempts the node sleeps. *)
Fixpoint retry_attempts (rec : step_fun) (subs : list WorkflowStep) (attempts : nat)
    (last_error : option WExn) (st : xstate) : result WExn (option Value) * xstate :=
  match attempts with
  | O => (match last_error with Some e => Err e | None => Ok None end, st)
  | S n =>
      let '(r, st') := run_substeps rec subs st in
      match r with
      | Ok _ => (match last_error with Some e => Err e | None => Ok None end, st')
      | Err e =>
          if caught e then
            match n with
            | O => retry_attempts rec subs n (Some e) st'
            | S _ =>
                let '(r, st'') := sleep_for st' in
                match r with
                | Ok _ => retry_attempts rec subs n (Some e) st''
                | Err e => (Err e, st'')
                end
            end
          else (Err e, st')
      end
  end.

Definition run_node (rec : step_fun) (s : WorkflowStep) (st : xstate)
    : result WExn (option Value) * xstate :=
  match type s with
  | CONDITIONAL =>
      if evaluate_condition (condition s) then
        match substeps s with
        | [] => (Ok (Some (VBool true)), st)
        | subs =>
            match sorted_levels_of subs with
            | Err e => (Err e, st)
            | Ok levels =>
                match run_level_list rec levels st with
                | (Ok _, st') => (Ok (Some (VBool true)), st')
                | (Err e, st') => (Err e, st')
                end
            end
        end
      else (Ok (Some (VBool false)), st)
  | PARALLEL =>
      match gather_store rec (substeps s) st with
      | (Ok _, st') => (Ok None, st')
      | (Err e, st') => (Err e, st')
      end
  | MERGE => (Ok (Some (VStr (merge_outputs (x_outputs st) (merge_strategy s)))), st)
  | RETRY => retry_attempts rec (substeps s) (Z.to_nat (Z.max (retry_count s) 1)) None st
  | TIMEOUT =>
      match run_substeps rec (substeps s) st with
      | (Ok _, st') => (Ok None, st')
      | (Err (ETimeoutError | ECancelled), st') => (Ok None, st')
      | (Err e, st') => (Err e, st')
      end
  | WAIT => let '(r, st') := sleep_for st in (match r with Ok _ => Ok None | Err e => Err e end, st')
  | _ => execute_task s st
  end.

(** [_execute_dag_step] *)
Fixpoint execute_dag_step (fuel : nat) (s : WorkflowStep) (st : xstate)
    : result WExn (option Value) * xstate :=
  match fuel with
  | O => (Err EFuel, st)
  | S fuel' =>
      let '(r, st') := run_node (execute_dag_step fuel') s (log_event (Started (id s)) st) in
      (r, log_event (Finished (id s)) st')
  end.

(** The nesting depth of a step bounds the recursion. *)
Fixpoint depth (s : WorkflowStep) : nat :=
  S (fold_right (λ s' n, Nat.max (depth s') n) 0%nat (substeps s)).

Definition max_depth (steps : list WorkflowStep) : nat :=
  fold_right (λ s n, Nat.max (depth s) n) 0%nat steps.

(** [DAGExecutor.execute]: exceptions become an unsuccessful result; a cancellation of the
    whole workflow is passed on. *)
Definition dag_execute (steps : list WorkflowStep) : result WExn (WorkflowResult * list TEvent) :=
  let st0 := mk_x [] [] 0%nat in
  let '(r, st) :=
    match sorted_levels_of steps with
    | Err e => (Err e, st0)
    | Ok levels => run_level_list (execute_dag_step (max_depth steps)) levels st0
    end in
  match r with
  | Ok _ => Ok (mk_result (x_outputs st) true None, x_timeline st)
  | Err e =>
      if caught e then Ok (mk_result (x_outputs st) false (Some e), x_timeline st) else Err e
  end.
End Exec.
End WorkflowExec.

(** * Execution of workflow DAGs: termination, order, retry

    - [execute_terminates]: the nesting depth is enough fuel, so [dag_execute]
      always returns (the recursion over sub-steps goes through a topological
      sort, which is not structural);
    - [execute_tasks]: a validated workflow of tasks runs every step exactly
      once, after all its dependencies, and stores one output per step;
    - [dag_retry_reraises]: a retry node whose second attempt succeeds still
      fails the workflow. *)

Module WorkflowExecSpec.
Import WorkflowDag WorkflowDagCycle WorkflowDagSort WorkflowExec.

(** ** The sorted levels consist of the given steps *)

Lemma step_map_elem steps k s : step_map steps !! k = Some s → s ∈ steps.
Proof.
  unfold step_map. rewrite (foldl_insert_lookup (λ s, s)).
  destruct (last _) as [s'|] eqn:E; [|done]. intros [= <-].
  apply last_Some_elem_of in E. by apply list_elem_of_filter in E as [_ E].
Qed.

Lemma run_level_elem n steps g st st' :
  run_level n steps g st = Ok st' → level st ⊆ steps → level st' ⊆ steps.
Proof.
  revert st. induction n as [|n IH]; intros st; simpl; [by intros [= <-]|].
  destruct (queue st) as [|i q]; [by intros [= <-]|].
  unfold visit. simpl. case_decide; [intros Hr Hl; by eapply IH|].
  destruct (step_map steps !! i) as [s|] eqn:E; [|done].
  destruct (release _ _ _) as [[ind' q']|]; [|done]. intros Hr Hl. eapply IH; [exact Hr|].
  simpl. intros x [Hx|Hx]%elem_of_app; [by apply Hl|].
  apply list_elem_of_singleton in Hx as ->. by eapply step_map_elem.
Qed.

Lemma run_levels_elem fuel steps g st levels levels' vis :
  run_levels fuel steps g st levels = Ok (levels', vis) →
  concat levels ⊆ steps → concat levels' ⊆ steps.
Proof.
  revert st levels. induction fuel as [|fuel IH]; intros st levels; simpl; [done|].
  destruct (queue st) as [|i q] eqn:Eq; [by intros [= <- _]|].
  destruct (run_level _ _ _ _) as [st'|] eqn:El; [|done].
  intros H Hl. eapply IH; [exact H|]. apply run_level_elem in El; [|simpl; set_solver].
  destruct (level st'); [done|]. rewrite concat_app. simpl. rewrite app_nil_r. set_solver.
Qed.

Lemma map_steps_elem steps ids l :
  map_steps (step_map steps) ids = Ok l → l ⊆ steps.
Proof.
  revert l. induction ids as [|i ids IH]; intros l; simpl; [intros [= <-]; set_solver|].
  destruct (step_map steps !! i) as [s|] eqn:E; [|done].
  destruct (map_steps _ ids) as [l'|]; [|done]. intros [= <-].
  specialize (IH _ eq_refl). apply step_map_elem in E. set_solver.
Qed.

Lemma topological_sort_elem steps levels :
  topological_sort steps = Ok levels → concat levels ⊆ steps.
Proof.
  unfold topological_sort. destruct (build_graph steps) as [ind g].
  destruct (run_levels _ _ _ _ _) as [[ls vis]|] eqn:E; [|done].
  apply run_levels_elem in E; [|simpl; set_solver].
  destruct (filter _ _) as [|x l] eqn:Ef; [by intros [= <-]|].
  destruct (map_steps _ _) as [l'|] eqn:Em; [|done]. intros [= <-].
  apply map_steps_elem in Em. rewrite concat_app. simpl. rewrite app_nil_r. set_solver.
Qed.

Lemma sorted_levels_elem steps levels :
  sorted_levels_of steps = Ok levels → concat levels ⊆ steps.
Proof.
  unfold sorted_levels_of, WorkflowDAG. destruct (validate steps); [|done].
  destruct (topological_sort steps) eqn:E; [|done]. intros [= <-].
  by apply topological_sort_elem.
Qed.

(** ** Termination *)

Section Exec.
Context (known_agent : string → bool) (run_agent : nat → WorkflowStep → TaskOutcome).
Context (run_sleep : nat → SleepOutcome).
Context (eval_condition : string → bool) (exn_str : WExn → string).

Abbreviation step_fun := (WorkflowStep → xstate → result WExn (option Value) * xstate).
Abbreviation exec := (execute_dag_step known_agent run_agent run_sleep eval_condition exn_str).

Definition safe (rec : step_fun) (s : WorkflowStep) : Prop := ∀ st, (rec s st).1 ≠ Err EFuel.

Lemma gather_safe rec steps st :
  (∀ s, s ∈ steps → safe rec s) → (gather rec steps st).1 ≠ Err EFuel.
Proof.
  revert st. induction steps as [|s rest IH]; intros st H; simpl; [done|].
  assert (safe rec s) as Hs by (apply H; set_solver).
  specialize (Hs st). destruct (rec s st) as [r st1]; simpl in Hs.
  specialize (IH st1). destruct (gather rec rest st1) as [rs st2]; simpl in IH.
  assert (rs ≠ Err EFuel) by (apply IH; intros; apply H; set_solver).
  destruct r as [v|[]]; try done; destruct rs as [|[]]; done.
Qed.

Lemma gather_store_safe rec steps st :
  (∀ s, s ∈ steps → safe rec s) → (gather_store exn_str rec steps st).1 ≠ Err EFuel.
Proof.
  intros H. apply (gather_safe rec steps st) in H. unfold gather_store.
  by destruct (gather rec steps st) as [[rs|[]] st'].
Qed.

Lemma run_one_level_safe rec lv st :
  (∀ s, s ∈ lv → safe rec s) → (run_one_level exn_str rec lv st).1 ≠ Err EFuel.
Proof.
  intros H. unfold run_one_level. destruct lv as [|s [|s' lv]]; try by apply gather_store_safe.
  assert (safe rec s) as Hs by (apply H; set_solver). specialize (Hs st).
  by destruct (rec s st) as [[v|[]] st'].
Qed.

Lemma run_level_list_safe rec levels st :
  (∀ s, s ∈ concat levels → safe rec s) → (run_level_list exn_str rec levels st).1 ≠ Err EFuel.
Proof.
  revert st. induction levels as [|lv rest IH]; intros st H; simpl; [done|].
  pose proof (run_one_level_safe rec lv st) as Hl.
  destruct (run_one_level exn_str rec lv st) as [[u|e] st']; simpl in Hl.
  - apply IH. intros. apply H. simpl. set_solver.
  - apply Hl. intros. apply H. simpl. set_solver.
Qed.

Lemma run_sequence_safe rec steps st :
  (∀ s, s ∈ steps → safe rec s) → (run_sequence rec steps st).1 ≠ Err EFuel.
Proof.
  revert st. induction steps as [|s rest IH]; intros st H; simpl; [done|].
  assert (safe rec s) as Hs by (apply H; set_solver). specialize (Hs st).
  destruct (rec s st) as [[v|e] st']; simpl in *; [|by destruct e].
  apply IH. intros. apply H. set_solver.
Qed.

Lemma sorted_levels_no_fuel subs : sorted_levels_of subs ≠ Err EFuel.
Proof.
  unfold sorted_levels_of. destruct (WorkflowDAG subs) as [l|]; [|done].
  by destruct (topological_sort l).
Qed.

Lemma run_substeps_safe rec subs st :
  (∀ s, s ∈ subs → safe rec s) → (run_substeps rec subs st).1 ≠ Err EFuel.
Proof.
  intros H. unfold run_substeps. destruct subs as [|s0 subs]; [done|].
  pose proof (sorted_levels_no_fuel (s0 :: subs)).
  destruct (sorted_levels_of (s0 :: subs)) as [levels|e] eqn:E; [|simpl; congruence].
  apply run_sequence_safe. intros s Hs. apply H. by apply (sorted_levels_elem _ _ E).
Qed.

Lemma retry_attempts_safe rec subs n last st :
  (∀ s, s ∈ subs → safe rec s) → last ≠ Some EFuel →
  (retry_attempts run_sleep rec subs n last st).1 ≠ Err EFuel.
Proof.
  intros H. revert last st. induction n as [|n IH]; intros last st Hl; simpl.
  { destruct last; [simpl; congruence|done]. }
  pose proof (run_substeps_safe rec subs st H) as Hs.
  destruct (run_substeps rec subs st) as [[u|e] st']; simpl in Hs.
  - destruct last; [simpl; congruence|done].
  - destruct (caught e) eqn:Ec; [|simpl; intros [= ->]; done].
    assert (Some e ≠ Some EFuel) as He by congruence.
    destruct n as [|n']; [by apply IH|]. destruct (run_sleep _); [by apply IH|done].
Qed.

Lemma run_node_safe rec s st :
  (∀ s', s' ∈ substeps s → safe rec s') →
  (run_node known_agent run_agent run_sleep eval_condition exn_str rec s st).1 ≠ Err EFuel.
Proof.
  intros H.
  assert ((execute_task known_agent run_agent s st).1 ≠ Err EFuel) as Ht.
  { unfold execute_task. destruct (known_agent _); [|done]. by destruct (run_agent _ _). }
  unfold run_node. destruct (type s); try exact Ht; try done;
    try (unfold sleep_for; by destruct (run_sleep (x_calls st))).
  - pose proof (gather_store_safe rec (substeps s) st H).
    by destruct (gather_store exn_str rec (substeps s) st) as [[|[]] ?].
  - by apply retry_attempts_safe.
  - pose proof (run_substeps_safe rec (substeps s) st H).
    by destruct (run_substeps rec (substeps s) st) as [[|[]] ?].
  - destruct (evaluate_condition _ _); [|done].
    destruct (substeps s) as [|s0 subs]; [done|].
    pose proof (sorted_levels_no_fuel (s0 :: subs)).
    destruct (sorted_levels_of (s0 :: subs)) as [levels|e] eqn:E; [|simpl; congruence].
    pose proof (run_level_list_safe rec levels st) as Hl.
    destruct (run_level_list exn_str rec levels st) as [[u|e] st']; [done|].
    simpl in *. intros [= ->]. apply Hl; [|done].
    intros s' Hs'. apply H. by apply (sorted_levels_elem _ _ E).
Qed.

Lemma max_depth_le s steps : s ∈ steps → (depth s <= max_depth steps)%nat.
Proof.
  unfold max_depth. induction steps as [|x steps IH]; intros Hs; [by apply elem_of_nil in Hs|].
  simpl. apply elem_of_cons in Hs as [->|Hs]; [lia|]. specialize (IH Hs). lia.
Qed.

Lemma depth_unfold s : depth s = S (max_depth (substeps s)).
Proof. by destruct s. Qed.

Lemma exec_safe fuel s : (depth s <= fuel)%nat → safe (exec fuel) s.
Proof.
  revert s. induction fuel as [|fuel IH]; intros s Hd st; rewrite depth_unfold in Hd; [lia|].
  cbn [execute_dag_step].
  pose proof (run_node_safe (exec fuel) s (log_event (Started (id s)) st)) as Hn.
  destruct (run_node _ _ _ _ _ (exec fuel) s _) as [r st']. simpl in *. apply Hn.
  intros s' Hs'. apply IH. pose proof (max_depth_le s' _ Hs'). lia.
Qed.

(** The recursion over the sub-steps is bounded: when every agent and every
    sleep comes back, the nesting depth of the steps is enough fuel, so
    [dag_execute] returns a result or is cancelled from outside. *)
Theorem execute_terminates (steps : list WorkflowStep) :
  (∃ r tl, dag_execute known_agent run_agent run_sleep eval_condition exn_str steps = Ok (r, tl)) ∨
  dag_execute known_agent run_agent run_sleep eval_condition exn_str steps = Err ECancelled.
Proof.
  unfold dag_execute. pose proof (sorted_levels_no_fuel steps) as Hf.
  destruct (sorted_levels_of steps) as [levels|e] eqn:E.
  - pose proof (run_level_list_safe (exec (max_depth steps)) levels (mk_x [] [] 0%nat)) as Hl.
    destruct (run_level_list _ _ levels _) as [[u|e] st]; simpl in *; [left; eauto|].
    assert (Err e ≠ Err (A := unit) EFuel) as Hne.
    { apply Hl. intros s Hs. apply exec_safe, max_depth_le. by apply (sorted_levels_elem _ _ E). }
    destruct e; simpl; eauto. done.
  - destruct e; simpl; eauto. done.
Qed.

(** ** Workflows of tasks *)

Definition events (s : WorkflowStep) : list TEvent := [Started (id s); Finished (id s)].

Definition answers (rec : step_fun) (s : WorkflowStep) : Prop :=
  ∀ st, ∃ c n, rec s st
    = (Ok (Some (VStr c)), mk_x (x_outputs st) (x_timeline st ++ events s) n).

(** [st'] is [st] after the steps [l]: their events, and an output for each. *)
Definition ran (l : list WorkflowStep) (st st' : xstate) : Prop :=
  x_timeline st' = x_timeline st ++ concat (events <$> l) ∧
  ∀ k, is_Some (dict_get k (x_outputs st')) ↔ is_Some (dict_get k (x_outputs st)) ∨ k ∈ id <$> l.

Lemma put_ran s v st n :
  ran [s] st (put_output (id s) v (mk_x (x_outputs st) (x_timeline st ++ events s) n)).
Proof.
  split; [done|]. intros k. simpl. rewrite dict_get_set, list_elem_of_singleton.
  destruct (decide (id s = k)); naive_solver.
Qed.

Lemma ran_app l1 l2 st1 st2 st3 : ran l1 st1 st2 → ran l2 st2 st3 → ran (l1 ++ l2) st1 st3.
Proof.
  intros [Ht1 Ho1] [Ht2 Ho2]. split.
  - by rewrite Ht2, Ht1, fmap_app, concat_app, app_assoc.
  - intros k. rewrite Ho2, Ho1, fmap_app, elem_of_app. naive_solver.
Qed.

Lemma gather_answers rec lv st :
  Forall (answers rec) lv →
  ∃ cs n, length cs = length lv ∧
    gather rec lv st = (Ok ((λ c, Ok (Some (VStr c))) <$> cs),
      mk_x (x_outputs st) (x_timeline st ++ concat (events <$> lv)) n).
Proof.
  intros H. revert st. induction H as [|s lv Hs Hl IH]; intros st; simpl.
  { exists [], (x_calls st). destruct st; simpl. by rewrite app_nil_r. }
  destruct (Hs st) as (c & n & ->). destruct (IH (mk_x (x_outputs st) (x_timeline st ++ events s) n))
    as (cs & n' & Hlen & ->).
  exists (c :: cs), n'. split; [simpl; lia|]. simpl. by rewrite <- app_assoc.
Qed.

Lemma store_answers lv cs st :
  length cs = length lv →
  x_timeline (store_results exn_str lv ((λ c, Ok (Some (VStr c))) <$> cs) st) = x_timeline st ∧
  ∀ k, is_Some (dict_get k (x_outputs (store_results exn_str lv ((λ c, Ok (Some (VStr c))) <$> cs) st)))
    ↔ is_Some (dict_get k (x_outputs st)) ∨ k ∈ id <$> lv.
Proof.
  revert cs st. induction lv as [|s lv IH]; intros [|c cs] st Hl; try done.
  { split; [done|]. intros k. simpl. rewrite elem_of_nil. naive_solver. }
  simpl in Hl. destruct (IH cs (put_output (id s) (VStr c) st)) as [Ht Ho]; [lia|].
  csimpl. split; [done|]. intros k. rewrite Ho. simpl. rewrite dict_get_set, elem_of_cons.
  destruct (decide (id s = k)); naive_solver.
Qed.

Lemma run_one_level_ran rec lv st :
  Forall (answers rec) lv →
  ∃ st', run_one_level exn_str rec lv st = (Ok tt, st') ∧ ran lv st st'.
Proof.
  intros H. assert (∃ st', gather_store exn_str rec lv st = (Ok tt, st') ∧ ran lv st st') as Hg.
  { unfold gather_store. destruct (gather_answers rec lv st H) as (cs & n & Hlen & ->).
    eexists. split; [done|]. destruct (store_answers lv cs
      (mk_x (x_outputs st) (x_timeline st ++ concat (events <$> lv)) n) Hlen) as [Ht Ho].
    split; [by rewrite Ht|done]. }
  unfold run_one_level. destruct lv as [|s [|s' lv]]; try done.
  apply Forall_inv in H. destruct (H st) as (c & n & ->). eexists. split; [done|]. apply put_ran.
Qed.

Lemma run_level_list_ran rec levels st :
  Forall (answers rec) (concat levels) →
  ∃ st', run_level_list exn_str rec levels st = (Ok tt, st') ∧ ran (concat levels) st st'.
Proof.
  revert st. induction levels as [|lv rest IH]; intros st H; simpl.
  { exists st. split; [done|]. split; [by rewrite app_nil_r|]. intros k. rewrite elem_of_nil. naive_solver. }
  simpl in H. apply Forall_app in H as [Hlv Hrest].
  destruct (run_one_level_ran rec lv st Hlv) as (st1 & -> & H1).
  destruct (IH st1 Hrest) as (st2 & -> & H2). exists st2. split; [done|]. by eapply ran_app.
Qed.

Lemma task_answers fuel s :
  type s = TASK → (∀ n s, ∃ c, run_agent n s = Content c) → answers (exec (S fuel)) s.
Proof.
  intros Ht Ha st. cbn [execute_dag_step]. unfold run_node. rewrite Ht. unfold execute_task.
  destruct (known_agent _); simpl.
  - destruct (Ha (x_calls st) s) as [c ->]. exists c. eexists. unfold log_event; simpl.
    by rewrite <- app_assoc.
  - exists "". eexists. unfold log_event; simpl. by rewrite <- app_assoc.
Qed.

Lemma layered_split steps levels i lv s d :
  layered steps levels → levels !! i = Some lv → s ∈ lv → depends steps d (id s) →
  ∃ l1 l2, concat levels = l1 ++ s :: l2 ∧ d ∈ id <$> l1.
Proof.
  intros Hlay Hi Hs Hd. destruct (Hlay i lv s d Hi Hs Hd) as (j & lv' & Hj & Hlv' & Hdj).
  apply list_elem_of_split in Hs as (a & b & ->).
  rewrite <- (take_drop_middle levels i _ Hi), concat_app. simpl.
  exists (concat (take i levels) ++ a), (b ++ concat (drop (S i) levels)). split.
  { by rewrite <- !app_assoc. }
  rewrite fmap_app, elem_of_app. left.
  apply list_elem_of_fmap in Hdj as (s' & -> & Hs'). apply list_elem_of_fmap_2.
  apply elem_of_concat. exists lv'. split; [done|].
  apply list_elem_of_lookup. exists j. rewrite lookup_take_lt; done.
Qed.

(** A validated workflow of tasks with distinct ids whose agents answer
    succeeds: every step runs exactly once, in an order in which each step
    comes after all the steps it depends on, and every step, and nothing else,
    has an output. *)
Theorem execute_tasks (steps : list WorkflowStep) :
  NoDup (id <$> steps) → validate steps = Ok tt → Forall (λ s, type s = TASK) steps →
  (∀ n s, ∃ c, run_agent n s = Content c) →
  ∃ outputs order,
    dag_execute known_agent run_agent run_sleep eval_condition exn_str steps
    = Ok (mk_result outputs true None, concat (events <$> order)) ∧
    order ≡ₚ steps ∧
    (∀ s d, s ∈ steps → depends steps d (id s) →
      ∃ l1 l2, order = l1 ++ s :: l2 ∧ d ∈ id <$> l1) ∧
    (∀ k, is_Some (dict_get k outputs) ↔ k ∈ id <$> steps).
Proof.
  intros Hids Hv Htask Hagents.
  destruct (topological_layers steps Hids Hv) as (levels & Hsort & Hperm & _ & Hlay & _).
  assert (Forall (answers (exec (max_depth steps))) (concat levels)) as Hans.
  { apply Forall_forall. intros s Hs. rewrite Hperm in Hs.
    pose proof (max_depth_le s steps Hs) as Hd. rewrite depth_unfold in Hd.
    destruct (max_depth steps) as [|f]; [lia|].
    apply task_answers; [|done]. by eapply Forall_forall in Htask. }
  destruct (run_level_list_ran _ levels (mk_x [] [] 0%nat) Hans) as (st & Hrun & Htl & Hout).
  exists (x_outputs st), (concat levels). split; [|split; [done|split]].
  - unfold dag_execute, sorted_levels_of, WorkflowDAG. rewrite Hv, Hsort, Hrun. simpl. by rewrite Htl.
  - intros s d Hs Hd. rewrite <- Hperm in Hs.
    apply elem_of_concat in Hs as (lv & Hs & Hlv).
    apply list_elem_of_lookup in Hlv as [i Hi]. by eapply layered_split.
  - intros k. rewrite Hout, Hperm. simpl. split; [|by right]. intros [[? [=]]|?]; done.
Qed.
End Exec.

Lemma execute_tasks_witness :
  ∃ outputs order,
    dag_execute (λ _, true) (λ n s, Content (id s)) (λ _, SleepReturns) (λ _, true) (λ _, "") diamond
    = Ok (mk_result outputs true None, concat (events <$> order)) ∧
    order ≡ₚ diamond ∧ ∀ k, is_Some (dict_get k outputs) ↔ k ∈ id <$> diamond.
Proof.
  destruct (execute_tasks (λ _, true) (λ n s, Content (id s)) (λ _, SleepReturns) (λ _, true) (λ _, "") diamond)
    as (o & l & H1 & H2 & _ & H4).
  - apply (bool_decide_unpack _). vm_compute. exact I.
  - vm_compute. reflexivity.
  - repeat constructor.
  - intros n s. eexists. reflexivity.
  - exists o, l. split; [exact H1|]. split; [exact H2|exact H4].
Defined.

(** ** The retry node *)

Definition retry_step : WorkflowStep :=
  MkWorkflowStep "r" RETRY "" "" [] "" "" ""
    [MkWorkflowStep "a" TASK "chat" "" [] "" "" "" [] 0 fzero "" [] ""] 2 fzero "" [] "".

(** The agent fails once and answers when asked again. *)
Definition flaky (n : nat) (s : WorkflowStep) : TaskOutcome :=
  match n with O => AgentRaises "boom" | _ => Content "done" end.

(** A retry node does what its name says only when the first attempt succeeds:
    here the second attempt succeeds, its output is stored, and the workflow
    fails with the error of the first attempt. *)
Theorem dag_retry_reraises :
  dag_execute (λ _, true) flaky (λ _, SleepReturns) (λ _, true) (λ _, "") [retry_step]
  = Ok (mk_result [("a", VStr "done")] false (Some (EAgent "boom")),
        [Started "r"; Started "a"; Finished "a"; Started "a"; Finished "a"; Finished "r"]).
Proof. vm_compute. reflexivity. Qed.

(** A task whose agent is unknown leaves empty content and the workflow
    succeeds. *)
Theorem unknown_agent_succeeds :
  ∃ steps o tl, dag_execute (λ _, false) flaky (λ _, SleepReturns) (λ _, true) (λ _, "") steps = Ok (mk_result o true None, tl) ∧
    steps ≠ [] ∧ dict_get "a" o = Some (VStr "").
Proof.
  eexists [MkWorkflowStep "a" TASK "nobody" "" [] "" "" "" [] 0 fzero "" [] ""], _, _.
  split; [vm_compute; reflexivity|]. done.
Qed.
End WorkflowExecSpec.
