(* ===== verification/AuthModel.v ===== *)
(** * Authentication: data and repositories

    [src/app/auth/models.py], [exceptions.py], [config.py] and the in-memory
    repositories of [repository.py].  The repositories hand out the stored
    objects themselves; every method here that changes such an object writes it
    back under its id, so that a value per key is enough, as long as an object
    is stored under its own id ([keyed]), which every operation preserves.
    Free-form [metadata] is left out; metrics and log records are not kept. *)

From Stdlib Require Import ZArith Lia.
From Stdlib Require Import Ascii.
From stdpp Require Import base numbers strings gmap list.
From S2P Require Import Prelude PyFloat PyNum PyStr PyDict.


Module AuthModel.
Open Scope string_scope.
Open Scope Z_scope.

Inductive UserStatus := USER_ACTIVE | USER_SUSPENDED | USER_LOCKED | USER_DISABLED.

Instance UserStatus_eq_dec : EqDecision UserStatus.
Proof. solve_decision. Defined.

Record User := mk_user {
  u_id : string;
  u_username : string;
  u_email : string;
  u_password_hash : string;
  u_status : UserStatus;
  u_roles : list string;
  u_tenant : string;
  u_mfa_secret : string;
  u_failed_attempts : Z;
  u_locked_until : float;
  u_created_at : float;
  u_updated_at : float
}.

Record ProviderUser := mk_provider_user {
  pu_id : string;
  pu_username : string;
  pu_email : string;
  pu_roles : list string;
  pu_tenant : string
}.

Record Session := mk_session {
  s_id : string;
  s_user : string;
  s_tenant : string;
  s_device : string;
  s_created_at : float;
  s_last_active : float;
  s_expires_at : float;
  s_refresh_jti : string;
  s_revoked : bool
}.

Record TokenClaims := mk_claims {
  tc_sub : string;
  tc_tenant : string;
  tc_roles : list string;
  tc_type : string;
  tc_jti : string;
  tc_session : string;
  tc_iat : float;
  tc_exp : float
}.

Record TokenPair := mk_pair {
  access_token : string;
  refresh_token : string;
  access_jti : string;
  refresh_jti : string;
  expires_in : Z
}.

Record APIKey := mk_api_key {
  ak_id : string;
  ak_tenant : string;
  ak_name : string;
  ak_prefix : string;
  ak_hash : string;
  ak_scopes : list string;
  ak_user : string;
  ak_expires_at : float;
  ak_revoked : bool;
  ak_usage_count : Z;
  ak_last_used_at : float;
  ak_created_at : float
}.

Record ServiceAccount := mk_account {
  sa_id : string;
  sa_tenant : string;
  sa_name : string;
  sa_token_hash : string;
  sa_scopes : list string;
  sa_description : string;
  sa_expires_at : float;
  sa_revoked : bool;
  sa_usage_count : Z;
  sa_last_used_at : float;
  sa_created_at : float
}.

Record AuthConfig := mk_auth_config {
  access_token_ttl : Z;
  refresh_token_ttl : Z;
  max_key_history : Z;
  session_idle_timeout : Z;
  session_absolute_timeout : Z;
  max_concurrent_sessions : Z;
  evict_oldest_on_limit : bool;
  password_min_length : Z;
  password_hash_iterations : Z;
  max_login_attempts : Z;
  lockout_seconds : Z;
  mfa_enabled : bool;
  api_key_ttl_default : Z;
  service_account_ttl_default : Z;
  require_auth : bool;
  public_paths : list string
}.

Definition default_auth_config : AuthConfig :=
  mk_auth_config 900 604800 5 1800 86400 5 true 8 100000 5 300 false 2592000 2592000 true
    ["/health"; "/metrics"].

(** The classes of [exceptions.py]; [PyException] is any other exception
    (a [TypeError], [AttributeError], [ValueError], ...). *)
Inductive AuthExn :=
  | AuthenticationError (m : string)
  | InvalidCredentialsError (m : string)
  | AccountLockedError (locked_until : float)
  | AccountInactiveError (m : string)
  | InvalidTokenError (m : string)
  | TokenExpiredError (m : string)
  | TokenRevokedError (m : string)
  | SessionExpiredError (m : string)
  | SessionLimitError (m : string)
  | APIKeyError (m : string)
  | ServiceAccountError (m : string)
  | PermissionDeniedError (permission user_id : string)
  | AuthProviderNotFound (name : string)
  | PyException (m : string).

Instance AuthExn_eq_dec : EqDecision AuthExn.
Proof. solve_decision. Defined.

(** [if x and now > x], on a float that is 0 when there is no limit. *)
Definition past_limit (now limit : float) : bool := negb (is_fzero limit) && flt limit now.

(** ** Users *)

Abbreviation UserRepo := (dict string User).

Definition ur_create (u : User) : SE AuthExn UserRepo User := λ r,
  match dict_get (u_id u) r with
  | Some _ => (Err (InvalidCredentialsError "User already exists"), r)
  | None => (Ok u, dict_set (u_id u) u r)
  end.

Definition ur_get (uid : string) (r : UserRepo) : result AuthExn User :=
  match dict_get uid r with
  | Some u => Ok u
  | None => Err (InvalidCredentialsError "User not found")
  end.

Definition user_named (username tenant : string) (u : User) : bool :=
  bool_decide (u_username u = username)
  && (negb (truthy tenant) || bool_decide (u_tenant u = tenant)).

Definition ur_get_by_username (username tenant : string) (r : UserRepo) : result AuthExn User :=
  match List.find (user_named username tenant) (dict_values r) with
  | Some u => Ok u
  | None => Err (InvalidCredentialsError "User not found")
  end.

Definition user_touched (now : float) (u : User) : User :=
  mk_user (u_id u) (u_username u) (u_email u) (u_password_hash u) (u_status u) (u_roles u)
    (u_tenant u) (u_mfa_secret u) (u_failed_attempts u) (u_locked_until u) (u_created_at u) now.

Definition ur_update (now : float) (u : User) : SE AuthExn UserRepo User := λ r,
  match dict_get (u_id u) r with
  | None => (Err (InvalidCredentialsError "User not found"), r)
  | Some _ => (Ok (user_touched now u), dict_set (u_id u) (user_touched now u) r)
  end.

Definition ur_delete (uid : string) (r : UserRepo) : bool * UserRepo :=
  (dict_mem uid r, dict_pop uid r).

Definition ur_list (tenant : string) (r : UserRepo) : list User :=
  let users := dict_values r in
  let users :=
    if truthy tenant then List.filter (λ u, bool_decide (u_tenant u = tenant)) users else users in
  py_sorted (λ a b, flt (u_created_at a) (u_created_at b)) users.

(** ** Sessions *)

Abbreviation SessionRepo := (dict string Session).

Definition sr_create (s : Session) (r : SessionRepo) : SessionRepo := dict_set (s_id s) s r.

Definition sr_get (sid : string) (r : SessionRepo) : option Session := dict_get sid r.

Definition active_for (uid : string) (s : Session) : bool :=
  bool_decide (s_user s = uid) && negb (s_revoked s).

Definition sr_list_for_user (uid : string) (r : SessionRepo) : list Session :=
  List.filter (active_for uid) (dict_values r).

Definition sr_list_all (r : SessionRepo) : list Session := dict_values r.

(** An unknown session is not stored. *)
Definition sr_update (s : Session) (r : SessionRepo) : SessionRepo :=
  if dict_mem (s_id s) r then dict_set (s_id s) s r else r.

Definition sr_delete (sid : string) (r : SessionRepo) : bool * SessionRepo :=
  (dict_mem sid r, dict_pop sid r).

Definition sr_delete_for_user (uid : string) (r : SessionRepo) : Z * SessionRepo :=
  let ids := (List.filter (λ p : string * Session, bool_decide (s_user p.2 = uid)) r).*1 in
  (zlen ids, foldl (λ r sid, dict_pop sid r) r ids).

Definition sr_count_active (uid : string) (r : SessionRepo) : Z :=
  zlen (List.filter (active_for uid) (dict_values r)).

(** ** API keys *)

Abbreviation KeyRepo := (dict string APIKey).

Definition kr_create (k : APIKey) (r : KeyRepo) : KeyRepo := dict_set (ak_id k) k r.
Definition kr_get (id : string) (r : KeyRepo) : option APIKey := dict_get id r.
Definition kr_get_by_hash (h : string) (r : KeyRepo) : option APIKey :=
  List.find (λ k, bool_decide (ak_hash k = h)) (dict_values r).
Definition kr_list_for_tenant (tenant : string) (r : KeyRepo) : list APIKey :=
  List.filter (λ k, bool_decide (ak_tenant k = tenant)) (dict_values r).
Definition kr_list_all (r : KeyRepo) : list APIKey := dict_values r.
Definition kr_update (k : APIKey) (r : KeyRepo) : KeyRepo := dict_set (ak_id k) k r.
Definition kr_delete (id : string) (r : KeyRepo) : bool * KeyRepo := (dict_mem id r, dict_pop id r).

(** ** Service accounts *)

Abbreviation AccountRepo := (dict string ServiceAccount).

Definition ar_create (a : ServiceAccount) (r : AccountRepo) : AccountRepo := dict_set (sa_id a) a r.
Definition ar_get (id : string) (r : AccountRepo) : option ServiceAccount := dict_get id r.
Definition ar_get_by_token_hash (h : string) (r : AccountRepo) : option ServiceAccount :=
  List.find (λ a, bool_decide (sa_token_hash a = h)) (dict_values r).
Definition ar_list_for_tenant (tenant : string) (r : AccountRepo) : list ServiceAccount :=
  List.filter (λ a, bool_decide (sa_tenant a = tenant)) (dict_values r).
Definition ar_list_all (r : AccountRepo) : list ServiceAccount := dict_values r.
Definition ar_update (a : ServiceAccount) (r : AccountRepo) : AccountRepo := dict_set (sa_id a) a r.
Definition ar_delete (id : string) (r : AccountRepo) : bool * AccountRepo :=
  (dict_mem id r, dict_pop id r).

End AuthModel.

(** * Authentication: roles and permissions

    [PermissionPolicy] and [Principal] of [src/app/auth/rbac.py].  A set of
    permissions is a list, used only through membership. *)

Module AuthPolicy.
Import AuthModel.
Open Scope string_scope.

Record AuthPrincipal := mk_principal {
  p_user : string;
  p_tenant : string;
  p_roles : list string;
  p_scopes : list string;
  p_method : string;
  p_username : string;
  p_service : bool
}.

Definition from_user (u : User) (method : string) : AuthPrincipal :=
  mk_principal (u_id u) (u_tenant u) (u_roles u) [] method (u_username u) false.

Definition is_admin (p : AuthPrincipal) : bool := bool_decide ("admin" ∈ p_roles p).

Record PermissionPolicy := mk_policy {
  pol_roles : dict string (list string);
  pol_deny : list string
}.

Definition DEFAULT_ROLES : dict string (list string) :=
  [("admin", ["*"]);
   ("operator", ["read:*"; "write:*"; "manage:keys"; "manage:sa"; "manage:sessions"]);
   ("viewer", ["read:*"]);
   ("billing", ["read:*"; "billing:manage"])].

(** [PermissionPolicy(roles, deny)]: no roles, or an empty table, mean the
    default ones. *)
Definition new_policy (roles : option (dict string (list string))) (deny : option (list string))
    : PermissionPolicy :=
  mk_policy (match roles with Some ((_ :: _) as r) => r | _ => DEFAULT_ROLES end) (default [] deny).

Definition register_role (name : string) (permissions : list string) (pol : PermissionPolicy)
    : PermissionPolicy :=
  mk_policy (dict_set name permissions (pol_roles pol)) (pol_deny pol).

Definition permissions_for (roles : list string) (pol : PermissionPolicy) : list string :=
  foldl (λ merged role, (merged ++ default [] (dict_get role (pol_roles pol)))%list) [] roles.

Definition namespace_of (permission : string) : string := (partition ":" permission).1.

Definition policy_check (pol : PermissionPolicy) (p : AuthPrincipal) (permission : string)
    (tenant_id : option string) : bool :=
  if truthy (p_tenant p) && truthy (default "" tenant_id)
     && negb (bool_decide (p_tenant p = default "" tenant_id)) then false
  else if bool_decide (permission ∈ pol_deny pol) then false
  else
    let permissions := permissions_for (p_roles p) pol in
    if bool_decide ("*" ∈ permissions) then true
    else if bool_decide (permission ∈ permissions) then true
    else bool_decide (namespace_of permission +:+ ":*" ∈ permissions).

Definition enforce (pol : PermissionPolicy) (p : AuthPrincipal) (permission : string)
    (tenant_id : option string) : result AuthExn unit :=
  if policy_check pol p permission tenant_id then Ok tt
  else Err (PermissionDeniedError permission (p_user p)).

Definition scopes_allow (p : AuthPrincipal) (permission : string) : bool :=
  bool_decide ("*" ∈ p_scopes p) || bool_decide (permission ∈ p_scopes p).

(** ** The meaning of a policy *)

(** A granted permission allows itself, everything when it is [*], and the
    whole name space [ns] when it is [ns:*]. *)
Definition allows (granted permission : string) : Prop :=
  granted = "*" ∨ granted = permission ∨ granted = namespace_of permission +:+ ":*".

Definition same_tenant (p : AuthPrincipal) (tenant_id : option string) : Prop :=
  p_tenant p = "" ∨ default "" tenant_id = "" ∨ tenant_id = Some (p_tenant p).

Lemma permissions_for_app roles pol acc :
  foldl (λ merged role, (merged ++ default [] (dict_get role (pol_roles pol)))%list) acc roles
  = (acc ++ permissions_for roles pol)%list.
Proof.
  unfold permissions_for. revert acc. induction roles as [|r rs IH]; intros acc; simpl.
  { by rewrite app_nil_r. }
  rewrite IH. rewrite (IH (default _ _)). by rewrite app_assoc.
Qed.

Lemma elem_of_permissions_for x roles pol :
  x ∈ permissions_for roles pol ↔
  ∃ role ps, role ∈ roles ∧ dict_get role (pol_roles pol) = Some ps ∧ x ∈ ps.
Proof.
  induction roles as [|r rs IH].
  { split; [intros H; by apply elem_of_nil in H|]. intros (? & ? & H & _). by apply elem_of_nil in H. }
  unfold permissions_for. simpl. rewrite permissions_for_app, elem_of_app, IH. split.
  - intros [H|(role & ps & Hr & Hps)].
    + destruct (dict_get r (pol_roles pol)) as [ps|] eqn:E; simpl in H; [|by apply elem_of_nil in H].
      exists r, ps. split; [by left|done].
    + exists role, ps. split; [by right|done].
  - intros (role & ps & [->|Hr]%elem_of_cons & Hps & Hx); [left; by rewrite Hps|right; eauto 6].
Qed.

Lemma truthy_false_iff s : truthy s = false ↔ s = "".
Proof. by destruct s. Qed.

Lemma tenant_guard p t :
  truthy (p_tenant p) && truthy (default "" t) && negb (bool_decide (p_tenant p = default "" t)) = false
  ↔ same_tenant p t.
Proof.
  unfold same_tenant. rewrite !andb_false_iff, negb_false_iff, bool_decide_eq_true, !truthy_false_iff.
  destruct t as [t|]; simpl; naive_solver.
Qed.

(** The policy decides exactly its meaning: a permission is granted when the
    principal's tenant does not differ from the requested one, the permission
    is not denied, and one of the principal's roles has a permission that
    allows it.  A denial wins over every role, [*] included. *)
Theorem policy_check_correct (pol : PermissionPolicy) (p : AuthPrincipal) (permission : string)
    (tenant_id : option string) :
  policy_check pol p permission tenant_id = true ↔
  same_tenant p tenant_id ∧ permission ∉ pol_deny pol ∧
  ∃ role ps granted, role ∈ p_roles p ∧ dict_get role (pol_roles pol) = Some ps ∧
    granted ∈ ps ∧ allows granted permission.
Proof.
  unfold policy_check. rewrite <- tenant_guard.
  destruct (_ && negb _); [naive_solver|].
  case_bool_decide as Hd; [naive_solver|].
  transitivity (∃ g, g ∈ permissions_for (p_roles p) pol ∧ allows g permission).
  - unfold allows. repeat case_bool_decide; try naive_solver.
  - setoid_rewrite elem_of_permissions_for. naive_solver.
Qed.

(** The default roles: a viewer may read everything and write nothing. *)
Example viewer_default :
  policy_check (new_policy None None) (mk_principal "u" "t" ["viewer"] [] "token" "" false) "read:models" None = true ∧
  policy_check (new_policy None None) (mk_principal "u" "t" ["viewer"] [] "token" "" false) "write:models" None = false ∧
  policy_check (new_policy None (Some ["admin:wipe"])) (mk_principal "u" "t" ["admin"] [] "token" "" false) "admin:wipe" None = false.
Proof. vm_compute. done. Qed.
End AuthPolicy.
