(* ===== verification/OrgModel.v ===== *)
(** * Organisations: data and repositories

    [src/app/organization/models.py], [exceptions.py], [config.py], the
    in-memory repositories of [repository.py], the access guard of [access.py]
    and the event counters of [statistics.py].

    The repositories hand out the stored objects; an assignment to a field of
    an object is an assignment in its repository, since an object is stored
    under its own id.  Free-form [metadata] is left out. *)

From Stdlib Require Import ZArith Lia Ascii.
From stdpp Require Import base numbers strings gmap list.
From S2P Require Import Prelude PyFloat PyNum PyStr PyDict AuthModel.

Module OrgModel.
Import AuthPolicy.
Open Scope string_scope.
Open Scope Z_scope.

(** ** Data *)

Inductive OrganizationStatus := ORG_ACTIVE | ORG_ARCHIVED | ORG_SUSPENDED.
Inductive WorkspaceStatus := WS_ACTIVE | WS_ARCHIVED.
Inductive MemberRole := ROLE_OWNER | ROLE_ADMIN | ROLE_MEMBER | ROLE_VIEWER.
Inductive MemberStatus := MEMBER_ACTIVE | MEMBER_SUSPENDED | MEMBER_INVITED.
Inductive InvitationStatus := INVITE_PENDING | INVITE_ACCEPTED | INVITE_REVOKED | INVITE_EXPIRED.

#[export] Instance OrganizationStatus_eq_dec : EqDecision OrganizationStatus.
Proof. solve_decision. Defined.
#[export] Instance WorkspaceStatus_eq_dec : EqDecision WorkspaceStatus.
Proof. solve_decision. Defined.
#[export] Instance MemberRole_eq_dec : EqDecision MemberRole.
Proof. solve_decision. Defined.
#[export] Instance MemberStatus_eq_dec : EqDecision MemberStatus.
Proof. solve_decision. Defined.
#[export] Instance InvitationStatus_eq_dec : EqDecision InvitationStatus.
Proof. solve_decision. Defined.

Definition org_status_value (s : OrganizationStatus) : string :=
  match s with ORG_ACTIVE => "active" | ORG_ARCHIVED => "archived" | ORG_SUSPENDED => "suspended" end.

Definition role_value (r : MemberRole) : string :=
  match r with ROLE_OWNER => "owner" | ROLE_ADMIN => "admin" | ROLE_MEMBER => "member" | ROLE_VIEWER => "viewer" end.

Definition invite_status_value (s : InvitationStatus) : string :=
  match s with
  | INVITE_PENDING => "pending" | INVITE_ACCEPTED => "accepted"
  | INVITE_REVOKED => "revoked" | INVITE_EXPIRED => "expired"
  end.

Record Organization := mk_org {
  o_id : string;
  o_tenant : string;
  o_name : string;
  o_slug : string;
  o_owner : string;
  o_description : string;
  o_plan : string;
  o_status : OrganizationStatus;
  o_created_at : float;
  o_updated_at : float
}.

Record Workspace := mk_ws {
  ws_id : string;
  ws_org : string;
  ws_tenant : string;
  ws_name : string;
  ws_slug : string;
  ws_owner : string;
  ws_description : string;
  ws_status : WorkspaceStatus;
  ws_created_at : float;
  ws_updated_at : float
}.

Record Team := mk_team {
  tm_id : string;
  tm_org : string;
  tm_tenant : string;
  tm_name : string;
  tm_description : string;
  tm_created_at : float;
  tm_updated_at : float
}.

(** No code of the package assigns [team_ids]: it is left out. *)
Record Member := mk_member {
  mb_id : string;
  mb_org : string;
  mb_tenant : string;
  mb_user : string;
  mb_role : MemberRole;
  mb_status : MemberStatus;
  mb_created_at : float;
  mb_updated_at : float
}.

Record Project := mk_project {
  pj_id : string;
  pj_ws : string;
  pj_org : string;
  pj_tenant : string;
  pj_name : string;
  pj_description : string;
  pj_created_at : float;
  pj_updated_at : float
}.

Record Invitation := mk_invite {
  in_id : string;
  in_org : string;
  in_tenant : string;
  in_email : string;
  in_role : MemberRole;
  in_invited_by : string;
  in_token : string;
  in_status : InvitationStatus;
  in_expires_at : float;
  in_created_at : float;
  in_accepted_at : float;
  in_accepted_by : string
}.

Definition org_is_active (o : Organization) : bool := bool_decide (o_status o = ORG_ACTIVE).
Definition org_is_archived (o : Organization) : bool := bool_decide (o_status o = ORG_ARCHIVED).
Definition ws_is_active (w : Workspace) : bool := bool_decide (ws_status w = WS_ACTIVE).

(** [Invitation.is_expired] at the time [now]. *)
Definition invite_is_expired (now : float) (i : Invitation) : bool :=
  negb (is_fzero (in_expires_at i)) && flt (in_expires_at i) now.

(** *** Assignments to fields *)

Definition set_org_status (s : OrganizationStatus) (now : float) (o : Organization) : Organization :=
  mk_org (o_id o) (o_tenant o) (o_name o) (o_slug o) (o_owner o) (o_description o) (o_plan o) s (o_created_at o) now.
Definition set_org_owner (u : string) (now : float) (o : Organization) : Organization :=
  mk_org (o_id o) (o_tenant o) (o_name o) (o_slug o) u (o_description o) (o_plan o) (o_status o) (o_created_at o) now.
Definition set_org_updated (now : float) (o : Organization) : Organization :=
  set_org_status (o_status o) now o.

(** [setattr(organization, key, value)] for an allowed key. *)
Definition set_org_field (key value : string) (o : Organization) : Organization :=
  mk_org (o_id o) (o_tenant o) (if bool_decide (key = "name") then value else o_name o)
    (if bool_decide (key = "slug") then value else o_slug o) (o_owner o)
    (if bool_decide (key = "description") then value else o_description o)
    (if bool_decide (key = "plan") then value else o_plan o) (o_status o) (o_created_at o) (o_updated_at o).

Definition set_ws_status (s : WorkspaceStatus) (now : float) (w : Workspace) : Workspace :=
  mk_ws (ws_id w) (ws_org w) (ws_tenant w) (ws_name w) (ws_slug w) (ws_owner w) (ws_description w) s (ws_created_at w) now.
Definition set_ws_owner (u : string) (now : float) (w : Workspace) : Workspace :=
  mk_ws (ws_id w) (ws_org w) (ws_tenant w) (ws_name w) (ws_slug w) u (ws_description w) (ws_status w) (ws_created_at w) now.
Definition set_ws_updated (now : float) (w : Workspace) : Workspace := set_ws_status (ws_status w) now w.
Definition set_ws_field (key value : string) (w : Workspace) : Workspace :=
  mk_ws (ws_id w) (ws_org w) (ws_tenant w) (if bool_decide (key = "name") then value else ws_name w)
    (if bool_decide (key = "slug") then value else ws_slug w) (ws_owner w)
    (if bool_decide (key = "description") then value else ws_description w) (ws_status w)
    (ws_created_at w) (ws_updated_at w).

Definition set_team_field (key value : string) (x : Team) : Team :=
  mk_team (tm_id x) (tm_org x) (tm_tenant x) (if bool_decide (key = "name") then value else tm_name x)
    (if bool_decide (key = "description") then value else tm_description x) (tm_created_at x) (tm_updated_at x).
Definition set_team_updated (now : float) (x : Team) : Team :=
  mk_team (tm_id x) (tm_org x) (tm_tenant x) (tm_name x) (tm_description x) (tm_created_at x) now.

Definition set_project_field (key value : string) (p : Project) : Project :=
  mk_project (pj_id p) (pj_ws p) (pj_org p) (pj_tenant p) (if bool_decide (key = "name") then value else pj_name p)
    (if bool_decide (key = "description") then value else pj_description p) (pj_created_at p) (pj_updated_at p).
Definition set_project_updated (now : float) (p : Project) : Project :=
  mk_project (pj_id p) (pj_ws p) (pj_org p) (pj_tenant p) (pj_name p) (pj_description p) (pj_created_at p) now.

Definition with_role (r : MemberRole) (updated : float) (m : Member) : Member :=
  mk_member (mb_id m) (mb_org m) (mb_tenant m) (mb_user m) r (mb_status m) (mb_created_at m) updated.

Definition set_invite_status (s : InvitationStatus) (i : Invitation) : Invitation :=
  mk_invite (in_id i) (in_org i) (in_tenant i) (in_email i) (in_role i) (in_invited_by i) (in_token i) s
    (in_expires_at i) (in_created_at i) (in_accepted_at i) (in_accepted_by i).
Definition set_invite_accepted (now : float) (user : string) (i : Invitation) : Invitation :=
  mk_invite (in_id i) (in_org i) (in_tenant i) (in_email i) (in_role i) (in_invited_by i) (in_token i) INVITE_ACCEPTED
    (in_expires_at i) (in_created_at i) now user.

Record OrganizationConfig := mk_org_config {
  org_name_max_length : Z;
  org_slug_max_length : Z;
  workspace_name_max_length : Z;
  workspace_slug_max_length : Z;
  team_name_max_length : Z;
  project_name_max_length : Z;
  max_organizations_per_tenant : Z;
  max_workspaces_per_org : Z;
  max_teams_per_org : Z;
  max_members_per_org : Z;
  max_projects_per_workspace : Z;
  max_pending_invitations_per_org : Z;
  invitation_ttl_seconds : Z;
  org_track_metrics : bool
}.

Definition default_org_config : OrganizationConfig :=
  mk_org_config 80 64 80 64 60 80 50 100 200 500 500 50 (7 * 24 * 3600) true.

Inductive OrgExn :=
  | OrganizationNotFoundError (organization_id : string)
  | OrganizationAlreadyExistsError (slug : string)
  | OrganizationLimitError (tenant_id : string) (limit : Z)
  | OrganizationArchivedError (organization_id : string)
  | WorkspaceNotFoundError (workspace_id : string)
  | WorkspaceAlreadyExistsError (slug : string)
  | WorkspaceLimitError (organization_id : string) (limit : Z)
  | WorkspaceArchivedError (workspace_id : string)
  | TeamNotFoundError (team_id : string)
  | TeamLimitError (organization_id : string) (limit : Z)
  | MemberNotFoundError (organization_id user_id : string)
  | MemberAlreadyExistsError (organization_id user_id : string)
  | MemberLimitError (organization_id : string) (limit : Z)
  | MemberRoleError (message : string)
  | ProjectNotFoundError (project_id : string)
  | ProjectAlreadyExistsError (name workspace_id : string)
  | InvitationNotFoundError (token : string)
  | InvitationExpiredError (token : string)
  | InvitationAlreadyAcceptedError (token : string)
  | InvitationLimitError (organization_id : string) (limit : Z)
  | OwnershipTransferError (message : string)
  | IsolationError (message : string)
  | PermissionDenied (permission user_id : string)
  | OrgValueError (message : string).

(** ** Slugs *)

Definition slug_char (a : ascii) : bool :=
  is_digit a || ((97 <=? Ascii.nat_of_ascii a)%nat && (Ascii.nat_of_ascii a <=? 122)%nat).

Definition slug_dash : ascii := "-"%char.

(** [re.sub(r"[^a-z0-9]+", "-", s)]; [in_run] tells that the characters just
    read have been replaced. *)
Fixpoint dash_runs (in_run : bool) (s : string) : string :=
  match s with
  | EmptyString => EmptyString
  | String a r =>
      if slug_char a then String a (dash_runs false r)
      else if in_run then dash_runs true r else String slug_dash (dash_runs true r)
  end.

Fixpoint lstrip_dash (s : string) : string :=
  match s with
  | String a r => if Ascii.eqb a slug_dash then lstrip_dash r else s
  | EmptyString => EmptyString
  end.

Fixpoint rstrip_dash (s : string) : string :=
  match s with
  | String a r =>
      match rstrip_dash r with
      | EmptyString => if Ascii.eqb a slug_dash then EmptyString else String a EmptyString
      | r' => String a r'
      end
  | EmptyString => EmptyString
  end.

(** [s[:n]] *)
Definition str_take (n : Z) (s : string) : string :=
  String.substring 0 (Z.to_nat (if n <? 0 then Z.of_nat (String.length s) + n else n)) s.

Definition make_slug (name : string) (max_length : Z) : string :=
  let slug := rstrip_dash (lstrip_dash (dash_runs false (lower name))) in
  rstrip_dash (str_or (str_take max_length slug) "item").

(** [SLUG_PATTERN]: letters and digits, with dashes between them. *)
Fixpoint slug_rest (s : string) : bool :=
  match s with
  | EmptyString => true
  | String a EmptyString => slug_char a
  | String a r => (slug_char a || Ascii.eqb a slug_dash) && slug_rest r
  end.

Definition slug_pattern (s : string) : bool :=
  match s with String a r => slug_char a && slug_rest r | EmptyString => false end.

(** ** Repositories

    [BaseInMemoryRepository]: [create] and [update] store under the id, [delete]
    tells whether there was an item. *)

Definition repo_put {V} (key : V → string) (v : V) (r : dict string V) : dict string V := dict_set (key v) v r.

Definition repo_delete {V} (k : string) (r : dict string V) : bool * dict string V := (dict_mem k r, dict_pop k r).

(** The items that satisfy [P], oldest first. *)
Definition repo_list {V} (created : V → float) (P : V → bool) (r : dict string V) : list V :=
  py_sorted (λ a b, flt (created a) (created b)) (List.filter P (dict_values r)).

Definition org_by_slug (slug tenant : string) (r : dict string Organization) : option Organization :=
  List.find (λ o, bool_decide (o_slug o = slug) && bool_decide (o_tenant o = tenant)) (dict_values r).
Definition orgs_of_tenant (tenant : string) : dict string Organization → list Organization :=
  repo_list o_created_at (λ o, bool_decide (o_tenant o = tenant)).

Definition ws_by_slug (slug org : string) (r : dict string Workspace) : option Workspace :=
  List.find (λ w, bool_decide (ws_slug w = slug) && bool_decide (ws_org w = org)) (dict_values r).
Definition ws_of_org (org : string) : dict string Workspace → list Workspace :=
  repo_list ws_created_at (λ w, bool_decide (ws_org w = org)).
Definition ws_of_tenant (tenant : string) : dict string Workspace → list Workspace :=
  repo_list ws_created_at (λ w, bool_decide (ws_tenant w = tenant)).

Definition teams_of_org (org : string) : dict string Team → list Team :=
  repo_list tm_created_at (λ x, bool_decide (tm_org x = org)).

Definition member_by_user (org user : string) (r : dict string Member) : option Member :=
  List.find (λ m, bool_decide (mb_org m = org) && bool_decide (mb_user m = user)) (dict_values r).
Definition members_of_org (org : string) : dict string Member → list Member :=
  repo_list mb_created_at (λ m, bool_decide (mb_org m = org)).
Definition delete_members_of_org (org : string) (r : dict string Member) : Z * dict string Member :=
  let ids := (List.filter (λ p, bool_decide (mb_org p.2 = org)) r).*1 in
  (zlen ids, foldl (λ d k, dict_pop k d) r ids).

Definition project_by_name (ws name : string) (r : dict string Project) : option Project :=
  List.find (λ p, bool_decide (pj_ws p = ws) && bool_decide (pj_name p = name)) (dict_values r).
Definition projects_of_ws (ws : string) : dict string Project → list Project :=
  repo_list pj_created_at (λ p, bool_decide (pj_ws p = ws)).

Definition invite_by_token (token : string) (r : dict string Invitation) : option Invitation :=
  List.find (λ i, bool_decide (in_token i = token)) (dict_values r).
Definition invites_of_org (org status : string) (r : dict string Invitation) : list Invitation :=
  let items := List.filter (λ i, bool_decide (in_org i = org)) (dict_values r) in
  let items := if truthy status then List.filter (λ i, bool_decide (invite_status_value (in_status i) = status)) items
               else items in
  py_sorted (λ a b, flt (in_created_at a) (in_created_at b)) items.
Definition pending_count (org : string) (r : dict string Invitation) : Z := zlen (invites_of_org org "pending" r).

(** ** Access guard *)

Definition ORG_ROLE_PERMISSIONS : dict string (list string) :=
  [("owner", ["*"]);
   ("admin",
    ["org:view"; "org:update"; "org:manage_members"; "org:manage_teams"; "org:manage_invitations";
     "org:manage_workspaces"; "workspace:create"; "workspace:view"; "workspace:update"; "workspace:archive";
     "workspace:delete"; "workspace:clone"; "workspace:transfer"; "project:create"; "project:view";
     "project:update"; "project:delete"; "team:create"; "team:update"; "team:delete"; "team:view"]);
   ("member",
    ["org:view"; "workspace:view"; "workspace:create_project"; "project:create"; "project:view";
     "project:update"; "team:view"]);
   ("viewer", ["org:view"; "workspace:view"; "project:view"; "team:view"])].

Abbreviation RolePermissions := (dict string (list string)).

Definition VALID_MEMBER_ROLES : list string := role_value <$> [ROLE_OWNER; ROLE_ADMIN; ROLE_MEMBER; ROLE_VIEWER].

(** [validate_member_role], with the role [MemberRole(role)] it admits. *)
Definition validate_member_role (role : string) : result OrgExn MemberRole :=
  match List.find (λ r, bool_decide (role_value r = role)) [ROLE_OWNER; ROLE_ADMIN; ROLE_MEMBER; ROLE_VIEWER] with
  | Some r => Ok r
  | None => Err (MemberRoleError "Invalid member role")
  end.

Definition register_role_permissions (role : string) (permissions : list string) (g : RolePermissions) : RolePermissions :=
  dict_set role permissions g.

Definition permissions_for_role (g : RolePermissions) (role : string) : list string := default [] (dict_get role g).

Definition member_allowed (g : RolePermissions) (m : Member) (permission : string) : bool :=
  if negb (bool_decide (mb_status m = MEMBER_ACTIVE)) then false
  else
    let permissions := permissions_for_role g (role_value (mb_role m)) in
    if bool_decide ("*" ∈ permissions) then true
    else if bool_decide (permission ∈ permissions) then true
    else bool_decide ((namespace_of permission +:+ ":*") ∈ permissions).

Definition require_member (g : RolePermissions) (m : Member) (permission : string) : result OrgExn unit :=
  if negb (member_allowed g m permission) then Err (PermissionDenied permission (mb_user m)) else Ok tt.

Definition verify_principal (p : AuthPrincipal) (m : Member) : result OrgExn unit :=
  if truthy (p_tenant p) && truthy (mb_tenant m) && negb (bool_decide (p_tenant p = mb_tenant m))
  then Err (IsolationError "Principal tenant does not match member tenant")
  else if negb (bool_decide (p_user p = mb_user m)) then Err (PermissionDenied "org:access" (p_user p))
  else Ok tt.

Definition guard_require (g : RolePermissions) (p : AuthPrincipal) (m : Member) (permission : string)
    : result OrgExn unit :=
  match verify_principal p m with Ok _ => require_member g m permission | Err e => Err e end.

Definition assert_tenant (entity_tenant tenant : string) : result OrgExn unit :=
  if truthy entity_tenant && truthy tenant && negb (bool_decide (entity_tenant = tenant))
  then Err (IsolationError "Entity tenant does not match expected tenant") else Ok tt.

Definition require_org_owner (o : Organization) (user : string) : result OrgExn unit :=
  if negb (bool_decide (o_owner o = user)) then Err (PermissionDenied "org:ownership" user) else Ok tt.

(** ** Event counters *)

Record OrgMetrics := mk_org_metrics {
  ev_total : dict string Z;
  ev_scope : dict string (dict string Z)
}.

Definition count_event (event : string) (count : Z) (d : dict string Z) : dict string Z :=
  dict_set event (default 0 (dict_get event d) + count) d.

(** [OrganizationMetricsTracker.record] *)
Definition record_event (enabled : bool) (event scope : string) (count : Z) (m : OrgMetrics) : OrgMetrics :=
  if negb enabled then m
  else mk_org_metrics (count_event event count (ev_total m))
         (if truthy scope then dict_set scope (count_event event count (default [] (dict_get scope (ev_scope m)))) (ev_scope m)
          else ev_scope m).

Definition for_scope (scope : string) (m : OrgMetrics) : dict string Z := default [] (dict_get scope (ev_scope m)).

Example make_slug_1 : make_slug "  Hello,  World! " 64 = "hello-world".
Proof. reflexivity. Qed.
Example make_slug_2 : make_slug "ab cd" 3 = "ab".
Proof. reflexivity. Qed.
Example make_slug_3 : make_slug "!!" 64 = "item".
Proof. reflexivity. Qed.
End OrgModel.
