(* ===== verification/OrgManager.v ===== *)
(** * Organisations: the managers

    [OrganizationManager] ([src/app/organization/manager.py]), [MemberManager]
    ([members.py]), [WorkspaceManager] ([workspaces.py]), [TeamManager]
    ([teams.py]), [ProjectManager] ([projects.py]) and [InvitationManager]
    ([invitations.py]), wired as [create_organization_service] does: all of them
    share the repositories, the guard and the counters.

    In an operation, [t i] is the [i]-th reading of the clock and [g i] the
    [i]-th generated id or token.  The audit trail keeps action, tenant and
    actor of the recorded events; log records are not kept. *)

From Stdlib Require Import ZArith Lia.
From stdpp Require Import base numbers strings gmap list.
From S2P Require Import Prelude PyFloat PyNum PyStr PyDict AuthModel OrgModel.

Module OrgManager.
Import AuthPolicy OrgModel.
Open Scope string_scope.
Open Scope Z_scope.

(** ** State *)

Record OrgData := mk_org_data {
  d_orgs : dict string Organization;
  d_wss : dict string Workspace;
  d_teams : dict string Team;
  d_members : dict string Member;
  d_projects : dict string Project;
  d_invites : dict string Invitation
}.

Definition set_orgs r d := mk_org_data r (d_wss d) (d_teams d) (d_members d) (d_projects d) (d_invites d).
Definition set_wss r d := mk_org_data (d_orgs d) r (d_teams d) (d_members d) (d_projects d) (d_invites d).
Definition set_teams r d := mk_org_data (d_orgs d) (d_wss d) r (d_members d) (d_projects d) (d_invites d).
Definition set_members r d := mk_org_data (d_orgs d) (d_wss d) (d_teams d) r (d_projects d) (d_invites d).
Definition set_projects r d := mk_org_data (d_orgs d) (d_wss d) (d_teams d) (d_members d) r (d_invites d).
Definition set_invites r d := mk_org_data (d_orgs d) (d_wss d) (d_teams d) (d_members d) (d_projects d) r.

Definition put_org (o : Organization) (d : OrgData) : OrgData := set_orgs (repo_put o_id o (d_orgs d)) d.
Definition put_ws (w : Workspace) (d : OrgData) : OrgData := set_wss (repo_put ws_id w (d_wss d)) d.
Definition put_team (x : Team) (d : OrgData) : OrgData := set_teams (repo_put tm_id x (d_teams d)) d.
Definition put_member (m : Member) (d : OrgData) : OrgData := set_members (repo_put mb_id m (d_members d)) d.
Definition put_project (p : Project) (d : OrgData) : OrgData := set_projects (repo_put pj_id p (d_projects d)) d.
Definition put_invite (i : Invitation) (d : OrgData) : OrgData := set_invites (repo_put in_id i (d_invites d)) d.

Record OrgState := mk_org_state {
  os_data : OrgData;
  os_guard : RolePermissions;
  os_metrics : OrgMetrics;
  os_audit : list (string * string * string)
}.

Abbreviation O := (SE OrgExn OrgState).

Definition on_data (f : OrgData → OrgData) : O unit :=
  se_modify (λ st, mk_org_state (f (os_data st)) (os_guard st) (os_metrics st) (os_audit st)).
Definition audit_event (action tenant actor : string) : O unit :=
  se_modify (λ st, mk_org_state (os_data st) (os_guard st) (os_metrics st) (os_audit st ++ [(action, tenant, actor)])%list).

(** A reading of the state that may raise, and a test that raises. *)
Definition asks {A} (f : OrgState → result OrgExn A) : O A := λ st, (f st, st).
Definition fail_if (b : OrgState → bool) (e : OrgExn) : O unit := asks (λ st, if b st then Err e else Ok tt).

Definition some_or {A} (e : OrgExn) (x : option A) : result OrgExn A := match x with Some a => Ok a | None => Err e end.
Definition len_over (s : string) (n : Z) : bool := n <? Z.of_nat (String.length s).

Section Managers.
Context (cfg : OrganizationConfig).

Definition metric (event scope : string) : O unit :=
  se_modify (λ st, mk_org_state (os_data st) (os_guard st)
    (record_event (org_track_metrics cfg) event scope 1 (os_metrics st)) (os_audit st)).

(** ** Members *)

(** [MemberManager._get_org]: an empty tenant matches every organisation. *)
Definition mem_get_org (org tenant : string) (st : OrgState) : result OrgExn Organization :=
  match dict_get org (d_orgs (os_data st)) with
  | None => Err (OrganizationNotFoundError org)
  | Some o => match assert_tenant (o_tenant o) tenant with Ok _ => Ok o | Err e => Err e end
  end.

Definition require_org (o : Organization) (tenant : string) : result OrgExn unit :=
  match assert_tenant (o_tenant o) tenant with
  | Ok _ => if negb (org_is_active o) then Err (OrganizationArchivedError (o_id o)) else Ok tt
  | Err e => Err e
  end.

Definition find_member (org user : string) (st : OrgState) : option Member := member_by_user org user (d_members (os_data st)).

(** An actor must be a member with the permission. *)
Definition actor_allowed (org permission : string) (actor : option AuthPrincipal) (st : OrgState) : result OrgExn unit :=
  match actor with
  | None => Ok tt
  | Some p =>
      match find_member org (p_user p) st with
      | None => Err (MemberNotFoundError org (p_user p))
      | Some m => guard_require (os_guard st) p m permission
      end
  end.

Definition actor_name (actor : option AuthPrincipal) (user : string) : string :=
  match actor with Some p => p_user p | None => user end.

Definition is_some {A} (x : option A) : bool := match x with Some _ => true | None => false end.

Definition add_member (t : nat → float) (g : nat → string) (org user tenant role : string)
    (actor : option AuthPrincipal) : O Member :=
  o ← asks (mem_get_org org tenant);
  asks (λ _, require_org o tenant) ;;
  r ← asks (λ _, validate_member_role role);
  fail_if (λ _, bool_decide (r = ROLE_OWNER) && is_some actor)
    (MemberRoleError "Owner role can only be assigned via transfer of ownership") ;;
  fail_if (λ st, is_some (find_member org user st)) (MemberAlreadyExistsError org user) ;;
  fail_if (λ st, max_members_per_org cfg <=? zlen (members_of_org org (d_members (os_data st))))
    (MemberLimitError org (max_members_per_org cfg)) ;;
  asks (actor_allowed org "org:manage_members" actor) ;;
  let m := mk_member ("mem_" +:+ String.substring 0 16 (g 0%nat)) org (o_tenant o) user r MEMBER_ACTIVE (t 0%nat) (t 1%nat) in
  on_data (put_member m) ;;
  metric "member_added" org ;;
  audit_event "org.member_added" (o_tenant o) (actor_name actor user) ;;
  mret m.

Definition remove_member (org user tenant : string) (actor : option AuthPrincipal) : O bool :=
  o ← asks (mem_get_org org tenant);
  m ← asks (λ st, some_or (MemberNotFoundError org user) (find_member org user st));
  fail_if (λ _, bool_decide (mb_role m = ROLE_OWNER)) (MemberRoleError "The organization owner cannot be removed") ;;
  asks (actor_allowed org "org:manage_members" actor) ;;
  deleted ← asks (λ st, Ok (repo_delete (mb_id m) (d_members (os_data st))).1);
  on_data (λ d, set_members (repo_delete (mb_id m) (d_members d)).2 d) ;;
  metric "member_removed" org ;;
  audit_event "org.member_removed" (o_tenant o) (actor_name actor user) ;;
  mret deleted.

Definition set_member_role (t : nat → float) (org user role tenant : string) (actor : option AuthPrincipal) : O Member :=
  o ← asks (mem_get_org org tenant);
  r ← asks (λ _, validate_member_role role);
  m ← asks (λ st, some_or (MemberNotFoundError org user) (find_member org user st));
  fail_if (λ _, bool_decide (mb_role m = ROLE_OWNER))
    (MemberRoleError "The organization owner role cannot be changed directly") ;;
  fail_if (λ _, bool_decide (r = ROLE_OWNER)) (MemberRoleError "Owner role can only be assigned via transfer of ownership") ;;
  asks (actor_allowed org "org:manage_members" actor) ;;
  let m' := with_role r (t 0%nat) m in
  on_data (put_member m') ;;
  metric "member_role_changed" org ;;
  audit_event "org.member_role_changed" (o_tenant o) (actor_name actor user) ;;
  mret m'.

Definition get_member (org user tenant : string) : O Member :=
  asks (mem_get_org org tenant) ;;
  asks (λ st, some_or (MemberNotFoundError org user) (find_member org user st)).

Definition is_member (org user : string) (st : OrgState) : bool := is_some (find_member org user st).

Definition list_members (org tenant : string) : O (list Member) :=
  o ← asks (mem_get_org org tenant);
  asks (λ st, Ok (members_of_org (o_id o) (d_members (os_data st)))).

Definition member_count (org : string) (st : OrgState) : Z := zlen (members_of_org org (d_members (os_data st))).

Definition member_require_permission (p : AuthPrincipal) (org permission tenant : string) (st : OrgState)
    : result OrgExn Member :=
  match mem_get_org org tenant st with
  | Err e => Err e
  | Ok o =>
      match find_member (o_id o) (p_user p) st with
      | None => Err (MemberNotFoundError (o_id o) (p_user p))
      | Some m => match guard_require (os_guard st) p m permission with Ok _ => Ok m | Err e => Err e end
      end
  end.

Definition has_permission (p : AuthPrincipal) (org permission tenant : string) (st : OrgState) : bool :=
  is_ok (member_require_permission p org permission tenant st).

(** ** Organisations *)

(** [OrganizationManager.get], which the other managers' [_get_org] agree with. *)
Definition org_get (tenant org : string) (st : OrgState) : result OrgExn Organization :=
  match dict_get org (d_orgs (os_data st)) with
  | None => Err (OrganizationNotFoundError org)
  | Some o => if negb (bool_decide (o_tenant o = tenant)) then Err (OrganizationNotFoundError org) else Ok o
  end.

Definition org_get_by_slug (tenant slug : string) (st : OrgState) : result OrgExn Organization :=
  some_or (OrganizationNotFoundError slug) (org_by_slug slug tenant (d_orgs (os_data st))).

Definition org_list (tenant status : string) (st : OrgState) : list Organization :=
  let organizations := orgs_of_tenant tenant (d_orgs (os_data st)) in
  if truthy status then List.filter (λ o, bool_decide (org_status_value (o_status o) = status)) organizations
  else organizations.

Definition org_create (t : nat → float) (g : nat → string) (tenant name owner description : string)
    (slug0 : option string) (plan : string) : O Organization :=
  fail_if (λ _, len_over name (org_name_max_length cfg)) (OrgValueError "Organization name too long") ;;
  fail_if (λ st, max_organizations_per_tenant cfg <=? zlen (orgs_of_tenant tenant (d_orgs (os_data st))))
    (OrganizationLimitError tenant (max_organizations_per_tenant cfg)) ;;
  let slug := str_or (default "" slug0) (make_slug name (org_slug_max_length cfg)) in
  fail_if (λ st, is_some (org_by_slug slug tenant (d_orgs (os_data st)))) (OrganizationAlreadyExistsError slug) ;;
  let o := mk_org ("org_" +:+ String.substring 0 16 (g 0%nat)) tenant name slug owner description plan ORG_ACTIVE
             (t 0%nat) (t 1%nat) in
  on_data (put_org o) ;;
  add_member (λ k, t (2 + k)%nat) (λ k, g (1 + k)%nat) (o_id o) owner tenant "owner" None ;;
  metric "organization_created" (o_id o) ;;
  audit_event "org.created" tenant owner ;;
  mret o.

(** An assignment to a field of a stored object. *)
Definition mod_org (org : string) (f : Organization → Organization) : O unit :=
  on_data (λ d, match dict_get org (d_orgs d) with Some o => put_org (f o) d | None => d end).
Definition mod_ws (ws : string) (f : Workspace → Workspace) : O unit :=
  on_data (λ d, match dict_get ws (d_wss d) with Some w => put_ws (f w) d | None => d end).
Definition mod_team (tm : string) (f : Team → Team) : O unit :=
  on_data (λ d, match dict_get tm (d_teams d) with Some x => put_team (f x) d | None => d end).
Definition mod_project (pj : string) (f : Project → Project) : O unit :=
  on_data (λ d, match dict_get pj (d_projects d) with Some p => put_project (f p) d | None => d end).
Definition mod_invite (iid : string) (f : Invitation → Invitation) : O unit :=
  on_data (λ d, match dict_get iid (d_invites d) with Some i => put_invite (f i) d | None => d end).

Definition ORG_FIELDS : list string := ["name"; "description"; "slug"; "plan"; "metadata"].

Fixpoint org_set_fields (tenant org : string) (fields : list (string * string)) : O unit :=
  match fields with
  | [] => mret tt
  | (key, value) :: rest =>
      fail_if (λ _, negb (bool_decide (key ∈ ORG_FIELDS))) (OrgValueError "Unknown organization field") ;;
      fail_if (λ st, bool_decide (key = "slug") &&
                     match org_by_slug value tenant (d_orgs (os_data st)) with
                     | Some e => negb (bool_decide (o_id e = org))
                     | None => false
                     end) (OrganizationAlreadyExistsError value) ;;
      mod_org org (set_org_field key value) ;;
      org_set_fields tenant org rest
  end.

Definition org_update (t : nat → float) (tenant org : string) (fields : list (string * string)) : O Organization :=
  asks (org_get tenant org) ;;
  org_set_fields tenant org fields ;;
  mod_org org (set_org_updated (t 0%nat)) ;;
  audit_event "org.updated" tenant "" ;;
  asks (org_get tenant org).

(** [for project in projects.list_for_workspace(w): projects.delete(project.id)] *)
Definition drop_projects (ws : string) (d : OrgData) : OrgData :=
  foldl (λ d p, set_projects (repo_delete (pj_id p) (d_projects d)).2 d) d (projects_of_ws ws (d_projects d)).
Definition drop_ws (ws : string) (d : OrgData) : OrgData :=
  let d1 := drop_projects ws d in set_wss (repo_delete ws (d_wss d1)).2 d1.
Definition drop_wss (org : string) (d : OrgData) : OrgData :=
  foldl (λ d w, drop_ws (ws_id w) d) d (ws_of_org org (d_wss d)).
Definition drop_teams (org : string) (d : OrgData) : OrgData :=
  foldl (λ d x, set_teams (repo_delete (tm_id x) (d_teams d)).2 d) d (teams_of_org org (d_teams d)).
Definition drop_members (org : string) (d : OrgData) : OrgData :=
  set_members (delete_members_of_org org (d_members d)).2 d.
Definition drop_invites (org : string) (d : OrgData) : OrgData :=
  foldl (λ d i, set_invites (repo_delete (in_id i) (d_invites d)).2 d) d (invites_of_org org "" (d_invites d)).

Definition org_delete (tenant org : string) : O bool :=
  asks (org_get tenant org) ;;
  on_data (drop_wss org) ;;
  on_data (drop_teams org) ;;
  on_data (drop_members org) ;;
  on_data (drop_invites org) ;;
  deleted ← asks (λ st, Ok (repo_delete org (d_orgs (os_data st))).1);
  on_data (λ d, set_orgs (repo_delete org (d_orgs d)).2 d) ;;
  metric "organization_deleted" org ;;
  audit_event "org.deleted" tenant "" ;;
  mret deleted.

Definition org_archive (t : nat → float) (tenant org : string) : O Organization :=
  o ← asks (org_get tenant org);
  if org_is_archived o then mret o
  else
    mod_org org (set_org_status ORG_ARCHIVED (t 0%nat)) ;;
    metric "organization_archived" org ;;
    audit_event "org.archived" tenant "" ;;
    asks (org_get tenant org).

Definition org_restore (t : nat → float) (tenant org : string) : O Organization :=
  o ← asks (org_get tenant org);
  if org_is_active o then mret o
  else
    mod_org org (set_org_status ORG_ACTIVE (t 0%nat)) ;;
    metric "organization_restored" org ;;
    audit_event "org.restored" tenant "" ;;
    asks (org_get tenant org).

Definition demote_owner (org owner : string) (d : OrgData) : OrgData :=
  match member_by_user org owner (d_members d) with
  | Some m => put_member (with_role ROLE_ADMIN (mb_updated_at m) m) d
  | None => d
  end.

Definition transfer_ownership (t : nat → float) (p : AuthPrincipal) (org new_owner tenant : string) : O Organization :=
  o ← asks (org_get tenant org);
  if bool_decide (new_owner = o_owner o) then mret o
  else
    a ← asks (λ st, some_or (OwnershipTransferError "The actor is not a member of the organization")
                      (find_member org (p_user p) st));
    asks (λ st, guard_require (os_guard st) p a "org:transfer") ;;
    n ← asks (λ st, some_or (OwnershipTransferError "The new owner is not a member of the organization")
                      (find_member org new_owner st));
    if bool_decide (mb_role n = ROLE_OWNER) then mret o
    else
      on_data (demote_owner org (o_owner o)) ;;
      on_data (put_member (with_role ROLE_OWNER (mb_updated_at n) n)) ;;
      mod_org org (set_org_owner new_owner (t 0%nat)) ;;
      metric "organization_transferred" org ;;
      audit_event "org.transferred" tenant (p_user p) ;;
      asks (org_get tenant org).

(** ** Workspaces *)

Definition ws_get (org ws tenant : string) (st : OrgState) : result OrgExn Workspace :=
  match dict_get ws (d_wss (os_data st)) with
  | Some w =>
      if negb (bool_decide (ws_org w = org)) || negb (bool_decide (ws_tenant w = tenant))
      then Err (WorkspaceNotFoundError ws) else Ok w
  | None => Err (WorkspaceNotFoundError ws)
  end.

Definition ws_create (t : nat → float) (g : nat → string) (org name owner tenant description : string)
    (slug0 : option string) : O Workspace :=
  o ← asks (org_get tenant org);
  fail_if (λ _, negb (org_is_active o)) (OrganizationArchivedError org) ;;
  fail_if (λ _, len_over name (workspace_name_max_length cfg)) (OrgValueError "Workspace name too long") ;;
  let slug := str_or (default "" slug0) (make_slug name (workspace_slug_max_length cfg)) in
  fail_if (λ st, is_some (ws_by_slug slug org (d_wss (os_data st)))) (WorkspaceAlreadyExistsError slug) ;;
  fail_if (λ st, max_workspaces_per_org cfg <=? zlen (ws_of_org org (d_wss (os_data st))))
    (WorkspaceLimitError org (max_workspaces_per_org cfg)) ;;
  let w := mk_ws ("ws_" +:+ String.substring 0 16 (g 0%nat)) org (o_tenant o) name slug owner description WS_ACTIVE
             (t 0%nat) (t 1%nat) in
  on_data (put_ws w) ;;
  metric "workspace_created" org ;;
  audit_event "org.workspace_created" (o_tenant o) owner ;;
  mret w.

Definition WS_FIELDS : list string := ["name"; "description"; "slug"; "metadata"].

Fixpoint ws_set_fields (org ws : string) (fields : list (string * string)) : O unit :=
  match fields with
  | [] => mret tt
  | (key, value) :: rest =>
      fail_if (λ _, negb (bool_decide (key ∈ WS_FIELDS))) (OrgValueError "Unknown workspace field") ;;
      fail_if (λ st, bool_decide (key = "slug") && is_some (ws_by_slug value org (d_wss (os_data st))))
        (WorkspaceAlreadyExistsError value) ;;
      mod_ws ws (set_ws_field key value) ;;
      ws_set_fields org ws rest
  end.

Definition ws_update (t : nat → float) (org ws tenant : string) (fields : list (string * string)) : O Workspace :=
  o ← asks (org_get tenant org);
  asks (ws_get org ws tenant) ;;
  ws_set_fields org ws fields ;;
  mod_ws ws (set_ws_updated (t 0%nat)) ;;
  audit_event "org.workspace_updated" (o_tenant o) "" ;;
  asks (ws_get org ws tenant).

Definition ws_delete (org ws tenant : string) : O bool :=
  o ← asks (org_get tenant org);
  asks (ws_get org ws tenant) ;;
  on_data (drop_projects ws) ;;
  deleted ← asks (λ st, Ok (repo_delete ws (d_wss (os_data st))).1);
  on_data (λ d, set_wss (repo_delete ws (d_wss d)).2 d) ;;
  metric "workspace_deleted" org ;;
  audit_event "org.workspace_deleted" (o_tenant o) "" ;;
  mret deleted.

Definition ws_archive (t : nat → float) (org ws tenant : string) : O Workspace :=
  o ← asks (org_get tenant org);
  asks (ws_get org ws tenant) ;;
  mod_ws ws (set_ws_status WS_ARCHIVED (t 0%nat)) ;;
  metric "workspace_archived" org ;;
  audit_event "org.workspace_archived" (o_tenant o) "" ;;
  asks (ws_get org ws tenant).

Definition ws_restore (t : nat → float) (org ws tenant : string) : O Workspace :=
  asks (org_get tenant org) ;;
  asks (ws_get org ws tenant) ;;
  mod_ws ws (set_ws_status WS_ACTIVE (t 0%nat)) ;;
  asks (ws_get org ws tenant).

(** The copies of the projects; [k] numbers them. *)
Fixpoint clone_projects (t : nat → float) (g : nat → string) (org ws tenant : string) (k : nat) (ps : list Project)
    (d : OrgData) : OrgData :=
  match ps with
  | [] => d
  | p :: rest =>
      clone_projects t g org ws tenant (S k) rest
        (put_project (mk_project ("proj_" +:+ String.substring 0 16 (g k)) ws org tenant (pj_name p) (pj_description p)
                        (t (2 * k)%nat) (t (2 * k + 1)%nat)) d)
  end.

Definition ws_clone (t : nat → float) (g : nat → string) (org ws tenant : string) (name : option string)
    (include_projects : bool) : O Workspace :=
  o ← asks (org_get tenant org);
  w ← asks (ws_get org ws tenant);
  fail_if (λ _, negb (org_is_active o)) (OrganizationArchivedError org) ;;
  let new_name := str_or (default "" name) (ws_name w +:+ " (copy)") in
  clone ← ws_create t g org new_name (ws_owner w) tenant (ws_description w) None;
  (if include_projects
   then on_data (λ d, clone_projects (λ k, t (2 + k)%nat) (λ k, g (1 + k)%nat) org (ws_id clone) (o_tenant o) 0
                        (projects_of_ws ws (d_projects d)) d)
   else mret tt) ;;
  metric "workspace_cloned" org ;;
  audit_event "org.workspace_cloned" (o_tenant o) "" ;;
  mret clone.

Definition ws_transfer (t : nat → float) (org ws new_owner tenant : string) (actor : option AuthPrincipal) : O Workspace :=
  o ← asks (org_get tenant org);
  asks (ws_get org ws tenant) ;;
  fail_if (λ st, negb (is_member org new_owner st)) (MemberNotFoundError org new_owner) ;;
  (match actor with
   | Some p => asks (member_require_permission p org "workspace:transfer" tenant) ;; mret tt
   | None => mret tt
   end) ;;
  mod_ws ws (set_ws_owner new_owner (t 0%nat)) ;;
  metric "workspace_transferred" org ;;
  audit_event "org.workspace_transferred" (o_tenant o) (actor_name actor "") ;;
  asks (ws_get org ws tenant).

Definition ws_list (org : option string) (tenant : string) (st : OrgState) : result OrgExn (list Workspace) :=
  match org with
  | Some oid => match org_get tenant oid st with
                | Ok _ => Ok (ws_of_org oid (d_wss (os_data st)))
                | Err e => Err e
                end
  | None => Ok (ws_of_tenant tenant (d_wss (os_data st)))
  end.

(** ** Teams *)

Definition team_get (org tm : string) (st : OrgState) : result OrgExn Team :=
  match dict_get tm (d_teams (os_data st)) with
  | Some x => if negb (bool_decide (tm_org x = org)) then Err (TeamNotFoundError tm) else Ok x
  | None => Err (TeamNotFoundError tm)
  end.

Definition team_create (t : nat → float) (g : nat → string) (org name tenant description : string) : O Team :=
  o ← asks (org_get tenant org);
  fail_if (λ _, len_over name (team_name_max_length cfg)) (OrgValueError "Team name too long") ;;
  fail_if (λ st, max_teams_per_org cfg <=? zlen (teams_of_org org (d_teams (os_data st))))
    (TeamLimitError org (max_teams_per_org cfg)) ;;
  let x := mk_team ("team_" +:+ String.substring 0 16 (g 0%nat)) org (o_tenant o) name description (t 0%nat) (t 1%nat) in
  on_data (put_team x) ;;
  metric "team_created" org ;;
  audit_event "org.team_created" (o_tenant o) "" ;;
  mret x.

Definition TEAM_FIELDS : list string := ["name"; "description"].

Fixpoint team_set_fields (tm : string) (fields : list (string * string)) : O unit :=
  match fields with
  | [] => mret tt
  | (key, value) :: rest =>
      fail_if (λ _, negb (bool_decide (key ∈ TEAM_FIELDS))) (OrgValueError "Unknown team field") ;;
      mod_team tm (set_team_field key value) ;;
      team_set_fields tm rest
  end.

Definition team_update (t : nat → float) (org tm tenant : string) (fields : list (string * string)) : O Team :=
  o ← asks (org_get tenant org);
  asks (team_get org tm) ;;
  team_set_fields tm fields ;;
  mod_team tm (set_team_updated (t 0%nat)) ;;
  audit_event "org.team_updated" (o_tenant o) "" ;;
  asks (team_get org tm).

Definition team_delete (org tm tenant : string) : O bool :=
  o ← asks (org_get tenant org);
  asks (team_get org tm) ;;
  deleted ← asks (λ st, Ok (repo_delete tm (d_teams (os_data st))).1);
  on_data (λ d, set_teams (repo_delete tm (d_teams d)).2 d) ;;
  metric "team_deleted" org ;;
  audit_event "org.team_deleted" (o_tenant o) "" ;;
  mret deleted.

Definition team_list (org tenant : string) (st : OrgState) : result OrgExn (list Team) :=
  match org_get tenant org st with Ok _ => Ok (teams_of_org org (d_teams (os_data st))) | Err e => Err e end.

(** ** Projects *)

Definition project_create (t : nat → float) (g : nat → string) (org ws name tenant description : string) : O Project :=
  o ← asks (org_get tenant org);
  w ← asks (ws_get org ws tenant);
  fail_if (λ _, negb (org_is_active o)) (OrganizationArchivedError org) ;;
  fail_if (λ _, negb (ws_is_active w)) (WorkspaceArchivedError ws) ;;
  fail_if (λ _, len_over name (project_name_max_length cfg)) (OrgValueError "Project name too long") ;;
  fail_if (λ st, is_some (project_by_name ws name (d_projects (os_data st)))) (ProjectAlreadyExistsError name ws) ;;
  fail_if (λ st, max_projects_per_workspace cfg <=? zlen (projects_of_ws ws (d_projects (os_data st))))
    (OrgValueError "Project limit reached") ;;
  let p := mk_project ("proj_" +:+ String.substring 0 16 (g 0%nat)) ws org (o_tenant o) name description (t 0%nat) (t 1%nat) in
  on_data (put_project p) ;;
  metric "project_created" ws ;;
  audit_event "org.project_created" (o_tenant o) "" ;;
  mret p.

Definition project_get (org ws pj : string) (st : OrgState) : result OrgExn Project :=
  match dict_get pj (d_projects (os_data st)) with
  | Some p =>
      if negb (bool_decide (pj_org p = org)) || negb (bool_decide (pj_ws p = ws))
      then Err (ProjectNotFoundError pj) else Ok p
  | None => Err (ProjectNotFoundError pj)
  end.

Definition PROJECT_FIELDS : list string := ["name"; "description"; "metadata"].

Fixpoint project_set_fields (pj : string) (fields : list (string * string)) : O unit :=
  match fields with
  | [] => mret tt
  | (key, value) :: rest =>
      fail_if (λ _, negb (bool_decide (key ∈ PROJECT_FIELDS))) (OrgValueError "Unknown project field") ;;
      mod_project pj (set_project_field key value) ;;
      project_set_fields pj rest
  end.

Definition project_update (t : nat → float) (org ws pj tenant : string) (fields : list (string * string)) : O Project :=
  o ← asks (org_get tenant org);
  asks (ws_get org ws tenant) ;;
  asks (project_get org ws pj) ;;
  project_set_fields pj fields ;;
  mod_project pj (set_project_updated (t 0%nat)) ;;
  audit_event "org.project_updated" (o_tenant o) "" ;;
  asks (project_get org ws pj).

Definition project_delete (org ws pj tenant : string) : O bool :=
  o ← asks (org_get tenant org);
  asks (ws_get org ws tenant) ;;
  asks (project_get org ws pj) ;;
  deleted ← asks (λ st, Ok (repo_delete pj (d_projects (os_data st))).1);
  on_data (λ d, set_projects (repo_delete pj (d_projects d)).2 d) ;;
  metric "project_deleted" ws ;;
  audit_event "org.project_deleted" (o_tenant o) "" ;;
  mret deleted.

Definition projects_of_org (org tenant : string) (st : OrgState) : result OrgExn (list Project) :=
  match org_get tenant org st with
  | Err e => Err e
  | Ok _ =>
      Ok (py_sorted (λ a b, flt (pj_created_at a) (pj_created_at b))
            (concat ((λ w, projects_of_ws (ws_id w) (d_projects (os_data st))) <$> ws_of_org org (d_wss (os_data st)))))
  end.

(** ** Invitations *)

Definition invite_create (t : nat → float) (g : nat → string) (org email role tenant invited_by : string)
    (ttl : option Z) : O Invitation :=
  o ← asks (org_get tenant org);
  fail_if (λ _, negb (org_is_active o)) (OrganizationArchivedError org) ;;
  r ← asks (λ _, validate_member_role role);
  fail_if (λ _, bool_decide (r = ROLE_OWNER)) (OrgValueError "Owner invitations are not allowed") ;;
  fail_if (λ _, negb (truthy email) || negb (contains "@" email)) (OrgValueError "Invalid email") ;;
  fail_if (λ st, max_pending_invitations_per_org cfg <=? pending_count org (d_invites (os_data st)))
    (InvitationLimitError org (max_pending_invitations_per_org cfg)) ;;
  let i := mk_invite ("inv_" +:+ String.substring 0 16 (g 0%nat)) org (o_tenant o) email r invited_by (g 1%nat)
             INVITE_PENDING (fadd (t 0%nat) (float_of_Z (default (invitation_ttl_seconds cfg) ttl))) (t 1%nat) fzero "" in
  on_data (put_invite i) ;;
  metric "invitation_created" org ;;
  audit_event "org.invitation_created" (o_tenant o) invited_by ;;
  mret i.

Definition invite_get (token : string) (st : OrgState) : result OrgExn Invitation :=
  some_or (InvitationNotFoundError token) (invite_by_token token (d_invites (os_data st))).

Definition invite_accept (t : nat → float) (g : nat → string) (token user : string) : O Invitation :=
  i ← asks (invite_get token);
  match in_status i with
  | INVITE_ACCEPTED => se_raise (InvitationAlreadyAcceptedError token)
  | INVITE_REVOKED => se_raise (InvitationNotFoundError token)
  | INVITE_EXPIRED => se_raise (InvitationExpiredError token)
  | INVITE_PENDING =>
      if invite_is_expired (t 0%nat) i then
        on_data (put_invite (set_invite_status INVITE_EXPIRED i)) ;; se_raise (InvitationExpiredError token)
      else
        let i' := set_invite_accepted (t 1%nat) user i in
        on_data (put_invite i') ;;
        member ← asks (λ st, Ok (is_member (in_org i) user st));
        (if (member : bool) then mret tt
         else add_member (λ k, t (2 + k)%nat) g (in_org i) user (in_tenant i) (role_value (in_role i)) None ;; mret tt) ;;
        metric "invitation_accepted" (in_org i) ;;
        audit_event "org.invitation_accepted" (in_tenant i) user ;;
        mret i'
  end.

Definition invite_revoke (token tenant : string) : O bool :=
  i ← asks (invite_get token);
  o ← asks (org_get tenant (in_org i));
  fail_if (λ _, negb (bool_decide (in_status i = INVITE_PENDING))) (InvitationNotFoundError token) ;;
  on_data (put_invite (set_invite_status INVITE_REVOKED i)) ;;
  metric "invitation_revoked" (in_org i) ;;
  audit_event "org.invitation_revoked" (o_tenant o) "" ;;
  mret true.

Definition invite_list (org tenant status : string) (st : OrgState) : result OrgExn (list Invitation) :=
  match org_get tenant org st with Ok _ => Ok (invites_of_org org status (d_invites (os_data st))) | Err e => Err e end.
End Managers.
End OrgManager.
