(* ===== verification/OrgSpec.v ===== *)
(** * Organisations: the repositories as a state machine

    The managers change their repositories only by the steps of [org_step],
    each of which acts on the data of one tenant.  The invariant [org_inv] of
    the repositories is preserved by every step: objects refer to objects that
    exist and belong to the same tenant, slugs and memberships are unique,
    every organisation has its owner as a member, and no limit of the
    configuration is exceeded.  A step leaves the data of the other tenants
    alone. *)

From Stdlib Require Import ZArith Lia.
From stdpp Require Import base numbers strings gmap relations list.
From S2P Require Import Prelude PyFloat PyNum PyStr PyDict AuthModel OrgModel OrgManager.

Module OrgSpec.
Import AuthPolicy OrgModel OrgManager.
Open Scope string_scope.
Open Scope Z_scope.

(** ** Groups of objects *)

Definition in_tenant_o (tn : string) (o : Organization) : bool := bool_decide (o_tenant o = tn).
Definition ws_in (org : string) (w : Workspace) : bool := bool_decide (ws_org w = org).
Definition team_in (org : string) (x : Team) : bool := bool_decide (tm_org x = org).
Definition member_in (org : string) (m : Member) : bool := bool_decide (mb_org m = org).
Definition project_in (ws : string) (p : Project) : bool := bool_decide (pj_ws p = ws).
Definition pending_in (org : string) (i : Invitation) : bool :=
  bool_decide (in_org i = org) && bool_decide (in_status i = INVITE_PENDING).

Lemma zlen_repo_list {V} (created : V → float) P (r : dict string V) : zlen (repo_list created P r) = rcount P r.
Proof. apply zlen_sorted. Qed.

Lemma pending_count_rcount org r : pending_count org r = rcount (pending_in org) r.
Proof.
  unfold pending_count, invites_of_org, rcount. simpl. rewrite zlen_sorted. f_equal.
  induction (dict_values r) as [|i l IH]; simpl; [done|]. unfold pending_in at 1.
  destruct (bool_decide (in_org i = org)); simpl; [|done]. rewrite IH.
  by destruct (in_status i).
Qed.

Section Machine.
Context (cfg : OrganizationConfig).

(** The tokens that new invitations may carry. *)
Context (new_token : string → Prop).

(** ** Steps *)

Definition has_org (orgs : dict string Organization) (org tn : string) : Prop :=
  ∃ o, dict_get org orgs = Some o ∧ o_tenant o = tn.

Definition has_ws (wss : dict string Workspace) (ws org tn : string) : Prop :=
  ∃ w, dict_get ws wss = Some w ∧ ws_org w = org ∧ ws_tenant w = tn.

Inductive org_step (tn : string) (d : OrgData) : OrgData → Prop :=
  | st_org_new o m :
      dict_get (o_id o) (d_orgs d) = None → o_tenant o = tn → org_by_slug (o_slug o) tn (d_orgs d) = None →
      rcount (in_tenant_o tn) (d_orgs d) < max_organizations_per_tenant cfg →
      dict_get (mb_id m) (d_members d) = None → mb_org m = o_id o → mb_tenant m = tn → mb_user m = o_owner o →
      mb_role m = ROLE_OWNER → 0 < max_members_per_org cfg →
      org_step tn d (put_member m (put_org o d))
  | st_org_mod o o' :
      dict_get (o_id o') (d_orgs d) = Some o → o_tenant o = tn → o_tenant o' = tn → o_owner o' = o_owner o →
      (o_slug o' = o_slug o ∨ ∀ e, org_by_slug (o_slug o') tn (d_orgs d) = Some e → o_id e = o_id o') →
      org_step tn d (put_org o' d)
  | st_org_transfer o m user now :
      dict_get (o_id o) (d_orgs d) = Some o → o_tenant o = tn →
      member_by_user (o_id o) user (d_members d) = Some m → mb_role m ≠ ROLE_OWNER →
      org_step tn d (put_org (set_org_owner user now o)
                       (put_member (with_role ROLE_OWNER (mb_updated_at m) m) (demote_owner (o_id o) (o_owner o) d)))
  | st_org_del org o :
      dict_get org (d_orgs d) = Some o → o_tenant o = tn →
      (∀ k w, dict_get k (d_wss d) = Some w → ws_org w ≠ org) →
      (∀ k x, dict_get k (d_teams d) = Some x → tm_org x ≠ org) →
      org_step tn d (mk_org_data (dict_pop org (d_orgs d)) (d_wss d) (d_teams d)
                       (pop_all (List.filter (λ p, bool_decide (mb_org p.2 = org)) (d_members d)).*1 (d_members d))
                       (d_projects d) (pop_all (in_id <$> invites_of_org org "" (d_invites d)) (d_invites d)))
  | st_ws_new w :
      dict_get (ws_id w) (d_wss d) = None → has_org (d_orgs d) (ws_org w) tn → ws_tenant w = tn →
      ws_by_slug (ws_slug w) (ws_org w) (d_wss d) = None →
      rcount (ws_in (ws_org w)) (d_wss d) < max_workspaces_per_org cfg →
      org_step tn d (put_ws w d)
  | st_ws_mod w w' :
      dict_get (ws_id w') (d_wss d) = Some w → ws_tenant w = tn → ws_tenant w' = tn → ws_org w' = ws_org w →
      (ws_slug w' = ws_slug w ∨ ws_by_slug (ws_slug w') (ws_org w) (d_wss d) = None) →
      org_step tn d (put_ws w' d)
  | st_ws_del ks :
      (∀ k w, k ∈ ks → dict_get k (d_wss d) = Some w → ws_tenant w = tn) →
      (∀ k p, dict_get k (d_projects d) = Some p → pj_ws p ∉ ks) →
      org_step tn d (set_wss (pop_all ks (d_wss d)) d)
  | st_team_new x :
      has_org (d_orgs d) (tm_org x) tn → tm_tenant x = tn → dict_get (tm_id x) (d_teams d) = None →
      rcount (team_in (tm_org x)) (d_teams d) < max_teams_per_org cfg →
      org_step tn d (put_team x d)
  | st_team_mod x x' :
      dict_get (tm_id x') (d_teams d) = Some x → tm_tenant x = tn → tm_tenant x' = tn → tm_org x' = tm_org x →
      org_step tn d (put_team x' d)
  | st_team_del ks :
      (∀ k x, k ∈ ks → dict_get k (d_teams d) = Some x → tm_tenant x = tn) →
      org_step tn d (set_teams (pop_all ks (d_teams d)) d)
  | st_member_new m :
      has_org (d_orgs d) (mb_org m) tn → mb_tenant m = tn → dict_get (mb_id m) (d_members d) = None →
      member_by_user (mb_org m) (mb_user m) (d_members d) = None →
      rcount (member_in (mb_org m)) (d_members d) < max_members_per_org cfg →
      org_step tn d (put_member m d)
  | st_member_role m r now :
      dict_get (mb_id m) (d_members d) = Some m → mb_tenant m = tn → mb_role m ≠ ROLE_OWNER →
      org_step tn d (put_member (with_role r now m) d)
  | st_member_del m :
      dict_get (mb_id m) (d_members d) = Some m → mb_tenant m = tn → mb_role m ≠ ROLE_OWNER →
      org_step tn d (set_members (dict_pop (mb_id m) (d_members d)) d)
  | st_project_new p w :
      dict_get (pj_ws p) (d_wss d) = Some w → ws_org w = pj_org p → ws_tenant w = tn → pj_tenant p = tn →
      (∀ p0, dict_get (pj_id p) (d_projects d) = Some p0 → pj_tenant p0 = tn) →
      rcount (project_in (pj_ws p)) (d_projects d) < max_projects_per_workspace cfg →
      org_step tn d (put_project p d)
  | st_project_mod p p' :
      dict_get (pj_id p') (d_projects d) = Some p → pj_tenant p = tn → pj_tenant p' = tn →
      pj_ws p' = pj_ws p → pj_org p' = pj_org p →
      org_step tn d (put_project p' d)
  | st_project_del ks :
      (∀ k p, k ∈ ks → dict_get k (d_projects d) = Some p → pj_tenant p = tn) →
      org_step tn d (set_projects (pop_all ks (d_projects d)) d)
  | st_invite_new i :
      has_org (d_orgs d) (in_org i) tn → in_tenant i = tn → dict_get (in_id i) (d_invites d) = None → new_token (in_token i) →
      invite_by_token (in_token i) (d_invites d) = None →
      rcount (pending_in (in_org i)) (d_invites d) < max_pending_invitations_per_org cfg →
      org_step tn d (put_invite i d)
  | st_invite_close i i' :
      dict_get (in_id i') (d_invites d) = Some i → in_tenant i = tn → in_tenant i' = tn → in_org i' = in_org i →
      in_token i' = in_token i → in_status i = INVITE_PENDING → in_status i' ≠ INVITE_PENDING →
      org_step tn d (put_invite i' d).

(** ** Invariant *)

Record org_refs (d : OrgData) : Prop := {
  k_orgs : keyed o_id (d_orgs d);
  k_wss : keyed ws_id (d_wss d);
  k_teams : keyed tm_id (d_teams d);
  k_members : keyed mb_id (d_members d);
  k_projects : keyed pj_id (d_projects d);
  k_invites : keyed in_id (d_invites d);
  r_wss : ∀ k w, dict_get k (d_wss d) = Some w → has_org (d_orgs d) (ws_org w) (ws_tenant w);
  r_teams : ∀ k x, dict_get k (d_teams d) = Some x → has_org (d_orgs d) (tm_org x) (tm_tenant x);
  r_members : ∀ k m, dict_get k (d_members d) = Some m → has_org (d_orgs d) (mb_org m) (mb_tenant m);
  r_invites : ∀ k i, dict_get k (d_invites d) = Some i → has_org (d_orgs d) (in_org i) (in_tenant i);
  r_projects : ∀ k p, dict_get k (d_projects d) = Some p →
    has_ws (d_wss d) (pj_ws p) (pj_org p) (pj_tenant p)
}.

Record org_unique (d : OrgData) : Prop := {
  u_slugs : unique_by (λ o, (o_tenant o, o_slug o)) (d_orgs d);
  u_ws_slugs : unique_by (λ w, (ws_org w, ws_slug w)) (d_wss d);
  u_members : unique_by (λ m, (mb_org m, mb_user m)) (d_members d);
  u_tokens : unique_by in_token (d_invites d)
}.

(** The owner of an organisation is a member of it, as an owner. *)
Definition owners_ok (d : OrgData) : Prop :=
  ∀ k o, dict_get k (d_orgs d) = Some o →
    ∃ k' m, dict_get k' (d_members d) = Some m ∧ mb_org m = o_id o ∧ mb_user m = o_owner o ∧ mb_role m = ROLE_OWNER.

Record org_limits (d : OrgData) : Prop := {
  l_orgs : ∀ tn, rcount (in_tenant_o tn) (d_orgs d) <= Z.max 0 (max_organizations_per_tenant cfg);
  l_wss : ∀ org, rcount (ws_in org) (d_wss d) <= Z.max 0 (max_workspaces_per_org cfg);
  l_teams : ∀ org, rcount (team_in org) (d_teams d) <= Z.max 0 (max_teams_per_org cfg);
  l_members : ∀ org, rcount (member_in org) (d_members d) <= Z.max 0 (max_members_per_org cfg);
  l_projects : ∀ ws, rcount (project_in ws) (d_projects d) <= Z.max 0 (max_projects_per_workspace cfg);
  l_pending : ∀ org, rcount (pending_in org) (d_invites d) <= Z.max 0 (max_pending_invitations_per_org cfg)
}.

Record org_inv (d : OrgData) : Prop := {
  inv_refs : org_refs d;
  inv_unique : org_unique d;
  inv_owners : owners_ok d;
  inv_limits : org_limits d
}.

(** ** Preservation *)

Lemma rcount_set_limit {V} (P : V → bool) k v (r : dict string V) n :
  rcount P r <= Z.max 0 n → (P v = true → rcount P r < n) → rcount P (dict_set k v r) <= Z.max 0 n.
Proof. intros H1 H2. pose proof (rcount_set_le P k v r). destruct (P v); [specialize (H2 eq_refl)|]; lia. Qed.

Ltac limit_new :=
  intros ?; simpl; unfold repo_put; apply rcount_set_limit; [done|];
  unfold in_tenant_o, ws_in, team_in, member_in, project_in, pending_in; intros ?; bool_to_prop; by subst.
Ltac limit_over :=
  intros ?; simpl; unfold repo_put; etransitivity; [eapply rcount_set_over; [eassumption|]|done];
  unfold in_tenant_o, ws_in, team_in, member_in, project_in, pending_in, with_role; simpl;
  intros ?; bool_to_prop; rewrite ?bool_decide_eq_true, ?andb_true_iff, ?bool_decide_eq_true; naive_solver congruence.
Ltac limit_del := intros ?; simpl; etransitivity; [first [apply rcount_pop_le|apply rcount_pop_all_le]|done].

(** What a transfer of ownership does to the members. *)
Lemma member_by_user_get d org user m :
  keyed mb_id (d_members d) → member_by_user org user (d_members d) = Some m →
  dict_get (mb_id m) (d_members d) = Some m ∧ mb_org m = org ∧ mb_user m = user.
Proof. intros Hk Hf. destruct (keyed_find_Some _ _ _ _ Hk Hf) as [Hg HP]. bool_to_prop. done. Qed.

Lemma member_by_user_none d org user k m :
  member_by_user org user (d_members d) = None → dict_get k (d_members d) = Some m → mb_org m = org → mb_user m ≠ user.
Proof. intros Hf Hg Ho Hu. pose proof (repo_find_None _ _ _ _ Hf Hg) as HP. simpl in HP. bool_to_prop. by rewrite !bool_decide_true in HP. Qed.

Lemma transfer_members d o user m :
  org_refs d → org_unique d → owners_ok d → dict_get (o_id o) (d_orgs d) = Some o →
  member_by_user (o_id o) user (d_members d) = Some m → mb_role m ≠ ROLE_OWNER →
  ∃ a, dict_get (mb_id a) (d_members d) = Some a ∧ mb_org a = o_id o ∧ mb_user a = o_owner o ∧ mb_id a ≠ mb_id m ∧
    demote_owner (o_id o) (o_owner o) d = put_member (with_role ROLE_ADMIN (mb_updated_at a) a) d.
Proof.
  intros Hr Hu Hown Hg Hm Hrole. pose proof (k_members d Hr) as Hk.
  destruct (member_by_user_get _ _ _ _ Hk Hm) as (Hgm & Hom & Hum).
  destruct (Hown _ _ Hg) as (k & a & Ha & Hoa & Hua & Hra).
  pose proof (keyed_get _ _ _ _ Hk Ha) as <-.
  assert (mb_id a ≠ mb_id m) as Hne by (intros E; congruence).
  unfold demote_owner. destruct (member_by_user (o_id o) (o_owner o) (d_members d)) as [b|] eqn:Eb.
  - destruct (member_by_user_get _ _ _ _ Hk Eb) as (Hgb & Hob & Hub).
    assert (mb_id b = mb_id a) as Eid by (eapply (u_members d Hu); [done|done|simpl; congruence]).
    assert (b = a) as -> by congruence. by exists a.
  - by destruct (member_by_user_none _ _ _ _ _ Eb Ha Hoa).
Qed.

Lemma limits_step tn d d' : org_step tn d d' → org_refs d → org_unique d → owners_ok d → org_limits d → org_limits d'.
Proof.
  intros Hs Hr Hu Hown [Ho Hw Ht Hm Hp Hi].
  destruct Hs; [| |destruct (transfer_members d o user m) as (a & Ha & Hoa & Hua & Hne & ->); try done|..];
    split; try done; try solve [limit_new|limit_over|limit_del].
  - intros org. simpl. unfold repo_put. apply rcount_set_limit; [done|]. intros E. unfold member_in in E. bool_to_prop. subst org.
    rewrite rcount_zero; [done| |apply Hr]. intros k m' Hg. unfold member_in. apply bool_decide_eq_false. intros E.
    destruct (r_members d Hr _ _ Hg) as (o' & Hg' & _). congruence.
  - intros org. simpl. unfold repo_put. pose proof (k_members d Hr) as Hk.
    destruct (member_by_user_get _ _ _ _ Hk ltac:(eassumption)) as (Hgm & Hom & Hum).
    etransitivity; [eapply (rcount_set_over _ _ _ m); [by rewrite dict_get_set_ne|done]|].
    etransitivity; [by eapply (rcount_set_over _ _ _ a)|done].
Qed.
(** *** References *)

Lemma has_org_set orgs o org tn :
  (∀ o0, dict_get (o_id o) orgs = Some o0 → o_tenant o = o_tenant o0) → has_org orgs org tn →
  has_org (dict_set (o_id o) o orgs) org tn.
Proof.
  intros Ho (o1 & Hg & Ht). unfold has_org. rewrite dict_get_set. case_decide as E; [|eauto].
  subst org. exists o. split; [done|]. by rewrite (Ho _ Hg).
Qed.

Lemma has_org_pop orgs k org tn : org ≠ k → has_org orgs org tn → has_org (dict_pop k orgs) org tn.
Proof. intros Hne (o & Hg & Ht). exists o. by rewrite dict_get_pop_ne. Qed.

Lemma has_ws_set wss w ws org tn :
  (∀ w0, dict_get (ws_id w) wss = Some w0 → ws_org w = ws_org w0 ∧ ws_tenant w = ws_tenant w0) →
  has_ws wss ws org tn → has_ws (dict_set (ws_id w) w wss) ws org tn.
Proof.
  intros Hw (w1 & Hg & Ho & Ht). unfold has_ws. rewrite dict_get_set. case_decide as E; [|eauto].
  subst ws. destruct (Hw _ Hg). exists w. split; [done|]. split; congruence.
Qed.

Lemma has_ws_pop_all wss ks ws org tn : dict_wf wss → ws ∉ ks → has_ws wss ws org tn → has_ws (pop_all ks wss) ws org tn.
Proof. intros Hwf Hn (w & Hg & H). exists w. by rewrite get_pop_all, decide_False. Qed.

(** Cases of a look-up in a changed repository. *)
Ltac look H :=
  simpl in H; unfold repo_put in H;
  first [rewrite dict_get_set in H; case_decide; simplify_eq
        |rewrite get_pop_all in H by eauto with pydb; case_decide; simplify_eq
        |idtac].

Ltac by_look := let k := fresh "k" in let H := fresh "Hg" in intros k ? H; look H; try done; eauto.

Lemma refs_put_org d o :
  org_refs d → (∀ o0, dict_get (o_id o) (d_orgs d) = Some o0 → o_tenant o = o_tenant o0) → org_refs (put_org o d).
Proof.
  intros [] Ho. split; simpl; try done; [by apply (keyed_set o_id)|..];
    intros k x Hg; apply has_org_set; eauto.
Qed.

Lemma refs_put_ws d w :
  org_refs d → has_org (d_orgs d) (ws_org w) (ws_tenant w) →
  (∀ w0, dict_get (ws_id w) (d_wss d) = Some w0 → ws_org w = ws_org w0 ∧ ws_tenant w = ws_tenant w0) →
  org_refs (put_ws w d).
Proof.
  intros [] Ho Hw. split; simpl; try done; [by apply (keyed_set ws_id)|by_look|].
  intros k p Hg. apply has_ws_set; eauto.
Qed.

Lemma refs_put_team d x : org_refs d → has_org (d_orgs d) (tm_org x) (tm_tenant x) → org_refs (put_team x d).
Proof. intros [] Ho. split; simpl; try done; [by apply (keyed_set tm_id)|by_look]. Qed.

Lemma refs_put_member d m : org_refs d → has_org (d_orgs d) (mb_org m) (mb_tenant m) → org_refs (put_member m d).
Proof. intros [] Ho. split; simpl; try done; [by apply (keyed_set mb_id)|by_look]. Qed.

Lemma refs_put_invite d i : org_refs d → has_org (d_orgs d) (in_org i) (in_tenant i) → org_refs (put_invite i d).
Proof. intros [] Ho. split; simpl; try done; [by apply (keyed_set in_id)|by_look]. Qed.

Lemma refs_put_project d p :
  org_refs d → has_ws (d_wss d) (pj_ws p) (pj_org p) (pj_tenant p) → org_refs (put_project p d).
Proof. intros [] Ho. split; simpl; try done; [by apply (keyed_set pj_id)|by_look]. Qed.

Lemma refs_del_org d org :
  org_refs d →
  (∀ k w, dict_get k (d_wss d) = Some w → ws_org w ≠ org) →
  (∀ k x, dict_get k (d_teams d) = Some x → tm_org x ≠ org) →
  org_refs (mk_org_data (dict_pop org (d_orgs d)) (d_wss d) (d_teams d)
              (pop_all (List.filter (λ p, bool_decide (mb_org p.2 = org)) (d_members d)).*1 (d_members d))
              (d_projects d) (pop_all (in_id <$> invites_of_org org "" (d_invites d)) (d_invites d))).
Proof.
  intros [] Hw Ht. split; simpl; try done; auto with pydb; try (intros k x Hg; apply has_org_pop; eauto).
  - look Hg. intros Ho. apply H. apply list_elem_of_fmap. exists (k, x). split; [done|].
    apply list_elem_of_In, List.filter_In. simpl. rewrite bool_decide_eq_true. split; [|done].
    by apply list_elem_of_In, dict_get_elem_of.
  - look Hg. eauto.
  - look Hg. intros Ho. apply H. apply list_elem_of_fmap. exists x.
    split; [by rewrite (keyed_get _ _ _ _ k_invites0 Hg)|]. unfold invites_of_org. simpl.
    rewrite elem_of_py_sorted. apply list_elem_of_In, List.filter_In. rewrite bool_decide_eq_true. split; [|done].
    apply list_elem_of_In, list_elem_of_fmap. exists (k, x). split; [done|]. by apply dict_get_elem_of.
  - look Hg. eauto.
Qed.

Lemma refs_step tn d d' : org_step tn d d' → org_refs d → org_unique d → owners_ok d → org_refs d'.
Proof.
  intros Hs Hr Hu Hown. destruct Hs; [| |destruct (transfer_members d o user m) as (a & Ha & Hoa & Hua & Hne & ->); try done|..].
  - apply refs_put_member; [apply refs_put_org; [done|congruence]|]. exists o. simpl. unfold repo_put.
    split; [rewrite H4; apply dict_get_set_eq|congruence].
  - apply refs_put_org; [done|]. congruence.
  - destruct (member_by_user_get _ _ _ _ (k_members d Hr) ltac:(eassumption)) as (Hgm & Hom & Hum).
    apply refs_put_org; [apply refs_put_member; [apply refs_put_member; [done|]|]|]; simpl.
    + by apply (r_members d Hr _ _ Ha).
    + by apply (r_members d Hr _ _ Hgm).
    + intros o0 Hg. congruence.
  - by apply refs_del_org.
  - apply refs_put_ws; [done|congruence|congruence].
  - apply refs_put_ws; [done| |intros w0 Hg; split; congruence].
    rewrite H1, H2, <- H0. by apply (r_wss d Hr _ _ H).
  - destruct Hr. split; simpl; auto with pydb; [by_look|]. intros k p Hg. apply has_ws_pop_all; eauto. by destruct k_wss0.
  - apply refs_put_team; [done|congruence].
  - apply refs_put_team; [done|]. rewrite H1, H2, <- H0. by apply (r_teams d Hr _ _ H).
  - destruct Hr. split; simpl; auto with pydb. by_look.
  - apply refs_put_member; [done|congruence].
  - apply refs_put_member; [done|]. by apply (r_members d Hr _ _ H).
  - destruct Hr. split; simpl; auto with pydb. intros k x Hg. destruct (decide (mb_id m = k)) as [<-|Hne].
    + rewrite dict_get_pop_eq in Hg; [done|apply k_members0].
    + rewrite dict_get_pop_ne in Hg by done. eauto.
  - apply refs_put_project; [done|]. exists w. split_and!; congruence.
  - apply refs_put_project; [done|]. rewrite H1, H2, H3, <- H0. by apply (r_projects d Hr _ _ H).
  - destruct Hr. split; simpl; auto with pydb. by_look.
  - apply refs_put_invite; [done|congruence].
  - apply refs_put_invite; [done|]. rewrite H1, H2, <- H0. by apply (r_invites d Hr _ _ H).
Qed.
(** *** Uniqueness *)

Lemma org_by_slug_other d slug tn k o :
  (∀ e, org_by_slug slug tn (d_orgs d) = Some e → o_id e = k) → org_refs d → org_unique d →
  ∀ k', dict_get k' (d_orgs d) = Some o → (o_tenant o, o_slug o) = (tn, slug) → k' = k.
Proof.
  intros He Hr Hu k' Hg [= Ht Hs]. destruct (org_by_slug slug tn (d_orgs d)) as [e|] eqn:E.
  - destruct (keyed_find_Some _ _ _ _ (k_orgs d Hr) E) as [Hge HP]. bool_to_prop.
    rewrite <- (He e eq_refl). eapply (u_slugs d Hu); [done|done|]. simpl. congruence.
  - pose proof (repo_find_None _ _ _ _ E Hg) as HP. simpl in HP. rewrite !bool_decide_true in HP; done.
Qed.

Lemma ws_by_slug_other d slug org k w :
  ws_by_slug slug org (d_wss d) = None → dict_get k (d_wss d) = Some w → (ws_org w, ws_slug w) ≠ (org, slug).
Proof. intros E Hg [= Ho Hs]. pose proof (repo_find_None _ _ _ _ E Hg) as HP. simpl in HP. rewrite !bool_decide_true in HP; done. Qed.

Lemma unique_step tn d d' : org_step tn d d' → org_refs d → org_unique d → owners_ok d → org_unique d'.
Proof.
  intros Hs Hr Hu Hown. pose proof (k_orgs d Hr) as [Hwo _]. pose proof (k_wss d Hr) as [Hww _].
  pose proof (k_members d Hr) as [Hwm _]. pose proof (k_invites d Hr) as [Hwi _].
  destruct Hs; [| |destruct (transfer_members d o user m) as (a & Ha & Hoa & Hua & Hne & ->); try done|..];
    pose proof Hu as [Hs Hws Hm Htk]; split; simpl; unfold repo_put; auto using unique_by_pop, unique_by_pop_all.
  - apply unique_by_set; [done|]. intros k' o'. eapply org_by_slug_other; [|done|done].
    intros e. subst tn. rewrite H1. done.
  - apply unique_by_set; [done|]. intros k' m' Hg [= E1 E2]. destruct (r_members d Hr _ _ Hg) as (? & ? & ?). congruence.
  - destruct H3 as [Hsame|Hfree].
    + eapply unique_by_over; [done|done|]. congruence.
    + apply unique_by_set; [done|]. intros k' e Hg Heq. eapply org_by_slug_other; [|done|done|done|]; [exact Hfree|congruence].
  - by eapply unique_by_over.
  - destruct (member_by_user_get _ _ _ _ (k_members d Hr) ltac:(eassumption)) as (Hgm & Hom & Hum).
    eapply unique_by_over; [by eapply unique_by_over|by rewrite dict_get_set_ne|done].
  - apply unique_by_set; [done|]. intros k' w' Hg E. by destruct (ws_by_slug_other _ _ _ _ _ H2 Hg).
  - destruct H3 as [Hsame|Hfree].
    + eapply unique_by_over; [done|done|]. congruence.
    + apply unique_by_set; [done|]. intros k' w1 Hg E. destruct (ws_by_slug_other _ _ _ _ _ Hfree Hg). congruence.
  - apply unique_by_set; [done|]. intros k' m' Hg [= E1 E2]. by destruct (member_by_user_none _ _ _ _ _ H2 Hg E1).
  - by eapply unique_by_over.
  - apply unique_by_set; [done|]. intros k' i' Hg E. pose proof (repo_find_None _ _ _ _ H3 Hg) as HP. simpl in HP.
    by rewrite bool_decide_true in HP.
  - by eapply unique_by_over.
Qed.

(** *** Owners *)

(** A change of members that keeps every owner keeps [owners_ok]. *)
Lemma owners_members d d' :
  owners_ok d → d_orgs d' = d_orgs d →
  (∀ k m, dict_get k (d_members d) = Some m → mb_role m = ROLE_OWNER → dict_get k (d_members d') = Some m) → owners_ok d'.
Proof.
  intros Hown Ho Hm k o Hg. rewrite Ho in Hg. destruct (Hown k o Hg) as (k' & m & Hgm & H1 & H2 & H3).
  exists k', m. auto.
Qed.

Lemma owners_step tn d d' : org_step tn d d' → org_refs d → org_unique d → owners_ok d → owners_ok d'.
Proof.
  intros Hs Hr Hu Hown. pose proof (k_orgs d Hr) as Hko. pose proof (k_members d Hr) as Hkm.
  destruct Hs; [| |destruct (transfer_members d o user m) as (a & Ha & Hoa & Hua & Hne & ->); try done|..];
    try (by eapply owners_members; [exact Hown|..]).
  - intros k o1 Hg. simpl in Hg |- *. unfold repo_put in *. rewrite dict_get_set in Hg. case_decide as E; simplify_eq.
    + exists (mb_id m), m. by rewrite dict_get_set_eq.
    + destruct (Hown _ _ Hg) as (k' & m1 & Hg1 & Hrest). exists k', m1. rewrite dict_get_set_ne by congruence. done.
  - intros k o1 Hg. simpl in Hg |- *. unfold repo_put in *. rewrite dict_get_set in Hg. case_decide as E; simplify_eq; [|by eapply Hown].
    destruct (Hown _ _ H) as (k' & m1 & Hg1 & E1 & E2 & E3). exists k', m1. split_and!; [done| |congruence|done].
    by rewrite E1, (keyed_get _ _ _ _ Hko H).
  - destruct (member_by_user_get _ _ _ _ Hkm H1) as (Hgm & Hom & Hum).
    intros k o1 Hg. simpl in Hg |- *. unfold repo_put in *. simpl in *. rewrite dict_get_set in Hg. case_decide as E; simplify_eq.
    + exists (mb_id m), (with_role ROLE_OWNER (mb_updated_at m) m). by rewrite dict_get_set_eq.
    + destruct (Hown _ _ Hg) as (k' & m1 & Hg1 & E1 & E2 & E3). exists k', m1.
      pose proof (keyed_get _ _ _ _ Hko Hg) as Eo1. rewrite !dict_get_set_ne; [done|..]; intros <-; congruence.
  - intros k o1 Hg. simpl in Hg |- *. destruct (decide (org = k)) as [<-|Hne]; [by rewrite dict_get_pop_eq in Hg by apply Hko|].
    rewrite dict_get_pop_ne in Hg by done. destruct (Hown _ _ Hg) as (k' & m1 & Hg1 & E1 & E2 & E3).
    exists k', m1. rewrite get_pop_all, decide_False; [done| |apply Hkm].
    intros (q & -> & Hq)%list_elem_of_fmap. apply list_elem_of_In, List.filter_In in Hq as [Hq Ho%bool_decide_eq_true].
    destruct q as [q1 q2]. apply list_elem_of_In, (dict_elem_of_get q1 q2) in Hq; [|apply Hkm].
    pose proof (keyed_get _ _ _ _ Hko Hg). simpl in *. congruence.
  - eapply owners_members; [exact Hown|done|]. intros k m1 Hg1 Hrole. simpl. unfold repo_put.
    rewrite dict_get_set_ne; [done|]. intros E. simpl in E. subst k. congruence.
  - eapply owners_members; [exact Hown|done|]. intros k m1 Hg1 Hrole. simpl. unfold repo_put.
    rewrite dict_get_set_ne; [done|]. intros E. simpl in E. subst k. congruence.
  - eapply owners_members; [exact Hown|done|]. intros k m1 Hg1 Hrole. simpl.
    rewrite dict_get_pop_ne; [done|]. intros E. subst k. congruence.
Qed.

Lemma inv_step tn d d' : org_step tn d d' → org_inv d → org_inv d'.
Proof.
  intros Hs [Hr Hu Ho Hl]. split;
    [by eapply refs_step|by eapply unique_step|by eapply owners_step|by eapply limits_step].
Qed.

Lemma inv_steps tn d d' : rtc (org_step tn) d d' → org_inv d → org_inv d'.
Proof. induction 1; eauto using inv_step. Qed.
(** ** Isolation *)

(** The data of one tenant. *)
Definition tenant_view (tn : string) (d : OrgData) : OrgData :=
  mk_org_data (rview (in_tenant_o tn) (d_orgs d)) (rview (λ w, bool_decide (ws_tenant w = tn)) (d_wss d))
    (rview (λ x, bool_decide (tm_tenant x = tn)) (d_teams d)) (rview (λ m, bool_decide (mb_tenant m = tn)) (d_members d))
    (rview (λ p, bool_decide (pj_tenant p = tn)) (d_projects d)) (rview (λ i, bool_decide (in_tenant i = tn)) (d_invites d)).

Lemma org_tenant_of orgs org tn o : has_org orgs org tn → dict_get org orgs = Some o → tn = o_tenant o.
Proof. intros (o' & Hg & <-). congruence. Qed.

Ltac view_tac :=
  first [rewrite rview_set_other | rewrite rview_pop_other | rewrite rview_pop_all_other];
  [done|try (unfold in_tenant_o; apply bool_decide_eq_false; simpl; congruence)..];
  intros; unfold in_tenant_o; apply bool_decide_eq_false.

Lemma isolation_step tn tn' d d' :
  org_step tn d d' → org_refs d → org_unique d → owners_ok d → tn' ≠ tn → tenant_view tn' d' = tenant_view tn' d.
Proof.
  intros Hs Hr Hu Hown Hne. pose proof (keyed_wf _ _ (k_members d Hr)) as Hwm.
  pose proof (keyed_wf _ _ (k_invites d Hr)) as Hwi. pose proof (keyed_wf _ _ (k_wss d Hr)) as Hww.
  pose proof (keyed_wf _ _ (k_teams d Hr)) as Hwt. pose proof (keyed_wf _ _ (k_projects d Hr)) as Hwp.
  destruct Hs; [| |destruct (transfer_members d o user m) as (a & Ha & Hoa & Hua & Hne' & ->); try done|..];
    unfold tenant_view; simpl; unfold repo_put; f_equal; try (view_tac; naive_solver congruence).
  - destruct (member_by_user_get _ _ _ _ (k_members d Hr) ltac:(eassumption)) as (Hgm & Hom & Hum).
    pose proof (org_tenant_of _ _ _ _ (r_members d Hr _ _ Hgm) ltac:(rewrite Hom; eassumption)) as Et.
    pose proof (org_tenant_of _ _ _ _ (r_members d Hr _ _ Ha) ltac:(rewrite Hoa; eassumption)) as Et'.
    rewrite !rview_set_other; [done|apply bool_decide_eq_false; simpl; congruence| |
      apply bool_decide_eq_false; simpl; congruence|].
    + intros m0. simpl. intros Hg. apply bool_decide_eq_false. congruence.
    + intros m0. simpl. rewrite dict_get_set_ne by done. intros Hg. apply bool_decide_eq_false. congruence.
  - apply rview_pop_all_other; [done|]. intros k m0 (q & -> & Hq)%list_elem_of_fmap Hg.
    apply list_elem_of_In, List.filter_In in Hq as [Hq Ho%bool_decide_eq_true].
    destruct q as [k m1]. apply list_elem_of_In, (dict_elem_of_get k m1) in Hq; [|done]. simpl in *. simplify_eq.
    pose proof (org_tenant_of _ _ _ _ (r_members d Hr _ _ Hq) H). apply bool_decide_eq_false. congruence.
  - apply rview_pop_all_other; [done|]. intros k i0 (i & -> & Hi)%list_elem_of_fmap Hg.
    unfold invites_of_org in Hi. simpl in Hi. rewrite elem_of_py_sorted in Hi.
    apply list_elem_of_In, List.filter_In in Hi as [Hin Ho%bool_decide_eq_true].
    apply list_elem_of_In, (keyed_value in_id _ _ (k_invites d Hr)) in Hin. simplify_eq.
    pose proof (org_tenant_of _ _ _ _ (r_invites d Hr _ _ Hin) H). apply bool_decide_eq_false. congruence.
  - apply rview_pop_all_other; [done|]. intros k w Hk Hg. apply bool_decide_eq_false. rewrite (H k w); done.
  - apply rview_pop_all_other; [done|]. intros k w Hk Hg. apply bool_decide_eq_false. rewrite (H k w); done.
  - apply rview_pop_all_other; [done|]. intros k w Hk Hg. apply bool_decide_eq_false. rewrite (H k w); done.
Qed.

Lemma isolation_steps tn tn' d d' :
  rtc (org_step tn) d d' → org_inv d → tn' ≠ tn → tenant_view tn' d' = tenant_view tn' d.
Proof.
  intros Hs. induction Hs as [|d d1 d2 H1 H2 IH]; intros Hi Hne; [done|]. rewrite IH; [|by eapply inv_step|done].
  destruct Hi. by eapply isolation_step.
Qed.

(** ** Invitations *)

(** No invitation with the token is pending. *)
Definition token_closed (token : string) (d : OrgData) : Prop :=
  ∀ k i, dict_get k (d_invites d) = Some i → in_token i = token → in_status i ≠ INVITE_PENDING.

Lemma token_closed_step tn d d' token :
  org_step tn d d' → org_refs d → ¬ new_token token → token_closed token d → token_closed token d'.
Proof.
  intros Hs Hr Hn Hc.
  assert (∀ d1, d_invites d1 = d_invites d → token_closed token d1) as Hsame by (intros d1 E k i; rewrite E; apply Hc).
  destruct Hs; try (by apply Hsame).
  - apply (Hsame (demote_owner (o_id o) (o_owner o) d)). unfold demote_owner. by destruct (member_by_user (o_id o) (o_owner o) _).
  - intros k i. simpl. rewrite get_pop_all by apply (keyed_wf _ _ (k_invites d Hr)). case_decide; [done|apply Hc].
  - intros k i'. simpl. unfold repo_put. rewrite dict_get_set. case_decide; [|apply Hc].
    intros [= <-] E. by rewrite E in *.
  - intros k i''. simpl. unfold repo_put. rewrite dict_get_set. case_decide; [|apply Hc]. by intros [= <-] E.
Qed.

Lemma token_closed_steps tn d d' token :
  rtc (org_step tn) d d' → org_inv d → ¬ new_token token → token_closed token d → token_closed token d'.
Proof.
  induction 1 as [|d d1 d2 H1 H2 IH]; intros Hi Hn Hc; [done|]. apply IH; [by eapply inv_step|done|].
  eapply token_closed_step; [done|by destruct Hi|done|done].
Qed.
End Machine.
End OrgSpec.
