(* ===== verification/OrgOps.v ===== *)
(** * Organisations: the managers refine the state machine

    Every operation of the managers, failing ones included, is a sequence of
    steps of [OrgSpec.org_step] on the data of one tenant ([org_op_refines]).  It
    follows that every sequence of operations keeps the repositories consistent
    and within the limits, that a tenant's operations do not touch the data of
    another one, and that an invitation is accepted at most once. *)

From Stdlib Require Import ZArith Lia.
From stdpp Require Import base numbers strings gmap relations list.
From S2P Require Import Prelude PyFloat PyNum PyStr PyDict AuthModel OrgModel OrgManager OrgSpec.

Module OrgOps.
Import AuthPolicy OrgModel OrgManager OrgSpec.
Open Scope string_scope.
Open Scope Z_scope.

(** ** Symbolic execution

    [ends P m st]: the data satisfy [P] when [m] has run from [st]. *)

Definition ends {A} (P : OrgData → Prop) (m : O A) (st : OrgState) : Prop := P (os_data (m st).2).

Definition idle {A} (m : O A) : Prop := ∀ st, os_data (m st).2 = os_data st.

Section Ends.
Context (P : OrgData → Prop).

Lemma ends_asks {A B} (f : OrgState → result OrgExn A) (k : A → O B) st :
  P (os_data st) → (∀ a, f st = Ok a → ends P (k a) st) → ends P (asks f ≫= k) st.
Proof. intros H0 Hk. unfold ends, mbind, SE_bind, asks. destruct (f st) as [a|e] eqn:E; [by apply Hk|done]. Qed.

Lemma ends_known {A B} (f : OrgState → result OrgExn A) (k : A → O B) st a :
  f st = Ok a → ends P (k a) st → ends P (asks f ≫= k) st.
Proof. intros H. unfold ends, mbind, SE_bind, asks. by rewrite H. Qed.

Lemma ends_fail_if {B} b e (k : unit → O B) st :
  P (os_data st) → (b st = false → ends P (k tt) st) → ends P (fail_if b e ≫= k) st.
Proof.
  intros H0 Hk. apply ends_asks; [done|]. intros [] H. apply Hk. by destruct (b st).
Qed.

Lemma ends_data {B} f (k : unit → O B) st :
  (∀ st', os_data st' = f (os_data st) → os_guard st' = os_guard st → ends P (k tt) st') →
  ends P (on_data f ≫= k) st.
Proof. intros Hk. by apply Hk. Qed.

Lemma ends_idle {A} (m : O A) st : idle m → P (os_data st) → ends P m st.
Proof. intros Hq H0. unfold ends. by rewrite Hq. Qed.

Lemma ends_bind {A B} (m : O A) (k : A → O B) st :
  ends P m st → (∀ a st', m st = (Ok a, st') → P (os_data st') → ends P (k a) st') → ends P (m ≫= k) st.
Proof.
  unfold ends, mbind, SE_bind. intros Hm Hk. destruct (m st) as [[a|e] st'] eqn:E; [by apply Hk|done].
Qed.

Lemma ends_idle_l {A B} (m : O A) (k : A → O B) st :
  idle m → P (os_data st) → (∀ a st', os_data st' = os_data st → ends P (k a) st') → ends P (m ≫= k) st.
Proof.
  intros Hq H0 Hk. apply ends_bind; [by apply ends_idle|]. intros a st' E _. apply Hk.
  specialize (Hq st). by rewrite E in Hq.
Qed.
End Ends.

Lemma idle_bind {A B} (m : O A) (k : A → O B) : idle m → (∀ a, idle (k a)) → idle (m ≫= k).
Proof.
  intros Hm Hk st. specialize (Hm st). unfold mbind, SE_bind.
  destruct (m st) as [[a|e] st']; simpl in *; [by rewrite Hk|done].
Qed.
Lemma idle_ret {A} (a : A) : idle (mret a). Proof. done. Qed.
Lemma idle_raise {A} e : idle (se_raise (A := A) e). Proof. done. Qed.
Lemma idle_asks {A} (f : OrgState → result OrgExn A) : idle (asks f). Proof. done. Qed.
Lemma idle_metric cfg e s : idle (metric cfg e s). Proof. done. Qed.
Lemma idle_audit a t u : idle (audit_event a t u). Proof. done. Qed.

Create HintDb idledb.
#[export] Hint Resolve idle_ret idle_raise idle_asks idle_metric idle_audit : idledb.

Ltac idle_solve :=
  repeat first
    [ progress eauto with idledb
    | match goal with
      | |- idle (_ ≫= _) => apply idle_bind; [|intros ?]
      | |- idle (if ?b then _ else _) => destruct b
      | |- idle (match ?x with _ => _ end) => destruct x
      end ].

(** Running a computation whose checks pass. *)
Lemma asks_Ok {A B} (f : OrgState → result OrgExn A) (k : A → O B) st a : f st = Ok a → (asks f ≫= k) st = k a st.
Proof. intros H. unfold mbind, SE_bind, asks. by rewrite H. Qed.

Lemma fail_if_false {B} b e (k : unit → O B) st : b st = false → (fail_if b e ≫= k) st = k tt st.
Proof. intros H. apply asks_Ok. by rewrite H. Qed.

Lemma asks_cases {A B} (f : OrgState → result OrgExn A) (k : A → O B) st :
  (∃ e, (asks f ≫= k) st = (Err e, st)) ∨ (∃ a, f st = Ok a ∧ (asks f ≫= k) st = k a st).
Proof. unfold mbind, SE_bind, asks. destruct (f st) as [a|e]; [right; by exists a|left; by exists e]. Qed.

Lemma fail_if_cases {B} b e (k : unit → O B) st :
  (fail_if b e ≫= k) st = (Err e, st) ∨ (b st = false ∧ (fail_if b e ≫= k) st = k tt st).
Proof. unfold fail_if, mbind, SE_bind, asks. by destruct (b st); [left|right]. Qed.

(** ** What the checks establish *)

Lemma org_get_Ok tn org st o : org_get tn org st = Ok o → dict_get org (d_orgs (os_data st)) = Some o ∧ o_tenant o = tn.
Proof.
  unfold org_get. destruct (dict_get _ _) as [o'|]; [|done]. case_bool_decide; simpl; [|done]. by intros [= <-].
Qed.

(** An entity of tenant [tn] answers to the caller's tenant [tn']. *)
Definition tenant_matches (tn tn' : string) : Prop := tn = tn' ∨ truthy tn = false ∨ truthy tn' = false.

Lemma mem_get_org_Ok tn org st o :
  mem_get_org org tn st = Ok o → dict_get org (d_orgs (os_data st)) = Some o ∧ tenant_matches (o_tenant o) tn.
Proof.
  unfold mem_get_org, assert_tenant, tenant_matches. destruct (dict_get _ _) as [o'|]; [|done].
  destruct (truthy (o_tenant o')) eqn:E1, (truthy tn) eqn:E2; simpl; try (intros [= <-]; auto; fail).
  case_bool_decide; simpl; [|done]. intros [= <-]; auto.
Qed.

Lemma ws_get_Ok org ws tn st w :
  ws_get org ws tn st = Ok w → dict_get ws (d_wss (os_data st)) = Some w ∧ ws_org w = org ∧ ws_tenant w = tn.
Proof.
  unfold ws_get. destruct (dict_get _ _) as [w'|]; [|done]. repeat case_bool_decide; simpl; try done. by intros [= <-].
Qed.

Lemma team_get_Ok org tm st x : team_get org tm st = Ok x → dict_get tm (d_teams (os_data st)) = Some x ∧ tm_org x = org.
Proof.
  unfold team_get. destruct (dict_get _ _) as [x'|]; [|done]. case_bool_decide; simpl; [|done]. by intros [= <-].
Qed.

Lemma project_get_Ok org ws pj st p :
  project_get org ws pj st = Ok p → dict_get pj (d_projects (os_data st)) = Some p ∧ pj_org p = org ∧ pj_ws p = ws.
Proof.
  unfold project_get. destruct (dict_get _ _) as [w'|]; [|done]. repeat case_bool_decide; simpl; try done. by intros [= <-].
Qed.

Lemma some_or_Ok {A} e (x : option A) a : some_or e x = Ok a → x = Some a.
Proof. destruct x; simpl; congruence. Qed.

Lemma is_some_false {A} (x : option A) : is_some x = false → x = None.
Proof. by destruct x. Qed.

Section Refines.
Context (cfg : OrganizationConfig).
Context (new_token : string → Prop).
Hypothesis members_allowed : 0 < max_members_per_org cfg.

Abbreviation steps tn := (rtc (org_step cfg new_token tn)).

(** The computation ends where the machine can get. *)
Definition refines {A} (tn : string) (m : O A) (st : OrgState) : Prop := ends (steps tn (os_data st)) m st.

Ltac run :=
  repeat (match goal with
  | |- refines _ _ _ => unfold refines
  | |- ends _ (asks _ ≫= _) _ => apply ends_asks; [try done|intros ? ?]
  | |- ends _ (fail_if _ _ ≫= _) _ => apply ends_fail_if; [try done|intros ?; cbv beta in *]
  end).

Ltac finish := apply ends_idle; [idle_solve|].

(** *** Members *)

Definition member_id (g : nat → string) : string := "mem_" +:+ String.substring 0 16 (g 0%nat).

Lemma add_member_refines t g org user tn0 role actor o st :
  dict_get org (d_orgs (os_data st)) = Some o →
  dict_get (member_id g) (d_members (os_data st)) = None →
  refines (o_tenant o) (add_member cfg t g org user tn0 role actor) st.
Proof.
  intros Hg Hf. unfold add_member. run. apply mem_get_org_Ok in H as [Hg' _]. simplify_eq.
  apply ends_data. intros st' Hd _. finish. rewrite Hd. apply rtc_once, st_member_new; simpl.
  - by eexists.
  - done.
  - done.
  - apply is_some_false. unfold find_member in *. done.
  - bool_to_prop. by rewrite <- (zlen_repo_list mb_created_at).
Qed.

Lemma remove_member_refines org user tn0 actor o st :
  org_refs (os_data st) → dict_get org (d_orgs (os_data st)) = Some o →
  refines (o_tenant o) (remove_member cfg org user tn0 actor) st.
Proof.
  intros Hr Hg. unfold remove_member. run. apply mem_get_org_Ok in H as [Hg' _]. simplify_eq.
  apply some_or_Ok in H0. destruct (member_by_user_get _ _ _ _ (k_members _ Hr) H0) as (Hgm & Ho & Hu).
  apply ends_data. intros st' Hd _. finish. rewrite Hd. bool_to_prop. apply rtc_once, st_member_del; [done| |done].
  eapply org_tenant_of; [eapply r_members; eassumption|by rewrite Ho].
Qed.

Lemma set_member_role_refines t org user role tn0 actor o st :
  org_refs (os_data st) → dict_get org (d_orgs (os_data st)) = Some o →
  refines (o_tenant o) (set_member_role cfg t org user role tn0 actor) st.
Proof.
  intros Hr Hg. unfold set_member_role. run. apply mem_get_org_Ok in H as [Hg' _]. simplify_eq.
  apply some_or_Ok in H1. destruct (member_by_user_get _ _ _ _ (k_members _ Hr) H1) as (Hgm & Ho & Hu).
  apply ends_data. intros st' Hd _. finish. rewrite Hd. bool_to_prop. apply rtc_once, st_member_role; [done| |done].
  eapply org_tenant_of; [eapply r_members; eassumption|by rewrite Ho].
Qed.
(** *** Organisations *)

Definition org_new_id (g : nat → string) : string := "org_" +:+ String.substring 0 16 (g 0%nat).

(** Adding a member succeeds when no check fails. *)
Lemma add_member_ok t g org user role r o st :
  dict_get org (d_orgs (os_data st)) = Some o → org_is_active o = true → validate_member_role role = Ok r →
  member_by_user org user (d_members (os_data st)) = None →
  rcount (member_in org) (d_members (os_data st)) < max_members_per_org cfg →
  let m := mk_member (member_id g) org (o_tenant o) user r MEMBER_ACTIVE (t 0%nat) (t 1%nat) in
  (add_member cfg t g org user (o_tenant o) role None st).1 = Ok m ∧
  os_data (add_member cfg t g org user (o_tenant o) role None st).2 = put_member m (os_data st).
Proof.
  intros Hg Ha Hr Hm Hc m. unfold add_member.
  assert (∀ x, assert_tenant x x = Ok tt) as Ht.
  { intros x. unfold assert_tenant. rewrite bool_decide_true by done. by rewrite andb_false_r. }
  rewrite (asks_Ok _ _ _ o) by (unfold mem_get_org; by rewrite Hg, Ht).
  rewrite (asks_Ok _ _ _ tt) by (unfold require_org; by rewrite Ht, Ha).
  rewrite (asks_Ok _ _ _ r) by done. rewrite fail_if_false by (simpl; by rewrite andb_false_r).
  rewrite fail_if_false by (unfold find_member; by rewrite Hm).
  rewrite fail_if_false by (unfold members_of_org; rewrite zlen_repo_list; by apply Z.leb_gt).
  by rewrite (asks_Ok _ _ _ tt).
Qed.

Lemma no_members_of d org : org_refs d → dict_get org (d_orgs d) = None → rcount (member_in org) (d_members d) = 0.
Proof.
  intros Hr Hn. apply rcount_zero; [|apply (k_members d Hr)]. intros k m Hg. apply bool_decide_eq_false. intros <-.
  destruct (r_members d Hr _ _ Hg) as (o & Ho & _). congruence.
Qed.

Lemma no_member_of d org user : org_refs d → dict_get org (d_orgs d) = None → member_by_user org user (d_members d) = None.
Proof.
  intros Hr Hn. destruct (member_by_user org user (d_members d)) as [m|] eqn:E; [|done].
  destruct (member_by_user_get _ _ _ _ (k_members d Hr) E) as (Hg & Ho & _).
  destruct (r_members d Hr _ _ Hg) as (o & Hgo & _). congruence.
Qed.

Lemma org_create_refines t g tn name owner desc slug plan st :
  org_refs (os_data st) → dict_get (org_new_id g) (d_orgs (os_data st)) = None →
  dict_get (member_id (λ k, g (1 + k)%nat)) (d_members (os_data st)) = None →
  refines tn (org_create cfg t g tn name owner desc slug plan) st.
Proof.
  intros Hr Hn Hm. unfold org_create. run. set (o := mk_org _ _ _ _ _ _ _ _ _ _).
  apply ends_data. intros st1 Hd1 _.
  destruct (add_member_ok (λ k, t (2 + k)%nat) (λ k, g (1 + k)%nat) (o_id o) owner "owner" ROLE_OWNER o st1) as [Hres Hdata].
  { rewrite Hd1. apply dict_get_set_eq. }
  { done. }
  { done. }
  { rewrite Hd1. exact (no_member_of _ _ owner Hr Hn). }
  { rewrite Hd1. pose proof (no_members_of _ _ Hr Hn) as Hz. simpl in Hz |- *. unfold org_new_id in Hz. lia. }
  unfold ends, mbind at 1, SE_bind at 1. destruct (add_member _ _ _ _ _ _ _ _ _) as [res st2]. simpl in Hres, Hdata. subst res.
  change (ends (steps tn (os_data st)) (metric cfg "organization_created" (o_id o) ;; audit_event "org.created" tn owner ;; mret o) st2).
  finish. rewrite Hdata, Hd1. bool_to_prop. apply rtc_once, st_org_new; try done.
  - apply is_some_false. done.
  - by rewrite <- (zlen_repo_list o_created_at).
Qed.

(** The data have got where the machine can, and still hold the organisation. *)
Definition at_org (tn org : string) (d d' : OrgData) : Prop := steps tn d d' ∧ has_org (d_orgs d') org tn.

Lemma mod_org_step tn org f d o :
  keyed o_id (d_orgs d) → dict_get org (d_orgs d) = Some o → o_tenant o = tn →
  o_id (f o) = o_id o → o_tenant (f o) = o_tenant o → o_owner (f o) = o_owner o →
  (o_slug (f o) = o_slug o ∨ ∀ e, org_by_slug (o_slug (f o)) tn (d_orgs d) = Some e → o_id e = org) →
  org_step cfg new_token tn d (put_org (f o) d).
Proof.
  intros Hk Hg Ht E1 E2 E3 E4. pose proof (keyed_get _ _ _ _ Hk Hg) as Hid.
  eapply st_org_mod; [by rewrite E1, Hid|done|congruence|done|]. destruct E4 as [E4|E4]; [by left|right].
  intros e He. rewrite E1, Hid. by apply E4.
Qed.

Lemma put_org_has d org tn o : keyed o_id (d_orgs d) → dict_get org (d_orgs d) = Some o → o_tenant o = tn → has_org (d_orgs d) org tn.
Proof. intros. by exists o. Qed.

Lemma at_org_mod {B} tn org f d0 (k : unit → O B) st (P : OrgData → Prop) :
  org_inv cfg d0 → at_org tn org d0 (os_data st) →
  (∀ o, dict_get org (d_orgs (os_data st)) = Some o → o_tenant o = tn →
     o_id (f o) = o_id o ∧ o_tenant (f o) = o_tenant o ∧ o_owner (f o) = o_owner o ∧
     (o_slug (f o) = o_slug o ∨ ∀ e, org_by_slug (o_slug (f o)) tn (d_orgs (os_data st)) = Some e → o_id e = org)) →
  (∀ st', at_org tn org d0 (os_data st') → ends P (k tt) st') →
  ends P (mod_org org f ≫= k) st.
Proof.
  intros Hi [Hs (o & Hg & Ht)] Hf Hk. pose proof (inv_steps _ _ _ _ _ Hs Hi) as Hi'.
  pose proof (k_orgs _ (inv_refs _ _ Hi')) as Hko. destruct (Hf o Hg Ht) as (E1 & E2 & E3 & E4).
  apply ends_data. intros st' Hd _. apply Hk. rewrite Hd, Hg. split.
  - eapply rtc_r; [exact Hs|]. by eapply mod_org_step.
  - exists (f o). simpl. unfold repo_put. rewrite E1, (keyed_get _ _ _ _ Hko Hg). split; [apply dict_get_set_eq|congruence].
Qed.

Lemma org_set_fields_ends tn org fields d0 st :
  org_inv cfg d0 → at_org tn org d0 (os_data st) → ends (at_org tn org d0) (org_set_fields tn org fields) st.
Proof.
  intros Hi. revert st. induction fields as [|[key value] rest IH]; intros st Hw; simpl; [done|].
  apply ends_fail_if; [done|intros _]. apply ends_fail_if; [done|intros Hs].
  eapply at_org_mod; [done|done| |intros st'; apply IH].
  intros o Hg Ht. split_and!; [done|done|done|]. simpl. case_bool_decide as Ek; [right|by left].
  intros e He. rewrite He in Hs. simpl in Hs. by bool_to_prop.
Qed.

Lemma ends_mono {A} (P Q : OrgData → Prop) (m : O A) st : (∀ d, P d → Q d) → ends P m st → ends Q m st.
Proof. intros H. apply H. Qed.

Lemma org_update_refines t tn org fields st :
  org_inv cfg (os_data st) → refines tn (org_update t tn org fields) st.
Proof.
  intros Hi. unfold org_update. run. apply org_get_Ok in H as [Hg Ht].
  apply (ends_mono (at_org tn org (os_data st))); [by intros d []|].
  assert (at_org tn org (os_data st) (os_data st)) as Hw by (split; [done|by eexists]).
  apply ends_bind; [by apply org_set_fields_ends|]. intros _ st' _ Hw'.
  eapply at_org_mod; [done|done|by auto|]. intros st2 Hw2. by finish.
Qed.

(** A single change of the organisation. *)
Lemma org_status_refines {A} tn org s now (k : unit → O A) st o :
  org_inv cfg (os_data st) → dict_get org (d_orgs (os_data st)) = Some o → o_tenant o = tn → (∀ u, idle (k u)) →
  refines tn (mod_org org (set_org_status s now) ≫= k) st.
Proof.
  intros Hi Hg Ht Hq. unfold refines.
  apply (ends_mono (at_org tn org (os_data st))); [by intros d []|].
  eapply at_org_mod; [done|split; [done|by exists o]|by auto|]. intros st' Hw. by apply ends_idle.
Qed.

Lemma org_archive_refines t tn org st : org_inv cfg (os_data st) → refines tn (org_archive cfg t tn org) st.
Proof.
  intros Hi. unfold org_archive. run. apply org_get_Ok in H as [Hg Ht]. destruct (org_is_archived a); [by finish|].
  eapply org_status_refines; [done|done|done|]. intros; idle_solve.
Qed.

Lemma org_restore_refines t tn org st : org_inv cfg (os_data st) → refines tn (org_restore cfg t tn org) st.
Proof.
  intros Hi. unfold org_restore. run. apply org_get_Ok in H as [Hg Ht]. destruct (org_is_active a); [by finish|].
  eapply org_status_refines; [done|done|done|]. intros; idle_solve.
Qed.

Lemma transfer_refines t p org user tn st : org_inv cfg (os_data st) → refines tn (transfer_ownership cfg t p org user tn) st.
Proof.
  intros Hi. unfold transfer_ownership. run. apply org_get_Ok in H as [Hg Ht]. case_bool_decide; [by finish|].
  run. case_bool_decide; [by finish|]. apply some_or_Ok in H2.
  pose proof (keyed_get _ _ _ _ (k_orgs _ (inv_refs _ _ Hi)) Hg) as Hid.
  apply ends_data. intros st1 Hd1 _. apply ends_data. intros st2 Hd2 _. unfold mod_org.
  apply ends_data. intros st3 Hd3 _. finish. rewrite Hd3, Hd2, Hd1. simpl d_orgs.
  assert (d_orgs (demote_owner org (o_owner a) (os_data st)) = d_orgs (os_data st)) as ->.
  { unfold demote_owner. by destruct (member_by_user org (o_owner a) _). }
  rewrite Hg, <- Hid. apply rtc_once. eapply st_org_transfer; [by rewrite Hid|done|by rewrite Hid|done].
Qed.
(** *** Deletions *)

Lemma keyed_repo_list {V} (key : V → string) (created : V → float) P (r : dict string V) k v :
  keyed key r → dict_get k r = Some v → k ∈ key <$> repo_list created P r ↔ P v = true.
Proof.
  intros Hk Hg. pose proof (keyed_get _ _ _ _ Hk Hg) as <-. rewrite list_elem_of_fmap. unfold repo_list. split.
  - intros (v' & Hid & Hin). rewrite elem_of_py_sorted in Hin. apply list_elem_of_In, List.filter_In in Hin as [Hin HP].
    apply list_elem_of_In, (keyed_value _ _ _ Hk) in Hin. congruence.
  - intros HP. exists v. split; [done|]. rewrite elem_of_py_sorted. apply list_elem_of_In, List.filter_In. split; [|done].
    apply list_elem_of_In, list_elem_of_fmap. exists (key v, v). split; [done|]. by apply dict_get_elem_of.
Qed.

Lemma drop_projects_eq ws d :
  drop_projects ws d = set_projects (pop_all (pj_id <$> projects_of_ws ws (d_projects d)) (d_projects d)) d.
Proof.
  unfold drop_projects. generalize (projects_of_ws ws (d_projects d)). intros l. revert d.
  induction l as [|p l IH]; intros d; simpl; [by destruct d|]. by rewrite IH.
Qed.

Lemma drop_teams_eq org d :
  drop_teams org d = set_teams (pop_all (tm_id <$> teams_of_org org (d_teams d)) (d_teams d)) d.
Proof.
  unfold drop_teams. generalize (teams_of_org org (d_teams d)). intros l. revert d.
  induction l as [|p l IH]; intros d; simpl; [by destruct d|]. by rewrite IH.
Qed.

Lemma drop_invites_eq org d :
  drop_invites org d = set_invites (pop_all (in_id <$> invites_of_org org "" (d_invites d)) (d_invites d)) d.
Proof.
  unfold drop_invites. generalize (invites_of_org org "" (d_invites d)). intros l. revert d.
  induction l as [|p l IH]; intros d; simpl; [by destruct d|]. by rewrite IH.
Qed.

Lemma drop_projects_steps tn ws d :
  org_refs d → (∀ w, dict_get ws (d_wss d) = Some w → ws_tenant w = tn) → org_step cfg new_token tn d (drop_projects ws d).
Proof.
  intros Hr Hw. rewrite drop_projects_eq. apply st_project_del. intros k p Hk Hg.
  apply (keyed_repo_list _ _ _ _ _ _ (k_projects d Hr) Hg), bool_decide_eq_true in Hk.
  destruct (r_projects d Hr _ _ Hg) as (w & Hgw & _ & <-). apply Hw. congruence.
Qed.

Lemma drop_projects_none ws d k p :
  org_refs d → dict_get k (d_projects (drop_projects ws d)) = Some p → pj_ws p ≠ ws.
Proof.
  intros Hr. rewrite drop_projects_eq. simpl. rewrite get_pop_all by apply (keyed_wf _ _ (k_projects d Hr)).
  case_decide as Hk; [done|]. intros Hg E. apply Hk.
  apply (keyed_repo_list _ _ _ _ _ _ (k_projects d Hr) Hg). by apply bool_decide_eq_true.
Qed.

Lemma drop_ws_wss ws d : d_wss (drop_ws ws d) = dict_pop ws (d_wss d).
Proof. unfold drop_ws. by rewrite drop_projects_eq. Qed.

Lemma drop_ws_steps tn ws d :
  org_inv cfg d → (∀ w, dict_get ws (d_wss d) = Some w → ws_tenant w = tn) → steps tn d (drop_ws ws d).
Proof.
  intros Hi Hw. pose proof (inv_refs _ _ Hi) as Hr. eapply rtc_l; [by apply (drop_projects_steps tn ws)|].
  apply rtc_once. apply (st_ws_del cfg new_token tn _ [ws]).
  - intros k w ->%list_elem_of_singleton. rewrite drop_projects_eq. apply Hw.
  - intros k p Hg Hin%list_elem_of_singleton. by destruct (drop_projects_none _ _ _ _ Hr Hg).
Qed.

Definition rest_unchanged (d d' : OrgData) : Prop :=
  d_orgs d' = d_orgs d ∧ d_teams d' = d_teams d ∧ d_members d' = d_members d ∧ d_invites d' = d_invites d.

Lemma drop_ws_rest ws d : rest_unchanged d (drop_ws ws d).
Proof. unfold rest_unchanged, drop_ws. by rewrite drop_projects_eq. Qed.

Lemma drop_wss_loop tn l d :
  org_inv cfg d → (∀ w w', w ∈ l → dict_get (ws_id w) (d_wss d) = Some w' → ws_tenant w' = tn) →
  let d' := foldl (λ d w, drop_ws (ws_id w) d) d l in
  steps tn d d' ∧ d_wss d' = pop_all (ws_id <$> l) (d_wss d) ∧ rest_unchanged d d'.
Proof.
  revert d. induction l as [|w l IH]; intros d Hi Hw; simpl; [done|].
  assert (steps tn d (drop_ws (ws_id w) d)) as H1 by (apply drop_ws_steps; [done|]; intros w' Hg; apply (Hw w); [set_solver|done]).
  pose proof (drop_ws_wss (ws_id w) d) as Ew.
  destruct (IH (drop_ws (ws_id w) d)) as (H2 & H3 & H4).
  - by eapply inv_steps.
  - intros w1 w' Hin Hg. rewrite Ew in Hg. destruct (decide (ws_id w = ws_id w1)) as [E|E].
    + rewrite E, dict_get_pop_eq in Hg; [done|]. apply (keyed_wf _ _ (k_wss d (inv_refs _ _ Hi))).
    + rewrite dict_get_pop_ne in Hg by done. apply (Hw w1); [set_solver|done].
  - split_and!; [by etransitivity|by rewrite H3, Ew|].
    destruct (drop_ws_rest (ws_id w) d) as (? & ? & ? & ?), H4 as (? & ? & ? & ?). split_and!; congruence.
Qed.

Lemma org_delete_refines tn org st : org_inv cfg (os_data st) → refines tn (org_delete cfg tn org) st.
Proof.
  intros Hi. unfold org_delete. run. apply org_get_Ok in H as [Hg Ht].
  pose proof (inv_refs _ _ Hi) as Hr. set (d := os_data st) in *.
  destruct (drop_wss_loop tn (ws_of_org org (d_wss d)) d) as (H1 & Hw1 & Ho1 & Ht1 & Hm1 & Hn1); [done| |].
  { intros w w' Hin Hgw. assert (ws_id w ∈ ws_id <$> ws_of_org org (d_wss d)) as Hk by (apply list_elem_of_fmap; by exists w).
    apply (keyed_repo_list _ _ _ _ _ _ (k_wss d Hr) Hgw), bool_decide_eq_true in Hk.
    rewrite (org_tenant_of _ _ _ a (r_wss d Hr _ _ Hgw)); [done|by rewrite Hk]. }
  fold (drop_wss org d) in H1, Hw1, Ho1, Ht1, Hm1, Hn1. set (d1 := drop_wss org d) in *.
  pose proof (inv_refs _ _ (inv_steps _ _ _ _ _ H1 Hi)) as Hr1.
  apply ends_data. intros st1 Hd1 _. apply ends_data. intros st2 Hd2 _. apply ends_data. intros st3 Hd3 _.
  apply ends_data. intros st4 Hd4 _. eapply ends_known; [reflexivity|].
  apply ends_data. intros st5 Hd5 _. finish. rewrite Hd5, Hd4, Hd3, Hd2, Hd1. fold d d1.
  etransitivity; [exact H1|].
  eapply rtc_l; [apply (st_team_del cfg new_token tn d1 (tm_id <$> teams_of_org org (d_teams d1)))|].
  { intros k x Hk Hgx. apply (keyed_repo_list _ _ _ _ _ _ (k_teams _ Hr1) Hgx), bool_decide_eq_true in Hk.
    rewrite (org_tenant_of _ _ _ a (r_teams _ Hr1 _ _ Hgx)); [done|by rewrite Hk, Ho1]. }
  rewrite <- drop_teams_eq. set (d2 := drop_teams org d1). rewrite drop_invites_eq. apply rtc_once.
  assert (d_wss d2 = d_wss d1 ∧ d_orgs d2 = d_orgs d1 ∧ d_projects d2 = d_projects d1) as (Ew & Eo & Ep)
    by (unfold d2; by rewrite drop_teams_eq).
  apply (st_org_del cfg new_token tn d2 org a).
  - by rewrite Eo, Ho1.
  - done.
  - intros k w. rewrite Ew, Hw1, get_pop_all by apply (keyed_wf _ _ (k_wss d Hr)). case_decide as Hk; [done|].
    intros Hgw E. apply Hk. apply (keyed_repo_list _ _ _ _ _ _ (k_wss d Hr) Hgw). by apply bool_decide_eq_true.
  - intros k x. unfold d2. rewrite drop_teams_eq. simpl. rewrite get_pop_all by apply (keyed_wf _ _ (k_teams _ Hr1)).
    case_decide as Hk; [done|]. intros Hgx E. apply Hk.
    apply (keyed_repo_list _ _ _ _ _ _ (k_teams _ Hr1) Hgx). by apply bool_decide_eq_true.
Qed.
(** *** Workspaces *)

Definition ws_new_id (g : nat → string) : string := "ws_" +:+ String.substring 0 16 (g 0%nat).

(** Creating a workspace either fails without effect or stores it. *)
Definition ws_created (g : nat → string) (tn org : string) (d : OrgData) (r : result OrgExn Workspace * OrgState) : Prop :=
  (os_data r.2 = d ∧ is_ok r.1 = false) ∨
  ∃ w, r.1 = Ok w ∧ ws_id w = ws_new_id g ∧ ws_org w = org ∧ ws_tenant w = tn ∧
       os_data r.2 = put_ws w d ∧ org_step cfg new_token tn d (put_ws w d).

Lemma ws_create_ends t g org name owner tn desc slug st :
  dict_get (ws_new_id g) (d_wss (os_data st)) = None →
  ws_created g tn org (os_data st) (ws_create cfg t g org name owner tn desc slug st).
Proof.
  intros Hn. unfold ws_create.
  match goal with |- ws_created _ _ _ _ ((asks ?f ≫= ?k) _) =>
    destruct (asks_cases f k st) as [[e ->]|(o & [Hg Ht]%org_get_Ok & ->)]; [by left|] end.
  do 4 match goal with
  | |- ws_created _ _ _ _ ((fail_if ?b ?e ≫= ?k) _) =>
      let Hb := fresh "Hb" in destruct (fail_if_cases b e k st) as [->|[Hb ->]]; [by left|]
  end.
  set (w := mk_ws _ _ _ _ _ _ _ _ _ _). right. exists w. split_and!; try done.
  apply st_ws_new; simpl; [done|by exists o|done|by apply is_some_false|].
  bool_to_prop. by rewrite <- (zlen_repo_list ws_created_at).
Qed.

Lemma ws_create_refines t g org name owner tn desc slug st :
  dict_get (ws_new_id g) (d_wss (os_data st)) = None → refines tn (ws_create cfg t g org name owner tn desc slug) st.
Proof.
  intros Hn. unfold refines, ends.
  destruct (ws_create_ends t g org name owner tn desc slug st Hn) as [[-> _]|(w & _ & _ & _ & _ & -> & Hs)]; [done|].
  by apply rtc_once.
Qed.

Definition at_ws (tn ws org : string) (d d' : OrgData) : Prop := steps tn d d' ∧ has_ws (d_wss d') ws org tn.

Lemma at_ws_mod {B} tn ws org f d0 (k : unit → O B) st (P : OrgData → Prop) :
  org_inv cfg d0 → at_ws tn ws org d0 (os_data st) →
  (∀ w, ws_id (f w) = ws_id w ∧ ws_tenant (f w) = ws_tenant w ∧ ws_org (f w) = ws_org w ∧
     (ws_slug (f w) = ws_slug w ∨ ws_by_slug (ws_slug (f w)) org (d_wss (os_data st)) = None)) →
  (∀ st', at_ws tn ws org d0 (os_data st') → ends P (k tt) st') →
  ends P (mod_ws ws f ≫= k) st.
Proof.
  intros Hi [Hs (w & Hg & Ho & Ht)] Hf Hk. pose proof (inv_steps _ _ _ _ _ Hs Hi) as Hi'.
  pose proof (keyed_get _ _ _ _ (k_wss _ (inv_refs _ _ Hi')) Hg) as Hid. destruct (Hf w) as (E1 & E2 & E3 & E4).
  apply ends_data. intros st' Hd _. apply Hk. rewrite Hd, Hg. split.
  - eapply rtc_r; [exact Hs|]. apply (st_ws_mod cfg new_token tn _ w); [by rewrite E1, Hid|done|congruence|done|].
    by rewrite Ho.
  - exists (f w). simpl. unfold repo_put. rewrite E1, Hid. split_and!; [apply dict_get_set_eq|congruence..].
Qed.

Lemma ws_set_fields_ends tn org ws fields d0 st :
  org_inv cfg d0 → at_ws tn ws org d0 (os_data st) → ends (at_ws tn ws org d0) (ws_set_fields org ws fields) st.
Proof.
  intros Hi. revert st. induction fields as [|[key value] rest IH]; intros st Hw; simpl; [done|].
  apply ends_fail_if; [done|intros _]. apply ends_fail_if; [done|intros Hs].
  eapply at_ws_mod; [done|done| |intros st'; apply IH].
  intros w. split_and!; [done|done|done|]. simpl. case_bool_decide as Ek; [right|by left].
  simpl in Hs. by apply is_some_false.
Qed.

(** The checks that open the operations on a workspace. *)
Lemma ws_get_with org ws tn st w : ws_get org ws tn st = Ok w → at_ws tn ws org (os_data st) (os_data st).
Proof. intros (Hg & Ho & Ht)%ws_get_Ok. split; [done|]. by exists w. Qed.

Lemma ws_update_refines t org ws tn fields st : org_inv cfg (os_data st) → refines tn (ws_update t org ws tn fields) st.
Proof.
  intros Hi. unfold ws_update. run. apply ws_get_with in H0.
  apply (ends_mono (at_ws tn ws org (os_data st))); [by intros d []|].
  apply ends_bind; [by apply ws_set_fields_ends|]. intros _ st' _ Hw'.
  eapply at_ws_mod; [done|done|intros w; by auto|]. intros st2 Hw2. by finish.
Qed.

Lemma ws_mod_refines {A} tn org ws f (k : unit → O A) st w :
  org_inv cfg (os_data st) → ws_get org ws tn st = Ok w →
  (∀ w, ws_id (f w) = ws_id w ∧ ws_tenant (f w) = ws_tenant w ∧ ws_org (f w) = ws_org w ∧ ws_slug (f w) = ws_slug w) →
  (∀ u, idle (k u)) → refines tn (mod_ws ws f ≫= k) st.
Proof.
  intros Hi Hg%ws_get_with Hf Hq. unfold refines.
  apply (ends_mono (at_ws tn ws org (os_data st))); [by intros d []|].
  eapply at_ws_mod; [done|done|intros w'; destruct (Hf w') as (? & ? & ? & ?); by auto|]. intros st' Hw. by apply ends_idle.
Qed.

Lemma ws_archive_refines t org ws tn st : org_inv cfg (os_data st) → refines tn (ws_archive cfg t org ws tn) st.
Proof. intros Hi. unfold ws_archive. run. eapply ws_mod_refines; [done|done|done|]. intros; idle_solve. Qed.

Lemma ws_restore_refines t org ws tn st : org_inv cfg (os_data st) → refines tn (ws_restore t org ws tn) st.
Proof. intros Hi. unfold ws_restore. run. eapply ws_mod_refines; [done|done|done|]. intros; idle_solve. Qed.

Lemma ws_delete_refines org ws tn st : org_inv cfg (os_data st) → refines tn (ws_delete cfg org ws tn) st.
Proof.
  intros Hi. unfold ws_delete. run. apply ws_get_Ok in H0 as (Hg & Ho & Ht).
  apply ends_data. intros st1 Hd1 _. eapply ends_known; [reflexivity|]. apply ends_data. intros st2 Hd2 _. finish.
  rewrite Hd2, Hd1. apply (drop_ws_steps tn ws); [done|]. intros w Hgw. congruence.
Qed.

Lemma ws_transfer_refines t org ws user tn actor st :
  org_inv cfg (os_data st) → refines tn (ws_transfer cfg t org ws user tn actor) st.
Proof.
  intros Hi. unfold ws_transfer. run.
  apply ends_idle_l; [idle_solve|done|]. intros _ st' Hd. rewrite <- Hd.
  apply (ws_mod_refines _ org _ _ _ _ a0); [by rewrite Hd|unfold ws_get in *; by rewrite Hd|done|]. intros; idle_solve.
Qed.

Definition project_new_id (g : nat → string) (j : nat) : string := "proj_" +:+ String.substring 0 16 (g j).

(** The copies of the projects go to an empty workspace: at most as many as its
    source holds. *)
Lemma clone_projects_steps tn t g org ws k ps d :
  has_ws (d_wss d) ws org tn →
  (∀ j p, dict_get (project_new_id g j) (d_projects d) = Some p → pj_tenant p = tn) →
  rcount (project_in ws) (d_projects d) + zlen ps <= Z.max 0 (max_projects_per_workspace cfg) →
  steps tn d (clone_projects t g org ws tn k ps d).
Proof.
  revert k d. induction ps as [|p ps IH]; intros k d Hw Hj Hc; simpl; [done|].
  unfold zlen in Hc. rewrite length_cons in Hc. fold (project_new_id g k).
  set (p' := mk_project _ _ _ _ _ _ _ _). eapply rtc_l; [|apply (IH (S k) (put_project p' d)); [done|..]].
  - destruct Hw as (w & Hg & Ho & Ht). apply (st_project_new cfg new_token tn d p' w); try done; [intros p0; apply (Hj k)|].
    simpl. pose proof (rcount_nonneg (project_in ws) (d_projects d)). lia.
  - intros j p0. simpl. unfold repo_put. rewrite dict_get_set. case_decide; [by intros [= <-]|apply Hj].
  - simpl. unfold repo_put. pose proof (rcount_set_le (project_in ws) (pj_id p') p' (d_projects d)) as H.
    assert (project_in ws p' = true) as E by by apply bool_decide_eq_true. rewrite E in H. unfold zlen. simpl in *. lia.
Qed.

Lemma no_projects_of d ws : org_refs d → dict_get ws (d_wss d) = None → rcount (project_in ws) (d_projects d) = 0.
Proof.
  intros Hr Hn. apply rcount_zero; [|apply (k_projects d Hr)]. intros k p Hg. apply bool_decide_eq_false. intros <-.
  destruct (r_projects d Hr _ _ Hg) as (w & Hw & _). congruence.
Qed.

Lemma ws_clone_refines t g org ws tn name b st :
  org_inv cfg (os_data st) → dict_get (ws_new_id g) (d_wss (os_data st)) = None →
  (∀ j, dict_get (project_new_id g (1 + j)) (d_projects (os_data st)) = None) →
  refines tn (ws_clone cfg t g org ws tn name b) st.
Proof.
  intros Hi Hn Hp. unfold ws_clone. run. apply org_get_Ok in H as [Hg Ht].
  pose proof (inv_refs _ _ Hi) as Hr. unfold ends, mbind at 1, SE_bind at 1. set (nm := str_or _ _).
  destruct (ws_create_ends t g org nm (ws_owner a0) tn (ws_description a0) None st Hn)
    as [[Hd He]|(c & Hc & Hid & Ho & Htn & Hd & Hstep)];
    destruct (ws_create _ _ _ _ _ _ _ _ _ _) as [r st1]; simpl in Hd.
  { simpl in He. destruct r; [done|]. simpl. by rewrite Hd. }
  simpl in Hc. subst r.
  match goal with |- steps tn _ (os_data (?m st1).2) => change (ends (steps tn (os_data st)) m st1) end.
  destruct b.
  - apply ends_data. intros st2 Hd2 _. finish. rewrite Hd2, Hd, Ht. eapply rtc_l; [exact Hstep|].
    apply clone_projects_steps.
    + exists c. simpl. unfold repo_put. by rewrite dict_get_set_eq.
    + intros j p. simpl. unfold project_new_id in *. by rewrite Hp.
    + change (d_projects (put_ws c (os_data st))) with (d_projects (os_data st)).
      rewrite no_projects_of; [|done|by rewrite Hid]. unfold projects_of_ws. rewrite zlen_repo_list.
      apply (l_projects _ _ (inv_limits _ _ Hi) ws).
  - apply ends_idle_l; [idle_solve|rewrite Hd; by apply rtc_once|]. intros _ st2 Hd2. finish.
    rewrite Hd2, Hd. by apply rtc_once.
Qed.

(** *** Teams *)

Definition team_new_id (g : nat → string) : string := "team_" +:+ String.substring 0 16 (g 0%nat).

Lemma team_create_refines t g org name tn desc st :
  dict_get (team_new_id g) (d_teams (os_data st)) = None → refines tn (team_create cfg t g org name tn desc) st.
Proof.
  intros Hn. unfold team_create. run. apply org_get_Ok in H as [Hg Ht]. apply ends_data. intros st1 Hd1 _. finish.
  rewrite Hd1. apply rtc_once, st_team_new; simpl; [by exists a|done|done|].
  bool_to_prop. by rewrite <- (zlen_repo_list tm_created_at).
Qed.

Definition at_team (tn tm org : string) (d d' : OrgData) : Prop :=
  steps tn d d' ∧ ∃ x, dict_get tm (d_teams d') = Some x ∧ tm_org x = org ∧ tm_tenant x = tn.

Lemma at_team_mod {B} tn tm org f d0 (k : unit → O B) st (P : OrgData → Prop) :
  org_inv cfg d0 → at_team tn tm org d0 (os_data st) →
  (∀ x, tm_id (f x) = tm_id x ∧ tm_tenant (f x) = tm_tenant x ∧ tm_org (f x) = tm_org x) →
  (∀ st', at_team tn tm org d0 (os_data st') → ends P (k tt) st') →
  ends P (mod_team tm f ≫= k) st.
Proof.
  intros Hi [Hs (x & Hg & Ho & Ht)] Hf Hk. pose proof (inv_steps _ _ _ _ _ Hs Hi) as Hi'.
  pose proof (keyed_get _ _ _ _ (k_teams _ (inv_refs _ _ Hi')) Hg) as Hid. destruct (Hf x) as (E1 & E2 & E3).
  apply ends_data. intros st' Hd _. apply Hk. rewrite Hd, Hg. split.
  - eapply rtc_r; [exact Hs|]. apply (st_team_mod cfg new_token tn _ x); [by rewrite E1, Hid|done|congruence|done].
  - exists (f x). simpl. unfold repo_put. rewrite E1, Hid. split_and!; [apply dict_get_set_eq|congruence..].
Qed.

Lemma team_get_with org tn tm st o x :
  org_refs (os_data st) → org_get tn org st = Ok o → team_get org tm st = Ok x →
  at_team tn tm org (os_data st) (os_data st).
Proof.
  intros Hr [Hgo Ht]%org_get_Ok [Hg Ho]%team_get_Ok. split; [done|]. exists x. split_and!; [done|done|].
  rewrite (org_tenant_of _ _ _ o (r_teams _ Hr _ _ Hg)); [done|by rewrite Ho].
Qed.

Lemma team_set_fields_ends tn org tm fields d0 st :
  org_inv cfg d0 → at_team tn tm org d0 (os_data st) → ends (at_team tn tm org d0) (team_set_fields tm fields) st.
Proof.
  intros Hi. revert st. induction fields as [|[key value] rest IH]; intros st Hw; simpl; [done|].
  apply ends_fail_if; [done|intros _]. eapply at_team_mod; [done|done|done|intros st'; apply IH].
Qed.

Lemma team_update_refines t org tm tn fields st : org_inv cfg (os_data st) → refines tn (team_update t org tm tn fields) st.
Proof.
  intros Hi. unfold team_update. run. pose proof (team_get_with _ _ _ _ _ _ (inv_refs _ _ Hi) H H0) as Hw.
  apply (ends_mono (at_team tn tm org (os_data st))); [by intros d []|].
  apply ends_bind; [by apply team_set_fields_ends|]. intros _ st' _ Hw'.
  eapply at_team_mod; [done|done|done|]. intros st2 Hw2. by finish.
Qed.

Lemma team_delete_refines org tm tn st : org_inv cfg (os_data st) → refines tn (team_delete cfg org tm tn) st.
Proof.
  intros Hi. unfold team_delete. run. destruct (team_get_with _ _ _ _ _ _ (inv_refs _ _ Hi) H H0) as [_ (x & Hg & Ho & Ht)].
  apply ends_data. intros st2 Hd2 _. finish. rewrite Hd2. apply rtc_once.
  apply (st_team_del cfg new_token tn _ [tm]). intros k x' ->%list_elem_of_singleton Hg'. congruence.
Qed.

(** *** Projects *)

Lemma project_create_refines t g org ws name tn desc st :
  dict_get (project_new_id g 0) (d_projects (os_data st)) = None →
  refines tn (project_create cfg t g org ws name tn desc) st.
Proof.
  intros Hn. unfold project_create. run. apply org_get_Ok in H as [Hg Ht]. apply ws_get_Ok in H0 as (Hgw & Ho & Htw).
  apply ends_data. intros st1 Hd1 _. finish.
  rewrite Hd1. apply rtc_once. apply (st_project_new cfg new_token tn _ _ a0); simpl; try done.
  - intros p0. unfold project_new_id in Hn. congruence.
  - bool_to_prop. by rewrite <- (zlen_repo_list pj_created_at).
Qed.

Definition at_project (tn pj ws org : string) (d d' : OrgData) : Prop :=
  steps tn d d' ∧ ∃ p, dict_get pj (d_projects d') = Some p ∧ pj_org p = org ∧ pj_ws p = ws ∧ pj_tenant p = tn.

Lemma at_project_mod {B} tn pj ws org f d0 (k : unit → O B) st (P : OrgData → Prop) :
  org_inv cfg d0 → at_project tn pj ws org d0 (os_data st) →
  (∀ p, pj_id (f p) = pj_id p ∧ pj_tenant (f p) = pj_tenant p ∧ pj_ws (f p) = pj_ws p ∧ pj_org (f p) = pj_org p) →
  (∀ st', at_project tn pj ws org d0 (os_data st') → ends P (k tt) st') →
  ends P (mod_project pj f ≫= k) st.
Proof.
  intros Hi [Hs (p & Hg & Ho & Hw & Ht)] Hf Hk. pose proof (inv_steps _ _ _ _ _ Hs Hi) as Hi'.
  pose proof (keyed_get _ _ _ _ (k_projects _ (inv_refs _ _ Hi')) Hg) as Hid. destruct (Hf p) as (E1 & E2 & E3 & E4).
  apply ends_data. intros st' Hd _. apply Hk. rewrite Hd, Hg. split.
  - eapply rtc_r; [exact Hs|]. apply (st_project_mod cfg new_token tn _ p); [by rewrite E1, Hid|done|congruence|done|done].
  - exists (f p). simpl. unfold repo_put. rewrite E1, Hid. split_and!; [apply dict_get_set_eq|congruence..].
Qed.

Lemma project_get_with org ws tn pj st w p :
  org_refs (os_data st) → ws_get org ws tn st = Ok w → project_get org ws pj st = Ok p →
  at_project tn pj ws org (os_data st) (os_data st).
Proof.
  intros Hr (Hgw & Hwo & Hwt)%ws_get_Ok (Hg & Ho & Hw)%project_get_Ok. split; [done|]. exists p. split_and!; try done.
  destruct (r_projects _ Hr _ _ Hg) as (w' & Hgw' & _ & <-). congruence.
Qed.

Lemma project_set_fields_ends tn org ws pj fields d0 st :
  org_inv cfg d0 → at_project tn pj ws org d0 (os_data st) →
  ends (at_project tn pj ws org d0) (project_set_fields pj fields) st.
Proof.
  intros Hi. revert st. induction fields as [|[key value] rest IH]; intros st Hw; simpl; [done|].
  apply ends_fail_if; [done|intros _]. eapply at_project_mod; [done|done|done|intros st'; apply IH].
Qed.

Lemma project_update_refines t org ws pj tn fields st :
  org_inv cfg (os_data st) → refines tn (project_update t org ws pj tn fields) st.
Proof.
  intros Hi. unfold project_update. run. pose proof (project_get_with _ _ _ _ _ _ _ (inv_refs _ _ Hi) H0 H1) as Hw.
  apply (ends_mono (at_project tn pj ws org (os_data st))); [by intros d []|].
  apply ends_bind; [by apply project_set_fields_ends|]. intros _ st' _ Hw'.
  eapply at_project_mod; [done|done|done|]. intros st2 Hw2. by finish.
Qed.

Lemma project_delete_refines org ws pj tn st : org_inv cfg (os_data st) → refines tn (project_delete cfg org ws pj tn) st.
Proof.
  intros Hi. unfold project_delete. run.
  destruct (project_get_with _ _ _ _ _ _ _ (inv_refs _ _ Hi) H0 H1) as [_ (x & Hg & Ho & Hw & Ht)].
  apply ends_data. intros st2 Hd2 _. finish. rewrite Hd2. apply rtc_once.
  apply (st_project_del cfg new_token tn _ [pj]). intros k x' ->%list_elem_of_singleton Hg'. congruence.
Qed.

(** *** Invitations *)

Definition invite_new_id (g : nat → string) : string := "inv_" +:+ String.substring 0 16 (g 0%nat).

Lemma invite_create_refines t g org email role tn by_ ttl st :
  dict_get (invite_new_id g) (d_invites (os_data st)) = None → new_token (g 1%nat) →
  invite_by_token (g 1%nat) (d_invites (os_data st)) = None →
  refines tn (invite_create cfg t g org email role tn by_ ttl) st.
Proof.
  intros Hn Hk Hk'. unfold invite_create. run. apply org_get_Ok in H as [Hg Ht]. apply ends_data. intros st1 Hd1 _. finish.
  rewrite Hd1. apply rtc_once, st_invite_new; simpl; [by exists a|done|done|done|done|].
  bool_to_prop. by rewrite <- pending_count_rcount.
Qed.

Lemma invite_get_Ok token st i :
  org_refs (os_data st) → invite_get token st = Ok i →
  dict_get (in_id i) (d_invites (os_data st)) = Some i ∧ in_token i = token.
Proof.
  intros Hr H%some_or_Ok. destruct (keyed_find_Some _ _ _ _ (k_invites _ Hr) H) as [Hg HP]. by bool_to_prop.
Qed.

Lemma invite_revoke_refines token tn st : org_inv cfg (os_data st) → refines tn (invite_revoke cfg token tn) st.
Proof.
  intros Hi. pose proof (inv_refs _ _ Hi) as Hr. unfold invite_revoke. run. apply org_get_Ok in H0 as [Hgo Ht].
  apply (invite_get_Ok _ _ _ Hr) in H as [Hg Htok]. pose proof (org_tenant_of _ _ _ _ (r_invites _ Hr _ _ Hg) Hgo) as E.
  apply ends_data. intros st1 Hd1 _. finish. bool_to_prop. rewrite Hd1. apply rtc_once.
  apply (st_invite_close cfg new_token tn _ a); simpl; try done; congruence.
Qed.

Lemma invite_accept_refines t g token user i st :
  org_inv cfg (os_data st) → invite_get token st = Ok i → dict_get (member_id g) (d_members (os_data st)) = None →
  refines (in_tenant i) (invite_accept cfg t g token user) st.
Proof.
  intros Hi Hgi Hm. pose proof (inv_refs _ _ Hi) as Hr. unfold invite_accept. run. assert (a = i) as -> by congruence.
  apply (invite_get_Ok _ _ _ Hr) in Hgi as [Hg Htok].
  destruct (r_invites _ Hr _ _ Hg) as (o & Hgo & Hto).
  destruct (in_status i) eqn:Es; try by finish.
  assert (∀ i', in_id i' = in_id i → in_tenant i' = in_tenant i → in_org i' = in_org i → in_token i' = in_token i →
    in_status i' ≠ INVITE_PENDING → org_step cfg new_token (in_tenant i) (os_data st) (put_invite i' (os_data st))) as Hclose.
  { intros i' E1 E2 E3 E4 E5. apply (st_invite_close cfg new_token _ _ i); congruence. }
  destruct (invite_is_expired _ i).
  { apply ends_data. intros st1 Hd1 _. finish. rewrite Hd1. by apply rtc_once, Hclose. }
  apply ends_data. intros st1 Hd1 _. eapply ends_known; [reflexivity|].
  set (i' := set_invite_accepted _ _ i) in *.
  assert (steps (in_tenant i) (os_data st) (os_data st1)) as H1 by (rewrite Hd1; by apply rtc_once, Hclose).
  destruct (is_member _ _ _); [apply ends_idle_l; [idle_solve|done|intros _ st2 Hd2; finish; by rewrite Hd2]|].
  apply ends_bind; [|intros _ st2 _ H2; by finish].
  apply ends_bind; [|intros _ st2 _ H2; by finish].
  eapply ends_mono; [intros d Hd; etransitivity; [exact H1|exact Hd]|].
  change (refines (in_tenant i) (add_member cfg (λ k, t (2 + k)%nat) g (in_org i) user (in_tenant i) (role_value (in_role i)) None) st1).
  rewrite <- Hto at 1. apply add_member_refines; by rewrite Hd1.
Qed.
End Refines.

(** ** Operations *)

Inductive OrgOp :=
  | OpOrgCreate (t : nat → float) (g : nat → string) (tenant name owner desc : string) (slug : option string) (plan : string)
  | OpOrgUpdate (t : nat → float) (tenant org : string) (fields : list (string * string))
  | OpOrgDelete (tenant org : string)
  | OpOrgArchive (t : nat → float) (tenant org : string)
  | OpOrgRestore (t : nat → float) (tenant org : string)
  | OpTransfer (t : nat → float) (p : AuthPrincipal) (org user tenant : string)
  | OpAddMember (t : nat → float) (g : nat → string) (org user tenant role : string) (actor : option AuthPrincipal)
  | OpRemoveMember (org user tenant : string) (actor : option AuthPrincipal)
  | OpSetRole (t : nat → float) (org user role tenant : string) (actor : option AuthPrincipal)
  | OpWsCreate (t : nat → float) (g : nat → string) (org name owner tenant desc : string) (slug : option string)
  | OpWsUpdate (t : nat → float) (org ws tenant : string) (fields : list (string * string))
  | OpWsDelete (org ws tenant : string)
  | OpWsArchive (t : nat → float) (org ws tenant : string)
  | OpWsRestore (t : nat → float) (org ws tenant : string)
  | OpWsClone (t : nat → float) (g : nat → string) (org ws tenant : string) (name : option string) (include : bool)
  | OpWsTransfer (t : nat → float) (org ws user tenant : string) (actor : option AuthPrincipal)
  | OpTeamCreate (t : nat → float) (g : nat → string) (org name tenant desc : string)
  | OpTeamUpdate (t : nat → float) (org tm tenant : string) (fields : list (string * string))
  | OpTeamDelete (org tm tenant : string)
  | OpProjectCreate (t : nat → float) (g : nat → string) (org ws name tenant desc : string)
  | OpProjectUpdate (t : nat → float) (org ws pj tenant : string) (fields : list (string * string))
  | OpProjectDelete (org ws pj tenant : string)
  | OpInviteCreate (t : nat → float) (g : nat → string) (org email role tenant by_ : string) (ttl : option Z)
  | OpInviteAccept (t : nat → float) (g : nat → string) (token user : string)
  | OpInviteRevoke (token tenant : string)
  | OpRegisterRole (role : string) (permissions : list string).

Section Operations.
Context (cfg : OrganizationConfig).

Definition org_apply (op : OrgOp) (st : OrgState) : OrgState :=
  match op with
  | OpOrgCreate t g tn name owner desc slug plan => (org_create cfg t g tn name owner desc slug plan st).2
  | OpOrgUpdate t tn org fields => (org_update t tn org fields st).2
  | OpOrgDelete tn org => (org_delete cfg tn org st).2
  | OpOrgArchive t tn org => (org_archive cfg t tn org st).2
  | OpOrgRestore t tn org => (org_restore cfg t tn org st).2
  | OpTransfer t p org user tn => (transfer_ownership cfg t p org user tn st).2
  | OpAddMember t g org user tn role actor => (add_member cfg t g org user tn role actor st).2
  | OpRemoveMember org user tn actor => (remove_member cfg org user tn actor st).2
  | OpSetRole t org user role tn actor => (set_member_role cfg t org user role tn actor st).2
  | OpWsCreate t g org name owner tn desc slug => (ws_create cfg t g org name owner tn desc slug st).2
  | OpWsUpdate t org ws tn fields => (ws_update t org ws tn fields st).2
  | OpWsDelete org ws tn => (ws_delete cfg org ws tn st).2
  | OpWsArchive t org ws tn => (ws_archive cfg t org ws tn st).2
  | OpWsRestore t org ws tn => (ws_restore t org ws tn st).2
  | OpWsClone t g org ws tn name b => (ws_clone cfg t g org ws tn name b st).2
  | OpWsTransfer t org ws user tn actor => (ws_transfer cfg t org ws user tn actor st).2
  | OpTeamCreate t g org name tn desc => (team_create cfg t g org name tn desc st).2
  | OpTeamUpdate t org tm tn fields => (team_update t org tm tn fields st).2
  | OpTeamDelete org tm tn => (team_delete cfg org tm tn st).2
  | OpProjectCreate t g org ws name tn desc => (project_create cfg t g org ws name tn desc st).2
  | OpProjectUpdate t org ws pj tn fields => (project_update t org ws pj tn fields st).2
  | OpProjectDelete org ws pj tn => (project_delete cfg org ws pj tn st).2
  | OpInviteCreate t g org email role tn by_ ttl => (invite_create cfg t g org email role tn by_ ttl st).2
  | OpInviteAccept t g token user => (invite_accept cfg t g token user st).2
  | OpInviteRevoke token tn => (invite_revoke cfg token tn st).2
  | OpRegisterRole role permissions =>
      mk_org_state (os_data st) (register_role_permissions role permissions (os_guard st)) (os_metrics st) (os_audit st)
  end.

Definition org_run (ops : list OrgOp) (st : OrgState) : OrgState := foldl (λ st op, org_apply op st) st ops.

(** The ids an operation generates are not in use, and the token of a new
    invitation neither; [used] are further tokens it must differ from. *)
Definition op_fresh (used : list string) (op : OrgOp) (d : OrgData) : Prop :=
  match op with
  | OpOrgCreate _ g _ _ _ _ _ _ =>
      dict_get (org_new_id g) (d_orgs d) = None ∧ dict_get (member_id (λ k, g (1 + k)%nat)) (d_members d) = None
  | OpAddMember _ g _ _ _ _ _ | OpInviteAccept _ g _ _ => dict_get (member_id g) (d_members d) = None
  | OpWsCreate _ g _ _ _ _ _ _ => dict_get (ws_new_id g) (d_wss d) = None
  | OpWsClone _ g _ _ _ _ _ =>
      dict_get (ws_new_id g) (d_wss d) = None ∧ ∀ j, dict_get (project_new_id g (1 + j)) (d_projects d) = None
  | OpTeamCreate _ g _ _ _ _ => dict_get (team_new_id g) (d_teams d) = None
  | OpProjectCreate _ g _ _ _ _ _ => dict_get (project_new_id g 0) (d_projects d) = None
  | OpInviteCreate _ g _ _ _ _ _ _ => dict_get (invite_new_id g) (d_invites d) = None ∧ g 1%nat ∉ used ∧ invite_by_token (g 1%nat) (d_invites d) = None
  | _ => True
  end.

Fixpoint org_run_fresh (used : list string) (ops : list OrgOp) (st : OrgState) : Prop :=
  match ops with
  | [] => True
  | op :: rest => op_fresh used op (os_data st) ∧ org_run_fresh used rest (org_apply op st)
  end.

(** The tenant argument of an operation; an invitation is accepted without one. *)
Definition op_tenant (op : OrgOp) : option string :=
  match op with
  | OpOrgCreate _ _ tn _ _ _ _ _ | OpOrgUpdate _ tn _ _ | OpOrgDelete tn _ | OpOrgArchive _ tn _ | OpOrgRestore _ tn _
  | OpTransfer _ _ _ _ tn | OpAddMember _ _ _ _ tn _ _ | OpRemoveMember _ _ tn _ | OpSetRole _ _ _ _ tn _
  | OpWsCreate _ _ _ _ _ tn _ _ | OpWsUpdate _ _ _ tn _ | OpWsDelete _ _ tn | OpWsArchive _ _ _ tn | OpWsRestore _ _ _ tn
  | OpWsClone _ _ _ _ tn _ _ | OpWsTransfer _ _ _ _ tn _ | OpTeamCreate _ _ _ _ tn _ | OpTeamUpdate _ _ _ tn _
  | OpTeamDelete _ _ tn | OpProjectCreate _ _ _ _ _ tn _ | OpProjectUpdate _ _ _ _ tn _ | OpProjectDelete _ _ _ tn
  | OpInviteCreate _ _ _ _ _ tn _ _ | OpInviteRevoke _ tn => Some tn
  | OpInviteAccept _ _ _ _ | OpRegisterRole _ _ => None
  end.

(** The tenant whose data an operation may change. *)
Definition op_label (op : OrgOp) (d : OrgData) : string :=
  match op with
  | OpAddMember _ _ org _ tn _ _ | OpRemoveMember org _ tn _ | OpSetRole _ org _ _ tn _ =>
      match dict_get org (d_orgs d) with Some o => o_tenant o | None => tn end
  | OpInviteAccept _ _ token _ =>
      match invite_by_token token (d_invites d) with Some i => in_tenant i | None => "" end
  | _ => default "" (op_tenant op)
  end.

Section Run.
Hypothesis members_allowed : 0 < max_members_per_org cfg.
Context (used : list string).

Abbreviation step := (org_step cfg (λ token, token ∉ used)).

Lemma org_op_refines op st :
  org_inv cfg (os_data st) → op_fresh used op (os_data st) →
  rtc (step (op_label op (os_data st))) (os_data st) (os_data (org_apply op st)).
Proof.
  intros Hi Hf. pose proof (inv_refs _ _ Hi) as Hr. destruct op; simpl in Hf |- *.
  - destruct Hf. by apply org_create_refines.
  - by apply org_update_refines.
  - by apply org_delete_refines.
  - by apply org_archive_refines.
  - by apply org_restore_refines.
  - by apply transfer_refines.
  - destruct (dict_get org (d_orgs (os_data st))) as [o|] eqn:Hg; [by apply add_member_refines|].
    unfold add_member, mbind, SE_bind, asks, mem_get_org. by rewrite Hg.
  - destruct (dict_get org (d_orgs (os_data st))) as [o|] eqn:Hg; [by apply remove_member_refines|].
    unfold remove_member, mbind, SE_bind, asks, mem_get_org. by rewrite Hg.
  - destruct (dict_get org (d_orgs (os_data st))) as [o|] eqn:Hg; [by apply set_member_role_refines|].
    unfold set_member_role, mbind, SE_bind, asks, mem_get_org. by rewrite Hg.
  - by apply ws_create_refines.
  - by apply ws_update_refines.
  - by apply ws_delete_refines.
  - by apply ws_archive_refines.
  - by apply ws_restore_refines.
  - destruct Hf. by apply ws_clone_refines.
  - by apply ws_transfer_refines.
  - by apply team_create_refines.
  - by apply team_update_refines.
  - by apply team_delete_refines.
  - by apply project_create_refines.
  - by apply project_update_refines.
  - by apply project_delete_refines.
  - destruct Hf as (? & ? & ?). by apply invite_create_refines.
  - destruct (invite_by_token token (d_invites (os_data st))) as [i|] eqn:E.
    + apply invite_accept_refines; [done| |done]. unfold invite_get. by rewrite E.
    + unfold invite_accept, mbind, SE_bind, asks, invite_get. by rewrite E.
  - by apply invite_revoke_refines.
  - done.
Qed.

Lemma op_inv op st :
  org_inv cfg (os_data st) → op_fresh used op (os_data st) → org_inv cfg (os_data (org_apply op st)).
Proof. intros Hi Hf. eapply inv_steps; [by apply org_op_refines|done]. Qed.
End Run.
End Operations.
End OrgOps.
