(* ===== verification/OrgTheorems.v ===== *)
(** * Organisations: what the managers guarantee

    Over every sequence of operations, failing ones included: the repositories
    stay consistent and within their limits ([repositories_consistent]); the
    data of a tenant change only through operations of that tenant
    ([tenant_isolation]); an invitation is accepted at most once
    ([invitation_accepted_once]).  Changes of memberships by an actor and
    transfers of ownership are actor_authorised ([membership_guarded],
    [transfer_by_owner]), and generated slugs are well formed
    ([make_slug_valid]).  Three defects are shown at the end. *)

From Stdlib Require Import ZArith Lia Ascii.
From stdpp Require Import base relations numbers strings gmap list.
From S2P Require Import Prelude PyFloat PyNum PyStr PyDict AuthModel OrgModel OrgManager OrgSpec OrgOps.


Module OrgTheorems.
Import AuthPolicy OrgModel OrgManager OrgSpec OrgOps.
Open Scope string_scope.
Open Scope Z_scope.

Section Theorems.
Context (cfg : OrganizationConfig).

Lemma run_inv used ops st :
  0 < max_members_per_org cfg → org_inv cfg (os_data st) → org_run_fresh cfg used ops st →
  org_inv cfg (os_data (org_run cfg ops st)).
Proof.
  intros Hm. revert st. induction ops as [|op ops IH]; intros st Hi Hf; simpl; [done|].
  destruct Hf as [Hop Hf]. apply IH; [by eapply op_inv|done].
Qed.

(** (C37) Whatever sequence of operations with new identifiers is performed, and
    whichever of them fail, from data in order ([org_inv], as no data are) and
    with room for at least one member per organisation:
    every workspace, team, member, project and invitation refers to an
    organisation or workspace that exists and belongs to the same tenant; slugs,
    memberships and invitation tokens are unique; the owner of every
    organisation is a member of it with the owner role; and no limit of the
    configuration is exceeded. *)
Theorem repositories_consistent (used : list string) (ops : list OrgOp) (st : OrgState) :
  0 < max_members_per_org cfg → org_inv cfg (os_data st) → org_run_fresh cfg used ops st →
  let d := os_data (org_run cfg ops st) in
  org_refs d ∧ org_unique d ∧ owners_ok d ∧ org_limits cfg d.
Proof. intros Hm Hi Hf d. by destruct (run_inv used ops st Hm Hi Hf). Qed.

(** ** Isolation *)

Lemma op_view used op st tn tn' :
  0 < max_members_per_org cfg → org_inv cfg (os_data st) → op_fresh used op (os_data st) →
  op_tenant op = Some tn → truthy tn = true → truthy tn' = true → tn' ≠ tn →
  tenant_view tn' (os_data (org_apply cfg op st)) = tenant_view tn' (os_data st).
Proof.
  intros Hm Hi Hf Hop Ht Ht' Hne.
  destruct (decide (op_label op (os_data st) = tn')) as [E|E].
  - (* only the operations on members may name an organisation of another tenant, and fail *)
    assert (∀ org, match dict_get org (d_orgs (os_data st)) with Some o => o_tenant o | None => tn end = tn' →
      ∃ e, mem_get_org org tn st = Err e) as Herr.
    { intros org. destruct (dict_get org (d_orgs (os_data st))) as [o|] eqn:Hg; [|congruence]. intros Ho.
      destruct (mem_get_org org tn st) as [o'|e] eqn:Em; [|by exists e].
      destruct (mem_get_org_Ok _ _ _ _ Em) as [Hg' [?|[?|?]]]; simplify_eq; congruence. }
    destruct op; simpl in Hop, E; simplify_eq; try done; destruct (Herr org) as [e He]; try done; simpl.
    + unfold add_member, mbind, SE_bind, asks. by rewrite He.
    + unfold remove_member, mbind, SE_bind, asks. by rewrite He.
    + unfold set_member_role, mbind, SE_bind, asks. by rewrite He.
  - eapply isolation_steps; [by apply org_op_refines|done|congruence].
Qed.

(** (C18) The operations of one tenant, whatever ids they name and however often they
    fail, leave the data of every other tenant as they are. *)
Theorem tenant_isolation (used : list string) (ops : list OrgOp) (st : OrgState) (tn tn' : string) :
  0 < max_members_per_org cfg → org_inv cfg (os_data st) → org_run_fresh cfg used ops st →
  Forall (λ op, op_tenant op = Some tn) ops → truthy tn = true → truthy tn' = true → tn' ≠ tn →
  tenant_view tn' (os_data (org_run cfg ops st)) = tenant_view tn' (os_data st).
Proof.
  intros Hm Hi Hf Hall Ht Ht' Hne. revert st Hi Hf. induction Hall as [|op ops Hop Hall IH]; intros st Hi Hf; [done|].
  destruct Hf as [Hfop Hf]. simpl. rewrite IH; [by eapply op_view|by eapply op_inv|done].
Qed.

(** ** Invitations *)

Lemma run_closed used ops st token :
  0 < max_members_per_org cfg → org_inv cfg (os_data st) → org_run_fresh cfg used ops st → token ∈ used →
  token_closed token (os_data st) → token_closed token (os_data (org_run cfg ops st)).
Proof.
  intros Hm Hi Hf Hu. revert st Hi Hf. induction ops as [|op ops IH]; intros st Hi Hf Hc; [done|].
  destruct Hf as [Hop Hf]. simpl. apply IH; [by eapply op_inv|done|].
  eapply token_closed_steps; [by apply org_op_refines|done| |done]. simpl. intros Hn. by apply Hn.
Qed.

(** An acceptance closes the invitation and, unless the user belongs to the
    organisation already, adds the user with the invited role. *)
Lemma add_member_invites t g org user tn role actor st :
  d_invites (os_data (add_member cfg t g org user tn role actor st).2) = d_invites (os_data st).
Proof.
  change (ends (λ d, d_invites d = d_invites (os_data st)) (add_member cfg t g org user tn role actor) st). unfold add_member.
  repeat (first [apply ends_asks; [done|intros ? ?]|apply ends_fail_if; [done|intros ?]]).
  apply ends_data. intros st' Hd _. apply ends_idle; [idle_solve|]. by rewrite Hd.
Qed.

Lemma accept_Ok t g token user st st' i :
  invite_accept cfg t g token user st = (Ok i, st') →
  ∃ i0, invite_get token st = Ok i0 ∧ in_status i0 = INVITE_PENDING ∧ invite_is_expired (t 0%nat) i0 = false ∧
        i = set_invite_accepted (t 1%nat) user i0 ∧ d_invites (os_data st') = repo_put in_id i (d_invites (os_data st)).
Proof.
  unfold invite_accept. intros (i0 & s & E & H)%se_bind_inv. injection E as Hg <-.
  destruct (in_status i0) eqn:Es; try done. destruct (invite_is_expired (t 0%nat) i0) eqn:Ee; [done|].
  set (i' := set_invite_accepted _ _ _) in *. apply se_bind_inv in H as ([] & s1 & E1 & H). injection E1 as E1.
  apply se_bind_inv in H as (b & s2 & E2 & H). injection E2 as E2 <-.
  apply se_bind_inv in H as ([] & s3 & E3 & H). injection H as <- <-.
  exists i0. split_and!; try done. simpl.
  assert (d_invites (os_data s3) = d_invites (os_data s1)) as ->; [|by rewrite <- E1].
  destruct b; [by injection E3 as <-|]. apply se_bind_inv in E3 as (m & s4 & E3 & E4). injection E4 as <-.
  pose proof (add_member_invites (λ k, t (2 + k)%nat) g (in_org i0) user (in_tenant i0) (role_value (in_role i0)) None s1) as Ha.
  by rewrite E3 in Ha.
Qed.

(** Once an invitation has been accepted, no later attempt with its token
    succeeds, whatever happens in between. *)
Theorem invitation_accepted_once (t t' : nat → float) (g g' : nat → string) (token user user' : string)
    (used : list string) (ops : list OrgOp) (st st1 : OrgState) (i : Invitation) :
  0 < max_members_per_org cfg → org_inv cfg (os_data st) → dict_get (member_id g) (d_members (os_data st)) = None →
  token ∈ used → invite_accept cfg t g token user st = (Ok i, st1) → org_run_fresh cfg used ops st1 →
  is_ok (invite_accept cfg t' g' token user' (org_run cfg ops st1)).1 = false.
Proof.
  intros Hm Hi Hn Hu Hacc Hf. pose proof (inv_refs _ _ Hi) as Hr.
  pose proof (op_inv cfg Hm used (OpInviteAccept t g token user) st Hi Hn) as Hi1. simpl in Hi1. rewrite Hacc in Hi1.
  destruct (accept_Ok _ _ _ _ _ _ _ Hacc) as (i0 & Hg & Hs & _ & Hi' & Hd).
  destruct (invite_get_Ok _ _ _ Hr Hg) as [Hgi Htok].
  assert (token_closed token (os_data st1)) as Hc.
  { intros k j. rewrite Hd. unfold repo_put. rewrite dict_get_set. case_decide as E; [intros [= <-] _; by subst i|].
    intros Hj Ej Hp. apply E. subst i. eapply (u_tokens _ (inv_unique _ _ Hi)); [done|done|]. simpl. congruence. }
  pose proof (run_closed used ops st1 token Hm Hi1 Hf Hu Hc) as Hc2.
  pose proof (inv_refs _ _ (run_inv used ops st1 Hm Hi1 Hf)) as Hr2.
  destruct (invite_accept cfg t' g' token user' (org_run cfg ops st1)) as [[j|e] st2] eqn:Ej; [|done].
  destruct (accept_Ok _ _ _ _ _ _ _ Ej) as (j0 & Hgj & Hsj & _).
  destruct (invite_get_Ok _ _ _ Hr2 Hgj) as [Hgk Htk]. by destruct (Hc2 _ _ Hgk Htk).
Qed.

(** ** Authorisation *)

(** The permissions of a role grant a permission: all of them, this one, or all
    of its namespace. *)
Definition role_grants (g : RolePermissions) (r : MemberRole) (permission : string) : Prop :=
  "*" ∈ permissions_for_role g (role_value r) ∨ permission ∈ permissions_for_role g (role_value r) ∨
  (namespace_of permission +:+ ":*") ∈ permissions_for_role g (role_value r).

Lemma guard_require_Ok g p m permission :
  guard_require g p m permission = Ok tt →
  p_user p = mb_user m ∧ tenant_matches (p_tenant p) (mb_tenant m) ∧ mb_status m = MEMBER_ACTIVE ∧
  role_grants g (mb_role m) permission.
Proof.
  unfold guard_require, verify_principal, require_member, member_allowed, tenant_matches, role_grants.
  destruct (truthy (p_tenant p)) eqn:E1, (truthy (mb_tenant m)) eqn:E2; simpl;
    repeat (case_bool_decide; simpl); naive_solver.
Qed.

(** The actor is an active member of the organisation whose role grants the
    permission. *)
Definition actor_authorised (p : AuthPrincipal) (org permission : string) (st : OrgState) : Prop :=
  ∃ m, find_member org (p_user p) st = Some m ∧ tenant_matches (p_tenant p) (mb_tenant m) ∧
       mb_status m = MEMBER_ACTIVE ∧ role_grants (os_guard st) (mb_role m) permission.

Lemma actor_allowed_Ok org permission p st :
  actor_allowed org permission (Some p) st = Ok tt → actor_authorised p org permission st.
Proof.
  simpl. destruct (find_member org (p_user p) st) as [m|] eqn:E; [|done].
  intros (? & ? & ? & ?)%guard_require_Ok. by exists m.
Qed.

Lemma asks_is_ok {A B} (f : OrgState → result OrgExn A) (k : A → O B) st :
  is_ok ((asks f ≫= k) st).1 = true → ∃ a, f st = Ok a ∧ is_ok (k a st).1 = true.
Proof. unfold mbind, SE_bind, asks. destruct (f st) as [a|]; [by exists a|done]. Qed.

Ltac ok_steps H := repeat (apply asks_is_ok in H as (? & ? & H)).

(** A membership is added, removed or given another role on behalf of an actor
    only when the actor may manage the members of that organisation. *)
Theorem membership_guarded (p : AuthPrincipal) (t : nat → float) (g : nat → string) (org user tn role : string) (st : OrgState) :
  is_ok (add_member cfg t g org user tn role (Some p) st).1 = true ∨
  is_ok (remove_member cfg org user tn (Some p) st).1 = true ∨
  is_ok (set_member_role cfg t org user role tn (Some p) st).1 = true →
  actor_authorised p org "org:manage_members" st.
Proof.
  unfold add_member, remove_member, set_member_role, fail_if.
  intros [H|[H|H]]; ok_steps H; eapply actor_allowed_Ok;
    match goal with E : actor_allowed _ _ _ _ = Ok ?u |- _ => by destruct u end.
Qed.

(** With the built-in permissions, the ownership of an organisation changes
    only on behalf of one of its owners. *)
Theorem transfer_by_owner (p : AuthPrincipal) (t : nat → float) (org user tn : string) (st : OrgState) :
  os_guard st = ORG_ROLE_PERMISSIONS → os_data (transfer_ownership cfg t p org user tn st).2 ≠ os_data st →
  ∃ m, find_member org (p_user p) st = Some m ∧ mb_role m = ROLE_OWNER ∧ mb_status m = MEMBER_ACTIVE.
Proof.
  intros Hg. unfold transfer_ownership.
  match goal with |- context [(asks ?f ≫= ?k) st] => destruct (asks_cases f k st) as [[e ->]|(o & Ho & ->)] end; [done|].
  case_bool_decide; [done|].
  match goal with |- context [(asks ?f ≫= ?k) st] => destruct (asks_cases f k st) as [[e ->]|(m & Hm & ->)] end; [done|].
  match goal with |- context [(asks ?f ≫= ?k) st] => destruct (asks_cases f k st) as [[e ->]|([] & Hr & ->)] end; [done|].
  intros _. apply some_or_Ok in Hm. apply guard_require_Ok in Hr as (_ & _ & Hs & Hr). rewrite Hg in Hr.
  exists m. split_and!; [done| |done]. destruct (mb_role m) eqn:Er; [done|..]; exfalso; revert Hr;
    unfold role_grants; vm_compute permissions_for_role; vm_compute namespace_of; vm_compute String.append; set_solver.
Qed.
End Theorems.

(** ** Slugs *)

Definition slug_or_dash (a : ascii) : bool := slug_char a || Ascii.eqb a slug_dash.

Definition starts_ok (s : string) : bool := match s with String a _ => slug_char a | EmptyString => true end.

Lemma dash_runs_chars b s : all_chars slug_or_dash (dash_runs b s) = true.
Proof.
  revert b. induction s as [|a s IH]; intros b; simpl; [done|]. destruct (slug_char a) eqn:E; simpl.
  - unfold slug_or_dash at 1. by rewrite E, IH.
  - destruct b; simpl; by rewrite IH.
Qed.

Lemma lstrip_dash_ok s :
  all_chars slug_or_dash s = true → all_chars slug_or_dash (lstrip_dash s) = true ∧ starts_ok (lstrip_dash s) = true.
Proof.
  induction s as [|a s IH]; simpl; [done|]. intros [Ha Hs]%andb_prop.
  destruct (Ascii.eqb a slug_dash) eqn:E; [by apply IH|]. simpl. rewrite Ha, Hs. split; [done|].
  unfold slug_or_dash in Ha. by rewrite E, orb_false_r in Ha.
Qed.

Lemma rstrip_dash_ok s :
  all_chars slug_or_dash s = true → all_chars slug_or_dash (rstrip_dash s) = true ∧
  (rstrip_dash s = EmptyString ∨ slug_rest (rstrip_dash s) = true) ∧
  (starts_ok s = true → starts_ok (rstrip_dash s) = true) ∧ (String.length (rstrip_dash s) <= String.length s)%nat.
Proof.
  induction s as [|a s IH]; simpl; [auto|]. intros [Ha Hs]%andb_prop. destruct (IH Hs) as (H1 & H2 & _ & H4).
  destruct (rstrip_dash s) as [|b r] eqn:Er.
  - destruct (Ascii.eqb a slug_dash) eqn:E; simpl; [split_and!; auto; lia|]. rewrite Ha.
    assert (slug_char a = true) as Hc by (unfold slug_or_dash in Ha; by rewrite E, orb_false_r in Ha).
    rewrite Hc. split_and!; auto. lia.
  - destruct H2 as [|H2]; [done|]. split_and!; [by simpl; rewrite Ha|right|done|simpl in *; lia].
    change (slug_or_dash a && slug_rest (String b r) = true). by rewrite Ha, H2.
Qed.

Lemma take_ok n s :
  all_chars slug_or_dash s = true → starts_ok s = true →
  all_chars slug_or_dash (String.substring 0 n s) = true ∧ starts_ok (String.substring 0 n s) = true ∧
  (String.length (String.substring 0 n s) <= n)%nat.
Proof.
  revert n. induction s as [|a s IH]; intros [|n]; simpl; try (intros; split_and!; done || lia).
  intros [Ha Hs]%andb_prop Hc. assert (all_chars slug_or_dash (String.substring 0 n s) = true ∧
    (String.length (String.substring 0 n s) <= n)%nat) as [E1 E2].
  { clear Hc Ha IH. revert n. induction s as [|b s IHs]; intros [|n]; simpl in *; try (split; done || lia).
    apply andb_prop in Hs as [Hb Hs]. destruct (IHs Hs n) as [E1 E2]. rewrite Hb, E1. split; [done|lia]. }
  rewrite Ha, E1. split_and!; [done|done|lia].
Qed.

Lemma pattern_of s : starts_ok s = true → slug_rest s = true → s ≠ EmptyString → slug_pattern s = true.
Proof.
  destruct s as [|a [|b r]]; [done|by simpl; intros ->|]. intros Hs Hr _.
  change (slug_or_dash a && slug_rest (String b r) = true) in Hr. apply andb_prop in Hr as [_ Hr].
  change (slug_char a && slug_rest (String b r) = true). simpl in Hs. by rewrite Hs, Hr.
Qed.

(** Every generated slug matches [SLUG_PATTERN], and is no longer than the limit
    unless it is the placeholder [item]. *)
Theorem make_slug_valid (name : string) (max_length : Z) :
  1 <= max_length →
  slug_pattern (make_slug name max_length) = true ∧
  (Z.of_nat (String.length (make_slug name max_length)) <= max_length ∨ make_slug name max_length = "item").
Proof.
  intros Hm. unfold make_slug. set (x := rstrip_dash (lstrip_dash _)).
  destruct (lstrip_dash_ok _ (dash_runs_chars false (lower name))) as [H1 H2].
  destruct (rstrip_dash_ok _ H1) as (H3 & _ & H4 & _). specialize (H4 H2). fold x in H3, H4.
  unfold str_take. rewrite (proj2 (Z.ltb_ge _ _)) by lia.
  destruct (take_ok (Z.to_nat max_length) x H3 H4) as (H5 & H6 & H7).
  destruct (String.substring 0 (Z.to_nat max_length) x) as [|a y] eqn:Ey; [by split; [|right]|].
  change (str_or (String a y) "item") with (String a y).
  destruct (rstrip_dash_ok _ H5) as (_ & H8 & H9 & H10). specialize (H9 H6). split; [|left; simpl in *; lia].
  assert (rstrip_dash (String a y) ≠ EmptyString) as Hne.
  { simpl. destruct (rstrip_dash y); [|done]. simpl in H6. destruct (Ascii.eqb a slug_dash) eqn:E; [|done].
    apply Ascii.eqb_eq in E. by subst a. }
  destruct H8 as [|H8]; [done|]. by apply pattern_of.
Qed.

(** ** Defects *)

Section Defects.
Context (cfg : OrganizationConfig).

(** Accepting an invitation of an archived organisation raises, adds no member
    and uses the invitation up. *)
Theorem archived_accept_consumes (t : nat → float) (g : nat → string) (token user : string) (st : OrgState)
    (i : Invitation) (o : Organization) :
  org_refs (os_data st) → invite_get token st = Ok i → in_status i = INVITE_PENDING → invite_is_expired (t 0%nat) i = false →
  dict_get (in_org i) (d_orgs (os_data st)) = Some o → org_is_active o = false →
  member_by_user (in_org i) user (d_members (os_data st)) = None →
  let r := invite_accept cfg t g token user st in
  r.1 = Err (OrganizationArchivedError (o_id o)) ∧ d_members (os_data r.2) = d_members (os_data st) ∧
  dict_get (in_id i) (d_invites (os_data r.2)) = Some (set_invite_accepted (t 1%nat) user i).
Proof.
  intros Hr Hg Hs He Ho Ha Hm. cbv zeta. unfold invite_accept. rewrite (asks_Ok _ _ _ i Hg), Hs, He.
  assert (assert_tenant (o_tenant o) (in_tenant i) = Ok tt) as Ht.
  { unfold assert_tenant. destruct (invite_get_Ok _ _ _ Hr Hg) as [Hgi _].
    rewrite (org_tenant_of _ _ _ o (r_invites _ Hr _ _ Hgi) Ho). rewrite bool_decide_true by done. by rewrite andb_false_r. }
  unfold mbind, SE_bind, on_data, asks, se_modify. simpl. unfold is_member, find_member. simpl. rewrite Hm. simpl.
  unfold add_member, mbind, SE_bind, asks, mem_get_org. simpl. rewrite Ho, Ht. unfold require_org. rewrite Ht, Ha. simpl.
  split_and!; [done|done|]. unfold repo_put. apply dict_get_set_eq.
Qed.

(** A workspace cannot be given the slug it has, although an organisation can. *)
Theorem own_slug_rejected (t : nat → float) (org ws tn : string) (st : OrgState) (o : Organization) (w : Workspace) :
  org_refs (os_data st) → org_get tn org st = Ok o → ws_get org ws tn st = Ok w →
  (ws_update t org ws tn [("slug", ws_slug w)] st).1 = Err (WorkspaceAlreadyExistsError (ws_slug w)).
Proof.
  intros Hr Ho Hw. unfold ws_update. rewrite (asks_Ok _ _ _ o Ho), (asks_Ok _ _ _ w Hw). simpl.
  unfold mbind at 1, SE_bind at 1. rewrite fail_if_false by done.
  destruct (ws_by_slug (ws_slug w) org (d_wss (os_data st))) as [w'|] eqn:E.
  - unfold fail_if, mbind, SE_bind, asks. by rewrite E.
  - apply ws_get_Ok in Hw as (Hg & Hwo & _). pose proof (repo_find_None _ _ _ _ E Hg) as HP. simpl in HP.
    by rewrite !bool_decide_true in HP.
Qed.
End Defects.
End OrgTheorems.

(** * Organisations: an example

    Two tenants, each with an organisation; an invitation is created, accepted
    and offered again. *)

Module OrgDemo.
Import AuthPolicy OrgModel OrgManager OrgSpec OrgOps OrgTheorems.
Open Scope string_scope.
Open Scope Z_scope.

Definition no_data : OrgData := mk_org_data [] [] [] [] [] [].
Definition fresh_service : OrgState := mk_org_state no_data ORG_ROLE_PERMISSIONS (mk_org_metrics [] []) [].
Definition ocfg : OrganizationConfig := default_org_config.

Lemma no_data_inv cfg : org_inv cfg no_data.
Proof.
  split; [split|split|intros k o|split]; try done; try (intros k k' v v'; done); try apply keyed_nil;
    intros ?; unfold rcount, zlen; simpl; lia.
Qed.

Definition clock (k : nat) : float := float_of_Z (1000 + Z.of_nat k).
Definition uuids (prefix : string) (k : nat) : string :=
  prefix +:+ match k with 0%nat => "0" | 1%nat => "1" | 2%nat => "2" | _ => "3" end.

Definition org_a : string := "org_a0".
Definition org_b : string := "org_b0".

Definition set_up : list OrgOp :=
  [OpOrgCreate clock (uuids "a") "t1" "Acme Corp" "ann" "" None "free";
   OpOrgCreate clock (uuids "b") "t2" "Beta" "bob" "" None "free";
   OpWsCreate clock (uuids "c") org_a "Main" "ann" "t1" "" None;
   OpProjectCreate clock (uuids "d") org_a "ws_c0" "First" "t1" "";
   OpInviteCreate clock (uuids "e") org_a "eve@x.org" "member" "t1" "ann" None].

Definition ready : OrgState := org_run ocfg set_up fresh_service.

Lemma set_up_fresh : org_run_fresh ocfg ["token"] set_up fresh_service.
Proof. vm_compute. repeat split; try (intros H; set_solver). Qed.

Lemma ready_inv : org_inv ocfg (os_data ready).
Proof. eapply run_inv; [done|exact (no_data_inv ocfg)|exact set_up_fresh]. Qed.

Lemma repositories_consistent_witness :
  zlen (d_members (os_data ready)) = 2 ∧ zlen (d_invites (os_data ready)) = 1 ∧
  org_refs (os_data ready) ∧ org_unique (os_data ready) ∧ owners_ok (os_data ready) ∧ org_limits ocfg (os_data ready).
Proof.
  split; [reflexivity|]. split; [reflexivity|].
  exact (repositories_consistent ocfg ["token"] set_up fresh_service eq_refl (no_data_inv ocfg) set_up_fresh).
Defined.

(** The second tenant adds a member of its own and tries to reach into the
    first one. *)
Definition intrusion : list OrgOp :=
  [OpAddMember clock (uuids "f") org_b "cat" "t2" "admin" None;
   OpOrgDelete "t2" org_a;
   OpAddMember clock (uuids "h") org_a "mal" "t2" "admin" None].

Lemma intrusion_fresh : org_run_fresh ocfg [] intrusion ready.
Proof. vm_compute. repeat split; done. Qed.

Lemma tenant_isolation_witness :
  zlen (d_members (os_data (org_run ocfg intrusion ready))) = 3 ∧
  tenant_view "t1" (os_data (org_run ocfg intrusion ready)) = tenant_view "t1" (os_data ready).
Proof.
  split; [reflexivity|].
  refine (tenant_isolation ocfg [] intrusion ready "t2" "t1" eq_refl ready_inv intrusion_fresh _ eq_refl eq_refl _).
  - repeat constructor.
  - done.
Defined.

Definition first_accept := invite_accept ocfg clock (uuids "i") "e1" "eve" ready.

Definition accepted_invite : Invitation :=
  match first_accept.1 with Ok i => i | Err _ => mk_invite "" "" "" "" ROLE_VIEWER "" "" INVITE_REVOKED fzero fzero fzero "" end.

Definition afterwards : list OrgOp := [OpRemoveMember org_a "eve" "t1" None; OpInviteRevoke "e1" "t1"].

Lemma first_accept_ok : invite_accept ocfg clock (uuids "i") "e1" "eve" ready = (Ok accepted_invite, first_accept.2).
Proof. vm_compute. reflexivity. Qed.

Lemma afterwards_fresh : org_run_fresh ocfg ["e1"] afterwards first_accept.2.
Proof. vm_compute. repeat split; done. Qed.

Lemma invitation_accepted_once_witness :
  is_member org_a "eve" first_accept.2 = true ∧
  is_ok (invite_accept ocfg clock (uuids "j") "e1" "eve" (org_run ocfg afterwards first_accept.2)).1 = false.
Proof.
  split; [reflexivity|].
  refine (invitation_accepted_once ocfg clock clock (uuids "i") (uuids "j") "e1" "eve" "eve" ["e1"] afterwards ready
            first_accept.2 accepted_invite eq_refl ready_inv eq_refl _ first_accept_ok afterwards_fresh).
  constructor.
Defined.
End OrgDemo.
