(* ===== verification/PyMath.v ===== *)
(** * Float literals, [round] and [sum]

    The scoring code of the router works with decimal literals, with
    [round(x, n)] and with [sum] over floats.

    - A literal [0.35] is the double nearest to 35/100, and a quotient of two
      integers below 2^53 is rounded once, so [flit 35 100] is that double.
    - [round(x, n)] rounds the exact value of [x] to [n] decimals, ties to
      even, and returns the double nearest to that decimal.
    - [sum] over floats is the compensated (Neumaier) sum of CPython 3.12, the
      version of the image the project ships. *)

From Stdlib Require Import ZArith Lia.
From Stdlib Require Import SpecFloat.
From Stdlib Require Import Sorted.
From stdpp Require Import base numbers strings gmap list.
From S2P Require Import Prelude PyFloat PyNum.


Open Scope Z_scope.

(** The literal [n/d]. *)
Definition flit (n d : Z) : float := fdiv (float_of_Z n) (float_of_Z d).

(** A counter or a token count used as an operand of float arithmetic. *)
Abbreviation zf := float_of_Z (only parsing).

(** [a / b] on [int]s, for a divisor the code has tested to be non-zero. *)
Definition int_ratio (a b : Z) : float :=
  match int_truediv a b with Ok f => f | Err _ => fzero end.

Definition fopp (a : float) : float := SFopp a.
Definition fabs (a : float) : float := SFabs a.

Definition is_finite (a : float) : bool :=
  match a with S754_zero _ | S754_finite _ _ _ => true | _ => false end.

(** ** [round] *)

(** [a / b] rounded to an integer, ties to even ([b > 0]). *)
Definition div_half_even (a b : Z) : Z :=
  let q := a / b in
  let r := a mod b in
  match 2 * r ?= b with
  | Lt => q
  | Gt => q + 1
  | Eq => if Z.even q then q else q + 1
  end.

(** [round(x, n)], [n >= 0].  A float with a non-negative exponent is an
    integer and is returned as it is; below 2^53 the quotient cannot
    overflow. *)
Definition py_round (x : float) (n : Z) : float :=
  match x with
  | S754_finite s m e =>
      if 0 <=? e then x
      else
        let q := div_half_even (Z.pos m * 10 ^ n) (2 ^ (- e)) in
        if q =? 0 then S754_zero s
        else int_ratio (if s then - q else q) (10 ^ n)
  | _ => x
  end.

(** ** [sum] *)

Definition neumaier_step (acc : float * float) (x : float) : float * float :=
  let '(s, c) := acc in
  let t := fadd s x in
  (t, if fle (fabs x) (fabs s) then fadd c (fadd (fsub s t) x)
      else fadd c (fadd (fsub x t) s)).

(** [sum(l)]: the [int] 0 on an empty iterable, which every caller uses as a
    float; otherwise [0 + l[0]] and the compensated loop over the rest. *)
Definition py_sum (l : list float) : float :=
  match l with
  | [] => fzero
  | x :: r =>
      let '(s, c) := fold_left neumaier_step r (fadd fzero x, fzero) in
      if negb (is_fzero c) && is_finite c then fadd s c else s
  end.

(** [min(l)] and [max(l)] keep the first extremal element. *)
Definition py_min (x : float) (l : list float) : float := fold_left fmin l x.
Definition py_max (x : float) (l : list float) : float := fold_left fmax l x.

Lemma div_half_even_near a b :
  0 < b → 2 * Z.abs (div_half_even a b * b - a) <= b.
Proof.
  intros Hb. unfold div_half_even.
  pose proof (Z.div_mod a b ltac:(lia)) as Hd.
  pose proof (Z.mod_pos_bound a b Hb) as Hr.
  destruct (Z.compare_spec (2 * (a mod b)) b); [destruct (Z.even (a / b))|..]; nia.
Qed.

Lemma py_min_le x l y :
  Forall (λ v, is_nan v = false) (x :: l) → y ∈ x :: l → fle (py_min x l) y = true.
Proof.
  unfold py_min. revert x y.
  induction l as [|z l IH]; intros x y Hn Hy; simpl.
  - apply list_elem_of_singleton in Hy as ->. apply Forall_inv in Hn. by apply fle_refl.
  - apply Forall_cons in Hn as [Hx [Hz Hl]%Forall_cons].
    assert (is_nan (fmin x z) = false) as Hm by (unfold fmin; by destruct (flt z x)).
    assert (Forall (λ v, is_nan v = false) (fmin x z :: l)) as Hf by by constructor.
    apply elem_of_cons in Hy as [->|[->|Hy]%elem_of_cons].
    + eapply fle_trans; [apply IH; [done|left]|]. by apply fmin_le_l.
    + eapply fle_trans; [apply IH; [done|left]|]. unfold fmin.
      destruct (flt z x) eqn:E; [by apply fle_refl|by apply flt_false_fle].
    + apply IH; [done|by right].
Qed.

Lemma py_min_elem x l : py_min x l ∈ x :: l.
Proof.
  unfold py_min. revert x. induction l as [|z l IH]; intros x; simpl; [left|].
  specialize (IH (fmin x z)). unfold fmin in *.
  destruct (flt z x); apply elem_of_cons in IH as [->|IH]; auto using list_elem_of_here, list_elem_of_further.
Qed.

Example round_ties :
  py_round (flit 125 1000) 2 = flit 12 100 ∧ py_round (flit 2675 1000) 2 = flit 267 100.
Proof. split; vm_compute; reflexivity. Qed.

Example compensated_sum :
  py_sum (replicate 10 (flit 1 10)) = float_of_Z 1.
Proof. vm_compute. reflexivity. Qed.

(** * Subtraction of floats does not underflow

    The difference of two different floats is not zero: gradual underflow.  It is
    what guards a division by [mx - mn] behind a test [mx == mn].  The floats of a
    machine are the canonical ones ([valid_binary]). *)

Open Scope Z_scope.

Definition fvalid (f : float) : bool := valid_binary fprec femax f.
Definition fmin_exp : Z := emin fprec femax.

Lemma digits_bounds m : 2 ^ (Z.pos (digits2_pos m) - 1) <= Z.pos m < 2 ^ Z.pos (digits2_pos m).
Proof.
  induction m as [m IH|m IH|]; simpl digits2_pos; [| |lia];
    rewrite Pos2Z.inj_succ; replace (Z.succ (Z.pos (digits2_pos m)) - 1) with (Z.pos (digits2_pos m)) by lia;
    rewrite Z.pow_succ_r by lia;
    replace (2 ^ Z.pos (digits2_pos m)) with (2 * 2 ^ (Z.pos (digits2_pos m) - 1)) in *
      by (rewrite <- Z.pow_succ_r by lia; f_equal; lia); lia.
Qed.

(** ** Shifting right keeps a leading bit *)

Lemma shr_1_m r : 0 <= shr_m r → shr_m (shr_1 r) = shr_m r / 2.
Proof.
  destruct r as [[|[p|p|]|p] r s]; simpl; intros H; try done; try lia.
  - rewrite Pos2Z.inj_xI. rewrite Z.mul_comm, Z.div_add_l by lia. by rewrite Z.add_0_r.
  - rewrite Pos2Z.inj_xO. by rewrite Z.mul_comm, Z.div_mul.
Qed.

Lemma shr_1_nonneg r : 0 <= shr_m r → 0 <= shr_m (shr_1 r).
Proof. intros H. rewrite shr_1_m by done. by apply Z.div_pos. Qed.

Lemma iter_shr p r :
  0 <= shr_m r → shr_m (SpecFloat.iter_pos shr_1 p r) = shr_m r / 2 ^ Z.pos p ∧ 0 <= shr_m (SpecFloat.iter_pos shr_1 p r).
Proof.
  revert r. induction p as [p IH|p IH|]; intros r Hr; simpl SpecFloat.iter_pos.
  - pose proof (shr_1_nonneg r Hr) as H1. destruct (IH _ H1) as [E1 H2].
    destruct (IH _ H2) as [E2 H3]. split; [|done]. rewrite E2, E1, shr_1_m by done.
    rewrite !Z.div_div by lia. f_equal. rewrite (Pos2Z.inj_xI p), Z.pow_add_r, Z.pow_mul_r by lia.
    change (2 ^ 2) with 4. replace (4 ^ Z.pos p) with (2 ^ Z.pos p * 2 ^ Z.pos p); [lia|].
    rewrite <- Z.pow_mul_l. done.
  - destruct (IH _ Hr) as [E1 H2]. destruct (IH _ H2) as [E2 H3]. split; [|done].
    rewrite E2, E1, Z.div_div by lia. f_equal. rewrite <- Z.pow_add_r by lia. f_equal. lia.
  - split; [by apply shr_1_m|by apply shr_1_nonneg].
Qed.

Lemma shr_record_m m l : shr_m (shr_record_of_loc m l) = m.
Proof. by destruct l as [|[]]. Qed.

Lemma shr_fexp_pos m e l r e' :
  1 <= m → fmin_exp <= e → shr_fexp fprec femax m e l = (r, e') → 1 <= shr_m r ∧ fmin_exp <= e'.
Proof.
  intros Hm He. unfold shr_fexp, shr.
  destruct (fexp fprec femax (Zdigits2 m + e) - e) as [|p|p] eqn:En; intros [= <- <-];
    rewrite ?shr_record_m; try done.
  destruct (iter_shr p (shr_record_of_loc m l)) as [-> _]; [rewrite shr_record_m; lia|].
  rewrite shr_record_m. split; [|lia].
  destruct m as [|m|]; [lia| |lia]. simpl Zdigits2 in En.
  unfold fexp in En. fold fmin_exp in En. unfold fprec in En.
  assert (Z.pos p <= Z.pos (digits2_pos m) - 1) as Hp by lia.
  apply Z.div_le_lower_bound; [lia|]. rewrite Z.mul_1_r.
  etrans; [|apply digits_bounds]. by apply Z.pow_le_mono_r; lia.
Qed.

Lemma round_ge m l : m <= round_nearest_even m l.
Proof. destruct l as [|[]]; simpl; try lia. destruct (Z.even m); lia. Qed.

Lemma binary_round_aux_nonzero s m e l :
  1 <= m → fmin_exp <= e → is_fzero (binary_round_aux fprec femax s m e l) = false.
Proof.
  intros Hm He. unfold binary_round_aux.
  destruct (shr_fexp fprec femax m e l) as [r1 e1] eqn:E1.
  destruct (shr_fexp_pos _ _ _ _ _ Hm He E1) as [H1 He1].
  destruct (shr_fexp fprec femax (round_nearest_even (shr_m r1) (loc_of_shr_record r1)) e1 loc_Exact)
    as [r2 e2] eqn:E2.
  assert (1 <= round_nearest_even (shr_m r1) (loc_of_shr_record r1)) as Hr
    by (pose proof (round_ge (shr_m r1) (loc_of_shr_record r1)); lia).
  destruct (shr_fexp_pos _ _ _ _ _ Hr He1 E2) as [H2 _].
  destruct (shr_m r2) as [|p|p]; [lia| |done]. by destruct (e2 <=? _).
Qed.

Lemma binary_normalize_nonzero m e s :
  m ≠ 0 → fmin_exp <= e → is_fzero (binary_normalize fprec femax m e s) = false.
Proof.
  intros Hm He.
  assert (∀ s p, is_fzero (binary_round fprec femax s p e) = false) as Hr.
  { intros s' p. unfold binary_round.
    destruct (shl_align p e (fexp fprec femax (Z.pos (digits2_pos p) + e))) as [p' e'] eqn:Ep.
    apply binary_round_aux_nonzero; [lia|]. unfold shl_align in Ep.
    destruct (fexp fprec femax (Z.pos (digits2_pos p) + e) - e); simplify_eq; [done..|].
    unfold fexp. fold fmin_exp. lia. }
  destruct m; [done|apply Hr..].
Qed.

(** ** Canonical floats with different keys have different values *)

Lemma shl_align_value m e ez : ez <= e → Z.pos (shl_align m e ez).1 = Z.pos m * 2 ^ (e - ez).
Proof.
  intros He. unfold shl_align. destruct (ez - e) as [|d|d] eqn:Ed; simpl; [|lia|].
  - replace (e - ez) with 0 by lia. lia.
  - replace (e - ez) with (Z.pos d) by lia. clear. rewrite <- Pos2Z.inj_pow. rewrite <- Pos2Z.inj_mul. f_equal.
    induction d as [|d IH] using Pos.peano_ind; [simpl; lia|].
    rewrite Pos.iter_succ, IH, Pos.pow_succ_r. lia.
Qed.

Lemma bounded_cases m e :
  bounded fprec femax m e = true →
  fmin_exp <= e ∧ Z.pos m < 2 ^ 53 ∧ (fmin_exp < e → 2 ^ 52 <= Z.pos m).
Proof.
  unfold bounded, canonical_mantissa. intros [Hc%Z.eqb_eq _]%andb_prop.
  unfold fexp in Hc. fold fmin_exp in Hc. unfold fprec in Hc.
  pose proof (digits_bounds m) as [Hl Hu]. split; [lia|]. split.
  - eapply Z.lt_le_trans; [exact Hu|]. apply Z.pow_le_mono_r; lia.
  - intros He. etrans; [|exact Hl]. apply Z.pow_le_mono_r; lia.
Qed.

Lemma canonical_lt m1 e1 m2 e2 :
  bounded fprec femax m1 e1 = true → bounded fprec femax m2 e2 = true → e1 < e2 →
  Z.pos m1 < Z.pos m2 * 2 ^ (e2 - e1).
Proof.
  intros [H1 [Hu _]]%bounded_cases [_ [_ Hl]]%bounded_cases He.
  specialize (Hl ltac:(lia)). change (2 ^ 53) with (2 ^ 52 * 2 ^ 1) in Hu.
  eapply Z.lt_le_trans; [exact Hu|]. apply Z.mul_le_mono_nonneg; [lia|done|lia|].
  apply Z.pow_le_mono_r; lia.
Qed.

Lemma canonical_inj m1 e1 m2 e2 :
  bounded fprec femax m1 e1 = true → bounded fprec femax m2 e2 = true →
  Z.pos (shl_align m1 e1 (Z.min e1 e2)).1 = Z.pos (shl_align m2 e2 (Z.min e1 e2)).1 →
  m1 = m2 ∧ e1 = e2.
Proof.
  intros H1 H2. rewrite !shl_align_value by lia.
  destruct (Z.lt_trichotomy e1 e2) as [He|[->|He]].
  - rewrite Z.min_l by lia. rewrite Z.sub_diag. pose proof (canonical_lt _ _ _ _ H1 H2 He). lia.
  - rewrite Z.min_id, Z.sub_diag. intros. split; [|done]. lia.
  - rewrite Z.min_r by lia. rewrite Z.sub_diag. pose proof (canonical_lt _ _ _ _ H2 H1 He). lia.
Qed.

Lemma feq_refl f : is_nan f = false → feq f f = true.
Proof.
  intros Hn. unfold feq, SFeqb. pose proof (fcompare_key f f Hn Hn) as H.
  destruct (SFcompare f f) as [[]|]; unfold key_lt in *; try done; lia.
Qed.

(** Two floats that differ have a difference that is not zero. *)
Lemma fsub_nonzero x y :
  fvalid x = true → fvalid y = true → is_nan x = false → is_nan y = false → feq x y = false →
  is_fzero (fsub x y) = false.
Proof.
  intros Hx Hy Nx Ny Hne.
  destruct x as [sx|sx| |sx mx ex], y as [sy|sy| |sy my ey]; try done;
    try (by destruct sx, sy). simpl in Hx, Hy. unfold fsub; simpl.
  pose proof (proj1 (bounded_cases _ _ Hx)). pose proof (proj1 (bounded_cases _ _ Hy)).
  apply binary_normalize_nonzero; [|lia]. intros Hz.
  assert (sx = sy ∧ Z.pos (shl_align mx ex (Z.min ex ey)).1 = Z.pos (shl_align my ey (Z.min ex ey)).1) as [-> Hv].
  { revert Hz. generalize (shl_align mx ex (Z.min ex ey)).1, (shl_align my ey (Z.min ex ey)).1.
    intros p q. destruct sx, sy; simpl; intros; split; try done; lia. }
  destruct (canonical_inj _ _ _ _ Hx Hy Hv) as [-> ->]. by rewrite feq_refl in Hne.
Qed.

(** * Ranking by score

    [sorted(pairs, key=score, reverse=True)], slices and positions.  A reverse
    sort keeps the order of pairs with equal scores.  On scores that are numbers
    the result is ordered, and the position of an element in it is the number of
    elements that are better, plus the number of equal ones that came before. *)

Open Scope Z_scope.

Definition by_score {A} (x y : A * float) : bool := flt y.2 x.2.

(** [l[:n]] *)
Definition take_z {A} (n : Z) (l : list A) : list A :=
  take (Z.to_nat (if 0 <=? n then n else zlen l + n)) l.

(** [l[a:b]]: negative bounds count from the end, and are clipped. *)
Definition clip {A} (i : Z) (l : list A) : nat :=
  Z.to_nat (if 0 <=? i then i else zlen l + i).
Definition py_slice {A} (a b : Z) (l : list A) : list A := drop (clip a l) (take (clip b l) l).

(** [enumerate(l)] *)
Fixpoint enumerate_from {A} (i : Z) (l : list A) : list (Z * A) :=
  match l with [] => [] | x :: l' => (i, x) :: enumerate_from (i + 1) l' end.
Definition enumerate {A} (l : list A) : list (Z * A) := enumerate_from 0 l.

(** ** Order *)

Definition ranked {A} (l : list (A * float)) : Prop := StronglySorted (λ x y, flt x.2 y.2 = false) l.

Definition is_number {A} (x : A * float) : Prop := is_nan x.2 = false.

Lemma nlt_trans (a b c : float) :
  is_nan a = false → is_nan b = false → is_nan c = false →
  flt a b = false → flt b c = false → flt a c = false.
Proof. intros. apply fle_flt_false. apply (fle_trans c b a); by apply flt_false_fle. Qed.

Lemma sorted_ranked {A} (l : list (A * float)) :
  Forall is_number l → ranked (py_sorted by_score l).
Proof.
  unfold ranked. induction 1 as [|x l Hx Hl IH]; simpl; [constructor|].
  assert (Forall is_number (py_sorted by_score l)) as Hn by (by rewrite py_sorted_perm).
  clear Hl. revert IH Hn. generalize (py_sorted by_score l) as k. induction k as [|y k IHk]; simpl; intros Hs Hn.
  { by repeat constructor. }
  inversion Hs as [|?? Hk Hy]; subst. apply Forall_cons in Hn as [Hny Hn]. unfold by_score at 1.
  destruct (flt x.2 y.2) eqn:E.
  - constructor; [by apply IHk|]. rewrite sort_insert_perm. constructor; [by apply flt_asym|done].
  - constructor; [done|]. constructor; [done|].
    rewrite Forall_forall in Hy |- *. intros z Hz. rewrite Forall_forall in Hn.
    eapply nlt_trans; [exact Hx|exact Hny|by apply Hn|done|by apply Hy].
Qed.

(** Sorting commutes with a map that keeps the comparison. *)
Lemma sort_insert_fmap {A B} (f : A → B) (lt : B → B → bool) (lt' : A → A → bool) x l :
  (∀ y, y ∈ l → lt (f y) (f x) = lt' y x) →
  sort_insert lt (f x) (f <$> l) = f <$> sort_insert lt' x l.
Proof.
  induction l as [|y l IH]; intros H; csimpl; [done|]. rewrite (H y) by left.
  destruct (lt' y x); csimpl; [|done]. rewrite IH; [done|]. intros. apply H. by right.
Qed.

Lemma py_sorted_fmap {A B} (f : A → B) (lt : B → B → bool) (lt' : A → A → bool) l :
  (∀ x y, x ∈ l → y ∈ l → lt (f x) (f y) = lt' x y) →
  py_sorted lt (f <$> l) = f <$> py_sorted lt' l.
Proof.
  induction l as [|x l IH]; intros H; csimpl; [done|].
  rewrite IH by (intros; apply H; by right). apply sort_insert_fmap.
  intros y. rewrite elem_of_py_sorted. intros Hy. apply H; [by right|left].
Qed.

Definition descending (l : list float) : Prop := StronglySorted (λ x y, flt x y = false) l.

(** [sorted(l, key=key, reverse=True)] is descending in its key. *)
Lemma sorted_descending {A} (key : A → float) (l : list A) :
  Forall (λ x, is_nan x = false) (key <$> l) →
  descending (key <$> py_sorted (λ x y, flt (key y) (key x)) l).
Proof.
  intros Hn. set (g := λ x, (x, key x)).
  assert (ranked (py_sorted by_score (g <$> l))) as Hr.
  { apply sorted_ranked. apply Forall_fmap. apply Forall_fmap in Hn. exact Hn. }
  rewrite (py_sorted_fmap g by_score (λ x y, flt (key y) (key x))) in Hr by done.
  unfold ranked, descending in *. clear Hn. revert Hr. generalize (py_sorted (λ x y, flt (key y) (key x)) l) as k.
  induction k as [|x k IH]; csimpl; intros Hs; [constructor|].
  inversion Hs as [|?? Hk Hx]; subst. constructor; [by apply IH|].
  apply Forall_fmap. apply Forall_fmap in Hx. exact Hx.
Qed.

Lemma take_z_length {A} (n : Z) (l : list A) : 0 <= n → zlen (take_z n l) <= n.
Proof.
  intros Hn. unfold take_z, zlen. rewrite length_take. destruct (Z.leb_spec 0 n); lia.
Qed.

Lemma take_z_prefix {A} (n : Z) (l : list A) : ∃ k, l = (take_z n l ++ k)%list.
Proof. unfold take_z. eexists (drop _ l). by rewrite take_drop. Qed.

Lemma take_z_rest {A} (n : Z) (l k : list A) :
  0 <= n → l = (take_z n l ++ k)%list → k ≠ [] → zlen (take_z n l) = n.
Proof.
  intros Hn Hl Hk. unfold take_z in *. destruct (Z.leb_spec 0 n); [|lia]. unfold zlen.
  rewrite length_take. apply (f_equal length) in Hl. rewrite length_app, length_take in Hl.
  destruct k; [done|]. simpl in Hl. lia.
Qed.

(** Consecutive slices. *)
Lemma slice_app {A} (a b c : Z) (l : list A) :
  0 <= a <= b → b <= c → py_slice a c l = (py_slice a b l ++ py_slice b c l)%list.
Proof.
  intros Hab Hbc. unfold py_slice, clip.
  rewrite !(proj2 (Z.leb_le _ _)) by lia.
  replace (Z.to_nat c) with (Z.to_nat b + Z.to_nat (c - b))%nat by lia.
  rewrite <- (take_drop (Z.to_nat b) (take (Z.to_nat b + Z.to_nat (c - b)) l)) at 1.
  rewrite take_take, Nat.min_l by lia.
  destruct (decide (Z.to_nat a ≤ length (take (Z.to_nat b) l))%nat) as [Hle|Hgt].
  - by rewrite drop_app_le.
  - rewrite length_take in Hgt.
    rewrite !drop_ge; [done|rewrite ?length_take; lia..| ].
    rewrite length_app, length_drop, !length_take. lia.
Qed.

Lemma py_slice_nonneg {A} a b (l : list A) :
  0 <= a → 0 <= b → py_slice a b l = drop (Z.to_nat a) (take (Z.to_nat b) l).
Proof. intros. unfold py_slice, clip. by rewrite !(proj2 (Z.leb_le _ _)). Qed.

Lemma zlen_py_slice {A} a b (l : list A) : 0 <= a <= b → b <= zlen l → zlen (py_slice a b l) = b - a.
Proof.
  unfold zlen. intros H Hb. rewrite py_slice_nonneg by lia. rewrite length_drop, length_take. lia.
Qed.

Lemma slice_all {A} (b : Z) (l : list A) : zlen l <= b → py_slice 0 b l = l.
Proof.
  intros Hb. unfold py_slice, clip, zlen in *. rewrite !(proj2 (Z.leb_le _ _)) by lia. simpl.
  rewrite take_ge by lia. done.
Qed.

Lemma slice_sublist {A} (a b : Z) (l : list A) : py_slice a b l `sublist_of` l.
Proof. unfold py_slice. etrans; [apply sublist_drop|apply sublist_take]. Qed.

Lemma slice_length {A} (a b : Z) (l : list A) : a <= b → zlen (py_slice a b l) <= b - a.
Proof.
  intros Hab. unfold py_slice, clip, zlen. rewrite length_drop, length_take.
  destruct (Z.leb_spec 0 a), (Z.leb_spec 0 b); lia.
Qed.

(** ** Positions *)

(** [x] stands before [y] in the reverse sort of an enumerated list *)
Definition before (x y : Z * float) : bool := flt y.2 x.2 || negb (flt x.2 y.2) && (x.1 <? y.1).

Lemma before_asym x y : before x y = true → before y x = false.
Proof.
  unfold before. intros [H|[H1 H2]%andb_prop]%orb_prop.
  - rewrite (flt_asym _ _ H), H. done.
  - bool_to_prop. rewrite H1. simpl. apply andb_false_intro2, Z.ltb_ge. lia.
Qed.

Lemma sorted_before (l : list (Z * float)) :
  Forall is_number l → StronglySorted (λ x y, x.1 < y.1) l →
  StronglySorted (λ x y, before x y = true) (py_sorted by_score l).
Proof.
  induction 1 as [|x l Hx Hl IH]; intros Hs; simpl; [constructor|].
  inversion Hs as [|?? Hs' Hlt]; subst. specialize (IH Hs').
  assert (Forall is_number (py_sorted by_score l)) as Hn by (by rewrite py_sorted_perm).
  assert (Forall (λ y, x.1 < y.1) (py_sorted by_score l)) as Hi by (by rewrite py_sorted_perm).
  clear Hl Hs Hs' Hlt. revert IH Hn Hi. generalize (py_sorted by_score l) as k.
  induction k as [|y k IHk]; simpl; intros Hk Hn Hi; [by repeat constructor|].
  inversion Hk as [|?? Hk' Hy]; subst. apply Forall_cons in Hn as [Hny Hn]. apply Forall_cons in Hi as [Hiy Hi].
  unfold by_score at 1. destruct (flt x.2 y.2) eqn:E.
  - constructor; [by apply IHk|]. rewrite sort_insert_perm. constructor; [|done].
    unfold before. by rewrite E.
  - constructor; [done|].
    assert (∀ z, flt x.2 z.2 = false → x.1 < z.1 → before x z = true) as Hb.
    { intros z Hz Hlt. unfold before. rewrite Hz. simpl. rewrite (proj2 (Z.ltb_lt _ _)) by done. by rewrite orb_true_r. }
    constructor; [by apply Hb|]. rewrite Forall_forall in Hy, Hn, Hi |- *. intros z Hz.
    apply Hb; [|by apply Hi]. specialize (Hy z Hz). apply not_true_is_false. intros Hxz.
    apply orb_prop in Hy as [Hy|[Hy _]%andb_prop].
    + pose proof (flt_trans _ _ _ Hxz Hy). congruence.
    + apply negb_true_iff in Hy.
      assert (flt x.2 z.2 = false); [|congruence].
      eapply nlt_trans; [exact Hx|exact Hny|by apply Hn|done|done].
Qed.

Lemma position_by_counting {A} (R : A → A → bool) (l1 l2 : list A) x :
  (∀ x y, R x y = true → R y x = false) → StronglySorted (λ x y, R x y = true) (l1 ++ x :: l2) →
  zlen (List.filter (λ y, R y x) (l1 ++ x :: l2)) = zlen l1.
Proof.
  intros Has Hs. apply StronglySorted_app_inv in Hs as (_ & Hs & Hc).
  inversion Hs as [|?? _ Hx]; subst.
  rewrite List.filter_app. simpl.
  assert (R x x = false) as ->. { destruct (R x x) eqn:E; [|done]. by rewrite (Has _ _ E) in E. }
  assert (List.filter (λ y, R y x) l2 = []) as ->.
  { clear -Hx Has. induction Hx as [|y l Hy _ IH]; simpl; [done|]. by rewrite (Has _ _ Hy), IH. }
  rewrite app_nil_r. f_equal.
  assert (∀ y, y ∈ l1 → R y x = true) as Hl by (intros; apply Hc; [done|left]).
  clear -Hl. induction l1 as [|y l IH]; simpl; [done|]. rewrite Hl by left. f_equal. apply IH.
  intros. apply Hl. by right.
Qed.

Lemma filter_perm_length {A} (P : A → bool) (l k : list A) :
  l ≡ₚ k → zlen (List.filter P l) = zlen (List.filter P k).
Proof.
  unfold zlen. induction 1 as [|x l k _ IH|x y l|? ? ? ? IH1 ? IH2]; simpl; [done| | |lia].
  - destruct (P x); simpl; lia.
  - by destruct (P x), (P y).
Qed.

Lemma enumerate_sorted {A} (l : list A) : StronglySorted (λ x y, x.1 < y.1) (enumerate l).
Proof.
  unfold enumerate. generalize 0 as i. induction l as [|x l IH]; intros i; simpl; [constructor|].
  constructor; [apply IH|]. clear IH. apply Forall_forall. intros [j y] Hy. simpl.
  assert (i + 1 <= j); [|lia]. revert Hy. generalize (i + 1) as k. induction l as [|z l IH]; intros k; simpl; [set_solver|].
  intros [[= -> ->]|Hy]%elem_of_cons; [lia|]. apply IH in Hy. lia.
Qed.

Lemma enumerate_from_snd {A} i (l : list A) : (enumerate_from i l).*2 = l.
Proof. revert i. induction l as [|x l IH]; intros i; csimpl; [done|]. by rewrite IH. Qed.

Lemma enumerate_from_fst {A} i (l : list A) :
  fst <$> enumerate_from i l = (λ k, i + Z.of_nat k) <$> seq 0 (length l).
Proof.
  revert i. induction l as [|x l IH]; intros i; csimpl; [done|]. rewrite Z.add_0_r. f_equal.
  rewrite IH, <- fmap_S_seq, <- list_fmap_compose. apply list_fmap_ext. intros k y _. simpl. lia.
Qed.

Lemma enumerate_elem {A} (l : list A) i x : (i, x) ∈ enumerate l ↔ 0 <= i ∧ l !! Z.to_nat i = Some x.
Proof.
  unfold enumerate.
  assert (∀ k, (i, x) ∈ enumerate_from k l ↔ k <= i ∧ l !! Z.to_nat (i - k) = Some x) as H.
  { induction l as [|y l IH]; intros k; simpl.
    - rewrite lookup_nil. set_solver.
    - rewrite elem_of_cons, IH. destruct (decide (i = k)) as [->|Hne].
      + rewrite Z.sub_diag. simpl. split; [intros [[= ->]|[? _]]; [done|lia]|intros [_ [= ->]]; by left].
      + split.
        * intros [[= -> ->]|[Hle Hl]]; [lia|]. split; [lia|].
          by replace (Z.to_nat (i - k)) with (S (Z.to_nat (i - (k + 1)))) by lia.
        * intros [Hle Hl]. right. split; [lia|].
          by replace (Z.to_nat (i - k)) with (S (Z.to_nat (i - (k + 1)))) in Hl by lia. }
  rewrite H. by rewrite Z.sub_0_r.
Qed.

Lemma enumerate_snd {A} (l : list A) : (enumerate l).*2 = l.
Proof. unfold enumerate. generalize 0 as i. induction l as [|x l IH]; intros i; csimpl; [done|]. by rewrite IH. Qed.

(** The position of an element in the reverse sort. *)
Lemma rank_by_counting (l : list float) (l1 l2 : list (Z * float)) (x : Z * float) :
  Forall (λ v, is_nan v = false) l →
  py_sorted by_score (enumerate l) = (l1 ++ x :: l2)%list →
  zlen l1 = zlen (List.filter (λ y, before y x) (enumerate l)).
Proof.
  intros Hn Hs. rewrite <- (filter_perm_length _ _ _ (py_sorted_perm by_score (enumerate l))), Hs.
  symmetry. apply position_by_counting; [apply before_asym|]. rewrite <- Hs.
  apply sorted_before; [|apply enumerate_sorted].
  apply Forall_forall. intros [i v] Hv. apply enumerate_elem in Hv as [_ Hv].
  rewrite Forall_forall in Hn. apply Hn. by eapply list_elem_of_lookup_2.
Qed.

(** ** Values between 0 and 1 *)

Definition in_unit (x : float) : Prop := fle fzero x = true ∧ fle x fone = true.

Lemma fmax_unit x y : in_unit x → in_unit y → in_unit (fmax x y).
Proof. unfold fmax. by destruct (flt x y). Qed.

(** [max(0.0, min(1.0, x))] *)
Lemma fmax_fmin_unit x : in_unit (fmax fzero (fmin fone x)).
Proof.
  unfold fmin. destruct (flt x fone) eqn:E; [|by split].
  unfold fmax. destruct (flt fzero x) eqn:E0; [|by split].
  split; by apply flt_fle.
Qed.
