(* ===== verification/ProviderManager.v ===== *)
(** * Circuit breaker of a provider

    [CircuitBreaker] of [src/app/providers/manager.py].  The breaker counts
    the failures of a provider while it is closed, opens at the threshold,
    lets requests through again ([half-open]) once the recovery timeout has
    passed since the last failure, and closes after three successes.

    The implementation keeps one failure counter for all three states and
    moves from [open] to [half-open] inside the property [is_open], that is on
    a read.  [Breaker] is the machine of the documentation, with the data each
    state needs and no other: half-open, it lets one probe through and refuses
    the next request until the outcome of the probe is recorded.  The class
    refines it on the histories that make one probe at a time
    ([breaker_refines]); with concurrent requests it lets every one of them
    through ([breaker_admits_second_probe]). *)

From Stdlib Require Import ZArith Lia.
From stdpp Require Import base numbers strings gmap list.
From S2P Require Import Prelude PyFloat PyNum PyStr PyDict PyMath.


Open Scope string_scope.
Open Scope Z_scope.

Inductive cb_state := closed | opened | half_open.

Instance cb_state_eq_dec : EqDecision cb_state.
Proof. solve_decision. Defined.

(** The strings the code stores in [_state]. *)
Definition cb_state_str (s : cb_state) : string :=
  match s with closed => "closed" | opened => "open" | half_open => "half-open" end.

Record CircuitBreaker := mk_cb {
  failure_threshold : Z;
  recovery_timeout : float;
  failure_count : Z;
  cb_st : cb_state;
  last_failure_time : float;
  half_open_successes : Z
}.

Definition cb_init (threshold : Z) (timeout : float) : CircuitBreaker :=
  mk_cb threshold timeout 0 closed fzero 0.

(** The property [is_open], read at time [now]: it answers and may move the
    breaker to [half-open]. *)
Definition is_open (now : float) (cb : CircuitBreaker) : bool * CircuitBreaker :=
  match cb_st cb with
  | opened =>
      if flt (recovery_timeout cb) (fsub now (last_failure_time cb))
      then (false, mk_cb (failure_threshold cb) (recovery_timeout cb) (failure_count cb)
                     half_open (last_failure_time cb) 0)
      else (true, cb)
  | _ => (false, cb)
  end.

Definition cb_record_success (cb : CircuitBreaker) : CircuitBreaker :=
  match cb_st cb with
  | half_open =>
      let n := half_open_successes cb + 1 in
      if 3 <=? n
      then mk_cb (failure_threshold cb) (recovery_timeout cb) 0 closed (last_failure_time cb) n
      else mk_cb (failure_threshold cb) (recovery_timeout cb) (failure_count cb) half_open
             (last_failure_time cb) n
  | closed =>
      mk_cb (failure_threshold cb) (recovery_timeout cb) 0 closed (last_failure_time cb)
        (half_open_successes cb)
  | opened => cb
  end.

Definition cb_record_failure (now : float) (cb : CircuitBreaker) : CircuitBreaker :=
  let n := failure_count cb + 1 in
  mk_cb (failure_threshold cb) (recovery_timeout cb) n
    (if failure_threshold cb <=? n then opened else cb_st cb) now (half_open_successes cb).

Definition cb_reset (cb : CircuitBreaker) : CircuitBreaker :=
  mk_cb (failure_threshold cb) (recovery_timeout cb) 0 closed (last_failure_time cb) 0.

(** ** Runs *)

Inductive cb_op :=
  | CbSuccess
  | CbFailure (now : float)
  | CbPoll (now : float)
  | CbReset.

(** One call; only [is_open] answers. *)
Definition cb_step (cb : CircuitBreaker) (op : cb_op) : option bool * CircuitBreaker :=
  match op with
  | CbSuccess => (None, cb_record_success cb)
  | CbFailure now => (None, cb_record_failure now cb)
  | CbPoll now => let '(b, cb') := is_open now cb in (Some b, cb')
  | CbReset => (None, cb_reset cb)
  end.

(** The answers of a sequence of calls, and the state after it. *)
Fixpoint run_ops {S Op A} (step : S → Op → A * S) (s : S) (ops : list Op) : list A * S :=
  match ops with
  | [] => ([], s)
  | op :: ops' =>
      let '(a, s') := step s op in
      let '(l, s'') := run_ops step s' ops' in
      (a :: l, s'')
  end.

(** ** The specification *)

Inductive Breaker :=
  | Closed (failures : nat)      (** consecutive failures, below the threshold *)
  | Open (since : float)         (** the time of the last failure *)
  | HalfOpen (successes : nat) (probing : bool).
      (** successes since the timeout, below three, and whether a request that
          was let through has no outcome yet *)

Definition breaker_step (threshold : nat) (timeout : float) (b : Breaker) (op : cb_op)
    : option bool * Breaker :=
  match b, op with
  | _, CbReset => (None, Closed 0)
  | Closed _, CbSuccess => (None, Closed 0)
  | Closed n, CbFailure now =>
      (None, if Nat.eqb (S n) threshold then Open now else Closed (S n))
  | Closed _, CbPoll _ => (Some false, b)
  | Open t, CbSuccess => (None, Open t)
  | Open _, CbFailure now => (None, Open now)
  | Open t, CbPoll now =>
      if flt timeout (fsub now t) then (Some false, HalfOpen 0 true) else (Some true, Open t)
  | HalfOpen k _, CbSuccess =>
      (None, if Nat.eqb (S k) 3 then Closed 0 else HalfOpen (S k) false)
  | HalfOpen _ _, CbFailure now => (None, Open now)
  | HalfOpen k probing, CbPoll _ => (Some probing, HalfOpen k true)
  end.

(** A request that arrives while a probe has no outcome yet. *)
Definition second_probe (b : Breaker) (op : cb_op) : bool :=
  match b, op with HalfOpen _ true, CbPoll _ => true | _, _ => false end.

(** The history makes one probe at a time: in the half-open state [is_open] is
    not read again before the outcome of the last request is recorded. *)
Fixpoint one_probe (threshold : nat) (timeout : float) (b : Breaker) (ops : list cb_op) : bool :=
  match ops with
  | [] => true
  | op :: ops' =>
      negb (second_probe b op) && one_probe threshold timeout (breaker_step threshold timeout b op).2 ops'
  end.

(** How a breaker of the code represents one of the specification. *)
Inductive cb_repr (threshold : nat) (timeout : float) : CircuitBreaker → Breaker → Prop :=
  | repr_closed n t k :
      (n < threshold)%nat →
      cb_repr threshold timeout
        (mk_cb (Z.of_nat threshold) timeout (Z.of_nat n) closed t k) (Closed n)
  | repr_open n t k :
      (threshold <= n)%nat →
      cb_repr threshold timeout
        (mk_cb (Z.of_nat threshold) timeout (Z.of_nat n) opened t k) (Open t)
  | repr_half_open n t k p :
      (threshold <= n)%nat → (k < 3)%nat →
      cb_repr threshold timeout
        (mk_cb (Z.of_nat threshold) timeout (Z.of_nat n) half_open t (Z.of_nat k)) (HalfOpen k p).

#[local] Hint Constructors cb_repr : core.

Lemma repr_closed' (threshold : nat) timeout z n t k :
  z = Z.of_nat n → (n < threshold)%nat →
  cb_repr threshold timeout (mk_cb (Z.of_nat threshold) timeout z closed t k) (Closed n).
Proof. intros ->. auto. Qed.

Lemma repr_open' (threshold : nat) timeout n t k :
  Z.of_nat threshold <= n →
  cb_repr threshold timeout (mk_cb (Z.of_nat threshold) timeout n opened t k) (Open t).
Proof. intros. rewrite <- (Z2Nat.id n) by lia. constructor. lia. Qed.

Lemma repr_half_open' (threshold : nat) timeout n t z k p :
  Z.of_nat threshold <= n → z = Z.of_nat k → (k < 3)%nat →
  cb_repr threshold timeout (mk_cb (Z.of_nat threshold) timeout n half_open t z) (HalfOpen k p).
Proof. intros ? -> ?. rewrite <- (Z2Nat.id n) by lia. constructor; [lia|done]. Qed.

Lemma cb_step_repr (threshold : nat) timeout cb b op :
  (0 < threshold)%nat → cb_repr threshold timeout cb b → second_probe b op = false →
  (cb_step cb op).1 = (breaker_step threshold timeout b op).1 ∧
  cb_repr threshold timeout (cb_step cb op).2 (breaker_step threshold timeout b op).2.
Proof.
  intros Ht [n t k Hn|n t k Hn|n t k p Hn Hk] Hp; destruct op as [|now|now|];
    unfold cb_step, cb_record_success, cb_record_failure, cb_reset, is_open;
    cbn -[Z.of_nat Z.leb Z.add Nat.eqb];
    try (split; [done|]; by apply repr_closed'; lia); auto.
  - split; [done|].
    destruct (Z.leb_spec (Z.of_nat threshold) (Z.of_nat n + 1)),
      (Nat.eqb_spec (S n) threshold); try lia;
      [apply repr_open'; lia|apply repr_closed'; lia].
  - split; [done|]. destruct (Z.leb_spec (Z.of_nat threshold) (Z.of_nat n + 1)); [|lia].
    apply repr_open'. lia.
  - destruct (flt timeout (fsub now t)); split; try done; [|by constructor].
    apply repr_half_open'; lia.
  - split; [done|]. destruct (Z.leb_spec 3 (Z.of_nat k + 1)), (Nat.eqb_spec (S k) 3); try lia;
      [apply repr_closed'; lia|apply repr_half_open'; lia].
  - split; [done|]. destruct (Z.leb_spec (Z.of_nat threshold) (Z.of_nat n + 1)); [|lia].
    apply repr_open'. lia.
  - destruct p; [done|]. split; [done|]. by apply repr_half_open'; lia.
Qed.

Lemma run_repr (threshold : nat) timeout ops cb b :
  (0 < threshold)%nat → cb_repr threshold timeout cb b → one_probe threshold timeout b ops = true →
  (run_ops cb_step cb ops).1 = (run_ops (breaker_step threshold timeout) b ops).1 ∧
  cb_repr threshold timeout (run_ops cb_step cb ops).2
    (run_ops (breaker_step threshold timeout) b ops).2.
Proof.
  intros Ht. revert cb b. induction ops as [|op ops IH]; intros cb b Hr Hone; simpl; [done|].
  simpl in Hone. apply andb_true_iff in Hone as [Hp Hone]. apply negb_true_iff in Hp.
  destruct (cb_step_repr threshold timeout cb b op Ht Hr Hp) as [Ha Hr'].
  destruct (cb_step cb op) as [a cb'], (breaker_step threshold timeout b op) as [a' b'].
  simpl in *; subst. destruct (IH cb' b' Hr' Hone) as [Hl Hr''].
  destruct (run_ops cb_step cb' ops), (run_ops _ b' ops); simpl in *; by subst.
Qed.

(** (C11) The breaker refines the documented machine: from a new breaker with a
    positive threshold, on every history that makes one probe at a time,
    [is_open] answers what the specification answers, and the final state
    represents the specification's. *)
Theorem breaker_refines (threshold : nat) (timeout : float) (ops : list cb_op) :
  (0 < threshold)%nat → one_probe threshold timeout (Closed 0) ops = true →
  let impl := run_ops cb_step (cb_init (Z.of_nat threshold) timeout) ops in
  let spec := run_ops (breaker_step threshold timeout) (Closed 0) ops in
  impl.1 = spec.1 ∧ cb_repr threshold timeout impl.2 spec.2.
Proof.
  intros Ht Hone. apply run_repr; [done| |done]. unfold cb_init. apply repr_closed'; lia.
Qed.

Definition breaker_demo : list cb_op :=
  replicate 5 (CbFailure (float_of_Z 100)) ++
  [CbPoll (float_of_Z 110); CbPoll (float_of_Z 200); CbSuccess; CbFailure (float_of_Z 210);
   CbPoll (float_of_Z 220); CbPoll (float_of_Z 300); CbSuccess; CbPoll (float_of_Z 301); CbSuccess;
   CbPoll (float_of_Z 302); CbSuccess].

Lemma breaker_refines_witness :
  let impl := run_ops cb_step (cb_init 5 (float_of_Z 60)) breaker_demo in
  let spec := run_ops (breaker_step 5 (float_of_Z 60)) (Closed 0) breaker_demo in
  impl.1 = spec.1 ∧ cb_repr 5 (float_of_Z 60) impl.2 spec.2.
Proof.
  apply (breaker_refines 5 (float_of_Z 60) breaker_demo); [lia|]. vm_compute. reflexivity.
Defined.

Example breaker_demo_run :
  (run_ops cb_step (cb_init 5 (float_of_Z 60)) breaker_demo).1
  = (replicate 5 None ++ [Some true; Some false; None; None; Some true; Some false;
                          None; Some false; None; Some false; None])%list
  ∧ cb_st (run_ops cb_step (cb_init 5 (float_of_Z 60)) breaker_demo).2 = closed.
Proof. split; vm_compute; reflexivity. Qed.

(** Requests that arrive together after the timeout are all let through, where
    one probe is documented. *)
Example breaker_admits_second_probe :
  let ops := (replicate 5 (CbFailure (float_of_Z 100)) ++
             [CbPoll (float_of_Z 200); CbPoll (float_of_Z 200); CbPoll (float_of_Z 200)])%list in
  drop 5 (run_ops cb_step (cb_init 5 (float_of_Z 60)) ops).1 = [Some false; Some false; Some false] ∧
  drop 5 (run_ops (breaker_step 5 (float_of_Z 60)) (Closed 0) ops).1
  = [Some false; Some true; Some true].
Proof. split; vm_compute; reflexivity. Qed.

(** * Provider manager

    [ProviderManager] of [src/app/providers/manager.py]: the loaded providers,
    their last health report, the set of disabled names and one circuit
    breaker per name that has failed.  [is_provider_available] is
    [AIRouter._is_provider_available] ([src/app/router.py]), the filter the
    router applies before it ranks the candidates.

    A provider is a network client: all the manager uses of it is the class
    attribute [name] and the outcome of [health_check], which is an argument
    of the operations ([HealthOutcome], with the times at which the manager
    reads the clock while it handles the outcome).  The classes found on disk
    by [discover_custom_providers] are an argument of [load_provider].  Log
    lines and gauges are left out. *)

Open Scope string_scope.
Open Scope Z_scope.

Inductive ProviderStatus := HEALTHY | UNHEALTHY | UNKNOWN | DEGRADED.

Instance ProviderStatus_eq_dec : EqDecision ProviderStatus.
Proof. solve_decision. Defined.

(** The fields of the report the manager and the router use. *)
Record HealthCheckResponse := mk_health {
  h_status : ProviderStatus;
  h_provider : string;
  h_latency_ms : option float;
  h_error : option string
}.

Record Provider := mk_provider { p_name : string }.

Record ProviderManager := mk_pm {
  pm_providers : dict string Provider;
  pm_health_status : dict string HealthCheckResponse;
  pm_disabled : gset string;
  pm_breakers : dict string CircuitBreaker
}.

Definition pm_init : ProviderManager := mk_pm [] [] ∅ [].

Definition with_health pm h := mk_pm (pm_providers pm) h (pm_disabled pm) (pm_breakers pm).
Definition with_disabled pm d := mk_pm (pm_providers pm) (pm_health_status pm) d (pm_breakers pm).
Definition with_breakers pm b := mk_pm (pm_providers pm) (pm_health_status pm) (pm_disabled pm) b.

(** ** Names *)

Definition PROVIDER_ALIASES : dict string string := [("gemini", "google")].

Definition resolve_name (name : string) : string :=
  default (lower name) (dict_get (lower name) PROVIDER_ALIASES).

Definition BUILTIN_PROVIDERS : list string :=
  ["openrouter"; "ollama"; "openai"; "anthropic"; "google"; "mistral"; "groq"].

(** The registry maps a name to the [name] attribute of its class; the
    attribute of a built-in class is the key it is registered under.
    [custom] are the discovered classes, which replace built-in ones. *)
Definition get_provider_registry (custom : dict string string) (key : string) : option string :=
  match dict_get key custom with
  | Some n => Some n
  | None => if bool_decide (key ∈ BUILTIN_PROVIDERS) then Some key else None
  end.

(** ** Lookups *)

Definition pm_get (pm : ProviderManager) (name : string) : option Provider :=
  dict_get (resolve_name name) (pm_providers pm).

Definition get_provider_names (pm : ProviderManager) : list string := dict_keys (pm_providers pm).

(** [get_health_status(name)], and what the callers make of its answer: for
    the empty name it is the whole dictionary, which they index again. *)
Definition get_health_status (pm : ProviderManager) (name : string) : option HealthCheckResponse :=
  if truthy name then dict_get (lower name) (pm_health_status pm)
  else dict_get name (pm_health_status pm).

(** [is_circuit_open] reads the property of the breaker, which may change. *)
Definition is_circuit_open (now : float) (pm : ProviderManager) (name : string)
    : bool * ProviderManager :=
  match dict_get name (pm_breakers pm) with
  | None => (false, pm)
  | Some cb =>
      let '(b, cb') := is_open now cb in
      (b, with_breakers pm (dict_set name cb' (pm_breakers pm)))
  end.

Definition get_circuit_state (pm : ProviderManager) (name : string) : cb_state :=
  match dict_get name (pm_breakers pm) with Some cb => cb_st cb | None => closed end.

Definition is_disabled (pm : ProviderManager) (name : string) : bool :=
  bool_decide (resolve_name name ∈ pm_disabled pm).

Definition get_failure_rate (pm : ProviderManager) (name : string) : float :=
  match dict_get (resolve_name name) (pm_breakers pm) with
  | None => fzero
  | Some cb => if 0 <? failure_count cb then fdiv (zf (failure_count cb)) (zf 5) else fzero
  end.

Definition get_provider_latency (pm : ProviderManager) (name : string) : option float :=
  match dict_get (resolve_name name) (pm_health_status pm) with
  | Some h => h_latency_ms h
  | None => None
  end.

Definition is_healthy (now : float) (pm : ProviderManager) (name : string)
    : bool * ProviderManager :=
  match dict_get (resolve_name name) (pm_health_status pm) with
  | Some h =>
      if bool_decide (h_status h = HEALTHY) then
        let '(b, pm') := is_circuit_open now pm (resolve_name name) in (negb b, pm')
      else (false, pm)
  | None => (false, pm)
  end.

Fixpoint get_healthy_from (now : float) (items : list (string * Provider)) (pm : ProviderManager)
    : list Provider * ProviderManager :=
  match items with
  | [] => ([], pm)
  | (name, p) :: rest =>
      match dict_get name (pm_health_status pm) with
      | Some h =>
          if bool_decide (h_status h = HEALTHY) then
            let '(b, pm1) := is_circuit_open now pm name in
            let '(l, pm2) := get_healthy_from now rest pm1 in
            (if b then l else p :: l, pm2)
          else get_healthy_from now rest pm
      | None => get_healthy_from now rest pm
      end
  end.

Definition get_healthy (now : float) (pm : ProviderManager) : list Provider * ProviderManager :=
  get_healthy_from now (pm_providers pm) pm.

(** [AIRouter._is_provider_available] *)
Definition is_provider_available (pm : ProviderManager) (provider : string) : bool :=
  if negb (bool_decide (provider ∈ get_provider_names pm)) then false
  else if is_disabled pm provider then false
  else match get_health_status pm provider with
       | Some h => negb (bool_decide (h_status h = UNHEALTHY))
       | None => true
       end.

(** ** Failure tracking and health checks *)

(** [_track_failure]: [fail_at] and [poll_at] are the times of the two clock
    reads, in [record_failure] and in [is_open]. *)
Definition track_failure (fail_at poll_at : float) (pm : ProviderManager) (name : string)
    : ProviderManager :=
  let cb := default (cb_init 5 (zf 60)) (dict_get name (pm_breakers pm)) in
  let cb1 := cb_record_failure fail_at cb in
  let '(b, cb2) := is_open poll_at cb1 in
  let pm1 := with_breakers pm (dict_set name cb2 (pm_breakers pm)) in
  if b then with_disabled pm1 ({[name]} ∪ pm_disabled pm1) else pm1.

(** What a health check of one provider gives, and the clock while the
    manager handles it. *)
Record HealthOutcome := mk_outcome {
  ho_result : result string HealthCheckResponse;
  ho_elapsed_ms : float;
  ho_fail_at : float;
  ho_poll_at : float
}.

Definition check_one (o : HealthOutcome) (p : Provider) : string * HealthCheckResponse :=
  (p_name p,
   match ho_result o with
   | Ok h => mk_health (h_status h) (h_provider h) (Some (ho_elapsed_ms o)) (h_error h)
   | Err e => mk_health UNHEALTHY (p_name p) (Some (ho_elapsed_ms o)) (Some e)
   end).

(** The providers whose circuit is not open. *)
Fixpoint select_targets (now : float) (ps : list Provider) (pm : ProviderManager)
    : list Provider * ProviderManager :=
  match ps with
  | [] => ([], pm)
  | p :: rest =>
      let '(b, pm1) := is_circuit_open now pm (p_name p) in
      let '(l, pm2) := select_targets now rest pm1 in
      (if b then l else p :: l, pm2)
  end.

Definition apply_health (probe : Provider → HealthOutcome) (pm : ProviderManager) (p : Provider)
    : ProviderManager :=
  let '(name, health) := check_one (probe p) p in
  let pm1 := with_health pm (dict_set name health (pm_health_status pm)) in
  if bool_decide (h_status health = HEALTHY) then
    let pm2 :=
      match dict_get name (pm_breakers pm1) with
      | Some cb => with_breakers pm1 (dict_set name (cb_record_success cb) (pm_breakers pm1))
      | None => pm1
      end in
    with_disabled pm2 (pm_disabled pm2 ∖ {[name]})
  else track_failure (ho_fail_at (probe p)) (ho_poll_at (probe p)) pm1 name.

Definition check_health (name : string) (now : float) (probe : Provider → HealthOutcome)
    (pm : ProviderManager) : ProviderManager :=
  let ps :=
    if truthy name then
      match dict_get (resolve_name name) (pm_providers pm) with Some p => [p] | None => [] end
    else dict_values (pm_providers pm) in
  let '(targets, pm1) := select_targets now ps pm in
  fold_left (apply_health probe) targets pm1.

(** [_recovery_check] visits the disabled names. *)
Definition recover_one (probe : string → result string HealthCheckResponse)
    (pm : ProviderManager) (name : string) : ProviderManager :=
  match dict_get name (pm_providers pm) with
  | None => with_disabled pm (pm_disabled pm ∖ {[name]})
  | Some _ =>
      match probe name with
      | Ok health =>
          if bool_decide (h_status health = HEALTHY) then
            let pm1 := with_disabled pm (pm_disabled pm ∖ {[name]}) in
            let pm2 := with_health pm1 (dict_set name health (pm_health_status pm1)) in
            match dict_get name (pm_breakers pm2) with
            | Some cb => with_breakers pm2 (dict_set name (cb_reset cb) (pm_breakers pm2))
            | None => pm2
            end
          else pm
      | Err _ => pm
      end
  end.

Definition recovery_check (probe : string → result string HealthCheckResponse)
    (pm : ProviderManager) : ProviderManager :=
  fold_left (recover_one probe) (elements (pm_disabled pm)) pm.

Definition enable_provider (pm : ProviderManager) (name : string) : ProviderManager :=
  let resolved := resolve_name name in
  let pm1 := with_disabled pm (pm_disabled pm ∖ {[resolved]}) in
  match dict_get resolved (pm_breakers pm1) with
  | Some cb => with_breakers pm1 (dict_set resolved (cb_reset cb) (pm_breakers pm1))
  | None => pm1
  end.

(** ** Loading *)

Record ProviderConfig := mk_pconfig {
  pc_name : string;
  pc_model : string;
  pc_enabled : bool
}.

(** What the construction of the client and its first health check give. *)
Record LoadOutcome := mk_load {
  lo_constructed : bool;
  lo_health : result string HealthCheckResponse
}.

Definition load_provider (custom : dict string string) (pm : ProviderManager)
    (pc : ProviderConfig) (o : LoadOutcome) : ProviderManager :=
  match get_provider_registry custom (lower (pc_name pc)) with
  | None => pm
  | Some attr =>
      if lo_constructed o then
        let health :=
          match lo_health o with
          | Ok h => h
          | Err e => mk_health UNKNOWN (pc_name pc) None (Some e)
          end in
        mk_pm (dict_set (pc_name pc) (mk_provider attr) (pm_providers pm))
          (dict_set (pc_name pc) health (pm_health_status pm)) (pm_disabled pm) (pm_breakers pm)
      else pm
  end.

Definition pm_reload (custom : dict string string) (configs : list (ProviderConfig * LoadOutcome))
    (pm : ProviderManager) : ProviderManager :=
  fold_left (λ pm' co, if pc_enabled co.1 then load_provider custom pm' co.1 co.2 else pm')
    configs (mk_pm [] [] (pm_disabled pm) (pm_breakers pm)).

Definition pm_close (pm : ProviderManager) : ProviderManager := pm_init.

(** * Provider manager: what the router may rely on

    The manager keeps the disabled set and the breakers apart, and several
    operations touch one or both.  [pm_inv] is the relation between them that
    every operation except [reload] keeps, and its consequence is the
    guarantee the router builds on: a provider whose circuit is open is not a
    candidate ([open_circuit_unavailable]).  [recovery_restores] is the other
    direction: a recovery round that finds the providers healthy enables them
    all. *)

Open Scope string_scope.
Open Scope Z_scope.

(** A provider is filed under the name its class carries, which is its own
    resolved form (lower case, not an alias). *)
Definition named (kp : string * Provider) : Prop :=
  p_name kp.2 = kp.1 ∧ resolve_name kp.1 = kp.1.

Record pm_inv (pm : ProviderManager) : Prop := {
  inv_wf : dict_wf (pm_providers pm);
  inv_named : Forall named (pm_providers pm);
  inv_timeout : ∀ n cb, dict_get n (pm_breakers pm) = Some cb → recovery_timeout cb = zf 60;
  inv_open : ∀ n, get_circuit_state pm n = opened → is_Some (dict_get n (pm_providers pm)) →
    n ∈ pm_disabled pm
}.

(** The two clock reads of [_track_failure] are less than the recovery
    timeout apart. *)
Definition prompt_probe (probe : Provider → HealthOutcome) : Prop :=
  ∀ p, flt (zf 60) (fsub (ho_poll_at (probe p)) (ho_fail_at (probe p))) = false.

(** ** The state of one breaker after an update *)

Lemma circuit_state_set pm n cb n' :
  get_circuit_state (with_breakers pm (dict_set n cb (pm_breakers pm))) n'
  = if decide (n = n') then cb_st cb else get_circuit_state pm n'.
Proof.
  unfold get_circuit_state; simpl. rewrite dict_get_set. by destruct (decide _).
Qed.

Lemma timeout_set pm n cb :
  recovery_timeout cb = zf 60 →
  (∀ n cb, dict_get n (pm_breakers pm) = Some cb → recovery_timeout cb = zf 60) →
  ∀ n' cb', dict_get n' (dict_set n cb (pm_breakers pm)) = Some cb' → recovery_timeout cb' = zf 60.
Proof.
  intros Hcb Ht n' cb'. rewrite dict_get_set. destruct (decide _); naive_solver.
Qed.

(** Replacing a breaker keeps the invariant unless it opens a loaded provider
    that is not disabled. *)
Lemma set_breaker_inv pm n cb :
  pm_inv pm → recovery_timeout cb = zf 60 →
  (cb_st cb = opened → is_Some (dict_get n (pm_providers pm)) → n ∈ pm_disabled pm) →
  pm_inv (with_breakers pm (dict_set n cb (pm_breakers pm))).
Proof.
  intros [Hwf Hn Ht Ho] Hcb Hopen. split; simpl; [done..| |].
  - by apply timeout_set.
  - intros n'. rewrite circuit_state_set. destruct (decide (n = n')) as [<-|]; auto.
Qed.

Lemma set_health_inv pm h : pm_inv pm → pm_inv (with_health pm h).
Proof. intros []. by split. Qed.

(** Enabling a name is safe when its circuit is not open. *)
Lemma enable_inv pm n :
  pm_inv pm → (get_circuit_state pm n = opened → ¬ is_Some (dict_get n (pm_providers pm))) →
  pm_inv (with_disabled pm (pm_disabled pm ∖ {[n]})).
Proof.
  intros [Hwf Hn Ht Ho] Hc. split; simpl; [done..|].
  intros n' Hn' Hp. destruct (decide (n' = n)) as [->|]; [by destruct (Hc Hn')|].
  apply elem_of_difference. split; [by apply Ho|set_solver].
Qed.

Lemma is_open_timeout now cb : recovery_timeout (is_open now cb).2 = recovery_timeout cb.
Proof. unfold is_open. repeat case_match; simpl; congruence. Qed.

Lemma is_open_state now cb : cb_st (is_open now cb).2 = opened ↔ (is_open now cb).1 = true.
Proof.
  unfold is_open. destruct (cb_st cb) eqn:E; simpl; rewrite ?E; [naive_solver| |naive_solver].
  destruct (flt _ _); simpl; rewrite ?E; naive_solver.
Qed.

Lemma is_open_opened now cb : cb_st (is_open now cb).2 = opened → cb_st cb = opened.
Proof. unfold is_open. repeat case_match; simpl; congruence. Qed.

Lemma cb_record_success_timeout cb : recovery_timeout (cb_record_success cb) = recovery_timeout cb.
Proof. unfold cb_record_success. repeat case_match; simpl; congruence. Qed.

Lemma cb_record_success_opened cb : cb_st (cb_record_success cb) = opened → cb_st cb = opened.
Proof. unfold cb_record_success. repeat case_match; simpl; congruence. Qed.

(** ** The operations *)

Lemma is_circuit_open_inv now pm n : pm_inv pm → pm_inv (is_circuit_open now pm n).2.
Proof.
  intros H. unfold is_circuit_open. destruct (dict_get n (pm_breakers pm)) as [cb|] eqn:E; [|done].
  pose proof (is_open_opened now cb) as Hst. pose proof (is_open_timeout now cb) as Hto.
  destruct (is_open now cb) as [b cb']; simpl in *.
  apply set_breaker_inv; [done| |].
  - rewrite Hto. by eapply inv_timeout.
  - intros Hop. eapply inv_open; [done|]. unfold get_circuit_state. rewrite E. auto.
Qed.

Lemma is_circuit_open_frame now pm n :
  pm_providers (is_circuit_open now pm n).2 = pm_providers pm ∧
  (∀ n', n ≠ n' → get_circuit_state (is_circuit_open now pm n).2 n' = get_circuit_state pm n') ∧
  ((is_circuit_open now pm n).1 = false → get_circuit_state (is_circuit_open now pm n).2 n ≠ opened) ∧
  (∀ n', get_circuit_state (is_circuit_open now pm n).2 n' = opened → get_circuit_state pm n' = opened).
Proof.
  unfold is_circuit_open. destruct (dict_get n (pm_breakers pm)) as [cb|] eqn:E.
  - pose proof (is_open_opened now cb) as Hst. pose proof (is_open_state now cb) as Hb.
    destruct (is_open now cb) as [b cb']; simpl in *.
    split; [done|]. split; [|split].
    + intros n' Hne. by rewrite circuit_state_set, decide_False.
    + intros ->. rewrite circuit_state_set, decide_True by done. naive_solver.
    + intros n'. rewrite circuit_state_set. destruct (decide (n = n')) as [<-|]; [|done].
      unfold get_circuit_state. rewrite E. auto.
  - simpl. repeat split; try done. unfold get_circuit_state. by rewrite E.
Qed.

(** The targets are providers of the list, in order, and no target's circuit
    is open afterwards. *)
Lemma select_targets_spec now ps pm :
  pm_inv pm → NoDup (p_name <$> ps) →
  let '(l, pm') := select_targets now ps pm in
  pm_inv pm' ∧ pm_providers pm' = pm_providers pm ∧ l `sublist_of` ps ∧
  Forall (λ p, get_circuit_state pm' (p_name p) ≠ opened) l ∧
  (∀ n', get_circuit_state pm' n' = opened → get_circuit_state pm n' = opened).
Proof.
  revert pm. induction ps as [|p ps IH]; intros pm Hinv Hnd; simpl.
  { repeat split; try done; apply Hinv. }
  apply NoDup_cons in Hnd as [Hp Hnd].
  pose proof (is_circuit_open_inv now pm (p_name p) Hinv) as Hinv1.
  pose proof (is_circuit_open_frame now pm (p_name p)) as (Hpr & Hoth & Hb & Hmono).
  destruct (is_circuit_open now pm (p_name p)) as [b pm1]; simpl in *.
  specialize (IH pm1 Hinv1 Hnd). destruct (select_targets now ps pm1) as [l pm2].
  destruct IH as (Hinv2 & Hpr2 & Hsub & Hl & Hmono2).
  split; [done|]. split; [congruence|]. split; [|split].
  - destruct b; [by constructor|by constructor].
  - destruct b; [done|]. constructor; [|done]. intros Hop. by apply Hb, Hmono2.
  - auto.
Qed.

Lemma track_failure_inv fail_at poll_at pm n :
  pm_inv pm → flt (zf 60) (fsub poll_at fail_at) = false →
  pm_inv (track_failure fail_at poll_at pm n).
Proof.
  intros Hinv Hclock. unfold track_failure.
  set (cb := default _ _). set (cb1 := cb_record_failure fail_at cb).
  assert (recovery_timeout cb1 = zf 60) as Hto.
  { unfold cb1, cb. destruct (dict_get n (pm_breakers pm)) eqn:E; [|done].
    simpl. by eapply inv_timeout. }
  clearbody cb1.
  pose proof (is_open_timeout poll_at cb1) as Hto2. pose proof (is_open_state poll_at cb1) as Hb.
  destruct (is_open poll_at cb1) as [b cb2]; simpl in Hto2, Hb.
  destruct b.
  - assert (pm_inv (with_disabled pm ({[n]} ∪ pm_disabled pm))) as Hd.
    { destruct Hinv as [Hwf Hn Ht Ho]. split; simpl; [done..|].
      intros n' ? ?. apply elem_of_union_r. by apply Ho. }
    pose proof (set_breaker_inv _ n cb2 Hd) as H. apply H; [congruence|].
    intros _ _. simpl. set_solver.
  - apply set_breaker_inv; [done|congruence|]. naive_solver.
Qed.

Lemma track_failure_frame fail_at poll_at pm n :
  pm_providers (track_failure fail_at poll_at pm n) = pm_providers pm ∧
  (∀ n', n ≠ n' → get_circuit_state (track_failure fail_at poll_at pm n) n' = get_circuit_state pm n').
Proof.
  unfold track_failure. destruct (is_open _ _) as [b cb2].
  destruct b; (split; [done|]); intros n' Hne; unfold get_circuit_state; simpl;
    by rewrite dict_get_set_ne.
Qed.

Lemma apply_health_spec probe pm p :
  pm_inv pm → prompt_probe probe → get_circuit_state pm (p_name p) ≠ opened →
  pm_inv (apply_health probe pm p) ∧
  (∀ n', p_name p ≠ n' → get_circuit_state (apply_health probe pm p) n' = get_circuit_state pm n').
Proof.
  intros Hinv Hprobe Hst. unfold apply_health, check_one. cbv beta iota zeta.
  set (h := match ho_result (probe p) with Ok _ => _ | Err _ => _ end).
  set (pm1 := with_health pm (dict_set (p_name p) h (pm_health_status pm))).
  assert (pm_inv pm1) as Hinv1 by by apply set_health_inv.
  assert (∀ n, get_circuit_state pm1 n = get_circuit_state pm n) as Heq by done.
  clearbody pm1. rewrite <- Heq in Hst.
  destruct (bool_decide _).
  - destruct (dict_get (p_name p) (pm_breakers pm1)) as [cb|] eqn:E.
    + assert (cb_st cb ≠ opened) as Hcb by (unfold get_circuit_state in Hst; by rewrite E in Hst).
      assert (cb_st (cb_record_success cb) ≠ opened) as Hcb'
        by by intros ?%cb_record_success_opened.
      split.
      * apply (enable_inv (with_breakers pm1 _)).
        -- apply set_breaker_inv; [done| |done].
           rewrite cb_record_success_timeout. by eapply inv_timeout.
        -- by rewrite circuit_state_set, decide_True.
      * intros n' Hne. rewrite <- Heq. unfold get_circuit_state; simpl.
        by rewrite dict_get_set_ne.
    + split; [by apply (enable_inv pm1)|]. intros n' _. apply Heq.
  - split; [by apply track_failure_inv|].
    intros n' Hne. rewrite (proj2 (track_failure_frame _ _ _ _)); auto.
Qed.

Lemma apply_all_inv probe ps pm :
  pm_inv pm → prompt_probe probe → NoDup (p_name <$> ps) →
  Forall (λ p, get_circuit_state pm (p_name p) ≠ opened) ps →
  pm_inv (fold_left (apply_health probe) ps pm).
Proof.
  revert pm. induction ps as [|p ps IH]; intros pm Hinv Hprobe Hnd Hst; simpl; [done|].
  apply NoDup_cons in Hnd as [Hp Hnd]. apply Forall_cons in Hst as [Hst0 Hst].
  destruct (apply_health_spec probe pm p Hinv Hprobe Hst0) as [Hinv' Hoth].
  apply IH; [done..|]. apply Forall_forall. intros q Hq.
  rewrite Hoth; [by eapply Forall_forall in Hst|].
  intros Heq. apply Hp. rewrite Heq. by apply list_elem_of_fmap_2.
Qed.

Lemma names_nodup (d : dict string Provider) :
  dict_wf d → Forall named d → NoDup (p_name <$> dict_values d).
Proof.
  unfold dict_wf, dict_values. intros Hwf Hn.
  replace (p_name <$> d.*2) with d.*1; [done|].
  induction Hn as [|[k p] d [Hk _] Hn IH]; [done|]. simpl in *.
  apply NoDup_cons in Hwf as [_ Hwf]. f_equal; [done|by apply IH].
Qed.

Lemma check_health_inv name now probe pm :
  pm_inv pm → prompt_probe probe → pm_inv (check_health name now probe pm).
Proof.
  intros Hinv Hprobe. unfold check_health. set (ps := if truthy name then _ else _).
  assert (NoDup (p_name <$> ps)) as Hnd.
  { unfold ps. destruct (truthy name); [|by apply names_nodup; apply Hinv].
    destruct (dict_get _ _); simpl; [apply NoDup_singleton|constructor]. }
  pose proof (select_targets_spec now ps pm Hinv Hnd) as H.
  destruct (select_targets now ps pm) as [l pm1]. destruct H as (Hinv1 & _ & Hsub & Hl & _).
  apply apply_all_inv; [done..| |done].
  eapply sublist_NoDup; [exact Hnd|by apply fmap_sublist].
Qed.

(** Resetting a breaker and enabling its name, as the recovery round and
    [enable_provider] do. *)
Lemma reset_enable_inv pm n :
  pm_inv pm →
  pm_inv (let pm1 := with_disabled pm (pm_disabled pm ∖ {[n]}) in
          match dict_get n (pm_breakers pm1) with
          | Some cb => with_breakers pm1 (dict_set n (cb_reset cb) (pm_breakers pm1))
          | None => pm1
          end).
Proof.
  intros Hinv. cbv beta iota zeta.
  change (pm_breakers (with_disabled pm _)) with (pm_breakers pm).
  destruct (dict_get n (pm_breakers pm)) as [cb|] eqn:E.
  - pose proof (set_breaker_inv pm n (cb_reset cb) Hinv) as H.
    eapply (enable_inv (with_breakers pm _)).
    + apply H; [|done]. change (recovery_timeout cb = zf 60). by eapply inv_timeout.
    + by rewrite circuit_state_set, decide_True.
  - apply enable_inv; [done|]. unfold get_circuit_state. by rewrite E.
Qed.

Lemma enable_provider_inv pm name : pm_inv pm → pm_inv (enable_provider pm name).
Proof. apply reset_enable_inv. Qed.

Lemma recover_one_inv probe pm name : pm_inv pm → pm_inv (recover_one probe pm name).
Proof.
  intros Hinv. unfold recover_one. destruct (dict_get name (pm_providers pm)) eqn:E.
  - destruct (probe name) as [h|]; [|done]. destruct (bool_decide _); [|done].
    pose proof (reset_enable_inv _ name
      (set_health_inv pm (dict_set name h (pm_health_status pm)) Hinv)) as H.
    cbv beta iota zeta in *. exact H.
  - apply enable_inv; [done|]. rewrite E. by intros _ [].
Qed.

Lemma recovery_check_inv probe pm : pm_inv pm → pm_inv (recovery_check probe pm).
Proof.
  unfold recovery_check. generalize (elements (pm_disabled pm)) as l. intros l. revert pm.
  induction l as [|n l IH]; intros pm Hinv; simpl; [done|]. by apply IH, recover_one_inv.
Qed.

(** ** Reachable managers *)

Inductive pm_op :=
  | OpCheckHealth (name : string) (now : float) (probe : Provider → HealthOutcome)
  | OpRecovery (probe : string → result string HealthCheckResponse)
  | OpEnable (name : string)
  | OpPollCircuit (now : float) (name : string).

Definition pm_step (pm : ProviderManager) (op : pm_op) : ProviderManager :=
  match op with
  | OpCheckHealth name now probe => check_health name now probe pm
  | OpRecovery probe => recovery_check probe pm
  | OpEnable name => enable_provider pm name
  | OpPollCircuit now name => (is_circuit_open now pm name).2
  end.

Definition prompt_op (op : pm_op) : Prop :=
  match op with OpCheckHealth _ _ probe => prompt_probe probe | _ => True end.

Lemma pm_run_inv ops pm :
  pm_inv pm → Forall prompt_op ops → pm_inv (fold_left pm_step ops pm).
Proof.
  revert pm. induction ops as [|op ops IH]; intros pm Hinv Hops; simpl; [done|].
  apply Forall_cons in Hops as [Hop Hops]. apply IH; [|done].
  destruct op; simpl in *.
  - by apply check_health_inv.
  - by apply recovery_check_inv.
  - by apply enable_provider_inv.
  - by apply is_circuit_open_inv.
Qed.

(** A manager just loaded from a configuration of distinct names, with no
    breaker and nothing disabled, satisfies the invariant when every loaded
    provider carries its configured name. *)
Lemma loaded_inv ps hs :
  dict_wf ps → Forall named ps → pm_inv (mk_pm ps hs ∅ []).
Proof. intros. by split. Qed.

Lemma pm_inv_open_unavailable pm name :
  pm_inv pm → get_circuit_state pm name = opened → is_provider_available pm name = false.
Proof.
  intros Hinv Hopen. unfold is_provider_available.
  case_bool_decide as Hin; simpl; [|done].
  assert (is_Some (dict_get name (pm_providers pm))) as [p Hp].
  { destruct (dict_get name (pm_providers pm)) eqn:E; [done|].
    by apply dict_get_None in E. }
  assert (named (name, p)) as [_ Hres].
  { eapply Forall_forall; [apply Hinv|]. by apply dict_get_elem_of. }
  unfold is_disabled. simpl in Hres. rewrite Hres, bool_decide_true; [done|].
  eapply inv_open; eauto.
Qed.

(** An open circuit keeps the provider away from the router: from a freshly
    loaded manager, after any sequence of health checks, recovery rounds,
    manual enablings and circuit reads, a provider whose breaker is open is
    not available, for any outcomes of the checks. *)
Theorem open_circuit_unavailable (ps : dict string Provider) (hs : dict string HealthCheckResponse)
    (ops : list pm_op) (name : string) :
  dict_wf ps → Forall named ps → Forall prompt_op ops →
  let pm := fold_left pm_step ops (mk_pm ps hs ∅ []) in
  get_circuit_state pm name = opened → is_provider_available pm name = false.
Proof.
  intros Hwf Hn Hops. apply pm_inv_open_unavailable, pm_run_inv; [by apply loaded_inv|done].
Qed.

Definition demo_providers : dict string Provider :=
  [("openai", mk_provider "openai"); ("groq", mk_provider "groq")].

Definition demo_probe (t : Z) (p : Provider) : HealthOutcome :=
  mk_outcome (if bool_decide (p_name p = "openai") then Err "timeout"
              else Ok (mk_health HEALTHY (p_name p) None None))
    (zf 12) (zf t) (zf t).

Definition demo_checks : list pm_op :=
  (λ t, OpCheckHealth "" (zf t) (demo_probe t)) <$> [100; 130; 160; 190; 220].

Lemma open_circuit_unavailable_witness :
  is_provider_available (fold_left pm_step demo_checks (mk_pm demo_providers [] ∅ [])) "openai"
  = false.
Proof.
  apply (open_circuit_unavailable demo_providers [] demo_checks "openai").
  - unfold dict_wf. simpl. apply (bool_decide_unpack _). vm_compute. exact I.
  - repeat constructor; vm_compute; reflexivity.
  - repeat constructor; intros p; vm_compute; reflexivity.
  - vm_compute. reflexivity.
Defined.

(** ** Recovery *)

Lemma recover_one_healthy probe pm n h :
  probe n = Ok h → h_status h = HEALTHY →
  pm_disabled (recover_one probe pm n) = pm_disabled pm ∖ {[n]} ∧
  pm_providers (recover_one probe pm n) = pm_providers pm ∧
  (∀ n', get_circuit_state (recover_one probe pm n) n' = get_circuit_state pm n' ∨ n' = n) ∧
  (is_Some (dict_get n (pm_providers pm)) → get_circuit_state (recover_one probe pm n) n = closed).
Proof.
  intros Hp Hh. unfold recover_one. destruct (dict_get n (pm_providers pm)) eqn:E.
  - rewrite Hp, bool_decide_true by done. unfold get_circuit_state; simpl.
    destruct (dict_get n (pm_breakers pm)) as [cb|] eqn:Eb; simpl.
    + split; [done|]. split; [done|]. split.
      * intros n'. rewrite dict_get_set. destruct (decide (n = n')); naive_solver.
      * by rewrite dict_get_set_eq.
    + rewrite Eb. naive_solver.
  - split; [done|]. split; [done|]. split; [by left|]. by intros [].
Qed.

Lemma recover_all_healthy probe l pm :
  (∀ n, n ∈ l → ∃ h, probe n = Ok h ∧ h_status h = HEALTHY) →
  let pm' := fold_left (recover_one probe) l pm in
  pm_disabled pm' = pm_disabled pm ∖ list_to_set l ∧
  pm_providers pm' = pm_providers pm ∧
  (∀ n, n ∈ l ∨ get_circuit_state pm n = closed → is_Some (dict_get n (pm_providers pm)) →
    get_circuit_state pm' n = closed).
Proof.
  revert pm. induction l as [|n l IH]; intros pm Hl; simpl.
  { split; [set_solver|]. split; [done|]. intros n [Hn|]; [by apply elem_of_nil in Hn|done]. }
  destruct (Hl n) as (h & Hp & Hh); [left|].
  pose proof (recover_one_healthy probe pm n h Hp Hh) as (Hd & Hpr & Hoth & Hc).
  destruct (IH (recover_one probe pm n)) as (Hd' & Hpr' & Hc').
  { intros m Hm. apply Hl. by right. }
  split; [rewrite Hd', Hd; set_solver|]. split; [congruence|].
  intros m Hm Hsome. apply Hc'; [|by rewrite Hpr].
  destruct (decide (m = n)) as [->|Hne]; [right; by apply Hc|].
  destruct Hm as [[->|Hm]%elem_of_cons|Hm]; [done|by left|].
  right. by destruct (Hoth m) as [->|].
Qed.

(** A recovery round in which every disabled provider answers healthy enables
    all of them: nothing stays disabled and the circuit of every loaded one
    that was disabled is closed, so requests and health checks reach it
    again. *)
Theorem recovery_restores (probe : string → result string HealthCheckResponse)
    (pm : ProviderManager) :
  (∀ n, n ∈ pm_disabled pm → ∃ h, probe n = Ok h ∧ h_status h = HEALTHY) →
  let pm' := recovery_check probe pm in
  pm_disabled pm' = ∅ ∧
  ∀ n, n ∈ pm_disabled pm → is_Some (dict_get n (pm_providers pm)) →
    get_circuit_state pm' n = closed.
Proof.
  intros Hp. unfold recovery_check.
  pose proof (recover_all_healthy probe (elements (pm_disabled pm)) pm) as H.
  destruct H as (Hd & _ & Hc); [set_solver|].
  split; [rewrite Hd; set_solver|]. intros n Hn. apply Hc. left. set_solver.
Qed.

Definition demo_tripped : ProviderManager :=
  fold_left pm_step demo_checks (mk_pm demo_providers [] ∅ []).

Lemma recovery_restores_witness :
  "openai" ∈ pm_disabled demo_tripped ∧
  get_circuit_state (recovery_check (λ n, Ok (mk_health HEALTHY n None None)) demo_tripped) "openai"
  = closed.
Proof.
  assert ("openai" ∈ pm_disabled demo_tripped) as Hin.
  { apply (bool_decide_unpack _). vm_compute. exact I. }
  split; [exact Hin|].
  apply (recovery_restores (λ n, Ok (mk_health HEALTHY n None None)) demo_tripped).
  - intros n _. eexists. split; reflexivity.
  - exact Hin.
  - vm_compute. eexists. reflexivity.
Defined.

(** [reload] rebuilds the providers but neither the disabled set nor the
    breakers, and a recovery round forgets a disabled name that is not loaded.
    So a provider that is removed from the configuration while its circuit is
    open, and put back after a recovery round, is available although its
    circuit is still open: the guarantee above does not extend to [reload]. *)
Theorem reload_reopens :
  ∃ (pm : ProviderManager) (probe : string → result string HealthCheckResponse)
    (cfg : ProviderConfig) (o : LoadOutcome),
    pm_inv pm ∧ is_provider_available pm "openai" = false ∧
    let pm' := pm_reload [] [(cfg, o)] (recovery_check probe (pm_reload [] [] pm)) in
    get_circuit_state pm' "openai" = opened ∧ is_provider_available pm' "openai" = true.
Proof.
  exists demo_tripped, (λ _, Err "down"), (mk_pconfig "openai" "gpt-4o" true),
    (mk_load true (Err "down")).
  split; [|split; [vm_compute; reflexivity|split; vm_compute; reflexivity]].
  apply pm_run_inv.
  - apply loaded_inv; [|repeat constructor; vm_compute; reflexivity].
    unfold dict_wf. simpl. apply (bool_decide_unpack _). vm_compute. exact I.
  - repeat constructor; intros p; vm_compute; reflexivity.
Qed.
