(* ===== verification/ModelCosts.v ===== *)
(** * Model capabilities, prices and token accounting

    - [CapabilityRegistry] of [src/app/capability_registry.py]: the entries of
      [models_registry.yaml] by [provider::model], with lookups that fall back
      to the first provider that has the model.  The parsed YAML list is the
      argument of [load_entries].
    - The price tables and [TokenAccounting] of [src/app/costs.py], and
      [get_model_cost], [get_model_context_window] of [src/app/routing.py].

    [filter_candidates_spec] characterises the capability filter,
    [accounting_conserved] is the conservation law of the accounting: the
    global counters are the sums of the providers' counters. *)

From Stdlib Require Import ZArith Lia Ascii.
From stdpp Require Import base numbers strings gmap list.
From S2P Require Import Prelude PyFloat PyNum PyStr PyDict PyMath.

Open Scope string_scope.
Open Scope Z_scope.

Definition slash_char : Ascii.ascii := "/"%char.

(** [model.split("/")[-1] if "/" in model else model] *)
Definition strip_prefix (model : string) : string :=
  if contains "/" model then List.last (split_on slash_char model) EmptyString else model.

Module Capability.

Record ModelCapability := mk_cap {
  mc_provider : string;
  mc_model : string;
  context_window : Z;
  supports_streaming : bool;
  supports_tools : bool;
  supports_vision : bool;
  supports_json_mode : bool;
  supports_embeddings : bool;
  supports_reasoning : bool;
  supports_thinking : bool;
  supports_image_generation : bool;
  supports_function_calling : bool
}.

(** [has]: [getattr(self, "supports_" + capability, False)] *)
Definition has (c : ModelCapability) (capability : string) : bool :=
  if bool_decide (capability = "streaming") then supports_streaming c
  else if bool_decide (capability = "tools") then supports_tools c
  else if bool_decide (capability = "vision") then supports_vision c
  else if bool_decide (capability = "json_mode") then supports_json_mode c
  else if bool_decide (capability = "embeddings") then supports_embeddings c
  else if bool_decide (capability = "reasoning") then supports_reasoning c
  else if bool_decide (capability = "thinking") then supports_thinking c
  else if bool_decide (capability = "image_generation") then supports_image_generation c
  else if bool_decide (capability = "function_calling") then supports_function_calling c
  else false.

(** One item of the YAML list; [None] is an absent (or null) key. *)
Record RegistryItem := mk_item {
  i_provider : option string;
  i_model : option string;
  i_context_window : option Z;
  i_flag : string → bool
}.

Definition key (provider model : string) : string := provider +:+ "::" +:+ model.

Definition load_item (entries : dict string ModelCapability) (item : RegistryItem)
    : dict string ModelCapability :=
  let prov := strip (default "" (i_provider item)) in
  let mdl := strip (default "" (i_model item)) in
  if negb (truthy prov) || negb (truthy mdl) then entries
  else
    dict_set (key prov mdl)
      (mk_cap prov mdl (default 4096 (i_context_window item))
         (i_flag item "supports_streaming") (i_flag item "supports_tools")
         (i_flag item "supports_vision") (i_flag item "supports_json_mode")
         (i_flag item "supports_embeddings") (i_flag item "supports_reasoning")
         (i_flag item "supports_thinking") (i_flag item "supports_image_generation")
         (i_flag item "supports_function_calling"))
      entries.

(** [_load] on the parsed list. *)
Definition load_entries (raw_list : list RegistryItem) : dict string ModelCapability :=
  fold_left load_item raw_list [].

Section Lookups.
Context (entries : dict string ModelCapability).

Definition cap_get (provider model : string) : option ModelCapability :=
  dict_get (key provider (strip_prefix model)) entries.

Definition get_by_model (model : string) : option ModelCapability :=
  let m := strip_prefix model in
  List.find (λ c, bool_decide (mc_model c = m)) (dict_values entries).

Definition lookup (provider model : string) : option ModelCapability :=
  match cap_get provider model with Some c => Some c | None => get_by_model model end.

(** A model nobody registered is assumed to have every capability. *)
Definition has_capability (provider model capability : string) : bool :=
  match lookup provider model with Some c => has c capability | None => true end.

Definition get_context_window (provider model : string) : option Z :=
  context_window <$> lookup provider model.

(** The inner loop stops at the first missing capability. *)
Fixpoint supports_all (provider model : string) (required : list string) : bool :=
  match required with
  | [] => true
  | cap :: rest =>
      if negb (has_capability provider model cap) then false
      else supports_all provider model rest
  end.

Fixpoint filter_loop (candidates : list (string * string)) (required : list string)
    (result : list (string * string)) : list (string * string) :=
  match candidates with
  | [] => result
  | (provider, model) :: rest =>
      filter_loop rest required
        (if supports_all provider model required then (result ++ [(provider, model)])%list else result)
  end.

Definition filter_candidates (candidates : list (string * string)) (required : list string)
    : list (string * string) :=
  match required with [] => candidates | _ => filter_loop candidates required [] end.

(** [sorted({cap.provider for ...})] *)
Definition get_providers : list string :=
  py_sorted str_lt (elements (list_to_set (mc_provider <$> dict_values entries) : gset string)).

Definition get_models_by_provider (provider : string) : list ModelCapability :=
  List.filter (λ c, bool_decide (mc_provider c = provider)) (dict_values entries).

(** [get_model_context_window(model, provider)] of [routing.py] *)
Definition get_model_context_window (model provider : string) : option Z :=
  let model_key := strip_prefix model in
  let by_model := context_window <$> get_by_model model_key in
  if truthy provider then
    match get_context_window provider model_key with Some ctx => Some ctx | None => by_model end
  else by_model.

Lemma supports_all_forall provider model required :
  supports_all provider model required = true
  ↔ ∀ cap, cap ∈ required → has_capability provider model cap = true.
Proof.
  induction required as [|cap rest IH]; simpl; [by split; [set_solver|]|].
  destruct (has_capability provider model cap) eqn:E; simpl.
  - rewrite IH. setoid_rewrite elem_of_cons. naive_solver.
  - split; [done|]. intros H. rewrite <- E. apply H. left.
Qed.

Lemma filter_loop_filter candidates required acc :
  filter_loop candidates required acc
  = (acc ++ List.filter (λ pm, supports_all pm.1 pm.2 required) candidates)%list.
Proof.
  revert acc. induction candidates as [|[p m] rest IH]; intros acc; simpl; [by rewrite app_nil_r|].
  rewrite IH. destruct (supports_all p m required); [|done]. by rewrite <- app_assoc.
Qed.
End Lookups.

(** The capability filter keeps the candidates, in their order and with their
    multiplicity, that have every required capability, and no others. *)
Theorem filter_candidates_spec (entries : dict string ModelCapability)
    (candidates : list (string * string)) (required : list string) :
  filter_candidates entries candidates required `sublist_of` candidates ∧
  (∀ p m, (p, m) ∈ filter_candidates entries candidates required ↔
    (p, m) ∈ candidates ∧ ∀ cap, cap ∈ required → has_capability entries p m cap = true) ∧
  (∀ candidates', filter_candidates entries (candidates ++ candidates') required
    = (filter_candidates entries candidates required
       ++ filter_candidates entries candidates' required)%list).
Proof.
  assert (∀ cs, filter_candidates entries cs required
    = List.filter (λ pm, supports_all entries pm.1 pm.2 required) cs) as Heq.
  { intros cs. unfold filter_candidates. destruct required as [|c r].
    - induction cs as [|x cs IH]; [done|]. cbn [List.filter supports_all]. by f_equal.
    - by rewrite filter_loop_filter. }
  split; [|split].
  - rewrite Heq. clear. induction candidates as [|x cs IH]; simpl; [constructor|].
    destruct (supports_all _ _ _ _); by constructor.
  - intros p m. rewrite Heq. rewrite list_elem_of_In, filter_In, <- list_elem_of_In; simpl.
    by rewrite supports_all_forall.
  - intros cs'. by rewrite !Heq, List.filter_app.
Qed.

End Capability.

(** ** Prices *)

Module Pricing.

(** prompt and completion price per 1000 tokens *)
Record Price := mk_price { prompt : float; completion : float }.

Definition PROVIDER_COST_PER_1K : dict string Price :=
  [("openai", mk_price (flit 1 100) (flit 3 100));
   ("anthropic", mk_price (flit 8 1000) (flit 24 1000));
   ("google", mk_price (flit 25 10000) (flit 1 100));
   ("mistral", mk_price (flit 2 1000) (flit 6 1000));
   ("groq", mk_price (flit 5 10000) (flit 1 1000));
   ("openrouter", mk_price (flit 1 1000) (flit 3 1000));
   ("ollama", mk_price fzero fzero)].

Definition MODEL_COST_OVERRIDES : dict string Price :=
  [("gpt-4o", mk_price (flit 1 100) (flit 3 100));
   ("gpt-4o-mini", mk_price (flit 25 10000) (flit 75 10000));
   ("claude-3-5-sonnet-20241022", mk_price (flit 3 1000) (flit 15 1000));
   ("claude-3-5-haiku-20241022", mk_price (flit 1 1000) (flit 5 1000));
   ("gemini-1.5-pro", mk_price (flit 125 100000) (flit 5 1000));
   ("gemini-1.5-flash", mk_price (flit 25 100000) (flit 1 1000))].

Definition openai_price : Price := mk_price (flit 1 100) (flit 3 100).

(** The pricing of [estimate_cost]: a model override, else the provider's
    price, else OpenAI's. *)
Definition pricing (provider model : string) : Price :=
  match dict_get (strip_prefix model) MODEL_COST_OVERRIDES with
  | Some p => p
  | None => default openai_price (dict_get provider PROVIDER_COST_PER_1K)
  end.

(** [get_model_cost] of [routing.py]; its default price is OpenAI's too. *)
Definition get_model_cost (provider model : string) : float :=
  let p := pricing provider model in fadd (prompt p) (completion p).

(** [max(0, x)] is the [int] 0 unless [x > 0]; both divide to the same. *)
Definition estimate_cost (provider model : string) (prompt_tokens completion_tokens cache_tokens : Z)
    : float :=
  let price := pricing provider model in
  let x := fsub (zf prompt_tokens) (fmul (zf cache_tokens) (flit 1 2)) in
  let effective_prompt := if flt fzero x then x else fzero in
  let prompt_cost := fmul (fdiv effective_prompt (zf 1000)) (prompt price) in
  let completion_cost := fmul (int_ratio completion_tokens 1000) (completion price) in
  py_round (fadd prompt_cost completion_cost) 8.

Record TokenUsage := mk_usage {
  u_prompt_tokens : Z;
  u_completion_tokens : Z;
  u_total_tokens : Z;
  u_cache_tokens : Z;
  u_reasoning_tokens : Z;
  u_estimated_cost : float;
  u_provider : string;
  u_model : string
}.

Record ProviderCostStats := mk_pcs {
  total_prompt_tokens : Z;
  total_completion_tokens : Z;
  total_cache_tokens : Z;
  total_reasoning_tokens : Z;
  total_tokens : Z;
  total_cost : float;
  request_count : Z
}.

Definition pcs_zero : ProviderCostStats := mk_pcs 0 0 0 0 0 fzero 0.

Record TokenAccounting := mk_ta {
  ta_provider_stats : dict string ProviderCostStats;
  ta_prompt : Z;
  ta_completion : Z;
  ta_cache : Z;
  ta_reasoning : Z;
  ta_total : Z;
  ta_cost : float
}.

Definition ta_init : TokenAccounting := mk_ta [] 0 0 0 0 0 fzero.

Definition record (provider model : string)
    (prompt_tokens completion_tokens cache_tokens reasoning_tokens : Z) (ta : TokenAccounting)
    : TokenUsage * TokenAccounting :=
  let total := prompt_tokens + completion_tokens + cache_tokens + reasoning_tokens in
  let cost := estimate_cost provider model prompt_tokens completion_tokens cache_tokens in
  let ps := default pcs_zero (dict_get provider (ta_provider_stats ta)) in
  let ps' := mk_pcs (total_prompt_tokens ps + prompt_tokens)
               (total_completion_tokens ps + completion_tokens)
               (total_cache_tokens ps + cache_tokens)
               (total_reasoning_tokens ps + reasoning_tokens)
               (total_tokens ps + total) (fadd (total_cost ps) cost) (request_count ps + 1) in
  (mk_usage prompt_tokens completion_tokens total cache_tokens reasoning_tokens cost provider model,
   mk_ta (dict_set provider ps' (ta_provider_stats ta))
     (ta_prompt ta + prompt_tokens) (ta_completion ta + completion_tokens)
     (ta_cache ta + cache_tokens) (ta_reasoning ta + reasoning_tokens)
     (ta_total ta + total) (fadd (ta_cost ta) cost)).

Definition reset (ta : TokenAccounting) : TokenAccounting := ta_init.

(** [get_provider_cost]: nothing for a provider never charged. *)
Definition get_provider_cost (ta : TokenAccounting) (provider : string) : option ProviderCostStats :=
  (λ ps, mk_pcs (total_prompt_tokens ps) (total_completion_tokens ps) (total_cache_tokens ps)
           (total_reasoning_tokens ps) (total_tokens ps) (py_round (total_cost ps) 6)
           (request_count ps))
  <$> dict_get provider (ta_provider_stats ta).

(** ** Conservation *)

Definition sum_of (f : ProviderCostStats → Z) (ta : TokenAccounting) : Z :=
  foldr Z.add 0 (f <$> dict_values (ta_provider_stats ta)).

Definition conserved (ta : TokenAccounting) : Prop :=
  dict_wf (ta_provider_stats ta) ∧
  ta_prompt ta = sum_of total_prompt_tokens ta ∧
  ta_completion ta = sum_of total_completion_tokens ta ∧
  ta_cache ta = sum_of total_cache_tokens ta ∧
  ta_reasoning ta = sum_of total_reasoning_tokens ta ∧
  ta_total ta = sum_of total_tokens ta ∧
  ta_total ta = ta_prompt ta + ta_completion ta + ta_cache ta + ta_reasoning ta.

Lemma sum_set (f : ProviderCostStats → Z) k v (d : dict string ProviderCostStats) :
  f pcs_zero = 0 →
  foldr Z.add 0 (f <$> dict_values (dict_set k v d))
  = foldr Z.add 0 (f <$> dict_values d) + (f v - f (default pcs_zero (dict_get k d))).
Proof.
  intros H0. unfold dict_values.
  induction d as [|[k' v'] d IH]; csimpl; [rewrite H0; lia|].
  destruct (decide (k = k')) as [->|]; csimpl in *; lia.
Qed.

Lemma record_conserved provider model a b c d ta :
  conserved ta → conserved (record provider model a b c d ta).2.
Proof.
  intros (Hwf & Hs). unfold conserved, record, sum_of in *; simpl.
  split; [by apply dict_set_wf|]. rewrite !sum_set by done.
  cbn [total_prompt_tokens total_completion_tokens total_cache_tokens total_reasoning_tokens
    total_tokens]. lia.
Qed.

Inductive ta_op :=
  | TaRecord (provider model : string) (prompt completion cache reasoning : Z)
  | TaReset.

Definition ta_step (ta : TokenAccounting) (op : ta_op) : TokenAccounting :=
  match op with
  | TaRecord p m a b c d => (record p m a b c d ta).2
  | TaReset => reset ta
  end.

(** After any sequence of charges and resets, every global token counter is
    the sum of the providers' counters, and the total is the sum of its four
    parts, globally: no token is counted twice or lost. *)
Theorem accounting_conserved (ops : list ta_op) : conserved (fold_left ta_step ops ta_init).
Proof.
  assert (∀ ta, conserved ta → conserved (fold_left ta_step ops ta)) as H.
  { induction ops as [|op ops IH]; intros ta Hta; simpl; [done|]. apply IH.
    destruct op; [by apply record_conserved|].
    split; [apply NoDup_nil_2|done]. }
  apply H. split; [apply NoDup_nil_2|done].
Qed.

Example cost_gpt4o :
  estimate_cost "openai" "openai/gpt-4o" 1000 500 200 = flit 24 1000.
Proof. vm_compute. reflexivity. Qed.

End Pricing.
