(* ===== verification/Reputation.v ===== *)
(** * Provider metrics and reputation

    - [ProviderMetrics] of [src/app/router.py]: the counters, the EWMA latency
      and the two bounded histories the router keeps for a provider, their
      updates, the derived rates and the conversion to and from the persisted
      record ([ProviderStats] of [src/app/storage/__init__.py]).
    - [compute_trend], [compute_reputation] and [circuit_breaker_multiplier]
      of [src/app/reputation.py].

    The clock is an argument.  [apply_aging], which uses the C library's
    [pow] and has no caller, is left out. *)

From Stdlib Require Import ZArith Lia.
From stdpp Require Import base numbers strings gmap list.
From S2P Require Import Prelude PyFloat PyNum PyStr PyDict PyMath.


Open Scope string_scope.
Open Scope Z_scope.

Definition HISTORY_SIZE : nat := 100.
Definition ROLLING_WINDOW : nat := 100.
Definition EWMA_ALPHA : float := flit 3 10.

(** [append] on a [deque(maxlen=n)] drops from the left. *)
Definition deque_append {A} (n : nat) (l : list A) (x : A) : list A :=
  let l' := (l ++ [x])%list in drop (length l' - n) l'.

Record ProviderMetrics := mk_metrics {
  m_name : string;
  total_requests : Z;
  successful_requests : Z;
  failed_requests : Z;
  total_latency : float;
  last_latency : float;
  consecutive_failures : Z;
  consecutive_success : Z;
  ewma_latency : float;
  m_total_cost : float;
  m_total_prompt_tokens : Z;
  m_total_completion_tokens : Z;
  m_last_failure_time : float;
  m_last_success_time : float;
  start_time : float;
  latency_history : list float;
  request_history : list bool
}.

(** [ProviderMetrics(name=name)], created at [now] *)
Definition metrics_init (name : string) (now : float) : ProviderMetrics :=
  mk_metrics name 0 0 0 fzero fzero 0 0 fzero fzero 0 0 fzero fzero now [] [].

(** ** Derived rates *)

Definition success_rate (m : ProviderMetrics) : float :=
  if total_requests m =? 0 then zf 1 else int_ratio (successful_requests m) (total_requests m).

Definition failure_rate (m : ProviderMetrics) : float :=
  if total_requests m =? 0 then fzero else int_ratio (failed_requests m) (total_requests m).

Definition avg_latency (m : ProviderMetrics) : float :=
  if successful_requests m =? 0 then finf else fdiv (total_latency m) (zf (successful_requests m)).

Definition avg_cost (m : ProviderMetrics) : float :=
  if total_requests m =? 0 then fzero else fdiv (m_total_cost m) (zf (total_requests m)).

Definition count_true (l : list bool) : Z := zlen (List.filter id l).

Definition rolling_success_rate (m : ProviderMetrics) : float :=
  match request_history m with
  | [] => zf 1
  | l => int_ratio (count_true l) (zlen l)
  end.

Definition rolling_failure_rate (m : ProviderMetrics) : float :=
  fsub (zf 1) (rolling_success_rate m).

Definition uptime_seconds (now : float) (m : ProviderMetrics) : float := fsub now (start_time m).

Definition rolling_throughput (now : float) (m : ProviderMetrics) : float :=
  match request_history m with
  | [] => fzero
  | l =>
      let elapsed := fsub now (start_time m) in
      if fle elapsed fzero then fzero else fdiv (zf (zlen l)) elapsed
  end.

(** [p95_latency] and [p99_latency], with [share] 0.95 and 0.99 *)
Definition p_latency (share : float) (m : ProviderMetrics) : float :=
  if zlen (latency_history m) <? 2 then
    if flt fzero (ewma_latency m) then ewma_latency m else fzero
  else
    let sorted_lats := py_sorted flt (latency_history m) in
    let n := zlen sorted_lats in
    let idx := Z.max 0 (Z.min (n - 1) (default 0 (ftrunc (fmul (zf n) share)))) in
    default fzero (sorted_lats !! Z.to_nat idx).

(** ** Updates *)

Definition record_success (now latency_ms cost_usd : float) (prompt_tokens completion_tokens : Z)
    (m : ProviderMetrics) : ProviderMetrics :=
  mk_metrics (m_name m)
    (total_requests m + 1) (successful_requests m + 1) (failed_requests m)
    (fadd (total_latency m) latency_ms) latency_ms
    0 (consecutive_success m + 1)
    (if feq (ewma_latency m) fzero then latency_ms
     else fadd (fmul EWMA_ALPHA latency_ms)
            (fmul (fsub (zf 1) EWMA_ALPHA) (ewma_latency m)))
    (fadd (m_total_cost m) cost_usd)
    (m_total_prompt_tokens m + prompt_tokens) (m_total_completion_tokens m + completion_tokens)
    (m_last_failure_time m) now (start_time m)
    (deque_append HISTORY_SIZE (latency_history m) latency_ms)
    (deque_append ROLLING_WINDOW (request_history m) true).

Definition record_failure (now latency_ms : float) (m : ProviderMetrics) : ProviderMetrics :=
  mk_metrics (m_name m)
    (total_requests m + 1) (successful_requests m) (failed_requests m + 1)
    (total_latency m) latency_ms
    (consecutive_failures m + 1) 0
    (ewma_latency m) (m_total_cost m) (m_total_prompt_tokens m) (m_total_completion_tokens m)
    now (m_last_success_time m) (start_time m)
    (deque_append HISTORY_SIZE (latency_history m) latency_ms)
    (deque_append ROLLING_WINDOW (request_history m) false).

(** ** Persistence *)

Record ProviderStats := mk_stats {
  s_name : string;
  s_total_requests : Z;
  s_successful_requests : Z;
  s_failed_requests : Z;
  s_total_latency : float;
  s_ewma_latency : float;
  s_total_cost : float;
  s_total_prompt_tokens : Z;
  s_total_completion_tokens : Z;
  s_uptime_seconds : float;
  s_first_seen : float;
  s_last_seen : float;
  s_consecutive_failures : Z;
  s_consecutive_success : Z
}.

Definition to_storage (now : float) (m : ProviderMetrics) : ProviderStats :=
  mk_stats (m_name m) (total_requests m) (successful_requests m) (failed_requests m)
    (total_latency m) (ewma_latency m) (m_total_cost m)
    (m_total_prompt_tokens m) (m_total_completion_tokens m)
    (uptime_seconds now m) (start_time m) now
    (consecutive_failures m) (consecutive_success m).

(** The attribute [last_seen] that [from_storage] also sets is read nowhere. *)
Definition from_storage (now : float) (s : ProviderStats) : ProviderMetrics :=
  mk_metrics (s_name s) (s_total_requests s) (s_successful_requests s) (s_failed_requests s)
    (s_total_latency s) fzero (s_consecutive_failures s) (s_consecutive_success s)
    (s_ewma_latency s) (s_total_cost s) (s_total_prompt_tokens s) (s_total_completion_tokens s)
    fzero fzero
    (if flt fzero (s_first_seen s) then s_first_seen s else now)
    [] [].

(** ** Reputation *)

Inductive Trend := IMPROVING | STABLE | DEGRADING.

Record TrendData := mk_trend {
  trend : Trend;
  short_window_error_rate : float;
  long_window_error_rate : float;
  score_delta : float
}.

Definition SHORT_WINDOW : Z := 20.

Definition count_false (l : list bool) : Z := zlen (List.filter negb l).

Definition error_rate (items : list bool) : float :=
  match items with [] => fzero | _ => int_ratio (count_false items) (zlen items) end.

Definition compute_trend (history : list bool) : TrendData :=
  match history with
  | [] => mk_trend STABLE fzero fzero fzero
  | _ =>
      let total := zlen history in
      let short_items :=
        if SHORT_WINDOW <=? total then drop (Z.to_nat (total - SHORT_WINDOW)) history else history in
      let short := error_rate short_items in
      let long := error_rate history in
      if (zlen short_items <? 5) || (zlen history <? 10) then mk_trend STABLE short long fzero
      else if flt short (fmul long (flit 8 10)) then
        mk_trend IMPROVING short long (fmin (zf 15) (fmul (fsub long short) (zf 50)))
      else if flt (fmul long (flit 12 10)) short then
        mk_trend DEGRADING short long (fopp (fmin (zf 30) (fmul (fsub short long) (zf 50))))
      else mk_trend STABLE short long fzero
  end.

(** The score shared by [compute_reputation] and the routing engine:
    [100 - ewma / 5], at least 0, and 100 when there is no latency yet. *)
Definition latency_score_of (ewma : float) : float :=
  if fle ewma fzero then zf 100 else fmax fzero (fsub (zf 100) (fdiv ewma (zf 5))).

Definition compute_reputation (rate ewma avgcost uptime : float) (consec_success consec_failure : Z)
    : float :=
  let sr_score := fmul rate (zf 100) in
  let lat_score := latency_score_of ewma in
  let uptime_hours := fdiv uptime (zf 3600) in
  let uptime_score := fmin (zf 100) (fmul uptime_hours (flit 6 10)) in
  let cost_score :=
    if fle avgcost fzero then zf 100 else fmax fzero (fsub (zf 100) (fmul avgcost (zf 2000))) in
  let consistency := consec_success - consec_failure * 2 in
  let consistency_score :=
    fmax fzero (fmin (zf 100) (fadd (zf 50) (fmul (zf consistency) (zf 5)))) in
  let total :=
    fadd (fadd (fadd (fadd (fmul sr_score (flit 35 100)) (fmul lat_score (flit 25 100)))
      (fmul uptime_score (flit 15 100))) (fmul cost_score (flit 10 100)))
      (fmul consistency_score (flit 10 100)) in
  py_round total 2.

(** [None] and unknown states count as closed. *)
Definition circuit_breaker_multiplier (state : option string) : float :=
  match state with
  | None => zf 1
  | Some s =>
      if negb (truthy s) then zf 1
      else if bool_decide (lower s = "closed") then zf 1
      else if bool_decide (lower s = "half-open") then flit 4 10
      else if bool_decide (lower s = "open") then fzero
      else zf 1
  end.

(** ** Invariants of the metrics *)

Lemma length_deque_append {A} n (l : list A) x :
  (length l <= n)%nat → length (deque_append n l x) = Nat.min n (S (length l)).
Proof. intros. unfold deque_append. rewrite length_drop, length_app; simpl. lia. Qed.

(** The well-formed metrics: the counters are natural and add up, a run of
    successes and a run of failures exclude each other, and the histories are
    bounded and as long as the number of requests seen up to the bound. *)
Record metrics_ok (m : ProviderMetrics) : Prop := {
  ok_succ : 0 <= successful_requests m;
  ok_fail : 0 <= failed_requests m;
  ok_total : total_requests m = successful_requests m + failed_requests m;
  ok_run : (consecutive_failures m = 0 ∧ 0 <= consecutive_success m <= successful_requests m)
           ∨ (consecutive_success m = 0 ∧ 0 <= consecutive_failures m <= failed_requests m);
  ok_latencies : (length (latency_history m) <= HISTORY_SIZE)%nat;
  ok_requests : (length (request_history m) <= ROLLING_WINDOW)%nat;
  ok_same : length (latency_history m) = length (request_history m);
  ok_window : (Z.of_nat (length (request_history m)) <= total_requests m)%Z
}.

Lemma metrics_init_ok name now : metrics_ok (metrics_init name now).
Proof. split; simpl; unfold HISTORY_SIZE, ROLLING_WINDOW; lia. Qed.

Lemma record_success_ok now lat cost pt ct m :
  metrics_ok m → metrics_ok (record_success now lat cost pt ct m).
Proof.
  intros []. split; cbn -[deque_append HISTORY_SIZE ROLLING_WINDOW];
    rewrite ?length_deque_append by done; unfold HISTORY_SIZE, ROLLING_WINDOW in *; lia.
Qed.

Lemma record_failure_ok now lat m : metrics_ok m → metrics_ok (record_failure now lat m).
Proof.
  intros []. split; cbn -[deque_append HISTORY_SIZE ROLLING_WINDOW];
    rewrite ?length_deque_append by done; unfold HISTORY_SIZE, ROLLING_WINDOW in *; lia.
Qed.

Lemma restored_ok now now' m : metrics_ok m → metrics_ok (from_storage now' (to_storage now m)).
Proof. intros []. split; simpl; unfold HISTORY_SIZE, ROLLING_WINDOW; lia. Qed.

Inductive metrics_op :=
  | MSuccess (now latency cost : float) (prompt_tokens completion_tokens : Z)
  | MFailure (now latency : float)
  | MRestart (saved loaded : float).

Definition metrics_step (m : ProviderMetrics) (op : metrics_op) : ProviderMetrics :=
  match op with
  | MSuccess now lat cost pt ct => record_success now lat cost pt ct m
  | MFailure now lat => record_failure now lat m
  | MRestart saved loaded => from_storage loaded (to_storage saved m)
  end.

(** (C12) The metrics of a provider are well formed after any sequence of recorded
    successes, failures and restarts (save and load). *)
Theorem metrics_well_formed (name : string) (now : float) (ops : list metrics_op) :
  metrics_ok (fold_left metrics_step ops (metrics_init name now)).
Proof.
  generalize (metrics_init_ok name now). generalize (metrics_init name now).
  induction ops as [|op ops IH]; intros m Hm; simpl; [done|]. apply IH.
  destruct op; [by apply record_success_ok|by apply record_failure_ok|by apply restored_ok].
Qed.

(** A percentile is one of the recorded latencies as soon as two are
    recorded. *)
Lemma p_latency_recorded share m :
  (2 <= length (latency_history m))%nat → p_latency share m ∈ latency_history m.
Proof.
  intros Hl. unfold p_latency. destruct (Z.ltb_spec (zlen (latency_history m)) 2) as [Hlt|_].
  { unfold zlen in Hlt. lia. }
  set (s := py_sorted flt (latency_history m)). set (idx := Z.max 0 _).
  assert (length s = length (latency_history m)) as Hs by apply length_py_sorted.
  assert ((Z.to_nat idx < length s)%nat) as Hi by (unfold idx, zlen; lia).
  destruct (lookup_lt_is_Some_2 s _ Hi) as [x Hx]. rewrite Hx. simpl.
  apply (elem_of_py_sorted flt). by eapply list_elem_of_lookup_2.
Qed.

(** * Live benchmark

    [src/app/benchmark/live.py]: a bounded record of requests per provider,
    the statistics of the five time windows and the score the routing engine
    reads.  Every clock read is an argument: [get_snapshot] reads the clock
    once for the window bounds and once per window for the elapsed time. *)

Open Scope string_scope.
Open Scope Z_scope.

Definition MAX_RECORDS_PER_PROVIDER : nat := Z.to_nat 200000.

Definition WINDOWS_SECONDS : list (string * Z) :=
  [("1min", 60); ("5min", 300); ("15min", 900); ("1hour", 3600); ("24hour", 86400)].

Record RequestRecord := mk_record {
  r_timestamp : float;
  r_latency_ms : float;
  r_first_token_latency_ms : float;
  r_tokens : Z;
  r_success : bool;
  r_timeout : bool;
  r_model : string
}.

Record WindowSnapshot := mk_window {
  w_requests : Z;
  w_successes : Z;
  w_failures : Z;
  w_timeouts : Z;
  w_avg_latency_ms : float;
  w_p50_latency_ms : float;
  w_p95_latency_ms : float;
  w_p99_latency_ms : float;
  w_min_latency_ms : float;
  w_max_latency_ms : float;
  w_avg_first_token_latency_ms : float;
  w_tokens_per_sec : float;
  w_throughput_req_per_sec : float;
  w_failure_rate : float;
  w_timeout_rate : float;
  w_total_tokens : Z
}.

Definition window_empty : WindowSnapshot :=
  mk_window 0 0 0 0 fzero fzero fzero fzero fzero fzero fzero fzero fzero fzero fzero 0.

Definition percentile (sorted_vals : list float) (pct : Z) : float :=
  match sorted_vals with
  | [] => fzero
  | _ =>
      let n := zlen sorted_vals in
      let idx := Z.max 0 (Z.min (n - 1) (default 0 (ftrunc (int_ratio (n * pct) 100)))) in
      default fzero (sorted_vals !! Z.to_nat idx)
  end.

Definition within_window (window_start : float) (r : RequestRecord) : bool :=
  fle window_start (r_timestamp r).

Definition count_records (P : RequestRecord → bool) (l : list RequestRecord) : Z := zlen (List.filter P l).

Definition failed_not_timeout (r : RequestRecord) : bool := negb (r_success r) && negb (r_timeout r).

Definition compute_window (now : float) (records : list RequestRecord) (window_start : float)
    : WindowSnapshot :=
  match List.filter (within_window window_start) records with
  | [] => window_empty
  | (first :: others) as windowed =>
      let n := zlen windowed in
      let successes := count_records r_success windowed in
      let failures := count_records failed_not_timeout windowed in
      let timeouts := count_records r_timeout windowed in
      let total_tokens := foldr Z.add 0 (r_tokens <$> windowed) in
      let latencies := r_latency_ms <$> windowed in
      let ftl := List.filter (λ x, flt fzero x) (r_first_token_latency_ms <$> windowed) in
      let avg_lat := fdiv (py_sum latencies) (zf n) in
      let min_lat := py_min (r_latency_ms first) (r_latency_ms <$> others) in
      let max_lat := py_max (r_latency_ms first) (r_latency_ms <$> others) in
      let avg_ftl := match ftl with [] => fzero | _ => fdiv (py_sum ftl) (zf (zlen ftl)) end in
      let sorted_lat := py_sorted flt latencies in
      let elapsed := fsub now window_start in
      let duration := fmax elapsed (fdiv max_lat (zf 1000)) in
      mk_window n successes failures timeouts
        (py_round avg_lat 2)
        (py_round (percentile sorted_lat 50) 2)
        (py_round (percentile sorted_lat 95) 2)
        (py_round (percentile sorted_lat 99) 2)
        (py_round min_lat 2)
        (py_round max_lat 2)
        (py_round avg_ftl 2)
        (if flt fzero duration then py_round (fdiv (zf total_tokens) duration) 2 else fzero)
        (if flt fzero duration then py_round (fdiv (zf n) duration) 2 else fzero)
        (py_round (int_ratio failures n) 4)
        (py_round (int_ratio timeouts n) 4)
        total_tokens
  end.

(** [ProviderBenchmark.record] *)
Definition pb_record (r : RequestRecord) (records : list RequestRecord) : list RequestRecord :=
  deque_append MAX_RECORDS_PER_PROVIDER records r.

(** [get_snapshot]: [now] fixes the bounds, [later] is read per window. *)
Definition get_snapshot (now later : float) (records : list RequestRecord)
    : list (string * WindowSnapshot) :=
  (λ wn, (wn.1, compute_window later records (fsub now (zf wn.2)))) <$> WINDOWS_SECONDS.

(** The score of one window: 40% latency, 35% reliability, 25% throughput. *)
Definition window_score (s : WindowSnapshot) : float :=
  let latency_score := fmax fzero (fsub (zf 100) (fdiv (w_avg_latency_ms s) (zf 10))) in
  let reliability_score :=
    fmul (fsub (fsub (zf 1) (w_failure_rate s)) (w_timeout_rate s)) (zf 100) in
  let throughput_score := fmin (zf 100) (fmul (w_tokens_per_sec s) (zf 5)) in
  py_round (fadd (fadd (fmul latency_score (flit 40 100)) (fmul reliability_score (flit 35 100)))
              (fmul throughput_score (flit 25 100))) 2.

Definition get_aggregated_score (now later : float) (records : list RequestRecord) : float :=
  let snapshots := get_snapshot now later records in
  let s5 := default window_empty (dict_get "5min" snapshots) in
  let s1 := default window_empty (dict_get "1min" snapshots) in
  if w_requests s5 <? 5 then
    if 3 <=? w_requests s1 then window_score s1 else zf 50
  else window_score s5.

(** [LiveBenchmark]: the benchmarks by provider, created on first use. *)
Definition lb_get_or_create (name : string) (lb : dict string (list RequestRecord))
    : list RequestRecord * dict string (list RequestRecord) :=
  match dict_get name lb with
  | Some records => (records, lb)
  | None => ([], dict_set name [] lb)
  end.

Definition lb_record (provider : string) (r : RequestRecord) (lb : dict string (list RequestRecord))
    : dict string (list RequestRecord) :=
  let '(records, lb') := lb_get_or_create provider lb in
  dict_set provider (pb_record r records) lb'.

(** [get_ranking]: the providers by score, best first; [sort(reverse=True)]
    keeps the order of equal scores. *)
Definition get_ranking (now later : float) (lb : dict string (list RequestRecord))
    : list (string * float * Z) :=
  py_sorted (λ x y, flt y.1.2 x.1.2)
    ((λ nr, (nr.1, get_aggregated_score now later nr.2, zlen nr.2)) <$> lb).

Definition get_fastest (now later : float) (lb : dict string (list RequestRecord)) : option string :=
  match get_ranking now later lb with (name, _, _) :: _ => Some name | [] => None end.

Definition live_reset (lb : dict string (list RequestRecord)) : dict string (list RequestRecord) :=
  (λ nr, (nr.1, [])) <$> lb.

(** ** What the statistics count *)

(** A record is a success, a plain failure or a timeout, never two of them. *)
Definition classified (r : RequestRecord) : bool := negb (r_success r && r_timeout r).

Lemma count_partition l :
  Forall (λ r, classified r = true) l →
  zlen l = count_records r_success l + count_records failed_not_timeout l + count_records r_timeout l.
Proof.
  unfold count_records, zlen. induction 1 as [|r l Hr Hl IH]; simpl; [done|].
  unfold classified, failed_not_timeout in *.
  destruct (r_success r), (r_timeout r); simpl in *; try done; lia.
Qed.

Lemma compute_window_counts now records start :
  let w := compute_window now records start in
  let l := List.filter (within_window start) records in
  w_requests w = zlen l ∧ w_successes w = count_records r_success l ∧
  w_failures w = count_records failed_not_timeout l ∧ w_timeouts w = count_records r_timeout l ∧
  w_total_tokens w = foldr Z.add 0 (r_tokens <$> l).
Proof.
  cbv zeta. unfold compute_window.
  destruct (List.filter (within_window start) records); split_and!; reflexivity.
Qed.

Lemma Forall_list_filter {A} (P : A → Prop) f (l : list A) :
  Forall P l → Forall P (List.filter f l).
Proof. induction 1; simpl; [constructor|]. case_match; auto. Qed.

(** The window statistics partition the requests: over the records of the
    window, requests = successes + failures + timeouts, provided no record is
    both a success and a timeout. *)
Theorem window_partition (now : float) (records : list RequestRecord) (start : float) :
  Forall (λ r, classified r = true) records →
  let w := compute_window now records start in
  w_requests w = w_successes w + w_failures w + w_timeouts w ∧
  w_requests w = zlen (List.filter (within_window start) records).
Proof.
  intros Hc. cbv zeta.
  destruct (compute_window_counts now records start) as (-> & -> & -> & -> & _).
  split; [|done]. by apply count_partition, Forall_list_filter.
Qed.

Definition demo_records : list RequestRecord :=
  [mk_record (zf 100) (zf 40) fzero 10 true false "m"; mk_record (zf 950) (zf 20) fzero 30 true false "m";
   mk_record (zf 960) (zf 90) fzero 0 false true "m"; mk_record (zf 970) (zf 30) fzero 0 false false "m"].

Lemma window_partition_witness :
  w_requests (compute_window (zf 1000) demo_records (zf 940)) = 3 ∧
  w_requests (compute_window (zf 1000) demo_records (zf 940))
  = w_successes (compute_window (zf 1000) demo_records (zf 940))
    + w_failures (compute_window (zf 1000) demo_records (zf 940))
    + w_timeouts (compute_window (zf 1000) demo_records (zf 940)).
Proof.
  split; [vm_compute; reflexivity|].
  apply (window_partition (zf 1000) demo_records (zf 940)). repeat constructor.
Defined.
