(* ===== verification/RoutingEngine.v ===== *)
(** * Routing engine

    [src/app/routing.py]: the reputation snapshot of a provider, the
    multi-dimensional score and the ranking of the candidates.  The
    components it reads are modelled in their own files: the metrics and the
    reputation ([Reputation]), the live benchmark ([LiveBenchmark]), the
    capability registry and the prices ([ModelCosts]) and the provider manager
    ([ProviderManager]).  A set of required capabilities is the list of its
    elements: the score depends on how many are missing, not on their order. *)

From Stdlib Require Import ZArith Lia SpecFloat Sorted.
From stdpp Require Import base numbers strings gmap list.
From S2P Require Import Prelude PyFloat PyNum PyStr PyDict PyMath.
From S2P Require Import ProviderManager ModelCosts Reputation.

Open Scope string_scope.
Open Scope Z_scope.

Inductive OptimizationMode := QUALITY | BALANCED | CHEAPEST | FASTEST.

Record ModeWeights := mk_weights {
  mw_latency : float;
  mw_reliability : float;
  mw_cost : float;
  mw_config : float;
  mw_preference : float;
  mw_context : float;
  mw_recency : float
}.

Definition MODE_WEIGHTS (mode : OptimizationMode) : ModeWeights :=
  match mode with
  | QUALITY => mk_weights (flit 20 100) (flit 35 100) (flit 5 100) (flit 10 100) (flit 10 100)
                 (flit 15 100) (flit 5 100)
  | BALANCED => mk_weights (flit 25 100) (flit 25 100) (flit 15 100) (flit 10 100) (flit 10 100)
                 (flit 10 100) (flit 5 100)
  | CHEAPEST => mk_weights (flit 10 100) (flit 15 100) (flit 40 100) (flit 10 100) (flit 10 100)
                 (flit 10 100) (flit 5 100)
  | FASTEST => mk_weights (flit 40 100) (flit 20 100) (flit 5 100) (flit 10 100) (flit 10 100)
                 (flit 10 100) (flit 5 100)
  end.

(** [OptimizationMode(s)]: [None] is [ValueError]. *)
Definition parse_mode (s : string) : option OptimizationMode :=
  if bool_decide (s = "quality") then Some QUALITY
  else if bool_decide (s = "balanced") then Some BALANCED
  else if bool_decide (s = "cheapest") then Some CHEAPEST
  else if bool_decide (s = "fastest") then Some FASTEST
  else None.

Definition PERFECT_COST : float := flit 4 100.

Record RoutingContext := mk_ctx {
  c_task : string;
  c_prompt_token_estimate : Z;
  c_optimization_mode : OptimizationMode;
  c_user_preference : option string;
  c_retry_attempt : Z;
  c_required_capabilities : list string
}.

Record ProviderReputation := mk_rep {
  rep_success_rate : float;
  rep_avg_latency : float;
  rep_ewma_latency : float;
  rep_avg_cost : float;
  rep_consecutive_success : Z;
  rep_consecutive_failure : Z;
  rep_rolling_success_rate : float;
  rep_rolling_failure_rate : float;
  rep_recent_error_rate : float;
  rep_total_requests : Z;
  rep_uptime_seconds : float;
  rep_last_failure_ago : float;
  rep_last_success_ago : float;
  rep_reputation_score : float;
  rep_trend_delta : float;
  rep_multiplier : float;
  rep_benchmark_score : float
}.

(** [ProviderReputation()] *)
Definition rep_default : ProviderReputation :=
  mk_rep fzero fzero fzero fzero 0 0 (zf 1) fzero fzero 0 fzero fzero fzero (zf 50) fzero (zf 1)
    (zf 50).

(** [now] is the argument, [later] the clock the properties and the benchmark
    read.  The benchmark is consulted (and created) only for named metrics. *)
Definition build_reputation (now later : float) (lb : dict string (list RequestRecord))
    (m : ProviderMetrics) (circuit_breaker_state : option string)
    : ProviderReputation * dict string (list RequestRecord) :=
  let delta := score_delta (compute_trend (request_history m)) in
  let rep_score :=
    compute_reputation (success_rate m) (ewma_latency m) (avg_cost m) (uptime_seconds later m)
      (consecutive_success m) (consecutive_failures m) in
  let mult := circuit_breaker_multiplier circuit_breaker_state in
  let '(bench, lb') :=
    if truthy (m_name m) then
      let '(records, lb') := lb_get_or_create (m_name m) lb in
      (get_aggregated_score later later records, lb')
    else (zf 50, lb) in
  (mk_rep (success_rate m)
     (if feq (avg_latency m) finf then fzero else avg_latency m)
     (ewma_latency m) (avg_cost m) (consecutive_success m) (consecutive_failures m)
     (rolling_success_rate m) (rolling_failure_rate m)
     (fsub (zf 1) (rolling_success_rate m))
     (total_requests m) (uptime_seconds later m)
     (if flt fzero (m_last_failure_time m) then fsub now (m_last_failure_time m) else finf)
     (if flt fzero (m_last_success_time m) then fsub now (m_last_success_time m) else finf)
     rep_score delta mult bench, lb').

(** ** The score *)

Definition UNHEALTHY_SCORE : float := zf (-99999).

(** The loop adds [-50000] for every missing capability. *)
Definition capability_penalty (entries : dict string Capability.ModelCapability)
    (provider model : string) (required : list string) : float :=
  fold_left
    (λ acc cap, if negb (Capability.has_capability entries provider model cap)
                then fsub acc (zf 50000) else acc)
    required fzero.

Definition context_score (entries : dict string Capability.ModelCapability) (model : string)
    (estimate : Z) : float :=
  match Capability.get_model_context_window entries model "" with
  | Some w =>
      if w =? 0 then zf 50
      else if w <? estimate then zf (-5000)
      else fmax fzero (fsub (zf 100) (fmul (int_ratio estimate w) (zf 100)))
  | None => zf 50
  end.

(** The sum of the thirteen terms, before the circuit breaker. *)
Definition raw_score (entries : dict string Capability.ModelCapability) (mode : OptimizationMode)
    (provider model : string) (rep : ProviderReputation) (base_score : Z) (ctx : RoutingContext)
    : float :=
  let w := MODE_WEIGHTS mode in
  let latency_score := latency_score_of (rep_ewma_latency rep) in
  let reliability_score := fmul (rep_rolling_success_rate rep) (zf 100) in
  let cost := Pricing.get_model_cost provider model in
  let cost_score := fmax fzero (fsub (zf 100) (fmul (fdiv cost PERFECT_COST) (zf 100))) in
  let config_score := zf base_score in
  let pref_score :=
    match c_user_preference ctx with
    | Some u => if truthy u && bool_decide (lower u = lower provider) then zf 100 else fzero
    | None => fzero
    end in
  let ctx_score := context_score entries model (c_prompt_token_estimate ctx) in
  let consec_bonus := fmin (fmul (zf (rep_consecutive_success rep)) (zf 5)) (zf 25) in
  let consec_penalty := fmin (fmul (zf (rep_consecutive_failure rep)) (zf 10)) (zf 100) in
  let recency_score := fsub consec_bonus consec_penalty in
  let failure_penalty := fmul (rep_rolling_failure_rate rep) (zf (-100)) in
  let retry_penalty := fmul (zf (c_retry_attempt ctx)) (zf (-50)) in
  let penalty := capability_penalty entries provider model (c_required_capabilities ctx) in
  fold_left fadd
    [fmul reliability_score (mw_reliability w); fmul cost_score (mw_cost w);
     fmul config_score (mw_config w); fmul pref_score (mw_preference w);
     fmul ctx_score (mw_context w); fmul recency_score (mw_recency w);
     fmul (rep_reputation_score rep) (flit 10 100); rep_trend_delta rep;
     fmul (rep_benchmark_score rep) (flit 5 100); failure_penalty; retry_penalty; penalty]
    (fmul latency_score (mw_latency w)).

Definition score_provider (entries : dict string Capability.ModelCapability)
    (mode : OptimizationMode) (provider model : string) (rep : ProviderReputation)
    (health : option HealthCheckResponse) (base_score : Z) (ctx : RoutingContext) : float :=
  let score := fmul (raw_score entries mode provider model rep base_score ctx) (rep_multiplier rep) in
  match health with
  | Some h => if bool_decide (h_status h = HEALTHY) then score else UNHEALTHY_SCORE
  | None => score
  end.

(** ** The ranking *)

Definition scored := (float * string * string)%type.

(** The comparison of [scored.sort(key=lambda x: x[0], reverse=True)]. *)
Definition higher (x y : scored) : bool := flt y.1.1 x.1.1.

Section Rank.
Context (entries : dict string Capability.ModelCapability) (mode : OptimizationMode).
Context (now later : float) (metrics : dict string ProviderMetrics) (pm : ProviderManager).
Context (ctx : RoutingContext).

(** The score of one candidate; a provider without metrics has the default
    reputation. *)
Definition score_candidate (lb : dict string (list RequestRecord)) (c : string * string)
    : scored * dict string (list RequestRecord) :=
  let '(provider, model) := c in
  let cb_state := cb_state_str (get_circuit_state pm provider) in
  let '(rep, lb') :=
    match dict_get provider metrics with
    | Some m => build_reputation now later lb m (Some cb_state)
    | None => (rep_default, lb)
    end in
  ((score_provider entries mode provider model rep (get_health_status pm provider) 0 ctx,
    provider, model), lb').

Fixpoint score_candidates (candidates : list (string * string))
    (lb : dict string (list RequestRecord)) : list scored * dict string (list RequestRecord) :=
  match candidates with
  | [] => ([], lb)
  | c :: rest =>
      let '(s, lb1) := score_candidate lb c in
      let '(l, lb2) := score_candidates rest lb1 in
      (s :: l, lb2)
  end.

(** [rank_providers(..., return_scores=True)] *)
Definition rank_providers (candidates : list (string * string))
    (lb : dict string (list RequestRecord)) : list scored * dict string (list RequestRecord) :=
  let '(l, lb') := score_candidates candidates lb in
  (py_sorted higher l, lb').

Lemma score_candidates_fst candidates lb :
  (λ s : scored, (s.1.2, s.2)) <$> (score_candidates candidates lb).1 = candidates.
Proof.
  revert lb. induction candidates as [|[p m] rest IH]; intros lb; simpl; [done|].
  destruct (match dict_get p metrics with Some _ => _ | None => _ end) as [rep lb1].
  specialize (IH lb1). destruct (score_candidates rest lb1) as [l lb2].
  csimpl in *. by rewrite IH.
Qed.
End Rank.

Lemma higher_sorted l :
  Forall (λ s : scored, is_nan s.1.1 = false) l →
  StronglySorted (λ x y, fle y.1.1 x.1.1 = true) (py_sorted higher l).
Proof.
  intros Hn. induction Hn as [|x l Hx Hl IH]; simpl; [constructor|].
  assert (Forall (λ s : scored, is_nan s.1.1 = false) (py_sorted higher l)) as Hs
    by by rewrite py_sorted_perm.
  clear Hl. induction IH as [|y k Hk IHk Hy]; simpl; [by repeat constructor|].
  apply Forall_cons in Hs as [Hyn Hkn]. unfold higher at 1.
  destruct (flt x.1.1 y.1.1) eqn:E.
  - constructor; [by apply IHk|]. rewrite sort_insert_perm.
    constructor; [by apply flt_fle|done].
  - apply flt_false_fle in E; [|done..].
    constructor; [by constructor|]. constructor; [done|].
    eapply Forall_impl; [exact Hy|]. simpl. intros z Hz. by eapply fle_trans.
Qed.

(** The ranking loses and invents nothing: it is a permutation of the
    candidates, and when no score is NaN it is sorted from the highest score
    to the lowest. *)
Theorem rank_correct (entries : dict string Capability.ModelCapability) (mode : OptimizationMode)
    (now later : float) (metrics : dict string ProviderMetrics) (pm : ProviderManager)
    (ctx : RoutingContext) (candidates : list (string * string))
    (lb : dict string (list RequestRecord)) :
  let ranked := (rank_providers entries mode now later metrics pm ctx candidates lb).1 in
  ((λ s : scored, (s.1.2, s.2)) <$> ranked) ≡ₚ candidates ∧
  (Forall (λ s : scored, is_nan s.1.1 = false) ranked →
   StronglySorted (λ x y, fle y.1.1 x.1.1 = true) ranked).
Proof.
  cbv zeta. unfold rank_providers.
  pose proof (score_candidates_fst entries mode now later metrics pm ctx candidates lb) as H.
  destruct (score_candidates _ _ _ _ _ _ _ _ _) as [l lb']; simpl in *.
  split.
  - rewrite <- H. apply fmap_Permutation, py_sorted_perm.
  - intros Hn. apply higher_sorted. by rewrite py_sorted_perm in Hn.
Qed.

(** ** What an open circuit does to the score *)

Lemma fmul_zero x : is_finite x = true → is_fzero (fmul x fzero) = true.
Proof. by destruct x. Qed.

(** The documentation says that an open circuit disables a provider ("open:
    0% (disabled)").  The multiplier turns its score into zero, which is a
    better score than any negative one: with the same history of failures and
    the same missing capability, a provider whose circuit is open is ranked
    above the one whose circuit is closed. *)
Theorem open_circuit_outranks :
  ∃ (entries : dict string Capability.ModelCapability) (metrics : dict string ProviderMetrics)
    (pm : ProviderManager) (ctx : RoutingContext),
    get_circuit_state pm "openai" = opened ∧ get_circuit_state pm "groq" = closed ∧
    (λ s : scored, s.1.2) <$>
      (rank_providers entries BALANCED (zf 1000) (zf 1000) metrics pm ctx
         [("groq", "m"); ("openai", "m")] []).1
    = ["openai"; "groq"].
Proof.
  set (m := record_failure (zf 990) (zf 50) (metrics_init "" (zf 900))).
  exists (Capability.load_entries
      [Capability.mk_item (Some "openai") (Some "m") None (λ _, false)]),
    [("openai", m); ("groq", m)],
    (mk_pm [] [] ∅ [("openai", cb_record_failure (zf 990) (cb_init 1 (zf 60)))]),
    (mk_ctx "chat" 10 BALANCED None 0 ["vision"]).
  split_and!; vm_compute; reflexivity.
Qed.
