(* ===== verification/Traffic.v ===== *)
(** * Adaptive traffic distribution

    [src/app/traffic_distribution.py]: the weights computed from the scores of
    the ranking (normalisation, starvation floor, canary cap), their rebuild
    at most once per rebalance interval, and the selection of a provider with
    A/B tests and shadow traffic.

    The weights are objects shared between the list a computation works on and
    the dictionary [_weights]; the model updates the dictionary entry of the
    selected weight, which is filed under its own key.  The clock and the
    random draws are arguments: [r_ab] and [r_pick] are the values of
    [random.random()] in the A/B test and in the weighted pick, [r_choice] the
    index of [random.choice].  A call runs alone: the lock makes its two
    critical sections atomic. *)

From Stdlib Require Import ZArith Lia.
From stdpp Require Import base numbers strings gmap list.
From S2P Require Import Prelude PyFloat PyNum PyStr PyDict PyMath.
From S2P Require Import RoutingEngine.

Open Scope string_scope.
Open Scope Z_scope.

Definition MIN_WEIGHT : float := flit 1 100.

Record CanaryConfig := mk_canary {
  cn_provider : string;
  cn_model : string;
  cn_max_traffic_share : float
}.

Record ABTestConfig := mk_ab {
  ab_name : string;
  ab_control_provider : string;
  ab_control_model : string;
  ab_variant_provider : string;
  ab_variant_model : string;
  ab_traffic_split : float
}.

Record ShadowConfig := mk_shadow { sh_provider : string; sh_model : string }.

Record TrafficConfig := mk_tconfig {
  t_enabled : bool;
  t_rebalance_interval_seconds : Z;
  t_canary : option CanaryConfig;
  t_ab_tests : list ABTestConfig;
  t_shadow : option ShadowConfig
}.

Record ProviderWeight := mk_pw {
  pw_provider : string;
  pw_model : string;
  pw_score : float;
  pw_weight : float;
  pw_is_canary : bool;
  pw_is_shadow : bool;
  pw_assigned_requests : Z
}.

Instance ProviderWeight_eq_dec : EqDecision ProviderWeight.
Proof. solve_decision. Defined.

Definition set_weight (w : float) (pw : ProviderWeight) : ProviderWeight :=
  mk_pw (pw_provider pw) (pw_model pw) (pw_score pw) w (pw_is_canary pw) (pw_is_shadow pw)
    (pw_assigned_requests pw).

Record SelectionResult := mk_sel {
  sel_provider : string;
  sel_model : string;
  sel_score : float;
  sel_weight : float;
  sel_ab_test_name : string;
  sel_is_variant : bool;
  sel_shadow_provider : string;
  sel_shadow_model : string
}.

Record TrafficDistribution := mk_td {
  td_config : TrafficConfig;
  td_weights : dict string ProviderWeight;
  td_last_rebalance : float;
  td_selection_history : dict string Z;
  td_total_selections : Z
}.

Definition td_init (c : TrafficConfig) : TrafficDistribution := mk_td c [] fzero [] 0.

(** ** Weights *)

Definition is_canary (c : TrafficConfig) (provider model : string) : bool :=
  match t_canary c with
  | Some k => bool_decide (cn_provider k = provider) && bool_decide (cn_model k = model)
  | None => false
  end.

Definition is_shadow (c : TrafficConfig) (provider model : string) : bool :=
  match t_shadow c with
  | Some k => bool_decide (sh_provider k = provider) && bool_decide (sh_model k = model)
  | None => false
  end.

Definition weights_sum (l : list ProviderWeight) : float := py_sum (pw_weight <$> l).

Definition scale_down (total : float) (l : list ProviderWeight) : list ProviderWeight :=
  (λ w, set_weight (fdiv (pw_weight w) total) w) <$> l.

(** The loop that lifts the starved providers to the floor and adds up what
    they lacked. *)
Fixpoint lift_starved (deficit : float) (l : list ProviderWeight) : float * list ProviderWeight :=
  match l with
  | [] => (deficit, [])
  | w :: rest =>
      if negb (pw_is_shadow w) && flt (pw_weight w) MIN_WEIGHT then
        let '(d, l') := lift_starved (fadd deficit (fsub MIN_WEIGHT (pw_weight w))) rest in
        (d, set_weight MIN_WEIGHT w :: l')
      else let '(d, l') := lift_starved deficit rest in (d, w :: l')
  end.

Definition above_floor (w : ProviderWeight) : bool :=
  negb (pw_is_shadow w) && flt MIN_WEIGHT (pw_weight w).

(** The providers above the floor pay for the deficit in proportion. *)
Definition reduce_excess (deficit : float) (l : list ProviderWeight) : list ProviderWeight :=
  let above := List.filter above_floor l in
  let above_excess := py_sum ((λ w, fsub (pw_weight w) MIN_WEIGHT) <$> above) in
  let ratio := if flt fzero above_excess then fmin (zf 1) (fdiv deficit above_excess) else fzero in
  (λ w, if above_floor w
        then set_weight (fsub (pw_weight w) (fmul (fsub (pw_weight w) MIN_WEIGHT) ratio)) w
        else w) <$> l.

Definition apply_starvation_floor (l : list ProviderWeight) : list ProviderWeight :=
  let total := weights_sum l in
  if fle total fzero then
    if existsb (λ w, negb (pw_is_shadow w)) l
    then set_weight (fdiv (zf 1) (zf (zlen l))) <$> l
    else l
  else
    let '(deficit, l1) := lift_starved fzero (scale_down total l) in
    let l2 := if flt fzero deficit then reduce_excess deficit l1 else l1 in
    let total2 := weights_sum l2 in
    if flt fzero total2 then scale_down total2 l2 else l2.

(** The loop body of [_apply_canary_cap] for the weight at index [i]. *)
Definition cap_at (cap : float) (l : list ProviderWeight) (i : nat) : list ProviderWeight :=
  match l !! i with
  | None => l
  | Some pw =>
      if pw_is_canary pw && flt cap (pw_weight pw) then
        let excess := fsub (pw_weight pw) cap in
        let l1 := <[i := set_weight cap pw]> l in
        let eligible w := negb (pw_is_canary w) && negb (pw_is_shadow w) in
        let n := zlen (List.filter eligible l1) in
        if n =? 0 then l1
        else
          let share := fdiv excess (zf n) in
          (λ w, if eligible w then set_weight (fadd (pw_weight w) share) w else w) <$> l1
      else l
  end.

Definition apply_canary_cap (c : TrafficConfig) (l : list ProviderWeight) : list ProviderWeight :=
  match t_canary c with
  | None => l
  | Some k => fold_left (cap_at (cn_max_traffic_share k)) (seq 0 (length l)) l
  end.

Definition normalise (scores : list float) : list float :=
  match scores with
  | [] => []
  | s0 :: rest =>
      let min_s := py_min s0 rest in
      let max_s := py_max s0 rest in
      let score_range := fsub max_s min_s in
      if feq score_range fzero then (λ _, zf 1) <$> scores
      else (λ s, fdiv (fsub s min_s) score_range) <$> scores
  end.

Definition compute_weights (c : TrafficConfig) (l : list scored) : list ProviderWeight :=
  match l with
  | [] => []
  | _ =>
      let raw := (λ s : scored, mk_pw s.1.2 s.2 s.1.1 fzero (is_canary c s.1.2 s.2)
                                  (is_shadow c s.1.2 s.2) 0) <$> l in
      let raw := zip_with set_weight (normalise (pw_score <$> raw)) raw in
      let raw := apply_starvation_floor raw in
      let raw := apply_canary_cap c raw in
      let total := weights_sum raw in
      if flt fzero total then scale_down total raw else raw
  end.

(** ** Rebalancing *)

Definition pw_key (pw : ProviderWeight) : string := pw_provider pw +:+ "::" +:+ pw_model pw.

Definition needs_rebalance (now : float) (td : TrafficDistribution) : bool :=
  flt (zf (t_rebalance_interval_seconds (td_config td))) (fsub now (td_last_rebalance td)).

Definition rebuild_weights (now : float) (l : list scored) (td : TrafficDistribution)
    : TrafficDistribution :=
  mk_td (td_config td)
    (fold_left (λ d pw, dict_set (pw_key pw) pw d) (compute_weights (td_config td) l) [])
    now (td_selection_history td) (td_total_selections td).

Definition force_rebalance (now : float) (l : list scored) (td : TrafficDistribution)
    : TrafficDistribution :=
  match l with [] => td | _ => rebuild_weights now l td end.

(** One turn of [_rebalance_loop], after its sleep, with the list the callback
    returns. *)
Definition rebalance_turn (now : float) (l : list scored) (td : TrafficDistribution)
    : TrafficDistribution :=
  if needs_rebalance now td then force_rebalance now l td else td.

(** ** Selection *)

Fixpoint pick_from (r cumulative : float) (l : list ProviderWeight) : option ProviderWeight :=
  match l with
  | [] => None
  | pw :: rest =>
      let cumulative' := fadd cumulative (pw_weight pw) in
      if fle r cumulative' then Some pw else pick_from r cumulative' rest
  end.

Definition weighted_pick (r_pick : float) (r_choice : nat) (weights : list ProviderWeight)
    : option ProviderWeight :=
  match weights with
  | [] => None
  | w0 :: _ =>
      let total := weights_sum weights in
      if fle total fzero then weights !! (r_choice mod length weights)%nat
      else
        match pick_from (fmul r_pick total) fzero weights with
        | Some pw => Some pw
        | None => Some (List.last weights w0)
        end
  end.

(** Only the first A/B test is ever consulted: both branches return. *)
Definition check_ab_test (r_ab : float) (c : TrafficConfig)
    : option (string * bool * string * string) :=
  match t_ab_tests c with
  | [] => None
  | ab :: _ =>
      Some (if flt r_ab (ab_traffic_split ab)
            then (ab_name ab, true, ab_variant_provider ab, ab_variant_model ab)
            else (ab_name ab, false, ab_control_provider ab, ab_control_model ab))
  end.

(** The weights a call works with, after the first critical section. *)
Definition refresh (now : float) (ranked : list scored) (td : TrafficDistribution)
    : TrafficDistribution :=
  let td1 := if needs_rebalance now td then rebuild_weights now ranked td else td in
  match td_weights td1 with [] => rebuild_weights now ranked td1 | _ => td1 end.

Definition fresh_weight (s : scored) : ProviderWeight :=
  mk_pw s.1.2 s.2 s.1.1 (zf 1) false false 0.

(** The weight a call settles on. *)
Definition choose (r_pick : float) (r_choice : nat) (c : TrafficConfig)
    (weights : list ProviderWeight) (best : scored) : ProviderWeight :=
  match weights with
  | _ :: _ =>
      if t_enabled c then default (fresh_weight best) (weighted_pick r_pick r_choice weights)
      else default (fresh_weight best)
             (List.find (λ w, bool_decide (pw_key w = best.1.2 +:+ "::" +:+ best.2)) weights)
  | [] => fresh_weight best
  end.

(** The second critical section: the counters, and the selected weight's own
    counter, which is visible only if the weight is a stored one. *)
Definition count_selection (selected : ProviderWeight) (td : TrafficDistribution)
    : TrafficDistribution :=
  let bump w := mk_pw (pw_provider w) (pw_model w) (pw_score w) (pw_weight w) (pw_is_canary w)
                  (pw_is_shadow w) (pw_assigned_requests w + 1) in
  mk_td (td_config td)
    (if bool_decide (dict_get (pw_key selected) (td_weights td) = Some selected)
     then dict_set (pw_key selected) (bump selected) (td_weights td) else td_weights td)
    (td_last_rebalance td)
    (dict_set (pw_provider selected)
       (default 0 (dict_get (pw_provider selected) (td_selection_history td)) + 1)
       (td_selection_history td))
    (td_total_selections td + 1).

(** [select] on scored candidates. *)
Definition select (now r_ab r_pick : float) (r_choice : nat) (ranked : list scored)
    (td : TrafficDistribution) : option SelectionResult * TrafficDistribution :=
  match ranked with
  | [] => (None, td)
  | best :: _ =>
      let td1 := refresh now ranked td in
      let c := td_config td1 in
      let ab := check_ab_test r_ab c in
      let selected := choose r_pick r_choice c (dict_values (td_weights td1)) best in
      let td2 := count_selection selected td1 in
      let '(name, variant, provider, model) :=
        match ab with
        | Some (name, true, p, m) => (name, true, p, m)
        | Some (name, false, _, _) => (name, false, pw_provider selected, pw_model selected)
        | None => ("", false, pw_provider selected, pw_model selected)
        end in
      let '(sp, sm) :=
        match t_shadow c with Some s => (sh_provider s, sh_model s) | None => ("", "") end in
      (Some (mk_sel provider model (pw_score selected) (pw_weight selected) name variant sp sm), td2)
  end.

(** [select] on plain (provider, model) pairs scores each of them 100. *)
Definition as_scored (pairs : list (string * string)) : list scored :=
  (λ pm, (zf 100, pm.1, pm.2)) <$> pairs.

Definition reset_stats (td : TrafficDistribution) : TrafficDistribution :=
  mk_td (td_config td)
    ((λ kw, (kw.1, mk_pw (pw_provider kw.2) (pw_model kw.2) (pw_score kw.2) (pw_weight kw.2)
                     (pw_is_canary kw.2) (pw_is_shadow kw.2) 0)) <$> td_weights td)
    (td_last_rebalance td) [] 0.

(** [get_weights], as the rounded records sorted by decreasing weight. *)
Definition get_weights (td : TrafficDistribution) : list ProviderWeight :=
  (λ w, mk_pw (pw_provider w) (pw_model w) (py_round (pw_score w) 2) (py_round (pw_weight w) 4)
          (pw_is_canary w) (pw_is_shadow w) (pw_assigned_requests w))
  <$> py_sorted (λ x y, flt (pw_weight y) (pw_weight x)) (dict_values (td_weights td)).

(** ** Where a selection comes from *)

Definition pair_of (pw : ProviderWeight) : string * string := (pw_provider pw, pw_model pw).

Lemma map_pairs (f : ProviderWeight → ProviderWeight) (l : list ProviderWeight) :
  (∀ w, pair_of (f w) = pair_of w) → pair_of <$> (f <$> l) = pair_of <$> l.
Proof.
  intros Hf. rewrite <- list_fmap_compose. apply list_fmap_ext. intros i w _. apply Hf.
Qed.

Lemma lift_starved_pairs d l : pair_of <$> (lift_starved d l).2 = pair_of <$> l.
Proof.
  revert d. induction l as [|w l IH]; intros d; simpl; [done|]. destruct (_ && _).
  - specialize (IH (fadd d (fsub MIN_WEIGHT (pw_weight w)))).
    destruct (lift_starved _ l); csimpl in *. by rewrite IH.
  - specialize (IH d). destruct (lift_starved d l); csimpl in *. by rewrite IH.
Qed.

Lemma starvation_floor_pairs l : pair_of <$> apply_starvation_floor l = pair_of <$> l.
Proof.
  unfold apply_starvation_floor. destruct (fle _ _).
  { destruct (existsb _ l); [by apply map_pairs|done]. }
  pose proof (lift_starved_pairs fzero (scale_down (weights_sum l) l)) as H.
  destruct (lift_starved _ _) as [d l1]; simpl in H.
  assert (∀ t k, pair_of <$> scale_down t k = pair_of <$> k) as Hs by (intros; by apply map_pairs).
  rewrite Hs in H. rewrite <- H.
  set (l2 := if flt fzero d then _ else _).
  assert (pair_of <$> l2 = pair_of <$> l1) as <-.
  { unfold l2. destruct (flt fzero d); [|done]. apply map_pairs.
    intros w. by destruct (above_floor w). }
  destruct (flt fzero (weights_sum l2)); [apply Hs|done].
Qed.

Lemma cap_at_pairs cap l i : pair_of <$> cap_at cap l i = pair_of <$> l.
Proof.
  unfold cap_at. destruct (l !! i) as [pw|] eqn:E; [|done]. destruct (_ && _); [|done].
  assert (pair_of <$> <[i:=set_weight cap pw]> l = pair_of <$> l) as Hi.
  { rewrite list_fmap_insert. apply list_insert_id. rewrite list_lookup_fmap, E. done. }
  destruct (_ =? 0); [done|]. rewrite map_pairs; [done|].
  intros w. by destruct (negb (pw_is_canary w) && negb (pw_is_shadow w)).
Qed.

Lemma canary_cap_pairs c l : pair_of <$> apply_canary_cap c l = pair_of <$> l.
Proof.
  unfold apply_canary_cap. destruct (t_canary c) as [k|]; [|done].
  generalize (seq 0 (length l)). intros idxs. revert l.
  induction idxs as [|i idxs IH]; intros l; simpl; [done|]. by rewrite IH, cap_at_pairs.
Qed.

Lemma length_normalise l : length (normalise l) = length l.
Proof.
  unfold normalise. destruct l as [|s l]; [done|]. destruct (feq _ _); by rewrite length_fmap.
Qed.

(** The weights are those of the scored candidates, in their order. *)
Lemma compute_weights_pairs c l :
  pair_of <$> compute_weights c l = (λ s : scored, (s.1.2, s.2)) <$> l.
Proof.
  unfold compute_weights. destruct l as [|s0 l]; [done|].
  set (raw := _ <$> s0 :: l).
  assert (pair_of <$> raw = (λ s : scored, (s.1.2, s.2)) <$> s0 :: l) as Hraw.
  { unfold raw. by rewrite <- list_fmap_compose. }
  set (zipped := zip_with set_weight _ raw).
  assert (pair_of <$> zipped = pair_of <$> raw) as Hz.
  { unfold zipped. generalize (length_normalise (pw_score <$> raw)). rewrite length_fmap.
    generalize (normalise (pw_score <$> raw)). clear.
    induction raw as [|w raw IH]; intros [|x xs] Hl; simpl in *; try done.
    f_equal. apply IH. lia. }
  rewrite <- Hraw, <- Hz, <- (starvation_floor_pairs zipped),
    <- (canary_cap_pairs c (apply_starvation_floor zipped)).
  case_match; [by apply map_pairs|done].
Qed.

Lemma fold_set_values (l : list ProviderWeight) d w :
  w ∈ dict_values (fold_left (λ d pw, dict_set (pw_key pw) pw d) l d) →
  w ∈ dict_values d ∨ w ∈ l.
Proof.
  revert d. induction l as [|x l IH]; intros d Hw; simpl in *; [by left|].
  destruct (IH _ Hw) as [Hd|Hl]; [|right; by right].
  apply list_elem_of_fmap in Hd as ([k v] & -> & Hin). simpl.
  apply dict_set_elem_of in Hin as [[= -> ->]|Hin]; [right; left|].
  left. apply list_elem_of_fmap. by exists (k, v).
Qed.

Lemma rebuild_sources now ranked td w :
  w ∈ dict_values (td_weights (rebuild_weights now ranked td)) →
  pair_of w ∈ (λ s : scored, (s.1.2, s.2)) <$> ranked.
Proof.
  simpl. intros [Hn|Hl]%fold_set_values; [by apply elem_of_nil in Hn|].
  rewrite <- (compute_weights_pairs (td_config td)). by apply list_elem_of_fmap_2.
Qed.

Lemma refresh_sources now ranked td w :
  w ∈ dict_values (td_weights (refresh now ranked td)) →
  pair_of w ∈ (λ s : scored, (s.1.2, s.2)) <$> ranked ∨
  needs_rebalance now td = false ∧ w ∈ dict_values (td_weights td).
Proof.
  unfold refresh. destruct (needs_rebalance now td) eqn:E.
  - destruct (td_weights (rebuild_weights now ranked td)); intros Hw; left;
      by eapply rebuild_sources.
  - destruct (td_weights td) eqn:Ew; intros Hw; [left; by eapply rebuild_sources|].
    right. by rewrite Ew in Hw.
Qed.

Lemma pick_from_elem r c l w : pick_from r c l = Some w → w ∈ l.
Proof.
  revert c. induction l as [|x l IH]; intros c H; simpl in H; [done|].
  destruct (fle _ _); [injection H as ->; left|right; by eapply IH].
Qed.

Lemma last_elem {A} (l : list A) (d x : A) : List.last (x :: l) d ∈ x :: l.
Proof.
  revert x. induction l as [|y l IH]; intros x; [left|].
  change (List.last (y :: l) d ∈ x :: y :: l). right. apply IH.
Qed.

Lemma weighted_pick_elem r_pick r_choice l w : weighted_pick r_pick r_choice l = Some w → w ∈ l.
Proof.
  unfold weighted_pick. destruct l as [|w0 l]; [done|]. destruct (fle _ _).
  - apply list_elem_of_lookup_2.
  - destruct (pick_from _ _ _) eqn:E; intros [= <-]; [by eapply pick_from_elem|apply last_elem].
Qed.

(** The chosen weight is a stored one or stands for the best candidate. *)
Lemma choose_sources r_pick r_choice c weights best :
  choose r_pick r_choice c weights best ∈ weights ∨
  choose r_pick r_choice c weights best = fresh_weight best.
Proof.
  unfold choose. destruct weights as [|w0 weights]; [by right|]. destruct (t_enabled c).
  - destruct (weighted_pick _ _ _) eqn:E; simpl; [left; by eapply weighted_pick_elem|by right].
  - destruct (List.find _ _) eqn:E; simpl; [left|by right].
    apply List.find_some in E as [E _]. by apply list_elem_of_In.
Qed.

Lemma refresh_config now ranked td : td_config (refresh now ranked td) = td_config td.
Proof. unfold refresh. destruct (needs_rebalance now td), (td_weights _); done. Qed.

Lemma refresh_counters now ranked td :
  td_selection_history (refresh now ranked td) = td_selection_history td ∧
  td_total_selections (refresh now ranked td) = td_total_selections td.
Proof. unfold refresh. destruct (needs_rebalance now td), (td_weights _); done. Qed.

(** [select] always answers when there is a candidate, and its answer comes
    from one of three places: the first A/B test whose split the draw falls
    under, the candidates of this call, or, when the weights are not due for a
    rebuild, the weights left by an earlier call. *)
Theorem select_sources (now r_ab r_pick : float) (r_choice : nat) (ranked : list scored)
    (td : TrafficDistribution) :
  ranked ≠ [] →
  ∃ r td', select now r_ab r_pick r_choice ranked td = (Some r, td') ∧
    if sel_is_variant r then
      ∃ ab, head (t_ab_tests (td_config td)) = Some ab ∧ flt r_ab (ab_traffic_split ab) = true ∧
        (sel_provider r, sel_model r) = (ab_variant_provider ab, ab_variant_model ab)
    else
      (sel_provider r, sel_model r) ∈ (λ s : scored, (s.1.2, s.2)) <$> ranked ∨
      needs_rebalance now td = false ∧
        (sel_provider r, sel_model r) ∈ pair_of <$> dict_values (td_weights td).
Proof.
  intros Hne. destruct ranked as [|best rest]; [done|]. unfold select.
  set (ranked := best :: rest) in *. set (td1 := refresh now ranked td).
  set (selected := choose _ _ _ _ best).
  assert (pair_of selected ∈ (λ s : scored, (s.1.2, s.2)) <$> ranked ∨
    needs_rebalance now td = false ∧ pair_of selected ∈ pair_of <$> dict_values (td_weights td))
    as Hsel.
  { destruct (choose_sources r_pick r_choice (td_config td1) (dict_values (td_weights td1)) best)
      as [Hin|Heq].
    - apply refresh_sources in Hin as [Hin|[Hnr Hin]]; [by left|right].
      split; [done|]. by apply list_elem_of_fmap_2.
    - left. unfold selected. rewrite Heq. apply list_elem_of_fmap. exists best. split; [done|left]. }
  unfold td1. rewrite refresh_config. unfold check_ab_test.
  destruct (t_ab_tests (td_config td)) as [|ab abs] eqn:Eab;
    [|destruct (flt r_ab (ab_traffic_split ab)) eqn:Es];
    destruct (t_shadow (td_config td)) as [sh|]; simpl;
    (eexists _, _; split; [reflexivity|]); simpl; try (by apply Hsel); by exists ab.
Qed.

Definition demo_config : TrafficConfig := mk_tconfig true 60 None [] None.

Definition demo_ranked : list scored := [(zf 80, "openai", "gpt-4o"); (zf 60, "groq", "llama")].

Lemma select_sources_witness :
  ∃ r td', select (zf 1000) fzero (flit 1 2) 0 demo_ranked (td_init demo_config) = (Some r, td') ∧
    if sel_is_variant r then
      ∃ ab, head (t_ab_tests (td_config (td_init demo_config))) = Some ab ∧
        flt fzero (ab_traffic_split ab) = true ∧
        (sel_provider r, sel_model r) = (ab_variant_provider ab, ab_variant_model ab)
    else
      (sel_provider r, sel_model r) ∈ (λ s : scored, (s.1.2, s.2)) <$> demo_ranked ∨
      needs_rebalance (zf 1000) (td_init demo_config) = false ∧
        (sel_provider r, sel_model r) ∈ pair_of <$> dict_values (td_weights (td_init demo_config)).
Proof.
  apply (select_sources (zf 1000) fzero (flit 1 2) 0 demo_ranked (td_init demo_config)).
  discriminate.
Defined.

(** The third source is real: within the rebalance interval the pick ignores
    the candidates of the call.  A request whose only candidate is [groq] is
    sent to [openai], which the router had just filtered out. *)
Theorem select_stale :
  ∃ (td : TrafficDistribution) (ranked : list scored) (r : SelectionResult),
    td = (select (zf 1000) fzero (flit 1 2) 0 demo_ranked (td_init demo_config)).2 ∧
    ranked = [(zf 60, "groq", "llama")] ∧
    (select (zf 1010) fzero (flit 1 2) 0 ranked td).1 = Some r ∧
    sel_provider r = "openai".
Proof.
  do 3 eexists. split; [reflexivity|]. split; [reflexivity|].
  split; vm_compute; reflexivity.
Qed.

(** ** Every selection is counted once *)

Definition history_sum (td : TrafficDistribution) : Z :=
  foldr Z.add 0 (dict_values (td_selection_history td)).

Lemma sum_history_set k v (d : dict string Z) :
  foldr Z.add 0 (dict_values (dict_set k v d))
  = foldr Z.add 0 (dict_values d) + (v - default 0 (dict_get k d)).
Proof.
  unfold dict_values. induction d as [|[k' v'] d IH]; csimpl; [lia|].
  destruct (decide (k = k')); csimpl; lia.
Qed.

Inductive td_op :=
  | TdSelect (now r_ab r_pick : float) (r_choice : nat) (ranked : list scored)
  | TdForce (now : float) (ranked : list scored)
  | TdTurn (now : float) (ranked : list scored)
  | TdReset.

Definition td_step (td : TrafficDistribution) (op : td_op) : TrafficDistribution :=
  match op with
  | TdSelect now r_ab r_pick r_choice ranked => (select now r_ab r_pick r_choice ranked td).2
  | TdForce now ranked => force_rebalance now ranked td
  | TdTurn now ranked => rebalance_turn now ranked td
  | TdReset => reset_stats td
  end.

Lemma select_state now r_ab r_pick r_choice best rest td :
  (select now r_ab r_pick r_choice (best :: rest) td).2
  = let td1 := refresh now (best :: rest) td in
    count_selection (choose r_pick r_choice (td_config td1) (dict_values (td_weights td1)) best) td1.
Proof.
  unfold select. destruct (check_ab_test _ _) as [[[[? []] ?] ?]|], (t_shadow _); reflexivity.
Qed.

(** After any sequence of selections, rebalances and resets the total number
    of selections is the sum of the per-provider counts, and it grows by one
    per selection. *)
Theorem selections_accounted (c : TrafficConfig) (ops : list td_op) :
  let td := fold_left td_step ops (td_init c) in
  td_total_selections td = history_sum td ∧
  ∀ now r_ab r_pick r_choice best rest,
    td_total_selections (select now r_ab r_pick r_choice (best :: rest) td).2
    = td_total_selections td + 1.
Proof.
  cbv zeta. split.
  - assert (∀ td, td_total_selections td = history_sum td →
      td_total_selections (fold_left td_step ops td) = history_sum (fold_left td_step ops td)) as H;
      [|by apply H].
    induction ops as [|op ops IH]; intros td Hd; simpl; [done|]. apply IH.
    destruct op as [now r_ab r_pick r_choice [|best rest]|now [|]|now [|]|]; cbn [td_step].
    + done.
    + rewrite select_state. cbv zeta. set (td1 := refresh _ _ td). set (pw := choose _ _ _ _ _).
      destruct (refresh_counters now (best :: rest) td) as [Hh Ht]. fold td1 in Hh, Ht.
      unfold history_sum, count_selection in *; cbn [td_total_selections td_selection_history].
      rewrite sum_history_set, Hh, Ht. lia.
    + done.
    + done.
    + unfold rebalance_turn, force_rebalance. by destruct (needs_rebalance now td).
    + unfold rebalance_turn, force_rebalance. by destruct (needs_rebalance now td).
    + done.
  - intros. rewrite select_state. cbn [count_selection td_total_selections].
    by rewrite (proj2 (refresh_counters _ _ _)).
Qed.
