(* ===== verification/Classifier.v ===== *)
(** * Task classifier

    [TaskClassifier] of [src/app/classifier.py]: a prompt is assigned the task
    type with the most keywords occurring in it, the first such type in the
    order of the enumeration, and the default task when no keyword occurs.
    [lower()] is modelled on ASCII.

    [DEFAULT_RULES.copy()] copies the dictionary, not the keyword lists: the
    instances created without rules share the lists of the class, and
    [add_keywords] extends them in place.  [Shared] marks such a list; its
    contents live in the store of class lists. *)

From Stdlib Require Import ZArith Lia.
From stdpp Require Import base numbers strings gmap list.
From S2P Require Import Prelude PyFloat PyNum PyStr PyDict PyMath.

Open Scope string_scope.
Open Scope Z_scope.

Inductive TaskType := CHAT | CODING | ARCHITECTURE | ANALYSIS | UNKNOWN_TASK.

Instance TaskType_eq_dec : EqDecision TaskType.
Proof. solve_decision. Defined.

(** The order of iteration over the enumeration. *)
Definition all_tasks : list TaskType := [CHAT; CODING; ARCHITECTURE; ANALYSIS; UNKNOWN_TASK].

(** [task.value] *)
Definition task_value (t : TaskType) : string :=
  match t with
  | CHAT => "chat" | CODING => "coding" | ARCHITECTURE => "architecture"
  | ANALYSIS => "analysis" | UNKNOWN_TASK => "unknown"
  end.

Definition DEFAULT_RULES : dict TaskType (list string) :=
  [(CODING,
    ["code"; "coding"; "program"; "function"; "api"; "fastapi"; "docker"; "bug"; "error";
      "debug"; "javascript"; "typescript"; "python"; "rust"; "go"; "java"; "c++"; "sql";
      "database"; "query"; "script"; "algorithm"; "implementation"; "refactor"; "optimize";
      "performance"; "memory"; "async"; "await"; "thread"; "concurrent"; "parallel"; "git";
      "github"; "ci/cd"; "pipeline"; "deploy"; "kubernetes"; "k8s"; "terraform"; "ansible";
      "class"; "interface"; "module"; "package"; "library"; "framework"; "react"; "vue";
      "angular"; "nextjs"; "node"; "express"]);
   (ARCHITECTURE,
    ["architecture"; "design"; "system"; "infrastructure"; "scaling"; "deployment"; "server";
      "microservices"; "monolith"; "distributed"; "load balancing"; "caching"; "message queue";
      "event driven"; "service mesh"; "api gateway"; "database design"; "schema"; "orm";
      "capacity planning"; "high availability"; "fault tolerance"; "disaster recovery"; "backup";
      "monitoring"; "observability"; "logging"; "tracing"; "metrics"; "alerting"; "sla"; "slo";
      "sli"]);
   (ANALYSIS,
    ["analyze"; "analysis"; "compare"; "research"; "explain"; "evaluate"; "review"; "assess";
      "investigate"; "study"; "examine"; "explore"; "understand"; "interpret"; "summarize";
      "synthesize"; "conclude"; "recommend"; "pros and cons"; "trade-offs"; "benchmark";
      "profile"; "metrics"; "kpi"; "dashboard"; "report"; "insight"; "pattern"; "trend";
      "anomaly"; "correlation"; "causation"; "hypothesis"]);
   (CHAT,
    ["chat"; "talk"; "discuss"; "conversation"; "question"; "help"; "how to"; "what is"; "why";
      "when"; "where"; "who"; "tell me"; "show me"; "give me"; "list"; "examples"; "ideas";
      "suggestions"; "brainstorm"; "creative"; "write"; "story"; "poem"; "joke"])].

(** A keyword list of an instance: the class's list of a task, or its own. *)
Inductive keywords := Shared (t : TaskType) | Own (l : list string).

Record TaskClassifier := mk_classifier {
  rules : dict TaskType keywords;
  default_task : TaskType
}.

(** [TaskClassifier()] and [TaskClassifier(rules)] with non-empty rules *)
Definition default_classifier : TaskClassifier :=
  mk_classifier ((λ t, (t, Shared t)) <$> [CODING; ARCHITECTURE; ANALYSIS; CHAT]) CHAT.

Definition make_classifier (r : dict TaskType (list string)) : TaskClassifier :=
  match r with
  | [] => default_classifier
  | _ => mk_classifier ((λ tl, (tl.1, Own tl.2)) <$> r) CHAT
  end.

(** The store of the class lists: [DEFAULT_RULES] as it is now. *)
Abbreviation class_rules := (dict TaskType (list string)) (only parsing).

Definition contents (store : class_rules) (k : keywords) : list string :=
  match k with Shared t => default [] (dict_get t store) | Own l => l end.

Record ClassificationResult := mk_class {
  cr_task : TaskType;
  cr_confidence : float;
  cr_matched_keywords : dict string (list string)
}.

(** The keywords of the list that occur in the text, in order. *)
Definition matches_in (text : string) (ks : list string) : list string :=
  List.filter (λ k, contains (lower k) text) ks.

(** The matched keywords of every task after the two loops; a task with
    several rule entries cannot occur, the rules are a dictionary. *)
Definition matched_of (store : class_rules) (c : TaskClassifier) (text : string) (t : TaskType)
    : list string :=
  match dict_get t (rules c) with Some k => matches_in text (contents store k) | None => [] end.

(** [max(scores, key=scores.get)]: the first task of maximal score. *)
Fixpoint best_of (score : TaskType → Z) (best : TaskType) (ts : list TaskType) : TaskType :=
  match ts with
  | [] => best
  | t :: rest => best_of score (if score best <? score t then t else best) rest
  end.

Definition classify_with_confidence (store : class_rules) (c : TaskClassifier) (prompt : string)
    : ClassificationResult :=
  let text := lower prompt in
  let score t := zlen (matched_of store c text t) in
  let best_task := best_of score CHAT (List.tl all_tasks) in
  let best_score := score best_task in
  let total_matches := foldr Z.add 0 (score <$> all_tasks) in
  let confidence := if 0 <? total_matches then int_ratio best_score total_matches else fzero in
  let matched := (λ t, (task_value t, matched_of store c text t)) <$> all_tasks in
  if best_score =? 0 then mk_class (default_task c) (flit 1 2) matched
  else mk_class best_task confidence matched.

Definition classify (store : class_rules) (c : TaskClassifier) (prompt : string) : TaskType :=
  cr_task (classify_with_confidence store c prompt).

(** [add_keywords] extends the list in place: the class's list if shared. *)
Definition add_keywords (t : TaskType) (ks : list string) (store : class_rules) (c : TaskClassifier)
    : class_rules * TaskClassifier :=
  match dict_get t (rules c) with
  | Some (Shared t') => (dict_set t' (default [] (dict_get t' store) ++ ks)%list store, c)
  | Some (Own l) => (store, mk_classifier (dict_set t (Own (l ++ ks)%list) (rules c)) (default_task c))
  | None => (store, mk_classifier (dict_set t (Own ks) (rules c)) (default_task c))
  end.

(** [remove_keywords] rebinds the entry to a new list. *)
Definition remove_keywords (t : TaskType) (ks : list string) (store : class_rules)
    (c : TaskClassifier) : TaskClassifier :=
  match dict_get t (rules c) with
  | Some k =>
      mk_classifier
        (dict_set t (Own (List.filter (λ w, negb (bool_decide (w ∈ ks))) (contents store k))) (rules c))
        (default_task c)
  | None => c
  end.

Definition set_default_task (t : TaskType) (c : TaskClassifier) : TaskClassifier :=
  mk_classifier (rules c) t.

Definition get_rules (store : class_rules) (c : TaskClassifier) : list (string * list string) :=
  (λ tk, (task_value tk.1, contents store tk.2)) <$> rules c.

(** ** Correctness *)

Lemma best_of_max score best ts t :
  t ∈ best :: ts → score t <= score (best_of score best ts).
Proof.
  revert best t. induction ts as [|x ts IH]; intros best t Ht; simpl.
  { apply list_elem_of_singleton in Ht as ->. lia. }
  apply elem_of_cons in Ht as [->|[->|Ht]%elem_of_cons].
  - destruct (Z.ltb_spec (score best) (score x)).
    + transitivity (score x); [lia|]. apply IH. left.
    + apply IH. left.
  - destruct (Z.ltb_spec (score best) (score x)); [apply IH; left|].
    transitivity (score best); [lia|]. apply IH. left.
  - apply IH. by right.
Qed.

Lemma best_of_first score best ts :
  ∃ l r, best :: ts = (l ++ best_of score best ts :: r)%list ∧
    ∀ t, t ∈ l → score t < score (best_of score best ts).
Proof.
  revert best. induction ts as [|x ts IH]; intros best; simpl.
  { exists [], []. split; [done|]. intros t Ht. by apply elem_of_nil in Ht. }
  destruct (Z.ltb_spec (score best) (score x)) as [Hlt|Hge].
  - destruct (IH x) as (l & r & Heq & Hl). exists (best :: l), r. split; [by rewrite Heq|].
    intros t [->|Ht]%elem_of_cons; [|by apply Hl].
    pose proof (best_of_max score x ts x ltac:(left)). lia.
  - destruct (IH best) as (l & r & Heq & Hl).
    destruct l as [|y l]; simpl in Heq; injection Heq as Hy Heq.
    + exists [], (x :: ts). split; [simpl; congruence|]. intros t Ht. by apply elem_of_nil in Ht.
    + subst y. exists (best :: x :: l), r. split; [simpl; congruence|].
      intros t [->|[->|Ht]%elem_of_cons]%elem_of_cons.
      * apply Hl. left.
      * assert (score best < score (best_of score best ts)) by (apply Hl; left). lia.
      * apply Hl. by right.
Qed.

(** The classifier returns a task with the greatest number of matching
    keywords; every task before it in the enumeration has strictly fewer; and
    when nothing matches it returns the default task with confidence 0.5. *)
Theorem classify_correct (store : class_rules) (c : TaskClassifier) (prompt : string) :
  let score t := zlen (matched_of store c (lower prompt) t) in
  let r := classify_with_confidence store c prompt in
  ((∀ t, score t = 0) ∧ cr_task r = default_task c ∧ cr_confidence r = flit 1 2) ∨
  (0 < score (cr_task r) ∧ (∀ t, score t <= score (cr_task r)) ∧
   ∃ before after, all_tasks = (before ++ cr_task r :: after)%list ∧
     ∀ t, t ∈ before → score t < score (cr_task r)).
Proof.
  intros score r.
  assert (∀ t, t ∈ CHAT :: List.tl all_tasks) as Hall
    by (intros []; simpl; repeat (first [left|right])).
  pose proof (λ t, best_of_max score CHAT (List.tl all_tasks) t (Hall t)) as Hmax.
  pose proof (best_of_first score CHAT (List.tl all_tasks)) as (l & rs & Heq & Hl).
  unfold r, classify_with_confidence. fold score.
  set (best := best_of score CHAT (List.tl all_tasks)) in *.
  change (zlen (matched_of store c (lower prompt) best)) with (score best).
  destruct (Z.eqb_spec (score best) 0) as [H0|H0]; cbn [cr_task cr_confidence].
  - left. split; [|split; reflexivity]. intros t. specialize (Hmax t).
    assert (0 <= score t) by (unfold score, zlen; lia). lia.
  - right. split; [|split; [done|by exists l, rs]].
    assert (0 <= score best) by (unfold score, zlen; lia). lia.
Qed.

(** Two classifiers created without rules share their keyword lists: adding a
    keyword to one changes how the other classifies. *)
Theorem add_keywords_leaks :
  ∃ (t : TaskType) (ks : list string) (prompt : string),
    let '(store', c') := add_keywords t ks DEFAULT_RULES default_classifier in
    classify DEFAULT_RULES default_classifier prompt = CHAT ∧
    classify store' default_classifier prompt = t ∧ t = ANALYSIS.
Proof. exists ANALYSIS, ["zebra"], "zebra zoo". vm_compute. done. Qed.

Example classify_example :
  classify DEFAULT_RULES default_classifier "Fix the bug in this Python function" = CODING.
Proof. vm_compute. reflexivity. Qed.
