(* ===== verification/ModelRouter.v ===== *)
(** * Model router

    [AIRouter] of [src/app/router.py]: classification of the request, choice
    and order of the providers, the attempt on one provider with retries, the
    failover over the list, and the persistence of the metrics.

    The components are those of the other files; what is outside the program
    is an argument:
    - [answer idx name request k]: what the [k]-th call of the [idx]-th
      provider tried gives (the HTTP APIs of the providers);
    - the enabled plugins ([PluginPipeline]);
    - the clock ([Timing] per attempt), the jitter of the back-off and the
      draws of the traffic distribution;
    - [estimate_tokens]: the token estimate of the prompt (tiktoken).

    The response object is an instance of [ChatResponse], a pydantic model:
    [assign_metadata] is the assignment [response.metadata = ...] on it.

    One request is followed from its arrival to its answer; other requests
    that run between two [await]s of this one are not.  The shadow request
    ([_send_shadow]) is sent and forgotten and has no effect on the state
    modelled here; the logger, Prometheus counters, [stats] and
    [token_intelligence.record] are left out. *)

From Stdlib Require Import ZArith Lia.
From stdpp Require Import base numbers strings gmap list.
From S2P Require Import Prelude PyFloat PyNum PyStr PyDict PyMath.
From S2P Require Import ProviderManager ModelCosts Reputation.
From S2P Require Import PluginPipeline RoutingEngine Traffic Classifier.

Open Scope string_scope.
Open Scope Z_scope.

(** ** Requests, responses, errors *)

Record Message := mk_msg { msg_content : string; msg_tool_calls : bool }.

(** The entries of [request.metadata] the router reads. *)
Record Metadata := mk_meta {
  md_optimization_mode : string;
  md_required_capabilities : list string;
  md_preferred_provider : option string
}.

(** The fields of a request the router reads or writes; the sampling options
    are passed through to the provider. *)
Record ChatRequest := mk_request {
  req_model : string;
  req_messages : list Message;
  req_stream : bool;
  req_metadata : Metadata
}.

Definition with_model (m : string) (r : ChatRequest) : ChatRequest :=
  mk_request m (req_messages r) (req_stream r) (req_metadata r).

Record Usage := mk_use {
  us_prompt : Z; us_completion : Z; us_total : Z; us_cache : Z; us_reasoning : Z
}.

Definition usage_zero : Usage := mk_use 0 0 0 0 0.

(** The fields of a response the router reads; its choices are passed on. *)
Record ChatResponse := mk_response {
  resp_id : string;
  resp_model : string;
  resp_usage : option Usage
}.

(** The fields that the class declares. *)
Definition chat_response_fields : list string :=
  ["id"; "object"; "created"; "model"; "choices"; "usage"; "system_fingerprint"].

(** An assignment to the attribute [metadata]: a pydantic model refuses every
    attribute that is not a declared field (ValueError).  The value would be
    read by nothing here. *)
Definition assign_metadata (r : ChatResponse) : option ChatResponse :=
  if bool_decide ("metadata" ∈ chat_response_fields) then Some r else None.

Inductive ProviderErrorKind :=
  GenericProviderError | ProviderUnavailable | ProviderTimeout | ProviderAuth | ProviderRateLimit.

(** What a provider call may raise: a [ProviderError] (or subclass) with its
    status code, a timeout of asyncio, an httpx or connection error, or any
    other exception. *)
Inductive CallExn :=
  | EProvider (kind : ProviderErrorKind) (status_code : Z)
  | EAsyncTimeout
  | ENetwork
  | EOther.

Definition RETRYABLE_CODES : list Z := [429; 500; 502; 503; 504].

Definition is_retryable (e : CallExn) : bool :=
  match e with
  | EProvider (ProviderRateLimit | ProviderTimeout | ProviderUnavailable) _ => true
  | EProvider _ code => bool_decide (code ∈ RETRYABLE_CODES)
  | EAsyncTimeout | ENetwork | EOther => true
  end.

Definition is_non_retryable (e : CallExn) : bool :=
  match e with
  | EProvider ProviderAuth _ => true
  | EProvider _ code => bool_decide (code ∈ [400; 401; 403; 404; 422])
  | _ => false
  end.

(** ** Retry *)

(** What [retry_with_backoff] raises: an error of the call, or the [TypeError]
    of [raise None] when it was asked for no attempt. *)
Inductive RetryError := Raised (e : CallExn) | RaiseNone.

Definition backoff_delay (base_delay : float) (attempt : nat) (jitter : float) : float :=
  fadd (fmul base_delay (zf (2 ^ Z.of_nat attempt))) jitter.

(** The loop from [attempt] with [remaining] attempts left: the outcome, the
    number of calls made in all, and the delays slept. *)
Fixpoint retry_loop {A} (call : nat → result CallExn A) (jitter : nat → float) (base_delay : float)
    (attempt remaining : nat) (last : option CallExn) : result RetryError A * nat * list float :=
  match remaining with
  | O => (Err (match last with Some e => Raised e | None => RaiseNone end), attempt, [])
  | S k =>
      match call attempt with
      | Ok a => (Ok a, S attempt, [])
      | Err e =>
          if is_non_retryable e || negb (is_retryable e) then (Err (Raised e), S attempt, [])
          else
            let '(r, n, delays) := retry_loop call jitter base_delay (S attempt) k (Some e) in
            (r, n, match k with O => delays
                   | S _ => backoff_delay base_delay attempt (jitter attempt) :: delays end)
      end
  end.

Definition retry_with_backoff {A} (call : nat → result CallExn A) (jitter : nat → float)
    (base_delay : float) (max_retries : nat) : result RetryError A * nat * list float :=
  retry_loop call jitter base_delay 0 max_retries None.

(** ** Capabilities a request needs *)

Definition detect_message (required : gset string) (msg : Message) : gset string :=
  let content := msg_content msg in
  let r1 := if contains "data:image/" content || contains "![image]" content
            then {["vision"]} ∪ required else required in
  if msg_tool_calls msg then {["tools"; "function_calling"]} ∪ r1 else r1.

Definition detect_required_capabilities (r : ChatRequest) : gset string :=
  fold_left detect_message (req_messages r) (if req_stream r then {["streaming"]} else ∅).

(** ** Configuration *)

Record TaskConfig := mk_task { tc_primary : ProviderConfig; tc_fallback : list ProviderConfig }.

Definition get_provider_configs (tasks : dict string TaskConfig) (task : string)
    : list (string * string) :=
  match dict_get task tasks with
  | Some tc => (λ pc, (pc_name pc, pc_model pc)) <$> tc_primary tc :: tc_fallback tc
  | None => []
  end.

Definition get_optimization_mode (r : ChatRequest) : OptimizationMode :=
  let mode_str := md_optimization_mode (req_metadata r) in
  if truthy mode_str then default BALANCED (parse_mode (lower mode_str)) else BALANCED.

(** ** State *)

Inductive Event :=
  | RequestStarted (task : string)
  | ProviderSelected (provider model : string)
  | ProviderFailed (provider model : string)
  | FallbackTriggered (provider : string)
  | RequestFinished (winner : option (string * string)).

Record RouterState := mk_rs {
  rs_metrics : dict string ProviderMetrics;
  rs_mode : OptimizationMode;
  rs_accounting : Pricing.TokenAccounting;
  rs_benchmark : dict string (list RequestRecord);
  rs_traffic : TrafficDistribution;
  rs_storage : option (dict string ProviderStats);
  rs_events : list Event
}.

Definition MAX_HISTORY : nat := 1000.

(** [event_bus.emit]: the handlers are outside, their exceptions are caught;
    the bus keeps the last events. *)
Definition emit (e : Event) (st : RouterState) : RouterState :=
  mk_rs (rs_metrics st) (rs_mode st) (rs_accounting st) (rs_benchmark st) (rs_traffic st)
    (rs_storage st) (deque_append MAX_HISTORY (rs_events st) e).

Definition with_metrics (ms : dict string ProviderMetrics) (st : RouterState) : RouterState :=
  mk_rs ms (rs_mode st) (rs_accounting st) (rs_benchmark st) (rs_traffic st) (rs_storage st)
    (rs_events st).

(** ** Persistence *)

(** [save_provider] of [InMemoryBackend] *)
Definition save_provider (s : ProviderStats) (d : dict string ProviderStats)
    : dict string ProviderStats := dict_set (s_name s) s d.

Definition persist_all_metrics (now : float) (st : RouterState) : RouterState :=
  match rs_storage st with
  | None => st
  | Some d =>
      mk_rs (rs_metrics st) (rs_mode st) (rs_accounting st) (rs_benchmark st) (rs_traffic st)
        (Some (fold_left (λ d m, save_provider (to_storage now m) d) (dict_values (rs_metrics st)) d))
        (rs_events st)
  end.

(** Records without a name are skipped. *)
Definition load_persisted_metrics (now : float) (st : RouterState) : RouterState :=
  match rs_storage st with
  | None => st
  | Some d =>
      with_metrics
        (fold_left (λ ms s, if truthy (s_name s) then dict_set (s_name s) (from_storage now s) ms else ms)
           (dict_values d) (rs_metrics st)) st
  end.

(** ** Hooks *)

Inductive HookPoint :=
  | BeforeRequest
  | BeforeRoute
  | AfterRoute (routes : list (string * string))
  | BeforeProvider (provider model : string)
  | AfterProvider (response : ChatResponse) (provider model : string)
  | BeforeResponse (response : ChatResponse)
  | AfterResponse (response : ChatResponse).

Record HookArgs := mk_args { ha_point : HookPoint; ha_request : ChatRequest }.

(** The clock while one provider is tried. *)
Record Timing := mk_timing {
  tm_created : float;    (** [time.time()] when the metrics are first created *)
  tm_latency_ms : float; (** elapsed time, from [perf_counter] *)
  tm_recorded : float;   (** [time.time()] in [record_success] / [record_failure] *)
  tm_benched : float;    (** [time.time()] in the live benchmark *)
  tm_saved : float       (** [time.time()] in [to_storage] *)
}.

Inductive ChatError :=
  | CancelledByPlugin (reason : string)
  | NoHealthyProvider (task : string)
  | AllProvidersFailed (task : string) (errors : list (string * string))
  | AttributeRejected.

Section Router.
Context (entries : dict string Capability.ModelCapability).
Context (tasks : dict string TaskConfig).
Context (store : dict TaskType (list string)) (classifier : TaskClassifier).
Context (pm : ProviderManager).
Context (plugins : list (Plugin ChatRequest ChatResponse string HookArgs)).
Context (answer : nat → string → ChatRequest → nat → result CallExn ChatResponse).
Context (timing : nat → Timing) (jitter : nat → nat → float).
Context (estimate_tokens : string → string → string → Z).
Context (now r_ab r_pick : float) (r_choice : nat).

Definition hooks (p : HookPoint) (r : ChatRequest) : HookResult ChatRequest ChatResponse string :=
  execute_hook_chain (mk_args p r) plugins.

(** ** One provider *)

Definition bench (idx : nat) (provider model : string) (tokens : Z) (success timeout : bool)
    (st : RouterState) : RouterState :=
  mk_rs (rs_metrics st) (rs_mode st) (rs_accounting st)
    (lb_record provider
       (mk_record (tm_benched (timing idx)) (tm_latency_ms (timing idx)) fzero tokens success timeout
          model) (rs_benchmark st))
    (rs_traffic st) (rs_storage st) (rs_events st).

Definition account (provider model : string) (u : Usage) (st : RouterState) : RouterState :=
  mk_rs (rs_metrics st) (rs_mode st)
    (Pricing.record provider model (us_prompt u) (us_completion u) (us_cache u) (us_reasoning u)
       (rs_accounting st)).2
    (rs_benchmark st) (rs_traffic st) (rs_storage st) (rs_events st).

Definition save_one (m : ProviderStats) (st : RouterState) : RouterState :=
  mk_rs (rs_metrics st) (rs_mode st) (rs_accounting st) (rs_benchmark st) (rs_traffic st)
    (save_provider m <$> rs_storage st) (rs_events st).

(** The branch of [_try_provider] after a response. *)
Definition on_success (idx : nat) (provider model : string) (response : ChatResponse)
    (m : ProviderMetrics) (st : RouterState) : RouterState :=
  let t := timing idx in
  let u := default usage_zero (resp_usage response) in
  let cost := Pricing.estimate_cost provider model (us_prompt u) (us_completion u) (us_cache u) in
  let m' := record_success (tm_recorded t) (tm_latency_ms t) cost (us_prompt u) (us_completion u) m in
  save_one (to_storage (tm_saved t) m')
    (bench idx provider model (us_total u) true false
       (account provider model u (with_metrics (dict_set provider m' (rs_metrics st)) st))).

(** The branch after an exception. *)
Definition on_failure (idx : nat) (provider model : string) (e : RetryError) (m : ProviderMetrics)
    (st : RouterState) : RouterState :=
  let t := timing idx in
  let m' := record_failure (tm_recorded t) (tm_latency_ms t) m in
  let is_timeout :=
    match e with
    | Raised EAsyncTimeout | Raised (EProvider ProviderTimeout _) => true
    | _ => false
    end in
  emit (ProviderFailed provider model)
    (bench idx provider model 0 false is_timeout
       (with_metrics (dict_set provider m' (rs_metrics st)) st)).

(** [_try_provider]: the response if any, the caller's request object
    afterwards (its [model] is overwritten unless a plugin substituted another
    request) and the state. *)
Definition try_provider (idx : nat) (provider model : string) (request : ChatRequest)
    (st : RouterState) : option ChatResponse * ChatRequest * RouterState :=
  match pm_get pm provider with
  | None => (None, request, st)
  | Some p =>
      let m := default (metrics_init "" (tm_created (timing idx))) (dict_get provider (rs_metrics st)) in
      let st1 := emit (ProviderSelected provider model)
                   (with_metrics (dict_set provider m (rs_metrics st)) st) in
      let hook := hooks (BeforeProvider provider model) request in
      if should_cancel hook then (None, request, st1)
      else
        let sent := with_model model (default request (modified_request hook)) in
        let request' := match modified_request hook with Some _ => request | None => sent end in
        match (retry_with_backoff (answer idx (p_name p) sent) (jitter idx) (zf 1) 3).1.1 with
        | Ok response => (Some response, request', on_success idx provider model response m st1)
        | Err e => (None, request', on_failure idx provider model e m st1)
        end
  end.

(** ** Failover *)

(** What [chat] does with a response. *)
Definition deliver (provider model : string) (request : ChatRequest) (response : ChatResponse)
    (st : RouterState) : result ChatError ChatResponse * RouterState :=
  match assign_metadata response with
  | None => (Err AttributeRejected, st)
  | Some response =>
      let hook := hooks (BeforeResponse response) request in
      if should_cancel hook then (Err (CancelledByPlugin (cancel_reason hook)), st)
      else
        let response := default response (modified_response hook) in
        let st := emit (RequestFinished (Some (provider, model))) st in
        match hook_metadata hook with
        | [] => (Ok response, st)
        | _ =>
            match assign_metadata response with
            | Some response => (Ok response, st)
            | None => (Err AttributeRejected, st)
            end
        end
  end.

(** The loop over the providers to try: the outcome, the state, and the list
    of the providers tried with the response each gave. *)
Fixpoint try_loop (task : string) (idx : nat) (providers : list (string * string))
    (request : ChatRequest) (st : RouterState) (errors : list (string * string))
    : result ChatError ChatResponse * RouterState * list (string * string * option ChatResponse) :=
  match providers with
  | [] => (Err (AllProvidersFailed task errors), emit (RequestFinished None) st, [])
  | (provider, model) :: rest =>
      let '(resp, request', st1) := try_provider idx provider model request st in
      match resp with
      | Some response =>
          (deliver provider model request' response st1, [(provider, model, Some response)])
      | None =>
          let '(r, st2, tried) :=
            try_loop task (S idx) rest request' (emit (FallbackTriggered provider) st1)
              (errors ++ [(provider, model)])%list in
          (r, st2, (provider, model, None) :: tried)
      end
  end.

(** [_rank_providers(..., return_scores=True)] with the context it builds. *)
Definition router_rank (task : string) (candidates : list (string * string))
    (user_preference : option string) (required : gset string) (prompt : string) (st : RouterState)
    : list scored * dict string (list RequestRecord) :=
  let '(provider_hint, model_hint) :=
    match candidates with c :: _ => c | [] => ("", "") end in
  let text := if truthy prompt then prompt else task in
  let estimate :=
    if truthy model_hint then estimate_tokens text model_hint provider_hint
    else Z.max 1 (Z.of_nat (String.length text) / 4) in
  let ctx := mk_ctx "chat" estimate BALANCED user_preference 0 (elements required) in
  rank_providers entries (rs_mode st) now now (rs_metrics st) pm ctx candidates (rs_benchmark st).

Definition providers_to_try (selected : option SelectionResult) (ranked : list (string * string))
    : list (string * string) :=
  match selected with
  | Some s =>
      (sel_provider s, sel_model s)
      :: List.filter (λ c, negb (bool_decide (c = (sel_provider s, sel_model s)))) ranked
  | None => ranked
  end.

(** The candidates after the availability filter, which is dropped when it
    leaves nothing. *)
Definition available_candidates (task : string) : list (string * string) :=
  let candidates := get_provider_configs tasks task in
  match List.filter (λ c, is_provider_available pm c.1) candidates with
  | [] => candidates
  | available => available
  end.

(** The plan of a request: the providers to try, and the state after the
    ranking and the traffic selection. *)
Definition plan (task : string) (required : gset string) (request : ChatRequest) (st : RouterState)
    : list (string * string) * RouterState :=
  let full_prompt := join " " (msg_content <$> req_messages request) in
  let '(ranked, lb) :=
    router_rank task (available_candidates task)
      (md_preferred_provider (req_metadata request)) required full_prompt st in
  let '(selected, td) := select now r_ab r_pick r_choice ranked (rs_traffic st) in
  (providers_to_try selected ((λ s : scored, (s.1.2, s.2)) <$> ranked),
   mk_rs (rs_metrics st) (rs_mode st) (rs_accounting st) lb td (rs_storage st) (rs_events st)).

(** [chat] *)
Definition chat (request : ChatRequest) (st : RouterState)
    : result ChatError ChatResponse * RouterState * list (string * string * option ChatResponse) :=
  let prompt := match List.rev (req_messages request) with m :: _ => msg_content m | [] => "" end in
  let task := task_value (classify store classifier prompt) in
  let st := emit (RequestStarted task) st in
  let mode := get_optimization_mode request in
  let st := mk_rs (rs_metrics st) mode (rs_accounting st) (rs_benchmark st) (rs_traffic st)
              (rs_storage st) (rs_events st) in
  let required :=
    detect_required_capabilities request
    ∪ list_to_set (md_required_capabilities (req_metadata request)) in
  let hook := hooks BeforeRequest request in
  if should_cancel hook then (Err (CancelledByPlugin (cancel_reason hook)), st, [])
  else
    let request := default request (modified_request hook) in
    let hook := hooks BeforeRoute request in
    if should_cancel hook then (Err (CancelledByPlugin (cancel_reason hook)), st, [])
    else
      let request := default request (modified_request hook) in
      match available_candidates task with
      | [] => (Err (NoHealthyProvider task), st, [])
      | _ =>
          let '(providers, st) := plan task required request st in
          let hook := hooks (AfterRoute providers) request in
          if should_cancel hook then (Err (CancelledByPlugin (cancel_reason hook)), st, [])
          else try_loop task 0 providers request st []
      end.
End Router.
