(* ===== verification/ModelRouterSpec.v ===== *)
(** * Model router: correctness of retry, failover and persistence

    - [retry_correct]: [retry_with_backoff] makes at most the allowed number
      of calls, stops at the first answer or at the first error that must not
      be retried, and sleeps between two calls only;
    - [chat_failover]: how [chat] ends: it tries the providers of the plan in
      order until one answers, and reports that all failed only after every
      available candidate was tried;
    - [chat_rejected]: it never returns an answer, since the response of a
      provider refuses the attribute [metadata];
    - [metrics_not_persisted]: the metrics the router creates do not survive a
      restart. *)

From Stdlib Require Import ZArith Lia.
From stdpp Require Import base numbers strings gmap list.
From S2P Require Import Prelude PyFloat PyNum PyStr PyDict PluginPipeline PyMath ProviderManager ModelCosts Reputation RoutingEngine Traffic Classifier ModelRouter.


Open Scope string_scope.
Open Scope Z_scope.

(** ** Retry *)

Definition retried {A} (r : result CallExn A) : Prop :=
  ∃ e, r = Err e ∧ is_non_retryable e = false ∧ is_retryable e = true.

Definition fatal (e : CallExn) : Prop := is_non_retryable e = true ∨ is_retryable e = false.

(** What the loop guarantees from [attempt] on. *)
Definition loop_post {A} (call : nat → result CallExn A) (attempt remaining : nat) (last : option CallExn)
    (out : result RetryError A * nat * list float) : Prop :=
  let '(r, n, delays) := out in
  (attempt <= n <= attempt + remaining)%nat ∧
  (∀ i, (attempt <= i)%nat → (S i < n)%nat → retried (call i)) ∧
  match r with
  | Ok a => (attempt < n)%nat ∧ call (pred n) = Ok a ∧ length delays = (n - S attempt)%nat
  | Err (Raised e) =>
      ((attempt < n)%nat ∧ call (pred n) = Err e ∧ length delays = (n - S attempt)%nat ∧
       (fatal e ∨ n = (attempt + remaining)%nat)) ∨
      (remaining = 0%nat ∧ n = attempt ∧ last = Some e ∧ delays = [])
  | Err RaiseNone => remaining = 0%nat ∧ n = attempt ∧ last = None
  end.

Lemma retry_loop_post {A} (call : nat → result CallExn A) jitter base attempt remaining last :
  loop_post call attempt remaining last (retry_loop call jitter base attempt remaining last).
Proof.
  revert attempt last. induction remaining as [|k IH]; intros attempt last.
  { simpl. split; [lia|]. split; [intros; lia|]. destruct last; [by right|done]. }
  cbn [retry_loop]. destruct (call attempt) as [a|e] eqn:E.
  { simpl. split; [lia|]. split; [intros; lia|]. split; [lia|]. split; [done|lia]. }
  destruct (is_non_retryable e || negb (is_retryable e)) eqn:Ef.
  { simpl. split; [lia|]. split; [intros; lia|]. left. split; [lia|]. split; [done|].
    split; [lia|]. left. apply orb_true_iff in Ef as [?|?%negb_true_iff]; [by left|by right]. }
  apply orb_false_iff in Ef as [Hn Hr%negb_false_iff].
  specialize (IH (S attempt) (Some e)).
  destruct (retry_loop call jitter base (S attempt) k (Some e)) as [[r n] delays].
  destruct IH as (Hb & Hi & Hpost). split; [lia|]. split.
  { intros i Hlo Hhi. destruct (decide (i = attempt)) as [->|]; [by exists e|apply Hi; lia]. }
  destruct k as [|k].
  - destruct r as [a|[e'|]]; [lia| |naive_solver].
    destruct Hpost as [?|(_ & -> & [= <-] & ->)]; [lia|].
    left. split; [lia|]. split; [done|]. split; [simpl; lia|]. right. lia.
  - destruct r as [a|[e'|]].
    + destruct Hpost as (? & ? & Hd). split; [lia|]. split; [done|]. simpl. lia.
    + destruct Hpost as [(? & ? & Hd & Hf)|(? & _)]; [|lia].
      left. split; [lia|]. split; [done|]. split; [simpl; lia|].
      destruct Hf as [|]; [by left|right; lia].
    + lia.
Qed.

(** [retry_with_backoff] makes between one and [max_retries] calls (none only
    if none is allowed); all but the last raised an error that may be retried;
    the outcome is that of the last call; an error is passed on only if it must
    not be retried or the attempts are used up; and there is one delay between
    two consecutive calls. *)
Theorem retry_correct {A} (call : nat → result CallExn A) (jitter : nat → float) (base : float)
    (max_retries : nat) :
  let '(r, n, delays) := retry_with_backoff call jitter base max_retries in
  (n <= max_retries)%nat ∧ length delays = pred n ∧
  (∀ i, (S i < n)%nat → retried (call i)) ∧
  match r with
  | Ok a => (0 < n)%nat ∧ call (pred n) = Ok a
  | Err (Raised e) => (0 < n)%nat ∧ call (pred n) = Err e ∧ (fatal e ∨ n = max_retries)
  | Err RaiseNone => max_retries = 0%nat
  end.
Proof.
  pose proof (retry_loop_post call jitter base 0 max_retries None) as H.
  unfold retry_with_backoff. destruct (retry_loop call jitter base 0 max_retries None) as [[r n] ds] eqn:E.
  destruct H as (Hb & Hi & Hpost). split; [lia|].
  assert (∀ i, (S i < n)%nat → retried (call i)) as Hi' by (intros; apply Hi; lia).
  destruct r as [a|[e|]].
  - destruct Hpost as (? & ? & Hd). split; [lia|]. auto.
  - destruct Hpost as [(? & ? & Hd & Hf)|(_ & _ & [=] & _)]. split; [lia|]. auto.
  - destruct Hpost as (-> & -> & _). simpl in E. injection E as <-. done.
Qed.

(** ** Failover *)

Section Failover.
Context (entries : dict string Capability.ModelCapability).
Context (tasks : dict string TaskConfig).
Context (store : dict TaskType (list string)) (classifier : TaskClassifier).
Context (pm : ProviderManager).
Context (plugins : list (Plugin ChatRequest ChatResponse string HookArgs)).
Context (answer : nat → string → ChatRequest → nat → result CallExn ChatResponse).
Context (timing : nat → Timing) (jitter : nat → nat → float).
Context (estimate_tokens : string → string → string → Z).
Context (now r_ab r_pick : float) (r_choice : nat).

Abbreviation try_provider' := (try_provider pm plugins answer timing jitter).
Abbreviation try_loop' := (try_loop pm plugins answer timing jitter).
Abbreviation chat' := (chat entries tasks store classifier pm plugins answer timing jitter
  estimate_tokens now r_ab r_pick r_choice).

(** A response comes from one of at most three calls of the loaded provider,
    made with the chosen model. *)
Definition answered (idx : nat) (provider model : string) (response : ChatResponse) : Prop :=
  ∃ p request k, pm_get pm provider = Some p ∧ req_model request = model ∧ (k < 3)%nat ∧
    answer idx (p_name p) request k = Ok response.

Lemma try_provider_answered idx provider model request st response request' st' :
  try_provider' idx provider model request st = (Some response, request', st') →
  answered idx provider model response.
Proof.
  unfold try_provider. destruct (pm_get pm provider) as [p|] eqn:Ep; [|done].
  destruct (should_cancel _); [done|].
  set (sent := with_model _ _). set (req' := match modified_request _ with Some _ => _ | None => _ end).
  pose proof (retry_correct (answer idx (p_name p) sent) (jitter idx) (zf 1) 3) as H.
  destruct (retry_with_backoff _ _ _ _) as [[[a|e] n] ds]; [|done].
  intros [= -> _ _]. destruct H as (Hn & _ & _ & H0 & Hc).
  exists p, sent, (pred n). repeat split; try done. lia.
Qed.

(** The list of the providers tried is a prefix of the plan, and only the last
    one, if any, gave a response. *)
Lemma try_loop_spec task idx providers request st errors r st' tried :
  try_loop' task idx providers request st errors = (r, st', tried) →
  (∃ rest, providers = ((λ t, t.1) <$> tried) ++ rest)%list ∧
  (∀ i p m resp, tried !! i = Some (p, m, Some resp) → answered (idx + i) p m resp) ∧
  match r with
  | Err (AllProvidersFailed t errs) =>
      (t = task ∧ errs = errors ++ providers ∧ (λ t, t.1) <$> tried = providers ∧
       Forall (λ t, t.2 = None) tried)%list
  | _ => ∃ before p m resp st1 req,
      tried = (before ++ [(p, m, Some resp)])%list ∧ Forall (λ t, t.2 = None) before ∧
      (r, st') = deliver plugins p m req resp st1
  end.
Proof.
  revert idx request st errors r st' tried.
  induction providers as [|[p m] rest IH]; intros idx request st errors r st' tried H;
    cbn [try_loop] in H.
  { injection H as <- <- <-. split; [by exists []|]. split; [done|].
    by rewrite app_nil_r. }
  destruct (try_provider' idx p m request st) as [[resp request'] st1] eqn:Et.
  destruct resp as [resp|].
  - destruct (deliver _ p m request' resp st1) as [r0 st0] eqn:Ed. injection H as <- <- <-.
    split; [by exists rest|]. split.
    { intros [|i] ? ? ? Hl; [|done]. injection Hl as <- <- <-. rewrite Nat.add_0_r.
      by eapply try_provider_answered. }
    assert (∀ t e, r0 ≠ Err (AllProvidersFailed t e)) as Hno.
    { intros t e ->. unfold deliver in Ed. repeat case_match; simplify_eq. }
    destruct r0 as [|[]]; try (by destruct (Hno _ _ eq_refl));
      exists [], p, m, resp, st1, request'; by rewrite Ed.
  - destruct (try_loop' task (S idx) rest request' (emit (FallbackTriggered p) st1)
      (errors ++ [(p, m)])%list) as [[r0 st0] tried0] eqn:El.
    injection H as <- <- <-. specialize (IH _ _ _ _ _ _ _ El) as ((rest0 & Hrest) & Hans & Hr).
    split; [exists rest0; simpl; by rewrite Hrest at 1|]. split.
    { intros [|i] ? ? ? Hl; [done|]. replace (idx + S i)%nat with (S idx + i)%nat by lia.
      by apply Hans. }
    destruct r0 as [|[]];
      try (destruct Hr as (before & p' & m' & resp' & st2 & req & -> & Hb & Hd);
           exists ((p, m, None) :: before), p', m', resp', st2, req;
           split; [done|split; [by constructor|done]]).
    destruct Hr as (-> & -> & Hl & Hf). split; [done|]. split; [by rewrite <- app_assoc|].
    split; [csimpl; by rewrite Hl|by constructor].
Qed.

(** ** The plan *)

Lemma providers_to_try_cover sel ranked c : c ∈ ranked → c ∈ providers_to_try sel ranked.
Proof.
  intros Hc. unfold providers_to_try. destruct sel as [s|]; [|done].
  destruct (decide (c = (sel_provider s, sel_model s))) as [->|Hne]; [left|right].
  apply list_elem_of_In, filter_In. split; [by apply list_elem_of_In|].
  by rewrite bool_decide_false.
Qed.

Lemma plan_covers task required request st c :
  c ∈ available_candidates tasks pm task →
  c ∈ (plan entries tasks pm estimate_tokens now r_ab r_pick r_choice task required request st).1.
Proof.
  intros Hc. unfold plan, router_rank.
  destruct (match available_candidates tasks pm task with c0 :: _ => c0 | [] => _ end) as [ph mh].
  pose proof (rank_correct entries (rs_mode st) now now (rs_metrics st) pm) as Hrank.
  match goal with |- context [rank_providers _ _ _ _ _ _ ?ctx ?cs ?lb] =>
    destruct (Hrank ctx cs lb) as [Hp _]; destruct (rank_providers _ _ _ _ _ _ ctx cs lb) as [ranked lb']
  end.
  simpl in Hp. destruct (select _ _ _ _ _ _) as [sel td]; simpl.
  apply providers_to_try_cover. by rewrite Hp.
Qed.

(** [chat] either stops before it calls a provider (a plugin cancels, or no
    provider is configured for the task), or it tries the providers of its
    plan in order until one answers.  When one answered, it is the last one
    tried (within three calls, with the model of the plan), every one before
    gave nothing, and the request fails on the assignment of the metadata.  If
    it reports that all failed, every available candidate was tried and none
    answered, and the error names each provider tried, in order. *)
Theorem chat_failover (request : ChatRequest) (st : RouterState) :
  let '(r, st', tried) := chat' request st in
  (∀ i p m resp, tried !! i = Some (p, m, Some resp) → answered i p m resp) ∧
  match r with
  | Ok _ => False
  | Err AttributeRejected =>
      ∃ before p m resp, tried = (before ++ [(p, m, Some resp)])%list ∧
        Forall (λ t, t.2 = None) before ∧ answered (length before) p m resp
  | Err (AllProvidersFailed task errors) =>
      errors = ((λ t, t.1) <$> tried) ∧ Forall (λ t, t.2 = None) tried ∧
      (∀ c, c ∈ available_candidates tasks pm task → c ∈ errors)
  | Err (NoHealthyProvider task) => available_candidates tasks pm task = [] ∧ tried = []
  | Err (CancelledByPlugin _) => True
  end.
Proof.
  unfold chat. set (task := task_value _).
  assert (∀ i p m resp, ([] : list (string * string * option ChatResponse)) !! i = Some (p, m, Some resp) →
    answered i p m resp) as Hnil by done.
  destruct (should_cancel _); [done|]. destruct (should_cancel _); [done|].
  set (req := default _ _). set (st0 := mk_rs _ _ _ _ _ _ _). set (caps := _ ∪ _).
  pose proof (plan_covers task caps req st0) as Hcov.
  destruct (available_candidates tasks pm task) as [|c0 cs] eqn:Eav; [done|]. rewrite <- Eav in *.
  destruct (plan _ _ _ _ _ _ _ _ task caps req st0) as [providers st1]. simpl in Hcov.
  destruct (should_cancel _); [done|].
  destruct (try_loop' task 0 providers req st1 []) as [[r st'] tried] eqn:El.
  destruct (try_loop_spec _ _ _ _ _ _ _ _ _ El) as (_ & Hans & Hr). split; [exact Hans|].
  destruct r as [resp|[]].
  - destruct Hr as (before & p & m & resp' & st2 & rq & _ & _ & Hd). done.
  - done.
  - destruct Hr as (before & p & m & resp' & st2 & rq & _ & _ & Hd).
    exfalso. unfold deliver in Hd. repeat case_match; simplify_eq.
  - destruct Hr as (-> & -> & Hl & Hf). split; [by rewrite Hl|]. split; [exact Hf|exact Hcov].
  - destruct Hr as (before & p & m & resp' & st2 & rq & -> & Hb & _).
    exists before, p, m, resp'. split; [done|]. split; [done|].
    apply (Hans (length before)). by rewrite lookup_app_r, Nat.sub_diag by lia.
Qed.

(** ** The metadata assignment

    [ChatResponse] ([src/app/models.py]) is a pydantic model that declares no
    field [metadata] and does not allow extra fields; pydantic raises
    [ValueError] on the assignment of such an attribute. *)

Lemma deliver_rejected p m req resp st :
  deliver plugins p m req resp st = (Err AttributeRejected, st).
Proof. reflexivity. Qed.

Lemma try_loop_rejected task idx providers request st errors r st' tried :
  try_loop' task idx providers request st errors = (r, st', tried) →
  (∀ resp, r ≠ Ok resp) ∧ (∀ p m resp, (p, m, Some resp) ∈ tried → r = Err AttributeRejected).
Proof.
  intros H. destruct (try_loop_spec _ _ _ _ _ _ _ _ _ H) as (_ & _ & Hr).
  destruct r as [resp|[]];
    try (destruct Hr as (before & p & m & resp' & st2 & rq & -> & Hb & Hd);
         rewrite deliver_rejected in Hd; by simplify_eq).
  destruct Hr as (_ & _ & _ & Hf). split; [done|]. intros p m resp Hin.
  eapply Forall_forall in Hf; [|exact Hin]. done.
Qed.

(** [chat] never returns a response: whenever a provider answers, the request fails after the
    provider has been paid for, with the error of the assignment. *)
Theorem chat_rejected (request : ChatRequest) (st : RouterState) :
  let '(r, st', tried) := chat' request st in
  (∀ resp, r ≠ Ok resp) ∧
  (∀ p m resp, (p, m, Some resp) ∈ tried → r = Err AttributeRejected).
Proof.
  unfold chat. set (task := task_value _).
  assert (∀ e : ChatError, (∀ resp : ChatResponse, Err e ≠ Ok resp) ∧
    (∀ (p m : string) (resp : ChatResponse), (p, m, Some resp) ∈ ([] : list (string * string * option ChatResponse))
      → (Err e : result ChatError ChatResponse) = Err AttributeRejected)) as Hnil.
  { intros e. split; [done|]. intros ? ? ? Hin. by apply elem_of_nil in Hin. }
  destruct (should_cancel _); [apply Hnil|]. destruct (should_cancel _); [apply Hnil|].
  destruct (available_candidates tasks pm task) as [|c0 cs]; [apply Hnil|].
  destruct (plan _ _ _ _ _ _ _ _ _ _ _ _) as [providers st1].
  destruct (should_cancel _); [apply Hnil|].
  match goal with |- context [try_loop' ?t ?i ?ps ?rq ?s ?es] =>
    destruct (try_loop' t i ps rq s es) as [[r st'] tried] eqn:El end.
  by eapply try_loop_rejected.
Qed.

(** ** Persistence *)

(** Every metric and every stored record carries the empty name. *)
Definition unnamed (st : RouterState) : Prop :=
  Forall (λ kv : string * ProviderMetrics, m_name kv.2 = "") (rs_metrics st) ∧
  ∀ d, rs_storage st = Some d → Forall (λ kv : string * ProviderStats, s_name kv.2 = "") d.

Lemma unnamed_metric st k m :
  unnamed st → m_name m = "" → unnamed (with_metrics (dict_set k m (rs_metrics st)) st).
Proof. intros [Hm Hs] Hn. split; [|done]. simpl. by apply dict_set_Forall. Qed.

Lemma unnamed_emit e st : unnamed st → unnamed (emit e st).
Proof. done. Qed.

Lemma unnamed_default st k now' :
  unnamed st → m_name (default (metrics_init "" now') (dict_get k (rs_metrics st))) = "".
Proof.
  intros [Hm _]. destruct (dict_get k (rs_metrics st)) as [m|] eqn:E; [|done].
  apply dict_get_elem_of in E. rewrite Forall_forall in Hm. exact (Hm _ E).
Qed.

Lemma unnamed_save st s : unnamed st → s_name s = "" → unnamed (save_one s st).
Proof.
  intros [Hm Hs] Hn. split; [done|]. simpl. intros d Hd.
  destruct (rs_storage st) as [d0|] eqn:E; [|done]. injection Hd as <-.
  apply dict_set_Forall; [by apply Hs|done].
Qed.

Lemma try_provider_unnamed idx provider model request st :
  unnamed st → unnamed (try_provider' idx provider model request st).2.
Proof.
  intros Hst. unfold try_provider. destruct (pm_get pm provider) as [p|]; [|done].
  pose proof (unnamed_default st provider (tm_created (timing idx)) Hst) as Hn.
  set (m := default _ _) in *. clearbody m.
  pose proof (unnamed_metric st provider m Hst Hn) as Hst1.
  destruct (should_cancel _); [done|].
  destruct (retry_with_backoff _ _ _ _) as [[[a|e] n] ds]; simpl.
  - apply unnamed_save; [|done].
    by apply (unnamed_metric (emit _ (with_metrics _ st)) provider).
  - by apply (unnamed_metric (emit _ (with_metrics _ st)) provider).
Qed.

Lemma deliver_unnamed p m req resp st :
  unnamed st → unnamed (deliver plugins p m req resp st).2.
Proof. intros Hst. unfold deliver. repeat case_match; done. Qed.

Lemma try_loop_unnamed task idx providers request st errors :
  unnamed st → unnamed (try_loop' task idx providers request st errors).1.2.
Proof.
  revert idx request st errors. induction providers as [|[p m] rest IH];
    intros idx request st errors Hst; cbn [try_loop]; [done|].
  pose proof (try_provider_unnamed idx p m request st Hst) as Hst1.
  destruct (try_provider' idx p m request st) as [[[resp|] request'] st1]; simpl in Hst1.
  - pose proof (deliver_unnamed p m request' resp st1 Hst1) as Hd.
    by destruct (deliver _ p m request' resp st1).
  - specialize (IH (S idx) request' (emit (FallbackTriggered p) st1) (errors ++ [(p, m)])%list Hst1).
    by destruct (try_loop' task (S idx) rest request' _ _) as [[r st2] tried].
Qed.

Lemma plan_unnamed task required request st :
  unnamed st →
  unnamed (plan entries tasks pm estimate_tokens now r_ab r_pick r_choice task required request st).2.
Proof.
  intros Hst. unfold plan. destruct (router_rank _ _ _ _ _ _ _ _ _ _) as [ranked lb].
  by destruct (select _ _ _ _ _ _) as [sel td].
Qed.

Lemma chat_unnamed request st : unnamed st → unnamed (chat' request st).1.2.
Proof.
  intros Hst. unfold chat. destruct (should_cancel _); [done|]. destruct (should_cancel _); [done|].
  destruct (available_candidates _ _ _); [done|].
  match goal with |- context [plan _ _ _ _ _ _ _ _ ?t ?rq ?r ?s] =>
    pose proof (plan_unnamed t rq r s Hst) as Hp; destruct (plan _ _ _ _ _ _ _ _ t rq r s) end.
  simpl in Hp. destruct (should_cancel _); [done|]. by apply try_loop_unnamed.
Qed.
End Failover.

Lemma persist_unnamed now st : unnamed st → unnamed (persist_all_metrics now st).
Proof.
  intros [Hm Hs]. unfold persist_all_metrics. destruct (rs_storage st) as [d|] eqn:E;
    [|split; [done|by rewrite E]].
  split; [done|]. simpl. intros d' [= <-]. specialize (Hs d eq_refl).
  assert (Forall (λ m, m_name m = "") (dict_values (rs_metrics st))) as Hv.
  { unfold dict_values. by apply Forall_fmap. }
  clear E. revert d Hs. induction Hv as [|m l Hmn Hl IH]; intros d Hs; simpl; [done|].
  apply IH. by apply dict_set_Forall.
Qed.

(** The states of a router that started with empty metrics and an empty store
    and then served requests and persisted its metrics, in any environment. *)
Inductive served (traffic : TrafficDistribution) : RouterState → Prop :=
  | served_start : served traffic (mk_rs [] BALANCED Pricing.ta_init [] traffic (Some []) [])
  | served_chat st entries tasks store classifier pm plugins answer timing jitter estimate_tokens
      now r_ab r_pick r_choice request :
      served traffic st →
      served traffic
        (chat entries tasks store classifier pm plugins answer timing jitter estimate_tokens
           now r_ab r_pick r_choice request st).1.2
  | served_persist st now : served traffic st → served traffic (persist_all_metrics now st).

Lemma served_unnamed traffic st : served traffic st → unnamed st.
Proof.
  induction 1 as [|st entries tasks store classifier pm plugins answer timing jitter est
    now r_ab r_pick r_choice request _ IH|st now _ IH].
  - split; [constructor|]. simpl. intros d [= <-]. constructor.
  - by apply chat_unnamed.
  - by apply persist_unnamed.
Qed.

Lemma load_unnamed now (l : list ProviderStats) ms :
  Forall (λ s, s_name s = "") l →
  fold_left (λ ms s, if truthy (s_name s) then dict_set (s_name s) (from_storage now s) ms else ms) l ms
  = ms.
Proof. induction 1 as [|s l Hs Hl IH]; simpl; [done|]. by rewrite Hs. Qed.

(** The metrics the router keeps are created without a name
    ([defaultdict(ProviderMetrics)]), are all saved under the empty name, and
    records without a name are skipped on loading: whatever was served and
    persisted, a router that restarts on the same store loads no metrics. *)
Theorem metrics_not_persisted (traffic : TrafficDistribution) (st : RouterState) (now : float) :
  served traffic st →
  rs_metrics (load_persisted_metrics now
    (mk_rs [] BALANCED Pricing.ta_init [] traffic (rs_storage st) [])) = [].
Proof.
  intros [_ Hs]%served_unnamed. unfold load_persisted_metrics; simpl.
  destruct (rs_storage st) as [d|]; [|done]. simpl.
  apply load_unnamed. unfold dict_values. apply Forall_fmap. by apply Hs.
Qed.

(** ** A concrete run

    Two providers, [openai] answering 503 to every call and [groq] answering
    at its second call; no plugins. *)

Definition demo_pm : ProviderManager :=
  mk_pm [("openai", mk_provider "openai"); ("groq", mk_provider "groq")] [] ∅ [].

Definition demo_tasks : dict string TaskConfig :=
  [("chat", mk_task (mk_pconfig "openai" "gpt-4o" true) [mk_pconfig "groq" "llama" true])].

Definition demo_response : ChatResponse := mk_response "r1" "llama" (Some (mk_use 10 5 15 0 0)).

Definition demo_answer (idx : nat) (name : string) (r : ChatRequest) (k : nat)
    : result CallExn ChatResponse :=
  if bool_decide (name = "openai") then Err (EProvider ProviderUnavailable 503)
  else match k with O => Err ENetwork | _ => Ok demo_response end.

Definition demo_timing (idx : nat) : Timing := mk_timing (zf 900) (zf 120) (zf 1001) (zf 1001) (zf 1002).

Definition demo_request : ChatRequest :=
  mk_request "auto" [mk_msg "tell me a story" false] false (mk_meta "" [] None).

Definition demo_state : RouterState :=
  mk_rs [] BALANCED Pricing.ta_init [] (td_init demo_config) (Some []) [].

Definition demo_chat :=
  chat [] demo_tasks DEFAULT_RULES default_classifier demo_pm [] demo_answer demo_timing
    (λ _ _, fzero) (λ _ _ _, 4) (zf 1000) fzero (flit 999 1000) 0
    demo_request demo_state.

(** The provider has answered, and the request fails all the same. *)
Example demo_chat_answers :
  demo_chat.1.1 = Err AttributeRejected ∧
  demo_chat.2 = [("openai", "gpt-4o", None); ("groq", "llama", Some demo_response)].
Proof. split; vm_compute; reflexivity. Qed.

Lemma demo_served : served (td_init demo_config) demo_chat.1.2.
Proof.
  unfold demo_chat.
  refine (served_chat (td_init demo_config) demo_state _ _ _ _ _ _ _ _ _ _ _ _ _ _ _ _).
  exact (served_start _).
Qed.

Lemma metrics_not_persisted_witness :
  is_Some (dict_get "groq" (rs_metrics demo_chat.1.2)) ∧
  rs_metrics (load_persisted_metrics (zf 2000)
    (mk_rs [] BALANCED Pricing.ta_init [] (td_init demo_config)
       (rs_storage demo_chat.1.2) [])) = [].
Proof.
  split; [vm_compute; eexists; reflexivity|].
  exact (metrics_not_persisted (td_init demo_config) demo_chat.1.2 (zf 2000) demo_served).
Defined.

(** * Model router: streaming

    [AIRouter.stream_chat] and [AIRouter.embeddings] of [src/app/router.py].
    The generator forwards the chunks of a provider as they arrive; when the
    provider fails it moves on to the next one.  [stream idx name request] is
    what the [idx]-th provider tried sends: the chunks, and the exception that
    ends the stream, if any; the exception may be the cancellation of the
    client's task, which is recorded as a failure and passed on.

    [stream_concatenates] shows what the client receives: the chunks of every
    provider tried, one after the other. *)

Open Scope string_scope.
Open Scope Z_scope.

Record StreamChunk := mk_chunk { ch_id : string; ch_usage : option Usage }.

(** What interrupts a stream: an exception of the provider, or
    [asyncio.CancelledError]. *)
Inductive Interruption := Failure (e : CallExn) | TaskCancelled.

(** How the generator ends: normally, silently because a plugin cancelled the
    provider, by cancellation of the task, or with an exception. *)
Inductive StreamEnd :=
  StreamDone | StreamCancelled | StreamAborted | StreamRaised (e : ChatError).

Section Stream.
Context (entries : dict string Capability.ModelCapability).
Context (tasks : dict string TaskConfig).
Context (store : dict TaskType (list string)) (classifier : TaskClassifier).
Context (pm : ProviderManager).
Context (plugins : list (Plugin ChatRequest ChatResponse string HookArgs)).
Context (stream : nat → string → ChatRequest → list StreamChunk * option Interruption).
Context (timing : nat → Timing) (first_token : nat → float).
Context (estimate_tokens : string → string → string → Z).
Context (now r_ab r_pick : float) (r_choice : nat).

(** The usage of the last chunk that carries one. *)
Definition final_usage (chunks : list StreamChunk) : Usage :=
  default usage_zero
    (fold_left (λ acc c, match ch_usage c with Some u => Some u | None => acc end) chunks None).

Definition stream_bench (idx : nat) (provider model : string) (ftl : float) (tokens : Z)
    (success timeout : bool) (st : RouterState) : RouterState :=
  mk_rs (rs_metrics st) (rs_mode st) (rs_accounting st)
    (lb_record provider
       (mk_record (tm_benched (timing idx)) (tm_latency_ms (timing idx)) ftl tokens success timeout
          model) (rs_benchmark st))
    (rs_traffic st) (rs_storage st) (rs_events st).

Definition stream_success (idx : nat) (provider model : string) (chunks : list StreamChunk)
    (m : ProviderMetrics) (st : RouterState) : RouterState :=
  let t := timing idx in
  let u := final_usage chunks in
  let cost := Pricing.estimate_cost provider model (us_prompt u) (us_completion u) (us_cache u) in
  let m' := record_success (tm_recorded t) (tm_latency_ms t) cost (us_prompt u) (us_completion u) m in
  let ftl := match chunks with [] => fzero | _ => first_token idx end in
  save_one (to_storage (tm_saved t) m')
    (emit (RequestFinished (Some (provider, model)))
       (stream_bench idx provider model ftl (us_total u) true false
          (account provider model u (with_metrics (dict_set provider m' (rs_metrics st)) st)))).

(** The records both exception handlers make. *)
Definition stream_recorded (idx : nat) (provider model : string) (timeout : bool)
    (m : ProviderMetrics) (st : RouterState) : RouterState :=
  let t := timing idx in
  let m' := record_failure (tm_recorded t) (tm_latency_ms t) m in
  stream_bench idx provider model fzero 0 false timeout
    (with_metrics (dict_set provider m' (rs_metrics st)) st).

Definition stream_failure (idx : nat) (provider model : string) (e : CallExn) (m : ProviderMetrics)
    (st : RouterState) : RouterState :=
  let is_timeout :=
    match e with EAsyncTimeout | EProvider ProviderTimeout _ => true | _ => false end in
  emit (FallbackTriggered provider) (stream_recorded idx provider model is_timeout m st).

(** The loop: the chunks yielded, the end, the state, and the providers whose
    stream was opened with what each sent. *)
Fixpoint stream_loop (task : string) (idx : nat) (providers : list (string * string))
    (request : ChatRequest) (st : RouterState) (errors : list (string * string))
    : list StreamChunk * StreamEnd * RouterState * list (string * string * list StreamChunk) :=
  match providers with
  | [] => ([], StreamRaised (AllProvidersFailed task errors), emit (RequestFinished None) st, [])
  | (provider, model) :: rest =>
      match pm_get pm provider with
      | None => stream_loop task (S idx) rest request st (errors ++ [(provider, model)])%list
      | Some p =>
          let m := default (metrics_init "" (tm_created (timing idx)))
                     (dict_get provider (rs_metrics st)) in
          let st1 := with_metrics (dict_set provider m (rs_metrics st)) st in
          let request1 := with_model model request in
          let hook := hooks plugins (BeforeProvider provider model) request1 in
          if should_cancel hook then ([], StreamCancelled, st1, [])
          else
            let request2 := default request1 (modified_request hook) in
            let '(chunks, failure) := stream idx (p_name p) request2 in
            match failure with
            | None =>
                (chunks, StreamDone, stream_success idx provider model chunks m st1,
                 [(provider, model, chunks)])
            | Some TaskCancelled =>
                (chunks, StreamAborted, stream_recorded idx provider model false m st1,
                 [(provider, model, chunks)])
            | Some (Failure e) =>
                let '(more, fin, st2, streams) :=
                  stream_loop task (S idx) rest request2 (stream_failure idx provider model e m st1)
                    (errors ++ [(provider, model)])%list in
                ((chunks ++ more)%list, fin, st2, (provider, model, chunks) :: streams)
            end
      end
  end.

(** [stream_chat] *)
Definition stream_chat (request : ChatRequest) (st : RouterState)
    : list StreamChunk * StreamEnd * RouterState * list (string * string * list StreamChunk) :=
  let prompt := match List.rev (req_messages request) with m :: _ => msg_content m | [] => "" end in
  let task := task_value (classify store classifier prompt) in
  let st := emit (RequestStarted task) st in
  let mode := get_optimization_mode request in
  let st := mk_rs (rs_metrics st) mode (rs_accounting st) (rs_benchmark st) (rs_traffic st)
              (rs_storage st) (rs_events st) in
  let required :=
    detect_required_capabilities request
    ∪ list_to_set (md_required_capabilities (req_metadata request)) in
  let hook := hooks plugins BeforeRequest request in
  if should_cancel hook then ([], StreamRaised (CancelledByPlugin (cancel_reason hook)), st, [])
  else
    let request := default request (modified_request hook) in
    let hook := hooks plugins BeforeRoute request in
    if should_cancel hook then ([], StreamRaised (CancelledByPlugin (cancel_reason hook)), st, [])
    else
      let request := default request (modified_request hook) in
      match available_candidates tasks pm task with
      | [] => ([], StreamRaised (NoHealthyProvider task), st, [])
      | _ =>
          let '(providers, st) :=
            plan entries tasks pm estimate_tokens now r_ab r_pick r_choice task required request st in
          let hook := hooks plugins (AfterRoute providers) request in
          if should_cancel hook
          then ([], StreamRaised (CancelledByPlugin (cancel_reason hook)), st, [])
          else stream_loop task 0 providers request st []
      end.

(** What the client sees. *)
Definition stream_post (out : list StreamChunk * StreamEnd * RouterState
    * list (string * string * list StreamChunk)) : Prop :=
  let '(chunks, fin, _, streams) := out in
  chunks = List.concat ((λ o, o.2) <$> streams) ∧
  (fin = StreamDone → streams ≠ []) ∧
  (∀ o, o ∈ streams → is_Some (pm_get pm o.1.1)).

Lemma stream_loop_post task idx providers request st errors :
  stream_post (stream_loop task idx providers request st errors).
Proof.
  revert idx request st errors. induction providers as [|[p m] rest IH];
    intros idx request st errors; cbn [stream_loop].
  { split; [done|]. split; [done|]. intros o Ho. by apply elem_of_nil in Ho. }
  destruct (pm_get pm p) as [pr|] eqn:Ep; [|apply IH].
  destruct (should_cancel _).
  { split; [done|]. split; [done|]. intros o Ho. by apply elem_of_nil in Ho. }
  destruct (stream idx (p_name pr) _) as [chunks [[e|]|]].
  - match goal with |- context [stream_loop task ?i rest ?rq ?s ?es] =>
      specialize (IH i rq s es); destruct (stream_loop task i rest rq s es) as [[[more fin] st2] streams]
    end.
    destruct IH as (-> & Hf & Ho). split; [done|]. split; [done|].
    intros o [->|Hin]%elem_of_cons; [exists pr; exact Ep|by apply Ho].
  - split; [simpl; by rewrite app_nil_r|]. split; [done|].
    intros o ->%list_elem_of_singleton. exists pr. exact Ep.
  - split; [simpl; by rewrite app_nil_r|]. split; [done|].
    intros o ->%list_elem_of_singleton. exists pr. exact Ep.
Qed.

(** A client of the streaming endpoint receives the concatenation of what the
    providers tried have sent: if the first provider fails after some chunks,
    these are delivered and followed by the complete answer of the next
    provider.  A stream that ends normally comes from at least one provider,
    and only loaded providers are opened. *)
Theorem stream_concatenates (request : ChatRequest) (st : RouterState) :
  stream_post (stream_chat request st).
Proof.
  assert (∀ e s, stream_post ([], StreamRaised e, s, [])) as Hnil.
  { intros e s. split; [done|]. split; [done|]. intros o Ho. by apply elem_of_nil in Ho. }
  unfold stream_chat. destruct (should_cancel _); [apply Hnil|].
  destruct (should_cancel _); [apply Hnil|]. destruct (available_candidates _ _ _); [apply Hnil|].
  destruct (plan _ _ _ _ _ _ _ _ _ _ _ _) as [providers st1].
  destruct (should_cancel _); [apply Hnil|]. apply stream_loop_post.
Qed.

End Stream.

(** ** Embeddings *)

(** [embeddings]: the configured providers of the chat task in order, the
    first that answers; every exception moves on to the next. *)
Fixpoint embed_loop {A} (pm : ProviderManager) (embed : nat → string → string → result CallExn A)
    (idx : nat) (candidates : list (string * string)) : option A :=
  match candidates with
  | [] => None
  | (provider, model) :: rest =>
      match pm_get pm provider with
      | None => embed_loop pm embed (S idx) rest
      | Some p =>
          match embed idx (p_name p) model with
          | Ok a => Some a
          | Err _ => embed_loop pm embed (S idx) rest
          end
      end
  end.

Definition embeddings {A} (tasks : dict string TaskConfig) (pm : ProviderManager)
    (embed : nat → string → string → result CallExn A) : option A :=
  embed_loop pm embed 0 (get_provider_configs tasks "chat").
