(* ===== verification/AuthSessions.v ===== *)
(** * Authentication: sessions

    [SessionManager] of [src/app/auth/sessions.py].  Readings of the clock and
    generated ids are arguments.

    The lemmas follow any sequence of operations: the number of active sessions
    of a user stays within the limit ([session_run_ok]) and a revoked session
    stays revoked ([session_run_dead]). *)

From Stdlib Require Import ZArith Lia.
From stdpp Require Import base numbers strings gmap list.
From S2P Require Import Prelude PyFloat PyNum PyStr PyDict AuthModel PyMath.

Module AuthSessions.
Import AuthModel.
Open Scope string_scope.
Open Scope Z_scope.

(** ** Changes of one session *)

Definition with_revoked (s : Session) : Session :=
  mk_session (s_id s) (s_user s) (s_tenant s) (s_device s) (s_created_at s) (s_last_active s)
    (s_expires_at s) (s_refresh_jti s) true.

Definition with_last_active (now : float) (s : Session) : Session :=
  mk_session (s_id s) (s_user s) (s_tenant s) (s_device s) (s_created_at s) now
    (s_expires_at s) (s_refresh_jti s) (s_revoked s).

Definition with_expires_at (t : float) (s : Session) : Session :=
  mk_session (s_id s) (s_user s) (s_tenant s) (s_device s) (s_created_at s) (s_last_active s)
    t (s_refresh_jti s) (s_revoked s).

Definition with_refresh_jti (j : string) (s : Session) : Session :=
  mk_session (s_id s) (s_user s) (s_tenant s) (s_device s) (s_created_at s) (s_last_active s)
    (s_expires_at s) j (s_revoked s).

(** The fresh object that replaces an evicted session. *)
Definition evicted_copy (uid : string) (s : Session) : Session :=
  mk_session (s_id s) uid (s_tenant s) (s_device s) (s_created_at s) (s_last_active s)
    (s_expires_at s) (s_refresh_jti s) true.

(** ** Operations *)

Definition evict (uid : string) (l : list Session) (r : SessionRepo) : SessionRepo :=
  foldl (λ r s, sr_update (evicted_copy uid s) r) r l.

Section Manager.
Context (cfg : AuthConfig).

(** The sessions that must go for one more to fit, oldest first. *)
Definition to_evict (uid : string) (r : SessionRepo) : list Session :=
  let active := sr_count_active uid r in
  take (Z.to_nat (active - max_concurrent_sessions cfg + 1))
    (py_sorted (λ a b, flt (s_created_at a) (s_created_at b)) (sr_list_for_user uid r)).

Definition make_room (uid : string) : SE AuthExn SessionRepo unit := λ r,
  if max_concurrent_sessions cfg <=? sr_count_active uid r then
    if evict_oldest_on_limit cfg then (Ok tt, evict uid (to_evict uid r) r)
    else (Err (SessionLimitError "Session limit reached"), r)
  else (Ok tt, r).

Definition session_create (now : float) (sid uid tid device jti : string)
    : SE AuthExn SessionRepo Session :=
  make_room uid ;;
  let s := mk_session sid uid tid device now now
             (fadd now (zf (session_absolute_timeout cfg))) jti false in
  se_modify (sr_create s) ;;
  mret s.

Definition session_get (sid : string) : SE AuthExn SessionRepo Session := λ r,
  match sr_get sid r with
  | Some s => (Ok s, r)
  | None => (Err (SessionExpiredError "Session not found"), r)
  end.

(** The idle limit is tested here only, and neither the revocation nor the
    absolute limit is. *)
Definition session_touch (now : float) (sid : string) : SE AuthExn SessionRepo Session :=
  s ← session_get sid;
  if negb (is_fzero (s_last_active s))
     && flt (zf (session_idle_timeout cfg)) (fsub now (s_last_active s)) then
    se_modify (sr_update (with_revoked (with_expires_at now s))) ;;
    se_raise (SessionExpiredError "Session idle timeout exceeded")
  else
    se_modify (sr_update (with_last_active now s)) ;;
    mret (with_last_active now s).

Definition session_validate (now : float) (sid : string) : SE AuthExn SessionRepo Session :=
  s ← session_get sid;
  if s_revoked s then se_raise (SessionExpiredError "Session revoked")
  else if past_limit now (s_expires_at s) then
    se_modify (sr_update (with_revoked s)) ;;
    se_raise (SessionExpiredError "Session expired")
  else mret s.

Definition session_revoke (sid : string) : SE AuthExn SessionRepo bool :=
  s ← session_get sid;
  se_modify (sr_update (with_revoked s)) ;;
  mret true.

Definition session_revoke_all (uid : string) (r : SessionRepo) : Z * SessionRepo :=
  let l := sr_list_for_user uid r in
  (zlen l, foldl (λ r s, sr_update (with_revoked s) r) r l).

Definition session_list (uid : option string) (r : SessionRepo) : list Session :=
  match uid with Some uid => sr_list_for_user uid r | None => sr_list_all r end.

(** ** Any sequence of operations *)

Inductive SessionOp :=
  | SCreate (now : float) (sid uid tid device jti : string)
  | STouch (now : float) (sid : string)
  | SValidate (now : float) (sid : string)
  | SRevoke (sid : string)
  | SRevokeAll (uid : string)
  | SSetJti (sid jti : string).

Definition session_step (r : SessionRepo) (op : SessionOp) : SessionRepo :=
  match op with
  | SCreate now sid uid tid device jti => (session_create now sid uid tid device jti r).2
  | STouch now sid => (session_touch now sid r).2
  | SValidate now sid => (session_validate now sid r).2
  | SRevoke sid => (session_revoke sid r).2
  | SRevokeAll uid => (session_revoke_all uid r).2
  | SSetJti sid jti =>
      match sr_get sid r with Some s => sr_update (with_refresh_jti jti s) r | None => r end
  end.

Definition session_run (ops : list SessionOp) (r : SessionRepo) : SessionRepo :=
  foldl session_step r ops.

(** ** Counting active sessions *)

Definition act (uid : string) (r : SessionRepo) : nat :=
  length (List.filter (active_for uid) (dict_values r)).

Definition act1 (uid : string) (s : option Session) : nat :=
  match s with Some s => if active_for uid s then 1 else 0 | None => 0 end%nat.

Lemma act_set uid k s r :
  (act uid (dict_set k s r) + act1 uid (dict_get k r) = act uid r + act1 uid (Some s))%nat.
Proof.
  unfold act, dict_values. induction r as [|[k' s'] r IH].
  { simpl. destruct (active_for uid s); simpl; lia. }
  cbn [dict_set dict_get]. case_decide; csimpl.
  - destruct (active_for uid s'), (active_for uid s); simpl; lia.
  - destruct (active_for uid s'); simpl in *; lia.
Qed.

Abbreviation keyed_sessions := (keyed s_id).

Lemma sr_update_keyed s r : keyed_sessions r → keyed_sessions (sr_update s r).
Proof. unfold sr_update. destruct (dict_mem _ _); eauto with pydb. Qed.

Lemma sr_create_keyed s r : keyed_sessions r → keyed_sessions (sr_create s r).
Proof. apply keyed_set. Qed.

(** Writing back a session that is at most as active as the stored one. *)
Lemma act_update uid s0 s r :
  dict_get (s_id s) r = Some s0 → (act1 uid (Some s) <= act1 uid (Some s0))%nat →
  (act uid (sr_update s r) <= act uid r)%nat.
Proof.
  intros Hg Hle. unfold sr_update, dict_mem. rewrite Hg.
  pose proof (act_set uid (s_id s) s r) as H. rewrite Hg in H. lia.
Qed.

Lemma act1_revoked uid s : s_revoked s = true → act1 uid (Some s) = 0%nat.
Proof. unfold act1, active_for. intros ->. by rewrite andb_false_r. Qed.

(** ** Eviction *)

Lemma evict_cons uid s l r : evict uid (s :: l) r = evict uid l (sr_update (evicted_copy uid s) r).
Proof. done. Qed.

Lemma evict_keyed uid l r : keyed_sessions r → keyed_sessions (evict uid l r).
Proof.
  revert r. induction l as [|s l IH]; intros r Hk; [done|].
  rewrite evict_cons. by apply IH, sr_update_keyed.
Qed.

Lemma evict_act uid uid' l r :
  NoDup (s_id <$> l) → (∀ s, s ∈ l → dict_get (s_id s) r = Some s ∧ active_for uid s = true) →
  (act uid' (evict uid l r) + (if decide (uid = uid') then length l else 0) = act uid' r)%nat.
Proof.
  revert r. induction l as [|s l IH]; intros r Hnd Hin.
  { destruct (decide (uid = uid')); simpl; lia. }
  rewrite evict_cons. rewrite fmap_cons in Hnd. inversion Hnd as [|? ? Hs Hnd']; subst.
  destruct (Hin s) as [Hg Ha]; [set_solver|].
  set (r1 := sr_update (evicted_copy uid s) r).
  assert (r1 = dict_set (s_id s) (evicted_copy uid s) r) as Hr1.
  { unfold r1, sr_update, dict_mem. simpl. by rewrite Hg. }
  specialize (IH r1 Hnd'). rewrite Hr1 in *.
  pose proof (act_set uid' (s_id s) (evicted_copy uid s) r) as H.
  rewrite Hg, (act1_revoked uid' (evicted_copy uid s)) in H by done.
  unfold act1, active_for in H. unfold active_for in Ha.
  apply andb_prop in Ha as [Hu Hrev]. apply bool_decide_eq_true in Hu. rewrite Hrev, Hu, andb_true_r in H.
  assert (∀ s', s' ∈ l → dict_get (s_id s') (dict_set (s_id s) (evicted_copy uid s) r) = Some s'
                          ∧ active_for uid s' = true) as Hin'.
  { intros s' Hs'. rewrite dict_get_set_ne; [apply Hin; set_solver|].
    intros Heq. apply Hs. rewrite Heq. by apply list_elem_of_fmap_2. }
  specialize (IH Hin'). simpl.
  destruct (decide (uid = uid')) as [->|Hne].
  - rewrite bool_decide_eq_true_2 in H by done. lia.
  - rewrite bool_decide_eq_false_2 in H by done. lia.
Qed.

Lemma to_evict_sub uid r : ∃ rest, to_evict uid r ++ rest ≡ₚ sr_list_for_user uid r.
Proof.
  unfold to_evict. eexists (drop _ _). rewrite take_drop. apply py_sorted_perm.
Qed.

Lemma to_evict_ok uid r :
  keyed_sessions r →
  NoDup (s_id <$> to_evict uid r) ∧
  ∀ s, s ∈ to_evict uid r → dict_get (s_id s) r = Some s ∧ active_for uid s = true.
Proof.
  intros Hk. destruct (to_evict_sub uid r) as [rest Hp]. split.
  - assert (NoDup (s_id <$> sr_list_for_user uid r)) as Hnd.
    { unfold sr_list_for_user. destruct Hk as [Hw Hid].
      assert (s_id <$> dict_values r = r.*1) as Heq.
      { unfold dict_values. rewrite <- list_fmap_compose. apply list_fmap_ext.
        intros i x Hx. eapply Forall_lookup in Hid; [|exact Hx]. done. }
      unfold dict_wf in Hw. rewrite <- Heq in Hw. clear -Hw.
      induction (dict_values r) as [|s l IH]; simpl; [constructor|].
      rewrite fmap_cons in Hw. inversion Hw as [|?? Hn Hw']; subst.
      destruct (active_for uid s); [|by apply IH]. rewrite fmap_cons. constructor; [|by apply IH].
      intros (x & Hx & Hin)%list_elem_of_fmap. apply Hn. rewrite Hx. apply list_elem_of_fmap_2.
      apply list_elem_of_In in Hin. apply List.filter_In in Hin as [Hin _]. by apply list_elem_of_In. }
    rewrite <- Hp, fmap_app, NoDup_app in Hnd. by destruct Hnd as [? _].
  - intros s Hs. assert (s ∈ sr_list_for_user uid r) as Hin by (rewrite <- Hp; set_solver).
    unfold sr_list_for_user in Hin. apply list_elem_of_In, List.filter_In in Hin as [Hin Ha].
    split; [|done]. by apply keyed_value, list_elem_of_In.
Qed.

Lemma length_to_evict uid r :
  1 <= max_concurrent_sessions cfg → max_concurrent_sessions cfg <= sr_count_active uid r →
  Z.of_nat (length (to_evict uid r)) = sr_count_active uid r - max_concurrent_sessions cfg + 1.
Proof.
  intros H1 Hl. unfold to_evict. rewrite length_take, length_py_sorted.
  unfold sr_list_for_user, sr_count_active, zlen in *. lia.
Qed.

(** ** The bound *)

Definition sessions_ok (r : SessionRepo) : Prop :=
  keyed_sessions r ∧ ∀ uid, Z.of_nat (act uid r) <= max_concurrent_sessions cfg.

Lemma sr_count_act uid r : sr_count_active uid r = Z.of_nat (act uid r).
Proof. done. Qed.

Lemma make_room_ok uid r r' :
  1 <= max_concurrent_sessions cfg → sessions_ok r → make_room uid r = (Ok tt, r') →
  sessions_ok r' ∧ Z.of_nat (act uid r') < max_concurrent_sessions cfg.
Proof.
  intros H1 [Hk Hb] H. unfold make_room in H.
  destruct (_ <=? _) eqn:Hl; bool_to_prop.
  - destruct (evict_oldest_on_limit cfg); [|done]. injection H as <-.
    destruct (to_evict_ok uid r Hk) as [Hnd Hin].
    pose proof (length_to_evict uid r H1 Hl) as Hlen. rewrite sr_count_act in *.
    split; [split; [by apply evict_keyed|]|].
    + intros uid'. pose proof (evict_act uid uid' _ r Hnd Hin). specialize (Hb uid').
      destruct (decide (uid = uid')); lia.
    + pose proof (evict_act uid uid _ r Hnd Hin) as He. rewrite decide_True in He by done. lia.
  - injection H as <-. rewrite sr_count_act in Hl. by split.
Qed.

Lemma create_ok now sid uid tid device jti r :
  1 <= max_concurrent_sessions cfg → sessions_ok r →
  sessions_ok (session_create now sid uid tid device jti r).2.
Proof.
  intros H1 Hr. unfold session_create, mbind, SE_bind.
  destruct (make_room uid r) as [[[]|e] r'] eqn:E.
  - apply make_room_ok in E as [[Hk Hb] Hlt]; [|done..]. simpl. unfold sr_create. simpl.
    set (s := mk_session _ _ _ _ _ _ _ _ _). split; [by apply (keyed_set s_id s)|].
    intros uid'. pose proof (act_set uid' sid s r') as Ha. specialize (Hb uid').
    cut (act1 uid' (Some s) = if decide (uid = uid') then 1%nat else 0%nat).
    { destruct (decide (uid = uid')); subst; lia. }
    unfold act1, active_for, s. simpl. destruct (decide (uid = uid')) as [->|].
    + by rewrite bool_decide_eq_true_2.
    + by rewrite bool_decide_eq_false_2.
  - unfold make_room in E. split_ifs_in E; simplify_eq. done.
Qed.

(** Writing back a changed copy of a stored session of the same user. *)
Lemma write_back_ok s0 s r :
  sessions_ok r → dict_get (s_id s) r = Some s0 → s_user s = s_user s0 →
  (s_revoked s0 = true → s_revoked s = true) → sessions_ok (sr_update s r).
Proof.
  intros [Hk Hb] Hg Hu Hrev. split; [by apply sr_update_keyed|]. intros uid.
  specialize (Hb uid). enough (act uid (sr_update s r) <= act uid r)%nat by lia.
  apply (act_update uid s0); [done|]. unfold act1, active_for. rewrite Hu.
  destruct (s_revoked s0); [rewrite Hrev by done; lia|].
  destruct (bool_decide _), (s_revoked s); simpl; lia.
Qed.

Lemma session_get_Some sid r s r' :
  session_get sid r = (Ok s, r') → r' = r ∧ dict_get sid r = Some s.
Proof. unfold session_get, sr_get. destruct (dict_get sid r); naive_solver. Qed.

Ltac with_session Hr :=
  unfold mbind, SE_bind;
  match goal with |- context [session_get ?sid ?r] =>
    let E := fresh "E" in let s := fresh "s" in
    destruct (session_get sid r) as [[s|?] ?] eqn:E;
    [apply session_get_Some in E as [-> E]; pose proof (keyed_get s_id _ _ _ (proj1 Hr) E) as Hid
    |unfold session_get in E; split_ifs_in E; simplify_eq; exact Hr]
  end.

Lemma revoke_all_ok uid r : sessions_ok r → sessions_ok (session_revoke_all uid r).2.
Proof.
  intros Hr. simpl.
  assert (∀ s, s ∈ sr_list_for_user uid r → ∃ s0, dict_get (s_id s) r = Some s0 ∧ s_user s0 = s_user s) as Hin.
  { intros s Hs. exists s. split; [|done]. unfold sr_list_for_user in Hs.
    apply list_elem_of_In, List.filter_In in Hs as [Hs _].
    apply keyed_value; [apply Hr|by apply list_elem_of_In]. }
  revert Hin. generalize (sr_list_for_user uid r). intros l. revert r Hr.
  induction l as [|s l IH]; intros r Hr Hin; [done|]. simpl.
  destruct (Hin s) as (s0 & Hg & Hu); [set_solver|]. apply IH.
  - by apply (write_back_ok s0).
  - intros s' Hs'. unfold sr_update. destruct (dict_mem _ _); [|apply Hin; set_solver].
    simpl. rewrite dict_get_set. case_decide as Heq; [|apply Hin; set_solver].
    eexists. split; [done|]. simpl. destruct (Hin s') as (s1 & Hg1 & Hu1); [set_solver|].
    rewrite <- Heq in Hg1. congruence.
Qed.

Lemma session_step_ok op r :
  1 <= max_concurrent_sessions cfg → sessions_ok r → sessions_ok (session_step r op).
Proof.
  intros H1 Hr. destruct op as [now sid uid tid device jti|now sid|now sid|sid|uid|sid jti]; simpl.
  - by apply create_ok.
  - unfold session_touch. with_session Hr. destruct (_ && _); simpl.
    + apply (write_back_ok s); simpl; congruence.
    + apply (write_back_ok s); simpl; congruence.
  - unfold session_validate. with_session Hr. destruct (s_revoked s); [done|].
    destruct (past_limit _ _); simpl; [|done]. apply (write_back_ok s); simpl; congruence.
  - unfold session_revoke. with_session Hr. simpl. apply (write_back_ok s); simpl; congruence.
  - by apply revoke_all_ok.
  - unfold sr_get. destruct (dict_get sid r) as [s|] eqn:E; [|done].
    pose proof (keyed_get s_id _ _ _ (proj1 Hr) E). apply (write_back_ok s); simpl; congruence.
Qed.

(** ** Revocation is final *)

(** No session with this id is active: it is revoked, or there is none. *)
Definition session_dead (sid : string) (r : SessionRepo) : Prop :=
  ∀ s, dict_get sid r = Some s → s_revoked s = true.

Lemma update_dead sid s r :
  session_dead sid r → (s_id s = sid → s_revoked s = true) → session_dead sid (sr_update s r).
Proof.
  intros Hr Hs. unfold sr_update. destruct (dict_mem _ _); [|done].
  intros s'. rewrite dict_get_set. case_decide; [|by apply Hr]. intros [= <-]. by apply Hs.
Qed.

Lemma fold_update_dead sid (f : Session → Session) l r :
  session_dead sid r → (∀ s, s_revoked (f s) = true) →
  session_dead sid (foldl (λ r s, sr_update (f s) r) r l).
Proof.
  intros Hr Hf. revert r Hr. induction l as [|s l IH]; intros r Hr; simpl; [done|].
  apply IH, update_dead; auto.
Qed.

Definition op_creates (op : SessionOp) : option string :=
  match op with SCreate _ sid _ _ _ _ => Some sid | _ => None end.

(** Following a session found under its id: the flag is only ever set. *)
Lemma found_update sid s s' r sid' :
  keyed_sessions r → session_dead sid r → dict_get sid' r = Some s → s_id s' = s_id s →
  (s_revoked s = true → s_revoked s' = true) → session_dead sid (sr_update s' r).
Proof.
  intros Hk Hr Hg Hid Hrev. apply update_dead; [done|]. intros Heq. apply Hrev, Hr.
  pose proof (keyed_get s_id _ _ _ Hk Hg). congruence.
Qed.

Lemma create_dead now sid' uid tid device jti sid r :
  session_dead sid r → sid' ≠ sid →
  session_dead sid (session_create now sid' uid tid device jti r).2.
Proof.
  intros Hr Hne. unfold session_create, mbind, SE_bind, make_room.
  destruct (_ <=? _); [destruct (evict_oldest_on_limit cfg); [|done]|]; simpl; unfold sr_create; simpl;
    intros s; rewrite dict_get_set_ne by done.
  - by apply (fold_update_dead sid (evicted_copy uid) (to_evict uid r) r Hr).
  - apply Hr.
Qed.

Lemma session_step_dead sid op r :
  keyed_sessions r → session_dead sid r → op_creates op ≠ Some sid →
  session_dead sid (session_step r op).
Proof.
  intros Hk Hr Hop. destruct op as [now sid' uid tid device jti|now sid'|now sid'|sid'|uid|sid' jti]; simpl.
  - apply create_dead; [done|simpl in Hop; congruence].
  - unfold session_touch, mbind, SE_bind, session_get, sr_get.
    destruct (dict_get sid' r) as [s|] eqn:E; [|done].
    destruct (_ && _); simpl; by eapply found_update.
  - unfold session_validate, mbind, SE_bind, session_get, sr_get.
    destruct (dict_get sid' r) as [s|] eqn:E; [|done].
    destruct (s_revoked s) eqn:Es; [done|]. destruct (past_limit _ _); simpl; [|done].
    by eapply found_update.
  - unfold session_revoke, mbind, SE_bind, session_get, sr_get.
    destruct (dict_get sid' r) as [s|] eqn:E; [|done]. simpl. by eapply found_update.
  - by apply fold_update_dead.
  - unfold sr_get. destruct (dict_get sid' r) as [s|] eqn:E; [|done]. by eapply found_update.
Qed.

Lemma session_step_keyed op r : keyed_sessions r → keyed_sessions (session_step r op).
Proof.
  intros Hk. destruct op as [now sid' uid tid device jti|now sid'|now sid'|sid'|uid|sid' jti]; simpl.
  - unfold session_create, mbind, SE_bind, make_room.
    destruct (_ <=? _); [destruct (evict_oldest_on_limit cfg); [|done]|]; simpl;
      apply sr_create_keyed; [by apply evict_keyed|done].
  - unfold session_touch, mbind, SE_bind, session_get.
    destruct (sr_get sid' r); [|done]. destruct (_ && _); by apply sr_update_keyed.
  - unfold session_validate, mbind, SE_bind, session_get.
    destruct (sr_get sid' r) as [s|]; [|done]. destruct (s_revoked s); [done|].
    destruct (past_limit _ _); [by apply sr_update_keyed|done].
  - unfold session_revoke, mbind, SE_bind, session_get.
    destruct (sr_get sid' r) as [s|]; [|done]. by apply sr_update_keyed.
  - generalize (sr_list_for_user uid r). intros l. revert r Hk.
    induction l as [|s l IH]; intros r Hk; [done|]. by apply IH, sr_update_keyed.
  - destruct (sr_get sid' r); [by apply sr_update_keyed|done].
Qed.

Lemma session_run_keyed ops r : keyed_sessions r → keyed_sessions (session_run ops r).
Proof.
  revert r. induction ops as [|op ops IH]; intros r Hk; [done|]. by apply IH, session_step_keyed.
Qed.

Lemma session_run_dead sid ops r :
  keyed_sessions r → session_dead sid r → Forall (λ op, op_creates op ≠ Some sid) ops →
  session_dead sid (session_run ops r).
Proof.
  intros Hk Hr Hops. revert r Hk Hr. unfold session_run.
  induction Hops as [|op ops Hop _ IH]; intros r Hk Hr; simpl; [done|].
  apply IH; [by apply session_step_keyed|by apply session_step_dead].
Qed.

Lemma session_run_ok ops r :
  1 <= max_concurrent_sessions cfg → sessions_ok r → sessions_ok (session_run ops r).
Proof.
  intros H1. revert r. induction ops as [|op ops IH]; intros r Hr; [done|].
  by apply IH, session_step_ok.
Qed.

Lemma validate_dead now sid r : session_dead sid r → is_ok (session_validate now sid r).1 = false.
Proof.
  intros Hr. unfold session_validate, mbind, SE_bind, session_get, sr_get.
  destruct (dict_get sid r) as [s|] eqn:E; [|done]. by rewrite (Hr s).
Qed.

Lemma revoke_dead sid r : keyed_sessions r → session_dead sid (session_revoke sid r).2.
Proof.
  intros Hk. unfold session_revoke, mbind, SE_bind, session_get, sr_get.
  destruct (dict_get sid r) as [s|] eqn:E; simpl; [|intros s; congruence].
  pose proof (keyed_get s_id _ _ _ Hk E) as Hid.
  unfold sr_update, dict_mem. simpl. rewrite Hid, E. intros s'. rewrite dict_get_set_eq. by intros [= <-].
Qed.

Lemma sessions_ok_nil : 1 <= max_concurrent_sessions cfg → sessions_ok [].
Proof. split; [apply keyed_nil|intros u; unfold act; simpl; lia]. Qed.
End Manager.
End AuthSessions.
