(* ===== verification/AuthTokens.v ===== *)
(** * Authentication: tokens

    [src/app/auth/tokens.py]: the signing keys, the deny list and the signed
    tokens.  Base64, JSON, HMAC and SHA-256 are the operations of [TokenEnv],
    with their documented behaviour in [TokenLaws]; readings of the clock and
    generated values are arguments. *)

From Stdlib Require Import ZArith Lia Ascii.
From stdpp Require Import base numbers strings gmap list.
From S2P Require Import Prelude PyFloat PyNum PyStr PyDict AuthModel PyMath.


Module AuthTokens.
Import AuthModel.
Open Scope string_scope.
Open Scope Z_scope.

(** ** Libraries *)

(** The values of a decoded JSON object: the kinds that [issue] writes, and
    any other. *)
Inductive JVal := JStr (s : string) | JStrs (l : list string) | JFloat (f : float) | JElse (n : nat).

Inductive Json := JObj (d : dict string JVal) | JNotObj.

Class TokenEnv := {
  urlsafe_b64encode : string → string;
  urlsafe_b64decode : string → option string;
  json_dumps : dict string JVal → string;
  json_loads : string → option Json;
  hmac_sha256 : string → string → string;
  sha256_hex : string → string;
  float_str : float → string;
  (** [str], [list] and [float] of the other kinds of values. *)
  val_str : JVal → string;
  val_list : JVal → option (list string);
  val_float : JVal → option float
}.

(** [c * n] *)
Fixpoint repeat_char (c : ascii) (n : nat) : string :=
  match n with O => EmptyString | S n => String c (repeat_char c n) end.

Definition is_ascii (a : ascii) : bool := Nat.ltb (nat_of_ascii a) 128.

Class TokenLaws `{!TokenEnv} : Prop := {
  b64_decode_encode : ∀ s, urlsafe_b64decode (urlsafe_b64encode s) = Some s;
  (** Four characters per group, the last one filled up with [=]; the alphabet
      has no dot. *)
  b64_shape : ∀ s, ∃ body n, urlsafe_b64encode s = body +:+ repeat_char "=" n ∧
    no_char "=" body = true ∧ no_char "." body = true ∧ all_chars is_ascii body = true ∧
    (n < 4)%nat ∧ (Z.of_nat (String.length body) + Z.of_nat n) mod 4 = 0;
  json_loads_dumps : ∀ d, json_loads (json_dumps d) = Some (JObj d)
}.

Section Tokens.
Context `{!TokenEnv}.

Definition b64url_encode (data : string) : string := rstrip_char "=" (urlsafe_b64encode data).

Definition b64url_decode (data : string) : option string :=
  urlsafe_b64decode (data +:+ repeat_char "=" (Z.to_nat (- Z.of_nat (String.length data) mod 4))).

(** ** Signing keys *)

Record SigningKey := mk_signing_key { sk_kid : string; sk_key : string; sk_created_at : float }.

Record SigningKeyStore := mk_key_store {
  ks_rotation_seconds : Z;
  ks_max_history : Z;
  ks_keys : list SigningKey
}.

Definition derive_kid (secret : string) (created_at : float) : string :=
  String.substring 0 16 (sha256_hex (float_str created_at +:+ ":" +:+ secret)).

Definition new_key_store (secret : string) (rotation_seconds max_history : Z) (now : float)
    : SigningKeyStore :=
  mk_key_store rotation_seconds (Z.max max_history 1)
    [mk_signing_key (derive_kid secret now) secret now].

Definition ks_current (ks : SigningKeyStore) : result AuthExn (string * string) :=
  match ks_keys ks with
  | e :: _ => Ok (sk_kid e, sk_key e)
  | [] => Err (PyException "IndexError")
  end.

(** [secret] is the new secret, given or generated; the loop pops keys off the
    end while there are too many. *)
Definition ks_rotate (now : float) (secret : string) (ks : SigningKeyStore) : SigningKeyStore :=
  mk_key_store (ks_rotation_seconds ks) (ks_max_history ks)
    (take (Z.to_nat (ks_max_history ks))
       (mk_signing_key (derive_kid secret now) secret now :: ks_keys ks)).

Definition ks_should_rotate (now : float) (ks : SigningKeyStore) : bool :=
  match ks_keys ks with
  | e :: _ => fle (zf (ks_rotation_seconds ks)) (fsub now (sk_created_at e))
  | [] => false
  end.

Definition ks_get (kid : string) (ks : SigningKeyStore) : option string :=
  sk_key <$> List.find (λ e, bool_decide (sk_kid e = kid)) (ks_keys ks).

Definition list_kids (ks : SigningKeyStore) : list string := sk_kid <$> ks_keys ks.

(** ** The deny list *)

Abbreviation Denylist := (dict string float).

Definition dl_revoke (jti : string) (until : float) (d : Denylist) : Denylist := dict_set jti until d.

(** Entries whose time has passed are removed first. *)
Definition dl_purge (now : float) (d : Denylist) : Denylist :=
  List.filter (λ e, negb (flt e.2 now)) d.

Definition dl_is_revoked (now : float) (jti : string) (d : Denylist) : bool * Denylist :=
  (dict_mem jti (dl_purge now d), dl_purge now d).

Definition dl_size (d : Denylist) : Z := zlen d.

(** ** Claims *)

Definition py_str (v : JVal) : string := match v with JStr s => s | _ => val_str v end.

Definition py_list (v : JVal) : result AuthExn (list string) :=
  match v with
  | JStrs l => Ok l
  | _ => match val_list v with Some l => Ok l | None => Err (PyException "TypeError") end
  end.

Definition py_float (v : JVal) : result AuthExn float :=
  match v with
  | JFloat f => Ok f
  | _ => match val_float v with Some f => Ok f | None => Err (PyException "ValueError") end
  end.

Definition str_field (k dflt : string) (d : dict string JVal) : string :=
  match dict_get k d with Some v => py_str v | None => dflt end.

Definition float_field (k : string) (d : dict string JVal) : result AuthExn float :=
  match dict_get k d with Some v => py_float v | None => Ok fzero end.

Definition claims_from_dict (d : dict string JVal) : result AuthExn TokenClaims :=
  match match dict_get "roles" d with Some v => py_list v | None => Ok [] end with
  | Err e => Err e
  | Ok roles =>
      match float_field "iat" d with
      | Err e => Err e
      | Ok iat =>
          match float_field "exp" d with
          | Err e => Err e
          | Ok exp =>
              Ok (mk_claims (str_field "sub" "" d) (str_field "tenant_id" "" d) roles
                    (str_field "type" "access" d) (str_field "jti" "" d) (str_field "sid" "" d)
                    iat exp)
          end
      end
  end.

(** ** Tokens *)

Record JWTManager := mk_jwt { jm_keys : SigningKeyStore; jm_deny : Denylist }.

Definition set_deny (d : Denylist) (j : JWTManager) : JWTManager := mk_jwt (jm_keys j) d.
Definition set_keys (k : SigningKeyStore) (j : JWTManager) : JWTManager := mk_jwt k (jm_deny j).

Definition rotate_keys (now : float) (secret : string) (j : JWTManager) : JWTManager :=
  set_keys (ks_rotate now secret (jm_keys j)) j.

Definition encode_part (payload : dict string JVal) : string := b64url_encode (json_dumps payload).

Definition jwt_sign (header body key : string) : string :=
  b64url_encode (hmac_sha256 key (header +:+ "." +:+ body)).

Section Manager.
Context (cfg : AuthConfig).

Definition float_or (x y : float) : float := if is_fzero x then y else x.

(** What [issue] writes into the token, with [now] and [uuid] for a claim that
    is not set. *)
Definition payload_of (now : float) (uuid : string) (c : TokenClaims) : dict string JVal :=
  let iat := float_or (tc_iat c) now in
  let exp := float_or (tc_exp c) (fadd iat (zf (access_token_ttl cfg))) in
  [("sub", JStr (tc_sub c)); ("type", JStr (tc_type c)); ("jti", JStr (str_or (tc_jti c) uuid));
   ("sid", JStr (tc_session c)); ("tenant_id", JStr (tc_tenant c)); ("roles", JStrs (tc_roles c));
   ("iat", JFloat iat); ("exp", JFloat exp)].

Definition jwt_issue (now : float) (uuid : string) (c : TokenClaims) (j : JWTManager)
    : result AuthExn string :=
  match ks_current (jm_keys j) with
  | Err e => Err e
  | Ok (kid, key) =>
      let header := encode_part [("alg", JStr "HS256"); ("typ", JStr "JWT"); ("kid", JStr kid)] in
      let payload := encode_part (payload_of now uuid c) in
      Ok (header +:+ "." +:+ payload +:+ "." +:+ jwt_sign header payload key)
  end.

Definition decode_part (raw : string) : option Json :=
  match b64url_decode raw with Some s => json_loads s | None => None end.

Definition jwt_parse (token : string) (j : JWTManager) : result AuthExn (dict string JVal) :=
  match split_on "." token with
  | [header_raw; body_raw; signature] =>
      match decode_part header_raw, decode_part body_raw with
      | Some header, Some payload =>
          match payload with
          | JNotObj => Err (InvalidTokenError "Malformed token")
          | JObj payload =>
              match header with
              | JNotObj => Err (PyException "AttributeError")
              | JObj header =>
                  let key := match dict_get "kid" header with
                             | Some (JStr kid) => ks_get kid (jm_keys j)
                             | Some _ => None
                             | None => ks_get "" (jm_keys j)
                             end in
                  match key with
                  | None => Err (InvalidTokenError "Unknown signing key")
                  | Some key =>
                      if negb (all_chars is_ascii signature) then Err (PyException "TypeError")
                      else if bool_decide (jwt_sign header_raw body_raw key = signature)
                      then Ok payload
                      else Err (InvalidTokenError "Invalid signature")
                  end
              end
          end
      | _, _ => Err (InvalidTokenError "Malformed token")
      end
  | _ => Err (InvalidTokenError "Malformed token")
  end.

Definition jwt_claims (token : string) (j : JWTManager) : result AuthExn TokenClaims :=
  match jwt_parse token j with Ok d => claims_from_dict d | Err e => Err e end.

(** The clock is read twice: [now1] for the expiry, [now2] by the deny list. *)
Definition jwt_validate (now1 now2 : float) (token token_type : string)
    : SE AuthExn JWTManager TokenClaims := λ j,
  match jwt_claims token j with
  | Err e => (Err e, j)
  | Ok c =>
      if negb (bool_decide (tc_type c = token_type)) then (Err (InvalidTokenError "Expected token"), j)
      else if fle (tc_exp c) now1 then (Err (TokenExpiredError "Token expired"), j)
      else
        let '(revoked, d) := dl_is_revoked now2 (tc_jti c) (jm_deny j) in
        if revoked then (Err (TokenRevokedError "Token revoked"), set_deny d j)
        else (Ok c, set_deny d j)
  end.

Definition jwt_issue_pair (now : float) (jti1 jti2 uid tid : string) (roles : list string)
    (sid : string) (j : JWTManager) : result AuthExn TokenPair :=
  let access := mk_claims uid tid roles "access" jti1 sid now (fadd now (zf (access_token_ttl cfg))) in
  let refresh := mk_claims uid tid roles "refresh" jti2 sid now (fadd now (zf (refresh_token_ttl cfg))) in
  match jwt_issue now jti1 access j with
  | Err e => Err e
  | Ok at_ =>
      match jwt_issue now jti2 refresh j with
      | Err e => Err e
      | Ok rt => Ok (mk_pair at_ rt jti1 jti2 (access_token_ttl cfg))
      end
  end.

Definition deny (jti : string) (until : float) (j : JWTManager) : JWTManager :=
  set_deny (dl_revoke jti until (jm_deny j)) j.

Definition jwt_revoke_token (token : string) : SE AuthExn JWTManager string := λ j,
  match jwt_claims token j with
  | Err e => (Err e, j)
  | Ok c => (Ok (tc_jti c), deny (tc_jti c) (tc_exp c) j)
  end.

Definition jwt_rotate_pair (now1 now2 now3 : float) (jti1 jti2 refresh_token sid : string)
    : SE AuthExn JWTManager TokenPair :=
  c ← jwt_validate now1 now2 refresh_token "refresh";
  se_modify (deny (tc_jti c) (tc_exp c)) ;;
  j ← se_get;
  se_lift (jwt_issue_pair now3 jti1 jti2 (tc_sub c) (tc_tenant c) (tc_roles c) sid j).
End Manager.
End Tokens.
End AuthTokens.

(** * Authentication: properties of tokens

    - [token_round_trip]: a token that was issued parses to its claims, and
      keeps doing so until its signing key has been rotated out of the history;
    - [revoked_token_rejected]: a revoked token is never accepted again. *)

Module AuthTokensSpec.
Import AuthModel AuthTokens.
Open Scope string_scope.
Open Scope Z_scope.

(** ** Base64 without padding *)

Lemma rstrip_repeat c n : rstrip_char c (repeat_char c n) = "".
Proof. induction n as [|n IH]; simpl; [done|]. by rewrite IH, decide_True. Qed.

Lemma rstrip_body c b n : no_char c b = true → rstrip_char c (b +:+ repeat_char c n) = b.
Proof.
  induction b as [|a b IH]; simpl; [intros _; apply rstrip_repeat|].
  intros [Ha Hb]%andb_prop. rewrite IH by done. bool_to_prop.
  destruct b; [by rewrite decide_False|done].
Qed.

Section Laws.
Context {env : TokenEnv} {laws : TokenLaws}.

Lemma b64url_encode_body s :
  no_char "." (b64url_encode s) = true ∧ all_chars is_ascii (b64url_encode s) = true ∧
  b64url_decode (b64url_encode s) = Some s.
Proof.
  destruct (b64_shape s) as (body & n & He & Heq & Hdot & Hasc & Hn & Hmod).
  unfold b64url_encode, b64url_decode. rewrite He, rstrip_body by done. split; [done|]. split; [done|].
  rewrite <- (b64_decode_encode s), He. do 2 f_equal. f_equal.
  apply Z.mod_divide in Hmod as [k Hk]; [|lia].
  rewrite <- (Z.mod_unique (- Z.of_nat (String.length body)) 4 (- k) (Z.of_nat n)); lia.
Qed.

Lemma decode_encode_part d : decode_part (encode_part d) = Some (JObj d).
Proof.
  unfold decode_part, encode_part.
  destruct (b64url_encode_body (json_dumps d)) as (_ & _ & ->). apply json_loads_dumps.
Qed.

(** ** Issue and parse *)

Lemma split_token h p s :
  no_char "." h = true → no_char "." p = true → no_char "." s = true →
  split_on "." (h +:+ "." +:+ p +:+ "." +:+ s) = [h; p; s].
Proof.
  intros Hh Hp Hs. change ("." +:+ p +:+ "." +:+ s) with (String "." (p +:+ "." +:+ s)).
  rewrite split_on_app_sep by done.
  change ("." +:+ s) with (String "." s). rewrite split_on_app_sep by done.
  by rewrite split_on_single.
Qed.

Context (cfg : AuthConfig).

Abbreviation header_of kid := [("alg", JStr "HS256"); ("typ", JStr "JWT"); ("kid", JStr kid)].

(** A token signed with [key] under [kid] parses where [kid] leads to [key]. *)
Lemma parse_signed kid key d j :
  ks_get kid (jm_keys j) = Some key →
  jwt_parse (encode_part (header_of kid) +:+ "." +:+ encode_part d +:+ "."
             +:+ jwt_sign (encode_part (header_of kid)) (encode_part d) key) j = Ok d.
Proof.
  intros Hk. unfold jwt_parse, jwt_sign, encode_part.
  rewrite split_token by apply b64url_encode_body.
  fold (encode_part (header_of kid)) (encode_part d). rewrite !decode_encode_part. simpl.
  rewrite Hk. destruct (b64url_encode_body (hmac_sha256 key
    (encode_part (header_of kid) +:+ "." +:+ encode_part d))) as (_ & -> & _). simpl.
  by rewrite bool_decide_eq_true_2.
Qed.

Lemma parse_unknown kid d key j :
  ks_get kid (jm_keys j) = None →
  jwt_parse (encode_part (header_of kid) +:+ "." +:+ encode_part d +:+ "."
             +:+ jwt_sign (encode_part (header_of kid)) (encode_part d) key) j
  = Err (InvalidTokenError "Unknown signing key").
Proof.
  intros Hk. unfold jwt_parse, jwt_sign, encode_part.
  rewrite split_token by apply b64url_encode_body.
  fold (encode_part (header_of kid)) (encode_part d). rewrite !decode_encode_part. simpl.
  by rewrite Hk.
Qed.

(** The claims as the token carries them. *)
Definition completed_claims (now : float) (uuid : string) (c : TokenClaims) : TokenClaims :=
  let iat := float_or (tc_iat c) now in
  mk_claims (tc_sub c) (tc_tenant c) (tc_roles c) (tc_type c) (str_or (tc_jti c) uuid) (tc_session c)
    iat (float_or (tc_exp c) (fadd iat (zf (access_token_ttl cfg)))).

Lemma claims_payload now uuid c :
  claims_from_dict (payload_of cfg now uuid c) = Ok (completed_claims now uuid c).
Proof. done. Qed.

(** ** Rotations *)

Definition rotations (l : list (float * string)) (j : JWTManager) : JWTManager :=
  foldl (λ j r, rotate_keys r.1 r.2 j) j l.

Definition new_keys (l : list (float * string)) : list SigningKey :=
  reverse ((λ r, mk_signing_key (derive_kid r.2 r.1) r.2 r.1) <$> l).

Lemma take_app_take {A} m (a b : list A) : take m (a ++ take m b) = take m (a ++ b).
Proof. rewrite !take_app, take_take. do 2 f_equal. lia. Qed.

Definition keys_ok (j : JWTManager) : Prop :=
  ks_keys (jm_keys j) ≠ [] ∧ zlen (ks_keys (jm_keys j)) <= ks_max_history (jm_keys j).

Lemma rotations_keys l j :
  l ≠ [] →
  ks_keys (jm_keys (rotations l j))
  = take (Z.to_nat (ks_max_history (jm_keys j))) (new_keys l ++ ks_keys (jm_keys j)).
Proof.
  revert j. induction l as [|r l IH]; intros j Hl; [done|].
  unfold rotations. simpl. fold (rotations l (rotate_keys r.1 r.2 j)).
  destruct l as [|r' l]; [done|]. rewrite IH by done.
  etransitivity; [apply (take_app_take _ (new_keys (r' :: l)) (_ :: _))|].
  unfold new_keys. rewrite (fmap_cons _ r). by rewrite reverse_cons, <- app_assoc.
Qed.

Lemma find_new kid (l : list (float * string)) rest :
  Forall (λ r, derive_kid r.2 r.1 ≠ kid) l →
  List.find (λ e, bool_decide (sk_kid e = kid)) (new_keys l ++ rest)
  = List.find (λ e, bool_decide (sk_kid e = kid)) rest.
Proof.
  intros H. assert (Forall (λ e, sk_kid e ≠ kid) (new_keys l)) as Hn.
  { unfold new_keys. apply Forall_reverse, Forall_fmap. done. }
  clear H. induction Hn as [|e es He Hes IH]; simpl; [done|]. by rewrite bool_decide_eq_false_2.
Qed.

Lemma length_new_keys l : length (new_keys l) = length l.
Proof. unfold new_keys. by rewrite length_reverse, length_fmap. Qed.

(** The key of a token is found exactly while it is in the history. *)
Lemma key_window kid e keys l j :
  ks_keys (jm_keys j) = e :: keys → kid = sk_kid e → zlen (e :: keys) <= ks_max_history (jm_keys j) →
  Forall (λ r, derive_kid r.2 r.1 ≠ kid) l →
  ks_get kid (jm_keys (rotations l j))
  = if zlen l <? ks_max_history (jm_keys j) then Some (sk_key e) else None.
Proof.
  intros Hj -> Hlen Hl. unfold ks_get. destruct l as [|r l].
  { simpl. rewrite Hj. simpl. rewrite bool_decide_eq_true_2 by done.
    unfold zlen in *. simpl in *. by rewrite (proj2 (Z.ltb_lt _ _)) by lia. }
  rewrite rotations_keys, Hj by done. rewrite take_app, length_new_keys.
  destruct (zlen (r :: l) <? _) eqn:Hw; bool_to_prop; unfold zlen in Hw.
  - rewrite take_ge by (rewrite length_new_keys; lia).
    rewrite find_new by done.
    destruct (Z.to_nat _ - _)%nat eqn:E; [lia|]. simpl. by rewrite bool_decide_eq_true_2.
  - replace (_ - _)%nat with 0%nat by lia. rewrite take_0, app_nil_r.
    assert (List.find (λ e0, bool_decide (sk_kid e0 = sk_kid e)) (new_keys (r :: l)) = None) as Hf.
    { pose proof (find_new (sk_kid e) (r :: l) [] Hl) as H. by rewrite app_nil_r in H. }
    destruct (List.find _ (take _ _)) as [e'|] eqn:E; [|done].
    apply List.find_some in E as [Hin He].
    apply list_elem_of_In, elem_of_take in Hin as (i & Hi & _).
    apply list_elem_of_lookup_2, list_elem_of_In in Hi.
    pose proof (List.find_none _ _ Hf _ Hi) as Hn. simpl in Hn. congruence.
Qed.

(** (C15) A token parses to the claims it was issued for, under any later signing
    keys: as long as fewer rotations than the length of the history happened
    since.  After that it is rejected.  (New keys get new key ids.) *)
Theorem token_round_trip (now : float) (uuid : string) (c : TokenClaims) (j : JWTManager)
    (token : string) (l : list (float * string)) :
  keys_ok j → jwt_issue cfg now uuid c j = Ok token →
  Forall (λ r, Some (derive_kid r.2 r.1) ≠ head (list_kids (jm_keys j))) l →
  jwt_claims token (rotations l j)
  = if zlen l <? ks_max_history (jm_keys j) then Ok (completed_claims now uuid c)
    else Err (InvalidTokenError "Unknown signing key").
Proof.
  intros [Hne Hlen] Hissue Hl. unfold jwt_issue, ks_current in Hissue. unfold list_kids in Hl.
  destruct (ks_keys (jm_keys j)) as [|e keys] eqn:Ek; [done|]. simplify_eq.
  assert (Forall (λ r, derive_kid r.2 r.1 ≠ sk_kid e) l) as Hl'.
  { eapply Forall_impl; [exact Hl|]. simpl. congruence. }
  pose proof (key_window _ _ _ l j Ek eq_refl Hlen Hl') as Hk. unfold jwt_claims.
  destruct (zlen l <? _).
  - rewrite parse_signed by done. apply claims_payload.
  - by rewrite parse_unknown.
Qed.
End Laws.

(** ** Revoked tokens *)

Section Denied.
Context {env : TokenEnv} (cfg : AuthConfig).

Inductive JwtOp :=
  | JValidate (now1 now2 : float) (token token_type : string)
  | JRevoke (token : string)
  | JRotatePair (now1 now2 now3 : float) (jti1 jti2 token sid : string)
  | JRotateKeys (now : float) (secret : string).

Definition jwt_step (j : JWTManager) (op : JwtOp) : JWTManager :=
  match op with
  | JValidate now1 now2 token ty => (jwt_validate now1 now2 token ty j).2
  | JRevoke token => (jwt_revoke_token token j).2
  | JRotatePair now1 now2 now3 jti1 jti2 token sid =>
      (jwt_rotate_pair cfg now1 now2 now3 jti1 jti2 token sid j).2
  | JRotateKeys now secret => rotate_keys now secret j
  end.

Definition jwt_run (ops : list JwtOp) (j : JWTManager) : JWTManager := foldl jwt_step j ops.

(** The reading of the clock by the deny list. *)
Definition op_reading (op : JwtOp) : option float :=
  match op with
  | JValidate _ now2 _ _ | JRotatePair _ now2 _ _ _ _ _ => Some now2
  | _ => None
  end.

Definition op_token (op : JwtOp) : option string :=
  match op with
  | JRevoke token | JRotatePair _ _ _ _ _ token _ => Some token
  | _ => None
  end.

(** The claims in a token, whoever signed it. *)
Definition token_claims (token : string) : option TokenClaims :=
  match split_on "." token with
  | [_; body; _] =>
      match decode_part body with
      | Some (JObj d) => match claims_from_dict d with Ok c => Some c | Err _ => None end
      | _ => None
      end
  | _ => None
  end.

Lemma jwt_claims_token token j c : jwt_claims token j = Ok c → token_claims token = Some c.
Proof.
  unfold jwt_claims, jwt_parse, token_claims. intros H.
  destruct (split_on "." token) as [|h [|b [|s [|]]]]; try done.
  destruct (decode_part h) as [jh|]; [|done]. destruct (decode_part b) as [[d|]|]; try done.
  destruct jh as [dh|]; [|done].
  destruct (match dict_get "kid" dh with Some (JStr kid) => _ | Some _ => _ | None => _ end); [|done].
  destruct (negb _); [done|]. case_bool_decide; [|done]. by rewrite H.
Qed.

Definition denied (jti : string) (until : float) (j : JWTManager) : Prop :=
  dict_get jti (jm_deny j) = Some until.

Lemma purge_keeps now jti until (d : dict string float) :
  flt until now = false → dict_get jti d = Some until → dict_get jti (dl_purge now d) = Some until.
Proof.
  intros Hn. unfold dl_purge. induction d as [|[k v] d IH]; simpl; [done|].
  case_decide; intros Hg.
  - simplify_eq. rewrite Hn. simpl. by rewrite decide_True.
  - destruct (flt v now); simpl; [by apply IH|]. rewrite decide_False by done. by apply IH.
Qed.

Lemma validate_denied now1 now2 token ty jti until j :
  flt until now2 = false → denied jti until j → denied jti until (jwt_validate now1 now2 token ty j).2.
Proof.
  intros Hn Hd. unfold jwt_validate. destruct (jwt_claims token j); [|done].
  destruct (negb _); [done|]. destruct (fle _ _); [done|]. simpl.
  by destruct (dict_mem _ _); apply purge_keeps.
Qed.

Lemma validate_Ok_claims now1 now2 token ty j c j' :
  jwt_validate now1 now2 token ty j = (Ok c, j') → jwt_claims token j = Ok c.
Proof.
  unfold jwt_validate. destruct (jwt_claims token j); [|done].
  destruct (negb _); [done|]. destruct (fle _ _); [done|]. simpl. by destruct (dict_mem _ _); intros [= -> _].
Qed.

Lemma deny_denied jti' until' jti until j :
  (jti' = jti → until' = until) → denied jti until j → denied jti until (deny jti' until' j).
Proof.
  intros Hu Hd. unfold denied, deny. simpl. unfold dl_revoke. rewrite dict_get_set.
  case_decide; [by rewrite Hu|done].
Qed.

(** The operations of a trace leave the entry alone: their readings are not
    past it, and a token with the same id expires at the same time. *)
Definition op_harmless (jti : string) (until : float) (op : JwtOp) : Prop :=
  (∀ t, op_reading op = Some t → flt until t = false) ∧
  (∀ token c, op_token op = Some token → token_claims token = Some c → tc_jti c = jti → tc_exp c = until).

Lemma jwt_step_denied jti until j op :
  op_harmless jti until op → denied jti until j → denied jti until (jwt_step j op).
Proof.
  intros [Ht Hu] Hd. destruct op as [now1 now2 tok ty|tok|now1 now2 now3 j1 j2 tok sid|now secret]; simpl.
  - apply validate_denied; [by apply Ht|done].
  - unfold jwt_revoke_token. destruct (jwt_claims tok j) as [c|] eqn:E; [|done]. simpl.
    apply deny_denied; [|done]. intros. apply (Hu tok); [done|by eapply jwt_claims_token|done].
  - unfold jwt_rotate_pair, mbind, SE_bind.
    pose proof (validate_denied now1 now2 tok "refresh" _ _ j (Ht _ eq_refl) Hd) as Hv.
    destruct (jwt_validate _ _ _ _ j) as [[c|e] j'] eqn:E; [|done]. simpl in *.
    apply deny_denied; [|done]. intros. apply (Hu tok); [done| |done].
    by eapply jwt_claims_token, validate_Ok_claims.
  - done.
Qed.

Lemma jwt_run_denied jti until ops j :
  Forall (op_harmless jti until) ops → denied jti until j → denied jti until (jwt_run ops j).
Proof.
  intros H. revert j. induction H as [|op ops Hop _ IH]; intros j Hd; [done|].
  simpl. by apply IH, jwt_step_denied.
Qed.

Lemma denied_rejected now1 now2 token ty j c :
  token_claims token = Some c → denied (tc_jti c) (tc_exp c) j → flt (tc_exp c) now2 = false →
  is_ok (jwt_validate now1 now2 token ty j).1 = false.
Proof.
  intros Hc Hd Hn. unfold jwt_validate. destruct (jwt_claims token j) as [c'|] eqn:E; [|done].
  apply jwt_claims_token in E. assert (c' = c) as -> by congruence.
  destruct (negb _); [done|]. destruct (fle _ _); [done|]. simpl. unfold dict_mem.
  by rewrite (purge_keeps now2 _ (tc_exp c)).
Qed.

Lemma expired_rejected now1 now2 token ty j c :
  token_claims token = Some c → fle (tc_exp c) now1 = true →
  is_ok (jwt_validate now1 now2 token ty j).1 = false.
Proof.
  intros Hc He. unfold jwt_validate. destruct (jwt_claims token j) as [c'|] eqn:E; [|done].
  apply jwt_claims_token in E. assert (c' = c) as -> by congruence.
  destruct (negb _); [done|]. by rewrite He.
Qed.

(** A revoked token is never accepted again.  The deny list forgets an entry
    once its token has expired; as the clock does not run backwards, the
    expiry test rejects the token from then on.  The only gap is between the
    two readings of the clock inside one [validate]: [now1] before and [now2]
    after the expiry. *)
Theorem revoked_token_rejected (token : string) (c : TokenClaims) (j : JWTManager)
    (ops : list JwtOp) (now1 now2 : float) (ty : string) :
  jwt_claims token j = Ok c →
  Forall (λ op, ∀ t, op_reading op = Some t → fle t now1 = true) ops →
  Forall (λ op, ∀ tok c', op_token op = Some tok → token_claims tok = Some c' →
    tc_jti c' = tc_jti c → tc_exp c' = tc_exp c) ops →
  fle now1 now2 = true → (fle now2 (tc_exp c) = true ∨ fle (tc_exp c) now1 = true) →
  is_ok (jwt_validate now1 now2 token ty (jwt_run ops (jwt_revoke_token token j).2)).1 = false.
Proof.
  intros Hc Ht Hu Hmono [Hb|Ha]; pose proof (jwt_claims_token _ _ _ Hc) as Htc;
    [|by eapply expired_rejected].
  eapply denied_rejected; [done| |by apply fle_flt_false].
  apply jwt_run_denied.
  - rewrite Forall_forall in Ht, Hu. apply Forall_forall. intros op Hop. split; [|by eauto].
    intros t Hr. apply fle_flt_false. eapply fle_trans; [by eapply Ht|]. by eapply fle_trans.
  - unfold jwt_revoke_token. rewrite Hc. simpl. unfold denied, deny. simpl. apply dict_get_set_eq.
Qed.
End Denied.
End AuthTokensSpec.
