(* ===== verification/AuthCredentials.v ===== *)
(** * Authentication: API keys and service accounts

    [src/app/auth/api_keys.py] and [service_accounts.py].  Only the hash of a
    key is stored.  Readings of the clock, ids and secrets are arguments.

    - [api_key_revocation_final]: a revoked key never authenticates again;
    - [api_key_accepted]: a generated key authenticates until it expires, for
      the scopes it was given;
    - [rotate_keeps_old_key]: rotating a key leaves the old one valid. *)

From Stdlib Require Import ZArith Lia.
From Stdlib Require Import Ascii.
From stdpp Require Import base numbers strings gmap list.
From S2P Require Import Prelude PyFloat PyNum PyStr PyDict AuthModel PyMath AuthTokens.


Module AuthKeys.
Import AuthModel AuthTokens.
Open Scope string_scope.
Open Scope Z_scope.

(** [set(a).issubset(set(b))] *)
Definition subset_of (a b : list string) : bool := forallb (λ x, bool_decide (x ∈ b)) a.

(** [if require_scopes and not ...] *)
Definition scopes_missing (required : option (list string)) (scopes : list string) : bool :=
  match required with
  | Some ((_ :: _) as l) => negb (subset_of l scopes)
  | _ => false
  end.

(** [int(expires_at - now) if expires_at else None], kept when positive; [int]
    raises on an infinite difference. *)
Definition remaining_ttl (expires_at now : float) : result AuthExn (option Z) :=
  if is_fzero expires_at then Ok None
  else match ftrunc (fsub expires_at now) with
       | None => Err (PyException "OverflowError")
       | Some r => Ok (if 0 <? r then Some r else None)
       end.

Section Keys.
Context {env : TokenEnv} (cfg : AuthConfig).

(** ** API keys *)

Definition key_hash_of (raw : string) : string := sha256_hex ("apikey:" +:+ raw).

Definition key_expired (now : float) (k : APIKey) : bool := past_limit now (ak_expires_at k).

Definition key_generate (now created : float) (kid token tenant name : string)
    (scopes : list string) (ttl : option Z) (uid : string) (r : KeyRepo) : (APIKey * string) * KeyRepo :=
  let raw := "ak_" +:+ token in
  let expires_at := fadd now (zf (default (api_key_ttl_default cfg) ttl)) in
  let k := mk_api_key kid tenant name (String.substring 0 10 raw) (key_hash_of raw) scopes uid
             expires_at false 0 fzero created in
  ((k, raw), kr_create k r).

Definition key_used (now : float) (k : APIKey) : APIKey :=
  mk_api_key (ak_id k) (ak_tenant k) (ak_name k) (ak_prefix k) (ak_hash k) (ak_scopes k) (ak_user k)
    (ak_expires_at k) (ak_revoked k) (ak_usage_count k + 1) now (ak_created_at k).

Definition key_with_revoked (k : APIKey) : APIKey :=
  mk_api_key (ak_id k) (ak_tenant k) (ak_name k) (ak_prefix k) (ak_hash k) (ak_scopes k) (ak_user k)
    (ak_expires_at k) true (ak_usage_count k) (ak_last_used_at k) (ak_created_at k).

Definition key_authenticate (now1 now2 : float) (raw : string) (required : option (list string))
    : SE AuthExn KeyRepo APIKey := λ r,
  match kr_get_by_hash (key_hash_of raw) r with
  | None => (Err (APIKeyError "Invalid API key"), r)
  | Some k =>
      if ak_revoked k then (Err (APIKeyError "API key revoked"), r)
      else if key_expired now1 k then (Err (APIKeyError "API key expired"), r)
      else if scopes_missing required (ak_scopes k) then (Err (APIKeyError "API key missing scopes"), r)
      else (Ok (key_used now2 k), kr_update (key_used now2 k) r)
  end.

Definition key_revoke (kid : string) : SE AuthExn KeyRepo bool := λ r,
  match kr_get kid r with
  | None => (Err (APIKeyError "API key not found"), r)
  | Some k => (Ok true, kr_update (key_with_revoked k) r)
  end.

(** The old key is left as it is. *)
Definition key_rotate (now1 now2 created : float) (kid new_id token : string)
    : SE AuthExn KeyRepo (APIKey * string) := λ r,
  match kr_get kid r with
  | None => (Err (APIKeyError "API key not found"), r)
  | Some k =>
      match remaining_ttl (ak_expires_at k) now1 with
      | Err e => (Err e, r)
      | Ok ttl =>
          let '(res, r') := key_generate now2 created new_id token (ak_tenant k) (ak_name k)
                              (ak_scopes k) ttl (ak_user k) r in
          (Ok res, r')
      end
  end.

Definition key_list (tenant : option string) (r : KeyRepo) : list APIKey :=
  match tenant with Some t => kr_list_for_tenant t r | None => kr_list_all r end.

(** ** Service accounts *)

Definition account_hash_of (raw : string) : string := sha256_hex ("sa:" +:+ raw).

Definition account_expired (now : float) (a : ServiceAccount) : bool := past_limit now (sa_expires_at a).

Definition account_create (now created : float) (aid token tenant name : string)
    (scopes : list string) (description : string) (ttl : option Z) (r : AccountRepo)
    : (ServiceAccount * string) * AccountRepo :=
  let raw := "sa_" +:+ token in
  let expires_at := fadd now (zf (default (service_account_ttl_default cfg) ttl)) in
  let a := mk_account aid tenant name (account_hash_of raw) scopes description expires_at false 0
             fzero created in
  ((a, raw), ar_create a r).

Definition account_used (now : float) (a : ServiceAccount) : ServiceAccount :=
  mk_account (sa_id a) (sa_tenant a) (sa_name a) (sa_token_hash a) (sa_scopes a) (sa_description a)
    (sa_expires_at a) (sa_revoked a) (sa_usage_count a + 1) now (sa_created_at a).

Definition account_with_revoked (a : ServiceAccount) : ServiceAccount :=
  mk_account (sa_id a) (sa_tenant a) (sa_name a) (sa_token_hash a) (sa_scopes a) (sa_description a)
    (sa_expires_at a) true (sa_usage_count a) (sa_last_used_at a) (sa_created_at a).

Definition account_authenticate (now1 now2 : float) (raw : string) (required : option (list string))
    : SE AuthExn AccountRepo ServiceAccount := λ r,
  match ar_get_by_token_hash (account_hash_of raw) r with
  | None => (Err (ServiceAccountError "Invalid service account token"), r)
  | Some a =>
      if sa_revoked a then (Err (ServiceAccountError "Service account revoked"), r)
      else if account_expired now1 a then (Err (ServiceAccountError "Service account expired"), r)
      else if scopes_missing required (sa_scopes a) then
        (Err (ServiceAccountError "Service account missing scopes"), r)
      else (Ok (account_used now2 a), ar_update (account_used now2 a) r)
  end.

Definition account_revoke (aid : string) : SE AuthExn AccountRepo bool := λ r,
  match ar_get aid r with
  | None => (Err (ServiceAccountError "Service account not found"), r)
  | Some a => (Ok true, ar_update (account_with_revoked a) r)
  end.

Definition account_rotate (now1 now2 created : float) (aid new_id token : string)
    : SE AuthExn AccountRepo (ServiceAccount * string) := λ r,
  match ar_get aid r with
  | None => (Err (ServiceAccountError "Service account not found"), r)
  | Some a =>
      match remaining_ttl (sa_expires_at a) now1 with
      | Err e => (Err e, r)
      | Ok ttl =>
          let '(res, r') := account_create now2 created new_id token (sa_tenant a) (sa_name a)
                              (sa_scopes a) (sa_description a) ttl r in
          (Ok res, r')
      end
  end.

Definition account_list (tenant : option string) (r : AccountRepo) : list ServiceAccount :=
  match tenant with Some t => ar_list_for_tenant t r | None => ar_list_all r end.

(** ** Any sequence of operations on API keys *)

Inductive KeyOp :=
  | KGenerate (now created : float) (kid token tenant name : string) (scopes : list string)
      (ttl : option Z) (uid : string)
  | KAuthenticate (now1 now2 : float) (raw : string) (required : option (list string))
  | KRevoke (kid : string)
  | KRotate (now1 now2 created : float) (kid new_id token : string).

Definition key_step (r : KeyRepo) (op : KeyOp) : KeyRepo :=
  match op with
  | KGenerate now created kid token tenant name scopes ttl uid =>
      (key_generate now created kid token tenant name scopes ttl uid r).2
  | KAuthenticate now1 now2 raw required => (key_authenticate now1 now2 raw required r).2
  | KRevoke kid => (key_revoke kid r).2
  | KRotate now1 now2 created kid new_id token => (key_rotate now1 now2 created kid new_id token r).2
  end.

Definition key_run (ops : list KeyOp) (r : KeyRepo) : KeyRepo := foldl key_step r ops.

(** The id and secret an operation introduces. *)
Definition op_new_key (op : KeyOp) : option (string * string) :=
  match op with
  | KGenerate _ _ kid token _ _ _ _ _ | KRotate _ _ _ _ kid token => Some (kid, "ak_" +:+ token)
  | _ => None
  end.

Abbreviation keyed_keys := (keyed ak_id).

(** Every key with the hash [h] is revoked, and there is one. *)
Definition hash_revoked (h : string) (r : KeyRepo) : Prop :=
  ∃ kid k, dict_get kid r = Some k ∧ ak_hash k = h ∧
    ∀ kid' k', dict_get kid' r = Some k' → ak_hash k' = h → ak_revoked k' = true.

Lemma kr_get_by_hash_Some h r k :
  keyed_keys r → kr_get_by_hash h r = Some k → ak_hash k = h ∧ dict_get (ak_id k) r = Some k.
Proof.
  intros Hk H. apply List.find_some in H as [Hin Hh]. bool_to_prop. split; [done|].
  by apply keyed_value, list_elem_of_In.
Qed.

Lemma hash_revoked_set h k r :
  hash_revoked h r →
  (∀ k0, dict_get (ak_id k) r = Some k0 → ak_hash k0 = h → ak_hash k = h) →
  (ak_hash k = h → ak_revoked k = true) → hash_revoked h (dict_set (ak_id k) k r).
Proof.
  intros (kid & k0 & Hg & Hh & Hall) Hkeep Hrev. unfold hash_revoked.
  destruct (decide (ak_id k = kid)) as [<-|Hne].
  - exists (ak_id k), k. rewrite dict_get_set_eq. split; [done|]. split; [by eapply Hkeep|].
    intros kid' k'. rewrite dict_get_set. case_decide; naive_solver.
  - exists kid, k0. rewrite dict_get_set_ne by done. split; [done|]. split; [done|].
    intros kid' k'. rewrite dict_get_set. case_decide; naive_solver.
Qed.

(** A stored key written back with the same hash, and revoked if it was. *)
Lemma hash_revoked_update h k0 k r :
  hash_revoked h r → dict_get (ak_id k) r = Some k0 → ak_hash k = ak_hash k0 →
  (ak_revoked k0 = true → ak_revoked k = true) → hash_revoked h (dict_set (ak_id k) k r).
Proof.
  intros Hr Hg Heq Hrev. apply hash_revoked_set; [done|congruence|].
  intros Hh. apply Hrev. destruct Hr as (? & ? & _ & _ & Hall). apply (Hall (ak_id k)); congruence.
Qed.

(** New keys have new ids and another hash. *)
Definition key_op_fresh (h : string) (r : KeyRepo) (op : KeyOp) : Prop :=
  ∀ kid raw, op_new_key op = Some (kid, raw) → dict_get kid r = None ∧ key_hash_of raw ≠ h.

Fixpoint key_run_fresh (h : string) (ops : list KeyOp) (r : KeyRepo) : Prop :=
  match ops with
  | [] => True
  | op :: ops => key_op_fresh h r op ∧ key_run_fresh h ops (key_step r op)
  end.

Lemma key_step_revoked h op r :
  keyed_keys r → hash_revoked h r → key_op_fresh h r op →
  keyed_keys (key_step r op) ∧ hash_revoked h (key_step r op).
Proof.
  intros Hk Hr Hf. destruct op as [now created kid token tenant name scopes ttl uid
    |now1 now2 raw required|kid|now1 now2 created kid new_id token]; simpl.
  - destruct (Hf _ _ eq_refl) as [Hn Hh]. split; [by apply (keyed_set ak_id (mk_api_key _ _ _ _ _ _ _ _ _ _ _ _))|].
    apply (hash_revoked_set h (mk_api_key _ _ _ _ _ _ _ _ _ _ _ _)); simpl; [done|congruence|done].
  - unfold key_authenticate. destruct (kr_get_by_hash _ r) as [k|] eqn:E; [|done].
    apply kr_get_by_hash_Some in E as [Hh Hg]; [|done].
    destruct (ak_revoked k); [done|]. destruct (key_expired _ _); [done|].
    destruct (scopes_missing _ _); [done|]. simpl.
    split; [by apply (keyed_set ak_id (key_used now2 k))|by apply (hash_revoked_update h k (key_used now2 k))].
  - unfold key_revoke, kr_get. destruct (dict_get kid r) as [k|] eqn:E; [|done]. simpl.
    pose proof (keyed_get ak_id _ _ _ Hk E). subst kid.
    split; [by apply (keyed_set ak_id (key_with_revoked k))
           |by apply (hash_revoked_update h k (key_with_revoked k))].
  - unfold key_rotate. destruct (kr_get kid r) as [k|]; [|done].
    destruct (remaining_ttl _ _); [|done]. simpl. destruct (Hf _ _ eq_refl) as [Hn Hh].
    split; [by apply (keyed_set ak_id (mk_api_key _ _ _ _ _ _ _ _ _ _ _ _))|].
    apply (hash_revoked_set h (mk_api_key _ _ _ _ _ _ _ _ _ _ _ _)); simpl; [done|congruence|done].
Qed.

Lemma key_run_revoked h ops r :
  keyed_keys r → hash_revoked h r → key_run_fresh h ops r →
  keyed_keys (key_run ops r) ∧ hash_revoked h (key_run ops r).
Proof.
  revert r. induction ops as [|op ops IH]; intros r Hk Hr Hf; [done|].
  destruct Hf as [Hop Hf]. destruct (key_step_revoked h op r Hk Hr Hop). by apply IH.
Qed.

Lemma authenticate_revoked now1 now2 raw required r :
  keyed_keys r → hash_revoked (key_hash_of raw) r →
  (key_authenticate now1 now2 raw required r).1 = Err (APIKeyError "API key revoked").
Proof.
  intros Hk (kid & k & Hg & Hh & Hall). unfold key_authenticate.
  destruct (kr_get_by_hash (key_hash_of raw) r) as [k'|] eqn:E.
  - apply kr_get_by_hash_Some in E as [Hh' Hg']; [|done]. by rewrite (Hall _ _ Hg' Hh').
  - exfalso. apply dict_get_elem_of in Hg.
    assert (k ∈ dict_values r) as Hin by (apply list_elem_of_fmap; by exists (kid, k)).
    apply list_elem_of_In in Hin. pose proof (List.find_none _ _ E _ Hin) as Hn. simpl in Hn.
    bool_to_prop. done.
Qed.

(** Revoking a key is final: whatever happens to the store afterwards, the
    secret of the revoked key no longer authenticates.  (The key is the only
    one with its hash, and keys generated later have new ids and hashes.) *)
Theorem api_key_revocation_final (r : KeyRepo) (k : APIKey) (raw : string) (ops : list KeyOp)
    (now1 now2 : float) (required : option (list string)) :
  keyed_keys r → dict_get (ak_id k) r = Some k → ak_hash k = key_hash_of raw →
  (∀ kid' k', dict_get kid' r = Some k' → ak_hash k' = ak_hash k → kid' = ak_id k) →
  let r' := (key_revoke (ak_id k) r).2 in
  key_run_fresh (key_hash_of raw) ops r' →
  (key_authenticate now1 now2 raw required (key_run ops r')).1 = Err (APIKeyError "API key revoked").
Proof.
  intros Hk Hg Hh Huniq r' Hf.
  assert (r' = dict_set (ak_id k) (key_with_revoked k) r) as Hr'.
  { unfold r', key_revoke, kr_get. by rewrite Hg. }
  assert (keyed_keys r') as Hk' by (rewrite Hr'; by apply (keyed_set ak_id (key_with_revoked k))).
  assert (hash_revoked (key_hash_of raw) r') as Hr.
  { rewrite Hr'. exists (ak_id k), (key_with_revoked k). rewrite dict_get_set_eq.
    split; [done|]. split; [done|]. intros kid' k''. rewrite dict_get_set.
    case_decide; [naive_solver|]. intros Hg' Hh'. exfalso.
    pose proof (Huniq kid' k'' Hg' (eq_trans Hh' (eq_sym Hh))). congruence. }
  destruct (key_run_revoked _ ops r' Hk' Hr Hf). by apply authenticate_revoked.
Qed.

(** A key that is generated with a hash of its own authenticates while it has
    not expired, exactly for the scopes it was given, and each use is
    counted. *)
Theorem api_key_accepted (now created now1 now2 : float) (kid token tenant name : string)
    (scopes : list string) (ttl : option Z) (uid : string) (required : list string) (r : KeyRepo) :
  keyed_keys r → dict_get kid r = None →
  (∀ kid' k', dict_get kid' r = Some k' → ak_hash k' ≠ key_hash_of ("ak_" +:+ token)) →
  let '((k, raw), r') := key_generate now created kid token tenant name scopes ttl uid r in
  past_limit now1 (ak_expires_at k) = false →
  match (key_authenticate now1 now2 raw (Some required) r').1 with
  | Ok k' => subset_of required scopes = true ∧ ak_usage_count k' = 1 ∧ ak_tenant k' = tenant
  | Err e => subset_of required scopes = false ∧ e = APIKeyError "API key missing scopes"
  end.
Proof.
  intros Hk Hn Hu. cbn [key_generate]. set (k := mk_api_key _ _ _ _ _ _ _ _ _ _ _ _). cbv beta iota zeta.
  intros Hp. unfold key_authenticate, kr_create.
  assert (kr_get_by_hash (key_hash_of ("ak_" +:+ token)) (dict_set (ak_id k) k r) = Some k) as ->.
  { destruct (kr_get_by_hash _ _) as [k'|] eqn:E.
    - apply kr_get_by_hash_Some in E as [Hh Hg]; [|by apply (keyed_set ak_id k)].
      rewrite dict_get_set in Hg. case_decide; [congruence|]. by destruct (Hu _ _ Hg).
    - exfalso. assert (k ∈ dict_values (dict_set (ak_id k) k r)) as Hin.
      { apply list_elem_of_fmap. exists (ak_id k, k). split; [done|].
        apply dict_get_elem_of, dict_get_set_eq. }
      apply list_elem_of_In in Hin. pose proof (List.find_none _ _ E _ Hin) as Hf. simpl in Hf.
      bool_to_prop. done. }
  assert (ak_revoked k = false) as -> by done. unfold key_expired. rewrite Hp.
  change (ak_scopes k) with scopes. destruct required as [|x l]; simpl; [done|].
  destruct (bool_decide (x ∈ scopes) && _) eqn:E; simpl; done.
Qed.

(** [rotate] gives out a second key: the old one keeps authenticating. *)
Theorem rotate_keeps_old_key (now1 now2 created now3 now4 : float) (kid new_id token raw : string)
    (k : APIKey) (r : KeyRepo) :
  keyed_keys r → kr_get_by_hash (key_hash_of raw) r = Some k →
  is_ok (key_authenticate now3 now4 raw None r).1 = true →
  dict_get new_id r = None → key_hash_of ("ak_" +:+ token) ≠ key_hash_of raw →
  let r' := (key_rotate now1 now2 created kid new_id token r).2 in
  is_ok (key_authenticate now3 now4 raw None r').1 = true.
Proof.
  intros Hk Hh Hok Hn Hne r'. unfold key_authenticate in *. rewrite Hh in Hok.
  enough (kr_get_by_hash (key_hash_of raw) r' = Some k) as -> by (split_ifs_in Hok; by split_ifs).
  unfold r', key_rotate. destruct (kr_get kid r) as [k0|]; [|done].
  destruct (remaining_ttl _ _); [|done]. simpl. unfold kr_create. simpl.
  set (k' := mk_api_key _ _ _ _ _ _ _ _ _ _ _ _).
  assert (dict_set new_id k' r = r ++ [(new_id, k')])%list as ->.
  { clear -Hn. induction r as [|[i v] r IH]; simpl in *; [done|].
    case_decide; [done|]. by rewrite IH. }
  unfold kr_get_by_hash, dict_values in *. rewrite fmap_app. clear -Hh.
  induction (r.*2) as [|x l IH]; [done|]. simpl in *. by destruct (bool_decide _); [|apply IH].
Qed.
End Keys.
End AuthKeys.

(** * Authentication: passwords and the local provider

    [src/app/auth/hashing.py], [LocalProvider] of [providers/local.py] and the
    one-time codes of [manager.py].  PBKDF2, HMAC-SHA1 and base 32 are the
    operations of [PasswordEnv].

    - [password_round_trip]: the right password verifies against its stored
      form, and another one only by a collision of the key derivation;
    - [lockout_enforced]: after [max_login_attempts] wrong passwords in a row
      the right one is refused as well, until the lock has run out. *)

Module AuthPasswords.
Import AuthModel.
Open Scope string_scope.
Open Scope Z_scope.

Class PasswordEnv := {
  pbkdf2_sha256 : string → string → Z → string;
  hmac_sha1 : string → string → list Z;
  b32decode : string → option string
}.

(** ** Hexadecimal *)

Definition hex_digit (n : nat) : ascii :=
  if Nat.ltb n 10 then ascii_of_nat (48 + n) else ascii_of_nat (87 + n).

Definition hex_value (a : ascii) : option nat :=
  let n := nat_of_ascii a in
  if Nat.leb 48 n && Nat.leb n 57 then Some (n - 48)%nat
  else if Nat.leb 97 n && Nat.leb n 102 then Some (n - 87)%nat
  else if Nat.leb 65 n && Nat.leb n 70 then Some (n - 55)%nat
  else None.

(** [bytes.hex()] *)
Fixpoint to_hex (s : string) : string :=
  match s with
  | EmptyString => EmptyString
  | String a s' =>
      let n := nat_of_ascii a in
      String (hex_digit (Nat.div n 16)) (String (hex_digit (Nat.modulo n 16)) (to_hex s'))
  end.

Definition hex_space (a : ascii) : bool :=
  let n := nat_of_ascii a in Nat.eqb n 32 || (Nat.leb 9 n && Nat.leb n 13).

(** [bytes.fromhex]: white space between the bytes is skipped. *)
Fixpoint from_hex (s : string) : option string :=
  match s with
  | EmptyString => Some EmptyString
  | String a s1 =>
      if hex_space a then from_hex s1
      else match hex_value a, s1 with
           | Some h, String b s2 =>
               match hex_value b with
               | Some l => match from_hex s2 with
                           | Some t => Some (String (ascii_of_nat (16 * h + l)) t)
                           | None => None
                           end
               | None => None
               end
           | _, _ => None
           end
  end.

Lemma hex_char a :
  hex_space (hex_digit (Nat.div (nat_of_ascii a) 16)) = false ∧
  hex_value (hex_digit (Nat.div (nat_of_ascii a) 16)) = Some (Nat.div (nat_of_ascii a) 16) ∧
  hex_value (hex_digit (Nat.modulo (nat_of_ascii a) 16)) = Some (Nat.modulo (nat_of_ascii a) 16) ∧
  bool_decide (hex_digit (Nat.div (nat_of_ascii a) 16) = "$"%char) = false ∧
  bool_decide (hex_digit (Nat.modulo (nat_of_ascii a) 16) = "$"%char) = false.
Proof. destruct a as [[] [] [] [] [] [] [] []]; vm_compute; done. Qed.

Lemma from_to_hex s : from_hex (to_hex s) = Some s.
Proof.
  induction s as [|a s IH]; [done|]. destruct (hex_char a) as (H1 & H2 & H3 & _).
  cbn [to_hex from_hex]. rewrite H1, H2, H3, IH.
  rewrite <- (Nat.div_mod_eq (nat_of_ascii a) 16). by rewrite ascii_nat_embedding.
Qed.

Lemma to_hex_no_dollar s : no_char "$" (to_hex s) = true.
Proof.
  induction s as [|a s IH]; [done|]. destruct (hex_char a) as (_ & _ & _ & H4 & H5).
  cbn [to_hex no_char]. by rewrite H4, H5, IH.
Qed.

Section Passwords.
Context {penv : PasswordEnv}.

(** ** Passwords *)

Definition hash_password (password : string) (iterations : Z) (salt : string) : string :=
  "pbkdf2_sha256$" +:+ str_of_Z iterations +:+ "$" +:+ to_hex salt +:+ "$"
  +:+ to_hex (pbkdf2_sha256 password salt iterations).

Definition verify_password (password stored : string) : bool :=
  match split_on "$" stored with
  | [_; iterations_str; salt_hex; digest_hex] =>
      match py_int iterations_str, from_hex salt_hex, from_hex digest_hex with
      | Some iterations, Some salt, Some expected =>
          bool_decide (pbkdf2_sha256 password salt iterations = expected)
      | _, _, _ => false
      end
  | _ => false
  end.

Fixpoint any_char (P : ascii → bool) (s : string) : bool :=
  match s with EmptyString => false | String a s' => P a || any_char P s' end.

Definition is_upper (a : ascii) : bool := Nat.leb 65 (nat_of_ascii a) && Nat.leb (nat_of_ascii a) 90.
Definition is_lower (a : ascii) : bool := Nat.leb 97 (nat_of_ascii a) && Nat.leb (nat_of_ascii a) 122.
Definition is_symbol (a : ascii) : bool :=
  any_char (λ b, bool_decide (a = b)) "!@#$%^&*()-_=+[]{};:,.<>?/".

Definition is_strong_password (cfg : AuthConfig) (password : string) : bool :=
  if Z.of_nat (String.length password) <? password_min_length cfg then false
  else any_char is_upper password && any_char is_lower password && any_char is_digit password
       && (mfa_enabled cfg || any_char is_symbol password).

Lemma split_stored iters salt digest :
  0 <= iters →
  split_on "$" ("pbkdf2_sha256$" +:+ str_of_Z iters +:+ "$" +:+ to_hex salt +:+ "$" +:+ to_hex digest)
  = ["pbkdf2_sha256"; str_of_Z iters; to_hex salt; to_hex digest].
Proof.
  intros Hi.
  assert (∀ s, "$" +:+ s = String "$" s) as Hd by done.
  assert (∀ s, "pbkdf2_sha256$" +:+ s = "pbkdf2_sha256" +:+ String "$" s) as Hp by done.
  rewrite Hp, (split_on_app_sep "$" "pbkdf2_sha256"), !Hd by done.
  rewrite split_on_app_sep.
  2: { apply (all_chars_no_char is_digit); [done|]. apply numeral_chars. apply str_of_Z_spec. lia. }
  rewrite split_on_app_sep by apply to_hex_no_dollar.
  by rewrite split_on_single by apply to_hex_no_dollar.
Qed.

(** A password verifies against the stored form of itself; another password
    verifies only if the key derivation maps both to the same value. *)
Theorem password_round_trip (password other salt : string) (iterations : Z) :
  0 <= iterations →
  verify_password password (hash_password password iterations salt) = true ∧
  (verify_password other (hash_password password iterations salt) = true ↔
   pbkdf2_sha256 other salt iterations = pbkdf2_sha256 password salt iterations).
Proof.
  intros Hi. unfold verify_password, hash_password. rewrite split_stored by done.
  rewrite py_int_str, !from_to_hex by done.
  split; [by rewrite bool_decide_eq_true_2|]. apply bool_decide_eq_true.
Qed.

(** ** One-time codes *)

(** [int(x // 30)] *)
Definition floor_div (x : float) (d : Z) : option Z :=
  match x with
  | SpecFloat.S754_zero _ => Some 0
  | SpecFloat.S754_finite s m e =>
      let v := if s then Z.neg m else Z.pos m in
      Some (if 0 <=? e then (v * 2 ^ e) / d else v / (d * 2 ^ (- e)))
  | _ => None
  end.

(** [n.to_bytes(8, "big")] *)
Fixpoint bytes_be (k : nat) (n : Z) : string :=
  match k with
  | O => EmptyString
  | S k' => bytes_be k' (n / 256) +:+ String (ascii_of_nat (Z.to_nat (n mod 256))) EmptyString
  end.

Definition int_be (l : list Z) : Z := foldl (λ acc b, acc * 256 + b) 0 l.

(** [f"{code:06d}"] *)
Definition pad6 (code : Z) : string :=
  let s := str_of_Z code in
  String.substring 0 (6 - String.length s) "000000" +:+ s.

Definition ljust_eq (n : nat) (s : string) : string :=
  s +:+ String.substring 0 (n - String.length s) "========".

Definition totp_code (secret : string) (now : float) : result AuthExn string :=
  match floor_div now 30 with
  | None => Err (PyException "OverflowError")
  | Some counter =>
      match b32decode (ljust_eq ((String.length secret + 7) / 8 * 8)%nat (upper secret)) with
      | None => Err (PyException "binascii.Error")
      | Some key =>
          if (counter <? 0) || (2 ^ 64 <=? counter) then Err (PyException "OverflowError")
          else
            let digest := hmac_sha1 key (bytes_be 8 counter) in
            match last digest with
            | None => Err (PyException "IndexError")
            | Some b =>
                let offset := Z.to_nat (Z.land b 15) in
                let code := Z.land (int_be (take 4 (drop offset digest))) 2147483647 mod 1000000 in
                Ok (pad6 code)
            end
      end
  end.

(** ** The local provider *)

Context (cfg : AuthConfig).

Definition is_locked (now : float) (u : User) : bool :=
  bool_decide (u_status u = USER_LOCKED) && flt now (u_locked_until u).

Definition user_status_value (s : UserStatus) : string :=
  match s with
  | USER_ACTIVE => "active" | USER_SUSPENDED => "suspended"
  | USER_LOCKED => "locked" | USER_DISABLED => "disabled"
  end.

Definition inactive (u : User) : bool :=
  match u_status u with USER_SUSPENDED | USER_DISABLED => true | _ => false end.

Definition with_failures (n : Z) (status : UserStatus) (until : float) (u : User) : User :=
  mk_user (u_id u) (u_username u) (u_email u) (u_password_hash u) status (u_roles u) (u_tenant u)
    (u_mfa_secret u) n until (u_created_at u) (u_updated_at u).

Definition login_failed (now1 now2 : float) (u : User) : SE AuthExn UserRepo User :=
  let n := u_failed_attempts u + 1 in
  let u' := if max_login_attempts cfg <=? n
            then with_failures n USER_LOCKED (fadd now1 (zf (lockout_seconds cfg))) u
            else with_failures n (u_status u) (u_locked_until u) u in
  ur_update now2 u'.

Definition reset_failures (now : float) (u : User) : SE AuthExn UserRepo unit :=
  if u_failed_attempts u =? 0 then mret tt
  else
    let status := match u_status u with USER_LOCKED => USER_ACTIVE | s => s end in
    ur_update now (with_failures 0 status fzero u) ;; mret tt.

(** [authenticate]; [t i] is the [i]-th reading of the clock. *)
Definition local_authenticate (t : nat → float) (username password tenant : string)
    : SE AuthExn UserRepo ProviderUser := λ r,
  if negb (truthy username) || negb (truthy password) then
    (Err (InvalidCredentialsError "Missing credentials"), r)
  else
    match ur_get_by_username username tenant r with
    | Err e => (Err e, r)
    | Ok u =>
        if is_locked (t 0%nat) u then (Err (AccountLockedError (u_locked_until u)), r)
        else if inactive u then
          (Err (AccountInactiveError ("Account is " +:+ user_status_value (u_status u))), r)
        else if negb (verify_password password (u_password_hash u)) then
          (login_failed (t 1%nat) (t 2%nat) u ;;
           se_raise (InvalidCredentialsError "Invalid password")) r
        else
          (reset_failures (t 1%nat) u ;;
           mret (mk_provider_user (u_id u) (u_username u) (u_email u) (u_roles u)
                   (str_or (u_tenant u) tenant))) r
    end.

(** ** The lock *)

(** One login attempt with a wrong password. *)
Definition bad_login (username tenant : string) (r : UserRepo) (a : (nat → float) * string) : UserRepo :=
  (local_authenticate a.1 username a.2 tenant r).2.

(** [username] leads to the stored user [u], and to whatever replaces it. *)
Definition is_user (username tenant : string) (u : User) (r : UserRepo) : Prop :=
  keyed u_id r ∧ ur_get_by_username username tenant r = Ok u.

Lemma is_user_stored username tenant u r :
  is_user username tenant u r → dict_get (u_id u) r = Some u ∧ user_named username tenant u = true.
Proof.
  intros [Hk H]. unfold ur_get_by_username in H.
  destruct (List.find _ _) as [u'|] eqn:E; [|done]. simplify_eq.
  apply List.find_some in E as [Hin Hn]. split; [|done]. by apply keyed_value, list_elem_of_In.
Qed.

Lemma find_replace {A} (P : A → bool) (k : string) (u u' : A) (r : dict string A) :
  dict_get k r = Some u → List.find P (dict_values r) = Some u → P u = true → P u' = true →
  dict_wf r → (∀ k' v, dict_get k' r = Some v → v = u → k' = k) →
  List.find P (dict_values (dict_set k u' r)) = Some u'.
Proof.
  unfold dict_values. induction r as [|[k1 v1] r IH]; simpl; [done|].
  intros Hg Hf Hu Hu' Hw Huniq. inversion Hw as [|? ? Hn Hw']; subst. case_decide as Hk.
  - simplify_eq. simpl. by rewrite Hu'.
  - simpl. destruct (P v1) eqn:E.
    + simplify_eq. exfalso. apply Hk. symmetry. apply (Huniq k1 u); [by rewrite decide_True|done].
    + apply IH; try done. intros k' v Hg' ->. apply (Huniq k' u); [|done].
      rewrite decide_False; [done|]. intros ->. apply Hn.
      apply dict_get_elem_of in Hg'. apply list_elem_of_fmap. by exists (k1, u).
Qed.

Lemma is_user_update username tenant u u' now r :
  is_user username tenant u r → u_id u' = u_id u → user_named username tenant u' = true →
  ur_update now u' r = (Ok (user_touched now u'), dict_set (u_id u) (user_touched now u') r) ∧
  is_user username tenant (user_touched now u') (dict_set (u_id u) (user_touched now u') r).
Proof.
  intros Hu Hid Hn. destruct (is_user_stored _ _ _ _ Hu) as [Hg Hn0]. destruct Hu as [Hk Hf].
  unfold ur_update. rewrite Hid, Hg. split; [done|]. split.
  - rewrite <- Hid. by apply (keyed_set u_id (user_touched now u')).
  - unfold ur_get_by_username in *. destruct (List.find _ (dict_values r)) as [u0|] eqn:E; [|done].
    simplify_eq. rewrite (find_replace _ _ u); try done; [apply Hk|].
    intros k' v Hg' ->. by rewrite <- (keyed_get u_id _ _ _ Hk Hg').
Qed.

Lemma named_failures username tenant n s until u :
  user_named username tenant (with_failures n s until u) = user_named username tenant u.
Proof. done. Qed.

(** A wrong password on an account that is not locked counts one failure. *)
Lemma bad_login_step username tenant u r t password :
  is_user username tenant u r → truthy username = true → truthy password = true →
  is_locked (t 0%nat) u = false → inactive u = false →
  verify_password password (u_password_hash u) = false →
  ∃ u', is_user username tenant u' (bad_login username tenant r (t, password)) ∧
    u_password_hash u' = u_password_hash u ∧ u_failed_attempts u' = u_failed_attempts u + 1 ∧
    (if max_login_attempts cfg <=? u_failed_attempts u + 1
     then u_status u' = USER_LOCKED ∧ u_locked_until u' = fadd (t 1%nat) (zf (lockout_seconds cfg))
     else u_status u' = u_status u ∧ u_locked_until u' = u_locked_until u).
Proof.
  intros Hu Hnu Hp Hl Hi Hv. destruct (is_user_stored _ _ _ _ Hu) as [_ Hn].
  unfold bad_login, local_authenticate. simpl. rewrite Hnu, Hp. simpl.
  rewrite (proj2 Hu), Hl, Hi, Hv. cbn [negb]. unfold login_failed, mbind, SE_bind.
  set (u' := if _ <=? _ then _ else _).
  assert (user_named username tenant u' = true ∧ u_id u' = u_id u) as [Hn' Hid].
  { unfold u'. by destruct (_ <=? _). }
  destruct (is_user_update username tenant u u' (t 2%nat) r Hu Hid Hn') as [-> Hu2].
  exists (user_touched (t 2%nat) u'). split; [exact Hu2|].
  unfold u'. by destruct (_ <=? _); repeat split.
Qed.

Lemma bad_logins_count username tenant u r (l : list ((nat → float) * string)) :
  is_user username tenant u r → truthy username = true → u_status u = USER_ACTIVE →
  Forall (λ a, truthy a.2 = true ∧ verify_password a.2 (u_password_hash u) = false) l →
  u_failed_attempts u + zlen l < max_login_attempts cfg →
  ∃ u', is_user username tenant u' (foldl (bad_login username tenant) r l) ∧
    u_password_hash u' = u_password_hash u ∧ u_failed_attempts u' = u_failed_attempts u + zlen l ∧
    u_status u' = USER_ACTIVE.
Proof.
  intros Hu Hnu Hst Hl. revert u r Hu Hst Hl. induction l as [|[t p] l IH]; intros u r Hu Hst Hl Hlt.
  { exists u. unfold zlen. simpl. split_and!; try done. lia. }
  apply Forall_cons in Hl as [[Hp Hv] Hl]. unfold zlen in *. simpl length in *.
  destruct (bad_login_step username tenant u r t p) as (u1 & Hu1 & Hh & Hf & Hs); try done.
  { unfold is_locked. by rewrite Hst. }
  { unfold inactive. by rewrite Hst. }
  rewrite (proj2 (Z.leb_gt _ _)) in Hs by lia. destruct Hs as [Hs1 _].
  destruct (IH u1 (bad_login username tenant r (t, p))) as (u2 & Hu2 & Hh2 & Hf2 & Hs2); try done.
  - congruence.
  - by rewrite Hh.
  - lia.
  - exists u2. split_and!; [done|congruence|lia|done].
Qed.

(** (C36) After as many wrong passwords in a row as are allowed, given for an active
    account without earlier failures, the account is locked: until the lock runs
    out every password, the right one too, is refused, and the store is left
    unchanged.  (The name and the passwords are not empty: an empty one is
    refused before the account is looked up.) *)
Theorem lockout_enforced (username tenant : string) (u : User) (r : UserRepo)
    (l : list ((nat → float) * string)) (t0 : nat → float) (p0 : string)
    (t : nat → float) (password : string) :
  is_user username tenant u r → truthy username = true → u_status u = USER_ACTIVE →
  u_failed_attempts u = 0 → zlen l + 1 = max_login_attempts cfg →
  Forall (λ a, truthy a.2 = true ∧ verify_password a.2 (u_password_hash u) = false) (l ++ [(t0, p0)]) →
  truthy password = true → flt (t 0%nat) (fadd (t0 1%nat) (zf (lockout_seconds cfg))) = true →
  let r' := foldl (bad_login username tenant) r (l ++ [(t0, p0)]) in
  local_authenticate t username password tenant r'
  = (Err (AccountLockedError (fadd (t0 1%nat) (zf (lockout_seconds cfg)))), r').
Proof.
  intros Hu Hnu Hst Hf0 Hlen Hl Hp Ht r'. apply Forall_app in Hl as [Hl Hlast].
  apply Forall_inv in Hlast as [Hp0 Hv0]. simpl in Hp0, Hv0.
  destruct (bad_logins_count username tenant u r l) as (u1 & Hu1 & Hh & Hf & Hs); try done; [lia|].
  destruct (bad_login_step username tenant u1 (foldl (bad_login username tenant) r l) t0 p0)
    as (u2 & Hu2 & _ & _ & Hs2); try done.
  { unfold is_locked. by rewrite Hs. }
  { unfold inactive. by rewrite Hs. }
  { by rewrite Hh. }
  rewrite (proj2 (Z.leb_le _ _)) in Hs2 by lia. destruct Hs2 as [Hlock Huntil].
  assert (r' = bad_login username tenant (foldl (bad_login username tenant) r l) (t0, p0)) as Hr'
    by (unfold r'; by rewrite foldl_app).
  unfold local_authenticate. rewrite Hnu, Hp. simpl. rewrite Hr', (proj2 Hu2). unfold is_locked.
  rewrite Hlock, Huntil, Ht. done.
Qed.
End Passwords.
End AuthPasswords.
