(* ===== verification/AuthManager.v ===== *)
(** * Authentication: the manager and the middleware

    [AuthenticationManager] of [src/app/auth/manager.py], which composes the
    user store, the local provider, the sessions, the tokens and the keys, and
    [AuthMiddleware] of [middleware.py].

    In an operation, [t i] is the [i]-th reading of the clock and [g i] the
    [i]-th generated value.  What another identity provider answers, and which
    tenants are active, are arguments. *)

From Stdlib Require Import ZArith Lia Ascii.
From stdpp Require Import base numbers strings gmap list.
From S2P Require Import Prelude PyFloat PyNum PyStr PyDict PyMath.
From S2P Require Import AuthModel AuthSessions AuthTokens AuthCredentials.

Module AuthManager.
Import AuthModel AuthPolicy AuthSessions AuthTokens AuthKeys AuthPasswords.
Open Scope string_scope.
Open Scope Z_scope.

Record AuthState := mk_auth {
  au_users : UserRepo;
  au_sessions : SessionRepo;
  au_jwt : JWTManager;
  au_keys : KeyRepo;
  au_accounts : AccountRepo
}.

Record AuthResult := mk_auth_result {
  res_user : option User;
  res_pair : option TokenPair;
  res_session : option Session;
  res_mfa_required : bool;
  res_method : string;
  res_principal : option AuthPrincipal
}.

(** A part of the manager's state. *)
Definition on_users {A} (m : SE AuthExn UserRepo A) : SE AuthExn AuthState A := λ st,
  let '(r, x) := m (au_users st) in
  (r, mk_auth x (au_sessions st) (au_jwt st) (au_keys st) (au_accounts st)).
Definition on_sessions {A} (m : SE AuthExn SessionRepo A) : SE AuthExn AuthState A := λ st,
  let '(r, x) := m (au_sessions st) in
  (r, mk_auth (au_users st) x (au_jwt st) (au_keys st) (au_accounts st)).
Definition on_jwt {A} (m : SE AuthExn JWTManager A) : SE AuthExn AuthState A := λ st,
  let '(r, x) := m (au_jwt st) in
  (r, mk_auth (au_users st) (au_sessions st) x (au_keys st) (au_accounts st)).
Definition on_keys {A} (m : SE AuthExn KeyRepo A) : SE AuthExn AuthState A := λ st,
  let '(r, x) := m (au_keys st) in
  (r, mk_auth (au_users st) (au_sessions st) (au_jwt st) x (au_accounts st)).
Definition on_accounts {A} (m : SE AuthExn AccountRepo A) : SE AuthExn AuthState A := λ st,
  let '(r, x) := m (au_accounts st) in
  (r, mk_auth (au_users st) (au_sessions st) (au_jwt st) (au_keys st) x).

Section Manager.
Context {env : TokenEnv} {penv : PasswordEnv} (cfg : AuthConfig).
Context (tenant_active : option (string → bool)).

Definition check_tenant (tenant : string) : result AuthExn unit :=
  if truthy tenant then
    match tenant_active with
    | None => Ok tt
    | Some active => if active tenant then Ok tt else Err (AuthenticationError "Tenant not available")
    end
  else Ok tt.

Definition register_user (t : nat → float) (g : nat → string) (username password tenant email : string)
    (roles : list string) (user_id : option string) (mfa_secret : string) : SE AuthExn AuthState User :=
  if negb (is_strong_password cfg password) then
    se_raise (InvalidCredentialsError "Password does not meet policy")
  else
    let uid := str_or (default "" user_id) ("u_" +:+ String.substring 0 16 (g 0%nat)) in
    let u := mk_user uid username email
               (hash_password password (password_hash_iterations cfg) (g 1%nat)) USER_ACTIVE
               (match roles with [] => ["viewer"] | _ => roles end) tenant mfa_secret 0 fzero
               (t 0%nat) (t 1%nat) in
    on_users (ur_create u).

Definition session_id (uuid : string) : string := "ses_" +:+ String.substring 0 24 uuid.

Definition issue_principal_tokens (t : nat → float) (g : nat → string) (pu : ProviderUser)
    (device : string) : SE AuthExn AuthState (TokenPair * Session) :=
  s ← on_sessions (session_create cfg (t 0%nat) (session_id (g 0%nat)) (pu_id pu) (pu_tenant pu) device "");
  st ← se_get;
  pair ← se_lift (jwt_issue_pair cfg (t 1%nat) (g 1%nat) (g 2%nat) (pu_id pu) (pu_tenant pu)
                    (pu_roles pu) (s_id s) (au_jwt st));
  let s' := with_refresh_jti (refresh_jti pair) s in
  on_sessions (se_modify (sr_update s')) ;;
  mret (pair, s').

Definition resolve_mfa (now : float) (u : User) (mfa_code : option string) : result AuthExn bool :=
  if negb (mfa_enabled cfg) || negb (truthy (u_mfa_secret u)) then Ok true
  else if negb (truthy (default "" mfa_code)) then Ok false
  else match totp_code (u_mfa_secret u) now with
       | Ok code => Ok (bool_decide (code = default "" mfa_code))
       | Err e => Err e
       end.

(** [providers.get(provider).authenticate(credentials)]; [ext] is the answer of
    a provider other than the local one. *)
Definition provider_authenticate (t : nat → float) (provider username password tenant : string)
    (ext : result AuthExn ProviderUser) : SE AuthExn AuthState ProviderUser :=
  if bool_decide (provider = "local") then on_users (local_authenticate cfg t username password tenant)
  else se_lift ext.

Definition reconcile_provider_user (t : nat → float) (pu : ProviderUser) : SE AuthExn AuthState User := λ st,
  match ur_get (pu_id pu) (au_users st) with
  | Ok u =>
      if inactive u then (Err (AccountInactiveError ("Account is " +:+ user_status_value (u_status u))), st)
      else (Ok u, st)
  | Err _ =>
      let u := mk_user (pu_id pu) (pu_username pu) (pu_email pu) "" USER_ACTIVE
                 (match pu_roles pu with [] => ["viewer"] | l => l end) (pu_tenant pu) "" 0 fzero
                 (t 0%nat) (t 1%nat) in
      on_users (ur_create u) st
  end.

Definition shift {A} (n : nat) (f : nat → A) : nat → A := λ i, f (n + i)%nat.

Definition login (t : nat → float) (g : nat → string) (username password tenant device : string)
    (mfa_code : option string) (provider : string) (ext : result AuthExn ProviderUser)
    : SE AuthExn AuthState AuthResult :=
  se_lift (check_tenant tenant) ;;
  pu ← provider_authenticate t provider username password tenant ext;
  u ← (if bool_decide (provider = "local")
       then st ← se_get; se_lift (ur_get (pu_id pu) (au_users st))
       else reconcile_provider_user (shift 3 t) pu);
  ok ← se_lift (resolve_mfa (t 5%nat) u mfa_code);
  if negb ok then mret (mk_auth_result (Some u) None None true provider None)
  else
    ps ← issue_principal_tokens (shift 6 t) g pu device;
    mret (mk_auth_result (Some u) (Some ps.1) (Some ps.2) false provider
            (Some (mk_principal (pu_id pu) (pu_tenant pu) (pu_roles pu) [] provider (pu_username pu) false))).

(** No second factor is asked for here. *)
Definition login_with (t : nat → float) (g : nat → string) (provider username password tenant device : string)
    (ext : result AuthExn ProviderUser) : SE AuthExn AuthState AuthResult :=
  pu0 ← provider_authenticate t provider username password tenant ext;
  let tenant_id := str_or (pu_tenant pu0) tenant in
  let pu := mk_provider_user (pu_id pu0) (pu_username pu0) (pu_email pu0) (pu_roles pu0) tenant_id in
  se_lift (check_tenant tenant_id) ;;
  u ← reconcile_provider_user (shift 3 t) pu;
  ps ← issue_principal_tokens (shift 6 t) g pu device;
  mret (mk_auth_result (Some u) (Some ps.1) (Some ps.2) false provider (Some (from_user u provider))).

(** [try: sessions.revoke(sid) except SessionExpiredError: pass] *)
Definition revoke_quietly (sid : string) : SE AuthExn AuthState unit := λ st,
  match on_sessions (session_revoke sid) st with
  | (Err (SessionExpiredError _), st') => (Ok tt, st')
  | (Err e, st') => (Err e, st')
  | (Ok _, st') => (Ok tt, st')
  end.

Definition logout (t : nat → float) (token : string) : SE AuthExn AuthState string :=
  c ← on_jwt (jwt_validate (t 0%nat) (t 1%nat) token "refresh");
  on_jwt (se_modify (deny (tc_jti c) (tc_exp c))) ;;
  (if truthy (tc_session c) then revoke_quietly (tc_session c) else mret tt) ;;
  mret (tc_jti c).

Definition auth_refresh (t : nat → float) (g : nat → string) (token : string) : SE AuthExn AuthState TokenPair :=
  c ← on_jwt (jwt_validate (t 0%nat) (t 1%nat) token "refresh");
  if truthy (tc_session c) then
    on_sessions (session_validate (t 2%nat) (tc_session c)) ;;
    s ← on_sessions (session_touch cfg (t 3%nat) (tc_session c));
    pair ← on_jwt (jwt_rotate_pair cfg (t 4%nat) (t 5%nat) (t 6%nat) (g 0%nat) (g 1%nat) token (s_id s));
    on_sessions (se_modify (sr_update (with_refresh_jti (refresh_jti pair) s))) ;;
    mret pair
  else on_jwt (jwt_rotate_pair cfg (t 2%nat) (t 3%nat) (t 4%nat) (g 0%nat) (g 1%nat) token "").

Definition auth_validate (t : nat → float) (token : string) : SE AuthExn AuthState AuthPrincipal :=
  c ← on_jwt (jwt_validate (t 0%nat) (t 1%nat) token "access");
  (if truthy (tc_session c)
   then on_sessions (session_validate (t 2%nat) (tc_session c)) ;; mret tt
   else mret tt) ;;
  mret (mk_principal (tc_sub c) (tc_tenant c) (tc_roles c) [] "token" "" false).

(** [{k.lower(): v for k, v in headers.items()}] *)
Definition lowered (headers : dict string string) : dict string string :=
  foldl (λ d kv, dict_set (lower kv.1) kv.2 d) [] headers.

Definition authorization_of (headers : dict string string) (authorization : option string) : string :=
  match authorization, headers with
  | Some a, _ => a
  | None, [] => ""
  | None, _ => default "" (dict_get "authorization" (lowered headers))
  end.

Definition authenticate (t : nat → float) (headers : dict string string) (authorization : option string)
    : SE AuthExn AuthState AuthPrincipal :=
  let a := authorization_of headers authorization in
  if negb (truthy a) then se_raise (InvalidCredentialsError "Missing Authorization header")
  else
    let '(scheme0, rest) := partition " " a in
    let scheme := lower scheme0 in
    let value := strip (default "" rest) in
    if bool_decide (scheme = "bearer") then auth_validate t value
    else if bool_decide (scheme ∈ ["apikey"; "x-api-key"; "token"]) then
      k ← on_keys (key_authenticate (t 0%nat) (t 1%nat) value None);
      mret (mk_principal (str_or (ak_user k) ("apikey:" +:+ ak_id k)) (ak_tenant k) [] (ak_scopes k)
              "apikey" "" true)
    else if bool_decide (scheme = "service") then
      x ← on_accounts (account_authenticate (t 0%nat) (t 1%nat) value None);
      mret (mk_principal ("sa:" +:+ sa_id x) (sa_tenant x) [] (sa_scopes x) "service_account" "" true)
    else se_raise (InvalidCredentialsError "Unsupported auth scheme").

Definition with_password (h : string) (u : User) : User :=
  mk_user (u_id u) (u_username u) (u_email u) h (u_status u) (u_roles u) (u_tenant u) (u_mfa_secret u)
    (u_failed_attempts u) (u_locked_until u) (u_created_at u) (u_updated_at u).

Definition change_password (t : nat → float) (salt uid old_password new_password : string)
    : SE AuthExn AuthState bool :=
  st ← se_get;
  u ← se_lift (ur_get uid (au_users st));
  if negb (verify_password old_password (u_password_hash u)) then
    se_raise (InvalidCredentialsError "Current password is incorrect")
  else if negb (is_strong_password cfg new_password) then
    se_raise (InvalidCredentialsError "New password does not meet policy")
  else
    on_users (ur_update (t 0%nat)
      (with_password (hash_password new_password (password_hash_iterations cfg) salt) u)) ;;
    mret true.

Definition revoke_all_sessions (uid : string) (st : AuthState) : Z * AuthState :=
  let '(n, r) := session_revoke_all uid (au_sessions st) in
  (n, mk_auth (au_users st) r (au_jwt st) (au_keys st) (au_accounts st)).

Definition revoke_session (sid : string) : SE AuthExn AuthState bool := on_sessions (session_revoke sid).

Definition rotate_signing_keys (now : float) (secret : string) : SE AuthExn AuthState unit :=
  on_jwt (se_modify (rotate_keys now secret)).

(** ** The middleware *)

Context (policy : PermissionPolicy) (required_permissions : dict string string).

Definition under (path prefix : string) : bool :=
  bool_decide (path = prefix) || startswith (prefix +:+ "/") path.

Definition auth_is_public (path : string) : bool :=
  negb (require_auth cfg) || existsb (under path) (public_paths cfg).

(** Only the first prefix that matches counts. *)
Fixpoint require_permission (perms : dict string string) (p : AuthPrincipal) (path : string)
    : result AuthExn unit :=
  match perms with
  | [] => Ok tt
  | (prefix, permission) :: rest =>
      if under path prefix then enforce policy p permission None
      else require_permission rest p path
  end.

Inductive AuthOutcome := ToApp | Respond (status : Z) (body : string).

(** The status for an exception of [authenticate]. *)
Definition auth_failure (e : AuthExn) : AuthOutcome :=
  match e with
  | TokenExpiredError _ => Respond 401 "token expired"
  | PermissionDeniedError p u => Respond 403 ("Permission '" +:+ p +:+ "' denied for user '" +:+ u +:+ "'")
  | InvalidTokenError _ | TokenRevokedError _ | InvalidCredentialsError _ | APIKeyError _
  | ServiceAccountError _ => Respond 401 "unauthorized"
  | _ => Respond 500 "authentication error"
  end.

Definition permission_failure (e : AuthExn) : result AuthExn AuthOutcome :=
  match e with
  | PermissionDeniedError p _ => Ok (Respond 403 ("permission denied: " +:+ p))
  | _ => Err e
  end.

(** [__call__] for a scope; [http] is false for another type of scope. *)
Definition middleware_call (t : nat → float) (http : bool) (path : string) (headers : dict string string)
    : SE AuthExn AuthState AuthOutcome := λ st,
  if negb http then (Ok ToApp, st)
  else if auth_is_public path then (Ok ToApp, st)
  else
    match authenticate t headers None st with
    | (Err e, st') => (Ok (auth_failure e), st')
    | (Ok p, st') =>
        match require_permission required_permissions p path with
        | Ok _ => (Ok ToApp, st')
        | Err e => (permission_failure e, st')
        end
    end.
End Manager.
End AuthManager.
