(* ===== verification/AuthManagerSpec.v ===== *)
(** * Authentication: properties of the whole manager

    The operations of the manager change the sessions and the tokens only
    through sequences of operations of the session manager and the token
    manager ([op_sessions], [op_jwt]), so that what holds for all such
    sequences holds for the manager:

    - [manager_sessions_bounded]: the limit of concurrent sessions;
    - [logout_ends_session]: after a logout no token of the session is accepted
      any more, nor can it be refreshed;
    - [refresh_single_use]: a refresh token works once;
    - [middleware_sound]: an http request reaches a protected path only with a
      valid credential in its own header and the permission the path requires. *)

From Stdlib Require Import ZArith Lia Ascii.
From Stdlib Require Import SpecFloat.
From stdpp Require Import base numbers strings gmap countable list.
From S2P Require Import Prelude PyFloat PyNum PyStr PyDict AuthModel PyMath AuthSessions AuthTokens AuthCredentials AuthManager.


Module AuthManagerSpec.
Import AuthModel AuthPolicy AuthSessions AuthTokens AuthTokensSpec AuthKeys AuthPasswords AuthManager.
Open Scope string_scope.
Open Scope Z_scope.

Ltac forall_ops :=
  repeat first [apply Forall_nil_2|apply Forall_cons_2]; first [done|by auto|by match goal with H : _ |- _ => apply H end|by intros ? [=]].

Section Spec.
Context {env : TokenEnv} {penv : PasswordEnv} (cfg : AuthConfig).
Context (tenant_active : option (string → bool)).

Inductive AuthOp :=
  | ARegister (t : nat → float) (g : nat → string) (username password tenant email : string)
      (roles : list string) (uid : option string) (mfa : string)
  | ALogin (t : nat → float) (g : nat → string) (username password tenant device : string)
      (mfa : option string) (provider : string) (ext : result AuthExn ProviderUser)
  | ALoginWith (t : nat → float) (g : nat → string) (provider username password tenant device : string)
      (ext : result AuthExn ProviderUser)
  | ALogout (t : nat → float) (token : string)
  | ARefresh (t : nat → float) (g : nat → string) (token : string)
  | AAuthenticate (t : nat → float) (headers : dict string string) (authorization : option string)
  | AChangePassword (t : nat → float) (salt uid old_password new_password : string)
  | ARevokeAll (uid : string)
  | ARevokeSession (sid : string)
  | ARotateKeys (now : float) (secret : string)
  | AKey (op : KeyOp).

Definition auth_step (st : AuthState) (op : AuthOp) : AuthState :=
  match op with
  | ARegister t g un pw tn em roles uid mfa => (register_user cfg t g un pw tn em roles uid mfa st).2
  | ALogin t g un pw tn dev mfa prov ext => (login cfg tenant_active t g un pw tn dev mfa prov ext st).2
  | ALoginWith t g prov un pw tn dev ext => (login_with cfg tenant_active t g prov un pw tn dev ext st).2
  | ALogout t tok => (logout t tok st).2
  | ARefresh t g tok => (auth_refresh cfg t g tok st).2
  | AAuthenticate t h a => (authenticate t h a st).2
  | AChangePassword t salt uid o n => (change_password cfg t salt uid o n st).2
  | ARevokeAll uid => (revoke_all_sessions uid st).2
  | ARevokeSession sid => (revoke_session sid st).2
  | ARotateKeys now secret => (rotate_signing_keys now secret st).2
  | AKey op => mk_auth (au_users st) (au_sessions st) (au_jwt st) (key_step cfg (au_keys st) op) (au_accounts st)
  end.

Definition auth_run (ops : list AuthOp) (st : AuthState) : AuthState := foldl auth_step st ops.

(** ** The components behind the manager

    A computation acts on a component, the part [proj] of the state, as a
    sequence of the component's own operations ([step]) that satisfy [P]. *)

Section Via.
Context {X O : Type} (proj : AuthState → X) (step : X → O → X) (I : X → Prop).
Context (HI : ∀ x o, I x → I (step x o)).

Definition via {A} (P : O → Prop) (m : SE AuthExn AuthState A) : Prop := ∀ st,
  I (proj st) → ∃ os, proj (m st).2 = foldl step (proj st) os ∧ Forall P os.

Context (P : O → Prop).

Lemma via_none {A} (m : SE AuthExn AuthState A) : (∀ st, proj (m st).2 = proj st) → via P m.
Proof. intros H st _. exists []. by rewrite H. Qed.

Lemma via_ret {A} (a : A) : via P (mret a).
Proof. by apply via_none. Qed.
Lemma via_raise {A} e : via P (se_raise (A := A) e).
Proof. by apply via_none. Qed.
Lemma via_lift {A} (r : result AuthExn A) : via P (se_lift r).
Proof. by apply via_none. Qed.
Lemma via_get : via P se_get.
Proof. by apply via_none. Qed.

Lemma foldl_I os x : I x → I (foldl step x os).
Proof. revert x. induction os as [|o os IH]; intros x Hx; [done|]. by apply IH, HI. Qed.

Lemma via_bind {A B} (m : SE AuthExn AuthState A) (f : A → SE AuthExn AuthState B) :
  via P m → (∀ a, via P (f a)) → via P (m ≫= f).
Proof.
  intros Hm Hf st Hk. destruct (Hm st Hk) as (s1 & H1 & F1). unfold mbind, SE_bind.
  destruct (m st) as [[a|e] st1]; simpl in H1; [|by exists s1].
  destruct (Hf a st1) as (s2 & H2 & F2); [rewrite H1; by apply foldl_I|].
  exists (s1 ++ s2)%list. rewrite H2, H1, foldl_app. split; [done|by apply Forall_app].
Qed.
End Via.

(** ** Sessions *)

Abbreviation keyed_sessions st := (keyed s_id (au_sessions st)).
Abbreviation via_s := (via au_sessions (session_step cfg) (keyed s_id)).

Lemma bind_s (P : SessionOp → Prop) {A B} (m : SE AuthExn AuthState A) (f : A → SE AuthExn AuthState B) :
  via_s P m → (∀ a, via_s P (f a)) → via_s P (m ≫= f).
Proof. apply via_bind. intros. by apply session_step_keyed. Qed.

Lemma users_s (P : SessionOp → Prop) {A} (m : SE AuthExn UserRepo A) : via_s P (on_users m).
Proof. apply via_none. intros st. unfold on_users. by destruct (m _). Qed.
Lemma jwt_s (P : SessionOp → Prop) {A} (m : SE AuthExn JWTManager A) : via_s P (on_jwt m).
Proof. apply via_none. intros st. unfold on_jwt. by destruct (m _). Qed.
Lemma keys_s (P : SessionOp → Prop) {A} (m : SE AuthExn KeyRepo A) : via_s P (on_keys m).
Proof. apply via_none. intros st. unfold on_keys. by destruct (m _). Qed.
Lemma accounts_s (P : SessionOp → Prop) {A} (m : SE AuthExn AccountRepo A) : via_s P (on_accounts m).
Proof. apply via_none. intros st. unfold on_accounts. by destruct (m _). Qed.

Lemma via_session (P : SessionOp → Prop) {A} (m : SE AuthExn SessionRepo A) op :
  P op → (∀ r, (m r).2 = session_step cfg r op) → via_s P (on_sessions m).
Proof.
  intros Hp H st _. exists [op]. unfold on_sessions.
  specialize (H (au_sessions st)). destruct (m (au_sessions st)). simpl in *. split; [done|by constructor].
Qed.

#[local] Hint Resolve via_ret via_raise via_lift via_get users_s jwt_s keys_s accounts_s : core.

Lemma create_stored now sid uid tid device jti r s r' :
  session_create cfg now sid uid tid device jti r = (Ok s, r') → dict_get (s_id s) r' = Some s ∧ s_id s = sid.
Proof.
  unfold session_create, mbind, SE_bind. destruct (make_room cfg uid r) as [[[]|] r1]; [|done].
  simpl. intros [= <- <-]. simpl. split; [apply dict_get_set_eq|done].
Qed.

Lemma set_jti_step sid s jti r :
  dict_get sid r = Some s → sr_update (with_refresh_jti jti s) r = session_step cfg r (SSetJti sid jti).
Proof. intros H. simpl. unfold sr_get. by rewrite H. Qed.

Lemma via_issue (P : SessionOp → Prop) t g pu device :
  (∀ now uid tid dev jti, P (SCreate now (session_id (g 0%nat)) uid tid dev jti)) →
  (∀ sid jti, P (SSetJti sid jti)) → via_s P (issue_principal_tokens cfg t g pu device).
Proof.
  intros Hc Hj st Hk. unfold issue_principal_tokens, mbind, SE_bind, on_sessions.
  set (op := SCreate (t 0%nat) (session_id (g 0%nat)) (pu_id pu) (pu_tenant pu) device "").
  destruct (session_create cfg _ _ _ _ _ _ (au_sessions st)) as [[s|e] r'] eqn:E; simpl.
  - assert (r' = session_step cfg (au_sessions st) op) as Hr' by (simpl; by rewrite E).
    destruct (create_stored _ _ _ _ _ _ _ _ _ E) as [Hg Hid].
    destruct (jwt_issue_pair _ _ _ _ _ _ _ _ _) as [pair|e]; simpl.
    + exists [op; SSetJti (s_id s) (refresh_jti pair)]. split; [|forall_ops].
      rewrite (set_jti_step (s_id s)) by done. by rewrite Hr'.
    + exists [op]. split; [done|forall_ops].
  - exists [op]. split; [simpl; by rewrite E|forall_ops].
Qed.

Lemma via_validate (P : SessionOp → Prop) now sid :
  P (SValidate now sid) → via_s P (on_sessions (session_validate now sid)).
Proof. intros. by apply (via_session _ _ (SValidate now sid)). Qed.

Lemma via_auth_validate (P : SessionOp → Prop) t token :
  (∀ now sid, P (SValidate now sid)) → via_s P (auth_validate t token).
Proof.
  intros Hp. unfold auth_validate. apply bind_s; [done|]. intros c. apply bind_s; [|done].
  destruct (truthy _); [|done]. apply bind_s; [by apply via_validate|done].
Qed.

Lemma via_authenticate (P : SessionOp → Prop) t h a :
  (∀ now sid, P (SValidate now sid)) → via_s P (authenticate t h a).
Proof.
  intros Hp. unfold authenticate. destruct (negb _); [done|].
  destruct (partition _ _) as [scheme rest]. repeat case_bool_decide; try done.
  - by apply via_auth_validate.
  - by apply bind_s.
  - by apply bind_s.
Qed.

Lemma via_provider (P : SessionOp → Prop) t prov un pw tn ext :
  via_s P (provider_authenticate cfg t prov un pw tn ext).
Proof. unfold provider_authenticate. by case_bool_decide. Qed.

Lemma via_reconcile (P : SessionOp → Prop) t pu : via_s P (reconcile_provider_user t pu).
Proof.
  apply via_none. intros st. unfold reconcile_provider_user, on_users.
  destruct (ur_get _ _); [by destruct (inactive _)|]. by destruct (ur_create _ _).
Qed.

Lemma touch_stored now sid r s r' :
  keyed s_id r → session_touch cfg now sid r = (Ok s, r') → dict_get sid r' = Some s.
Proof.
  intros Hk. unfold session_touch, mbind, SE_bind, session_get, sr_get.
  destruct (dict_get sid r) as [s0|] eqn:E; [|done]. destruct (_ && _); [done|]. simpl.
  intros [= <- <-]. pose proof (keyed_get s_id _ _ _ Hk E) as Hid.
  unfold sr_update, dict_mem. simpl. rewrite Hid, E. apply dict_get_set_eq.
Qed.

(** The rest of [auth_refresh] after the token was validated. *)
Lemma via_refresh (P : SessionOp → Prop) t g token :
  (∀ now sid, P (SValidate now sid)) → (∀ now sid, P (STouch now sid)) →
  (∀ sid jti, P (SSetJti sid jti)) → via_s P (auth_refresh cfg t g token).
Proof.
  intros Hv Ht Hj. unfold auth_refresh. apply bind_s; [done|]. intros c.
  destruct (truthy _); [|done]. apply bind_s; [by apply via_validate|]. intros _ st Hk.
  unfold mbind, SE_bind, on_sessions, on_jwt. set (sid := tc_session c).
  destruct (session_touch cfg (t 3%nat) sid (au_sessions st)) as [[s|e] r'] eqn:E; simpl.
  - assert (r' = session_step cfg (au_sessions st) (STouch (t 3%nat) sid)) as Hr' by (simpl; by rewrite E).
    pose proof (touch_stored _ _ _ _ _ Hk E) as Hg.
    destruct (jwt_rotate_pair _ _ _ _ _ _ _ _ _) as [[pair|e] j']; simpl.
    + exists [STouch (t 3%nat) sid; SSetJti sid (refresh_jti pair)]. split; [|forall_ops].
      rewrite (set_jti_step sid) by done. by rewrite Hr'.
    + exists [STouch (t 3%nat) sid]. split; [done|forall_ops].
  - exists [STouch (t 3%nat) sid]. split; [simpl; by rewrite E|forall_ops].
Qed.

(** The id of the session an operation may create. *)
Definition op_new_session (op : AuthOp) : option string :=
  match op with
  | ALogin _ g _ _ _ _ _ _ _ | ALoginWith _ g _ _ _ _ _ _ => Some (session_id (g 0%nat))
  | _ => None
  end.

(** Every operation of the manager is a sequence of session operations. *)
Lemma op_sessions op st :
  keyed_sessions st →
  ∃ sops, au_sessions (auth_step st op) = session_run cfg sops (au_sessions st) ∧
    Forall (λ o, ∀ sid, op_creates o = Some sid → op_new_session op = Some sid) sops.
Proof.
  set (P := λ o, ∀ sid, op_creates o = Some sid → op_new_session op = Some sid).
  intros Hk. destruct op as [t g un pw tn em roles uid mfa|t g un pw tn dev mfa prov ext
    |t g prov un pw tn dev ext|t tok|t g tok|t h a|t salt uid o n|uid|sid|now secret|kop]; simpl.
  - assert (via_s P (register_user cfg t g un pw tn em roles uid mfa)) as H; [|by apply H].
    unfold register_user. by destruct (negb _).
  - assert (via_s P (login cfg tenant_active t g un pw tn dev mfa prov ext)) as H; [|by apply H].
    unfold login. apply bind_s; [done|intros _]. apply bind_s; [apply via_provider|intros pu].
    apply bind_s; [case_bool_decide; [by apply bind_s|apply via_reconcile]|intros u].
    apply bind_s; [done|intros ok]. destruct (negb ok); [done|].
    apply bind_s; [|done]. by apply via_issue; unfold P; simpl.
  - assert (via_s P (login_with cfg tenant_active t g prov un pw tn dev ext)) as H; [|by apply H].
    unfold login_with. apply bind_s; [apply via_provider|intros pu]. apply bind_s; [done|intros _].
    apply bind_s; [apply via_reconcile|intros u]. apply bind_s; [|done].
    by apply via_issue; unfold P; simpl.
  - assert (via_s P (logout t tok)) as H; [|by apply H].
    unfold logout. apply bind_s; [done|intros c]. apply bind_s; [done|intros _].
    apply bind_s; [|done]. destruct (truthy _); [|done].
    intros st' Hk'. exists [SRevoke (tc_session c)]. split; [|forall_ops].
    unfold revoke_quietly, on_sessions. simpl.
    by destruct (session_revoke _ _) as [[?|[]] ?].
  - assert (via_s P (auth_refresh cfg t g tok)) as H; [|by apply H]. by apply via_refresh.
  - assert (via_s P (authenticate t h a)) as H; [|by apply H]. by apply via_authenticate.
  - assert (via_s P (change_password cfg t salt uid o n)) as H; [|by apply H].
    unfold change_password. apply bind_s; [done|intros st']. apply bind_s; [done|intros u].
    destruct (negb _); [done|]. destruct (negb _); [done|]. by apply bind_s.
  - exists [SRevokeAll uid]. split; [done|forall_ops].
  - exists [SRevoke sid]. split; [|forall_ops].
    unfold revoke_session, on_sessions. simpl. by destruct (session_revoke _ _).
  - by exists [].
  - by exists [].
Qed.

Lemma run_sessions ops st :
  keyed_sessions st →
  ∃ sops, au_sessions (auth_run ops st) = session_run cfg sops (au_sessions st) ∧
    Forall (λ o, ∀ sid, op_creates o = Some sid → ∃ op, op ∈ ops ∧ op_new_session op = Some sid) sops.
Proof.
  revert st. induction ops as [|op ops IH]; intros st Hk; [by exists []|].
  destruct (op_sessions op st Hk) as (s1 & H1 & F1).
  destruct (IH (auth_step st op)) as (s2 & H2 & F2); [rewrite H1; by apply session_run_keyed|].
  exists (s1 ++ s2)%list. split.
  - cbn [auth_run foldl]. unfold auth_run in H2. rewrite H2. unfold session_run. rewrite H1. by rewrite foldl_app.
  - apply Forall_app. split; eapply Forall_impl; [exact F1| |exact F2|]; simpl.
    + intros o Ho sid Hs. exists op. split; [by left|by apply Ho].
    + intros o Ho sid Hs. destruct (Ho sid Hs) as (op' & Hin & Hn). exists op'. split; [by right|done].
Qed.

(** Whatever sequence of registrations, logins, refreshes, logouts and other
    operations is performed, and whether the manager evicts the oldest sessions
    or refuses new ones, no user has more active sessions than the limit. *)
Theorem manager_sessions_bounded (ops : list AuthOp) (st : AuthState) (uid : string) :
  1 <= max_concurrent_sessions cfg → au_sessions st = [] →
  sr_count_active uid (au_sessions (auth_run ops st)) <= max_concurrent_sessions cfg.
Proof.
  intros H1 Hst. destruct (run_sessions ops st) as (sops & -> & _).
  { rewrite Hst. apply keyed_nil. }
  rewrite Hst. apply (session_run_ok cfg sops []); [done|by apply sessions_ok_nil].
Qed.

(** ** Logout *)

Lemma validate_dead_token t token st c :
  token_claims token = Some c → truthy (tc_session c) = true →
  session_dead (tc_session c) (au_sessions st) → is_ok (auth_validate t token st).1 = false.
Proof.
  intros Hc Hs Hd. unfold auth_validate, mbind, SE_bind, on_jwt.
  destruct (jwt_validate _ _ token "access" (au_jwt st)) as [[c'|e] j'] eqn:E; [|done].
  apply validate_Ok_claims, jwt_claims_token in E. assert (c' = c) as -> by congruence.
  rewrite Hs. unfold on_sessions. simpl.
  pose proof (validate_dead (t 2%nat) _ _ Hd) as Hv.
  by destruct (session_validate (t 2%nat) (tc_session c) (au_sessions st)) as [[s|e] r'].
Qed.

Lemma refresh_dead_token t g token st c :
  token_claims token = Some c → truthy (tc_session c) = true →
  session_dead (tc_session c) (au_sessions st) → is_ok (auth_refresh cfg t g token st).1 = false.
Proof.
  intros Hc Hs Hd. unfold auth_refresh, mbind, SE_bind, on_jwt.
  destruct (jwt_validate _ _ token "refresh" (au_jwt st)) as [[c'|e] j'] eqn:E; [|done].
  apply validate_Ok_claims, jwt_claims_token in E. assert (c' = c) as -> by congruence.
  rewrite Hs. unfold on_sessions. simpl.
  pose proof (validate_dead (t 2%nat) _ _ Hd) as Hv.
  by destruct (session_validate (t 2%nat) (tc_session c) (au_sessions st)) as [[s|e] r'].
Qed.

Lemma logout_dead t token st jti st' c :
  keyed_sessions st → logout t token st = (Ok jti, st') → token_claims token = Some c →
  truthy (tc_session c) = true → keyed_sessions st' ∧ session_dead (tc_session c) (au_sessions st').
Proof.
  intros Hk Hl Hc Hs. unfold logout, mbind, SE_bind, on_jwt in Hl.
  destruct (jwt_validate _ _ token "refresh" (au_jwt st)) as [[c'|e] j'] eqn:E; [|done].
  apply validate_Ok_claims, jwt_claims_token in E. assert (c' = c) as -> by congruence.
  simpl in Hl. rewrite Hs in Hl. unfold revoke_quietly, on_sessions in Hl. simpl in Hl.
  pose proof (revoke_dead (tc_session c) _ Hk) as Hd.
  pose proof (session_step_keyed cfg (SRevoke (tc_session c)) _ Hk) as Hk'. simpl in Hk'.
  destruct (session_revoke (tc_session c) (au_sessions st)) as [[b|e] r']; simpl in *.
  - unfold mret, SE_ret in Hl. simplify_eq. done.
  - unfold mret, SE_ret in Hl. destruct e; simplify_eq; done.
Qed.

(** (C13) A logout ends the session for good: after it, and whatever the manager
    does next, no token that names the session is accepted, and none can be
    refreshed, although the access tokens themselves are still valid and not
    denied.  (Sessions created later have other ids.) *)
Theorem logout_ends_session (t : nat → float) (refresh_tok : string) (st st' : AuthState) (jti : string)
    (c : TokenClaims) (ops : list AuthOp) (t' : nat → float) (g' : nat → string) (token : string)
    (c' : TokenClaims) :
  keyed_sessions st → logout t refresh_tok st = (Ok jti, st') →
  token_claims refresh_tok = Some c → truthy (tc_session c) = true →
  Forall (λ op, op_new_session op ≠ Some (tc_session c)) ops →
  token_claims token = Some c' → tc_session c' = tc_session c →
  is_ok (auth_validate t' token (auth_run ops st')).1 = false ∧
  is_ok (auth_refresh cfg t' g' token (auth_run ops st')).1 = false.
Proof.
  intros Hk Hl Hc Hs Hops Hc' Hsame.
  destruct (logout_dead _ _ _ _ _ _ Hk Hl Hc Hs) as [Hk' Hd].
  assert (session_dead (tc_session c') (au_sessions (auth_run ops st'))) as Hdead.
  { destruct (run_sessions ops st' Hk') as (sops & -> & Hnew). rewrite Hsame.
    apply session_run_dead; [done..|]. eapply Forall_impl; [exact Hnew|]. simpl. intros o Ho Heq.
    destruct (Ho _ Heq) as (op & Hin & Hn). rewrite Forall_forall in Hops. by apply (Hops op). }
  rewrite <- Hsame in Hs. split; [by eapply validate_dead_token|by eapply refresh_dead_token].
Qed.

(** ** Tokens *)

Abbreviation via_j := (via au_jwt (jwt_step cfg) (λ _, True)).

Lemma bind_j (P : JwtOp → Prop) {A B} (m : SE AuthExn AuthState A) (f : A → SE AuthExn AuthState B) :
  via_j P m → (∀ a, via_j P (f a)) → via_j P (m ≫= f).
Proof. by apply via_bind. Qed.

Lemma users_j (P : JwtOp → Prop) {A} (m : SE AuthExn UserRepo A) : via_j P (on_users m).
Proof. apply via_none. intros st. unfold on_users. by destruct (m _). Qed.
Lemma sessions_j (P : JwtOp → Prop) {A} (m : SE AuthExn SessionRepo A) : via_j P (on_sessions m).
Proof. apply via_none. intros st. unfold on_sessions. by destruct (m _). Qed.
Lemma keys_j (P : JwtOp → Prop) {A} (m : SE AuthExn KeyRepo A) : via_j P (on_keys m).
Proof. apply via_none. intros st. unfold on_keys. by destruct (m _). Qed.
Lemma accounts_j (P : JwtOp → Prop) {A} (m : SE AuthExn AccountRepo A) : via_j P (on_accounts m).
Proof. apply via_none. intros st. unfold on_accounts. by destruct (m _). Qed.

Lemma via_token (P : JwtOp → Prop) {A} (m : SE AuthExn JWTManager A) op :
  P op → (∀ j, (m j).2 = jwt_step cfg j op) → via_j P (on_jwt m).
Proof.
  intros Hp H st _. exists [op]. unfold on_jwt.
  specialize (H (au_jwt st)). destruct (m (au_jwt st)). simpl in *. split; [done|by constructor].
Qed.

#[local] Hint Resolve users_j sessions_j keys_j accounts_j : core.

Lemma jwt_claims_keys token j j' : jm_keys j = jm_keys j' → jwt_claims token j = jwt_claims token j'.
Proof. intros H. unfold jwt_claims, jwt_parse. by rewrite H. Qed.

Lemma validate_keys now1 now2 token ty j : jm_keys (jwt_validate now1 now2 token ty j).2 = jm_keys j.
Proof.
  unfold jwt_validate. destruct (jwt_claims token j); [|done].
  destruct (negb _); [done|]. destruct (fle _ _); [done|]. simpl. by destruct (dict_mem _ _).
Qed.

Lemma reconcile_j (P : JwtOp → Prop) t pu : via_j P (reconcile_provider_user t pu).
Proof.
  apply via_none. intros st. unfold reconcile_provider_user, on_users.
  destruct (ur_get _ _); [by destruct (inactive _)|]. by destruct (ur_create _ _).
Qed.

Lemma provider_j (P : JwtOp → Prop) t prov un pw tn ext :
  via_j P (provider_authenticate cfg t prov un pw tn ext).
Proof. unfold provider_authenticate. by case_bool_decide. Qed.

Lemma issue_j (P : JwtOp → Prop) t g pu dev : via_j P (issue_principal_tokens cfg t g pu dev).
Proof. unfold issue_principal_tokens. repeat (apply bind_j; [done|intros ?]). done. Qed.

Lemma authenticate_j (P : JwtOp → Prop) t h a :
  (∀ token ty, P (JValidate (t 0%nat) (t 1%nat) token ty)) → via_j P (authenticate t h a).
Proof.
  intros Hp. unfold authenticate. destruct (negb _); [done|].
  destruct (partition _ _) as [scheme rest]. repeat case_bool_decide; try done; [|by apply bind_j..].
  generalize (strip (default "" rest)). intros tok. unfold auth_validate.
  apply bind_j; [by apply (via_token _ _ (JValidate (t 0%nat) (t 1%nat) tok "access"))|].
  intros c. apply bind_j; [destruct (truthy _); [by apply bind_j|done]|done].
Qed.

Lemma refresh_j (P : JwtOp → Prop) t g token :
  P (JValidate (t 0%nat) (t 1%nat) token "refresh") →
  (∀ i sid, P (JRotatePair (t i) (t (S i)) (t (S (S i))) (g 0%nat) (g 1%nat) token sid)) →
  via_j P (auth_refresh cfg t g token).
Proof.
  intros Hv Hr. unfold auth_refresh.
  apply bind_j; [by apply (via_token _ _ (JValidate (t 0%nat) (t 1%nat) token "refresh"))|intros c].
  destruct (truthy _).
  - apply bind_j; [done|intros _]. apply bind_j; [done|intros s]. apply bind_j; [|intros p; by apply bind_j].
    by apply (via_token _ _ (JRotatePair (t 4%nat) (t 5%nat) (t 6%nat) (g 0%nat) (g 1%nat) token (s_id s))).
  - by apply (via_token _ _ (JRotatePair (t 2%nat) (t 3%nat) (t 4%nat) (g 0%nat) (g 1%nat) token "")).
Qed.

Lemma revoke_quietly_jwt sid st : au_jwt (revoke_quietly sid st).2 = au_jwt st.
Proof.
  unfold revoke_quietly, on_sessions. by destruct (session_revoke sid (au_sessions st)) as [[b|[]] r'].
Qed.

Lemma logout_j (P : JwtOp → Prop) t token :
  P (JValidate (t 0%nat) (t 1%nat) token "refresh") → P (JRevoke token) → via_j P (logout t token).
Proof.
  intros Hv Hr st _. unfold logout, mbind, SE_bind, on_jwt.
  pose proof (validate_keys (t 0%nat) (t 1%nat) token "refresh" (au_jwt st)) as Hkeys.
  destruct (jwt_validate _ _ token "refresh" (au_jwt st)) as [[c|e] j'] eqn:E; simpl in Hkeys.
  - exists [JValidate (t 0%nat) (t 1%nat) token "refresh"; JRevoke token].
    split; [|by repeat constructor]. simpl. rewrite E. simpl. unfold jwt_revoke_token.
    rewrite (jwt_claims_keys token j' (au_jwt st)) by done.
    rewrite (validate_Ok_claims _ _ _ _ _ _ _ E). simpl.
    destruct (truthy (tc_session c)); [|done].
    pose proof (revoke_quietly_jwt (tc_session c) (mk_auth (au_users st) (au_sessions st)
      (deny (tc_jti c) (tc_exp c) j') (au_keys st) (au_accounts st))) as Hq.
    by destruct (revoke_quietly _ _) as [[u|e] st2].
  - exists [JValidate (t 0%nat) (t 1%nat) token "refresh"]. split; [|by repeat constructor].
    simpl. by rewrite E.
Qed.

(** The readings of the clock in an operation, and the refresh token it is
    given. *)
Definition op_reads (op : AuthOp) (r : float) : Prop :=
  match op with
  | ALogout t _ | ARefresh t _ _ | AAuthenticate t _ _ => ∃ i, r = t i
  | _ => False
  end.

Definition op_refresh_token (op : AuthOp) : option string :=
  match op with ALogout _ token | ARefresh _ _ token => Some token | _ => None end.

Definition jwt_op_of (op : AuthOp) (o : JwtOp) : Prop :=
  (∀ r, op_reading o = Some r → op_reads op r) ∧
  (∀ token, op_token o = Some token → op_refresh_token op = Some token).

(** Every operation of the manager is a sequence of token operations. *)
Lemma op_jwt op st :
  ∃ jops, au_jwt (auth_step st op) = jwt_run cfg jops (au_jwt st) ∧ Forall (jwt_op_of op) jops.
Proof.
  set (P := jwt_op_of op). destruct op as [t g un pw tn em roles uid mfa|t g un pw tn dev mfa prov ext
    |t g prov un pw tn dev ext|t tok|t g tok|t h a|t salt uid o n|uid|sid|now secret|kop]; simpl.
  - assert (via_j P (register_user cfg t g un pw tn em roles uid mfa)) as H; [|by apply H].
    unfold register_user. by destruct (negb _).
  - assert (via_j P (login cfg tenant_active t g un pw tn dev mfa prov ext)) as H; [|by apply H].
    unfold login. apply bind_j; [done|intros _]. apply bind_j; [apply provider_j|intros pu].
    apply bind_j; [case_bool_decide; [by apply bind_j|apply reconcile_j]|intros u].
    apply bind_j; [done|intros ok]. destruct (negb ok); [done|].
    apply bind_j; [apply issue_j|done].
  - assert (via_j P (login_with cfg tenant_active t g prov un pw tn dev ext)) as H; [|by apply H].
    unfold login_with. apply bind_j; [apply provider_j|intros pu]. apply bind_j; [done|intros _].
    apply bind_j; [apply reconcile_j|intros u]. apply bind_j; [apply issue_j|done].
  - assert (via_j P (logout t tok)) as H; [|by apply H]. apply logout_j; split; simpl; naive_solver.
  - assert (via_j P (auth_refresh cfg t g tok)) as H; [|by apply H].
    apply refresh_j; [split; simpl; naive_solver|]. intros i sid. split; simpl; naive_solver.
  - assert (via_j P (authenticate t h a)) as H; [|by apply H].
    apply authenticate_j. intros token ty. split; simpl; naive_solver.
  - assert (via_j P (change_password cfg t salt uid o n)) as H; [|by apply H].
    unfold change_password. apply bind_j; [done|intros st']. apply bind_j; [done|intros u].
    destruct (negb _); [done|]. destruct (negb _); [done|]. by apply bind_j.
  - by exists [].
  - exists []. split; [|done]. unfold revoke_session, on_sessions. by destruct (session_revoke _ _).
  - exists [JRotateKeys now secret]. split; [done|]. apply Forall_cons_2; [|done]. by split.
  - by exists [].
Qed.

Lemma run_jwt ops st :
  ∃ jops, au_jwt (auth_run ops st) = jwt_run cfg jops (au_jwt st) ∧
    Forall (λ o, ∃ op, op ∈ ops ∧ jwt_op_of op o) jops.
Proof.
  revert st. induction ops as [|op ops IH]; intros st; [by exists []|].
  destruct (op_jwt op st) as (s1 & H1 & F1). destruct (IH (auth_step st op)) as (s2 & H2 & F2).
  exists (s1 ++ s2)%list. split.
  - cbn [auth_run foldl]. unfold auth_run in H2. rewrite H2. unfold jwt_run. rewrite H1. by rewrite foldl_app.
  - apply Forall_app. split; eapply Forall_impl; [exact F1| |exact F2|]; simpl.
    + intros o Ho. exists op. split; [by left|done].
    + intros o (op' & Hin & Hn). exists op'. split; [by right|done].
Qed.

Lemma rotate_pair_denies now1 now2 now3 jti1 jti2 token sid j c :
  token_claims token = Some c →
  is_ok (jwt_rotate_pair cfg now1 now2 now3 jti1 jti2 token sid j).1 = true →
  denied (tc_jti c) (tc_exp c) (jwt_rotate_pair cfg now1 now2 now3 jti1 jti2 token sid j).2.
Proof.
  intros Hc Hok. unfold jwt_rotate_pair, mbind, SE_bind in *.
  destruct (jwt_validate now1 now2 token "refresh" j) as [[c'|e] j'] eqn:E; [|done].
  apply validate_Ok_claims, jwt_claims_token in E. assert (c' = c) as -> by congruence.
  simpl. apply dict_get_set_eq.
Qed.

Lemma refresh_denies t g token st pair st' c :
  token_claims token = Some c → auth_refresh cfg t g token st = (Ok pair, st') →
  denied (tc_jti c) (tc_exp c) (au_jwt st').
Proof.
  intros Hc Hr. unfold auth_refresh, mbind, SE_bind, on_jwt, on_sessions in Hr.
  destruct (jwt_validate _ _ token "refresh" (au_jwt st)) as [[c'|e] j'] eqn:E; [|done].
  apply validate_Ok_claims, jwt_claims_token in E. assert (c' = c) as -> by congruence.
  destruct (truthy (tc_session c)); simpl in Hr.
  - destruct (session_validate _ _ _) as [[s0|] r0]; [|done]. simpl in Hr.
    destruct (session_touch _ _ _ _) as [[s|] r1]; [|done]. simpl in Hr.
    pose proof (rotate_pair_denies (t 4%nat) (t 5%nat) (t 6%nat) (g 0%nat) (g 1%nat) token (s_id s) j' c Hc) as Hd.
    destruct (jwt_rotate_pair _ _ _ _ _ _ _ _ _) as [[p|] j2]; [|done].
    unfold mret, SE_ret in Hr. simpl in Hr. simplify_eq. by apply Hd.
  - pose proof (rotate_pair_denies (t 2%nat) (t 3%nat) (t 4%nat) (g 0%nat) (g 1%nat) token "" j' c Hc) as Hd.
    destruct (jwt_rotate_pair _ _ _ _ _ _ _ _ _) as [[p|] j2]; [|done]. simplify_eq. by apply Hd.
Qed.

(** (C14) A refresh token works once: after a refresh with it, and whatever the
    manager does next, another refresh with it is refused (with a clock that
    does not run backwards, no other token with its id and another expiry, and
    an expiry that does not fall between two readings of one validation). *)
Theorem refresh_single_use (t : nat → float) (g : nat → string) (token : string) (st st' : AuthState)
    (pair : TokenPair) (c : TokenClaims) (ops : list AuthOp) (t' : nat → float) (g' : nat → string) :
  token_claims token = Some c → auth_refresh cfg t g token st = (Ok pair, st') →
  Forall (λ op, ∀ r, op_reads op r → fle r (t' 0%nat) = true) ops →
  Forall (λ op, ∀ tok' c', op_refresh_token op = Some tok' → token_claims tok' = Some c' →
    tc_jti c' = tc_jti c → tc_exp c' = tc_exp c) ops →
  fle (t' 0%nat) (t' 1%nat) = true →
  (fle (t' 1%nat) (tc_exp c) = true ∨ fle (tc_exp c) (t' 0%nat) = true) →
  is_ok (auth_refresh cfg t' g' token (auth_run ops st')).1 = false.
Proof.
  intros Hc Hr Hclock Huniq Hmono Hexp.
  enough (is_ok (jwt_validate (t' 0%nat) (t' 1%nat) token "refresh" (au_jwt (auth_run ops st'))).1 = false) as Hv.
  { unfold auth_refresh, mbind, SE_bind, on_jwt.
    by destruct (jwt_validate _ _ token "refresh" (au_jwt (auth_run ops st'))) as [[]]. }
  destruct Hexp as [Hb|Ha]; [|by eapply expired_rejected].
  eapply denied_rejected; [done| |by apply fle_flt_false].
  destruct (run_jwt ops st') as (jops & -> & Hj). apply jwt_run_denied; [|by eapply refresh_denies].
  rewrite Forall_forall in Hclock, Huniq. eapply Forall_impl; [exact Hj|]. simpl.
  intros o (op & Hin & Hread & Htok). split.
  - intros r Ho. apply fle_flt_false. eapply fle_trans; [by eapply Hclock, Hread|]. by eapply fle_trans.
  - intros tok c' Ho. by apply (Huniq op Hin), Htok.
Qed.

(** ** The middleware *)

Context (policy : PermissionPolicy) (required_permissions : dict string string).

(** The scheme and the credential that the header names. *)
Definition credential (headers : dict string string) : string * string :=
  let '(scheme, rest) := partition " " (authorization_of headers None) in
  (lower scheme, strip (default "" rest)).

(** The credential [raw], presented under [scheme], proves that the caller is
    [p]: a signed, unexpired access token that is not denied and whose session
    is live, or a key or account that is neither revoked nor expired. *)
Inductive proven (t : nat → float) (st : AuthState) (scheme raw : string) (p : AuthPrincipal) : Prop :=
  | proven_token c :
      scheme = "bearer" →
      jwt_claims raw (au_jwt st) = Ok c → tc_type c = "access" → fle (tc_exp c) (t 0%nat) = false →
      dict_get (tc_jti c) (dl_purge (t 1%nat) (jm_deny (au_jwt st))) = None →
      (truthy (tc_session c) = true → ∃ s, dict_get (tc_session c) (au_sessions st) = Some s ∧
         s_revoked s = false ∧ past_limit (t 2%nat) (s_expires_at s) = false) →
      p_user p = tc_sub c → p_tenant p = tc_tenant c → p_roles p = tc_roles c → p_scopes p = [] →
      proven t st scheme raw p
  | proven_key k :
      scheme ∈ ["apikey"; "x-api-key"; "token"] →
      kr_get_by_hash (key_hash_of raw) (au_keys st) = Some k → ak_revoked k = false →
      key_expired (t 0%nat) k = false →
      p_user p = str_or (ak_user k) ("apikey:" +:+ ak_id k) → p_tenant p = ak_tenant k → p_roles p = [] →
      p_scopes p = ak_scopes k → proven t st scheme raw p
  | proven_account x :
      scheme = "service" →
      ar_get_by_token_hash (account_hash_of raw) (au_accounts st) = Some x → sa_revoked x = false →
      account_expired (t 0%nat) x = false →
      p_user p = "sa:" +:+ sa_id x → p_tenant p = sa_tenant x → p_roles p = [] →
      p_scopes p = sa_scopes x → proven t st scheme raw p.

Lemma jwt_validate_Ok now1 now2 token ty j c j' :
  jwt_validate now1 now2 token ty j = (Ok c, j') →
  jwt_claims token j = Ok c ∧ tc_type c = ty ∧ fle (tc_exp c) now1 = false ∧
  dict_get (tc_jti c) (dl_purge now2 (jm_deny j)) = None.
Proof.
  unfold jwt_validate, dl_is_revoked, dict_mem. destruct (jwt_claims token j) as [c'|]; [|done].
  destruct (negb _) eqn:Et; [done|]. bool_to_prop. destruct (fle _ _) eqn:Ef; [done|].
  destruct (dict_get _ _) eqn:Ed; [done|]. by intros [= <- _].
Qed.

Lemma session_validate_Ok now sid r s r' :
  session_validate now sid r = (Ok s, r') →
  dict_get sid r = Some s ∧ s_revoked s = false ∧ past_limit now (s_expires_at s) = false.
Proof.
  unfold session_validate, mbind, SE_bind, session_get, sr_get.
  destruct (dict_get sid r) as [s0|]; [|done]. destruct (s_revoked s0) eqn:Er; [done|].
  destruct (past_limit _ _) eqn:Ep; [done|]. by intros [= <- _].
Qed.

Lemma auth_validate_proven t token st p st' :
  auth_validate t token st = (Ok p, st') → proven t st "bearer" token p.
Proof.
  unfold auth_validate, mbind, SE_bind, on_jwt.
  destruct (jwt_validate _ _ token "access" (au_jwt st)) as [[c|e] j'] eqn:E; [|done].
  apply jwt_validate_Ok in E as (Hc & Ht & He & Hd).
  destruct (truthy (tc_session c)) eqn:Es; simpl.
  - unfold on_sessions. simpl.
    destruct (session_validate _ _ _) as [[s|e] r'] eqn:E; [|done].
    apply session_validate_Ok in E. unfold mret, SE_ret. intros [= <- _].
    apply (proven_token t st _ token _ c); try done. by exists s.
  - unfold mret, SE_ret. intros [= <- _]. apply (proven_token t st _ token _ c); try done. congruence.
Qed.

Lemma authenticate_proven t h st p st' :
  authenticate t h None st = (Ok p, st') → proven t st (credential h).1 (credential h).2 p.
Proof.
  unfold authenticate, credential. destruct (negb _); [done|].
  destruct (partition _ _) as [scheme rest]. cbn [fst snd].
  generalize (strip (default "" rest)) (lower scheme). intros raw sch.
  case_bool_decide as Hb; [subst sch; apply auth_validate_proven|].
  case_bool_decide as Hk; [|case_bool_decide as Hs; [|done]].
  - unfold mbind, SE_bind, on_keys, key_authenticate.
    destruct (kr_get_by_hash _ _) as [k|] eqn:Ek; [|done]. destruct (ak_revoked k) eqn:Er; [done|].
    destruct (key_expired _ k) eqn:Ee; [done|]. simpl. unfold mret, SE_ret. intros [= <- _].
    by apply (proven_key t st sch raw _ k).
  - unfold mbind, SE_bind, on_accounts, account_authenticate.
    destruct (ar_get_by_token_hash _ _) as [x|] eqn:Ek; [|done]. destruct (sa_revoked x) eqn:Er; [done|].
    destruct (account_expired _ x) eqn:Ee; [done|]. simpl. unfold mret, SE_ret. intros [= <- _].
    by apply (proven_account t st sch raw _ x).
Qed.

(** The permission a path requires: that of the first prefix it is under. *)
Definition required (path : string) : option string :=
  snd <$> List.find (λ e, under path e.1) required_permissions.

Lemma require_permission_spec p path :
  require_permission policy required_permissions p path
  = match required path with Some perm => enforce policy p perm None | None => Ok tt end.
Proof.
  unfold required. induction required_permissions as [|[pre perm] l IH]; simpl; [done|].
  by destruct (under path pre).
Qed.

(** (C16) The middleware answers every http request, and forwards one for a path
    that is not public only when the credential in the authorization header of
    this request, under the scheme named there, proves a principal (a signed,
    unexpired access token that is not denied and whose session is live, or a
    key or account that is neither revoked nor expired) and the policy grants
    that principal the permission the path requires.  (Scopes of another type
    are passed on without a check.) *)
Theorem middleware_sound (t : nat → float) (path : string) (headers : dict string string) (st : AuthState) :
  auth_is_public cfg path = false →
  ∃ outcome, (middleware_call cfg policy required_permissions t true path headers st).1 = Ok outcome ∧
    (outcome = ToApp → ∃ p, proven t st (credential headers).1 (credential headers).2 p ∧
       ∀ perm, required path = Some perm → policy_check policy p perm None = true).
Proof.
  intros Hpub. unfold middleware_call. rewrite Hpub. simpl.
  destruct (authenticate t headers None st) as [[p|e] st'] eqn:E.
  - apply authenticate_proven in E. rewrite require_permission_spec. unfold enforce.
    destruct (required path) as [perm|].
    + destruct (policy_check policy p perm None) eqn:Ec; simpl; eexists; (split; [done|]).
      * intros _. exists p. split; [done|]. by intros ? [= <-].
      * done.
    + exists ToApp. split; [done|]. intros _. exists p. by split.
  - exists (auth_failure e). split; [done|]. by destruct e.
Qed.

(** A token whose session was revoked is answered with status 500, not 401:
    [SessionExpiredError] is none of the exceptions the middleware knows. *)
Theorem dead_session_answers_500 (t : nat → float) (path value : string) (st : AuthState) (c : TokenClaims) :
  auth_is_public cfg path = false →
  (jwt_validate (t 0%nat) (t 1%nat) (strip value) "access" (au_jwt st)).1 = Ok c →
  truthy (tc_session c) = true → session_dead (tc_session c) (au_sessions st) →
  (middleware_call cfg policy required_permissions t true path
     [("authorization", "bearer " +:+ value)] st).1 = Ok (Respond 500 "authentication error").
Proof.
  intros Hpub Hv Hs Hd. unfold middleware_call. rewrite Hpub. cbn [negb].
  assert (∃ e, (auth_validate t (strip value) st).1 = Err (SessionExpiredError e)) as [e He].
  { unfold auth_validate, mbind, SE_bind, on_jwt.
    destruct (jwt_validate _ _ (strip value) "access" (au_jwt st)) as [r j']. simpl in Hv. subst r.
    rewrite Hs. unfold on_sessions, session_validate, mbind, SE_bind, session_get, sr_get. simpl.
    destruct (dict_get _ _) as [s|] eqn:Eg; [rewrite (Hd s Eg)|]; eauto. }
  assert (authenticate t [("authorization", "bearer " +:+ value)] None st = auth_validate t (strip value) st)
    as ->.
  { unfold authenticate. cbn [authorization_of lowered foldl dict_get]. done. }
  destruct (auth_validate t (strip value) st) as [r st']. simpl in He. by subst r.
Qed.
End Spec.
End AuthManagerSpec.

(** * Authentication: the theorems at concrete inputs

    Instances of the library interfaces that satisfy their laws, a user who
    logs in, and the theorems of the authentication files applied to what
    happens then. *)

Module AuthDemo.
Import AuthModel AuthPolicy AuthSessions AuthTokens AuthTokensSpec AuthKeys AuthPasswords AuthManager AuthManagerSpec.
Open Scope string_scope.
Open Scope Z_scope.

(** ** JSON as numbers written in binary *)

#[local] Instance float_countable : Countable float.
Proof.
  apply (inj_countable'
    (λ f, match f with
          | S754_zero s => (0, s, 1%positive, 0)
          | S754_infinity s => (1, s, 1%positive, 0)
          | S754_nan => (2, false, 1%positive, 0)
          | S754_finite s m e => (3, s, m, e)
          end)
    (λ x, match x with
          | (0, s, _, _) => S754_zero s
          | (1, s, _, _) => S754_infinity s
          | (2, _, _, _) => S754_nan
          | (_, s, m, e) => S754_finite s m e
          end)).
  abstract by intros [].
Defined.

#[local] Instance JVal_eq_dec : EqDecision JVal.
Proof. solve_decision. Defined.

#[local] Instance JVal_countable : Countable JVal.
Proof.
  apply (inj_countable'
    (λ v, match v with
          | JStr s => inl (inl s) | JStrs l => inl (inr l) | JFloat f => inr (inl f) | JElse n => inr (inr n)
          end)
    (λ x, match x with
          | inl (inl s) => JStr s | inl (inr l) => JStrs l | inr (inl f) => JFloat f | inr (inr n) => JElse n
          end)).
  abstract by intros [].
Defined.

Fixpoint bits (p : positive) : string :=
  match p with xH => "" | xO p => String "0" (bits p) | xI p => String "1" (bits p) end.

Fixpoint unbits (s : string) : positive :=
  match s with
  | EmptyString => xH
  | String a s => if decide (a = "0"%char) then xO (unbits s) else xI (unbits s)
  end.

Lemma unbits_bits p : unbits (bits p) = p.
Proof. induction p as [p IH|p IH|]; simpl; [by rewrite IH..|done]. Qed.

(** ** Four letters per byte *)

Definition letter (n : nat) : ascii := ascii_of_nat (65 + n).

Fixpoint spell (s : string) : string :=
  match s with
  | EmptyString => EmptyString
  | String a s =>
      let n := nat_of_ascii a in
      String "A" (String "A" (String (letter (n / 16)) (String (letter (n mod 16)) (spell s))))
  end.

Fixpoint unspell (s : string) : option string :=
  match s with
  | EmptyString => Some EmptyString
  | String _ (String _ (String h (String l s))) =>
      match unspell s with
      | Some t => Some (String (ascii_of_nat (16 * (nat_of_ascii h - 65) + (nat_of_ascii l - 65))) t)
      | None => None
      end
  | _ => None
  end.

Lemma letter_facts a :
  let h := letter (nat_of_ascii a / 16) in let l := letter (nat_of_ascii a mod 16) in
  ascii_of_nat (16 * (nat_of_ascii h - 65) + (nat_of_ascii l - 65)) = a ∧
  all_chars (λ c, is_ascii c && negb (bool_decide (c = "="%char)) && negb (bool_decide (c = "."%char)))
    (String h (String l "")) = true.
Proof. destruct a as [[] [] [] [] [] [] [] []]; vm_compute; done. Qed.

Lemma unspell_spell s : unspell (spell s) = Some s.
Proof.
  induction s as [|a s IH]; [done|]. cbn [spell unspell]. rewrite IH.
  by destruct (letter_facts a) as [-> _].
Qed.

Lemma spell_chars s :
  no_char "=" (spell s) = true ∧ no_char "." (spell s) = true ∧ all_chars is_ascii (spell s) = true ∧
  Z.of_nat (String.length (spell s)) mod 4 = 0.
Proof.
  induction s as [|a s (IH1 & IH2 & IH3 & IH4)]; [done|].
  destruct (letter_facts a) as [_ H]. cbn [all_chars] in H.
  set (h := letter _) in *. set (l := letter (_ mod _)) in *. bool_to_prop.
  cbn [spell no_char all_chars String.length]. fold h l. rewrite IH1, IH2, IH3.
  rewrite !bool_decide_eq_false_2 by done. split; [done|]. split; [done|]. split.
  - repeat match goal with H : is_ascii _ = true |- _ => rewrite H end. done.
  - rewrite !Nat2Z.inj_succ. replace (Z.succ _) with (Z.of_nat (String.length (spell s)) + 1 * 4) by lia.
    by rewrite Z.mod_add.
Qed.

#[local] Instance demo_env : TokenEnv := {
  urlsafe_b64encode := spell;
  urlsafe_b64decode := unspell;
  json_dumps d := bits (encode d);
  json_loads s := JObj <$> decode (unbits s);
  hmac_sha256 key text := key +:+ ":" +:+ String.substring 0 8 text;
  sha256_hex s := s;
  float_str _ := "";
  val_str _ := "";
  val_list _ := None;
  val_float _ := None
}.

#[local] Instance demo_laws : TokenLaws.
Proof.
  split; simpl.
  - apply unspell_spell.
  - intros s. exists (spell s), 0%nat. destruct (spell_chars s) as (H1 & H2 & H3 & H4).
    split_and!; try done; [by rewrite str_app_nil|lia|]. by rewrite Z.add_0_r.
  - intros d. rewrite unbits_bits, decode_encode. done.
Qed.

#[local] Instance demo_penv : PasswordEnv := {
  pbkdf2_sha256 password salt n := password +:+ salt;
  hmac_sha1 key text := [1; 2; 3; 4; 5];
  b32decode s := Some s
}.

(** ** A user logs in *)

Definition cfg : AuthConfig := default_auth_config.
Definition at_ (n : Z) : nat → float := λ i, zf n.
Definition gen (p : string) : nat → string := λ i, p +:+ str_of_Z (Z.of_nat i).

Definition st0 : AuthState :=
  mk_auth [] [] (mk_jwt (new_key_store "k" 86400 5 (zf 1)) []) [] [].

Definition st1 : AuthState :=
  (register_user cfg (at_ 10) (gen "u") "ada" "Secret1!" "t1" "" ["viewer"] (Some "u1") "" st0).2.

Definition logged : result AuthExn AuthResult * AuthState :=
  login cfg None (at_ 100) (gen "a") "ada" "Secret1!" "t1" "web" None "local"
    (Err (AuthProviderNotFound "local")) st1.

Definition st2 : AuthState := logged.2.

Definition no_pair : TokenPair := mk_pair "" "" "" "" 0.
Definition pair2 : TokenPair :=
  match logged.1 with Ok r => default no_pair (res_pair r) | Err _ => no_pair end.

Definition no_claims : TokenClaims := mk_claims "" "" [] "" "" "" fzero fzero.
Definition claims_of (token : string) : TokenClaims := default no_claims (token_claims token).

Example login_session :
  tc_session (claims_of (refresh_token pair2)) = session_id (gen "a" 0%nat) ∧
  tc_session (claims_of (access_token pair2)) = session_id (gen "a" 0%nat) ∧
  is_ok (auth_validate (at_ 200) (access_token pair2) st2).1 = true.
Proof. vm_compute. done. Qed.

Lemma pair_of_fst {A B} (p : A * B) a : p.1 = a → p = (a, p.2).
Proof. destruct p. simpl. congruence. Qed.

Lemma refresh_claims : token_claims (refresh_token pair2) = Some (claims_of (refresh_token pair2)).
Proof. vm_compute. reflexivity. Qed.
Lemma access_claims : token_claims (access_token pair2) = Some (claims_of (access_token pair2)).
Proof. vm_compute. reflexivity. Qed.
Lemma logout_ok : (logout (at_ 300) (refresh_token pair2) st2).1 = Ok (gen "a" 2%nat).
Proof. vm_compute. reflexivity. Qed.
Lemma st2_keyed : keyed s_id (au_sessions st2).
Proof.
  split; [apply (bool_decide_unpack _); vm_compute; exact I|]. vm_compute. repeat constructor.
Qed.

(** A login after the logout, with another session id. *)
Definition later : list AuthOp :=
  [ALogin (at_ 400) (gen "b") "ada" "Secret1!" "t1" "web" None "local" (Err (AuthProviderNotFound "local"))].

Lemma logout_ends_session_witness :
  is_ok (auth_validate (at_ 500) (access_token pair2)
    (auth_run cfg None later (logout (at_ 300) (refresh_token pair2) st2).2)).1 = false.
Proof.
  refine (proj1 (logout_ends_session cfg None (at_ 300) (refresh_token pair2) st2
    (logout (at_ 300) (refresh_token pair2) st2).2 (gen "a" 2%nat)
    (claims_of (refresh_token pair2)) later (at_ 500) (gen "c") (access_token pair2)
    (claims_of (access_token pair2)) _ _ _ _ _ _ _)).
  - exact st2_keyed.
  - exact (pair_of_fst _ _ logout_ok).
  - exact refresh_claims.
  - vm_compute. reflexivity.
  - constructor; [|constructor]. apply (bool_decide_unpack _). vm_compute. exact I.
  - exact access_claims.
  - vm_compute. reflexivity.
Defined.

Definition refreshed : result AuthExn TokenPair * AuthState :=
  auth_refresh cfg (at_ 300) (gen "r") (refresh_token pair2) st2.
Definition pair3 : TokenPair := match refreshed.1 with Ok p => p | Err _ => no_pair end.

Lemma refresh_ok : refreshed.1 = Ok pair3.
Proof. vm_compute. reflexivity. Qed.

Lemma refresh_single_use_witness :
  is_ok (auth_refresh cfg (at_ 500) (gen "s") (refresh_token pair2)
    (auth_run cfg None [ARefresh (at_ 400) (gen "q") (refresh_token pair2)] refreshed.2)).1 = false.
Proof.
  refine (refresh_single_use cfg None (at_ 300) (gen "r") (refresh_token pair2) st2 refreshed.2 pair3
    (claims_of (refresh_token pair2)) [ARefresh (at_ 400) (gen "q") (refresh_token pair2)] (at_ 500) (gen "s")
    _ _ _ _ _ _).
  - exact refresh_claims.
  - exact (pair_of_fst _ _ refresh_ok).
  - constructor; [|constructor]. intros r [i ->]. vm_compute. reflexivity.
  - constructor; [|constructor]. intros tok c Htok Hc _.
    change (Some (refresh_token pair2) = Some tok) in Htok. apply (inj Some) in Htok.
    rewrite <- Htok, refresh_claims in Hc. apply (inj Some) in Hc. rewrite Hc. reflexivity.
  - vm_compute. reflexivity.
  - left. vm_compute. reflexivity.
Defined.

(** Three rotations later the token of the login still parses, five later not. *)
Lemma token_round_trip_witness :
  ∃ token, jwt_issue cfg (zf 5) "id" no_claims (au_jwt st0) = Ok token ∧
    jwt_claims token (rotations [(zf 6, "k1"); (zf 7, "k2"); (zf 8, "k3")] (au_jwt st0))
    = (if zlen [(zf 6, "k1"); (zf 7, "k2"); (zf 8, "k3")] <? ks_max_history (jm_keys (au_jwt st0))
       then Ok (completed_claims cfg (zf 5) "id" no_claims)
       else Err (InvalidTokenError "Unknown signing key")).
Proof.
  eexists. split; [reflexivity|]. apply (token_round_trip cfg (zf 5) "id" no_claims (au_jwt st0)).
  - split; [discriminate|vm_compute; discriminate].
  - reflexivity.
  - repeat constructor; apply (bool_decide_unpack _); vm_compute; exact I.
Defined.

Lemma manager_sessions_bounded_witness :
  sr_count_active "u1" (au_sessions (auth_run cfg None
    [ALogin (at_ 1) (gen "a") "ada" "Secret1!" "t1" "web" None "local" (Err (AuthProviderNotFound "local"));
     ALogin (at_ 2) (gen "b") "ada" "Secret1!" "t1" "web" None "local" (Err (AuthProviderNotFound "local"))]
    st1)) <= 5.
Proof.
  apply (manager_sessions_bounded cfg None _ st1 "u1"); [vm_compute; discriminate|vm_compute; reflexivity].
Defined.

Definition bad (n : Z) : (nat → float) * string := (at_ n, "guess").

Lemma st1_user : is_user "ada" "t1" (default (mk_user "" "" "" "" USER_ACTIVE [] "" "" 0 fzero fzero fzero)
  (dict_get "u1" (au_users st1))) (au_users st1).
Proof.
  split; [split; [apply (bool_decide_unpack _); vm_compute; exact I|vm_compute; repeat constructor]|].
  vm_compute. reflexivity.
Qed.

Lemma lockout_enforced_witness :
  local_authenticate cfg (at_ 100) "ada" "Secret1!" "t1"
    (foldl (bad_login cfg "ada" "t1") (au_users st1) ([bad 11; bad 12; bad 13; bad 14] ++ [bad 15])%list)
  = (Err (AccountLockedError (fadd (zf 15) (zf 300))),
     foldl (bad_login cfg "ada" "t1") (au_users st1) ([bad 11; bad 12; bad 13; bad 14] ++ [bad 15])%list).
Proof.
  refine (lockout_enforced cfg "ada" "t1" _ (au_users st1) [bad 11; bad 12; bad 13; bad 14] (at_ 15) "guess"
    (at_ 100) "Secret1!" st1_user _ _ _ _ _ _ _); try (vm_compute; reflexivity).
  repeat (apply Forall_cons_2; [split; vm_compute; reflexivity|]). apply Forall_nil_2.
Defined.

Definition perms : dict string string := [("/admin", "manage:keys"); ("/models", "read:models")].

Lemma middleware_sound_witness :
  ∃ outcome, (middleware_call cfg (new_policy None None) perms (at_ 200) true "/models"
                [("Authorization", "Bearer " +:+ access_token pair2)] st2).1 = Ok outcome ∧
    (outcome = ToApp → ∃ p, proven (at_ 200) st2 "bearer" (access_token pair2) p ∧
       ∀ perm, required perms "/models" = Some perm → policy_check (new_policy None None) p perm None = true).
Proof.
  pose proof (middleware_sound cfg (new_policy None None) perms (at_ 200) "/models"
    [("Authorization", "Bearer " +:+ access_token pair2)] st2 ltac:(vm_compute; reflexivity)) as H.
  assert (credential [("Authorization", "Bearer " +:+ access_token pair2)]
          = ("bearer", access_token pair2)) as E by (vm_compute; reflexivity).
  rewrite E in H. exact H.
Defined.

(** The request above is forwarded; the same one for [/admin] is not. *)
Example middleware_outcomes :
  (middleware_call cfg (new_policy None None) perms (at_ 200) true "/models"
     [("Authorization", "Bearer " +:+ access_token pair2)] st2).1 = Ok ToApp ∧
  (middleware_call cfg (new_policy None None) perms (at_ 200) true "/admin"
     [("Authorization", "Bearer " +:+ access_token pair2)] st2).1
  = Ok (Respond 403 "permission denied: manage:keys").
Proof. vm_compute. done. Qed.

(** ** Keys *)

Definition made : (APIKey * string) * KeyRepo :=
  key_generate cfg (zf 10) (zf 10) "key_1" "s1" "t1" "ci" ["read"] None "u1" [].

Lemma api_key_revocation_final_witness :
  (key_authenticate (zf 30) (zf 30) made.1.2 None
     (key_run cfg [KGenerate (zf 20) (zf 20) "key_2" "s2" "t1" "ci" [] None "u1"]
        (key_revoke (ak_id made.1.1) made.2).2)).1 = Err (APIKeyError "API key revoked").
Proof.
  apply (api_key_revocation_final cfg made.2 made.1.1 made.1.2).
  - split; [apply (bool_decide_unpack _); vm_compute; exact I|vm_compute; repeat constructor].
  - vm_compute. reflexivity.
  - vm_compute. reflexivity.
  - intros kid k H _. apply dict_get_elem_of in H. apply list_elem_of_singleton in H. by injection H as -> _.
  - split; [|exact I]. intros kid raw [= <- <-]. split; [vm_compute; reflexivity|].
    apply (bool_decide_unpack _). vm_compute. exact I.
Defined.
End AuthDemo.
