(* ===== verification/BillingModel.v ===== *)
(** * Billing: data, plans, lifecycle, coupons, taxes, usage, payments

    [src/app/billing/models.py], [plans.py], [lifecycle.py], [coupons.py],
    [taxation.py], [usage.py], [providers.py] and the in-memory repositories of
    [repository.py].  What a payment provider's server answers is an argument;
    free-form metadata is left out, except the rates of a plan. *)

From Stdlib Require Import ZArith Lia.
From stdpp Require Import base numbers strings gmap list.
From S2P Require Import Prelude PyFloat PyNum PyStr PyDict PyMath.

Module BillingModel.
Open Scope string_scope.
Open Scope Z_scope.

(** ** Data *)

Inductive PlanTier := TIER_FREE | TIER_STARTER | TIER_PROFESSIONAL | TIER_TEAM | TIER_ENTERPRISE | TIER_CUSTOM.

Inductive SubscriptionStatus := SUB_TRIAL | SUB_ACTIVE | SUB_PAST_DUE | SUB_PAUSED | SUB_CANCELLED.

Inductive InvoiceStatus := INV_DRAFT | INV_PENDING | INV_PAID | INV_OVERDUE | INV_VOID.

Inductive PaymentStatus := PAY_PENDING | PAY_COMPLETED | PAY_FAILED | PAY_REFUNDED.

Inductive CouponType := COUPON_PERCENT | COUPON_FIXED_AMOUNT | COUPON_TRIAL_EXTENSION.

Inductive UsageCategory :=
  | TOKENS | API_REQUESTS | VECTOR_STORAGE | EMBEDDINGS | MCP_CALLS | PLUGINS | UPLOADS | ACTIVE_USERS.

Instance SubscriptionStatus_eq_dec : EqDecision SubscriptionStatus.
Proof. solve_decision. Defined.
Instance InvoiceStatus_eq_dec : EqDecision InvoiceStatus.
Proof. solve_decision. Defined.
Instance PaymentStatus_eq_dec : EqDecision PaymentStatus.
Proof. solve_decision. Defined.
Instance UsageCategory_eq_dec : EqDecision UsageCategory.
Proof. solve_decision. Defined.

Definition sub_status_value (s : SubscriptionStatus) : string :=
  match s with
  | SUB_TRIAL => "trialing" | SUB_ACTIVE => "active" | SUB_PAST_DUE => "past_due"
  | SUB_PAUSED => "paused" | SUB_CANCELLED => "cancelled"
  end.

Definition category_value (c : UsageCategory) : string :=
  match c with
  | TOKENS => "tokens" | API_REQUESTS => "api_requests" | VECTOR_STORAGE => "vector_storage"
  | EMBEDDINGS => "embeddings" | MCP_CALLS => "mcp_calls" | PLUGINS => "plugins"
  | UPLOADS => "uploads" | ACTIVE_USERS => "active_users"
  end.

Definition CATEGORIES : list UsageCategory :=
  [TOKENS; API_REQUESTS; VECTOR_STORAGE; EMBEDDINGS; MCP_CALLS; PLUGINS; UPLOADS; ACTIVE_USERS].

(** A tier of the tiered price; the entries of [limits] are numbers, and under
    the key [tiers] possibly a list of tiers. *)
Record PriceTier := mk_tier { pt_threshold : Z; pt_price : float; pt_dimension : string }.

Inductive LimitValue := LInt (n : Z) | LTiers (l : list PriceTier).

Record Plan := mk_plan {
  pl_id : string;
  pl_name : string;
  pl_tier : PlanTier;
  pl_price_monthly : float;
  pl_price_annual : float;
  pl_limits : dict string LimitValue;
  pl_features : list string;
  pl_supports_trial : bool;
  pl_is_custom : bool;
  pl_pricing_strategy : string;
  pl_rates : dict string float
}.

Definition price_for (interval : string) (p : Plan) : float :=
  if bool_decide (interval = "annual") then pl_price_annual p else pl_price_monthly p.

Record Subscription := mk_sub {
  sb_id : string;
  sb_tenant : string;
  sb_plan : string;
  sb_status : SubscriptionStatus;
  sb_interval : string;
  sb_seats : Z;
  sb_price : float;
  sb_started_at : float;
  sb_period_start : float;
  sb_period_end : float;
  sb_trial_end : float;
  sb_grace_end : float;
  sb_cancel_at_end : bool;
  sb_cancelled_at : float;
  sb_auto_renew : bool;
  sb_provider : string;
  sb_coupon : string;
  sb_created_at : float;
  sb_updated_at : float
}.

Record InvoiceLine := mk_line {
  il_description : string;
  il_quantity : Z;
  il_unit_amount : float;
  il_category : string
}.

Definition line_amount (l : InvoiceLine) : float :=
  py_round (fmul (zf (il_quantity l)) (il_unit_amount l)) 4.

Record Invoice := mk_invoice {
  iv_id : string;
  iv_number : string;
  iv_tenant : string;
  iv_subscription : string;
  iv_lines : list InvoiceLine;
  iv_subtotal : float;
  iv_discount : float;
  iv_tax : float;
  iv_total : float;
  iv_currency : string;
  iv_status : InvoiceStatus;
  iv_period_start : float;
  iv_period_end : float;
  iv_due_at : float;
  iv_paid_at : float;
  iv_coupon : string;
  iv_created_at : float
}.

Record Payment := mk_payment {
  py_id : string;
  py_tenant : string;
  py_invoice : string;
  py_amount : float;
  py_provider : string;
  py_method : string;
  py_status : PaymentStatus;
  py_reference : string;
  py_created_at : float
}.

Record Coupon := mk_coupon {
  cp_code : string;
  cp_type : CouponType;
  cp_value : float;
  cp_max_redemptions : Z;
  cp_redemptions : Z;
  cp_expires_at : float;
  cp_applies_to : list string;
  cp_made_at : float
}.

Record UsageRecord := mk_usage {
  us_tenant : string;
  us_category : UsageCategory;
  us_amount : Z;
  us_recorded_at : float
}.

Record BillingConfig := mk_billing_config {
  bc_currency : string;
  bc_tax_rate : float;
  bc_default_provider : string;
  bc_default_interval : string;
  bc_trial_days : Z;
  bc_grace_days : Z;
  bc_invoice_prefix : string;
  bc_invoice_due_days : Z;
  bc_default_free_plan : string;
  bc_prorate_changes : bool;
  bc_auto_renew : bool;
  bc_track_metrics : bool
}.

Definition default_billing_config : BillingConfig :=
  mk_billing_config "USD" fzero "manual" "monthly" 14 3 "AIR-" 7 "free" true true true.

(** The classes of [exceptions.py]; [OtherError] is any exception that is not
    a [BillingError]. *)
Inductive BillError :=
  | BillingError (m : string)
  | PlanNotFoundError (plan_id : string)
  | SubscriptionNotFoundError (id : string)
  | SubscriptionAlreadyExistsError (tenant_id : string)
  | InvalidTransitionError (current target : string)
  | InvoiceNotFoundError (id : string)
  | InvoiceAlreadyPaidError (id : string)
  | InvoiceError (m : string)
  | PaymentFailedError (m : string)
  | PaymentError (m : string)
  | ProviderConfigurationError (provider : string)
  | CouponNotFoundError (code : string)
  | CouponExpiredError (code : string)
  | CouponExhaustedError (code : string)
  | CouponInvalidError (code : string)
  | UsageRecordingError (m : string)
  | WebhookVerificationError (provider : string)
  | WebhookEventError (m : string)
  | OtherError (m : string).

Instance BillError_eq_dec : EqDecision BillError.
Proof. solve_decision. Defined.

(** ** Plans and prices *)

Definition limits8 (tokens requests storage embeddings mcp plugins uploads users : Z)
    : dict string LimitValue :=
  [("tokens", LInt tokens); ("api_requests", LInt requests); ("vector_storage", LInt storage);
   ("embeddings", LInt embeddings); ("mcp_calls", LInt mcp); ("plugins", LInt plugins);
   ("uploads", LInt uploads); ("active_users", LInt users)].

Definition std_plan (id name : string) (tier : PlanTier) (monthly annual : Z)
    (limits : dict string LimitValue) (features : list string) (trial custom : bool) : string * Plan :=
  (id, mk_plan id name tier (zf monthly) (zf annual) limits features trial custom "flat" []).

Abbreviation Catalog := (dict string Plan).

Definition PlanCatalog : Catalog :=
  [std_plan "free" "Free" TIER_FREE 0 0 (limits8 100000 1000 100 5000 50 1 20 1)
     ["1 active user"; "1 plugin"; "Community support"] false false;
   std_plan "starter" "Starter" TIER_STARTER 29 290 (limits8 2000000 50000 2000 100000 500 3 200 5)
     ["5 users"; "3 plugins"; "MCP access"] true false;
   std_plan "professional" "Professional" TIER_PROFESSIONAL 99 990
     (limits8 10000000 250000 20000 500000 2000 10 1000 20) ["20 users"; "10 plugins"; "Webhooks"] true false;
   std_plan "team" "Team" TIER_TEAM 299 2990 (limits8 50000000 1000000 100000 2000000 10000 25 5000 100)
     ["100 users"; "25 plugins"; "SSO"; "Audit logs"] true false;
   std_plan "enterprise" "Enterprise" TIER_ENTERPRISE 999 9990
     (limits8 200000000 5000000 500000 10000000 50000 100 25000 500)
     ["500 users"; "100 plugins"; "Dedicated support"; "SLA"] true false;
   std_plan "custom" "Custom" TIER_CUSTOM 0 0 (limits8 0 0 0 0 0 0 0 0)
     ["Tailored limits"; "Custom contract"] false true].

Definition catalog_get (plan_id : string) (c : Catalog) : result BillError Plan :=
  match dict_get plan_id c with Some p => Ok p | None => Err (PlanNotFoundError plan_id) end.

Definition catalog_register (p : Plan) (c : Catalog) : Catalog := dict_set (pl_id p) p c.

Definition catalog_remove (plan_id : string) (c : Catalog) : bool * Catalog :=
  (dict_mem plan_id c, dict_pop plan_id c).

Definition limit_int (v : LimitValue) : result BillError Z :=
  match v with LInt n => Ok n | LTiers _ => Err (OtherError "TypeError") end.

Definition base_price (p : Plan) (seats : Z) (interval : string) : float :=
  fmul (price_for interval p) (zf (Z.max 1 seats)).

Definition tiered_price (p : Plan) (usage : dict string Z) (seats : Z) (interval : string) : float :=
  let tiers := match dict_get "tiers" (pl_limits p) with Some (LTiers l) => l | _ => [] end in
  py_round (foldl (λ total t, if pt_threshold t <? default 0 (dict_get (pt_dimension t) usage)
                              then fadd total (pt_price t) else total)
              (base_price p seats interval) tiers) 4.

(** The loop over the limits; a list under a key other than [tiers] makes
    [int] raise. *)
Fixpoint overage_loop (p : Plan) (usage : dict string Z) (limits : dict string LimitValue) (total : float)
    : result BillError float :=
  match limits with
  | [] => Ok total
  | (dimension, included) :: rest =>
      if startswith "_" dimension || bool_decide (dimension = "tiers") then overage_loop p usage rest total
      else
        let used := default 0 (dict_get dimension usage) in
        let rate := default fzero (dict_get (dimension +:+ "_rate") (pl_rates p)) in
        if is_fzero rate then overage_loop p usage rest total
        else match limit_int included with
             | Err e => Err e
             | Ok inc =>
                 overage_loop p usage rest
                   (if inc <? used then fadd total (fmul (zf (used - inc)) rate) else total)
             end
  end.

(** [PricingStrategyFactory.create(name).compute(...)]; an unknown name is the
    flat strategy. *)
Definition compute_price (strategy : string) (p : Plan) (usage : dict string Z) (seats : Z)
    (interval : string) : result BillError float :=
  if bool_decide (strategy = "tiered") then Ok (tiered_price p usage seats interval)
  else if bool_decide (strategy = "usage") then
    match overage_loop p usage (pl_limits p) (base_price p seats interval) with
    | Ok t => Ok (py_round t 4)
    | Err e => Err e
    end
  else Ok (base_price p seats interval).

(** [PricingEngine.price(...)["amount"]] *)
Definition price_amount (c : Catalog) (plan_id : string) (usage : dict string Z) (seats : Z)
    (interval : string) (strategy : option string) : result BillError float :=
  match catalog_get plan_id c with
  | Err e => Err e
  | Ok p =>
      match compute_price (str_or (default "" strategy) (pl_pricing_strategy p)) p usage seats interval with
      | Ok a => Ok (py_round a 4)
      | Err e => Err e
      end
  end.

Definition create_custom_plan (plan_id name : string) (price : float)
    (limits : option (dict string LimitValue)) (features : list string) (strategy : string) (c : Catalog)
    : Plan * Catalog :=
  let limits := match limits with Some ((_ :: _) as l) => l | _ => limits8 0 0 0 0 0 0 0 0 end in
  let p := mk_plan plan_id name TIER_CUSTOM price (fmul price (zf 10)) limits features false true strategy [] in
  (p, catalog_register p c).

(** ** The lifecycle *)

Definition allowed_targets (s : SubscriptionStatus) : list SubscriptionStatus :=
  match s with
  | SUB_TRIAL => [SUB_ACTIVE; SUB_PAST_DUE; SUB_PAUSED; SUB_CANCELLED]
  | SUB_ACTIVE => [SUB_PAST_DUE; SUB_PAUSED; SUB_CANCELLED; SUB_TRIAL]
  | SUB_PAST_DUE => [SUB_ACTIVE; SUB_CANCELLED; SUB_PAUSED]
  | SUB_PAUSED => [SUB_ACTIVE; SUB_CANCELLED]
  | SUB_CANCELLED => [SUB_ACTIVE]
  end.

Definition sub_can_transition (s target : SubscriptionStatus) : bool :=
  bool_decide (target ∈ allowed_targets s).

(** ** Coupons *)

Abbreviation CouponRepo := (dict string Coupon).

Definition coupon_store (c : Coupon) (r : CouponRepo) : CouponRepo := dict_set (upper (cp_code c)) c r.

Definition coupon_get (code : string) (r : CouponRepo) : result BillError Coupon :=
  match dict_get (upper code) r with Some c => Ok c | None => Err (CouponNotFoundError code) end.

Definition coupon_create (code : string) (type : CouponType) (value : float) (max : Z) (expires : float)
    (applies_to : list string) (now : float) (r : CouponRepo) : Coupon * CouponRepo :=
  let c := mk_coupon (upper code) type value max 0 expires applies_to now in
  (c, coupon_store c r).

Definition coupon_delete (code : string) (r : CouponRepo) : bool * CouponRepo :=
  (dict_mem (upper code) r, dict_pop (upper code) r).

Definition coupon_validate (code plan_id : string) (now : float) (r : CouponRepo) : result BillError Coupon :=
  match coupon_get code r with
  | Err e => Err e
  | Ok c =>
      if negb (is_fzero (cp_expires_at c)) && flt (cp_expires_at c) now then Err (CouponExpiredError code)
      else if negb (cp_max_redemptions c =? 0) && (cp_max_redemptions c <=? cp_redemptions c) then
        Err (CouponExhaustedError code)
      else if truthy plan_id && negb (bool_decide (cp_applies_to c = []))
              && negb (bool_decide (plan_id ∈ cp_applies_to c)) then Err (CouponInvalidError code)
      else Ok c
  end.

Definition redeemed (c : Coupon) : Coupon :=
  mk_coupon (cp_code c) (cp_type c) (cp_value c) (cp_max_redemptions c) (cp_redemptions c + 1)
    (cp_expires_at c) (cp_applies_to c) (cp_made_at c).

(** [redeem]; [update] looks the coupon up by its own code. *)
Definition coupon_redeem (code plan_id : string) (now : float) : SE BillError CouponRepo Coupon := λ r,
  match coupon_validate code plan_id now r with
  | Err e => (Err e, r)
  | Ok c =>
      if dict_mem (upper (cp_code c)) r then (Ok (redeemed c), coupon_store (redeemed c) r)
      else (Err (CouponNotFoundError (cp_code c)), r)
  end.

Definition coupon_discount (code : string) (subtotal : float) (plan_id : string) (now : float) (r : CouponRepo)
    : result BillError float :=
  match coupon_validate code plan_id now r with
  | Err e => Err e
  | Ok c =>
      Ok match cp_type c with
         | COUPON_PERCENT => py_round (fdiv (fmul subtotal (cp_value c)) (zf 100)) 4
         | COUPON_FIXED_AMOUNT => fmin subtotal (cp_value c)
         | COUPON_TRIAL_EXTENSION => fzero
         end
  end.

(** ** Taxes *)

Definition DEFAULT_JURISDICTIONS : dict string float :=
  [("US", fzero); ("GB", flit 2 10); ("DE", flit 19 100); ("SG", flit 9 100); ("ID", flit 11 100)].

Definition register_jurisdiction (code : string) (rate : float) (j : dict string float) : dict string float :=
  dict_set (upper code) rate j.

Definition rate_for (cfg : BillingConfig) (j : dict string float) (country : string) : float :=
  if truthy country then default (bc_tax_rate cfg) (dict_get (upper country) j) else bc_tax_rate cfg.

Definition tax (cfg : BillingConfig) (j : dict string float) (subtotal : float) (country : string) : float :=
  py_round (fmul subtotal (rate_for cfg j country)) 4.

(** ** Usage *)

Definition category_of (name : string) : option UsageCategory :=
  List.find (λ c, bool_decide (category_value c = name)) CATEGORIES.

Definition usage_record (tenant category : string) (amount : Z) (now : float) (l : list UsageRecord)
    : result BillError (list UsageRecord) :=
  match category_of category with
  | None => Err (UsageRecordingError "Unknown usage category")
  | Some c =>
      if amount <? 0 then Err (UsageRecordingError "Usage amount cannot be negative")
      else Ok (l ++ [mk_usage tenant c amount now])%list
  end.

Definition usage_in_window (tenant : string) (since : float) (u : UsageRecord) : bool :=
  bool_decide (us_tenant u = tenant) && fle since (us_recorded_at u).

Definition usage_total (tenant category : string) (since : float) (l : list UsageRecord) : Z :=
  foldl (λ total u, if usage_in_window tenant since u && bool_decide (category_value (us_category u) = category)
                    then total + us_amount u else total) 0 l.

Definition add_usage (d : dict string Z) (u : UsageRecord) : dict string Z :=
  let key := category_value (us_category u) in
  dict_set key (default 0 (dict_get key d) + us_amount u) d.

Definition usage_by_category (tenant : string) (since : float) (l : list UsageRecord) : dict string Z :=
  foldl (λ d u, if usage_in_window tenant since u then add_usage d u else d) [] l.

Definition usage_reset (tenant category : string) (l : list UsageRecord) : list UsageRecord :=
  List.filter (λ u, negb (bool_decide (us_tenant u = tenant)
    && (negb (truthy category) || bool_decide (category_value (us_category u) = category)))) l.

Record MeterView := mk_meter { mv_category : UsageCategory; mv_limit : Z; mv_used : Z; mv_overage : bool }.

Definition usage_snapshot (tenant : string) (limits : dict string Z) (since : float) (l : list UsageRecord)
    : list MeterView :=
  let u := usage_by_category tenant since l in
  (λ c, let used := default 0 (dict_get (category_value c) u) in
        let limit := default 0 (dict_get (category_value c) limits) in
        mk_meter c limit used ((0 <? limit) && (limit <? used))) <$> CATEGORIES.

(** ** Payment providers *)

(** [charge] of a configured provider, given the status its server answered
    ([0] when there was no answer); the manual provider asks nobody. *)
Definition provider_charge (name : string) (configured : bool) (status : Z) (pid ref_id : string) (now : float)
    (tenant : string) (amount : float) (reference method : string) : result BillError Payment :=
  let paid st := Ok (mk_payment pid tenant reference amount name method st ref_id now) in
  if bool_decide (name = "manual") then
    Ok (mk_payment pid tenant reference amount name (str_or method "bank_transfer") PAY_PENDING ref_id now)
  else if negb configured then Err (ProviderConfigurationError name)
  else if bool_decide (name = "stripe") then
    if status =? 402 then Err (PaymentFailedError "Stripe declined the charge")
    else if status =? 0 then Err (PaymentError "Stripe charge request failed")
    else paid PAY_COMPLETED
  else if bool_decide (name = "paddle") || bool_decide (name = "lemonsqueezy") then
    if status =? 200 then paid PAY_COMPLETED else Err (PaymentFailedError "could not process the payment")
  else if bool_decide (name = "midtrans") then
    if (status =? 200) || (status =? 201) then paid PAY_PENDING
    else Err (PaymentFailedError "could not process the payment")
  else if bool_decide (name = "xendit") then
    if status =? 200 then paid PAY_PENDING else Err (PaymentFailedError "could not process the payment")
  else if bool_decide (name = "paypal") then
    if status =? 201 then paid PAY_COMPLETED else Err (PaymentFailedError "could not process the payment")
  else Err (ProviderConfigurationError name).

Definition provider_names : list string :=
  ["stripe"; "paddle"; "lemonsqueezy"; "midtrans"; "xendit"; "paypal"; "manual"].

Definition refunded (p : Payment) : Payment :=
  mk_payment (py_id p) (py_tenant p) (py_invoice p) (py_amount p) (py_provider p) (py_method p)
    PAY_REFUNDED (py_reference p) (py_created_at p).

(** [refund]; only Stripe asks its server. *)
Definition provider_refund (name : string) (configured : bool) (status : Z) (p : Payment)
    : result BillError Payment :=
  if bool_decide (name = "manual") then Ok (refunded p)
  else if negb configured then Err (ProviderConfigurationError name)
  else if bool_decide (name = "stripe") && negb (status =? 200) then Err (PaymentError "Stripe refund failed")
  else Ok (refunded p).

(** ** Facts about coupons and usage *)

Definition coupons_ok (r : CouponRepo) : Prop :=
  Forall (λ e, e.1 = upper (cp_code e.2) ∧
    (cp_max_redemptions e.2 = 0 ∨ cp_redemptions e.2 <= cp_max_redemptions e.2)) r.

(** A coupon with a limit is never redeemed more often than the limit allows:
    [redeem] preserves the bound, and counts exactly one redemption when it
    succeeds and none when it does not. *)
Lemma coupon_redeem_ok code plan_id now r :
  coupons_ok r →
  coupons_ok (coupon_redeem code plan_id now r).2 ∧
  match (coupon_redeem code plan_id now r).1 with
  | Ok c => ∃ c0, coupon_get code r = Ok c0 ∧ c = redeemed c0 ∧
      coupon_get code (coupon_redeem code plan_id now r).2 = Ok c
  | Err _ => (coupon_redeem code plan_id now r).2 = r
  end.
Proof.
  intros Hr. unfold coupon_redeem, coupon_validate.
  destruct (coupon_get code r) as [c|e] eqn:Eg; [|done].
  destruct (_ && flt _ _); [done|].
  destruct (negb (cp_max_redemptions c =? 0) && _) eqn:Ex; [done|]. destruct (_ && negb _); [done|].
  destruct (dict_mem _ r); [|done]. simpl.
  assert (upper code = upper (cp_code c)) as Hcode.
  { unfold coupon_get in Eg. destruct (dict_get (upper code) r) as [c'|] eqn:E; [|done]. simplify_eq.
    apply dict_get_elem_of in E. eapply Forall_forall in Hr; [|exact E]. apply Hr. }
  split.
  - apply dict_set_Forall; [done|]. simpl. split; [done|].
    apply andb_false_iff in Ex as [Ex|Ex]; bool_to_prop; [by left|right; lia].
  - exists c. split; [done|]. split; [done|]. unfold coupon_get, coupon_store. simpl.
    by rewrite Hcode, dict_get_set_eq.
Qed.

Lemma category_value_inj c c' : category_value c = category_value c' → c = c'.
Proof. by destruct c, c'. Qed.

(** The two ways to read the usage agree: the entry of a category in the
    aggregated dictionary is the total that counting that category alone gives. *)
Lemma usage_views_agree tenant since category l :
  default 0 (dict_get category (usage_by_category tenant since l)) = usage_total tenant category since l.
Proof.
  unfold usage_by_category, usage_total.
  set (f := λ (d : dict string Z) u, _). set (g := λ (n : Z) u, _).
  cut (∀ d, default 0 (dict_get category (foldl f d l)) = foldl g (default 0 (dict_get category d)) l).
  { intros H. apply (H []). }
  induction l as [|u l IH]; intros d; [done|]. simpl. rewrite IH. f_equal. unfold f, g, add_usage.
  destruct (usage_in_window tenant since u); simpl; [|done]. rewrite dict_get_set.
  case_decide as Hk; case_bool_decide as Hc; try done. simpl. by rewrite Hc.
Qed.
End BillingModel.
