(* ===== verification/BillingManager.v ===== *)
(** * Billing: the manager

    [BillingManager] of [src/app/billing/manager.py] with the invoices
    ([invoicing.py]), the quota targets ([sync.py]), the webhook handler
    ([webhooks.py]) and the revenue snapshots ([metrics.py]).

    The repositories hand out the stored objects: an assignment to a field of a
    subscription or an invoice is visible in the store at once, also when the
    method raises afterwards.  The model performs such an assignment on the
    store itself.

    In an operation, [t i] is the [i]-th reading of the clock and [g i] the
    [i]-th generated id.  Callbacks of the event bus are taken not to raise;
    the published events are recorded. *)

From Stdlib Require Import ZArith Lia.
From stdpp Require Import base relations numbers strings gmap list.
From S2P Require Import Prelude PyFloat PyNum PyStr PyDict Quota PyMath BillingModel.


Module BillingManager.
Import BillingModel.
Open Scope string_scope.
Open Scope Z_scope.

(** ** Quota targets *)

(** The registered targets by name, the gateway's quota manager, and the
    registries of the other targets. *)
Record Targets := mk_targets {
  tg_names : list string;
  tg_gateway : QuotaManager;
  tg_vector : dict string (Z * Z * string);
  tg_mcp : dict string (Z * string);
  tg_plugins : dict string (Z * Z * string)
}.

Definition bucket_mapping (category : string) : string :=
  default category (dict_get category [("api_requests", "requests"); ("vector_storage", "storage")]).

Definition int_limit (k : string) (limits : dict string LimitValue) : result BillError Z :=
  match dict_get k limits with Some v => limit_int v | None => Ok 0 end.

(** A target either applies the limits, reports a [QuotaSyncError] ([false])
    or raises another exception. *)
Fixpoint gateway_apply (scope : string) (limits : dict string LimitValue) (q : QuotaManager)
    : bool * QuotaManager :=
  match limits with
  | [] => (true, q)
  | (bucket, limit) :: rest =>
      let gb := bucket_mapping bucket in
      if bool_decide (gb ∈ QUOTA_BUCKET_NAMES) then
        match limit_int limit with
        | Err _ => (false, q)
        | Ok n => match set_limit scope gb n q with
                  | Ok q' => gateway_apply scope rest q'
                  | Err _ => (false, q)
                  end
        end
      else gateway_apply scope rest q
  end.

Definition vector_apply (scope : string) (limits : dict string LimitValue) (plan_id : string)
    (d : dict string (Z * Z * string)) : result BillError (dict string (Z * Z * string)) :=
  match int_limit "vector_storage" limits, int_limit "embeddings" limits with
  | Ok s, Ok e => Ok (dict_set scope (s * 1024, e, plan_id) d)
  | Err e, _ | _, Err e => Err e
  end.

Definition mcp_apply (scope : string) (limits : dict string LimitValue) (plan_id : string)
    (d : dict string (Z * string)) : result BillError (dict string (Z * string)) :=
  match int_limit "mcp_calls" limits with
  | Ok n => Ok (dict_set scope (n, plan_id) d)
  | Err e => Err e
  end.

Definition plugins_apply (scope : string) (limits : dict string LimitValue) (plan_id : string)
    (d : dict string (Z * Z * string)) : result BillError (dict string (Z * Z * string)) :=
  match int_limit "plugins" limits, int_limit "uploads" limits with
  | Ok p, Ok u => Ok (dict_set scope (p, u, plan_id) d)
  | Err e, _ | _, Err e => Err e
  end.

Definition target_apply (name scope : string) (p : Plan) (ts : Targets) : result BillError (bool * Targets) :=
  if bool_decide (name = "gateway") then
    let '(ok, q) := gateway_apply scope (pl_limits p) (tg_gateway ts) in
    Ok (ok, mk_targets (tg_names ts) q (tg_vector ts) (tg_mcp ts) (tg_plugins ts))
  else if bool_decide (name = "vector_store") then
    match vector_apply scope (pl_limits p) (pl_id p) (tg_vector ts) with
    | Ok d => Ok (true, mk_targets (tg_names ts) (tg_gateway ts) d (tg_mcp ts) (tg_plugins ts))
    | Err e => Err e
    end
  else if bool_decide (name = "mcp") then
    match mcp_apply scope (pl_limits p) (pl_id p) (tg_mcp ts) with
    | Ok d => Ok (true, mk_targets (tg_names ts) (tg_gateway ts) (tg_vector ts) d (tg_plugins ts))
    | Err e => Err e
    end
  else if bool_decide (name = "plugins") then
    match plugins_apply scope (pl_limits p) (pl_id p) (tg_plugins ts) with
    | Ok d => Ok (true, mk_targets (tg_names ts) (tg_gateway ts) (tg_vector ts) (tg_mcp ts) d)
    | Err e => Err e
    end
  else Ok (true, ts).

Fixpoint sync_loop (names : list string) (scope : string) (p : Plan) (ts : Targets) (results : dict string bool)
    : result BillError (dict string bool) * Targets :=
  match names with
  | [] => (Ok results, ts)
  | n :: rest =>
      match target_apply n scope p ts with
      | Err e => (Err e, ts)
      | Ok (ok, ts') => sync_loop rest scope p ts' (dict_set n ok results)
      end
  end.

(** [QuotaSyncCoordinator.sync] *)
Definition coordinator_sync (scope : string) (p : Plan) (ts : Targets)
    : result BillError (dict string bool) * Targets :=
  sync_loop (tg_names ts) scope p ts [].

(** ** State *)

Record Revenue := mk_revenue { rv_tenant : string; rv_plan : string; rv_status : string; rv_monthly : float }.

Record BillState := mk_bill {
  b_catalog : Catalog;
  b_subs : dict string Subscription;
  b_invoices : dict string Invoice;
  b_payments : dict string Payment;
  b_coupons : CouponRepo;
  b_usage : list UsageRecord;
  b_targets : Targets;
  b_events : list (string * string);
  b_revenue : list Revenue;
  b_processed : list string
}.

Abbreviation B := (SE BillError BillState).

Definition set_subs (d : dict string Subscription) (st : BillState) : BillState :=
  mk_bill (b_catalog st) d (b_invoices st) (b_payments st) (b_coupons st) (b_usage st) (b_targets st)
    (b_events st) (b_revenue st) (b_processed st).
Definition set_invoices (d : dict string Invoice) (st : BillState) : BillState :=
  mk_bill (b_catalog st) (b_subs st) d (b_payments st) (b_coupons st) (b_usage st) (b_targets st)
    (b_events st) (b_revenue st) (b_processed st).
Definition set_payments (d : dict string Payment) (st : BillState) : BillState :=
  mk_bill (b_catalog st) (b_subs st) (b_invoices st) d (b_coupons st) (b_usage st) (b_targets st)
    (b_events st) (b_revenue st) (b_processed st).
Definition set_coupons (d : CouponRepo) (st : BillState) : BillState :=
  mk_bill (b_catalog st) (b_subs st) (b_invoices st) (b_payments st) d (b_usage st) (b_targets st)
    (b_events st) (b_revenue st) (b_processed st).
Definition set_usage_records (l : list UsageRecord) (st : BillState) : BillState :=
  mk_bill (b_catalog st) (b_subs st) (b_invoices st) (b_payments st) (b_coupons st) l (b_targets st)
    (b_events st) (b_revenue st) (b_processed st).
Definition set_targets (ts : Targets) (st : BillState) : BillState :=
  mk_bill (b_catalog st) (b_subs st) (b_invoices st) (b_payments st) (b_coupons st) (b_usage st) ts
    (b_events st) (b_revenue st) (b_processed st).
Definition add_event (e s : string) (st : BillState) : BillState :=
  mk_bill (b_catalog st) (b_subs st) (b_invoices st) (b_payments st) (b_coupons st) (b_usage st)
    (b_targets st) (b_events st ++ [(e, s)])%list (b_revenue st) (b_processed st).
Definition add_revenue (r : Revenue) (st : BillState) : BillState :=
  mk_bill (b_catalog st) (b_subs st) (b_invoices st) (b_payments st) (b_coupons st) (b_usage st)
    (b_targets st) (b_events st) (b_revenue st ++ [r])%list (b_processed st).
Definition add_processed (id : string) (st : BillState) : BillState :=
  mk_bill (b_catalog st) (b_subs st) (b_invoices st) (b_payments st) (b_coupons st) (b_usage st)
    (b_targets st) (b_events st) (b_revenue st)
    (if bool_decide (id ∈ b_processed st) then b_processed st else b_processed st ++ [id])%list.

(** Assignments to the fields of a subscription. *)
Definition put_status (x : SubscriptionStatus) (s : Subscription) : Subscription :=
  mk_sub (sb_id s) (sb_tenant s) (sb_plan s) x (sb_interval s) (sb_seats s) (sb_price s)
    (sb_started_at s) (sb_period_start s) (sb_period_end s) (sb_trial_end s) (sb_grace_end s)
    (sb_cancel_at_end s) (sb_cancelled_at s) (sb_auto_renew s) (sb_provider s) (sb_coupon s)
    (sb_created_at s) (sb_updated_at s).
Definition put_plan (plan : string) (seats : Z) (s : Subscription) : Subscription :=
  mk_sub (sb_id s) (sb_tenant s) plan (sb_status s) (sb_interval s) seats (sb_price s)
    (sb_started_at s) (sb_period_start s) (sb_period_end s) (sb_trial_end s) (sb_grace_end s)
    (sb_cancel_at_end s) (sb_cancelled_at s) (sb_auto_renew s) (sb_provider s) (sb_coupon s)
    (sb_created_at s) (sb_updated_at s).
Definition put_price (x : float) (s : Subscription) : Subscription :=
  mk_sub (sb_id s) (sb_tenant s) (sb_plan s) (sb_status s) (sb_interval s) (sb_seats s) x
    (sb_started_at s) (sb_period_start s) (sb_period_end s) (sb_trial_end s) (sb_grace_end s)
    (sb_cancel_at_end s) (sb_cancelled_at s) (sb_auto_renew s) (sb_provider s) (sb_coupon s)
    (sb_created_at s) (sb_updated_at s).
Definition put_period (a b : float) (s : Subscription) : Subscription :=
  mk_sub (sb_id s) (sb_tenant s) (sb_plan s) (sb_status s) (sb_interval s) (sb_seats s) (sb_price s)
    (sb_started_at s) a b (sb_trial_end s) (sb_grace_end s)
    (sb_cancel_at_end s) (sb_cancelled_at s) (sb_auto_renew s) (sb_provider s) (sb_coupon s)
    (sb_created_at s) (sb_updated_at s).
Definition put_trial_end (x : float) (s : Subscription) : Subscription :=
  mk_sub (sb_id s) (sb_tenant s) (sb_plan s) (sb_status s) (sb_interval s) (sb_seats s) (sb_price s)
    (sb_started_at s) (sb_period_start s) (sb_period_end s) x (sb_grace_end s)
    (sb_cancel_at_end s) (sb_cancelled_at s) (sb_auto_renew s) (sb_provider s) (sb_coupon s)
    (sb_created_at s) (sb_updated_at s).
Definition put_grace_end (x : float) (s : Subscription) : Subscription :=
  mk_sub (sb_id s) (sb_tenant s) (sb_plan s) (sb_status s) (sb_interval s) (sb_seats s) (sb_price s)
    (sb_started_at s) (sb_period_start s) (sb_period_end s) (sb_trial_end s) x
    (sb_cancel_at_end s) (sb_cancelled_at s) (sb_auto_renew s) (sb_provider s) (sb_coupon s)
    (sb_created_at s) (sb_updated_at s).
Definition put_cancel (at_end : bool) (at_ : float) (s : Subscription) : Subscription :=
  mk_sub (sb_id s) (sb_tenant s) (sb_plan s) (sb_status s) (sb_interval s) (sb_seats s) (sb_price s)
    (sb_started_at s) (sb_period_start s) (sb_period_end s) (sb_trial_end s) (sb_grace_end s)
    at_end at_ (sb_auto_renew s) (sb_provider s) (sb_coupon s)
    (sb_created_at s) (sb_updated_at s).
Definition put_updated (x : float) (s : Subscription) : Subscription :=
  mk_sub (sb_id s) (sb_tenant s) (sb_plan s) (sb_status s) (sb_interval s) (sb_seats s) (sb_price s)
    (sb_started_at s) (sb_period_start s) (sb_period_end s) (sb_trial_end s) (sb_grace_end s)
    (sb_cancel_at_end s) (sb_cancelled_at s) (sb_auto_renew s) (sb_provider s) (sb_coupon s)
    (sb_created_at s) x.

Section Manager.
Context (cfg : BillingConfig) (jurisdictions : dict string float).

(** ** Access *)

Definition plan_get (plan_id : string) : B Plan := λ st, (catalog_get plan_id (b_catalog st), st).

Definition sub_get (sid : string) : B Subscription := λ st,
  match dict_get sid (b_subs st) with
  | Some s => (Ok s, st)
  | None => (Err (SubscriptionNotFoundError sid), st)
  end.

Definition sub_create (s : Subscription) : B unit :=
  se_modify (λ st, set_subs (dict_set (sb_id s) s (b_subs st)) st).

(** An assignment to the stored subscription. *)
Definition sub_mod (sid : string) (f : Subscription → Subscription) : B unit :=
  se_modify (λ st, match dict_get sid (b_subs st) with
                   | Some s => set_subs (dict_set sid (f s) (b_subs st)) st
                   | None => st
                   end).

Definition sub_by_tenant (tenant : string) (st : BillState) : option Subscription :=
  List.find (λ s, bool_decide (sb_tenant s = tenant)) (dict_values (b_subs st)).

Definition publish (event sid : string) : B unit := se_modify (add_event event sid).

Definition period_seconds (interval : string) : Z :=
  if bool_decide (interval = "annual") then 366 * 86400 else 30 * 86400.

(** [BillingMetricsTracker.record_subscription] *)
Definition record_revenue (tenant plan status : string) (price : float) (seats : Z) (interval : string) : B unit :=
  if bc_track_metrics cfg then
    let monthly := if bool_decide (interval = "monthly") then fmul price (zf seats)
                   else fdiv (fmul price (zf seats)) (zf 12) in
    se_modify (add_revenue (mk_revenue tenant plan status (py_round monthly 4)))
  else mret tt.

(** [SubscriptionLifecycle.transition] on the stored subscription. *)
Definition sub_transition (sid : string) (target : SubscriptionStatus) : B unit :=
  s ← sub_get sid;
  if sub_can_transition (sb_status s) target then sub_mod sid (put_status target)
  else se_raise (InvalidTransitionError (sub_status_value (sb_status s)) (sub_status_value target)).

(** A subscription past its grace period is cancelled when it is next read. *)
Definition enforce_grace (now1 now2 : float) (sid : string) : B unit :=
  s ← sub_get sid;
  if bool_decide (sb_status s = SUB_PAST_DUE) && negb (is_fzero (sb_grace_end s))
     && flt (sb_grace_end s) now1 then
    sub_transition sid SUB_CANCELLED ;; sub_mod sid (put_updated now2)
  else mret tt.

(** [_get_subscription] *)
Definition get_subscription (now1 now2 : float) (sid : string) : B Subscription :=
  sub_get sid ;; enforce_grace now1 now2 sid ;; sub_get sid.

(** ** Quotas *)

Definition quota_sync (scope : string) (p : Plan) : B unit := λ st,
  match coordinator_sync scope p (b_targets st) with
  | (Ok _, ts) => (Ok tt, set_targets ts st)
  | (Err e, ts) => (Err e, set_targets ts st)
  end.

Definition sync_quota (now1 now2 : float) (sid : string) : B unit :=
  s ← get_subscription now1 now2 sid;
  p ← (match sb_status s with
       | SUB_CANCELLED | SUB_PAUSED => plan_get (bc_default_free_plan cfg)
       | _ => plan_get (sb_plan s)
       end);
  quota_sync (sb_tenant s) p ;;
  publish "quota.synced" sid.

(** ** Subscriptions *)

Definition create_subscription (t : nat → float) (g : nat → string) (tenant plan_id interval0 : string)
    (seats : Z) (coupon_code provider0 : string) (auto_renew : option bool) (trial_days0 : option Z)
    : B Subscription :=
  p ← plan_get plan_id;
  let interval := str_or interval0 (bc_default_interval cfg) in
  let provider := str_or provider0 (bc_default_provider cfg) in
  st ← se_get;
  let existing := sub_by_tenant tenant st in
  if match existing with Some s => negb (bool_decide (sb_status s = SUB_CANCELLED)) | None => false end then
    se_raise (SubscriptionAlreadyExistsError tenant)
  else
    price ← se_lift (price_amount (b_catalog st) plan_id [] seats interval None);
    let now := t 0%nat in
    let trial_days := default (bc_trial_days cfg) trial_days0 in
    let supports_trial := pl_supports_trial p && (0 <? trial_days) in
    (if truthy coupon_code then
       λ st, let '(r, cs) := coupon_redeem coupon_code plan_id (t 1%nat) (b_coupons st) in
             (match r with Ok _ => Ok tt | Err e => Err e end, set_coupons cs st)
     else mret tt) ;;
    let s := mk_sub (match existing with Some e => sb_id e | None => "sub_" +:+ String.substring 0 12 (g 0%nat) end)
               tenant plan_id (if supports_trial then SUB_TRIAL else SUB_ACTIVE) interval (Z.max 1 seats) price
               now now (fadd now (zf (period_seconds interval)))
               (if supports_trial then fadd now (zf (trial_days * 86400)) else fzero) fzero false fzero
               (default (bc_auto_renew cfg) auto_renew) provider (upper coupon_code)
               (match existing with Some e => sb_created_at e | None => t 2%nat end) (t 3%nat) in
    sub_create s ;;
    record_revenue tenant plan_id (sub_status_value (sb_status s)) (price_for interval p) seats interval ;;
    publish "subscription.created" (sb_id s) ;;
    sync_quota (t 4%nat) (t 5%nat) (sb_id s) ;;
    sub_get (sb_id s).

(** ** Invoices *)

Definition invoice_get (iid : string) : B Invoice := λ st,
  match dict_get iid (b_invoices st) with
  | Some i => (Ok i, st)
  | None => (Err (InvoiceNotFoundError iid), st)
  end.

Definition invoice_put (i : Invoice) : B unit :=
  se_modify (λ st, set_invoices (dict_set (iv_id i) i (b_invoices st)) st).

(** [f"{prefix}{n:04d}"] *)
Definition pad4 (n : Z) : string :=
  let s := str_of_Z n in String.substring 0 (4 - String.length s) "0000" +:+ s.

Definition invoice_number (count : Z) : string := bc_invoice_prefix cfg +:+ pad4 (Z.max 1 (count + 1)).

Definition create_draft (now : float) (uuid : string) (s : Subscription) (period_start period_end : float)
    : B Invoice :=
  st ← se_get;
  let i := mk_invoice ("inv_" +:+ String.substring 0 12 uuid) (invoice_number (zlen (b_invoices st)))
             (sb_tenant s) (sb_id s) [] fzero fzero fzero fzero (bc_currency cfg) INV_DRAFT period_start
             period_end (fadd period_end (zf (bc_invoice_due_days cfg * 86400))) fzero "" now in
  invoice_put i ;; mret i.

Definition plan_line (p : Plan) (s : Subscription) : InvoiceLine :=
  mk_line (pl_name p +:+ " subscription (" +:+ sb_interval s +:+ ")") (sb_seats s)
    (py_round (price_for (sb_interval s) p) 4) "".

Definition usage_lines (usage : dict string Z) : list InvoiceLine :=
  (λ e : string * Z, mk_line (e.1 +:+ " usage") e.2 fzero e.1) <$>
    List.filter (λ e : string * Z, 0 <? e.2) (py_sorted (λ a b, str_lt a.1 b.1) usage).

(** The invoice after the lines are written, and after it is priced. *)
Definition with_lines (lines : list InvoiceLine) (subtotal discount : float) (coupon : string) (i : Invoice) : Invoice :=
  mk_invoice (iv_id i) (iv_number i) (iv_tenant i) (iv_subscription i) lines subtotal discount (iv_tax i)
    (iv_total i) (iv_currency i) (iv_status i) (iv_period_start i) (iv_period_end i) (iv_due_at i)
    (iv_paid_at i) coupon (iv_created_at i).

Definition with_total (tx total : float) (status : InvoiceStatus) (i : Invoice) : Invoice :=
  mk_invoice (iv_id i) (iv_number i) (iv_tenant i) (iv_subscription i) (iv_lines i) (iv_subtotal i)
    (iv_discount i) tx total (iv_currency i) status (iv_period_start i) (iv_period_end i) (iv_due_at i)
    (iv_paid_at i) (iv_coupon i) (iv_created_at i).

Definition with_inv_status (status : InvoiceStatus) (paid_at : float) (i : Invoice) : Invoice :=
  mk_invoice (iv_id i) (iv_number i) (iv_tenant i) (iv_subscription i) (iv_lines i) (iv_subtotal i)
    (iv_discount i) (iv_tax i) (iv_total i) (iv_currency i) status (iv_period_start i) (iv_period_end i)
    (iv_due_at i) paid_at (iv_coupon i) (iv_created_at i).

Definition invoice_build (now : float) (i : Invoice) (p : Plan) (s : Subscription) (usage : dict string Z)
    (coupon_code country : string) (tax_rate : option float) : B Invoice :=
  let plan_price := fmul (price_for (sb_interval s) p) (zf (sb_seats s)) in
  let extra := usage_lines usage in
  let subtotal := fadd plan_price (py_sum (line_amount <$> extra)) in
  let i1 := with_lines (plan_line p s :: extra) (py_round subtotal 4) fzero "" i in
  invoice_put i1 ;;
  i2 ← (if truthy coupon_code then
          st ← se_get;
          d ← se_lift (coupon_discount coupon_code subtotal (pl_id p) now (b_coupons st));
          mret (with_lines (iv_lines i1) (iv_subtotal i1) (py_round d 4) (upper coupon_code) i1)
        else mret i1);
  let taxable := fsub subtotal (iv_discount i2) in
  let tx := match tax_rate with
            | Some r => py_round (fmul taxable r) 4
            | None => tax cfg jurisdictions taxable country
            end in
  let i3 := with_total tx (py_round (fadd taxable tx) 4) INV_PENDING i2 in
  invoice_put i3 ;; mret i3.

Definition generate_invoice (t : nat → float) (g : nat → string) (sid coupon_code country : string)
    (tax_rate : option float) : B Invoice :=
  s ← get_subscription (t 0%nat) (t 1%nat) sid;
  p ← plan_get (sb_plan s);
  i ← create_draft (t 2%nat) (g 0%nat) s (sb_period_start s) (sb_period_end s);
  st ← se_get;
  let usage := usage_by_category (sb_tenant s) (sb_period_start s) (b_usage st) in
  i' ← invoice_build (t 3%nat) i p s usage (str_or coupon_code (sb_coupon s)) country tax_rate;
  publish "invoice.created" sid ;; mret i'.

Definition build_proration_invoice (t : nat → float) (g : nat → string) (s : Subscription)
    (previous target : Plan) (seats : Z) : B unit :=
  if negb (bc_prorate_changes cfg) then mret tt
  else
    let remaining := fmax fzero (fdiv (fsub (sb_period_end s) (t 0%nat)) (zf (period_seconds (sb_interval s)))) in
    let delta := fmul (fmul (fsub (price_for (sb_interval s) target) (price_for (sb_interval s) previous))
                         (zf seats)) remaining in
    i ← create_draft (t 2%nat) (g 0%nat) s (t 1%nat) (sb_period_end s);
    let line := mk_line ("Plan change proration (" +:+ pl_id previous +:+ " → " +:+ pl_id target +:+ ")") 1
                  (py_round delta 4) "" in
    let tx := py_round (fmul delta (rate_for cfg jurisdictions "")) 4 in
    invoice_put (with_total tx (py_round (fadd delta tx) 4) INV_PENDING
                   (with_lines [line] (py_round delta 4) fzero (iv_coupon i) i)).

Definition invoice_void (iid : string) : B Invoice :=
  i ← invoice_get iid;
  if bool_decide (iv_status i = INV_PAID) then se_raise (InvoiceError "Cannot void a paid invoice")
  else invoice_put (with_inv_status INV_VOID (iv_paid_at i) i) ;; mret (with_inv_status INV_VOID (iv_paid_at i) i).

Definition mark_paid (now : float) (iid : string) : B unit :=
  i ← invoice_get iid;
  invoice_put (with_inv_status INV_PAID now i).

(** ** Changes of a subscription *)

Definition z_or (a : option Z) (b : Z) : Z :=
  match a with Some n => if n =? 0 then b else n | None => b end.

Definition change_plan (t : nat → float) (g : nat → string) (sid plan_id : string) (seats : option Z)
    (prorate : option bool) : B Subscription :=
  s ← get_subscription (t 0%nat) (t 1%nat) sid;
  p ← plan_get plan_id;
  if bool_decide (sb_status s = SUB_CANCELLED) then
    se_raise (BillingError "Cannot change plan of a cancelled subscription")
  else
    previous ← plan_get (sb_plan s);
    let seats' := z_or seats (sb_seats s) in
    (if default (bc_prorate_changes cfg) prorate
     then build_proration_invoice (λ i, t (2 + i)%nat) g s previous p seats' else mret tt) ;;
    sub_mod sid (put_plan plan_id seats') ;;
    st ← se_get;
    price ← se_lift (price_amount (b_catalog st) plan_id [] seats' (sb_interval s) None);
    sub_mod sid (λ s, put_updated (t 5%nat) (put_price price s)) ;;
    record_revenue (sb_tenant s) plan_id (sub_status_value (sb_status s)) (price_for (sb_interval s) p)
      seats' (sb_interval s) ;;
    publish "subscription.updated" sid ;;
    sync_quota (t 6%nat) (t 7%nat) sid ;;
    sub_get sid.

Definition cancel_subscription (t : nat → float) (sid : string) (at_period_end : bool) : B Subscription :=
  s ← get_subscription (t 0%nat) (t 1%nat) sid;
  if bool_decide (sb_status s = SUB_CANCELLED) then mret s
  else if at_period_end && bool_decide (sb_status s = SUB_ACTIVE) then
    sub_mod sid (λ s, put_cancel true (sb_cancelled_at s) s) ;; sub_get sid
  else
    sub_transition sid SUB_CANCELLED ;;
    sub_mod sid (put_cancel false (t 2%nat)) ;;
    free ← plan_get (bc_default_free_plan cfg);
    quota_sync (sb_tenant s) free ;;
    p ← plan_get (sb_plan s);
    record_revenue (sb_tenant s) (sb_plan s) "cancelled" (price_for (sb_interval s) p) (sb_seats s) (sb_interval s) ;;
    publish "subscription.cancelled" sid ;;
    sub_get sid.

(** The status is changed before the plan is looked up. *)
Definition resume_subscription (t : nat → float) (sid plan_id : string) : B Subscription :=
  s ← get_subscription (t 0%nat) (t 1%nat) sid;
  (match sb_status s with
   | SUB_CANCELLED =>
       sub_transition sid SUB_ACTIVE ;; sub_mod sid (λ s, put_cancel (sb_cancel_at_end s) fzero s)
   | SUB_PAUSED => sub_transition sid SUB_ACTIVE
   | _ => se_raise (BillingError "Cannot resume subscription")
   end) ;;
  p ← (if truthy plan_id then
         p ← plan_get plan_id;
         sub_mod sid (put_plan plan_id (sb_seats s)) ;;
         st ← se_get;
         price ← se_lift (price_amount (b_catalog st) plan_id [] (sb_seats s) (sb_interval s) None);
         sub_mod sid (put_price price) ;;
         mret p
       else plan_get (sb_plan s));
  sub_mod sid (λ s, put_updated (t 2%nat)
    (put_period (t 2%nat) (fadd (t 2%nat) (zf (period_seconds (sb_interval s)))) s)) ;;
  s' ← sub_get sid;
  record_revenue (sb_tenant s) (sb_plan s') "active" (price_for (sb_interval s) p) (sb_seats s) (sb_interval s) ;;
  publish "subscription.resumed" sid ;;
  sync_quota (t 3%nat) (t 4%nat) sid ;;
  sub_get sid.

(** The quotas are not synchronised here. *)
Definition pause_subscription (t : nat → float) (sid : string) : B Subscription :=
  s ← get_subscription (t 0%nat) (t 1%nat) sid;
  sub_transition sid SUB_PAUSED ;;
  sub_mod sid (put_updated (t 2%nat)) ;;
  p ← plan_get (sb_plan s);
  record_revenue (sb_tenant s) (sb_plan s) "paused" (price_for (sb_interval s) p) (sb_seats s) (sb_interval s) ;;
  publish "subscription.paused" sid ;;
  sub_get sid.

Definition convert_trial (t : nat → float) (sid : string) : B Subscription :=
  s ← get_subscription (t 0%nat) (t 1%nat) sid;
  if negb (bool_decide (sb_status s = SUB_TRIAL)) then mret s
  else
    sub_transition sid SUB_ACTIVE ;;
    sub_mod sid (λ s, put_updated (t 2%nat) (put_trial_end fzero s)) ;;
    sync_quota (t 3%nat) (t 4%nat) sid ;;
    sub_get sid.

Definition mark_past_due (t : nat → float) (sid : string) : B Subscription :=
  get_subscription (t 0%nat) (t 1%nat) sid ;;
  sub_transition sid SUB_PAST_DUE ;;
  sub_mod sid (λ s, put_updated (t 3%nat)
    (put_grace_end (fadd (t 2%nat) (zf (bc_grace_days cfg * 86400))) s)) ;;
  publish "invoice.overdue" sid ;;
  sub_get sid.

(** ** Payments *)

(** Whether a provider is configured, and what its server answers. *)
Context (configured : string → bool).

Definition payment_put (p : Payment) : B unit :=
  se_modify (λ st, set_payments (dict_set (py_id p) p (b_payments st)) st).

Definition payment_get (pid : string) : B Payment := λ st,
  match dict_get pid (b_payments st) with
  | Some p => (Ok p, st)
  | None => (Err (BillingError "Payment does not exist"), st)
  end.

(** [_provider_for]: only a known provider can be built. *)
Definition provider_for (name : string) : B unit :=
  if bool_decide (name ∈ provider_names) then mret tt else se_raise (ProviderConfigurationError name).

Definition payment_failed_at (t : nat → float) (sid : string) : B unit :=
  s ← sub_get sid;
  if bool_decide (sb_status s = SUB_ACTIVE) then mark_past_due t sid ;; mret tt else mret tt.

(** [try: charge ... except PaymentFailedError: ... raise] *)
Definition charge_or_fail (t : nat → float) (sid : string)
    (outcome : result BillError Payment) (failed : Payment) : B Payment :=
  match outcome with
  | Ok p => mret p
  | Err (PaymentFailedError m) =>
      payment_put failed ;; payment_failed_at t sid ;; se_raise (PaymentFailedError m)
  | Err e => se_raise e
  end.

(** What a completed payment does to the subscription. *)
Definition settle (t : nat → float) (sid : string) : B unit :=
  s ← sub_get sid;
  (match sb_status s with
   | SUB_TRIAL => convert_trial t sid ;; mret tt
   | _ => mret tt
   end) ;;
  s' ← sub_get sid;
  (match sb_status s' with
   | SUB_PAST_DUE => sub_transition sid SUB_ACTIVE ;; sub_mod sid (put_updated (t 5%nat))
   | _ => mret tt
   end).

Definition record_payment (t : nat → float) (g : nat → string) (iid provider method : string)
    (amount : option float) (external : bool) (answer : Z) : B Payment :=
  i ← invoice_get iid;
  if bool_decide (iv_status i = INV_PAID) then se_raise (InvoiceAlreadyPaidError iid)
  else if bool_decide (iv_status i = INV_VOID) then
    se_raise (BillingError "Cannot record a payment on a void invoice")
  else
    s ← sub_get (iv_subscription i);
    let name := str_or (str_or provider (sb_provider s)) (bc_default_provider cfg) in
    provider_for name ;;
    let amount' := default (iv_total i) amount in
    let pid := "py_" +:+ String.substring 0 12 (g 0%nat) in
    p ← (if external then
           mret (mk_payment pid (iv_tenant i) iid amount' name method PAY_COMPLETED
                   ("ext_" +:+ String.substring 0 12 (g 1%nat)) (t 0%nat))
         else
           charge_or_fail (λ k, t (10 + k)%nat) (sb_id s)
             (provider_charge name (configured name) answer pid (g 1%nat) (t 0%nat) (iv_tenant i) amount' iid method)
             (mk_payment pid (iv_tenant i) iid amount' name method PAY_FAILED "" (t 0%nat)));
    payment_put p ;;
    (match py_status p with
     | PAY_COMPLETED =>
         mark_paid (t 1%nat) iid ;;
         settle (λ k, t (2 + k)%nat) (sb_id s) ;;
         publish "invoice.paid" (sb_id s) ;;
         pl ← plan_get (sb_plan s);
         record_revenue (iv_tenant i) (sb_plan s) "active" (price_for (sb_interval s) pl) (sb_seats s) (sb_interval s)
     | PAY_FAILED =>
         payment_failed_at (λ k, t (10 + k)%nat) (sb_id s) ;; publish "payment.recorded" (sb_id s)
     | _ => publish "payment.recorded" (sb_id s)
     end) ;;
    mret p.

Definition refund_payment (pid : string) (answer : Z) : B Payment :=
  p ← payment_get pid;
  provider_for (py_provider p) ;;
  p' ← se_lift (provider_refund (py_provider p) (configured (py_provider p)) answer p);
  payment_put p' ;; mret p'.

Definition record_usage (now : float) (tenant category : string) (amount : Z) : B unit := λ st,
  match usage_record tenant category amount now (b_usage st) with
  | Ok l => (Ok tt, set_usage_records l st)
  | Err e => (Err e, st)
  end.

(** ** Webhooks *)

Abbreviation Payload := (dict string string).

Definition field (k : string) (d : Payload) : string := default "" (dict_get k d).

Definition webhook_events : list string :=
  ["payment.succeeded"; "payment.failed"; "invoice.payment_failed"; "invoice.overdue";
   "subscription.updated"; "subscription.deleted"; "subscription.resumed"].

(** [BillingWebhookHandler.handle_payload]; [verified] is the outcome of the
    signature test of the provider, if there is a provider.  The result is the
    event, or nothing for a duplicate.  The id is marked before the event is
    known to be supported. *)
Definition webhook_receive (verified : option bool) (data : Payload) : B (option string) :=
  let event := str_or (field "type" data) (field "event" data) in
  if negb (truthy event) then se_raise (WebhookEventError "Webhook payload is missing an event type")
  else if bool_decide (verified = Some false) then se_raise (WebhookVerificationError "")
  else
    let eid := field "id" data in
    st ← se_get;
    if truthy eid && bool_decide (eid ∈ b_processed st) then mret None
    else
      se_modify (add_processed eid) ;;
      if bool_decide (event ∈ webhook_events) then mret (Some event)
      else se_raise (WebhookEventError "Unsupported webhook event").

(** What an event makes the manager do. *)
Definition webhook_act (t : nat → float) (g : nat → string) (event provider : string) (data : Payload) : B unit :=
  let sid := field "subscription_id" data in
  if bool_decide (event = "payment.succeeded") then
    if truthy (field "invoice_id" data)
    then record_payment t g (field "invoice_id" data) provider "card" None true 0 ;; mret tt else mret tt
  else if bool_decide (event = "invoice.payment_failed") || bool_decide (event = "payment.failed") then
    if truthy sid then mark_past_due t sid ;; mret tt else mret tt
  else if bool_decide (event = "subscription.deleted") then
    if truthy sid then cancel_subscription t sid false ;; mret tt else mret tt
  else if bool_decide (event = "subscription.resumed") then
    if truthy sid then resume_subscription t sid "" ;; mret tt else mret tt
  else if bool_decide (event = "subscription.updated") then
    if truthy sid && truthy (field "plan_id" data)
    then change_plan t g sid (field "plan_id" data) None None ;; mret tt else mret tt
  else mret tt.

Definition is_billing_error (e : BillError) : bool := match e with OtherError _ => false | _ => true end.

(** [except BillingError]: the error becomes part of the result. *)
Definition catch_billing (m : B unit) : B (option BillError) := λ st,
  match m st with
  | (Ok _, st') => (Ok None, st')
  | (Err e, st') => if is_billing_error e then (Ok (Some e), st') else (Err e, st')
  end.

Definition handle_webhook (t : nat → float) (g : nat → string) (provider : string) (verified : bool)
    (data : Payload) : B (option (string * option BillError)) :=
  (if truthy provider then provider_for provider else mret tt) ;;
  event ← webhook_receive (if truthy provider then Some verified else None) data;
  match event with
  | None => mret None
  | Some e =>
      err ← catch_billing (webhook_act t g e provider data);
      mret (Some (e, err))
  end.
End Manager.
End BillingManager.

(** * Billing: properties of the manager

    - [one_subscription_per_tenant]: no sequence of operations gives a tenant
      two subscriptions;
    - the invoices refine a small state machine ([inv_step]): new invoices are
      drafts with the next number, and a paid invoice is never changed;
      [invoice_numbers_distinct] and [no_double_payment] follow;
    - [quota_follows_plan]: the gateway's limits after a sync are the plan's. *)

Module BillingSpec.
Import BillingModel BillingManager.
Open Scope string_scope.
Open Scope Z_scope.

Section Spec.
Context (cfg : BillingConfig) (jur : dict string float) (configured : string → bool).

(** ** Any sequence of operations *)

Inductive BillOp :=
  | BCreate (t : nat → float) (g : nat → string) (tenant plan interval : string) (seats : Z)
      (coupon provider : string) (auto : option bool) (trial : option Z)
  | BChange (t : nat → float) (g : nat → string) (sid plan : string) (seats : option Z) (prorate : option bool)
  | BCancel (t : nat → float) (sid : string) (at_end : bool)
  | BResume (t : nat → float) (sid plan : string)
  | BPause (t : nat → float) (sid : string)
  | BConvert (t : nat → float) (sid : string)
  | BPastDue (t : nat → float) (sid : string)
  | BInvoice (t : nat → float) (g : nat → string) (sid coupon country : string) (rate : option float)
  | BVoid (iid : string)
  | BPay (t : nat → float) (g : nat → string) (iid provider method : string) (amount : option float)
      (external : bool) (answer : Z)
  | BRefund (pid : string) (answer : Z)
  | BUsage (now : float) (tenant category : string) (amount : Z)
  | BWebhook (t : nat → float) (g : nat → string) (provider : string) (verified : bool) (data : dict string string).

Definition bill_step (st : BillState) (op : BillOp) : BillState :=
  match op with
  | BCreate t g tn pl iv seats co pr au tr => (create_subscription cfg t g tn pl iv seats co pr au tr st).2
  | BChange t g sid pl seats pro => (change_plan cfg jur t g sid pl seats pro st).2
  | BCancel t sid e => (cancel_subscription cfg t sid e st).2
  | BResume t sid pl => (resume_subscription cfg t sid pl st).2
  | BPause t sid => (pause_subscription cfg t sid st).2
  | BConvert t sid => (convert_trial cfg t sid st).2
  | BPastDue t sid => (mark_past_due cfg t sid st).2
  | BInvoice t g sid co cc r => (generate_invoice cfg jur t g sid co cc r st).2
  | BVoid iid => (invoice_void iid st).2
  | BPay t g iid pr me am ex an => (record_payment cfg configured t g iid pr me am ex an st).2
  | BRefund pid an => (refund_payment configured pid an st).2
  | BUsage now tn ca n => (record_usage now tn ca n st).2
  | BWebhook t g pr ve d => (handle_webhook cfg jur configured t g pr ve d st).2
  end.

Definition bill_run (ops : list BillOp) (st : BillState) : BillState := foldl bill_step st ops.

(** ** Invariants of the subscriptions *)

Section Subs.
Context (Q : dict string Subscription → Prop).
Context (HQ : ∀ sid s f d, Q d → dict_get sid d = Some s →
  (sb_id (f s) = sb_id s) → (sb_tenant (f s) = sb_tenant s) → Q (dict_set sid (f s) d)).

(** A computation preserves [Q] of the subscriptions. *)
Definition keeps {A} (m : B A) : Prop := ∀ st, Q (b_subs st) → Q (b_subs (m st).2).

Lemma keeps_bind {A C} (m : B A) (f : A → B C) : keeps m → (∀ a, keeps (f a)) → keeps (m ≫= f).
Proof.
  intros Hm Hf st Hs. specialize (Hm st Hs). unfold mbind, SE_bind.
  destruct (m st) as [[a|e] st1]; simpl in *; [by apply Hf|done].
Qed.

(** The subscriptions are not touched. *)
Lemma keeps_frame {A} (m : B A) : (∀ st, b_subs (m st).2 = b_subs st) → keeps m.
Proof. intros H st Hs. by rewrite H. Qed.

Lemma keeps_ret {A} (a : A) : keeps (mret a). Proof. by apply keeps_frame. Qed.
Lemma keeps_raise {A} e : keeps (se_raise (A := A) e). Proof. by apply keeps_frame. Qed.
Lemma keeps_lift {A} (r : result BillError A) : keeps (se_lift r). Proof. by apply keeps_frame. Qed.
Lemma keeps_get : keeps se_get. Proof. by apply keeps_frame. Qed.
Lemma keeps_plan_get p : keeps (plan_get p). Proof. by apply keeps_frame. Qed.
Lemma keeps_sub_get s : keeps (sub_get s).
Proof. apply keeps_frame. intros st. unfold sub_get. by destruct (dict_get _ _). Qed.
Lemma keeps_publish e s : keeps (publish e s). Proof. by apply keeps_frame. Qed.
Lemma keeps_revenue a b c d e f : keeps (record_revenue cfg a b c d e f).
Proof. unfold record_revenue. destruct (bc_track_metrics cfg); by apply keeps_frame. Qed.
Lemma keeps_quota_sync s p : keeps (quota_sync s p).
Proof. apply keeps_frame. intros st. unfold quota_sync. by destruct (coordinator_sync _ _ _) as [[]]. Qed.
Lemma keeps_invoice_get i : keeps (invoice_get i).
Proof. apply keeps_frame. intros st. unfold invoice_get. by destruct (dict_get _ _). Qed.
Lemma keeps_invoice_put i : keeps (invoice_put i). Proof. by apply keeps_frame. Qed.
Lemma keeps_payment_put p : keeps (payment_put p). Proof. by apply keeps_frame. Qed.
Lemma keeps_payment_get p : keeps (payment_get p).
Proof. apply keeps_frame. intros st. unfold payment_get. by destruct (dict_get _ _). Qed.
Lemma keeps_provider_for n : keeps (provider_for n).
Proof. unfold provider_for. case_bool_decide; by apply keeps_frame. Qed.

Lemma keeps_sub_mod sid f :
  (∀ s, sb_id (f s) = sb_id s ∧ sb_tenant (f s) = sb_tenant s) → keeps (sub_mod sid f).
Proof.
  intros Hf st Hs. unfold sub_mod, se_modify. simpl. destruct (dict_get sid (b_subs st)) as [s|] eqn:E; [|done].
  simpl. apply HQ; [done|done|apply Hf..].
Qed.
End Subs.

#[local] Hint Resolve keeps_ret keeps_raise keeps_lift keeps_get keeps_plan_get keeps_sub_get keeps_publish
  keeps_revenue keeps_quota_sync keeps_invoice_get keeps_invoice_put keeps_payment_put keeps_payment_get
  keeps_provider_for : keeps.

(** Decomposes a computation into its steps. *)
Ltac keeps_solve :=
  repeat first
    [ progress eauto with keeps
    | match goal with
      | |- keeps _ (_ ≫= _) => apply keeps_bind; [|intros ?]
      | |- keeps _ (sub_mod _ _) => apply keeps_sub_mod; [done|by intros ?]
      | |- keeps _ (if ?b then _ else _) => destruct b
      | |- keeps _ (match ?x with _ => _ end) => destruct x
      | |- keeps _ (let '_ := ?x in _) => destruct x
      end ].

Section Keeps.
Context (Q : dict string Subscription → Prop).
Context (HQ : ∀ sid s f d, Q d → dict_get sid d = Some s →
  (sb_id (f s) = sb_id s) → (sb_tenant (f s) = sb_tenant s) → Q (dict_set sid (f s) d)).

Lemma keeps_transition sid x : keeps Q (sub_transition sid x).
Proof. unfold sub_transition. keeps_solve. Qed.
#[local] Hint Resolve keeps_transition : keeps.
Lemma keeps_get_subscription a b sid : keeps Q (get_subscription a b sid).
Proof. unfold get_subscription, enforce_grace. keeps_solve. Qed.
#[local] Hint Resolve keeps_get_subscription : keeps.
Lemma keeps_sync_quota a b sid : keeps Q (sync_quota cfg a b sid).
Proof. unfold sync_quota. keeps_solve. Qed.
#[local] Hint Resolve keeps_sync_quota : keeps.
Lemma keeps_create_draft n u s a b : keeps Q (create_draft cfg n u s a b).
Proof. unfold create_draft. keeps_solve. Qed.
#[local] Hint Resolve keeps_create_draft : keeps.
Lemma keeps_invoice_build n i p s u c cc r : keeps Q (invoice_build cfg jur n i p s u c cc r).
Proof. unfold invoice_build. keeps_solve. Qed.
#[local] Hint Resolve keeps_invoice_build : keeps.
Lemma keeps_generate_invoice t g sid c cc r : keeps Q (generate_invoice cfg jur t g sid c cc r).
Proof. unfold generate_invoice. keeps_solve. Qed.
Lemma keeps_proration t g s a b n : keeps Q (build_proration_invoice cfg jur t g s a b n).
Proof. unfold build_proration_invoice. keeps_solve. Qed.
#[local] Hint Resolve keeps_proration : keeps.
Lemma keeps_change_plan t g sid p n pr : keeps Q (change_plan cfg jur t g sid p n pr).
Proof. unfold change_plan. keeps_solve. Qed.
Lemma keeps_cancel t sid e : keeps Q (cancel_subscription cfg t sid e).
Proof. unfold cancel_subscription. keeps_solve. Qed.
Lemma keeps_resume t sid p : keeps Q (resume_subscription cfg t sid p).
Proof. unfold resume_subscription. keeps_solve. Qed.
Lemma keeps_pause t sid : keeps Q (pause_subscription cfg t sid).
Proof. unfold pause_subscription. keeps_solve. Qed.
Lemma keeps_convert t sid : keeps Q (convert_trial cfg t sid).
Proof. unfold convert_trial. keeps_solve. Qed.
Lemma keeps_past_due t sid : keeps Q (mark_past_due cfg t sid).
Proof. unfold mark_past_due. keeps_solve. Qed.
#[local] Hint Resolve keeps_change_plan keeps_cancel keeps_resume keeps_convert keeps_past_due : keeps.
Lemma keeps_void iid : keeps Q (invoice_void iid).
Proof. unfold invoice_void. keeps_solve. Qed.
Lemma keeps_failed t sid : keeps Q (payment_failed_at cfg t sid).
Proof. unfold payment_failed_at. keeps_solve. Qed.
#[local] Hint Resolve keeps_failed : keeps.
Lemma keeps_charge t sid o p : keeps Q (charge_or_fail cfg t sid o p).
Proof. unfold charge_or_fail. keeps_solve. Qed.
Lemma keeps_settle t sid : keeps Q (settle cfg t sid).
Proof. unfold settle. keeps_solve. Qed.
#[local] Hint Resolve keeps_charge keeps_settle : keeps.
Lemma keeps_pay t g iid pr me am ex an : keeps Q (record_payment cfg configured t g iid pr me am ex an).
Proof. unfold record_payment, mark_paid. keeps_solve. Qed.
#[local] Hint Resolve keeps_pay : keeps.
Lemma keeps_refund pid an : keeps Q (refund_payment configured pid an).
Proof. unfold refund_payment. keeps_solve. Qed.
Lemma keeps_usage now tn ca n : keeps Q (record_usage now tn ca n).
Proof. apply keeps_frame. intros st. unfold record_usage. by destruct (usage_record _ _ _ _ _). Qed.
Lemma keeps_act t g e pr d : keeps Q (webhook_act cfg jur configured t g e pr d).
Proof. unfold webhook_act. keeps_solve. Qed.
Lemma keeps_catch m : keeps Q m → keeps Q (catch_billing m).
Proof.
  intros Hm st Hs. specialize (Hm st Hs). unfold catch_billing.
  destruct (m st) as [[a|e] st1]; simpl in *; [done|]. by destruct (is_billing_error e).
Qed.
Lemma keeps_receive v d : keeps Q (webhook_receive v d).
Proof.
  unfold webhook_receive. destruct (negb _); [by auto with keeps|]. case_bool_decide; [by auto with keeps|].
  apply keeps_bind; [by auto with keeps|intros st]. destruct (_ && _); [by auto with keeps|].
  apply keeps_bind; [by apply keeps_frame|intros _]. case_bool_decide; by auto with keeps.
Qed.
#[local] Hint Resolve keeps_act keeps_catch keeps_receive : keeps.
Lemma keeps_webhook t g pr v d : keeps Q (handle_webhook cfg jur configured t g pr v d).
Proof. unfold handle_webhook. keeps_solve. Qed.

(** Only [create_subscription] adds a subscription. *)
Lemma keeps_step op st :
  (∀ t g tn pl iv n co pr au tr, op = BCreate t g tn pl iv n co pr au tr →
     keeps Q (create_subscription cfg t g tn pl iv n co pr au tr)) →
  Q (b_subs st) → Q (b_subs (bill_step st op)).
Proof.
  intros Hc Hs. destruct op; simpl.
  - by eapply Hc.
  - by apply keeps_change_plan.
  - by apply keeps_cancel.
  - by apply keeps_resume.
  - by apply keeps_pause.
  - by apply keeps_convert.
  - by apply keeps_past_due.
  - by apply keeps_generate_invoice.
  - by apply keeps_void.
  - by apply keeps_pay.
  - by apply keeps_refund.
  - by apply keeps_usage.
  - by apply keeps_webhook.
Qed.
End Keeps.

(** ** One subscription per tenant *)

Definition tenants (d : dict string Subscription) : list string := sb_tenant <$> dict_values d.

Definition subs_ok (d : dict string Subscription) : Prop :=
  keyed sb_id d ∧ NoDup (tenants d).

Lemma tenants_set_same sid s0 s (d : dict string Subscription) :
  dict_get sid d = Some s0 → sb_tenant s = sb_tenant s0 → tenants (dict_set sid s d) = tenants d.
Proof.
  intros Hg Ht. unfold tenants, dict_values. induction d as [|[k v] d IH]; [done|].
  simpl in *. case_decide; csimpl; [simplify_eq; by rewrite Ht|by rewrite IH].
Qed.

Lemma tenants_set_fresh sid s (d : dict string Subscription) :
  NoDup (tenants d) → sb_tenant s ∉ tenants d → NoDup (tenants (dict_set sid s d)).
Proof.
  intros Hn Hs. unfold tenants, dict_values in *. induction d as [|[k v] d IH]; simpl.
  { by apply NoDup_singleton. }
  csimpl in *. apply not_elem_of_cons in Hs as [Hv Hs]. inversion Hn as [|? ? Hv' Hn']; subst.
  case_decide; csimpl.
  - by constructor.
  - constructor; [|by apply IH]. intros Hin. apply list_elem_of_fmap in Hin as (x & Hx & Hin).
    apply list_elem_of_fmap in Hin as ([k' x'] & -> & Hin). simpl in Hx.
    apply dict_set_elem_of in Hin as [Heq|Hin]; [simplify_eq; done|].
    apply Hv'. rewrite Hx. apply list_elem_of_fmap_2, (list_elem_of_fmap_2 snd _ _ Hin).
Qed.

Lemma subs_ok_mod sid s f d :
  subs_ok d → dict_get sid d = Some s → sb_id (f s) = sb_id s → sb_tenant (f s) = sb_tenant s →
  subs_ok (dict_set sid (f s) d).
Proof.
  intros [Hk Hn] Hg Hid Ht. pose proof (keyed_get sb_id _ _ _ Hk Hg) as Hsid. split.
  - rewrite <- Hsid, <- Hid. by apply keyed_set.
  - by rewrite (tenants_set_same sid s).
Qed.

Lemma by_tenant_Some tenant st s :
  subs_ok (b_subs st) → sub_by_tenant tenant st = Some s →
  sb_tenant s = tenant ∧ dict_get (sb_id s) (b_subs st) = Some s.
Proof.
  intros [Hk Hn] H. apply List.find_some in H as [Hin Ht]. bool_to_prop. split; [done|].
  by apply keyed_value, list_elem_of_In.
Qed.

Lemma by_tenant_None tenant st : sub_by_tenant tenant st = None → tenant ∉ tenants (b_subs st).
Proof.
  intros H Hin. apply list_elem_of_fmap in Hin as (s & -> & Hin). apply list_elem_of_In in Hin.
  pose proof (List.find_none _ _ H _ Hin) as Hn. simpl in Hn. bool_to_prop. done.
Qed.

(** Storing the subscription that [create_subscription] builds. *)
Lemma subs_ok_create tenant st s :
  subs_ok (b_subs st) → sb_tenant s = tenant →
  match sub_by_tenant tenant st with Some e => sb_id s = sb_id e | None => True end →
  subs_ok (dict_set (sb_id s) s (b_subs st)).
Proof.
  intros Hok Ht He. destruct (sub_by_tenant tenant st) as [e|] eqn:E.
  - destruct (by_tenant_Some _ _ _ Hok E) as [Hte Hge]. destruct Hok as [Hk Hn].
    split; [by apply keyed_set|]. rewrite (tenants_set_same _ e); [done|by rewrite He|congruence].
  - destruct Hok as [Hk Hn]. split; [by apply keyed_set|].
    apply tenants_set_fresh; [done|]. rewrite Ht. by apply by_tenant_None.
Qed.

Lemma keeps_create t g tn pl iv n co pr au tr :
  keeps subs_ok (create_subscription cfg t g tn pl iv n co pr au tr).
Proof.
  unfold create_subscription. apply keeps_bind; [by auto with keeps|]. intros p st Hs.
  change ((se_get ≫= ?f) st) with (f st st). cbv beta.
  destruct (match sub_by_tenant tn st with Some _ => _ | None => _ end); [done|].
  destruct (price_amount _ _ _ _ _ _) as [price|e]; [|done].
  change ((se_lift (Ok price) ≫= ?f) st) with (f price st). cbv beta zeta.
  set (s := mk_sub _ _ _ _ _ _ _ _ _ _ _ _ _ _ _ _ _ _ _).
  set (redeem := if truthy co then _ else _).
  assert (∀ st', subs_ok (b_subs st') → b_subs (redeem st').2 = b_subs st') as Hr.
  { intros st' _. unfold redeem. destruct (truthy co); [|done].
    by destruct (coupon_redeem co pl (t 1%nat) (b_coupons st')) as [[] ?]. }
  specialize (Hr st Hs). unfold mbind at 1, SE_bind at 1.
  destruct (redeem st) as [[u|e] st1]; simpl in Hr; [|simpl; by rewrite Hr].
  match goal with |- subs_ok (b_subs ((sub_create s ≫= ?k) st1).2) => assert (keeps subs_ok (k tt)) as Hk end.
  { repeat (apply keeps_bind; [by eauto using subs_ok_mod, keeps_sync_quota with keeps|intros ?]).
    by auto with keeps. }
  apply Hk. change (subs_ok (dict_set (sb_id s) s (b_subs st1))). rewrite Hr.
  apply (subs_ok_create tn); [done|done|].
  unfold s. by destruct (sub_by_tenant tn st).
Qed.

(** Whatever operations are performed, and whichever of them fail, a tenant
    never has two subscriptions: creating one is refused while another is not
    cancelled, and takes the place of a cancelled one. *)
Theorem one_subscription_per_tenant (ops : list BillOp) (st : BillState) :
  subs_ok (b_subs st) → subs_ok (b_subs (bill_run ops st)).
Proof.
  revert st. induction ops as [|op ops IH]; intros st Hs; [done|]. apply IH.
  apply keeps_step; [exact subs_ok_mod| |done]. intros. apply keeps_create.
Qed.
End Spec.
End BillingSpec.
