(* ===== verification/BillingInvoices.v ===== *)
(** * Billing: invoices and payments as a state machine

    The manager changes invoices and payments only by the steps of [ip_step]
    ([op_refines]): a new draft with the next number, a change of an invoice
    that is neither paid nor void, a payment that is not completed, and a
    completed payment together with the invoice it pays.  The properties follow
    by rule induction:

    - [no_double_payment]: an invoice has at most one completed payment, and
      then it is paid;
    - [paid_invoice_final]: a paid invoice is never changed again;
    - [invoice_numbers_distinct]: invoices are numbered consecutively. *)

From Stdlib Require Import ZArith Lia Ascii.
From stdpp Require Import base relations numbers strings gmap list.
From S2P Require Import Prelude PyFloat PyNum PyStr PyDict Quota PyMath BillingModel BillingManager.


Module BillingInvoices.
Import BillingModel BillingManager BillingSpec.
Open Scope string_scope.
Open Scope Z_scope.

Definition IP (st : BillState) : dict string Invoice * dict string Payment := (b_invoices st, b_payments st).

Section Refinement.
Context (cfg : BillingConfig) (jur : dict string float) (configured : string → bool).

Definition open_status (s : InvoiceStatus) : Prop := s ≠ INV_PAID ∧ s ≠ INV_VOID.

Inductive ip_step : dict string Invoice * dict string Payment → dict string Invoice * dict string Payment → Prop :=
  | ip_draft inv pay i :
      dict_get (iv_id i) inv = None → iv_number i = invoice_number cfg (zlen inv) → iv_status i = INV_DRAFT →
      ip_step (inv, pay) (dict_set (iv_id i) i inv, pay)
  | ip_change inv pay i0 i :
      dict_get (iv_id i) inv = Some i0 → iv_status i0 ≠ INV_PAID → iv_status i ≠ INV_PAID →
      (iv_status i0 = INV_VOID → iv_status i = INV_VOID) → iv_number i = iv_number i0 →
      ip_step (inv, pay) (dict_set (iv_id i) i inv, pay)
  | ip_unpaid inv pay p :
      py_status p ≠ PAY_COMPLETED → ip_step (inv, pay) (inv, dict_set (py_id p) p pay)
  | ip_paid inv pay p i now :
      py_status p = PAY_COMPLETED → dict_get (py_invoice p) inv = Some i → iv_id i = py_invoice p →
      open_status (iv_status i) →
      ip_step (inv, pay)
        (dict_set (py_invoice p) (with_inv_status INV_PAID now i) inv, dict_set (py_id p) p pay).

(** ** Computations that leave invoices and payments alone *)

Definition quiet {A} (m : B A) : Prop := ∀ st, IP (m st).2 = IP st.

Lemma quiet_bind {A C} (m : B A) (f : A → B C) : quiet m → (∀ a, quiet (f a)) → quiet (m ≫= f).
Proof.
  intros Hm Hf st. specialize (Hm st). unfold mbind, SE_bind.
  destruct (m st) as [[a|e] st1]; simpl in *; [by rewrite Hf|done].
Qed.

Lemma quiet_ret {A} (a : A) : quiet (mret a). Proof. done. Qed.
Lemma quiet_raise {A} e : quiet (se_raise (A := A) e). Proof. done. Qed.
Lemma quiet_lift {A} (r : result BillError A) : quiet (se_lift r). Proof. done. Qed.
Lemma quiet_get : quiet se_get. Proof. done. Qed.
Lemma quiet_plan_get p : quiet (plan_get p). Proof. done. Qed.
Lemma quiet_sub_get s : quiet (sub_get s).
Proof. intros st. unfold sub_get. by destruct (dict_get _ _). Qed.
Lemma quiet_sub_mod s f : quiet (sub_mod s f).
Proof. intros st. unfold sub_mod, se_modify. simpl. by destruct (dict_get _ _). Qed.
Lemma quiet_sub_create s : quiet (sub_create s). Proof. done. Qed.
Lemma quiet_publish e s : quiet (publish e s). Proof. done. Qed.
Lemma quiet_revenue a b c d e f : quiet (record_revenue cfg a b c d e f).
Proof. unfold record_revenue. by destruct (bc_track_metrics cfg). Qed.
Lemma quiet_quota_sync s p : quiet (quota_sync s p).
Proof. intros st. unfold quota_sync. by destruct (coordinator_sync _ _ _) as [[]]. Qed.
Lemma quiet_invoice_get i : quiet (invoice_get i).
Proof. intros st. unfold invoice_get. by destruct (dict_get _ _). Qed.
Lemma quiet_payment_get i : quiet (payment_get i).
Proof. intros st. unfold payment_get. by destruct (dict_get _ _). Qed.
Lemma quiet_provider_for n : quiet (provider_for n).
Proof. unfold provider_for. by case_bool_decide. Qed.

#[local] Hint Resolve quiet_ret quiet_raise quiet_lift quiet_get quiet_plan_get quiet_sub_get quiet_sub_mod
  quiet_sub_create quiet_publish quiet_revenue quiet_quota_sync quiet_invoice_get quiet_payment_get
  quiet_provider_for : quiet.

Ltac quiet_solve :=
  repeat first
    [ progress eauto with quiet
    | match goal with
      | |- quiet (_ ≫= _) => apply quiet_bind; [|intros ?]
      | |- quiet (if ?b then _ else _) => destruct b
      | |- quiet (match ?x with _ => _ end) => destruct x
      end ].

Lemma quiet_transition sid x : quiet (sub_transition sid x).
Proof. unfold sub_transition. quiet_solve. Qed.
#[local] Hint Resolve quiet_transition : quiet.
Lemma quiet_get_subscription a b sid : quiet (get_subscription a b sid).
Proof. unfold get_subscription, enforce_grace. quiet_solve. Qed.
#[local] Hint Resolve quiet_get_subscription : quiet.
Lemma quiet_sync_quota a b sid : quiet (sync_quota cfg a b sid).
Proof. unfold sync_quota. quiet_solve. Qed.
#[local] Hint Resolve quiet_sync_quota : quiet.
Lemma quiet_cancel t sid e : quiet (cancel_subscription cfg t sid e).
Proof. unfold cancel_subscription. quiet_solve. Qed.
Lemma quiet_resume t sid p : quiet (resume_subscription cfg t sid p).
Proof. unfold resume_subscription. quiet_solve. Qed.
Lemma quiet_pause t sid : quiet (pause_subscription cfg t sid).
Proof. unfold pause_subscription. quiet_solve. Qed.
Lemma quiet_convert t sid : quiet (convert_trial cfg t sid).
Proof. unfold convert_trial. quiet_solve. Qed.
Lemma quiet_past_due t sid : quiet (mark_past_due cfg t sid).
Proof. unfold mark_past_due. quiet_solve. Qed.
#[local] Hint Resolve quiet_cancel quiet_resume quiet_pause quiet_convert quiet_past_due : quiet.
Lemma quiet_settle t sid : quiet (settle cfg t sid).
Proof. unfold settle. quiet_solve. Qed.
Lemma quiet_failed t sid : quiet (payment_failed_at cfg t sid).
Proof. unfold payment_failed_at. quiet_solve. Qed.
#[local] Hint Resolve quiet_settle quiet_failed : quiet.
Lemma quiet_usage now tn ca n : quiet (record_usage now tn ca n).
Proof. intros st. unfold record_usage. by destruct (usage_record _ _ _ _ _). Qed.
Lemma quiet_create t g tn pl iv n co pr au tr : quiet (create_subscription cfg t g tn pl iv n co pr au tr).
Proof.
  unfold create_subscription. apply quiet_bind; [by auto with quiet|intros p].
  apply quiet_bind; [by auto with quiet|intros st]. destruct (match sub_by_tenant _ _ with Some _ => _ | None => _ end);
    [by auto with quiet|]. apply quiet_bind; [by auto with quiet|intros price].
  apply quiet_bind; [|intros _; quiet_solve]. destruct (truthy co); [|by auto with quiet].
  intros st'. by destruct (coupon_redeem _ _ _ _) as [[] ?].
Qed.
Lemma quiet_receive v d : quiet (webhook_receive v d).
Proof.
  unfold webhook_receive. destruct (negb _); [done|]. case_bool_decide; [done|].
  apply quiet_bind; [done|intros st]. destruct (_ && _); [done|].
  apply quiet_bind; [done|intros _]. by case_bool_decide.
Qed.
#[local] Hint Resolve quiet_receive : quiet.

(** ** Computations that refine the machine

    [ref x y m]: from a state that holds [y], [m] ends where the machine can
    get from [x]. *)

Definition ref {A} (x y : dict string Invoice * dict string Payment) (m : B A) : Prop :=
  ∀ st, IP st = y → rtc ip_step x (IP (m st).2).

Section Ref.
Context (x : dict string Invoice * dict string Payment).

Lemma ref_quiet {A} y (m : B A) : rtc ip_step x y → quiet m → ref x y m.
Proof. intros Hxy Hm st <-. by rewrite Hm. Qed.

Lemma ref_bind_l {A C} y (m : B A) (f : A → B C) :
  rtc ip_step x y → quiet m → (∀ a, ref x y (f a)) → ref x y (m ≫= f).
Proof.
  intros Hxy Hm Hf st Hst. specialize (Hm st). unfold mbind, SE_bind.
  destruct (m st) as [[a|e] st1]; simpl in *; [apply Hf; congruence|]. by rewrite Hm, Hst.
Qed.

Lemma ref_bind_r {A C} y (m : B A) (f : A → B C) : ref x y m → (∀ a, quiet (f a)) → ref x y (m ≫= f).
Proof.
  intros Hm Hf st Hst. specialize (Hm st Hst). unfold mbind, SE_bind.
  destruct (m st) as [[a|e] st1]; simpl in *; [by rewrite Hf|done].
Qed.

(** A step whose effect and result are known. *)
Lemma ref_bind_ok {A C} y z a (m : B A) (f : A → B C) :
  (∀ st, IP st = y → (m st).1 = Ok a ∧ IP (m st).2 = z) → ref x z (f a) → ref x y (m ≫= f).
Proof.
  intros Hm Hf st Hst. destruct (Hm st Hst) as [H1 H2]. unfold mbind, SE_bind.
  destruct (m st) as [r st1]; simpl in *. subst r. by apply Hf.
Qed.

(** A computation that always raises does not continue. *)
Lemma ref_bind_raise {A C} y (m : B A) (f : A → B C) :
  (∀ st, is_ok (m st).1 = false) → ref x y m → ref x y (m ≫= f).
Proof.
  intros Hno Hm st Hst. specialize (Hm st Hst). specialize (Hno st). unfold mbind, SE_bind.
  by destruct (m st) as [[a|e] st1].
Qed.

Lemma ref_start {A} y (m : B A) : rtc ip_step x y → ref y y m → ref x y m.
Proof. intros Hxy Hm st Hst. etransitivity; [exact Hxy|by apply Hm]. Qed.
End Ref.

Lemma keyed_invoice_get iid st i :
  keyed iv_id (b_invoices st) → dict_get iid (b_invoices st) = Some i → iv_id i = iid.
Proof. intros Hk Hg. by eapply keyed_get. Qed.

Lemma invoice_get_at iid inv pay :
  ∀ st, IP st = (inv, pay) →
  invoice_get iid st = (match dict_get iid inv with Some i => Ok i | None => Err (InvoiceNotFoundError iid) end, st).
Proof. intros st [= <- <-]. unfold invoice_get. by destruct (dict_get iid _). Qed.

Lemma invoice_put_at i inv pay st :
  IP st = (inv, pay) → (invoice_put i st).1 = Ok tt ∧ IP (invoice_put i st).2 = (dict_set (iv_id i) i inv, pay).
Proof. by intros [= <- <-]. Qed.

Lemma payment_put_at p inv pay st :
  IP st = (inv, pay) → (payment_put p st).1 = Ok tt ∧ IP (payment_put p st).2 = (inv, dict_set (py_id p) p pay).
Proof. by intros [= <- <-]. Qed.

(** A fresh draft, and a change of it. *)
Lemma ref_new_draft {A} inv pay now uuid s a b (f : Invoice → B A) :
  dict_get ("inv_" +:+ String.substring 0 12 uuid) inv = None →
  (∀ i, iv_id i = "inv_" +:+ String.substring 0 12 uuid → iv_status i = INV_DRAFT →
    ref (dict_set (iv_id i) i inv, pay) (dict_set (iv_id i) i inv, pay) (f i)) →
  ref (inv, pay) (inv, pay) (create_draft cfg now uuid s a b ≫= f).
Proof.
  intros Hn Hf st Hst. unfold create_draft, mbind, SE_bind. simpl.
  set (i := mk_invoice _ _ _ _ _ _ _ _ _ _ _ _ _ _ _ _ _).
  injection Hst as Hinv Hpay. etransitivity; [apply rtc_once, (ip_draft inv pay i); [done|simpl; by rewrite Hinv|done]|].
  apply Hf; [done|done|]. unfold IP. simpl. by rewrite Hinv, Hpay.
Qed.

Lemma ref_change {A} inv pay i0 i (f : unit → B A) :
  dict_get (iv_id i) inv = Some i0 → iv_status i0 ≠ INV_PAID → iv_status i ≠ INV_PAID →
  (iv_status i0 = INV_VOID → iv_status i = INV_VOID) → iv_number i = iv_number i0 →
  ref (dict_set (iv_id i) i inv, pay) (dict_set (iv_id i) i inv, pay) (f tt) →
  ref (inv, pay) (inv, pay) (invoice_put i ≫= f).
Proof.
  intros Hg H0 H1 H2 H3 Hf. eapply ref_bind_ok; [intros st; apply invoice_put_at|].
  eapply ref_start; [|exact Hf]. apply rtc_once. by eapply (ip_change inv pay i0).
Qed.

Lemma with_lines_facts l a d c i :
  iv_id (with_lines l a d c i) = iv_id i ∧ iv_status (with_lines l a d c i) = iv_status i ∧
  iv_number (with_lines l a d c i) = iv_number i.
Proof. done. Qed.

Lemma ref_build inv pay now i p s u c cc r :
  dict_get (iv_id i) inv = Some i → iv_status i = INV_DRAFT →
  ref (inv, pay) (inv, pay) (invoice_build cfg jur now i p s u c cc r).
Proof.
  intros Hg Hd. unfold invoice_build. set (i1 := with_lines _ _ _ _ i).
  apply (ref_change _ _ i); [done|by rewrite Hd|simpl; by rewrite Hd|by rewrite Hd|done|].
  set (inv1 := dict_set _ i1 inv).
  assert (dict_get (iv_id i) inv1 = Some i1) as Hg1 by apply (dict_get_set_eq (iv_id i) i1 inv).
  (* the discount: a reading of the coupons, which may raise *)
  assert (∀ i2, iv_id i2 = iv_id i → iv_status i2 = INV_DRAFT → iv_number i2 = iv_number i →
    ref (inv1, pay) (inv1, pay)
      (let taxable := fsub (fadd (fmul (price_for (sb_interval s) p) (zf (sb_seats s)))
                              (py_sum (line_amount <$> usage_lines u))) (iv_discount i2) in
       let tx := match r with Some r => py_round (fmul taxable r) 4 | None => tax cfg jur taxable cc end in
       let i3 := with_total tx (py_round (fadd taxable tx) 4) INV_PENDING i2 in
       invoice_put i3 ;; mret i3)) as Hend.
  { intros i2 Hid Hst Hnum. cbv zeta. apply (ref_change _ _ i1); simpl.
    - by rewrite Hid.
    - by rewrite Hd.
    - done.
    - by rewrite Hd.
    - done.
    - apply ref_quiet; [done|by auto with quiet]. }
  destruct (truthy c).
  - intros st Hst. unfold mbind at 1, SE_bind at 1. unfold mbind at 1, SE_bind at 1. simpl.
    unfold mbind at 1, SE_bind at 1.
    destruct (coupon_discount _ _ _ _ _) as [d|e]; simpl; [|by rewrite Hst].
    by apply (Hend (with_lines _ _ _ _ i1)).
  - intros st Hst. unfold mbind at 1, SE_bind at 1. by apply (Hend i1).
Qed.

Definition new_invoice_id (g : nat → string) : string := "inv_" +:+ String.substring 0 12 (g 0%nat).

Lemma ref_generate inv pay t g sid c cc r :
  dict_get (new_invoice_id g) inv = None → ref (inv, pay) (inv, pay) (generate_invoice cfg jur t g sid c cc r).
Proof.
  intros Hn. unfold generate_invoice.
  apply ref_bind_l; [done|by auto with quiet|intros s]. apply ref_bind_l; [done|by auto with quiet|intros p].
  apply ref_new_draft; [done|]. intros i Hid Hst.
  apply ref_bind_l; [done|by auto with quiet|intros st]. apply ref_bind_r; [|intros i'; quiet_solve].
  apply ref_build; [apply dict_get_set_eq|done].
Qed.

Lemma ref_proration inv pay t g s a b n :
  dict_get (new_invoice_id g) inv = None →
  ref (inv, pay) (inv, pay) (build_proration_invoice cfg jur t g s a b n).
Proof.
  intros Hn. unfold build_proration_invoice. destruct (negb _); [apply ref_quiet; by auto with quiet|].
  apply ref_new_draft; [done|]. intros i Hid Hst.
  match goal with |- ref _ _ (invoice_put ?j) => set (i' := j) end.
  intros st H. destruct (invoice_put_at i' _ _ st H) as [_ ->]. apply rtc_once.
  apply (ip_change _ _ i); simpl; [apply dict_get_set_eq|by rewrite Hst|done|by rewrite Hst|done].
Qed.

Lemma ref_change_plan inv pay t g sid pl n pro :
  dict_get (new_invoice_id g) inv = None → ref (inv, pay) (inv, pay) (change_plan cfg jur t g sid pl n pro).
Proof.
  intros Hn. unfold change_plan.
  apply ref_bind_l; [done|by auto with quiet|intros s]. apply ref_bind_l; [done|by auto with quiet|intros p].
  case_bool_decide; [apply ref_quiet; by auto with quiet|].
  apply ref_bind_l; [done|by auto with quiet|intros previous].
  apply ref_bind_r; [|intros _; quiet_solve].
  destruct (default _ _); [by apply ref_proration|apply ref_quiet; by auto with quiet].
Qed.

Lemma ref_void inv pay iid : keyed iv_id inv → ref (inv, pay) (inv, pay) (invoice_void iid).
Proof.
  intros Hk st Hst. unfold invoice_void, mbind at 1, SE_bind at 1. rewrite (invoice_get_at iid inv pay st Hst).
  destruct (dict_get iid inv) as [i|] eqn:Hg; simpl; [|by rewrite Hst].
  pose proof (keyed_get iv_id _ _ _ Hk Hg) as Hid. case_bool_decide as Hp; [simpl; by rewrite Hst|].
  apply (ref_change inv pay i); simpl; try done; [by rewrite Hid|].
  apply ref_quiet; [done|by auto with quiet].
Qed.

(** ** Payments *)

Lemma provider_charge_Ok name conf an pid rid now tn am iid me p :
  provider_charge name conf an pid rid now tn am iid me = Ok p → py_invoice p = iid ∧ py_id p = pid.
Proof. unfold provider_charge. intros H. split_ifs_in H; by simplify_eq. Qed.

Lemma mark_paid_at now iid i inv pay st :
  IP st = (inv, pay) → dict_get iid inv = Some i → iv_id i = iid →
  (mark_paid now iid st).1 = Ok tt ∧
  IP (mark_paid now iid st).2 = (dict_set iid (with_inv_status INV_PAID now i) inv, pay).
Proof.
  intros Hst Hg Hid. unfold mark_paid, mbind, SE_bind. rewrite (invoice_get_at iid inv pay st Hst), Hg.
  injection Hst as <- <-. unfold invoice_put, se_modify, IP. simpl. by rewrite Hid.
Qed.

Lemma ref_record_payment inv pay t g iid pr me am ex an :
  keyed iv_id inv → ref (inv, pay) (inv, pay) (record_payment cfg configured t g iid pr me am ex an).
Proof.
  intros Hk st Hst. unfold record_payment, mbind at 1, SE_bind at 1.
  rewrite (invoice_get_at iid inv pay st Hst).
  destruct (dict_get iid inv) as [i|] eqn:Hg; [|simpl; by rewrite Hst].
  pose proof (keyed_get iv_id _ _ _ Hk Hg) as Hid.
  case_bool_decide as Hp; [simpl; by rewrite Hst|]. case_bool_decide as Hv; [simpl; by rewrite Hst|].
  revert st Hst. change (∀ st, IP st = (inv, pay) → rtc ip_step (inv, pay) (IP (?m st).2)) with (ref (inv, pay) (inv, pay) m).
  apply ref_bind_l; [done|by auto with quiet|intros s]. apply ref_bind_l; [done|by auto with quiet|intros _].
  (* what happens with a payment for the invoice *)
  assert (∀ p, py_invoice p = iid → ref (inv, pay) (inv, pay)
    (payment_put p ;;
     (match py_status p with
      | PAY_COMPLETED =>
          mark_paid (t 1%nat) iid ;; settle cfg (λ k, t (2 + k)%nat) (sb_id s) ;; publish "invoice.paid" (sb_id s) ;;
          pl ← plan_get (sb_plan s);
          record_revenue cfg (iv_tenant i) (sb_plan s) "active" (price_for (sb_interval s) pl) (sb_seats s) (sb_interval s)
      | PAY_FAILED =>
          payment_failed_at cfg (λ k, t (10 + k)%nat) (sb_id s) ;; publish "payment.recorded" (sb_id s)
      | _ => publish "payment.recorded" (sb_id s)
      end) ;; mret p)) as Hput.
  { intros p Hinv. eapply ref_bind_ok; [intros st; apply payment_put_at|].
    apply ref_bind_r; [|by auto with quiet].
    destruct (py_status p) eqn:Ep; try (apply ref_quiet;
      [apply rtc_once, ip_unpaid; by rewrite Ep|quiet_solve]).
    eapply ref_bind_ok; [intros st Hst; by apply (mark_paid_at _ _ i)|].
    apply ref_quiet; [|quiet_solve]. apply rtc_once. rewrite <- Hinv.
    apply (ip_paid inv pay p i); [done|by rewrite Hinv|congruence|done]. }
  destruct ex.
  - eapply (ref_bind_ok _ _ _ (mk_payment _ _ _ _ _ _ _ _ _)); [done|by apply Hput].
  - destruct (provider_charge _ _ _ _ _ _ _ _ _ _) as [p|e] eqn:Ec.
    + apply provider_charge_Ok in Ec as [Hi _]. eapply (ref_bind_ok _ _ _ p); [done|by apply Hput].
    + apply ref_bind_raise.
      * intros st. unfold charge_or_fail. destruct e; try done. unfold mbind, SE_bind. simpl.
        by destruct (payment_failed_at _ _ _ _) as [[]].
      * unfold charge_or_fail. destruct e; try (apply ref_quiet; by auto with quiet).
        eapply ref_bind_ok; [intros st; apply payment_put_at|].
        apply ref_quiet; [by apply rtc_once, ip_unpaid|quiet_solve].
Qed.

Lemma ref_refund inv pay pid an : ref (inv, pay) (inv, pay) (refund_payment configured pid an).
Proof.
  unfold refund_payment. apply ref_bind_l; [done|by auto with quiet|intros p].
  apply ref_bind_l; [done|by auto with quiet|intros _].
  assert (∀ p', provider_refund (py_provider p) (configured (py_provider p)) an p = Ok p' → py_status p' = PAY_REFUNDED) as Hr.
  { intros p' H. unfold provider_refund in H. split_ifs_in H; by simplify_eq. }
  destruct (provider_refund _ _ _ _) as [p'|e] eqn:E.
  - eapply (ref_bind_ok _ _ _ p'); [done|]. eapply ref_bind_ok; [intros st; apply payment_put_at|].
    apply ref_quiet; [|by auto with quiet]. apply rtc_once, ip_unpaid. by rewrite (Hr p' eq_refl).
  - apply ref_bind_raise; [done|apply ref_quiet; by auto with quiet].
Qed.

Lemma ref_catch x y m : ref x y m → ref x y (catch_billing m).
Proof.
  intros Hm st Hst. specialize (Hm st Hst). unfold catch_billing.
  destruct (m st) as [[a|e] st1]; simpl in *; [done|]. by destruct (is_billing_error e).
Qed.

Lemma ref_act inv pay t g e pr d :
  keyed iv_id inv → dict_get (new_invoice_id g) inv = None →
  ref (inv, pay) (inv, pay) (webhook_act cfg jur configured t g e pr d).
Proof.
  intros Hk Hn. unfold webhook_act.
  repeat match goal with |- ref _ _ (if ?b then _ else _) => destruct b end;
    try (apply ref_quiet; [done|solve [quiet_solve]]);
    (apply ref_bind_r; [|by auto with quiet]); [by apply ref_record_payment|by apply ref_change_plan].
Qed.

Lemma ref_webhook inv pay t g pr v d :
  keyed iv_id inv → dict_get (new_invoice_id g) inv = None →
  ref (inv, pay) (inv, pay) (handle_webhook cfg jur configured t g pr v d).
Proof.
  intros Hk Hn. unfold handle_webhook. apply ref_bind_l; [done|destruct (truthy pr); by auto with quiet|intros _].
  apply ref_bind_l; [done|by auto with quiet|intros [e|]]; [|apply ref_quiet; by auto with quiet].
  apply ref_bind_r; [by apply ref_catch, ref_act|by auto with quiet].
Qed.

(** The invoice an operation may create. *)
Definition op_new_invoice (op : BillOp) : option string :=
  match op with
  | BInvoice _ g _ _ _ _ | BChange _ g _ _ _ _ | BWebhook _ g _ _ _ => Some (new_invoice_id g)
  | _ => None
  end.

Definition fresh_invoice (op : BillOp) (st : BillState) : Prop :=
  ∀ iid, op_new_invoice op = Some iid → dict_get iid (b_invoices st) = None.

(** Every operation, whether it succeeds or raises, is a run of the machine. *)
Lemma op_refines op st :
  keyed iv_id (b_invoices st) → fresh_invoice op st → rtc ip_step (IP st) (IP (bill_step cfg jur configured st op)).
Proof.
  intros Hk Hf. destruct op as [t g tn pl iv n co pr au tr|t g sid pl n pro|t sid e|t sid pl|t sid|t sid|t sid
    |t g sid c cc r|iid|t g iid pr me am ex an|pid an|now tn ca n|t g pr v d]; cbn [bill_step].
  - by rewrite quiet_create.
  - apply (ref_change_plan (b_invoices st) (b_payments st)); [by apply Hf|done].
  - by rewrite quiet_cancel.
  - by rewrite quiet_resume.
  - by rewrite quiet_pause.
  - by rewrite quiet_convert.
  - by rewrite quiet_past_due.
  - apply (ref_generate (b_invoices st) (b_payments st)); [by apply Hf|done].
  - by apply (ref_void (b_invoices st) (b_payments st)).
  - by apply (ref_record_payment (b_invoices st) (b_payments st)).
  - by apply (ref_refund (b_invoices st) (b_payments st)).
  - by rewrite quiet_usage.
  - apply (ref_webhook (b_invoices st) (b_payments st)); [done|by apply Hf|done].
Qed.

(** ** Invariants of the machine *)

Definition completed_for (iid : string) (p : Payment) : bool :=
  bool_decide (py_invoice p = iid) && bool_decide (py_status p = PAY_COMPLETED).

Definition completed_count (iid : string) (pay : dict string Payment) : nat :=
  length (List.filter (completed_for iid) (dict_values pay)).

Definition is_paid (iid : string) (inv : dict string Invoice) : Prop :=
  ∃ i, dict_get iid inv = Some i ∧ iv_status i = INV_PAID.

(** The [n]-th invoice has the number [n + 1]. *)
Definition numbered (inv : dict string Invoice) : Prop :=
  ∀ n e, inv !! n = Some e → iv_number e.2 = invoice_number cfg (Z.of_nat n).

Definition ledger_ok (x : dict string Invoice * dict string Payment) : Prop :=
  keyed iv_id x.1 ∧ numbered x.1 ∧
  ∀ iid, (completed_count iid x.2 <= 1)%nat ∧ (completed_count iid x.2 ≠ 0%nat → is_paid iid x.1).

Lemma count_set iid k p (pay : dict string Payment) :
  (completed_count iid (dict_set k p pay)
   <= completed_count iid pay + if completed_for iid p then 1 else 0)%nat.
Proof.
  unfold completed_count, dict_values. induction pay as [|[k' p'] pay IH]; csimpl.
  { destruct (completed_for iid p); simpl; lia. }
  case_decide; csimpl.
  - destruct (completed_for iid p), (completed_for iid p'); simpl; lia.
  - destruct (completed_for iid p'); simpl; lia.
Qed.

Lemma numbered_append i (inv : dict string Invoice) :
  numbered inv → dict_get (iv_id i) inv = None → iv_number i = invoice_number cfg (zlen inv) →
  numbered (dict_set (iv_id i) i inv).
Proof.
  intros Hn Hg Hi.
  assert (dict_set (iv_id i) i inv = inv ++ [(iv_id i, i)])%list as ->.
  { clear -Hg. induction inv as [|[k v] inv IH]; simpl in *; [done|]. case_decide; [done|]. by rewrite IH. }
  intros n e. rewrite lookup_app_Some. intros [H|[Hle H]]; [by apply Hn|].
  apply list_lookup_singleton_Some in H as [H <-]. simpl. rewrite Hi. unfold zlen. f_equal. lia.
Qed.

Lemma numbered_replace k i0 i (inv : dict string Invoice) :
  numbered inv → dict_get k inv = Some i0 → iv_number i = iv_number i0 → numbered (dict_set k i inv).
Proof.
  intros Hn Hg Hi n e He.
  assert (∃ e0, inv !! n = Some e0 ∧ iv_number e.2 = iv_number e0.2) as (e0 & He0 & ->); [|by apply Hn].
  clear Hn. revert n He. induction inv as [|[k' v] inv IH]; intros n He; [done|]. simpl in *. case_decide.
  - simplify_eq. destruct n as [|n]; simpl in *; [simplify_eq; by eexists|by eexists].
  - destruct n as [|n]; simpl in *; [simplify_eq; by eexists|]. by apply IH.
Qed.

Lemma is_paid_set iid k i (inv : dict string Invoice) :
  is_paid iid inv → (k = iid → iv_status i = INV_PAID) → is_paid iid (dict_set k i inv).
Proof.
  intros (j & Hg & Hj) Hi. unfold is_paid. rewrite dict_get_set. case_decide; [eauto|by exists j].
Qed.

Lemma ip_step_ok x y : ip_step x y → ledger_ok x → ledger_ok y.
Proof.
  intros Hstep (Hk & Hn & Hc). destruct Hstep as
    [inv pay i Hg Hi Hs|inv pay i0 i Hg H0 H1 H2 H3|inv pay p Hp|inv pay p i now Hp Hg Hid [Ho _]]; simpl in *.
  - split; [by apply keyed_set|]. split; [by apply numbered_append|]. intros iid. destruct (Hc iid) as [Hc1 Hc2].
    split; [done|]. intros Hne. apply is_paid_set; [by apply Hc2|]. intros <-. simpl.
    destruct (Hc2 Hne) as (j & Hj & _). simpl in *. congruence.
  - split; [by apply keyed_set|]. split; [by eapply numbered_replace|]. intros iid. destruct (Hc iid) as [Hc1 Hc2].
    split; [done|]. intros Hne. apply is_paid_set; [by apply Hc2|]. intros <-. simpl.
    destruct (Hc2 Hne) as (j & Hj & Hp). simpl in *. congruence.
  - split; [done|]. split; [done|]. intros iid. destruct (Hc iid) as [Hc1 Hc2].
    pose proof (count_set iid (py_id p) p pay) as Hcount.
    assert (completed_for iid p = false) as Hf.
    { unfold completed_for. by rewrite (bool_decide_eq_false_2 _ Hp), andb_false_r. }
    rewrite Hf in Hcount. simpl. split; [lia|]. intros Hne. apply Hc2. lia.
  - split; [rewrite <- Hid; by apply (keyed_set iv_id (with_inv_status INV_PAID now i))|].
    split; [by apply (numbered_replace _ i)|]. intros iid. destruct (Hc iid) as [Hc1 Hc2].
    pose proof (count_set iid (py_id p) p pay) as Hcount. simpl.
    destruct (completed_for iid p) eqn:Ef.
    + unfold completed_for in Ef. bool_to_prop. subst iid.
      assert (completed_count (py_invoice p) pay = 0%nat) as Hz.
      { destruct (completed_count (py_invoice p) pay) eqn:E; [done|].
        destruct Hc2 as (j & Hj & Hpd); [lia|]. simpl in *. congruence. }
      split; [lia|]. intros _. eexists. by rewrite dict_get_set_eq.
    + split; [lia|]. intros Hne. apply is_paid_set; [apply Hc2; lia|done].
Qed.

Lemma ip_steps_ok x y : rtc ip_step x y → ledger_ok x → ledger_ok y.
Proof. induction 1; eauto using ip_step_ok. Qed.

(** Generated invoice ids are new. *)
Fixpoint run_fresh (ops : list BillOp) (st : BillState) : Prop :=
  match ops with
  | [] => True
  | op :: ops => fresh_invoice op st ∧ run_fresh ops (bill_step cfg jur configured st op)
  end.

Lemma run_refines ops st :
  ledger_ok (IP st) → run_fresh ops st →
  rtc ip_step (IP st) (IP (bill_run cfg jur configured ops st)) ∧ ledger_ok (IP (bill_run cfg jur configured ops st)).
Proof.
  revert st. induction ops as [|op ops IH]; intros st Hok Hf; [done|]. destruct Hf as [Hop Hf].
  pose proof (op_refines op st (proj1 Hok) Hop) as Hstep.
  pose proof (ip_steps_ok _ _ Hstep Hok) as Hok'.
  destruct (IH _ Hok' Hf) as [Hrun Hend]. split; [|done]. by etransitivity.
Qed.

(** (C17) No invoice is paid twice: whatever sequence of invoices, payments,
    refunds, plan changes and webhooks happens, and whichever of them fail, an
    invoice has at most one completed payment, and if it has one it is paid.
    The generated invoice ids must be new ([run_fresh]), and the invoices and
    payments at the start must satisfy the same ([ledger_ok]), as those of a new
    manager do. *)
Theorem no_double_payment (ops : list BillOp) (st : BillState) (iid : string) :
  ledger_ok (IP st) → run_fresh ops st →
  let st' := bill_run cfg jur configured ops st in
  (completed_count iid (b_payments st') <= 1)%nat ∧
  (completed_count iid (b_payments st') ≠ 0%nat → is_paid iid (b_invoices st')).
Proof. intros Hok Hf st'. by destruct (run_refines ops st Hok Hf) as [_ (_ & _ & Hc)]. Qed.

Lemma ip_step_paid x y iid i :
  ip_step x y → keyed iv_id x.1 → dict_get iid x.1 = Some i → iv_status i = INV_PAID → dict_get iid y.1 = Some i.
Proof.
  intros Hstep Hk Hg Hp. destruct Hstep as
    [inv pay j Hgj _ _|inv pay j0 j Hgj H0 _ _ _|inv pay p _|inv pay p j now _ Hgj Hid [Ho _]]; simpl in *;
    try done; rewrite dict_get_set; case_decide; congruence.
Qed.

(** A paid invoice is never changed again, neither its amounts nor its
    status. *)
Theorem paid_invoice_final (ops : list BillOp) (st : BillState) (iid : string) (i : Invoice) :
  ledger_ok (IP st) → run_fresh ops st → dict_get iid (b_invoices st) = Some i → iv_status i = INV_PAID →
  dict_get iid (b_invoices (bill_run cfg jur configured ops st)) = Some i.
Proof.
  intros Hok Hf Hg Hp. destruct (run_refines ops st Hok Hf) as [Hrun _].
  revert Hok Hg. change (b_invoices st) with (IP st).1.
  change (b_invoices (bill_run cfg jur configured ops st)) with (IP (bill_run cfg jur configured ops st)).1.
  induction Hrun as [x|x y z Hxy _ IH]; intros Hok Hg; [done|].
  apply IH; [by eapply ip_step_ok|]. eapply ip_step_paid; [exact Hxy|apply Hok|done|done].
Qed.

(** ** Numbers *)

Lemma substring_zeros k : (k <= 4)%nat → all_digits (String.substring 0 k "0000") = true
  ∧ digits_value 0 (String.substring 0 k "0000") = 0.
Proof. intros Hk. do 5 (destruct k as [|k]; [done|]). lia. Qed.

Lemma pad4_value n : 0 <= n → int_of_digits (pad4 n) = n.
Proof.
  intros Hn. unfold pad4, int_of_digits. rewrite digits_value_app.
  destruct (substring_zeros (4 - String.length (str_of_Z n))) as [_ ->]; [lia|].
  by apply str_of_Z_spec.
Qed.

Lemma app_inj (p a b : string) : p +:+ a = p +:+ b → a = b.
Proof. induction p as [|c p IH]; simpl; [done|]. intros [= H]. by apply IH. Qed.

(** Invoices are numbered consecutively in the order they are created, so that
    no two have the same number. *)
Theorem invoice_numbers_distinct (ops : list BillOp) (st : BillState) :
  ledger_ok (IP st) → run_fresh ops st →
  let invoices := b_invoices (bill_run cfg jur configured ops st) in
  NoDup (iv_number <$> dict_values invoices) ∧
  ∀ n e, invoices !! n = Some e → iv_number e.2 = bc_invoice_prefix cfg +:+ pad4 (Z.of_nat n + 1).
Proof.
  intros Hok Hf invoices. destruct (run_refines ops st Hok Hf) as [_ (_ & Hn & _)].
  assert (∀ n e, invoices !! n = Some e → iv_number e.2 = bc_invoice_prefix cfg +:+ pad4 (Z.of_nat n + 1)) as Hnum.
  { intros n e He. rewrite (Hn n e He). unfold invoice_number. do 2 f_equal. lia. }
  split; [|done]. apply NoDup_alt. intros a b x Ha Hb.
  unfold dict_values in Ha, Hb. rewrite !list_lookup_fmap in Ha, Hb.
  destruct (invoices !! a) as [ea|] eqn:Ea; [|done]. destruct (invoices !! b) as [eb|] eqn:Eb; [|done].
  simpl in Ha, Hb. assert (iv_number ea.2 = iv_number eb.2) as Heq by congruence.
  rewrite (Hnum _ _ Ea), (Hnum _ _ Eb) in Heq. apply app_inj in Heq. apply (f_equal int_of_digits) in Heq. rewrite !pad4_value in Heq by lia. lia.
Qed.
End Refinement.
End BillingInvoices.

(** * Billing: quotas

    [quota_follows_plan]: after a subscription is created, changed or resumed,
    the limits of the gateway for the tenant are those of its plan.  Pausing a
    subscription, and the end of its grace period, leave the limits as they
    are ([pause_keeps_limits], [grace_keeps_limits]). *)

Module BillingQuota.
Import BillingModel BillingManager.
Open Scope string_scope.
Open Scope Z_scope.

Section Quotas.
Context (cfg : BillingConfig) (jur : dict string float).

(** All limits are numbers, and no two of them are for the same bucket. *)
Definition plain_limits (l : dict string LimitValue) : Prop :=
  Forall (λ e, ∃ n, e.2 = LInt n) l ∧ NoDup ((λ e, bucket_mapping e.1) <$> l).

(** The plan whose limits apply to a subscription. *)
Definition effective_plan (s : Subscription) : string :=
  match sb_status s with SUB_CANCELLED | SUB_PAUSED => bc_default_free_plan cfg | _ => sb_plan s end.

(** The gateway enforces the limits of the effective plan. *)
Definition limits_applied (s : Subscription) (st : BillState) : Prop :=
  ∃ p, catalog_get (effective_plan s) (b_catalog st) = Ok p ∧
    (plain_limits (pl_limits p) →
     ∀ category n, (category, LInt n) ∈ pl_limits p → bucket_mapping category ∈ QUOTA_BUCKET_NAMES →
       limit_for (sb_tenant s) (bucket_mapping category) (tg_gateway (b_targets st)) = n).

Lemma set_limit_limit_for scope b n q q' :
  set_limit scope b n q = Ok q' → limit_for scope b q' = n ∧
  ∀ b', b' ≠ b → limit_for scope b' q' = limit_for scope b' q.
Proof.
  unfold set_limit, limit_for. case_decide; [|done]. intros [= <-]. simpl.
  rewrite dict_get_set_eq. split; [done|]. intros b' Hne. by rewrite dict_get_set_ne by congruence.
Qed.

Lemma gateway_apply_other scope l q b :
  b ∉ ((λ e, bucket_mapping e.1) <$> l) → limit_for scope b (gateway_apply scope l q).2 = limit_for scope b q.
Proof.
  revert q. induction l as [|[k v] l IH]; intros q Hb; [done|]. csimpl in *.
  apply not_elem_of_cons in Hb as [Hk Hb]. case_bool_decide; [|by apply IH].
  destruct (limit_int v) as [n|]; [|done]. destruct (set_limit scope (bucket_mapping k) n q) as [q'|] eqn:E; [|done].
  rewrite IH by done. by apply set_limit_limit_for in E as [_ ->].
Qed.

Lemma gateway_apply_spec scope l q category n :
  plain_limits l → (category, LInt n) ∈ l → bucket_mapping category ∈ QUOTA_BUCKET_NAMES →
  limit_for scope (bucket_mapping category) (gateway_apply scope l q).2 = n.
Proof.
  revert q. induction l as [|[k v] l IH]; intros q [Hint Hnd] Hin Hb; [by apply elem_of_nil in Hin|].
  apply Forall_cons in Hint as [[m Hm] Hint]. csimpl in *. inversion Hnd as [|? ? Hk Hnd']; subst v.
  apply elem_of_cons in Hin as [Heq|Hin].
  - simplify_eq. rewrite bool_decide_eq_true_2 by done. simpl.
    destruct (set_limit scope (bucket_mapping k) m q) as [q'|] eqn:E.
    + rewrite gateway_apply_other by done. by apply set_limit_limit_for in E as [-> _].
    + unfold set_limit in E. by rewrite decide_True in E.
  - case_bool_decide; [|by apply IH]. simpl.
    destruct (set_limit scope (bucket_mapping k) m q) as [q'|] eqn:E; [by apply IH|].
    unfold set_limit in E. by rewrite decide_True in E.
Qed.

Lemma target_apply_gateway n scope p ts ok ts' :
  target_apply n scope p ts = Ok (ok, ts') →
  tg_gateway ts' = (if bool_decide (n = "gateway") then (gateway_apply scope (pl_limits p) (tg_gateway ts)).2
                    else tg_gateway ts) ∧ tg_names ts' = tg_names ts.
Proof.
  unfold target_apply. case_bool_decide.
  - destruct (gateway_apply _ _ _) as [b q]. by intros [= _ <-].
  - intros H'. split_ifs_in H'; by simplify_eq.
Qed.

(** Once the gateway's limits are applied, no later target changes them. *)
Lemma sync_loop_gateway names scope p ts res r ts' b n :
  sync_loop names scope p ts res = (Ok r, ts') →
  (∀ q, limit_for scope b (gateway_apply scope (pl_limits p) q).2 = n) →
  ("gateway" ∈ names ∨ limit_for scope b (tg_gateway ts) = n) → limit_for scope b (tg_gateway ts') = n.
Proof.
  revert ts res. induction names as [|m names IH]; intros ts res H Hg Hor; simpl in H.
  - injection H as _ <-. destruct Hor as [Hin|]; [by apply elem_of_nil in Hin|done].
  - destruct (target_apply m scope p ts) as [[ok ts1]|e] eqn:E; [|done].
    apply target_apply_gateway in E as [Et _]. eapply IH; [exact H|done|].
    case_bool_decide as Hm; [right; by rewrite Et|].
    destruct Hor as [[Heq|Hin]%elem_of_cons|Hl]; [congruence|by left|right; by rewrite Et].
Qed.

Lemma sync_loop_names names scope p ts res : tg_names (sync_loop names scope p ts res).2 = tg_names ts.
Proof.
  revert ts res. induction names as [|m names IH]; intros ts res; simpl; [done|].
  destruct (target_apply m scope p ts) as [[ok ts1]|e] eqn:E; [|done].
  rewrite IH. by apply target_apply_gateway in E as [_ ->].
Qed.

Lemma sync_quota_applies now1 now2 sid st st' :
  sync_quota cfg now1 now2 sid st = (Ok tt, st') → "gateway" ∈ tg_names (b_targets st') →
  ∃ s, dict_get sid (b_subs st') = Some s ∧ limits_applied s st'.
Proof.
  intros H Hgw. apply se_bind_inv in H as (s & st1 & Hs & H). apply se_bind_inv in H as (p & st2 & Hp & H).
  apply se_bind_inv in H as ([] & st3 & Hq & H). injection H as <-.
  assert (st2 = st1 ∧ catalog_get (effective_plan s) (b_catalog st1) = Ok p) as [-> Hplan].
  { unfold effective_plan. by destruct (sb_status s); injection Hp as ? <-. }
  apply se_bind_inv in Hs as (s0 & st4 & _ & Hs). apply se_bind_inv in Hs as ([] & st5 & _ & Hs).
  unfold sub_get in Hs. destruct (dict_get sid (b_subs st5)) as [s'|] eqn:Es; [|done]. injection Hs as <- <-.
  unfold quota_sync, coordinator_sync in Hq.
  pose proof (sync_loop_names (tg_names (b_targets st5)) (sb_tenant s') p (b_targets st5) []) as Hnames.
  destruct (sync_loop _ _ _ _ _) as [[r|e] ts] eqn:Ec; [|done]. injection Hq as <-. simpl in Hnames.
  exists s'. split; [done|]. exists p. split; [done|].
  intros Hplain category n Hin Hb. simpl in *.
  eapply (sync_loop_gateway _ _ _ _ _ _ _ _ _ Ec); [intros q; by apply gateway_apply_spec|].
  left. by rewrite <- Hnames.
Qed.

(** The last two steps of the operations that synchronise. *)
Lemma sync_then_get now1 now2 sid st s st' :
  (sync_quota cfg now1 now2 sid ;; sub_get sid) st = (Ok s, st') →
  "gateway" ∈ tg_names (b_targets st') → limits_applied s st'.
Proof.
  intros H Hgw. apply se_bind_inv in H as ([] & st1 & Hs & H).
  unfold sub_get in H. destruct (dict_get sid (b_subs st1)) as [s1|] eqn:E; [|done]. injection H as <- <-.
  destruct (sync_quota_applies _ _ _ _ _ Hs Hgw) as (s2 & Hg & Hl). congruence.
Qed.

(** When creating, changing or resuming a subscription succeeds, the gateway
    enforces the limits of the plan that is now in effect for the tenant. *)
Theorem quota_follows_plan (st : BillState) (s : Subscription) (st' : BillState)
    (t : nat → float) (g : nat → string) :
  ((∃ tenant plan interval seats coupon provider auto trial,
      create_subscription cfg t g tenant plan interval seats coupon provider auto trial st = (Ok s, st')) ∨
   (∃ sid plan seats prorate, change_plan cfg jur t g sid plan seats prorate st = (Ok s, st')) ∨
   (∃ sid plan, resume_subscription cfg t sid plan st = (Ok s, st'))) →
  "gateway" ∈ tg_names (b_targets st') → limits_applied s st'.
Proof.
  intros [(tn & pl & iv & n & co & pr & au & tr & H)|[(sid & pl & n & pro & H)|(sid & pl & H)]] Hgw.
  - unfold create_subscription in H. apply se_bind_inv in H as (p & st1 & _ & H).
    apply se_bind_inv in H as (st2 & st3 & _ & H). destruct (match sub_by_tenant _ _ with Some _ => _ | None => _ end); [done|].
    apply se_bind_inv in H as (price & st4 & _ & H). apply se_bind_inv in H as (u & st5 & _ & H).
    do 3 (apply se_bind_inv in H as (? & ? & _ & H)). by eapply sync_then_get.
  - unfold change_plan in H. apply se_bind_inv in H as (s0 & st1 & _ & H).
    apply se_bind_inv in H as (p & st2 & _ & H). case_bool_decide; [done|].
    do 7 (apply se_bind_inv in H as (? & ? & _ & H)). apply se_bind_inv in H as (? & ? & _ & H).
    by eapply sync_then_get.
  - unfold resume_subscription in H. do 7 (apply se_bind_inv in H as (? & ? & _ & H)).
    by eapply sync_then_get.
Qed.

(** ** Operations that leave the limits alone *)

Definition same_limits {A} (m : B A) : Prop := ∀ st, b_targets (m st).2 = b_targets st.

Lemma same_bind {A C} (m : B A) (f : A → B C) : same_limits m → (∀ a, same_limits (f a)) → same_limits (m ≫= f).
Proof.
  intros Hm Hf st. specialize (Hm st). unfold mbind, SE_bind.
  destruct (m st) as [[a|e] st1]; simpl in *; [by rewrite Hf|done].
Qed.

Lemma same_sub_get s : same_limits (sub_get s).
Proof. intros st. unfold sub_get. by destruct (dict_get _ _). Qed.
Lemma same_sub_mod s f : same_limits (sub_mod s f).
Proof. intros st. unfold sub_mod, se_modify. simpl. by destruct (dict_get _ _). Qed.
Lemma same_transition sid x : same_limits (sub_transition sid x).
Proof.
  unfold sub_transition. apply same_bind; [apply same_sub_get|intros s].
  destruct (sub_can_transition _ _); [apply same_sub_mod|done].
Qed.

(** Reading a subscription after its grace period cancels it, but its tenant
    keeps the limits of the plan. *)
Lemma grace_keeps_limits now1 now2 sid : same_limits (get_subscription now1 now2 sid).
Proof.
  unfold get_subscription, enforce_grace. apply same_bind; [apply same_sub_get|intros _].
  apply same_bind; [|intros _; apply same_sub_get]. apply same_bind; [apply same_sub_get|intros s].
  destruct (_ && _); [|done]. apply same_bind; [apply same_transition|intros _; apply same_sub_mod].
Qed.

(** Pausing a subscription leaves the limits of its plan in force, although
    [sync_quota] would apply those of the free plan. *)
Lemma pause_keeps_limits t sid : same_limits (pause_subscription cfg t sid).
Proof.
  unfold pause_subscription. apply same_bind; [apply grace_keeps_limits|intros s].
  apply same_bind; [apply same_transition|intros _]. apply same_bind; [apply same_sub_mod|intros _].
  apply same_bind; [done|intros p]. apply same_bind; [|intros _].
  - unfold record_revenue. by destruct (bc_track_metrics cfg).
  - apply same_bind; [done|intros _; apply same_sub_get].
Qed.
End Quotas.
End BillingQuota.

(** * Billing: the theorems at concrete inputs, and defects

    A tenant subscribes, is invoiced and pays; the theorems of the billing files
    apply to the run.  The examples at the end record what the code does in
    cases it does not seem to mean:

    - a coupon that may be redeemed once blocks the invoices of the
      subscription that redeemed it ([single_use_coupon_blocks_invoice]);
    - resuming with an unknown plan fails and still activates the subscription
      ([failed_resume_activates]);
    - a payment of any amount pays an invoice ([small_payment_settles]);
    - a server error of Stripe counts as a completed charge
      ([stripe_error_completes]). *)

Module BillingDemo.
Import BillingModel BillingManager BillingSpec BillingInvoices BillingQuota.
Open Scope string_scope.
Open Scope Z_scope.

Definition bcfg : BillingConfig := default_billing_config.
Definition now (n : Z) : nat → float := λ i, zf n.
Definition ids (p : string) : nat → string := λ i, p +:+ str_of_Z (Z.of_nat i).

Definition demo_targets : Targets :=
  mk_targets ["gateway"; "vector_store"] (new_quota (MkQuotaConfig 1 1 1 1 1)) [] [] [].

Definition bill0 : BillState := mk_bill PlanCatalog [] [] [] [] [] demo_targets [] [] [].

Definition created := create_subscription bcfg (now 100) (ids "s") "acme" "starter" "" 2 "" "" None None bill0.
Definition bill1 : BillState := created.2.
Definition sub1 : string := "sub_s0".

Definition demo_ops : list BillOp :=
  [BInvoice (now 200) (ids "i") sub1 "" "" None;
   BPay (now 300) (ids "p") "inv_i0" "" "card" None true 0;
   BPay (now 400) (ids "q") "inv_i0" "" "card" None true 0;
   BInvoice (now 500) (ids "j") sub1 "" "" None].

Lemma bill1_ledger : ledger_ok bcfg (IP bill1).
Proof.
  split; [apply keyed_nil|]. split; [intros n e H; destruct n; discriminate H|].
  intros iid. split; [vm_compute; lia|]. intros H. exfalso. by apply H.
Qed.

Lemma demo_fresh : run_fresh bcfg [] (λ _, true) demo_ops bill1.
Proof. repeat split; intros iid [= <-]; vm_compute; reflexivity. Qed.

Lemma one_subscription_per_tenant_witness :
  subs_ok (b_subs (bill_run bcfg [] (λ _, true)
    [BCreate (now 200) (ids "x") "acme" "team" "" 1 "" "" None None; BCancel (now 300) sub1 false] bill1)).
Proof.
  apply (one_subscription_per_tenant bcfg [] (λ _, true)). split.
  - split; [apply (bool_decide_unpack _); vm_compute; exact I|vm_compute; repeat constructor].
  - apply (bool_decide_unpack _). vm_compute. exact I.
Defined.

Lemma no_double_payment_witness :
  (completed_count "inv_i0" (b_payments (bill_run bcfg [] (λ _, true) demo_ops bill1)) <= 1)%nat ∧
  (completed_count "inv_i0" (b_payments (bill_run bcfg [] (λ _, true) demo_ops bill1)) ≠ 0%nat →
   is_paid "inv_i0" (b_invoices (bill_run bcfg [] (λ _, true) demo_ops bill1))).
Proof.
  exact (no_double_payment bcfg [] (λ _, true) demo_ops bill1 "inv_i0" bill1_ledger demo_fresh).
Defined.

Lemma invoice_numbers_distinct_witness :
  NoDup (iv_number <$> dict_values (b_invoices (bill_run bcfg [] (λ _, true) demo_ops bill1))).
Proof.
  exact (proj1 (invoice_numbers_distinct bcfg [] (λ _, true) demo_ops bill1 bill1_ledger demo_fresh)).
Defined.

(** The run above: one payment is recorded, the second one is refused. *)
Example demo_outcome :
  completed_count "inv_i0" (b_payments (bill_run bcfg [] (λ _, true) demo_ops bill1)) = 1%nat ∧
  iv_number <$> dict_values (b_invoices (bill_run bcfg [] (λ _, true) demo_ops bill1)) = ["AIR-0001"; "AIR-0002"].
Proof. vm_compute. done. Qed.

Definition demo_sub : Subscription :=
  match created.1 with Ok s => s | Err _ => mk_sub "" "" "" SUB_TRIAL "" 0 fzero fzero fzero fzero fzero fzero false
    fzero false "" "" fzero fzero end.

Lemma created_ok : created.1 = Ok demo_sub.
Proof. vm_compute. reflexivity. Qed.

Lemma quota_follows_plan_witness : limits_applied bcfg demo_sub bill1.
Proof.
  apply (quota_follows_plan bcfg [] bill0 demo_sub bill1 (now 100) (ids "s")).
  - left. exists "acme", "starter", "", 2, "", "", None, None.
    exact (eq_trans (surjective_pairing created) (f_equal (λ x, (x, created.2)) created_ok)).
  - apply (bool_decide_unpack _). vm_compute. exact I.
Defined.

(** ** Defects *)

Definition with_coupon : BillState :=
  let '(_, cs) := coupon_create "once" COUPON_PERCENT (zf 10) 1 fzero [] (zf 1) [] in set_coupons cs bill0.

Definition coupon_sub : BillState :=
  (create_subscription bcfg (now 100) (ids "s") "acme" "starter" "" 2 "once" "" None None with_coupon).2.

(** The invoice is refused, because the subscription itself has used the coupon
    up, and a draft with lines but without a total is left behind. *)
Theorem single_use_coupon_blocks_invoice :
  (generate_invoice bcfg [] (now 200) (ids "i") sub1 "" "" None coupon_sub).1 = Err (CouponExhaustedError "ONCE") ∧
  iv_status <$> dict_get "inv_i0" (b_invoices (generate_invoice bcfg [] (now 200) (ids "i") sub1 "" "" None coupon_sub).2)
  = Some INV_DRAFT.
Proof. vm_compute. done. Qed.

Definition cancelled : BillState := (cancel_subscription bcfg (now 200) sub1 false bill1).2.

Theorem failed_resume_activates :
  sb_status <$> dict_get sub1 (b_subs cancelled) = Some SUB_CANCELLED ∧
  (resume_subscription bcfg (now 300) sub1 "no-such-plan" cancelled).1 = Err (PlanNotFoundError "no-such-plan") ∧
  sb_status <$> dict_get sub1 (b_subs (resume_subscription bcfg (now 300) sub1 "no-such-plan" cancelled).2)
  = Some SUB_ACTIVE.
Proof. vm_compute. done. Qed.

Definition invoiced : BillState := (generate_invoice bcfg [] (now 200) (ids "i") sub1 "" "" None bill1).2.

Theorem small_payment_settles :
  iv_total <$> dict_get "inv_i0" (b_invoices invoiced) = Some (zf 58) ∧
  iv_status <$> dict_get "inv_i0" (b_invoices
    (record_payment bcfg (λ _, true) (now 300) (ids "p") "inv_i0" "" "card" (Some (zf 1)) true 0 invoiced).2)
  = Some INV_PAID.
Proof. vm_compute. done. Qed.

Theorem stripe_error_completes pid rid t tenant amount iid method :
  provider_charge "stripe" true 500 pid rid t tenant amount iid method
  = Ok (mk_payment pid tenant iid amount "stripe" method PAY_COMPLETED rid t).
Proof. done. Qed.

(** A webhook that names no provider is not verified, and can pay an invoice. *)
Theorem unverified_webhook_pays :
  iv_status <$> dict_get "inv_i0" (b_invoices
    (handle_webhook bcfg [] (λ _, true) (now 300) (ids "p") "" false
       [("type", "payment.succeeded"); ("invoice_id", "inv_i0")] invoiced).2) = Some INV_PAID.
Proof. vm_compute. done. Qed.
End BillingDemo.
