(* ===== verification/Tenancy.v ===== *)
(** * Tenancy

    The tenants and their manager ([src/app/tenancy/manager.py], [models.py],
    [repository.py], [config_service.py], [audit.py], [statistics.py]), the
    resolution of a request to a tenant ([resolver.py]), the isolation rules
    ([isolation.py]), the context variable ([context.py]) and the middleware
    that composes them ([middleware.py]).

    Free-form [metadata] is left out, configuration values are strings.  An
    object handed out by the repository is changed in the repository, since it
    is stored under its own id. *)

From Stdlib Require Import ZArith Lia Ascii.
From stdpp Require Import base numbers strings gmap list.
From S2P Require Import Prelude PyFloat PyNum PyStr PyDict PyMath.


Module Tenancy.
Open Scope string_scope.
Open Scope Z_scope.

(** ** Data *)

Inductive TenantStatus := TENANT_PENDING | TENANT_ACTIVE | TENANT_SUSPENDED | TENANT_DELETED.

#[export] Instance TenantStatus_eq_dec : EqDecision TenantStatus.
Proof. solve_decision. Defined.

Definition tenant_status_value (s : TenantStatus) : string :=
  match s with
  | TENANT_PENDING => "pending" | TENANT_ACTIVE => "active"
  | TENANT_SUSPENDED => "suspended" | TENANT_DELETED => "deleted"
  end.

Definition CONFIG_SECTIONS : list string := ["llm"; "embeddings"; "reranker"; "prompts"; "mcp"].

Record TenantLimits := mk_limits {
  max_requests_per_min : Z;
  max_tokens_per_day : Z;
  max_storage_bytes : Z;
  max_memory_items : Z;
  max_kb_documents : Z;
  max_seats : Z
}.

Definition default_limits : TenantLimits := mk_limits 1000 1000000 1000000000 10000 10000 5.

Definition limits_to_dict (l : TenantLimits) : dict string Z :=
  [("max_requests_per_min", max_requests_per_min l); ("max_tokens_per_day", max_tokens_per_day l);
   ("max_storage_bytes", max_storage_bytes l); ("max_memory_items", max_memory_items l);
   ("max_kb_documents", max_kb_documents l); ("max_seats", max_seats l)].

Definition limits_from_dict (d : dict string Z) : TenantLimits :=
  mk_limits (default 1000 (dict_get "max_requests_per_min" d)) (default 1000000 (dict_get "max_tokens_per_day" d))
    (default 1000000000 (dict_get "max_storage_bytes" d)) (default 10000 (dict_get "max_memory_items" d))
    (default 10000 (dict_get "max_kb_documents" d)) (default 5 (dict_get "max_seats" d)).

Abbreviation Section_ := (dict string string) (only parsing).

Record Tenant := mk_tenant {
  te_id : string;
  te_name : string;
  te_status : TenantStatus;
  te_plan : string;
  te_limits : TenantLimits;
  te_config : dict string Section_;
  te_created_at : float;
  te_updated_at : float
}.

Definition tenant_is_active (x : Tenant) : bool := bool_decide (te_status x = TENANT_ACTIVE).
Definition tenant_is_suspended (x : Tenant) : bool := bool_decide (te_status x = TENANT_SUSPENDED).
Definition tenant_is_deleted (x : Tenant) : bool := bool_decide (te_status x = TENANT_DELETED).

Definition config_section (s : string) (x : Tenant) : Section_ := default [] (dict_get s (te_config x)).

(** [d.update(values)] *)
Definition update_section (values d : Section_) : Section_ := foldl (λ d p, dict_set p.1 p.2 d) d values.

Definition tenant_set_config (s : string) (values : Section_) (now : float) (x : Tenant) : Tenant :=
  mk_tenant (te_id x) (te_name x) (te_status x) (te_plan x) (te_limits x)
    (dict_set s (update_section values (config_section s x)) (te_config x)) (te_created_at x) now.

Definition set_tenant_status (st : TenantStatus) (now : float) (x : Tenant) : Tenant :=
  mk_tenant (te_id x) (te_name x) st (te_plan x) (te_limits x) (te_config x) (te_created_at x) now.

Record TenantContext := mk_context {
  tc_tenant_id : string;
  tc_tenant_name : string;
  tc_status : string;
  tc_user_id : string;
  tc_auth_method : string;
  tc_resolved_by : string;
  tc_attributes : dict string string
}.

(** [TenantContext(tenant_id=..., ...)] with the other fields defaulted. *)
Definition new_context (tid user meth by_ : string) (attributes : dict string string) : TenantContext :=
  mk_context tid "" "active" user meth by_ attributes.

Definition anonymous (tid : string) : TenantContext := mk_context tid tid "active" "" "anonymous" "anonymous" [].

Definition context_merged (x : Tenant) (c : TenantContext) : TenantContext :=
  mk_context (te_id x) (te_name x) (tenant_status_value (te_status x)) (tc_user_id c) (tc_auth_method c)
    (tc_resolved_by c) (tc_attributes c).

Inductive TenExn :=
  | TenantNotFoundError (tenant_id : string)
  | TenantAlreadyExistsError (tenant_id : string)
  | TenantSuspendedError (tenant_id : string)
  | TenantDeletedError (tenant_id : string)
  | TenantResolutionError (message : string)
  | TenantContextMissingError
  | TenantIsolationError (message : string)
  | TenValueError (message : string).

Record TenancyConfig := mk_ten_config {
  header_name : string;
  jwt_claim : string;
  jwt_issuer_claim : string;
  allowed_issuers : list string;
  api_key_header : string;
  subdomain_header : string;
  subdomain_suffix : string;
  custom_domain_map : dict string string;
  allow_anonymous : bool;
  anonymous_tenant : string;
  isolation_prefix : string;
  cache_namespace : string;
  kb_namespace_name : string;
  vector_namespace_name : string;
  citation_namespace_name : string;
  mcp_namespace : string;
  metrics_namespace : string;
  log_namespace : string;
  enforce_active : bool;
  ten_track_metrics : bool;
  ten_audit_enabled : bool
}.

Definition default_ten_config : TenancyConfig :=
  mk_ten_config "X-Tenant-ID" "tenant_id" "iss" ["airouter"] "X-API-Key" "Host" ".airouter.app" [] false "default"
    "tenant" "cache" "kb" "vectors" "citations" "mcp" "metrics" "logs" true true true.

(** ** Audit trail and counters *)

Record TenantAuditEvent := mk_audit_event {
  av_timestamp : float;
  av_action : string;
  av_tenant : string;
  av_actor : string;
  av_resource : string;
  av_outcome : string
}.

(** [l[-n:]] *)
Definition keep_last {A} (n : Z) (l : list A) : list A :=
  if n =? 0 then l else drop (Z.to_nat (zlen l - n)) l.

Definition audit_record (enabled : bool) (max_events : Z) (e : TenantAuditEvent) (events : list TenantAuditEvent) : list TenantAuditEvent :=
  if enabled then
    let events := (events ++ [e])%list in
    if max_events <? zlen events then keep_last max_events events else events
  else events.

Definition audit_list (tenant : option string) (limit : Z) (events : list TenantAuditEvent) : list TenantAuditEvent :=
  let events := match tenant with
                | Some tn => List.filter (λ e, bool_decide (av_tenant e = tn)) events
                | None => events
                end in
  if limit =? 0 then events else keep_last limit events.

Definition tenant_audit_count (tenant : option string) (events : list TenantAuditEvent) : Z := zlen (audit_list tenant 0 events).

Record TenMetrics := mk_ten_metrics {
  tm_requests : dict string (list float);
  tm_errors : dict string (dict string Z);
  tm_resolutions : dict string (dict string Z)
}.

Definition tally (tn k : string) (d : dict string (dict string Z)) : dict string (dict string Z) :=
  let inner := default [] (dict_get tn d) in
  dict_set tn (dict_set k (default 0 (dict_get k inner) + 1) inner) d.

Definition tenant_record_request (enabled : bool) (tn : string) (latency_ms : float) (success : bool) (m : TenMetrics) : TenMetrics :=
  if negb enabled then m
  else mk_ten_metrics (dict_set tn (default [] (dict_get tn (tm_requests m)) ++ [latency_ms])%list (tm_requests m))
         (if success then tm_errors m else tally tn "request_failure" (tm_errors m)) (tm_resolutions m).

Definition record_error (enabled : bool) (tn error_type : string) (m : TenMetrics) : TenMetrics :=
  if enabled then mk_ten_metrics (tm_requests m) (tally tn error_type (tm_errors m)) (tm_resolutions m) else m.

Definition record_resolution (enabled : bool) (tn meth : string) (success : bool) (m : TenMetrics) : TenMetrics :=
  if negb enabled then m
  else mk_ten_metrics (tm_requests m) (tm_errors m)
         (tally tn (meth +:+ (if success then ":ok" else ":fail")) (tm_resolutions m)).

Record TenantStats := mk_tenant_stats {
  ts_requests : Z;
  ts_avg_latency_ms : float;
  ts_errors : dict string Z;
  ts_total_errors : Z;
  ts_resolutions : dict string Z
}.

Definition sum_counts (d : dict string Z) : Z := fold_right Z.add 0 (dict_values d).

Definition by_tenant (tn : string) (m : TenMetrics) : TenantStats :=
  let latencies := default [] (dict_get tn (tm_requests m)) in
  let errors := default [] (dict_get tn (tm_errors m)) in
  mk_tenant_stats (zlen latencies)
    (match latencies with
     | [] => fzero
     | _ => py_round (fdiv (py_sum latencies) (float_of_Z (zlen latencies))) 4
     end)
    errors (sum_counts errors) (default [] (dict_get tn (tm_resolutions m))).

(** ** Manager *)

Record TenState := mk_ten_state {
  ten_tenants : dict string Tenant;
  ten_events : list TenantAuditEvent;
  ten_metrics : TenMetrics
}.

Abbreviation T := (SE TenExn TenState).

Section Manager.
Context (cfg : TenancyConfig) (max_events : Z).

Definition ten_set_tenants (d : dict string Tenant) (st : TenState) : TenState :=
  mk_ten_state d (ten_events st) (ten_metrics st).

Definition ten_audit (now : float) (action tid : string) : T unit :=
  se_modify (λ st, mk_ten_state (ten_tenants st)
    (audit_record (ten_audit_enabled cfg) max_events (mk_audit_event now action tid "" ("tenant:" +:+ tid) "success") (ten_events st))
    (ten_metrics st)).

Definition on_metrics (f : TenMetrics → TenMetrics) : T unit :=
  se_modify (λ st, mk_ten_state (ten_tenants st) (ten_events st) (f (ten_metrics st))).

Definition ten_get (tid : string) : T Tenant := λ st,
  (match dict_get tid (ten_tenants st) with Some x => Ok x | None => Err (TenantNotFoundError tid) end, st).

(** [InMemoryTenantRepository.update] *)
Definition ten_put (x : Tenant) : T unit := λ st,
  match dict_get (te_id x) (ten_tenants st) with
  | None => (Err (TenantNotFoundError (te_id x)), st)
  | Some _ => (Ok tt, ten_set_tenants (dict_set (te_id x) x (ten_tenants st)) st)
  end.

Definition guard_config_sections (config : option (dict string Section_)) : result TenExn unit :=
  match config with
  | None => Ok tt
  | Some d => if forallb (λ s, bool_decide (s ∈ CONFIG_SECTIONS)) (dict_keys d) then Ok tt
              else Err (TenValueError "Unknown tenant config section")
  end.

Definition ten_create (t : nat → float) (uuid name : string) (tid0 : option string) (plan : string)
    (limits : option TenantLimits) (config : option (dict string Section_)) : T Tenant :=
  let tid := str_or (default "" tid0) ("t_" +:+ String.substring 0 12 uuid) in
  se_lift (guard_config_sections config) ;;
  let x := mk_tenant tid name TENANT_ACTIVE plan (default default_limits limits) (default [] config) (t 0%nat) (t 1%nat) in
  st ← se_get;
  match dict_get tid (ten_tenants st) with
  | Some _ =>
      on_metrics (record_error (ten_track_metrics cfg) tid "duplicate_create") ;;
      se_raise (TenantAlreadyExistsError tid)
  | None =>
      se_modify (λ st, ten_set_tenants (dict_set tid x (ten_tenants st)) st) ;;
      ten_audit (t 2%nat) "tenant.created" tid ;;
      mret x
  end.

(** The arguments of [update]; [UOther] is any other name. *)
Inductive TenantUpdate :=
  | UName (v : string)
  | UPlan (v : string)
  | ULimits (v : TenantLimits)
  | ULimitsDict (v : dict string Z)
  | UConfig (v : dict string Section_)
  | UMetadata
  | UStatus (v : TenantStatus)
  | UOther (key : string).

Definition set_tenant_field (u : TenantUpdate) (x : Tenant) : result TenExn Tenant :=
  match u with
  | UName v => Ok (mk_tenant (te_id x) v (te_status x) (te_plan x) (te_limits x) (te_config x) (te_created_at x) (te_updated_at x))
  | UPlan v => Ok (mk_tenant (te_id x) (te_name x) (te_status x) v (te_limits x) (te_config x) (te_created_at x) (te_updated_at x))
  | ULimits v => Ok (mk_tenant (te_id x) (te_name x) (te_status x) (te_plan x) v (te_config x) (te_created_at x) (te_updated_at x))
  | ULimitsDict v =>
      Ok (mk_tenant (te_id x) (te_name x) (te_status x) (te_plan x) (limits_from_dict v) (te_config x) (te_created_at x) (te_updated_at x))
  | UConfig v => Ok (mk_tenant (te_id x) (te_name x) (te_status x) (te_plan x) (te_limits x) v (te_created_at x) (te_updated_at x))
  | UMetadata => Ok x
  | UStatus v => Ok (mk_tenant (te_id x) (te_name x) v (te_plan x) (te_limits x) (te_config x) (te_created_at x) (te_updated_at x))
  | UOther _ => Err (TenValueError "Unknown tenant field")
  end.

(** The assignments take place in the stored object, one by one. *)
Fixpoint set_tenant_fields (tid : string) (us : list TenantUpdate) : T unit :=
  match us with
  | [] => mret tt
  | u :: rest =>
      x ← ten_get tid;
      x' ← se_lift (set_tenant_field u x);
      ten_put x' ;;
      set_tenant_fields tid rest
  end.

Definition not_deleted (tid : string) : T Tenant :=
  x ← ten_get tid;
  if tenant_is_deleted x then se_raise (TenantDeletedError tid) else mret x.

Definition ten_update (t : nat → float) (tid : string) (us : list TenantUpdate) : T Tenant :=
  not_deleted tid ;;
  set_tenant_fields tid us ;;
  x ← ten_get tid;
  let x' := set_tenant_status (te_status x) (t 0%nat) x in
  ten_put x' ;;
  ten_audit (t 1%nat) "tenant.updated" tid ;;
  mret x'.

(** [delete], [suspend] and [activate] differ in the status they set. *)
Definition ten_set_status (s : TenantStatus) (action : string) (t : nat → float) (tid : string) : T Tenant :=
  x ← not_deleted tid;
  let x' := set_tenant_status s (t 0%nat) x in
  ten_put x' ;;
  ten_audit (t 1%nat) action tid ;;
  mret x'.

Definition ten_delete (t : nat → float) (tid : string) : T bool :=
  ten_set_status TENANT_DELETED "tenant.deleted" t tid ;; mret true.
Definition ten_suspend : (nat → float) → string → T Tenant := ten_set_status TENANT_SUSPENDED "tenant.suspended".
Definition ten_activate : (nat → float) → string → T Tenant := ten_set_status TENANT_ACTIVE "tenant.activated".

Definition get_active (tid : string) : T Tenant :=
  x ← not_deleted tid;
  if tenant_is_suspended x && enforce_active cfg then se_raise (TenantSuspendedError tid) else mret x.

Definition ten_list (status plan : option string) (include_deleted : bool) (st : TenState) : list Tenant :=
  let tenants := dict_values (ten_tenants st) in
  let tenants := if include_deleted then tenants else List.filter (λ x, negb (tenant_is_deleted x)) tenants in
  let tenants := match status with
                 | Some s => List.filter (λ x, bool_decide (tenant_status_value (te_status x) = s)) tenants
                 | None => tenants
                 end in
  let tenants := match plan with
                 | Some p => List.filter (λ x, bool_decide (te_plan x = p)) tenants
                 | None => tenants
                 end in
  py_sorted (λ a b, flt (te_created_at a) (te_created_at b)) tenants.

Definition ten_count (status : option string) (st : TenState) : Z := zlen (ten_list status None false st).

Definition ten_set_config (now : float) (tid section : string) (values : Section_) : T Tenant :=
  if negb (bool_decide (section ∈ CONFIG_SECTIONS)) then se_raise (TenValueError "Unknown tenant config section")
  else
    x ← ten_get tid;
    let x' := tenant_set_config section values now x in
    ten_put x' ;; mret x'.

(** ** Configuration service *)

Definition DEFAULT_TENANT_CONFIG : dict string Section_ :=
  [("llm", [("provider", "openai"); ("model", "gpt-4o-mini"); ("temperature", "0.7")]);
   ("embeddings", [("provider", "openai"); ("model", "text-embedding-3-small")]);
   ("reranker", [("enabled", "False"); ("model", "")]);
   ("prompts", [("system", "")]);
   ("mcp", [("enabled", "True"); ("servers", "{}")])].

Definition service_get (defaults : dict string Section_) (tid section : string) (st : TenState) : result TenExn Section_ :=
  if negb (bool_decide (section ∈ CONFIG_SECTIONS)) then Err (TenValueError "Unknown tenant config section")
  else
    let merged := default [] (dict_get section defaults) in
    Ok (match dict_get tid (ten_tenants st) with
        | Some x => update_section (config_section section x) merged
        | None => merged
        end).

Definition service_set (defaults : dict string Section_) (now : float) (tid section : string) (values : Section_) : T Section_ :=
  ten_set_config now tid section values ;;
  st ← se_get;
  se_lift (service_get defaults tid section st).

Definition service_effective (defaults : dict string Section_) (tid : string) (st : TenState) : list (string * result TenExn Section_) :=
  (λ s, (s, service_get defaults tid s st)) <$> CONFIG_SECTIONS.

Fixpoint update_defaults (ds : dict string Section_) (defaults : dict string Section_) : result TenExn unit * dict string Section_ :=
  match ds with
  | [] => (Ok tt, defaults)
  | (s, values) :: rest =>
      if negb (bool_decide (s ∈ CONFIG_SECTIONS)) then (Err (TenValueError "Unknown tenant config section"), defaults)
      else update_defaults rest (dict_set s (update_section values (default [] (dict_get s defaults))) defaults)
  end.
End Manager.

(** ** Resolution *)

(** The decoding of a token is done by the [base64] and [json] modules; claims
    are taken to be strings. *)
Class JwtCodec := {
  urlsafe_b64decode : string → option string;
  json_object : string → option (dict string string)
}.

Section Resolver.
Context `{JwtCodec}.
Context (cfg : TenancyConfig).

Definition Claims : Type := dict string string.

Definition pad_equals (s : string) : string :=
  let n := (Z.opp (Z.of_nat (String.length s))) mod 4 in
  s +:+ String.concat "" (replicate (Z.to_nat n) "=").

Definition decode_jwt_claims (token : string) : option Claims :=
  match split_on "." token with
  | [_; payload; _] =>
      match urlsafe_b64decode (pad_equals payload) with
      | Some text => json_object text
      | None => None
      end
  | _ => None
  end.

Record TenRequest := mk_ten_request {
  rq_headers : dict string string;
  rq_claims : option Claims;
  rq_jwt : option string;
  rq_api_key : option string;
  rq_host : option string
}.

(** [x or y] on optional strings. *)
Definition or_else (a b : option string) : option string :=
  match a with Some s => if truthy s then a else b | None => b end.

Definition header_of (name : string) (rq : TenRequest) : option string :=
  or_else (dict_get name (rq_headers rq)) (dict_get (lower name) (rq_headers rq)).

Definition truthy_opt (a : option string) : bool := match a with Some s => truthy s | None => false end.

Definition header_strategy (rq : TenRequest) : option TenantContext :=
  match header_of (header_name cfg) rq with
  | Some tid => if truthy tid then Some (new_context tid "" "header" "header" []) else None
  | None => None
  end.

Definition request_claims (rq : TenRequest) : option Claims :=
  match rq_claims rq with
  | Some c => Some c
  | None => match rq_jwt rq with
            | Some token => if truthy token then decode_jwt_claims token else None
            | None => None
            end
  end.

Definition jwt_strategy (rq : TenRequest) : option TenantContext :=
  match request_claims rq with
  | None | Some [] => None
  | Some claims =>
      if match dict_get (jwt_issuer_claim cfg) claims with
         | Some issuer => negb (bool_decide (issuer ∈ allowed_issuers cfg))
         | None => false
         end then None
      else
        match dict_get (jwt_claim cfg) claims with
        | Some tid => if truthy tid then Some (new_context tid (default "" (dict_get "sub" claims)) "jwt" "jwt" []) else None
        | None => None
        end
  end.

(** [lookup]: the callback that finds the tenant of a key, [None] when it
    raises or finds none. *)
Definition api_key_strategy (lookup : option (string → option string)) (rq : TenRequest) : option TenantContext :=
  match (if truthy_opt (rq_api_key rq) then rq_api_key rq else header_of (api_key_header cfg) rq) with
  | None => None
  | Some key =>
      if negb (truthy key) then None
      else
        match (match lookup with Some f => f key | None => head (split_on "." key) end) with
        | Some tid => if truthy tid then Some (new_context tid "" "api_key" "api_key" [("api_key", key)]) else None
        | None => None
        end
  end.

Definition first_part (c : ascii) (s : string) : string := default "" (head (split_on c s)).

Definition drop_suffix (suffix s : string) : string :=
  String.substring 0 (String.length s - String.length suffix) s.

Definition subdomain_strategy (rq : TenRequest) : option TenantContext :=
  let host := if truthy_opt (rq_host rq) then rq_host rq else header_of (subdomain_header cfg) rq in
  let normalized := first_part ":" (default "" host) in
  let suffix := subdomain_suffix cfg in
  let answer label := Some (new_context label "" "subdomain" "subdomain" [("host", normalized)]) in
  let label := drop_suffix suffix normalized in
  if truthy suffix && endswith suffix normalized && truthy label && negb (contains "." label) then answer label
  else if negb (truthy suffix) && contains "." normalized then
    let label := first_part "." normalized in if truthy label then answer label else None
  else None.

Definition custom_domain_strategy (rq : TenRequest) : option TenantContext :=
  let host := first_part ":" (default "" (rq_host rq)) in
  if negb (truthy host) then None
  else
    match dict_get host (custom_domain_map cfg) with
    | Some tid => if truthy tid then Some (new_context tid "" "custom_domain" "custom_domain" [("host", host)]) else None
    | None => None
    end.

Definition default_strategies (lookup : option (string → option string)) : list (TenRequest → option TenantContext) :=
  [header_strategy; jwt_strategy; api_key_strategy lookup; subdomain_strategy; custom_domain_strategy].

(** A strategy that raises is passed over, as one that does not answer. *)
Fixpoint first_answer (strategies : list (TenRequest → option TenantContext)) (rq : TenRequest) : option TenantContext :=
  match strategies with
  | [] => None
  | s :: rest => match s rq with Some c => Some c | None => first_answer rest rq end
  end.

(** The parts given to [resolve] override those of the request object. *)
Definition merge_request (base : option TenRequest) (parts : TenRequest) : TenRequest :=
  match base with
  | None => parts
  | Some b =>
      mk_ten_request (match rq_headers parts with [] => rq_headers b | h => h end)
        (match rq_claims parts with Some c => Some c | None => rq_claims b end)
        (if truthy_opt (rq_jwt parts) then rq_jwt parts else rq_jwt b)
        (if truthy_opt (rq_api_key parts) then rq_api_key parts else rq_api_key b)
        (if truthy_opt (rq_host parts) then rq_host parts else rq_host b)
  end.

(** [_enrich]; [tenants] is the registry of the manager, if there is one. *)
Definition enrich (tenants : option (dict string Tenant)) (c : TenantContext) : result TenExn TenantContext :=
  match tenants with
  | None => Ok c
  | Some d =>
      match dict_get (tc_tenant_id c) d with
      | None => Err (TenantResolutionError "Resolved tenant does not exist")
      | Some x =>
          if tenant_is_deleted x then Err (TenantResolutionError "Tenant is deleted")
          else if tenant_is_suspended x && enforce_active cfg then Err (TenantSuspendedError (tc_tenant_id c))
          else Ok (context_merged x c)
      end
  end.

Definition resolve_context (strategies : list (TenRequest → option TenantContext)) (explicit : option string) (user : string)
    (rq : TenRequest) : result TenExn (TenantContext * bool) :=
  match explicit with
  | Some tid =>
      if truthy tid then Ok (new_context tid user "explicit" "explicit" [], false)
      else match first_answer strategies rq with
           | Some c => Ok (c, truthy (tc_resolved_by c))
           | None => if allow_anonymous cfg then Ok (anonymous (anonymous_tenant cfg), true)
                     else Err (TenantResolutionError "Could not resolve a tenant from the request context")
           end
  | None =>
      match first_answer strategies rq with
      | Some c => Ok (c, truthy (tc_resolved_by c))
      | None => if allow_anonymous cfg then Ok (anonymous (anonymous_tenant cfg), true)
                else Err (TenantResolutionError "Could not resolve a tenant from the request context")
      end
  end.

Definition resolve_tenant (strategies : list (TenRequest → option TenantContext)) (tenants : option (dict string Tenant))
    (base : option TenRequest) (explicit : option string) (user : string) (parts : TenRequest)
    : SE TenExn TenMetrics TenantContext := λ m,
  match resolve_context strategies explicit user (merge_request base parts) with
  | Err e => (Err e, m)
  | Ok (c, counted) =>
      (enrich tenants c,
       if counted then record_resolution (ten_track_metrics cfg) (tc_tenant_id c) (tc_resolved_by c) true m else m)
  end.

(** ** Isolation *)

Definition prefix_for (namespace tid : string) : string := isolation_prefix cfg +:+ ":" +:+ tid +:+ ":" +:+ namespace.
Definition isolation_key (tid key : string) : string := isolation_prefix cfg +:+ ":" +:+ tid +:+ ":" +:+ key.
Definition tenant_cache_key (tid key : string) : string := isolation_key tid (cache_namespace cfg +:+ ":" +:+ key).
Definition kb_namespace (tid : string) : string := prefix_for (kb_namespace_name cfg) tid.
Definition vector_namespace (tid : string) : string := prefix_for (vector_namespace_name cfg) tid.
Definition citation_namespace (tid : string) : string := prefix_for (citation_namespace_name cfg) tid.
Definition mcp_prefix (tid : string) : string := prefix_for (mcp_namespace cfg) tid.
Definition metrics_name (tid name : string) : string := prefix_for (metrics_namespace cfg) tid +:+ ":" +:+ name.
Definition log_name (tid name : string) : string := prefix_for (log_namespace cfg) tid +:+ ":" +:+ name.

Definition memory_scope (tid workspace user session : string) : dict string string :=
  ([("tenant_id", tid)] ++ (if truthy workspace then [("workspace_id", workspace)] else [])
   ++ (if truthy user then [("user_id", user)] else []) ++ (if truthy session then [("session_id", session)] else []))%list.

Definition isolation_enforce (c : option TenantContext) : result TenExn TenantContext :=
  match c with
  | None => Err TenantContextMissingError
  | Some c =>
      if negb (truthy (tc_tenant_id c)) then Err TenantContextMissingError
      else if enforce_active cfg && bool_decide (tc_status c = "suspended") then Err (TenantSuspendedError (tc_tenant_id c))
      else if enforce_active cfg && bool_decide (tc_status c = "deleted")
      then Err (TenantIsolationError "Tenant is deleted and cannot be accessed")
      else Ok c
  end.

Definition assert_isolated (a b : option TenantContext) : result TenExn unit :=
  match a, b with
  | Some a, Some b =>
      if truthy (tc_tenant_id a) && truthy (tc_tenant_id b) && negb (bool_decide (tc_tenant_id a = tc_tenant_id b))
      then Err (TenantIsolationError "Cross-tenant access denied") else Ok tt
  | _, _ => Ok tt
  end.

(** ** Context variable *)

Definition context_require (v : option TenantContext) : result TenExn TenantContext :=
  match v with
  | Some c => if truthy (tc_tenant_id c) then Ok c else Err TenantContextMissingError
  | None => Err TenantContextMissingError
  end.

Definition get_or_anonymous (v : option TenantContext) : TenantContext :=
  match v with
  | Some c => if truthy (tc_tenant_id c) then c else anonymous (anonymous_tenant cfg)
  | None => anonymous (anonymous_tenant cfg)
  end.

Definition context_is_set (v : option TenantContext) : bool :=
  match v with Some c => truthy (tc_tenant_id c) | None => false end.

(** [run_with_context]: the body runs with the variable set, and the token
    restores the value it had, also when the body raises. *)
Definition run_with_context {E S A} (c : TenantContext) (body : SE E (option TenantContext * S) A)
    : SE E (option TenantContext * S) A := λ st,
  let '(r, (_, s)) := body (Some c, snd st) in (r, (fst st, s)).

(** ** Middleware *)

(** What a request ends with: a response of the middleware, or the outcome of
    the application, which sent a status or raised. *)
Inductive MiddlewareOutcome :=
  | Blocked (status : Z) (error : string)
  | Answered (status : Z)
  | AppRaised.

Record MwState (S : Type) := mk_mw {
  mw_var : option TenantContext;
  mw_metrics : TenMetrics;
  mw_app : S
}.
Arguments mk_mw {S}. Arguments mw_var {S}. Arguments mw_metrics {S}. Arguments mw_app {S}.

Definition headers_from_scope (raw : list (string * string)) : dict string string := foldl (λ d p, dict_set p.1 p.2 d) [] raw.

(** The application reads the context variable, changes its own state, and
    returns the status it sent ([None]: none), or raises. *)
Definition App (S : Type) : Type := option TenantContext → S → (option Z * bool) * S.

Definition tenant_middleware {S} (strategies : list (TenRequest → option TenantContext)) (tenants : option (dict string Tenant))
    (app : App S) (latency : float) (raw : list (string * string)) (st : MwState S) : MiddlewareOutcome * MwState S :=
  let headers := headers_from_scope raw in
  let host := default (default "" (dict_get "host" headers)) (dict_get "Host" headers) in
  let '(r, m1) := resolve_tenant strategies tenants None None "" (mk_ten_request headers None None None (Some host)) (mw_metrics st) in
  match (match r with Ok c => isolation_enforce (Some c) | Err e => Err e end) with
  | Err (TenantSuspendedError tid) =>
      (Blocked 403 "tenant blocked", mk_mw (mw_var st) (record_error (ten_track_metrics cfg) tid "blocked" m1) (mw_app st))
  | Err (TenantIsolationError _) =>
      (Blocked 403 "tenant blocked", mk_mw (mw_var st) (record_error (ten_track_metrics cfg) "" "blocked" m1) (mw_app st))
  | Err _ => (Blocked 401 "tenant resolution failed", mk_mw (mw_var st) m1 (mw_app st))
  | Ok c =>
      let '((sent, raised), s') := app (Some c) (mw_app st) in
      let status := default 200 sent in
      (if raised then AppRaised else Answered status,
       mk_mw (mw_var st) (tenant_record_request (ten_track_metrics cfg) (tc_tenant_id c) latency (status <? 400) m1) s')
  end.
End Resolver.
End Tenancy.

(** * Tenancy: properties

    - a deleted tenant stays deleted, whatever the manager is asked to do
      ([deletion_final]);
    - the application behind the middleware runs only in the context of a
      tenant that exists, is not deleted and, where the configuration enforces
      it, not suspended; the context variable has its old value afterwards
      ([middleware_admits]);
    - a context is the answer of the first strategy that has one
      ([first_answer_spec]);
    - the keys of two tenants are distinct when no tenant id contains a colon
      ([isolation_keys_distinct]), and need not be otherwise
      ([isolation_keys_clash]);
    - the audit trail is bounded ([audit_trail_bounded]).

    Further, what the code does and may not mean to do: the signature of a
    token plays no part in the resolution ([token_signature_ignored]), and the
    tenant header decides before any token or key ([header_decides]). *)

Module TenancySpec.
Import Tenancy.
Open Scope string_scope.
Open Scope Z_scope.

(** ** The manager *)

Inductive TenOp :=
  | TenCreate (t : nat → float) (uuid name : string) (tid : option string) (plan : string)
      (limits : option TenantLimits) (config : option (dict string (dict string string)))
  | TenUpdate (t : nat → float) (tid : string) (us : list TenantUpdate)
  | TenDelete (t : nat → float) (tid : string)
  | TenSuspend (t : nat → float) (tid : string)
  | TenActivate (t : nat → float) (tid : string)
  | TenSetConfig (now : float) (tid section : string) (values : dict string string).

Section Manager.
Context (cfg : TenancyConfig) (max_events : Z).

Definition ten_apply (op : TenOp) (st : TenState) : TenState :=
  match op with
  | TenCreate t uuid name tid plan limits config => (ten_create cfg max_events t uuid name tid plan limits config st).2
  | TenUpdate t tid us => (ten_update cfg max_events t tid us st).2
  | TenDelete t tid => (ten_delete cfg max_events t tid st).2
  | TenSuspend t tid => (ten_suspend cfg max_events t tid st).2
  | TenActivate t tid => (ten_activate cfg max_events t tid st).2
  | TenSetConfig now tid section values => (ten_set_config now tid section values st).2
  end.

Definition ten_run (ops : list TenOp) (st : TenState) : TenState := foldl (λ st op, ten_apply op st) st ops.

(** The registry holds tenants under their ids, [tid] as deleted. *)
Definition deleted_at (tid : string) (st : TenState) : Prop :=
  keyed te_id (ten_tenants st) ∧ ∃ x, dict_get tid (ten_tenants st) = Some x ∧ te_status x = TENANT_DELETED.

Definition registry_ok (st : TenState) : Prop := keyed te_id (ten_tenants st).

(** Both are invariants of the computations below. *)
Definition stays (tid : string) {A} (m : T A) : Prop := se_inv (deleted_at tid) m.

Lemma stays_bind {A B} tid (m : T A) (k : A → T B) : stays tid m → (∀ a, stays tid (k a)) → stays tid (m ≫= k).
Proof. apply se_inv_bind. Qed.

Lemma stays_get tid x : stays tid (ten_get x). Proof. by intros st. Qed.
Lemma stays_ret {A} tid (a : A) : stays tid (mret a). Proof. by intros st. Qed.
Lemma stays_raise {A} tid e : stays tid (se_raise (A := A) e). Proof. by intros st. Qed.
Lemma stays_lift {A} tid (r : result TenExn A) : stays tid (se_lift r). Proof. by intros st. Qed.
Lemma stays_se_get tid : stays tid se_get. Proof. by intros st. Qed.
Lemma stays_metrics tid f : stays tid (on_metrics f). Proof. by intros st. Qed.
Lemma stays_audit tid now a x : stays tid (ten_audit cfg max_events now a x). Proof. by intros st. Qed.
#[local] Hint Resolve stays_get stays_ret stays_raise stays_lift stays_se_get stays_metrics stays_audit : stays.

(** A tenant is replaced: by one that is deleted if the old one is. *)
Lemma stays_put tid x : te_id x ≠ tid ∨ te_status x = TENANT_DELETED → stays tid (ten_put x).
Proof.
  intros Hx st [Hk (y & Hy & Hs)]. unfold ten_put. destruct (dict_get (te_id x) _) as [z|] eqn:E; [|by split; [|exists y]].
  split; simpl; [by apply keyed_set|]. destruct (decide (te_id x = tid)) as [Ex|Ex].
  - destruct Hx as [|Hx]; [done|]. exists x. split; [|done]. rewrite <- Ex. apply dict_get_set_eq.
  - exists y. by rewrite dict_get_set_ne.
Qed.

(** What the first look at the tenant tells. *)
Lemma stays_with {B} tid x (k : Tenant → T B) :
  (∀ y, te_id y = x → (x = tid → te_status y = TENANT_DELETED) → stays tid (k y)) → stays tid (ten_get x ≫= k).
Proof.
  intros Hk st Hst. unfold mbind, SE_bind, ten_get. destruct (dict_get x (ten_tenants st)) as [y|] eqn:E; [|done].
  destruct Hst as [Hkey (z & Hz & Hs)] eqn:Eq. apply Hk; [by eapply keyed_get| |by split; [|exists z]].
  intros ->. congruence.
Qed.

Lemma stays_not_deleted {B} tid x (k : Tenant → T B) :
  (∀ y, te_id y = x → x ≠ tid → stays tid (k y)) → stays tid (not_deleted x ≫= k).
Proof.
  intros Hk st Hst. unfold not_deleted. unfold mbind at 1, SE_bind at 1. unfold mbind at 1, SE_bind at 1. unfold ten_get.
  destruct (dict_get x (ten_tenants st)) as [y|] eqn:E; [|done]. unfold tenant_is_deleted.
  case_bool_decide as Hd; [done|]. simpl. pose proof Hst as [Hkey (z & Hz & Hs)].
  apply Hk; [by eapply keyed_get| |done]. intros ->. congruence.
Qed.

Lemma stays_lifted {A B} tid (r : result TenExn A) (k : A → T B) :
  (∀ a, r = Ok a → stays tid (k a)) → stays tid (se_lift r ≫= k).
Proof. intros Hk st Hst. unfold mbind, SE_bind, se_lift. destruct r as [a|e]; [by apply Hk|done]. Qed.

Lemma set_tenant_field_id u x x' : set_tenant_field u x = Ok x' → te_id x' = te_id x.
Proof. destruct u; simpl; intros H; by simplify_eq. Qed.

Lemma stays_fields tid x us : x ≠ tid → stays tid (set_tenant_fields x us).
Proof.
  intros Hx. induction us as [|u us IH]; simpl; [by auto with stays|].
  apply stays_with. intros y Hid _. apply stays_lifted. intros y' Hy%set_tenant_field_id.
  apply stays_bind; [apply stays_put; left; congruence|done].
Qed.

Lemma stays_update tid t x us : stays tid (ten_update cfg max_events t x us).
Proof.
  unfold ten_update. apply stays_not_deleted. intros _ _ Hx. apply stays_bind; [by apply stays_fields|intros _].
  apply stays_with. intros y Hid _. apply stays_bind; [apply stays_put; left; simpl; congruence|intros _].
  apply stays_bind; auto with stays.
Qed.

Lemma stays_status tid s a t x : stays tid (ten_set_status cfg max_events s a t x).
Proof.
  unfold ten_set_status. apply stays_not_deleted. intros y Hid Hx. apply stays_bind; [apply stays_put; left; simpl; congruence|intros _].
  apply stays_bind; auto with stays.
Qed.

Lemma stays_create tid t uuid name x plan l c : stays tid (ten_create cfg max_events t uuid name x plan l c).
Proof.
  unfold ten_create. apply stays_bind; [by auto with stays|intros _]. set (id := str_or _ _). intros st Hst.
  unfold mbind at 1, SE_bind at 1. simpl. destruct (dict_get id (ten_tenants st)) as [y|] eqn:E; [done|].
  destruct Hst as [Hk (z & Hz & Hs)]. split; simpl; [by apply (keyed_set te_id (mk_tenant id _ _ _ _ _ _ _))|].
  exists z. rewrite dict_get_set_ne; [done|]. congruence.
Qed.

Lemma stays_config tid now x s v : stays tid (ten_set_config now x s v).
Proof.
  unfold ten_set_config. destruct (negb _); [by auto with stays|]. apply stays_with. intros y Hid Hd.
  apply stays_bind; [|auto with stays]. apply stays_put. simpl. rewrite Hid. destruct (decide (x = tid)); [right|left]; auto.
Qed.

(** Deletion is final: no operation of the manager, status updates, activation,
    creation under the same id and configuration changes included, makes a
    deleted tenant anything but deleted, or removes it. *)
Theorem deletion_final (tid : string) (ops : list TenOp) (st : TenState) :
  deleted_at tid st → deleted_at tid (ten_run ops st).
Proof.
  revert st. induction ops as [|op ops IH]; intros st Hst; [done|]. simpl. apply IH. destruct op; simpl.
  - by apply stays_create.
  - by apply stays_update.
  - unfold ten_delete. apply (stays_bind tid (ten_set_status cfg max_events TENANT_DELETED "tenant.deleted" t tid0) _); [apply stays_status|auto with stays|done].
  - by apply stays_status.
  - by apply stays_status.
  - by apply stays_config.
Qed.

(** A deleted tenant is neither active nor listed. *)
Lemma deleted_not_served tid st :
  deleted_at tid st → (get_active cfg tid st).1 = Err (TenantDeletedError tid).
Proof.
  intros [_ (x & Hx & Hs)]. unfold get_active, not_deleted, mbind, SE_bind, ten_get. rewrite Hx. simpl.
  unfold tenant_is_deleted. by rewrite bool_decide_true.
Qed.

(** ** Audit trail *)

Lemma zlen_keep_last {A} n (l : list A) : 1 <= n → n < zlen l → zlen (keep_last n l) = n.
Proof.
  intros Hn Hl. unfold keep_last. rewrite (proj2 (Z.eqb_neq _ _)) by lia. unfold zlen in *. rewrite length_drop. lia.
Qed.

Lemma audit_record_bounded en e l : 1 <= max_events → zlen l <= max_events → zlen (audit_record en max_events e l) <= max_events.
Proof.
  intros Hm Hl. unfold audit_record. destruct en; [|done]. destruct (max_events <? zlen (l ++ [e])) eqn:E.
  - apply Z.ltb_lt in E. rewrite zlen_keep_last; lia.
  - by apply Z.ltb_ge in E.
Qed.

Definition bounded (st : TenState) : Prop := zlen (ten_events st) <= max_events.
Definition keeps_bound {A} (m : T A) : Prop := se_inv bounded m.

Lemma bound_bind {A B} (m : T A) (k : A → T B) : keeps_bound m → (∀ a, keeps_bound (k a)) → keeps_bound (m ≫= k).
Proof. apply se_inv_bind. Qed.
Lemma bound_get x : keeps_bound (ten_get x). Proof. by intros st. Qed.
Lemma bound_ret {A} (a : A) : keeps_bound (mret a). Proof. by intros st. Qed.
Lemma bound_raise {A} e : keeps_bound (se_raise (A := A) e). Proof. by intros st. Qed.
Lemma bound_lift {A} (r : result TenExn A) : keeps_bound (se_lift r). Proof. by intros st. Qed.
Lemma bound_se_get : keeps_bound se_get. Proof. by intros st. Qed.
Lemma bound_metrics f : keeps_bound (on_metrics f). Proof. by intros st. Qed.
Lemma bound_set f : keeps_bound (se_modify (λ st, ten_set_tenants (f st) st)). Proof. by intros st. Qed.
Lemma bound_put x : keeps_bound (ten_put x).
Proof. intros st Hst. unfold ten_put. by destruct (dict_get _ _). Qed.
Lemma bound_audit now a x : 1 <= max_events → keeps_bound (ten_audit cfg max_events now a x).
Proof. intros Hm st Hst. by apply audit_record_bounded. Qed.
#[local] Hint Resolve bound_get bound_ret bound_raise bound_lift bound_se_get bound_metrics bound_set bound_put bound_audit : bound.

Ltac bound_solve :=
  repeat first
    [ progress auto with bound
    | match goal with
      | |- keeps_bound (_ ≫= _) => apply bound_bind; [|intros ?]
      | |- keeps_bound (if ?b then _ else _) => destruct b
      | |- keeps_bound (match ?x with _ => _ end) => destruct x
      end ].

Lemma bound_fields tid us : keeps_bound (set_tenant_fields tid us).
Proof. induction us; simpl; bound_solve. Qed.
#[local] Hint Resolve bound_fields : bound.

(** The audit trail never holds more than its maximum. *)
Theorem audit_trail_bounded (ops : list TenOp) (st : TenState) :
  1 <= max_events → zlen (ten_events st) <= max_events → zlen (ten_events (ten_run ops st)) <= max_events.
Proof.
  intros Hm. revert st. induction ops as [|op ops IH]; intros st Hst; [done|]. simpl. apply IH.
  change (bounded (ten_apply op st)). destruct op; simpl.
  - assert (keeps_bound (ten_create cfg max_events t uuid name tid plan limits config)) as H by (unfold ten_create; bound_solve). by apply H.
  - assert (keeps_bound (ten_update cfg max_events t tid us)) as H by (unfold ten_update, not_deleted; bound_solve). by apply H.
  - assert (keeps_bound (ten_delete cfg max_events t tid)) as H by (unfold ten_delete, ten_set_status, not_deleted; bound_solve). by apply H.
  - assert (keeps_bound (ten_suspend cfg max_events t tid)) as H by (unfold ten_suspend, ten_set_status, not_deleted; bound_solve). by apply H.
  - assert (keeps_bound (ten_activate cfg max_events t tid)) as H by (unfold ten_activate, ten_set_status, not_deleted; bound_solve). by apply H.
  - assert (keeps_bound (ten_set_config now tid section values)) as H by (unfold ten_set_config; bound_solve). by apply H.
Qed.
End Manager.

(** ** Resolution *)

Section Resolver.
Context `{JwtCodec}.
Context (cfg : TenancyConfig).

(** The answer is that of the first strategy that gives one. *)
Theorem first_answer_spec (ss : list (TenRequest → option TenantContext)) (rq : TenRequest) (c : TenantContext) :
  first_answer ss rq = Some c ↔
  ∃ i s, ss !! i = Some s ∧ s rq = Some c ∧ ∀ j s', (j < i)%nat → ss !! j = Some s' → s' rq = None.
Proof.
  induction ss as [|s ss IH]; simpl.
  - split; [done|]. intros (i & s & Hi & _). by rewrite lookup_nil in Hi.
  - destruct (s rq) as [c'|] eqn:E.
    + split.
      * intros [= ->]. exists 0%nat, s. split_and!; [done|done|]. intros j s' Hj. lia.
      * intros (i & s' & Hi & Hs & Hbefore). destruct i as [|i]; [simpl in Hi; congruence|].
        specialize (Hbefore 0%nat s ltac:(lia) eq_refl). congruence.
    + rewrite IH. split.
      * intros (i & s' & Hi & Hs & Hb). exists (S i), s'. split_and!; [done|done|].
        intros [|j] s'' Hj Hl; [simpl in Hl; congruence|]. apply (Hb j); [lia|done].
      * intros (i & s' & Hi & Hs & Hb). destruct i as [|i]; [simpl in Hi; congruence|].
        exists i, s'. split_and!; [done|done|]. intros j s'' Hj Hl. apply (Hb (S j)); [lia|done].
Qed.

Lemma enrich_Ok d c c' :
  enrich cfg (Some d) c = Ok c' →
  ∃ x, dict_get (tc_tenant_id c) d = Some x ∧ te_status x ≠ TENANT_DELETED ∧
       (enforce_active cfg = true → te_status x ≠ TENANT_SUSPENDED) ∧ c' = context_merged x c.
Proof.
  simpl. destruct (dict_get (tc_tenant_id c) d) as [x|]; [|done]. unfold tenant_is_deleted, tenant_is_suspended.
  case_bool_decide; [done|]. case_bool_decide; simpl.
  - destruct (enforce_active cfg) eqn:E; [done|]. intros [= <-]. exists x. by split_and!.
  - intros [= <-]. exists x. by split_and!.
Qed.

(** The context under which the application may run: that of a registered
    tenant in good standing. *)
Definition admissible (d : dict string Tenant) (c : TenantContext) : Prop :=
  ∃ x, dict_get (te_id x) d = Some x ∧ tc_tenant_id c = te_id x ∧ truthy (te_id x) = true ∧
       te_status x ≠ TENANT_DELETED ∧ (enforce_active cfg = true → te_status x ≠ TENANT_SUSPENDED).

(** With a registry of tenants, the middleware runs the application only in the
    context of a tenant in good standing; a request it blocks leaves the
    application's state alone; and the context variable ends with the value it
    had. *)
Theorem middleware_admits {S} (ss : list (TenRequest → option TenantContext)) (d : dict string Tenant) (app : App S)
    (latency : float) (raw : list (string * string)) (st : MwState S) :
  keyed te_id d →
  let '(out, st') := tenant_middleware cfg ss (Some d) app latency raw st in
  mw_var S st' = mw_var S st ∧
  (mw_app S st' = mw_app S st ∧ (∃ code e, out = Blocked code e) ∨
   ∃ c, admissible d c ∧ mw_app S st' = (app (Some c) (mw_app S st)).2).
Proof.
  intros Hk. unfold tenant_middleware.
  destruct (resolve_tenant cfg ss (Some d) None None "" _ (mw_metrics S st)) as [r m1] eqn:Er.
  assert (∀ c, r = Ok c → ∃ x, dict_get (te_id x) d = Some x ∧ tc_tenant_id c = te_id x ∧
    te_status x ≠ TENANT_DELETED ∧ (enforce_active cfg = true → te_status x ≠ TENANT_SUSPENDED)) as Hr.
  { intros c ->. unfold resolve_tenant in Er. destruct (resolve_context _ _ _ _ _) as [[c0 b]|]; [|done].
    injection Er as Er _. apply enrich_Ok in Er as (x & Hx & Hd & Hs & ->). exists x. simpl.
    pose proof (keyed_get _ _ _ _ Hk Hx) as Hid. rewrite Hid. done. }
  destruct r as [c|e]; cycle 1.
  { destruct e; simpl; split; try done; left; (split; [done|by eexists _, _]). }
  destruct (Hr c eq_refl) as (x & Hx & Hid & Hd & Hs). unfold isolation_enforce.
  destruct (truthy (tc_tenant_id c)) eqn:Et; simpl; [|split; [done|left; split; [done|by eexists _, _]]].
  destruct (enforce_active cfg && bool_decide (tc_status c = "suspended")); [split; [done|left; split; [done|by eexists _, _]]|].
  destruct (enforce_active cfg && bool_decide (tc_status c = "deleted")); [split; [done|left; split; [done|by eexists _, _]]|].
  destruct (app (Some c) (mw_app S st)) as [[sent raised] s'] eqn:Ea. split; [done|]. right. exists c.
  rewrite Ea. split; [|done]. exists x. rewrite Hid in Et. done.
Qed.

(** The third part of a token, its signature, plays no part in the resolution. *)
Theorem token_signature_ignored (header payload sig sig' : string) :
  no_char "." header = true → no_char "." payload = true → no_char "." sig = true → no_char "." sig' = true →
  decode_jwt_claims (header +:+ "." +:+ payload +:+ "." +:+ sig) = decode_jwt_claims (header +:+ "." +:+ payload +:+ "." +:+ sig').
Proof.
  intros Hh Hp Hs Hs'. unfold decode_jwt_claims.
  change ("." +:+ payload +:+ "." +:+ sig) with (String "." (payload +:+ String "." sig)).
  change ("." +:+ payload +:+ "." +:+ sig') with (String "." (payload +:+ String "." sig')).
  by rewrite !split_on_app_sep, !split_on_single by done.
Qed.

(** A request with a tenant header belongs to the tenant it names, whatever
    token, key or host it carries. *)
Theorem header_decides (lookup : option (string → option string)) (tid : string) (rq : TenRequest) :
  dict_get (header_name cfg) (rq_headers rq) = Some tid → truthy tid = true →
  first_answer (default_strategies cfg lookup) rq = Some (new_context tid "" "header" "header" []).
Proof.
  intros Hh Ht. unfold default_strategies. simpl. unfold header_strategy, header_of. rewrite Hh. simpl. by rewrite Ht, Ht.
Qed.

(** ** Isolation keys *)

Lemma str_app_inj_l (a b c : string) : a +:+ b = a +:+ c → b = c.
Proof. induction a as [|x a IH]; simpl; [done|]. intros [= E]. by apply IH. Qed.

Lemma colon_split (a b x y : string) :
  no_char ":" a = true → no_char ":" b = true → a +:+ ":" +:+ x = b +:+ ":" +:+ y → a = b ∧ x = y.
Proof.
  intros Ha Hb E. pose proof (partition_app ":" a x Ha) as H1. pose proof (partition_app ":" b y Hb) as H2.
  change (a +:+ String ":" x = b +:+ String ":" y) in E. rewrite E in H1. by rewrite H1 in H2; simplify_eq.
Qed.

(** Keys of tenants whose ids contain no colon coincide only for the same tenant
    and the same key; so do the namespaces. *)
Theorem isolation_keys_distinct (tid tid' key key' : string) :
  no_char ":" tid = true → no_char ":" tid' = true → isolation_key cfg tid key = isolation_key cfg tid' key' →
  tid = tid' ∧ key = key'.
Proof.
  intros Ht Ht' E. unfold isolation_key in E. apply str_app_inj_l in E.
  change (String ":" (tid +:+ ":" +:+ key) = String ":" (tid' +:+ ":" +:+ key')) in E. injection E as E.
  by apply colon_split.
Qed.

(** With a colon in its id, one tenant can name the keys of another. *)
Theorem isolation_keys_clash (tid key : string) :
  isolation_key cfg (tid +:+ ":" +:+ cache_namespace cfg) key = tenant_cache_key cfg tid key.
Proof. unfold isolation_key, tenant_cache_key, isolation_key. by rewrite !str_app_assoc. Qed.
End Resolver.

(** ** Examples *)

#[local] Instance no_codec : JwtCodec := {| urlsafe_b64decode _ := None; json_object _ := None |}.

Definition tcfg : TenancyConfig := default_ten_config.
Definition tick_clock (k : nat) : float := float_of_Z (100 + Z.of_nat k).
Definition empty_registry : TenState := mk_ten_state [] [] (mk_ten_metrics [] [] []).

Definition two_tenants : TenState :=
  ten_run tcfg 1000 [TenCreate tick_clock "u" "Acme" (Some "acme") "free" None None;
                     TenCreate tick_clock "v" "Beta" (Some "beta") "free" None None;
                     TenDelete tick_clock "beta"] empty_registry.

Lemma two_tenants_deleted : deleted_at "beta" two_tenants.
Proof.
  split; [|by eexists].
  assert (te_id <$> dict_values (ten_tenants two_tenants) = dict_keys (ten_tenants two_tenants)) as E by reflexivity.
  split; [vm_compute; repeat constructor; set_solver|vm_compute; repeat constructor].
Qed.

Definition revival : list TenOp :=
  [TenActivate tick_clock "beta"; TenUpdate tick_clock "beta" [UStatus TENANT_ACTIVE];
   TenCreate tick_clock "w" "Beta" (Some "beta") "free" None None].

Lemma deletion_final_witness : deleted_at "beta" (ten_run tcfg 1000 revival two_tenants).
Proof. exact (deletion_final tcfg 1000 "beta" revival two_tenants two_tenants_deleted). Defined.

(** The application counts the requests it serves. *)
Definition count_app : App Z := λ _ n, ((Some 200, false), n + 1).
Definition idle_mw : MwState Z := mk_mw Z None (mk_ten_metrics [] [] []) 0.

Lemma registry_keyed : keyed te_id (ten_tenants two_tenants).
Proof. exact (proj1 two_tenants_deleted). Qed.

Definition call_as (tid : string) : MiddlewareOutcome * MwState Z :=
  tenant_middleware tcfg (default_strategies tcfg None) (Some (ten_tenants two_tenants)) count_app (float_of_Z 1)
    [("x-tenant-id", tid)] idle_mw.

Example call_acme : (call_as "acme").1 = Answered 200.
Proof. reflexivity. Qed.
Example call_beta : (call_as "beta").1 = Blocked 401 "tenant resolution failed".
Proof. reflexivity. Qed.

Lemma middleware_admits_witness :
  mw_app Z (call_as "acme").2 = 1 ∧
  let '(out, st') := call_as "acme" in
  mw_var Z st' = None ∧
  (mw_app Z st' = 0 ∧ (∃ code e, out = Blocked code e) ∨
   ∃ c, admissible tcfg (ten_tenants two_tenants) c ∧ mw_app Z st' = (count_app (Some c) 0).2).
Proof.
  split; [reflexivity|].
  exact (middleware_admits tcfg (default_strategies tcfg None) (ten_tenants two_tenants) count_app (float_of_Z 1)
           [("x-tenant-id", "acme")] idle_mw registry_keyed).
Defined.
End TenancySpec.
