(* ===== verification/PyVal.v ===== *)
(** * Dynamic Python values

    Metadata of documents and the values of filters are of type [Any].  The
    model covers the values that JSON metadata hold: [None], booleans, integers,
    floats, strings, and lists of these.  Equality, order, membership, truth and
    [float()] are those of Python: a [bool] is an [int], [1 == 1.0], an order
    between values of different kinds raises [TypeError], lists are ordered
    lexicographically.  (Equality of a NaN with itself inside a list, which
    Python decides by identity, is taken by value.)

    The functions of the [math] module and [float] of a text are operations of a
    class. *)

From Stdlib Require Import ZArith Lia.
From Stdlib Require Import SpecFloat.
From stdpp Require Import base numbers strings gmap list.
From S2P Require Import Prelude PyFloat PyNum PyStr PyDict PyMath.

Open Scope string_scope.
Open Scope Z_scope.

Inductive PyErr := TypeErr | ValueErr | OverflowErr | ZeroDivErr.

Class MathLib := {
  math_log : float → result PyErr float;
  math_exp : float → result PyErr float;
  float_pow : float → float → result PyErr float;
  float_of_str : string → option float
}.

Inductive scalar :=
| SNone | SBool (b : bool) | SInt (z : Z) | SFloat (f : float) | SStr (s : string).

Inductive pyval := PScalar (s : scalar) | PList (l : list scalar).

#[export] Instance scalar_eq_dec : EqDecision scalar.
Proof. solve_decision. Defined.
#[export] Instance pyval_eq_dec : EqDecision pyval.
Proof. solve_decision. Defined.

Definition PNone : pyval := PScalar SNone.
Definition PStr (s : string) : pyval := PScalar (SStr s).
Definition PFloat (f : float) : pyval := PScalar (SFloat f).

Definition is_none (v : pyval) : bool :=
  match v with PScalar SNone => true | _ => false end.

(** ** Truth *)

Definition scalar_truthy (s : scalar) : bool :=
  match s with
  | SNone => false
  | SBool b => b
  | SInt z => negb (z =? 0)
  | SFloat f => negb (is_fzero f)
  | SStr s => truthy s
  end.

Definition val_truthy (v : pyval) : bool :=
  match v with
  | PScalar s => scalar_truthy s
  | PList l => match l with [] => false | _ => true end
  end.

(** ** Equality *)

Definition scalar_num (s : scalar) : option num :=
  match s with
  | SBool b => Some (NInt (if b then 1 else 0))
  | SInt z => Some (NInt z)
  | SFloat f => Some (NFloat f)
  | _ => None
  end.

Definition scalar_eq (a b : scalar) : bool :=
  match scalar_num a, scalar_num b with
  | Some x, Some y => match num_compare x y with Some Eq => true | _ => false end
  | _, _ =>
      match a, b with
      | SNone, SNone => true
      | SStr s, SStr t => bool_decide (s = t)
      | _, _ => false
      end
  end.

Fixpoint list_eq (l k : list scalar) : bool :=
  match l, k with
  | [], [] => true
  | a :: l', b :: k' => scalar_eq a b && list_eq l' k'
  | _, _ => false
  end.

Definition val_eq (v w : pyval) : bool :=
  match v, w with
  | PScalar a, PScalar b => scalar_eq a b
  | PList l, PList k => list_eq l k
  | _, _ => false
  end.

(** ** Order: [orEq] distinguishes [<=] from [<]. *)

Definition scalar_lt (or_eq : bool) (a b : scalar) : result PyErr bool :=
  match scalar_num a, scalar_num b with
  | Some x, Some y => Ok (if or_eq then num_le x y else num_lt x y)
  | _, _ =>
      match a, b with
      | SStr s, SStr t => Ok (str_lt s t || or_eq && bool_decide (s = t))
      | _, _ => Err TypeErr
      end
  end.

(** The first differing position decides, otherwise the lengths do. *)
Fixpoint list_lt (or_eq : bool) (l k : list scalar) : result PyErr bool :=
  match l, k with
  | [], [] => Ok or_eq
  | [], _ :: _ => Ok true
  | _ :: _, [] => Ok false
  | a :: l', b :: k' => if scalar_eq a b then list_lt or_eq l' k' else scalar_lt or_eq a b
  end.

Definition val_lt (or_eq : bool) (v w : pyval) : result PyErr bool :=
  match v, w with
  | PScalar a, PScalar b => scalar_lt or_eq a b
  | PList l, PList k => list_lt or_eq l k
  | _, _ => Err TypeErr
  end.

(** ** [v in w] *)

Definition list_has (v : pyval) (l : list scalar) : bool :=
  existsb (λ s, val_eq v (PScalar s)) l.

Definition val_in (v w : pyval) : result PyErr bool :=
  match w with
  | PList l => Ok (list_has v l)
  | PScalar (SStr t) =>
      match v with PScalar (SStr s) => Ok (contains s t) | _ => Err TypeErr end
  | PScalar _ => Err TypeErr
  end.

(** ** [float(v)] *)

Definition val_float `{!MathLib} (v : pyval) : result PyErr float :=
  match v with
  | PScalar (SStr s) => match float_of_str s with Some f => Ok f | None => Err ValueErr end
  | PScalar s =>
      match scalar_num s with
      | Some n => match to_float n with Ok f => Ok f | Err _ => Err OverflowErr end
      | None => Err TypeErr
      end
  | PList _ => Err TypeErr
  end.

(** ** Laws *)

Lemma scalar_eq_str s t : scalar_eq (SStr s) (SStr t) = bool_decide (s = t).
Proof. done. Qed.

Lemma scalar_eq_str_r a t : scalar_eq a (SStr t) = true → a = SStr t.
Proof.
  unfold scalar_eq. destruct a; simpl; try done.
  case_bool_decide; [by subst|done].
Qed.

(** A value that equals a string is that string. *)
Lemma val_eq_str_r v t : val_eq v (PStr t) = true → v = PStr t.
Proof.
  destruct v as [a|l]; simpl; [|done]. intros ->%scalar_eq_str_r. done.
Qed.

Lemma val_eq_str s t : val_eq (PStr s) (PStr t) = bool_decide (s = t).
Proof. done. Qed.

Lemma list_has_str s l : list_has (PStr s) l = true ↔ SStr s ∈ l.
Proof.
  unfold list_has. rewrite existsb_exists. setoid_rewrite <- list_elem_of_In. split.
  - intros (a & Ha & He). simpl in He. destruct a; simpl in He; try done.
    rewrite scalar_eq_str in He. case_bool_decide; [by subst|done].
  - intros Hs. exists (SStr s). split; [done|]. simpl. rewrite scalar_eq_str. by case_bool_decide.
Qed.

Example mixed_equality : val_eq (PScalar (SBool true)) (PFloat (float_of_Z 1)) = true.
Proof. vm_compute. reflexivity. Qed.

Example mixed_order : val_lt false (PScalar (SInt 1)) (PStr "2") = Err TypeErr.
Proof. reflexivity. Qed.
