(* ===== verification/Bm25.v ===== *)
(** * The BM25 index

    [src/app/retrieval/bm25.py]: the tokenizer, the inverted index with its
    derived statistics, and the scored search.  A posting list is a [dict] from
    document to number of occurrences; the document frequencies and the average
    length are recomputed after every change, as in the source. *)

From Stdlib Require Import ZArith Lia.
From Stdlib Require Import Ascii.
From Stdlib Require Import Sorted.
From stdpp Require Import base numbers strings gmap list.
From S2P Require Import Prelude PyFloat PyNum PyStr PyDict PyMath PyVal.


Open Scope string_scope.
Open Scope Z_scope.

Abbreviation metadata := (list (string * pyval)) (only parsing).

(** ** Tokens: [re.findall(r"\w+(?:'\w+)?", text.lower())], one-letter tokens
    dropped *)

Definition is_word (a : ascii) : bool :=
  let n := Ascii.nat_of_ascii a in
  is_digit a || (Nat.leb 65 n && Nat.leb n 90) || (Nat.leb 97 n && Nat.leb n 122) || Nat.eqb n 95.

Definition apostrophe : ascii := Ascii.ascii_of_nat 39.

Definition head_word (s : string) : bool :=
  match s with String a _ => is_word a | EmptyString => false end.

Definition flush (cur : string) : list string := if truthy cur then [cur] else [].

(** [cur] is the match so far, [quoted] whether its optional group has begun. *)
Fixpoint findall_words (cur : string) (quoted : bool) (s : string) : list string :=
  match s with
  | EmptyString => flush cur
  | String a s' =>
      if is_word a then findall_words (cur +:+ String a EmptyString) quoted s'
      else if bool_decide (a = apostrophe) && truthy cur && negb quoted && head_word s'
      then findall_words (cur +:+ String a EmptyString) true s'
      else (flush cur ++ findall_words EmptyString false s')%list
  end.

Definition tokenize (text : string) : list string :=
  List.filter (λ t, 1 <? Z.of_nat (String.length t)) (findall_words EmptyString false (lower text)).

(** [Counter(tokens)]: in order of first occurrence. *)
Definition Counter (tokens : list string) : dict string Z :=
  foldl (λ d t, dict_set t (default 0 (dict_get t d) + 1) d) [] tokens.

(** ** The index *)

Record BM25Index := mk_bm25 {
  bm_doc_freq : dict string Z;
  bm_doc_lengths : dict string Z;
  bm_doc_count : Z;
  bm_avg_doc_length : float;
  bm_postings : dict string (dict string Z);
  bm_doc_store : dict string (string * metadata)
}.

Definition bm_k1 : float := flit 3 2.
Definition bm_b : float := flit 3 4.

Definition empty_index : BM25Index := mk_bm25 [] [] 0 fzero [] [].

Definition sum_lengths (d : dict string Z) : Z := foldr Z.add 0 (dict_values d).

(** [sum(self._doc_lengths.values()) / self._doc_count if self._doc_count > 0 else 0.0] *)
Definition avg_length (lengths : dict string Z) (count : Z) : float :=
  if 0 <? count then int_ratio (sum_lengths lengths) count else fzero.

(** [_recompute_df] *)
Definition recompute_df (postings : dict string (dict string Z)) : dict string Z :=
  (λ p, (p.1, zlen p.2)) <$> postings.

Definition add_posting (doc_id term : string) (count : Z) (postings : dict string (dict string Z))
    : dict string (dict string Z) :=
  dict_set term (dict_set doc_id count (default [] (dict_get term postings))) postings.

Definition index_document (doc_id text : string) (meta : metadata) (s : BM25Index) : BM25Index :=
  let tokens := tokenize text in
  let postings :=
    foldl (λ ps tc, add_posting doc_id tc.1 tc.2 ps) (bm_postings s) (Counter tokens) in
  let was_present := dict_mem doc_id (bm_doc_lengths s) in
  let lengths := dict_set doc_id (zlen tokens) (bm_doc_lengths s) in
  let store := dict_set doc_id (text, meta) (bm_doc_store s) in
  let count := if was_present then bm_doc_count s else bm_doc_count s + 1 in
  mk_bm25 (recompute_df postings) lengths count (avg_length lengths count) postings store.

(** A posting list without the document; an empty one goes. *)
Definition prune_posting (doc_id : string) (d : dict string Z) : option (dict string Z) :=
  match dict_pop doc_id d with [] => None | d' => Some d' end.

Definition remove_document (doc_id : string) (s : BM25Index) : bool * BM25Index :=
  if negb (dict_mem doc_id (bm_doc_lengths s)) then (false, s)
  else
    let lengths := dict_pop doc_id (bm_doc_lengths s) in
    let store := dict_pop doc_id (bm_doc_store s) in
    let postings := omap (λ p, pair p.1 <$> prune_posting doc_id p.2) (bm_postings s) in
    let count := Z.max 0 (bm_doc_count s - 1) in
    (true, mk_bm25 (recompute_df postings) lengths count (avg_length lengths count) postings store).

Definition clear_index (s : BM25Index) : BM25Index := empty_index.

Definition get_document_text (doc_id : string) (s : BM25Index) : string :=
  match dict_get doc_id (bm_doc_store s) with Some e => e.1 | None => "" end.

Definition get_document_metadata (doc_id : string) (s : BM25Index) : metadata :=
  match dict_get doc_id (bm_doc_store s) with Some e => e.2 | None => [] end.

Definition with_metadata (s : BM25Index) (p : string * float) : string * float * metadata :=
  (p.1, p.2, get_document_metadata p.1 s).

(** ** Search *)

Section Search.
Context `{Math : !MathLib}.

(** [math.log(1 + (self._doc_count - df + 0.5) / (df + 0.5))] *)
Definition compute_idf (term : string) (s : BM25Index) : result PyErr float :=
  let df := default 0 (dict_get term (bm_doc_freq s)) in
  if df =? 0 then Ok fzero
  else math_log (fadd fone
    (fdiv (fadd (float_of_Z (bm_doc_count s - df)) fhalf) (fadd (float_of_Z df) fhalf))).

(** The contribution of one term to one document; the divisor is at least the
    positive [tf]. *)
Definition bm25_score (s : BM25Index) (idf : float) (tf doc_len : Z) : float :=
  let avg := if flt (bm_avg_doc_length s) fone then fone else bm_avg_doc_length s in
  fdiv (fmul idf (fmul (float_of_Z tf) (fadd bm_k1 fone)))
    (fadd (float_of_Z tf)
      (fmul bm_k1 (fadd (fsub fone bm_b) (fdiv (fmul bm_b (float_of_Z doc_len)) avg)))).

Definition allowed (filter_ids : option (list string)) (doc_id : string) : bool :=
  match filter_ids with Some l => bool_decide (doc_id ∈ l) | None => true end.

Definition add_score (doc_id : string) (x : float) (scores : dict string float) : dict string float :=
  dict_set doc_id (fadd (default fzero (dict_get doc_id scores)) x) scores.

Definition score_posting (s : BM25Index) (filter_ids : option (list string)) (idf : float)
    (scores : dict string float) (p : string * Z) : dict string float :=
  if allowed filter_ids p.1
  then add_score p.1 (bm25_score s idf p.2 (default 0 (dict_get p.1 (bm_doc_lengths s)))) scores
  else scores.

Fixpoint score_terms (s : BM25Index) (filter_ids : option (list string)) (terms : list string)
    (scores : dict string float) : result PyErr (dict string float) :=
  match terms with
  | [] => Ok scores
  | term :: rest =>
      match dict_get term (bm_postings s) with
      | None => score_terms s filter_ids rest scores
      | Some postings =>
          match compute_idf term s with
          | Err e => Err e
          | Ok idf =>
              score_terms s filter_ids rest
                (foldl (score_posting s filter_ids idf) scores postings)
          end
      end
  end.

Definition bm25_search (query : string) (top_k : Z) (filter_ids : option (list string))
    (s : BM25Index) : result PyErr (list (string * float * metadata)) :=
  match tokenize query with
  | [] => Ok []
  | terms =>
      match score_terms s filter_ids terms [] with
      | Err e => Err e
      | Ok scores =>
          Ok (with_metadata s <$> take_z top_k (py_sorted by_score scores))
      end
  end.

Definition bm25_statistics (s : BM25Index) : Z * float * Z * float * float :=
  (bm_doc_count s, py_round (bm_avg_doc_length s) 2, zlen (bm_postings s), bm_k1, bm_b).
End Search.

(** ** Examples *)

Example tokens_of_text : tokenize "Don't panic: x is 42_a, 'quoted' a'b'c" =
  ["don't"; "panic"; "is"; "42_a"; "quoted"; "a'b"].
Proof. reflexivity. Qed.

Example counts : Counter ["ab"; "cd"; "ab"] = [("ab", 2); ("cd", 1)].
Proof. reflexivity. Qed.

(** * The BM25 index is a correct index

    The invariant of the index, what a posting means, the effect of the
    operations on postings, and the ranking that [search] returns. *)

Open Scope string_scope.
Open Scope Z_scope.

Module Bm25Spec.

(** ** Dictionaries *)

Lemma dict_pop_set {V} (k : string) (v : V) d : dict_pop k (dict_set k v d) = dict_pop k d.
Proof.
  induction d as [|[k' v'] d IH]; simpl; [by rewrite decide_True|].
  destruct (decide (k = k')) as [->|Hne]; simpl; [by rewrite decide_True|].
  by rewrite decide_False, IH.
Qed.

Lemma dict_get_omap {V} (f : V → option V) (k : string) (d : dict string V) :
  dict_wf d → dict_get k (omap (λ p, pair p.1 <$> f p.2) d) = dict_get k d ≫= f.
Proof.
  unfold dict_wf. induction d as [|[k' v'] d IH]; csimpl; [done|].
  intros [Hk Hd]%NoDup_cons. case_decide as E.
  - subst. destruct (f v') eqn:Ef; simpl; [by rewrite decide_True|].
    rewrite IH by done. by apply dict_get_None in Hk as ->.
  - destruct (f v'); simpl; [rewrite decide_False by done|]; by apply IH.
Qed.

Lemma dict_omap_wf {V} (f : V → option V) (d : dict string V) :
  dict_wf d → dict_wf (omap (λ p, pair p.1 <$> f p.2) d).
Proof.
  intros Hd. unfold dict_wf. eapply sublist_NoDup; [exact Hd|]. clear Hd.
  induction d as [|[k v] d IH]; csimpl; [done|].
  destruct (f v); csimpl; [by apply sublist_skip|by apply sublist_cons].
Qed.

Lemma dict_mem_set {V} (k k' : string) (v : V) d :
  dict_mem k' (dict_set k v d) = bool_decide (k = k') || dict_mem k' d.
Proof. unfold dict_mem. rewrite dict_get_set. case_decide; by case_bool_decide. Qed.

(** ** Counting tokens *)

Definition occurrences (t : string) (tokens : list string) : Z :=
  zlen (filter (λ u, u = t) tokens).

Definition counted (t : string) (tokens : list string) (base : option Z) : option Z :=
  if decide (t ∈ tokens) then Some (default 0 base + occurrences t tokens) else base.

Lemma count_tokens tokens (d : dict string Z) t :
  dict_get t (foldl (λ d t, dict_set t (default 0 (dict_get t d) + 1) d) d tokens)
  = counted t tokens (dict_get t d).
Proof.
  unfold counted, occurrences. revert d. induction tokens as [|u tokens IH]; intros d; cbn [foldl]; [done|].
  rewrite IH, dict_get_set. destruct (decide (u = t)) as [->|Hne].
  - rewrite filter_cons_True by done. rewrite (decide_True (P := t ∈ t :: tokens)) by set_solver.
    simpl. unfold zlen. simpl. case_decide as Ht; f_equal; [lia|].
    assert (filter (λ u, u = t) tokens = []) as ->; [|simpl; lia].
    destruct (filter (λ u, u = t) tokens) as [|w l] eqn:E; [done|].
    assert (w ∈ filter (λ u, u = t) tokens) as [-> ?]%list_elem_of_filter by (rewrite E; left). done.
  - rewrite filter_cons_False by done.
    destruct (decide (t ∈ tokens)); [rewrite decide_True by set_solver|rewrite decide_False by set_solver]; done.
Qed.

Lemma counter_get t tokens : dict_get t (Counter tokens) =
  if decide (t ∈ tokens) then Some (occurrences t tokens) else None.
Proof. unfold Counter. rewrite count_tokens. unfold counted. case_decide; [f_equal; simpl; lia|done]. Qed.

Lemma occurrences_pos t tokens : t ∈ tokens → 0 < occurrences t tokens.
Proof.
  intros Ht. unfold occurrences, zlen.
  assert (t ∈ filter (λ u, u = t) tokens) as H by (by apply list_elem_of_filter).
  destruct (filter _ tokens); [set_solver|simpl; lia].
Qed.

Lemma counter_wf tokens : dict_wf (Counter tokens).
Proof.
  unfold Counter. assert (dict_wf ([] : dict string Z)) as H by constructor. revert H.
  generalize ([] : dict string Z) as d. induction tokens as [|t tokens IH]; intros d Hd; simpl; [done|].
  apply IH. by apply dict_set_wf.
Qed.

(** ** Postings *)

Abbreviation postings_t := (dict string (dict string Z)) (only parsing).

(** The recorded number of occurrences of a term in a document *)
Definition posting_in (ps : postings_t) (t d : string) : option Z := dict_get t ps ≫= dict_get d.
Definition posting (s : BM25Index) (t d : string) : option Z := posting_in (bm_postings s) t d.

Record postings_wf (known : string → Prop) (ps : postings_t) : Prop := {
  pw_terms : dict_wf ps;
  pw_lists : ∀ t p, dict_get t ps = Some p → p ≠ [] ∧ dict_wf p;
  pw_docs : ∀ t d n, posting_in ps t d = Some n → known d ∧ 0 < n
}.

Lemma posting_add d t n ps t' d' :
  posting_in (add_posting d t n ps) t' d'
  = if decide (t = t' ∧ d = d') then Some n else posting_in ps t' d'.
Proof.
  unfold posting_in, add_posting. rewrite dict_get_set. destruct (decide (t = t')) as [->|Ht].
  - simpl. rewrite dict_get_set. case_decide; [by rewrite decide_True|].
    rewrite decide_False by tauto. by destruct (dict_get t' ps).
  - by rewrite decide_False by tauto.
Qed.

Definition index_terms (d : string) (tcs : dict string Z) (ps : postings_t) : postings_t :=
  foldl (λ ps tc, add_posting d tc.1 tc.2 ps) ps tcs.

Lemma posting_index_terms d tcs ps t d' :
  dict_wf tcs →
  posting_in (index_terms d tcs ps) t d'
  = if decide (d = d') then match dict_get t tcs with Some n => Some n | None => posting_in ps t d' end
    else posting_in ps t d'.
Proof.
  unfold index_terms, dict_wf. revert ps. induction tcs as [|[u n] tcs IH]; intros ps; csimpl.
  { intros _. by case_decide. }
  intros [Hu Hw]%NoDup_cons. rewrite IH by done. simpl. rewrite !posting_add.
  destruct (decide (d = d')) as [->|Hd]; [|by rewrite decide_False by tauto].
  destruct (decide (t = u)) as [->|Ht].
  - apply dict_get_None in Hu as ->. by rewrite decide_True.
  - destruct (dict_get t tcs); [done|]. by rewrite decide_False by naive_solver.
Qed.

Lemma add_posting_wf (K K' : string → Prop) d t n ps :
  postings_wf K ps → (∀ x, K x → K' x) → K' d → 0 < n → postings_wf K' (add_posting d t n ps).
Proof.
  intros [Ht Hl Hp] HK Hd Hn. split.
  - by apply dict_set_wf.
  - intros t' p. unfold add_posting. rewrite dict_get_set. case_decide; [|apply Hl].
    intros [= <-]. split; [destruct (default [] (dict_get t ps)) as [|[??]?]; simpl; [done|by case_decide]|].
    apply dict_set_wf. destruct (dict_get t ps) eqn:E; simpl; [|constructor]. by apply (Hl t).
  - intros t' d' m. rewrite posting_add. case_decide as E.
    + intros [= <-]. destruct E as [-> ->]. done.
    + intros Hm. apply Hp in Hm. naive_solver.
Qed.

Lemma index_terms_wf (K K' : string → Prop) d tcs ps :
  postings_wf K ps → (∀ x, K x → K' x) → K' d → Forall (λ tc, 0 < tc.2) tcs →
  postings_wf K' (index_terms d tcs ps).
Proof.
  intros Hps HK Hd Htcs. unfold index_terms.
  assert (postings_wf K' ps) as H by (destruct Hps as [? ? Hp]; split; [done..|]; intros ??? H%Hp; naive_solver).
  clear Hps HK. revert ps H. induction Htcs as [|tc tcs Hn Htcs IH]; intros ps H; simpl; [done|].
  apply IH. eapply add_posting_wf; eauto.
Qed.

Lemma counter_pos tokens : Forall (λ tc, 0 < tc.2) (Counter tokens).
Proof.
  apply Forall_forall. intros [t n] Hin.
  apply dict_elem_of_get in Hin; [|apply counter_wf]. rewrite counter_get in Hin.
  case_decide; simplify_eq. by apply occurrences_pos.
Qed.

Definition prune (d : string) (ps : postings_t) : postings_t :=
  omap (λ p, pair p.1 <$> prune_posting d p.2) ps.

Lemma posting_prune d ps t d' :
  dict_wf ps → (∀ p, dict_get t ps = Some p → dict_wf p) →
  posting_in (prune d ps) t d' = if decide (d = d') then None else posting_in ps t d'.
Proof.
  intros Hw Hl. unfold posting_in, prune. rewrite dict_get_omap by done.
  destruct (dict_get t ps) as [p|] eqn:E; simpl; [|by case_decide].
  specialize (Hl p eq_refl).
  assert (prune_posting d p ≫= dict_get d' = dict_get d' (dict_pop d p)) as ->.
  { unfold prune_posting. by destruct (dict_pop d p). }
  destruct (decide (d = d')) as [->|Hd]; [by apply dict_get_pop_eq|by apply dict_get_pop_ne].
Qed.

Lemma prune_wf (K K' : string → Prop) d ps :
  postings_wf K ps → (∀ x, K x → x ≠ d → K' x) → postings_wf K' (prune d ps).
Proof.
  intros [Ht Hl Hp] HK. split.
  - by apply dict_omap_wf.
  - intros t p. unfold prune. rewrite dict_get_omap by done.
    destruct (dict_get t ps) as [q|] eqn:E; simpl; [|done].
    destruct (Hl _ _ E) as [_ Hq]. pose proof (dict_pop_wf d _ Hq) as Hw.
    unfold prune_posting. destruct (dict_pop d q) eqn:Eq; [done|]. by intros [= <-].
  - intros t d' n. rewrite posting_prune; [|done|intros p Hg; by apply (Hl t)].
    case_decide; [done|]. intros [? ?]%Hp. auto.
Qed.

Lemma prune_add d t n ps : prune d (add_posting d t n ps) = prune d ps.
Proof.
  unfold prune, add_posting. induction ps as [|[u p] ps IH]; csimpl.
  - unfold prune_posting; simpl. by rewrite decide_True.
  - destruct (decide (t = u)) as [->|Ht]; csimpl.
    + unfold prune_posting at 1. by rewrite dict_pop_set.
    + by rewrite IH.
Qed.

Lemma prune_index_terms d tcs ps : prune d (index_terms d tcs ps) = prune d ps.
Proof.
  unfold index_terms. revert ps. induction tcs as [|tc tcs IH]; intros ps; simpl; [done|].
  by rewrite IH, prune_add.
Qed.

Lemma prune_absent d ps :
  (∀ t p, (t, p) ∈ ps → p ≠ [] ∧ dict_get d p = None) → prune d ps = ps.
Proof.
  unfold prune. induction ps as [|[t p] ps IH]; intros H; csimpl; [done|].
  destruct (H t p) as [Hne Hd]; [left|]. rewrite IH by (intros; apply (H t0); by right).
  unfold prune_posting. rewrite dict_pop_id by done. by destruct p.
Qed.

(** ** The invariant *)

Definition stored (s : BM25Index) (d : string) : Prop := dict_mem d (bm_doc_lengths s) = true.

Record bm_wf (s : BM25Index) : Prop := {
  bw_lengths : dict_wf (bm_doc_lengths s);
  bw_store : dict_wf (bm_doc_store s);
  bw_same : ∀ d, dict_mem d (bm_doc_store s) = dict_mem d (bm_doc_lengths s);
  bw_count : bm_doc_count s = zlen (bm_doc_lengths s);
  bw_avg : bm_avg_doc_length s = avg_length (bm_doc_lengths s) (bm_doc_count s);
  bw_df : bm_doc_freq s = recompute_df (bm_postings s);
  bw_postings : postings_wf (stored s) (bm_postings s)
}.

Lemma empty_wf : bm_wf empty_index.
Proof. split; simpl; try done; try constructor; simpl; try done; constructor. Qed.

Lemma index_wf d x m s : bm_wf s → bm_wf (index_document d x m s).
Proof.
  intros [Hl Hs Hd Hc Ha Hf Hp]. split; simpl; try done; try by apply dict_set_wf.
  - intros d'. by rewrite !dict_mem_set, Hd.
  - unfold zlen. rewrite length_dict_set. rewrite Hc. unfold zlen.
    destruct (dict_mem d (bm_doc_lengths s)); lia.
  - apply (index_terms_wf (stored s)); [done| | |apply counter_pos]; unfold stored; simpl; intros;
      rewrite dict_mem_set; [by rewrite orb_comm, H|by rewrite bool_decide_true].
Qed.

Lemma mem_pop {V} (k k' : string) (d : dict string V) :
  dict_wf d → dict_mem k' (dict_pop k d) = negb (bool_decide (k = k')) && dict_mem k' d.
Proof.
  intros Hw. unfold dict_mem. case_bool_decide; subst; simpl; [by rewrite dict_get_pop_eq|].
  by rewrite dict_get_pop_ne.
Qed.

Lemma remove_wf d s : bm_wf s → bm_wf (remove_document d s).2.
Proof.
  intros Hwf. unfold remove_document. destruct (dict_mem d (bm_doc_lengths s)) eqn:Em; simpl; [|done].
  destruct Hwf as [Hl Hs Hd Hc Ha Hf Hp]. split; simpl; try done; try by apply dict_pop_wf.
  - intros d'. by rewrite !mem_pop, Hd.
  - unfold zlen in *. rewrite (length_dict_pop _ _ Em) in Hc. lia.
  - eapply prune_wf; [exact Hp|]. intros y Hy Hne. unfold stored in *; simpl.
    rewrite mem_pop, Hy by done. by rewrite bool_decide_eq_false_2.
Qed.

Inductive BmOp := OpIndex (d text : string) (m : metadata) | OpRemove (d : string) | OpClear.

Definition bm_apply (s : BM25Index) (o : BmOp) : BM25Index :=
  match o with
  | OpIndex d x m => index_document d x m s
  | OpRemove d => (remove_document d s).2
  | OpClear => clear_index s
  end.

Definition bm_run (ops : list BmOp) : BM25Index := foldl bm_apply empty_index ops.

Lemma bm_apply_wf s o : bm_wf s → bm_wf (bm_apply s o).
Proof. destruct o; intros; [by apply index_wf|by apply remove_wf|apply empty_wf]. Qed.

(** Over every sequence of operations the index is consistent: the document
    table, the store, the count and the average agree; the frequency of a term
    is the length of its posting list, which is never empty, names stored
    documents only, each with a positive number of occurrences. *)
Theorem index_consistent (ops : list BmOp) : bm_wf (bm_run ops).
Proof.
  unfold bm_run. assert (bm_wf empty_index) as H by apply empty_wf. revert H.
  generalize empty_index as s. induction ops as [|o ops IH]; intros s H; simpl; [done|].
  apply IH. by apply bm_apply_wf.
Qed.

Lemma posting_stored s t d n : bm_wf s → posting s t d = Some n → stored s d ∧ 0 < n.
Proof. intros Hw. apply (pw_docs _ _ (bw_postings _ Hw)). Qed.

(** The document frequency lies between one and the number of documents, so
    the argument of the logarithm in [compute_idf] is a number above one. *)
Theorem df_bounds s t n :
  bm_wf s → dict_get t (bm_doc_freq s) = Some n → 1 <= n <= bm_doc_count s.
Proof.
  intros Hw. rewrite (bw_df _ Hw). unfold recompute_df.
  rewrite (dict_get_fmap zlen). destruct (dict_get t (bm_postings s)) as [p|] eqn:E; simpl; [|done].
  intros [= <-]. destruct (pw_lists _ _ (bw_postings _ Hw) _ _ E) as [Hne Hp].
  split; [destruct p; [done|unfold zlen; simpl; lia]|].
  rewrite (bw_count _ Hw). unfold zlen. apply Nat2Z.inj_le.
  rewrite <- (length_fmap fst p), <- (length_fmap fst (bm_doc_lengths s)).
  apply submseteq_length, NoDup_submseteq; [done|]. intros d Hd.
  apply list_elem_of_fmap in Hd as ([d' c] & -> & Hin). simpl.
  destruct (posting_stored s t d' c Hw) as [Hst _].
  { unfold posting, posting_in. rewrite E. simpl. by apply dict_elem_of_get. }
  unfold stored, dict_mem in Hst. destruct (dict_get d' (bm_doc_lengths s)) eqn:Ed; [|done].
  apply dict_get_elem_of in Ed. apply list_elem_of_fmap. by exists (d', z).
Qed.

(** ** Removing undoes indexing *)

Lemma index_eta s :
  mk_bm25 (bm_doc_freq s) (bm_doc_lengths s) (bm_doc_count s) (bm_avg_doc_length s)
    (bm_postings s) (bm_doc_store s) = s.
Proof. by destruct s. Qed.

Lemma prune_unknown d s : bm_wf s → dict_mem d (bm_doc_lengths s) = false → prune d (bm_postings s) = bm_postings s.
Proof.
  intros Hw Hm. apply prune_absent. intros t p Hin.
  apply dict_elem_of_get in Hin; [|apply Hw].
  split; [by apply (pw_lists _ _ (bw_postings _ Hw) _ _ Hin)|].
  destruct (dict_get d p) as [n|] eqn:E; [|done].
  destruct (posting_stored s t d n Hw) as [Hst _]; [|unfold stored in Hst; congruence].
  unfold posting, posting_in. by rewrite Hin.
Qed.

(** Indexing a document and removing it again leaves the index that removing
    it at once would have left: for a document that was not there, the index as
    it was, the order of its tables and its statistics included. *)
Theorem remove_undoes_index d x m s :
  bm_wf s →
  (remove_document d (index_document d x m s)).2 = (remove_document d s).2.
Proof.
  intros Hw. unfold remove_document at 1. simpl.
  rewrite dict_mem_set, bool_decide_true by done. simpl.
  change (omap _ (foldl _ _ _)) with (prune d (index_terms d (Counter (tokenize x)) (bm_postings s))).
  rewrite prune_index_terms, !dict_pop_set. unfold remove_document.
  destruct (dict_mem d (bm_doc_lengths s)) eqn:Em; simpl; [done|].
  rewrite (prune_unknown d s Hw Em).
  assert (Z.max 0 (bm_doc_count s + 1 - 1) = bm_doc_count s) as ->.
  { rewrite (bw_count _ Hw). unfold zlen. lia. }
  rewrite !dict_pop_id, <- (bw_df _ Hw), <- (bw_avg _ Hw).
  - apply index_eta.
  - pose proof (bw_same _ Hw d) as Hs. rewrite Em in Hs. unfold dict_mem in Hs.
    by destruct (dict_get d (bm_doc_store s)).
  - unfold dict_mem in Em. by destruct (dict_get d (bm_doc_lengths s)).
Qed.

Lemma remove_undoes_index_witness :
  (remove_document "b" (index_document "b" "red cat" [] (bm_run [OpIndex "a" "blue dog" []]))).2
  = bm_run [OpIndex "a" "blue dog" []].
Proof. rewrite (remove_undoes_index "b" "red cat" [] (bm_run [OpIndex "a" "blue dog" []])); [reflexivity|apply index_consistent]. Defined.

(** ** Fresh indexing: the index is that of the corpus

    When a document is only indexed under an id that is free (a changed document
    is removed first), the postings are exactly the token counts of the texts
    last given. *)

Abbreviation corpus := (gmap string string) (only parsing).

Definition corpus_step (c : corpus) (o : BmOp) : corpus :=
  match o with
  | OpIndex d x _ => <[d := x]> c
  | OpRemove d => delete d c
  | OpClear => ∅
  end.

Definition corpus_of (ops : list BmOp) : corpus := foldl corpus_step ∅ ops.

Fixpoint fresh_from (c : corpus) (ops : list BmOp) : bool :=
  match ops with
  | [] => true
  | o :: ops' =>
      match o with OpIndex d _ _ => bool_decide (c !! d = None) | _ => true end
      && fresh_from (corpus_step c o) ops'
  end.

Record represents (s : BM25Index) (c : corpus) : Prop := {
  rp_wf : bm_wf s;
  rp_stored : ∀ d, dict_mem d (bm_doc_lengths s) = bool_decide (is_Some (c !! d));
  rp_text : ∀ d x, c !! d = Some x → get_document_text d s = x;
  rp_length : ∀ d x, c !! d = Some x → dict_get d (bm_doc_lengths s) = Some (zlen (tokenize x));
  rp_posting : ∀ t d, posting s t d =
    match c !! d with
    | Some x => if decide (t ∈ tokenize x) then Some (occurrences t (tokenize x)) else None
    | None => None
    end
}.

Lemma represents_empty : represents empty_index ∅.
Proof. split; [apply empty_wf|done..]. Qed.

Lemma represents_index s c d x m :
  represents s c → c !! d = None → represents (index_document d x m s) (<[d := x]> c).
Proof.
  intros [Hw Hst Htx Hln Hp] Hd. split; simpl.
  - by apply index_wf.
  - intros d'. rewrite dict_mem_set, Hst. destruct (decide (d = d')) as [->|Hne].
    + rewrite lookup_insert_eq. by rewrite bool_decide_true.
    + rewrite lookup_insert_ne by done. by rewrite bool_decide_eq_false_2.
  - intros d' y. unfold get_document_text; simpl. rewrite dict_get_set.
    case_decide as E; [subst; rewrite lookup_insert_eq; by intros [= <-]|].
    rewrite lookup_insert_ne by done. apply Htx.
  - intros d' y. rewrite dict_get_set.
    case_decide as E; [subst; rewrite lookup_insert_eq; by intros [= <-]|].
    rewrite lookup_insert_ne by done. apply Hln.
  - intros t d'. unfold posting; simpl.
    change (foldl _ _ _) with (index_terms d (Counter (tokenize x)) (bm_postings s)).
    rewrite posting_index_terms by apply counter_wf. rewrite counter_get.
    destruct (decide (d = d')) as [->|Hne].
    + rewrite lookup_insert_eq. case_decide; [done|].
      fold (posting s t d'). by rewrite Hp, Hd.
    + rewrite lookup_insert_ne by done. apply Hp.
Qed.

Lemma represents_remove s c d :
  represents s c → represents (remove_document d s).2 (delete d c).
Proof.
  intros [Hw Hst Htx Hln Hp]. pose proof (remove_wf d s Hw) as Hw'. revert Hw'.
  unfold remove_document. rewrite Hst. destruct (c !! d) as [x|] eqn:Ed; simpl.
  2: { intros _. by rewrite delete_id. }
  intros Hw'. split; simpl; [done| | | |].
  - intros d'. rewrite mem_pop, Hst by apply Hw. case_bool_decide as E; simpl.
    + subst. by rewrite lookup_delete_eq.
    + by rewrite lookup_delete_ne.
  - intros d' y [Hne Hy]%lookup_delete_Some. unfold get_document_text; simpl.
    rewrite dict_get_pop_ne by done. by apply Htx.
  - intros d' y [Hne Hy]%lookup_delete_Some. rewrite dict_get_pop_ne by done. by apply Hln.
  - intros t d'. unfold posting; simpl. change (omap _ _) with (prune d (bm_postings s)).
    rewrite posting_prune; [|apply Hw|intros p Hg; by apply (pw_lists _ _ (bw_postings _ Hw) t)].
    case_decide as E; [subst; by rewrite lookup_delete_eq|].
    rewrite lookup_delete_ne by done. apply Hp.
Qed.

(** (C19) The index refines the corpus: for every sequence of operations that indexes
    a document only under a free id, a document is stored exactly when the
    corpus has it, with its text and length, and the posting of a term in it is
    the number of times the term occurs among the tokens of that text. *)
Theorem index_refines_corpus (ops : list BmOp) :
  fresh_from ∅ ops = true → represents (bm_run ops) (corpus_of ops).
Proof.
  unfold bm_run, corpus_of. pose proof represents_empty as H. revert H.
  generalize empty_index as s. generalize (∅ : corpus) as c.
  induction ops as [|o ops IH]; intros c s H Hf; simpl in *; [done|].
  apply andb_prop in Hf as [Ho Hf]. apply IH; [|done].
  destruct o as [d x m|d|]; simpl.
  - apply bool_decide_eq_true in Ho. by apply represents_index.
  - by apply represents_remove.
  - apply represents_empty.
Qed.

Definition demo_ops : list BmOp :=
  [OpIndex "a" "red cat" []; OpIndex "b" "blue dog" []; OpRemove "a"; OpIndex "a" "green cat" []].

Lemma index_refines_corpus_witness :
  fresh_from ∅ demo_ops = true ∧ represents (bm_run demo_ops) (corpus_of demo_ops).
Proof. split; [reflexivity|apply (index_refines_corpus demo_ops); reflexivity]. Defined.

(** Indexing a changed text under the same id keeps the postings of the old
    text: the document goes on matching words it no longer contains. *)
Theorem reindex_keeps_old_terms :
  let s := bm_run [OpIndex "a" "red cat" []; OpIndex "a" "blue dog" []] in
  get_document_text "a" s = "blue dog" ∧ posting s "red" "a" = Some 1 ∧ "red" ∉ tokenize "blue dog".
Proof.
  split; [reflexivity|]. split; [reflexivity|].
  change (tokenize "blue dog") with ["blue"; "dog"]. set_solver.
Qed.

(** ** The ranking *)

Section Ranking.
Context `{Math : !MathLib}.
Implicit Types (s : BM25Index) (d t : string).

(** The reference score: the contributions of the query terms, in order. *)
Definition term_step s d (acc : float) t : float :=
  match posting s t d, compute_idf t s with
  | Some tf, Ok idf => fadd acc (bm25_score s idf tf (default 0 (dict_get d (bm_doc_lengths s))))
  | _, _ => acc
  end.

Definition doc_score s (terms : list string) d : float := foldl (term_step s d) fzero terms.

Definition occurs s (terms : list string) d : bool :=
  existsb (λ t, bool_decide (is_Some (posting s t d))) terms.

Lemma get_score_posting s f idf p scores d :
  dict_wf p →
  dict_get d (foldl (score_posting s f idf) scores p)
  = match dict_get d p with
    | Some tf => if allowed f d
        then Some (fadd (default fzero (dict_get d scores))
               (bm25_score s idf tf (default 0 (dict_get d (bm_doc_lengths s)))))
        else dict_get d scores
    | None => dict_get d scores
    end.
Proof.
  unfold dict_wf. revert scores. induction p as [|[d' tf] p IH]; intros scores; csimpl; [done|].
  intros [Hd Hp]%NoDup_cons. rewrite IH by done.
  destruct (decide (d = d')) as [->|Hne].
  - apply dict_get_None in Hd as ->. unfold score_posting; simpl.
    destruct (allowed f d'); [|done]. unfold add_score. by rewrite dict_get_set_eq.
  - assert (dict_get d (score_posting s f idf scores (d', tf)) = dict_get d scores) as ->; [|done].
    unfold score_posting; simpl. destruct (allowed f d'); [|done]. unfold add_score. by rewrite dict_get_set_ne.
Qed.

Lemma score_posting_wf s f idf p scores :
  dict_wf scores → dict_wf (foldl (score_posting s f idf) scores p).
Proof.
  revert scores. induction p as [|q p IH]; intros scores Hw; simpl; [done|].
  apply IH. unfold score_posting. destruct (allowed f q.1); [by apply dict_set_wf|done].
Qed.

Lemma term_step_none s d acc t : posting s t d = None → term_step s d acc t = acc.
Proof. unfold term_step. by intros ->. Qed.

Lemma step_unocc s terms d acc : occurs s terms d = false → foldl (term_step s d) acc terms = acc.
Proof.
  revert acc. induction terms as [|t terms IH]; intros acc; simpl; [done|].
  intros [Ht Ho]%orb_false_elim. rewrite IH by done. unfold term_step.
  apply bool_decide_eq_false in Ht. destruct (posting s t d); [by destruct Ht|done].
Qed.

Lemma score_terms_spec s f terms scores scores' :
  bm_wf s → dict_wf scores → score_terms s f terms scores = Ok scores' →
  dict_wf scores' ∧
  ∀ d, dict_get d scores' =
    if allowed f d && occurs s terms d
    then Some (foldl (term_step s d) (default fzero (dict_get d scores)) terms)
    else dict_get d scores.
Proof.
  intros Hw. revert scores. induction terms as [|t terms IH]; intros scores Hs; simpl.
  { intros [= <-]. split; [done|]. intros d. by rewrite andb_false_r. }
  destruct (dict_get t (bm_postings s)) as [p|] eqn:Ep.
  2: { intros H. destruct (IH _ Hs H) as [Hw' Hg]. split; [done|]. intros d.
       assert (posting s t d = None) as Hn by (unfold posting, posting_in; by rewrite Ep).
       rewrite Hg. unfold occurs; cbn [existsb foldl]. fold (occurs s terms d).
       rewrite (term_step_none _ _ _ _ Hn), Hn. done. }
  destruct (compute_idf t s) as [idf|] eqn:Ei; [|done]. intros H.
  destruct (IH _ (score_posting_wf s f idf p _ Hs) H) as [Hw' Hg]. split; [done|]. intros d.
  assert (posting s t d = dict_get d p) as Hp by (unfold posting, posting_in; by rewrite Ep).
  rewrite Hg, get_score_posting by (by apply (pw_lists _ _ (bw_postings _ Hw) t)).
  unfold occurs; cbn [existsb foldl]. fold (occurs s terms d). rewrite <- Hp.
  destruct (posting s t d) as [tf|] eqn:Et; simpl; [|by rewrite (term_step_none _ _ _ _ Et)].
  destruct (allowed f d); simpl; [|done].
  assert (∀ acc, term_step s d acc t
    = fadd acc (bm25_score s idf tf (default 0 (dict_get d (bm_doc_lengths s))))) as ->
    by (intros; unfold term_step; by rewrite Et, Ei).
  destruct (occurs s terms d) eqn:Eo; simpl; [done|]. by rewrite step_unocc.
Qed.

(** The ranking that a search promises: [res] are the best [k] of the documents
    that satisfy [hit], each once, best first. *)
Record ranking s (hit : string → bool) (score : string → float) (k : Z)
    (res : list (string * float * metadata)) : Prop := {
  rk_nodup : NoDup (res.*1.*1);
  rk_length : 0 <= k → zlen res <= k;
  rk_sound : ∀ d x m, (d, x, m) ∈ res →
    hit d = true ∧ stored s d ∧ x = score d ∧ m = get_document_metadata d s;
  rk_ranked : (∀ d, is_nan (score d) = false) → ranked (res.*1);
  rk_complete : (∀ d, is_nan (score d) = false) → ∀ d, 0 <= k → hit d = true → d ∉ res.*1.*1 →
    zlen res = k ∧ ∀ d' x m, (d', x, m) ∈ res → flt x (score d) = false
}.

(** A search over a consistent index returns the [top_k] best documents that
    pass the filter and contain a term of the query, each once, best first, with
    the sum of the contributions of the query terms as score and the metadata it
    was indexed with. *)
Theorem search_ranks_matches query k f s res :
  bm_wf s → bm25_search query k f s = Ok res →
  ranking s (λ d, allowed f d && occurs s (tokenize query) d) (doc_score s (tokenize query)) k res.
Proof.
  intros Hw H. unfold bm25_search in H.
  set (terms := tokenize query) in *.
  assert (∃ scores, score_terms s f terms [] = Ok scores ∧
    res = with_metadata s <$> take_z k (py_sorted by_score scores))
    as (scores & Hs & ->).
  { destruct terms as [|t terms']; [|destruct (score_terms s f (t :: terms') []); simplify_eq; eauto].
    injection H as <-. exists []. split; [done|]. unfold take_z. simpl. by rewrite take_nil. }
  clear H. destruct (score_terms_spec s f terms [] scores Hw ltac:(constructor) Hs) as [Hwf Hg].
  simpl in Hg. set (l := py_sorted by_score scores).
  assert (l ≡ₚ scores) as Hperm by apply py_sorted_perm.
  assert (Hin : ∀ d x, (d, x) ∈ l ↔
    (allowed f d && occurs s terms d) = true ∧ x = doc_score s terms d).
  { intros d x. rewrite Hperm. split.
    - intros Hx%dict_elem_of_get; [|done]. rewrite Hg in Hx.
      destruct (allowed f d && occurs s terms d); simplify_eq. done.
    - intros [Hh ->]. apply dict_get_elem_of. by rewrite Hg, Hh. }
  assert (Hfst : (with_metadata s <$> take_z k l).*1 = take_z k l).
  { rewrite <- list_fmap_compose. rewrite <- (list_fmap_id (take_z k l)) at 2. apply list_fmap_ext.
    by intros _ [d x] _. }
  destruct (take_z_prefix k l) as [rest Hl].
  assert (Hnd : NoDup l.*1) by (rewrite Hperm; apply Hwf).
  assert (Hnn : (∀ d, is_nan (doc_score s terms d) = false) → Forall (λ x, is_nan x.2 = false) scores).
  { intros Hn. apply Forall_forall. intros [d x] Hd. rewrite <- Hperm, Hin in Hd. destruct Hd as [_ ->]. apply Hn. }
  split; rewrite ?Hfst.
  - rewrite Hl, fmap_app in Hnd. by apply NoDup_app in Hnd as [? _].
  - intros Hk. unfold zlen. rewrite length_fmap. by apply take_z_length.
  - intros d x m Hm. apply list_elem_of_fmap in Hm as ([d' x'] & [= -> -> ->] & Hd).
    assert ((d', x') ∈ l) as [Hh ->]%Hin by (rewrite Hl; apply elem_of_app; by left).
    split; [done|]. split; [|done]. apply andb_prop in Hh as [_ Ho].
    apply existsb_exists in Ho as (t & _ & Ht). apply bool_decide_eq_true in Ht as [n Hn].
    by destruct (posting_stored s t d' n Hw Hn).
  - intros Hn. apply Hnn, sorted_ranked in Hn. fold l in Hn. rewrite Hl in Hn.
    by apply StronglySorted_app_inv in Hn as [? _].
  - intros Hn d Hk Hh Hd. apply Hnn, sorted_ranked in Hn. fold l in Hn.
    assert ((d, doc_score s terms d) ∈ rest) as Hrest.
    { assert ((d, doc_score s terms d) ∈ l) as Hdl by (by apply Hin).
      rewrite Hl in Hdl. apply elem_of_app in Hdl as [Hdl|]; [|done].
      destruct Hd. apply list_elem_of_fmap. by exists (d, doc_score s terms d). }
    split.
    + unfold zlen. rewrite length_fmap. apply (take_z_rest k l rest Hk Hl). intros ->. by apply not_elem_of_nil in Hrest.
    + intros d' x m Hm. apply list_elem_of_fmap in Hm as ([d'' x'] & [= -> -> ->] & Hx).
      rewrite Hl in Hn. apply StronglySorted_app_inv in Hn as (_ & _ & Hc).
      exact (Hc _ _ Hx Hrest).
Qed.
End Ranking.

#[local] Instance unit_math : MathLib := {|
  math_log := λ x, Ok x; math_exp := λ x, Ok x; float_pow := λ x _, Ok x; float_of_str := λ _, None |}.

Lemma search_ranks_matches_witness :
  ∃ res, bm25_search "cat fish" 5 None (bm_run demo_ops) = Ok res ∧
    ranking (bm_run demo_ops)
      (λ d, allowed None d && occurs (bm_run demo_ops) (tokenize "cat fish") d)
      (doc_score (bm_run demo_ops) (tokenize "cat fish")) 5 res.
Proof.
  eexists. split; [vm_compute; reflexivity|].
  eapply (search_ranks_matches "cat fish" 5 None (bm_run demo_ops)); [apply index_consistent|vm_compute; reflexivity].
Defined.

End Bm25Spec.
