(* ===== verification/Fusion.v ===== *)
(** * Normalisation and fusion of scores

    [src/app/retrieval/normalization.py] and [src/app/retrieval/fusion.py]: the
    four normalisations of a list of scores and the four ways to fuse the
    semantic and the keyword scores of documents.

    [set(a) | set(b)] is iterated in an order that depends on the hashes of the
    strings: [SetOrder] is that order, of which only is known that it lists the
    members of the set once each. *)

From Stdlib Require Import ZArith Lia.
From Stdlib Require Import SpecFloat.
From Stdlib Require Import Sorted.
From stdpp Require Import base numbers strings gmap list.
From S2P Require Import Prelude PyFloat PyNum PyDict PyMath PyVal.


Open Scope string_scope.
Open Scope Z_scope.

Class SetOrder := iter_set : gset string → list string.

Class SetOrderLaws `{SetOrder} := {
  iter_set_perm (X : gset string) : iter_set X ≡ₚ elements X
}.

(** ** Lists of computations that may raise *)

Fixpoint map_result {E A B} (f : A → result E B) (l : list A) : result E (list B) :=
  match l with
  | [] => Ok []
  | x :: l' =>
      match f x with
      | Err e => Err e
      | Ok y => match map_result f l' with Ok ys => Ok (y :: ys) | Err e => Err e end
      end
  end.

Definition fdivide (x y : float) : result PyErr float :=
  match float_truediv x y with Ok f => Ok f | Err _ => Err ZeroDivErr end.

(** ** Normalisation *)

Inductive NormalizationStrategy := MinMax | ZScore | Softmax | RankBased.

Section Normalization.
Context `{Math : !MathLib}.

Definition min_max_normalize (scores : list float) : result PyErr (list float) :=
  match scores with
  | [] => Ok []
  | x :: rest =>
      let mn := py_min x rest in
      let mx := py_max x rest in
      if feq mx mn then Ok (replicate (length scores) fone)
      else map_result (λ s, fdivide (fsub s mn) (fsub mx mn)) scores
  end.

(** [math.sqrt(x)] for [x > 0] *)
Definition fsqrt (x : float) : float := SFsqrt fprec femax x.

Definition z_score_normalize (scores : list float) : result PyErr (list float) :=
  match scores with
  | [] => Ok []
  | _ =>
      let n := zlen scores in
      let mean := fdiv (py_sum scores) (float_of_Z n) in
      match map_result (λ s, float_pow (fsub s mean) (float_of_Z 2)) scores with
      | Err e => Err e
      | Ok squares =>
          let variance := fdiv (py_sum squares) (float_of_Z n) in
          let std := if flt fzero variance then fsqrt variance else fone in
          match map_result (λ s, fdivide (fsub s mean) std) scores with
          | Err e => Err e
          | Ok [] => Ok []
          | Ok ((y :: rest) as normalized) =>
              let mn := py_min y rest in
              let mx := py_max y rest in
              if feq mx mn then Ok (replicate (length scores) fhalf)
              else map_result (λ x, fdivide (fsub x mn) (fsub mx mn)) normalized
          end
      end
  end.

Definition softmax_normalize (scores : list float) : result PyErr (list float) :=
  match scores with
  | [] => Ok []
  | x :: rest =>
      let m := py_max x rest in
      match map_result (λ s, math_exp (fsub s m)) scores with
      | Err e => Err e
      | Ok exp_scores =>
          let total := py_sum exp_scores in
          if is_fzero total
          then Ok (replicate (length scores) (fdiv fone (float_of_Z (zlen scores))))
          else map_result (λ e, fdivide e total) exp_scores
      end
  end.

(** [1.0 - (rank / max(n - 1, 1))] *)
Definition rank_value (n rank : Z) : float := fsub fone (int_ratio rank (Z.max (n - 1) 1)).

Definition rank_based_normalize (scores : list float) : list float :=
  let n := zlen scores in
  let sorted_pairs := py_sorted by_score (enumerate scores) in
  foldl (λ result p, <[Z.to_nat p.2.1 := rank_value n p.1]> result)
    (replicate (length scores) fzero) (enumerate sorted_pairs).

Definition normalize (strategy : NormalizationStrategy) (scores : list float) : result PyErr (list float) :=
  match strategy with
  | MinMax => min_max_normalize scores
  | ZScore => z_score_normalize scores
  | Softmax => softmax_normalize scores
  | RankBased => Ok (rank_based_normalize scores)
  end.
End Normalization.

(** [create_normalization_strategy]: an unknown name raises [ValueError]. *)
Definition create_normalization_strategy (name : string) : result PyErr NormalizationStrategy :=
  match dict_get name [("min_max", MinMax); ("z_score", ZScore); ("softmax", Softmax); ("rank_based", RankBased)] with
  | Some c => Ok c
  | None => Err ValueErr
  end.

(** ** Fusion *)

Inductive FusionStrategy := WeightedSum | RRFusion | CombSUM | CombMNZ.

Definition key_set {V} (d : dict string V) : gset string := list_to_set (dict_keys d).

(** [set(a) | set(b)] *)
Definition all_ids {V W} `{SetOrder} (a : dict string V) (b : dict string W) : list string :=
  iter_set (key_set a ∪ key_set b).

Definition score_of (d : dict string float) (doc_id : string) : float := default fzero (dict_get doc_id d).

(** [sorted(fused.items(), key=..., reverse=True)] of the dict built by the loop *)
Definition sort_fused (ids : list string) (f : string → float) : list (string * float) :=
  py_sorted by_score ((λ d, (d, f d)) <$> ids).

Definition weighted_value (semantic keyword : dict string float) (sw kw : float) (d : string) : float :=
  fadd (fmul (score_of semantic d) sw) (fmul (score_of keyword d) kw).

Definition combsum_value (semantic keyword : dict string float) (d : string) : float :=
  fadd (score_of semantic d) (score_of keyword d).

Definition combmnz_value (semantic keyword : dict string float) (d : string) : float :=
  let s := score_of semantic d in
  let k := score_of keyword d in
  let count := zlen (List.filter (λ sc, flt fzero sc) [s; k]) in
  if 0 <? count then fmul (fadd s k) (float_of_Z count) else fzero.

(** [_compute_ranks]: from one, best first. *)
Definition compute_ranks (scores : dict string float) : dict string Z :=
  (λ p, (p.2, p.1 + 1)) <$> enumerate (py_sorted by_score scores).*1.

Definition rrf_value (semantic keyword : dict string float) (sw kw : float) (d : string) : float :=
  let sr := default (zlen semantic + 1) (dict_get d (compute_ranks semantic)) in
  let kr := default (zlen keyword + 1) (dict_get d (compute_ranks keyword)) in
  let k := float_of_Z 60 in
  fadd (fmul (fdiv fone (fadd k (float_of_Z sr))) sw) (fmul (fdiv fone (fadd k (float_of_Z kr))) kw).

Definition fuse `{SetOrder} (strategy : FusionStrategy) (semantic keyword : dict string float) (sw kw : float)
    : list (string * float) :=
  let value :=
    match strategy with
    | WeightedSum => weighted_value semantic keyword sw kw
    | RRFusion => rrf_value semantic keyword sw kw
    | CombSUM => combsum_value semantic keyword
    | CombMNZ => combmnz_value semantic keyword
    end in
  sort_fused
    (match strategy with
     | RRFusion => all_ids (compute_ranks semantic) (compute_ranks keyword)
     | _ => all_ids semantic keyword
     end) value.

Definition create_fusion_strategy (name : string) : result PyErr FusionStrategy :=
  match dict_get name [("weighted_sum", WeightedSum); ("rrf", RRFusion); ("combsum", CombSUM); ("combmnz", CombMNZ)] with
  | Some c => Ok c
  | None => Err ValueErr
  end.

#[export] Instance sorted_order : SetOrder := λ X, py_sorted str_lt (elements X).
#[export] Instance sorted_order_laws : SetOrderLaws (H := sorted_order).
Proof. split. intros X. apply py_sorted_perm. Qed.

Example fuse_example :
  fuse CombSUM [("a", fone); ("b", fhalf)] [("b", fone)] fhalf fhalf
  = [("b", flit 3 2); ("a", fone)].
Proof. vm_compute. reflexivity. Qed.

Example rank_based_example :
  rank_based_normalize [fone; flit 3 1; fone] = [fhalf; fone; fzero].
Proof. vm_compute. reflexivity. Qed.

(** * Normalisation and fusion are correct

    Normalisation never divides by zero; fusion returns every document of either
    side once, best first, and its outcome does not depend on the iteration order
    of sets; ranks are positions, so that rank fusion and rank normalisation see
    only the order of the scores. *)

Open Scope string_scope.
Open Scope Z_scope.

Module FusionSpec.

(** ** Normalisation is total *)

Lemma map_result_ok {E A B} (f : A → result E B) (g : A → B) l :
  (∀ x, x ∈ l → f x = Ok (g x)) → map_result f l = Ok (g <$> l).
Proof.
  induction l as [|x l IH]; intros H; csimpl; [done|].
  rewrite H by left. rewrite IH; [done|]. intros. apply H. by right.
Qed.

Lemma py_max_elem x l : py_max x l ∈ x :: l.
Proof.
  unfold py_max. revert x. induction l as [|z l IH]; intros x; simpl; [left|].
  specialize (IH (fmax x z)). unfold fmax in *.
  destruct (flt x z); apply elem_of_cons in IH as [->|IH]; auto using list_elem_of_here, list_elem_of_further.
Qed.

Lemma fdivide_ok x y : is_fzero y = false → fdivide x y = Ok (fdiv x y).
Proof. unfold fdivide, float_truediv. by intros ->. Qed.

Definition machine_number (f : float) : Prop := fvalid f = true ∧ is_nan f = false.

(** Min-max normalisation of numbers never raises: when the extremes differ
    their difference is not zero.  Every score becomes its distance to the
    minimum over the spread, and one score alone, or equal ones, become 1. *)
Theorem min_max_total (scores : list float) :
  Forall machine_number scores →
  min_max_normalize scores = Ok
    match scores with
    | [] => []
    | x :: rest =>
        let mn := py_min x rest in let mx := py_max x rest in
        if feq mx mn then replicate (length scores) fone
        else (λ s, fdiv (fsub s mn) (fsub mx mn)) <$> scores
    end.
Proof.
  intros Hs. unfold min_max_normalize. destruct scores as [|x rest]; [done|]. cbv zeta.
  destruct (feq (py_max x rest) (py_min x rest)) eqn:E; [done|].
  rewrite Forall_forall in Hs.
  destruct (Hs _ (py_min_elem x rest)) as [V1 N1]. destruct (Hs _ (py_max_elem x rest)) as [V2 N2].
  apply map_result_ok. intros s _. apply fdivide_ok. by apply fsub_nonzero.
Qed.

Lemma min_max_total_witness :
  min_max_normalize [fone; flit 3 1; float_of_Z 2] = Ok [fzero; fone; fhalf].
Proof.
  rewrite (min_max_total [fone; flit 3 1; float_of_Z 2]); [vm_compute; reflexivity|].
  repeat constructor.
Defined.

(** ** Fusion *)

Lemma dict_mem_keys {V} k (d : dict string V) : dict_mem k d = true ↔ k ∈ dict_keys d.
Proof.
  unfold dict_mem, dict_keys. pose proof (dict_get_None k d) as H.
  destruct (dict_get k d) as [v|] eqn:E.
  - split; [|done]. intros _. apply dict_get_elem_of in E. apply list_elem_of_fmap. by exists (k, v).
  - split; [done|]. intros Hk. by apply H in Hk.
Qed.

Section Fuse.
Context `{SetLaws : !SetOrder} `{!SetOrderLaws}.

Definition fused_ids {V W} (a : dict string V) (b : dict string W) : list string :=
  elements (key_set a ∪ key_set b).

Definition fusion_value (st : FusionStrategy) (a b : dict string float) (sw kw : float) : string → float :=
  match st with
  | WeightedSum => weighted_value a b sw kw
  | RRFusion => rrf_value a b sw kw
  | CombSUM => combsum_value a b
  | CombMNZ => combmnz_value a b
  end.

Lemma ranks_keys scores : dict_keys (compute_ranks scores) ≡ₚ dict_keys scores.
Proof.
  unfold compute_ranks, dict_keys. rewrite <- list_fmap_compose.
  change (fst ∘ _) with (λ p : Z * string, p.2). unfold enumerate. rewrite enumerate_from_snd.
  by rewrite py_sorted_perm.
Qed.

Lemma key_set_ranks scores : key_set (compute_ranks scores) = key_set scores.
Proof. unfold key_set. apply leibniz_equiv. by rewrite ranks_keys. Qed.

Lemma fuse_eq st a b sw kw : fuse st a b sw kw = sort_fused (all_ids a b) (fusion_value st a b sw kw).
Proof.
  unfold fuse, fusion_value. destruct st; try done.
  unfold all_ids. by rewrite !key_set_ranks.
Qed.

Lemma fuse_complete_aux st (a b : dict string float) sw kw :
  fuse st a b sw kw ≡ₚ (λ d, (d, fusion_value st a b sw kw d)) <$> fused_ids a b ∧
  (fuse st a b sw kw).*1 ≡ₚ fused_ids a b ∧
  ((∀ d, d ∈ (fuse st a b sw kw).*1 → is_nan (fusion_value st a b sw kw d) = false) →
    ranked (fuse st a b sw kw)).
Proof.
  rewrite fuse_eq. set (f := fusion_value st a b sw kw). unfold sort_fused.
  assert ((λ d, (d, f d)) <$> all_ids a b ≡ₚ (λ d, (d, f d)) <$> fused_ids a b) as Hp
    by (unfold all_ids, fused_ids; by rewrite iter_set_perm).
  assert (∀ l : list string, ((λ d, (d, f d)) <$> l).*1 = l) as Hfst.
  { induction l as [|d l IH]; csimpl; [done|]. by rewrite IH. }
  assert ((py_sorted by_score ((λ d, (d, f d)) <$> all_ids a b)).*1 ≡ₚ fused_ids a b) as Hk.
  { rewrite py_sorted_perm, Hp. by rewrite Hfst. }
  split; [by rewrite py_sorted_perm|]. split; [done|].
  intros Hn. apply sorted_ranked. apply Forall_forall. intros x Hx.
  apply list_elem_of_fmap in Hx as (d & -> & Hd). apply Hn. rewrite Hk.
  unfold all_ids in Hd. by rewrite iter_set_perm in Hd.
Qed.

(** Every strategy returns each document that either side scored, once, with
    the value of the strategy, and in descending order when the values are
    numbers; a document is never lost by fusion. *)
Theorem fuse_complete st (a b : dict string float) sw kw :
  let out := fuse st a b sw kw in
  out ≡ₚ (λ d, (d, fusion_value st a b sw kw d)) <$> fused_ids a b ∧
  NoDup out.*1 ∧
  (∀ d, d ∈ out.*1 ↔ dict_mem d a = true ∨ dict_mem d b = true) ∧
  ((∀ d, d ∈ out.*1 → is_nan (fusion_value st a b sw kw d) = false) → ranked out).
Proof.
  cbv zeta. destruct (fuse_complete_aux st a b sw kw) as (Hp & Hk & Hr).
  split; [done|]. split; [rewrite Hk; apply NoDup_elements|]. split; [|done].
  intros d. rewrite Hk. unfold fused_ids. rewrite elem_of_elements, elem_of_union.
  unfold key_set. by rewrite !elem_of_list_to_set, !dict_mem_keys.
Qed.
End Fuse.

Lemma fuse_complete_witness :
  ranked (fuse WeightedSum [("a", fone)] [("b", fone)] fhalf fhalf).
Proof.
  apply (fuse_complete WeightedSum [("a", fone)] [("b", fone)] fhalf fhalf).
  apply Forall_forall. repeat constructor.
Defined.

(** Two orderings of the same ranked documents with distinct scores agree. *)
Lemma ranked_unique {A} `{EqDecision A} (l k : list (A * float)) :
  (∀ x y, x ∈ l → y ∈ l → x ≠ y → flt x.2 y.2 = true ∨ flt y.2 x.2 = true) →
  l ≡ₚ k → ranked l → ranked k → l = k.
Proof.
  unfold ranked. intros Ht Hp Hl. revert k Ht Hp. induction Hl as [|x l Hl IH Hx]; intros k Ht Hp Hk.
  { by apply Permutation_nil in Hp. }
  destruct Hk as [|y k Hk Hy]; [by apply Permutation_sym, Permutation_nil in Hp|].
  assert (x = y) as <-.
  { assert (y ∈ x :: l) as Hyl by (rewrite Hp; left). assert (x ∈ y :: k) as Hxk by (rewrite <- Hp; left).
    apply elem_of_cons in Hyl as [->|Hyl]; [done|]. apply elem_of_cons in Hxk as [->|Hxk]; [done|].
    rewrite Forall_forall in Hx, Hy. pose proof (Hx _ Hyl). pose proof (Hy _ Hxk).
    apply dec_stable. intros Hne.
    destruct (Ht x y) as [?|?]; [left|by right|done|congruence|congruence]. }
  f_equal. apply Permutation_cons_inv in Hp. apply IH; [|done|done].
  intros u v Hu Hv. apply Ht; by right.
Qed.

Lemma feq_false_lt x y :
  is_nan x = false → is_nan y = false → feq x y = false → flt x y = true ∨ flt y x = true.
Proof.
  intros Hx Hy. unfold feq, flt, SFeqb, SFltb. pose proof (fcompare_key x y Hx Hy) as H1.
  pose proof (fcompare_key y x Hy Hx) as H2. unfold key_lt in *.
  destruct (SFcompare x y) as [[]|], (SFcompare y x) as [[]|]; try done; auto; intros _; exfalso;
    try lia; rewrite H2 in H1; lia.
Qed.

(** When the values of the documents are numbers that differ, fusion does not
    depend on the order in which the set of ids happens to be iterated. *)
Theorem fusion_order_irrelevant (o1 o2 : SetOrder) st (a b : dict string float) sw kw :
  SetOrderLaws (H := o1) → SetOrderLaws (H := o2) →
  (∀ d, d ∈ fused_ids a b → is_nan (fusion_value st a b sw kw d) = false) →
  (∀ d d', d ∈ fused_ids a b → d' ∈ fused_ids a b → d ≠ d' →
    feq (fusion_value st a b sw kw d) (fusion_value st a b sw kw d') = false) →
  fuse (H := o1) st a b sw kw = fuse (H := o2) st a b sw kw.
Proof.
  intros L1 L2 Hn Hd.
  destruct (@fuse_complete_aux o1 L1 st a b sw kw) as (P1 & K1 & R1).
  destruct (@fuse_complete_aux o2 L2 st a b sw kw) as (P2 & K2 & R2).
  apply ranked_unique; [|by rewrite P1, P2|apply R1|apply R2]; try (intros d; rewrite ?K1, ?K2; by apply Hn).
  intros x y. rewrite !P1. intros (d & -> & Hdin)%list_elem_of_fmap (d' & -> & Hd')%list_elem_of_fmap Hne. simpl.
  apply feq_false_lt; [by apply Hn..|]. apply Hd; [done..|]. by intros ->.
Qed.

Definition demo_sem : dict string float := [("a", fone); ("b", fhalf)].
Definition demo_kw : dict string float := [("c", fone)].

Lemma demo_ids d : d ∈ fused_ids demo_sem demo_kw → d ∈ ["a"; "b"; "c"].
Proof.
  unfold fused_ids. rewrite elem_of_elements, elem_of_union. unfold key_set.
  rewrite !elem_of_list_to_set. simpl. rewrite !elem_of_cons. tauto.
Qed.

Lemma fusion_order_irrelevant_witness :
  fuse (H := sorted_order) RRFusion demo_sem demo_kw fone fhalf
  = fuse (H := λ X, reverse (sorted_order X)) RRFusion demo_sem demo_kw fone fhalf.
Proof.
  apply (fusion_order_irrelevant sorted_order (λ X, reverse (sorted_order X))).
  - apply sorted_order_laws.
  - split. intros X. unfold iter_set. rewrite reverse_Permutation. apply py_sorted_perm.
  - intros d Hd%demo_ids. rewrite !elem_of_cons, elem_of_nil in Hd.
    destruct Hd as [->|[->|[->|[]]]]; vm_compute; reflexivity.
  - intros d d' Hd%demo_ids Hd'%demo_ids. rewrite !elem_of_cons, elem_of_nil in Hd, Hd'.
    destruct Hd as [->|[->|[->|[]]]], Hd' as [->|[->|[->|[]]]]; intros Hne; try done; vm_compute; reflexivity.
Defined.

(** ** Ranks are positions *)

(** The place of the [i]-th score: the number of scores that are better, or
    equal and earlier. *)
Definition place (scores : list float) (i : Z) : Z :=
  match scores !! Z.to_nat i with
  | Some v => zlen (List.filter (λ y, before y (i, v)) (enumerate scores))
  | None => 0
  end.

Lemma enumerate_fmap {A B} (f : A → B) l : enumerate (f <$> l) = (λ p, (p.1, f p.2)) <$> enumerate l.
Proof. unfold enumerate. generalize 0 as i. induction l as [|x l IH]; intros i; csimpl; [done|]. by rewrite IH. Qed.

Lemma enumerate_from_length {A} k (l1 l2 : list A) x :
  (k + zlen l1, x) ∈ enumerate_from k (l1 ++ x :: l2).
Proof.
  unfold zlen. revert k. induction l1 as [|y l1 IH]; intros k; simpl; [rewrite Z.add_0_r; left|].
  right. replace (k + Z.of_nat (S (length l1))) with ((k + 1) + Z.of_nat (length l1)) by lia. apply IH.
Qed.

(** The position in the sorted list of the pair that was at index [i]. *)
Lemma sorted_position {A} (l : list (A * float)) i x :
  Forall is_number l → 0 <= i → l !! Z.to_nat i = Some x →
  ∃ l1 l2, py_sorted (λ p q : Z * (A * float), by_score p.2 q.2) (enumerate l) = (l1 ++ (i, x) :: l2)%list
    ∧ zlen l1 = place l.*2 i.
Proof.
  intros Hn Hi Hx. set (s := py_sorted _ (enumerate l)).
  assert ((i, x) ∈ s) as (l1 & l2 & Hs)%list_elem_of_split.
  { unfold s. rewrite elem_of_py_sorted. by apply enumerate_elem. }
  exists l1, l2. split; [done|]. unfold place. rewrite list_lookup_fmap, Hx. simpl.
  assert (py_sorted by_score (enumerate l.*2) = (λ p, (p.1, p.2.2)) <$> s) as He.
  { rewrite enumerate_fmap. unfold s. by apply py_sorted_fmap. }
  rewrite Hs, fmap_app in He. simpl in He.
  apply rank_by_counting in He; [|by apply Forall_fmap]. rewrite <- He. unfold zlen. by rewrite length_fmap.
Qed.

(** The rank that reciprocal rank fusion gives a document is its place, from
    one, among the scores of its side. *)
Theorem ranks_are_places (scores : dict string float) i d v :
  dict_wf scores → Forall is_number scores → 0 <= i → scores !! Z.to_nat i = Some (d, v) →
  dict_get d (compute_ranks scores) = Some (place scores.*2 i + 1).
Proof.
  intros Hw Hn Hi Hd. destruct (sorted_position scores i (d, v) Hn Hi Hd) as (l1 & l2 & Hs & Hp).
  apply dict_elem_of_get.
  { unfold dict_wf. fold (dict_keys (compute_ranks scores)). by rewrite ranks_keys. }
  unfold compute_ranks. apply list_elem_of_fmap. exists (place scores.*2 i, d). split; [done|].
  assert (py_sorted by_score scores = (l1.*2 ++ (d, v) :: l2.*2)%list) as ->.
  { rewrite <- (enumerate_snd scores) at 1.
    rewrite (py_sorted_fmap snd by_score (λ p q : Z * (string * float), by_score p.2 q.2)) by done.
    by rewrite Hs, fmap_app. }
  rewrite fmap_app. csimpl. rewrite <- Hp.
  assert (zlen l1 = 0 + zlen (l1.*2).*1) as -> by (unfold zlen; by rewrite !length_fmap).
  apply enumerate_from_length.
Qed.

Lemma ranks_are_places_witness :
  dict_get "b" (compute_ranks [("a", fone); ("b", flit 3 1); ("c", fone)]) = Some (0 + 1).
Proof.
  apply (ranks_are_places [("a", fone); ("b", flit 3 1); ("c", fone)] 1 "b" (flit 3 1));
    [unfold dict_wf; apply (bool_decide_unpack _); vm_compute; done|repeat constructor|lia|done].
Defined.

(** Rank fusion sees the two sides only through the order of their scores: any
    rescaling that keeps the order, such as a normalisation, leaves it as it is. *)
Theorem rrf_order_only `{SetOrder} (a b : dict string float) (g h : float → float) sw kw :
  (∀ x y, x ∈ a.*2 → y ∈ a.*2 → flt (g x) (g y) = flt x y) →
  (∀ x y, x ∈ b.*2 → y ∈ b.*2 → flt (h x) (h y) = flt x y) →
  fuse RRFusion ((λ p, (p.1, g p.2)) <$> a) ((λ p, (p.1, h p.2)) <$> b) sw kw = fuse RRFusion a b sw kw.
Proof.
  assert (∀ (c : dict string float) (f : float → float), (∀ x y, x ∈ c.*2 → y ∈ c.*2 → flt (f x) (f y) = flt x y) →
    compute_ranks ((λ p, (p.1, f p.2)) <$> c) = compute_ranks c) as Hc.
  { intros c f Hf. unfold compute_ranks. f_equal. f_equal.
    rewrite (py_sorted_fmap _ by_score by_score).
    - rewrite <- list_fmap_compose. by apply list_fmap_ext.
    - intros x y Hx Hy. unfold by_score; simpl. apply Hf; apply list_elem_of_fmap; eauto. }
  intros Hg Hh. unfold fuse. rewrite (Hc a g Hg), (Hc b h Hh). unfold sort_fused.
  f_equal. apply list_fmap_ext. intros _ d _. f_equal. unfold rrf_value.
  rewrite (Hc a g Hg), (Hc b h Hh). unfold zlen. by rewrite !length_fmap.
Qed.

(** ** Rank normalisation *)

Lemma foldl_update_lookup {A B} (f : A → nat) (g : A → B) l (r : list B) x :
  NoDup (f <$> l) → x ∈ l → (f x < length r)%nat →
  foldl (λ r p, <[f p := g p]> r) r l !! f x = Some (g x).
Proof.
  assert (∀ l (r : list B) n, n ∉ f <$> l → foldl (λ r p, <[f p := g p]> r) r l !! n = r !! n) as Hother.
  { clear. induction l as [|y l IH]; intros r n Hn; csimpl in *; [done|].
    apply not_elem_of_cons in Hn as [Hne Hn]. rewrite IH by done. by rewrite list_lookup_insert_ne. }
  revert r. induction l as [|y l IH]; intros r Hnd Hx Hlen; csimpl in *; [by apply elem_of_nil in Hx|].
  apply NoDup_cons in Hnd as [Hy Hnd]. apply elem_of_cons in Hx as [->|Hx].
  - rewrite Hother by done. by rewrite list_lookup_insert_eq.
  - apply IH; [done|done|]. by rewrite length_insert.
Qed.

(** Rank normalisation maps the best score to 1, the worst to 0, and every other
    one linearly by its place; equal scores are told apart by their order. *)
Theorem rank_based_by_place (scores : list float) i v :
  Forall (λ x, is_nan x = false) scores → 0 <= i → scores !! Z.to_nat i = Some v →
  rank_based_normalize scores !! Z.to_nat i = Some (rank_value (zlen scores) (place scores i)).
Proof.
  intros Hn Hi Hv. unfold rank_based_normalize.
  set (pairs := (λ x : float, (tt, x)) <$> scores).
  assert (py_sorted by_score (enumerate scores)
    = (λ p : Z * (unit * float), (p.1, p.2.2)) <$> py_sorted (λ p q : Z * (unit * float), by_score p.2 q.2) (enumerate pairs)) as Hs.
  { rewrite <- (py_sorted_fmap _ by_score) by done. f_equal. unfold pairs. rewrite enumerate_fmap, <- list_fmap_compose.
    symmetry. etrans; [|apply list_fmap_id]. apply list_fmap_ext. by intros _ [] _. }
  destruct (sorted_position pairs i (tt, v)) as (l1 & l2 & Hl & Hp);
    [unfold pairs; by apply Forall_fmap|done|unfold pairs; by rewrite list_lookup_fmap, Hv|].
  assert (pairs.*2 = scores) as Hsc.
  { unfold pairs. rewrite <- list_fmap_compose. apply list_fmap_id. }
  rewrite Hsc in Hp. rewrite Hl, fmap_app in Hs. csimpl in Hs.
  set (k := py_sorted by_score (enumerate scores)) in *.
  pose proof (enumerate_from_length 0 ((λ p : Z * (unit * float), (p.1, p.2.2)) <$> l1)
    ((λ p : Z * (unit * float), (p.1, p.2.2)) <$> l2) (i, v)) as He.
  rewrite <- Hs in He. unfold zlen in He at 1. rewrite length_fmap in He. fold (zlen l1) in He. rewrite Hp in He.
  refine (foldl_update_lookup (λ p : Z * (Z * float), Z.to_nat p.2.1) (λ p, rank_value (zlen scores) p.1)
    (enumerate k) (replicate (length scores) fzero) (place scores i, (i, v)) _ He _);
    [|simpl; rewrite length_replicate; by eapply lookup_lt_Some].
  assert ((λ p : Z * (Z * float), Z.to_nat p.2.1) <$> enumerate k = Z.to_nat <$> k.*1) as ->.
  { rewrite <- (enumerate_snd k) at 2. by rewrite <- !list_fmap_compose. }
  apply NoDup_fmap_2_strong.
  - intros x y Hx Hy. apply list_elem_of_fmap in Hx as ([? ?] & -> & Hx), Hy as ([? ?] & -> & Hy).
    unfold k in Hx, Hy. rewrite elem_of_py_sorted, enumerate_elem in Hx, Hy. simpl. lia.
  - unfold k. rewrite py_sorted_perm. pose proof (enumerate_sorted scores) as Hso.
    clear -Hso. induction Hso as [|x l _ IH Hx]; csimpl; [constructor|]. constructor; [|done].
    intros (y & Hy & Hin)%list_elem_of_fmap. rewrite Forall_forall in Hx. specialize (Hx _ Hin). lia.
Qed.

Lemma rank_based_by_place_witness :
  rank_based_normalize [fone; flit 3 1; fone] !! Z.to_nat 2 = Some (rank_value 3 2).
Proof.
  rewrite (rank_based_by_place [fone; flit 3 1; fone] 2 fone); [reflexivity|repeat constructor|lia|done].
Defined.

End FusionSpec.
