(* ===== verification/Search.v ===== *)
(** * The parts of retrieval

    [src/app/retrieval/]: queries and results ([models.py]), metadata filters
    ([filtering.py]), pagination ([pagination.py]), ranking ([ranking.py]),
    similarity ([similarity.py]), query expansion ([query_expansion.py]) and
    statistics ([statistics.py]).  The cursor text (base64 of a JSON object) and
    the regular-expression engine are interfaces. *)

From Stdlib Require Import ZArith Lia.
From stdpp Require Import base numbers strings gmap list.
From S2P Require Import Prelude PyFloat PyNum PyStr PyDict PyMath PyVal Bm25 Fusion.


Open Scope string_scope.
Open Scope Z_scope.

(** ** Exceptions ([exceptions.py]) *)

Inductive RetrievalExn :=
| EmptyQueryError
| InvalidQueryError (msg : string)
| PaginationError (msg : string)
| FilterError (msg : string)
| InvalidSimilarityMetricError (metric : string)
| WrappedPython (e : PyErr)
| WrappedExternal (msg : string).

(** What the code raises before [search] wraps it *)
Inductive SearchExn :=
| Retrieval (e : RetrievalExn)
| Python (e : PyErr)
| External (msg : string).

(** [except RetrievalError: raise / except Exception as e: raise RetrievalError(str(e))] *)
Definition wrap_error (e : SearchExn) : RetrievalExn :=
  match e with
  | Retrieval e => e
  | Python e => WrappedPython e
  | External m => WrappedExternal m
  end.

(** ** Data *)

Record MetadataFilter := mk_filter { mf_field : string; mf_value : pyval; mf_operator : string }.

Record SearchQuery := mk_query {
  q_text : string;
  q_vector : option (list float);
  q_top_k : Z;
  q_score_threshold : option float;
  q_max_distance : option float;
  q_collection : string;
  q_namespace : string;
  q_similarity : string;
  q_metadata_filters : list MetadataFilter;
  q_author : option string;
  q_tags : list string;
  q_language : option string;
  q_source : option string;
  q_tenant : option string;
  q_custom_filters : dict string pyval;
  q_offset : Z;
  q_limit : Z;
  q_cursor : option string;
  q_include_metadata : bool;
  q_include_vector : bool;
  q_recency_boost : bool;
  q_quality_boost : bool;
  q_metadata_boost : bool;
  q_manual_boost : bool;
  q_fusion_strategy : string;
  q_normalization_strategy : string;
  q_semantic_weight : float;
  q_keyword_weight : float
}.

Definition default_query (text : string) : SearchQuery :=
  mk_query text None 10 None None "" "default" "cosine" [] None [] None None None [] 0 10 None
    true false true true true true "weighted_sum" "min_max" fhalf fhalf.

Record SearchResultItem := mk_item {
  i_id : string;
  i_score : float;
  i_rank : Z;
  i_vector : option (list float);
  i_metadata : metadata;
  i_namespace : string;
  i_collection : string;
  i_similarity_score : float;
  i_keyword_score : float;
  i_recency_score : float;
  i_quality_score : float;
  i_metadata_boost_score : float;
  i_manual_boost : float;
  i_final_score : float
}.

Record RetrievalConfig := mk_rconfig {
  rc_top_k_max : Z;
  rc_enable_recency_boost : bool;
  rc_enable_quality_boost : bool;
  rc_enable_metadata_boost : bool;
  rc_enable_manual_boost : bool;
  rc_recency_decay_hours : float;
  rc_quality_weight : float;
  rc_metadata_boost_weight : float;
  rc_manual_boost_weight : float;
  rc_track_statistics : bool
}.

Definition default_rconfig : RetrievalConfig :=
  mk_rconfig 100 true true true true (float_of_Z 24) (flit 3 10) (flit 2 10) (flit 4 10) true.

(** ** Filters *)

Definition meta_get (k : string) (m : metadata) : pyval := default PNone (dict_get k m).

(** [item_tags]: a string is a list of one. *)
Definition item_tags (m : metadata) : pyval :=
  match default (PList []) (dict_get "tags" m) with
  | PScalar (SStr s) => PList [SStr s]
  | v => v
  end.

Fixpoint any_in (tags : list string) (v : pyval) : result PyErr bool :=
  match tags with
  | [] => Ok false
  | t :: rest =>
      match val_in (PStr t) v with
      | Err e => Err e
      | Ok true => Ok true
      | Ok false => any_in rest v
      end
  end.

(** [v or d] *)
Definition val_or (v d : pyval) : pyval := if val_truthy v then v else d.

Definition compare_with (test : pyval → result PyErr bool) (actual : pyval) : result SearchExn bool :=
  if is_none actual then Ok false
  else match test actual with Ok b => Ok b | Err e => Err (Python e) end.

Definition lift_py {A} (r : result PyErr A) : result SearchExn A :=
  match r with Ok a => Ok a | Err e => Err (Python e) end.

Definition filter_matches (mf : MetadataFilter) (m : metadata) : result SearchExn bool :=
  let actual := meta_get (mf_field mf) m in
  let op := mf_operator mf in
  let v := mf_value mf in
  if decide (op = "eq") then Ok (val_eq actual v)
  else if decide (op = "neq") then Ok (negb (val_eq actual v))
  else if decide (op = "gt") then compare_with (λ a, val_lt false v a) actual
  else if decide (op = "gte") then compare_with (λ a, val_lt true v a) actual
  else if decide (op = "lt") then compare_with (λ a, val_lt false a v) actual
  else if decide (op = "lte") then compare_with (λ a, val_lt true a v) actual
  else if decide (op = "in") then lift_py (val_in actual (val_or v (PList [])))
  else if decide (op = "contains") then lift_py (val_in v (val_or actual (PStr "")))
  else Err (Retrieval (FilterError ("Unknown operator: " ++ op))).

(** [if want is not None: if metadata.get(k) != want: return False] *)
Definition field_is (k : string) (want : option string) (m : metadata) : bool :=
  match want with Some w => val_eq (meta_get k m) (PStr w) | None => true end.

Fixpoint all_filters (mfs : list MetadataFilter) (m : metadata) : result SearchExn bool :=
  match mfs with
  | [] => Ok true
  | mf :: rest =>
      match filter_matches mf m with
      | Err e => Err e
      | Ok false => Ok false
      | Ok true => all_filters rest m
      end
  end.

Definition matches_all (q : SearchQuery) (m : metadata) : result SearchExn bool :=
  match all_filters (q_metadata_filters q) m with
  | Err e => Err e
  | Ok false => Ok false
  | Ok true =>
      if negb (field_is "author" (q_author q) m) then Ok false
      else
        match (match q_tags q with [] => Ok true | tags => lift_py (any_in tags (item_tags m)) end) with
        | Err e => Err e
        | Ok false => Ok false
        | Ok true =>
            Ok (field_is "language" (q_language q) m
                && field_is "source" (q_source q) m
                && field_is "tenant" (q_tenant q) m
                && forallb (λ kv, val_eq (meta_get kv.1 m) kv.2) (q_custom_filters q))
        end
  end.

Fixpoint apply_filters (q : SearchQuery) (results : list (string * metadata)) : result SearchExn (list (string * metadata)) :=
  match results with
  | [] => Ok []
  | item :: rest =>
      match matches_all q item.2 with
      | Err e => Err e
      | Ok b =>
          match apply_filters q rest with
          | Err e => Err e
          | Ok kept => Ok (if b : bool then item :: kept else kept)
          end
      end
  end.

Definition set_opt (k : string) (v : option string) (d : dict string pyval) : dict string pyval :=
  match v with Some s => dict_set k (PStr s) d | None => d end.

Definition update_dict {V} (d d' : dict string V) : dict string V :=
  foldl (λ d p, dict_set p.1 p.2 d) d d'.

Definition eq_filters (q : SearchQuery) : list MetadataFilter :=
  List.filter (λ mf, bool_decide (mf_operator mf = "eq")) (q_metadata_filters q).

(** What the vector store is asked to filter by; [None] when nothing *)
Definition build_vector_store_filter (q : SearchQuery) : option (dict string pyval) :=
  let d := foldl (λ d mf, dict_set (mf_field mf) (mf_value mf) d) [] (eq_filters q) in
  let d := set_opt "author" (q_author q) d in
  let d := set_opt "language" (q_language q) d in
  let d := set_opt "source" (q_source q) d in
  let d := set_opt "tenant" (q_tenant q) d in
  let d := update_dict d (q_custom_filters q) in
  match d with [] => None | _ => Some d end.

(** ** Pagination *)

Class CursorCodec := {
  encode_cursor : Z → string;
  decode_cursor : string → option Z
}.

Class CursorLaws `{CursorCodec} := {
  decode_encode n : decode_cursor (encode_cursor n) = Some n;
  encode_truthy n : truthy (encode_cursor n) = true
}.

Section Pagination.
Context `{Codec : !CursorCodec}.

Definition page_limit (max_limit : Z) (q : SearchQuery) : Z :=
  Z.max (if q_limit q =? 0 then 10 else Z.min (q_limit q) max_limit) 1.

Definition page_offset (q : SearchQuery) : result RetrievalExn Z :=
  match q_cursor q with
  | Some c =>
      if truthy c
      then match decode_cursor c with Some o => Ok o | None => Err (PaginationError "Invalid cursor") end
      else Ok (q_offset q)
  | None => Ok (q_offset q)
  end.

Definition paginate {A} (max_limit : Z) (q : SearchQuery) (all_results : list A) : result RetrievalExn (list A) :=
  match page_offset q with
  | Err e => Err e
  | Ok offset =>
      if zlen all_results <=? offset then Ok []
      else Ok (py_slice offset (offset + page_limit max_limit q) all_results)
  end.

Definition compute_next_cursor {A} (q : SearchQuery) (results : list A) (total : Z) : option string :=
  let new_offset := q_offset q + zlen results in
  if total <=? new_offset then None else Some (encode_cursor new_offset).
End Pagination.

(** ** Ranking *)

Section Ranking.
Context `{Math : !MathLib}.

(** [created_at]: the first truthy of two fields, else the second *)
Definition created_at (m : metadata) : pyval := val_or (meta_get "created_at" m) (meta_get "timestamp" m).

(** [except (ValueError, TypeError): return default] *)
Definition rescue (d : float) (r : result PyErr float) : result PyErr float :=
  match r with
  | Err ValueErr | Err TypeErr => Ok d
  | r => r
  end.

Definition compute_recency (cfg : RetrievalConfig) (now : float) (m : metadata) : result PyErr float :=
  if is_none (created_at m) then Ok fzero
  else rescue fzero
    match val_float (created_at m) with
    | Err e => Err e
    | Ok t =>
        let age_hours := fdiv (fsub now t) (float_of_Z 3600) in
        let decay := rc_recency_decay_hours cfg in
        if fle decay fzero then Ok fone else math_exp (fdiv (fopp age_hours) decay)
    end.

Definition compute_quality (m : metadata) : result PyErr float :=
  rescue fhalf (val_float (default (PFloat fhalf) (dict_get "quality" m))).

Fixpoint count_in (tags : list string) (v : pyval) : result PyErr Z :=
  match tags with
  | [] => Ok 0
  | t :: rest =>
      match val_in (PStr t) v with
      | Err e => Err e
      | Ok b =>
          match count_in rest v with Err e => Err e | Ok n => Ok (if b : bool then n + 1 else n) end
      end
  end.

Definition boost_field (k : string) (want : option string) (by_ : float) (m : metadata) (acc : float * Z) : float * Z :=
  match want with
  | Some w => if val_eq (meta_get k m) (PStr w) then (fadd acc.1 by_, acc.2 + 1) else acc
  | None => acc
  end.

Definition compute_metadata_boost (q : SearchQuery) (m : metadata) : result PyErr float :=
  let acc := boost_field "author" (q_author q) (flit 1 10) m (fzero, 0) in
  let matched := match q_tags q with [] => Ok 0 | tags => count_in tags (item_tags m) end in
  match matched with
  | Err e => Err e
  | Ok n =>
      let acc := if n =? 0 then acc else (fadd acc.1 (fmul (flit 1 10) (float_of_Z n)), acc.2 + 1) in
      let acc := boost_field "language" (q_language q) (flit 1 20) m acc in
      let acc := boost_field "source" (q_source q) (flit 1 20) m acc in
      let acc := boost_field "tenant" (q_tenant q) (flit 1 20) m acc in
      Ok (fdiv acc.1 (float_of_Z (Z.max acc.2 1)))
  end.

Definition get_manual_boost (m : metadata) : result PyErr float :=
  rescue fzero (val_float (default (PFloat fzero) (dict_get "boost" m))).

(** An addend that is switched off is the [int] 0. *)
Definition aggregate_score (cfg : RetrievalConfig) (i : SearchResultItem) : float :=
  let rec := if rc_enable_recency_boost cfg then fmul (i_recency_score i) (flit 1 10) else fzero in
  let qual := if rc_enable_quality_boost cfg then fmul (i_quality_score i) (rc_quality_weight cfg) else fzero in
  let meta := if rc_enable_metadata_boost cfg
    then fmul (i_metadata_boost_score i) (rc_metadata_boost_weight cfg) else fzero in
  let manual := if rc_enable_manual_boost cfg then fmul (i_manual_boost i) (rc_manual_boost_weight cfg) else fzero in
  fadd (fadd (fadd (fadd (i_similarity_score i) rec) qual) meta) manual.

Definition when (b : bool) (r : result PyErr float) : result PyErr float := if b then r else Ok fzero.

(** The body of the loop: the scores of one item. *)
Definition score_item (cfg : RetrievalConfig) (q : SearchQuery) (now : float) (i : SearchResultItem)
    : result PyErr SearchResultItem :=
  (try r <- when (q_recency_boost q) (compute_recency cfg now (i_metadata i)) in
   try ql <- when (q_quality_boost q) (compute_quality (i_metadata i)) in
   try mb <- when (q_metadata_boost q) (compute_metadata_boost q (i_metadata i)) in
   try mn <- when (q_manual_boost q) (get_manual_boost (i_metadata i)) in
   let i' := mk_item (i_id i) (i_score i) (i_rank i) (i_vector i) (i_metadata i) (i_namespace i) (i_collection i)
     (i_score i) (i_keyword_score i) r ql mb mn (i_final_score i) in
   Ok (mk_item (i_id i) (i_score i) (i_rank i) (i_vector i) (i_metadata i) (i_namespace i) (i_collection i)
     (i_score i) (i_keyword_score i) r ql mb mn (aggregate_score cfg i')))%py.

Definition set_rank (n : Z) (i : SearchResultItem) : SearchResultItem :=
  mk_item (i_id i) (i_score i) n (i_vector i) (i_metadata i) (i_namespace i) (i_collection i)
    (i_similarity_score i) (i_keyword_score i) (i_recency_score i) (i_quality_score i)
    (i_metadata_boost_score i) (i_manual_boost i) (i_final_score i).

Definition by_final (x y : SearchResultItem) : bool := flt (i_final_score y) (i_final_score x).

(** [clock n] is the reading of the clock for the [n]-th candidate. *)
Definition rank (cfg : RetrievalConfig) (clock : Z → float) (candidates : list SearchResultItem) (q : SearchQuery)
    : result PyErr (list SearchResultItem) :=
  match map_result (λ p, score_item cfg q (clock p.1) p.2) (enumerate candidates) with
  | Err e => Err e
  | Ok scored => Ok ((λ p, set_rank (p.1 + 1) p.2) <$> enumerate (py_sorted by_final scored))
  end.

(** ** Similarity *)

Inductive SimilarityStrategy := CosineSimilarity | DotProductSimilarity | EuclideanSimilarity.

Definition dot_product (a b : list float) : float := py_sum (zip_with fmul a b).

Definition similarity_compute (st : SimilarityStrategy) (query candidate : list float) : result PyErr float :=
  match st with
  | CosineSimilarity =>
      let nq := fsqrt (dot_product query query) in
      let nc := fsqrt (dot_product candidate candidate) in
      if is_fzero nq || is_fzero nc then Ok fzero
      else fdivide (dot_product query candidate) (fmul nq nc)
  | DotProductSimilarity => Ok (dot_product query candidate)
  | EuclideanSimilarity =>
      match map_result (λ d, float_pow d (float_of_Z 2)) (zip_with fsub query candidate) with
      | Err e => Err e
      | Ok squares => fdivide fone (fadd fone (fsqrt (py_sum squares)))
      end
  end.
End Ranking.

Definition create_similarity_strategy (key : string) : result RetrievalExn SimilarityStrategy :=
  match dict_get key [("cosine", CosineSimilarity); ("dot_product", DotProductSimilarity);
                      ("euclidean", EuclideanSimilarity)] with
  | Some c => Ok c
  | None => Err (InvalidSimilarityMetricError key)
  end.

(** ** Query expansion *)

Class RegexEnv := {
  re_has_word : string → string → bool;
  re_sub_word : string → string → string → string
}.

Record QueryExpander := mk_expander {
  x_synonyms : dict string (list string);
  x_abbreviations : dict string string;
  x_typo_corrections : dict string string
}.

Section Expansion.
Context `{!RegexEnv}.

Definition expand_synonyms (x : QueryExpander) (query : string) : string :=
  foldl (λ result p, if re_has_word p.1 result then result ++ " " ++ join " " p.2 else result)
    query (x_synonyms x).

Definition substitute_all (d : dict string string) (query : string) : string :=
  foldl (λ result p, re_sub_word p.1 p.2 result) query d.

(** [if expanded != query: queries.append(expanded)] *)
Definition append_new (query s : string) (queries : list string) : list string :=
  if decide (s = query) then queries else (queries ++ [s])%list.

(** [list(dict.fromkeys(l))] *)
Definition fromkeys (l : list string) : list string :=
  dict_keys (foldl (λ d k, dict_set k tt d) [] l).

Definition expand (x : QueryExpander) (query : string) : list string :=
  fromkeys
    (append_new query (substitute_all (x_typo_corrections x) query)
      (append_new query (substitute_all (x_abbreviations x) query)
        (append_new query (expand_synonyms x query) [query]))).
End Expansion.

Definition add_synonyms (word : string) (synonyms : list string) (x : QueryExpander) : QueryExpander :=
  let old := default [] (dict_get word (x_synonyms x)) in
  let new := foldl (λ l s, if decide (s ∈ l) then l else (l ++ [s])%list) old synonyms in
  mk_expander (dict_set word new (x_synonyms x)) (x_abbreviations x) (x_typo_corrections x).

Definition add_abbreviation (abbr full : string) (x : QueryExpander) : QueryExpander :=
  mk_expander (x_synonyms x) (dict_set abbr full (x_abbreviations x)) (x_typo_corrections x).

Definition add_typo_correction (typo correction : string) (x : QueryExpander) : QueryExpander :=
  mk_expander (x_synonyms x) (x_abbreviations x) (dict_set typo correction (x_typo_corrections x)).

(** ** Statistics *)

Record RetrievalStats := mk_rstats {
  rs_query_count : Z;
  rs_total_latency_ms : float;
  rs_total_scanned : Z;
  rs_cache_hits : Z;
  rs_cache_misses : Z;
  rs_total_comparisons : Z
}.

Definition empty_rstats : RetrievalStats := mk_rstats 0 fzero 0 0 0 0.

Definition record_query (track : bool) (latency_ms : float) (scanned comparisons : Z) (s : RetrievalStats) : RetrievalStats :=
  if track then mk_rstats (rs_query_count s + 1) (fadd (rs_total_latency_ms s) latency_ms)
    (rs_total_scanned s + scanned) (rs_cache_hits s) (rs_cache_misses s) (rs_total_comparisons s + comparisons)
  else s.

Definition record_cache_hit (track : bool) (s : RetrievalStats) : RetrievalStats :=
  if track then mk_rstats (rs_query_count s) (rs_total_latency_ms s) (rs_total_scanned s) (rs_cache_hits s + 1)
    (rs_cache_misses s) (rs_total_comparisons s) else s.

Definition record_cache_miss (track : bool) (s : RetrievalStats) : RetrievalStats :=
  if track then mk_rstats (rs_query_count s) (rs_total_latency_ms s) (rs_total_scanned s) (rs_cache_hits s)
    (rs_cache_misses s + 1) (rs_total_comparisons s) else s.

Record RetrievalSnapshot := mk_rsnapshot { rsn_stats : RetrievalStats; rsn_average_latency_ms : float }.

Definition stats_snapshot (s : RetrievalStats) : RetrievalSnapshot :=
  let avg := if 0 <? rs_query_count s then fdiv (rs_total_latency_ms s) (float_of_Z (rs_query_count s)) else fzero in
  mk_rsnapshot s (py_round avg 4).

Definition stats_reset (s : RetrievalStats) : RetrievalStats := empty_rstats.

(** * Semantic and hybrid search

    [src/app/retrieval/service.py] and [src/app/retrieval/hybrid.py].  The vector
    store and the embedding service are interfaces that may raise.  A search
    object keeps its statistics; the hybrid one also owns the keyword index.
    [SemanticSearch.search] writes the embedding into the query object it was
    given, so the query is part of its state. *)

Open Scope string_scope.
Open Scope Z_scope.

(** A result of the vector store; an attribute may be missing, and metadata that
    is no [dict] counts as missing. *)
Record VsResult := mk_vs {
  v_id : option string;
  v_score : option float;
  v_vector : option (list float);
  v_metadata : option metadata;
  v_namespace : option string
}.

Record VsRequest := mk_vreq {
  vr_vector : list float;
  vr_top_k : Z;
  vr_score_threshold : option float;
  vr_collection : string;
  vr_namespace : string;
  vr_filter : option (dict string pyval);
  vr_include_metadata : bool;
  vr_include_vector : bool
}.

Class VectorStore := vs_search : VsRequest → result string (list VsResult).

(** [None]: no embedding service was given *)
Class EmbeddingService := embed_text : option (string → result string (list float)).

Record SearchResponse := mk_sresponse {
  sr_results : list SearchResultItem;
  sr_total : Z;
  sr_offset : Z;
  sr_limit : Z;
  sr_next_cursor : option string;
  sr_query_time_ms : float;
  sr_statistics : RetrievalSnapshot
}.

Definition set_score (x : float) (i : SearchResultItem) : SearchResultItem :=
  mk_item (i_id i) x (i_rank i) (i_vector i) (i_metadata i) (i_namespace i) (i_collection i)
    (i_similarity_score i) (i_keyword_score i) (i_recency_score i) (i_quality_score i)
    (i_metadata_boost_score i) (i_manual_boost i) (i_final_score i).

Definition set_vector (v : option (list float)) (q : SearchQuery) : SearchQuery :=
  mk_query (q_text q) v (q_top_k q) (q_score_threshold q) (q_max_distance q) (q_collection q) (q_namespace q)
    (q_similarity q) (q_metadata_filters q) (q_author q) (q_tags q) (q_language q) (q_source q) (q_tenant q)
    (q_custom_filters q) (q_offset q) (q_limit q) (q_cursor q) (q_include_metadata q) (q_include_vector q)
    (q_recency_boost q) (q_quality_boost q) (q_metadata_boost q) (q_manual_boost q) (q_fusion_strategy q)
    (q_normalization_strategy q) (q_semantic_weight q) (q_keyword_weight q).

(** [SearchResultItem(id=..., score=..., ...)] *)
Definition new_item (id : string) (score final : float) (vector : option (list float)) (m : metadata)
    (namespace collection : string) : SearchResultItem :=
  mk_item id score 0 vector m namespace collection fzero fzero fzero fzero fzero fzero final.

Section Search.
Context `{Math : !MathLib} `{Codec : !CursorCodec} `{Store : !VectorStore} `{Embed : !EmbeddingService}.
Context (cfg : RetrievalConfig).

Definition bounds_check (q : SearchQuery) : result RetrievalExn unit :=
  if q_top_k q <? 1 then Err (InvalidQueryError "top_k must be >= 1")
  else if rc_top_k_max cfg <? q_top_k q
  then Err (InvalidQueryError ("top_k cannot exceed " ++ str_of_Z (rc_top_k_max cfg)))
  else if q_offset q <? 0 then Err (InvalidQueryError "offset must be >= 0")
  else Ok tt.

Definition build_response (q : SearchQuery) (results : list SearchResultItem) (stats : RetrievalStats)
    (start finish : float) : SearchResponse :=
  let total := zlen results in
  mk_sresponse results total (q_offset q) (q_limit q) (compute_next_cursor q results total)
    (py_round (fmul (fsub finish start) (float_of_Z 1000)) 4) (stats_snapshot stats).

(** ** Semantic search *)

Record SemState := mk_sem { sem_query : SearchQuery; sem_stats : RetrievalStats }.

Definition sem_validate (q : SearchQuery) : result RetrievalExn unit :=
  if negb (truthy (q_text q)) && match q_vector q with None => true | _ => false end
  then Err EmptyQueryError
  else if match q_vector q with Some [] => true | _ => false end
  then Err (InvalidQueryError "Vector must not be empty")
  else bounds_check q.

(** The vector of the query, embedding its text when it has none *)
Definition query_vector (q : SearchQuery) : result SearchExn (list float) :=
  match q_vector q with
  | Some v => Ok v
  | None =>
      match embed_text with
      | Some embed =>
          if truthy (q_text q)
          then match embed (q_text q) with Ok v => Ok v | Err m => Err (External m) end
          else Err (Retrieval (InvalidQueryError "No vector or embedding service available"))
      | None => Err (Retrieval (InvalidQueryError "No vector or embedding service available"))
      end
  end.

(** [fresh n]: the id generated for the [n]-th result that has none *)
Definition to_item (q : SearchQuery) (fresh : Z → string) (p : Z * VsResult) : SearchResultItem :=
  new_item (default (fresh p.1) (v_id p.2)) (default fzero (v_score p.2)) fzero (v_vector p.2)
    (default [] (v_metadata p.2)) (default (q_namespace q) (v_namespace p.2)) (q_collection q).

(** [if item.vector: item.score = similarity.compute(query.vector, item.vector)] *)
Definition rescore (st : SimilarityStrategy) (vector : list float) (i : SearchResultItem)
    : result PyErr SearchResultItem :=
  match i_vector i with
  | None | Some [] => Ok i
  | Some v => match similarity_compute st vector v with Ok x => Ok (set_score x i) | Err e => Err e end
  end.

Definition within_distance (q : SearchQuery) (i : SearchResultItem) : bool :=
  match q_max_distance q with
  | Some d => fle (fsub fone (i_score i)) d
  | None => true
  end.

Definition sem_request (q : SearchQuery) (vector : list float) : VsRequest :=
  mk_vreq vector (q_top_k q * 2) (q_score_threshold q) (q_collection q) (q_namespace q)
    (build_vector_store_filter q) (q_include_metadata q) (q_include_vector q).

Definition se_retrieval {S A} (r : result RetrievalExn A) : SE SearchExn S A :=
  se_lift (match r with Ok a => Ok a | Err e => Err (Retrieval e) end).

Definition sem_on_stats (f : RetrievalStats → RetrievalStats) : SE SearchExn SemState unit :=
  se_modify (λ s, mk_sem (sem_query s) (f (sem_stats s))).

Definition execute_search (fresh : Z → string) (clock : Z → float)
    : SE SearchExn SemState (list SearchResultItem) :=
  st ← se_get;
  vector ← se_lift (query_vector (sem_query st));
  _ ← se_modify (λ s, mk_sem (set_vector (Some vector) (sem_query s)) (sem_stats s));
  st ← se_get;
  let q := sem_query st in
  vs_results ← se_lift (match vs_search (sem_request q vector) with Ok l => Ok l | Err m => Err (External m) end);
  _ ← sem_on_stats (record_cache_miss (rc_track_statistics cfg));
  let items := to_item q fresh <$> enumerate vs_results in
  similarity ← se_retrieval (create_similarity_strategy (q_similarity q));
  items ← se_lift (lift_py (map_result (rescore similarity vector) items));
  let items := List.filter (within_distance q) items in
  ranked ← se_lift (lift_py (rank cfg clock items q));
  paginated ← se_retrieval (paginate (rc_top_k_max cfg) q ranked);
  _ ← sem_on_stats (record_query (rc_track_statistics cfg) fzero (zlen vs_results) (zlen items * zlen items));
  mret paginated.

(** [search]: every exception leaves as a [RetrievalError]. *)
Definition wrapping {S A} (m : SE SearchExn S A) : SE RetrievalExn S A :=
  λ s, match m s with (Ok a, s') => (Ok a, s') | (Err e, s') => (Err (wrap_error e), s') end.

Definition semantic_search (fresh : Z → string) (clock : Z → float) (start finish : float)
    : SE RetrievalExn SemState SearchResponse :=
  wrapping
    (st ← se_get;
     _ ← se_retrieval (sem_validate (sem_query st));
     results ← execute_search fresh clock;
     st ← se_get;
     mret (build_response (sem_query st) results (sem_stats st) start finish)).

(** ** Hybrid search *)

Context `{Order : !SetOrder} `{Regex : !RegexEnv}.
Context (expander : QueryExpander).

Record HybState := mk_hyb { hyb_bm25 : BM25Index; hyb_stats : RetrievalStats }.

Definition hyb_index_document (doc_id text : string) (m : metadata) (s : HybState) : HybState :=
  mk_hyb (index_document doc_id text m (hyb_bm25 s)) (hyb_stats s).

Definition hyb_remove_document (doc_id : string) (s : HybState) : bool * HybState :=
  let '(b, ix) := remove_document doc_id (hyb_bm25 s) in (b, mk_hyb ix (hyb_stats s)).

Definition hyb_validate (q : SearchQuery) : result RetrievalExn unit :=
  if negb (truthy (q_text q)) then Err EmptyQueryError else bounds_check q.

Definition hyb_request (q : SearchQuery) (vector : list float) : VsRequest :=
  mk_vreq vector (q_top_k q) (q_score_threshold q) (q_collection q) (q_namespace q)
    (build_vector_store_filter q) true false.

Definition hyb_item (q : SearchQuery) (r : VsResult) : SearchResultItem :=
  new_item (default "" (v_id r)) (default fzero (v_score r)) fzero None (default [] (v_metadata r))
    (q_namespace q) (q_collection q).

(** [_semantic_search]: without a vector and an embedding service, and on any
    exception, there are no semantic results. *)
Definition hyb_semantic (q : SearchQuery) (text : string) : list SearchResultItem :=
  let vector :=
    match q_vector q with
    | Some v => Some v
    | None => match embed_text with
              | Some embed => match embed text with Ok v => Some v | Err _ => None end
              | None => None
              end
    end in
  match vector with
  | None => []
  | Some v => match vs_search (hyb_request q v) with Ok l => hyb_item q <$> l | Err _ => [] end
  end.

(** [_keyword_search] *)
Definition hyb_keyword (text : string) (q : SearchQuery) (ix : BM25Index)
    : result PyErr (list (string * float * metadata)) := bm25_search text (q_top_k q) None ix.

(** [dict(zip(scores.keys(), norm.normalize(list(scores.values()))))] *)
Definition normalize_scores (norm : NormalizationStrategy) (scores : dict string float)
    : result PyErr (dict string float) :=
  match scores with
  | [] => Ok []
  | _ =>
      match normalize norm (dict_values scores) with
      | Ok l => Ok (zip (dict_keys scores) l)
      | Err e => Err e
      end
  end.

Definition merge_metadata (semantic : list SearchResultItem) (keyword : list (string * float * metadata))
    : dict string metadata :=
  let m := foldl (λ m r, dict_set (i_id r) (i_metadata r) m) [] semantic in
  foldl (λ m r, match dict_get r.1.1 m with
                | None => dict_set r.1.1 r.2 m
                | Some old => dict_set r.1.1 (update_dict old r.2) m
                end) m keyword.

(** The fused candidates, best first *)
Definition hyb_candidates (q : SearchQuery) (semantic : list SearchResultItem)
    (keyword : list (string * float * metadata)) : result PyErr (list (string * float)) :=
  let sem := foldl (λ d r, dict_set (i_id r) (i_score r) d) [] semantic in
  let kw := foldl (λ d r, dict_set r.1.1 r.1.2 d) [] keyword in
  (try norm <- create_normalization_strategy (q_normalization_strategy q) in
   try sem' <- normalize_scores norm sem in
   try kw' <- normalize_scores norm kw in
   try fusion <- create_fusion_strategy (q_fusion_strategy q) in
   Ok (fuse fusion sem' kw' (q_semantic_weight q) (q_keyword_weight q)))%py.

Definition fused_item (q : SearchQuery) (meta_map : dict string metadata) (p : string * float) : SearchResultItem :=
  new_item p.1 p.2 p.2 None (default [] (dict_get p.1 meta_map)) (q_namespace q) (q_collection q).

Definition execute_hybrid (q : SearchQuery) (clock : Z → float) : SE SearchExn HybState (list SearchResultItem) :=
  st ← se_get;
  let combined_text := join " " (expand expander (q_text q)) in
  let semantic_results := hyb_semantic q combined_text in
  keyword_results ← se_lift (lift_py (hyb_keyword combined_text q (hyb_bm25 st)));
  fused ← se_lift (lift_py (hyb_candidates q semantic_results keyword_results));
  let meta_map := merge_metadata semantic_results keyword_results in
  let items := fused_item q meta_map <$> take_z (q_top_k q * 2) fused in
  items ← se_lift (lift_py (rank cfg clock items q));
  paginated ← se_retrieval (paginate (rc_top_k_max cfg) q items);
  _ ← se_modify (λ s, mk_hyb (hyb_bm25 s)
        (record_query (rc_track_statistics cfg) fzero (zlen semantic_results + zlen keyword_results)
           (zlen fused) (hyb_stats s)));
  mret paginated.

Definition hybrid_search (q : SearchQuery) (clock : Z → float) (start finish : float)
    : SE RetrievalExn HybState SearchResponse :=
  wrapping
    (_ ← se_retrieval (hyb_validate q);
     results ← execute_hybrid q clock;
     st ← se_get;
     mret (build_response q results (hyb_stats st) start finish)).

(** [batch_search]: one after the other, up to the first that raises *)
Fixpoint batch_search (queries : list SearchQuery) (clock : Z → float) (start finish : float)
    : SE RetrievalExn HybState (list SearchResponse) :=
  match queries with
  | [] => mret []
  | q :: rest =>
      r ← hybrid_search q clock start finish;
      rs ← batch_search rest clock start finish;
      mret (r :: rs)
  end.
End Search.
