(* ===== verification/SearchSpec.v ===== *)
(** * Search is correct

    Filters, pages, ranks and the results of a hybrid search; and the places
    where the code does less than it says. *)

From Stdlib Require Import ZArith Lia Sorted.
From stdpp Require Import base numbers strings gmap list.
From S2P Require Import Prelude PyFloat PyNum PyStr PyDict PyMath PyVal Bm25 Fusion Search.

Open Scope string_scope.
Open Scope Z_scope.

Module SearchSpec.
Import FusionSpec.

(** ** Filters *)

Definition keeps (q : SearchQuery) (m : metadata) : bool :=
  match matches_all q m with Ok b => b | Err _ => false end.

Lemma apply_filters_filter q results kept :
  apply_filters q results = Ok kept → kept = List.filter (λ p, keeps q p.2) results.
Proof.
  revert kept. induction results as [|item rest IH]; intros kept; simpl; [by intros [= <-]|].
  unfold keeps at 1. destruct (matches_all q item.2) as [b|]; [|done].
  destruct (apply_filters q rest) as [l|]; [|done]. intros [= <-]. rewrite (IH l eq_refl). by destruct b.
Qed.

Lemma matches_all_inv q m :
  matches_all q m = Ok true →
  all_filters (q_metadata_filters q) m = Ok true ∧ field_is "author" (q_author q) m = true ∧
  (q_tags q = [] ∨ any_in (q_tags q) (item_tags m) = Ok true) ∧
  field_is "language" (q_language q) m = true ∧ field_is "source" (q_source q) m = true ∧
  field_is "tenant" (q_tenant q) m = true ∧
  Forall (λ kv, val_eq (meta_get kv.1 m) kv.2 = true) (q_custom_filters q).
Proof.
  unfold matches_all. destruct (all_filters _ m) as [[]|]; try done.
  destruct (field_is "author" _ m); [|done]. simpl.
  intros H. assert (∃ b, (match q_tags q with [] => Ok true | tags => lift_py (any_in tags (item_tags m)) end) = Ok b
    ∧ b = true ∧ (field_is "language" (q_language q) m && field_is "source" (q_source q) m
      && field_is "tenant" (q_tenant q) m
      && forallb (λ kv, val_eq (meta_get kv.1 m) kv.2) (q_custom_filters q)) = true) as (b & Hb & -> & Hr).
  { destruct (match q_tags q with [] => _ | _ => _ end) as [[]|]; [|done..].
    exists true. split; [done|]. split; [done|]. by injection H. }
  apply andb_prop in Hr as [[[H1 H2]%andb_prop H3]%andb_prop H4].
  split; [done|]. split; [done|]. split; [|repeat split; try done].
  - destruct (q_tags q) as [|t ts]; [by left|right]. unfold lift_py in Hb.
    by destruct (any_in (t :: ts) (item_tags m)); simplify_eq.
  - apply Forall_forall. intros kv Hkv. rewrite forallb_forall in H4. apply H4. by apply list_elem_of_In.
Qed.

(** The filter engine keeps, in order, the results whose metadata satisfies the
    whole query; in particular nothing of another tenant is kept. *)
Theorem filters_exact q results kept :
  apply_filters q results = Ok kept →
  kept = List.filter (λ p, keeps q p.2) results ∧
  ∀ t, q_tenant q = Some t → Forall (λ p, dict_get "tenant" p.2 = Some (PStr t)) kept.
Proof.
  intros H. rewrite (apply_filters_filter _ _ _ H). split; [done|]. intros t Ht.
  apply Forall_forall. intros p Hp. apply list_elem_of_In, List.filter_In in Hp as [_ Hk].
  unfold keeps in Hk. destruct (matches_all q p.2) as [b|] eqn:Em; [|done]. subst b.
  apply matches_all_inv in Em as (_ & _ & _ & _ & _ & Hten & _). rewrite Ht in Hten.
  apply val_eq_str_r in Hten. unfold meta_get in Hten.
  destruct (dict_get "tenant" p.2); simpl in *; by simplify_eq.
Qed.

Definition tenant_query : SearchQuery :=
  mk_query "red" None 10 None None "" "default" "cosine" [] None [] None None (Some "a") [] 0 10 None
    true false true true true true "weighted_sum" "min_max" fhalf fhalf.

Lemma filters_exact_witness :
  let results := [("1", [("tenant", PStr "a")]); ("2", [("tenant", PStr "b")])] in
  apply_filters tenant_query results = Ok [("1", [("tenant", PStr "a")])] ∧
  Forall (λ p, dict_get "tenant" p.2 = Some (PStr "a")) [("1", [("tenant", PStr "a")])].
Proof.
  split; [reflexivity|].
  apply (filters_exact tenant_query [("1", [("tenant", PStr "a")]); ("2", [("tenant", PStr "b")])]);
    [reflexivity|reflexivity].
Defined.

(** The filter sent to the vector store follows from the query: metadata that
    satisfies the query satisfies it. *)
Definition satisfies (d : dict string pyval) (m : metadata) : Prop :=
  Forall (λ kv, val_eq (meta_get kv.1 m) kv.2 = true) d.

Lemma satisfies_set k v d m : satisfies d m → val_eq (meta_get k m) v = true → satisfies (dict_set k v d) m.
Proof. intros Hd Hv. by apply dict_set_Forall. Qed.

Lemma satisfies_opt k v d m : satisfies d m → field_is k v m = true → satisfies (set_opt k v d) m.
Proof. destruct v; simpl; [apply satisfies_set|done]. Qed.

Lemma satisfies_eq_filters mfs d m :
  all_filters mfs m = Ok true → satisfies d m →
  satisfies (foldl (λ d mf, dict_set (mf_field mf) (mf_value mf) d) d
    (List.filter (λ mf, bool_decide (mf_operator mf = "eq")) mfs)) m.
Proof.
  revert d. induction mfs as [|mf mfs IH]; intros d; simpl; [done|].
  destruct (filter_matches mf m) as [[]|] eqn:Em; try done. intros Hr Hd.
  case_bool_decide as Heq; [|by apply IH]. simpl. apply IH; [done|].
  apply satisfies_set; [done|]. unfold filter_matches in Em. rewrite decide_True in Em by done. by injection Em.
Qed.

Lemma satisfies_update d d' m : satisfies d m → satisfies d' m → satisfies (update_dict d d') m.
Proof.
  intros Hd Hd'. unfold update_dict. revert d Hd. induction Hd' as [|[k v] d' Hv _ IH]; intros d Hd; simpl; [done|].
  apply IH. by apply satisfies_set.
Qed.

Theorem store_filter_sound q m d :
  matches_all q m = Ok true → build_vector_store_filter q = Some d → satisfies d m.
Proof.
  intros (Hf & Ha & _ & Hl & Hs & Ht & Hc)%matches_all_inv. unfold build_vector_store_filter.
  set (x := update_dict _ _). assert (satisfies x m) as Hx.
  { apply satisfies_update; [|done]. repeat apply satisfies_opt; try done.
    apply satisfies_eq_filters; [done|constructor]. }
  destruct x; [done|]. by intros [= <-].
Qed.

Lemma store_filter_sound_witness :
  satisfies [("tenant", PStr "a")] [("tenant", PStr "a"); ("tags", PStr "x")].
Proof. apply (store_filter_sound tenant_query); reflexivity. Defined.

(** The converse fails: tags and every operator but [eq] are not sent, and no
    one checks them afterwards. *)
Theorem store_filter_drops_tags :
  let q := mk_query "red" None 10 None None "" "default" "cosine" [mk_filter "year" (PScalar (SInt 2000)) "gt"]
    None ["x"] None None None [] 0 10 None true false true true true true "weighted_sum" "min_max" fhalf fhalf in
  build_vector_store_filter q = None ∧ matches_all q [("year", PScalar (SInt 1999))] = Ok false.
Proof. split; reflexivity. Qed.

(** ** Pages *)

Section Pages.
Context `{Codec : !CursorCodec}.

Lemma paginate_spec {A} mx q (l page : list A) :
  paginate mx q l = Ok page →
  ∃ o, page_offset q = Ok o ∧
    page = if zlen l <=? o then [] else py_slice o (o + page_limit mx q) l.
Proof.
  unfold paginate. destruct (page_offset q) as [o|]; [|done]. intros H. exists o. split; [done|].
  destruct (zlen l <=? o); by simplify_eq.
Qed.

Lemma page_limit_pos mx q : 1 <= page_limit mx q.
Proof. unfold page_limit. lia. Qed.

Lemma paginate_length {A} mx q (l page : list A) o :
  paginate mx q l = Ok page → page_offset q = Ok o → zlen page <= page_limit mx q.
Proof.
  intros (o' & Ho & ->)%paginate_spec Ho'. rewrite Ho in Ho'. injection Ho' as ->.
  pose proof (page_limit_pos mx q). destruct (zlen l <=? o); [unfold zlen; simpl; lia|].
  pose proof (slice_length o (o + page_limit mx q) l ltac:(lia)); lia.
Qed.

Definition at_offset (o : Z) (q : SearchQuery) : SearchQuery :=
  mk_query (q_text q) (q_vector q) (q_top_k q) (q_score_threshold q) (q_max_distance q) (q_collection q)
    (q_namespace q) (q_similarity q) (q_metadata_filters q) (q_author q) (q_tags q) (q_language q) (q_source q)
    (q_tenant q) (q_custom_filters q) o (q_limit q) None (q_include_metadata q) (q_include_vector q)
    (q_recency_boost q) (q_quality_boost q) (q_metadata_boost q) (q_manual_boost q) (q_fusion_strategy q)
    (q_normalization_strategy q) (q_semantic_weight q) (q_keyword_weight q).

(** The pages at successive multiples of the limit *)
Fixpoint pages {A} (mx : Z) (q : SearchQuery) (l : list A) (n : nat) : list (list A) :=
  match n with
  | O => []
  | S n' => pages mx q l n' ++
      [match paginate mx (at_offset (Z.of_nat n' * page_limit mx q) q) l with Ok p => p | Err _ => [] end]
  end%list.

Lemma pages_prefix {A} mx q (l : list A) n :
  concat (pages mx q l n) = py_slice 0 (Z.of_nat n * page_limit mx q) l.
Proof.
  pose proof (page_limit_pos mx q) as Hp. induction n as [|n IH].
  { done. }
  cbn [pages]. rewrite concat_app, IH. simpl concat. rewrite app_nil_r.
  rewrite (slice_app 0 (Z.of_nat n * page_limit mx q) (Z.of_nat (S n) * page_limit mx q)) by lia. f_equal.
  unfold paginate, page_offset. simpl. change (page_limit mx (at_offset _ q)) with (page_limit mx q).
  replace (Z.of_nat (S n) * page_limit mx q) with (Z.of_nat n * page_limit mx q + page_limit mx q) by lia.
  destruct (Z.leb_spec (zlen l) (Z.of_nat n * page_limit mx q)) as [Hle|]; [|done].
  unfold py_slice, clip. rewrite !(proj2 (Z.leb_le _ _)) by lia.
  rewrite drop_ge; [done|]. rewrite length_take. unfold zlen in Hle. lia.
Qed.

(** The pages of a result list, read one after the other, are the list: nothing
    is lost or shown twice. *)
Theorem pages_cover {A} mx q (l : list A) n :
  zlen l <= Z.of_nat n * page_limit mx q → concat (pages mx q l n) = l.
Proof. intros H. rewrite pages_prefix. by apply slice_all. Qed.
End Pages.

#[local] Instance demo_codec : CursorCodec := {|
  encode_cursor := λ n, "c" ++ str_of_Z n; decode_cursor := λ s, match s with String _ t => py_int t | _ => None end |}.

Lemma pages_cover_witness :
  concat (pages 2 tenant_query [1; 2; 3] 2) = [1; 2; 3].
Proof. apply (pages_cover 2 tenant_query [1; 2; 3] 2). vm_compute. done. Defined.

(** Following cursors gets stuck: the next cursor is computed from the offset of
    the query, not from the one in its cursor, so that the second page sends the
    client to the second page again. *)
Theorem cursor_walk_repeats `{Codec : !CursorCodec} `{!CursorLaws} {A} mx (q : SearchQuery) (l : list A) :
  let L := page_limit mx q in
  q_offset q = 0 → q_cursor q = Some (encode_cursor L) → 2 * L < zlen l →
  paginate mx q l = Ok (py_slice L (2 * L) l) ∧
  compute_next_cursor q (py_slice L (2 * L) l) (zlen l) = Some (encode_cursor L).
Proof.
  cbv zeta. intros Ho Hc Hl. pose proof (page_limit_pos mx q) as Hp. set (L := page_limit mx q) in *.
  unfold paginate, page_offset. rewrite Hc, encode_truthy, decode_encode.
  fold L. destruct (Z.leb_spec (zlen l) L); [lia|]. replace (L + L) with (2 * L) by lia. split; [done|].
  unfold compute_next_cursor. rewrite Ho.
  assert (zlen (py_slice L (2 * L) l) = L) as ->.
  { unfold py_slice, clip, zlen in *. rewrite !(proj2 (Z.leb_le _ _)) by lia.
    rewrite length_drop, length_take. lia. }
  destruct (Z.leb_spec (zlen l) (0 + L)); [lia|]. by rewrite Z.add_0_l.
Qed.

(** ** Ranking *)

Lemma map_result_Forall2 {E A B} (f : A → result E B) l k :
  map_result f l = Ok k → Forall2 (λ x y, f x = Ok y) l k.
Proof.
  revert k. induction l as [|x l IH]; intros k; simpl; [intros [= <-]; constructor|].
  destruct (f x) as [y|] eqn:Ey; [|done]. destruct (map_result f l) as [ys|]; [|done].
  intros [= <-]. constructor; [done|]. by apply IH.
Qed.

Lemma map_result_length {E A B} (f : A → result E B) l k : map_result f l = Ok k → length k = length l.
Proof. intros H%map_result_Forall2. symmetry. by eapply Forall2_length. Qed.

(** What identifies a candidate *)
Definition ident (i : SearchResultItem) : string * metadata := (i_id i, i_metadata i).

Fixpoint from_one (k : Z) (n : nat) : list Z :=
  match n with O => [] | S n' => k :: from_one (k + 1) n' end.

Section Rank.
Context `{Math : !MathLib}.

Lemma score_item_spec cfg q now i i' :
  score_item cfg q now i = Ok i' → ident i' = ident i ∧ i_final_score i' = aggregate_score cfg i' ∧ i_score i' = i_score i.
Proof.
  unfold score_item. cbv beta zeta.
  destruct (when _ (compute_recency _ _ _)); [|done]. destruct (when _ (compute_quality _)); [|done].
  destruct (when _ (compute_metadata_boost _ _)); [|done]. destruct (when _ (get_manual_boost _)); [|done].
  by intros [= <-].
Qed.

Lemma ranks_from k (l : list SearchResultItem) :
  i_rank <$> ((λ p : Z * SearchResultItem, set_rank (p.1 + 1) p.2) <$> enumerate_from k l) = from_one (k + 1) (length l).
Proof. revert k. induction l as [|i l IH]; intros k; csimpl; [done|]. f_equal. apply IH. Qed.

Lemma set_ranks_map {B} (f : SearchResultItem → B) k (l : list SearchResultItem) :
  (∀ n i, f (set_rank n i) = f i) →
  f <$> ((λ p : Z * SearchResultItem, set_rank (p.1 + 1) p.2) <$> enumerate_from k l) = f <$> l.
Proof. intros Hf. revert k. induction l as [|i l IH]; intros k; csimpl; [done|]. by rewrite Hf, IH. Qed.

(** [Ranker.rank]: the same candidates, numbered from one, by descending final
    score, which is the aggregate of their scores. *)
Lemma rank_spec cfg clock cands q out :
  rank cfg clock cands q = Ok out →
  ident <$> out ≡ₚ ident <$> cands ∧
  i_rank <$> out = from_one 1 (length cands) ∧
  Forall (λ i, i_final_score i = aggregate_score cfg i) out ∧
  (Forall (λ x, is_nan x = false) (i_final_score <$> out) → descending (i_final_score <$> out)).
Proof.
  unfold rank. destruct (map_result _ (enumerate cands)) as [scored|] eqn:Em; [|done]. intros [= <-].
  pose proof (map_result_length _ _ _ Em) as Hlen. apply map_result_Forall2 in Em.
  assert (length (enumerate cands) = length cands) as Hel
    by (rewrite <- (length_fmap snd (enumerate cands)); by rewrite enumerate_snd).
  assert (ident <$> scored = ident <$> cands) as Hid.
  { rewrite <- (enumerate_snd cands) at 1. clear -Em. induction Em as [|p i l k Hp _ IH]; csimpl; [done|].
    apply score_item_spec in Hp as (-> & _). by rewrite IH. }
  assert (Forall (λ i, i_final_score i = aggregate_score cfg i) scored) as Hag.
  { clear -Em. induction Em as [|p i l k Hp _ IH]; [constructor|]. constructor; [|done].
    by apply score_item_spec in Hp as (_ & ? & _). }
  unfold enumerate. set (srt := py_sorted by_final scored).
  assert (srt ≡ₚ scored) as Hp by apply py_sorted_perm.
  split; [|split; [|split]].
  - rewrite set_ranks_map by done. by rewrite Hp, Hid.
  - rewrite ranks_from. rewrite Hp, Hlen, Hel. done.
  - rewrite <- Hp in Hag. clear -Hag. generalize 0 as k.
    induction Hag as [|i l Hi _ IH]; intros k; csimpl; constructor; [|apply IH]. done.
  - rewrite set_ranks_map by done. intros Hn. apply sorted_descending. by rewrite <- Hp.
Qed.

(** A creation time that lies too far in the future makes every search fail
    that ranks the document: [math.exp] raises [OverflowError], which
    [_compute_recency] does not catch.  A time stamp in milliseconds is such a
    time. *)
Theorem future_timestamp_fails_search cfg clock cands q k i t :
  cands !! k = Some i → q_recency_boost q = true →
  val_float (created_at (i_metadata i)) = Ok t → is_none (created_at (i_metadata i)) = false →
  fle (rc_recency_decay_hours cfg) fzero = false →
  math_exp (fdiv (fopp (fdiv (fsub (clock (Z.of_nat k)) t) (float_of_Z 3600))) (rc_recency_decay_hours cfg)) = Err OverflowErr →
  is_ok (rank cfg clock cands q) = false.
Proof.
  intros Hi Hq Ht Hnn Hd He. unfold rank.
  destruct (map_result _ (enumerate cands)) as [scored|] eqn:Em; [|done]. exfalso.
  apply map_result_Forall2 in Em.
  assert ((Z.of_nat k, i) ∈ enumerate cands) as Hin by (apply enumerate_elem; rewrite Nat2Z.id; split; [lia|done]).
  apply list_elem_of_lookup in Hin as [n Hn]. destruct (Forall2_lookup_l _ _ _ _ _ Em Hn) as (j & _ & Hj).
  simpl in Hj. unfold score_item in Hj. rewrite Hq in Hj. cbv [when] in Hj.
  unfold compute_recency in Hj. by rewrite Hnn, Ht, Hd, He in Hj.
Qed.
End Rank.

#[local] Instance demo_math : MathLib := {|
  math_log := λ x, Ok x;
  math_exp := λ x, if flt (float_of_Z 709) x then Err OverflowErr else Ok fone;
  float_pow := λ x _, Ok (fmul x x); float_of_str := λ _, None |}.

Lemma future_timestamp_fails_search_witness :
  is_ok (rank default_rconfig (λ _, float_of_Z 1700000000)
    [new_item "a" fone fone None [("created_at", PScalar (SInt 1700000000000))] "" ""] (default_query "x")) = false.
Proof.
  apply (future_timestamp_fails_search _ _ _ _ 0%nat
    (new_item "a" fone fone None [("created_at", PScalar (SInt 1700000000000))] "" "") (float_of_Z 1700000000000));
    vm_compute; reflexivity.
Defined.

(** ** Normalisation keeps the keys *)

Section Hybrid.
Context `{Math : !MathLib} `{Codec : !CursorCodec} `{Store : !VectorStore} `{Embed : !EmbeddingService}.
Context `{Order : !SetOrder} `{Laws : !SetOrderLaws} `{Regex : !RegexEnv}.
Context (cfg : RetrievalConfig) (expander : QueryExpander).

Lemma foldl_insert_length {A B} (f : A → nat) (g : A → B) l (r : list B) :
  length (foldl (λ r p, <[f p := g p]> r) r l) = length r.
Proof. revert r. induction l as [|x l IH]; intros r; simpl; [done|]. by rewrite IH, length_insert. Qed.

Lemma replicate_ok {E A} n (v : A) l : @Ok E _ (replicate n v) = Ok l → length l = n.
Proof. intros [= <-]. apply length_replicate. Qed.

Lemma normalize_length st scores l : normalize st scores = Ok l → length l = length scores.
Proof.
  destruct st; simpl.
  - unfold min_max_normalize. destruct scores as [|x rest]; [by intros [= <-]|]. cbv zeta.
    destruct (feq _ _); [apply replicate_ok|apply map_result_length].
  - unfold z_score_normalize. destruct scores as [|x rest]; [by intros [= <-]|]. cbv zeta.
    destruct (map_result _ (x :: rest)) as [squares|]; [|done].
    destruct (map_result (λ s, fdivide _ _) (x :: rest)) as [ys|] eqn:E; [|done].
    apply map_result_length in E. destruct ys as [|y ys]; [done|].
    destruct (feq _ _); [apply replicate_ok|]. intros H%map_result_length. congruence.
  - unfold softmax_normalize. destruct scores as [|x rest]; [by intros [= <-]|]. cbv zeta.
    destruct (map_result _ (x :: rest)) as [es|] eqn:E; [|done]. apply map_result_length in E.
    destruct (is_fzero _); [apply replicate_ok|]. intros H%map_result_length. congruence.
  - intros [= <-]. unfold rank_based_normalize. by rewrite foldl_insert_length, length_replicate.
Qed.

Lemma normalize_scores_keys norm (d d' : dict string float) :
  normalize_scores norm d = Ok d' → dict_keys d' = dict_keys d.
Proof.
  unfold normalize_scores. destruct d as [|p d]; [by intros [= <-]|].
  destruct (normalize norm (dict_values (p :: d))) as [l|] eqn:E; [|done]. intros Hd.
  replace d' with (zip (dict_keys (p :: d)) l) by congruence.
  apply normalize_length in E. unfold dict_keys, dict_values in *. rewrite length_fmap in E.
  rewrite fst_zip; [done|]. rewrite length_fmap. lia.
Qed.

Lemma foldl_set_keys {A V} (f : A → string) (g : A → V) l (d : dict string V) k :
  k ∈ dict_keys (foldl (λ d r, dict_set (f r) (g r) d) d l) ↔ k ∈ dict_keys d ∨ k ∈ f <$> l.
Proof.
  revert d. induction l as [|x l IH]; intros d; csimpl; [set_solver|]. rewrite IH.
  rewrite elem_of_cons. unfold dict_keys. rewrite dict_keys_set.
  pose proof (dict_mem_keys (f x) d) as Hm. unfold dict_keys in Hm.
  destruct (dict_mem (f x) d); [|rewrite elem_of_app, list_elem_of_singleton; tauto].
  destruct Hm as [Hm _]. specialize (Hm eq_refl). split; [tauto|]. intros [?|[->|?]]; tauto.
Qed.

(** Every document that either search found is a candidate, once. *)
Lemma candidates_spec q sem kw fused :
  hyb_candidates q sem kw = Ok fused →
  NoDup fused.*1 ∧ ∀ d, d ∈ fused.*1 ↔ d ∈ i_id <$> sem ∨ d ∈ kw.*1.*1.
Proof.
  unfold hyb_candidates. cbv zeta.
  destruct (create_normalization_strategy _) as [norm|]; [|done].
  destruct (normalize_scores norm (foldl _ _ sem)) as [d1|] eqn:E1; [|done].
  destruct (normalize_scores norm (foldl _ _ kw)) as [d2|] eqn:E2; [|done].
  destruct (create_fusion_strategy _) as [st|]; [|done]. intros [= <-].
  apply normalize_scores_keys in E1, E2.
  destruct (fuse_complete_aux st d1 d2 (q_semantic_weight q) (q_keyword_weight q)) as (_ & Hk & _).
  split; [rewrite Hk; apply NoDup_elements|]. intros d. rewrite Hk. unfold fused_ids, key_set.
  rewrite elem_of_elements, elem_of_union, !elem_of_list_to_set, E1, E2.
  rewrite (foldl_set_keys i_id i_score), (foldl_set_keys (λ r : string * float * metadata, r.1.1) (λ r, r.1.2)).
  rewrite <- list_fmap_compose. simpl. rewrite !elem_of_nil. tauto.
Qed.

(** ** Hybrid search *)

Lemma wrapping_ok {S A} (m : SE SearchExn S A) s a s' : wrapping m s = (Ok a, s') → m s = (Ok a, s').
Proof. unfold wrapping. destruct (m s) as [[?|?] ?]; by intros [= -> ->]. Qed.

Lemma se_retrieval_ok {S A} (r : result RetrievalExn A) (s : S) a s' : se_retrieval r s = (Ok a, s') → r = Ok a ∧ s' = s.
Proof. unfold se_retrieval, se_lift. destruct r; by intros [= -> ->]. Qed.

Lemma se_py_ok {S A} (r : result PyErr A) (s : S) a s' : se_lift (lift_py r) s = (Ok a, s') → r = Ok a ∧ s' = s.
Proof. unfold se_lift, lift_py. destruct r; by intros [= -> ->]. Qed.

Definition text_of (q : SearchQuery) : string := join " " (expand expander (q_text q)).

Lemma execute_hybrid_inv q clock s page s' :
  execute_hybrid cfg expander q clock s = (Ok page, s') →
  ∃ kw fused out, hyb_keyword (text_of q) q (hyb_bm25 s) = Ok kw ∧
    hyb_candidates q (hyb_semantic q (text_of q)) kw = Ok fused ∧
    rank cfg clock (fused_item q (merge_metadata (hyb_semantic q (text_of q)) kw) <$> take_z (q_top_k q * 2) fused) q = Ok out ∧
    paginate (rc_top_k_max cfg) q out = Ok page ∧ hyb_bm25 s' = hyb_bm25 s.
Proof.
  unfold execute_hybrid. intros H.
  apply se_bind_inv in H as (st & s0 & [= <- <-] & H). cbv beta zeta in H.
  apply se_bind_inv in H as (kw & s1 & [Hkw ->]%se_py_ok & H).
  apply se_bind_inv in H as (fused & s2 & [Hf ->]%se_py_ok & H).
  apply se_bind_inv in H as (out & s3 & [Hr ->]%se_py_ok & H).
  apply se_bind_inv in H as (pg & s4 & [Hp ->]%se_retrieval_ok & H).
  apply se_bind_inv in H as ([] & s5 & [= <-] & H). injection H as -> <-.
  exists kw, fused, out. done.
Qed.

Lemma bounds_check_ok q : bounds_check cfg q = Ok tt → 1 <= q_top_k q ∧ 0 <= q_offset q.
Proof.
  unfold bounds_check. destruct (Z.ltb_spec (q_top_k q) 1); [done|].
  destruct (Z.ltb_spec (rc_top_k_max cfg) (q_top_k q)); [done|].
  destruct (Z.ltb_spec (q_offset q) 0); [done|]. lia.
Qed.

(** The documents that either search found, without repetition *)
Definition found_ids (q : SearchQuery) (kw : list (string * float * metadata)) : list string :=
  elements (list_to_set ((i_id <$> hyb_semantic q (text_of q)) ++ kw.*1.*1) : gset string).

(** What a page of a hybrid search shows: [all] is the ranking of the best
    candidates and the results are the page of it that the query asks for. *)
Record hybrid_page (q : SearchQuery) (kw : list (string * float * metadata)) (results all : list SearchResultItem) : Prop := {
  hp_ids : NoDup (i_id <$> all);
  hp_found : ∀ d, d ∈ i_id <$> all → d ∈ i_id <$> hyb_semantic q (text_of q) ∨ d ∈ kw.*1.*1;
  hp_complete : zlen (found_ids q kw) <= q_top_k q * 2 →
    ∀ d, d ∈ i_id <$> hyb_semantic q (text_of q) ∨ d ∈ kw.*1.*1 → d ∈ i_id <$> all;
  hp_ranks : i_rank <$> all = from_one 1 (length all);
  hp_scores : Forall (λ i, i_final_score i = aggregate_score cfg i) all;
  hp_descending : Forall (λ x, is_nan x = false) (i_final_score <$> all) → descending (i_final_score <$> all);
  hp_page : paginate (rc_top_k_max cfg) q all = Ok results
}.

(** (C20) A hybrid search that returns shows a page of a ranking: the candidates are
    the documents that the vector store or the keyword index found, each once
    and all of them when they are at most twice [top_k]; they are numbered from
    one by descending final score; the index is not changed. *)
Theorem hybrid_search_correct q clock start finish s resp s' :
  hybrid_search cfg expander q clock start finish s = (Ok resp, s') →
  hyb_bm25 s' = hyb_bm25 s ∧
  ∃ kw all, hyb_keyword (text_of q) q (hyb_bm25 s) = Ok kw ∧ hybrid_page q kw (sr_results resp) all ∧
    sr_total resp = zlen (sr_results resp) ∧ zlen (sr_results resp) <= page_limit (rc_top_k_max cfg) q.
Proof.
  unfold hybrid_search. intros H%wrapping_ok.
  apply se_bind_inv in H as ([] & s0 & [Hv ->]%se_retrieval_ok & H).
  apply se_bind_inv in H as (page & s1 & Hx & H).
  apply se_bind_inv in H as (st & s2 & [= <- <-] & H). injection H as <- <-.
  apply execute_hybrid_inv in Hx as (kw & fused & all & Hkw & Hf & Hr & Hp & ->). split; [done|].
  exists kw, all. split; [done|]. simpl.
  unfold hyb_validate in Hv. destruct (negb (truthy (q_text q))); [done|].
  apply bounds_check_ok in Hv as [Hk _]. split.
  - apply candidates_spec in Hf as [Hnd Hf]. apply rank_spec in Hr as (Hid & Hrk & Hag & Hds).
    destruct (take_z_prefix (q_top_k q * 2) fused) as [rest Hrest].
    assert (i_id <$> all ≡ₚ (take_z (q_top_k q * 2) fused).*1) as Hids.
    { assert (i_id <$> all = (ident <$> all).*1) as -> by (rewrite <- list_fmap_compose; done).
      rewrite Hid, <- !list_fmap_compose. done. }
    split; [| | | |done|done|done].
    + rewrite Hids. rewrite Hrest, fmap_app in Hnd. by apply NoDup_app in Hnd as [? _].
    + intros d Hd. apply Hf. rewrite Hids in Hd. rewrite Hrest, fmap_app. apply elem_of_app. by left.
    + intros Hlen d Hd. rewrite Hids.
      assert (rest = []) as ->; [|rewrite app_nil_r in Hrest; rewrite <- Hrest; by apply Hf].
      destruct (decide (rest = [])) as [|Hne]; [done|exfalso].
      assert (0 <= q_top_k q * 2) as Hk2 by lia. pose proof (take_z_rest _ _ _ Hk2 Hrest Hne) as Ht.
      assert (fused.*1 ≡ₚ found_ids q kw) as He.
      { unfold found_ids. apply NoDup_Permutation; [done|apply NoDup_elements|]. intros e.
        rewrite Hf, elem_of_elements, elem_of_list_to_set, elem_of_app. done. }
      unfold zlen in *. rewrite <- He, length_fmap in Hlen.
      apply (f_equal length) in Hrest. rewrite length_app in Hrest.
      destruct rest; [done|]. rewrite length_cons in Hrest. lia.
    + rewrite Hrk. f_equal. apply (f_equal length) in Hrk as Hl. rewrite length_fmap in Hl.
      apply Permutation_length in Hid. rewrite !length_fmap in Hid. rewrite length_fmap. done.
  - split; [done|]. destruct (paginate_spec _ _ _ _ Hp) as (o & Ho & _). by eapply paginate_length.
Qed.

(** No response carries a cursor to a further page: [search] computes it from
    the page it returns instead of from the whole result. *)
Theorem next_cursor_never q clock start finish s resp s' :
  hybrid_search cfg expander q clock start finish s = (Ok resp, s') → sr_next_cursor resp = None.
Proof.
  unfold hybrid_search. intros H%wrapping_ok.
  apply se_bind_inv in H as ([] & s0 & [Hv ->]%se_retrieval_ok & H).
  apply se_bind_inv in H as (page & s1 & Hx & H).
  apply se_bind_inv in H as (st & s2 & [= <- <-] & H). injection H as <- <-. simpl.
  unfold hyb_validate in Hv. destruct (negb (truthy (q_text q))); [done|].
  apply bounds_check_ok in Hv as [_ Ho]. unfold compute_next_cursor.
  destruct (Z.leb_spec (zlen page) (q_offset q + zlen page)); [done|lia].
Qed.

(** ** Semantic search *)

Lemma sem_execute_inv fresh clock s page s' :
  execute_search cfg fresh clock s = (Ok page, s') →
  ∃ v vs st items out, query_vector (sem_query s) = Ok v ∧
    sem_query s' = set_vector (Some v) (sem_query s) ∧
    vs_search (sem_request (sem_query s') v) = Ok vs ∧
    map_result (rescore st v) (to_item (sem_query s') fresh <$> enumerate vs) = Ok items ∧
    rank cfg clock (List.filter (within_distance (sem_query s')) items) (sem_query s') = Ok out ∧
    paginate (rc_top_k_max cfg) (sem_query s') out = Ok page.
Proof.
  unfold execute_search. intros H.
  apply se_bind_inv in H as (st0 & s0 & [= <- <-] & H). cbv beta zeta in H.
  apply se_bind_inv in H as (v & s1 & Hv & H). unfold se_lift in Hv. injection Hv as Hv <-.
  apply se_bind_inv in H as ([] & s2 & [= <-] & H).
  apply se_bind_inv in H as (st1 & s3 & [= <- <-] & H). cbn [sem_query sem_stats] in H.
  apply se_bind_inv in H as (vs & s4 & Hs & H).
  unfold se_lift in Hs. destruct (vs_search _) as [vs'|] eqn:Evs; [|done]. injection Hs as -> <-.
  apply se_bind_inv in H as ([] & s5 & [= <-] & H).
  apply se_bind_inv in H as (st & s6 & [_ ->]%se_retrieval_ok & H).
  apply se_bind_inv in H as (items & s7 & [Hi ->]%se_py_ok & H).
  apply se_bind_inv in H as (out & s8 & [Hr ->]%se_py_ok & H).
  apply se_bind_inv in H as (pg & s9 & [Hp ->]%se_retrieval_ok & H).
  apply se_bind_inv in H as ([] & s10 & [= <-] & H). injection H as -> <-.
  exists v, vs, st, items, out. done.
Qed.

Lemma rescore_ident st v i i' : rescore st v i = Ok i' → ident i' = ident i.
Proof.
  unfold rescore. destruct (i_vector i) as [[|]|]; [by intros [= <-]| |by intros [= <-]].
  destruct (similarity_compute _ _ _); [|done]. by intros [= <-].
Qed.

(** A semantic search that returns shows a page of the ranking of results of the
    vector store that are near enough; its query keeps the vector it was
    searched with. *)
Theorem semantic_search_correct fresh clock start finish s resp s' :
  semantic_search cfg fresh clock start finish s = (Ok resp, s') →
  ∃ v vs all, query_vector (sem_query s) = Ok v ∧ sem_query s' = set_vector (Some v) (sem_query s) ∧
    vs_search (sem_request (sem_query s') v) = Ok vs ∧
    ident <$> all ⊆+ ident <$> (to_item (sem_query s') fresh <$> enumerate vs) ∧
    i_rank <$> all = from_one 1 (length all) ∧
    Forall (λ i, i_final_score i = aggregate_score cfg i) all ∧
    (Forall (λ x, is_nan x = false) (i_final_score <$> all) → descending (i_final_score <$> all)) ∧
    paginate (rc_top_k_max cfg) (sem_query s') all = Ok (sr_results resp) ∧
    sr_total resp = zlen (sr_results resp).
Proof.
  unfold semantic_search. intros H%wrapping_ok.
  apply se_bind_inv in H as (st0 & s0 & [= <- <-] & H).
  apply se_bind_inv in H as ([] & s1 & [_ ->]%se_retrieval_ok & H).
  apply se_bind_inv in H as (page & s2 & Hx & H).
  apply se_bind_inv in H as (st & s3 & [= <- <-] & H). injection H as <- <-. simpl.
  apply sem_execute_inv in Hx as (v & vs & st & items & out & Hv & Hq & Hvs & Hi & Hr & Hp).
  exists v, vs, out. split; [done|]. split; [done|]. split; [done|].
  apply rank_spec in Hr as (Hid & Hrk & Hag & Hds).
  assert (length out = length (List.filter (within_distance (sem_query s2)) items)) as Hlen.
  { apply Permutation_length in Hid. by rewrite !length_fmap in Hid. }
  split; [|by rewrite Hlen].
  rewrite Hid. assert (ident <$> items = ident <$> (to_item (sem_query s2) fresh <$> enumerate vs)) as <-.
  { apply map_result_Forall2 in Hi. clear -Hi. induction Hi as [|x y l k Hx _ IH]; csimpl; [done|].
    by rewrite (rescore_ident _ _ _ _ Hx), IH. }
  apply sublist_submseteq, fmap_sublist. clear. induction items as [|i items IH]; simpl; [done|].
  destruct (within_distance _ i); [by apply sublist_skip|by apply sublist_cons].
Qed.

Definition set_text (text : string) (q : SearchQuery) : SearchQuery :=
  mk_query text (q_vector q) (q_top_k q) (q_score_threshold q) (q_max_distance q) (q_collection q) (q_namespace q)
    (q_similarity q) (q_metadata_filters q) (q_author q) (q_tags q) (q_language q) (q_source q) (q_tenant q)
    (q_custom_filters q) (q_offset q) (q_limit q) (q_cursor q) (q_include_metadata q) (q_include_vector q)
    (q_recency_boost q) (q_quality_boost q) (q_metadata_boost q) (q_manual_boost q) (q_fusion_strategy q)
    (q_normalization_strategy q) (q_semantic_weight q) (q_keyword_weight q).

(** A query object that was searched keeps the vector of its first text: with
    another text it goes on searching for the first. *)
Theorem searched_query_keeps_vector fresh clock start finish s resp s' text :
  semantic_search cfg fresh clock start finish s = (Ok resp, s') →
  query_vector (set_text text (sem_query s')) = query_vector (sem_query s).
Proof.
  unfold semantic_search. intros H%wrapping_ok.
  apply se_bind_inv in H as (st0 & s0 & [= <- <-] & H).
  apply se_bind_inv in H as ([] & s1 & [_ ->]%se_retrieval_ok & H).
  apply se_bind_inv in H as (page & s2 & Hx & H).
  apply se_bind_inv in H as (st & s3 & [= <- <-] & H). injection H as _ <-.
  apply sem_execute_inv in Hx as (v & vs & st & items & out & Hv & Hq & _). rewrite Hq, Hv. done.
Qed.
End Hybrid.

(** ** An index and a store to search *)

#[local] Instance demo_store : VectorStore := λ r,
  Ok [mk_vs (Some "v1") (Some fone) None (Some [("tenant", PStr "a")]) None].
#[local] Instance demo_embedding : EmbeddingService := Some (λ _, Ok [fone]).
#[local] Instance demo_regex : RegexEnv := {| re_has_word := λ _ _, false; re_sub_word := λ _ _ t, t |}.
Definition demo_expander : QueryExpander := mk_expander [] [] [].

Definition demo_hyb : HybState :=
  mk_hyb (index_document "k1" "red fox" [("tenant", PStr "b")] empty_index) empty_rstats.

Definition demo_search := hybrid_search default_rconfig demo_expander tenant_query (λ _, fzero) fzero fzero demo_hyb.

Lemma hybrid_search_correct_witness :
  ∃ resp s', demo_search = (Ok resp, s') ∧ hyb_bm25 s' = hyb_bm25 demo_hyb.
Proof.
  do 2 eexists. split; [vm_compute; reflexivity|].
  refine (proj1 (hybrid_search_correct default_rconfig demo_expander tenant_query (λ _, fzero) fzero fzero demo_hyb _ _ _)).
  vm_compute. reflexivity.
Defined.

Lemma next_cursor_never_witness : ∃ resp s', demo_search = (Ok resp, s') ∧ sr_next_cursor resp = None.
Proof.
  do 2 eexists. split; [vm_compute; reflexivity|].
  apply (next_cursor_never default_rconfig demo_expander tenant_query (λ _, fzero) fzero fzero demo_hyb _
    (demo_search.2)). vm_compute. reflexivity.
Defined.

(** The keyword side of a hybrid search applies no filter: a query of tenant [a]
    is answered with a document of tenant [b]. *)
Theorem hybrid_leaks_tenants :
  q_tenant tenant_query = Some "a" ∧
  ∃ resp s', demo_search = (Ok resp, s') ∧
    ∃ i, i ∈ sr_results resp ∧ dict_get "tenant" (i_metadata i) = Some (PStr "b").
Proof.
  split; [done|]. do 2 eexists. split; [vm_compute; reflexivity|].
  eexists. split; [right; left|reflexivity].
Qed.

Definition demo_sem_state : SemState := mk_sem tenant_query empty_rstats.

Lemma semantic_search_correct_witness :
  ∃ resp s', semantic_search default_rconfig (λ _, "") (λ _, fzero) fzero fzero demo_sem_state = (Ok resp, s') ∧
    sr_total resp = zlen (sr_results resp).
Proof.
  do 2 eexists. split; [vm_compute; reflexivity|].
  destruct (semantic_search_correct default_rconfig (λ _, "") (λ _, fzero) fzero fzero demo_sem_state
    (match (semantic_search default_rconfig (λ _, "") (λ _, fzero) fzero fzero demo_sem_state).1 with
     | Ok r => r | Err _ => mk_sresponse [] 0 0 0 None fzero (stats_snapshot empty_rstats) end)
    (semantic_search default_rconfig (λ _, "") (λ _, fzero) fzero fzero demo_sem_state).2)
    as (v & vs & all & _ & _ & _ & _ & _ & _ & _ & _ & Ht); [vm_compute; reflexivity|].
  vm_compute. reflexivity.
Defined.

End SearchSpec.
