(* ===== verification/Redis.v ===== *)
(** * Programs over a shared Redis

    The components of [src/app/distributed/] share a Redis server.  A method is a
    program: a sequence of commands, each atomic, with the Python code between
    them; a Lua script is a program that runs as one command.  Programs of
    several processes interleave between commands ([ProgStep]).

    Keys are built from fixed prefixes and ids; [key_text] is the text of a key
    and is injective for ids without a colon, which generated ids are.  A stored
    JSON text is represented by the value it is the text of.  The server is an
    interface, [Redis], with the documented effect of its commands as laws over
    an abstract view of its contents; keys with a time to live may vanish between
    commands. *)

From Stdlib Require Import ZArith Lia.
From Stdlib Require Import Ascii.
From stdpp Require Import base numbers strings pretty gmap list.
From S2P Require Import Prelude PyFloat PyStr PyDict.

Open Scope string_scope.
Open Scope Z_scope.

(** ** Data ([models.py]) *)

Inductive TaskState := T_QUEUED | T_RUNNING | T_COMPLETED | T_FAILED | T_CANCELLED | T_RETRYING.

#[export] Instance task_state_eq_dec : EqDecision TaskState.
Proof. solve_decision. Defined.

(** [payload], [metadata] and [tags] are JSON objects nobody looks into. *)
Record DistributedTask := mk_task {
  t_task_id : string;
  t_task_type : string;
  t_payload : string;
  t_state : TaskState;
  t_priority : Z;
  t_max_retries : Z;
  t_retry_count : Z;
  t_timeout : Z;
  t_session_id : string;
  t_created_at : float;
  t_updated_at : float;
  t_lease_id : string;
  t_lease_expires_at : float;
  t_error : string;
  t_idempotency_key : string;
  t_metadata : string
}.

(** The JSON of a lease: the queue writes three fields, the lease manager six. *)
Record LeaseData := mk_lease {
  l_task_id : string;
  l_worker_id : option string;
  l_lease_id : string;
  l_acquired_at : option float;
  l_expires_at : float;
  l_timeout : option float
}.

Inductive WorkerStatus := W_ONLINE | W_OFFLINE | W_DRAINING.

Record WorkerInfo := mk_worker {
  w_worker_id : string;
  w_hostname : string;
  w_pid : Z;
  w_version : string;
  w_status : WorkerStatus;
  w_started_at : float;
  w_last_heartbeat : float;
  w_current_tasks : Z;
  w_max_concurrent : Z;
  w_tags : string
}.

Record DLQEntry := mk_dlq {
  dl_task_id : string;
  dl_original_task : DistributedTask;
  dl_error : string;
  dl_retry_count : Z;
  dl_worker_id : option string;
  dl_timestamp : float
}.

Inductive rval :=
| VText (s : string)
| VTask (t : DistributedTask)
| VLease (l : LeaseData)
| VDlq (e : DLQEntry)
| VWorker (w : WorkerInfo)
| VHeartbeat (worker_id : string) (last : float)
| VProcessed (at_ : float) (res : string).

(** ** Keys *)

Inductive rkey :=
| KTask (id : string)
| KTaskDelayed (id : string)
| KLease (id : string)
| KQueue (priority : Z)
| KDelayed
| KDlq
| KWorker (id : string)
| KHeartbeat (id : string)
| KIdempotency (k : string)
| KSchedulerLock
| KSchedulerLeader.

#[export] Instance rkey_eq_dec : EqDecision rkey.
Proof. solve_decision. Defined.

#[export] Instance rkey_countable : Countable rkey.
Proof.
  refine (inj_countable'
    (λ k, match k with
      | KTask i => inl (0, i) | KTaskDelayed i => inl (1, i) | KLease i => inl (2, i)
      | KWorker i => inl (3, i) | KHeartbeat i => inl (4, i) | KIdempotency i => inl (5, i)
      | KQueue p => inr (inl p) | KDelayed => inr (inr 0) | KDlq => inr (inr 1)
      | KSchedulerLock => inr (inr 2) | KSchedulerLeader => inr (inr 3)
      end)
    (λ x, match x with
      | inl (0, i) => KTask i | inl (1, i) => KTaskDelayed i | inl (2, i) => KLease i
      | inl (3, i) => KWorker i | inl (4, i) => KHeartbeat i | inl (_, i) => KIdempotency i
      | inr (inl p) => KQueue p | inr (inr 0) => KDelayed | inr (inr 1) => KDlq
      | inr (inr 2) => KSchedulerLock | inr (inr _) => KSchedulerLeader
      end) _).
  by intros [].
Defined.

Definition key_text (k : rkey) : string :=
  match k with
  | KTask i => "dist_task:" ++ i
  | KTaskDelayed i => "dist_task:" ++ i ++ ":delayed"
  | KLease i => "dist_lease:" ++ i
  | KQueue p => "dist_queue:" ++ str_of_Z p
  | KDelayed => "dist_delayed:"
  | KDlq => "dist_dlq"
  | KWorker i => "dist_worker:" ++ i
  | KHeartbeat i => "dist_heartbeat:" ++ i
  | KIdempotency i => "dist_idempotency:" ++ i
  | KSchedulerLock => "dist_scheduler:lock"
  | KSchedulerLeader => "dist_scheduler:leader"
  end.

(** The patterns the code scans for *)
Inductive kprefix := PLease | PWorker.
Definition in_prefix (p : kprefix) (k : rkey) : option string :=
  match p, k with
  | PLease, KLease i => Some i
  | PWorker, KWorker i => Some i
  | _, _ => None
  end.

(** ** Commands *)

Inductive rcmd : Type → Type :=
| CGet (k : rkey) : rcmd (option rval)
| CSet (k : rkey) (v : rval) (ttl : Z) : rcmd unit
| CSetNx (k : rkey) (v : rval) : rcmd bool
| CDel (k : rkey) : rcmd unit
| CExists (k : rkey) : rcmd bool
| CExpire (k : rkey) (ttl : Z) : rcmd unit
| CTtl (k : rkey) : rcmd Z
| CScan (p : kprefix) : rcmd (list string)
| CLpush (k : rkey) (v : rval) : rcmd unit
| CRpop (k : rkey) : rcmd (option rval)
| CLpop (k : rkey) : rcmd (option rval)
| CLlen (k : rkey) : rcmd Z
| CLindex (k : rkey) (i : Z) : rcmd (option rval)
| CZadd (k : rkey) (score : float) (m : string) : rcmd unit
| CZrem (k : rkey) (m : string) : rcmd unit
| CZrange (k : rkey) (max_score : float) : rcmd (list string)
| CZcard (k : rkey) : rcmd Z.

(** ** Programs *)

(** [Work] marks the place where a worker runs the handler of a task. *)
Inductive prog : Type → Type :=
| Ret {A} (a : A) : prog A
| Cmd {A B} (c : rcmd B) (k : B → prog A) : prog A
| Atomic {A B} (p : prog B) (k : B → prog A) : prog A
| Work {A} (t : DistributedTask) (k : bool → prog A) : prog A.

Fixpoint prog_bind {A B} (p : prog A) : (A → prog B) → prog B :=
  match p in prog A return (A → prog B) → prog B with
  | Ret a => λ f, f a
  | Cmd c k => λ f, Cmd c (λ x, prog_bind (k x) f)
  | Atomic q k => λ f, Atomic q (λ x, prog_bind (k x) f)
  | Work t k => λ f, Work t (λ x, prog_bind (k x) f)
  end.

Definition command {B} (c : rcmd B) : prog B := Cmd c Ret.
Definition script {B} (p : prog B) : prog B := Atomic p Ret.

Declare Scope prog_scope.
Delimit Scope prog_scope with prog.
Notation "'let!' x ':=' p 'in' q" := (prog_bind p (λ x, q))
  (at level 200, x name, p at level 100, q at level 200) : prog_scope.
Notation "'do!' p 'in' q" := (prog_bind p (λ _, q))
  (at level 200, p at level 100, q at level 200) : prog_scope.

(** ** The server *)

Class Redis (R : Type) := redis_run : ∀ {B}, rcmd B → R → B * R.
#[global] Hint Mode Redis ! : typeclass_instances.

Section Run.
Context {R : Type} `{!Redis R}.

(** A program that nobody interrupts; the handler of a task succeeds when
    [handler] says so. *)
Fixpoint run_prog {A} (handler : DistributedTask → bool) (p : prog A) (r : R) : A * R :=
  match p in prog A return A * R with
  | Ret a => (a, r)
  | Cmd c k => let '(x, r') := redis_run c r in run_prog handler (k x) r'
  | Atomic q k => let '(x, r') := run_prog handler q r in run_prog handler (k x) r'
  | Work t k => run_prog handler (k (handler t)) r
  end.

Lemma run_bind {A B} h (p : prog A) (f : A → prog B) r :
  run_prog h (prog_bind p f) r = let '(a, r') := run_prog h p r in run_prog h (f a) r'.
Proof.
  revert B f r. induction p as [A a|A C c k IH|A C q IHq k IH|A t k IH]; intros B f r; simpl; [done|..].
  - destruct (redis_run c r). apply IH.
  - destruct (run_prog h q r). apply IH.
  - apply IH.
Qed.
End Run.

(** ** What the commands do

    The contents of a server as the client sees it: values, the keys among them
    with a time to live, lists (left end first) and sorted sets. *)

Record contents := mk_contents {
  rv_values : gmap rkey rval;
  rv_volatile : gset rkey;
  rv_listmap : gmap rkey (list rval);
  rv_zsetmap : gmap rkey (gmap string float)
}.

(** A list or sorted set without elements does not exist. *)
Definition rv_lists (v : contents) (k : rkey) : list rval := default [] (rv_listmap v !! k).
Definition rv_zset (v : contents) (k : rkey) : gmap string float := default ∅ (rv_zsetmap v !! k).

Definition upd_list (k : rkey) (l : list rval) (v : contents) : contents :=
  mk_contents (rv_values v) (rv_volatile v)
    (match l with [] => delete k (rv_listmap v) | _ => <[k := l]> (rv_listmap v) end) (rv_zsetmap v).

Definition upd_zset (k : rkey) (z : gmap string float) (v : contents) : contents :=
  mk_contents (rv_values v) (rv_volatile v) (rv_listmap v)
    (if decide (z = ∅) then delete k (rv_zsetmap v) else <[k := z]> (rv_zsetmap v)).

Definition upd_value (k : rkey) (x : rval) (ttl : Z) (v : contents) : contents :=
  mk_contents (<[k := x]> (rv_values v))
    (if 0 <? ttl then {[k]} ∪ rv_volatile v else rv_volatile v ∖ {[k]}) (rv_listmap v) (rv_zsetmap v).

Definition del_value (k : rkey) (v : contents) : contents :=
  mk_contents (delete k (rv_values v)) (rv_volatile v ∖ {[k]}) (rv_listmap v) (rv_zsetmap v).

(** [EXPIRE]: a time to live that is not positive deletes the key. *)
Definition apply_expire (k : rkey) (ttl : Z) (v : contents) : contents :=
  if 0 <? ttl then
    match rv_values v !! k with
    | Some _ => mk_contents (rv_values v) ({[k]} ∪ rv_volatile v) (rv_listmap v) (rv_zsetmap v)
    | None => v
    end
  else upd_zset k ∅ (upd_list k [] (del_value k v)).

Lemma lists_upd_eq k l v : rv_lists (upd_list k l v) k = l.
Proof. unfold rv_lists, upd_list; simpl. destruct l; [by rewrite lookup_delete_eq|by rewrite lookup_insert_eq]. Qed.
Lemma lists_upd_ne k k' l v : k ≠ k' → rv_lists (upd_list k l v) k' = rv_lists v k'.
Proof.
  intros. unfold rv_lists, upd_list; simpl. destruct l; [by rewrite lookup_delete_ne|by rewrite lookup_insert_ne].
Qed.
Lemma zset_upd_eq k z v : rv_zset (upd_zset k z v) k = z.
Proof.
  unfold rv_zset, upd_zset; simpl. case_decide; [subst; by rewrite lookup_delete_eq|by rewrite lookup_insert_eq].
Qed.
Lemma zset_upd_ne k k' z v : k ≠ k' → rv_zset (upd_zset k z v) k' = rv_zset v k'.
Proof.
  intros. unfold rv_zset, upd_zset; simpl. case_decide; [by rewrite lookup_delete_ne|by rewrite lookup_insert_ne].
Qed.
Lemma lists_upd_zset k z v k' : rv_lists (upd_zset k z v) k' = rv_lists v k'.
Proof. done. Qed.
Lemma zset_upd_list k l v k' : rv_zset (upd_list k l v) k' = rv_zset v k'.
Proof. done. Qed.
Lemma upd_list_empty k v : rv_lists v k = [] → rv_listmap v !! k ≠ Some [] → upd_list k [] v = v.
Proof.
  unfold rv_lists, upd_list. intros Hl Hne. destruct v as [vals vol ls zs]; simpl in *. f_equal.
  apply delete_id. destruct (ls !! k) as [[|]|]; done.
Qed.

Lemma lists_upd_value k x ttl v k' : rv_lists (upd_value k x ttl v) k' = rv_lists v k'.
Proof. done. Qed.
Lemma zset_upd_value k x ttl v k' : rv_zset (upd_value k x ttl v) k' = rv_zset v k'.
Proof. done. Qed.
Lemma lists_del_value k v k' : rv_lists (del_value k v) k' = rv_lists v k'.
Proof. done. Qed.
Lemma zset_del_value k v k' : rv_zset (del_value k v) k' = rv_zset v k'.
Proof. done. Qed.

(** Looks up what an update of the contents left. *)
Ltac rv_simpl :=
  repeat first
    [ rewrite lists_upd_value | rewrite lists_del_value | rewrite lists_upd_zset | rewrite lists_upd_eq
    | rewrite lists_upd_ne by congruence | rewrite zset_upd_value | rewrite zset_del_value
    | rewrite zset_upd_list | rewrite zset_upd_eq | rewrite zset_upd_ne by congruence
    | rewrite lookup_insert_eq | rewrite lookup_insert_ne by congruence
    | rewrite lookup_delete_eq | rewrite lookup_delete_ne by congruence ].

Definition zmembers (max_score : float) (z : gmap string float) : list string :=
  (filter (λ p, fle fzero p.2 = true ∧ fle p.2 max_score = true) (map_to_list z)).*1.

(** [effect c v x v']: command [c] on the contents [v] may answer [x] and leave
    [v'].  The order of a scan and of a range is left open, a list index below
    zero is not used. *)
Definition effect {B} (c : rcmd B) : contents → B → contents → Prop :=
  match c in rcmd B return contents → B → contents → Prop with
  | CGet k => λ v x v', x = rv_values v !! k ∧ v' = v
  | CSet k y ttl => λ v _ v', v' = upd_value k y ttl v
  | CSetNx k y => λ v x v',
      match rv_values v !! k with
      | None => x = true ∧ v' = upd_value k y 0 v
      | Some _ => x = false ∧ v' = v
      end
  | CDel k => λ v _ v', v' = upd_zset k ∅ (upd_list k [] (del_value k v))
  | CExists k => λ v x v', x = bool_decide (is_Some (rv_values v !! k)) ∧ v' = v
  | CExpire k ttl => λ v _ v', v' = apply_expire k ttl v
  | CTtl k => λ v n v', v' = v ∧
      match rv_values v !! k with
      | None => n = -2
      | Some _ => if decide (k ∈ rv_volatile v) then 0 <= n else n = -1
      end
  | CScan p => λ v l v', v' = v ∧ l ≡ₚ omap (in_prefix p) (map_to_list (rv_values v)).*1
  | CLpush k y => λ v _ v', v' = upd_list k (y :: rv_lists v k) v
  | CRpop k => λ v x v', x = last (rv_lists v k) ∧ v' = upd_list k (removelast (rv_lists v k)) v
  | CLpop k => λ v x v', x = head (rv_lists v k) ∧ v' = upd_list k (tail (rv_lists v k)) v
  | CLlen k => λ v n v', n = zlen (rv_lists v k) ∧ v' = v
  | CLindex k i => λ v x v', (0 <= i → x = rv_lists v k !! Z.to_nat i) ∧ v' = v
  | CZadd k s m => λ v _ v', v' = upd_zset k (<[m := s]> (rv_zset v k)) v
  | CZrem k m => λ v _ v', v' = upd_zset k (delete m (rv_zset v k)) v
  | CZrange k s => λ v l v', l ≡ₚ zmembers s (rv_zset v k) ∧ v' = v
  | CZcard k => λ v n v', n = Z.of_nat (size (rv_zset v k)) ∧ v' = v
  end.

Class RedisLaws (R : Type) `{!Redis R} := {
  contents_of : R → contents;
  redis_effect {B} (c : rcmd B) (r : R) :
    effect c (contents_of r) (redis_run c r).1 (contents_of (redis_run c r).2)
}.
#[global] Hint Mode RedisLaws ! - : typeclass_instances.

(** The runs of a program on contents that nobody else changes. *)
Fixpoint exec {A} (h : DistributedTask → bool) (p : prog A) : contents → A → contents → Prop :=
  match p in prog A return contents → A → contents → Prop with
  | Ret a => λ v x v', x = a ∧ v' = v
  | Cmd c k => λ v x v', ∃ y v1, effect c v y v1 ∧ exec h (k y) v1 x v'
  | Atomic q k => λ v x v', ∃ y v1, exec h q v y v1 ∧ exec h (k y) v1 x v'
  | Work t k => λ v x v', exec h (k (h t)) v x v'
  end.

Lemma run_exec {R} `{RedisLaws R} {A} h (p : prog A) (r : R) :
  exec h p (contents_of r) (run_prog h p r).1 (contents_of (run_prog h p r).2).
Proof.
  revert r. induction p as [A a|A B c k IH|A B q IHq k IH|A t k IH]; intros r; simpl; [done|..].
  - pose proof (redis_effect c r) as He. destruct (redis_run c r) as [x r']. eauto.
  - specialize (IHq r). destruct (run_prog h q r) as [x r']. eauto.
  - apply IH.
Qed.

Lemma exec_bind {A B} h (p : prog A) (f : A → prog B) v x v' :
  exec h (prog_bind p f) v x v' ↔ ∃ a v1, exec h p v a v1 ∧ exec h (f a) v1 x v'.
Proof.
  revert B f v x v'. induction p as [A a|A C c k IH|A C q IHq k IH|A t k IH]; intros B f v x v'; simpl.
  - split; [eauto|]. by intros (a' & v1 & [-> ->] & H).
  - setoid_rewrite IH. naive_solver.
  - setoid_rewrite IH. naive_solver.
  - apply IH.
Qed.

(** ** Weakest preconditions

    [wp h p Q v]: whatever the commands answer, a run of [p] from [v] ends in a
    result and contents that satisfy [Q].  It computes, so a proof about a
    program is its symbolic execution. *)

Definition cmd_wp {B} (c : rcmd B) : (B → contents → Prop) → contents → Prop :=
  match c in rcmd B return (B → contents → Prop) → contents → Prop with
  | CGet k => λ Q v, Q (rv_values v !! k) v
  | CSet k y ttl => λ Q v, Q tt (upd_value k y ttl v)
  | CSetNx k y => λ Q v,
      match rv_values v !! k with None => Q true (upd_value k y 0 v) | Some _ => Q false v end
  | CDel k => λ Q v, Q tt (upd_zset k ∅ (upd_list k [] (del_value k v)))
  | CExists k => λ Q v, Q (bool_decide (is_Some (rv_values v !! k))) v
  | CExpire k ttl => λ Q v, Q tt (apply_expire k ttl v)
  | CTtl k => λ Q v, ∀ n,
      match rv_values v !! k with
      | None => n = -2
      | Some _ => if decide (k ∈ rv_volatile v) then 0 <= n else n = -1
      end → Q n v
  | CScan p => λ Q v, ∀ l, l ≡ₚ omap (in_prefix p) (map_to_list (rv_values v)).*1 → Q l v
  | CLpush k y => λ Q v, Q tt (upd_list k (y :: rv_lists v k) v)
  | CRpop k => λ Q v, Q (last (rv_lists v k)) (upd_list k (removelast (rv_lists v k)) v)
  | CLpop k => λ Q v, Q (head (rv_lists v k)) (upd_list k (tail (rv_lists v k)) v)
  | CLlen k => λ Q v, Q (zlen (rv_lists v k)) v
  | CLindex k i => λ Q v, ∀ x, (0 <= i → x = rv_lists v k !! Z.to_nat i) → Q x v
  | CZadd k s m => λ Q v, Q tt (upd_zset k (<[m := s]> (rv_zset v k)) v)
  | CZrem k m => λ Q v, Q tt (upd_zset k (delete m (rv_zset v k)) v)
  | CZrange k s => λ Q v, ∀ l, l ≡ₚ zmembers s (rv_zset v k) → Q l v
  | CZcard k => λ Q v, Q (Z.of_nat (size (rv_zset v k))) v
  end.

Fixpoint wp {A} (h : DistributedTask → bool) (p : prog A) : (A → contents → Prop) → contents → Prop :=
  match p in prog A return (A → contents → Prop) → contents → Prop with
  | Ret a => λ Q v, Q a v
  | Cmd c k => λ Q v, cmd_wp c (λ x v', wp h (k x) Q v') v
  | Atomic q k => λ Q v, wp h q (λ x v', wp h (k x) Q v') v
  | Work t k => λ Q v, wp h (k (h t)) Q v
  end.

Lemma cmd_wp_effect {B} (c : rcmd B) Q v x v' : cmd_wp c Q v → effect c v x v' → Q x v'.
Proof.
  destruct c; simpl; try (intros HQ [-> ->]; exact HQ); try (destruct x; intros HQ ->; exact HQ);
    try (intros HQ [? ?]; subst; by apply HQ).
  destruct (rv_values v !! k); intros HQ [-> ->]; exact HQ.
Qed.

Lemma wp_exec {A} h (p : prog A) Q v x v' : wp h p Q v → exec h p v x v' → Q x v'.
Proof.
  revert Q v x v'. induction p as [A a|A B c k IH|A B q IHq k IH|A t k IH]; intros Q v x v'; simpl.
  - by intros HQ [-> ->].
  - intros HQ (y & v1 & He & Hk). eapply IH; [|exact Hk]. by apply (cmd_wp_effect _ _ _ _ _ HQ He).
  - intros HQ (y & v1 & He & Hk). eapply IH; [|exact Hk]. by apply (IHq _ _ _ _ HQ He).
  - apply IH.
Qed.

(** [by_wp H]: it suffices to execute the program of the run [H] symbolically. *)
Ltac by_wp H :=
  match type of H with
  | exec _ _ _ ?x ?v' => pattern x, v'; eapply wp_exec; [|exact H]; clear H
  end.

Lemma cmd_wp_mono {B} (c : rcmd B) (Q Q' : B → contents → Prop) v :
  (∀ x v', Q x v' → Q' x v') → cmd_wp c Q v → cmd_wp c Q' v.
Proof. intros HQ. destruct c; simpl; try (by auto); try (intros H ???; by auto). destruct (rv_values v !! k); auto. Qed.

Lemma wp_mono {A} h (p : prog A) (Q Q' : A → contents → Prop) v :
  (∀ x v', Q x v' → Q' x v') → wp h p Q v → wp h p Q' v.
Proof.
  revert Q Q' v. induction p as [A a|A B c k IH|A B q IHq k IH|A t k IH]; intros Q Q' v HQ; simpl.
  - apply HQ.
  - apply cmd_wp_mono. intros x v'. by apply IH.
  - apply IHq. intros x v'. by apply IH.
  - by apply IH.
Qed.

Lemma wp_bind {A B} h (p : prog A) (f : A → prog B) Q v :
  wp h (prog_bind p f) Q v ↔ wp h p (λ x v', wp h (f x) Q v') v.
Proof.
  revert B f Q v. induction p as [A a|A C c k IH|A C q IHq k IH|A t k IH]; intros B f Q v; simpl; [done| | |].
  - split; apply cmd_wp_mono; intros x v'; apply IH.
  - split; apply wp_mono; intros x v'; apply IH.
  - apply IH.
Qed.

Lemma wp_run {R} `{RedisLaws R} {A} h (p : prog A) Q (r : R) :
  wp h p Q (contents_of r) → Q (run_prog h p r).1 (contents_of (run_prog h p r).2).
Proof. intros HQ. eapply wp_exec; [exact HQ|apply run_exec]. Qed.

(** ** A server in memory

    The contents themselves serve the commands; it shows that the laws can hold
    and makes programs executable. *)

Definition mem_run {B} (c : rcmd B) : contents → B * contents :=
  match c in rcmd B return contents → B * contents with
  | CGet k => λ v, (rv_values v !! k, v)
  | CSet k y ttl => λ v, (tt, upd_value k y ttl v)
  | CSetNx k y => λ v, match rv_values v !! k with None => (true, upd_value k y 0 v) | Some _ => (false, v) end
  | CDel k => λ v, (tt, upd_zset k ∅ (upd_list k [] (del_value k v)))
  | CExists k => λ v, (bool_decide (is_Some (rv_values v !! k)), v)
  | CExpire k ttl => λ v, (tt, apply_expire k ttl v)
  | CTtl k => λ v,
      (match rv_values v !! k with None => -2 | Some _ => if decide (k ∈ rv_volatile v) then 1 else -1 end, v)
  | CScan p => λ v, (omap (in_prefix p) (map_to_list (rv_values v)).*1, v)
  | CLpush k y => λ v, (tt, upd_list k (y :: rv_lists v k) v)
  | CRpop k => λ v, (last (rv_lists v k), upd_list k (removelast (rv_lists v k)) v)
  | CLpop k => λ v, (head (rv_lists v k), upd_list k (tail (rv_lists v k)) v)
  | CLlen k => λ v, (zlen (rv_lists v k), v)
  | CLindex k i => λ v, (rv_lists v k !! Z.to_nat i, v)
  | CZadd k s m => λ v, (tt, upd_zset k (<[m := s]> (rv_zset v k)) v)
  | CZrem k m => λ v, (tt, upd_zset k (delete m (rv_zset v k)) v)
  | CZrange k s => λ v, (zmembers s (rv_zset v k), v)
  | CZcard k => λ v, (Z.of_nat (size (rv_zset v k)), v)
  end.

#[export] Instance mem_redis : Redis contents := λ B, mem_run.

#[export] Instance mem_laws : RedisLaws contents.
Proof.
  refine {| contents_of := λ v, v |}.
  intros B c v. unfold redis_run, mem_redis.
  destruct c; simpl; try done; destruct (rv_values v !! k); try done.
  split; [done|]. case_decide; lia.
Defined.

(** A run of the server in memory is a run. *)
Lemma exec_mem {A} h (p : prog A) (v : contents) : exec h p v (run_prog h p v).1 (run_prog h p v).2.
Proof. exact (run_exec (R := contents) h p v). Qed.

Definition empty_view : contents := mk_contents ∅ ∅ ∅ ∅.

(** A key with a time to live may be gone. *)
Definition expire_key (k : rkey) (v : contents) : contents := del_value k v.

(** ** Keys have different texts *)

Definition key_ids (k : rkey) : string :=
  match k with
  | KTask i | KTaskDelayed i | KLease i | KWorker i | KHeartbeat i | KIdempotency i => i
  | _ => ""
  end.

Lemma str_app_inj (p a b : string) : p +:+ a = p +:+ b → a = b.
Proof. induction p as [|c p IH]; intros H; [done|]. apply IH. by injection H. Qed.

Lemma no_colon_app a b : no_char ":"%char a = true → a ≠ (b ++ ":delayed")%string.
Proof.
  intros Ha ->. induction b as [|c b IH]; [done|].
  change (no_char ":" (String c (b ++ ":delayed")) = true) in Ha. simpl in Ha.
  apply andb_prop in Ha as [_ Ha]. by apply IH.
Qed.

Lemma length_str_app (a b : string) : String.length (a ++ b)%string = (String.length a + String.length b)%nat.
Proof. induction a as [|c a IH]; [done|]. change (S (String.length (a ++ b)%string) = S (String.length a + String.length b)). by rewrite IH. Qed.

Lemma str_app_inj_r (a b t : string) : (a ++ t = b ++ t)%string → a = b.
Proof.
  revert b. induction a as [|c a IH]; intros [|d b] H; [done| | |].
  - apply (f_equal String.length) in H. rewrite !length_str_app in H. simpl in H. lia.
  - apply (f_equal String.length) in H. rewrite !length_str_app in H. simpl in H. lia.
  - change (String c (a ++ t)%string = String d (b ++ t)%string) in H. injection H as -> H. f_equal. by apply IH.
Qed.

(** Different keys have different texts when no id contains a colon. *)
Theorem key_text_inj k k' :
  no_char ":"%char (key_ids k) = true → no_char ":"%char (key_ids k') = true →
  key_text k = key_text k' → k = k'.
Proof.
  intros Hk Hk' H.
  destruct k as [i|i|i|p| | |i|i|i| |], k' as [j|j|j|q| | |j|j|j| |]; simpl in *; try done;
    apply str_app_inj in H; try (by subst).
  - by destruct (no_colon_app _ _ Hk H).
  - by destruct (no_colon_app _ _ Hk' (eq_sym H)).
  - f_equal. by eapply str_app_inj_r.
  - f_equal. unfold str_of_Z in H. by apply (inj pretty) in H.
Qed.

Lemma key_text_inj_witness : KLease "a1" = KLease "a1".
Proof. apply (key_text_inj (KLease "a1") (KLease "a1")); reflexivity. Defined.
