(* ===== verification/DistQueue.v ===== *)
(** * The distributed queue

    [src/app/distributed/distributed_queue.py], the Lua scripts and locks of
    [redis_client.py], [lease.py], [dlq.py] and [idempotency.py], as programs over
    the shared server.  Generated ids and readings of the clock are arguments.
    Every key holds values of one kind, since no other code writes it: a value of
    another kind counts as missing. *)

From Stdlib Require Import ZArith Lia.
From stdpp Require Import base numbers strings gmap list.
From S2P Require Import Prelude PyFloat PyNum PyMath Redis.

Open Scope string_scope.
Open Scope Z_scope.
Open Scope prog_scope.

Definition TASK_TTL : Z := 86400.

(** A Lua script writes its JSON with the library of the server, which rounds
    numbers: what it stores for a task or a lease is a parameter. *)
Class LuaJson := {
  lua_task : DistributedTask → DistributedTask;
  lua_lease : LeaseData → LeaseData
}.

(** Texts survive the library. *)
Class LuaJsonLaws `{!LuaJson} := {
  lua_task_id t : t_task_id (lua_task t) = t_task_id t;
  lua_task_state t : t_state (lua_task t) = t_state t
}.

(** ** Tasks and leases as the queue changes them *)

Definition with_task_state (st : TaskState) (now : float) (t : DistributedTask) : DistributedTask :=
  mk_task (t_task_id t) (t_task_type t) (t_payload t) st (t_priority t) (t_max_retries t) (t_retry_count t)
    (t_timeout t) (t_session_id t) (t_created_at t) now (t_lease_id t) (t_lease_expires_at t) (t_error t)
    (t_idempotency_key t) (t_metadata t).

Definition set_lease (lease_id : string) (expires : float) (t : DistributedTask) : DistributedTask :=
  mk_task (t_task_id t) (t_task_type t) (t_payload t) (t_state t) (t_priority t) (t_max_retries t) (t_retry_count t)
    (t_timeout t) (t_session_id t) (t_created_at t) (t_updated_at t) lease_id expires (t_error t)
    (t_idempotency_key t) (t_metadata t).

Definition count_failure (error : string) (t : DistributedTask) : DistributedTask :=
  mk_task (t_task_id t) (t_task_type t) (t_payload t) (t_state t) (t_priority t) (t_max_retries t)
    (t_retry_count t + 1) (t_timeout t) (t_session_id t) (t_created_at t) (t_updated_at t) (t_lease_id t)
    (t_lease_expires_at t) error (t_idempotency_key t) (t_metadata t).

Definition as_task (v : option rval) : option DistributedTask :=
  match v with Some (VTask t) => Some t | _ => None end.
Definition as_lease (v : option rval) : option LeaseData :=
  match v with Some (VLease l) => Some l | _ => None end.
Definition as_text (v : option rval) : option string :=
  match v with Some (VText s) => Some s | _ => None end.

(** ** [DistributedTaskQueue] *)

Definition get_task (task_id : string) : prog (option DistributedTask) :=
  let! data := command (CGet (KTask task_id)) in Ret (as_task data).

Definition save_task (t : DistributedTask) : prog unit :=
  command (CSet (KTask (t_task_id t)) (VTask t) TASK_TTL).

Definition requeue (task_id : string) (priority : Z) : prog unit :=
  command (CLpush (KQueue priority) (VText task_id)).

Record EnqueueArgs := mk_enqueue {
  e_task_type : string;
  e_payload : string;
  e_priority : Z;
  e_max_retries : Z;
  e_timeout : Z;
  e_idempotency_key : string;
  e_delay : Z;
  e_session_id : string
}.

Definition new_task (task_id : string) (now : float) (a : EnqueueArgs) : DistributedTask :=
  mk_task task_id (e_task_type a) (e_payload a) T_QUEUED (e_priority a) (e_max_retries a) 0 (e_timeout a)
    (e_session_id a) now now "" fzero "" (e_idempotency_key a) "{}".

Definition enqueue (task_id : string) (now : float) (a : EnqueueArgs) : prog DistributedTask :=
  let task := new_task task_id now a in
  do! command (CSet (KTask task_id) (VTask task) TASK_TTL) in
  if 0 <? e_delay a then
    do! command (CZadd KDelayed (fadd now (float_of_Z (e_delay a))) task_id) in
    do! command (CSet (KTaskDelayed task_id) (VText "1") (e_delay a + 60)) in
    Ret task
  else
    do! command (CLpush (KQueue (e_priority a)) (VText task_id)) in
    Ret task.

(** [range(10, -1, -1)] *)
Definition priorities : list Z := [10; 9; 8; 7; 6; 5; 4; 3; 2; 1; 0].

(** What a delivery reads: a new lease id and the clock, twice *)
Record Delivery := mk_delivery { dv_lease_id : string; dv_now1 : float; dv_now2 : float }.

Definition deliver_task (vt : Z) (d : Delivery) (task_id : string) (t : DistributedTask) : prog (option DistributedTask) :=
  let expires := fadd (dv_now1 d) (float_of_Z vt) in
  let task := with_task_state T_RUNNING (dv_now2 d) (set_lease (dv_lease_id d) expires t) in
  do! save_task task in
  do! command (CSet (KLease task_id) (VLease (mk_lease task_id None (dv_lease_id d) None expires None)) (vt + 10)) in
  Ret (Some task).

Fixpoint dequeue_from (vt : Z) (d : Delivery) (ps : list Z) : prog (option DistributedTask) :=
  match ps with
  | [] => Ret None
  | p :: ps' =>
      let! res := command (CRpop (KQueue p)) in
      match as_text res with
      | None => dequeue_from vt d ps'
      | Some task_id =>
          let! task := get_task task_id in
          match task with
          | None => dequeue_from vt d ps'
          | Some t =>
              if decide (t_state t = T_QUEUED) then deliver_task vt d task_id t
              else do! requeue task_id (t_priority t) in dequeue_from vt d ps'
          end
      end
  end.

Definition dequeue (vt : Z) (d : Delivery) : prog (option DistributedTask) := dequeue_from vt d priorities.

Definition ack (task_id : string) (now : float) : prog unit :=
  let! task := get_task task_id in
  match task with
  | Some t =>
      do! save_task (with_task_state T_COMPLETED now t) in command (CDel (KLease task_id))
  | None => command (CDel (KLease task_id))
  end.

(** [min(2**task.retry_count, 60)] *)
Definition retry_delay (retry_count : Z) : Z := Z.min (2 ^ retry_count) 60.

Definition nack (task_id error : string) (again : bool) (now1 now2 : float) : prog unit :=
  let! task := get_task task_id in
  match task with
  | None => Ret tt
  | Some t =>
      let t := set_lease "" fzero (count_failure error t) in
      if again && (t_retry_count t <? t_max_retries t) then
        do! save_task (with_task_state T_RETRYING now1 t) in
        do! command (CZadd KDelayed (fadd now2 (float_of_Z (retry_delay (t_retry_count t)))) task_id) in
        command (CDel (KLease task_id))
      else
        do! save_task (with_task_state T_FAILED now1 t) in
        command (CDel (KLease task_id))
  end.

Record QueueDepth := mk_depth { qd_priorities : list (Z * Z); qd_delayed : Z; qd_running : Z }.

Fixpoint lengths (ps : list Z) : prog (list (Z * Z)) :=
  match ps with
  | [] => Ret []
  | p :: ps' =>
      let! n := command (CLlen (KQueue p)) in
      let! rest := lengths ps' in
      Ret ((p, n) :: rest)
  end.

Definition get_depth : prog QueueDepth :=
  let! counts := lengths priorities in
  let! delayed := command (CZcard KDelayed) in
  let! leases := command (CScan PLease) in
  Ret (mk_depth counts delayed (zlen leases)).

(** One lease of [requeue_expired]; a text that is no JSON is deleted. *)
Definition requeue_one (now : float) (task_id : string) : prog Z :=
  let! data := command (CGet (KLease task_id)) in
  match data with
  | None => Ret 0
  | Some (VLease l) =>
      if flt (l_expires_at l) now then
        let! task := get_task task_id in
        match task with
        | Some t =>
            if decide (t_state t = T_RUNNING) then
              let t := with_task_state T_QUEUED now (set_lease "" fzero t) in
              do! save_task t in
              do! requeue task_id (t_priority t) in
              do! command (CDel (KLease task_id)) in
              Ret 1
            else Ret 0
        | None => Ret 0
        end
      else Ret 0
  | Some _ => do! command (CDel (KLease task_id)) in Ret 0
  end.

Fixpoint sum_progs (l : list (prog Z)) : prog Z :=
  match l with
  | [] => Ret 0
  | p :: l' => let! a := p in let! b := sum_progs l' in Ret (a + b)
  end.

Definition requeue_expired (now : float) : prog Z :=
  let! ids := command (CScan PLease) in
  sum_progs (requeue_one now <$> ids).

(** One member of [ATOMIC_PROCESS_DELAYED_LUA] *)
Definition process_one `{!LuaJson} (now : float) (task_id : string) : prog Z :=
  let! flag := command (CGet (KTaskDelayed task_id)) in
  match flag with
  | Some _ =>
      do! command (CDel (KTaskDelayed task_id)) in
      do! command (CZrem KDelayed task_id) in
      let! task := get_task task_id in
      match task with
      | Some t =>
          if decide (t_state t = T_QUEUED ∨ t_state t = T_RETRYING) then
            do! command (CSet (KTask task_id) (VTask (lua_task (with_task_state T_QUEUED now t))) TASK_TTL) in
            do! command (CLpush (KQueue (t_priority t)) (VText task_id)) in
            Ret 1
          else Ret 0
      | None => Ret 0
      end
  | None => do! command (CZrem KDelayed task_id) in Ret 0
  end.

Definition process_delayed_script `{!LuaJson} (now : float) : prog Z :=
  let! tasks := command (CZrange KDelayed now) in
  sum_progs (process_one now <$> tasks).

Definition process_delayed `{!LuaJson} (now : float) : prog Z := script (process_delayed_script now).

Definition move_to_dlq (task_id error : string) (now : float) : prog unit :=
  let! task := get_task task_id in
  match task with
  | None => Ret tt
  | Some t =>
      let entry := mk_dlq task_id t (str_or error (t_error t)) (t_retry_count t) None now in
      do! command (CLpush KDlq (VDlq entry)) in
      do! command (CDel (KTask task_id)) in
      command (CDel (KLease task_id))
  end.

(** [list_dlq] takes the entries off the list and puts them back. *)
Fixpoint take_entries (n : nat) : prog (list DLQEntry) :=
  match n with
  | O => Ret []
  | S n' =>
      let! entry := command (CLpop KDlq) in
      match entry with
      | None => Ret []
      | Some (VDlq e) => let! rest := take_entries n' in Ret (e :: rest)
      | Some _ => take_entries n'
      end
  end.

Fixpoint put_back (entries : list DLQEntry) : prog unit :=
  match entries with
  | [] => Ret tt
  | e :: rest => do! put_back rest in command (CLpush KDlq (VDlq e))
  end.

Definition list_dlq (limit : Z) : prog (list DLQEntry) :=
  let! entries := take_entries (Z.to_nat limit) in
  do! put_back entries in
  Ret entries.

(** [ATOMIC_DEQUEUE_LUA] for one queue; [lease_id] is the text [task_id_now]. *)
Definition dequeue_script `{!LuaJson} (priority : Z) (now : float) (lease_id : string → string) (vt lease_ttl : Z)
    : prog (option DistributedTask) :=
  let! res := command (CRpop (KQueue priority)) in
  match as_text res with
  | None => Ret None
  | Some task_id =>
      let! task := get_task task_id in
      match task with
      | None => Ret None
      | Some t =>
          if decide (t_state t = T_QUEUED) then
            let expires := fadd now (float_of_Z vt) in
            let t := with_task_state T_RUNNING now (set_lease (lease_id task_id) expires t) in
            do! command (CSet (KTask task_id) (VTask (lua_task t)) TASK_TTL) in
            do! command (CSet (KLease task_id)
                  (VLease (lua_lease (mk_lease task_id None (lease_id task_id) None expires None))) lease_ttl) in
            Ret (Some (lua_task t))
          else
            do! command (CLpush (KQueue priority) (VText task_id)) in
            Ret None
      end
  end.

Definition atomic_dequeue `{!LuaJson} (priority : Z) (now : float) (lease_id : string → string) (vt lease_ttl : Z)
    : prog (option DistributedTask) := script (dequeue_script priority now lease_id vt lease_ttl).

(** ** Locks *)

Definition acquire_lock_script (lock : rkey) (owner : string) (ttl : Z) : prog bool :=
  let! acquired := command (CSetNx lock (VText owner)) in
  if acquired : bool then do! command (CExpire lock ttl) in Ret true
  else
    let! current_ttl := command (CTtl lock) in
    if current_ttl <? 0 then
      do! command (CDel lock) in
      let! again := command (CSetNx lock (VText owner)) in
      if again : bool then do! command (CExpire lock ttl) in Ret true else Ret false
    else Ret false.

Definition owns (current : option rval) (owner : string) : bool :=
  match current with Some (VText o) => bool_decide (o = owner) | _ => false end.

Definition release_lock_script (lock : rkey) (owner : string) : prog bool :=
  let! current := command (CGet lock) in
  if owns current owner then do! command (CDel lock) in Ret true else Ret false.

Definition renew_lock_script (lock : rkey) (owner : string) (ttl : Z) : prog bool :=
  let! current := command (CGet lock) in
  if owns current owner then do! command (CExpire lock ttl) in Ret true else Ret false.

Definition redis_acquire_lock (lock : rkey) (owner : string) (ttl : Z) : prog bool := script (acquire_lock_script lock owner ttl).
Definition redis_release_lock (lock : rkey) (owner : string) : prog bool := script (release_lock_script lock owner).
Definition redis_renew_lock (lock : rkey) (owner : string) (ttl : Z) : prog bool := script (renew_lock_script lock owner ttl).

(** ** [LeaseManager] *)

(** [timeout if timeout > 0 else self._default_timeout] *)
Definition lease_timeout (default_timeout timeout : float) : float :=
  if fle timeout fzero then default_timeout else timeout.

Definition int_of (f : float) : Z := default 0 (ftrunc f).

Definition acquire_lease_script (task_id : string) (l : LeaseData) (timeout : Z) (now : float) : prog bool :=
  let! existing := command (CGet (KLease task_id)) in
  match as_lease existing with
  | None => do! command (CSet (KLease task_id) (VLease l) (timeout + 10)) in Ret true
  | Some el =>
      if flt (l_expires_at el) now then
        do! command (CDel (KLease task_id)) in
        do! command (CSet (KLease task_id) (VLease l) (timeout + 10)) in
        Ret true
      else Ret false
  end.

Definition acquire_lease (dflt : float) (task_id worker_id lease_id : string) (timeout now : float) : prog (option LeaseData) :=
  let timeout := lease_timeout dflt timeout in
  let lease := mk_lease task_id (Some worker_id) lease_id (Some now) (fadd now timeout) (Some timeout) in
  let! acquired := script (acquire_lease_script task_id lease (int_of timeout + 10) now) in
  Ret (if acquired : bool then Some lease else None).

Definition release_lease (task_id worker_id : string) : prog bool :=
  let! existing := command (CGet (KLease task_id)) in
  match as_lease existing with
  | None => Ret false
  | Some l =>
      if truthy worker_id && negb (bool_decide (l_worker_id l = Some worker_id)) then Ret false
      else do! command (CDel (KLease task_id)) in Ret true
  end.

Definition renew_lease (dflt : float) (task_id worker_id : string) (timeout now : float) : prog bool :=
  let timeout := lease_timeout dflt timeout in
  let! existing := command (CGet (KLease task_id)) in
  match as_lease existing with
  | None => Ret false
  | Some l =>
      if negb (bool_decide (l_worker_id l = Some worker_id)) then Ret false
      else
        let l' := mk_lease (l_task_id l) (l_worker_id l) (l_lease_id l) (l_acquired_at l) (fadd now timeout) (l_timeout l) in
        do! command (CSet (KLease task_id) (VLease l') (int_of timeout + 10)) in
        Ret true
  end.

Definition lease_is_expired (task_id : string) (now : float) : prog bool :=
  let! existing := command (CGet (KLease task_id)) in
  Ret (match as_lease existing with None => true | Some l => flt (l_expires_at l) now end).

(** [LeaseInfo(data)]: a lease without a worker raises [TypeError]. *)
Definition lease_info (l : LeaseData) : result string LeaseData :=
  match l_worker_id l with Some _ => Ok l | None => Err "missing argument: worker_id" end.

Definition get_lease (task_id : string) : prog (result string (option LeaseData)) :=
  let! existing := command (CGet (KLease task_id)) in
  Ret (match as_lease existing with
       | None => Ok None
       | Some l => match lease_info l with Ok l => Ok (Some l) | Err e => Err e end
       end).

Fixpoint active_leases (ids : list string) (now : float) : prog (result string (list LeaseData)) :=
  match ids with
  | [] => Ret (Ok [])
  | i :: ids' =>
      let! data := command (CGet (KLease i)) in
      match as_lease data with
      | Some l =>
          if flt now (l_expires_at l) then
            match lease_info l with
            | Err e => Ret (Err e)
            | Ok l => let! rest := active_leases ids' now in
                      Ret (match rest with Ok ls => Ok (l :: ls) | Err e => Err e end)
            end
          else active_leases ids' now
      | None => active_leases ids' now
      end
  end.

Definition get_active_leases (now : float) : prog (result string (list LeaseData)) :=
  let! ids := command (CScan PLease) in active_leases ids now.

Definition release_expired_one (now : float) (task_id : string) : prog Z :=
  let! data := command (CGet (KLease task_id)) in
  match as_lease data with
  | Some l => if flt (l_expires_at l) now then do! command (CDel (KLease task_id)) in Ret 1 else Ret 0
  | None => Ret 0
  end.

Definition release_expired (now : float) : prog Z :=
  let! ids := command (CScan PLease) in sum_progs (release_expired_one now <$> ids).

(** ** [DeadLetterQueue] *)

Definition dlq_push (max_entries : Z) (t : DistributedTask) (error worker_id : string) (now : float) : prog unit :=
  let entry := mk_dlq (t_task_id t) t (str_or error (t_error t)) (t_retry_count t) (Some worker_id) now in
  do! command (CLpush KDlq (VDlq entry)) in
  let! length := command (CLlen KDlq) in
  if max_entries <? length then do! command (CRpop KDlq) in Ret tt else Ret tt.

Fixpoint dlq_list_from (n : nat) (i : Z) : prog (list DLQEntry) :=
  match n with
  | O => Ret []
  | S n' =>
      let! entry := command (CLindex KDlq i) in
      match entry with
      | None => Ret []
      | Some (VDlq e) => let! rest := dlq_list_from n' (i + 1) in Ret (e :: rest)
      | Some _ => dlq_list_from n' (i + 1)
      end
  end.

Definition dlq_list_entries (limit offset : Z) : prog (list DLQEntry) := dlq_list_from (Z.to_nat limit) offset.

Definition dlq_pop_entry : prog (option DLQEntry) :=
  let! entry := command (CRpop KDlq) in
  Ret (match entry with Some (VDlq e) => Some e | _ => None end).

Definition dlq_requeue_entry (e : DLQEntry) (task_id : string) (now : float) : prog DistributedTask :=
  let t := dl_original_task e in
  enqueue task_id now
    (mk_enqueue (t_task_type t) (t_payload t) (t_priority t) (t_max_retries t) (t_timeout t) (t_idempotency_key t) 0 "").

Definition dlq_clear : prog unit := command (CDel KDlq).
Definition dlq_count : prog Z := command (CLlen KDlq).

(** ** [IdempotencyGuard] *)

Definition is_duplicate (key : string) : prog bool :=
  if negb (truthy key) then Ret false else command (CExists (KIdempotency key)).

Definition mark_processed (ttl : Z) (key res : string) (now : float) : prog unit :=
  if negb (truthy key) then Ret tt else command (CSet (KIdempotency key) (VProcessed now res) ttl).

Definition get_result (key : string) : prog (option rval) :=
  if negb (truthy key) then Ret None else command (CGet (KIdempotency key)).

Definition try_process_script (ttl : Z) (key now : string) : prog bool :=
  let! acquired := command (CSetNx (KIdempotency key) (VText now)) in
  if acquired : bool then do! command (CExpire (KIdempotency key) ttl) in Ret true else Ret false.

(** [now] is the text of the clock reading. *)
Definition try_process (ttl : Z) (key now : string) : prog bool :=
  if negb (truthy key) then Ret true else script (try_process_script ttl key now).

Definition release_key (key : string) : prog unit :=
  if truthy key then command (CDel (KIdempotency key)) else Ret tt.
(** ** A worker: what a process does with the task it dequeues

    [process_one]: the handler runs and the task is acknowledged, or the
    exception of the [try] block rejects it.  [announced] tells whether the
    publication of [task.completed] succeeds; when it raises, the task, which is
    acknowledged already, is rejected as well.  A publication of [task.started]
    that raises leaves the process, which is a process that stops. *)

Definition worker (vt : Z) (d : Delivery) (announced : bool) (now1 now2 : float) : prog unit :=
  let! task := dequeue vt d in
  match task with
  | None => Ret tt
  | Some t =>
      Work t (λ ok : bool,
        if ok then
          do! ack (t_task_id t) now1 in
          if announced then Ret tt else nack (t_task_id t) "not announced" true now1 now2
        else nack (t_task_id t) "failed" true now1 now2)
  end.
