(* ===== verification/DistSpec.v ===== *)
(** * The distributed queue, run by run

    What each operation does to the contents of the server when nobody
    interferes ([exec]; by [run_exec] every run of a program against a server that
    obeys [RedisLaws] is such a run), and what is lost on the way. *)

From Stdlib Require Import ZArith Lia.
From stdpp Require Import base numbers strings gmap list.
From S2P Require Import Prelude PyFloat PyNum PyMath Redis DistQueue.

Open Scope string_scope.
Open Scope Z_scope.

Module DistSpec.

Section Exec.
Context (h : DistributedTask → bool).
Abbreviation exec := (exec h).

(** ** Locks refine an owner variable *)

Definition lock_holder (k : rkey) (v : contents) : option string := as_text (rv_values v !! k).

(** A held lock names its owner and has a time to live. *)
Definition lock_ok (k : rkey) (v : contents) : Prop :=
  match rv_values v !! k with
  | None => True
  | Some x => (∃ o, x = VText o) ∧ k ∈ rv_volatile v
  end.

Inductive LockOp := LAcquire (owner : string) | LRelease (owner : string) | LRenew (owner : string).

Definition lock_prog (k : rkey) (ttl : Z) (o : LockOp) : prog bool :=
  match o with
  | LAcquire w => redis_acquire_lock k w ttl
  | LRelease w => redis_release_lock k w
  | LRenew w => redis_renew_lock k w ttl
  end.

Definition lock_spec (o : LockOp) (holder : option string) : bool * option string :=
  match o, holder with
  | LAcquire w, None => (true, Some w)
  | LAcquire w, Some _ => (false, holder)
  | LRelease w, _ => if bool_decide (holder = Some w) then (true, None) else (false, holder)
  | LRenew w, _ => (bool_decide (holder = Some w), holder)
  end.

Lemma expire_positive k ttl v x :
  0 < ttl → rv_values v !! k = Some x →
  apply_expire k ttl v = mk_contents (rv_values v) ({[k]} ∪ rv_volatile v) (rv_listmap v) (rv_zsetmap v).
Proof. intros Ht Hx. unfold apply_expire. by rewrite (proj2 (Z.ltb_lt _ _) Ht), Hx. Qed.

(** (C21) The lock scripts, with a positive time to live, implement a variable that
    holds the owner, or nobody: an acquisition succeeds exactly when nobody
    holds the lock (not even the caller), a release and a renewal exactly when
    the caller does; a held lock always has a time to live.  No other value
    changes.  (The contents are those between two expirations: a lock that has
    expired is held by nobody.) *)
Theorem lock_refines k ttl o v b v' :
  0 < ttl → lock_ok k v → exec (lock_prog k ttl o) v b v' →
  lock_spec o (lock_holder k v) = (b, lock_holder k v') ∧ lock_ok k v' ∧
  ∀ k', k' ≠ k → rv_values v' !! k' = rv_values v !! k'.
Proof.
  intros Ht Hok H. by_wp H. unfold lock_ok, lock_holder in *.
  destruct o as [w|w|w]; simpl; destruct (rv_values v !! k) as [x|] eqn:Ex; simpl.
  - destruct Hok as [[o ->] Hv]. intros n. destruct (decide (k ∈ rv_volatile v)); [|done]. intros Hn.
    rewrite (proj2 (Z.ltb_ge _ _)) by done. simpl. rewrite Ex. simpl. by eauto.
  - erewrite expire_positive by (simpl; by rewrite ?lookup_insert_eq). simpl. rewrite lookup_insert_eq. simpl.
    split; [done|]. split; [set_solver|]. intros k' Hk'. by rewrite lookup_insert_ne.
  - destruct Hok as [[o ->] Hv]. simpl. repeat case_bool_decide; simplify_eq; simpl.
    + rewrite lookup_delete_eq. split; [done|]. split; [done|]. intros. by rewrite lookup_delete_ne.
    + rewrite Ex. simpl. by eauto.
  - rewrite Ex. by split_and!.
  - destruct Hok as [[o ->] Hv]. simpl. repeat case_bool_decide; simplify_eq; simpl;
      rewrite ?(expire_positive k ttl v _ Ht Ex); simpl; rewrite ?Ex; simpl;
      (split; [done|]); (split; [|done]); (split; [by eauto|set_solver]).
  - rewrite Ex. by split_and!.
Qed.

(** A renewal with a time to live that is not positive releases the lock, and
    reports that it was renewed. *)
Theorem renew_without_ttl_releases k ttl w v b v' :
  ttl <= 0 → lock_holder k v = Some w → lock_ok k v → exec (lock_prog k ttl (LRenew w)) v b v' →
  b = true ∧ lock_holder k v' = None.
Proof.
  intros Ht Hw Hok H. by_wp H. unfold lock_ok, lock_holder in *. simpl.
  destruct (rv_values v !! k) as [x|] eqn:Ex; [|done]. destruct Hok as [[o ->] _]. injection Hw as ->. simpl.
  rewrite bool_decide_eq_true_2 by done. simpl. unfold apply_expire. rewrite (proj2 (Z.ltb_ge _ _)) by done.
  simpl. by rewrite lookup_delete_eq.
Qed.

(** ** Delivery *)

(** Task [id] waits: it is stored and queued. *)
Definition ready (v : contents) (id : string) (t : DistributedTask) : Prop :=
  rv_values v !! KTask id = Some (VTask t) ∧ t_state t = T_QUEUED.

(** The queues hold waiting tasks only. *)
Definition clean (v : contents) : Prop :=
  (∀ k, rv_listmap v !! k ≠ Some []) ∧
  ∀ p x, x ∈ rv_lists v (KQueue p) → ∃ id t, x = VText id ∧ ready v id t.

Definition delivered (vt : Z) (d : Delivery) (t : DistributedTask) : DistributedTask :=
  with_task_state T_RUNNING (dv_now2 d) (set_lease (dv_lease_id d) (fadd (dv_now1 d) (float_of_Z vt)) t).

Definition lease_of (vt : Z) (d : Delivery) (id : string) : LeaseData :=
  mk_lease id None (dv_lease_id d) None (fadd (dv_now1 d) (float_of_Z vt)) None.

Definition busy (v : contents) (p : Z) : bool := match rv_lists v (KQueue p) with [] => false | _ => true end.

(** What a dequeue leaves behind. *)
Definition after_delivery (vt : Z) (d : Delivery) (p : Z) (l : list rval) (id : string) (t : DistributedTask)
    (v : contents) : contents :=
  upd_value (KLease id) (VLease (lease_of vt d id)) (vt + 10)
    (upd_value (KTask (t_task_id t)) (VTask (delivered vt d t)) TASK_TTL (upd_list (KQueue p) l v)).

Lemma dequeue_from_spec vt d ps v :
  clean v →
  wp h (dequeue_from vt d ps) (λ res v',
    match List.find (busy v) ps with
    | None => res = None ∧ v' = v
    | Some p => ∃ l id t, rv_lists v (KQueue p) = (l ++ [VText id])%list ∧ ready v id t ∧
        res = Some (delivered vt d t) ∧ v' = after_delivery vt d p l id t v
    end) v.
Proof.
  intros [Hcan Hc]. induction ps as [|p ps IH]; [done|].
  simpl. unfold busy at 1. destruct (rv_lists v (KQueue p)) as [|y l0] eqn:El.
  - simpl. rewrite upd_list_empty by done. exact IH.
  - destruct (exists_last (l := y :: l0)) as (l & x & Hx); [done|]. rewrite Hx in *.
    rewrite last_snoc, removelast_last.
    destruct (Hc p x) as (id & t & -> & Ht & Hs); [rewrite El; apply elem_of_app; right; left|].
    simpl. rewrite Ht. simpl. rewrite decide_True by done. simpl. exists l, id, t. done.
Qed.

(** A dequeue on queues of waiting tasks takes the oldest task of the highest
    priority from 10 down to 0 that has one: it becomes running under a new
    lease, and the rest stays; without one, nothing happens. *)
Theorem dequeue_highest_oldest vt d v res v' :
  clean v → exec (dequeue vt d) v res v' →
  match List.find (busy v) priorities with
  | None => res = None ∧ v' = v
  | Some p => ∃ l id t, rv_lists v (KQueue p) = (l ++ [VText id])%list ∧ ready v id t ∧
      res = Some (delivered vt d t) ∧ v' = after_delivery vt d p l id t v
  end.
Proof. intros Hc H. by_wp H. by apply dequeue_from_spec. Qed.

(** A task enqueued with a priority outside 0 to 10 waits for ever: a dequeue
    never looks at its queue. *)
Lemma dequeue_from_frame vt d ps p v :
  p ∉ ps → (∀ id t, rv_values v !! KTask id = Some (VTask t) → t_priority t ≠ p) →
  wp h (dequeue_from vt d ps) (λ _ v', rv_lists v' (KQueue p) = rv_lists v (KQueue p)) v.
Proof.
  revert v. induction ps as [|q ps IH]; intros v Hp Hpr; [done|].
  apply not_elem_of_cons in Hp as [Hne Hp].
  assert (∀ v1, rv_values v1 = rv_values v → rv_lists v1 (KQueue p) = rv_lists v (KQueue p) →
    wp h (dequeue_from vt d ps) (λ _ v', rv_lists v' (KQueue p) = rv_lists v (KQueue p)) v1) as Hgo.
  { intros v1 Hv <-. apply IH; [done|]. by rewrite Hv. }
  simpl. destruct (as_text _) as [id|]; [|apply Hgo; [done|by rv_simpl]].
  simpl. destruct (rv_values v !! KTask id) as [[| t | | | | |]|] eqn:Et; simpl; try (apply Hgo; [done|by rv_simpl]).
  case_decide; simpl.
  - change (rv_lists (upd_list (KQueue q) (removelast (rv_lists v (KQueue q))) v) (KQueue p) = rv_lists v (KQueue p)).
    by rv_simpl.
  - apply Hgo; [done|]. rewrite lists_upd_ne; [by rv_simpl|]. intros [= Heq]. by apply (Hpr id t).
Qed.

(** ** Leases *)

(** Somebody holds the task at [now]. *)
Definition leased (v : contents) (id : string) (now : float) : bool :=
  match as_lease (rv_values v !! KLease id) with Some l => negb (flt (l_expires_at l) now) | None => false end.

(** An acquisition succeeds exactly when nobody holds the task, and then the
    caller does; a lease stays in the server 20 seconds longer than it lasts. *)
Lemma acquire_lease_spec dflt id w lid timeout now v r v' :
  exec (acquire_lease dflt id w lid timeout now) v r v' →
  let d := lease_timeout dflt timeout in
  let l := mk_lease id (Some w) lid (Some now) (fadd now d) (Some d) in
  if leased v id now then r = None ∧ v' = v
  else r = Some l ∧ rv_values v' !! KLease id = Some (VLease l) ∧
    (∀ k, k ≠ KLease id → rv_values v' !! k = rv_values v !! k).
Proof.
  intros H. by_wp H. unfold acquire_lease, acquire_lease_script, leased. simpl.
  destruct (as_lease (rv_values v !! KLease id)) as [l|]; simpl; [destruct (flt _ _); simpl|]; [|done|].
  all: split; [done|]; split; [by rv_simpl|]; intros k Hk; by rv_simpl.
Qed.

(** The lease a dequeue writes names no worker: the lease manager can neither
    renew nor read it. *)
Lemma queue_lease_unusable vt d id dflt w timeout now v b v' res v'' :
  rv_values v !! KLease id = Some (VLease (lease_of vt d id)) →
  exec (renew_lease dflt id w timeout now) v b v' → exec (get_lease id) v res v'' →
  b = false ∧ v' = v ∧ res = Err "missing argument: worker_id".
Proof.
  intros Hl H1 H2.
  assert (b = false ∧ v' = v) as [-> ->].
  { by_wp H1. unfold renew_lease. simpl. by rewrite Hl. }
  split_and!; [done..|]. by_wp H2. simpl. by rewrite Hl.
Qed.

(** ** Dead letters *)

Definition dead_letters (v : contents) (l : list DLQEntry) : Prop := rv_lists v KDlq = VDlq <$> l.

Lemma upd_list_twice k l l' v : upd_list k l (upd_list k l' v) = upd_list k l v.
Proof.
  unfold upd_list. simpl. f_equal.
  destruct l as [|x l], l' as [|y l'];
    by rewrite ?delete_delete_eq, ?delete_insert_eq, ?insert_delete_eq, ?insert_insert_eq.
Qed.

Lemma upd_list_same k l v : rv_lists v k = l → rv_listmap v !! k ≠ Some [] → upd_list k l v = v.
Proof.
  intros <- Hne. unfold rv_lists in *. destruct v as [vals vol ls zs]; simpl in *. unfold upd_list; simpl. f_equal.
  destruct (ls !! k) as [l|] eqn:E; simpl; [|by rewrite delete_id]. destruct l; [done|]. by rewrite insert_id.
Qed.

Lemma take_entries_spec n l v Q :
  dead_letters v l → rv_listmap v !! KDlq ≠ Some [] →
  (Q (take n l) (upd_list KDlq (VDlq <$> drop n l) v)) → wp h (take_entries n) Q v.
Proof.
  revert l v Q. induction n as [|n IH]; intros l v Q Hl Hne HQ; simpl.
  - rewrite upd_list_same in HQ by done. done.
  - unfold dead_letters in Hl. rewrite Hl. destruct l as [|e l]; simpl in *.
    + by destruct (upd_list KDlq [] v).
    + rewrite wp_bind. apply IH with (l := l).
      * unfold dead_letters. by rv_simpl.
      * unfold upd_list; simpl. destruct l; simpl; [by rewrite lookup_delete_eq|by rewrite lookup_insert_eq].
      * simpl. by rewrite upd_list_twice.
Qed.

Lemma put_back_spec es l v Q :
  dead_letters v l → rv_listmap v !! KDlq ≠ Some [] →
  Q tt (upd_list KDlq (VDlq <$> (es ++ l)%list) v) → wp h (put_back es) Q v.
Proof.
  revert Q. induction es as [|e es IH]; intros Q Hl Hne HQ; simpl.
  - rewrite upd_list_same in HQ by done. done.
  - rewrite wp_bind. apply IH; [done..|]. simpl. rewrite lists_upd_eq, upd_list_twice. done.
Qed.

(** Listing the dead letters returns the first of them and leaves the queue as
    it was, though it takes the entries off the list and puts them back. *)
Theorem list_dlq_restores limit l v res v' :
  dead_letters v l → rv_listmap v !! KDlq ≠ Some [] →
  exec (list_dlq limit) v res v' → res = take (Z.to_nat limit) l ∧ v' = v.
Proof.
  intros Hl Hne H. by_wp H. unfold list_dlq. rewrite wp_bind. apply take_entries_spec with (l := l); [done..|].
  rewrite wp_bind. apply put_back_spec with (l := drop (Z.to_nat limit) l).
  - unfold dead_letters. by rv_simpl.
  - unfold upd_list; simpl. destruct (drop _ l); simpl; [by rewrite lookup_delete_eq|by rewrite lookup_insert_eq].
  - simpl. rewrite upd_list_twice, take_drop, upd_list_same by done. done.
Qed.

(** A push keeps the queue within its bound: the oldest entry makes place. *)
Lemma dlq_push_bounded n t error w now l v u v' :
  1 <= n → dead_letters v l → zlen l <= n → exec (dlq_push n t error w now) v u v' →
  ∃ e l', dead_letters v' (e :: l') ∧ dl_task_id e = t_task_id t ∧ zlen (e :: l') <= n ∧
    l' = if zlen l =? n then removelast l else l.
Proof.
  intros Hn Hl Hlen H. by_wp H. unfold dlq_push. simpl. unfold dead_letters in Hl.
  set (e := mk_dlq _ _ _ _ _ _). rewrite lists_upd_eq, Hl.
  replace (zlen (VDlq e :: (VDlq <$> l))) with (1 + zlen l).
  2: { unfold zlen. simpl. rewrite length_fmap. lia. }
  destruct (n <? 1 + zlen l) eqn:E; simpl; exists e.
  - apply Z.ltb_lt in E. exists (removelast l). unfold dead_letters. rv_simpl.
    assert (zlen l = n) as Hz by lia. rewrite (proj2 (Z.eqb_eq _ _) Hz).
    destruct (exists_last (l := l)) as (l0 & x & ->); [intros ->; unfold zlen in *; simpl in *; lia|].
    rewrite removelast_last. split; [|split; [done|split; [|done]]].
    + rewrite fmap_app. exact (removelast_last (VDlq e :: (VDlq <$> l0)) (VDlq x)).
    + unfold zlen in *. simpl. rewrite length_app in Hz. simpl in Hz. lia.
  - apply Z.ltb_ge in E. exists l. unfold dead_letters. rv_simpl.
    rewrite (proj2 (Z.eqb_neq _ _)) by lia. split_and!; try done.
    unfold zlen in *. simpl. lia.
Qed.

(** ** Idempotency *)

(** A key is claimed at most once until it is released. *)
Lemma try_process_once ttl key now v b v' :
  0 < ttl → truthy key = true → exec (try_process ttl key now) v b v' →
  b = bool_decide (rv_values v !! KIdempotency key = None) ∧ is_Some (rv_values v' !! KIdempotency key).
Proof.
  intros Ht Hk H. by_wp H. unfold try_process. rewrite Hk. simpl.
  destruct (rv_values v !! KIdempotency key) as [x|] eqn:Ex; simpl.
  - by split.
  - erewrite expire_positive by (simpl; by rewrite ?lookup_insert_eq). simpl.
    rewrite lookup_insert_eq. by split.
Qed.

(** ** Failures *)

(** A failed task is retried or has failed for good; the lease goes. *)
Lemma nack_spec id error again now1 now2 t v u v' :
  rv_values v !! KTask id = Some (VTask t) → t_task_id t = id →
  exec (nack id error again now1 now2) v u v' →
  let t' := set_lease "" fzero (count_failure error t) in
  let retry := again && (t_retry_count t + 1 <? t_max_retries t) in
  rv_values v' !! KTask id = Some (VTask (with_task_state (if retry then T_RETRYING else T_FAILED) now1 t')) ∧
  rv_values v' !! KLease id = None ∧
  rv_zset v' KDelayed =
    (if retry then <[id := fadd now2 (float_of_Z (retry_delay (t_retry_count t + 1)))]> (rv_zset v KDelayed)
     else rv_zset v KDelayed) ∧
  (∀ p, rv_lists v' (KQueue p) = rv_lists v (KQueue p)).
Proof.
  intros Ht Hid H. by_wp H. unfold nack. simpl. rewrite Ht. simpl. rewrite Hid.
  destruct (again && _) eqn:E; simpl; rv_simpl; split_and!; try done; intros p; by rv_simpl.
Qed.

(** An expired lease of a running task: the task is queued again. *)
Lemma requeue_one_spec now id v n v' :
  exec (requeue_one now id) v n v' →
  match as_lease (rv_values v !! KLease id), as_task (rv_values v !! KTask id) with
  | Some l, Some t =>
      if flt (l_expires_at l) now && bool_decide (t_state t = T_RUNNING) then
        n = 1 ∧ rv_lists v' (KQueue (t_priority t)) = VText id :: rv_lists v (KQueue (t_priority t)) ∧
        rv_values v' !! KLease id = None ∧
        (t_task_id t = id → rv_values v' !! KTask id = Some (VTask (with_task_state T_QUEUED now (set_lease "" fzero t))))
      else n = 0 ∧ v' = v
  | Some _, None => n = 0 ∧ v' = v
  | None, _ => n = 0
  end.
Proof.
  intros H. by_wp H. unfold requeue_one. simpl.
  destruct (rv_values v !! KLease id) as [[| |l| | | |]|] eqn:El; simpl; try done.
  destruct (flt (l_expires_at l) now); simpl.
  2: { by destruct (as_task (rv_values v !! KTask id)). }
  destruct (as_task (rv_values v !! KTask id)) as [t|]; simpl; [|done].
  destruct (decide (t_state t = T_RUNNING)) as [Hr|Hr]; [rewrite bool_decide_true by done|by rewrite bool_decide_false].
  simpl. split; [done|]. split; [by rv_simpl|]. split; [by rv_simpl|]. intros ->. by rv_simpl.
Qed.

(** A due task that still waits joins its queue; one whose flag is gone, a
    scheduled retry among them, leaves the set and is in no queue. *)
Lemma process_one_spec `{!LuaJson} now id v n v' :
  exec (process_one now id) v n v' →
  rv_zset v' KDelayed = delete id (rv_zset v KDelayed) ∧
  match rv_values v !! KTaskDelayed id, as_task (rv_values v !! KTask id) with
  | Some _, Some t =>
      if decide (t_state t = T_QUEUED ∨ t_state t = T_RETRYING) then
        n = 1 ∧ rv_lists v' (KQueue (t_priority t)) = VText id :: rv_lists v (KQueue (t_priority t)) ∧
        rv_values v' !! KTask id = Some (VTask (lua_task (with_task_state T_QUEUED now t)))
      else n = 0 ∧ ∀ p, rv_lists v' (KQueue p) = rv_lists v (KQueue p)
  | _, _ => n = 0 ∧ ∀ p, rv_lists v' (KQueue p) = rv_lists v (KQueue p)
  end.
Proof.
  intros Hx. by_wp Hx. unfold process_one. simpl.
  destruct (rv_values v !! KTaskDelayed id) as [x|] eqn:Ef; simpl.
  2: { rv_simpl. by split. }
  rewrite lookup_delete_ne by done.
  destruct (as_task (rv_values v !! KTask id)) as [t|] eqn:Et; simpl.
  - destruct (decide (t_state t = T_QUEUED ∨ t_state t = T_RETRYING)); simpl; rv_simpl; split_and!; try done.
    intros p. by rv_simpl.
  - split; [by rv_simpl|]. split; [done|]. intros p. by rv_simpl.
Qed.
End Exec.

(** ** Concrete runs *)

Lemma lock_refines_witness :
  let r := run_prog (λ _, true) (lock_prog KSchedulerLock 10 (LAcquire "s1")) empty_view in
  r.1 = true ∧ lock_spec (LAcquire "s1") (lock_holder KSchedulerLock empty_view) = (r.1, lock_holder KSchedulerLock r.2).
Proof.
  intros r. split; [reflexivity|].
  refine (proj1 (lock_refines (λ _, true) KSchedulerLock 10 (LAcquire "s1") empty_view r.1 r.2 eq_refl _ (exec_mem _ _ _))).
  exact I.
Defined.

Definition demo_task (id : string) : DistributedTask :=
  new_task id fone (mk_enqueue "generate" "{}" 5 3 300 "" 0 "").

Definition demo_view : contents :=
  mk_contents (<[KTask "a1" := VTask (demo_task "a1")]> {[ KTask "a2" := VTask (demo_task "a2") ]}) ∅
    {[ KQueue 5 := [VText "a2"; VText "a1"] ]} ∅.

Lemma demo_clean : clean demo_view.
Proof.
  split.
  - intros k. simpl. intros [_ H]%lookup_singleton_Some. done.
  - intros p x. unfold rv_lists. simpl. destruct (decide (p = 5)) as [->|Hp].
    + rewrite lookup_singleton_eq. simpl. intros Hx. apply elem_of_cons in Hx as [->|Hx].
      * exists "a2", (demo_task "a2"). by vm_compute.
      * apply list_elem_of_singleton in Hx as ->. exists "a1", (demo_task "a1"). by vm_compute.
    + rewrite lookup_singleton_ne by congruence. by intros ?%elem_of_nil.
Qed.

Lemma dequeue_highest_oldest_witness :
  let r := run_prog (λ _, true) (dequeue 60 (mk_delivery "l1" fone fone)) demo_view in
  t_task_id <$> r.1 = Some "a1" ∧
  ∃ l id t, rv_lists demo_view (KQueue 5) = (l ++ [VText id])%list ∧ ready demo_view id t ∧
    r.1 = Some (delivered 60 (mk_delivery "l1" fone fone) t).
Proof.
  intros r. split; [vm_compute; reflexivity|].
  destruct (dequeue_highest_oldest (λ _, true) 60 (mk_delivery "l1" fone fone) demo_view r.1 r.2 demo_clean (exec_mem _ _ _))
    as (l & id & t & Hl & Hr & Hd & _).
  exists l, id, t. split; [exact Hl|]. split; [exact Hr|exact Hd].
Defined.

Lemma list_dlq_restores_witness :
  let e := mk_dlq "a1" (demo_task "a1") "boom" 3 None fone in
  let v := mk_contents ∅ ∅ {[ KDlq := [VDlq e] ]} ∅ in
  let r := run_prog (λ _, true) (list_dlq 50) v in
  r.1 = [e] ∧ r.2 = v.
Proof.
  intros e v r.
  refine (list_dlq_restores (λ _, true) 50 [e] v r.1 r.2 _ _ (exec_mem _ _ _)); [reflexivity|discriminate].
Defined.
End DistSpec.
