(* ===== verification/DistConc.v ===== *)
(** * Processes that share the queue

    Enqueuers, workers and the mover of delayed tasks are programs over one
    server; their commands interleave, keys expire, and a process may stop
    anywhere.  The server's contents and the processes satisfy an ownership
    discipline ([safe]): every task is at one place of its life ([phase]), and
    only its owner moves it on.  Two consequences: no two processes work on the
    same task, and no task is ever worked on again.  With the reaper of expired
    leases among the processes, the first fails. *)

From Stdlib Require Import ZArith Lia.
From stdpp Require Import base numbers strings gmap functions list relations.
From S2P Require Import Prelude PyFloat PyNum PyMath Redis DistQueue.

Open Scope string_scope.
Open Scope Z_scope.
Open Scope prog_scope.

Module DistConc.

(** ** Configurations and steps *)

Record config := mk_config {
  c_view : contents;
  c_used : gset string;      (** task ids generated so far *)
  c_done : list string;      (** tasks whose handler ended, latest first *)
  c_procs : list (prog unit)
}.

(** One command, or one script, of a process *)
Definition pstep {A} (p : prog A) : contents → prog A → contents → Prop :=
  match p in prog A return contents → prog A → contents → Prop with
  | Ret _ => λ _ _ _, False
  | Cmd c k => λ v q v', ∃ x, effect c v x v' ∧ q = k x
  | Atomic r k => λ v q v', ∃ x, exec (λ _, true) r v x v' ∧ q = k x
  | Work _ _ => λ _ _ _, False
  end.

(** The task a process works on *)
Definition working {A} (p : prog A) : option DistributedTask :=
  match p with Work t _ => Some t | _ => None end.

(** The handler ends, well or not. *)
Definition finish {A} (p : prog A) (ok : bool) : prog A :=
  match p with Work _ k => k ok | q => q end.

Definition ignore {A} (p : prog A) : prog unit := let! _ := p in Ret tt.

Inductive step (client : prog unit → Prop) : config → config → Prop :=
| step_run v u d ps1 p ps2 q v' :
    pstep p v q v' → step client (mk_config v u d (ps1 ++ p :: ps2)) (mk_config v' u d (ps1 ++ q :: ps2))
| step_work v u d ps1 p ps2 t ok :
    working p = Some t →
    step client (mk_config v u d (ps1 ++ p :: ps2)) (mk_config v u (t_task_id t :: d) (ps1 ++ finish p ok :: ps2))
| step_stop v u d ps1 p ps2 :
    step client (mk_config v u d (ps1 ++ p :: ps2)) (mk_config v u d (ps1 ++ ps2))
| step_enqueue v u d ps id now a :
    id ∉ u → step client (mk_config v u d ps) (mk_config v ({[id]} ∪ u) d (ignore (enqueue id now a) :: ps))
| step_start v u d ps p :
    client p → step client (mk_config v u d ps) (mk_config v u d (p :: ps))
| step_expire v u d ps k :
    k ∈ rv_volatile v → step client (mk_config v u d ps) (mk_config (expire_key k v) u d ps).

Definition initial : config := mk_config empty_view ∅ [] [].
Definition reachable (client : prog unit → Prop) : config → Prop := rtc (step client) initial.

(** The programs of the application besides [enqueue] *)
Inductive deployed `{!LuaJson} : prog unit → Prop :=
| dep_worker vt d announced now1 now2 : deployed (worker vt d announced now1 now2)
| dep_delayed now : deployed (ignore (process_delayed now))
| dep_depth : deployed (ignore get_depth)
| dep_to_dlq id error now : deployed (move_to_dlq id error now)
| dep_lease dflt id w lid timeout now : deployed (ignore (acquire_lease dflt id w lid timeout now))
| dep_renew dflt id w timeout now : deployed (ignore (renew_lease dflt id w timeout now))
| dep_release id w : deployed (ignore (release_lease id w)).

(** ** The life of a task *)

Inductive phase :=
| PUnused            (** its id was not generated yet *)
| PNew               (** being enqueued *)
| PFlag              (** delayed, its flag not set yet *)
| PWait              (** delayed *)
| PQueued (p : Z)    (** in the queue of a priority *)
| POwned             (** taken by a worker *)
| PDone.             (** its handler ended *)

Inductive right := RNone | RNew (id : string) | RFlag (id : string) | ROwn (id : string) | RRetry (id : string).

Definition right_id (r : right) : option string :=
  match r with RNone => None | RNew i | RFlag i | ROwn i | RRetry i => Some i end.

Definition right_ok (ph : string → phase) (r : right) : Prop :=
  match r with
  | RNone => True
  | RNew i => ph i = PNew
  | RFlag i => ph i = PFlag
  | ROwn i => ph i = POwned
  | RRetry i => ph i = PDone
  end.

Definition may_wait (x : phase) : Prop := x = PFlag ∨ x = PWait ∨ x = PDone.

(** The contents agree with the phases. *)
Record placed (v : contents) (ph : string → phase) : Prop := {
  pl_task i t : rv_values v !! KTask i = Some (VTask t) → t_task_id t = i;
  pl_nodup p : NoDup (rv_lists v (KQueue p));
  pl_queued p i : VText i ∈ rv_lists v (KQueue p) → ph i = PQueued p;
  pl_flag i : is_Some (rv_values v !! KTaskDelayed i) → ph i = PWait;
  pl_delayed i : is_Some (rv_zset v KDelayed !! i) → may_wait (ph i)
}.

(** ** The discipline *)

Definition popped_right (x : option rval) : right := match as_text x with Some i => ROwn i | None => RNone end.

(** What a command requires of its caller's right, and the right it leaves *)
Definition cmd_safe {B} (c : rcmd B) (r : right) : (right → B → Prop) → Prop :=
  match c in rcmd B return (right → B → Prop) → Prop with
  | CGet k => λ Q, ∀ x, match k with KTask i => ∀ t, x = Some (VTask t) → t_task_id t = i | _ => True end → Q r x
  | CSet k y _ => λ Q,
      match k with
      | KTask i => (∀ t, y = VTask t → t_task_id t = i) ∧ Q r tt
      | KTaskDelayed i => r = RFlag i ∧ Q RNone tt
      | _ => Q r tt
      end
  | CSetNx k _ => λ Q, match k with KTask _ | KTaskDelayed _ => False | _ => ∀ b, Q r b end
  | CLpush k y => λ Q,
      match k, y with
      | KQueue _, VText i => (r = RNew i ∨ r = ROwn i) ∧ Q RNone tt
      | KQueue _, _ => False
      | _, _ => Q r tt
      end
  | CRpop k => λ Q, match k with KQueue _ => ∀ x, Q (popped_right x) x | _ => ∀ x, Q r x end
  | CZadd k _ i => λ Q,
      match k with
      | KDelayed => (r = RNew i ∧ Q (RFlag i) tt) ∨ (r = RRetry i ∧ Q RNone tt)
      | _ => Q r tt
      end
  | CDel _ => λ Q, Q r tt
  | CExpire _ _ => λ Q, Q r tt
  | CZrem _ _ => λ Q, Q r tt
  | CExists _ => λ Q, ∀ x, Q r x
  | CTtl _ => λ Q, ∀ x, Q r x
  | CScan _ => λ Q, ∀ x, Q r x
  | CLpop _ => λ Q, ∀ x, Q r x
  | CLlen _ => λ Q, ∀ x, Q r x
  | CLindex _ _ => λ Q, ∀ x, Q r x
  | CZrange _ _ => λ Q, ∀ x, Q r x
  | CZcard _ => λ Q, ∀ x, Q r x
  end.

(** A script moves waiting tasks to a queue, if any. *)
Definition script_safe {B} (q : prog B) (Q : B → Prop) : Prop :=
  ∀ v ph, placed v ph →
    wp (λ _, true) q (λ x v', Q x ∧ ∃ ph', placed v' ph' ∧
      ∀ i, ph' i = ph i ∨ (ph i = PWait ∧ ∃ p, ph' i = PQueued p)) v.

Fixpoint safe {A} (p : prog A) (r : right) (Q : right → A → Prop) : Prop :=
  match p in prog A return (right → A → Prop) → Prop with
  | Ret a => λ Q, Q r a
  | Cmd c k => λ Q, cmd_safe c r (λ r' x, safe (k x) r' Q)
  | Atomic q k => λ Q, script_safe q (λ x, safe (k x) r Q)
  | Work t k => λ Q, r = ROwn (t_task_id t) ∧ ∀ ok, safe (k ok) (RRetry (t_task_id t)) Q
  end Q.

Lemma cmd_safe_mono {B} (c : rcmd B) r (Q Q' : right → B → Prop) :
  (∀ r x, Q r x → Q' r x) → cmd_safe c r Q → cmd_safe c r Q'.
Proof.
  intros HQ. destruct c; simpl; try (destruct k; try destruct v); naive_solver.
Qed.

Lemma safe_mono {A} (p : prog A) r (Q Q' : right → A → Prop) :
  (∀ r x, Q r x → Q' r x) → safe p r Q → safe p r Q'.
Proof.
  revert r Q Q'. induction p as [A a|A B c k IH|A B q _ k IH|A t k IH]; intros r Q Q' HQ; simpl.
  - apply HQ.
  - apply cmd_safe_mono. intros r' x. by apply IH.
  - intros H v ph Hp. eapply wp_mono, (H v ph Hp). intros x v' [Hx ?]. split; [|done]. by eapply IH.
  - intros [? H]. split; [done|]. intros ok. by eapply IH.
Qed.

Lemma safe_bind {A B} (p : prog A) (f : A → prog B) r Q :
  safe p r (λ r' x, safe (f x) r' Q) → safe (prog_bind p f) r Q.
Proof.
  revert B f r Q. induction p as [A a|A C c k IH|A C q _ k IH|A t k IH]; intros B f r Q; simpl; [done|..].
  - apply cmd_safe_mono. intros r' x. apply IH.
  - intros H v ph Hp. eapply wp_mono, (H v ph Hp). intros x v' [Hx ?]. split; [|done]. by apply IH.
  - intros [? H]. split; [done|]. intros ok. by apply IH.
Qed.

(** ** A command keeps the discipline *)

(** What a step may do to the phases, seen from outside *)
Record moves (r r' : right) (ph ph' : string → phase) : Prop := {
  mv_right : right_ok ph' r';
  mv_frame i : ph' i = ph i ∨ (∃ p, ph i = PQueued p) ∨ ph i = PWait ∨ right_id r = Some i;
  mv_id i : right_id r' = Some i → right_id r = Some i ∨ ∃ p, ph i = PQueued p;
  mv_unused i : ph i = PUnused → ph' i = PUnused;
  mv_done i : ph i = PDone → ph' i = PDone
}.

Lemma moves_refl r ph : right_ok ph r → moves r r ph ph.
Proof. intros. split; auto. Qed.

(** *** Updates of the contents *)

(** Only values of other kinds change, or a value of the right shape is written. *)
Lemma placed_values v ph vals vol :
  placed v ph →
  (∀ i t, vals !! KTask i = Some (VTask t) → t_task_id t = i) →
  (∀ i, is_Some (vals !! KTaskDelayed i) → ph i = PWait) →
  placed (mk_contents vals vol (rv_listmap v) (rv_zsetmap v)) ph.
Proof. intros [] Ht Hf. by split. Qed.

Lemma placed_del_value k v ph : placed v ph → placed (del_value k v) ph.
Proof.
  intros Hp. apply placed_values; [done|..]; intros i.
  - intros t [_ H]%lookup_delete_Some. by apply (pl_task _ _ Hp).
  - intros [x [_ H]%lookup_delete_Some]. apply (pl_flag _ _ Hp). by eexists.
Qed.

Lemma placed_set_value k y ttl v ph :
  placed v ph →
  (∀ i t, k = KTask i → y = VTask t → t_task_id t = i) → (∀ i, k = KTaskDelayed i → ph i = PWait) →
  placed (upd_value k y ttl v) ph.
Proof.
  intros Hp Ht Hf. apply placed_values; [done|..]; intros i.
  - intros t [[-> ->]|[_ H]]%lookup_insert_Some; [by eapply Ht|]. by apply (pl_task _ _ Hp).
  - intros [x [[-> ->]|[_ H]]%lookup_insert_Some]; [by apply Hf|]. apply (pl_flag _ _ Hp). by eexists.
Qed.

Lemma placed_list_sub k l v ph : placed v ph → l `sublist_of` rv_lists v k → placed (upd_list k l v) ph.
Proof.
  intros Hp Hl.
  assert (∀ k', rv_lists (upd_list k l v) k' `sublist_of` rv_lists v k') as Hsub.
  { intros k'. destruct (decide (k = k')) as [->|]; [by rewrite lists_upd_eq|by rewrite lists_upd_ne]. }
  split; [apply (pl_task _ _ Hp)| | |apply (pl_flag _ _ Hp)|apply (pl_delayed _ _ Hp)].
  - intros p. eapply sublist_NoDup; [apply (pl_nodup _ _ Hp)|apply Hsub].
  - intros p i Hi. eapply (pl_queued _ _ Hp), elem_of_sublist; [exact Hi|apply Hsub].
Qed.

Lemma placed_list_other k l v ph : (∀ p, k ≠ KQueue p) → placed v ph → placed (upd_list k l v) ph.
Proof.
  intros Hk Hp. assert (∀ p, rv_lists (upd_list k l v) (KQueue p) = rv_lists v (KQueue p)) as Hl.
  { intros p. by apply lists_upd_ne. }
  split; [apply (pl_task _ _ Hp)| | |apply (pl_flag _ _ Hp)|apply (pl_delayed _ _ Hp)].
  - intros p. rewrite Hl. apply (pl_nodup _ _ Hp).
  - intros p i. rewrite Hl. apply (pl_queued _ _ Hp).
Qed.

Lemma placed_zset k z v ph :
  placed v ph → (k = KDelayed → ∀ i, is_Some (z !! i) → may_wait (ph i)) → placed (upd_zset k z v) ph.
Proof.
  intros Hp Hz. split; [apply (pl_task _ _ Hp)|apply (pl_nodup _ _ Hp)|apply (pl_queued _ _ Hp)|apply (pl_flag _ _ Hp)|].
  intros i Hi. destruct (decide (k = KDelayed)) as [->|Hk].
  - rewrite zset_upd_eq in Hi. by apply Hz.
  - rewrite zset_upd_ne in Hi by done. by apply (pl_delayed _ _ Hp).
Qed.

Lemma placed_zset_sub k z v ph : placed v ph → z ⊆ rv_zset v k → placed (upd_zset k z v) ph.
Proof.
  intros Hp Hz. apply placed_zset; [done|]. intros -> i [x Hx]. apply (pl_delayed _ _ Hp). exists x.
  by eapply lookup_weaken.
Qed.

(** The phase of a task that is in no place may change. *)
Lemma placed_phase i x v ph :
  placed v ph → (∀ p, VText i ∉ rv_lists v (KQueue p)) → rv_values v !! KTaskDelayed i = None →
  rv_zset v KDelayed !! i = None ∨ may_wait x → placed v (<[i := x]> ph).
Proof.
  intros Hp Hq Hf Hd. split; [apply (pl_task _ _ Hp)|apply (pl_nodup _ _ Hp)|..]; intros.
  - rewrite fn_lookup_insert_ne; [by apply (pl_queued _ _ Hp)|]. intros ->. by eapply Hq.
  - rewrite fn_lookup_insert_ne; [by apply (pl_flag _ _ Hp)|]. intros ->. rewrite Hf in H. by destruct H.
  - destruct (decide (i = i0)) as [->|Hne].
    + rewrite fn_lookup_insert. destruct Hd as [Hd|]; [|done]. rewrite Hd in H. by destruct H.
    + rewrite fn_lookup_insert_ne by done. by apply (pl_delayed _ _ Hp).
Qed.

(** Where a task can be, by its phase *)
Lemma not_queued v ph i : placed v ph → (∀ p, ph i ≠ PQueued p) → ∀ p, VText i ∉ rv_lists v (KQueue p).
Proof. intros Hp Hi p Hin. by eapply Hi, (pl_queued _ _ Hp). Qed.
Lemma not_flagged v ph i : placed v ph → ph i ≠ PWait → rv_values v !! KTaskDelayed i = None.
Proof. intros Hp Hi. apply eq_None_not_Some. intros H. by apply Hi, (pl_flag _ _ Hp). Qed.
Lemma not_delayed v ph i : placed v ph → ¬ may_wait (ph i) → rv_zset v KDelayed !! i = None.
Proof. intros Hp Hi. apply eq_None_not_Some. intros H. by apply Hi, (pl_delayed _ _ Hp). Qed.

Lemma placed_push i p v ph :
  placed v ph → ph i = PNew ∨ ph i = POwned ∨ (ph i = PWait ∧ rv_values v !! KTaskDelayed i = None ∧ rv_zset v KDelayed !! i = None) →
  placed (upd_list (KQueue p) (VText i :: rv_lists v (KQueue p)) v) (<[i := PQueued p]> ph).
Proof.
  intros Hp Hi.
  assert (∀ q, VText i ∉ rv_lists v (KQueue q)) as Hq.
  { apply (not_queued _ _ _ Hp). intros q Hq. rewrite Hq in Hi. naive_solver. }
  assert (placed v (<[i := PQueued p]> ph)) as Hp'.
  { destruct Hi as [Hi|[Hi|(Hi & Hf & Hz)]]; apply placed_phase; auto.
    all: try (apply (not_flagged _ _ _ Hp); rewrite Hi; congruence).
    all: left; apply (not_delayed _ _ _ Hp); rewrite Hi; by intros [|[|]]. }
  split; [apply (pl_task _ _ Hp')| | |apply (pl_flag _ _ Hp')|apply (pl_delayed _ _ Hp')].
  - intros q. destruct (decide (p = q)) as [->|Hne].
    + rewrite lists_upd_eq. constructor; [apply Hq|apply (pl_nodup _ _ Hp)].
    + rewrite lists_upd_ne by congruence. apply (pl_nodup _ _ Hp).
  - intros q j. destruct (decide (p = q)) as [->|Hne].
    + rewrite lists_upd_eq. intros [[= ->]|Hj]%elem_of_cons; [by rewrite fn_lookup_insert|].
      by apply (pl_queued _ _ Hp').
    + rewrite lists_upd_ne by congruence. apply (pl_queued _ _ Hp').
Qed.

Lemma removelast_sublist {A} (l : list A) : removelast l `sublist_of` l.
Proof.
  induction l as [|a [|b l] IH]; simpl; [done|by apply sublist_nil_l|]. by apply sublist_skip.
Qed.

Lemma last_not_in_removelast {A} (l : list A) x : NoDup l → last l = Some x → x ∉ removelast l.
Proof.
  intros Hnd Hl. destruct (exists_last (l := l)) as (l0 & y & ->); [by intros ->|].
  rewrite last_snoc in Hl. injection Hl as ->. rewrite removelast_last.
  apply NoDup_app in Hnd as (_ & Hd & _). intros Hx. eapply Hd; [done|]. by left.
Qed.

Lemma placed_pop p i v ph :
  placed v ph → last (rv_lists v (KQueue p)) = Some (VText i) →
  ph i = PQueued p ∧
  placed (upd_list (KQueue p) (removelast (rv_lists v (KQueue p))) v) (<[i := POwned]> ph).
Proof.
  intros Hp Hl.
  assert (ph i = PQueued p) as Hi.
  { apply (pl_queued _ _ Hp). by apply last_Some_elem_of. }
  split; [done|].
  assert (placed (upd_list (KQueue p) (removelast (rv_lists v (KQueue p))) v) ph) as Hp'.
  { apply placed_list_sub; [done|apply removelast_sublist]. }
  apply placed_phase; [done|..].
  - intros q. destruct (decide (p = q)) as [->|Hne].
    + rewrite lists_upd_eq. apply last_not_in_removelast; [apply (pl_nodup _ _ Hp)|done].
    + rewrite lists_upd_ne by congruence. intros Hq%(pl_queued _ _ Hp). congruence.
  - apply (not_flagged _ _ _ Hp'). congruence.
  - left. apply (not_delayed _ _ _ Hp'). rewrite Hi. by intros [|[|]].
Qed.

(** *** Commands and scripts *)

(** The effects that leave phases and rights alone *)
Lemma sound_stay {B} (Q : right → B → Prop) r x v' ph :
  Q r x → placed v' ph → right_ok ph r → ∃ r' ph', Q r' x ∧ placed v' ph' ∧ moves r r' ph ph'.
Proof. intros. exists r, ph. split_and!; [done..|]. by apply moves_refl. Qed.

(** A right that is given up *)
Lemma moves_drop r ph : right_ok ph r → moves r RNone ph ph.
Proof. intros. split; simpl; auto. by intros. Qed.

Lemma moves_insert r r' i x ph :
  right_id r = Some i → ph i ≠ PUnused → ph i ≠ PDone →
  right_ok (<[i := x]> ph) r' → (∀ j, right_id r' = Some j → j = i) →
  moves r r' ph (<[i := x]> ph).
Proof.
  intros Hr Hu Hd Hok Hid. split; [done|..]; intros j.
  - destruct (decide (i = j)) as [->|]; [auto|]. left. by rewrite fn_lookup_insert_ne.
  - intros ->%Hid. by left.
  - intros Hj. rewrite fn_lookup_insert_ne; [done|congruence].
  - intros Hj. rewrite fn_lookup_insert_ne; [done|congruence].
Qed.

Lemma sound_push p i r Q v ph :
  placed v ph → right_ok ph r → r = RNew i ∨ r = ROwn i → Q RNone tt →
  ∃ r' ph', Q r' tt ∧ placed (upd_list (KQueue p) (VText i :: rv_lists v (KQueue p)) v) ph' ∧ moves r r' ph ph'.
Proof.
  intros Hp Hok Hr HQ. exists RNone, (<[i := PQueued p]> ph). split; [done|].
  destruct Hr as [-> | ->]; simpl in Hok.
  all: split; [apply placed_push; auto|]; apply moves_insert; simpl; first [done|congruence].
Qed.

Lemma sound_pop p r Q v ph :
  placed v ph → (∀ x, Q (popped_right x) x) →
  ∃ r' ph', Q r' (last (rv_lists v (KQueue p))) ∧
    placed (upd_list (KQueue p) (removelast (rv_lists v (KQueue p))) v) ph' ∧ moves r r' ph ph'.
Proof.
  intros Hp HQ.
  destruct (last (rv_lists v (KQueue p))) as [x|] eqn:El; [destruct (as_text (Some x)) as [i|] eqn:Ei|].
  - destruct x; try done. injection Ei as ->. destruct (placed_pop _ _ _ _ Hp El) as [Hi Hp'].
    exists (ROwn i), (<[i := POwned]> ph). split; [exact (HQ (Some (VText i)))|]. split; [done|].
    split; simpl; [by rewrite fn_lookup_insert|..]; intros j.
    + destruct (decide (i = j)) as [->|]; [eauto|]. left. by rewrite fn_lookup_insert_ne.
    + intros [= <-]. eauto.
    + intros Hj. rewrite fn_lookup_insert_ne; [done|congruence].
    + intros Hj. rewrite fn_lookup_insert_ne; [done|congruence].
  - exists RNone, ph. split; [|split; [apply placed_list_sub; [done|apply removelast_sublist]|by split; simpl; auto]].
    specialize (HQ (Some x)). unfold popped_right in HQ. by rewrite Ei in HQ.
  - exists RNone, ph. split; [exact (HQ None)|split; [apply placed_list_sub; [done|apply removelast_sublist]|by split; simpl; auto]].
Qed.

Lemma sound_delay i s r Q v ph :
  placed v ph → right_ok ph r → (r = RNew i ∧ Q (RFlag i) tt) ∨ (r = RRetry i ∧ Q RNone tt) →
  ∃ r' ph', Q r' tt ∧ placed (upd_zset KDelayed (<[i := s]> (rv_zset v KDelayed)) v) ph' ∧ moves r r' ph ph'.
Proof.
  intros Hp Hok [[-> HQ]|[-> HQ]]; simpl in Hok.
  - exists (RFlag i), (<[i := PFlag]> ph). split; [done|]. split.
    + assert (placed v (<[i := PFlag]> ph)) as Hp'.
      { apply placed_phase; [done|apply (not_queued _ _ _ Hp)|apply (not_flagged _ _ _ Hp)|right; by left]; congruence. }
      apply placed_zset; [done|]. intros _ j [x [[-> _]|[_ Hj]]%lookup_insert_Some].
      * rewrite fn_lookup_insert. by left.
      * apply (pl_delayed _ _ Hp'). by eexists.
    + apply moves_insert; simpl; rewrite ?fn_lookup_insert; first [done|congruence].
  - exists RNone, ph. split; [done|]. split; [|by apply moves_drop].
    apply placed_zset; [done|]. intros _ j [x [[-> _]|[_ Hj]]%lookup_insert_Some].
    + right. by right.
    + apply (pl_delayed _ _ Hp). by eexists.
Qed.

Lemma sound_flag i y ttl r Q v ph :
  placed v ph → right_ok ph r → r = RFlag i → Q RNone tt →
  ∃ r' ph', Q r' tt ∧ placed (upd_value (KTaskDelayed i) y ttl v) ph' ∧ moves r r' ph ph'.
Proof.
  intros Hp Hok -> HQ. simpl in Hok. exists RNone, (<[i := PWait]> ph). split; [done|]. split.
  - apply placed_set_value; [|done|].
    + apply placed_phase; [done|apply (not_queued _ _ _ Hp)|apply (not_flagged _ _ _ Hp)|right; right; by left]; congruence.
    + intros j [= <-]. by rewrite fn_lookup_insert.
  - apply moves_insert; simpl; first [done|congruence].
Qed.

Lemma placed_del k v ph : placed v ph → placed (upd_zset k ∅ (upd_list k [] (del_value k v))) ph.
Proof.
  intros Hp. apply placed_zset_sub; [|apply map_empty_subseteq].
  apply placed_list_sub; [by apply placed_del_value|apply sublist_nil_l].
Qed.

Lemma cmd_sound {B} (c : rcmd B) r Q v ph x v' :
  placed v ph → right_ok ph r → cmd_safe c r Q → effect c v x v' →
  ∃ r' ph', Q r' x ∧ placed v' ph' ∧ moves r r' ph ph'.
Proof.
  intros Hp Hok. destruct c as [k|k y ttl|k y|k|k|k ttl|k|pr|k y|k|k|k|k i|k s m|k m|k s|k]; simpl.
  - intros HQ [-> ->]. apply sound_stay; [|done..]. apply HQ. destruct k; auto. intros t. apply (pl_task _ _ Hp).
  - intros HQ ->. destruct x. destruct k; try (apply sound_stay; [done|by apply placed_set_value|done]).
    + destruct HQ as [Ht HQ]. apply sound_stay; [done| |done]. apply placed_set_value; [done| |done].
      intros j t [= <-]. apply Ht.
    + destruct HQ. by apply sound_flag.
  - intros HQ. destruct (rv_values v !! k); intros [-> ->]; destruct k; try done;
      (apply sound_stay; [apply HQ| |done]); by try apply placed_set_value.
  - intros HQ ->. destruct x. apply sound_stay; [done| |done]. by apply placed_del.
  - intros HQ [-> ->]. by apply sound_stay.
  - intros HQ ->. destruct x. apply sound_stay; [done| |done]. unfold apply_expire.
    destruct (0 <? ttl); [|by apply placed_del]. destruct (rv_values v !! k); [|done].
    apply placed_values; [done|apply (pl_task _ _ Hp)|apply (pl_flag _ _ Hp)].
  - intros HQ [-> _]. by apply sound_stay.
  - intros HQ [-> _]. by apply sound_stay.
  - intros HQ ->. destruct x. destruct k; try (apply sound_stay; [done|by apply placed_list_other|done]).
    destruct y; try done. destruct HQ. by apply sound_push.
  - intros HQ [-> ->]. destruct k; try (apply sound_stay; [done|by apply placed_list_other|done]).
    by apply sound_pop.
  - intros HQ [-> ->]. apply sound_stay; [done| |done]. apply placed_list_sub; [done|].
    destruct (rv_lists v k); [done|]. by apply sublist_cons.
  - intros HQ [-> ->]. by apply sound_stay.
  - intros HQ [_ ->]. by apply sound_stay.
  - intros HQ ->. destruct x. destruct k; try (apply sound_stay; [done|by apply placed_zset|done]).
    by apply sound_delay.
  - intros HQ ->. destruct x. apply sound_stay; [done| |done]. apply placed_zset_sub; [done|apply delete_subseteq].
  - intros HQ [_ ->]. by apply sound_stay.
  - intros HQ [-> ->]. by apply sound_stay.
Qed.

(** A step of a program that keeps the discipline *)
Lemma safe_step {A} (p : prog A) r Q v ph q v' :
  placed v ph → right_ok ph r → safe p r Q → pstep p v q v' →
  ∃ r' ph', safe q r' Q ∧ placed v' ph' ∧ moves r r' ph ph'.
Proof.
  intros Hp Hok. destruct p as [A a|A B c k|A B s k|A t k]; simpl; [done|..|done].
  - intros Hs (x & He & ->). by eapply (cmd_sound c r (λ r' x, safe (k x) r' Q)).
  - intros Hs (x & He & ->). destruct (wp_exec _ _ _ _ _ _ (Hs v ph Hp) He) as (Hk & ph' & Hp' & Hph).
    exists r, ph'. split; [done|]. split; [done|].
    split.
    + destruct r as [|i|i|i|i]; simpl in *; [done|..]; destruct (Hph i) as [->|[? _]]; congruence.
    + intros i. destruct (Hph i) as [?|[? _]]; auto.
    + auto.
    + intros i Hi. destruct (Hph i) as [->|[? _]]; congruence.
    + intros i Hi. destruct (Hph i) as [->|[? _]]; congruence.
Qed.

(** ** The programs keep it *)

Section Programs.
Context `{LuaJsonLaws}.

(** *** The mover of delayed tasks *)

Definition queues (ph ph' : string → phase) : Prop :=
  ∀ i, ph' i = ph i ∨ (ph i = PWait ∧ ∃ p, ph' i = PQueued p).

#[local] Instance queues_preorder : PreOrder queues.
Proof.
  split; [intros ph i; auto|]. intros ph1 ph2 ph3 H1 H2 i.
  destruct (H1 i) as [E1|[W [p P]]], (H2 i) as [E2|[W' ?]]; rewrite ?E1, ?E2 in *; auto; congruence.
Qed.

Lemma process_one_placed h now i v ph :
  placed v ph → wp h (process_one now i) (λ _ v', ∃ ph', placed v' ph' ∧ queues ph ph') v.
Proof.
  intros Hp. simpl. destruct (rv_values v !! KTaskDelayed i) as [x|] eqn:Ef; simpl.
  2: { exists ph. split; [|done]. apply placed_zset_sub; [done|apply delete_subseteq]. }
  assert (ph i = PWait) as Hi by (apply (pl_flag _ _ Hp); by rewrite Ef).
  set (v1 := upd_zset (KTaskDelayed i) ∅ (upd_list (KTaskDelayed i) [] (del_value (KTaskDelayed i) v))).
  set (v2 := upd_zset KDelayed (delete i (rv_zset v1 KDelayed)) v1).
  assert (placed v2 ph) as Hp2.
  { apply placed_zset_sub; [by apply placed_del|apply delete_subseteq]. }
  assert (rv_values v2 !! KTaskDelayed i = None) as Hf2 by (unfold v2, v1; simpl; by rewrite lookup_delete_eq).
  assert (rv_zset v2 KDelayed !! i = None) as Hz2 by (unfold v2; rewrite zset_upd_eq; by rewrite lookup_delete_eq).
  change (delete (KTaskDelayed i) (rv_values v)) with (rv_values v2).
  destruct (rv_values v2 !! KTask i) as [[|t| | | | |]|] eqn:Et; simpl; try (by exists ph).
  case_decide; simpl; [|by exists ph].
  assert (placed (upd_value (KTask i) (VTask (lua_task (with_task_state T_QUEUED now t))) TASK_TTL v2) ph) as Hp3.
  { apply placed_set_value; [done| |done]. intros j t' [= <-] [= <-]. rewrite lua_task_id. simpl. by apply (pl_task _ _ Hp2). }
  exists (<[i := PQueued (t_priority t)]> ph). split.
  - apply placed_push; [done|]. right; right. split; [done|]. split; [|done]. simpl. rewrite lookup_insert_ne by done. done.
  - intros j. destruct (decide (i = j)) as [->|]; [rewrite fn_lookup_insert; eauto|]. rewrite fn_lookup_insert_ne; auto.
Qed.

Lemma sum_progs_placed h l v ph :
  (∀ p, p ∈ l → ∀ v ph, placed v ph → wp h p (λ _ v', ∃ ph', placed v' ph' ∧ queues ph ph') v) →
  placed v ph → wp h (sum_progs l) (λ _ v', ∃ ph', placed v' ph' ∧ queues ph ph') v.
Proof.
  revert v ph. induction l as [|p l IH]; intros v ph Hl Hp; [by exists ph|].
  simpl. rewrite wp_bind. eapply wp_mono; [|apply Hl; [by left|done]].
  intros x v1 (ph1 & Hp1 & Hq1). rewrite wp_bind. eapply wp_mono; [|apply IH; [|exact Hp1]].
  - intros y v2 (ph2 & Hp2 & Hq2). exists ph2. split; [done|]. by etrans.
  - intros q Hq. apply Hl. by right.
Qed.

Lemma process_delayed_safe now r : safe (process_delayed now) r (λ r' _, r' = r).
Proof.
  intros v ph Hp. unfold process_delayed_script. rewrite wp_bind. simpl. intros l _.
  eapply wp_mono; [|apply sum_progs_placed; [|exact Hp]].
  - intros x v' Hph. by split.
  - intros p (i & -> & _)%list_elem_of_fmap v1 ph1. apply process_one_placed.
Qed.

(** *** Enqueueing *)

Lemma enqueue_safe id now a : safe (enqueue id now a) (RNew id) (λ r _, r = RNone).
Proof.
  unfold enqueue. simpl. split; [by intros t [= <-]|].
  destruct (0 <? e_delay a); simpl; eauto 6.
Qed.

(** *** Workers *)

Lemma deliver_task_safe vt d i t Q :
  t_task_id t = i → (∀ t', t_task_id t' = i → Q (ROwn i) (Some t')) →
  safe (deliver_task vt d i t) (ROwn i) Q.
Proof. intros Ht HQ. simpl. split; [intros t' [= <-]; by simpl; rewrite Ht|]. by apply HQ. Qed.

Lemma dequeue_from_safe vt d ps r :
  safe (dequeue_from vt d ps) r (λ r' res, ∀ t, res = Some t → r' = ROwn (t_task_id t)).
Proof.
  revert r. induction ps as [|p ps IH]; intros r; [done|].
  simpl. intros x. unfold popped_right. destruct (as_text x) as [i|]; [|apply IH].
  simpl. intros y Hy. destruct y as [[|t| | | | |]|]; simpl; try apply IH.
  assert (t_task_id t = i) as Ht by by apply Hy.
  case_decide.
  - apply deliver_task_safe; [done|]. intros t' <- t'' [= <-]. done.
  - simpl. split; [auto|apply IH].
Qed.

Lemma ack_safe i now r : safe (ack i now) r (λ r' _, r' = r).
Proof.
  unfold ack. simpl. intros x Hx. destruct x as [[|t| | | | |]|]; simpl; try done.
  rewrite (Hx t) by done. split; [|done]. intros t' [= <-]. simpl. by apply Hx.
Qed.

Lemma nack_safe i error again now1 now2 : safe (nack i error again now1 now2) (RRetry i) (λ _ _, True).
Proof.
  unfold nack. simpl. intros x Hx. destruct x as [[|t| | | | |]|]; simpl; try done.
  destruct (_ && _); simpl; rewrite (Hx t) by done; (split; [intros t' [= <-]; simpl; by apply Hx|]); [|done].
  right. by split.
Qed.

Lemma worker_safe vt d announced now1 now2 r : safe (worker vt d announced now1 now2) r (λ _ _, True).
Proof.
  apply safe_bind. eapply safe_mono, dequeue_from_safe. intros r' [t|] Ht; [|done].
  split; [by apply Ht|]. intros []; [|apply nack_safe].
  apply safe_bind. eapply safe_mono, ack_safe. intros r1 [] ->. destruct announced; [done|apply nack_safe].
Qed.

(** *** The rest *)

Lemma ignore_safe {A} (p : prog A) r : safe p r (λ _ _, True) → safe (ignore p) r (λ _ _, True).
Proof. intros Hp. apply safe_bind. by eapply safe_mono, Hp. Qed.

Lemma lengths_safe ps r Q : (∀ l, Q r l) → safe (lengths ps) r Q.
Proof.
  revert Q. induction ps as [|p ps IH]; intros Q HQ; [apply HQ|]. simpl. intros n.
  apply safe_bind, IH. intros l. simpl. apply HQ.
Qed.

Lemma deployed_safe p : deployed p → safe p RNone (λ _ _, True).
Proof.
  intros [].
  - apply worker_safe.
  - apply ignore_safe. eapply safe_mono, process_delayed_safe. done.
  - apply ignore_safe. apply safe_bind, lengths_safe. done.
  - unfold move_to_dlq. simpl. intros x Hx. by destruct x as [[]|].
  - apply ignore_safe. simpl. intros v ph Hp. unfold acquire_lease_script. simpl.
    destruct (as_lease (rv_values v !! KLease id)) as [l|]; simpl; [destruct (flt _ _); simpl|].
    all: split; [done|]; exists ph; split; [|by auto]; try done.
    + apply placed_set_value; [by apply placed_del|done|done].
    + by apply placed_set_value.
  - apply ignore_safe. simpl. intros x _. destruct (as_lease x); simpl; [|done]. by case_match.
  - apply ignore_safe. simpl. intros x _. destruct (as_lease x); simpl; [|done]. by case_match.
Qed.

(** ** Every configuration keeps it *)

Definition invariant (c : config) : Prop :=
  ∃ ph gs, placed (c_view c) ph ∧ Forall2 (λ r p, safe p r (λ _ _, True)) gs (c_procs c) ∧
    Forall (right_ok ph) gs ∧ NoDup (omap right_id gs) ∧ NoDup (c_done c) ∧
    (∀ i, i ∈ c_done c → ph i = PDone) ∧ (∀ i, i ∉ c_used c → ph i = PUnused).

Lemma nodup_rights gs1 r gs2 :
  NoDup (omap right_id (gs1 ++ r :: gs2)%list) ↔
  NoDup (omap right_id (gs1 ++ gs2)%list) ∧ ∀ i, right_id r = Some i → i ∉ omap right_id (gs1 ++ gs2)%list.
Proof.
  rewrite !omap_app. simpl. destruct (right_id r) as [i|]; [|naive_solver].
  rewrite <- Permutation_middle, NoDup_cons. naive_solver.
Qed.

Lemma right_frame r r' ph ph' s :
  moves r r' ph ph' → right_ok ph s → (∀ i, right_id r = Some i → right_id s ≠ Some i) → right_ok ph' s.
Proof.
  intros Hm Hs Hne.
  assert (∀ i x, right_id s = Some i → ph i = x → (∀ p, x ≠ PQueued p) → x ≠ PWait → ph' i = x) as Hph.
  { intros i x Hi Hx Hq Hw. destruct (mv_frame _ _ _ _ Hm i) as [|[[p ?]|[|]]]; [congruence| |congruence|].
    - by destruct (Hq p); congruence.
    - by edestruct Hne. }
  destruct s; simpl in *; try done; by apply Hph.
Qed.

(** Others' rights are not the ones a step acquires. *)
Lemma rights_step r r' ph ph' gs1 gs2 :
  moves r r' ph ph' → Forall (right_ok ph) (gs1 ++ r :: gs2) → NoDup (omap right_id (gs1 ++ r :: gs2)%list) →
  Forall (right_ok ph') (gs1 ++ r' :: gs2) ∧ NoDup (omap right_id (gs1 ++ r' :: gs2)%list).
Proof.
  intros Hm Hok [Hnd Hr]%nodup_rights.
  assert (∀ s, s ∈ (gs1 ++ gs2)%list → right_ok ph s) as Hoks.
  { intros s Hs. rewrite Forall_forall in Hok. apply Hok. set_solver. }
  assert (∀ s i, s ∈ (gs1 ++ gs2)%list → right_id s = Some i → i ∈ omap right_id (gs1 ++ gs2)%list) as Hin.
  { intros s i Hs Hi. apply list_elem_of_omap. eauto. }
  split.
  - assert (∀ s, s ∈ (gs1 ++ gs2)%list → right_ok ph' s) as Hoks'.
    { intros s Hs. eapply right_frame; [done|by apply Hoks|]. intros i Hi Hi'. by eapply Hr, Hin. }
    rewrite Forall_app, Forall_cons. split_and!; [|by apply mv_right in Hm|].
    all: apply Forall_forall; intros s Hs; apply Hoks', elem_of_app; auto.
  - apply nodup_rights. split; [done|]. intros i Hi. destruct (mv_id _ _ _ _ Hm i Hi) as [|[p Hp]]; [auto|].
    intros (s & Hs & Hsi)%list_elem_of_omap. specialize (Hoks s Hs).
    destruct s; simpl in *; try done; injection Hsi as ->; congruence.
Qed.

(** One process moves on: what it had, and what suffices afterwards. *)
Lemma invariant_process v u d ps1 p ps2 :
  invariant (mk_config v u d (ps1 ++ p :: ps2)) →
  invariant (mk_config v u d (ps1 ++ ps2)) ∧
  ∃ ph r, placed v ph ∧ right_ok ph r ∧ safe p r (λ _ _, True) ∧ NoDup d ∧ (∀ i, i ∈ d → ph i = PDone) ∧
    ∀ v' d' q r' ph', placed v' ph' → moves r r' ph ph' → safe q r' (λ _ _, True) → NoDup d' →
      (∀ i, i ∈ d' → ph' i = PDone) → invariant (mk_config v' u d' (ps1 ++ q :: ps2)).
Proof.
  intros (ph & gs & Hp & Hs & Hok & Hnd & Hd & Hdone & Hu). simpl in *.
  apply Forall2_app_inv_r in Hs as (gs1 & gs2' & Hs1 & Hs2 & ->).
  apply Forall2_cons_inv_r in Hs2 as (r & gs2 & Hsr & Hs2 & ->).
  split.
  - exists ph, (gs1 ++ gs2)%list. split_and!; try done; [by apply Forall2_app| |by apply nodup_rights in Hnd as [? _]].
    rewrite Forall_app, Forall_cons in Hok. rewrite Forall_app. tauto.
  - exists ph, r. split_and!; try done; [by rewrite Forall_app, Forall_cons in Hok; tauto|].
    intros v' d' q r' ph' Hp' Hm Hsr' Hd' Hdone'.
    destruct (rights_step _ _ _ _ _ _ Hm Hok Hnd) as [Hok' Hnd'].
    exists ph', (gs1 ++ r' :: gs2)%list. split_and!; try done; [apply Forall2_app; [done|by constructor]|].
    intros i Hi. apply (mv_unused _ _ _ _ Hm). by apply Hu.
Qed.

(** The end of a handler *)
Lemma placed_done v ph i :
  placed v ph → ph i = POwned → placed v (<[i := PDone]> ph) ∧ moves (ROwn i) (RRetry i) ph (<[i := PDone]> ph).
Proof.
  intros Hp Hi. split; [|apply moves_insert; simpl; rewrite ?fn_lookup_insert; congruence].
  apply placed_phase; [done|apply (not_queued _ _ _ Hp)|apply (not_flagged _ _ _ Hp)|right; right; by right]; congruence.
Qed.

Lemma working_safe {A} (p : prog A) r Q t ok :
  working p = Some t → safe p r Q → r = ROwn (t_task_id t) ∧ safe (finish p ok) (RRetry (t_task_id t)) Q.
Proof. destruct p; try done. intros [= ->] [-> HQ]. split; [done|apply HQ]. Qed.

Lemma invariant_enqueue v u d ps id now a :
  id ∉ u → invariant (mk_config v u d ps) → invariant (mk_config v ({[id]} ∪ u) d (ignore (enqueue id now a) :: ps)).
Proof.
  intros Hid (ph & gs & Hp & Hs & Hok & Hnd & Hd & Hdone & Hu). simpl in *.
  assert (ph id = PUnused) as Hi by by apply Hu.
  assert (∀ j, j ≠ id → (<[id := PNew]> ph : string → phase) j = ph j) as Hne.
  { intros j Hj. by rewrite fn_lookup_insert_ne. }
  exists (<[id := PNew]> ph), (RNew id :: gs). split_and!; [..|done| |].
  - apply placed_phase; [done|apply (not_queued _ _ _ Hp)|apply (not_flagged _ _ _ Hp)|]; try congruence.
    left. apply (not_delayed _ _ _ Hp). rewrite Hi. by intros [|[|]].
  - constructor; [|done]. apply ignore_safe. eapply safe_mono, enqueue_safe. done.
  - constructor; [by simpl; rewrite fn_lookup_insert|]. eapply Forall_impl; [exact Hok|].
    intros [|j|j|j|j] Hj; simpl in *; [done|..]; (rewrite Hne; [done|congruence]).
  - simpl. constructor; [|done]. intros (s & Hs' & Hsi)%list_elem_of_omap.
    rewrite Forall_forall in Hok. specialize (Hok s Hs').
    destruct s; simpl in *; try done; injection Hsi as ->; congruence.
  - intros j Hj. rewrite Hne; [by apply Hdone|]. intros ->. rewrite Hdone in Hi; done.
  - intros j Hj. rewrite Hne; [apply Hu|]; set_solver.
Qed.

Lemma invariant_step c c' : invariant c → step deployed c c' → invariant c'.
Proof.
  intros Hinv Hstep. destruct Hstep as [v u d ps1 p ps2 q v' Hq|v u d ps1 p ps2 t ok Ht|v u d ps1 p ps2
    |v u d ps id now a Hid|v u d ps p Hdep|v u d ps k Hk].
  - apply invariant_process in Hinv as (_ & ph & r & Hp & Hr & Hs & Hd & Hdone & Hafter).
    destruct (safe_step _ _ _ _ _ _ _ Hp Hr Hs Hq) as (r' & ph' & Hs' & Hp' & Hm).
    eapply Hafter; eauto. intros i Hi. apply (mv_done _ _ _ _ Hm). by apply Hdone.
  - apply invariant_process in Hinv as (_ & ph & r & Hp & Hr & Hs & Hd & Hdone & Hafter).
    destruct (working_safe _ _ _ _ ok Ht Hs) as [-> Hs'].
    destruct (placed_done _ _ _ Hp Hr) as [Hp' Hm].
    eapply Hafter; eauto.
    + constructor; [|done]. intros Hin%Hdone. simpl in Hr. congruence.
    + intros j [->|Hj]%elem_of_cons; [by rewrite fn_lookup_insert|]. apply (mv_done _ _ _ _ Hm). by apply Hdone.
  - by apply invariant_process in Hinv as [? _].
  - by apply invariant_enqueue.
  - destruct Hinv as (ph & gs & Hinv). exists ph, (RNone :: gs). simpl in *.
    destruct Hinv as (? & ? & ? & ? & ?). split_and!; try tauto; constructor; try done. by apply deployed_safe.
  - destruct Hinv as (ph & gs & Hp & Hinv). exists ph, gs. split; [by apply placed_del_value|done].
Qed.

Lemma reachable_invariant c : reachable deployed c → invariant c.
Proof.
  intros Hc. assert (invariant initial) as Hi.
  { exists (λ _, PUnused), []. split_and!; try done; [|constructor|constructor|by intros ? ?%elem_of_nil].
    split; unfold initial, empty_view; simpl.
    - intros i t. by rewrite lookup_empty.
    - intros p. unfold rv_lists. simpl. rewrite lookup_empty. constructor.
    - intros p i. unfold rv_lists. simpl. rewrite lookup_empty. by intros ?%elem_of_nil.
    - intros i. rewrite lookup_empty. by intros [].
    - intros i. unfold rv_zset. simpl. rewrite lookup_empty. by intros []. }
  unfold reachable in Hc. revert Hi. induction Hc; eauto using invariant_step.
Qed.

Lemma omap_unique {A B} (f : A → option B) (l : list A) n m a b x :
  NoDup (omap f l) → l !! n = Some a → l !! m = Some b → f a = Some x → f b = Some x → n = m.
Proof.
  assert (∀ l' k c y, l' !! k = Some c → f c = Some y → y ∈ omap (M := list) f l') as Hin.
  { intros l' k c y Hc Hy. apply list_elem_of_omap. exists c. split; [by eapply list_elem_of_lookup_2|done]. }
  revert n m. induction l as [|c l IH]; intros n m Hnd Hn Hm Ha Hb; [done|].
  simpl in Hnd. destruct n as [|n], m as [|m]; simpl in *; simplify_eq; try done.
  - rewrite Ha in Hnd. apply NoDup_cons in Hnd as [Hx _]. by destruct Hx; eapply Hin.
  - rewrite Hb in Hnd. apply NoDup_cons in Hnd as [Hx _]. by destruct Hx; eapply Hin.
  - f_equal. eapply IH; eauto. destruct (f c); [by apply NoDup_cons in Hnd as [_ ?]|done].
Qed.

(** The processes that work on a task own it. *)
Lemma workers_own c :
  reachable deployed c → ∃ ph gs, placed (c_view c) ph ∧ Forall (right_ok ph) gs ∧
    NoDup (omap right_id gs) ∧ NoDup (c_done c) ∧ (∀ i, i ∈ c_done c → ph i = PDone) ∧
    ∀ n p t, c_procs c !! n = Some p → working p = Some t → gs !! n = Some (ROwn (t_task_id t)).
Proof.
  intros (ph & gs & Hp & Hs & Hok & Hnd & Hd & Hdone & _)%reachable_invariant.
  exists ph, gs. split_and!; try done. intros n p t Hn Ht.
  destruct (Forall2_lookup_r _ _ _ _ _ Hs Hn) as (r & Hr & Hsr).
  destruct (working_safe _ _ _ _ true Ht Hsr) as [-> _]. done.
Qed.

(** (C32) However enqueuers, workers and the mover of delayed tasks interleave, with
    new task ids, whoever stops and whatever keys expire: while a process works
    on a task, the task is in no queue, and no other process works on it.  (The
    deployment is the one the program starts, in which nothing calls
    [requeue_expired].) *)
Theorem one_worker_per_task c n p t :
  reachable deployed c → c_procs c !! n = Some p → working p = Some t →
  (∀ q, VText (t_task_id t) ∉ rv_lists (c_view c) (KQueue q)) ∧
  ∀ m p' t', c_procs c !! m = Some p' → working p' = Some t' → t_task_id t' = t_task_id t → m = n.
Proof.
  intros (ph & gs & Hp & Hok & Hnd & _ & _ & Hown)%workers_own Hn Ht.
  specialize (Hown _ _ _ Hn Ht) as Hr. split.
  - apply (not_queued _ _ _ Hp). intros q. rewrite Forall_lookup in Hok. specialize (Hok _ _ Hr). simpl in Hok.
    congruence.
  - intros m p' t' Hm Ht' Heq. specialize (Hown _ _ _ Hm Ht'). rewrite Heq in Hown. by eapply omap_unique.
Qed.

(** The handler of a task ends at most once, also when it failed and
    [max_retries] allows another attempt: a rejected task is scheduled for a
    retry, but nothing moves it back to a queue. *)
Theorem at_most_once c :
  reachable deployed c →
  NoDup (c_done c) ∧
  ∀ n p t, c_procs c !! n = Some p → working p = Some t → t_task_id t ∉ c_done c.
Proof.
  intros (ph & gs & Hp & Hok & Hnd & Hd & Hdone & Hown)%workers_own. split; [done|].
  intros n p t Hn Ht Hin%Hdone. specialize (Hown _ _ _ Hn Ht).
  rewrite Forall_lookup in Hok. specialize (Hok _ _ Hown). simpl in Hok. congruence.
Qed.
End Programs.

(** ** Runs in memory *)

Definition pstep_mem {A} (p : prog A) : contents → option (prog A * contents) :=
  match p in prog A return contents → option (prog A * contents) with
  | Cmd c k => λ v, let '(x, v') := mem_run c v in Some (k x, v')
  | Atomic q k => λ v, let '(x, v') := run_prog (λ _, true) q v in Some (k x, v')
  | _ => λ _, None
  end.

Lemma pstep_mem_step {A} (p : prog A) v q v' : pstep_mem p v = Some (q, v') → pstep p v q v'.
Proof.
  destruct p as [A a|A B c k|A B s k|A t k]; simpl; try done.
  - pose proof (redis_effect (R := contents) c v) as He. change (redis_run c v) with (mem_run c v) in He.
    destruct (mem_run c v) as [x v1]. intros [= <- <-]. by exists x.
  - pose proof (exec_mem (λ _, true) s v) as He. destruct (run_prog _ s v) as [x v1].
    intros [= <- <-]. by exists x.
Qed.

(** Process [n] does [k] commands, or as many as it can. *)
Fixpoint advance (n k : nat) (c : config) : config :=
  match k with
  | O => c
  | S k' =>
      match c_procs c !! n with
      | Some p =>
          match pstep_mem p (c_view c) with
          | Some (q, v') => advance n k' (mk_config v' (c_used c) (c_done c) (<[n := q]> (c_procs c)))
          | None => c
          end
      | None => c
      end
  end.

Lemma advance_reachable client n k c : reachable client c → reachable client (advance n k c).
Proof.
  revert c. induction k as [|k IH]; intros [v u d ps] Hc; [done|]. simpl.
  destruct (ps !! n) as [p|] eqn:Hn; [|done].
  destruct (pstep_mem p v) as [[q v']|] eqn:Hp; [|done].
  apply IH. eapply rtc_r; [exact Hc|].
  rewrite <- (take_drop_middle ps n p Hn) at 1. rewrite insert_take_drop by by eapply lookup_lt_Some.
  apply step_run. by apply pstep_mem_step.
Qed.

Definition enqueue_proc (id : string) (now : float) (a : EnqueueArgs) (c : config) : config :=
  mk_config (c_view c) ({[id]} ∪ c_used c) (c_done c) (ignore (enqueue id now a) :: c_procs c).
Definition start_proc (p : prog unit) (c : config) : config :=
  mk_config (c_view c) (c_used c) (c_done c) (p :: c_procs c).

Lemma enqueue_reachable client id now a c :
  id ∉ c_used c → reachable client c → reachable client (enqueue_proc id now a c).
Proof. intros Hid Hc. eapply rtc_r; [exact Hc|]. destruct c. by apply step_enqueue. Qed.
Lemma start_reachable client p c : client p → reachable client c → reachable client (start_proc p c).
Proof. intros Hp Hc. eapply rtc_r; [exact Hc|]. destruct c. by apply step_start. Qed.

(** A task is enqueued and a worker takes it. *)
Definition demo_task : EnqueueArgs := mk_enqueue "generate" "{}" 5 3 300 "" 0 "".
Definition demo_worker (lid : string) (now : Z) : prog unit :=
  worker 60 (mk_delivery lid (float_of_Z now) (float_of_Z now)) true (float_of_Z now) (float_of_Z now).
Definition demo_taken : config :=
  advance 0 20 (start_proc (demo_worker "l1" 100)
    (advance 0 5 (enqueue_proc "a1" (float_of_Z 100) demo_task initial))).

Lemma demo_reachable (client : prog unit → Prop) : client (demo_worker "l1" 100) → reachable client demo_taken.
Proof.
  intros Hc. unfold demo_taken. apply advance_reachable, start_reachable; [exact Hc|].
  apply advance_reachable, enqueue_reachable; [set_solver|apply rtc_refl].
Qed.

#[local] Instance exact_json : LuaJson := {| lua_task := λ t, t; lua_lease := λ l, l |}.
#[local] Instance exact_json_laws : LuaJsonLaws.
Proof. by split. Defined.

Definition at_work (n : nat) (c : config) : option string := c_procs c !! n ≫= λ p, t_task_id <$> working p.

Lemma at_work_inv n c i :
  at_work n c = Some i → ∃ p t, c_procs c !! n = Some p ∧ working p = Some t ∧ t_task_id t = i.
Proof.
  unfold at_work. destruct (c_procs c !! n) as [p|]; [|done]. simpl.
  destruct (working p) as [t|] eqn:Et; [|done]. intros [= <-]. eauto.
Qed.

Lemma one_worker_per_task_witness :
  at_work 0 demo_taken = Some "a1" ∧ ∀ q, VText "a1" ∉ rv_lists (c_view demo_taken) (KQueue q).
Proof.
  assert (at_work 0 demo_taken = Some "a1") as Hw by (vm_compute; reflexivity).
  split; [exact Hw|]. destruct (at_work_inv _ _ _ Hw) as (p & t & Hn & Ht & <-).
  exact (proj1 (one_worker_per_task demo_taken 0 p t (demo_reachable _ (dep_worker _ _ _ _ _)) Hn Ht)).
Defined.

Lemma at_most_once_witness : reachable deployed demo_taken ∧ at_work 0 demo_taken = Some "a1" ∧ NoDup (c_done demo_taken).
Proof.
  split; [apply demo_reachable; constructor|]. split; [vm_compute; reflexivity|].
  exact (proj1 (at_most_once demo_taken (demo_reachable _ (dep_worker _ _ _ _ _)))).
Defined.

(** With the reaper of expired leases among the processes, two workers can work
    on the same task at the same time: a lease of 60 seconds expires while its
    worker, which never renews it, still works. *)
Theorem reaper_duplicates :
  ∃ c, reachable (λ p, deployed p ∨ p = ignore (requeue_expired (float_of_Z 200))) c ∧
    ∃ m n, m ≠ n ∧ at_work m c = Some "a1" ∧ at_work n c = Some "a1".
Proof.
  exists (advance 0 20 (start_proc (demo_worker "l2" 201)
    (advance 0 20 (start_proc (ignore (requeue_expired (float_of_Z 200))) demo_taken)))).
  split.
  - apply advance_reachable, start_reachable; [left; constructor|].
    apply advance_reachable, start_reachable; [by right|]. apply demo_reachable. left; constructor.
  - exists 0%nat, 2%nat. split; [done|]. split; vm_compute; reflexivity.
Qed.

End DistConc.
