(* ===== verification/DistServices.v ===== *)
(** * Services around the distributed queue

    [distributed_scheduler.py] (leader election and jobs), [worker_registry.py],
    [retry.py] with the policies of [models.py], and [event_bus.py].  One
    iteration of a loop is an operation; the clock, generated ids and draws of the
    random generator are arguments. *)

From Stdlib Require Import ZArith Lia.
From stdpp Require Import base numbers strings gmap list.
From S2P Require Import Prelude PyFloat PyNum PyDict PyMath PyVal Redis DistQueue DistSpec.

Open Scope string_scope.
Open Scope Z_scope.
Open Scope prog_scope.

(** ** Scheduler *)

Module DistScheduler.

Record Job := mk_job {
  jb_task_type : string;
  jb_payload : string;
  jb_interval : float;
  jb_max_runs : Z;
  jb_run_count : Z;
  jb_last_run : float
}.

Record DScheduler := mk_sched {
  sc_instance_id : string;
  sc_lock_ttl : Z;
  sc_running : bool;
  sc_is_leader : bool;
  sc_jobs : dict string Job
}.

Definition set_leader (b : bool) (s : DScheduler) : DScheduler :=
  mk_sched (sc_instance_id s) (sc_lock_ttl s) (sc_running s) b (sc_jobs s).
Definition set_jobs (js : dict string Job) (s : DScheduler) : DScheduler :=
  mk_sched (sc_instance_id s) (sc_lock_ttl s) (sc_running s) (sc_is_leader s) js.

Definition ds_add_job (job_id task_type payload : string) (interval : float) (max_runs : Z) (s : DScheduler) : DScheduler :=
  set_jobs (dict_set job_id (mk_job task_type payload interval max_runs 0 fzero) (sc_jobs s)) s.

Definition ds_remove_job (job_id : string) (s : DScheduler) : DScheduler := set_jobs (dict_pop job_id (sc_jobs s)) s.

Definition get_leader : prog string :=
  let! leader := command (CGet KSchedulerLeader) in
  Ret (match leader with Some (VText o) => o | _ => "" end).

(** One iteration of [_leader_election_loop]; the Boolean is the argument of the
    callback, when it is called. *)
Definition election_step (s : DScheduler) : prog (DScheduler * option bool) :=
  let! acquired := redis_acquire_lock KSchedulerLock (sc_instance_id s) (sc_lock_ttl s) in
  if (acquired : bool) && negb (sc_is_leader s) then
    do! command (CSet KSchedulerLeader (VText (sc_instance_id s)) (sc_lock_ttl s)) in
    Ret (set_leader true s, Some true)
  else if negb acquired && sc_is_leader s then Ret (set_leader false s, Some false)
  else if negb acquired then
    let! leader := get_leader in
    if truthy leader then Ret (s, None)
    else
      do! command (CSet KSchedulerLeader (VText "unknown") (sc_lock_ttl s)) in
      Ret (s, None)
  else Ret (s, None).

Definition release_leadership (s : DScheduler) : prog DScheduler :=
  do! redis_release_lock KSchedulerLock (sc_instance_id s) in Ret (set_leader false s).

Definition start (s : DScheduler) : DScheduler :=
  mk_sched (sc_instance_id s) (sc_lock_ttl s) true (sc_is_leader s) (sc_jobs s).

Definition stop (s : DScheduler) : prog DScheduler :=
  let s := mk_sched (sc_instance_id s) (sc_lock_ttl s) false (sc_is_leader s) (sc_jobs s) in
  if sc_is_leader s then release_leadership s else Ret s.

(** *** Jobs *)

Definition job_due (now : float) (j : Job) : bool :=
  if (0 <? jb_max_runs j) && (jb_max_runs j <=? jb_run_count j) then false
  else fle (jb_interval j) (fsub now (jb_last_run j)).

(** [creates]: creating the task does not raise. *)
Definition job_step (creates : Job → bool) (now : float) (j : Job) : Job * bool :=
  if job_due now j && creates j then
    (mk_job (jb_task_type j) (jb_payload j) (jb_interval j) (jb_max_runs j) (jb_run_count j + 1) now, true)
  else (j, false).

(** One iteration of [_job_execution_loop], and the jobs it triggers *)
Definition job_tick (creates : Job → bool) (now : float) (s : DScheduler) : DScheduler * list string :=
  if sc_is_leader s then
    (set_jobs ((λ p, (p.1, (job_step creates now p.2).1)) <$> sc_jobs s) s,
     omap (λ p, if (job_step creates now p.2).2 then Some p.1 else None) (sc_jobs s))
  else (s, []).

(** *** Leaders step down *)

(** An instance is elected exactly when nobody holds the lock.  While somebody
    does, an iteration leaves its instance without leadership, even the leader's
    own: the lock cannot be acquired again by its owner, so a leader demotes
    itself at its next iteration and nobody leads until the lock expires. *)
Theorem leader_steps_down h s v s' cb v' :
  0 < sc_lock_ttl s → DistSpec.lock_ok KSchedulerLock v → exec h (election_step s) v (s', cb) v' →
  match DistSpec.lock_holder KSchedulerLock v with
  | Some o =>
      sc_is_leader s' = false ∧ (cb = if sc_is_leader s then Some false else None) ∧
      DistSpec.lock_holder KSchedulerLock v' = Some o
  | None =>
      sc_is_leader s' = true ∧ (cb = if sc_is_leader s then None else Some true) ∧
      DistSpec.lock_holder KSchedulerLock v' = Some (sc_instance_id s)
  end.
Proof.
  intros Httl Hok H. unfold DistSpec.lock_ok, DistSpec.lock_holder in *.
  change ((λ r v', match as_text (rv_values v !! KSchedulerLock) with
    | Some o => sc_is_leader r.1 = false ∧ (r.2 = if sc_is_leader s then Some false else None) ∧
        as_text (rv_values v' !! KSchedulerLock) = Some o
    | None => sc_is_leader r.1 = true ∧ (r.2 = if sc_is_leader s then None else Some true) ∧
        as_text (rv_values v' !! KSchedulerLock) = Some (sc_instance_id s)
    end) (s', cb) v').
  eapply wp_exec; [|exact H]. clear H. unfold election_step, redis_acquire_lock. simpl.
  destruct (rv_values v !! KSchedulerLock) as [x|] eqn:Ex; simpl.
  - destruct Hok as [[o ->] Hv]. intros n Hn. rewrite decide_True in Hn by done.
    rewrite (proj2 (Z.ltb_ge _ _)) by done. simpl. destruct (sc_is_leader s) eqn:El; simpl; [by rewrite Ex|].
    destruct (truthy _); simpl; [by rewrite Ex|]. rewrite lookup_insert_ne by done. by rewrite Ex.
  - erewrite DistSpec.expire_positive by (simpl; by rewrite ?lookup_insert_eq). simpl.
    destruct (sc_is_leader s) eqn:El; simpl; rewrite ?lookup_insert_ne by done; by rewrite lookup_insert_eq.
Qed.

Definition demo_instance : DScheduler := mk_sched "s1" 10 true true [].

Lemma leader_steps_down_witness :
  let v := mk_contents {[ KSchedulerLock := VText "s1" ]} {[ KSchedulerLock ]} ∅ ∅ in
  let r := run_prog (λ _, true) (election_step demo_instance) v in
  sc_is_leader r.1.1 = false ∧ r.1.2 = Some false ∧ DistSpec.lock_holder KSchedulerLock r.2 = Some "s1".
Proof.
  intros v r.
  refine (leader_steps_down (λ _, true) demo_instance v r.1.1 r.1.2 r.2 eq_refl _ _).
  - split; [by exists "s1"|exact (proj2 (elem_of_singleton (C := gset rkey) _ _) eq_refl)].
  - rewrite <- surjective_pairing. apply exec_mem.
Defined.

(** *** Jobs run within their bounds *)

Definition within_runs (j : Job) : Prop := 0 < jb_max_runs j → jb_run_count j <= jb_max_runs j.

Lemma job_step_within creates now j : within_runs j → within_runs (job_step creates now j).1.
Proof.
  unfold within_runs, job_step, job_due. intros Hj.
  destruct ((0 <? jb_max_runs j) && (jb_max_runs j <=? jb_run_count j)) eqn:E; simpl; [done|].
  destruct (fle _ _ && creates j); simpl; [|done]. intros Hm.
  apply andb_false_iff in E as [E|E]; [apply Z.ltb_ge in E|apply Z.leb_gt in E]; lia.
Qed.

(** No job runs more often than its [max_runs]. *)
Lemma job_tick_within creates now s :
  Forall (λ p, within_runs p.2) (sc_jobs s) → Forall (λ p, within_runs p.2) (sc_jobs (job_tick creates now s).1).
Proof.
  intros H. unfold job_tick. destruct (sc_is_leader s); [|done]. simpl. apply Forall_fmap.
  eapply Forall_impl; [exact H|]. intros [k j] Hj. by apply job_step_within.
Qed.

(** A job waits for its interval after a run. *)
Lemma job_waits creates now now' j :
  (job_step creates now j).2 = true → fle (jb_interval j) (fsub now' now) = false →
  (job_step creates now' (job_step creates now j).1).2 = false.
Proof.
  unfold job_step at 1 3. destruct (job_due now j && creates j); simpl; [|done]. intros _ Hw.
  assert (job_due now' (mk_job (jb_task_type j) (jb_payload j) (jb_interval j) (jb_max_runs j) (jb_run_count j + 1) now)
    = false) as Hdue.
  { unfold job_due. simpl. destruct (_ && _); [done|exact Hw]. }
  unfold job_step. by rewrite Hdue.
Qed.
End DistScheduler.

(** ** Worker registry *)

Module WorkerRegistry.

Definition HEARTBEAT_TTL : Z := 15.

Record WorkerRegistry := mk_registry {
  rg_worker_id : string;
  rg_hostname : string;
  rg_pid : Z;
  rg_version : string
}.

Definition set_id (id : string) (rg : WorkerRegistry) : WorkerRegistry :=
  mk_registry id (rg_hostname rg) (rg_pid rg) (rg_version rg).

(** [WorkerInfo] read back from JSON has the text of its status, which has no
    attribute [value]: [to_dict] works once the status has been assigned. *)
Inductive PyStatus := SEnum (s : WorkerStatus) | SText (s : WorkerStatus).

Record Worker := mk_loaded { wk_info : WorkerInfo; wk_status : PyStatus }.

Definition with_status (s : WorkerStatus) (w : WorkerInfo) : WorkerInfo :=
  mk_worker (w_worker_id w) (w_hostname w) (w_pid w) (w_version w) s (w_started_at w) (w_last_heartbeat w)
    (w_current_tasks w) (w_max_concurrent w) (w_tags w).
Definition with_heartbeat (now : float) (w : WorkerInfo) : WorkerInfo :=
  mk_worker (w_worker_id w) (w_hostname w) (w_pid w) (w_version w) (w_status w) (w_started_at w) now
    (w_current_tasks w) (w_max_concurrent w) (w_tags w).

Definition worker_to_dict (w : Worker) : result string WorkerInfo :=
  match wk_status w with
  | SEnum s => Ok (with_status s (wk_info w))
  | SText _ => Err "'str' object has no attribute 'value'"
  end.

Definition status_is (s : WorkerStatus) (st : PyStatus) : bool :=
  match st, s with
  | (SEnum W_ONLINE | SText W_ONLINE), W_ONLINE => true
  | (SEnum W_OFFLINE | SText W_OFFLINE), W_OFFLINE => true
  | (SEnum W_DRAINING | SText W_DRAINING), W_DRAINING => true
  | _, _ => false
  end.

Definition WORKER_TTL : Z := 86400.

Definition store_worker (id : string) (w : Worker) : prog (result string unit) :=
  match worker_to_dict w with
  | Ok info => do! command (CSet (KWorker id) (VWorker info) WORKER_TTL) in Ret (Ok tt)
  | Err e => Ret (Err e)
  end.

Definition wr_register (id : string) (max_concurrent : Z) (tags : string) (now : float) (rg : WorkerRegistry)
    : prog WorkerRegistry :=
  let info := mk_worker id (rg_hostname rg) (rg_pid rg) (rg_version rg) W_ONLINE now now 0 max_concurrent tags in
  do! command (CSet (KWorker id) (VWorker info) WORKER_TTL) in
  Ret (set_id id rg).

Definition get_worker (id : string) : prog (option Worker) :=
  let! data := command (CGet (KWorker id)) in
  Ret (match data with Some (VWorker w) => Some (mk_loaded w (SText (w_status w))) | _ => None end).

Definition wr_unregister (rg : WorkerRegistry) : prog (result string unit) :=
  if negb (truthy (rg_worker_id rg)) then Ret (Ok tt)
  else
    let! worker := get_worker (rg_worker_id rg) in
    match worker with
    | Some w =>
        let! stored := store_worker (rg_worker_id rg) (mk_loaded (wk_info w) (SEnum W_OFFLINE)) in
        match stored with
        | Err e => Ret (Err e)
        | Ok _ => do! command (CDel (KHeartbeat (rg_worker_id rg))) in Ret (Ok tt)
        end
    | None => do! command (CDel (KHeartbeat (rg_worker_id rg))) in Ret (Ok tt)
    end.

Definition heartbeat (now : float) (rg : WorkerRegistry) : prog (result string unit) :=
  if negb (truthy (rg_worker_id rg)) then Ret (Ok tt)
  else
    do! command (CSet (KHeartbeat (rg_worker_id rg)) (VHeartbeat (rg_worker_id rg) now) HEARTBEAT_TTL) in
    let! worker := get_worker (rg_worker_id rg) in
    match worker with
    | Some w => store_worker (rg_worker_id rg) (mk_loaded (with_heartbeat now (wk_info w)) (wk_status w))
    | None => Ret (Ok tt)
    end.

Definition check_status (now : float) (id : string) : prog WorkerStatus :=
  let! data := command (CGet (KHeartbeat id)) in
  Ret (match data with
       | Some (VHeartbeat _ last) =>
           if flt (float_of_Z (HEARTBEAT_TTL * 2)) (fsub now last) then W_OFFLINE else W_ONLINE
       | _ => W_OFFLINE
       end).

(** [now id]: the clock when the worker is checked. *)
Fixpoint list_from (now : string → float) (ids : list string) : prog (list Worker) :=
  match ids with
  | [] => Ret []
  | id :: ids' =>
      let! worker := get_worker id in
      match worker with
      | None => list_from now ids'
      | Some w =>
          if status_is W_DRAINING (wk_status w) then
            let! rest := list_from now ids' in Ret (w :: rest)
          else
            let! st := check_status (now (w_worker_id (wk_info w))) (w_worker_id (wk_info w)) in
            let! rest := list_from now ids' in Ret (mk_loaded (wk_info w) (SEnum st) :: rest)
      end
  end.

Definition list_workers (now : string → float) : prog (list Worker) :=
  let! ids := command (CScan PWorker) in list_from now ids.

Definition online_count (l : list Worker) : Z := zlen (List.filter (λ w, status_is W_ONLINE (wk_status w)) l).

Definition get_online_count (now : string → float) : prog Z :=
  let! workers := list_workers now in Ret (online_count workers).

Definition set_draining (id : string) : prog (result string unit) :=
  let! worker := get_worker id in
  match worker with
  | Some w => store_worker id (mk_loaded (wk_info w) (SEnum W_DRAINING))
  | None => Ret (Ok tt)
  end.

(** [RuntimeHealth.get_workers_list] *)
Fixpoint dicts (l : list Worker) : result string (list WorkerInfo) :=
  match l with
  | [] => Ok []
  | w :: l' =>
      match worker_to_dict w with
      | Err e => Err e
      | Ok d => match dicts l' with Ok ds => Ok (d :: ds) | Err e => Err e end
      end
  end.

Definition get_workers_list (now : string → float) : prog (result string (list WorkerInfo)) :=
  let! workers := list_workers now in Ret (dicts workers).

Section Facts.
Context (h : DistributedTask → bool).

(** A heartbeat of a registered worker always raises: it refreshes the heartbeat
    key, and the record keeps its old time. *)
Theorem heartbeat_raises now rg w v res v' :
  truthy (rg_worker_id rg) = true → rv_values v !! KWorker (rg_worker_id rg) = Some (VWorker w) →
  exec h (heartbeat now rg) v res v' →
  res = Err "'str' object has no attribute 'value'" ∧
  rv_values v' !! KHeartbeat (rg_worker_id rg) = Some (VHeartbeat (rg_worker_id rg) now) ∧
  rv_values v' !! KWorker (rg_worker_id rg) = Some (VWorker w).
Proof.
  intros Hid Hw H. by_wp H. unfold heartbeat. rewrite Hid. simpl.
  rewrite lookup_insert_ne by done. rewrite Hw. simpl.
  rewrite lookup_insert_eq, lookup_insert_ne by done. by rewrite Hw.
Qed.

(** The status of a listed worker: its own while draining, else the one its
    heartbeat shows. *)
Definition listed (now : string → float) (v : contents) (id : string) : option Worker :=
  match rv_values v !! KWorker id with
  | Some (VWorker w) =>
      let wid := w_worker_id w in
      Some (match w_status w with
            | W_DRAINING => mk_loaded w (SText W_DRAINING)
            | _ => mk_loaded w (SEnum
                (match rv_values v !! KHeartbeat wid with
                 | Some (VHeartbeat _ last) =>
                     if flt (float_of_Z (HEARTBEAT_TTL * 2)) (fsub (now wid) last) then W_OFFLINE else W_ONLINE
                 | _ => W_OFFLINE
                 end))
            end)
  | _ => None
  end.

Lemma list_from_spec now ids v Q :
  Q (omap (listed now v) ids) v → wp h (list_from now ids) Q v.
Proof.
  revert Q. induction ids as [|id ids IH]; intros Q HQ; [done|]. simpl in HQ |- *. unfold listed at 1 in HQ.
  destruct (rv_values v !! KWorker id) as [[| | | |w| |]|] eqn:Ew; simpl; try (by apply IH).
  destruct (w_status w) eqn:Es; simpl.
  all: rewrite wp_bind; apply IH; simpl; by rewrite ?Es in HQ.
Qed.

Theorem list_workers_spec now v l v' :
  exec h (list_workers now) v l v' →
  v' = v ∧ ∃ ids, ids ≡ₚ omap (in_prefix PWorker) (map_to_list (rv_values v)).*1 ∧ l = omap (listed now v) ids.
Proof. intros H. by_wp H. simpl. intros ids Hids. apply list_from_spec. eauto. Qed.

(** A worker without a heartbeat is never counted online. *)
Lemma no_heartbeat_offline now v id w :
  rv_values v !! KWorker id = Some (VWorker w) → rv_values v !! KHeartbeat (w_worker_id w) = None →
  ∃ x, listed now v id = Some x ∧ status_is W_ONLINE (wk_status x) = false.
Proof. intros Hw Hh. unfold listed. rewrite Hw, Hh. destruct (w_status w); by eexists. Qed.
End Facts.

Lemma heartbeat_raises_witness :
  let w := mk_worker "w1" "host" 7 "1.0" W_ONLINE fzero fzero 0 5 "{}" in
  let v := upd_value (KWorker "w1") (VWorker w) 0 empty_view in
  let r := run_prog (λ _, true) (heartbeat fone (mk_registry "w1" "host" 7 "1.0")) v in
  r.1 = Err "'str' object has no attribute 'value'" ∧
  rv_values r.2 !! KHeartbeat "w1" = Some (VHeartbeat "w1" fone) ∧ rv_values r.2 !! KWorker "w1" = Some (VWorker w).
Proof.
  intros w v r. exact (heartbeat_raises (λ _, true) fone (mk_registry "w1" "host" 7 "1.0") w v r.1 r.2 eq_refl eq_refl (exec_mem _ _ v)).
Defined.

End WorkerRegistry.

(** ** Retries *)

Module Retry.

Record RetryPolicy := mk_policy {
  rp_max_retries : Z;
  rp_base_delay : float;
  rp_max_delay : float;
  rp_multiplier : float;
  rp_jitter : float
}.

(** [random.uniform(-a, a)] for the draw [u] in [0, 1] *)
Definition uniform_around (a u : float) : float := fadd (fopp a) (fmul (fsub a (fopp a)) u).

Definition get_delay `{!MathLib} (p : RetryPolicy) (attempt : Z) (u : float) : result PyErr float :=
  match float_pow (rp_multiplier p) (float_of_Z attempt) with
  | Err e => Err e
  | Ok f =>
      let delay := fmin (fmul (rp_base_delay p) f) (rp_max_delay p) in
      Ok (fadd delay (uniform_around (fmul delay (rp_jitter p)) u))
  end.

Section Execute.
Context {A E : Type}.

(** How [execute_with_retry] ends: with a value, the function's exception, an
    exception of [get_delay], or [None] when there was no attempt. *)
Inductive RetryOutcome := Returned (a : A) | Raised (e : E) | DelayFailed (e : PyErr) | NoAttempt.

Definition should_retry (max_retries attempt : Z) : bool := attempt <? max_retries.

(** [fn i] is the outcome of call [i]; the result counts the calls. *)
Fixpoint attempts (fn : Z → result E A) (delay : Z → result PyErr float) (max_retries attempt : Z) (n : nat)
    (last_error : option E) : RetryOutcome * Z :=
  match n with
  | O => (match last_error with Some e => Raised e | None => NoAttempt end, attempt)
  | S n' =>
      match fn attempt with
      | Ok a => (Returned a, attempt + 1)
      | Err e =>
          if negb (should_retry max_retries attempt) then (Raised e, attempt + 1)
          else
            match delay attempt with
            | Err d => (DelayFailed d, attempt + 1)
            | Ok _ => attempts fn delay max_retries (attempt + 1) n' (Some e)
            end
      end
  end.

Definition execute_with_retry (fn : Z → result E A) (delay : Z → result PyErr float) (max_retries : Z) : RetryOutcome * Z :=
  attempts fn delay max_retries 0 (Z.to_nat (max_retries + 1)) None.

Lemma attempts_spec fn delay m a n last :
  (∀ i, ∃ f, delay i = Ok f) → 0 <= a → m + 1 = a + Z.of_nat n → (0 < n)%nat →
  let r := attempts fn delay m a n last in
  a < r.2 <= m + 1 ∧ (∀ i, a <= i < r.2 - 1 → is_ok (fn i) = false) ∧
  match fn (r.2 - 1) with
  | Ok x => r.1 = Returned x
  | Err e => r.1 = Raised e ∧ r.2 = m + 1
  end.
Proof.
  intros Hd. revert a last. induction n as [|n IH]; intros a last Ha Hm Hn; [lia|]. simpl.
  destruct (fn a) as [x|e] eqn:Ef; simpl.
  - split; [lia|]. split; [lia|]. replace (a + 1 - 1) with a by lia. by rewrite Ef.
  - unfold should_retry. destruct (Z.ltb_spec a m); simpl.
    + destruct (Hd a) as [f ->]. destruct (IH (a + 1) (Some e)) as (Hr & Hbefore & Hres); [lia..|].
      split; [lia|]. split; [|done]. intros i Hi. destruct (decide (i = a)) as [->|]; [by rewrite Ef|].
      apply Hbefore. lia.
    + split; [lia|]. split; [lia|]. replace (a + 1 - 1) with a by lia. rewrite Ef. split; [done|lia].
Qed.

(** With [max_retries >= 0] and delays that can be computed, the function is
    called until its first success, at most [max_retries + 1] times; the result
    is that success, or the exception of the last call. *)
Theorem retry_until_success fn delay m :
  (∀ i, ∃ f, delay i = Ok f) → 0 <= m →
  let r := execute_with_retry fn delay m in
  0 < r.2 <= m + 1 ∧ (∀ i, 0 <= i < r.2 - 1 → is_ok (fn i) = false) ∧
  match fn (r.2 - 1) with
  | Ok x => r.1 = Returned x
  | Err e => r.1 = Raised e ∧ r.2 = m + 1
  end.
Proof. intros Hd Hm. apply attempts_spec; [done|lia..]. Qed.

Lemma no_attempt fn delay m : m < 0 → execute_with_retry fn delay m = (NoAttempt, 0).
Proof. intros Hm. unfold execute_with_retry. by replace (Z.to_nat (m + 1)) with 0%nat by lia. Qed.
End Execute.
End Retry.

(** ** Event bus *)

Module EventBus.

Record EventMessage := mk_event {
  ev_event_id : string;
  ev_event_type : string;
  ev_timestamp : float;
  ev_payload : string;
  ev_metadata : string
}.

(** A handler is known by its identity; [b_log] lists the calls, latest first. *)
Record Bus := mk_bus {
  b_handlers : dict string (list Z);
  b_listening : bool;
  b_inbox : list EventMessage;
  b_log : list (Z * EventMessage)
}.

Definition subscribe (event_type : string) (handler : Z) (b : Bus) : Bus :=
  mk_bus (dict_set event_type (default [] (dict_get event_type (b_handlers b)) ++ [handler])%list (b_handlers b))
    (b_listening b) (b_inbox b) (b_log b).

Definition unsubscribe (event_type : string) (handler : Z) (b : Bus) : Bus :=
  match dict_get event_type (b_handlers b) with
  | None => b
  | Some hs =>
      mk_bus (dict_set event_type (List.filter (λ x, negb (x =? handler)) hs) (b_handlers b))
        (b_listening b) (b_inbox b) (b_log b)
  end.

(** An exception of a handler is logged, and the next one is called. *)
Definition dispatch_local (e : EventMessage) (b : Bus) : Bus :=
  mk_bus (b_handlers b) (b_listening b) (b_inbox b)
    (rev ((λ x, (x, e)) <$> default [] (dict_get (ev_event_type e) (b_handlers b))) ++ b_log b)%list.

Definition start_listener (b : Bus) : Bus := mk_bus (b_handlers b) true (b_inbox b) (b_log b).
Definition stop_listener (b : Bus) : Bus := mk_bus (b_handlers b) false [] (b_log b).

(** The channel hands a message to every process that listens. *)
Definition deliver_event (e : EventMessage) (b : Bus) : Bus :=
  if b_listening b then mk_bus (b_handlers b) true (b_inbox b ++ [e])%list (b_log b) else b.

(** Process [n] publishes. *)
Definition bus_publish (n : nat) (e : EventMessage) (bs : list Bus) : list Bus :=
  alter (dispatch_local e) n (deliver_event e <$> bs).

(** One iteration of [_listen_loop] *)
Definition listen_step (b : Bus) : Bus :=
  if b_listening b then
    match b_inbox b with
    | [] => b
    | e :: rest => dispatch_local e (mk_bus (b_handlers b) true rest (b_log b))
    end
  else b.

Definition get_subscriber_count (event_type : string) (b : Bus) : Z :=
  if truthy event_type then zlen (default [] (dict_get event_type (b_handlers b)))
  else fold_right Z.add 0 (zlen <$> dict_values (b_handlers b)).

(** A process that listens handles its own events twice: at once, and again when
    the channel returns them. *)
Theorem own_events_twice n e bs b :
  bs !! n = Some b → b_listening b = true → b_inbox b = [] →
  let calls := rev ((λ x, (x, e)) <$> default [] (dict_get (ev_event_type e) (b_handlers b))) in
  ∃ b', bus_publish n e bs !! n = Some b' ∧ b_log (listen_step b') = (calls ++ calls ++ b_log b)%list.
Proof.
  intros Hn Hl Hi calls. exists (dispatch_local e (deliver_event e b)). split.
  - unfold bus_publish. rewrite list_lookup_alter_eq, list_lookup_fmap, Hn. done.
  - unfold deliver_event. rewrite Hl, Hi. simpl. unfold listen_step. simpl. done.
Qed.

Lemma own_events_twice_witness :
  let e := mk_event "e1" "task.created" fzero "{}" "{}" in
  let b := start_listener (subscribe "task.created" 7 (mk_bus [] false [] [])) in
  ∃ b', bus_publish 0 e [b] !! 0%nat = Some b' ∧ b_log (listen_step b') = [(7, e); (7, e)].
Proof. intros e b. exact (own_events_twice 0 e [b] b eq_refl eq_refl eq_refl). Defined.

(** Other listeners handle an event once, after it arrives. *)
Lemma others_once n m e bs b :
  m ≠ n → bs !! m = Some b → b_listening b = true → b_inbox b = [] →
  ∃ b', bus_publish n e bs !! m = Some b' ∧
    b_log (listen_step b') = (rev ((λ x, (x, e)) <$> default [] (dict_get (ev_event_type e) (b_handlers b))) ++ b_log b)%list.
Proof.
  intros Hmn Hm Hl Hi. exists (deliver_event e b). split.
  - unfold bus_publish. rewrite list_lookup_alter_ne by done. by rewrite list_lookup_fmap, Hm.
  - unfold deliver_event. rewrite Hl, Hi. done.
Qed.

Lemma unsubscribed event_type x b b' :
  b' = unsubscribe event_type x b → ∀ hs, dict_get event_type (b_handlers b') = Some hs → x ∉ hs.
Proof.
  intros -> hs. unfold unsubscribe. destruct (dict_get event_type (b_handlers b)) as [l|] eqn:E; simpl; [|congruence].
  rewrite dict_get_set_eq. intros [= <-] Hin. apply list_elem_of_In, filter_In in Hin as [_ Hx].
  by rewrite Z.eqb_refl in Hx.
Qed.
End EventBus.
