(* ===== verification/SecKeys.v ===== *)
(** * Base64

    [base64.b64encode] and [base64.b64decode] of CPython on byte strings.  The
    decoder is the one without validation: characters outside the alphabet are
    skipped, a complete padding ends the text, and an incomplete group raises
    [binascii.Error]. *)

From Stdlib Require Import ZArith Lia.
From Stdlib Require Import Ascii.
From stdpp Require Import base numbers strings gmap list.
From S2P Require Import Prelude PyFloat PyNum PyStr PyDict.


Open Scope string_scope.
Open Scope Z_scope.

Definition byte_val (a : ascii) : Z := Z.of_N (N_of_ascii a).
Definition val_byte (z : Z) : ascii := ascii_of_N (Z.to_N (z mod 256)).

(** The character of a six-bit value *)
Definition b64_char (n : Z) : ascii :=
  ascii_of_N (Z.to_N
    (if n <? 26 then 65 + n else if n <? 52 then 97 + (n - 26) else if n <? 62 then 48 + (n - 52)
     else if n =? 62 then 43 else 47)).

Definition b64_value (a : ascii) : option Z :=
  let c := byte_val a in
  if (65 <=? c) && (c <=? 90) then Some (c - 65)
  else if (97 <=? c) && (c <=? 122) then Some (c - 97 + 26)
  else if (48 <=? c) && (c <=? 57) then Some (c - 48 + 52)
  else if c =? 43 then Some 62
  else if c =? 47 then Some 63
  else None.

Fixpoint b64encode (s : string) : string :=
  match s with
  | EmptyString => EmptyString
  | String a EmptyString =>
      let x := byte_val a in
      String (b64_char (x / 4)) (String (b64_char (x mod 4 * 16)) "==")
  | String a (String b EmptyString) =>
      let x := byte_val a in let y := byte_val b in
      String (b64_char (x / 4)) (String (b64_char (x mod 4 * 16 + y / 16)) (String (b64_char (y mod 16 * 4)) "="))
  | String a (String b (String c s')) =>
      let x := byte_val a in let y := byte_val b in let z := byte_val c in
      String (b64_char (x / 4)) (String (b64_char (x mod 4 * 16 + y / 16))
        (String (b64_char (y mod 16 * 4 + z / 64)) (String (b64_char (z mod 64)) (b64encode s'))))
  end.

(** [quad] counts the characters of the current group, [left] holds the bits not
    used yet, [pads] the padding seen since the last character. *)
Fixpoint b64_go (quad left pads : Z) (s : string) : option string :=
  match s with
  | EmptyString => if quad =? 0 then Some EmptyString else None
  | String a s' =>
      if decide (a = "="%char) then
        if (2 <=? quad) && (4 <=? quad + (pads + 1)) then Some EmptyString
        else b64_go quad left (if 2 <=? quad then pads + 1 else pads) s'
      else
        match b64_value a with
        | None => b64_go quad left pads s'
        | Some v =>
            if quad =? 0 then b64_go 1 v 0 s'
            else if quad =? 1 then String (val_byte (left * 4 + v / 16)) <$> b64_go 2 (v mod 16) 0 s'
            else if quad =? 2 then String (val_byte (left * 16 + v / 4)) <$> b64_go 3 (v mod 4) 0 s'
            else String (val_byte (left * 64 + v)) <$> b64_go 0 0 0 s'
        end
  end.

Definition b64decode (s : string) : option string := b64_go 0 0 0 s.

(** ** Decoding inverts encoding *)

Lemma byte_val_range a : 0 <= byte_val a < 256.
Proof. unfold byte_val. pose proof (N_ascii_bounded a). lia. Qed.

Lemma val_byte_val a : val_byte (byte_val a) = a.
Proof.
  unfold val_byte. rewrite Z.mod_small by apply byte_val_range. unfold byte_val.
  rewrite N2Z.id. apply ascii_N_embedding.
Qed.

Definition sextets : list Z := Z.of_nat <$> seq 0 64.

Lemma sextet n : 0 <= n < 64 → n ∈ sextets.
Proof.
  intros Hn. apply list_elem_of_fmap. exists (Z.to_nat n). split; [lia|]. apply elem_of_seq. lia.
Qed.

Lemma b64_value_char n : 0 <= n < 64 → b64_value (b64_char n) = Some n ∧ b64_char n ≠ "="%char.
Proof.
  intros Hn.
  assert (forallb (λ n, match b64_value (b64_char n) with Some m => m =? n | None => false end &&
    negb (Ascii.eqb (b64_char n) "=")) sextets = true) as H by reflexivity.
  rewrite forallb_forall in H. specialize (H n (proj1 (list_elem_of_In _ _) (sextet n Hn))).
  destruct (b64_value (b64_char n)) as [m|]; [|done].
  apply andb_prop in H as [Hm He]. split; [f_equal; lia|]. intros Heq. by rewrite Heq in He.
Qed.

Lemma b64_go_char quad left pads n s :
  0 <= n < 64 →
  b64_go quad left pads (String (b64_char n) s) =
    if quad =? 0 then b64_go 1 n 0 s
    else if quad =? 1 then String (val_byte (left * 4 + n / 16)) <$> b64_go 2 (n mod 16) 0 s
    else if quad =? 2 then String (val_byte (left * 16 + n / 4)) <$> b64_go 3 (n mod 4) 0 s
    else String (val_byte (left * 64 + n)) <$> b64_go 0 0 0 s.
Proof. intros Hn. destruct (b64_value_char n Hn) as [Hv Hne]. simpl. by rewrite decide_False, Hv. Qed.

Lemma three_ind (P : string → Prop) :
  P EmptyString → (∀ a, P (String a EmptyString)) → (∀ a b, P (String a (String b EmptyString))) →
  (∀ a b c s, P s → P (String a (String b (String c s)))) → ∀ s, P s.
Proof.
  intros H0 H1 H2 H3. fix IH 1.
  intros [|a [|b [|c s]]]; [exact H0|exact (H1 a)|exact (H2 a b)|exact (H3 a b c s (IH s))].
Qed.

Lemma val_byte_eq a z : z = byte_val a → val_byte z = a.
Proof. intros ->. apply val_byte_val. Qed.

(** [b64decode] gives back what [b64encode] was given. *)
Lemma b64_decode_encode s : b64decode (b64encode s) = Some s.
Proof.
  unfold b64decode. induction s as [|a|a b|a b c s IH] using three_ind; [done|..].
  all: pose proof (byte_val_range a); try pose proof (byte_val_range b); try pose proof (byte_val_range c).
  all: cbn [b64encode]; rewrite !b64_go_char by (Z.div_mod_to_equations; lia); simpl.
  - by rewrite (val_byte_eq a) by (Z.div_mod_to_equations; lia).
  - rewrite (val_byte_eq a), (val_byte_eq b) by (Z.div_mod_to_equations; lia). done.
  - rewrite IH. simpl.
    rewrite (val_byte_eq a), (val_byte_eq b), (val_byte_eq c) by (Z.div_mod_to_equations; lia). done.
Qed.

(** The text of an encoding holds no bar. *)
Lemma b64_char_no_bar n s : 0 <= n < 64 → no_char "|" (String (b64_char n) s) = no_char "|" s.
Proof.
  intros Hn. assert (forallb (λ n, negb (Ascii.eqb (b64_char n) "|")) sextets = true) as H by reflexivity.
  rewrite forallb_forall in H. specialize (H n (proj1 (list_elem_of_In _ _) (sextet n Hn))).
  cbn [no_char]. rewrite bool_decide_eq_false_2; [done|]. intros Heq. by rewrite Heq in H.
Qed.

Lemma b64_no_bar s : no_char "|" (b64encode s) = true.
Proof.
  induction s as [|a|a b|a b c s IH] using three_ind; [done|..].
  all: pose proof (byte_val_range a); try pose proof (byte_val_range b); try pose proof (byte_val_range c).
  all: cbn [b64encode]; rewrite !b64_char_no_bar by (Z.div_mod_to_equations; lia); done.
Qed.

(** * Encryption keys and envelopes

    [src/app/security/keys.py] and [src/app/security/crypto.py]: the key manager
    with its versions and statuses, AES with the padding of the CBC mode,
    envelope, field and storage encryption.  The block cipher is a parameter
    ([CipherLib]); new ids, key material, initialisation vectors and the clock are
    arguments.  Bytes are strings. *)

Open Scope string_scope.
Open Scope Z_scope.

Module SecKeys.

(** ** Data *)

Inductive EncryptionAlgorithm := AES_256_GCM | AES_256_CBC.
Inductive KeyPurpose := KP_ENCRYPTION | KP_SIGNING | KP_TOKEN | KP_DATABASE.
Inductive KeyStatus := K_ACTIVE | K_PENDING | K_RETIRED | K_REVOKED | K_EXPIRED | K_DESTROYED.

#[export] Instance algorithm_eq_dec : EqDecision EncryptionAlgorithm.
Proof. solve_decision. Defined.
#[export] Instance key_status_eq_dec : EqDecision KeyStatus.
Proof. solve_decision. Defined.

Record EncryptionKey := mk_key {
  ek_id : string;
  ek_purpose : KeyPurpose;
  ek_algorithm : EncryptionAlgorithm;
  ek_status : KeyStatus;
  ek_material : string;
  ek_version : Z;
  ek_created_at : float;
  ek_rotated_at : float;
  ek_expires_at : float;
  ek_revoked_at : float
}.

Definition key_is_revoked (k : EncryptionKey) : bool := bool_decide (ek_status k = K_REVOKED).
Definition key_is_expired (now : float) (k : EncryptionKey) : bool :=
  negb (is_fzero (ek_expires_at k)) && fle (ek_expires_at k) now.
Definition usable (now : float) (k : EncryptionKey) : bool :=
  negb (key_is_revoked k) && negb (key_is_expired now k) && truthy (ek_material k).

Inductive SecErr :=
| KeyManagementError (msg : string)
| KeyVersionError (id : string)
| KeyRevokedError (id : string)
| KeyExpiredError (id : string)
| DecryptionError (msg : string)
| CipherError            (** raised by the library while encrypting *)
| Base64Error            (** [binascii.Error] *)
| UnicodeDecodeError
| MalformedEnvelope.     (** a value that is no envelope fails in one of several ways *)

(** ** [KeyManager] *)

Record SecurityConfig := mk_sconfig {
  sg_algorithm : EncryptionAlgorithm;
  sg_envelope_enabled : bool;
  sg_key_rotation_days : Z
}.

Record KeyManager := mk_manager {
  km_keys : dict string EncryptionKey;
  km_current : string
}.

(** What a rotation draws: an id, key material and the clock. *)
Record Draw := mk_draw { d_id : string; d_material : string; d_now : float }.

Definition retire (now : float) (k : EncryptionKey) : EncryptionKey :=
  mk_key (ek_id k) (ek_purpose k) (ek_algorithm k) K_RETIRED (ek_material k) (ek_version k) (ek_created_at k) now
    (ek_expires_at k) (ek_revoked_at k).
Definition mark_revoked (now : float) (k : EncryptionKey) : EncryptionKey :=
  mk_key (ek_id k) (ek_purpose k) (ek_algorithm k) K_REVOKED (ek_material k) (ek_version k) (ek_created_at k)
    (ek_rotated_at k) (ek_expires_at k) now.
Definition mark_expired (now : float) (k : EncryptionKey) : EncryptionKey :=
  mk_key (ek_id k) (ek_purpose k) (ek_algorithm k) K_EXPIRED (ek_material k) (ek_version k) (ek_created_at k)
    (ek_rotated_at k) now (ek_revoked_at k).
Definition mark_destroyed (k : EncryptionKey) : EncryptionKey :=
  mk_key (ek_id k) (ek_purpose k) (ek_algorithm k) K_DESTROYED "" (ek_version k) (ek_created_at k)
    (ek_rotated_at k) (ek_expires_at k) (ek_revoked_at k).
Definition with_material (m : string) (k : EncryptionKey) : EncryptionKey :=
  mk_key (ek_id k) (ek_purpose k) (ek_algorithm k) (ek_status k) m (ek_version k) (ek_created_at k)
    (ek_rotated_at k) (ek_expires_at k) (ek_revoked_at k).

Definition upd_key (id : string) (f : EncryptionKey → EncryptionKey) (km : KeyManager) : KeyManager :=
  match dict_get id (km_keys km) with
  | Some k => mk_manager (dict_set id (f k) (km_keys km)) (km_current km)
  | None => km
  end.

Section Manager.
Context (cfg : SecurityConfig).

(** The current key retires, if it is active. *)
Definition retire_current (now : float) (km : KeyManager) : KeyManager :=
  upd_key (km_current km) (λ k, if decide (ek_status k = K_ACTIVE) then retire now k else k) km.

Definition new_key (d : Draw) (version : Z) : EncryptionKey :=
  mk_key (d_id d) KP_ENCRYPTION (sg_algorithm cfg) K_ACTIVE (d_material d) version (d_now d) fzero fzero fzero.

(** The version of the next key; a current id is a key of the manager. *)
Definition next_version (km : KeyManager) : Z :=
  if truthy (km_current km) then
    match dict_get (km_current km) (km_keys km) with Some k => ek_version k + 1 | None => 1 end
  else 1.

Definition rotate (d : Draw) (km : KeyManager) : KeyManager :=
  let key := new_key d (next_version km) in
  let km := if truthy (km_current km) then retire_current (d_now d) km else km in
  mk_manager (dict_set (d_id d) key (km_keys km)) (d_id d).

(** [KeyManager()] *)
Definition create_manager (d : Draw) : KeyManager := rotate d (mk_manager [] "").

Definition rotate_with_material (d : Draw) (material : string) (km : KeyManager) : KeyManager :=
  upd_key (d_id d) (with_material material) (rotate d km).

Definition revoke (id : string) (now : float) (d : Draw) (km : KeyManager) : bool * KeyManager :=
  match dict_get id (km_keys km) with
  | None => (false, km)
  | Some k =>
      let km := upd_key id (mark_revoked now) km in
      (true, if decide (ek_id k = km_current km) then rotate d km else km)
  end.

Definition expire (id : string) (now : float) (d : Draw) (km : KeyManager) : bool * KeyManager :=
  match dict_get id (km_keys km) with
  | None => (false, km)
  | Some k =>
      let km := upd_key id (mark_expired now) km in
      (true, if decide (ek_id k = km_current km) then rotate d km else km)
  end.

Definition destroy (id : string) (d : Draw) (km : KeyManager) : bool * KeyManager :=
  match dict_get id (km_keys km) with
  | None => (false, km)
  | Some k =>
      let km := if decide (ek_id k = km_current km) then rotate d (mk_manager (km_keys km) "") else km in
      (true, upd_key id mark_destroyed km)
  end.

Definition current_key (km : KeyManager) : result SecErr EncryptionKey :=
  if negb (truthy (km_current km)) then Err (KeyManagementError "no current key")
  else match dict_get (km_current km) (km_keys km) with Some k => Ok k | None => Err (KeyManagementError "KeyError") end.

Definition find_by_version (version : Z) (km : KeyManager) : option EncryptionKey :=
  List.find (λ k, ek_version k =? version) (dict_values (km_keys km)).

Definition check_key (now : float) (k : EncryptionKey) : result SecErr (option EncryptionKey) :=
  if decide (ek_status k = K_REVOKED) then Err (KeyRevokedError (ek_id k))
  else if bool_decide (ek_status k = K_EXPIRED) || key_is_expired now k then Err (KeyExpiredError (ek_id k))
  else Ok (if usable now k then Some k else None).

Definition key_provider (km : KeyManager) (now : float) (id : string) (version : Z) : result SecErr (option EncryptionKey) :=
  if decide (id = "current") then
    match current_key km with Err e => Err e | Ok k => check_key now k end
  else
    match dict_get id (km_keys km) with
    | None => Ok None
    | Some k =>
        if negb (version =? 0) && negb (ek_version k =? version) then Err (KeyVersionError id)
        else check_key now k
    end.

Definition auto_rotation_due (now : float) (km : KeyManager) : result SecErr bool :=
  match current_key km with
  | Err e => Err e
  | Ok k =>
      Ok (if sg_key_rotation_days cfg <=? 0 then false
          else fle (float_of_Z (sg_key_rotation_days cfg * 86400)) (fsub now (ek_created_at k)))
  end.

Definition enforce_rotation (now : float) (d : Draw) (km : KeyManager) : result SecErr (bool * KeyManager) :=
  match auto_rotation_due now km with
  | Err e => Err e
  | Ok due => Ok (if due : bool then (true, rotate d km) else (false, km))
  end.
End Manager.

(** ** [AESCipher] *)

(** The operations of the library: [gcm] returns the ciphertext and the tag. *)
Class CipherLib := {
  gcm_encrypt : string → string → string → result unit (string * string);
  gcm_decrypt : string → string → string → string → result string string;
  cbc_encrypt : string → string → string → result unit string;
  cbc_decrypt : string → string → string → result string string
}.

(** What was encrypted decrypts under the same key and vector, and under another
    key the tag does not verify.  A key that encrypts once is a valid key. *)
Class CipherLaws `{!CipherLib} := {
  gcm_correct key iv p c t : gcm_encrypt key iv p = Ok (c, t) → gcm_decrypt key iv t c = Ok p;
  gcm_authentic key key' iv p c t :
    gcm_encrypt key iv p = Ok (c, t) → key' ≠ key → ∃ e, gcm_decrypt key' iv t c = Err e;
  cbc_correct key iv p c : cbc_encrypt key iv p = Ok c → cbc_decrypt key iv c = Ok p
}.

Fixpoint fill (a : ascii) (n : nat) : string := match n with O => EmptyString | S n' => String a (fill a n') end.

(** [bytes([n]) * n] *)
Definition repeat_byte (n : Z) : string := fill (val_byte n) (Z.to_nat n).

(** [plaintext + bytes([pad]) * pad] *)
Definition pad_bytes (p : string) : string :=
  let pad := 16 - Z.of_nat (String.length p) mod 16 in p ++ repeat_byte pad.

Definition last_byte (s : string) : option Z :=
  match String.get (String.length s - 1) s with Some a => Some (byte_val a) | None => None end.

(** [padded[:-pad]] after the test of the last byte *)
Definition unpad_bytes (s : string) : result SecErr string :=
  match last_byte s with
  | None => Err (DecryptionError "decryption failed: index out of range")
  | Some pad =>
      if (1 <=? pad) && (pad <=? 16) then Ok (String.substring 0 (String.length s - Z.to_nat pad) s)
      else Err (DecryptionError "invalid padding")
  end.

Section Cipher.
Context `{!CipherLib} (algorithm : EncryptionAlgorithm).

(** Ciphertext and tag; the vector is drawn by the caller. *)
Definition aes_encrypt (plaintext key iv : string) : result SecErr (string * string) :=
  match algorithm with
  | AES_256_GCM => match gcm_encrypt key iv plaintext with Ok r => Ok r | Err _ => Err CipherError end
  | AES_256_CBC => match cbc_encrypt key iv (pad_bytes plaintext) with Ok c => Ok (c, "") | Err _ => Err CipherError end
  end.

Definition aes_decrypt (ciphertext key iv tag : string) : result SecErr string :=
  match algorithm with
  | AES_256_GCM =>
      match gcm_decrypt key iv tag ciphertext with Ok p => Ok p | Err e => Err (DecryptionError ("decryption failed: " ++ e)) end
  | AES_256_CBC =>
      match cbc_decrypt key iv ciphertext with
      | Ok padded => unpad_bytes padded
      | Err e => Err (DecryptionError ("decryption failed: " ++ e))
      end
  end.
End Cipher.

(** ** [EncryptionService] *)

Definition algorithm_text (a : EncryptionAlgorithm) : string :=
  match a with AES_256_GCM => "aes-256-gcm" | AES_256_CBC => "aes-256-cbc" end.

Record Envelope := mk_envelope {
  en_key_id : string;
  en_key_version : Z;
  en_algorithm : string;
  en_iv : string;
  en_tag : string;
  en_ciphertext : string;
  en_wrapped_key : string
}.

Section Service.
Context `{!CipherLib} (cfg : SecurityConfig).

Definition resolve_key (km : KeyManager) (now : float) (id : string) (version : Z) : result SecErr EncryptionKey :=
  match key_provider km now id version with
  | Err e => Err e
  | Ok None => Err (KeyManagementError ("key " ++ id ++ " unavailable"))
  | Ok (Some k) => if usable now k then Ok k else Err (KeyManagementError ("key " ++ id ++ " unavailable"))
  end.

Definition resolve_current (km : KeyManager) (now : float) : result SecErr EncryptionKey :=
  match key_provider km now "current" 0 with
  | Err e => Err e
  | Ok None => Err (KeyManagementError "no usable current key")
  | Ok (Some k) => if usable now k then Ok k else Err (KeyManagementError "no usable current key")
  end.

Definition wrap_key (data_key : string) (master : EncryptionKey) (iv : string) : result SecErr string :=
  match aes_encrypt (sg_algorithm cfg) data_key (ek_material master) iv with
  | Err e => Err e
  | Ok (c, tag) => Ok (join "|" [b64encode iv; b64encode tag; b64encode c])
  end.

Definition b64_tag (tag : string) : option string := if truthy tag then b64decode tag else Some "".

Definition unwrap_key (wrapped : string) (master : EncryptionKey) : result SecErr string :=
  match split_on "|" wrapped with
  | [iv; tag; c] =>
      match b64decode c, b64decode iv, b64_tag tag with
      | Some c, Some iv, Some tag =>
          match aes_decrypt (sg_algorithm cfg) c (ek_material master) iv tag with
          | Ok m => Ok m
          | Err _ => Err (DecryptionError "key unwrap failed")
          end
      | _, _, _ => Err (DecryptionError "key unwrap failed")
      end
  | _ => Err (DecryptionError "key unwrap failed")
  end.

(** [iv] and [iv_wrap] are the vectors drawn for the text and for the key. *)
Definition envelope_encrypt (km : KeyManager) (now : float) (iv_wrap iv plaintext : string) (key : option EncryptionKey)
    : result SecErr Envelope :=
  match (match key with Some k => Ok k | None => resolve_current km now end) with
  | Err e => Err e
  | Ok data_key =>
      match (if sg_envelope_enabled cfg then
               match resolve_current km now with
               | Err e => Err e
               | Ok master => wrap_key (ek_material data_key) master iv_wrap
               end
             else Ok "") with
      | Err e => Err e
      | Ok wrapped =>
          match aes_encrypt (sg_algorithm cfg) plaintext (ek_material data_key) iv with
          | Err e => Err e
          | Ok (c, tag) =>
              Ok (mk_envelope (ek_id data_key) (ek_version data_key) (algorithm_text (sg_algorithm cfg)) (b64encode iv) (b64encode tag)
                    (b64encode c) wrapped)
          end
      end
  end.

Definition envelope_decrypt (km : KeyManager) (now : float) (e : Envelope) : result SecErr string :=
  match resolve_key km now (en_key_id e) (en_key_version e) with
  | Err err => Err err
  | Ok key =>
      match (if truthy (en_wrapped_key e) then
               match resolve_current km now with
               | Err err => Err err
               | Ok master => unwrap_key (en_wrapped_key e) master
               end
             else Ok (ek_material key)) with
      | Err err => Err err
      | Ok material =>
          match b64decode (en_ciphertext e), b64decode (en_iv e), b64_tag (en_tag e) with
          | Some c, Some iv, Some tag => aes_decrypt (sg_algorithm cfg) c material iv tag
          | _, _, _ => Err Base64Error
          end
      end
  end.

Definition encrypt (km : KeyManager) (now : float) (iv_wrap iv plaintext key_id : string) (version : Z)
    : result SecErr Envelope :=
  if truthy key_id then
    match resolve_key km now key_id version with
    | Err e => Err e
    | Ok k => envelope_encrypt km now iv_wrap iv plaintext (Some k)
    end
  else envelope_encrypt km now iv_wrap iv plaintext None.
End Service.

(** ** [FieldCipher] and [StorageEncryption] *)

Inductive FieldVal :=
| FNone | FBool (b : bool) | FInt (z : Z) | FFloat (f : float)
| FStr (s : string) | FBytes (s : string)
| FDict (d : list (string * FieldVal)) | FList (l : list FieldVal) | FTuple (l : list FieldVal)
| FOther (text : string).   (** any other object, with its [str] *)

Definition envelope_to_dict (e : Envelope) : FieldVal :=
  FDict [("key_id", FStr (en_key_id e)); ("key_version", FInt (en_key_version e)); ("algorithm", FStr (en_algorithm e));
         ("iv", FStr (en_iv e)); ("tag", FStr (en_tag e)); ("ciphertext", FStr (en_ciphertext e));
         ("wrapped_key", FStr (en_wrapped_key e))].

Definition field_str (dflt key : string) (d : list (string * FieldVal)) : option string :=
  match dict_get key d with None => Some dflt | Some (FStr s) => Some s | Some _ => None end.

Definition field_int (dflt : Z) (key : string) (d : list (string * FieldVal)) : option Z :=
  match dict_get key d with None => Some dflt | Some (FInt z) => Some z | Some (FStr s) => py_int s | Some _ => None end.

Definition envelope_from_dict (v : FieldVal) : option Envelope :=
  match v with
  | FDict d =>
      id ← field_str "" "key_id" d; ver ← field_int 1 "key_version" d; alg ← field_str "aes-256-gcm" "algorithm" d;
      iv ← field_str "" "iv" d; tag ← field_str "" "tag" d; c ← field_str "" "ciphertext" d;
      w ← field_str "" "wrapped_key" d; Some (mk_envelope id ver alg iv tag c w)
  | _ => None
  end.

Definition cont (a : ascii) : bool := (128 <=? byte_val a) && (byte_val a <? 192).
Definition between (lo hi : Z) (a : ascii) : bool := (lo <=? byte_val a) && (byte_val a <=? hi).

(** [bytes.decode()]: well-formed UTF-8 *)
Fixpoint utf8_valid (s : string) : bool :=
  match s with
  | EmptyString => true
  | String a s1 =>
      if byte_val a <? 128 then utf8_valid s1
      else match s1 with
      | EmptyString => false
      | String b s2 =>
          if between 194 223 a then cont b && utf8_valid s2
          else match s2 with
          | EmptyString => false
          | String c s3 =>
              if byte_val a =? 224 then between 160 191 b && cont c && utf8_valid s3
              else if byte_val a =? 237 then between 128 159 b && cont c && utf8_valid s3
              else if between 225 239 a then cont b && cont c && utf8_valid s3
              else match s3 with
              | EmptyString => false
              | String d s4 =>
                  if byte_val a =? 240 then between 144 191 b && cont c && cont d && utf8_valid s4
                  else if between 241 243 a then cont b && cont c && cont d && utf8_valid s4
                  else if byte_val a =? 244 then between 128 143 b && cont c && cont d && utf8_valid s4
                  else false
              end
          end
      end
  end.

(** Containers, element by element *)
Section Threads.
Context (f : FieldVal → nat → result SecErr (FieldVal * nat)).
Fixpoint thread_items (l : list FieldVal) (n : nat) : result SecErr (list FieldVal * nat) :=
  match l with
  | [] => Ok ([], n)
  | x :: l' =>
      match f x n with
      | Err e => Err e
      | Ok (y, n1) => match thread_items l' n1 with Err e => Err e | Ok (r, n2) => Ok (y :: r, n2) end
      end
  end.
Fixpoint thread_fields (d : list (string * FieldVal)) (n : nat) : result SecErr (list (string * FieldVal) * nat) :=
  match d with
  | [] => Ok ([], n)
  | (k, x) :: d' =>
      match f x n with
      | Err e => Err e
      | Ok (y, n1) => match thread_fields d' n1 with Err e => Err e | Ok (r, n2) => Ok ((k, y) :: r, n2) end
      end
  end.
End Threads.

Section Each.
Context (f : FieldVal → result SecErr FieldVal).
Fixpoint each_item (l : list FieldVal) : result SecErr (list FieldVal) :=
  match l with
  | [] => Ok []
  | x :: l' =>
      match f x with
      | Err e => Err e
      | Ok y => match each_item l' with Err e => Err e | Ok r => Ok (y :: r) end
      end
  end.
Fixpoint each_field (d : list (string * FieldVal)) : result SecErr (list (string * FieldVal)) :=
  match d with
  | [] => Ok []
  | (k, x) :: d' =>
      match f x with
      | Err e => Err e
      | Ok y => match each_field d' with Err e => Err e | Ok r => Ok ((k, y) :: r) end
      end
  end.
End Each.

(** [set(value) == {"__enc__"}] *)
Definition enc_entry (d : list (string * FieldVal)) : option FieldVal :=
  match d with [(k, x)] => if decide (k = "__enc__") then Some x else None | _ => None end.

Section Fields.
Context `{!CipherLib} (cfg : SecurityConfig) (km : KeyManager).

(** [ivs n] are the vectors of the [n]-th encryption, for the key and the text. *)
Definition encrypt_text (now : float) (key_id s : string) (ivs : nat → string * string) (n : nat)
    : result SecErr (FieldVal * nat) :=
  match encrypt cfg km now (ivs n).1 (ivs n).2 s key_id 1 with
  | Err e => Err e
  | Ok e => Ok (FDict [("__enc__", envelope_to_dict e)], S n)
  end.

Fixpoint encrypt_field (now : float) (key_id : string) (ivs : nat → string * string) (v : FieldVal) (n : nat)
    : result SecErr (FieldVal * nat) :=
  match v with
  | FNone | FBool _ | FInt _ | FFloat _ => Ok (v, n)
  | FStr s | FBytes s | FOther s => encrypt_text now key_id s ivs n
  | FDict d => match thread_fields (encrypt_field now key_id ivs) d n with Ok (r, n') => Ok (FDict r, n') | Err e => Err e end
  | FList l | FTuple l =>
      match thread_items (encrypt_field now key_id ivs) l n with Ok (r, n') => Ok (FList r, n') | Err e => Err e end
  end.

Definition decrypt_text (now : float) (v : FieldVal) : result SecErr FieldVal :=
  match envelope_from_dict v with
  | None => Err MalformedEnvelope
  | Some e =>
      match envelope_decrypt cfg km now e with
      | Err err => Err err
      | Ok p => if utf8_valid p then Ok (FStr p) else Err UnicodeDecodeError
      end
  end.

Fixpoint decrypt_field (now : float) (v : FieldVal) : result SecErr FieldVal :=
  match v with
  | FDict d =>
      match enc_entry d with
      | Some x => decrypt_text now x
      | None => match each_field (decrypt_field now) d with Ok r => Ok (FDict r) | Err e => Err e end
      end
  | FList l => match each_item (decrypt_field now) l with Ok r => Ok (FList r) | Err e => Err e end
  | _ => Ok v
  end.

(** [StorageEncryption]; [mac] is [hmac.new(self.aad, ...)] with SHA-256. *)
Definition encrypt_value (mac : string → string) (now : float) (ivs : string * string) (value key_id purpose : string)
    : result SecErr Envelope :=
  encrypt cfg km now ivs.1 ivs.2 (mac purpose ++ value) key_id 1.

Definition decrypt_value (now : float) (e : Envelope) : result SecErr string :=
  match envelope_decrypt cfg km now e with
  | Err err => Err err
  | Ok payload =>
      let text := String.substring 32 (String.length payload - 32) payload in
      if utf8_valid text then Ok text else Err UnicodeDecodeError
  end.
End Fields.

(** ** Dead keys stay dead *)

Inductive KeyOp :=
| ORotate (d : Draw)
| ORotateWith (d : Draw) (material : string)
| ORevoke (id : string) (now : float) (d : Draw)
| OExpire (id : string) (now : float) (d : Draw)
| ODestroy (id : string) (d : Draw)
| OEnforce (now : float) (d : Draw).

Definition op_draw (o : KeyOp) : Draw :=
  match o with
  | ORotate d | ORotateWith d _ | ORevoke _ _ d | OExpire _ _ d | ODestroy _ d | OEnforce _ d => d
  end.

(** A new id is not empty and not in use. *)
Definition fresh (d : Draw) (km : KeyManager) : Prop := truthy (d_id d) = true ∧ dict_get (d_id d) (km_keys km) = None.

Section Dead.
Context (cfg : SecurityConfig).

Definition apply_op (o : KeyOp) (km : KeyManager) : KeyManager :=
  match o with
  | ORotate d => rotate cfg d km
  | ORotateWith d m => rotate_with_material cfg d m km
  | ORevoke id now d => (revoke cfg id now d km).2
  | OExpire id now d => (expire cfg id now d km).2
  | ODestroy id d => (destroy cfg id d km).2
  | OEnforce now d => match enforce_rotation cfg now d km with Ok r => r.2 | Err _ => km end
  end.

(** The managers a creation and any operations lead to *)
Inductive managed : KeyManager → Prop :=
| managed_new d : truthy (d_id d) = true → managed (create_manager cfg d)
| managed_op o km : managed km → fresh (op_draw o) km → managed (apply_op o km).

(** The same from a given manager on *)
Inductive later : KeyManager → KeyManager → Prop :=
| later_refl km : later km km
| later_op o km km' : later km km' → fresh (op_draw o) km' → later km (apply_op o km').

Definition dead (k : EncryptionKey) : Prop :=
  ek_status k = K_REVOKED ∨ ek_status k = K_EXPIRED ∨ (ek_status k = K_DESTROYED ∧ ek_material k = "").

Definition dead_in (id : string) (km : KeyManager) : Prop := ∃ k, dict_get id (km_keys km) = Some k ∧ dead k.

(** Keys are filed under their ids, and the current one is active. *)
Record km_ok (km : KeyManager) : Prop := {
  ok_keyed : keyed ek_id (km_keys km);
  ok_current : ∃ k, dict_get (km_current km) (km_keys km) = Some k ∧ ek_status k = K_ACTIVE;
  ok_truthy : truthy (km_current km) = true
}.

Lemma get_upd_key id f km id' :
  dict_get id' (km_keys (upd_key id f km)) =
    if decide (id' = id) then f <$> dict_get id (km_keys km) else dict_get id' (km_keys km).
Proof.
  unfold upd_key. case_decide as Hid.
  - subst. destruct (dict_get id (km_keys km)) eqn:E; simpl; [by rewrite dict_get_set_eq|done].
  - destruct (dict_get id (km_keys km)) eqn:E; simpl; [by rewrite dict_get_set_ne|done].
Qed.

Lemma keyed_upd_key id f km :
  (∀ k, ek_id (f k) = ek_id k) → keyed ek_id (km_keys km) → keyed ek_id (km_keys (upd_key id f km)).
Proof.
  intros Hf Hk. unfold upd_key. destruct (dict_get id (km_keys km)) as [k|] eqn:E; simpl; [|done].
  rewrite <- (keyed_get _ _ _ _ Hk E), <- (Hf k). by apply keyed_set.
Qed.

Lemma current_upd_key id f km : km_current (upd_key id f km) = km_current km.
Proof. unfold upd_key. by destruct (dict_get id (km_keys km)). Qed.

Definition retires (now : float) (k : EncryptionKey) : EncryptionKey :=
  if decide (ek_status k = K_ACTIVE) then retire now k else k.

Lemma dead_retires now k : dead k → retires now k = k.
Proof. unfold retires. by intros [H|[H|[H _]]]; rewrite H. Qed.

Lemma get_rotate d km id :
  id ≠ d_id d →
  dict_get id (km_keys (rotate cfg d km)) =
    if truthy (km_current km) && bool_decide (id = km_current km) then retires (d_now d) <$> dict_get id (km_keys km)
    else dict_get id (km_keys km).
Proof.
  intros Hne. unfold rotate. simpl. rewrite dict_get_set_ne by done.
  destruct (truthy (km_current km)); simpl; [|done]. unfold retire_current. rewrite get_upd_key.
  destruct (decide (id = km_current km)) as [->|?]; [by rewrite bool_decide_true|by rewrite bool_decide_false].
Qed.

Lemma rotate_ok d km : truthy (d_id d) = true → keyed ek_id (km_keys km) → km_ok (rotate cfg d km).
Proof.
  intros Hd Hk. split; simpl; [|rewrite dict_get_set_eq; by eexists|done].
  apply (keyed_set ek_id (new_key cfg d (next_version km))).
  destruct (truthy (km_current km)); [|done]. apply keyed_upd_key; [|done].
  intros k. by case_decide.
Qed.

Lemma fresh_ne d km id k : fresh d km → dict_get id (km_keys km) = Some k → id ≠ d_id d.
Proof. intros [_ Hf] Hg ->. congruence. Qed.

Lemma dead_rotate d km id : fresh d km → dead_in id km → dead_in id (rotate cfg d km).
Proof.
  intros Hf (k & Hk & Hd). exists k. split; [|done]. rewrite get_rotate by by eapply fresh_ne.
  destruct (_ && _); [|done]. rewrite Hk. simpl. by rewrite dead_retires.
Qed.

Lemma dead_upd_key id f km id' :
  (∀ k, dead k → dead (f k)) → dead_in id' km → dead_in id' (upd_key id f km).
Proof.
  intros Hf (k & Hk & Hd). unfold dead_in. rewrite get_upd_key. case_decide as Hid; [|by exists k].
  subst. rewrite Hk. exists (f k). auto.
Qed.

Lemma fresh_upd_key d id f km : fresh d km → fresh d (upd_key id f km).
Proof.
  intros [Ht Hf]. split; [done|]. rewrite get_upd_key. case_decide as Hid; [|done]. subst. by rewrite Hf.
Qed.

(** An operation that ends a key [id] by [f] and replaces the current one *)
Lemma end_key_ok id f d km k :
  (∀ k, ek_id (f k) = ek_id k) → km_ok km → fresh d km → dict_get id (km_keys km) = Some k →
  let km1 := upd_key id f km in km_ok (if decide (ek_id k = km_current km1) then rotate cfg d km1 else km1).
Proof.
  intros Hf [Hk (c & Hc & Ha) Ht] Hd Hg km1.
  assert (keyed ek_id (km_keys km1)) as Hk1 by by apply keyed_upd_key.
  assert (km_current km1 = km_current km) as Hc1 by apply current_upd_key.
  case_decide as Hid; [apply rotate_ok; [apply Hd|done]|].
  split; [done| |by rewrite Hc1]. exists c. split; [|done]. rewrite Hc1. unfold km1. rewrite get_upd_key.
  rewrite decide_False; [done|]. intros Heq. rewrite Hc1 in Hid. apply Hid.
  rewrite Heq. by apply (keyed_get ek_id _ _ _ Hk Hg).
Qed.

Lemma destroy_ok id d km : km_ok km → fresh d km → km_ok (destroy cfg id d km).2.
Proof.
  intros [Hk (c & Hc & Ha) Ht] Hd. unfold destroy. destruct (dict_get id (km_keys km)) as [k|] eqn:E; [|by split; eauto].
  simpl. pose proof (keyed_get ek_id _ _ _ Hk E) as Hid.
  assert (∀ k0, ek_id (mark_destroyed k0) = ek_id k0) as Hm by done.
  case_decide as Hcur.
  - assert (km_ok (rotate cfg d (mk_manager (km_keys km) ""))) as [Hk' (c' & Hc' & Ha') Ht'].
    { apply rotate_ok; [apply Hd|done]. }
    split; [by apply keyed_upd_key| |by rewrite current_upd_key].
    exists c'. split; [|done]. rewrite current_upd_key, get_upd_key. rewrite decide_False; [done|].
    simpl. intros Heq. eapply (fresh_ne d km id); eauto.
  - split; [by apply keyed_upd_key| |by rewrite current_upd_key].
    exists c. split; [|done]. rewrite current_upd_key, get_upd_key. rewrite decide_False; [done|]. congruence.
Qed.

Lemma apply_op_ok o km : km_ok km → fresh (op_draw o) km → km_ok (apply_op o km).
Proof.
  intros Hok Hf. destruct o as [d|d m|id now d|id now d|id d|now d]; simpl in *.
  - apply rotate_ok; [apply Hf|apply Hok].
  - destruct (rotate_ok d km (proj1 Hf) (ok_keyed _ Hok)) as [Hk (c & Hc & Ha) Ht].
    unfold rotate_with_material. split; [by apply keyed_upd_key| |by rewrite current_upd_key].
    exists (with_material m c). split; [|done]. rewrite current_upd_key, get_upd_key. simpl in *.
    rewrite decide_True by done. by rewrite Hc.
  - unfold revoke. destruct (dict_get id (km_keys km)) eqn:E; [|done]. by apply end_key_ok.
  - unfold expire. destruct (dict_get id (km_keys km)) eqn:E; [|done]. by apply end_key_ok.
  - by apply destroy_ok.
  - unfold enforce_rotation. destruct (auto_rotation_due cfg now km) as [[]|]; simpl; [|done|done].
    apply rotate_ok; [apply Hf|apply Hok].
Qed.

Lemma managed_ok km : managed km → km_ok km.
Proof.
  induction 1; [|by apply apply_op_ok]. by apply rotate_ok; [|apply keyed_nil].
Qed.

Lemma later_ok km km' : later km km' → km_ok km → km_ok km'.
Proof. induction 1; [done|]. intros. apply apply_op_ok; auto. Qed.

Lemma dead_end_key id f d km id' k :
  (∀ k, dead k → dead (f k)) → fresh d km → dead_in id' km →
  let km1 := upd_key id f km in dead_in id' (if decide (ek_id k = km_current km1) then rotate cfg d km1 else km1).
Proof.
  intros Hf Hd Hdead km1. assert (dead_in id' km1) by by apply dead_upd_key.
  case_decide; [|done]. apply dead_rotate; [|done]. by apply fresh_upd_key.
Qed.

Lemma dead_apply o km id : fresh (op_draw o) km → dead_in id km → dead_in id (apply_op o km).
Proof.
  intros Hf Hdead. destruct o as [d|d m|i now d|i now d|i d|now d]; simpl in *.
  - by apply dead_rotate.
  - unfold rotate_with_material.
    assert (id ≠ d_id d) as Hne by (destruct Hdead as (k & Hk & _); by eapply fresh_ne).
    destruct (dead_rotate d km id Hf Hdead) as (k & Hk & Hd). exists k.
    rewrite get_upd_key, decide_False by done. done.
  - unfold revoke. destruct (dict_get i (km_keys km)) eqn:E; [|done]. apply dead_end_key; [by left|done|done].
  - unfold expire. destruct (dict_get i (km_keys km)) eqn:E; [|done]. apply dead_end_key; [by right; left|done|done].
  - unfold destroy. destruct (dict_get i (km_keys km)) eqn:E; [|done]. simpl.
    apply dead_upd_key; [by right; right|]. case_decide; [|done]. by apply dead_rotate.
  - unfold enforce_rotation. destruct (auto_rotation_due cfg now km) as [[]|]; simpl; [|done|done].
    by apply dead_rotate.
Qed.

Lemma check_key_some now k k' : check_key now k = Ok (Some k') → k' = k ∧ ¬ dead k.
Proof.
  unfold check_key. case_decide as Hr; [done|]. case_bool_decide as He; simpl; [done|].
  destruct (key_is_expired now k); [done|]. destruct (usable now k) eqn:Hu; [|done]. intros [= <-]. split; [done|].
  intros [?|[?|[_ Hm]]]; try done. unfold usable in Hu. rewrite Hm in Hu. simpl in Hu. by rewrite andb_false_r in Hu.
Qed.

Lemma provider_not_dead km now name v k :
  km_ok km → key_provider km now name v = Ok (Some k) → dict_get (ek_id k) (km_keys km) = Some k ∧ ¬ dead k.
Proof.
  intros [Hk _ _]. unfold key_provider, current_key. case_decide.
  - destruct (negb _); [done|]. destruct (dict_get (km_current km) (km_keys km)) as [c|] eqn:E; [|done].
    intros [-> Hd]%check_key_some. by rewrite (keyed_get _ _ _ _ Hk E).
  - destruct (dict_get name (km_keys km)) as [c|] eqn:E; [|done]. destruct (_ && _); [done|].
    intros [-> Hd]%check_key_some. by rewrite (keyed_get _ _ _ _ Hk E).
Qed.

(** Once a key was revoked, expired or destroyed, whatever rotations,
    revocations, expirations and destructions follow, the manager never hands it
    out again, neither by its id nor as the current key, whatever the clock says. *)
Theorem dead_key_never_used km km' id now name v k :
  managed km → dead_in id km → later km km' → key_provider km' now name v = Ok (Some k) → ek_id k ≠ id.
Proof.
  intros Hm Hdead Hl Hp Heq. subst id.
  assert (dead_in (ek_id k) km') as (k' & Hk' & Hd').
  { clear Hp. induction Hl; [done|]. apply dead_apply; auto. }
  apply provider_not_dead in Hp as [Hk Hnd]; [|by eapply later_ok, managed_ok].
  rewrite Hk in Hk'. injection Hk' as <-. done.
Qed.
End Dead.

(** ** Padding *)

Lemma slen_app (a b : string) : String.length (a ++ b) = (String.length a + String.length b)%nat.
Proof.
  induction a as [|c a IH]; [done|].
  change (S (String.length (a ++ b)) = S (String.length a + String.length b)). by rewrite IH.
Qed.

Lemma slen_fill a n : String.length (fill a n) = n.
Proof. induction n as [|n IH]; [done|]. simpl. by rewrite IH. Qed.

Lemma get_fill a n i : (i < n)%nat → String.get i (fill a n) = Some a.
Proof. revert i. induction n as [|n IH]; intros [|i] Hi; try lia; simpl; [done|]. apply IH. lia. Qed.

Lemma substring_app (a b : string) : String.substring 0 (String.length a) (a ++ b) = a.
Proof.
  induction a as [|c a IH]; [by destruct b|].
  change (String c (String.substring 0 (String.length a) (a ++ b)) = String c a). by rewrite IH.
Qed.

Lemma substring_all (a : string) : String.substring 0 (String.length a) a = a.
Proof.
  induction a as [|c a IH]; [done|].
  change (String c (String.substring 0 (String.length a) a) = String c a). by rewrite IH.
Qed.

Lemma substring_drop (a b : string) : String.substring (String.length a) (String.length b) (a ++ b) = b.
Proof.
  induction a as [|c a IH]; [apply substring_all|].
  change (String.substring (String.length a) (String.length b) (a ++ b) = b). exact IH.
Qed.

Lemma unpad_pad p : unpad_bytes (pad_bytes p) = Ok p.
Proof.
  unfold unpad_bytes, pad_bytes. set (pad := 16 - Z.of_nat (String.length p) mod 16).
  assert (1 <= pad <= 16) as Hpad by (unfold pad; Z.div_mod_to_equations; lia).
  assert (String.length (repeat_byte pad) = Z.to_nat pad) as Hlen by apply slen_fill.
  assert (last_byte (p ++ repeat_byte pad) = Some pad) as ->.
  { unfold last_byte. rewrite slen_app, Hlen.
    replace (String.length p + Z.to_nat pad - 1)%nat with (Z.to_nat pad - 1 + String.length p)%nat by lia.
    rewrite <- String.append_correct2. unfold repeat_byte. rewrite get_fill by lia.
    f_equal. unfold byte_val, val_byte. rewrite Z.mod_small by lia. rewrite N_ascii_embedding by lia. lia. }
  rewrite (proj2 (Z.leb_le _ _)), (proj2 (Z.leb_le _ _)) by lia. simpl. f_equal.
  rewrite slen_app, Hlen. replace (String.length p + Z.to_nat pad - Z.to_nat pad)%nat with (String.length p) by lia.
  apply substring_app.
Qed.

(** ** Envelopes *)

Section Envelopes.
Context `{CipherLaws} (cfg : SecurityConfig).

Lemma aes_round_trip alg p key iv c tag :
  aes_encrypt alg p key iv = Ok (c, tag) → aes_decrypt alg c key iv tag = Ok p.
Proof.
  destruct alg; simpl.
  - destruct (gcm_encrypt key iv p) as [r|] eqn:E; [|done]. intros [= ->]. by rewrite (gcm_correct _ _ _ _ _ E).
  - destruct (cbc_encrypt key iv (pad_bytes p)) as [r|] eqn:E; [|done]. intros [= -> _].
    rewrite (cbc_correct _ _ _ _ E). apply unpad_pad.
Qed.

Lemma b64_tag_encode tag : b64_tag (b64encode tag) = Some tag.
Proof.
  unfold b64_tag. destruct tag as [|a [|b [|c s]]]; [done|..].
  all: by rewrite b64_decode_encode.
Qed.

Lemma wrapped_parts iv tag c :
  split_on "|" (join "|" [b64encode iv; b64encode tag; b64encode c]) = [b64encode iv; b64encode tag; b64encode c].
Proof. apply split_join; [done|]. repeat constructor; apply b64_no_bar. Qed.

Lemma wrapped_truthy iv tag c : truthy (join "|" [b64encode iv; b64encode tag; b64encode c]) = true.
Proof. unfold join. simpl. by destruct (b64encode iv). Qed.

(** What a wrapped key is: the encryption of the data key under the master. *)
Lemma wrap_key_inv data master iv w :
  wrap_key cfg data master iv = Ok w →
  truthy w = true ∧ ∃ c tag, aes_encrypt (sg_algorithm cfg) data (ek_material master) iv = Ok (c, tag) ∧
    ∀ master', unwrap_key cfg w master' =
      match aes_decrypt (sg_algorithm cfg) c (ek_material master') iv tag with
      | Ok m => Ok m
      | Err _ => Err (DecryptionError "key unwrap failed")
      end.
Proof.
  unfold wrap_key. destruct (aes_encrypt _ data _ iv) as [[c tag]|] eqn:E; [|done].
  intros Hw. assert (w = join "|" [b64encode iv; b64encode tag; b64encode c]) as -> by congruence.
  split; [apply wrapped_truthy|]. exists c, tag. split; [done|]. intros m.
  unfold unwrap_key. rewrite wrapped_parts, !b64_decode_encode, b64_tag_encode. done.
Qed.

(** An envelope for the current key, in terms of its parts *)
Lemma encrypt_inv km now ivw iv p e :
  encrypt cfg km now ivw iv p "" 1 = Ok e →
  ∃ k c tag, resolve_current km now = Ok k ∧ aes_encrypt (sg_algorithm cfg) p (ek_material k) iv = Ok (c, tag) ∧
    en_key_id e = ek_id k ∧ en_key_version e = ek_version k ∧ en_iv e = b64encode iv ∧ en_tag e = b64encode tag ∧
    en_ciphertext e = b64encode c ∧
    if sg_envelope_enabled cfg then wrap_key cfg (ek_material k) k ivw = Ok (en_wrapped_key e)
    else en_wrapped_key e = "".
Proof.
  unfold encrypt, envelope_encrypt. simpl. destruct (resolve_current km now) as [k|] eqn:Ek; [|done].
  destruct (sg_envelope_enabled cfg).
  - destruct (wrap_key cfg (ek_material k) k ivw) as [w|] eqn:Ew; [|done].
    destruct (aes_encrypt _ p _ iv) as [[c tag]|] eqn:Ec; [|done].
    intros Hok. assert (e = mk_envelope (ek_id k) (ek_version k) (algorithm_text (sg_algorithm cfg)) (b64encode iv) (b64encode tag)
      (b64encode c) w) as -> by congruence. by exists k, c, tag.
  - destruct (aes_encrypt _ p _ iv) as [[c tag]|] eqn:Ec; [|done].
    intros Hok. assert (e = mk_envelope (ek_id k) (ek_version k) (algorithm_text (sg_algorithm cfg)) (b64encode iv) (b64encode tag)
      (b64encode c) "") as -> by congruence. by exists k, c, tag.
Qed.

Lemma check_key_usable now k k' : check_key now k = Ok (Some k') → k' = k ∧ usable now k = true.
Proof.
  unfold check_key. case_decide; [done|]. destruct (_ || _); [done|]. destruct (usable now k) eqn:E; [|done].
  by intros [= <-].
Qed.

Lemma resolve_current_inv km now k :
  resolve_current km now = Ok k →
  dict_get (km_current km) (km_keys km) = Some k ∧ truthy (km_current km) = true ∧ check_key now k = Ok (Some k) ∧
  usable now k = true.
Proof.
  unfold resolve_current, key_provider, current_key. rewrite decide_True by done.
  destruct (truthy (km_current km)); simpl; [|done].
  destruct (dict_get (km_current km) (km_keys km)) as [c|]; [|done].
  destruct (check_key now c) as [[k'|]|] eqn:Ec; [|done|done].
  destruct (check_key_usable _ _ _ Ec) as [-> Hu]. rewrite Hu. intros [= <-]. done.
Qed.

Lemma resolve_key_ok km now id k :
  dict_get id (km_keys km) = Some k → id ≠ "current" → check_key now k = Ok (Some k) →
  resolve_key km now id (ek_version k) = Ok k.
Proof.
  intros Hg Hid Hc. unfold resolve_key, key_provider. rewrite decide_False, Hg by done.
  rewrite Z.eqb_refl, andb_false_r, Hc. by destruct (check_key_usable _ _ _ Hc) as [_ ->].
Qed.

(** Decryption, given the material of the data key *)
Lemma decrypt_with km now e p iv c tag material k :
  resolve_key km now (en_key_id e) (en_key_version e) = Ok k →
  (if truthy (en_wrapped_key e) then
     match resolve_current km now with Err err => Err err | Ok m => unwrap_key cfg (en_wrapped_key e) m end
   else Ok (ek_material k)) = Ok material →
  en_iv e = b64encode iv → en_tag e = b64encode tag → en_ciphertext e = b64encode c →
  aes_encrypt (sg_algorithm cfg) p material iv = Ok (c, tag) →
  envelope_decrypt cfg km now e = Ok p.
Proof.
  intros Hk Hm Hi Ht Hc He. unfold envelope_decrypt. rewrite Hk, Hm, Hi, Ht, Hc, !b64_decode_encode, b64_tag_encode.
  by apply aes_round_trip.
Qed.

Lemma envelope_round_trip_aux km now now' ivw iv p e :
  managed cfg km → km_current km ≠ "current" →
  encrypt cfg km now ivw iv p "" 1 = Ok e → is_ok (resolve_current km now') = true →
  envelope_decrypt cfg km now' e = Ok p.
Proof.
  intros Hm Hne He Hok. destruct (managed_ok _ _ Hm) as [Hk _ _].
  destruct (encrypt_inv _ _ _ _ _ _ He) as (k & c & tag & Hr & Hc & Hid & Hv & Hi & Ht & Hct & Hw).
  destruct (resolve_current_inv _ _ _ Hr) as (Hg & _).
  destruct (resolve_current km now') as [k'|] eqn:Hr'; [|done].
  destruct (resolve_current_inv _ _ _ Hr') as (Hg' & _ & Hck & _).
  assert (k' = k) as -> by congruence. pose proof (keyed_get _ _ _ _ Hk Hg) as Hkid.
  eapply decrypt_with with (material := ek_material k) (k := k); [|..|done].
  - rewrite Hid, Hv, Hkid. by apply resolve_key_ok.
  - destruct (sg_envelope_enabled cfg).
    + destruct (wrap_key_inv _ _ _ _ Hw) as (-> & wc & wt & Hwe & Hu). rewrite Hr', Hu.
      by rewrite (aes_round_trip _ _ _ _ _ _ Hwe).
    + by rewrite Hw.
  - done.
  - done.
  - done.
Qed.

(** A rotation makes every earlier envelope unreadable in envelope mode: the data
    key was wrapped by the key that was current, and is unwrapped by the key that
    is current now. *)
Theorem rotation_loses_envelopes km d now now' ivw iv p e :
  sg_algorithm cfg = AES_256_GCM → sg_envelope_enabled cfg = true →
  managed cfg km → fresh d km → encrypt cfg km now ivw iv p "" 1 = Ok e →
  (∀ k, dict_get (km_current km) (km_keys km) = Some k → d_material d ≠ ek_material k) →
  is_ok (envelope_decrypt cfg (rotate cfg d km) now' e) = false.
Proof.
  intros Halg Henv Hm Hf He Hne.
  destruct (encrypt_inv _ _ _ _ _ _ He) as (k & c & tag & Hr & Hc & Hid & Hv & Hi & Ht & Hct & Hw).
  rewrite Henv in Hw. destruct (wrap_key_inv _ _ _ _ Hw) as (Htr & wc & wt & Hwe & Hu).
  destruct (resolve_current_inv _ _ _ Hr) as (Hg & _).
  unfold envelope_decrypt. destruct (resolve_key _ _ _ _); [|done]. rewrite Htr.
  destruct (resolve_current (rotate cfg d km) now') as [m|] eqn:Em; [|done].
  apply resolve_current_inv in Em as (Em & _). simpl in Em. rewrite dict_get_set_eq in Em.
  assert (ek_material m = d_material d) as Hmat by (injection Em as <-; done).
  rewrite Hu, Hmat. rewrite Halg in Hwe |- *. simpl in Hwe |- *.
  destruct (gcm_encrypt (ek_material k) ivw (ek_material k)) as [r|] eqn:Eg; [|done]. injection Hwe as ->.
  destruct (gcm_authentic _ (d_material d) _ _ _ _ Eg (Hne _ Hg)) as [err ->]. done.
Qed.

(** Without envelope mode an envelope survives a rotation. *)
Lemma plain_survives_rotation km d now now' ivw iv p e :
  sg_envelope_enabled cfg = false → managed cfg km → fresh d km → km_current km ≠ "current" →
  encrypt cfg km now ivw iv p "" 1 = Ok e → is_ok (resolve_current km now') = true →
  envelope_decrypt cfg (rotate cfg d km) now' e = Ok p.
Proof.
  intros Henv Hm Hf Hcur He Hok. destruct (managed_ok _ _ Hm) as [Hk (k0 & Hk0 & Ha) Htr].
  destruct (encrypt_inv _ _ _ _ _ _ He) as (k & c & tag & Hr & Hc & Hid & Hv & Hi & Ht & Hct & Hw).
  rewrite Henv in Hw. destruct (resolve_current_inv _ _ _ Hr) as (Hg & _).
  destruct (resolve_current km now') as [k'|] eqn:Hr'; [|done].
  destruct (resolve_current_inv _ _ _ Hr') as (Hg' & _ & Hck & Hus).
  assert (k' = k) as -> by congruence. assert (k0 = k) as -> by congruence.
  pose proof (keyed_get _ _ _ _ Hk Hg) as Hkid.
  assert (dict_get (ek_id k) (km_keys (rotate cfg d km)) = Some (retire (d_now d) k)) as Hg2.
  { rewrite get_rotate; [|rewrite Hkid; by eapply fresh_ne]. rewrite Htr, Hkid, bool_decide_true by done. simpl.
    rewrite Hg. simpl. unfold retires. by rewrite decide_True. }
  eapply decrypt_with with (material := ek_material k) (k := retire (d_now d) k); [| |done..].
  - rewrite Hid, Hv. apply (resolve_key_ok _ _ _ (retire (d_now d) k)); [done|by rewrite Hkid|].
    unfold check_key, usable, key_is_revoked, key_is_expired in *. simpl in *.
    apply andb_prop in Hus as [Hus Hmat]. apply andb_prop in Hus as [_ Hexp]. apply negb_true_iff in Hexp.
    by rewrite Hexp, Hmat.
  - by rewrite Hw.
Qed.

(** *** Fields *)

Lemma field_ind (P : FieldVal → Prop) :
  P FNone → (∀ b, P (FBool b)) → (∀ z, P (FInt z)) → (∀ x, P (FFloat x)) → (∀ s, P (FStr s)) → (∀ s, P (FBytes s)) →
  (∀ d, Forall (λ p, P p.2) d → P (FDict d)) → (∀ l, Forall P l → P (FList l)) → (∀ l, P (FTuple l)) →
  (∀ s, P (FOther s)) → ∀ v, P v.
Proof.
  intros HN HB HI HF HS HY HD HL HT HO. fix IH 1.
  intros [|b|z|x|s|s|d|l|l|s]; [exact HN|exact (HB b)|exact (HI z)|exact (HF x)|exact (HS s)|exact (HY s)| | |exact (HT l)|exact (HO s)].
  - apply HD. revert d. fix IHd 1. intros [|[k x] d]; constructor; [exact (IH x)|exact (IHd d)].
  - apply HL. revert l. fix IHl 1. intros [|x l]; constructor; [exact (IH x)|exact (IHl l)].
Qed.

(** Values that decryption gives back: no [bytes], tuples or other objects, whose
    type is lost, and no dict that looks like an envelope *)
Fixpoint plain (v : FieldVal) : bool :=
  match v with
  | FNone | FBool _ | FInt _ | FFloat _ => true
  | FStr s => utf8_valid s
  | FDict d => match enc_entry d with None => forallb (λ p, plain p.2) d | Some _ => false end
  | FList l => forallb plain l
  | FBytes _ | FTuple _ | FOther _ => false
  end.

Lemma envelope_dict_round_trip e : envelope_from_dict (envelope_to_dict e) = Some e.
Proof. by destruct e. Qed.

Lemma enc_entry_keys d d' : d.*1 = d'.*1 → enc_entry d = None → enc_entry d' = None.
Proof.
  destruct d as [|[k x] [|]], d' as [|[k' x'] [|]]; simpl; try done. intros [= ->]. by case_decide.
Qed.

Section FieldRoundTrip.
Context (km : KeyManager) (now now' : float) (ivs : nat → string * string).
Hypothesis Hmanaged : managed cfg km.
Hypothesis Hcurrent : km_current km ≠ "current".
Hypothesis Husable : is_ok (resolve_current km now') = true.

Lemma items_round_trip l n r n' :
  Forall (λ v, ∀ n w n', plain v = true → encrypt_field cfg km now "" ivs v n = Ok (w, n') → decrypt_field cfg km now' w = Ok v) l →
  forallb plain l = true → thread_items (encrypt_field cfg km now "" ivs) l n = Ok (r, n') →
  each_item (decrypt_field cfg km now') r = Ok l.
Proof.
  intros Hl. revert n r n'. induction Hl as [|v l Hv Hl IH]; intros n r n' Hp Ht; simpl in *; [by injection Ht as <- _|].
  apply andb_prop in Hp as [Hpv Hp]. destruct (encrypt_field _ _ _ _ _ v n) as [[y n1]|] eqn:Ey; [|done].
  destruct (thread_items _ l n1) as [[r' n2]|] eqn:Er; [|done]. injection Ht as <- <-. simpl.
  rewrite (Hv _ _ _ Hpv Ey). by rewrite (IH _ _ _ Hp Er).
Qed.

Lemma fields_round_trip d n r n' :
  Forall (λ p, ∀ n w n', plain p.2 = true → encrypt_field cfg km now "" ivs p.2 n = Ok (w, n') → decrypt_field cfg km now' w = Ok p.2) d →
  forallb (λ p, plain p.2) d = true → thread_fields (encrypt_field cfg km now "" ivs) d n = Ok (r, n') →
  r.*1 = d.*1 ∧ each_field (decrypt_field cfg km now') r = Ok d.
Proof.
  intros Hl. revert n r n'. induction Hl as [|[k v] d Hv Hl IH]; intros n r n' Hp Ht; simpl in *; [by injection Ht as <- _|].
  apply andb_prop in Hp as [Hpv Hp]. destruct (encrypt_field _ _ _ _ _ v n) as [[y n1]|] eqn:Ey; [|done].
  destruct (thread_fields _ d n1) as [[r' n2]|] eqn:Er; [|done]. injection Ht as <- <-. simpl.
  destruct (IH _ _ _ Hp Er) as [Hk Hd]. rewrite (Hv _ _ _ Hpv Ey), Hd. split; [|done].
  change (k :: r'.*1 = k :: d.*1). by rewrite Hk.
Qed.

(** Field encryption keeps the shape of a value, and decryption gives it back
    while the current key stays, for every nesting of dicts, lists and texts. *)
Theorem field_round_trip v n w n' :
  plain v = true → encrypt_field cfg km now "" ivs v n = Ok (w, n') → decrypt_field cfg km now' w = Ok v.
Proof.
  revert n w n'. induction v as [|b|z|x|s|s|d IH|l IH|l|s] using field_ind; intros n w n' Hp He; simpl in *; try done;
    try (by injection He as <- _).
  - unfold encrypt_text in He.
    destruct (encrypt cfg km now (ivs n).1 (ivs n).2 s "" 1) as [e|] eqn:Ee; [|done]. injection He as <- _.
    simpl. unfold decrypt_text. rewrite envelope_dict_round_trip.
    rewrite (envelope_round_trip_aux _ _ _ _ _ _ _ Hmanaged Hcurrent Ee Husable). by rewrite Hp.
  - destruct (enc_entry d) eqn:En; [done|].
    destruct (thread_fields _ d n) as [[r n1]|] eqn:Et; [|done]. injection He as <- _.
    destruct (fields_round_trip _ _ _ _ IH Hp Et) as [Hk Hr]. simpl.
    by rewrite (enc_entry_keys d r), Hr.
  - destruct (thread_items _ l n) as [[r n1]|] eqn:Et; [|done]. injection He as <- _. simpl.
    by rewrite (items_round_trip _ _ _ _ IH Hp Et).
Qed.
End FieldRoundTrip.

(** A dict with the single key [__enc__] is taken for an envelope. *)
Lemma enc_dict_mistaken km now now' ivs s n w n' :
  encrypt_field cfg km now "" ivs (FDict [("__enc__", FStr s)]) n = Ok (w, n') →
  decrypt_field cfg km now' w ≠ Ok (FDict [("__enc__", FStr s)]).
Proof.
  simpl. unfold encrypt_text. destruct (encrypt _ _ _ _ _ s _ _) as [e|]; [|done]. intros [= <- _]. simpl.
  unfold decrypt_text. simpl.
  destruct (envelope_decrypt _ _ _ _) as [p|]; [|done]. by destruct (utf8_valid p).
Qed.

(** The purpose of a stored value is never compared: decryption drops it. *)
Lemma storage_ignores_purpose km now now' mac ivs value purpose e :
  String.length (mac purpose) = 32%nat → managed cfg km → km_current km ≠ "current" → utf8_valid value = true →
  encrypt_value cfg km mac now ivs value "" purpose = Ok e → is_ok (resolve_current km now') = true →
  decrypt_value cfg km now' e = Ok value.
Proof.
  intros Hmac Hm Hc Hu He Hr. unfold encrypt_value in He. unfold decrypt_value.
  rewrite (envelope_round_trip_aux _ _ _ _ _ _ _ Hm Hc He Hr).
  assert (String.substring 32 (String.length (mac purpose ++ value) - 32) (mac purpose ++ value) = value) as ->.
  { rewrite slen_app, Hmac. replace (32 + String.length value - 32)%nat with (String.length value) by lia.
    rewrite <- Hmac. apply substring_drop. }
  by rewrite Hu.
Qed.
End Envelopes.

(** ** Concrete runs *)

#[local] Instance toy_cipher : CipherLib := {|
  gcm_encrypt key iv p := Ok (p, key);
  gcm_decrypt key iv tag c := if decide (tag = key) then Ok c else Err "InvalidTag";
  cbc_encrypt key iv p := Ok p;
  cbc_decrypt key iv c := Ok c
|}.
#[local] Instance toy_laws : CipherLaws.
Proof.
  split; simpl.
  - intros key iv p c t [= <- <-]. by rewrite decide_True.
  - intros key key' iv p c t [= <- <-] Hne. rewrite decide_False by done. by eexists.
  - by intros key iv p c [= <-].
Defined.

Definition demo_config : SecurityConfig := mk_sconfig AES_256_GCM true 90.
Definition demo_keys : KeyManager := create_manager demo_config (mk_draw "key-1" "alpha" fone).

Lemma demo_managed : managed demo_config demo_keys.
Proof. by apply managed_new. Qed.

Definition demo_value : FieldVal := FDict [("name", FStr "Ada"); ("tags", FList [FStr "x"; FInt 3])].

Lemma field_round_trip_witness :
  ∃ w n', encrypt_field demo_config demo_keys fone "" (λ _, ("i", "j")) demo_value 0 = Ok (w, n') ∧
    decrypt_field demo_config demo_keys fone w = Ok demo_value.
Proof.
  destruct (encrypt_field demo_config demo_keys fone "" (λ _, ("i", "j")) demo_value 0) as [[w n']|e] eqn:E.
  - exists w, n'. split; [reflexivity|].
    refine (field_round_trip demo_config demo_keys fone fone (λ _, ("i", "j")) demo_managed _ _ demo_value 0 w n' _ E);
      [discriminate|reflexivity|reflexivity].
  - exfalso. vm_compute in E. discriminate.
Defined.

Lemma rotation_loses_envelopes_witness :
  ∃ e, encrypt demo_config demo_keys fone "i" "j" "secret" "" 1 = Ok e ∧
    is_ok (envelope_decrypt demo_config (rotate demo_config (mk_draw "key-2" "beta" fone) demo_keys) fone e) = false.
Proof.
  destruct (encrypt demo_config demo_keys fone "i" "j" "secret" "" 1) as [e|err] eqn:E.
  - exists e. split; [reflexivity|].
    refine (rotation_loses_envelopes demo_config demo_keys (mk_draw "key-2" "beta" fone) fone fone "i" "j" "secret" e
      eq_refl eq_refl demo_managed _ E _); [by split|].
    intros k Hk. vm_compute in Hk. injection Hk as <-. discriminate.
  - exfalso. vm_compute in E. discriminate.
Defined.

Definition demo_revoked : KeyManager :=
  apply_op demo_config (ORevoke "key-1" fone (mk_draw "key-2" "beta" fone)) demo_keys.

Lemma dead_key_never_used_witness :
  let km := apply_op demo_config (ORotate (mk_draw "key-3" "gamma" fone)) demo_revoked in
  ∃ k, key_provider km fone "current" 0 = Ok (Some k) ∧ ek_id k ≠ "key-1".
Proof.
  intros km. destruct (key_provider km fone "current" 0) as [[k|]|e] eqn:E.
  - exists k. split; [reflexivity|].
    refine (dead_key_never_used demo_config demo_revoked km "key-1" fone "current" 0 k _ _ _ E).
    + apply managed_op; [apply demo_managed|by split].
    + eexists. split; [vm_compute; reflexivity|by left].
    + apply later_op; [apply later_refl|by split].
  - exfalso. vm_compute in E. discriminate.
  - exfalso. vm_compute in E. discriminate.
Defined.
End SecKeys.
