(* ===== verification/ZeroTrust.v ===== *)
(** * Zero-trust enforcement

    [src/app/security/zero_trust.py]: policies, sessions, lockout and the
    pipeline of [ZeroTrustEnforcer].  A session is known by its id in the table
    of the enforcer, which holds the object that contexts refer to; validators
    are arguments. *)

From Stdlib Require Import ZArith Lia Sorted.
From Stdlib Require Import Ascii.
From stdpp Require Import base numbers strings gmap list relations.
From S2P Require Import Prelude PyFloat PyNum PyStr PyDict PyMath PyVal.

Open Scope string_scope.
Open Scope Z_scope.

Module ZeroTrust.

(** ** Data *)

Inductive AuthMethod := AM_PASSWORD | AM_TOTP | AM_API_KEY | AM_OAUTH | AM_SAML | AM_CLIENT_CERTIFICATE | AM_MFA.
Inductive Decision := D_ALLOW | D_DENY.
Inductive PolicyEffect := PE_ALLOW | PE_DENY.
Inductive SessionStatus := SS_ACTIVE | SS_EXPIRED | SS_REVOKED.

#[export] Instance method_eq_dec : EqDecision AuthMethod.
Proof. solve_decision. Defined.
#[export] Instance effect_eq_dec : EqDecision PolicyEffect.
Proof. solve_decision. Defined.
#[export] Instance sstatus_eq_dec : EqDecision SessionStatus.
Proof. solve_decision. Defined.

Record Subject := mk_subject {
  sb_id : string;
  sb_tenant : string;
  sb_roles : list string;
  sb_groups : list string;
  sb_attributes : dict string pyval
}.

Record ZtSession := mk_session {
  se_id : string;
  se_subject_id : string;
  se_tenant : string;
  se_issued_at : float;
  se_last_seen : float;
  se_expires_at : float;
  se_status : SessionStatus
}.

Record AuthContext := mk_context {
  ac_subject : Subject;
  ac_method : AuthMethod;
  ac_session : option string;
  ac_device : string;
  ac_ip_address : string;
  ac_mfa_verified : bool
}.

Record AccessPolicy := mk_policy {
  po_id : string;
  po_name : string;
  po_effect : PolicyEffect;
  po_subjects : list string;
  po_resources : list string;
  po_actions : list string;
  po_conditions : dict string pyval;
  po_priority : Z
}.

Record PolicyResult := mk_result {
  pr_allowed : bool;
  pr_decision : Decision;
  pr_reasons : list string;
  pr_matched_policy : string
}.

Inductive ZtErr :=
| AuthenticationError (msg : string)
| TenantValidationError
| SessionValidationError (msg : string)
| PolicyEvaluationError
| CallbackError (msg : string).   (** an exception of a validator *)

(** ** Policies *)

Definition str_mem (x : string) (l : list string) : bool := bool_decide (x ∈ l).
Definition nonempty {A} (l : list A) : bool := match l with [] => false | _ => true end.

(** [r.rstrip("*")] *)
Fixpoint rstrip_stars (s : string) : string :=
  match s with
  | EmptyString => EmptyString
  | String a s' =>
      match rstrip_stars s' with
      | EmptyString => if decide (a = "*"%char) then EmptyString else String a EmptyString
      | t => String a t
      end
  end.

Definition resource_matches (resource r : string) : bool :=
  bool_decide (resource = r) || startswith (rstrip_stars r) resource.

Definition policy_matches (p : AccessPolicy) (s : Subject) (action resource : string) : bool :=
  if nonempty (po_subjects p) && negb (str_mem (sb_id s) (po_subjects p)) then false
  else if nonempty (po_resources p) && negb (existsb (resource_matches resource) (po_resources p)) then false
  else if nonempty (po_actions p) && negb (str_mem action (po_actions p)) then false
  else true.

(** [expected in l] for a list of texts *)
Definition attr_in (v : pyval) (l : list string) : bool :=
  match v with PScalar (SStr s) => str_mem s l | _ => false end.

(** [attr_key, attr_value = expected]; [None] stands for the exception. *)
Definition unpack_pair (v : pyval) : option (scalar * scalar) :=
  match v with
  | PList [a; b] => Some (a, b)
  | PScalar (SStr (String a (String b EmptyString))) => Some (SStr (String a EmptyString), SStr (String b EmptyString))
  | _ => None
  end.

Definition attribute_of (s : Subject) (k : scalar) : pyval :=
  match k with SStr key => default PNone (dict_get key (sb_attributes s)) | _ => PNone end.

(** One condition; [None] when it raises. *)
Definition condition_holds (key : string) (expected : pyval) (s : Subject) (action resource : string) : option bool :=
  if decide (key = "role") then Some (nonempty (sb_roles s) && attr_in expected (sb_roles s))
  else if decide (key = "group") then Some (nonempty (sb_groups s) && attr_in expected (sb_groups s))
  else if decide (key = "tenant") then Some (truthy (sb_tenant s) && val_eq expected (PStr (sb_tenant s)))
  else if decide (key = "attribute") then
    if nonempty (sb_attributes s) then
      match unpack_pair expected with
      | Some (k, v) => Some (val_eq (attribute_of s k) (PScalar v))
      | None => None
      end
    else Some false
  else if decide (key = "action") then Some (val_eq expected (PStr action))
  else if decide (key = "resource") then Some (val_eq expected (PStr resource))
  else Some false.

Fixpoint evaluate_conditions (cs : dict string pyval) (s : Subject) (action resource : string) : option bool :=
  match cs with
  | [] => Some true
  | (key, expected) :: cs' =>
      match condition_holds key expected s action resource with
      | Some true => evaluate_conditions cs' s action resource
      | r => r
      end
  end.

(** [sorted(self._policies, key=lambda p: p.priority, reverse=True)] *)
Definition by_priority (ps : list AccessPolicy) : list AccessPolicy := py_sorted (λ a b, po_priority b <? po_priority a) ps.

Definition evaluate_policies (ps : list AccessPolicy) (s : Subject) (action resource : string) : result ZtErr PolicyResult :=
  match List.find (λ p, policy_matches p s action resource) (by_priority ps) with
  | None => Ok (mk_result false D_DENY ["no policy matched"] "")
  | Some p =>
      if decide (po_effect p = PE_DENY) then Ok (mk_result false D_DENY ["matched deny policy"] (po_id p))
      else
        let allow := mk_result true D_ALLOW ["matched allow policy"] (po_id p) in
        if nonempty (po_conditions p) then
          match evaluate_conditions (po_conditions p) s action resource with
          | None => Err PolicyEvaluationError
          | Some false => Ok (mk_result false D_DENY ["conditions not met"] (po_id p))
          | Some true => Ok allow
          end
        else Ok allow
  end.

(** ** The enforcer *)

Record ZtConfig := mk_ztconfig {
  zc_max_session_age : Z;
  zc_idle_timeout : Z;
  zc_max_failed_attempts : Z;
  zc_lockout_seconds : Z;
  zc_require_mfa : bool
}.

Record Enforcer := mk_enforcer {
  ze_policies : list AccessPolicy;
  ze_sessions : dict string ZtSession;
  ze_failed : dict string (list float);
  ze_lockout : dict string float
}.

Definition set_sessions (ss : dict string ZtSession) (z : Enforcer) : Enforcer :=
  mk_enforcer (ze_policies z) ss (ze_failed z) (ze_lockout z).
Definition set_failed (f : dict string (list float)) (z : Enforcer) : Enforcer :=
  mk_enforcer (ze_policies z) (ze_sessions z) f (ze_lockout z).
Definition set_lockout (l : dict string float) (z : Enforcer) : Enforcer :=
  mk_enforcer (ze_policies z) (ze_sessions z) (ze_failed z) l.

Definition with_sstatus (st : SessionStatus) (s : ZtSession) : ZtSession :=
  mk_session (se_id s) (se_subject_id s) (se_tenant s) (se_issued_at s) (se_last_seen s) (se_expires_at s) st.
Definition touch (now : float) (s : ZtSession) : ZtSession :=
  mk_session (se_id s) (se_subject_id s) (se_tenant s) (se_issued_at s) now (se_expires_at s) (se_status s).

Definition add_policies (ps : list AccessPolicy) (z : Enforcer) : Enforcer :=
  mk_enforcer (ze_policies z ++ ps)%list (ze_sessions z) (ze_failed z) (ze_lockout z).

Section Enforce.
Context (cfg : ZtConfig).

(** *** Sessions *)

Definition create_session (id : string) (now : float) (ttl : option Z) (s : Subject) (z : Enforcer) : Enforcer :=
  let ttl := default (zc_max_session_age cfg) ttl in
  let session := mk_session id (sb_id s) (sb_tenant s) now now (fadd now (float_of_Z ttl)) SS_ACTIVE in
  set_sessions (dict_set id session (ze_sessions z)) z.

Definition lapsed (now : float) (s : ZtSession) : bool := negb (is_fzero (se_expires_at s)) && fle (se_expires_at s) now.

Definition get_session (id : string) (now : float) (z : Enforcer) : option ZtSession * Enforcer :=
  match dict_get id (ze_sessions z) with
  | None => (None, z)
  | Some s =>
      if bool_decide (se_status s = SS_ACTIVE) && lapsed now s then
        let s' := with_sstatus SS_EXPIRED s in (Some s', set_sessions (dict_set id s' (ze_sessions z)) z)
      else (Some s, z)
  end.

Definition zt_revoke_session (id : string) (z : Enforcer) : bool * Enforcer :=
  match dict_get id (ze_sessions z) with
  | None => (false, z)
  | Some s => (true, set_sessions (dict_set id (with_sstatus SS_REVOKED s) (ze_sessions z)) z)
  end.

Definition of_subject (subject_id : string) (s : ZtSession) : bool :=
  bool_decide (se_subject_id s = subject_id) && bool_decide (se_status s = SS_ACTIVE).

Definition revoke_all_for_subject (subject_id : string) (z : Enforcer) : Z * Enforcer :=
  (zlen (List.filter (λ p, of_subject subject_id p.2) (ze_sessions z)),
   set_sessions ((λ p, (p.1, if of_subject subject_id p.2 then with_sstatus SS_REVOKED p.2 else p.2)) <$> ze_sessions z) z).

(** The session table and the outcome *)
Definition validate_session (id : string) (now : float) (z : Enforcer) : result ZtErr unit * Enforcer :=
  match dict_get id (ze_sessions z) with
  | None => (Ok tt, z)
  | Some s =>
      let put s' := set_sessions (dict_set id s' (ze_sessions z)) z in
      if decide (se_status s = SS_REVOKED) then (Err (SessionValidationError "revoked"), z)
      else if lapsed now s then (Err (SessionValidationError "expired"), put (with_sstatus SS_EXPIRED s))
      else if flt (float_of_Z (zc_idle_timeout cfg)) (fsub now (se_last_seen s)) then
        (Err (SessionValidationError "idle timeout"), put (with_sstatus SS_EXPIRED s))
      else (Ok tt, put (touch now s))
  end.

(** *** Lockout *)

Definition is_locked_out (subject_id : string) (now : float) (z : Enforcer) : bool * Enforcer :=
  let until := default fzero (dict_get subject_id (ze_lockout z)) in
  if flt now until then (true, z)
  else if negb (is_fzero until) then (false, set_lockout (dict_pop subject_id (ze_lockout z)) z)
  else (false, z).

Definition recent_failures (now : float) (l : list float) : list float :=
  List.filter (λ ts, fle (fsub now ts) (float_of_Z 60)) l.

Definition zt_record_failure (subject_id : string) (now : float) (z : Enforcer) : Z * Enforcer :=
  let attempts := (recent_failures now (default [] (dict_get subject_id (ze_failed z))) ++ [now])%list in
  if zc_max_failed_attempts cfg <=? zlen attempts then
    (zlen attempts,
     set_failed (dict_set subject_id [] (ze_failed z))
       (set_lockout (dict_set subject_id (fadd now (float_of_Z (zc_lockout_seconds cfg))) (ze_lockout z)) z))
  else (zlen attempts, set_failed (dict_set subject_id attempts (ze_failed z)) z).

Definition zt_reset_failures (subject_id : string) (z : Enforcer) : Enforcer :=
  set_lockout (dict_pop subject_id (ze_lockout z)) (set_failed (dict_pop subject_id (ze_failed z)) z).

(** *** The pipeline *)

(** What is registered for each method *)
Definition Validators : Type := AuthMethod → option (AuthContext → result string bool).

(** [mfa] answers for the context: [None] when nothing is registered. *)
Definition require_mfa (mfa : Validators) (c : AuthContext) : result ZtErr AuthContext :=
  match mfa (ac_method c) with
  | None => Err (AuthenticationError "mfa required but no validator")
  | Some v =>
      match v c with
      | Err e => Err (CallbackError e)
      | Ok false => Err (AuthenticationError "mfa failed")
      | Ok true => Ok (mk_context (ac_subject c) (ac_method c) (ac_session c) (ac_device c) (ac_ip_address c) true)
      end
  end.

Definition zt_authenticate (credentials mfa : Validators) (session_id : string) (now : float) (s : Subject)
    (method : AuthMethod) (device ip : string) (z : Enforcer) : result ZtErr AuthContext * Enforcer :=
  let '(locked, z) := is_locked_out (sb_id s) now z in
  if locked : bool then (Err (AuthenticationError "locked out"), z)
  else match credentials method with
  | None => (Err (AuthenticationError "no credential validator"), z)
  | Some validator =>
      let c := mk_context s method None device ip false in
      match validator c with
      | Err e => (Err (CallbackError e), z)
      | Ok false => (Err (AuthenticationError "invalid credential"), (zt_record_failure (sb_id s) now z).2)
      | Ok true =>
          let z := zt_reset_failures (sb_id s) z in
          match (if zc_require_mfa cfg then require_mfa mfa c else Ok c) with
          | Err e => (Err e, z)
          | Ok c =>
              (Ok (mk_context (ac_subject c) (ac_method c) (Some session_id) (ac_device c) (ac_ip_address c)
                     (ac_mfa_verified c)),
               create_session session_id now None s z)
          end
      end
  end.

Definition tenant_mismatch (s : Subject) (tenant : option string) : bool :=
  match tenant with Some t => negb (bool_decide (t = sb_tenant s)) | None => false end.

(** [authorize] for a context and [check] for a subject differ in what they log. *)
Definition check (s : Subject) (action resource : string) (session tenant : option string) (now : float) (z : Enforcer)
    : result ZtErr PolicyResult * Enforcer :=
  if tenant_mismatch s tenant then (Err TenantValidationError, z)
  else
    match session with
    | None => (evaluate_policies (ze_policies z) s action resource, z)
    | Some id =>
        match validate_session id now z with
        | (Err e, z') => (Err e, z')
        | (Ok _, z') => (evaluate_policies (ze_policies z') s action resource, z')
        end
    end.

Definition authorize (c : AuthContext) (action resource : string) (tenant : option string) (now : float) (z : Enforcer)
    : result ZtErr PolicyResult * Enforcer :=
  check (ac_subject c) action resource (ac_session c) tenant now z.
End Enforce.

(** ** Which policy decides *)

(** The policy that governs a request: it matches, every earlier policy that
    matches has a lower priority, no later one a higher. *)
Definition governs (ps : list AccessPolicy) (s : Subject) (action resource : string) (p : AccessPolicy) : Prop :=
  ∃ l1 l2, ps = (l1 ++ p :: l2)%list ∧ policy_matches p s action resource = true ∧
    (∀ q, q ∈ l1 → policy_matches q s action resource = true → po_priority q < po_priority p) ∧
    (∀ q, q ∈ l2 → policy_matches q s action resource = true → po_priority q <= po_priority p).

Section Find.
Context (m : AccessPolicy → bool).

Fixpoint governing (ps : list AccessPolicy) : option AccessPolicy :=
  match ps with
  | [] => None
  | p :: ps' =>
      match governing ps' with
      | Some q => if m p && (po_priority q <=? po_priority p) then Some p else Some q
      | None => if m p then Some p else None
      end
  end.

Lemma find_sort_insert x l :
  StronglySorted (λ a b, po_priority b <= po_priority a) l →
  List.find m (sort_insert (λ a b, po_priority b <? po_priority a) x l) =
    match List.find m l with
    | Some q => if m x && (po_priority q <=? po_priority x) then Some x else Some q
    | None => if m x then Some x else None
    end.
Proof.
  induction 1 as [|y l Hl IH Hy]; simpl; [done|].
  destruct (Z.ltb_spec (po_priority x) (po_priority y)) as [Hlt|Hge]; simpl.
  - destruct (m y); [|exact IH]. rewrite (proj2 (Z.leb_gt _ _)) by lia. by rewrite andb_false_r.
  - destruct (m x) eqn:Ex; simpl; [|by destruct (m y), (List.find m l)].
    destruct (m y); [by rewrite (proj2 (Z.leb_le _ _)) by lia|].
    destruct (List.find m l) as [q|] eqn:Eq; [|done].
    apply find_some in Eq as [Hq _]. rewrite Forall_forall in Hy.
    specialize (Hy q (proj2 (list_elem_of_In _ _) Hq)). by rewrite (proj2 (Z.leb_le _ _)) by lia.
Qed.

Lemma find_by_priority ps : List.find m (by_priority ps) = governing ps.
Proof.
  induction ps as [|p ps IH]; simpl; [done|]. rewrite find_sort_insert, IH; [done|].
  assert (StronglySorted (λ a b, - po_priority a <= - po_priority b) (by_priority ps)) as H.
  { apply (py_sorted_key _ (λ p, - po_priority p)); intros x y; [rewrite Z.ltb_lt|rewrite Z.ltb_ge]; lia. }
  clear IH. revert H. generalize (by_priority ps). intros k H.
  induction H as [|a l Hl IHl Ha]; constructor; [done|]. eapply Forall_impl; [exact Ha|]. simpl. lia.
Qed.

Lemma governing_Some ps p :
  governing ps = Some p ↔
  ∃ l1 l2, ps = (l1 ++ p :: l2)%list ∧ m p = true ∧
    (∀ q, q ∈ l1 → m q = true → po_priority q < po_priority p) ∧
    (∀ q, q ∈ l2 → m q = true → po_priority q <= po_priority p).
Proof.
  revert p. induction ps as [|x ps IH]; intros p.
  { split; [done|]. by intros ([] & ? & ? & _). }
  assert (governing ps = None ↔ ∀ q, q ∈ ps → m q = false) as HN.
  { clear IH. induction ps as [|y ps IH]; simpl; [split; [by intros _ q ?%elem_of_nil|done]|].
    destruct (governing ps) as [q|]; [split; [by destruct (_ && _)|]|].
    - intros H. assert (∀ q, q ∈ ps → m q = false) as H' by (intros; apply H; by right).
      by apply IH in H'.
    - destruct (m y) eqn:Ey.
      + split; [done|]. intros H. rewrite H in Ey; [done|by left].
      + split; [|done]. intros _ q [->|Hq]%elem_of_cons; [done|]. by apply IH. }
  simpl. split.
  - destruct (governing ps) as [q|] eqn:Eg.
    + destruct (proj1 (IH q) eq_refl) as (l1 & l2 & -> & Hm & H1 & H2).
      destruct (m x) eqn:Ex; simpl; [destruct (Z.leb_spec (po_priority q) (po_priority x))|].
      * intros [= <-]. exists [], (l1 ++ q :: l2)%list. split_and!; [done|done|by intros ? ?%elem_of_nil|].
        intros r [Hr|[->|Hr]%elem_of_cons]%elem_of_app Hmr; [specialize (H1 r Hr Hmr)| |specialize (H2 r Hr Hmr)]; lia.
      * intros [= <-]. exists (x :: l1), l2. split_and!; [done..| |done].
        intros r [->|Hr]%elem_of_cons Hmr; [lia|auto].
      * intros [= <-]. exists (x :: l1), l2. split_and!; [done..| |done].
        intros r [->|Hr]%elem_of_cons Hmr; [congruence|auto].
    + destruct (m x) eqn:Ex; [|done]. intros [= <-]. exists [], ps. split_and!; [done|done|by intros ? ?%elem_of_nil|].
      intros q Hq Hmq. rewrite (proj1 HN eq_refl q Hq) in Hmq. done.
  - intros (l1 & l2 & Heq & Hm & H1 & H2). destruct l1 as [|y l1]; simpl in Heq; injection Heq as -> ->.
    + rewrite Hm. simpl. destruct (governing l2) as [q|] eqn:Eg; [|done].
      destruct (proj1 (IH q) eq_refl) as (k1 & k2 & -> & Hmq & _).
      rewrite (proj2 (Z.leb_le _ _)); [done|]. apply H2; [|done]. apply elem_of_app. right. by left.
    + rewrite (proj2 (IH p)).
      * destruct (m y) eqn:Ey; simpl; [|done]. rewrite (proj2 (Z.leb_gt _ _)); [done|]. apply H1; [by left|done].
      * exists l1, l2. split_and!; [done|done| |done]. intros q Hq. apply H1. by right.
Qed.
End Find.

Lemma find_governs ps s action resource p :
  List.find (λ p, policy_matches p s action resource) (by_priority ps) = Some p ↔ governs ps s action resource p.
Proof. rewrite find_by_priority. apply governing_Some. Qed.

(** A request is allowed exactly when the policy that governs it allows and its
    conditions hold; without such a policy it is denied, and the evaluation
    raises only when a condition of that policy cannot be read. *)
Theorem evaluate_correct ps s action resource :
  match evaluate_policies ps s action resource with
  | Ok res =>
      pr_allowed res = true ↔ ∃ p, governs ps s action resource p ∧ po_effect p = PE_ALLOW ∧
        evaluate_conditions (po_conditions p) s action resource = Some true
  | Err e =>
      e = PolicyEvaluationError ∧ ∃ p, governs ps s action resource p ∧ po_effect p = PE_ALLOW ∧
        evaluate_conditions (po_conditions p) s action resource = None
  end.
Proof.
  unfold evaluate_policies.
  destruct (List.find _ (by_priority ps)) as [p|] eqn:Ef.
  - assert (∀ q, governs ps s action resource q ↔ q = p) as Hq.
    { intros q. rewrite <- find_governs, Ef. split; [by intros [= ->]|by intros ->]. }
    assert (nonempty (po_conditions p) = false → evaluate_conditions (po_conditions p) s action resource = Some true) as Hne.
    { by destruct (po_conditions p). }
    destruct (decide (po_effect p = PE_DENY)) as [Hd|Hd]; simpl.
    { split; [done|]. intros (q & ->%Hq & He & _). congruence. }
    assert (po_effect p = PE_ALLOW) as Ha by by destruct (po_effect p).
    destruct (nonempty (po_conditions p)) eqn:En.
    + destruct (evaluate_conditions (po_conditions p) s action resource) as [[]|] eqn:Ec; simpl.
      * split; [|done]. intros _. exists p. by rewrite Hq.
      * split; [done|]. intros (q & ->%Hq & _ & He). congruence.
      * split; [done|]. exists p. by rewrite Hq.
    + simpl. split; [|done]. intros _. exists p. rewrite Hq. auto.
  - simpl. split; [done|]. intros (p & Hp%find_governs & _). congruence.
Qed.

(** A resource of a policy is a prefix even without a star. *)
Example prefix_without_star : resource_matches "documents/payroll" "doc" = true.
Proof. reflexivity. Qed.

(** ** Sessions end for good *)

Section Ends.
Context (cfg : ZtConfig).

(** The operations; a new session has an id that is not in use. *)
Inductive zstep : Enforcer → Enforcer → Prop :=
| z_policies ps z : zstep z (add_policies ps z)
| z_create id now ttl s z : dict_get id (ze_sessions z) = None → zstep z (create_session cfg id now ttl s z)
| z_get id now z : zstep z (get_session id now z).2
| z_revoke id z : zstep z (zt_revoke_session id z).2
| z_revoke_all sid z : zstep z (revoke_all_for_subject sid z).2
| z_locked sid now z : zstep z (is_locked_out sid now z).2
| z_failure sid now z : zstep z (zt_record_failure cfg sid now z).2
| z_reset sid z : zstep z (zt_reset_failures sid z)
| z_authenticate cr mfa id now s method device ip z :
    dict_get id (ze_sessions z) = None → zstep z (zt_authenticate cfg cr mfa id now s method device ip z).2
| z_check s action resource session tenant now z : zstep z (check cfg s action resource session tenant now z).2.

Definition revoked (id : string) (z : Enforcer) : Prop :=
  ∃ s, dict_get id (ze_sessions z) = Some s ∧ se_status s = SS_REVOKED.

(** A change of one entry that keeps revoked sessions revoked *)
Lemma revoked_put id id' s' z :
  revoked id z → (∀ s, id' = id → dict_get id (ze_sessions z) = Some s → se_status s = SS_REVOKED → se_status s' = SS_REVOKED) →
  revoked id (set_sessions (dict_set id' s' (ze_sessions z)) z).
Proof.
  intros (s & Hs & Hr) Hput. destruct (decide (id' = id)) as [->|Hne].
  - exists s'. split; [apply dict_get_set_eq|by eapply Hput].
  - exists s. split; [|done]. simpl. by rewrite dict_get_set_ne.
Qed.

Lemma revoked_create id id' now ttl s z :
  dict_get id' (ze_sessions z) = None → revoked id z → revoked id (create_session cfg id' now ttl s z).
Proof.
  intros Hid Hr. apply revoked_put; [done|]. intros s0 -> Hs. congruence.
Qed.

Lemma revoked_validate id id' now z : revoked id z → revoked id (validate_session cfg id' now z).2.
Proof.
  intros Hr. unfold validate_session. destruct (dict_get id' (ze_sessions z)) as [s|] eqn:Es; [|done].
  case_decide as Hst; [done|]. destruct (lapsed now s); [|destruct (flt _ _)]; simpl; apply revoked_put; try done;
    intros s0 <- Hs0 Hr0; congruence.
Qed.

Lemma revoked_zstep id z z' : revoked id z → zstep z z' → revoked id z'.
Proof.
  intros Hr Hstep. destruct Hstep as [ps z|id' now ttl s z Hid|id' now z|id' z|sid z|sid now z|sid now z|sid z
    |cr mfa id' now s method device ip z Hid|s action resource session tenant now z].
  - exact Hr.
  - by apply revoked_create.
  - unfold get_session. destruct (dict_get id' (ze_sessions z)) as [s|] eqn:Es; [|done].
    destruct (bool_decide _ && _) eqn:Ea; [|done]. simpl. apply revoked_put; [done|].
    intros s0 -> Hs0 Hr0. apply andb_prop in Ea as [Ea _]. apply bool_decide_eq_true in Ea. congruence.
  - unfold zt_revoke_session. destruct (dict_get id' (ze_sessions z)) as [s|]; [|done]. by apply revoked_put.
  - destruct Hr as (s & Hs & Hr). eexists. split.
    + unfold revoke_all_for_subject. simpl.
      rewrite (dict_get_fmap (λ x, if of_subject sid x then with_sstatus SS_REVOKED x else x)), Hs. done.
    + by destruct (of_subject sid s).
  - unfold is_locked_out. destruct (flt _ _); [done|]. by destruct (negb _).
  - unfold zt_record_failure. by destruct (_ <=? _).
  - exact Hr.
  - unfold zt_authenticate. unfold is_locked_out. destruct (flt now _); [done|].
    set (z1 := if negb _ then _ else _).
    assert (ze_sessions z1.2 = ze_sessions z) as Hz1 by (unfold z1; by destruct (negb _)).
    assert (z1.1 = false) as Hl by (unfold z1; by destruct (negb _)).
    destruct z1 as [b z1]. simpl in *. subst b. destruct (cr method) as [v|]; [|unfold revoked; simpl; by rewrite Hz1].
    destruct (v _) as [[]|]; simpl.
    + destruct (if zc_require_mfa cfg then _ else _) as [c|]; simpl; [|by unfold revoked; simpl; rewrite Hz1].
      apply revoked_create; simpl; [by rewrite Hz1|]. by unfold revoked; simpl; rewrite Hz1.
    + unfold zt_record_failure. destruct (_ <=? _); unfold revoked; simpl; by rewrite Hz1.
    + by unfold revoked; rewrite Hz1.
  - unfold check. destruct (tenant_mismatch s tenant); [done|]. destruct session as [sid|]; [|done].
    pose proof (revoked_validate id sid now z Hr) as Hv.
    by destruct (validate_session cfg sid now z) as [[]].
Qed.

(** After a session was revoked, no request under it is authorised, whatever
    operations follow. *)
Theorem revoked_session_refused id z z1 z2 s action resource tenant now :
  zt_revoke_session id z = (true, z1) → rtc zstep z1 z2 →
  is_ok (check cfg s action resource (Some id) tenant now z2).1 = false.
Proof.
  intros Hrev Hsteps. assert (revoked id z1) as Hr.
  { unfold zt_revoke_session in Hrev. destruct (dict_get id (ze_sessions z)) as [s0|] eqn:Es; [|done].
    injection Hrev as <-. eexists. simpl. by rewrite dict_get_set_eq. }
  assert (revoked id z2) as (s2 & Hs2 & Hst).
  { clear Hrev. induction Hsteps; [done|]. eauto using revoked_zstep. }
  unfold check. destruct (tenant_mismatch s tenant); [done|]. unfold validate_session. rewrite Hs2.
  by rewrite decide_True.
Qed.

(** ** Lockout *)

Lemma locked_refused cr mfa id now s method device ip z until :
  dict_get (sb_id s) (ze_lockout z) = Some until → flt now until = true →
  zt_authenticate cfg cr mfa id now s method device ip z = (Err (AuthenticationError "locked out"), z).
Proof. intros Hu Hl. unfold zt_authenticate, is_locked_out. rewrite Hu. simpl. by rewrite Hl. Qed.

(** The last of [max_failed_attempts] failures within a minute locks the subject. *)
Lemma failure_locks sid now z l :
  dict_get sid (ze_failed z) = Some l → recent_failures now l = l → zlen l = zc_max_failed_attempts cfg - 1 →
  dict_get sid (ze_lockout (zt_record_failure cfg sid now z).2) = Some (fadd now (float_of_Z (zc_lockout_seconds cfg))).
Proof.
  intros Hl Hr Hlen. unfold zt_record_failure. rewrite Hl. simpl. rewrite Hr, zlen_app.
  rewrite (proj2 (Z.leb_le _ _)); [simpl; by rewrite dict_get_set_eq|].
  change (zlen [now]) with 1. lia.
Qed.

(** A right credential clears the failures before the second factor is checked,
    and a wrong second factor counts for nothing: it can be tried without end. *)
Lemma mfa_failure_uncounted cr mfa id now s method device ip z v w :
  zc_require_mfa cfg = true → cr method = Some v → (∀ c, v c = Ok true) → mfa method = Some w → (∀ c, w c = Ok false) →
  (is_locked_out (sb_id s) now z).1 = false → dict_wf (ze_failed z) → dict_wf (ze_lockout z) →
  let r := zt_authenticate cfg cr mfa id now s method device ip z in
  r.1 = Err (AuthenticationError "mfa failed") ∧
  dict_get (sb_id s) (ze_failed r.2) = None ∧ dict_get (sb_id s) (ze_lockout r.2) = None.
Proof.
  intros Hmfa Hcr Hv Hw Hwf Hl Hf Hlo r. unfold r, zt_authenticate.
  destruct (is_locked_out (sb_id s) now z) as [b z1] eqn:Ez. simpl in Hl. subst b.
  rewrite Hcr, Hv, Hmfa. unfold require_mfa. simpl. rewrite Hw, Hwf. simpl. split; [done|].
  unfold is_locked_out in Ez. destruct (flt now _); [done|].
  assert (ze_failed z1 = ze_failed z ∧ dict_wf (ze_lockout z1)) as [-> Hz1].
  { destruct (negb _); injection Ez as <-; simpl; split; try done. by apply dict_pop_wf. }
  split; by apply dict_get_pop_eq.
Qed.
End Ends.

Lemma revoked_session_refused_witness :
  let cfg := mk_ztconfig 3600 900 5 300 false in
  let ada := mk_subject "ada" "default" ["admin"] [] [] in
  let z := create_session cfg "s1" fone None ada (mk_enforcer [mk_policy "p" "all" PE_ALLOW [] [] [] [] 0] [] [] []) in
  is_ok (check cfg ada "read" "doc" (Some "s1") None fone z).1 = true ∧
  is_ok (check cfg ada "read" "doc" (Some "s1") None fone (zt_revoke_session "s1" z).2).1 = false.
Proof.
  intros cfg ada z. split; [vm_compute; reflexivity|].
  refine (revoked_session_refused cfg "s1" z (zt_revoke_session "s1" z).2 (zt_revoke_session "s1" z).2 ada "read" "doc" None fone _ _);
    [reflexivity|apply rtc_refl].
Defined.
End ZeroTrust.
