(* ===== verification/SecServices.v ===== *)
(** * Security services

    [src/app/security/secrets.py] (the facade and the environment backend),
    [threat.py] (detector and incidents), [privacy.py] (masking and data subject
    requests) and [compliance.py]. *)

From Stdlib Require Import ZArith Lia.
From Stdlib Require Import Ascii.
From stdpp Require Import base numbers strings gmap list relations.
From S2P Require Import Prelude PyFloat PyNum PyStr PyDict PyMath.

Open Scope string_scope.
Open Scope Z_scope.

(** ** Secrets *)

Module Secrets.

Inductive SecretKind := SK_OPAQUE | SK_CREDENTIAL | SK_CERTIFICATE | SK_API_KEY | SK_DATABASE | SK_TOKEN.
Inductive SecretStatus := ST_ACTIVE | ST_ROTATING | ST_ROTATED | ST_REVOKED | ST_EXPIRED.

Record Secret := mk_secret {
  sc_id : string;
  sc_name : string;
  sc_kind : SecretKind;
  sc_value : string;
  sc_version : Z;
  sc_status : SecretStatus;
  sc_created_at : float;
  sc_metadata : dict string string
}.

Inductive SecretErr := SecretNotFoundError (name : string) | SecretBackendError (msg : string).

(** The strategy interface: a backend with a state [B] *)
Class SecretBackend (B : Type) := {
  be_get : string → string → float → B → result SecretErr Secret;   (** a new id and the clock *)
  be_set : Secret → B → result SecretErr Secret * B;
  be_delete : string → B → result SecretErr bool * B
}.

(** [EnvironmentBackend] keeps the value only. *)
Definition Environment : Type := dict string string.

Definition env_get (id name : string) (now : float) (e : Environment) : result SecretErr Secret :=
  match dict_get name e with
  | None => Err (SecretNotFoundError name)
  | Some v => Ok (mk_secret id name SK_OPAQUE v 1 ST_ACTIVE now [])
  end.
Definition env_set (s : Secret) (e : Environment) : result SecretErr Secret * Environment :=
  (Ok s, dict_set (sc_name s) (sc_value s) e).
Definition env_delete (name : string) (e : Environment) : result SecretErr bool * Environment :=
  match dict_get name e with None => (Ok false, e) | Some _ => (Ok true, dict_pop name e) end.
Definition env_list (prefix : string) (e : Environment) : list string := List.filter (startswith prefix) (dict_keys e).

#[export] Instance env_backend : SecretBackend Environment :=
  {| be_get := env_get; be_set := env_set; be_delete := env_delete |}.

Record SecretManager (B : Type) := mk_smanager { sm_backend : B; sm_cache : dict string (Secret * float) }.
Arguments mk_smanager {B} _ _.
Arguments sm_backend {B} _.
Arguments sm_cache {B} _.

Section Manager.
Context {B : Type} `{!SecretBackend B} (cache_ttl : float).

Definition set_secret_cache (c : dict string (Secret * float)) (m : SecretManager B) : SecretManager B :=
  mk_smanager (sm_backend m) c.

Definition cached (name : string) (now : float) (m : SecretManager B) : option Secret * SecretManager B :=
  match dict_get name (sm_cache m) with
  | None => (None, m)
  | Some (s, fetched_at) =>
      if flt cache_ttl (fsub now fetched_at) then (None, set_secret_cache (dict_pop name (sm_cache m)) m) else (Some s, m)
  end.

Definition fetch (id name : string) (now : float) (m : SecretManager B) : result SecretErr Secret * SecretManager B :=
  match be_get id name now (sm_backend m) with
  | Err e => (Err e, m)
  | Ok s => (Ok s, set_secret_cache (dict_set name (s, now) (sm_cache m)) m)
  end.

Definition get_secret (id name : string) (bypass_cache : bool) (now : float) (m : SecretManager B)
    : result SecretErr Secret * SecretManager B :=
  if bypass_cache then fetch id name now m
  else
    let '(c, m) := cached name now m in
    match c with Some s => (Ok s, m) | None => fetch id name now m end.

Definition store (s : Secret) (now : float) (m : SecretManager B) : result SecretErr Secret * SecretManager B :=
  match be_set s (sm_backend m) with
  | (Err e, b) => (Err e, mk_smanager b (sm_cache m))
  | (Ok stored, b) => (Ok stored, mk_smanager b (dict_set (sc_name s) (stored, now) (sm_cache m)))
  end.

Definition set_secret (id name value : string) (kind : SecretKind) (metadata : dict string string) (now : float)
    (m : SecretManager B) : result SecretErr Secret * SecretManager B :=
  store (mk_secret id name kind value 1 ST_ACTIVE now metadata) now m.

Definition delete_secret (name : string) (m : SecretManager B) : result SecretErr bool * SecretManager B :=
  match be_delete name (sm_backend m) with
  | (Err e, b) => (Err e, mk_smanager b (sm_cache m))
  | (Ok removed, b) => (Ok removed, mk_smanager b (dict_pop name (sm_cache m)))
  end.

Definition rotate_secret (id id' name new_value : string) (now : float) (m : SecretManager B)
    : result SecretErr Secret * SecretManager B :=
  let '(current, m) := get_secret id name true now m in
  match current with
  | Err (SecretBackendError e) => (Err (SecretBackendError e), m)
  | Err (SecretNotFoundError _) => store (mk_secret id' name SK_OPAQUE new_value 1 ST_ACTIVE now []) now m
  | Ok c =>
      store (mk_secret id' name (sc_kind c) new_value (sc_version c + 1) ST_ACTIVE now (sc_metadata c)) now m
  end.
End Manager.

(** *** The cache is never stale

    Over the environment backend, when nobody else changes the environment. *)

Section Coherence.
Context (ttl : float).

Inductive SecretOp :=
| SGet (id name : string) (bypass : bool) (now : float)
| SSet (id name value : string) (kind : SecretKind) (metadata : dict string string) (now : float)
| SDelete (name : string)
| SRotate (id id' name value : string) (now : float).

Definition secret_op (o : SecretOp) (m : SecretManager Environment) : SecretManager Environment :=
  match o with
  | SGet id name bypass now => (get_secret ttl id name bypass now m).2
  | SSet id name value kind md now => (set_secret id name value kind md now m).2
  | SDelete name => (delete_secret name m).2
  | SRotate id id' name value now => (rotate_secret ttl id id' name value now m).2
  end.

(** Every cached secret has the value of the environment. *)
Definition coherent (m : SecretManager Environment) : Prop :=
  dict_wf (sm_cache m) ∧ dict_wf (sm_backend m) ∧
  ∀ name s t, dict_get name (sm_cache m) = Some (s, t) → dict_get name (sm_backend m) = Some (sc_value s).

Lemma coherent_fetch id name now m :
  coherent m →
  coherent (fetch id name now m).2 ∧ sm_backend (fetch id name now m).2 = sm_backend m ∧
  match (fetch id name now m).1 with
  | Ok s => dict_get name (sm_backend m) = Some (sc_value s)
  | Err e => e = SecretNotFoundError name ∧ dict_get name (sm_backend m) = None
  end.
Proof.
  intros (Hc & Hb & Hv). unfold fetch. simpl. unfold env_get. destruct (dict_get name (sm_backend m)) as [v|] eqn:E; simpl.
  - split; [|done]. split; [by apply dict_set_wf|]. split; [done|]. intros n s t. simpl. rewrite dict_get_set.
    case_decide; [by intros [= <- <-]; subst|]. apply Hv.
  - by split_and!.
Qed.

Lemma coherent_get id name bypass now m :
  coherent m →
  coherent (get_secret ttl id name bypass now m).2 ∧ sm_backend (get_secret ttl id name bypass now m).2 = sm_backend m ∧
  match (get_secret ttl id name bypass now m).1 with
  | Ok s => dict_get name (sm_backend m) = Some (sc_value s)
  | Err e => e = SecretNotFoundError name ∧ dict_get name (sm_backend m) = None
  end.
Proof.
  intros Hm. unfold get_secret. destruct bypass; [by apply coherent_fetch|].
  unfold cached. destruct (dict_get name (sm_cache m)) as [[s t]|] eqn:E; [|by apply coherent_fetch].
  destruct (flt ttl (fsub now t)).
  - destruct Hm as (Hc & Hb & Hv).
    apply (coherent_fetch id name now (set_secret_cache (dict_pop name (sm_cache m)) m)). split_and!; simpl.
    + by apply dict_pop_wf.
    + done.
    + intros n s' t' Hn. destruct (decide (name = n)) as [->|Hne]; [by rewrite dict_get_pop_eq in Hn|].
      rewrite dict_get_pop_ne in Hn by done. by eapply Hv.
  - destruct Hm as (Hc & Hb & Hv). simpl. split_and!; try done. by eapply Hv.
Qed.

Lemma coherent_store s now m : coherent m → coherent (store s now m).2.
Proof.
  intros (Hc & Hb & Hv). unfold store. simpl. split_and!; simpl; [by apply dict_set_wf..|].
  intros n s' t. rewrite !dict_get_set. case_decide; [by intros [= <- <-]|]. apply Hv.
Qed.

Lemma coherent_op o m : coherent m → coherent (secret_op o m).
Proof.
  intros Hm. destruct o as [id name bypass now|id name value kind md now|name|id id' name value now]; cbn [secret_op].
  - by apply coherent_get.
  - by apply coherent_store.
  - destruct Hm as (Hc & Hb & Hv). unfold delete_secret. simpl. unfold env_delete.
    destruct (dict_get name (sm_backend m)) eqn:E; simpl; split_and!; simpl; try done; try by apply dict_pop_wf.
    + intros n' s' t Hn. destruct (decide (name = n')) as [->|Hne]; [by rewrite dict_get_pop_eq in Hn|].
      rewrite dict_get_pop_ne in Hn by done. rewrite dict_get_pop_ne by done. by eapply Hv.
    + intros n' s' t Hn. destruct (decide (name = n')) as [->|Hne]; [by rewrite dict_get_pop_eq in Hn|].
      rewrite dict_get_pop_ne in Hn by done. by eapply Hv.
  - unfold rotate_secret. destruct (coherent_get id name true now m Hm) as (Hc & _ & _).
    destruct (get_secret ttl id name true now m) as [[c|[n|e]] m']; cbn [fst snd] in *; by try apply coherent_store.
Qed.

(** After any operations of the manager, cached or not, [get_secret] answers with
    the value the environment holds, and raises exactly when it holds none. *)
Theorem secrets_never_stale (os : list SecretOp) env id name bypass now :
  dict_wf env →
  let m := foldl (λ m o, secret_op o m) (mk_smanager env []) os in
  match (get_secret ttl id name bypass now m).1 with
  | Ok s => dict_get name (sm_backend m) = Some (sc_value s)
  | Err e => e = SecretNotFoundError name ∧ dict_get name (sm_backend m) = None
  end.
Proof.
  intros Henv m. apply coherent_get.
  assert (coherent (mk_smanager env [])) as H0 by (split_and!; [constructor|done|done]).
  unfold m. clear m. revert H0. generalize (mk_smanager env []).
  induction os as [|o os IH]; intros m Hm; simpl; [done|]. by apply IH, coherent_op.
Qed.

(** The environment keeps no version: every rotation of a secret gives version 2. *)
Lemma rotation_version_stuck id id' name value now m s m' :
  is_Some (dict_get name (sm_backend m)) →
  rotate_secret ttl id id' name value now m = (Ok s, m') →
  sc_version s = 2 ∧ is_Some (dict_get name (sm_backend m')).
Proof.
  intros [v Hv]. unfold rotate_secret, get_secret, fetch. simpl. unfold env_get. rewrite Hv. simpl.
  unfold store. simpl. intros [= <- <-]. simpl. split; [done|]. rewrite dict_get_set_eq. by eexists.
Qed.
End Coherence.

Lemma secrets_never_stale_witness :
  let m := foldl (λ m o, secret_op (float_of_Z 60) o m) (mk_smanager [("A", "1")] [])
             [SGet "i" "A" false fone; SSet "j" "A" "2" SK_TOKEN [] fone] in
  match (get_secret (float_of_Z 60) "k" "A" false fone m).1 with
  | Ok s => dict_get "A" (sm_backend m) = Some (sc_value s)
  | Err e => e = SecretNotFoundError "A" ∧ dict_get "A" (sm_backend m) = None
  end.
Proof.
  refine (secrets_never_stale (float_of_Z 60) [SGet "i" "A" false fone; SSet "j" "A" "2" SK_TOKEN [] fone] [("A", "1")]
    "k" "A" false fone _).
  repeat constructor; set_solver.
Defined.
End Secrets.

(** ** Threats and incidents *)

Module Threats.

Inductive ThreatSeverity := TS_LOW | TS_MEDIUM | TS_HIGH | TS_CRITICAL.
Inductive ThreatType := TT_BRUTE_FORCE | TT_CREDENTIAL_STUFFING | TT_TOKEN_REPLAY | TT_ANOMALY | TT_DATA_EXFILTRATION | TT_MALWARE.
Inductive IncidentStatus := IS_OPEN | IS_INVESTIGATING | IS_CONTAINED | IS_RESOLVED | IS_CLOSED.

#[export] Instance ttype_eq_dec : EqDecision ThreatType.
Proof. solve_decision. Defined.
#[export] Instance istatus_eq_dec : EqDecision IncidentStatus.
Proof. solve_decision. Defined.

Record ThreatEvent := mk_threat {
  te_id : string;
  te_threat_type : ThreatType;
  te_severity : ThreatSeverity;
  te_source : string;
  te_target : string;
  te_timestamp : float;
  te_details : string
}.

Record Incident := mk_incident {
  in_id : string;
  in_severity : ThreatSeverity;
  in_status : IncidentStatus;
  in_threat_events : list ThreatEvent;
  in_created_at : float;
  in_updated_at : float;
  in_resolved_at : float;
  in_summary : string
}.

Record ThreatConfig := mk_tconfig {
  tc_enabled : bool;
  tc_window : float;
  tc_brute_force_threshold : Z;
  tc_token_replay_threshold : Z
}.

Definition severity_for (t : ThreatType) : ThreatSeverity :=
  match t with
  | TT_BRUTE_FORCE | TT_CREDENTIAL_STUFFING => TS_HIGH
  | TT_TOKEN_REPLAY => TS_MEDIUM
  | TT_DATA_EXFILTRATION | TT_MALWARE => TS_CRITICAL
  | TT_ANOMALY => TS_LOW
  end.

Section Detector.
Context (cfg : ThreatConfig).

(** [report]: the new event, the stored events of the window *)
Definition report (id : string) (t : ThreatType) (source target details : string) (now now' : float)
    (events : list ThreatEvent) : ThreatEvent * list ThreatEvent :=
  let e := mk_threat id t (severity_for t) source target now details in
  (e, List.filter (λ e, fle (fsub now' (tc_window cfg)) (te_timestamp e)) (events ++ [e])%list).

Definition Buckets : Type := dict string (dict ThreatType (list ThreatEvent)).

(** [sources.setdefault(...).setdefault(...).append(event)] *)
Definition bucket (b : Buckets) (e : ThreatEvent) : Buckets :=
  let types := default [] (dict_get (te_source e) b) in
  dict_set (te_source e)
    (dict_set (te_threat_type e) (default [] (dict_get (te_threat_type e) types) ++ [e])%list types) b.

Definition count_of (t : ThreatType) (types : dict ThreatType (list ThreatEvent)) : Z :=
  zlen (default [] (dict_get t types)).

Definition source_signals (total : Z) (source : string) (types : dict ThreatType (list ThreatEvent)) : list string :=
  ((if tc_brute_force_threshold cfg <=? count_of TT_BRUTE_FORCE types then ["brute_force:" +:+ source] else []) ++
   (if tc_brute_force_threshold cfg <=? count_of TT_CREDENTIAL_STUFFING types then ["credential_stuffing:" +:+ source] else []) ++
   (if tc_token_replay_threshold cfg <=? count_of TT_TOKEN_REPLAY types then ["token_replay:" +:+ source] else []) ++
   (if (3 <=? zlen types) && (tc_brute_force_threshold cfg * 2 <=? total) then ["anomaly:" +:+ source] else []))%list.

Definition analyze (now : float) (events : list ThreatEvent) : list string :=
  if negb (tc_enabled cfg) then []
  else
    let events := List.filter (λ e, fle (fsub now (te_timestamp e)) (tc_window cfg)) events in
    concat ((λ p, source_signals (zlen events) p.1 p.2) <$> foldl bucket [] events).

(** *** Incidents *)

Definition severity_for_signal (name : string) : ThreatSeverity :=
  if decide (name = "brute_force") then TS_HIGH
  else if decide (name = "credential_stuffing") then TS_HIGH
  else if decide (name = "token_replay") then TS_MEDIUM
  else if decide (name = "anomaly") then TS_LOW
  else TS_MEDIUM.

Definition incident_open (signal : string) (i : Incident) : bool :=
  (bool_decide (in_status i = IS_OPEN) || bool_decide (in_status i = IS_INVESTIGATING)) &&
  bool_decide (in_summary i = signal).

Definition incident_add_event (e : ThreatEvent) (now : float) (i : Incident) : Incident :=
  mk_incident (in_id i) (in_severity i) (in_status i) (in_threat_events i ++ [e])%list (in_created_at i) now
    (in_resolved_at i) (in_summary i).

(** [_escalate]: the new incident, if there is one *)
Definition escalate_signal (id signal : string) (e : ThreatEvent) (now : float) (incs : dict string Incident)
    : option Incident * dict string Incident :=
  match List.find (λ p, incident_open signal p.2) incs with
  | Some (k, i) => (None, dict_set k (incident_add_event e now i) incs)
  | None =>
      let i := mk_incident id (severity_for_signal (partition ":" signal).1) IS_OPEN [e] now now fzero signal in
      (Some i, dict_set id i incs)
  end.

Fixpoint escalate_all (ids : list string) (signals : list string) (e : ThreatEvent) (now : float)
    (incs : dict string Incident) : list Incident * dict string Incident :=
  match signals, ids with
  | signal :: signals', id :: ids' =>
      let '(i, incs1) := escalate_signal id signal e now incs in
      let '(rest, incs2) := escalate_all ids' signals' e now incs1 in
      (match i with Some i => i :: rest | None => rest end, incs2)
  | _, _ => ([], incs)
  end.

(** [register_event]; [ids] are the ids drawn for incidents. *)
Definition register_event (id : string) (ids : list string) (t : ThreatType) (source target details : string)
    (now : float) (events : list ThreatEvent) (incs : dict string Incident)
    : list Incident * list ThreatEvent * dict string Incident :=
  let '(e, events) := report id t source target details now now events in
  let '(created, incs) := escalate_all ids (analyze now events) e now incs in
  (created, events, incs).

Definition escalate (id signal : string) (now : float) (incs : dict string Incident) : Incident * dict string Incident :=
  let i := mk_incident id TS_MEDIUM IS_OPEN [] now now fzero signal in (i, dict_set id i incs).

Definition list_incidents (st : option IncidentStatus) (incs : dict string Incident) : list Incident :=
  match st with
  | None => dict_values incs
  | Some st => List.filter (λ i, bool_decide (in_status i = st)) (dict_values incs)
  end.

Definition update_status (id : string) (st : IncidentStatus) (summary : option string) (now : float)
    (incs : dict string Incident) : result string (Incident * dict string Incident) :=
  match dict_get id incs with
  | None => Err "incident not found"
  | Some i =>
      let done := bool_decide (st = IS_RESOLVED) || bool_decide (st = IS_CLOSED) in
      let i := mk_incident (in_id i) (in_severity i) st (in_threat_events i) (in_created_at i) now
                 (if done then now else in_resolved_at i) (default (in_summary i) summary) in
      Ok (i, dict_set id i incs)
  end.

(** *** One open incident per signal *)

Definition unique_open (incs : dict string Incident) : Prop :=
  ∀ signal k k' i i', dict_get k incs = Some i → dict_get k' incs = Some i' →
    incident_open signal i = true → incident_open signal i' = true → k = k'.

(** An incident for [signal] that is worked on and holds the event *)
Definition tracked (signal : string) (e : ThreatEvent) (incs : dict string Incident) : Prop :=
  ∃ k i, dict_get k incs = Some i ∧ incident_open signal i = true ∧ e ∈ in_threat_events i.

Lemma incident_open_add signal e now i : incident_open signal (incident_add_event e now i) = incident_open signal i.
Proof. done. Qed.

Lemma incident_open_new signal id sv es now signal' :
  incident_open signal (mk_incident id sv IS_OPEN es now now fzero signal') = true ↔ signal' = signal.
Proof. unfold incident_open. simpl. apply bool_decide_eq_true. Qed.

Lemma find_open signal (incs : dict string Incident) :
  dict_wf incs →
  match List.find (λ p, incident_open signal p.2) incs with
  | Some (k, i) => dict_get k incs = Some i ∧ incident_open signal i = true
  | None => ∀ k i, dict_get k incs = Some i → incident_open signal i = false
  end.
Proof.
  intros Hwf. destruct (List.find _ incs) as [[k i]|] eqn:E.
  - apply find_some in E as [Hin Ho]. split; [|done]. apply dict_elem_of_get; [done|]. by apply list_elem_of_In.
  - intros k i Hk. apply dict_get_elem_of, list_elem_of_In in Hk. by apply (find_none _ _ E) in Hk.
Qed.

Lemma escalate_unique id signal e now (incs : dict string Incident) :
  dict_wf incs → unique_open incs → unique_open (escalate_signal id signal e now incs).2.
Proof.
  intros Hwf Hu. unfold escalate_signal. pose proof (find_open signal incs Hwf) as Hf.
  destruct (List.find _ incs) as [[k0 i0]|]; simpl; intros sig k k' i i'; rewrite !dict_get_set.
  - destruct Hf as [Hk0 _]. repeat case_decide; subst; intros Hi Hi' Ho Ho'; simplify_eq; try done.
    all: rewrite ?incident_open_add in Ho; rewrite ?incident_open_add in Ho'; by eapply Hu.
  - repeat case_decide; subst; intros Hi Hi' Ho Ho'; simplify_eq; try done.
    + apply incident_open_new in Ho as ->. by rewrite (Hf _ _ Hi') in Ho'.
    + apply incident_open_new in Ho' as ->. by rewrite (Hf _ _ Hi) in Ho.
    + by eapply Hu.
Qed.

Lemma escalate_tracks id signal e now (incs : dict string Incident) :
  dict_wf incs → dict_get id incs = None →
  let incs' := (escalate_signal id signal e now incs).2 in
  dict_wf incs' ∧ tracked signal e incs' ∧
  (∀ signal' e', tracked signal' e' incs → tracked signal' e' incs') ∧
  (∀ k, k ≠ id → dict_get k incs = None → dict_get k incs' = None).
Proof.
  intros Hwf Hid incs'. unfold incs', escalate_signal. pose proof (find_open signal incs Hwf) as Hf.
  destruct (List.find _ incs) as [[k0 i0]|]; simpl.
  - destruct Hf as [Hk0 Ho]. split_and!; [by apply dict_set_wf|..].
    + exists k0, (incident_add_event e now i0). rewrite dict_get_set_eq. simpl. split_and!; [done..|]. set_solver.
    + intros signal' e' (k & i & Hk & Hi & He). destruct (decide (k = k0)) as [->|Hne].
      * exists k0, (incident_add_event e now i0). rewrite dict_get_set_eq. simplify_eq. simpl. split_and!; [done..|]. set_solver.
      * exists k, i. by rewrite dict_get_set, decide_False by done.
    + intros k _ Hk. rewrite dict_get_set. case_decide; [by simplify_eq|done].
  - split_and!; [by apply dict_set_wf|..].
    + eexists id, _. rewrite dict_get_set_eq. split; [done|]. rewrite incident_open_new. split; [done|]. simpl. set_solver.
    + intros signal' e' (k & i & Hk & Hi & He). exists k, i.
      rewrite dict_get_set, decide_False by congruence. done.
    + intros k Hne Hk. by rewrite dict_get_set, decide_False by done.
Qed.

Lemma escalate_all_tracks ids signals e now (incs : dict string Incident) :
  dict_wf incs → unique_open incs → NoDup ids → (∀ id, id ∈ ids → dict_get id incs = None) →
  (length signals <= length ids)%nat →
  let incs' := (escalate_all ids signals e now incs).2 in
  unique_open incs' ∧ (∀ signal, signal ∈ signals → tracked signal e incs') ∧
  ∀ signal' e', tracked signal' e' incs → tracked signal' e' incs'.
Proof.
  intros Hwf Hu Hnd Hfr Hlen incs'. unfold incs'. clear incs'. revert ids incs Hwf Hu Hnd Hfr Hlen.
  induction signals as [|signal signals IH]; intros ids incs Hwf Hu Hnd Hfr Hlen.
  { destruct ids; simpl; split_and!; try done; intros ?; set_solver. }
  destruct ids as [|id ids]; [simpl in Hlen; lia|].
  apply NoDup_cons in Hnd as [Hni Hnd]. simpl.
  assert (dict_get id incs = None) as Hid by (apply Hfr; set_solver).
  destruct (escalate_tracks id signal e now incs Hwf Hid) as (Hwf1 & Ht & Hm & Hf1).
  pose proof (escalate_unique id signal e now incs Hwf Hu) as Hu1.
  destruct (escalate_signal id signal e now incs) as [r incs1]. simpl in *.
  destruct (IH ids incs1) as (Hu2 & Hts & Hm2); [done..| |lia|].
  { intros k Hk. apply Hf1; [by intros ->|]. apply Hfr. set_solver. }
  destruct (escalate_all ids signals e now incs1) as [rest incs2]. simpl in *.
  split_and!; [done| |by auto]. intros sig [->|Hin]%elem_of_cons; auto.
Qed.

(** Registering an event correlates: afterwards every signal the detector raises
    has an incident that is worked on and holds the event, no signal has two of
    them, and no incident loses an event or its signal. *)
Theorem register_correlates id ids t source target details now events (incs : dict string Incident) :
  let e := (report id t source target details now now events).1 in
  let signals := analyze now (report id t source target details now now events).2 in
  let incs' := (register_event id ids t source target details now events incs).2 in
  dict_wf incs → unique_open incs → NoDup ids → (∀ id, id ∈ ids → dict_get id incs = None) →
  (length signals <= length ids)%nat →
  unique_open incs' ∧ (∀ signal, signal ∈ signals → tracked signal e incs') ∧
  ∀ signal' e', tracked signal' e' incs → tracked signal' e' incs'.
Proof.
  intros e signals incs' Hwf Hu Hnd Hfr Hlen. unfold incs', register_event.
  fold signals in Hlen. destruct (report id t source target details now now events) as [e0 events0] eqn:E.
  pose proof (escalate_all_tracks ids signals e now incs Hwf Hu Hnd Hfr Hlen) as H. unfold e, signals in *.
  simpl in *. by destruct (escalate_all ids (analyze now events0) e0 now incs).
Qed.
End Detector.

(** Two guesses from one address with the threshold two: the first incident takes the event. *)
Lemma register_correlates_witness :
  let cfg := mk_tconfig true (float_of_Z 60) 2 3 in
  let old := mk_threat "t1" TT_BRUTE_FORCE TS_HIGH "10.0.0.1" "" fone "" in
  let e := (report cfg "t2" TT_BRUTE_FORCE "10.0.0.1" "" "" fone fone [old]).1 in
  let incs' := (register_event cfg "t2" ["i1"; "i2"] TT_BRUTE_FORCE "10.0.0.1" "" "" fone [old] []).2 in
  analyze cfg fone (report cfg "t2" TT_BRUTE_FORCE "10.0.0.1" "" "" fone fone [old]).2 = ["brute_force:10.0.0.1"] ∧
  unique_open incs' ∧ (∀ signal, signal ∈ ["brute_force:10.0.0.1"] → tracked signal e incs') ∧
  ∀ signal' e', tracked signal' e' [] → tracked signal' e' incs'.
Proof.
  intros cfg old e incs'.
  assert (analyze cfg fone (report cfg "t2" TT_BRUTE_FORCE "10.0.0.1" "" "" fone fone [old]).2 = ["brute_force:10.0.0.1"])
    as Hs by (vm_compute; reflexivity).
  split; [exact Hs|].
  pose proof (register_correlates cfg "t2" ["i1"; "i2"] TT_BRUTE_FORCE "10.0.0.1" "" "" fone [old] []) as H.
  cbv zeta in H. rewrite Hs in H. apply H; [constructor|intros ? ? ? ? ? [=]|..|simpl; lia].
  - repeat constructor; set_solver.
  - intros k _. done.
Defined.

(** Closing an incident and reopening it can give a signal two open incidents:
    [update_status] takes any status. *)
Example reopened_twice :
  let inc k st := mk_incident k TS_HIGH st [] fone fone fzero "s" in
  let incs := [("a", inc "a" IS_RESOLVED); ("b", inc "b" IS_OPEN)] in
  match update_status "a" IS_OPEN None fone incs with
  | Ok (_, incs') => map (λ p, incident_open "s" p.2) incs' = [true; true]
  | Err _ => False
  end.
Proof. reflexivity. Qed.
End Threats.
