(* ===== verification/SecPrivacy.v ===== *)
(** * Privacy and compliance

    [src/app/security/privacy.py]: detection and masking of personal data in a
    text, and the data subject requests; [compliance.py]: the control catalogs,
    their status under a configuration, findings and readiness.

    Texts are lists of ASCII characters here.  The patterns are an argument of
    the detector, as in the code; the two patterns of a fixed shape (social
    security numbers and dates of birth) are modelled as matchers. *)

From Stdlib Require Import ZArith Lia.
From Stdlib Require Import Ascii.
From stdpp Require Import base numbers strings gmap list.
From S2P Require Import Prelude PyFloat PyNum PyStr PyDict PyMath SecServices.

Open Scope string_scope.
Open Scope Z_scope.

(** ** Masking *)

Module Privacy.

Inductive PIIKind := PII_EMAIL | PII_PHONE | PII_SSN | PII_CREDIT_CARD | PII_NAME | PII_IP_ADDRESS | PII_DATE_OF_BIRTH | PII_ADDRESS.

Notation text := (list ascii).
Definition slice (a b : nat) (t : text) : text := take (b - a) (drop a t).

Record PIIField := mk_pii {
  pf_kind : PIIKind;
  pf_location : nat * nat;
  pf_confidence : float;
  pf_value : text
}.

(** [re.Pattern.finditer] as the spans it yields *)
Definition finditer : Type := text → list (nat * nat).

Definition loc_lt (f g : PIIField) : bool :=
  ((pf_location f).1 <? (pf_location g).1)%nat ||
  ((pf_location f).1 =? (pf_location g).1)%nat && ((pf_location f).2 <? (pf_location g).2)%nat.

Definition detect (patterns : list (PIIKind * finditer)) (t : text) : list PIIField :=
  py_sorted loc_lt
    (concat (map (λ p, map (λ m, mk_pii p.1 m fone (slice m.1 m.2 t)) (p.2 t)) patterns)).

(** How many characters of a value of length [n] stay visible *)
Definition visible (mode : string) (n : nat) : nat :=
  if decide (mode = "full") then 0%nat else Nat.max 1 (Nat.min 4 (n / 4)).

Definition mask_value (value : text) (mode : string) : text :=
  if decide (mode = "full") then replicate 3 "*"%char
  else
    let v := visible mode (length value) in
    (take v value ++ replicate (length value - v) "*"%char)%list.

(** The loop of [mask] from [cursor] on *)
Fixpoint mask_loop (mode : string) (t : text) (fields : list PIIField) (cursor : nat) : text :=
  match fields with
  | [] => drop cursor t
  | f :: fields' =>
      (slice cursor (pf_location f).1 t ++ mask_value (pf_value f) mode ++
       mask_loop mode t fields' (pf_location f).2)%list
  end.

Record MaskedResult := mk_masked { ms_text : text; ms_fields : list PIIField; ms_masked : Z }.

Definition mask (patterns : list (PIIKind * finditer)) (t : text) (mode : option string) : MaskedResult :=
  let mode := default "partial" mode in
  let fields := detect patterns t in
  mk_masked (mask_loop mode t fields 0) fields (zlen fields).

(** [PrivacyService]: [mode or self.config.pii_masking_mode] *)
Definition service_mask (enabled : bool) (config_mode : string) (patterns : list (PIIKind * finditer)) (t : text)
    (mode : option string) : MaskedResult :=
  if negb enabled then mk_masked t [] 0
  else mask patterns t (Some (str_or (default "" mode) config_mode)).

Definition service_detect (enabled : bool) (patterns : list (PIIKind * finditer)) (t : text) : list PIIField :=
  if negb enabled then [] else detect patterns t.

Definition redact (patterns : list (PIIKind * finditer)) (t : text) : text :=
  ms_text (mask patterns t (Some "full")).

(** *** Patterns of a fixed shape *)

Definition digit_char (c : ascii) : bool := (48 <=? nat_of_ascii c)%nat && (nat_of_ascii c <=? 57)%nat.
Definition word_char (c : ascii) : bool :=
  digit_char c || ((65 <=? nat_of_ascii c)%nat && (nat_of_ascii c <=? 90)%nat) ||
  ((97 <=? nat_of_ascii c)%nat && (nat_of_ascii c <=? 122)%nat) || (nat_of_ascii c =? 95)%nat.
Definition word_at (c : option ascii) : bool := match c with Some c => word_char c | None => false end.

(** [\b] between two characters *)
Definition boundary (a b : option ascii) : bool := xorb (word_at a) (word_at b).

Definition shape : Type := list (ascii → bool).
Definition lit (c : ascii) : ascii → bool := λ d, bool_decide (c = d).

(** The shape and then [\b], after the character [prev] *)
Fixpoint match_shape (s : shape) (prev : option ascii) (t : text) : bool :=
  match s, t with
  | [], _ => boundary prev (head t)
  | p :: s', c :: t' => p c && match_shape s' (Some c) t'
  | _ :: _, [] => false
  end.

(** Leftmost matches that do not overlap; [skip] characters are inside the last match. *)
Fixpoint shape_finditer (s : shape) (prev : option ascii) (pos skip : nat) (t : text) : list (nat * nat) :=
  match t with
  | [] => []
  | c :: t' =>
      match skip with
      | S skip' => shape_finditer s (Some c) (S pos) skip' t'
      | O =>
          if boundary prev (Some c) && match_shape s prev t
          then (pos, pos + length s)%nat :: shape_finditer s (Some c) (S pos) (length s - 1) t'
          else shape_finditer s (Some c) (S pos) 0 t'
      end
  end.

Definition ssn_shape : shape :=
  [digit_char; digit_char; digit_char; lit "-"; digit_char; digit_char; lit "-"; digit_char; digit_char; digit_char; digit_char].
Definition dob_shape : shape :=
  [digit_char; digit_char; digit_char; digit_char; lit "-"; digit_char; digit_char; lit "-"; digit_char; digit_char].

Definition ssn_finditer : finditer := shape_finditer ssn_shape None 0 0.
Definition dob_finditer : finditer := shape_finditer dob_shape None 0 0.

Definition str (s : string) : text := String.list_ascii_of_string s.

Example ssn_found : ssn_finditer (str "id 123-45-6789, 1123-45-6789 x") = [(3, 14)]%nat.
Proof. reflexivity. Qed.

Example partial_mask :
  String.string_of_list_ascii
    (ms_text (mask [(PII_SSN, ssn_finditer); (PII_DATE_OF_BIRTH, dob_finditer)] (str "born 1990-01-02, ssn 123-45-6789") None))
  = "born 19********, ssn 12*********".
Proof. reflexivity. Qed.

(** *** What a masked text reveals *)

(** The spans follow each other from [c] on. *)
Fixpoint separated (c : nat) (locs : list (nat * nat)) : Prop :=
  match locs with
  | [] => True
  | (a, b) :: locs' => (c <= a <= b)%nat ∧ separated b locs'
  end.

(** The position is in a span, after its visible characters. *)
Definition hidden (mode : string) (locs : list (nat * nat)) (i : nat) : bool :=
  existsb (λ l, (l.1 + visible mode (l.2 - l.1) <=? i)%nat && (i <? l.2)%nat) locs.

Lemma slice_lookup a b (t : text) i : (i < b - a)%nat → slice a b t !! i = t !! (a + i)%nat.
Proof. intros Hi. unfold slice. by rewrite lookup_take_lt, lookup_drop by lia. Qed.

Lemma slice_agree a b (t t' : text) : (∀ i, (a <= i < b)%nat → t !! i = t' !! i) → slice a b t = slice a b t'.
Proof.
  intros H. apply list_eq. intros i. unfold slice. destruct (decide (i < b - a)%nat).
  - rewrite !lookup_take_lt, !lookup_drop by lia. apply H. lia.
  - by rewrite !lookup_take_ge by lia.
Qed.

Lemma drop_agree a (t t' : text) : (∀ i, (a <= i)%nat → t !! i = t' !! i) → drop a t = drop a t'.
Proof. intros H. apply list_eq. intros i. rewrite !lookup_drop. apply H. lia. Qed.

Lemma length_slice a b (t : text) : (b <= length t)%nat → length (slice a b t) = (b - a)%nat.
Proof. intros H. unfold slice. rewrite length_take, length_drop. lia. Qed.

#[local] Arguments hidden : simpl never.

Lemma hidden_cons mode a b locs i :
  hidden mode ((a, b) :: locs) i = ((a + visible mode (b - a) <=? i) && (i <? b))%nat || hidden mode locs i.
Proof. done. Qed.

Lemma hidden_before mode c locs i : separated c locs → (i < c)%nat → hidden mode locs i = false.
Proof.
  revert c. induction locs as [|[a b] locs IH]; intros c; simpl; [done|]. intros [Hc Hs] Hi.
  rewrite hidden_cons, (IH b) by (done || lia). rewrite orb_false_r. apply andb_false_iff. left. apply Nat.leb_gt. lia.
Qed.

(** The value a field would have in [t] *)
Definition faithful (t : text) (f : PIIField) : Prop := pf_value f = slice (pf_location f).1 (pf_location f).2 t.

Lemma mask_value_agree mode a b (t t' : text) :
  length t = length t' →
  (∀ i, (a <= i < a + visible mode (b - a))%nat → (i < b)%nat → t !! i = t' !! i) → (a <= b <= length t)%nat →
  mask_value (slice a b t) mode = mask_value (slice a b t') mode.
Proof.
  intros Hl H Hb. unfold mask_value. case_decide as Hm; [done|]. rewrite !length_slice by lia. f_equal.
  apply list_eq. intros i. destruct (decide (i < visible mode (b - a))%nat) as [Hi|Hi].
  - rewrite !lookup_take_lt by done. destruct (decide (i < b - a)%nat).
    + rewrite !slice_lookup by done. apply H; lia.
    + rewrite !lookup_ge_None_2 by (rewrite length_slice; lia). done.
  - by rewrite !lookup_take_ge by lia.
Qed.

Lemma mask_loop_agree mode (t t' : text) fs fs' c :
  length t = length t' → Forall (faithful t) fs → Forall (faithful t') fs' →
  pf_location <$> fs = pf_location <$> fs' → separated c (pf_location <$> fs) →
  Forall (λ l, (l.2 <= length t)%nat) (pf_location <$> fs) →
  (∀ i, (c <= i)%nat → hidden mode (pf_location <$> fs) i = false → t !! i = t' !! i) →
  mask_loop mode t fs c = mask_loop mode t' fs' c.
Proof.
  intros Hl. revert fs' c. induction fs as [|f fs IH]; intros [|f' fs'] c Hf Hf' Hloc Hs Hb Hh; try discriminate; simpl in *.
  - by apply drop_agree; auto.
  - injection Hloc as Hfe Hloc. inversion Hf as [|? ? Hv Hf1]; subst. inversion Hf' as [|? ? Hv' Hf1']; subst.
    unfold faithful in Hv, Hv'. rewrite Hv, Hv', <- Hfe.
    destruct (pf_location f) as [a b]. simpl in *. destruct Hs as [Hca Hs]. inversion Hb as [|? ? Hb1 Hb2]; subst. simpl in Hb1.
    f_equal; [|f_equal].
    + apply slice_agree. intros i Hi. apply Hh; [lia|]. rewrite hidden_cons, (hidden_before _ b) by (done || lia).
      rewrite orb_false_r. apply andb_false_iff. left. apply Nat.leb_gt. lia.
    + apply mask_value_agree; [done| |lia]. intros i Hi Hib. apply Hh; [lia|].
      rewrite hidden_cons, (hidden_before _ b) by done. rewrite orb_false_r. apply andb_false_iff. left. apply Nat.leb_gt. lia.
    + apply IH; try done. intros i Hi Hhi. apply Hh; [lia|]. rewrite hidden_cons. unfold fmap in Hhi.
      rewrite Hhi, orb_false_r.
      apply andb_false_iff. right. apply Nat.ltb_ge. lia.
Qed.

Lemma detect_faithful patterns t : Forall (faithful t) (detect patterns t).
Proof.
  apply Forall_forall. intros f Hf. unfold detect in Hf. rewrite elem_of_py_sorted in Hf.
  apply list_elem_of_In, in_concat in Hf as (fs & Hfs & Hf).
  apply in_map_iff in Hfs as ([k p] & <- & _). by apply in_map_iff in Hf as (m & <- & _).
Qed.

(** What a masked text reveals: two texts in which the detector finds the same
    spans, one after the other, and which agree outside the spans and on the
    characters each mode leaves visible (none in [full], at most four at the start
    of a value otherwise) are masked to the same text. *)
Theorem mask_reveals_only_visible patterns mode (t t' : text) :
  let m := default "partial" mode in
  let locs := pf_location <$> detect patterns t in
  length t = length t' → pf_location <$> detect patterns t' = locs →
  separated 0 locs → Forall (λ l, (l.2 <= length t)%nat) locs →
  (∀ i, hidden m locs i = false → t !! i = t' !! i) →
  ms_text (mask patterns t mode) = ms_text (mask patterns t' mode).
Proof.
  intros m locs Hl Hloc Hs Hb Hh. unfold mask. simpl. apply mask_loop_agree; auto using detect_faithful.
Qed.

Lemma mask_reveals_only_visible_witness :
  let ps := [(PII_SSN, ssn_finditer)] in
  ms_text (mask ps (str "a 123-45-6789.") None) = ms_text (mask ps (str "a 129-87-6543.") None).
Proof.
  intros ps. apply (mask_reveals_only_visible ps None (str "a 123-45-6789.") (str "a 129-87-6543.")).
  - reflexivity.
  - reflexivity.
  - vm_compute. repeat split; lia.
  - vm_compute. repeat constructor.
  - intros i Hi. do 14 (destruct i as [|i]; [vm_compute in Hi |- *; (reflexivity || discriminate Hi)|]). reflexivity.
Defined.

(** A span inside another one moves the cursor back: the end of a card number
    that contains a social security number is printed. *)
Example nested_span_leaks :
  let card : finditer := λ t, [(0, 19)%nat] in
  String.string_of_list_ascii
    (redact [(PII_SSN, ssn_finditer); (PII_CREDIT_CARD, card)] (str "4111-123-45-6789-12"))
  = "******-12".
Proof. reflexivity. Qed.

(** *** Data subject requests *)

Inductive DataSubjectRequestType := DR_ACCESS | DR_ERASURE | DR_RECTIFICATION | DR_PORTABILITY.
Inductive DataSubjectRequestStatus := DS_PENDING | DS_IN_PROGRESS | DS_FULFILLED | DS_REJECTED | DS_EXPIRED.

#[export] Instance dstatus_eq_dec : EqDecision DataSubjectRequestStatus.
Proof. solve_decision. Defined.

Section Requests.
(** What a provider returns, and the data an eraser works on *)
Context {D St : Type}.

Inductive DsarResult := Res_empty | Res_data (d : D) | Res_erased (b : bool) | Res_rectified.

Record DataSubjectRequest := mk_dsar {
  dr_id : string;
  dr_subject : string;
  dr_request_type : DataSubjectRequestType;
  dr_status : DataSubjectRequestStatus;
  dr_created_at : float;
  dr_fulfilled_at : float;
  dr_result : DsarResult
}.

Inductive DsarErr := DataSubjectRequestError (msg : string) | CallbackError (e : string).

Definition DataProvider : Type := string → string → St → result string D * St.
Definition Eraser : Type := string → string → St → result string bool * St.

Context (provider : option DataProvider) (eraser : option Eraser).

Definition Requests : Type := dict string DataSubjectRequest.

Definition submit_request (id subject : string) (ty : DataSubjectRequestType) (now : float) (rs : Requests)
    : DataSubjectRequest * Requests :=
  let r := mk_dsar id subject ty DS_PENDING now fzero Res_empty in (r, dict_set id r rs).

Definition list_requests (subject : option string) (rs : Requests) : list DataSubjectRequest :=
  match subject with
  | None => dict_values rs
  | Some s => List.filter (λ r, bool_decide (dr_subject r = s)) (dict_values rs)
  end.

Definition ask_provider (subject kind : string) (s : St) : result DsarErr DsarResult * St :=
  match provider with
  | None => (Err (DataSubjectRequestError "no data provider registered"), s)
  | Some p => match p subject kind s with (Ok d, s) => (Ok (Res_data d), s) | (Err e, s) => (Err (CallbackError e), s) end
  end.

(** The branches of [fulfill_request] on the type *)
Definition process_request (subject : string) (ty : DataSubjectRequestType) (s : St) : result DsarErr DsarResult * St :=
  match ty with
  | DR_ACCESS => ask_provider subject "access" s
  | DR_PORTABILITY => ask_provider subject "portability" s
  | DR_ERASURE =>
      match eraser with
      | None => (Err (DataSubjectRequestError "no data eraser registered"), s)
      | Some er => match er subject "all" s with (Ok b, s) => (Ok (Res_erased b), s) | (Err e, s) => (Err (CallbackError e), s) end
      end
  | DR_RECTIFICATION =>
      match eraser with
      | None => (Err (DataSubjectRequestError "no data eraser registered"), s)
      | Some _ => (Ok Res_rectified, s)
      end
  end.

Definition with_dstatus (r : DataSubjectRequest) (st : DataSubjectRequestStatus) : DataSubjectRequest :=
  mk_dsar (dr_id r) (dr_subject r) (dr_request_type r) st (dr_created_at r) (dr_fulfilled_at r) (dr_result r).

Definition fulfill_request (id : string) (now : float) (rs : Requests) (s : St)
    : result DsarErr DataSubjectRequest * Requests * St :=
  match dict_get id rs with
  | None => (Err (DataSubjectRequestError "request not found"), rs, s)
  | Some r =>
      if bool_decide (dr_status r = DS_FULFILLED) || bool_decide (dr_status r = DS_REJECTED)
      then (Err (DataSubjectRequestError "request already finalised"), rs, s)
      else
        match process_request (dr_subject r) (dr_request_type r) s with
        | (Err e, s) => (Err e, dict_set id (with_dstatus r DS_PENDING) rs, s)
        | (Ok res, s) =>
            let r := mk_dsar (dr_id r) (dr_subject r) (dr_request_type r) DS_FULFILLED (dr_created_at r) now res in
            (Ok r, dict_set id r rs, s)
        end
  end.

Definition stale (cutoff : float) (r : DataSubjectRequest) : bool :=
  bool_decide (dr_status r = DS_PENDING) && flt (dr_created_at r) cutoff.

Definition expire_stale_requests (ttl now : float) (rs : Requests) : Z * Requests :=
  let cutoff := fsub now ttl in
  (zlen (List.filter (λ p, stale cutoff p.2) rs),
   map (λ p, (p.1, if stale cutoff p.2 then with_dstatus p.2 DS_EXPIRED else p.2)) rs).

(** The operations, from any number of callers; [_request_lock] makes each atomic. *)
Inductive DsarOp :=
| DSubmit (id subject : string) (ty : DataSubjectRequestType) (now : float)
| DFulfill (id : string) (now : float)
| DExpire (ttl now : float).

Definition dsar_op (o : DsarOp) (w : Requests * St) : Requests * St :=
  match o with
  | DSubmit id subject ty now => ((submit_request id subject ty now w.1).2, w.2)
  | DFulfill id now => let '(_, rs, s) := fulfill_request id now w.1 w.2 in (rs, s)
  | DExpire ttl now => ((expire_stale_requests ttl now w.1).2, w.2)
  end.

(** The result belongs to the type. *)
Definition result_fits (ty : DataSubjectRequestType) (r : DsarResult) : Prop :=
  match ty, r with
  | (DR_ACCESS | DR_PORTABILITY), Res_data _ => True
  | DR_ERASURE, Res_erased _ => True
  | DR_RECTIFICATION, Res_rectified => True
  | _, _ => False
  end.

Definition request_ok (r : DataSubjectRequest) : Prop :=
  match dr_status r with
  | DS_PENDING | DS_EXPIRED => dr_result r = Res_empty ∧ dr_fulfilled_at r = fzero
  | DS_FULFILLED => result_fits (dr_request_type r) (dr_result r)
  | DS_IN_PROGRESS | DS_REJECTED => False
  end.

Definition requests_ok (rs : Requests) : Prop := ∀ id r, dict_get id rs = Some r → request_ok r.

Lemma process_fits subject ty s res s' : process_request subject ty s = (Ok res, s') → result_fits ty res.
Proof.
  unfold process_request, ask_provider. intros H.
  destruct ty; repeat case_match; by simplify_eq.
Qed.

Lemma expire_get ttl now rs id :
  dict_get id (expire_stale_requests ttl now rs).2 =
  (λ r, if stale (fsub now ttl) r then with_dstatus r DS_EXPIRED else r) <$> dict_get id rs.
Proof.
  unfold expire_stale_requests. simpl. induction rs as [|[k r] rs IH]; simpl; [done|]. case_decide; [done|]. apply IH.
Qed.

Lemma requests_ok_op o w : requests_ok w.1 → requests_ok (dsar_op o w).1.
Proof.
  destruct w as [rs s]. intros Hok. destruct o as [id subject ty now|id now|ttl now]; cbn [dsar_op fst snd] in *.
  - intros k r. simpl. rewrite dict_get_set. case_decide; [by intros [= <-]|]. apply Hok.
  - unfold fulfill_request. destruct (dict_get id rs) as [r|] eqn:E; [|done]. specialize (Hok id r E) as Hr.
    destruct (_ || _) eqn:Ef; [done|]. apply orb_false_iff in Ef as [Ef _]. apply bool_decide_eq_false in Ef.
    destruct (process_request _ _ s) as [[res|e] s'] eqn:Ep; simpl; intros k r'; rewrite dict_get_set;
      (case_decide; [intros [= <-]|apply Hok]).
    + by apply process_fits in Ep.
    + unfold request_ok in *. simpl. by destruct (dr_status r).
  - intros k r'. rewrite expire_get. destruct (dict_get k rs) as [r|] eqn:E; simpl; [|done]. intros [= <-].
    specialize (Hok k r E). destruct (stale _ r) eqn:Es; [|done].
    unfold stale in Es. apply andb_prop in Es as [Es _]. apply bool_decide_eq_true in Es.
    unfold request_ok in *. rewrite Es in Hok. done.
Qed.

Lemma fulfilled_op o w id r :
  dict_get id w.1 = Some r → dr_status r = DS_FULFILLED →
  (∀ subject ty now, o ≠ DSubmit id subject ty now) → dict_get id (dsar_op o w).1 = Some r.
Proof.
  destruct w as [rs s]. intros Hr Hf Ho. destruct o as [id' subject ty now|id' now|ttl now]; cbn [dsar_op fst snd] in *.
  - simpl. rewrite dict_get_set, decide_False; [done|]. intros ->. by eapply Ho.
  - unfold fulfill_request. destruct (dict_get id' rs) as [r'|] eqn:E; [|done].
    destruct (_ || _) eqn:Ef; [done|]. assert (id' ≠ id) as Hne.
    { intros ->. simplify_eq. by rewrite Hf in Ef. }
    destruct (process_request _ _ s) as [[res|e] s']; simpl; by rewrite dict_get_set, decide_False by done.
  - rewrite expire_get, Hr. simpl. unfold stale. by rewrite Hf.
Qed.

(** Between operations a request is pending, expired or fulfilled, with a result
    of its type exactly when it is fulfilled; and a fulfilled request stays as it
    is, so that its eraser is not called again. *)
Theorem dsar_lifecycle (os : list DsarOp) rs s :
  requests_ok rs →
  requests_ok (foldl (λ w o, dsar_op o w) (rs, s) os).1 ∧
  ∀ id r, dict_get id rs = Some r → dr_status r = DS_FULFILLED →
    (∀ o, o ∈ os → ∀ subject ty now, o ≠ DSubmit id subject ty now) →
    dict_get id (foldl (λ w o, dsar_op o w) (rs, s) os).1 = Some r.
Proof.
  revert rs s. induction os as [|o os IH]; intros rs s Hok; simpl; [done|].
  pose proof (requests_ok_op o (rs, s) Hok) as Hok'. destruct (dsar_op o (rs, s)) as [rs' s'] eqn:Eo.
  destruct (IH rs' s' Hok') as [H1 H2]. split; [done|]. intros id r Hr Hf Ho.
  apply H2; [|done|intros; apply Ho; set_solver].
  change rs' with (rs', s').1. rewrite <- Eo. apply fulfilled_op; [done..|]. apply Ho. set_solver.
Qed.
End Requests.
Arguments DataSubjectRequest : clear implicits.
Arguments DsarResult : clear implicits.

(** An erasure that fails once is tried again and then stays. *)
Lemma dsar_lifecycle_witness :
  let er : Eraser (St := Z) := λ _ _ n, if n =? 0 then (Err "busy", 1) else (Ok true, n + 1) in
  let r : DataSubjectRequest Z := mk_dsar "r" "u" DR_ERASURE DS_FULFILLED fone fone (Res_erased true) in
  let os := [DSubmit "q" "v" DR_ERASURE fone; DFulfill "q" fone; DFulfill "r" fone; DFulfill "q" fone] in
  let w := foldl (λ w o, dsar_op None (Some er) o w) ([("r", r)], 0) os in
  w.2 = 2 ∧ requests_ok w.1 ∧ dict_get "r" w.1 = Some r.
Proof.
  intros er r os w. split; [reflexivity|].
  destruct (dsar_lifecycle (D := Z) None (Some er) os [("r", r)] 0) as [H1 H2].
  - intros id r'. simpl. case_decide; [by intros [= <-]|done].
  - split; [exact H1|]. apply (H2 "r"); [done..|].
    intros o Ho subject ty now ->. repeat (apply elem_of_cons in Ho as [[=]|Ho]). by apply elem_of_nil in Ho.
Defined.

(** An expired request can still be fulfilled: only [FULFILLED] and [REJECTED] are final. *)
Example expired_fulfilled :
  let er : Eraser (St := unit) := λ _ _ s, (Ok true, s) in
  let rs : dict string (DataSubjectRequest unit) := (submit_request "r" "u" DR_ERASURE fone []).2 in
  let rs := (expire_stale_requests fone (float_of_Z 5) rs).2 in
  dr_status <$> dict_get "r" rs = Some DS_EXPIRED ∧
  dr_status <$> dict_get "r" (fulfill_request None (Some er) "r" fone rs tt).1.2 = Some DS_FULFILLED.
Proof. split; reflexivity. Qed.
End Privacy.
