(* ===== verification/SecCompliance.v ===== *)
(** * Compliance reports

    [src/app/security/compliance.py] and the report of [models.py]: the control
    catalogs of four frameworks, the status of a control under a configuration,
    evidence, findings and readiness; [monitoring.py]: alerts and their sinks. *)

From Stdlib Require Import ZArith Lia Ascii.
From stdpp Require Import base numbers strings gmap list.
From S2P Require Import Prelude PyFloat PyNum PyStr PyDict PyMath PyVal SecServices.

Open Scope string_scope.
Open Scope Z_scope.

Module Compliance.
Import Threats.

Inductive ComplianceFramework := FW_SOC2 | FW_ISO27001 | FW_GDPR | FW_CCPA.
Inductive ControlStatus := CS_IMPLEMENTED | CS_PARTIAL | CS_NOT_IMPLEMENTED | CS_NOT_APPLICABLE.

#[export] Instance framework_eq_dec : EqDecision ComplianceFramework.
Proof. solve_decision. Defined.
#[export] Instance cstatus_eq_dec : EqDecision ControlStatus.
Proof. solve_decision. Defined.

Definition framework_value (f : ComplianceFramework) : string :=
  match f with FW_SOC2 => "soc2" | FW_ISO27001 => "iso27001" | FW_GDPR => "gdpr" | FW_CCPA => "ccpa" end.

(** [ComplianceFramework(s)], a ValueError for other strings *)
Definition framework_of (s : string) : option ComplianceFramework :=
  List.find (λ f, bool_decide (framework_value f = s)) [FW_SOC2; FW_ISO27001; FW_GDPR; FW_CCPA].

Record ComplianceConfig := mk_cconfig {
  cc_pii_detection_enabled : bool;
  cc_pii_retention_days : Z;
  cc_encryption_algorithm : string;
  cc_zero_trust_enforce : bool;
  cc_threat_detection_enabled : bool;
  cc_audit_enabled : bool;
  cc_compliance_frameworks : list string
}.

(** The defaults of [SecurityConfig] *)
Definition default_cconfig : ComplianceConfig :=
  mk_cconfig true 90 "aes-256-gcm" true true true ["soc2"; "iso27001"; "gdpr"; "ccpa"].

Definition CONTROLS (f : ComplianceFramework) : list (string * string) :=
  match f with
  | FW_SOC2 =>
      [("CC6.1", "Logical and physical access controls");
       ("CC6.6", "Logical and physical access security against malicious code");
       ("CC7.2", "Security event monitoring");
       ("CC7.3", "System operations monitoring and anomalous activity");
       ("CC8.1", "Change management and integrity");
       ("A1.2", "Data backup and recovery")]
  | FW_ISO27001 =>
      [("A.5.15", "Access control policy");
       ("A.5.24", "Information security incident management");
       ("A.8.24", "Cryptographic controls");
       ("A.8.25", "Secure development lifecycle");
       ("A.8.28", "Logging and monitoring");
       ("A.8.10", "Information deletion")]
  | FW_GDPR =>
      [("Art.5", "Data minimisation and purpose limitation");
       ("Art.15", "Right of access");
       ("Art.17", "Right to erasure");
       ("Art.20", "Right to data portability");
       ("Art.30", "Records of processing activities");
       ("Art.32", "Security of processing")]
  | FW_CCPA =>
      [("1798.110", "Right to know");
       ("1798.105", "Right to delete");
       ("1798.115", "Opt-out of sale");
       ("1798.100", "Notice at collection");
       ("1798.130", "Disclosure requirements")]
  end.

Definition implemented_if (b : bool) (otherwise : ControlStatus) : ControlStatus := if b then CS_IMPLEMENTED else otherwise.

Definition derive_status (f : ComplianceFramework) (id : string) (c : ComplianceConfig) : ControlStatus :=
  let aes := startswith "aes-256" (cc_encryption_algorithm c) in
  match f with
  | FW_GDPR =>
      if decide (id = "Art.15") then implemented_if (cc_pii_detection_enabled c) CS_NOT_IMPLEMENTED
      else if decide (id = "Art.17") then implemented_if (0 <? cc_pii_retention_days c) CS_NOT_IMPLEMENTED
      else if decide (id = "Art.20") then implemented_if (cc_pii_detection_enabled c) CS_PARTIAL
      else if decide (id = "Art.32") then implemented_if aes CS_PARTIAL
      else if decide (id = "Art.30") then CS_PARTIAL
      else CS_IMPLEMENTED
  | FW_CCPA =>
      if decide (id ∈ ["1798.110"; "1798.105"]) then implemented_if (cc_pii_detection_enabled c) CS_NOT_IMPLEMENTED
      else if decide (id = "1798.130") then CS_PARTIAL
      else CS_NOT_IMPLEMENTED
  | FW_SOC2 =>
      if decide (id = "CC6.1") then implemented_if (cc_zero_trust_enforce c) CS_NOT_IMPLEMENTED
      else if decide (id ∈ ["CC7.2"; "CC7.3"]) then implemented_if (cc_threat_detection_enabled c) CS_NOT_IMPLEMENTED
      else if decide (id = "CC6.6") then implemented_if (cc_audit_enabled c) CS_PARTIAL
      else CS_PARTIAL
  | FW_ISO27001 =>
      if decide (id = "A.5.15") then implemented_if (cc_zero_trust_enforce c) CS_NOT_IMPLEMENTED
      else if decide (id = "A.5.24") then implemented_if (cc_threat_detection_enabled c) CS_NOT_IMPLEMENTED
      else if decide (id = "A.8.24") then implemented_if aes CS_PARTIAL
      else if decide (id = "A.8.28") then implemented_if (cc_audit_enabled c) CS_NOT_IMPLEMENTED
      else if decide (id = "A.8.10") then implemented_if (0 <? cc_pii_retention_days c) CS_NOT_IMPLEMENTED
      else CS_PARTIAL
  end.

(** What an evidence provider returns: a dict, or another value *)
Inductive Evidence := Ev_dict (d : dict string string) | Ev_value (v : string).

Record Control := mk_control {
  ct_id : string;
  ct_name : string;
  ct_description : string;
  ct_status : ControlStatus;
  ct_evidence : dict string string
}.

Record ComplianceFinding := mk_cfinding {
  cf_id : string;
  cf_severity : ThreatSeverity;
  cf_description : string;
  cf_remediation : string;
  cf_resource : string
}.

Record ComplianceReport := mk_creport {
  rp_framework : ComplianceFramework;
  rp_controls : list Control;
  rp_findings : list ComplianceFinding;
  rp_generated_at : float
}.

Inductive ComplianceErr := ValueError (s : string) | ComplianceError (s : string).

Section Manager.
Context (cfg : ComplianceConfig) (evidence : option (string → string → result string (option Evidence))).

Definition StatusOverrides : Type := dict (string * string) ControlStatus.

Definition frameworks : result ComplianceErr (list ComplianceFramework) :=
  fold_right (λ s r,
      match framework_of s with
      | None => Err (ValueError s)
      | Some f => match r with Ok fs => Ok (f :: fs) | Err e => Err e end
      end) (Ok []) (cc_compliance_frameworks cfg).

Definition set_control_status (framework id : string) (st : ControlStatus) (o : StatusOverrides) : StatusOverrides :=
  dict_set (framework, id) st o.

Definition status_for (o : StatusOverrides) (f : ComplianceFramework) (id : string) : ControlStatus :=
  match dict_get (framework_value f, id) o with
  | Some st => st
  | None => derive_status f id cfg
  end.

(** The evidence of a control; a provider that raises gives none. *)
Definition evidence_for (f : ComplianceFramework) (id : string) : dict string string :=
  match evidence with
  | None => []
  | Some p =>
      match p id (framework_value f) with
      | Ok (Some (Ev_dict d)) => d
      | Ok (Some (Ev_value v)) => [("value", v)]
      | Ok None | Err _ => []
      end
  end.

Definition build_controls (o : StatusOverrides) (f : ComplianceFramework) : list Control :=
  map (λ c, mk_control c.1 c.2 "" (status_for o f c.1) (evidence_for f c.1)) (CONTROLS f).

(** [_findings_for]; [ids] are the ids drawn. *)
Fixpoint findings_for (ids : nat → string) (n : nat) (cs : list Control) : list ComplianceFinding :=
  match cs with
  | [] => []
  | c :: cs =>
      match ct_status c with
      | CS_NOT_IMPLEMENTED =>
          mk_cfinding (ids n) TS_HIGH ("Control " +:+ ct_id c +:+ " not implemented") ("Implement " +:+ ct_name c) (ct_id c)
            :: findings_for ids (S n) cs
      | CS_PARTIAL =>
          mk_cfinding (ids n) TS_MEDIUM ("Control " +:+ ct_id c +:+ " partially implemented") ("Complete " +:+ ct_name c)
            (ct_id c) :: findings_for ids (S n) cs
      | _ => findings_for ids n cs
      end
  end.

Definition build_report (ids : nat → string) (now : float) (o : StatusOverrides) (f : ComplianceFramework) : ComplianceReport :=
  let cs := build_controls o f in mk_creport f cs (findings_for ids 0 cs) now.

Definition generate_report (ids : nat → string) (now : float) (o : StatusOverrides) (framework : string)
    : result ComplianceErr ComplianceReport :=
  match framework_of framework with
  | None => Err (ValueError framework)
  | Some f =>
      match frameworks with
      | Err e => Err e
      | Ok fs => if decide (f ∈ fs) then Ok (build_report ids now o f)
                 else Err (ComplianceError ("framework " +:+ framework +:+ " not enabled in configuration"))
      end
  end.

Definition implemented (c : Control) : bool := bool_decide (ct_status c = CS_IMPLEMENTED).

(** [round(implemented / total * 100.0, 1)] *)
Definition percent (part total : Z) : float :=
  match int_truediv part total with Ok q => py_round (fmul q (float_of_Z 100)) 1 | Err _ => fzero end.

Definition report_readiness (cs : list Control) : float :=
  if zlen cs =? 0 then fzero else percent (zlen (List.filter implemented cs)) (zlen cs).

Definition control_counts (o : StatusOverrides) (fs : list ComplianceFramework) : Z * Z :=
  fold_left (λ acc f, let cs := build_controls o f in
                      (acc.1 + zlen (List.filter implemented cs), acc.2 + zlen cs)) fs (0, 0).

Definition readiness (o : StatusOverrides) : result ComplianceErr float :=
  match frameworks with
  | Err e => Err e
  | Ok fs => let '(i, t) := control_counts o fs in Ok (if t =? 0 then fzero else percent i t)
  end.

(** *** Findings say exactly what is missing *)

Definition gap (c : Control) : option (ThreatSeverity * string) :=
  match ct_status c with
  | CS_NOT_IMPLEMENTED => Some (TS_HIGH, ct_id c)
  | CS_PARTIAL => Some (TS_MEDIUM, ct_id c)
  | _ => None
  end.

Lemma findings_gaps ids n cs : map (λ f, (cf_severity f, cf_resource f)) (findings_for ids n cs) = omap gap cs.
Proof.
  revert n. induction cs as [|c cs IH]; intros n; simpl; [done|]. unfold gap at 1.
  destruct (ct_status c); simpl; by rewrite IH.
Qed.

Lemma frameworks_all fs : frameworks = Ok fs → map framework_value fs = cc_compliance_frameworks cfg.
Proof.
  unfold frameworks. revert fs. induction (cc_compliance_frameworks cfg) as [|s l IH]; intros fs; simpl.
  - by intros [= <-].
  - destruct (framework_of s) as [f|] eqn:E; [|done]. destruct (fold_right _ _ l) as [fs'|]; [|done].
    intros [= <-]. simpl. f_equal; [|by apply IH]. apply find_some in E as [_ E]. by apply bool_decide_eq_true in E.
Qed.

Lemma framework_of_value f : framework_of (framework_value f) = Some f.
Proof. by destruct f. Qed.

(** A report of an enabled framework lists its catalog in order, with an override
    where one is set and the derived status otherwise, and its findings name
    exactly the controls that are missing (severity high) or partial (medium), in
    order; a framework that is not enabled is refused. *)
Theorem report_correct ids now o f :
  (∀ s, s ∈ cc_compliance_frameworks cfg → is_Some (framework_of s)) →
  match generate_report ids now o (framework_value f) with
  | Ok r =>
      framework_value f ∈ cc_compliance_frameworks cfg ∧ rp_framework r = f ∧
      map (λ c, (ct_id c, ct_name c)) (rp_controls r) = CONTROLS f ∧
      (∀ c, c ∈ rp_controls r →
         ct_status c = default (derive_status f (ct_id c) cfg) (dict_get (framework_value f, ct_id c) o)) ∧
      map (λ x, (cf_severity x, cf_resource x)) (rp_findings r) = omap gap (rp_controls r)
  | Err (ComplianceError _) => framework_value f ∉ cc_compliance_frameworks cfg
  | Err (ValueError _) => False
  end.
Proof.
  intros Hall. unfold generate_report. rewrite framework_of_value. destruct frameworks as [fs|e] eqn:E.
  - pose proof (frameworks_all fs E) as Hf. rewrite <- Hf. case_decide as Hin.
    + split_and!.
      * apply list_elem_of_In, in_map_iff. exists f. split; [done|]. by apply list_elem_of_In.
      * done.
      * simpl. unfold build_controls. rewrite map_map. simpl. rewrite <- (map_id (CONTROLS f)) at 2.
        apply map_ext. by intros [].
      * intros c Hc. simpl in Hc. unfold build_controls in Hc. apply list_elem_of_In, in_map_iff in Hc as (p & <- & _).
        simpl. unfold status_for. by destruct (dict_get _ _).
      * apply findings_gaps.
    + intros Hv. apply Hin. apply list_elem_of_In, in_map_iff in Hv as (f' & Hv & Hf').
      apply list_elem_of_In in Hf'. by destruct f, f'.
  - exfalso. revert E. unfold frameworks. clear - Hall. revert e. induction (cc_compliance_frameworks cfg) as [|s l IH]; intros e; simpl; [done|].
    destruct (Hall s) as [f Hf]; [set_solver|]. rewrite Hf. destruct (fold_right _ _ l) eqn:E; [done|].
    intros _. apply (IH (λ s Hs, Hall s (list_elem_of_further _ _ _ Hs)) e0). done.
Qed.
End Manager.

Lemma report_correct_witness :
  match generate_report default_cconfig None (λ _, "f") fone [(("ccpa", "1798.115"), CS_NOT_APPLICABLE)] "ccpa" with
  | Ok r => map (λ x, (cf_severity x, cf_resource x)) (rp_findings r) = [(TS_HIGH, "1798.100"); (TS_MEDIUM, "1798.130")]
  | Err _ => False
  end.
Proof.
  pose proof (report_correct default_cconfig None (λ _, "f") fone [(("ccpa", "1798.115"), CS_NOT_APPLICABLE)] FW_CCPA) as H.
  assert (∀ s, s ∈ cc_compliance_frameworks default_cconfig → is_Some (framework_of s)) as Hall.
  { intros s Hs. simpl in Hs. repeat (apply elem_of_cons in Hs as [->|Hs]; [by eexists|]). by apply elem_of_nil in Hs. }
  specialize (H Hall). simpl in H |- *. destruct H as (_ & _ & _ & _ & H). exact H.
Defined.

(** Without overrides no configuration implements every control: some have a
    fixed status. *)
Lemma never_all_implemented cfg ev f :
  List.forallb implemented (build_controls cfg ev [] f) = false.
Proof.
  apply not_true_iff_false. intros H. rewrite List.forallb_forall in H.
  assert (∀ id name, In (id, name) (CONTROLS f) → derive_status f id cfg = CS_IMPLEMENTED) as Hd.
  { intros id name Hin. specialize (H (mk_control id name "" (status_for cfg [] f id) (evidence_for ev f id))).
    unfold implemented in H. apply bool_decide_eq_true in H; [done|]. unfold build_controls. apply in_map_iff.
    by exists (id, name). }
  destruct f; [specialize (Hd "A1.2" "Data backup and recovery")|specialize (Hd "A.8.25" "Secure development lifecycle")
    |specialize (Hd "Art.30" "Records of processing activities")|specialize (Hd "1798.100" "Notice at collection")];
    simpl in Hd; discriminate Hd; tauto.
Qed.

(** The default configuration implements 16 of the 23 controls. *)
Example default_readiness :
  match frameworks default_cconfig with
  | Ok fs => control_counts default_cconfig None [] fs = (16, 23)
  | Err _ => False
  end.
Proof. reflexivity. Qed.
End Compliance.

(** ** Alerts and their sinks *)

Module Monitoring.
Import Threats.

Record SecurityAlert := mk_salert {
  al_id : string;
  al_severity : ThreatSeverity;
  al_message : string;
  al_source : string;
  al_timestamp : float;
  al_metadata : dict string pyval
}.

Definition severity_value (s : ThreatSeverity) : string :=
  match s with TS_LOW => "low" | TS_MEDIUM => "medium" | TS_HIGH => "high" | TS_CRITICAL => "critical" end.

Record AlertPayload := mk_payload {
  py_alert : SecurityAlert;
  py_source_type : string;
  py_tags : string
}.

(** The sinks with the settings each one reads *)
Inductive SiemSink :=
| StdoutSink
| SplunkSink (url token index source : string)
| ElasticSink (url api_key : string)
| DatadogSink (url api_key : string).

(** The body each sink posts *)
Inductive SinkBody :=
| SplunkBody (index source sourcetype : string) (event : AlertPayload)
| ElasticBody (p : AlertPayload)
| DatadogBody (ddsource ddtags message : string).

Inductive Response := Resp_none | Resp_dict (d : dict string pyval) | Resp_other (truth : bool).
Inductive SinkErr := MonitoringError (msg : string) | OtherError (msg : string).

Definition is_one_of (v : pyval) (l : list pyval) : bool := existsb (val_eq v) l.

Definition sink_name (s : SiemSink) : string :=
  match s with StdoutSink => "stdout" | SplunkSink _ _ _ _ => "splunk" | ElasticSink _ _ => "elastic" | DatadogSink _ _ => "datadog" end.

(** [SiemRegistry.create] with the built-in factories *)
Definition get_setting (c : dict string string) (k d : string) : string := default d (dict_get k c).

Definition create_sink (backend : string) (c : dict string string) : result SinkErr SiemSink :=
  if decide (backend = "stdout") then Ok StdoutSink
  else if decide (backend = "splunk") then
    Ok (SplunkSink (rstrip_char "/" (get_setting c "url" "https://hec.example.com:8088/services/collector/event"))
          (get_setting c "token" "") (get_setting c "index" "main") (get_setting c "source" "ai-router-security"))
  else if decide (backend = "elastic") then
    Ok (ElasticSink (get_setting c "url" "http://127.0.0.1:9200/security-events/_doc") (get_setting c "api_key" ""))
  else if decide (backend = "datadog") then
    Ok (DatadogSink (get_setting c "url" "https://http-intake.logs.datadoghq.com/api/v2/logs") (get_setting c "api_key" ""))
  else Err (MonitoringError ("unknown siem backend " +:+ backend)).

Section Service.
(** The transport of a sink: the state of the outside, the sink, the URL and the
    body; an exception is an error.  Without one the call raises. *)
Context {W : Type} (transport : option (SiemSink → string → SinkBody → W → result string Response * W))
  (json_dumps : AlertPayload → string).

Definition post (s : SiemSink) (url : string) (body : SinkBody) (w : W) : result SinkErr Response * W :=
  match transport with
  | None => (Err (MonitoringError (sink_name s +:+ " emit failed")), w)
  | Some t =>
      match t s url body w with
      | (Ok r, w) => (Ok r, w)
      | (Err e, w) => (Err (MonitoringError (sink_name s +:+ " emit failed: " +:+ e)), w)
      end
  end.

(** [isinstance(response, dict) and response.get(key) in (...)] *)
Definition answer_in (key : string) (l : list pyval) (r : Response) : bool :=
  match r with Resp_dict d => is_one_of (default PNone (dict_get key d)) l | _ => false end.

Definition sink_emit (s : SiemSink) (p : AlertPayload) (w : W) : result SinkErr bool * W :=
  match s with
  | StdoutSink => (Ok true, w)
  | SplunkSink url _ index source =>
      let '(r, w) := post s url (SplunkBody index source (py_source_type p) p) w in
      (match r with Ok r => Ok (answer_in "code" [PScalar (SInt 0); PStr "0"; PNone] r) | Err e => Err e end, w)
  | ElasticSink url _ =>
      let '(r, w) := post s url (ElasticBody p) w in
      (match r with Ok r => Ok (answer_in "result" [PStr "created"; PStr "updated"; PStr "indexed"; PNone] r) | Err e => Err e end, w)
  | DatadogSink url _ =>
      let '(r, w) := post s url (DatadogBody "ai-router-security" (py_tags p) (json_dumps p)) w in
      (match r with
       | Ok Resp_none => Ok true
       | Ok (Resp_dict d) => Ok (negb (zlen d =? 0))
       | Ok (Resp_other b) => Ok b
       | Err e => Err e
       end, w)
  end.

Record MonConfig := mk_mconfig {
  mc_enabled : bool;
  mc_backend : string;
  mc_siem_config : dict string string;
  mc_environment : string;
  mc_region : string
}.

Record MonState := mk_mon {
  mn_sink : option SiemSink;
  mn_alerts : list SecurityAlert;
  mn_running : bool;
  mn_sent : Z;
  mn_failures : Z
}.

Context (cfg : MonConfig).

(** [start]; an unknown backend raises before anything changes. *)
Definition mon_start (m : MonState) : result SinkErr unit * MonState :=
  if mn_running m then (Ok (), m)
  else
    match (match mn_sink m with Some s => Ok s | None => create_sink (mc_backend cfg) (mc_siem_config cfg) end) with
    | Err e => (Err e, m)
    | Ok s => (Ok (), mk_mon (Some s) (mn_alerts m) true (mn_sent m) (mn_failures m))
    end.

Definition mon_stop (m : MonState) : MonState :=
  if negb (mn_running m) then m else mk_mon (mn_sink m) (mn_alerts m) false (mn_sent m) (mn_failures m).

Definition alert_payload (a : SecurityAlert) : AlertPayload :=
  mk_payload a ("security:" +:+ severity_value (al_severity a))
    ("env:" +:+ mc_environment cfg +:+ ",region:" +:+ mc_region cfg).

Definition send_alert (a : SecurityAlert) (m : MonState) (w : W) : result SinkErr SecurityAlert * MonState * W :=
  let m := mk_mon (mn_sink m) (mn_alerts m ++ [a])%list (mn_running m) (mn_sent m) (mn_failures m) in
  if negb (mc_enabled cfg) then (Ok a, m, w)
  else
    let '(started, m) := match mn_sink m with None => mon_start m | Some _ => (Ok (), m) end in
    match started, mn_sink m with
    | Err e, _ => (Err e, m, w)
    | Ok _, None => (Err (OtherError "no sink"), m, w)
    | Ok _, Some s =>
        match sink_emit s (alert_payload a) w with
        | (Err (MonitoringError e), w) =>
            (Err (MonitoringError e), mk_mon (mn_sink m) (mn_alerts m) (mn_running m) (mn_sent m) (mn_failures m + 1), w)
        | (Err e, w) => (Err e, m, w)
        | (Ok _, w) => (Ok a, mk_mon (mn_sink m) (mn_alerts m) (mn_running m) (mn_sent m + 1) (mn_failures m), w)
        end
    end.

(** A sink raises nothing but [MonitoringError]. *)
Lemma emit_error s p w e w' : sink_emit s p w = (Err e, w') → ∃ msg, e = MonitoringError msg.
Proof.
  unfold sink_emit, post. intros H. destruct s; [done|..]; destruct transport as [t|]; simpl in H;
    try (by simplify_eq; eexists); destruct (t _ _ _ w) as [[[]|] ?]; simplify_eq; by eexists.
Qed.

(** Every alert is kept, whatever happens to it; once a sink is set each enabled
    alert counts as sent or as failed, and one that a sink turned down without an
    exception counts as sent. *)
Lemma send_alert_spec a m w s :
  mc_enabled cfg = true → mn_sink m = Some s →
  let '(r, m', _) := send_alert a m w in
  mn_alerts m' = (mn_alerts m ++ [a])%list ∧ mn_sent m' + mn_failures m' = mn_sent m + mn_failures m + 1 ∧
  match (sink_emit s (alert_payload a) w).1 with
  | Ok _ => r = Ok a ∧ mn_sent m' = mn_sent m + 1
  | Err e => r = Err e ∧ mn_failures m' = mn_failures m + 1
  end.
Proof.
  intros He Hs. unfold send_alert. simpl. rewrite He, Hs. simpl.
  destruct (sink_emit s (alert_payload a) w) as [[b|e] w'] eqn:E; simpl; [split_and!; auto; lia|].
  destruct (emit_error _ _ _ _ _ E) as [msg ->]. simpl. split_and!; auto; lia.
Qed.
End Service.

(** An alert the index refuses is counted as sent. *)
Example refused_counts_sent :
  let t : SiemSink → string → SinkBody → unit → result string Response * unit :=
    λ _ _ _ w, (Ok (Resp_dict [("code", PScalar (SInt 4))]), w) in
  let s := SplunkSink "u" "t" "main" "src" in
  let cfg := mk_mconfig true "splunk" [] "production" "default" in
  let a := mk_salert "a" TS_HIGH "m" "security" fone [] in
  let '(r, m, _) := send_alert (Some t) (λ _, "") cfg a (mk_mon (Some s) [] true 0 0) tt in
  (sink_emit (Some t) (λ _, "") s (alert_payload cfg a) tt).1 = Ok false ∧ r = Ok a ∧ mn_sent m = 1.
Proof. repeat split. Qed.
End Monitoring.
