(* ===== verification/PluginParts.v ===== *)
(** * Plugin lifecycle ([app/plugins/lifecycle.py])

    [PluginLifecycle] maps plugin names to a status and admits only the
    transitions of a fixed table. *)

From Stdlib Require Import ZArith Lia.
From Stdlib Require Import Ascii.
From stdpp Require Import base numbers strings gmap list.
From S2P Require Import Prelude PyFloat PyNum PyStr PyDict PyMath.


Inductive PluginStatus :=
| DRAFT | INSTALLING | INSTALLED | VERIFYING | VERIFIED | ENABLING | ENABLED | DISABLED
| UPDATING | ROLLING_BACK | ROLLED_BACK | UNINSTALLING | UNINSTALLED | FAILED.

#[export] Instance PluginStatus_eq_dec : EqDecision PluginStatus.
Proof. solve_decision. Defined.

(** [PluginStatus.value] *)
Definition status_value (s : PluginStatus) : string :=
  match s with
  | DRAFT => "draft" | INSTALLING => "installing" | INSTALLED => "installed"
  | VERIFYING => "verifying" | VERIFIED => "verified" | ENABLING => "enabling"
  | ENABLED => "enabled" | DISABLED => "disabled" | UPDATING => "updating"
  | ROLLING_BACK => "rolling_back" | ROLLED_BACK => "rolled_back"
  | UNINSTALLING => "uninstalling" | UNINSTALLED => "uninstalled" | FAILED => "failed"
  end.

(** [_VALID_TRANSITIONS] *)
Definition valid_transitions (s : PluginStatus) : list PluginStatus :=
  match s with
  | DRAFT => [INSTALLING; FAILED]
  | INSTALLING => [INSTALLED; FAILED]
  | INSTALLED => [VERIFYING; UNINSTALLING; FAILED]
  | VERIFYING => [VERIFIED; FAILED]
  | VERIFIED => [ENABLING; DISABLED; UPDATING; UNINSTALLING; FAILED]
  | ENABLING => [ENABLED; FAILED]
  | ENABLED => [DISABLED; UPDATING; UNINSTALLING]
  | DISABLED => [ENABLING; UPDATING; UNINSTALLING]
  | UPDATING => [ENABLED; DISABLED; ROLLING_BACK; FAILED]
  | ROLLING_BACK => [ENABLED; DISABLED; ROLLED_BACK; FAILED]
  | ROLLED_BACK => [ENABLING; DISABLED; UNINSTALLING; UPDATING]
  | UNINSTALLING => [UNINSTALLED; FAILED]
  | UNINSTALLED => []
  | FAILED => [UNINSTALLING; INSTALLING]
  end.

Abbreviation lifecycle := (dict string PluginStatus) (only parsing).

Inductive LifecycleError := PluginLifecycleError (plugin from_status to_status : string).

Definition initialize (name : string) (st : PluginStatus) (s : lifecycle) : lifecycle :=
  dict_set name st s.

Definition state (name : string) (s : lifecycle) : PluginStatus := default DRAFT (dict_get name s).

Definition is_installed (name : string) (s : lifecycle) : bool :=
  bool_decide (state name s ∈ [INSTALLED; ENABLED; DISABLED; VERIFIED; ROLLED_BACK]).

Definition is_enabled (name : string) (s : lifecycle) : bool := bool_decide (state name s = ENABLED).

Definition can_transition (name : string) (to : PluginStatus) (s : lifecycle) : bool :=
  bool_decide (to ∈ valid_transitions (state name s)).

Definition transition (name : string) (to : PluginStatus) (s : lifecycle)
    : result LifecycleError (PluginStatus * lifecycle) :=
  let current := state name s in
  if decide (to ∈ valid_transitions current) then Ok (to, dict_set name to s)
  else Err (PluginLifecycleError name (status_value current) (status_value to)).

Definition drop_plugin (name : string) (s : lifecycle) : lifecycle := dict_pop name s.

Definition states (s : lifecycle) : dict string string := (λ p, (p.1, status_value p.2)) <$> s.

(** ** Histories *)

(** The statuses a plugin goes through, the latest first. *)
Inductive history : list PluginStatus → Prop :=
| history_start : history [DRAFT]
| history_step s h to :
    history (s :: h) → to ∈ valid_transitions s → history (to :: s :: h).

(** Statuses in which the plugin's code may be loaded. *)
Definition operational (s : PluginStatus) : bool :=
  match s with
  | VERIFIED | ENABLING | ENABLED | DISABLED | UPDATING | ROLLING_BACK | ROLLED_BACK => true
  | _ => false
  end.

(** The part of a history since the latest installation. *)
Fixpoint since_install (h : list PluginStatus) : list PluginStatus :=
  match h with
  | [] => []
  | s :: h' => if decide (s = INSTALLING) then [] else s :: since_install h'
  end.

Lemma operational_enter s to :
  to ∈ valid_transitions s → operational to = true → to = VERIFIED ∨ operational s = true.
Proof.
  destruct s; simpl; auto; intros Hto Hop;
    repeat (apply elem_of_cons in Hto as [->|Hto]; [auto; discriminate|]); by apply elem_of_nil in Hto.
Qed.

Lemma history_verified s h :
  history (s :: h) → operational s = true → VERIFIED ∈ since_install (s :: h).
Proof.
  remember (s :: h) as l eqn:El. intros Hh. revert s h El.
  induction Hh as [|s0 h0 to Hh IH Hto]; intros s h [= <- <-] Hop; [done|].
  cbn [since_install]. rewrite decide_False by (intros ->; done).
  destruct (operational_enter _ _ Hto Hop) as [->|Hs]; [by constructor|].
  apply elem_of_cons. right. by apply (IH s0 h0).
Qed.

(** ** Runs of the lifecycle *)

(** Requests for transitions of several plugins, with the history of [name]. *)
Fixpoint run (name : string) (reqs : list (string * PluginStatus)) (s : lifecycle)
    (h : list PluginStatus) : lifecycle * list PluginStatus :=
  match reqs with
  | [] => (s, h)
  | (n, to) :: reqs' =>
      match transition n to s with
      | Ok (_, s') => run name reqs' s' (if decide (n = name) then to :: h else h)
      | Err _ => run name reqs' s h
      end
  end.

Lemma run_history name reqs s h :
  history h → head h = Some (state name s) →
  let '(s', h') := run name reqs s h in history h' ∧ head h' = Some (state name s').
Proof.
  revert s h. induction reqs as [|[n to] reqs IH]; intros s h Hh Hst; simpl; [done|].
  unfold transition. case_decide as Hto; [|by apply IH]. apply IH.
  - case_decide; [subst|done]. destruct h as [|s0 h]; simplify_eq/=. by constructor.
  - unfold state. rewrite dict_get_set. by case_decide.
Qed.

(** No plugin operates unverified: whatever transitions are requested, of this
    and of other plugins, a plugin that is verified, enabled, disabled, updating
    or rolling back has been verified since its latest installation; and an
    uninstalled plugin stays uninstalled. *)
Theorem lifecycle_verified (name : string) (reqs : list (string * PluginStatus)) :
  let '(s, h) := run name reqs [] [DRAFT] in
  head h = Some (state name s) ∧
  (operational (state name s) = true → VERIFIED ∈ since_install h) ∧
  (state name s = UNINSTALLED → ∀ to, is_ok (transition name to s) = false).
Proof.
  pose proof (run_history name reqs [] [DRAFT] history_start eq_refl) as Hr.
  destruct (run name reqs [] [DRAFT]) as [s h]. destruct Hr as [Hh Hst].
  split; [done|]. split.
  - destruct h as [|s0 h]; simplify_eq/=. intros Hop. by apply history_verified.
  - intros Hu to. unfold transition. rewrite Hu. by rewrite decide_False by (apply not_elem_of_nil).
Qed.

(** * Parts of the plugin platform

    [src/app/plugins/]: versions ([versioning.py]), manifests and compatibility
    ([validation.py]), signatures ([signing.py]), permissions ([permissions.py]),
    the extension registry ([registry.py]), the event bus and the marketplace
    ([marketplace.py]).

    A manifest is a record: a YAML value of another type than the field expects
    is not modelled.  The MAC over a manifest is a parameter.  The plugins
    directory is a dictionary from the names of its subdirectories. *)

Open Scope string_scope.
Open Scope Z_scope.

(** ** Versions *)

Module PluginVersions.

(** [\d+] at the start: the digits and the rest *)
Fixpoint span_digits (s : string) : string * string :=
  match s with
  | EmptyString => (EmptyString, EmptyString)
  | String a s' => if is_digit a then let '(d, r) := span_digits s' in (String a d, r) else (EmptyString, s)
  end.

Definition word_byte (a : ascii) : bool :=
  is_digit a || ((65 <=? nat_of_ascii a)%nat && (nat_of_ascii a <=? 90)%nat) ||
  ((97 <=? nat_of_ascii a)%nat && (nat_of_ascii a <=? 122)%nat).
Definition suffix_byte (a : ascii) : bool :=
  word_byte a || bool_decide (a = "."%char) || bool_decide (a = "-"%char).

(** [^\d+\.\d+\.\d+([-+][0-9A-Za-z.-]+)?$]; the final newline that [$] lets pass is not modelled. *)
Definition is_valid_version (v : string) : bool :=
  let '(a, r) := span_digits v in
  match r with
  | String c r =>
      let '(b, r) := span_digits r in
      match r with
      | String d r =>
          let '(e, r) := span_digits r in
          truthy a && bool_decide (c = "."%char) && truthy b && bool_decide (d = "."%char) && truthy e &&
          match r with
          | EmptyString => true
          | String s rest =>
              (bool_decide (s = "-"%char) || bool_decide (s = "+"%char)) && truthy rest && all_chars suffix_byte rest
          end
      | EmptyString => false
      end
  | EmptyString => false
  end.

(** [None] is a ValueError. *)
Definition parse_version (v : string) : option (Z * Z * Z * string) :=
  if negb (is_valid_version v) then None
  else
    let '(core, rest) := partition "-" v in
    let suffix := match rest with Some r => r | None => default "" (partition "+" v).2 end in
    match split_on "." core with
    | [a; b; c] => x ← py_int a; y ← py_int b; z ← py_int c; Some (x, y, z, suffix)
    | _ => None
    end.

Definition core_lt (a b : Z * Z * Z) : bool :=
  let '(a1, a2, a3) := a in let '(b1, b2, b3) := b in
  (a1 <? b1) || (a1 =? b1) && ((a2 <? b2) || (a2 =? b2) && (a3 <? b3)).

Definition compare_versions (a b : string) : option Z :=
  '(ca, sa) ← parse_version a; '(cb, sb) ← parse_version b;
  Some (if core_lt ca cb then -1
        else if core_lt cb ca then 1
        else if bool_decide (sa = sb) then 0
        else if truthy sa then -1 else 1).

(** Tuples of [parse_version] in Python's order *)
Definition tuple_lt (a b : Z * Z * Z * string) : bool :=
  core_lt a.1 b.1 || negb (core_lt b.1 a.1) && str_lt a.2 b.2.

Definition drop_char (s : string) : string := match s with String _ s' => s' | EmptyString => EmptyString end.

Definition version_meets (version requirement : string) : option bool :=
  let r := strip requirement in
  if negb (truthy r) then Some true
  else if startswith "^" r then
    '(b1, b2, b3, _) ← parse_version (drop_char r); '(t1, t2, t3, _) ← parse_version version;
    Some (if core_lt (t1, t2, t3) (b1, b2, b3) then false else t1 =? b1)
  else if startswith ">=" r then
    v ← parse_version version; q ← parse_version (drop_char (drop_char r)); Some (negb (tuple_lt v q))
  else if startswith "<=" r then
    v ← parse_version version; q ← parse_version (drop_char (drop_char r)); Some (negb (tuple_lt q v))
  else if startswith ">" r then
    v ← parse_version version; q ← parse_version (drop_char r); Some (tuple_lt q v)
  else if startswith "<" r then
    v ← parse_version version; q ← parse_version (drop_char r); Some (tuple_lt v q)
  else if startswith "~" r then
    '(b1, b2, b3, _) ← parse_version (drop_char r); '(t1, t2, t3, _) ← parse_version version;
    Some (if core_lt (t1, t2, t3) (b1, b2, b3) then false else (t1 =? b1) && (t2 =? b2))
  else v ← parse_version version; q ← parse_version r; Some (bool_decide (v = q)).

(** A version with build metadata is valid but cannot be parsed, two
    pre-releases are each below the other, and a release does not meet a
    requirement of its own pre-release. *)
Example build_metadata_unparsable :
  is_valid_version "1.2.3+build" = true ∧ parse_version "1.2.3+build" = None.
Proof. split; reflexivity. Qed.
Example prereleases_incomparable :
  compare_versions "1.0.0-a" "1.0.0-b" = Some (-1) ∧ compare_versions "1.0.0-b" "1.0.0-a" = Some (-1).
Proof. split; reflexivity. Qed.
Example release_below_prerelease : version_meets "2.0.0" ">=2.0.0-rc" = Some false.
Proof. reflexivity. Qed.
Example caret : version_meets "2.4.0" "^2.1.3" = Some true ∧ version_meets "3.0.0" "^2.1.3" = Some false.
Proof. split; reflexivity. Qed.

Lemma core_lt_spec a b :
  core_lt a b = true ↔
    a.1.1 < b.1.1 ∨ (a.1.1 = b.1.1 ∧ (a.1.2 < b.1.2 ∨ (a.1.2 = b.1.2 ∧ a.2 < b.2))).
Proof.
  destruct a as [[a1 a2] a3], b as [[b1 b2] b3]. simpl.
  rewrite !orb_true_iff, !andb_true_iff, !orb_true_iff, !andb_true_iff, !Z.ltb_lt, !Z.eqb_eq. tauto.
Qed.

(** Between versions of which at most one is a pre-release or which have the
    same suffix, the comparison is antisymmetric and it is zero only for equal
    versions. *)
Lemma compare_antisym a b pa pb :
  parse_version a = Some pa → parse_version b = Some pb → (pa.2 = "" ∨ pb.2 = "" ∨ pa.2 = pb.2) →
  ∃ c, compare_versions a b = Some c ∧ compare_versions b a = Some (- c) ∧ (c = 0 ↔ pa = pb).
Proof.
  intros Ha Hb Hs. unfold compare_versions. rewrite Ha, Hb. destruct pa as [ca sa], pb as [cb sb]. simpl in *.
  destruct (core_lt ca cb) eqn:E1.
  - exists (-1). destruct (core_lt cb ca) eqn:E2.
    { apply core_lt_spec in E1, E2. lia. }
    split_and!; [done..|]. split; [lia|]. intros [= -> ->]. apply core_lt_spec in E1. lia.
  - destruct (core_lt cb ca) eqn:E2.
    + exists 1. split_and!; [done..|]. split; [lia|]. intros [= -> ->]. apply core_lt_spec in E2. lia.
    + assert (ca = cb) as ->.
      { apply not_true_iff_false in E1, E2. rewrite core_lt_spec in E1, E2.
        destruct ca as [[a1 a2] a3], cb as [[b1 b2] b3]. simpl in *. repeat f_equal; lia. }
      destruct (decide (sa = sb)) as [->|Hne].
      * rewrite bool_decide_true by done. by exists 0.
      * rewrite !bool_decide_false by done. destruct Hs as [->|[->|?]]; [| |done].
        -- exists 1. destruct sb; [done|]. split_and!; [done..|]. split; [lia|congruence].
        -- exists (-1). destruct sa; [done|]. split_and!; [done..|]. split; [lia|congruence].
Qed.
End PluginVersions.

(** ** Manifests *)

Module PluginManifests.
Import PluginVersions.

Inductive PluginErr :=
| PluginInvalidError (n : nat)                (** so many problems *)
| PluginCompatibilityError
| PluginSignatureError
| PluginInstallError (msg : string)
| PluginAlreadyInstalledError (name : string)
| PluginNotFoundError (name : string)
| PluginUpgradeError
| PluginRollbackError
| PluginUninstallError
| PluginMarketplaceError (msg : string)
| PluginRatingError
| LifecycleErr
| ExtensionAlreadyRegistered
| KeyErr                                      (** a missing key of a manifest *)
| VersionValueError
| HookError (e : string).                     (** raised by the code of the plugin *)

Record PermissionDecl := mk_perm { pd_resource : option string; pd_actions : list string }.

Record Manifest := mk_manifest {
  mf_name : option string;
  mf_version : option string;
  mf_entry : option string;
  mf_description : string;
  mf_author : string;
  mf_tags : list string;
  mf_requires_router : string;
  mf_permissions : list PermissionDecl;
  mf_signature : option string;
  mf_plugin_code : option string
}.

#[export] Instance permdecl_eq_dec : EqDecision PermissionDecl.
Proof. solve_decision. Defined.
#[export] Instance manifest_eq_dec : EqDecision Manifest.
Proof. solve_decision. Defined.

(** *** [ManifestValidator] *)

Inductive ManifestProblem :=
| Missing (field : string) | InvalidName | InvalidVersion | InvalidEntry
| UnknownResource (i : nat) | InvalidActions (i : nat).

Definition name_head (a : ascii) : bool :=
  is_digit a || ((97 <=? nat_of_ascii a)%nat && (nat_of_ascii a <=? 122)%nat).
Definition name_byte (a : ascii) : bool :=
  name_head a || bool_decide (a = "_"%char) || bool_decide (a = "."%char) || bool_decide (a = "-"%char).

(** [^[a-z0-9][a-z0-9_.-]{0,63}$] *)
Definition valid_name (s : string) : bool :=
  match s with
  | EmptyString => false
  | String a s' => name_head a && all_chars name_byte s' && (String.length s' <=? 63)%nat
  end.

(** [^[A-Za-z_][A-Za-z0-9_]*$] *)
Definition valid_entry (s : string) : bool :=
  match s with
  | EmptyString => false
  | String a s' => (word_byte a && negb (is_digit a) || bool_decide (a = "_"%char)) &&
                   all_chars (λ c, word_byte c || bool_decide (c = "_"%char)) s'
  end.

Definition PERMISSION_RESOURCES : list string := ["filesystem"; "network"; "process"; "event_bus"; "provider"; "secrets"].
Definition PERMISSION_ACTIONS : list string := ["read"; "write"; "execute"; "listen"; "emit"; "call"; "access"].

Definition str_in (x : string) (l : list string) : bool := bool_decide (x ∈ l).

Definition required_field (field : string) (v : option string) : list ManifestProblem :=
  match v with None => [Missing field] | Some _ => [] end.

Definition permission_problems (i : nat) (p : PermissionDecl) : list ManifestProblem :=
  ((if match pd_resource p with Some r => str_in r PERMISSION_RESOURCES | None => false end then [] else [UnknownResource i]) ++
   (if match pd_actions p with [] => true | l => negb (forallb (λ a, str_in a PERMISSION_ACTIONS) l) end
    then [InvalidActions i] else []))%list.

Definition validate_manifest (m : Manifest) : list ManifestProblem :=
  (required_field "name" (mf_name m) ++ required_field "version" (mf_version m) ++ required_field "entry" (mf_entry m) ++
   (if valid_name (default "" (mf_name m)) then [] else [InvalidName]) ++
   (if is_valid_version (default "" (mf_version m)) then [] else [InvalidVersion]) ++
   (if valid_entry (default "" (mf_entry m)) then [] else [InvalidEntry]) ++
   concat (imap permission_problems (mf_permissions m)))%list.

(** *** [CompatibilityChecker] *)

Record Checker := mk_checker { ck_router_version : string; ck_max_extensions : Z }.

(** The number of issues; [None] is a ValueError of a version. *)
Definition check_compat (ck : Checker) (m : Manifest) (extension_count : Z) : option nat :=
  met ← (if truthy (mf_requires_router m) then version_meets (ck_router_version ck) (mf_requires_router m) else Some true);
  Some ((if met : bool then 0 else 1) + (if str_in "deprecated" (mf_tags m) then 1 else 0) +
        (if (negb (extension_count =? 0) && (ck_max_extensions ck <? extension_count))%Z then 1 else 0))%nat.

Definition validate_spec (ck : Checker) (m : Manifest) (extension_count : Z) : result PluginErr unit :=
  match validate_manifest m with
  | [] =>
      match check_compat ck m extension_count with
      | None => Err VersionValueError
      | Some O => Ok ()
      | Some (S _) => Err PluginCompatibilityError
      end
  | l => Err (PluginInvalidError (length l))
  end.

(** *** Signatures *)

(** The MAC of a manifest under a secret, over its canonical JSON *)
Class ManifestMac := { manifest_mac : string → Manifest → string }.

Definition unsigned (m : Manifest) : Manifest :=
  mk_manifest (mf_name m) (mf_version m) (mf_entry m) (mf_description m) (mf_author m) (mf_tags m)
    (mf_requires_router m) (mf_permissions m) None (mf_plugin_code m).

Definition verify_payload `{!ManifestMac} (m : Manifest) (signature secret : string) : bool :=
  truthy secret && truthy signature && bool_decide (manifest_mac secret (unsigned m) = signature).

(** [_verify] of the manager *)
Definition verify_manifest `{!ManifestMac} (require_signatures : bool) (secret : string) (m : Manifest)
    : result PluginErr unit :=
  let signature := default "" (mf_signature m) in
  if require_signatures && negb (truthy signature) then Err PluginSignatureError
  else if truthy signature && negb (verify_payload m signature secret) then Err PluginSignatureError
  else Ok ().

(** The manifest without its code, as it is written to [manifest.yaml] *)
Definition without_code (m : Manifest) : Manifest :=
  mk_manifest (mf_name m) (mf_version m) (mf_entry m) (mf_description m) (mf_author m) (mf_tags m)
    (mf_requires_router m) (mf_permissions m) (mf_signature m) None.

Lemma verify_signed `{!ManifestMac} secret m :
  verify_manifest true secret m = Ok () → ∃ sig, mf_signature m = Some sig ∧ verify_payload m sig secret = true.
Proof.
  unfold verify_manifest. destruct (mf_signature m) as [sig|]; simpl; [|done].
  destruct (truthy sig) eqn:E; simpl; [|done]. destruct (verify_payload m sig secret) eqn:V; simpl; [|done].
  intros _. by exists sig.
Qed.
End PluginManifests.

(** ** Permissions *)

Module PluginPermissions.
Import PluginManifests.

(** Sets of actions are lists without duplicates. *)
Definition Grants : Type := dict string (dict string (list string)).

Definition add_action (l : list string) (a : string) : list string := if str_in a l then l else (l ++ [a])%list.

Definition default_actions (l : list string) : list string := match l with [] => ["*"] | _ => l end.

Definition grant (plugin resource : string) (actions : list string) (g : Grants) : Grants :=
  let b := default [] (dict_get plugin g) in
  dict_set plugin
    (dict_set resource (foldl add_action (default [] (dict_get resource b)) (default_actions actions)) b) g.

Definition grant_from_manifest (plugin : string) (ps : list PermissionDecl) (g : Grants) : Grants :=
  foldl (λ g p, match pd_resource p with
                | Some r => if truthy r then grant plugin r (default_actions (pd_actions p)) g else g
                | None => g
                end) g ps.

Definition revoke_permission (plugin : string) (resource action : option string) (g : Grants) : bool * Grants :=
  match dict_get plugin g, resource with
  | None, _ => (false, g)
  | Some _, None => (true, dict_pop plugin g)
  | Some b, Some r =>
      match dict_get r b, action with
      | None, _ => (false, g)
      | Some _, None => (true, dict_set plugin (dict_pop r b) g)
      | Some l, Some a =>
          match List.filter (λ x, negb (bool_decide (x = a))) l with
          | [] => (true, dict_set plugin (dict_pop r b) g)
          | l' => (true, dict_set plugin (dict_set r l' b) g)
          end
      end
  end.

Definition check_permission (plugin resource action : string) (g : Grants) : bool :=
  let l := default [] (dict_get resource (default [] (dict_get plugin g))) in str_in "*" l || str_in action l.

(** What a list of declarations allows *)
Definition declared (ps : list PermissionDecl) (resource action : string) : Prop :=
  ∃ p, p ∈ ps ∧ pd_resource p = Some resource ∧ truthy resource = true ∧
    (action ∈ default_actions (pd_actions p) ∨ "*" ∈ default_actions (pd_actions p)).

Lemma elem_of_add_actions x l k : x ∈ foldl add_action l k ↔ x ∈ l ∨ x ∈ k.
Proof.
  revert l. induction k as [|a k IH]; intros l; simpl; [set_solver|]. rewrite IH. unfold add_action, str_in.
  case_bool_decide; set_solver.
Qed.

Lemma check_grant plugin r as_ plugin' r' a g :
  check_permission plugin' r' a (grant plugin r as_ g) = true ↔
    check_permission plugin' r' a g = true ∨
    (plugin' = plugin ∧ r' = r ∧ (a ∈ default_actions as_ ∨ "*" ∈ default_actions as_)).
Proof.
  unfold check_permission, grant, str_in. rewrite dict_get_set.
  destruct (decide (plugin = plugin')) as [->|Hp]; simpl.
  - rewrite dict_get_set. destruct (decide (r = r')) as [->|Hr]; simpl.
    + rewrite !orb_true_iff, !bool_decide_eq_true, !elem_of_add_actions. tauto.
    + split; [auto|]. intros [?|(_ & -> & _)]; done.
  - split; [auto|]. intros [?|(-> & _)]; done.
Qed.

(** Granting a manifest adds exactly what it declares. *)
Lemma check_grant_from_manifest plugin ps plugin' r a g :
  check_permission plugin' r a (grant_from_manifest plugin ps g) = true ↔
    check_permission plugin' r a g = true ∨ (plugin' = plugin ∧ declared ps r a).
Proof.
  unfold grant_from_manifest. revert g. induction ps as [|p ps IH]; intros g; simpl.
  { split; [auto|]. intros [?|(_ & ? & ?%elem_of_nil & _)]; done. }
  rewrite IH. unfold declared at 2. setoid_rewrite elem_of_cons. unfold declared.
  assert (default_actions (default_actions (pd_actions p)) = default_actions (pd_actions p)) as Hd by by destruct (pd_actions p).
  destruct (pd_resource p) as [rp|] eqn:Er; [destruct (truthy rp) eqn:Et|].
  - rewrite check_grant, Hd. split.
    + intros [[?|(-> & -> & Ha)]|(-> & q & ? & ?)]; [by left| |]; right; (split; [done|]).
      * exists p. auto.
      * exists q. tauto.
    + intros [?|(-> & q & [->|?] & Hr & Ht & Ha)]; [by left; left| |].
      * left. right. simplify_eq. auto.
      * right. split; [done|]. by exists q.
  - split; [intros [?|(-> & q & ? & ?)]; [by left|right; split; [done|]; exists q; tauto]|].
    intros [?|(-> & q & [->|?] & Hr & Ht & Ha)]; [by left|congruence|]. right. split; [done|]. by exists q.
  - split; [intros [?|(-> & q & ? & ?)]; [by left|right; split; [done|]; exists q; tauto]|].
    intros [?|(-> & q & [->|?] & Hr & Ht & Ha)]; [by left|congruence|]. right. split; [done|]. by exists q.
Qed.

Lemma check_revoke plugin r a g : dict_wf g → check_permission plugin r a (revoke_permission plugin None None g).2 = false.
Proof.
  intros Hg. unfold revoke_permission, check_permission. destruct (dict_get plugin g) eqn:E; simpl.
  - by rewrite dict_get_pop_eq.
  - by rewrite E.
Qed.
End PluginPermissions.

(** ** Extensions and the event bus *)

Module PluginRegistry.
Import PluginManifests.

Inductive ExtensionKind := X_TOOL | X_ROUTE | X_MCP_PROVIDER | X_LLM_PROVIDER | X_EMBEDDING_MODEL | X_SCHEDULER | X_CLI_COMMAND | X_EVENT_LISTENER.

#[export] Instance xkind_eq_dec : EqDecision ExtensionKind.
Proof. solve_decision. Defined.

Record Extension := mk_ext { ex_kind : ExtensionKind; ex_name : string; ex_plugin : string }.

Definition Extensions : Type := dict ExtensionKind (dict string Extension).

Definition register_extension (e : Extension) (x : Extensions) : result PluginErr Extensions :=
  let bucket := default [] (dict_get (ex_kind e) x) in
  match dict_get (ex_name e) bucket with
  | Some _ => Err ExtensionAlreadyRegistered
  | None => Ok (dict_set (ex_kind e) (dict_set (ex_name e) e bucket) x)
  end.

Definition unregister_extension (k : ExtensionKind) (name : string) (x : Extensions) : bool * Extensions :=
  let bucket := default [] (dict_get k x) in
  match dict_get name bucket with
  | None => (false, x)
  | Some _ =>
      match dict_pop name bucket with
      | [] => (true, dict_pop k x)
      | b => (true, dict_set k b x)
      end
  end.

Definition foreign (plugin : string) (p : string * Extension) : bool := negb (bool_decide (ex_plugin p.2 = plugin)).

Definition unregister_plugin (plugin : string) (x : Extensions) : Extensions :=
  omap (λ kb, match List.filter (foreign plugin) kb.2 with [] => None | b => Some (kb.1, b) end) x.

Definition all_extensions (x : Extensions) : list Extension := concat (map (λ kb, dict_values kb.2) x).
Definition list_by_plugin (plugin : string) (x : Extensions) : list Extension :=
  List.filter (λ e, bool_decide (ex_plugin e = plugin)) (all_extensions x).
Definition extension_count (x : Extensions) : Z := fold_right Z.add 0 (map (λ kb, zlen kb.2) x).

(** Subscriptions of the event bus *)
Definition PluginBus : Type := list (string * string).

Definition bus_subscribe (l : string * string) (b : PluginBus) : PluginBus := if decide (l ∈ b) then b else (b ++ [l])%list.
Fixpoint bus_unsubscribe (l : string * string) (b : PluginBus) : PluginBus :=
  match b with [] => [] | x :: b' => if decide (x = l) then b' else x :: bus_unsubscribe l b' end.

(** The extensions of the other plugins, in order: unregistering a plugin removes
    exactly its own. *)
Lemma all_unregister plugin x :
  all_extensions (unregister_plugin plugin x) =
    List.filter (λ e, negb (bool_decide (ex_plugin e = plugin))) (all_extensions x).
Proof.
  unfold all_extensions, unregister_plugin. induction x as [|[k b] x IH]; simpl; [done|].
  rewrite List.filter_app, <- IH. clear IH.
  assert (List.filter (λ e, negb (bool_decide (ex_plugin e = plugin))) (dict_values b) =
          dict_values (List.filter (foreign plugin) b)) as ->.
  { unfold dict_values, foreign. induction b as [|[n e] b IHb]; [done|].
    rewrite fmap_cons. cbn [List.filter snd]. rewrite IHb. by case_bool_decide. }
  by destruct (List.filter (foreign plugin) b) eqn:E.
Qed.

Lemma list_by_unregistered plugin x : list_by_plugin plugin (unregister_plugin plugin x) = [].
Proof.
  unfold list_by_plugin. rewrite all_unregister. induction (all_extensions x) as [|e l IH]; simpl; [done|].
  case_bool_decide; simpl; [done|]. by rewrite bool_decide_false.
Qed.

Lemma list_by_other plugin plugin' x :
  plugin' ≠ plugin → list_by_plugin plugin' (unregister_plugin plugin x) = list_by_plugin plugin' x.
Proof.
  intros Hne. unfold list_by_plugin. rewrite all_unregister. induction (all_extensions x) as [|e l IH]; simpl; [done|].
  case_bool_decide as H1; simpl; case_bool_decide as H2; rewrite ?IH; congruence.
Qed.

Lemma elem_of_unsubscribe l k b : NoDup b → k ∈ bus_unsubscribe l b ↔ k ∈ b ∧ k ≠ l.
Proof.
  induction 1 as [|x b Hx Hb IH]; simpl; [set_solver|]. case_decide as Heq.
  - subst. set_solver.
  - rewrite !elem_of_cons, IH. set_solver.
Qed.

Lemma unsubscribe_nodup l b : NoDup b → NoDup (bus_unsubscribe l b).
Proof.
  induction 1 as [|x b Hx Hb IH]; simpl; [constructor|]. case_decide; [done|]. constructor; [|done].
  rewrite elem_of_unsubscribe by done. tauto.
Qed.

Lemma subscribe_nodup l b : NoDup b → NoDup (bus_subscribe l b).
Proof.
  intros H. unfold bus_subscribe. case_decide; [done|]. apply NoDup_app. split; [done|].
  split; [set_solver|]. apply NoDup_singleton.
Qed.

Definition unsubscribe_all (ls : list (string * string)) (b : PluginBus) : PluginBus := foldl (λ b l, bus_unsubscribe l b) b ls.

Lemma elem_of_unsubscribe_all ls k b : NoDup b → k ∈ unsubscribe_all ls b ↔ k ∈ b ∧ k ∉ ls.
Proof.
  unfold unsubscribe_all. revert b. induction ls as [|l ls IH]; intros b Hb; simpl; [set_solver|].
  rewrite IH by by apply unsubscribe_nodup. rewrite elem_of_unsubscribe by done. set_solver.
Qed.

Lemma unsubscribe_all_nodup ls b : NoDup b → NoDup (unsubscribe_all ls b).
Proof.
  unfold unsubscribe_all. revert b. induction ls as [|l ls IH]; intros b Hb; simpl; [done|].
  apply IH. by apply unsubscribe_nodup.
Qed.
End PluginRegistry.

(** ** The marketplace *)

Module PluginMarketplace.
Import PluginVersions PluginManifests.

Record Rating := mk_rating { rt_user : string; rt_score : Z; rt_comment : string; rt_created_at : float }.

(** An entry; [me_manifest] overrides fields of the manifest built from it. *)
Record MarketplaceEntry := mk_entry {
  me_id : string;
  me_name : string;
  me_version : string;
  me_description : string;
  me_author : string;
  me_tags : list string;
  me_requires_router : string;
  me_entry : string;
  me_plugin_code : string;
  me_permissions : list PermissionDecl;
  me_manifest_signature : option string;
  me_signature : string;
  me_downloads : Z;
  me_ratings : list Rating
}.

Definition Entries : Type := dict string MarketplaceEntry.

Definition add_entry (e : MarketplaceEntry) (m : Entries) : Entries := dict_set (me_id e) e m.
Definition remove_entry (id : string) (m : Entries) : bool * Entries :=
  match dict_get id m with None => (false, m) | Some _ => (true, dict_pop id m) end.
Definition get_entry (id : string) (m : Entries) : result PluginErr MarketplaceEntry :=
  match dict_get id m with Some e => Ok e | None => Err (PluginMarketplaceError "entry not found") end.

Definition entry_matches (query tag : string) (e : MarketplaceEntry) : bool :=
  (negb (truthy tag) || str_in tag (me_tags e)) &&
  (negb (truthy query) ||
   contains query (lower (join " " [me_name e; me_description e; me_author e; join " " (me_tags e)]))).

(** [limit >= 0] *)
Definition search_entries (query tag : string) (limit : nat) (m : Entries) : list MarketplaceEntry :=
  take limit (List.filter (entry_matches (lower (strip query)) tag) (dict_values m)).

(** A stable sort of the versions, the highest first; a version that cannot be
    parsed raises. *)
Definition with_version (e : MarketplaceEntry) : option (Z * Z * Z * string * MarketplaceEntry) :=
  v ← parse_version (me_version e); Some (v, e).

Definition latest (name : string) (m : Entries) : result PluginErr (option MarketplaceEntry) :=
  let matches := List.filter (λ e, bool_decide (me_name e = name)) (dict_values m) in
  match mapM with_version matches with
  | None => Err VersionValueError
  | Some l => Ok (snd <$> head (py_sorted (λ x y, tuple_lt y.1 x.1) l))
  end.

Definition update_available (name installed : string) (m : Entries) : result PluginErr (option string) :=
  match latest name m with
  | Err e => Err e
  | Ok None => Ok None
  | Ok (Some e) =>
      match compare_versions (me_version e) installed with
      | None => Err VersionValueError
      | Some c => Ok (if 0 <? c then Some (me_version e) else None)
      end
  end.

Definition manifest_for (e : MarketplaceEntry) : Manifest :=
  mk_manifest (Some (me_name e)) (Some (me_version e)) (Some (me_entry e)) "" "" (me_tags e) (me_requires_router e)
    (me_permissions e) (me_manifest_signature e) None.

Definition with_ratings (rs : list Rating) (e : MarketplaceEntry) : MarketplaceEntry :=
  mk_entry (me_id e) (me_name e) (me_version e) (me_description e) (me_author e) (me_tags e) (me_requires_router e)
    (me_entry e) (me_plugin_code e) (me_permissions e) (me_manifest_signature e) (me_signature e) (me_downloads e) rs.
Definition count_download (e : MarketplaceEntry) : MarketplaceEntry :=
  mk_entry (me_id e) (me_name e) (me_version e) (me_description e) (me_author e) (me_tags e) (me_requires_router e)
    (me_entry e) (me_plugin_code e) (me_permissions e) (me_manifest_signature e) (me_signature e) (me_downloads e + 1)
    (me_ratings e).

Definition rate (id user comment : string) (score : Z) (now : float) (m : Entries) : result PluginErr (Rating * Entries) :=
  if (score <? 1) || (5 <? score) then Err PluginRatingError
  else
    match get_entry id m with
    | Err e => Err e
    | Ok e =>
        let r := mk_rating user score comment now in
        Ok (r, dict_set id (with_ratings (List.filter (λ x, negb (bool_decide (rt_user x = user))) (me_ratings e) ++ [r])%list e) m)
    end.

Definition average_rating (e : MarketplaceEntry) : float :=
  match me_ratings e with
  | [] => fzero
  | l => match int_truediv (fold_right Z.add 0 (map rt_score l)) (zlen l) with Ok q => py_round q 2 | Err _ => fzero end
  end.

(** The checks of [install_entry] *)
Definition entry_installable `{!ManifestMac} (ck : Checker) (require_signatures : bool) (secret : string)
    (exists_dir : bool) (e : MarketplaceEntry) : result PluginErr unit :=
  if exists_dir then Err (PluginMarketplaceError "already exists")
  else
    let m := manifest_for e in
    match validate_manifest m with
    | _ :: _ => Err (PluginMarketplaceError "invalid marketplace entry")
    | [] =>
        match check_compat ck m 0 with
        | None => Err VersionValueError
        | Some (S _) => Err PluginCompatibilityError
        | Some O =>
            if truthy (me_signature e) then
              (if verify_payload m (me_signature e) secret then Ok () else Err PluginSignatureError)
            else if require_signatures then Err PluginSignatureError else Ok ()
        end
    end.

(** A pre-release counts as the latest version. *)
Example prerelease_latest :
  let e v := mk_entry v "p" v "" "" [] "" "create_plugin" "" [] None "" 0 [] in
  match latest "p" [("1", e "1.0.0"); ("2", e "1.0.0-beta")] with
  | Ok (Some x) => me_version x = "1.0.0-beta"
  | _ => False
  end.
Proof. reflexivity. Qed.

(** One rating per user, all within bounds *)
Definition ratings_ok (e : MarketplaceEntry) : Prop :=
  NoDup (rt_user <$> me_ratings e) ∧ Forall (λ r, 1 <= rt_score r <= 5) (me_ratings e).

Lemma rate_ok id user comment score now m r m' e :
  rate id user comment score now m = Ok (r, m') → (∀ k x, dict_get k m = Some x → ratings_ok x) →
  dict_get id m' = Some e → ratings_ok e.
Proof.
  unfold rate. destruct ((score <? 1) || (5 <? score)) eqn:Eb; [done|]. unfold get_entry.
  destruct (dict_get id m) as [e0|] eqn:E; [|done]. intros [= <- <-] Hok. rewrite dict_get_set_eq. intros [= <-].
  destruct (Hok id e0 E) as [Hn Hf]. bool_to_prop. unfold ratings_ok, with_ratings. cbn [me_ratings]. split.
  - rewrite fmap_app. apply NoDup_app. split_and!; [|intros x Hx; simpl|apply NoDup_singleton].
    + clear Hf. induction (me_ratings e0) as [|x l IH]; simpl; [constructor|]. apply NoDup_cons in Hn as [Hx Hn].
      destruct (negb _); simpl; [|by apply IH]. constructor; [|by apply IH].
      intros (y & Heq & Hy)%list_elem_of_fmap. apply list_elem_of_In, filter_In in Hy as [Hy _].
      apply Hx. apply (list_elem_of_fmap rt_user). exists y. split; [done|]. by apply list_elem_of_In.
    + apply list_elem_of_fmap in Hx as (y & -> & Hy). apply list_elem_of_In, filter_In in Hy as [_ Hy].
      bool_to_prop. set_solver.
  - apply Forall_app. split; [|repeat constructor; simpl; lia]. rewrite Forall_forall in Hf |- *. intros y Hy.
    apply list_elem_of_In, filter_In in Hy as [Hy _]. apply Hf. by apply list_elem_of_In.
Qed.
End PluginMarketplace.
