(* ===== verification/PluginManager.v ===== *)
(** * The plugin manager

    [PluginManager] of [src/app/plugins/manager.py]: install, enable, disable,
    reload, upgrade with rollback and uninstall over the lifecycle, the registry,
    permissions, event bus and marketplace, with the directory the plugins live
    in.

    What the code of a plugin does when it is loaded and in its hooks is an
    argument of each operation ([Behaviour]): it registers extensions and event
    listeners through its SDK and then returns or raises; a time-out of the
    sandbox is one way to raise.  A copy of a directory tree may fail half-way
    ([bh_copy]); single files are written and removed without errors.  YAML files
    hold the manifest that was written.
    The table of imported modules, log events, counters and emitted events are
    not modelled. *)

From Stdlib Require Import ZArith Lia.
From stdpp Require Import base numbers strings gmap list.
From S2P Require Import Prelude PyFloat PyNum PyStr PyDict PyMath PluginParts.

Module PluginManager.
Import PluginVersions PluginManifests PluginPermissions PluginRegistry PluginMarketplace.
Open Scope string_scope.
Open Scope Z_scope.

(** ** State *)

(** A directory of a plugin: [manifest.yaml] and [plugin.py] *)
Record PluginDir := mk_dir { df_manifest : option Manifest; df_code : option string }.

Record PluginSpec := mk_spec {
  ps_name : string;
  ps_version : string;
  ps_entry : string;
  ps_description : string;
  ps_author : string;
  ps_tags : list string;
  ps_requires_router : string;
  ps_permissions : list PermissionDecl;
  ps_signature : string
}.

Record PluginConfig := mk_pconfig {
  gf_signature_secret : string;
  gf_require_signatures : bool;
  gf_auto_enable : bool;
  gf_max_plugins : Z
}.

(** [pm_plugins] are the names of the loaded plugins; [pm_sdks] holds the
    listeners each SDK remembers. *)
Record PM := mk_pm {
  pm_fs : dict string PluginDir;
  pm_plugins : list string;
  pm_specs : dict string PluginSpec;
  pm_sdks : dict string (list (string * string));
  pm_dirs : dict string string;
  pm_life : dict string PluginStatus;
  pm_ext : Extensions;
  pm_bus : PluginBus;
  pm_grants : Grants;
  pm_entries : Entries
}.

Definition set_fs x s := mk_pm x (pm_plugins s) (pm_specs s) (pm_sdks s) (pm_dirs s) (pm_life s) (pm_ext s) (pm_bus s) (pm_grants s) (pm_entries s).
Definition set_plugins x s := mk_pm (pm_fs s) x (pm_specs s) (pm_sdks s) (pm_dirs s) (pm_life s) (pm_ext s) (pm_bus s) (pm_grants s) (pm_entries s).
Definition set_specs x s := mk_pm (pm_fs s) (pm_plugins s) x (pm_sdks s) (pm_dirs s) (pm_life s) (pm_ext s) (pm_bus s) (pm_grants s) (pm_entries s).
Definition set_sdks x s := mk_pm (pm_fs s) (pm_plugins s) (pm_specs s) x (pm_dirs s) (pm_life s) (pm_ext s) (pm_bus s) (pm_grants s) (pm_entries s).
Definition set_dirs x s := mk_pm (pm_fs s) (pm_plugins s) (pm_specs s) (pm_sdks s) x (pm_life s) (pm_ext s) (pm_bus s) (pm_grants s) (pm_entries s).
Definition set_life x s := mk_pm (pm_fs s) (pm_plugins s) (pm_specs s) (pm_sdks s) (pm_dirs s) x (pm_ext s) (pm_bus s) (pm_grants s) (pm_entries s).
Definition set_ext x b s := mk_pm (pm_fs s) (pm_plugins s) (pm_specs s) (pm_sdks s) (pm_dirs s) (pm_life s) x b (pm_grants s) (pm_entries s).
Definition set_grants x s := mk_pm (pm_fs s) (pm_plugins s) (pm_specs s) (pm_sdks s) (pm_dirs s) (pm_life s) (pm_ext s) (pm_bus s) x (pm_entries s).
Definition set_market x s := mk_pm (pm_fs s) (pm_plugins s) (pm_specs s) (pm_sdks s) (pm_dirs s) (pm_life s) (pm_ext s) (pm_bus s) (pm_grants s) x.

Definition empty_pm : PM := mk_pm [] [] [] [] [] [] [] [] [] [].

(** ** The code of a plugin *)

(** A registration through the SDK; a listener is also an extension with a name of its own. *)
Inductive Registration :=
| RegExtension (k : ExtensionKind) (name : string)
| RegListener (event handler extension_name : string).

(** Registrations in order, and then an exception or none *)
Record CodeOutcome := mk_outcome { oc_regs : list Registration; oc_error : option string }.

Record Behaviour := mk_behaviour {
  bh_load : CodeOutcome;                  (** importing the new code and its factory *)
  bh_restore : CodeOutcome;               (** the same for the code a rollback restores *)
  bh_hook : string → CodeOutcome;
  bh_shutdown : option string;
  bh_copy : string → option (option PluginDir)
    (** [shutil.copytree] to a directory: [None] if it succeeds, and if it
        raises ([OSError]) what it leaves there *)
}.

Notation M := (SE PluginErr PM).

Definition se_try {A} (m : M A) (h : PluginErr → M A) : M A := λ s,
  match m s with (Err e, s') => h e s' | r => r end.
Definition se_finally {A} (m : M A) (f : PM → PM) : M A := λ s, let '(r, s') := m s in (r, f s').

(** The SDK of [name] performs one registration; the listeners it remembers *)
Definition perform (name : string) (r : Registration) (ls : list (string * string)) : M (list (string * string)) := λ s,
  match r with
  | RegExtension k n =>
      match register_extension (mk_ext k n name) (pm_ext s) with
      | Ok x => (Ok ls, set_ext x (pm_bus s) s)
      | Err e => (Err e, s)
      end
  | RegListener ev h n =>
      match register_extension (mk_ext X_EVENT_LISTENER n name) (pm_ext s) with
      | Ok x => (Ok (ls ++ [(ev, h)])%list, set_ext x (bus_subscribe (ev, h) (pm_bus s)) s)
      | Err e => (Err e, s)
      end
  end.

(** The listeners at the end, with whether a registration raised *)
Fixpoint perform_all (name : string) (rs : list Registration) (ls : list (string * string))
    : PM → bool * list (string * string) * PM := λ s,
  match rs with
  | [] => (true, ls, s)
  | r :: rs' =>
      match perform name r ls s with
      | (Ok ls', s') => perform_all name rs' ls' s'
      | (Err _, s') => (false, ls, s')
      end
  end.

(** ** Steps the operations share *)

Definition read_manifest (dir : string) : M Manifest := λ s,
  (match dict_get dir (pm_fs s) with
   | Some d => match df_manifest d with Some m => Ok m | None => Err (PluginInstallError "manifest.yaml missing") end
   | None => Err (PluginInstallError "manifest.yaml missing")
   end, s).

Definition life_to (name : string) (st : PluginStatus) : M unit := λ s,
  match transition name st (pm_life s) with
  | Ok (_, l) => (Ok (), set_life l s)
  | Err _ => (Err LifecycleErr, s)
  end.

Definition mark_failed (name : string) (s : PM) : PM :=
  match transition name FAILED (pm_life s) with Ok (_, l) => set_life l s | Err _ => s end.

Definition require (name : string) : M unit := λ s,
  (if decide (name ∈ pm_plugins s) then Ok () else Err (PluginNotFoundError name), s).

Definition get_spec (name : string) : M PluginSpec := λ s,
  (match dict_get name (pm_specs s) with Some x => Ok x | None => Err KeyErr end, s).
Definition get_dir (name : string) : M string := λ s,
  (match dict_get name (pm_dirs s) with Some x => Ok x | None => Err KeyErr end, s).
Definition get_sdk (name : string) : M (list (string * string)) := λ s,
  (match dict_get name (pm_sdks s) with Some x => Ok x | None => Err KeyErr end, s).

(** [_load_plugin]: the listeners of the new SDK *)
Definition load_plugin (name dir : string) (oc : CodeOutcome) : M (list (string * string)) := λ s,
  match dict_get dir (pm_fs s) ≫= df_code with
  | None => (Err (PluginInstallError "plugin.py missing"), s)
  | Some _ =>
      let '(ok, ls, s') := perform_all name (oc_regs oc) [] s in
      if negb ok then (Err (PluginInstallError "plugin factory failed"), s')
      else match oc_error oc with
           | Some e => (Err (PluginInstallError e), s')
           | None => (Ok ls, s')
           end
  end.

(** [_run_hook]; a hook may register through the SDK of the plugin. *)
Definition run_plugin_hook (name : string) (oc : CodeOutcome) : M unit := λ s,
  if decide (name ∈ pm_plugins s) then
    let '(ok, ls, s') := perform_all name (oc_regs oc) (default [] (dict_get name (pm_sdks s))) s in
    let s' := set_sdks (dict_set name ls (pm_sdks s')) s' in
    if negb ok then (Err ExtensionAlreadyRegistered, s')
    else match oc_error oc with Some e => (Err (HookError e), s') | None => (Ok (), s') end
  else (Err KeyErr, s).

Definition add_plugin (name : string) (l : list string) : list string := if decide (name ∈ l) then l else (l ++ [name])%list.

Definition spec_of (name : string) (m : Manifest) : PluginSpec :=
  mk_spec name (default "" (mf_version m)) (default "create_plugin" (mf_entry m)) (mf_description m) (mf_author m)
    (mf_tags m) (mf_requires_router m) (mf_permissions m) (default "" (mf_signature m)).

(** Unregister the extensions of the plugin and the listeners of its SDK. *)
Definition detach (name : string) (ls : list (string * string)) (s : PM) : PM :=
  set_sdks (dict_set name [] (pm_sdks s))
    (set_ext (unregister_plugin name (pm_ext s)) (unsubscribe_all ls (pm_bus s)) s).

(** The loaded plugin and its SDK take the place of the old ones. *)
Definition attach (name : string) (ls : list (string * string)) (s : PM) : PM :=
  set_sdks (dict_set name ls (pm_sdks s)) (set_plugins (add_plugin name (pm_plugins s)) s).

Definition se_do (f : PM → PM) : M unit := λ s, (Ok (), f s).

Section Operations.
Context `{!ManifestMac} (cfg : PluginConfig) (ck : Checker).

Definition validate_for (m : Manifest) : M unit := λ s, (validate_spec ck m (extension_count (pm_ext s)), s).
Definition verify_for (m : Manifest) : M unit := λ s,
  (verify_manifest (gf_require_signatures cfg) (gf_signature_secret cfg) m, s).

(** *** Queries *)

Record PluginInfo := mk_info {
  pi_name : string;
  pi_version : string;
  pi_status : PluginStatus;
  pi_signature : string;
  pi_extensions : list Extension
}.

Definition info (name : string) : M PluginInfo :=
  require name ;; sp ← get_spec name;
  s ← se_get;
  mret (mk_info name (ps_version sp) (state name (pm_life s)) (ps_signature sp) (list_by_plugin name (pm_ext s))).
(** *** Enabling and disabling *)

Definition enable_plugin (name : string) (b : Behaviour) : M PluginInfo :=
  require name ;; s ← se_get;
  if is_enabled name (pm_life s) then info name
  else
    life_to name ENABLING ;;
    se_try (run_plugin_hook name (bh_hook b "on_enable")) (λ e, se_do (mark_failed name) ;; se_raise e) ;;
    life_to name ENABLED ;; info name.

Definition disable_plugin (name : string) (b : Behaviour) : M PluginInfo :=
  require name ;; s ← se_get;
  match state name (pm_life s) with
  | DISABLED => info name
  | ENABLED => run_plugin_hook name (bh_hook b "on_disable") ;; life_to name DISABLED ;; info name
  | VERIFIED => life_to name DISABLED ;; info name
  | _ => info name
  end.

(** *** Installing *)

Inductive Source :=
| FromSpec (m : Manifest)
| FromDir (d : PluginDir)
| FromEntry (id : string).

Definition manifest_name (m : Manifest) : M string :=
  match mf_name m with Some n => mret n | None => se_raise KeyErr end.

Definition absent_dir (dir : string) : M unit := λ s,
  (match dict_get dir (pm_fs s) with Some _ => Err (PluginAlreadyInstalledError dir) | None => Ok () end, s).

Definition write_dir (dir : string) (d : PluginDir) (s : PM) : PM := set_fs (dict_set dir d (pm_fs s)) s.
Definition remove_dir (dir : string) (s : PM) : PM := set_fs (dict_pop dir (pm_fs s)) s.

(** [shutil.copytree] of contents [d] to [dst]; the exception stands for
    [OSError]. *)
Definition copy_contents (b : Behaviour) (d : PluginDir) (dst : string) : M unit := λ s,
  match bh_copy b dst with
  | None => (Ok (), write_dir dst d s)
  | Some rest =>
      (Err (PluginInstallError "copy failed"), match rest with Some p => write_dir dst p s | None => s end)
  end.

(** [Marketplace.install_entry]: the directory it made *)
Definition install_entry (id : string) : M string := λ s,
  match get_entry id (pm_entries s) with
  | Err e => (Err e, s)
  | Ok e =>
      match entry_installable ck (gf_require_signatures cfg) (gf_signature_secret cfg)
              (bool_decide (is_Some (dict_get (me_name e) (pm_fs s)))) e with
      | Err err => (Err err, s)
      | Ok _ =>
          (Ok (me_name e),
           set_market (dict_set id (count_download e) (pm_entries s))
             (write_dir (me_name e) (mk_dir (Some (manifest_for e)) (Some (me_plugin_code e))) s))
      end
  end.

Definition materialize (src : Source) (b : Behaviour) : M (string * Manifest) :=
  match src with
  | FromEntry id => dir ← install_entry id; m ← read_manifest dir; mret (dir, m)
  | FromDir d =>
      match df_manifest d with
      | None => se_raise (PluginInstallError "manifest.yaml missing")
      | Some m => name ← manifest_name m; absent_dir name ;; copy_contents b d name ;; mret (name, m)
      end
  | FromSpec m =>
      match mf_plugin_code m with
      | None => se_raise (PluginInstallError "spec requires 'plugin_code'")
      | Some code =>
          name ← manifest_name m; absent_dir name ;;
          se_do (write_dir name (mk_dir (Some (without_code m)) (Some code))) ;; mret (name, m)
      end
  end.

Definition install_body (name dir : string) (m : Manifest) (b : Behaviour) : M unit :=
  life_to name INSTALLING ;; validate_for m ;; life_to name INSTALLED ;; life_to name VERIFYING ;;
  verify_for m ;; life_to name VERIFIED ;;
  ls ← load_plugin name dir (bh_load b);
  se_do (attach name ls) ;;
  se_do (λ s, set_specs (dict_set name (spec_of name m) (pm_specs s)) (set_dirs (dict_set name dir (pm_dirs s)) s)) ;;
  se_do (λ s, set_grants (grant_from_manifest name (mf_permissions m) (pm_grants s)) s) ;;
  run_plugin_hook name (bh_hook b "on_install").

Definition install_plugin (src : Source) (auto_enable : option bool) (b : Behaviour) : M PluginInfo :=
  '(dir, m) ← materialize src b; name ← manifest_name m; s ← se_get;
  if decide (name ∈ pm_plugins s) then se_raise (PluginAlreadyInstalledError name)
  else if gf_max_plugins cfg <=? zlen (pm_plugins s) then se_raise (PluginInstallError "plugin limit reached")
  else
    se_do (λ s, set_life (initialize name DRAFT (pm_life s)) s) ;;
    se_try (install_body name dir m b) (λ e, se_do (mark_failed name) ;; se_do (remove_dir dir) ;; se_raise e) ;;
    (if default (gf_auto_enable cfg) auto_enable then enable_plugin name b ;; mret () else mret ()) ;;
    info name.

(** *** Reloading *)

Definition reload_plugin (name : string) (b : Behaviour) : M PluginInfo :=
  require name ;; s ← se_get;
  if decide (state name (pm_life s) ∈ [INSTALLING; UPDATING; UNINSTALLING; FAILED; UNINSTALLED])
  then se_raise (PluginInstallError "cannot reload plugin")
  else
    let was_enabled := is_enabled name (pm_life s) in
    dir ← get_dir name; m ← read_manifest dir; validate_for m ;;
    old ← get_sdk name; se_do (detach name old) ;;
    ls ← load_plugin name dir (bh_load b);
    se_do (attach name ls) ;;
    se_do (λ s, set_grants (grant_from_manifest name (mf_permissions m) (pm_grants s)) s) ;;
    run_plugin_hook name (bh_hook b "on_reload") ;;
    (if was_enabled : bool then enable_plugin name b ;; mret () else mret ()) ;;
    info name.

(** *** Upgrading *)

Definition backup_of (dir : string) : string := dir +:+ ".bak".

(** [shutil.copytree], which raises without its source *)
Definition copy_dir (b : Behaviour) (src dst : string) : M unit := λ s,
  match dict_get src (pm_fs s) with
  | Some d => copy_contents b d dst s
  | None => (Err (PluginInstallError "no such directory"), s)
  end.

(** [_replace_files] with a manifest that has code *)
Definition replace_files (dir : string) (m : Manifest) : M unit := λ s,
  match dict_get dir (pm_fs s) with
  | Some d =>
      (Ok (), write_dir dir (mk_dir (Some (without_code m)) (match mf_plugin_code m with Some c => Some c | None => df_code d end)) s)
  | None => (Err (PluginInstallError "no such directory"), s)
  end.

Definition restore_body (name dir backup : string) (b : Behaviour) : M unit :=
  se_do (remove_dir dir) ;; copy_dir b backup dir ;;
  m ← read_manifest dir; old ← get_sdk name; se_do (detach name old) ;;
  ls ← load_plugin name dir (bh_restore b);
  se_do (attach name ls) ;;
  se_do (λ s, set_grants (grant_from_manifest name (mf_permissions m) (pm_grants s)) s) ;;
  life_to name ROLLED_BACK.

(** [_rollback]: it always raises. *)
Definition rollback_upgrade {A} (name backup : string) (b : Behaviour) : M A :=
  life_to name ROLLING_BACK ;; dir ← get_dir name;
  se_try (restore_body name dir backup b) (λ _, se_do (mark_failed name)) ;;
  se_raise PluginRollbackError.

Definition upgrade_body (name dir : string) (m : Manifest) (b : Behaviour) : M unit :=
  replace_files dir m ;; old ← get_sdk name; se_do (detach name old) ;;
  ls ← load_plugin name dir (bh_load b);
  se_do (attach name ls) ;;
  se_do (λ s, set_grants (grant_from_manifest name (mf_permissions m) (pm_grants s)) s) ;;
  run_plugin_hook name (bh_hook b "on_upgrade") ;;
  se_do (λ s, set_specs (dict_set name (spec_of name m) (pm_specs s)) s).

Definition newer_version (new current : string) : M unit :=
  match compare_versions new current with
  | None => se_raise VersionValueError
  | Some c => if c <=? 0 then se_raise PluginUpgradeError else mret ()
  end.

Definition upgrade_plugin (name : string) (m : Manifest) (b : Behaviour) : M PluginInfo :=
  require name ;;
  match mf_plugin_code m with
  | None => se_raise (PluginInvalidError 0)
  | Some _ =>
      current ← get_spec name;
      newer_version (default "" (mf_version m)) (ps_version current) ;;
      validate_for m ;; verify_for m ;; s ← se_get;
      let was_enabled := is_enabled name (pm_life s) in
      dir ← get_dir name;
      let backup := backup_of dir in
      se_do (remove_dir backup) ;; copy_dir b dir backup ;; life_to name UPDATING ;;
      se_finally (se_try (upgrade_body name dir m b) (λ _, rollback_upgrade name backup b)) (remove_dir backup) ;;
      (if was_enabled : bool then life_to name ENABLED ;; enable_plugin name b ;; mret () else life_to name DISABLED) ;;
      info name
  end.

(** *** Uninstalling *)

Definition uninstall_plugin (name : string) (b : Behaviour) : M unit :=
  require name ;; s ← se_get;
  (if is_enabled name (pm_life s) then disable_plugin name b ;; mret () else mret ()) ;;
  life_to name UNINSTALLING ;;
  se_try (run_plugin_hook name (bh_hook b "on_uninstall")) (λ _, se_do (mark_failed name) ;; se_raise PluginUninstallError) ;;
  s ← se_get;
  let sdk := dict_get name (pm_sdks s) in
  se_do (λ s, set_sdks (dict_pop name (pm_sdks s)) (set_plugins (List.filter (λ n, negb (bool_decide (n = name))) (pm_plugins s)) s)) ;;
  match bh_shutdown b with Some e => se_raise (HookError e) | None => mret () end ;;
  se_do (λ s, set_ext (unregister_plugin name (pm_ext s)) (unsubscribe_all (default [] sdk) (pm_bus s)) s) ;;
  se_do (λ s, set_grants (revoke_permission name None None (pm_grants s)).2 s) ;;
  se_do (λ s, let dir := dict_get name (pm_dirs s) in
              let s := set_dirs (dict_pop name (pm_dirs s)) s in
              match dir with Some d => if truthy d then remove_dir d s else s | None => s end) ;;
  se_do (λ s, set_specs (dict_pop name (pm_specs s)) s) ;;
  life_to name UNINSTALLED ;;
  se_do (λ s, set_life (drop_plugin name (pm_life s)) s).

(** *** Any sequence of operations *)

Inductive PluginOp :=
| OpInstall (src : Source) (auto_enable : option bool)
| OpEnable (name : string)
| OpDisable (name : string)
| OpReload (name : string)
| OpUpgrade (name : string) (m : Manifest)
| OpUninstall (name : string).

Definition plugin_op (o : PluginOp) (b : Behaviour) (s : PM) : PM :=
  match o with
  | OpInstall src ae => (install_plugin src ae b s).2
  | OpEnable n => (enable_plugin n b s).2
  | OpDisable n => (disable_plugin n b s).2
  | OpReload n => (reload_plugin n b s).2
  | OpUpgrade n m => (upgrade_plugin n m b s).2
  | OpUninstall n => (uninstall_plugin n b s).2
  end.

Definition plugin_ops (l : list (PluginOp * Behaviour)) (s : PM) : PM := foldl (λ s p, plugin_op p.1 p.2 s) s l.
End Operations.

(** ** Examples *)

Section Examples.
#[local] Instance demo_mac : ManifestMac := {| manifest_mac := λ secret m, secret +:+ default "" (mf_name m) |}.

Definition demo_pconfig : PluginConfig := mk_pconfig "" false true 100.
Definition demo_checker : Checker := mk_checker "2.0.0" 500.
Definition silent : CodeOutcome := mk_outcome [] None.
Definition quiet : Behaviour := mk_behaviour silent silent (λ _, silent) None (λ _, None).
Definition failing (hook : string) : Behaviour :=
  mk_behaviour silent silent (λ h, if decide (h = hook) then mk_outcome [] (Some "boom") else silent) None (λ _, None).
Definition demo_manifest (name version : string) (ps : list PermissionDecl) : Manifest :=
  mk_manifest (Some name) (Some version) (Some "create_plugin") "" "" [] "" ps None (Some "code").

(** A failed installation leaves the plugin in the table: the next attempt
    raises, and leaves a directory that makes the one after it raise too. *)
Example failed_install_blocks :
  let src := FromSpec (demo_manifest "p" "1.0.0" []) in
  let s1 := (install_plugin demo_pconfig demo_checker src None (failing "on_install") empty_pm).2 in
  let '(r2, s2) := install_plugin demo_pconfig demo_checker src None quiet s1 in
  let r3 := (install_plugin demo_pconfig demo_checker src None quiet s2).1 in
  pm_plugins s1 = ["p"] ∧ pm_fs s1 = [] ∧
  r2 = Err (PluginAlreadyInstalledError "p") ∧ r3 = Err (PluginAlreadyInstalledError "p").
Proof. vm_compute. repeat split. Qed.

(** The backup of [p] is the directory of the plugin [p.bak]. *)
Example backup_deletes_other :
  let s := plugin_ops demo_pconfig demo_checker
             [(OpInstall (FromSpec (demo_manifest "p" "1.0.0" [])) None, quiet);
              (OpInstall (FromSpec (demo_manifest "p.bak" "1.0.0" [])) None, quiet);
              (OpUpgrade "p" (demo_manifest "p" "1.1.0" []), quiet)] empty_pm in
  map fst (pm_fs s) = ["p"] ∧ pm_plugins s = ["p"; "p.bak"].
Proof. vm_compute. repeat split. Qed.

(** An upgrade that fails keeps the permissions it asked for. *)
Example rollback_keeps_permissions :
  let s := plugin_ops demo_pconfig demo_checker
             [(OpInstall (FromSpec (demo_manifest "p" "1.0.0" [])) None, quiet);
              (OpUpgrade "p" (demo_manifest "p" "1.1.0" [mk_perm (Some "secrets") ["read"]]), failing "on_upgrade")] empty_pm in
  ps_version <$> dict_get "p" (pm_specs s) = Some "1.0.0" ∧ state "p" (pm_life s) = ROLLED_BACK ∧
  check_permission "p" "secrets" "read" (pm_grants s) = true.
Proof. vm_compute. repeat split. Qed.

(** An enabled plugin stays enabled over an upgrade, without [on_enable] of the
    new code: a hook that would raise is not called. *)
Example upgrade_skips_enable_hook :
  let s := plugin_ops demo_pconfig demo_checker
             [(OpInstall (FromSpec (demo_manifest "p" "1.0.0" [])) None, quiet);
              (OpUpgrade "p" (demo_manifest "p" "1.1.0" []), failing "on_enable")] empty_pm in
  ps_version <$> dict_get "p" (pm_specs s) = Some "1.1.0" ∧ state "p" (pm_life s) = ENABLED.
Proof. vm_compute. repeat split. Qed.

(** A signed entry of the marketplace cannot be installed where signatures are
    required: its manifest is written without the signature. *)
Example signed_entry_refused :
  let cfg := mk_pconfig "k" true true 100 in
  let e := mk_entry "e" "p" "1.0.0" "" "" [] "" "create_plugin" "code" [] None "kp" 0 [] in
  let s := set_market [("e", e)] empty_pm in
  let '(r, s') := install_plugin cfg demo_checker (FromEntry "e") None quiet s in
  r = Err PluginSignatureError ∧ pm_plugins s' = [] ∧ pm_fs s' = [].
Proof. vm_compute. repeat split. Qed.

(** A listener that new code registered before it failed stays on the bus. *)
Example failed_upgrade_leaks_listener :
  let b := mk_behaviour (mk_outcome [RegListener "ev" "h" "ev#1"] (Some "boom")) silent (λ _, silent) None (λ _, None) in
  let s := plugin_ops demo_pconfig demo_checker
             [(OpInstall (FromSpec (demo_manifest "p" "1.0.0" [])) None, quiet);
              (OpUpgrade "p" (demo_manifest "p" "1.1.0" []), b)] empty_pm in
  pm_bus s = [("ev", "h")] ∧ pm_sdks s = [("p", [])].
Proof. vm_compute. repeat split. Qed.
End Examples.
End PluginManager.

(** * What the manager guarantees *)

Module PluginManagerSpec.
Import PluginVersions PluginManifests PluginPermissions PluginRegistry PluginMarketplace PluginManager.
Open Scope string_scope.
Open Scope Z_scope.

(** ** Triples with a postcondition for each exception *)

Definition triple {A} (P : PM → Prop) (m : M A) (Q : A → PM → Prop) (E : PluginErr → PM → Prop) : Prop :=
  ∀ s, P s → match m s with (Ok a, s') => Q a s' | (Err e, s') => E e s' end.

Lemma triple_bind {A B} P (m : M A) (f : A → M B) Q R E :
  triple P m Q E → (∀ a, triple (Q a) (f a) R E) → triple P (m ≫= f) R E.
Proof.
  intros Hm Hf s Hs. specialize (Hm s Hs). unfold mbind, SE_bind. destruct (m s) as [[a|e] s']; [by apply Hf|done].
Qed.

Lemma triple_weaken {A} P P' (m : M A) Q Q' E E' :
  triple P' m Q' E' → (∀ s, P s → P' s) → (∀ a s, Q' a s → Q a s) → (∀ e s, E' e s → E e s) → triple P m Q E.
Proof.
  intros Hm HP HQ HE s Hs. specialize (Hm s (HP s Hs)). destruct (m s) as [[a|e] s']; auto.
Qed.

Lemma triple_ret {A} P (a : A) E : triple P (mret a) (λ _, P) E.
Proof. by intros s Hs. Qed.
Lemma triple_raise {A} P e (Q : A → PM → Prop) E : (∀ s, P s → E e s) → triple P (se_raise e) Q E.
Proof. intros H s Hs. by apply H. Qed.
Lemma triple_do P f (Q : unit → PM → Prop) E : (∀ s, P s → Q () (f s)) → triple P (se_do f) Q E.
Proof. intros H s Hs. by apply H. Qed.
Lemma triple_get P E : triple P se_get (λ a s, a = s ∧ P s) E.
Proof. by intros s Hs. Qed.

Lemma triple_try {A} P (m : M A) h Q E E' :
  triple P m Q E' → (∀ e, triple (E' e) (h e) Q E) → triple P (se_try m h) Q E.
Proof.
  intros Hm Hh s Hs. specialize (Hm s Hs). unfold se_try. destruct (m s) as [[a|e] s']; [done|]. by apply Hh.
Qed.

Lemma triple_finally {A} P (m : M A) f Q Q' E E' :
  triple P m Q' E' → (∀ a s, Q' a s → Q a (f s)) → (∀ e s, E' e s → E e (f s)) → triple P (se_finally m f) Q E.
Proof.
  intros Hm HQ HE s Hs. specialize (Hm s Hs). unfold se_finally. destruct (m s) as [[a|e] s']; simpl; auto.
Qed.

(** What only inspects the state *)
Lemma triple_read {A} (P : PM → Prop) (f : PM → result PluginErr A) E :
  (∀ e s, P s → E e s) → triple P (λ s, (f s, s)) (λ a s, P s ∧ f s = Ok a) E.
Proof. intros HE s Hs. destruct (f s) eqn:Ef; auto. Qed.

(** Registrations change the registry and the bus only. *)
Lemma perform_all_frame name rs ls s :
  ∃ x b, (perform_all name rs ls s).2 = set_ext x b s.
Proof.
  revert ls s. induction rs as [|r rs IH]; intros ls s; simpl.
  { exists (pm_ext s), (pm_bus s). by destruct s. }
  destruct (perform name r ls s) as [[ls'|e] s'] eqn:E.
  - destruct (IH ls' s') as (x & b & Hx). rewrite Hx. exists x, b. unfold perform in E.
    destruct r; destruct (register_extension _ _); simplify_eq; done.
  - exists (pm_ext s), (pm_bus s). unfold perform in E. destruct r; destruct (register_extension _ _); simplify_eq; by destruct s'.
Qed.

(** A predicate that does not look at the registry and the bus *)
Definition blind (P : PM → Prop) : Prop := ∀ x b s, P s → P (set_ext x b s).

Lemma triple_load P E name dir oc :
  blind P → (∀ e s, P s → E e s) → triple P (load_plugin name dir oc) (λ _, P) E.
Proof.
  intros Hb HE s Hs. unfold load_plugin. destruct (_ ≫= _); [|by apply HE].
  destruct (perform_all_frame name (oc_regs oc) [] s) as (x & b & Hx).
  destruct (perform_all name (oc_regs oc) [] s) as [[ok ls] s']. simpl in Hx. subst s'.
  destruct ok; simpl; [destruct (oc_error oc)|]; try apply HE; by apply Hb.
Qed.

Lemma triple_hook P E name oc :
  blind P → (∀ ls s, P s → P (set_sdks (dict_set name ls (pm_sdks s)) s)) → (∀ e s, P s → E e s) →
  triple P (run_plugin_hook name oc) (λ _, P) E.
Proof.
  intros Hb Hd HE s Hs. unfold run_plugin_hook. case_decide; [|by apply HE].
  destruct (perform_all_frame name (oc_regs oc) (default [] (dict_get name (pm_sdks s))) s) as (x & b & Hx).
  destruct (perform_all name _ _ s) as [[ok ls] s']. simpl in Hx. subst s'.
  assert (P (set_sdks (dict_set name ls (pm_sdks (set_ext x b s))) (set_ext x b s))) as HP by by apply Hd, Hb.
  destruct ok; simpl; [destruct (oc_error oc)|]; auto.
Qed.

Lemma state_set n n' st l : state n' (dict_set n st l) = if decide (n = n') then st else state n' l.
Proof. unfold state. rewrite dict_get_set. by case_decide. Qed.

Lemma triple_life P Q E name st :
  (∀ s, P s → st ∈ valid_transitions (state name (pm_life s)) → Q () (set_life (dict_set name st (pm_life s)) s)) →
  (∀ s, P s → E LifecycleErr s) → triple P (life_to name st) Q E.
Proof.
  intros HQ HE s Hs. unfold life_to, transition. case_decide; [by apply HQ|by apply HE].
Qed.

(** One step of a bind, by the lemma [L] *)
Tactic Notation "next" uconstr(L) := eapply triple_bind; [apply L; try done; eauto|intros ?]; cbv beta.

Section Guarantees.
Context `{MM : !ManifestMac} (cfg : PluginConfig) (ck : Checker).

Definition vetted (m : Manifest) : Prop :=
  validate_manifest m = [] ∧ verify_manifest (gf_require_signatures cfg) (gf_signature_secret cfg) m = Ok ().

(** Every loaded plugin has the specification of a vetted manifest, a directory
    and an SDK, and only loaded plugins are enabled. *)
Record ok (s : PM) : Prop := {
  ok_spec n : n ∈ pm_plugins s → ∃ m, dict_get n (pm_specs s) = Some (spec_of n m) ∧ vetted m;
  ok_dir n : n ∈ pm_plugins s → is_Some (dict_get n (pm_dirs s));
  ok_sdk n : n ∈ pm_plugins s → is_Some (dict_get n (pm_sdks s));
  ok_enabled n : state n (pm_life s) = ENABLED → n ∈ pm_plugins s;
  ok_life : dict_wf (pm_life s)
}.

Definition loaded (name : string) (s : PM) : Prop := ok s ∧ name ∈ pm_plugins s.

Lemma ok_blind : blind ok.
Proof. intros x b s [H1 H2 H3 H4 H5]. by split. Qed.
Lemma loaded_blind name : blind (loaded name).
Proof. intros x b s [H ?]. split; [by apply ok_blind|done]. Qed.

Lemma ok_set_sdks name ls s : ok s → ok (set_sdks (dict_set name ls (pm_sdks s)) s).
Proof.
  intros [H1 H2 H3 H4 H5]. split; try done. intros n Hn. simpl. rewrite dict_get_set. case_decide; [by eexists|by apply H3].
Qed.
Lemma loaded_set_sdks name n ls s : loaded n s → loaded n (set_sdks (dict_set name ls (pm_sdks s)) s).
Proof. intros [H ?]. split; [by apply ok_set_sdks|done]. Qed.

Lemma ok_set_fs x s : ok s → ok (set_fs x s).
Proof. intros [H1 H2 H3 H4 H5]. by split. Qed.
Lemma ok_set_grants x s : ok s → ok (set_grants x s).
Proof. intros [H1 H2 H3 H4 H5]. by split. Qed.
Lemma ok_set_entries x s : ok s → ok (set_market x s).
Proof. intros [H1 H2 H3 H4 H5]. by split. Qed.

Lemma ok_set_life name st s :
  (st = ENABLED → name ∈ pm_plugins s) → ok s → ok (set_life (dict_set name st (pm_life s)) s).
Proof.
  intros Hst [H1 H2 H3 H4 H5]. split; try done; simpl; [|by apply dict_set_wf].
  intros n. rewrite state_set. case_decide; [subst; auto|auto].
Qed.

Lemma ok_mark_failed name s : ok s → ok (mark_failed name s).
Proof. intros H. unfold mark_failed, transition. case_decide; [by apply ok_set_life|done]. Qed.

Lemma loaded_detach name n ls s : loaded n s → loaded n (detach name ls s).
Proof.
  intros H. exact (loaded_set_sdks name n [] (set_ext (unregister_plugin name (pm_ext s)) (unsubscribe_all ls (pm_bus s)) s)
                     (loaded_blind _ _ _ _ H)).
Qed.

Lemma plugins_add n name l : n ∈ add_plugin name l ↔ n = name ∨ n ∈ l.
Proof. unfold add_plugin. case_decide; set_solver. Qed.

Lemma loaded_attach name ls s : loaded name s → loaded name (attach name ls s).
Proof.
  intros [[H1 H2 H3 H4 H5] Hn]. unfold attach.
  split; [split; simpl; try done|]; simpl; try setoid_rewrite plugins_add.
  - intros n [->|?]; auto.
  - intros n [->|?]; auto.
  - intros n Hn'. rewrite dict_get_set. case_decide; [by eexists|]. apply H3. by destruct Hn' as [->|?].
  - intros n ?. right. by apply H4.
  - by left.
Qed.

(** A new plugin with its specification and directory *)
Lemma loaded_new name dir m ls s :
  vetted m → ok s →
  let s1 := attach name ls s in
  loaded name (set_specs (dict_set name (spec_of name m) (pm_specs s1)) (set_dirs (dict_set name dir (pm_dirs s1)) s1)).
Proof.
  intros Hm [H1 H2 H3 H4 H5] s1. split; [split; simpl; try done|simpl; apply plugins_add; by left]; setoid_rewrite plugins_add.
  - intros n Hn. rewrite dict_get_set. case_decide; [subst; by exists m|]. apply H1. by destruct Hn as [->|?].
  - intros n Hn. rewrite dict_get_set. case_decide; [by eexists|]. apply H2. by destruct Hn as [->|?].
  - intros n Hn. rewrite dict_get_set. case_decide; [by eexists|]. apply H3. by destruct Hn as [->|?].
  - intros n ?. right. by apply H4.
Qed.

Lemma loaded_set_specs name m s : vetted m → loaded name s → loaded name (set_specs (dict_set name (spec_of name m) (pm_specs s)) s).
Proof.
  intros Hm [[H1 H2 H3 H4 H5] Hn]. split; [split; simpl; try done|done].
  intros n Hn'. rewrite dict_get_set. case_decide; [subst; by exists m|]. by apply H1.
Qed.
(** ** The operations keep it *)

Notation E0 := (λ _ : PluginErr, ok).

Lemma loaded_ok name s : loaded name s → ok s.
Proof. by intros []. Qed.
Hint Resolve loaded_ok : core.

Lemma t_require name : triple ok (require name) (λ _, loaded name) E0.
Proof. intros s Hs. unfold require. by case_decide. Qed.

Lemma t_life_ok n st : st ≠ ENABLED → triple ok (life_to n st) (λ _, ok) E0.
Proof. intros Hst. apply triple_life; [|done]. intros s Hs _. by apply ok_set_life. Qed.

(** The steps of an operation on a loaded plugin keep it loaded. *)
Section Steps.
Context (n : string) (E : PluginErr → PM → Prop) (HE : ∀ e s, loaded n s → E e s).

Lemma t_read {A} (f : PM → result PluginErr A) : triple (loaded n) (λ s, (f s, s)) (λ _, loaded n) E.
Proof. intros s Hs. destruct (f s); eauto. Qed.

Lemma t_do f : (∀ s, loaded n s → loaded n (f s)) → triple (loaded n) (se_do f) (λ _, loaded n) E.
Proof. intros Hf s Hs. by apply Hf. Qed.

Lemma t_life st : triple (loaded n) (life_to n st) (λ _, loaded n) E.
Proof.
  apply triple_life; [|eauto]. intros s [Hs Hn] _. split; [|done]. by apply ok_set_life.
Qed.

Lemma t_hook oc : triple (loaded n) (run_plugin_hook n oc) (λ _, loaded n) E.
Proof. apply triple_hook; [apply loaded_blind|intros; by apply loaded_set_sdks|eauto]. Qed.

Lemma t_load oc dir : triple (loaded n) (load_plugin n dir oc) (λ _, loaded n) E.
Proof. apply triple_load; [apply loaded_blind|eauto]. Qed.

Lemma t_grants m :
  triple (loaded n) (se_do (λ s, set_grants (grant_from_manifest n (mf_permissions m) (pm_grants s)) s)) (λ _, loaded n) E.
Proof. apply t_do. intros s [? ?]. split; [by apply ok_set_grants|done]. Qed.

Lemma t_fs x : triple (loaded n) (se_do (λ s, set_fs (x s) s)) (λ _, loaded n) E.
Proof. apply t_do. intros s [? ?]. split; [by apply ok_set_fs|done]. Qed.

Lemma t_copy_contents b d dst : triple (loaded n) (copy_contents b d dst) (λ _, loaded n) E.
Proof.
  intros s [Hs Hn]. unfold copy_contents. destruct (bh_copy b dst) as [[p|]|].
  - apply HE. split; [by apply ok_set_fs|done].
  - by apply HE.
  - split; [by apply ok_set_fs|done].
Qed.

Lemma t_copy b src dst : triple (loaded n) (copy_dir b src dst) (λ _, loaded n) E.
Proof.
  intros s Hs. unfold copy_dir. destruct (dict_get src (pm_fs s)); [|by eauto]. by apply t_copy_contents.
Qed.

Lemma t_replace dir m : triple (loaded n) (replace_files dir m) (λ _, loaded n) E.
Proof.
  intros s Hs. unfold replace_files. destruct (dict_get dir (pm_fs s)); [|by eauto].
  destruct Hs. split; [by apply ok_set_fs|done].
Qed.

Lemma t_detach ls : triple (loaded n) (se_do (detach n ls)) (λ _, loaded n) E.
Proof. apply t_do. intros. by apply loaded_detach. Qed.

Lemma t_attach ls : triple (loaded n) (se_do (attach n ls)) (λ _, loaded n) E.
Proof. apply t_do. intros. by apply loaded_attach. Qed.

Lemma t_get : triple (loaded n) se_get (λ _, loaded n) E.
Proof. by intros s Hs. Qed.
End Steps.

Lemma t_info n : triple (loaded n) (info n) (λ _, loaded n) E0.
Proof.
  unfold info. eapply triple_bind; [eapply triple_weaken; [apply t_require|eauto..]|intros ?; cbv beta].
  next t_read. next t_get. apply triple_ret.
Qed.

Lemma t_fail n {A} e : triple ok (se_do (mark_failed n) ;; se_raise e : M A) (λ _, loaded n) E0.
Proof.
  eapply triple_bind; [apply (triple_do ok _ (λ _, ok)); intros; by apply ok_mark_failed|intros ?; cbv beta]. by apply triple_raise.
Qed.

Lemma t_enable n b : triple ok (enable_plugin n b) (λ _, loaded n) E0.
Proof.
  unfold enable_plugin. next t_require. next t_get. destruct (is_enabled _ _); [apply t_info|].
  next t_life. eapply triple_bind; [eapply triple_try; [apply (t_hook n E0); eauto|intros e; apply t_fail]|intros ?; cbv beta].
  next t_life. apply t_info.
Qed.

Lemma t_disable n b : triple ok (disable_plugin n b) (λ _, loaded n) E0.
Proof.
  unfold disable_plugin. next t_require. next t_get. destruct (state _ _); try apply t_info.
  - next t_life. apply t_info.
  - next t_hook. next t_life. apply t_info.
Qed.

Lemma t_enable_if n b (c : bool) :
  triple (loaded n) (if c then enable_plugin n b ;; mret () else mret ()) (λ _, loaded n) E0.
Proof.
  destruct c; [|apply triple_ret]. eapply triple_bind; [|intros ?; apply triple_ret].
  eapply triple_weaken; [apply t_enable|eauto..].
Qed.

Lemma t_reload n b : triple ok (reload_plugin ck n b) (λ _, loaded n) E0.
Proof.
  unfold reload_plugin. next t_require. next t_get. case_decide; [by apply triple_raise; eauto|].
  next t_read. next t_read. next t_read. next t_read. next t_detach. next t_load. next t_attach.
  next t_grants. next t_hook. next t_enable_if. apply t_info.
Qed.

Lemma t_validate P m : (∀ s, P s → ok s) → triple P (validate_for ck m) (λ _ s, P s ∧ validate_manifest m = []) E0.
Proof.
  intros HP s Hs. unfold validate_for, validate_spec.
  destruct (validate_manifest m); [destruct (check_compat _ _ _) as [[]|]|]; auto.
Qed.

Lemma t_verify P m :
  (∀ s, P s → ok s) →
  triple P (verify_for cfg m)
    (λ _ s, P s ∧ verify_manifest (gf_require_signatures cfg) (gf_signature_secret cfg) m = Ok ()) E0.
Proof. intros HP s Hs. unfold verify_for. destruct (verify_manifest _ _ m) as [[]|]; auto. Qed.

(** What holds whatever the state may be taken for granted. *)
Lemma triple_pure {A} (P : PM → Prop) (X : Prop) (m : M A) Q E :
  (X → triple P m Q E) → triple (λ s, P s ∧ X) m Q E.
Proof. intros H s [Hs HX]. by apply H. Qed.

Lemma t_install_body n dir m b : triple ok (install_body cfg ck n dir m b) (λ _, loaded n) E0.
Proof.
  unfold install_body. next (t_life_ok n). next (t_validate ok). apply triple_pure. intros Hv.
  next (t_life_ok n). next (t_life_ok n). next (t_verify ok).
  apply triple_pure. intros Hg. next (t_life_ok n).
  eapply triple_bind; [by apply (triple_load ok); [apply ok_blind|]|intros ls; cbv beta].
  intros s Hs. pose proof (loaded_new n dir m ls s (conj Hv Hg) Hs) as H1. cbv zeta in H1.
  assert (triple (loaded n)
    (se_do (λ s, set_grants (grant_from_manifest n (mf_permissions m) (pm_grants s)) s) ;; run_plugin_hook n (bh_hook b "on_install"))
    (λ _, loaded n) E0) as Ht by (next t_grants; apply t_hook; eauto).
  exact (Ht _ H1).
Qed.

Lemma t_materialize src b : triple ok (materialize cfg ck src b) (λ _, ok) E0.
Proof.
  assert (∀ m, triple ok (manifest_name m) (λ _, ok) E0) as Hname.
  { intros m. unfold manifest_name. destruct (mf_name m); [apply triple_ret|by apply triple_raise]. }
  assert (∀ d, triple ok (absent_dir d) (λ _, ok) E0) as Habs.
  { intros d s Hs. unfold absent_dir. by destruct (dict_get d (pm_fs s)). }
  assert (∀ dir d, triple ok (se_do (write_dir dir d)) (λ _, ok) E0) as Hwrite.
  { intros dir d. apply triple_do. intros. by apply ok_set_fs. }
  assert (∀ d dir, triple ok (copy_contents b d dir) (λ _, ok) E0) as Hcopy.
  { intros d dir s Hs. unfold copy_contents. destruct (bh_copy b dir) as [[p|]|]; [by apply ok_set_fs|done|by apply ok_set_fs]. }
  assert (∀ dir, triple ok (read_manifest dir) (λ _, ok) E0) as Hread.
  { intros dir s Hs. unfold read_manifest. destruct (dict_get dir (pm_fs s)) as [d|]; [destruct (df_manifest d)|]; done. }
  assert (∀ id, triple ok (install_entry cfg ck id) (λ _, ok) E0) as Hentry.
  { intros id s Hs. unfold install_entry. destruct (get_entry id (pm_entries s)); [|done].
    destruct (entry_installable _ _ _ _ _); [|done]. by apply ok_set_entries, ok_set_fs. }
  destruct src as [m|d|id]; simpl.
  - destruct (mf_plugin_code m); [|by apply triple_raise].
    next Hname. next Habs. next Hwrite. apply triple_ret.
  - destruct (df_manifest d); [|by apply triple_raise]. next Hname. next Habs. next Hcopy. apply triple_ret.
  - next Hentry. next Hread. apply triple_ret.
Qed.

Lemma t_install src ae b : triple ok (install_plugin cfg ck src ae b) (λ _, ok) E0.
Proof.
  unfold install_plugin. next t_materialize. destruct a as [dir m]. unfold manifest_name.
  destruct (mf_name m) as [n|]; [|by intros s Hs].
  eapply triple_bind; [apply triple_ret|intros n'; cbv beta].
  eapply (triple_bind _ _ _ (λ _, ok)); [by intros s Hs|intros s0; cbv beta].
  case_decide as Hin; [by apply triple_raise|]. destruct (_ <=? _); [by apply triple_raise|].
  eapply triple_bind; [apply (triple_do ok _ (λ _, ok)); intros; by apply ok_set_life|intros ?; cbv beta].
  eapply triple_bind; [eapply triple_try; [apply t_install_body|intros e; cbv beta]|intros ?; cbv beta].
  - eapply triple_bind; [apply (triple_do ok _ (λ _, ok)); intros; by apply ok_mark_failed|intros ?; cbv beta].
    eapply triple_bind; [apply (triple_do ok _ (λ _, ok)); intros; by apply ok_set_fs|intros ?; cbv beta].
    by apply triple_raise.
  - next t_enable_if. eapply triple_weaken; [apply t_info|done|by intros ? ? []|done].
Qed.

Lemma t_upgrade_body n dir m b :
  vetted m → triple (loaded n) (upgrade_body n dir m b) (λ _, loaded n) (λ _, loaded n).
Proof.
  intros Hm. unfold upgrade_body. next t_replace. next t_read. next t_detach. next t_load. next t_attach.
  next t_grants. next t_hook. apply t_do. intros. by apply loaded_set_specs.
Qed.

Lemma t_rollback n backup b : triple (loaded n) (rollback_upgrade n backup b : M unit) (λ _, loaded n) E0.
Proof.
  unfold rollback_upgrade. next t_life. next t_read. eapply (triple_bind _ _ _ (λ _, ok)); [|intros ?; by apply triple_raise].
  eapply (triple_try _ _ _ _ _ (λ _, loaded n)).
  - eapply (triple_weaken _ (loaded n) _ _ (λ _, loaded n) _ (λ _, loaded n)); [|done|by intros ? ? []|done].
    unfold restore_body.
    next (t_fs n). next t_copy. next t_read. next t_read. next t_detach. next t_load. next t_attach. next t_grants. by apply t_life.
  - intros e. apply triple_do. intros s [Hs Hn]. by apply ok_mark_failed.
Qed.

Lemma t_upgrade n m b : triple ok (upgrade_plugin cfg ck n m b) (λ _, loaded n) E0.
Proof.
  unfold upgrade_plugin. next t_require. destruct (mf_plugin_code m); [|by apply triple_raise; eauto].
  next t_read. eapply (triple_bind _ _ _ (λ _, loaded n)); [|intros ?].
  { unfold newer_version. destruct (compare_versions _ _) as [c|]; [|by apply triple_raise; eauto].
    destruct (c <=? 0); [by apply triple_raise; eauto|apply triple_ret]. }
  next (t_validate (loaded n)). apply triple_pure. intros Hv. next (t_verify (loaded n)). apply triple_pure. intros Hg.
  next t_get. next t_read. next (t_fs n). next t_copy. next t_life.
  eapply triple_bind; [eapply (triple_finally _ _ _ _ (λ _, loaded n) _ E0)|intros ?; cbv beta].
  - eapply triple_try; [by apply t_upgrade_body|intros e; apply t_rollback].
  - intros ? s1 [? ?]. instantiate (1 := λ _, loaded n). split; [by apply ok_set_fs|done].
  - intros e s1 ?. by apply ok_set_fs.
  - eapply (triple_bind _ _ _ (λ _, loaded n)); [|intros ?; apply t_info].
    destruct (is_enabled _ _); [|by apply t_life; eauto]. next t_life.
    eapply triple_bind; [|intros ?; apply triple_ret]. eapply triple_weaken; [apply t_enable|eauto..].
Qed.

Definition gone (n : string) (s : PM) : Prop := ok s ∧ n ∉ pm_plugins s.

Lemma gone_ok n s : gone n s → ok s.
Proof. by intros []. Qed.
Hint Resolve gone_ok : core.

Lemma state_pop_ne n n' l : n ≠ n' → state n' (dict_pop n l) = state n' l.
Proof. intros. unfold state. by rewrite dict_get_pop_ne. Qed.

(** The plugin and its SDK leave the tables once it is not enabled. *)
Lemma gone_pop n s :
  loaded n s → state n (pm_life s) ≠ ENABLED →
  gone n (set_sdks (dict_pop n (pm_sdks s)) (set_plugins (List.filter (λ x, negb (bool_decide (x = n))) (pm_plugins s)) s)).
Proof.
  intros [[H1 H2 H3 H4 H5] Hn] Hst.
  assert (∀ x, x ∈ List.filter (λ x, negb (bool_decide (x = n))) (pm_plugins s) ↔ x ∈ pm_plugins s ∧ x ≠ n) as Hf.
  { intros x. rewrite list_elem_of_In, filter_In, <- list_elem_of_In, negb_true_iff, bool_decide_eq_false. done. }
  split; [split; simpl; try done; intros x; rewrite ?Hf|simpl; rewrite Hf; tauto].
  - intros [? ?]. auto.
  - intros [? ?]. auto.
  - intros [? ?]. rewrite dict_get_pop_ne by congruence. auto.
  - intros Hx. split; [auto|]. by intros ->.
Qed.

Lemma t_gone n f : (∀ s, gone n s → gone n (f s)) → triple (gone n) (se_do f) (λ _, gone n) E0.
Proof. intros Hf s Hs. by apply Hf. Qed.

Lemma t_uninstall n b : triple ok (uninstall_plugin n b) (λ _, ok) E0.
Proof.
  unfold uninstall_plugin. next t_require. next t_get.
  eapply (triple_bind _ _ _ (λ _, loaded n)); [|intros ?].
  { destruct (is_enabled _ _); [|apply triple_ret]. eapply triple_bind; [|intros ?; apply triple_ret].
    eapply triple_weaken; [apply t_disable|eauto..]. }
  eapply (triple_bind _ _ _ (λ _ s, loaded n s ∧ state n (pm_life s) ≠ ENABLED)); [|intros ?].
  { apply triple_life; [|eauto]. intros s [Hs Hn] _. split; [split; [by apply ok_set_life|done]|].
    simpl. by rewrite state_set, decide_True by done. }
  eapply (triple_bind _ _ _ (λ _ s, loaded n s ∧ state n (pm_life s) ≠ ENABLED)); [|intros ?].
  { eapply (triple_try _ _ _ _ _ (λ _, ok)); [|intros e].
    - apply triple_hook; [intros x bs s [? ?]; split; [by apply loaded_blind|done]| |by intros e s [[] _]].
      intros ls s [? ?]. split; [by apply loaded_set_sdks|done].
    - eapply (triple_bind _ _ _ (λ _, ok)); [apply triple_do; intros; by apply ok_mark_failed|intros ?].
      by apply triple_raise. }
  eapply (triple_bind _ _ _ (λ _ s, loaded n s ∧ state n (pm_life s) ≠ ENABLED)); [by intros s Hs|intros s0].
  eapply (triple_bind _ _ _ (λ _, gone n)); [apply triple_do; intros s [? ?]; by apply gone_pop|intros ?].
  eapply (triple_bind _ _ _ (λ _, gone n)); [|intros ?].
  { destruct (bh_shutdown b); [by apply triple_raise; eauto|apply triple_ret]. }
  next (t_gone n). { intros s [? ?]. split; [by apply ok_blind|done]. }
  next (t_gone n). { intros s [? ?]. split; [by apply ok_set_grants|done]. }
  next (t_gone n).
  { intros s [[H1 H2 H3 H4 H5] Hn].
    assert (gone n (set_dirs (dict_pop n (pm_dirs s)) s)) as Hg.
    { split; [split; try done|done]. intros x Hx. simpl. rewrite dict_get_pop_ne; [by apply H2|]. by intros ->. }
    destruct (dict_get n (pm_dirs s)) as [d|]; [|done]. destruct (truthy d); [|done].
    destruct Hg. split; [by apply ok_set_fs|done]. }
  next (t_gone n).
  { intros s [[H1 H2 H3 H4 H5] Hn]. split; [split; try done|done]. intros x Hx. simpl.
    rewrite dict_get_pop_ne; [by apply H1|]. by intros ->. }
  eapply (triple_bind _ _ _ (λ _, gone n)); [|intros ?].
  { apply triple_life; [|eauto]. intros s [Hs Hn] _. split; [by apply ok_set_life|done]. }
  apply triple_do. intros s [[H1 H2 H3 H4 H5] Hn]. split; try done; simpl; unfold drop_plugin; [|by apply dict_pop_wf].
  intros x. destruct (decide (n = x)) as [->|Hne]; [|rewrite state_pop_ne by done; auto].
  unfold state. by rewrite dict_get_pop_eq.
Qed.

Lemma op_ok o b s : ok s → ok (plugin_op cfg ck o b s).
Proof.
  assert (∀ A (m : M A) (Q : A → PM → Prop), triple ok m Q E0 → (∀ a s, Q a s → ok s) → ok s → ok (m s).2) as Hop.
  { intros A m Q Hm HQ Hs. specialize (Hm s Hs). destruct (m s) as [[a|e] s']; [by eapply HQ|done]. }
  intros Hs. destruct o; simpl; (eapply Hop; [|cbv beta|done]).
  - apply t_install. - done.
  - apply t_enable. - by intros ? ? [].
  - apply t_disable. - by intros ? ? [].
  - apply t_reload. - by intros ? ? [].
  - apply t_upgrade. - by intros ? ? [].
  - apply t_uninstall. - done.
Qed.

Lemma ops_ok l s : ok s → ok (plugin_ops cfg ck l s).
Proof.
  unfold plugin_ops. revert s. induction l as [|[o b] l IH]; intros s Hs; simpl; [done|]. by apply IH, op_ok.
Qed.

Lemma empty_ok : ok empty_pm.
Proof. split; simpl; try done; try by intros ? ?%elem_of_nil. constructor. Qed.

(** (C22) Whatever is installed, enabled, reloaded, upgraded or uninstalled, with
    whatever the code of the plugins does, every loaded plugin can be inspected
    and shows the version and the signature of a manifest that passed validation,
    and, where signatures are required, one whose signature verifies; and only
    loaded plugins are enabled. *)
Theorem plugins_vetted (l : list (PluginOp * Behaviour)) (n : string) :
  let s := plugin_ops cfg ck l empty_pm in
  (n ∈ pm_plugins s →
   ∃ m i, info n s = (Ok i, s) ∧ pi_version i = default "" (mf_version m) ∧
     pi_signature i = default "" (mf_signature m) ∧ validate_manifest m = [] ∧
     (gf_require_signatures cfg = true →
      ∃ sig, mf_signature m = Some sig ∧ verify_payload m sig (gf_signature_secret cfg) = true)) ∧
  (state n (pm_life s) = ENABLED → n ∈ pm_plugins s).
Proof.
  intros s. destruct (ops_ok l empty_pm empty_ok) as [H1 H2 H3 H4 H5]. fold s in H1, H2, H3, H4. split; [|apply H4].
  intros Hn. destruct (H1 n Hn) as (m & Hm & Hv & Hg). eexists m, _. split.
  { unfold info, require, get_spec, mbind, SE_bind. rewrite decide_True by done. rewrite Hm. reflexivity. }
  split_and!; [done..|]. intros Hr. rewrite Hr in Hg. by apply verify_signed.
Qed.
End Guarantees.

(** ** Plugins do not touch each other *)

Section Isolation.
Context `{MM : !ManifestMac} (cfg : PluginConfig) (ck : Checker).

(** Two states agree on a plugin, the contents of its directory aside. *)
Record same_plugin (n : string) (s t : PM) : Prop := {
  same_loaded : n ∈ pm_plugins s ↔ n ∈ pm_plugins t;
  same_spec : dict_get n (pm_specs s) = dict_get n (pm_specs t);
  same_sdk : dict_get n (pm_sdks s) = dict_get n (pm_sdks t);
  same_dir : dict_get n (pm_dirs s) = dict_get n (pm_dirs t);
  same_state : state n (pm_life s) = state n (pm_life t);
  same_ext : list_by_plugin n (pm_ext s) = list_by_plugin n (pm_ext t);
  same_grants r a : check_permission n r a (pm_grants s) = check_permission n r a (pm_grants t)
}.

Context (n n' : string) (Hne : n ≠ n') (s0 : PM).

Notation same := (same_plugin n' s0).

Lemma by_plugin_set k nm (e : Extension) (x : Extensions) :
  ex_plugin e ≠ n' → dict_get nm (default [] (dict_get k x)) = None →
  list_by_plugin n' (dict_set k (dict_set nm e (default [] (dict_get k x))) x) = list_by_plugin n' x.
Proof.
  intros He. unfold list_by_plugin, all_extensions.
  assert (∀ b : dict string Extension, dict_get nm b = None → dict_set nm e b = (b ++ [(nm, e)])%list) as Hf.
  { intros b. induction b as [|[k' v'] b IH]; simpl; [done|]. case_decide; [done|]. intros Hb. by rewrite IH. }
  assert (∀ b : dict string Extension, dict_get nm b = None →
    List.filter (λ e, bool_decide (ex_plugin e = n')) (dict_values (dict_set nm e b)) =
    List.filter (λ e, bool_decide (ex_plugin e = n')) (dict_values b)) as Hb.
  { intros b Hb. rewrite Hf by done. unfold dict_values. rewrite fmap_app, List.filter_app. simpl.
    rewrite bool_decide_false by done. by rewrite app_nil_r. }
  induction x as [|[k' b'] x IH]; simpl.
  - intros _. by rewrite bool_decide_false.
  - case_decide; simpl; rewrite !List.filter_app; intros Hk; [by rewrite Hb|]. by rewrite IH.
Qed.

Lemma same_register k nm x s :
  register_extension (mk_ext k nm n) (pm_ext s) = Ok x → ∀ b, same s → same (set_ext x b s).
Proof.
  unfold register_extension. simpl. destruct (dict_get nm _) eqn:E; [done|]. intros [= <-] b [H1 H2 H3 H4 H5 H6 H7].
  split; try done. simpl. by rewrite by_plugin_set.
Qed.

Lemma same_perform rs ls s : same s → same (perform_all n rs ls s).2.
Proof.
  revert ls s. induction rs as [|r rs IH]; intros ls s Hs; simpl; [done|]. unfold perform.
  destruct r as [k nm|ev h nm];
    (destruct (register_extension _ _) as [x|] eqn:E; [apply IH; by eapply same_register|done]).
Qed.

Lemma same_set_sdks x s : (dict_get n' x = dict_get n' (pm_sdks s)) → same s → same (set_sdks x s).
Proof. intros Hx [H1 H2 H3 H4 H5 H6 H7]. split; try done. simpl. congruence. Qed.
Lemma same_set_fs x s : same s → same (set_fs x s).
Proof. intros [H1 H2 H3 H4 H5 H6 H7]. by split. Qed.
Lemma same_set_entries x s : same s → same (set_market x s).
Proof. intros [H1 H2 H3 H4 H5 H6 H7]. by split. Qed.
Lemma same_set_dirs x s : (dict_get n' x = dict_get n' (pm_dirs s)) → same s → same (set_dirs x s).
Proof. intros Hx [H1 H2 H3 H4 H5 H6 H7]. split; try done. simpl. congruence. Qed.
Lemma same_set_specs x s : (dict_get n' x = dict_get n' (pm_specs s)) → same s → same (set_specs x s).
Proof. intros Hx [H1 H2 H3 H4 H5 H6 H7]. split; try done. simpl. congruence. Qed.
Lemma same_set_plugins x s : (n' ∈ x ↔ n' ∈ pm_plugins s) → same s → same (set_plugins x s).
Proof. intros Hx [H1 H2 H3 H4 H5 H6 H7]. split; try done. simpl. by rewrite Hx. Qed.
Lemma same_set_life x s : (state n' x = state n' (pm_life s)) → same s → same (set_life x s).
Proof. intros Hx [H1 H2 H3 H4 H5 H6 H7]. split; try done. simpl. congruence. Qed.
Lemma same_set_grants x s :
  (∀ r a, check_permission n' r a x = check_permission n' r a (pm_grants s)) → same s → same (set_grants x s).
Proof. intros Hx [H1 H2 H3 H4 H5 H6 H7]. split; try done. intros r a. simpl. by rewrite Hx. Qed.

Lemma same_mark_failed s : same s → same (mark_failed n s).
Proof.
  intros Hs. unfold mark_failed, transition. case_decide; [|done]. apply same_set_life; [|done].
  by rewrite state_set, decide_False.
Qed.

Lemma same_detach ls s : same s → same (detach n ls s).
Proof.
  intros Hs. unfold detach. apply same_set_sdks; [by rewrite dict_get_set_ne|].
  destruct Hs as [H1 H2 H3 H4 H5 H6 H7]. split; try done. simpl. by rewrite list_by_other by done.
Qed.

Lemma same_attach ls s : same s → same (attach n ls s).
Proof.
  intros Hs. unfold attach. apply same_set_sdks; [by rewrite dict_get_set_ne|].
  apply same_set_plugins; [|done]. rewrite plugins_add. naive_solver.
Qed.

Lemma same_grant m s : same s → same (set_grants (grant_from_manifest n (mf_permissions m) (pm_grants s)) s).
Proof.
  intros Hs. apply same_set_grants; [|done]. intros r a. apply eq_true_iff_eq. rewrite check_grant_from_manifest.
  naive_solver.
Qed.

(** Each step of an operation on [n] *)
Lemma i_do f : (∀ s, same s → same (f s)) → se_inv same (se_do f).
Proof. intros Hf s Hs. by apply Hf. Qed.
Lemma i_read {A} (f : PM → result PluginErr A) : se_inv same (λ s, (f s, s)).
Proof. by intros s Hs. Qed.
Lemma i_raise {A} e : se_inv same (se_raise e : M A).
Proof. by intros s Hs. Qed.
Lemma i_life st : se_inv same (life_to n st).
Proof.
  intros s Hs. unfold life_to, transition. case_decide; [|done]. apply same_set_life; [|done].
  by rewrite state_set, decide_False.
Qed.
Lemma i_load dir oc : se_inv same (load_plugin n dir oc).
Proof.
  intros s Hs. unfold load_plugin. destruct (_ ≫= _); [|done].
  pose proof (same_perform (oc_regs oc) [] s Hs) as H. destruct (perform_all _ _ _ s) as [[o ls] s']. simpl in *.
  destruct o; simpl; [|done]. by destruct (oc_error oc).
Qed.
Lemma i_hook oc : se_inv same (run_plugin_hook n oc).
Proof.
  intros s Hs. unfold run_plugin_hook. case_decide; [|done].
  pose proof (same_perform (oc_regs oc) (default [] (dict_get n (pm_sdks s))) s Hs) as H1.
  destruct (perform_all _ _ _ s) as [[o ls] s']. simpl in H1.
  assert (same (set_sdks (dict_set n ls (pm_sdks s')) s')) as H2 by (apply same_set_sdks; [by rewrite dict_get_set_ne|done]).
  destruct o; simpl; [|done]. by destruct (oc_error oc).
Qed.
Lemma i_copy_contents b d dst : se_inv same (copy_contents b d dst).
Proof.
  intros s Hs. unfold copy_contents. destruct (bh_copy b dst) as [[p|]|]; [by apply same_set_fs|done|by apply same_set_fs].
Qed.
Lemma i_copy b src dst : se_inv same (copy_dir b src dst).
Proof. intros s Hs. unfold copy_dir. destruct (dict_get src (pm_fs s)); [by apply i_copy_contents|done]. Qed.
Lemma i_replace dir m : se_inv same (replace_files dir m).
Proof. intros s Hs. unfold replace_files. destruct (dict_get dir (pm_fs s)); [by apply same_set_fs|done]. Qed.
Lemma i_try {A} (m : M A) h : se_inv same m → (∀ e, se_inv same (h e)) → se_inv same (se_try m h).
Proof.
  intros Hm Hh s Hs. specialize (Hm s Hs). unfold se_try. destruct (m s) as [[a|e] s']; [done|]. by apply Hh.
Qed.
Lemma i_finally {A} (m : M A) f : se_inv same m → (∀ s, same s → same (f s)) → se_inv same (se_finally m f).
Proof. intros Hm Hf s Hs. specialize (Hm s Hs). unfold se_finally. destruct (m s) as [r s']. simpl in *. auto. Qed.

Ltac iso :=
  repeat first
    [ apply se_inv_bind; [|intros ?]
    | apply i_try; [|intros ?] | apply i_finally
    | apply i_life | apply i_load | apply i_hook | apply i_copy | apply i_replace
    | apply i_raise | apply se_inv_ret | apply i_read
    | apply i_do; intros ? ?; first [by apply same_detach | by apply same_attach | by apply same_grant
                                    | by apply same_mark_failed | by apply same_set_fs
                                    | apply same_set_specs; [simpl; by rewrite dict_get_set_ne|done]]
    | case_match ].

Lemma i_info : se_inv same (info n).
Proof. unfold info, require, get_spec, se_get. iso. Qed.

Lemma i_enable b : se_inv same (enable_plugin n b).
Proof. unfold enable_plugin, info, require, get_spec, se_get. iso. Qed.

Lemma i_disable b : se_inv same (disable_plugin n b).
Proof. unfold disable_plugin, info, require, get_spec, se_get. iso. Qed.

Lemma i_enable_if b (c : bool) : se_inv same (if c then enable_plugin n b ;; mret () else mret ()).
Proof. destruct c; [apply se_inv_bind; [apply i_enable|intros ?]|]; apply se_inv_ret. Qed.

Lemma i_install_body dir m b : se_inv same (install_body cfg ck n dir m b).
Proof.
  unfold install_body, validate_for, verify_for.
  repeat (apply se_inv_bind; [iso; done|intros ?]).
  apply se_inv_bind; [|intros ?; iso].
  apply i_do. intros s Hs. apply same_set_specs; [simpl; by rewrite dict_get_set_ne|].
  apply same_set_dirs; [by rewrite dict_get_set_ne|done].
Qed.

Lemma i_reload b : se_inv same (reload_plugin ck n b).
Proof.
  unfold reload_plugin, require, validate_for, read_manifest, get_dir, get_sdk, se_get.
  repeat first [apply i_enable_if | apply i_info | apply i_raise | case_decide | apply se_inv_bind; [|intros ?] | progress iso].
Qed.

Lemma i_rollback backup b : se_inv same (rollback_upgrade n backup b : M unit).
Proof. unfold rollback_upgrade, restore_body, get_dir, get_sdk, read_manifest. iso. Qed.

Lemma i_upgrade m b : se_inv same (upgrade_plugin cfg ck n m b).
Proof.
  unfold upgrade_plugin, require, get_spec, newer_version, validate_for, verify_for, get_dir, se_get.
  repeat first [apply i_info | apply se_inv_bind; [|intros ?]
    | apply i_finally; [apply i_try; [|intros ?; apply i_rollback]|intros ? ?; by apply same_set_fs]
    | progress iso].
Qed.

Lemma i_uninstall b : se_inv same (uninstall_plugin n b).
Proof.
  unfold uninstall_plugin, require, se_get.
  apply se_inv_bind; [iso|intros ?]. apply se_inv_bind; [iso|intros ?].
  apply se_inv_bind. { case_match; [apply se_inv_bind; [apply i_disable|intros ?]|]; apply se_inv_ret. }
  intros ?. apply se_inv_bind; [iso|intros ?]. apply se_inv_bind; [iso|intros ?]. apply se_inv_bind; [iso|intros ?].
  apply se_inv_bind; [|intros ?].
  { apply i_do. intros s Hs. apply same_set_sdks; [simpl; by rewrite dict_get_pop_ne|]. apply same_set_plugins; [|done].
    rewrite list_elem_of_In, filter_In, <- list_elem_of_In, negb_true_iff, bool_decide_eq_false. naive_solver. }
  apply se_inv_bind; [iso|intros ?]. apply se_inv_bind; [|intros ?].
  { apply i_do. intros s [H1 H2 H3 H4 H5 H6 H7]. split; try done. simpl. by rewrite list_by_other by done. }
  apply se_inv_bind; [|intros ?].
  { apply i_do. intros s Hs. apply same_set_grants; [|done]. intros r act. unfold revoke_permission, check_permission.
    destruct (dict_get n (pm_grants s)); [|done]. simpl. by rewrite dict_get_pop_ne. }
  apply se_inv_bind; [|intros ?].
  { apply i_do. intros s Hs. assert (same (set_dirs (dict_pop n (pm_dirs s)) s)) as H.
    { apply same_set_dirs; [by rewrite dict_get_pop_ne|done]. }
    destruct (dict_get n (pm_dirs s)) as [d|]; [|done]. destruct (truthy d); [by apply same_set_fs|done]. }
  apply se_inv_bind; [|intros ?].
  { apply i_do. intros s Hs. apply same_set_specs; [by rewrite dict_get_pop_ne|done]. }
  apply se_inv_bind; [iso|intros ?]. apply i_do. intros s Hs. apply same_set_life; [|done].
  unfold drop_plugin. by rewrite state_pop_ne.
Qed.
End Isolation.

Section Others.
Context `{MM : !ManifestMac} (cfg : PluginConfig) (ck : Checker).

Lemma materialize_same n' s0 src b : se_inv (same_plugin n' s0) (materialize cfg ck src b).
Proof.
  assert (∀ dir d, se_inv (same_plugin n' s0) (se_do (write_dir dir d))) as Hw.
  { intros dir d s Hs. by apply same_set_fs. }
  assert (∀ m, se_inv (same_plugin n' s0) (manifest_name m)) as Hn.
  { intros m s Hs. unfold manifest_name. by destruct (mf_name m). }
  destruct src as [m|d|id]; simpl.
  - destruct (mf_plugin_code m); [|by intros s Hs]. apply se_inv_bind; [done|intros ?].
    apply se_inv_bind; [by intros s1 Hs|intros ?]. apply se_inv_bind; [done|intros ?]. apply se_inv_ret.
  - destruct (df_manifest d); [|by intros s Hs]. apply se_inv_bind; [done|intros ?].
    apply se_inv_bind; [by intros s Hs|intros ?]. apply se_inv_bind; [apply i_copy_contents|intros ?].
    apply se_inv_ret.
  - apply se_inv_bind; [|intros ?; apply se_inv_bind; [by intros s Hs|intros ?; apply se_inv_ret]].
    intros s Hs. unfold install_entry. destruct (get_entry id (pm_entries s)); [|done].
    destruct (entry_installable _ _ _ _ _); [|done]. by apply same_set_entries, same_set_fs.
Qed.

(** The plugin an operation is about; that of an installation is named by its manifest. *)
Definition subject (o : PluginOp) (b : Behaviour) (s : PM) : option string :=
  match o with
  | OpInstall src _ => match (materialize cfg ck src b s).1 with Ok (_, m) => mf_name m | Err _ => None end
  | OpEnable n | OpDisable n | OpReload n | OpUpgrade n _ | OpUninstall n => Some n
  end.

End Others.

(** ** A failed upgrade is undone *)

Section Rollback.
Context `{MM : !ManifestMac} (cfg : PluginConfig) (ck : Checker) (n dir : string) (b : Behaviour)
  (d : PluginDir) (sp : option PluginSpec).

Notation backup := (backup_of dir).

Lemma backup_ne : backup ≠ dir.
Proof. unfold backup_of. induction dir as [|a x IH]; [done|]. intros [= H]. by apply IH. Qed.

(** The plugin is in the tables with its old specification, in the given status. *)
Record held (st : PluginStatus) (s : PM) : Prop := {
  held_spec : dict_get n (pm_specs s) = sp;
  held_dir : dict_get n (pm_dirs s) = Some dir;
  held_state : state n (pm_life s) = st;
  held_loaded : n ∈ pm_plugins s
}.

Definition saved (st : PluginStatus) (s : PM) : Prop := held st s ∧ dict_get backup (pm_fs s) = Some d.
Definition restored (st : PluginStatus) (s : PM) : Prop := held st s ∧ dict_get dir (pm_fs s) = Some d.

(** What is raised when the upgrade fails, and what holds then *)
Definition undone (e : PluginErr) (s : PM) : Prop :=
  e = PluginRollbackError → ∃ st, st ∈ [ROLLED_BACK; FAILED] ∧ restored st s.

Lemma held_steps st s :
  held st s →
  (∀ x bs, held st (set_ext x bs s)) ∧ (∀ x, held st (set_sdks x s)) ∧ (∀ x, held st (set_grants x s)) ∧
  (∀ x, held st (set_fs x s)) ∧ (∀ ls, held st (detach n ls s)) ∧ (∀ ls, held st (attach n ls s)).
Proof.
  intros [H1 H2 H3 H4]. split_and!; intros; split; simpl; try done. apply plugins_add. by right.
Qed.

(** A predicate that the steps between a detachment and the next one keep *)
Definition kept (P : PM → Prop) : Prop :=
  ∀ s, P s →
    (∀ x bs, P (set_ext x bs s)) ∧ (∀ x, P (set_sdks x s)) ∧ (∀ x, P (set_grants x s)) ∧
    (∀ ls, P (detach n ls s)) ∧ (∀ ls, P (attach n ls s)).

Lemma saved_kept st : kept (saved st).
Proof. intros s [Hh Hf]. destruct (held_steps st s Hh) as (?&?&?&?&?&?). split_and!; intros; split; auto. Qed.
Lemma restored_kept st : kept (restored st).
Proof. intros s [Hh Hf]. destruct (held_steps st s Hh) as (?&?&?&?&?&?). split_and!; intros; split; auto. Qed.

Lemma held_life st st' s : held st s → held st' (set_life (dict_set n st' (pm_life s)) s).
Proof. intros [H1 H2 H3 H4]. split; try done. simpl. by rewrite state_set, decide_True. Qed.

Section Kept.
Context (P : PM → Prop) (HP : kept P).
Lemma k_detach ls : triple P (se_do (detach n ls)) (λ _, P) (λ _, P).
Proof. intros s Hs. destruct (HP s Hs) as (?&?&?&?&?). simpl. auto. Qed.
Lemma k_attach ls : triple P (se_do (attach n ls)) (λ _, P) (λ _, P).
Proof. intros s Hs. destruct (HP s Hs) as (?&?&?&?&?). simpl. auto. Qed.
Lemma k_grants m : triple P (se_do (λ s, set_grants (grant_from_manifest n (mf_permissions m) (pm_grants s)) s)) (λ _, P) (λ _, P).
Proof. intros s Hs. destruct (HP s Hs) as (?&?&?&?&?). simpl. auto. Qed.
Lemma k_load x oc : triple P (load_plugin n x oc) (λ _, P) (λ _, P).
Proof. apply triple_load; [|done]. intros ? ? s Hs. by apply HP. Qed.
Lemma k_hook oc : triple P (run_plugin_hook n oc) (λ _, P) (λ _, P).
Proof. apply triple_hook; [|intros ? s Hs; by apply HP|done]. intros ? ? s Hs. by apply HP. Qed.
Lemma k_read {A} (f : PM → result PluginErr A) : triple P (λ s, (f s, s)) (λ _, P) (λ _, P).
Proof. intros s Hs. by destruct (f s). Qed.
End Kept.

Lemma body_saved m :
  triple (saved UPDATING) (upgrade_body n dir m b) (λ _ _, True) (λ _, saved UPDATING).
Proof.
  pose proof (saved_kept UPDATING) as HK. unfold upgrade_body.
  eapply (triple_bind _ _ _ (λ _, saved UPDATING)); [|intros ?].
  { intros s [Hh Hf]. unfold replace_files. destruct (dict_get dir (pm_fs s)); [|done].
    split; [by apply (held_steps UPDATING s)|]. simpl. rewrite dict_get_set_ne by (apply not_eq_sym, backup_ne). done. }
  next k_read. next k_detach. next k_load. next k_attach. next k_grants. next k_hook. done.
Qed.

(** The copy back to the directory of the plugin succeeds. *)
Context (Hcopy : bh_copy b dir = None).

Lemma rollback_undone : triple (saved UPDATING) (rollback_upgrade n backup b : M unit) (λ _ _, True) undone.
Proof.
  pose proof (restored_kept ROLLING_BACK) as HK. unfold rollback_upgrade.
  eapply (triple_bind _ _ _ (λ _, saved ROLLING_BACK)); [|intros ?].
  { apply triple_life; [|by intros]. intros s [Hh Hf] _. split; [by eapply held_life|done]. }
  eapply (triple_bind _ _ _ (λ a s, saved ROLLING_BACK s ∧ a = dir)); [|intros dir'].
  { intros s Hs. unfold get_dir. destruct Hs as [[H1 H2 H3 H4] Hf]. rewrite H2. by split. }
  apply triple_pure. intros ->.
  eapply (triple_bind _ _ _ (λ _ s, ∃ st, st ∈ [ROLLED_BACK; FAILED] ∧ restored st s)).
  2: { intros ?. apply triple_raise. intros s Hs _. exact Hs. }
  eapply (triple_try _ _ _ _ _ (λ _, restored ROLLING_BACK)); [|intros e].
  - unfold restore_body. eapply (triple_bind _ _ _ (λ _, saved ROLLING_BACK)); [|intros ?].
    { apply triple_do. intros s [Hh Hf]. split; [by apply (held_steps ROLLING_BACK s)|].
      simpl. rewrite dict_get_pop_ne by (apply not_eq_sym, backup_ne). done. }
    eapply (triple_bind _ _ _ (λ _, restored ROLLING_BACK)); [|intros ?].
    { intros s [Hh Hf]. unfold copy_dir. rewrite Hf. unfold copy_contents. rewrite Hcopy. split; [by apply (held_steps ROLLING_BACK s)|]. simpl. apply dict_get_set_eq. }
    next k_read. next k_read. next k_detach. next k_load. next k_attach. next k_grants.
    apply triple_life; [|done]. intros s [Hh Hf] _. exists ROLLED_BACK. split; [by left|]. split; [by eapply held_life|done].
  - apply triple_do. intros s [Hh Hf]. exists FAILED. split; [by right; left|]. unfold mark_failed, transition.
    rewrite (held_state _ _ Hh). rewrite decide_True by (simpl; set_solver). split; [by eapply held_life|done].
Qed.

(** Nothing else an upgrade runs raises [PluginRollbackError]. *)
Notation other := (λ (e : PluginErr) (_ : PM), e ≠ PluginRollbackError).

Lemma o_life n' st : triple (λ _, True) (life_to n' st) (λ _ _, True) other.
Proof. by apply triple_life. Qed.
Lemma o_info : triple (λ _, True) (info n) (λ _ _, True) other.
Proof.
  intros s _. unfold info, require, get_spec, mbind, SE_bind. case_decide; [|done]. by destruct (dict_get n (pm_specs s)).
Qed.
Lemma o_hook oc : triple (λ _, True) (run_plugin_hook n oc) (λ _ _, True) other.
Proof.
  intros s _. unfold run_plugin_hook. case_decide; [|done]. destruct (perform_all _ _ _ s) as [[o ls] s'].
  destruct o; simpl; [|done]. by destruct (oc_error oc).
Qed.
Lemma o_enable : triple (λ _, True) (enable_plugin n b) (λ _ _, True) other.
Proof.
  unfold enable_plugin. eapply (triple_bind _ _ _ (λ _ _, True)); [intros s _; unfold require; by case_decide|intros ?].
  eapply (triple_bind _ _ _ (λ _ _, True)); [done|intros ?]. destruct (is_enabled _ _); [apply o_info|].
  eapply (triple_bind _ _ _ (λ _ _, True)); [apply o_life|intros ?].
  eapply (triple_bind _ _ _ (λ _ _, True)); [|intros ?].
  { eapply triple_try; [apply o_hook|]. intros e s He. done. }
  eapply (triple_bind _ _ _ (λ _ _, True)); [apply o_life|intros ?]. apply o_info.
Qed.
End Rollback.

Section Undone.
Context `{MM : !ManifestMac} (cfg : PluginConfig) (ck : Checker).

(** The steps before the upgrade starts leave the state alone and raise
    something else than [PluginRollbackError]. *)
Lemma u_read {A} s0 (f : PM → result PluginErr A) :
  (∀ s e, f s = Err e → e ≠ PluginRollbackError) →
  triple (λ s, s = s0) (λ s, (f s, s)) (λ a s, s = s0 ∧ f s0 = Ok a) (λ e _, e ≠ PluginRollbackError).
Proof. intros Hf s ->. destruct (f s0) eqn:E; [done|]. by eapply Hf. Qed.

Lemma upgrade_undone n m b dir d s0 :
  bh_copy b dir = None → dict_get n (pm_dirs s0) = Some dir → dict_get dir (pm_fs s0) = Some d →
  triple (λ s, s = s0) (upgrade_plugin cfg ck n m b) (λ _ _, True) (undone n dir d (dict_get n (pm_specs s0))).
Proof.
  intros Hcopy Hdir Hd.
  assert (∀ A B (x : M A) (f : A → M B) Q,
    triple (λ s, s = s0) x (λ a s, s = s0 ∧ Q a) (λ e _, e ≠ PluginRollbackError) →
    (∀ a, Q a → triple (λ s, s = s0) (f a) (λ _ _, True) (undone n dir d (dict_get n (pm_specs s0)))) →
    triple (λ s, s = s0) (x ≫= f) (λ _ _, True) (undone n dir d (dict_get n (pm_specs s0)))) as Hstep.
  { intros A B x f Q Hx Hf. eapply triple_bind; [eapply triple_weaken; [exact Hx|done|done|]|].
    - by intros e s He ?.
    - intros a. apply triple_pure. apply Hf. }
  unfold upgrade_plugin. eapply Hstep; [apply u_read; intros s e; case_decide; by intros [= <-]|intros [] Hn].
  assert (n ∈ pm_plugins s0) as Hload by by case_decide.
  destruct (mf_plugin_code m); [|by intros s _].
  eapply Hstep; [apply u_read; intros s1 e; destruct (dict_get n (pm_specs s1)); by intros [= <-]|intros cur _].
  eapply (Hstep _ _ _ _ (λ _, True)).
  { unfold newer_version. destruct (compare_versions _ _) as [c|]; [destruct (c <=? 0)|]; intros s1 Hs; by rewrite ?Hs. }
  intros [] _. eapply Hstep.
  { apply u_read. intros s1 e. unfold validate_spec. destruct (validate_manifest m); [|by intros [= <-]].
    destruct (check_compat _ _ _) as [[]|]; by intros [= <-]. }
  intros [] _. eapply Hstep.
  { apply u_read. intros s1 e. unfold verify_manifest. destruct (_ && _); [by intros [= <-]|].
    destruct (_ && _); by intros [= <-]. }
  intros [] _. eapply (Hstep _ _ _ _ (λ a, a = s0)); [by intros s1 ->|intros ? ->].
  eapply (Hstep _ _ _ _ (λ a, a = dir)); [intros s1 ->; unfold get_dir; by rewrite Hdir|intros ? ->].
  pose (sp := dict_get n (pm_specs s0)). pose (st := state n (pm_life s0)).
  eapply (triple_bind _ _ _ (λ _ s, held n dir sp st s ∧ dict_get dir (pm_fs s) = Some d)); [|intros []].
  { apply triple_do. intros s1 ->. split; [by split|]. simpl. by rewrite dict_get_pop_ne by apply backup_ne. }
  eapply (triple_bind _ _ _ (λ _ s, saved n dir d sp st s)); [|intros []].
  { intros s1 [Hh Hf]. unfold copy_dir. rewrite Hf. unfold copy_contents.
    destruct (bh_copy b (backup_of dir)) as [[p|]|]; [done..|]. split; [by apply (held_steps n dir sp st s1)|]. simpl. apply dict_get_set_eq. }
  eapply (triple_bind _ _ _ (λ _ s, saved n dir d sp UPDATING s)); [|intros []].
  { apply triple_life; [|by intros]. intros s1 [Hh Hf] _. split; [by eapply held_life|done]. }
  eapply (triple_bind _ _ _ (λ _ _, True)); [|intros []].
  { eapply (triple_finally _ _ _ _ (λ _ _, True)); [|done|].
    - eapply triple_try; [apply body_saved|intros e; by apply rollback_undone].
    - intros e s1 Hu He. destruct (Hu He) as (st' & Hst & Hh & Hf). exists st'. split; [done|].
      split; [by apply (held_steps n dir sp st' s1)|]. simpl. by rewrite dict_get_pop_ne by apply backup_ne. }
  eapply triple_weaken with (P' := λ _, True) (Q' := λ _ _, True) (E' := λ e _, e ≠ PluginRollbackError); [|done|done|by intros e s1 He ?].
  eapply (triple_bind _ _ _ (λ _ _, True)); [|intros ?; apply o_info].
  destruct (is_enabled _ _); [|apply o_life]. eapply (triple_bind _ _ _ (λ _ _, True)); [apply o_life|intros ?].
  eapply (triple_bind _ _ _ (λ _ _, True)); [apply o_enable|by intros ? ?].
Qed.

(** (C23) A failed upgrade is undone: when [upgrade] raises [PluginRollbackError], at
    whatever point the new code failed and whatever the restored code did, and
    the directory tree could be copied back, the directory has its old manifest
    and code, the plugin its old specification, and it is loaded and rolled
    back, or failed. *)
Theorem failed_upgrade_undone n m b s s' dir :
  bh_copy b dir = None →
  upgrade_plugin cfg ck n m b s = (Err PluginRollbackError, s') →
  dict_get n (pm_dirs s) = Some dir → is_Some (dict_get dir (pm_fs s)) →
  dict_get dir (pm_fs s') = dict_get dir (pm_fs s) ∧ dict_get n (pm_specs s') = dict_get n (pm_specs s) ∧
  n ∈ pm_plugins s' ∧ (state n (pm_life s') = ROLLED_BACK ∨ state n (pm_life s') = FAILED).
Proof.
  intros Hcopy Hu Hdir [d Hd]. pose proof (upgrade_undone n m b dir d s Hcopy Hdir Hd s eq_refl) as H. rewrite Hu in H.
  destruct (H eq_refl) as (st & Hst & [H1 H2 H3 H4] & Hf). rewrite Hd, H1, H3. split_and!; [done..|].
  set_solver.
Qed.
End Undone.

Section Witnesses.
#[local] Instance witness_mac : ManifestMac := {| manifest_mac := λ secret m, secret +:+ default "" (mf_name m) |}.

Definition witness_state : PM :=
  plugin_ops demo_pconfig demo_checker
    [(OpInstall (FromSpec (demo_manifest "p" "1.0.0" [])) None, quiet);
     (OpInstall (FromSpec (demo_manifest "q" "1.0.0" [mk_perm (Some "network") ["call"]])) None, quiet)] empty_pm.

Definition witness_upgrade : Manifest := demo_manifest "p" "1.1.0" [].
End Witnesses.


Lemma failed_upgrade_undone_witness :
  let r := @upgrade_plugin witness_mac demo_pconfig demo_checker "p" witness_upgrade (failing "on_upgrade") witness_state in
  r.1 = Err PluginRollbackError ∧
  dict_get "p" (pm_fs r.2) = dict_get "p" (pm_fs witness_state) ∧
  dict_get "p" (pm_specs r.2) = dict_get "p" (pm_specs witness_state) ∧ "p" ∈ pm_plugins r.2 ∧
  (state "p" (pm_life r.2) = ROLLED_BACK ∨ state "p" (pm_life r.2) = FAILED).
Proof.
  intros r. split; [vm_compute; reflexivity|].
  refine (@failed_upgrade_undone witness_mac demo_pconfig demo_checker "p" witness_upgrade (failing "on_upgrade") witness_state
    r.2 "p" _ _ _ _); [reflexivity|vm_compute; reflexivity|reflexivity|vm_compute; eexists; reflexivity].
Defined.

(** When the copy back fails, the upgrade reports that it was rolled back all the
    same; the plugin has failed, its directory is gone, and so is the backup. *)
Example restore_failure_loses_code :
  let b := mk_behaviour silent silent (λ h, if decide (h = "on_upgrade") then mk_outcome [] (Some "boom") else silent) None
             (λ dir, if decide (dir = "p") then Some None else None) in
  let r := @upgrade_plugin witness_mac demo_pconfig demo_checker "p" witness_upgrade b witness_state in
  r.1 = Err PluginRollbackError ∧ dict_get "p" (pm_fs r.2) = None ∧
  dict_get (backup_of "p") (pm_fs r.2) = None ∧ state "p" (pm_life r.2) = FAILED.
Proof. vm_compute. done. Qed.

(** Signatures are required: the signed plugin is in, the unsigned one is not. *)
Lemma plugins_vetted_witness :
  let cfg := mk_pconfig "k" true true 100 in
  let m := mk_manifest (Some "p") (Some "1.0.0") (Some "create_plugin") "" "" [] "" [] (Some "kp") (Some "code") in
  let l := [(OpInstall (FromSpec m) None, quiet); (OpInstall (FromSpec (demo_manifest "q" "1.0.0" [])) None, quiet)] in
  let s := @plugin_ops witness_mac cfg demo_checker l empty_pm in
  pm_plugins s = ["p"] ∧
  ∃ m i, info "p" s = (Ok i, s) ∧ pi_version i = default "" (mf_version m) ∧
    pi_signature i = default "" (mf_signature m) ∧ validate_manifest m = [] ∧
    (true = true → ∃ sig, mf_signature m = Some sig ∧ @verify_payload witness_mac m sig "k" = true).
Proof.
  intros cfg m l s. split; [vm_compute; reflexivity|].
  apply (proj1 (@plugins_vetted witness_mac cfg demo_checker l "p")). vm_compute. left.
Defined.
End PluginManagerSpec.
