(* ===== verification/Orchestration.v ===== *)
(** * The orchestration engine: memory, budgets, plans and agents

    - [PyRepr]: [str] of the values a memory holds ([repr] of floats and
      strings included).
    - [ExecMemory]: [ExecutionMemory] of [src/app/orchestration/memory.py].
    - [Budget]: [BudgetManager] of [src/app/orchestration/budget.py].
    - [Planner]: [Planner] of [src/app/orchestration/planner.py] and the
      choice of a plan in [orchestrate] of [orchestrator.py].
    - [Agents]: the agents and their registry, [agents.py].
    - [PlanExec]: [execute_plan] of [executor.py] with the two ways of running
      the steps, and [_run_plan_mode] over the memory that the requests of an
      orchestrator share.

    What [AIRouter.chat] answers is an argument, [chat n request] for the
    [n]-th request.  The parallel execution follows a schedule, an argument
    too: a list of step numbers, the first occurrence of a number runs the
    step up to its request, the second from the answer to its end.

    Identifiers, timestamps and metrics are left out, and text is ASCII. *)

From Stdlib Require Import ZArith Lia Ascii.
From Stdlib Require Import SpecFloat.
From stdpp Require Import base numbers strings pretty gmap list.
From S2P Require Import Prelude PyFloat PyNum PyMath PyStr PyDict ModelRouter.

Open Scope string_scope.
Open Scope Z_scope.

(** * [str] and [repr] *)

Module PyRepr.

Definition num_digits (z : Z) : Z := Z.of_nat (String.length (str_of_Z z)).

(** The [x] with [10^x <= n/d < 10^(x+1)]. *)
Definition magnitude (n d : Z) : Z :=
  if d <=? n then num_digits (n / d) - 1 else - num_digits ((d + n - 1) / n - 1).

(** [n/d] rounded to [p] significant digits: [r] of [r * 10^-s]. *)
Definition sig_digits (n d p : Z) : Z * Z :=
  let s := p - 1 - magnitude n d in
  (if 0 <=? s then div_half_even (n * 10 ^ s) d else div_half_even n (d * 10 ^ (- s)), s).

Definition of_decimal (r s : Z) : result ArithError float :=
  int_truediv (r * 10 ^ Z.max (- s) 0) (10 ^ Z.max s 0).

(** The fewest digits, at most 17, that are read back as the same float. *)
Fixpoint shortest (fuel : nat) (f : float) (n d p : Z) : Z * Z :=
  match fuel with
  | O => sig_digits n d p
  | S fuel =>
      let '(r, s) := sig_digits n d p in
      match of_decimal r s with
      | Ok g => if feq g f then (r, s) else shortest fuel f n d (p + 1)
      | Err _ => shortest fuel f n d (p + 1)
      end
  end.

Fixpoint zeros (n : nat) : string := match n with O => "" | S n => String "0" (zeros n) end.

Fixpoint text_take (n : nat) (s : string) : string :=
  match n, s with S n, String a s => String a (text_take n s) | _, _ => EmptyString end.

Fixpoint text_drop (n : nat) (s : string) : string :=
  match n, s with S n, String _ s => text_drop n s | _, _ => s end.

(** [ds] are the digits, the value is [0.ds * 10^point]. *)
Definition format_digits (ds : string) (point : Z) : string :=
  let len := Z.of_nat (String.length ds) in
  if (-4 <? point) && (point <=? 16) then
    if point <=? 0 then "0." +:+ zeros (Z.to_nat (- point)) +:+ ds
    else if len <=? point then ds +:+ zeros (Z.to_nat (point - len)) +:+ ".0"
    else text_take (Z.to_nat point) ds +:+ "." +:+ text_drop (Z.to_nat point) ds
  else
    let e := point - 1 in
    let fraction := text_drop 1 ds in
    text_take 1 ds +:+ (if truthy fraction then "." +:+ fraction else "")
      +:+ "e" +:+ (if e <? 0 then "-" else "+")
      +:+ (if Z.abs e <? 10 then "0" else "") +:+ str_of_Z (Z.abs e).

(** [repr] of a positive finite float [m * 2^e]. *)
Definition repr_pos (m : positive) (e : Z) : string :=
  let n := Z.pos m * 2 ^ Z.max e 0 in
  let d := 2 ^ Z.max (- e) 0 in
  let '(r, s) := shortest 16 (S754_finite false m e) n d 1 in
  let ds := rstrip_char "0" (str_of_Z r) in
  format_digits ds (num_digits r - s).

Definition float_repr (f : float) : string :=
  match f with
  | S754_nan => "nan"
  | S754_infinity b => if b then "-inf" else "inf"
  | S754_zero b => if b then "-0.0" else "0.0"
  | S754_finite b m e => (if b then "-" else "") +:+ repr_pos m e
  end.

Example float_reprs :
  float_repr (flit 1 10) = "0.1" ∧ float_repr (flit 2675 1000) = "2.675" ∧
  float_repr (fadd (flit 1 10) (flit 2 10)) = "0.30000000000000004" ∧
  float_repr (float_of_Z (10 ^ 16)) = "1e+16" ∧ float_repr (float_of_Z 1234567) = "1234567.0" ∧
  float_repr (flit 1 100000) = "1e-05" ∧ float_repr (fopp (flit 1 8)) = "-0.125" ∧
  float_repr (flit 123 1000000) = "0.000123" ∧
  float_repr (S754_finite false 1 (-1074)) = "5e-324".
Proof. repeat split; vm_compute; reflexivity. Qed.

Definition hex_char (n : nat) : ascii :=
  ascii_of_nat (if (n <? 10)%nat then 48 + n else 87 + n).

(** A character inside the quotes [q]. *)
Definition escape_char (q a : ascii) : string :=
  let n := nat_of_ascii a in
  if Ascii.eqb a "\" then "\\"
  else if Ascii.eqb a q then String "\" (String a "")
  else if (n =? 10)%nat then "\n"
  else if (n =? 13)%nat then "\r"
  else if (n =? 9)%nat then "\t"
  else if (n <? 32)%nat || (n =? 127)%nat then
    "\x" +:+ String (hex_char (n / 16)) (String (hex_char (n mod 16)) "")
  else String a "".

Fixpoint escape (q : ascii) (s : string) : string :=
  match s with EmptyString => "" | String a s => escape_char q a +:+ escape q s end.

Definition single_quote : ascii := "'".
Definition double_quote : ascii := ascii_of_nat 34.

Definition str_repr (s : string) : string :=
  let q := if no_char single_quote s || negb (no_char double_quote s)
           then single_quote else double_quote in
  String q (escape q s +:+ String q "").

(** The values of a memory: what JSON and the agents put there. *)
Inductive MVal :=
  | MNone
  | MBool (b : bool)
  | MInt (z : Z)
  | MFloat (f : float)
  | MStr (s : string)
  | MList (l : list MVal)
  | MDict (l : list (string * MVal)).

Fixpoint py_repr (v : MVal) : string :=
  match v with
  | MNone => "None"
  | MBool b => if b then "True" else "False"
  | MInt z => str_of_Z z
  | MFloat f => float_repr f
  | MStr s => str_repr s
  | MList l => "[" +:+ join ", " (List.map py_repr l) +:+ "]"
  | MDict l => "{" +:+ join ", " (List.map (λ '(k, x), str_repr k +:+ ": " +:+ py_repr x) l) +:+ "}"
  end.

Definition mval_str (v : MVal) : string := match v with MStr s => s | _ => py_repr v end.

Definition mval_truthy (v : MVal) : bool :=
  match v with
  | MNone => false
  | MBool b => b
  | MInt z => negb (z =? 0)
  | MFloat f => negb (is_fzero f)
  | MStr s => truthy s
  | MList l => match l with [] => false | _ => true end
  | MDict l => match l with [] => false | _ => true end
  end.

Example py_reprs :
  mval_str (MList [MStr "it's"; MInt (-3); MDict [("k", MNone)]; MBool true])
  = "[" +:+ String double_quote ("it's" +:+ String double_quote ", -3, {'k': None}, True]").
Proof. vm_compute. reflexivity. Qed.
End PyRepr.

(** * The execution memory *)

Module ExecMemory.
Import PyRepr.

Abbreviation memory := (dict string MVal).

Definition mem_set (key : string) (value : MVal) (m : memory) : memory := dict_set key value m.

Definition mem_get (m : memory) (key : string) (dflt : MVal) : MVal := default dflt (dict_get key m).

(** [self._store.update(data)] *)
Definition mem_update (data m : memory) : memory := foldl (λ m '(k, v), dict_set k v m) m data.

Definition mem_clear (m : memory) : memory := [].
Definition mem_keys (m : memory) : list string := dict_keys m.
Definition mem_contains (m : memory) (key : string) : bool := dict_mem key m.
Definition mem_len (m : memory) : Z := zlen m.

Definition open_brace : ascii := "{".
Definition close_brace : ascii := "}".

(** The match of [\{\{([^}]+)\}\}] at the start of the text: its group and what follows. *)
Definition ref_at (s : string) : option (string * string) :=
  match s with
  | String a (String b rest) =>
      if Ascii.eqb a open_brace && Ascii.eqb b open_brace then
        match partition close_brace rest with
        | (key, Some (String c tail)) =>
            if truthy key && Ascii.eqb c close_brace then Some (key, tail) else None
        | _ => None
        end
      else None
  | _ => None
  end.

(** [_replace] *)
Definition ref_value (m : memory) (key : string) : string :=
  match mem_get m key (MStr "") with MNone => "" | v => mval_str v end.

(** [re.sub] from the left; the text that replaces a reference is not scanned
    again. *)
Fixpoint substitute (fuel : nat) (m : memory) (s : string) : string :=
  match fuel with
  | O => s
  | S fuel =>
      match ref_at s with
      | Some (key, rest) => ref_value m key +:+ substitute fuel m rest
      | None => match s with EmptyString => "" | String a rest => String a (substitute fuel m rest) end
      end
  end.

Definition resolve_refs (m : memory) (text : string) : string :=
  substitute (String.length text) m text.

Example resolve_examples :
  let m := mem_update [("a", MStr "{{b}}"); ("b", MInt 7); ("n", MNone)] [] in
  resolve_refs m "x {{a}} {{b}}{{n}}{{absent}}." = "x {{b}} 7." ∧
  resolve_refs m "{{}} {{a} {b}} {{{b}}" = "{{}} {{a} {b}} " ∧
  resolve_refs m "{{a" = "{{a".
Proof. repeat split; vm_compute; reflexivity. Qed.

(** ** Properties *)

Lemma str_length_app (a b : string) :
  String.length (a +:+ b) = (String.length a + String.length b)%nat.
Proof. induction a as [|x a IH]; [done|]. by change (S (String.length (a +:+ b)) = S (String.length a + String.length b)); rewrite IH. Qed.

Lemma ref_at_shorter s key rest : ref_at s = Some (key, rest) → (String.length rest < String.length s)%nat.
Proof.
  unfold ref_at. destruct s as [|a [|b s]]; [done..|].
  destruct (Ascii.eqb a _ && _); [|done].
  destruct (partition close_brace s) as [k [[|c tl]|]] eqn:E; [done| |done].
  destruct (truthy k && _); [|done]. intros [= <- <-].
  apply partition_inv in E. subst s. simpl. rewrite str_length_app. simpl. lia.
Qed.

(** Any fuel from the length of the text on gives the same result. *)
Lemma substitute_fuel m s fuel :
  (String.length s <= fuel)%nat → substitute fuel m s = resolve_refs m s.
Proof.
  unfold resolve_refs. remember (String.length s) as n eqn:Hn.
  revert s fuel Hn. induction (lt_wf n) as [n _ IH]. intros s fuel -> Hf.
  destruct s as [|a s]; [by destruct fuel|]. destruct fuel as [|fuel]; [simpl in Hf; lia|].
  cbn [substitute String.length].
  destruct (ref_at (String a s)) as [[key rest]|] eqn:E.
  - apply ref_at_shorter in E. simpl in E, Hf. f_equal.
    rewrite (IH _ ltac:(exact E) rest fuel), (IH _ ltac:(exact E) rest (String.length s)); auto with lia.
  - simpl in Hf. f_equal. rewrite (IH (String.length s) ltac:(simpl; lia) s fuel); auto with lia.
Qed.

Lemma resolve_unfold m s :
  resolve_refs m s =
  match ref_at s with
  | Some (key, rest) => ref_value m key +:+ resolve_refs m rest
  | None => match s with EmptyString => "" | String a rest => String a (resolve_refs m rest) end
  end.
Proof.
  destruct s as [|a s]; [done|]. unfold resolve_refs at 1. cbn [substitute String.length].
  destruct (ref_at (String a s)) as [[key rest]|] eqn:E.
  - apply ref_at_shorter in E. simpl in E. by rewrite substitute_fuel by lia.
  - by rewrite substitute_fuel by lia.
Qed.

(** A template is text without braces and references to keys. *)
Inductive segment := Lit (s : string) | Ref (key : string).

Definition segment_wf (g : segment) : bool :=
  match g with Lit s => no_char open_brace s | Ref k => truthy k && no_char close_brace k end.

Definition show_segment (g : segment) : string :=
  match g with Lit s => s | Ref k => "{{" +:+ k +:+ "}}" end.

Definition show_template (t : list segment) : string := join "" (show_segment <$> t).

Definition eval_segment (m : memory) (g : segment) : string :=
  match g with Lit s => s | Ref k => ref_value m k end.

Definition eval_template (m : memory) (t : list segment) : string := join "" (eval_segment m <$> t).

Lemma join_cons g t : join "" (g :: t) = g +:+ join "" t.
Proof. unfold join. destruct t as [|x t]; simpl; [by rewrite str_app_nil|done]. Qed.

Lemma resolve_lit m s rest :
  no_char open_brace s = true → resolve_refs m (s +:+ rest) = s +:+ resolve_refs m rest.
Proof.
  induction s as [|a s IH]; simpl; intros H; [done|]. apply andb_prop in H as [Ha Hs].
  change (String a s +:+ rest) with (String a (s +:+ rest)). rewrite resolve_unfold.
  assert (ref_at (String a (s +:+ rest)) = None) as ->.
  { unfold ref_at. destruct (s +:+ rest); [done|].
    destruct (Ascii.eqb_spec a open_brace) as [->|]; [by case_bool_decide|done]. }
  by rewrite IH.
Qed.

Lemma resolve_ref m k rest :
  truthy k = true → no_char close_brace k = true →
  resolve_refs m ("{{" +:+ k +:+ "}}" +:+ rest) = ref_value m k +:+ resolve_refs m rest.
Proof.
  intros Hk Hc. rewrite resolve_unfold.
  change (ref_at _) with (match partition close_brace (k +:+ String close_brace (String close_brace rest)) with
    | (key, Some (String c tail)) =>
        if truthy key && Ascii.eqb c close_brace then Some (key, tail) else None
    | _ => None end).
  by rewrite partition_app, Hk.
Qed.

Lemma resolve_show m t :
  forallb segment_wf t = true → resolve_refs m (show_template t) = eval_template m t.
Proof.
  unfold show_template, eval_template. induction t as [|g t IH]; [done|].
  rewrite !fmap_cons, !join_cons. cbn [forallb]. intros [Hg Ht]%andb_prop. destruct g as [s|k]; simpl in *.
  - by rewrite resolve_lit, IH.
  - apply andb_prop in Hg as [Hk Hc]. rewrite !str_app_assoc, resolve_ref, IH; done.
Qed.

Lemma mem_update_get data m k :
  dict_wf data →
  dict_get k (mem_update data m) = match dict_get k data with Some v => Some v | None => dict_get k m end.
Proof.
  unfold mem_update. revert m. induction data as [|[k' v] data IH]; intros m Hwf; simpl; [done|].
  apply NoDup_cons in Hwf as [Hk Hwf]. rewrite IH by done. rewrite dict_get_set.
  case_decide as E; [|by rewrite decide_False by congruence]. subst k'.
  apply dict_get_None in Hk. simpl in Hk. by rewrite Hk, decide_True.
Qed.

Lemma mem_update_wf data m : dict_wf m → dict_wf (mem_update data m).
Proof.
  unfold mem_update. revert m. induction data as [|[k v] data IH]; intros m Hm; simpl; [done|].
  apply IH. by apply dict_set_wf.
Qed.
End ExecMemory.

(** * Budgets *)

Module Budget.
Import PyRepr.

Record BudgetEntry := mk_entry {
  be_prompt_tokens : Z;
  be_completion_tokens : Z;
  be_total_tokens : Z;
  be_total_cost : float;
  be_max_latency_ms : float
}.

Record BudgetManager := mk_budget {
  bm_max_cost : float;
  bm_max_tokens : Z;
  bm_max_latency : float;
  bm_entries : list BudgetEntry
}.

(** [BudgetManager(config)]; [None] is an absent key. *)
Definition new_budget (max_cost : option float) (max_tokens : option Z) (max_latency : option float)
    : BudgetManager :=
  mk_budget (default (float_of_Z 10) max_cost) (default 1000000 max_tokens)
    (default (float_of_Z 60000) max_latency) [].

Definition spent_cost (bm : BudgetManager) : float := py_sum (be_total_cost <$> bm_entries bm).
Definition spent_tokens (bm : BudgetManager) : Z := foldr Z.add 0 (be_total_tokens <$> bm_entries bm).

Definition remaining_budget (bm : BudgetManager) : float :=
  fmax fzero (fsub (bm_max_cost bm) (spent_cost bm)).
Definition remaining_tokens (bm : BudgetManager) : Z := Z.max 0 (bm_max_tokens bm - spent_tokens bm).

Definition record_spending (usage : Usage) (cost latency_ms : float) (bm : BudgetManager) : BudgetManager :=
  mk_budget (bm_max_cost bm) (bm_max_tokens bm) (bm_max_latency bm)
    (bm_entries bm ++ [mk_entry (us_prompt usage) (us_completion usage) (us_total usage) cost
                         (fmax fzero latency_ms)])%list.

(** Why a request is refused, with the numbers of the message. *)
Inductive Refusal :=
  | TokensExhausted (total max : Z)
  | CostExhausted (total max : float)
  | LatencyExceeded (latency max : float).

(** [max(e.max_latency_ms for e in self._entries) if self._entries else 0] *)
Definition worst_latency (bm : BudgetManager) : float :=
  match be_max_latency_ms <$> bm_entries bm with [] => fzero | x :: l => py_max x l end.

(** [check_limits]: [None] admits the request.  The estimated latency is not
    looked at. *)
Definition check_limits (estimated_tokens : Z) (estimated_cost estimated_latency_ms : float)
    (bm : BudgetManager) : option Refusal :=
  if remaining_tokens bm <? estimated_tokens then
    Some (TokensExhausted (spent_tokens bm) (bm_max_tokens bm))
  else if flt (remaining_budget bm) estimated_cost then
    Some (CostExhausted (spent_cost bm) (bm_max_cost bm))
  else if flt (bm_max_latency bm) (worst_latency bm) then
    Some (LatencyExceeded (worst_latency bm) (bm_max_latency bm))
  else None.

Definition tiers : list string := ["gpt4"; "claude"; "gemma"; "qwen"; "ollama"].

(** The loop: the tier after the first one that is named, unless it is the
    last. *)
Fixpoint next_tier (named : string → bool) (ts : list string) : string :=
  match ts with
  | [] => ""
  | t :: rest =>
      if named t then match rest with t' :: _ => t' | [] => next_tier named rest end
      else next_tier named rest
  end.

Definition get_downgrade_suggestion (bm : BudgetManager) : string :=
  match last (bm_entries bm) with
  | None => ""
  | Some current =>
      let cost := be_total_cost current in
      if flt fzero cost && flt (remaining_budget bm) (fmul cost (float_of_Z 2)) then
        next_tier (λ tier, contains tier (float_repr cost)) tiers
      else ""
  end.

Definition reset_budget (bm : BudgetManager) : BudgetManager :=
  mk_budget (bm_max_cost bm) (bm_max_tokens bm) (bm_max_latency bm) [].

Record BudgetStats := mk_bstats {
  bs_total_cost : float;
  bs_total_tokens : Z;
  bs_remaining_budget : float;
  bs_remaining_tokens : Z;
  bs_max_cost : float;
  bs_max_tokens : Z;
  bs_max_latency_ms : float;
  bs_entry_count : Z;
  bs_downgrade_suggestion : string
}.

Definition budget_stats (bm : BudgetManager) : BudgetStats :=
  mk_bstats (spent_cost bm) (spent_tokens bm) (remaining_budget bm) (remaining_tokens bm)
    (bm_max_cost bm) (bm_max_tokens bm) (bm_max_latency bm) (zlen (bm_entries bm))
    (get_downgrade_suggestion bm).

End Budget.

Module BudgetSpec.
Import PyRepr Budget.

Lemma total_tokens_app es es' mc mt ml :
  spent_tokens (mk_budget mc mt ml (es ++ es')%list)
  = spent_tokens (mk_budget mc mt ml es) + spent_tokens (mk_budget mc mt ml es').
Proof.
  unfold spent_tokens. simpl. induction es as [|e es IH]; [done|]. csimpl. rewrite IH. lia.
Qed.

(** A call that [check_limits] admits, recorded before any other and with no more
    tokens than it asked for, keeps the tokens within the budget. *)
Theorem admitted_within_budget (estimated : Z) (cost latency : float) (u : Usage) (spent took : float)
    (bm : BudgetManager) :
  check_limits estimated cost latency bm = None → us_total u <= estimated →
  spent_tokens bm <= Z.max 0 (bm_max_tokens bm) →
  spent_tokens (record_spending u spent took bm) <= Z.max 0 (bm_max_tokens bm).
Proof.
  intros E Hest Hle. unfold check_limits in E. destruct (_ <? _) eqn:Et; [done|]. apply Z.ltb_ge in Et.
  unfold remaining_tokens in Et. unfold record_spending. rewrite total_tokens_app.
  destruct bm as [mc mt ml es]. simpl in *.
  change (spent_tokens (mk_budget mc mt ml [_])) with (us_total u + 0). lia.
Qed.

(** ** The defaults of [check_limits] admit what is over the budget *)

Lemma remaining_budget_nonneg bm : flt (remaining_budget bm) fzero = false.
Proof.
  unfold remaining_budget, fmax. destruct (flt fzero _) eqn:E; [|done].
  destruct (fsub _ _) as [[]|[]| |[] ? ?]; done.
Qed.

(** Asked without estimates, [check_limits] never reports the tokens or the
    cost, however much was spent. *)
Theorem default_check_ignores_spending (bm : BudgetManager) (latency : float) :
  check_limits 0 fzero latency bm = None ∨
  check_limits 0 fzero latency bm = Some (LatencyExceeded (worst_latency bm) (bm_max_latency bm)).
Proof.
  unfold check_limits, remaining_tokens.
  destruct (_ <? _) eqn:E; [apply Z.ltb_lt in E; lia|]. rewrite remaining_budget_nonneg.
  destruct (flt (bm_max_latency bm) _); auto.
Qed.

Example overspent_admitted :
  let bm := record_spending (mk_use 0 0 5000 0 0) (float_of_Z 99) fzero
              (new_budget (Some (float_of_Z 1)) (Some 100) None) in
  check_limits 0 fzero fzero bm = None ∧
  check_limits 1 fzero fzero bm = Some (TokensExhausted 5000 100).
Proof. split; vm_compute; reflexivity. Qed.

(** ** No downgrade is ever suggested *)

(** The characters of a number. *)
Definition number_char (a : ascii) : bool :=
  is_digit a || negb (no_char a ".e+-infa").

Lemma all_chars_contains P sub s :
  all_chars P s = true → contains sub s = true → all_chars P sub = true.
Proof.
  assert (∀ sub s, all_chars P s = true → startswith sub s = true → all_chars P sub = true) as Hp.
  { clear. induction sub as [|a sub IH]; intros [|b s] Hs Hst; try done.
    simpl in *. apply andb_prop in Hs as [Hb Hs]. unfold startswith in *. simpl in Hst.
    destruct (ascii_dec a b) as [->|]; [|done]. by rewrite Hb, (IH s). }
  intros Hs. induction s as [|b s IH]; simpl; intros Hc.
  - apply orb_prop in Hc as [Hc|Hc]; [by eapply Hp|done].
  - simpl in Hs. apply orb_prop in Hc as [Hc|Hc]; [by eapply (Hp _ (String b s))|].
    apply andb_prop in Hs as [_ Hs]. by apply IH.
Qed.
Lemma number_str_chars z : all_chars number_char (str_of_Z z) = true.
Proof.
  assert (∀ z, 0 <= z → all_chars number_char (str_of_Z z) = true) as Hp.
  { intros x Hx. apply (all_chars_mono is_digit); [by unfold number_char; intros a ->|].
    by apply numeral_chars, str_of_Z_spec. }
  destruct (Z.leb_spec 0 z); [by apply Hp|]. destruct z as [|p|p]; [done..|].
  change (str_of_Z (Z.neg p)) with ("-" +:+ str_of_Z (Z.pos p)).
  rewrite all_chars_app. by apply Hp.
Qed.

Lemma zeros_chars n : all_chars number_char (zeros n) = true.
Proof. by induction n. Qed.

Lemma take_drop_chars P n s :
  all_chars P s = true → all_chars P (text_take n s) = true ∧ all_chars P (text_drop n s) = true.
Proof.
  revert n. induction s as [|a s IH]; intros [|n] H; try done.
  simpl in *. apply andb_prop in H as [-> H]. by apply IH.
Qed.

Lemma rstrip_char_chars P c s : all_chars P s = true → all_chars P (rstrip_char c s) = true.
Proof.
  induction s as [|a s IH]; simpl; [done|]. intros [Ha Hs]%andb_prop. specialize (IH Hs).
  destruct (rstrip_char c s); [|by simpl in *; rewrite Ha].
  case_decide; simpl; [done|by rewrite Ha].
Qed.

Lemma format_digits_chars ds point :
  all_chars number_char ds = true → all_chars number_char (format_digits ds point) = true.
Proof.
  intros H. unfold format_digits.
  pose proof (take_drop_chars _ (Z.to_nat point) ds H) as [H1 H2].
  pose proof (take_drop_chars _ 1%nat ds H) as [H3 H4].
  destruct (_ && _).
  - destruct (point <=? 0); [by rewrite !all_chars_app, zeros_chars, H|].
    destruct (_ <=? point); [by rewrite !all_chars_app, zeros_chars, H|].
    by rewrite !all_chars_app, H1, H2.
  - destruct (text_drop 1 ds) eqn:E; cbn [truthy]; rewrite !all_chars_app, ?H3, ?H4, number_str_chars;
      by destruct (_ <? 0); destruct (_ <? 10).
Qed.

Lemma float_repr_chars f : all_chars number_char (float_repr f) = true.
Proof.
  destruct f as [[]|[]| |b m e]; try done. simpl. rewrite all_chars_app.
  unfold repr_pos. destruct (shortest _ _ _ _ _) as [r s].
  rewrite format_digits_chars; [by destruct b|]. apply rstrip_char_chars, number_str_chars.
Qed.

(** The suggestion looks for the name of a tier in the text of a cost, which
    has none: it is always empty. *)
Theorem no_downgrade_suggestion (bm : BudgetManager) : get_downgrade_suggestion bm = "".
Proof.
  unfold get_downgrade_suggestion. destruct (last _) as [e|]; [|done].
  destruct (flt fzero _ && _); [|done].
  assert (∀ t, all_chars number_char t = false → contains t (float_repr (be_total_cost e)) = false) as Hc.
  { intros t Ht. destruct (contains t _) eqn:E; [|done].
    rewrite (all_chars_contains number_char _ _ (float_repr_chars _) E) in Ht. done. }
  unfold next_tier, tiers. by rewrite !Hc.
Qed.
Lemma admitted_within_budget_witness :
  spent_tokens (record_spending (mk_use 0 0 60 0 0) fzero fzero (new_budget None (Some 100) None)) <= 100.
Proof.
  apply (admitted_within_budget 60 fzero fzero (mk_use 0 0 60 0 0) fzero fzero (new_budget None (Some 100) None));
    [vm_compute; reflexivity|simpl; lia|vm_compute; discriminate].
Defined.
End BudgetSpec.

(** * Plans *)

Module Planner.
Import PyRepr ExecMemory.

Record PlanStep := mk_step {
  ps_step : string;
  ps_agent : string;
  ps_execution : string;
  ps_prompt_template : string;
  ps_tools : list string;
  ps_timeout : float;
  ps_retry_count : Z;
  ps_provider : string;
  ps_model : string;
  ps_context_refs : list string;
  ps_depends_on : list Z;
  ps_merge_strategy : string
}.

Record ExecutionPlan := mk_plan { pl_steps : list PlanStep; pl_context : memory }.

(** [PlanStep(step=..., agent=..., execution=..., prompt_template=...)] *)
Definition plan_step (step agent execution template : string) : PlanStep :=
  mk_step step agent execution template [] (float_of_Z 60) 0 "" "" [] [] "concat".

Definition with_execution (e : string) (s : PlanStep) : PlanStep :=
  mk_step (ps_step s) (ps_agent s) e (ps_prompt_template s) (ps_tools s) (ps_timeout s)
    (ps_retry_count s) (ps_provider s) (ps_model s) (ps_context_refs s) (ps_depends_on s)
    (ps_merge_strategy s).

Definition with_template (t : string) (s : PlanStep) : PlanStep :=
  mk_step (ps_step s) (ps_agent s) (ps_execution s) t (ps_tools s) (ps_timeout s)
    (ps_retry_count s) (ps_provider s) (ps_model s) (ps_context_refs s) (ps_depends_on s)
    (ps_merge_strategy s).

Definition with_context_refs (refs : list string) (s : PlanStep) : PlanStep :=
  mk_step (ps_step s) (ps_agent s) (ps_execution s) (ps_prompt_template s) (ps_tools s) (ps_timeout s)
    (ps_retry_count s) (ps_provider s) (ps_model s) refs (ps_depends_on s) (ps_merge_strategy s).

Definition default_agent_map : dict string string :=
  [("coding", "coder"); ("code", "coder"); ("programming", "coder");
   ("architecture", "architect"); ("design", "architect"); ("system", "architect");
   ("analysis", "analyst"); ("analyze", "analyst"); ("research", "analyst");
   ("review", "reviewer"); ("refactor", "reviewer"); ("chat", "chat"); ("talk", "chat");
   ("plan", "planner")].

Definition create_single_plan (prompt agent : string) : ExecutionPlan :=
  mk_plan [plan_step "single" agent "sequential" prompt] [].

Definition execution_mode (parallel : bool) : string := if parallel then "parallel" else "sequential".

(** [steps[-1].execution = "sequential"] when there are several. *)
Definition last_sequential (steps : list PlanStep) : list PlanStep :=
  match last steps with
  | Some s =>
      if (1 <? length steps)%nat then (take (length steps - 1) steps ++ [with_execution "sequential" s])%list
      else steps
  | None => steps
  end.

Definition create_multi_plan (prompt : string) (agents : list string) (parallel : bool) : ExecutionPlan :=
  let steps := (λ '(i, a), plan_step ("step_" +:+ str_of_Z i) a (execution_mode parallel) prompt)
                 <$> enumerate agents in
  let steps := if parallel then last_sequential (with_execution "parallel" <$> steps) else steps in
  mk_plan steps [].

Definition plan_from_agents (prompt : string) (agents : list string) (parallel : bool) : list PlanStep :=
  match agents with
  | [a] => [plan_step "single" a "sequential" prompt]
  | _ => (λ a, plan_step ("agent_" +:+ a) a (execution_mode parallel) prompt) <$> agents
  end.

(** The loop over the keywords: the agents in the order they are matched. *)
Definition match_agents (text : string) : list string :=
  foldl (λ matched '(keyword, agent),
    if contains keyword text && negb (bool_decide (agent ∈ matched)) then (matched ++ [agent])%list
    else matched) [] default_agent_map.

Definition line_break : string := String (ascii_of_nat 10) "".

Definition perspective_prompt (prompt agent : string) : string :=
  prompt +:+ line_break +:+ line_break +:+ "Focus on this from a " +:+ agent +:+ " perspective.".

Definition prompt_step (prompt : string) (n i : Z) (agent : string) : PlanStep :=
  with_context_refs (if i =? 0 then [] else ["step_" +:+ str_of_Z i])
    (plan_step ("step_" +:+ str_of_Z (i + 1)) agent "sequential"
       (if i =? n - 1 then prompt else perspective_prompt prompt agent)).

Definition plan_from_prompt (prompt : string) : list PlanStep :=
  let matched := match match_agents (lower prompt) with [] => ["chat"] | l => l end in
  match matched with
  | [a] => [plan_step "single" a "sequential" prompt]
  | _ => (λ '(i, a), prompt_step prompt (zlen matched) i a) <$> enumerate matched
  end.

Definition create_plan (prompt : string) (agents : list string) (parallel : bool) : ExecutionPlan :=
  mk_plan (match agents with [] => plan_from_prompt prompt | _ => plan_from_agents prompt agents parallel end) [].

(** [text.count(sub)]: occurrences that do not overlap. *)
Fixpoint str_count (fuel : nat) (sub text : string) : Z :=
  match fuel with
  | O => 0
  | S fuel =>
      if startswith sub text then 1 + str_count fuel sub (text_drop (String.length sub) text)
      else match text with EmptyString => 0 | String _ rest => str_count fuel sub rest end
  end.

Definition classify_agent (prompt : string) : string :=
  let text := lower prompt in
  fst (foldl (λ '(best, best_count) '(keyword, agent),
         let count := str_count (S (String.length text)) keyword text in
         if best_count <? count then (agent, count) else (best, best_count))
       ("chat", 0) default_agent_map).

(** ** The choice of a plan in [orchestrate] *)

Record OrchestrationRequest := mk_orch {
  or_prompt : string;
  or_messages : list Message;
  or_mode : string;
  or_agents : list string;
  or_parallel : bool;
  or_stream : bool;
  or_reflection : bool;
  or_model : string;
  or_metadata : Metadata
}.

Definition select_plan (r : OrchestrationRequest) : ExecutionPlan :=
  if bool_decide (or_mode r = "multi") || (1 <? zlen (or_agents r)) then
    create_multi_plan (or_prompt r) (or_agents r) (or_parallel r)
  else match or_agents r with
       | a :: _ => create_single_plan (or_prompt r) a
       | [] => create_plan (or_prompt r) [] (or_parallel r)
       end.

(** [_build_chat_request]; a message of the request is its content. *)
Definition build_chat_request (r : OrchestrationRequest) : ChatRequest :=
  mk_request (or_model r)
    (match or_messages r with [] => [mk_msg (or_prompt r) false] | l => l end)
    (or_stream r) (or_metadata r).

Example planned :
  let steps := plan_from_prompt "Design the system, then write CODE" in
  (ps_agent <$> steps) = ["coder"; "architect"] ∧ (ps_step <$> steps) = ["step_1"; "step_2"] ∧
  (ps_context_refs <$> steps) = [[]; ["step_1"]] ∧
  classify_agent "code code design" = "coder" ∧ classify_agent "hello" = "chat" ∧
  (ps_execution <$> pl_steps (create_multi_plan "p" ["a"; "b"; "c"] true))
  = ["parallel"; "parallel"; "sequential"].
Proof. repeat split; vm_compute; reflexivity. Qed.
End Planner.

(** * Agents *)

Module Agents.
Import PyRepr ExecMemory Planner.

Inductive Agent :=
  PlannerAgent | CodingAgent | ArchitectureAgent | AnalysisAgent | ReviewerAgent | ChatAgent.

Instance Agent_eq_dec : EqDecision Agent.
Proof. solve_decision. Defined.

Definition agent_name (a : Agent) : string :=
  match a with
  | PlannerAgent => "planner"
  | CodingAgent => "coder"
  | ArchitectureAgent => "architect"
  | AnalysisAgent => "analyst"
  | ReviewerAgent => "reviewer"
  | ChatAgent => "chat"
  end.

(** Why a step has no content. *)
Inductive StepError :=
  | UnknownAgent (agent : string)
  | AgentTimeout (timeout : float)
  | AgentError (message : string).

(** The tokens, the cost and the latency are those of the defaults: no agent
    sets them. *)
Record AgentResult := mk_ares {
  ar_agent : string;
  ar_step : string;
  ar_content : string;
  ar_provider : string;
  ar_model : string;
  ar_latency_ms : float;
  ar_tokens : Z;
  ar_cost : float;
  ar_success : bool;
  ar_error : option StepError
}.

Definition agent_result (agent step content provider model : string) : AgentResult :=
  mk_ares agent step content provider model fzero 0 fzero true None.

Definition failed_result (agent step : string) (e : StepError) : AgentResult :=
  mk_ares agent step "" "" "" fzero 0 fzero false (Some e).

(** What [router.chat] does: an answer ([None] without choices), an exception,
    no answer before the deadline of the caller, or a cancellation from
    outside. *)
Inductive Reply :=
  | Answer (content : option string) (provider model : string)
  | Raises (message : string)
  | TimesOut
  | Cancelled.

Definition no_metadata : Metadata := mk_meta "" [] None.

(** [build_request] *)
Definition build_request (prompt : string) (original : option ChatRequest) : ChatRequest :=
  match original with
  | Some r => mk_request (req_model r) [mk_msg prompt false] (req_stream r) (req_metadata r)
  | None => mk_request "" [mk_msg prompt false] false no_metadata
  end.

(** [build_prompt], which no agent calls. *)
Definition build_prompt (step : PlanStep) (m : memory) : string :=
  if 0 <? mem_len m then
    let previous := mem_get m "last_output" (MStr "") in
    if mval_truthy previous && match ps_context_refs step with [] => false | _ => true end then
      "Previous output:" +:+ line_break +:+ mval_str previous +:+ line_break +:+ line_break
        +:+ ps_prompt_template step
    else ps_prompt_template step
  else ps_prompt_template step.

(** The prompts the agents build around the template. *)
Definition planner_prompt (template : string) : string :=
  "You are a planning agent. Break down the following request into steps." +:+ line_break
  +:+ "Return a numbered list of steps in order." +:+ line_break +:+ line_break +:+ template.

Definition coding_prompt (template : string) : string :=
  "You are a coding agent. Write production-ready code." +:+ line_break
  +:+ "Include type hints, docstrings, and error handling." +:+ line_break +:+ line_break +:+ template.

Definition architecture_prompt (template : string) : string :=
  "You are an architecture agent. Design system architecture." +:+ line_break
  +:+ "Include components, data flow, and technology choices." +:+ line_break +:+ line_break +:+ template.

Definition analysis_prompt (template : string) : string :=
  "You are an analysis agent. Analyze thoroughly." +:+ line_break
  +:+ "Provide data-driven insights with pros and cons." +:+ line_break +:+ line_break +:+ template.

Definition reviewer_prompt (m : memory) (template : string) : string :=
  "You are a reviewer agent. Review the following output critically." +:+ line_break
  +:+ "Check for correctness, security issues, and improvements." +:+ line_break
  +:+ "Output to review:" +:+ line_break +:+ mval_str (mem_get m "last_output" (MStr ""))
  +:+ line_break +:+ line_break +:+ template.

Definition agent_prompt (a : Agent) (m : memory) (template : string) : string :=
  match a with
  | PlannerAgent => planner_prompt template
  | CodingAgent => coding_prompt template
  | ArchitectureAgent => architecture_prompt template
  | AnalysisAgent => analysis_prompt template
  | ReviewerAgent => reviewer_prompt m template
  | ChatAgent => template
  end.

(** The request an agent sends: the chat agent passes the original on. *)
Definition agent_request (a : Agent) (step : PlanStep) (m : memory) (request : option ChatRequest)
    : ChatRequest :=
  match a, request with
  | ChatAgent, Some r => r
  | _, _ => build_request (agent_prompt a m (ps_prompt_template step)) request
  end.

(** Where it leaves the content. *)
Definition output_key (a : Agent) : string :=
  match a with
  | PlannerAgent => "plan"
  | CodingAgent => "code_output"
  | ArchitectureAgent => "architecture_output"
  | AnalysisAgent => "analysis_output"
  | ReviewerAgent => "review_output"
  | ChatAgent => "last_output"
  end.

Definition agent_finish (a : Agent) (step : PlanStep) (content provider model : string) (m : memory)
    : AgentResult * memory :=
  (agent_result (agent_name a) (ps_step step) content provider model,
   mem_set (output_key a) (MStr content) m).

(** ** The registry *)

Definition registry := dict string Agent.

Definition register_agent (a : Agent) (r : registry) : registry := dict_set (agent_name a) a r.
Definition get_agent (name : string) (r : registry) : option Agent := dict_get name r.
Definition get_all_names (r : registry) : list string := dict_keys r.

Definition default_registry : registry :=
  foldl (λ r a, register_agent a r) []
    [PlannerAgent; CodingAgent; ArchitectureAgent; AnalysisAgent; ReviewerAgent; ChatAgent].

(** An agent is found under its own name only. *)
Definition agents_wf (r : registry) : Prop := keyed agent_name r.

Lemma register_agent_wf a r : agents_wf r → agents_wf (register_agent a r).
Proof. apply keyed_set. Qed.

Lemma default_registry_wf : agents_wf default_registry.
Proof. unfold default_registry. simpl. repeat apply register_agent_wf. apply keyed_nil. Qed.
End Agents.

(** * Running a plan *)

Module PlanExec.
Import PyRepr ExecMemory Planner Agents.

(** The memory and the requests sent to the router so far. *)
Record xst := mk_xst { xs_memory : memory; xs_sent : list ChatRequest }.

Definition set_memory (k : string) (v : MVal) (st : xst) : xst :=
  mk_xst (mem_set k v (xs_memory st)) (xs_sent st).

(** What leaves a plan besides results: a cancellation from outside.
    [Unfinished] marks a schedule that does not run every step to its end, for
    which [gather] would still wait. *)
Inductive PlanExn := CancelledError | Unfinished.

(** A step up to its request, and what it waits for. *)
Inductive Pending :=
  | Settled (r : AgentResult)
  | Waiting (a : Agent) (step : PlanStep) (reply : Reply).

Section Exec.
Context (chat : nat → ChatRequest → Reply) (reg : registry) (request : option ChatRequest).

Definition send (req : ChatRequest) (st : xst) : Reply * xst :=
  (chat (length (xs_sent st)) req, mk_xst (xs_memory st) (xs_sent st ++ [req])%list).

(** [_execute_step] up to the answer of the router.  The prompt with its
    references resolved is written into the step.  [wait_for] with a timeout
    that is not positive runs nothing. *)
Definition start_step (step : PlanStep) (st : xst) : Pending * PlanStep * xst :=
  match get_agent (ps_agent step) reg with
  | None =>
      (Settled (failed_result (ps_agent step) (ps_step step) (UnknownAgent (ps_agent step))), step, st)
  | Some a =>
      let step := with_template (resolve_refs (xs_memory st) (ps_prompt_template step)) step in
      if fle (ps_timeout step) fzero then
        (Settled (failed_result (ps_agent step) (ps_step step) (AgentTimeout (ps_timeout step))), step, st)
      else
        let '(reply, st) := send (agent_request a step (xs_memory st) request) st in
        (Waiting a step reply, step, st)
  end.

(** The rest: the agent stores the content, an exception becomes a result. *)
Definition finish_step (p : Pending) (st : xst) : result PlanExn AgentResult * xst :=
  match p with
  | Settled r => (Ok r, st)
  | Waiting a step (Answer content provider model) =>
      let '(r, m) := agent_finish a step (default "" content) provider model (xs_memory st) in
      (Ok r, mk_xst m (xs_sent st))
  | Waiting a step (Raises message) =>
      (Ok (failed_result (ps_agent step) (ps_step step) (AgentError message)), st)
  | Waiting a step TimesOut =>
      (Ok (failed_result (ps_agent step) (ps_step step) (AgentTimeout (ps_timeout step))), st)
  | Waiting a step Cancelled => (Err CancelledError, st)
  end.

Definition execute_step (step : PlanStep) (st : xst)
    : result PlanExn AgentResult * PlanStep * xst :=
  let '(p, step, st) := start_step step st in
  let '(r, st) := finish_step p st in (r, step, st).

(** [memory.set("last_output", ...)] and [memory.set(f"step_...", ...)] *)
Definition remember (step : PlanStep) (content : string) (st : xst) : xst :=
  set_memory ("step_" +:+ ps_step step) (MStr content) (set_memory "last_output" (MStr content) st).

(** [_execute_sequential]: the results, the steps as they are left, the state. *)
Fixpoint execute_sequential (steps : list PlanStep) (st : xst)
    : result PlanExn (list AgentResult) * list PlanStep * xst :=
  match steps with
  | [] => (Ok [], [], st)
  | step :: rest =>
      let '(r, step', st) := execute_step step st in
      match r with
      | Err e => (Err e, step' :: rest, st)
      | Ok r =>
          if ar_success r then
            let '(rs, rest', st) := execute_sequential rest (remember step' (ar_content r) st) in
            (match rs with Ok l => Ok (r :: l) | Err e => Err e end, step' :: rest', st)
          else (Ok [r], step' :: rest, st)
      end
  end.

(** ** Parallel execution *)

Record pstate := mk_p {
  p_st : xst;
  p_steps : list PlanStep;
  p_waiting : gmap nat Pending;
  p_results : gmap nat AgentResult
}.

(** The event loop resumes step [i]; a cancellation ends the whole plan. *)
Definition resume (i : nat) (p : pstate) : result PlanExn unit * pstate :=
  match p_results p !! i, p_waiting p !! i, p_steps p !! i with
  | None, None, Some step =>
      let '(w, step, st) := start_step step (p_st p) in
      (Ok tt, mk_p st (<[i := step]> (p_steps p)) (<[i := w]> (p_waiting p)) (p_results p))
  | None, Some w, _ =>
      let '(r, st) := finish_step w (p_st p) in
      match r with
      | Ok r => (Ok tt, mk_p st (p_steps p) (p_waiting p) (<[i := r]> (p_results p)))
      | Err e => (Err e, mk_p st (p_steps p) (p_waiting p) (p_results p))
      end
  | _, _, _ => (Ok tt, p)
  end.

Fixpoint run_schedule (schedule : list nat) (p : pstate) : result PlanExn unit * pstate :=
  match schedule with
  | [] => (Ok tt, p)
  | i :: rest =>
      let '(r, p) := resume i p in
      match r with Ok _ => run_schedule rest p | Err e => (Err e, p) end
  end.

(** The loop over the gathered results: a failed step is remembered too, with
    its empty content. *)
Definition remember_all (steps : list PlanStep) (rs : list AgentResult) (st : xst) : xst :=
  foldl (λ st '(step, r), remember step (ar_content r) st) st (zip steps rs).

Definition execute_parallel (schedule : list nat) (steps : list PlanStep) (st : xst)
    : result PlanExn (list AgentResult) * list PlanStep * xst :=
  let '(r, p) := run_schedule schedule (mk_p st steps ∅ ∅) in
  match r, mapM (λ i, p_results p !! i) (seq 0 (length steps)) with
  | Err e, _ => (Err e, p_steps p, p_st p)
  | Ok _, None => (Err Unfinished, p_steps p, p_st p)
  | Ok _, Some rs => (Ok rs, p_steps p, remember_all (p_steps p) rs (p_st p))
  end.

(** ** [execute_plan] *)

Definition is_parallel (steps : list PlanStep) : bool :=
  forallb (λ s, bool_decide (ps_execution s = "parallel")) steps.

Definition execute_plan (schedule : list nat) (plan : ExecutionPlan) (st : xst)
    : result PlanExn (list AgentResult) * list PlanStep * xst :=
  let st := mk_xst (mem_update (pl_context plan) (xs_memory st)) (xs_sent st) in
  match pl_steps plan with
  | [] => (Ok [], [], st)
  | steps =>
      if is_parallel steps && (1 <? length steps)%nat then execute_parallel schedule steps st
      else execute_sequential steps st
  end.
End Exec.
End PlanExec.

(** * Plans and their execution: properties

    - [prompt_plan_wf]: the plan of a prompt is not empty, names each
      registered agent at most once, and has distinct step names;
    - [orchestrated_plans_sequential]: no plan that [orchestrate] makes is
      run in parallel, whatever the request asks;
    - [sequential_run]: the sequential engine runs a prefix of the steps,
      stops at the first failure and leaves each content under the name of its
      step;
    - [parallel_deterministic]: steps that do not read the memory have, under
      every complete schedule, the results they have alone;
    - [memory_crosses_requests]: the memory outlives a request, and the next
      one can send what it holds. *)

Module PlanSpec.
Import PyRepr ExecMemory Planner Agents PlanExec.

(** ** Plans *)

Definition is_sequential (steps : list PlanStep) : bool :=
  negb (is_parallel steps && (1 <? length steps)%nat).

Lemma sequential_elem steps s :
  s ∈ steps → ps_execution s ≠ "parallel" → is_sequential steps = true.
Proof.
  intros Hs Hne. unfold is_sequential, is_parallel.
  destruct (forallb _ steps) eqn:E; [|done]. rewrite List.forallb_forall in E.
  rewrite list_elem_of_In in Hs. specialize (E s Hs). by apply bool_decide_eq_true in E.
Qed.

Lemma sequential_short steps : (length steps <= 1)%nat → is_sequential steps = true.
Proof.
  intros H. unfold is_sequential. destruct (1 <? length steps)%nat eqn:E.
  - apply Nat.ltb_lt in E. lia.
  - by rewrite andb_false_r.
Qed.

(** One step that is not parallel is enough, so it is enough for the steps of
    a plan of several to be all sequential. *)
Lemma sequential_all steps :
  Forall (λ s, ps_execution s = "sequential") steps → is_sequential steps = true.
Proof.
  intros H. destruct steps as [|s l]; [done|]. apply Forall_inv in H.
  apply (sequential_elem _ s); [left|by rewrite H].
Qed.

Lemma last_sequential_ok steps : is_sequential (last_sequential steps) = true.
Proof.
  unfold last_sequential. destruct (last steps) as [s|] eqn:E.
  - destruct (1 <? length steps)%nat eqn:El.
    + apply (sequential_elem _ (with_execution "sequential" s)); [|done].
      rewrite elem_of_app, list_elem_of_singleton. by right.
    + apply Nat.ltb_ge in El. by apply sequential_short.
  - apply last_None in E as ->. done.
Qed.

Lemma select_plan_sequential r : is_sequential (pl_steps (select_plan r)) = true.
Proof.
  unfold select_plan. destruct (_ || _).
  - simpl. destruct (or_parallel r); [apply last_sequential_ok|]. apply sequential_all.
    apply Forall_forall. intros s ([i a] & -> & _)%list_elem_of_fmap. done.
  - destruct (or_agents r) as [|a l]; [|done]. simpl. unfold plan_from_prompt.
    destruct (match match_agents _ with [] => _ | l => l end) as [|a [|b l]]; [done..|].
    apply sequential_all, Forall_forall. intros s ([i x] & -> & _)%list_elem_of_fmap. done.
Qed.

(** Every plan [orchestrate] makes is executed sequentially, also when the
    request asks for parallel execution: its last step is marked sequential and
    [execute_plan] runs in parallel only when all steps are marked so. *)
Theorem orchestrated_plans_sequential (r : OrchestrationRequest) chat reg request schedule st :
  execute_plan chat reg request schedule (select_plan r) st
  = execute_sequential chat reg request (pl_steps (select_plan r))
      (mk_xst (mem_update (pl_context (select_plan r)) (xs_memory st)) (xs_sent st)).
Proof.
  pose proof (select_plan_sequential r) as H. unfold execute_plan.
  destruct (pl_steps (select_plan r)) as [|s l]; [done|].
  unfold is_sequential in H. apply negb_true_iff in H. by rewrite H.
Qed.

(** ** Plans from prompts *)

Lemma match_agents_wf text :
  NoDup (match_agents text) ∧ Forall (λ a, a ∈ get_all_names default_registry) (match_agents text).
Proof.
  unfold match_agents.
  assert (∀ l acc,
    NoDup acc → Forall (λ a, a ∈ get_all_names default_registry) acc →
    Forall (λ p, p.2 ∈ get_all_names default_registry) l →
    let res := foldl (λ matched '(keyword, agent),
      if contains keyword text && negb (bool_decide (agent ∈ matched)) then (matched ++ [agent])%list
      else matched) acc l in
    NoDup res ∧ Forall (λ a, a ∈ get_all_names default_registry) res) as Hl.
  { induction l as [|[k a] l IH]; intros acc Hn Hf Hall; simpl; [done|].
    apply Forall_cons in Hall as [Ha Hall]. destruct (contains k text && _) eqn:E; [|by apply IH].
    apply andb_prop in E as [_ E]. apply negb_true_iff, bool_decide_eq_false in E.
    apply IH; [|by apply Forall_app; split; [|constructor]|done].
    apply NoDup_app. split; [done|]. split; [|apply NoDup_singleton].
    intros x Hx ->%list_elem_of_singleton. done. }
  apply Hl; [constructor|constructor|]. apply (bool_decide_unpack _). by vm_compute.
Qed.
Lemma enumerate_keys_nodup {A} (l : list A) i : NoDup (enumerate_from i l).*1.
Proof.
  assert (Forall (λ j, i <= j) (enumerate_from i l).*1 ∧ NoDup (enumerate_from i l).*1) as [_ H]; [|done].
  revert i. induction l as [|x l IH]; intros i; csimpl; [split; constructor|].
  destruct (IH (i + 1)) as [Hf Hn]. split; constructor; try done; try lia.
  - eapply Forall_impl; [exact Hf|]. simpl. lia.
  - intros Hin. rewrite Forall_forall in Hf. specialize (Hf i Hin). simpl in Hf. lia.
Qed.

(** Names made from the numbers of the steps are distinct. *)
Lemma step_names_nodup (f : Z → string → PlanStep) (g : Z → Z) l :
  Inj (=) (=) g → (∀ j a, ps_step (f j a) = "step_" +:+ str_of_Z (g j)) →
  NoDup (ps_step <$> ((λ '(j, a), f j a) <$> enumerate l)).
Proof.
  intros Hg Hf.
  assert (ps_step <$> ((λ '(j, a), f j a) <$> enumerate l)
    = (λ j, "step_" +:+ str_of_Z (g j)) <$> (enumerate l).*1) as ->.
  { rewrite <- !list_fmap_compose. apply list_fmap_ext. intros k [j a] _. apply Hf. }
  apply NoDup_fmap_2; [|apply enumerate_keys_nodup].
  intros x y E. apply (inj (String.append _)) in E. apply Hg. by apply (inj pretty) in E.
Qed.

Lemma prompt_plan_steps prompt :
  ∃ agents,
    agents ≠ [] ∧ NoDup agents ∧ Forall (λ a, a ∈ get_all_names default_registry) agents ∧
    ps_agent <$> plan_from_prompt prompt = agents ∧
    (length agents = 1%nat ∨
     plan_from_prompt prompt = (λ '(i, a), prompt_step prompt (zlen agents) i a) <$> enumerate agents).
Proof.
  destruct (match_agents_wf (lower prompt)) as [Hn Hf].
  unfold plan_from_prompt. destruct (match_agents (lower prompt)) as [|a [|b l]] eqn:E.
  - exists ["chat"]. split; [done|]. split; [apply NoDup_singleton|]. split; [|split; [done|by left]].
    apply (bool_decide_unpack _). by vm_compute.
  - exists [a]. repeat (split; [done|]). by left.
  - exists (a :: b :: l). split; [done|]. split; [done|]. split; [done|]. split; [|by right].
    rewrite <- list_fmap_compose. rewrite <- (enumerate_snd (a :: b :: l)) at 2.
    apply list_fmap_ext. by intros k [j x] _.
Qed.

(** The plan of a prompt has steps for distinct registered agents under
    distinct names, and its last step gets the prompt as it is. *)
Theorem prompt_plan_wf (prompt : string) :
  let steps := pl_steps (create_plan prompt [] false) in
  steps ≠ [] ∧
  NoDup (ps_agent <$> steps) ∧
  NoDup (ps_step <$> steps) ∧
  Forall (λ s, ∃ a, get_agent (ps_agent s) default_registry = Some a ∧ agent_name a = ps_agent s) steps ∧
  (∃ s, last steps = Some s ∧ ps_prompt_template s = prompt).
Proof.
  destruct (prompt_plan_steps prompt) as (agents & Hne & Hn & Hf & Ha & Hs).
  change (pl_steps (create_plan prompt [] false)) with (plan_from_prompt prompt). cbv zeta.
  assert (plan_from_prompt prompt ≠ []) as Hne' by (intros E; apply Hne; rewrite <- Ha, E; reflexivity).
  split; [done|]. rewrite Ha. split; [done|].
  assert (∀ s, s ∈ plan_from_prompt prompt →
    ∃ a, get_agent (ps_agent s) default_registry = Some a ∧ agent_name a = ps_agent s) as Hreg.
  { intros s Hin. rewrite Forall_forall in Hf.
    destruct (dict_get (ps_agent s) default_registry) as [a|] eqn:E.
    - exists a. split; [done|]. exact (keyed_get agent_name _ _ _ default_registry_wf E).
    - apply dict_get_None in E. destruct E. apply Hf. rewrite <- Ha. by apply list_elem_of_fmap_2. }
  split; [|split; [by apply Forall_forall|]]; destruct Hs as [Hl|Hs].
  - rewrite <- Ha, length_fmap in Hl. destruct (plan_from_prompt prompt) as [|s [|]]; try done. apply NoDup_singleton.
  - rewrite Hs. apply (step_names_nodup (prompt_step prompt (zlen agents)) (λ j, j + 1)).
    { intros j k. lia. }
    intros j a. reflexivity.
  - rewrite <- Ha, length_fmap in Hl. revert Hl. unfold plan_from_prompt.
    destruct (match match_agents _ with [] => _ | l => l end) as [|a [|b l]]; try done; [].
    intros _. eexists. split; reflexivity.
  - rewrite Hs. destruct agents as [|a l _] using rev_ind; [done|].
    exists (prompt_step prompt (zlen (l ++ [a])) (zlen l) a). rewrite fmap_last.
    assert (enumerate (l ++ [a]) = enumerate l ++ [(zlen l, a)])%list as ->.
    { clear. unfold enumerate. rewrite <- (Z.add_0_l (zlen l)). generalize 0 as i.
      induction l as [|x l IH]; intros i; [by rewrite Z.add_0_r|]. simpl. rewrite IH.
      unfold zlen. simpl. by replace (i + 1 + Z.of_nat (length l)) with (i + Z.pos (Pos.of_succ_nat (length l))) by lia. }
    rewrite last_snoc. split; [done|]. unfold prompt_step. rewrite zlen_app. change (zlen [a]) with 1. simpl.
    by rewrite Z.add_simpl_r, Z.eqb_refl.
Qed.
(** ** Sequential execution *)

Section Sequential.
Context (chat : nat → ChatRequest → Reply) (reg : registry) (request : option ChatRequest).

Abbreviation run_step := (execute_step chat reg request).
Abbreviation run_seq := (execute_sequential chat reg request).

Definition step_key (n : string) : string := "step_" +:+ n.

Lemma step_key_output n a : output_key a ≠ step_key n.
Proof. by destruct a. Qed.

Lemma step_key_inj : Inj (=) (=) step_key.
Proof. intros x y E. by apply (inj (String.append _)) in E. Qed.

(** What a step does besides its result: it keeps its name, a failure leaves
    the memory alone, and no step writes under the name of a step. *)
Lemma execute_step_frame step st r step' st' :
  run_step step st = (r, step', st') →
  ps_step step' = ps_step step ∧
  (∀ x, r = Ok x → ar_step x = ps_step step) ∧
  ∀ n, dict_get (step_key n) (xs_memory st') = dict_get (step_key n) (xs_memory st).
Proof.
  unfold execute_step, start_step. destruct (get_agent _ _) as [a|]; simpl; [|by intros [= <- <- <-]; naive_solver].
  destruct (fle _ _); simpl; [by intros [= <- <- <-]; naive_solver|].
  unfold send. destruct (chat _ _) as [c p m|e| |]; simpl; intros [= <- <- <-]; simpl;
    (split; [done|]); (split; [by intros x [= <-]|]); intros n; try done.
  unfold mem_set. by rewrite dict_get_set_ne by apply step_key_output.
Qed.

Lemma remember_get step c st n :
  dict_get (step_key n) (xs_memory (remember step c st))
  = if decide (n = ps_step step) then Some (MStr c) else dict_get (step_key n) (xs_memory st).
Proof.
  unfold remember, set_memory, mem_set. simpl. rewrite dict_get_set.
  destruct (decide (step_key (ps_step step) = step_key n)) as [E|E].
  - apply step_key_inj in E as ->. rewrite decide_True by done. by rewrite decide_True.
  - rewrite decide_False by done. rewrite decide_False by congruence. by rewrite dict_get_set_ne.
Qed.

(** The entries of steps that are not in the list are kept. *)
Lemma sequential_frame steps st r steps' st' n :
  run_seq steps st = (r, steps', st') → n ∉ ps_step <$> steps →
  dict_get (step_key n) (xs_memory st') = dict_get (step_key n) (xs_memory st).
Proof.
  revert st r steps' st'. induction steps as [|s l IH]; intros st r steps' st'; cbn [execute_sequential]; [by intros [= <- <- <-]|].
  destruct (run_step s st) as [[x s'] st1] eqn:E. apply execute_step_frame in E as (Hs & _ & Hk).
  rewrite fmap_cons, not_elem_of_cons. intros Hrun [Hn Hl]. destruct x as [x|e]; [|by simplify_eq].
  destruct (ar_success x); [|by simplify_eq].
  destruct (run_seq l _) as [[rs l'] st2] eqn:El. specialize (IH _ _ _ _ El Hl). simplify_eq.
  rewrite IH, remember_get, Hs. by rewrite decide_False.
Qed.

(** The sequential engine: the results are those of the first steps, every
    one but the last succeeded, it stops before the end only after a failure,
    the steps it did not reach are as they were, and the content of every
    successful step is in the memory under the name of the step. *)
Theorem sequential_run (steps : list PlanStep) (st : xst) rs steps' st' :
  run_seq steps st = (Ok rs, steps', st') →
  NoDup (ps_step <$> steps) →
  ar_step <$> rs = take (length rs) (ps_step <$> steps) ∧
  (∀ i r, rs !! i = Some r → (S i < length rs)%nat → ar_success r = true) ∧
  ((length rs < length steps)%nat → ∃ r, last rs = Some r ∧ ar_success r = false) ∧
  drop (length rs) steps' = drop (length rs) steps ∧
  ∀ r, r ∈ rs → ar_success r = true →
    dict_get ("step_" +:+ ar_step r) (xs_memory st') = Some (MStr (ar_content r)).
Proof.
  revert st rs steps' st'. induction steps as [|s l IH]; intros st rs steps' st'; cbn [execute_sequential].
  { intros [= <- <- <-] _. repeat split; try done; [simpl; lia|]. by intros r ?%elem_of_nil. }
  destruct (run_step s st) as [[x s'] st1] eqn:E. apply execute_step_frame in E as (Hs & Hx & Hk).
  rewrite fmap_cons. intros Hrun [Hn Hl]%NoDup_cons. destruct x as [x|e]; [|done].
  specialize (Hx x eq_refl). destruct (ar_success x) eqn:Hok.
  - destruct (run_seq l _) as [[[rs1|e] l'] st2] eqn:El; [|done]. injection Hrun as <- <- <-.
    pose proof (sequential_frame _ _ _ _ _ (ps_step s) El Hn) as Hkeep.
    destruct (IH _ _ _ _ El Hl) as (H1 & H2 & H3 & H4 & H5).
    split; [|split; [|split; [|split]]].
    + csimpl. by rewrite H1, Hx.
    + intros [|i] r Hr Hi; simpl in *; [by simplify_eq|]. apply (H2 i r Hr). lia.
    + simpl. intros Hlen. destruct H3 as (r & Hr & Hf); [lia|]. exists r. split; [|done].
      destruct rs1; [done|]. exact Hr.
    + exact H4.
    + intros r [->|Hr]%elem_of_cons Hsucc; [|by apply H5]. rewrite Hx.
      change (dict_get (step_key (ps_step s)) (xs_memory st2) = Some (MStr (ar_content x))).
      rewrite Hkeep, remember_get, Hs. by rewrite decide_True.
  - injection Hrun as <- <- <-. split; [|split; [|split; [|split]]].
    + csimpl. by rewrite Hx, take_0.
    + intros i r _ Hi. simpl in Hi. lia.
    + intros _. eauto.
    + done.
    + intros r Hr Hsucc. apply list_elem_of_singleton in Hr as ->. congruence.
Qed.
End Sequential.
(** ** Parallel execution *)

Section Parallel.
Context (reg : registry) (request : option ChatRequest).
Context (answer : ChatRequest → Reply) (answered : ∀ r, answer r ≠ Cancelled).

Let chat (n : nat) (r : ChatRequest) : Reply := answer r.
Abbreviation start := (start_step chat reg request).

Definition empty_state : xst := mk_xst [] [].

(** The result of a step that is run alone, on an empty memory. *)
Definition alone (s : PlanStep) : AgentResult :=
  match (finish_step (start s empty_state).1.1 empty_state).1 with
  | Ok r => r
  | Err _ => failed_result "" "" (AgentError "")
  end.

(** A step whose request does not depend on the memory. *)
Definition memoryless (s : PlanStep) : Prop :=
  no_char open_brace (ps_prompt_template s) = true ∧ get_agent (ps_agent s) reg ≠ Some ReviewerAgent.

Lemma resolve_plain m t : no_char open_brace t = true → resolve_refs m t = t.
Proof. intros H. rewrite <- (str_app_nil t) at 1. rewrite resolve_lit by done. by rewrite str_app_nil. Qed.

Lemma with_template_same s : with_template (ps_prompt_template s) s = s.
Proof. by destruct s. Qed.

Lemma start_blind s st :
  memoryless s → ∃ st', start s st = ((start s empty_state).1.1, s, st').
Proof.
  intros [Ht Hr]. unfold start_step. destruct (get_agent _ reg) as [a|]; [|simpl; eauto].
  rewrite !resolve_plain, !with_template_same by done.
  destruct (fle _ _); [simpl; eauto|]. unfold send, chat. simpl. eexists.
  assert (agent_request a s (xs_memory st) request = agent_request a s [] request) as ->; [|done].
  by destruct a.
Qed.

Lemma finish_alone s st :
  ∃ st', finish_step (start s empty_state).1.1 st = (Ok (alone s), st').
Proof.
  unfold alone, start_step. destruct (get_agent _ reg) as [a|]; [|simpl; eauto].
  destruct (fle _ _); [simpl; eauto|]. unfold send, chat. cbn.
  pose proof (answered (agent_request a (with_template (resolve_refs [] (ps_prompt_template s)) s) [] request)) as Hc.
  destruct (answer _); simpl; eauto. done.
Qed.

(** After [c i] resumptions of each step [i]. *)
Definition progress (steps : list PlanStep) (c : nat → nat) (p : pstate) : Prop :=
  p_steps p = steps ∧
  ∀ i s, steps !! i = Some s →
    p_waiting p !! i = (if decide (c i = 0%nat) then None else Some (start s empty_state).1.1) ∧
    p_results p !! i = (if decide (c i < 2)%nat then None else Some (alone s)).

Definition count_up (i : nat) (c : nat → nat) : nat → nat := λ j, if decide (i = j) then S (c j) else c j.

Lemma bump_eq i c : count_up i c i = S (c i).
Proof. unfold count_up. by rewrite decide_True. Qed.

Lemma bump_ne i j c : j ≠ i → count_up i c j = c j.
Proof. intros H. unfold count_up. by rewrite decide_False. Qed.

Lemma resume_progress steps c p i :
  Forall memoryless steps → progress steps c p → (i < length steps)%nat →
  ∃ p', resume chat reg request i p = (Ok tt, p') ∧ progress steps (count_up i c) p'.
Proof.
  intros Hb [Hs Hp] Hi. apply lookup_lt_is_Some in Hi as [s Hi]. unfold resume.
  destruct (Hp i s Hi) as [Hw Hr]. rewrite Hw, Hr, Hs, Hi.
  pose proof (Forall_lookup_1 _ _ _ _ Hb Hi) as Hbs.
  assert (∀ c' (p' : pstate), p_steps p' = steps →
    (∀ j, j ≠ i → c' j = c j ∧ p_waiting p' !! j = p_waiting p !! j ∧ p_results p' !! j = p_results p !! j) →
    p_waiting p' !! i = (if decide (c' i = 0%nat) then None else Some (start s empty_state).1.1) →
    p_results p' !! i = (if decide (c' i < 2)%nat then None else Some (alone s)) →
    progress steps c' p') as Hprog.
  { intros c' p' Hs' Ho Hw' Hr'. split; [done|]. intros j sj Hj.
    destruct (decide (j = i)) as [->|Hne]; [by simplify_eq|].
    destruct (Ho j Hne) as (-> & -> & ->). by apply Hp. }
  destruct (decide (c i = 0%nat)) as [H0|H0].
  - rewrite decide_True by lia. destruct (start_blind s (p_st p) Hbs) as [st' ->].
    eexists. split; [done|]. apply Hprog; simpl.
    + by rewrite list_insert_id.
    + intros j Hj. by rewrite bump_ne, lookup_insert_ne.
    + by rewrite lookup_insert_eq, bump_eq.
    + rewrite Hr, bump_eq. by rewrite !decide_True by lia.
  - destruct (decide (c i < 2)%nat).
    + destruct (finish_alone s (p_st p)) as [st' ->]. eexists. split; [done|]. apply Hprog; simpl; [done|..].
      * intros j Hj. by rewrite bump_ne, lookup_insert_ne.
      * rewrite Hw, bump_eq. done.
      * rewrite lookup_insert_eq, bump_eq. by rewrite decide_False by lia.
    + eexists. split; [done|]. apply Hprog; [done|..].
      * intros j Hj. by rewrite bump_ne.
      * rewrite Hw, bump_eq. done.
      * rewrite Hr, bump_eq. by rewrite decide_False by lia.
Qed.

Lemma run_schedule_progress steps schedule c p :
  Forall memoryless steps → progress steps c p → Forall (λ i, i < length steps)%nat schedule →
  ∃ p', run_schedule chat reg request schedule p = (Ok tt, p') ∧
    progress steps (λ i, c i + count_occ Nat.eq_dec schedule i)%nat p'.
Proof.
  intros Hb. revert c p. induction schedule as [|i l IH]; intros c p Hp Hl; cbn [run_schedule].
  - exists p. split; [done|]. destruct Hp as [Hs Hp]. split; [done|]. intros j s Hj. simpl.
    rewrite Nat.add_0_r. by apply Hp.
  - apply Forall_cons in Hl as [Hi Hl].
    destruct (resume_progress steps c p i Hb Hp Hi) as (p1 & -> & H1).
    destruct (IH _ _ H1 Hl) as (p2 & -> & [Hs2 H2]). exists p2. split; [done|]. split; [done|].
    intros j s Hj. specialize (H2 j s Hj).
    assert (count_up i c j + count_occ Nat.eq_dec l j = c j + count_occ Nat.eq_dec (i :: l) j)%nat as <-; [|done].
    unfold count_up. simpl. destruct (decide (i = j)), (Nat.eq_dec i j); done || lia.
Qed.

Lemma remember_all_last steps s st :
  last steps = Some s →
  dict_get "last_output" (xs_memory (remember_all steps (alone <$> steps) st))
  = Some (MStr (ar_content (alone s))).
Proof.
  intros Hl. apply last_Some in Hl as [l ->]. unfold remember_all.
  rewrite fmap_app, zip_with_app, foldl_app by (by rewrite length_fmap). simpl.
  unfold remember, set_memory, mem_set. simpl.
  rewrite dict_get_set_ne by done. by rewrite dict_get_set_eq.
Qed.

Lemma mapM_results steps (results : gmap nat AgentResult) :
  (∀ i s, steps !! i = Some s → results !! i = Some (alone s)) →
  mapM (λ i, results !! i) (seq 0 (length steps)) = Some (alone <$> steps).
Proof.
  intros H. apply mapM_Some. apply Forall2_same_length_lookup_2; [by rewrite length_seq, length_fmap|].
  intros i k r Hk Hr. apply lookup_seq in Hk as [-> Hi].
  rewrite list_lookup_fmap in Hr. destruct (steps !! i) as [s|] eqn:E; simplify_eq/=. by rewrite (H i s E).
Qed.

(** (C24) Parallel execution does not depend on the interleaving: when no step reads
    the memory, the router answers every request by a function of the request
    (whatever it was asked before) and no call is cancelled, every schedule that runs each step to its end gives each step the result it
    has alone, in the order of the steps, and leaves the content of the last
    step as the last output. *)
Theorem parallel_deterministic (steps : list PlanStep) (schedule : list nat) (st : xst) :
  Forall memoryless steps →
  Forall (λ i, i < length steps)%nat schedule →
  (∀ i, (i < length steps)%nat → (2 <= count_occ Nat.eq_dec schedule i)%nat) →
  ∃ st', execute_parallel chat reg request schedule steps st = (Ok (alone <$> steps), steps, st') ∧
    ∀ s, last steps = Some s →
      dict_get "last_output" (xs_memory st') = Some (MStr (ar_content (alone s))).
Proof.
  intros Hb Hsched Hcount.
  destruct (run_schedule_progress steps schedule (λ _, 0%nat) (mk_p st steps ∅ ∅)) as (p & Hrun & Hs & Hp);
    [done|split; [done|]; intros i s _; simpl; by rewrite !lookup_empty|done|].
  unfold execute_parallel. rewrite Hrun, mapM_results, Hs.
  - eexists. split; [done|]. intros s. apply remember_all_last.
  - intros i s Hi. destruct (Hp i s Hi) as [_ ->]. apply lookup_lt_Some in Hi. specialize (Hcount i Hi).
    rewrite decide_False; [done|]. simpl. lia.
Qed.
End Parallel.
(** ** The memory is shared by the requests of an orchestrator *)

Section Shared.
Context (chat : nat → ChatRequest → Reply).

(** A plan whose last step succeeded leaves its content as the last output. *)
Lemma sequential_last_output reg request steps st rs steps' st' r :
  execute_sequential chat reg request steps st = (Ok rs, steps', st') →
  last rs = Some r → ar_success r = true →
  dict_get "last_output" (xs_memory st') = Some (MStr (ar_content r)).
Proof.
  revert st rs steps' st'. induction steps as [|s l IH]; intros st rs steps' st'; cbn [execute_sequential].
  { by intros [= <- <- <-]. }
  destruct (execute_step _ _ _ s st) as [[x s'] st1]. destruct x as [x|e]; [|done].
  destruct (ar_success x) eqn:Hok.
  - destruct (execute_sequential _ _ _ l _) as [[[rs1|e] l'] st2] eqn:El; [|done].
    intros [= <- <- <-]. destruct rs1 as [|y rs1].
    + intros [= <-] _. destruct l as [|s2 l]; cbn [execute_sequential] in El.
      * injection El as <- <-. unfold remember, set_memory, mem_set. simpl.
        rewrite dict_get_set_ne by done. by rewrite dict_get_set_eq.
      * destruct (execute_step _ _ _ s2 _) as [[[z|e] s2'] st3]; [|done].
        destruct (ar_success z); [|done].
        by destruct (execute_sequential _ _ _ l _) as [[[|] ?] ?].
    + intros Hr. exact (IH _ _ _ _ El Hr).
  - intros [= <- <- <-] [= <-]. congruence.
Qed.

(** What one request got from its agents, the next one can send to the
    router: the memory belongs to the orchestrator, not to the request. *)
Theorem memory_crosses_requests (first second : option ChatRequest) steps st rs steps' st1 r schedule :
  execute_sequential chat default_registry first steps st = (Ok rs, steps', st1) →
  last rs = Some r → ar_success r = true →
  last (xs_sent (execute_plan chat default_registry second schedule
                   (create_single_plan "{{last_output}}" "coder") st1).2)
  = Some (build_request (agent_prompt CodingAgent [] (ar_content r)) second).
Proof.
  intros Hrun Hl Hok. pose proof (sequential_last_output _ _ _ _ _ _ _ _ Hrun Hl Hok) as Hm.
  unfold execute_plan, create_single_plan. cbn [pl_steps pl_context].
  change (is_parallel [plan_step "single" "coder" "sequential" "{{last_output}}"] && _) with false.
  change (mem_update [] (xs_memory st1)) with (xs_memory st1). cbn [execute_sequential].
  unfold execute_step, start_step. change (get_agent _ _) with (Some CodingAgent). cbn [xs_memory].
  assert (resolve_refs (xs_memory st1) "{{last_output}}" = ar_content r) as Hres.
  { pose proof (resolve_ref (xs_memory st1) "last_output" "" eq_refl eq_refl) as H.
    change ("{{" +:+ "last_output" +:+ "}}" +:+ "") with "{{last_output}}" in H. rewrite H.
    unfold ref_value, mem_get. rewrite Hm. simpl. by rewrite str_app_nil. }
  change (ps_prompt_template (plan_step "single" "coder" "sequential" "{{last_output}}")) with "{{last_output}}".
  rewrite Hres. cbn [ps_timeout with_template plan_step].
  change (fle (float_of_Z 60) fzero) with false. cbn [send].
  change (agent_request CodingAgent _ _ second) with (build_request (agent_prompt CodingAgent [] (ar_content r)) second).
  unfold send. cbn [xs_sent xs_memory].
  destruct (chat _ _); cbn; apply last_snoc.
Qed.
End Shared.

(** ** Witnesses *)

Definition echo (n : nat) (r : ChatRequest) : Reply :=
  match req_messages r with m :: _ => Answer (Some (msg_content m)) "p" "m" | [] => Raises "no message" end.

Definition demo_steps : list PlanStep := plan_from_prompt "Design the system, then write code".

Lemma sequential_run_witness :
  match execute_sequential echo default_registry None demo_steps (mk_xst [] []) with
  | (Ok rs, _, _) => length rs = 2%nat ∧ ar_step <$> rs = take (length rs) (ps_step <$> demo_steps)
  | _ => False
  end.
Proof.
  destruct (execute_sequential echo default_registry None demo_steps (mk_xst [] []))
    as [[[rs|e] steps'] st'] eqn:E; [|vm_compute in E; discriminate E].
  destruct (sequential_run echo default_registry None demo_steps (mk_xst [] []) rs steps' st' E) as [H _].
  - apply (bool_decide_unpack _). vm_compute. exact I.
  - split; [|exact H]. vm_compute in E. by injection E as <- <- <-.
Defined.

Definition secret_steps : list PlanStep := [plan_step "single" "chat" "sequential" "my secret"].

Lemma memory_crosses_requests_witness :
  match execute_sequential echo default_registry None secret_steps (mk_xst [] []) with
  | (Ok _, _, st1) =>
      last (xs_sent (execute_plan echo default_registry None []
                       (create_single_plan "{{last_output}}" "coder") st1).2)
      = Some (build_request (agent_prompt CodingAgent [] "my secret") None)
  | _ => False
  end.
Proof.
  destruct (execute_sequential echo default_registry None secret_steps (mk_xst [] []))
    as [[[rs|e] steps'] st1] eqn:E; [|vm_compute in E; discriminate E].
  assert (last rs = Some (agent_result "chat" "single" "my secret" "p" "m")) as Hl.
  { vm_compute in E. injection E as <- <- <-. reflexivity. }
  exact (memory_crosses_requests echo None None secret_steps (mk_xst [] []) rs steps' st1 _ [] E Hl eq_refl).
Defined.

(** Two steps, the second answered before the first. *)
Lemma parallel_deterministic_witness :
  ∃ st', execute_parallel (λ _, echo 0) default_registry None [0; 1; 1; 0]%nat
      [plan_step "a" "chat" "parallel" "A"; plan_step "b" "coder" "parallel" "B"] (mk_xst [] [])
    = (Ok (alone default_registry None (echo 0) <$>
             [plan_step "a" "chat" "parallel" "A"; plan_step "b" "coder" "parallel" "B"]),
       [plan_step "a" "chat" "parallel" "A"; plan_step "b" "coder" "parallel" "B"], st').
Proof.
  destruct (parallel_deterministic default_registry None (echo 0)
    ltac:(intros r; unfold echo; destruct (req_messages r); discriminate)
    [plan_step "a" "chat" "parallel" "A"; plan_step "b" "coder" "parallel" "B"] [0; 1; 1; 0]%nat (mk_xst [] []))
    as (st' & H & _).
  - repeat constructor; vm_compute; discriminate.
  - repeat constructor.
  - intros [|[|i]] Hi; simpl in *; lia.
  - exists st'. exact H.
Defined.

(** ** Behaviours to know *)

(** Outputs are stored under ["step_" ++ name], and the steps of a prompt are
    named ["step_1"], ...: a template that refers to [{{step_1}}], as the
    context references do, gets nothing. *)
Example context_refs_name_no_key :
  let '(_, _, st) := execute_sequential echo default_registry None
      (plan_from_prompt "Design the system, then write code") (mk_xst [] []) in
  ps_context_refs <$> plan_from_prompt "Design the system, then write code" = [[]; ["step_1"]] ∧
  mem_contains (xs_memory st) "step_1" = false ∧ mem_contains (xs_memory st) "step_step_1" = true.
Proof. vm_compute. repeat split; reflexivity. Qed.

(** A parallel step that fails is remembered as the last output. *)
Example failed_parallel_step_remembered :
  let '(_, _, st) := execute_parallel echo default_registry None [0; 0; 1; 1]%nat
      [plan_step "a" "chat" "parallel" "A"; plan_step "b" "nobody" "parallel" "B"] (mk_xst [] []) in
  dict_get "last_output" (xs_memory st) = Some (MStr "").
Proof. vm_compute. reflexivity. Qed.

(** A request in mode [multi] without agents has an empty plan. *)
Example multi_without_agents :
  pl_steps (select_plan (mk_orch "hello" [] "multi" [] false false false "" no_metadata)) = [].
Proof. reflexivity. Qed.
End PlanSpec.
