(* ===== verification/OrchWorkflow.v ===== *)
(** * Workflows without dependencies

    - [SeqWorkflow]: [execute_workflow] of [src/app/orchestration/executor.py]
      for workflows whose steps depend on nothing: the steps in order, with
      conditionals, loops, parallel branches, retries and time limits, over the
      memory and the agents of [Orchestration].  [WorkflowBuilder] of
      [workflow.py] writes such workflows.
    - [SeqWorkflowSpec]: execution ends; the flat sequence of [IF] and [ELSE]
      nodes implements structured conditionals when every [IF] is followed by
      its [ELSE]; what happens when one is not; retries.

    What the router answers ([chat]), what Python's [eval] makes of a condition
    ([py_eval], [None] when it raises) and whether a pause is cut short
    ([wakes]) are arguments; a pause that is not cut short comes back, and so
    does an agent.

    Two limits.  The branches of a [PARALLEL] node are run one after the other,
    so the interleavings of branches that share outputs or memory are not
    covered.  And [STimeout] and [SCancelled] do not say whose time is up: the
    innermost enclosing [TIMEOUT] node absorbs every one of them, which is right
    when it is that node's own limit; when the limit of an outer node runs out
    first, or the task of the workflow is cancelled from outside, Python passes
    the inner node, and the model does not. *)

From Stdlib Require Import ZArith Lia Ascii.
From stdpp Require Import base numbers strings gmap list.
From S2P Require Import Prelude PyFloat PyStr WorkflowDag PyDict ModelRouter Orchestration.

Open Scope string_scope.
Open Scope Z_scope.

Module SeqWorkflow.
Import PyRepr ExecMemory Planner Agents PlanExec.
Import WorkflowDag.

Instance WorkflowNodeType_eq_dec : EqDecision WorkflowNodeType.
Proof. solve_decision. Defined.

(** The exceptions that travel through the steps; [SFuel] marks the exhausted
    fuel of the model. *)
Inductive SExn :=
  | SAgent (message : string)
  | STypeError (value : MVal)
  | STimeout
  | SCancelled
  | SFuel.

Record sst := mk_sst {
  ss_memory : memory;
  ss_outputs : dict string string;
  ss_sent : list ChatRequest;
  ss_waits : nat
}.

Definition with_memory (m : memory) (st : sst) : sst :=
  mk_sst m (ss_outputs st) (ss_sent st) (ss_waits st).
Definition with_output (k v : string) (st : sst) : sst :=
  mk_sst (ss_memory st) (dict_set k v (ss_outputs st)) (ss_sent st) (ss_waits st).

Abbreviation outcome A := (result SExn A * sst)%type.

(** [for item in collection]: what iterating a value yields. *)
Fixpoint chars (s : string) : list MVal :=
  match s with EmptyString => [] | String a s => MStr (String a "") :: chars s end.

Definition iterate (v : MVal) : result SExn (list MVal) :=
  match v with
  | MList l => Ok l
  | MStr s => Ok (chars s)
  | MDict l => Ok ((λ p, MStr p.1) <$> l)
  | _ => Err (STypeError v)
  end.

(** [_merge_outputs] *)
Definition merge_texts (outputs : dict string string) (strategy : string) : string :=
  let values := List.filter truthy (dict_values outputs) in
  if bool_decide (strategy = "first") then default "" (head values)
  else if bool_decide (strategy = "last") then default "" (last values)
  else join (line_break +:+ line_break) values.

(** [except Exception] *)
Definition catchable (e : SExn) : bool := match e with SCancelled | SFuel => false | _ => true end.

Section Exec.
Context (chat : nat → ChatRequest → Reply) (reg : registry) (request : option ChatRequest).
Context (py_eval : string → memory → option bool).
Context (wakes : nat → bool).

(** [_evaluate_condition]: text that does not evaluate counts as true unless
    it is empty. *)
Definition condition_met (c : string) (m : memory) : bool :=
  if truthy c then
    let resolved := resolve_refs m c in
    match py_eval resolved m with Some b => b | None => truthy resolved end
  else true.

(** The plan step a task is run as. *)
Definition task_plan_step (s : WorkflowStep) (m : memory) : PlanStep :=
  mk_step (id s) (str_or (agent s) "chat") "sequential" (resolve_refs m (prompt s)) [] (timeout s)
    (retry_count s) "" "" [] [] "concat".

(** [_execute_workflow_task] and the assignment of its content: an unknown
    agent has empty content. *)
Definition seq_task (s : WorkflowStep) (st : sst) : outcome unit :=
  match get_agent (str_or (agent s) "chat") reg with
  | None => (Ok tt, with_output (id s) "" st)
  | Some a =>
      let step := task_plan_step s (ss_memory st) in
      let req := agent_request a step (ss_memory st) request in
      let reply := chat (length (ss_sent st)) req in
      let st := mk_sst (ss_memory st) (ss_outputs st) (ss_sent st ++ [req])%list (ss_waits st) in
      match reply with
      | Answer content provider model =>
          let '(r, m) := agent_finish a step (default "" content) provider model (ss_memory st) in
          (Ok tt, with_output (id s) (ar_content r) (with_memory m st))
      | Raises message => (Err (SAgent message), st)
      | TimesOut => (Err STimeout, st)
      | Cancelled => (Err SCancelled, st)
      end
  end.

Abbreviation runner := (list WorkflowStep → sst → outcome unit).

(** The body of a [FOR] node, once for each item. *)
Fixpoint loop_items (rec : runner) (s : WorkflowStep) (items : list MVal) (st : sst) : outcome unit :=
  match items with
  | [] => (Ok tt, st)
  | item :: rest =>
      let st := with_memory (mem_set (variable s) item (ss_memory st)) st in
      let '(r, st) := rec (substeps s) st in
      match r with Ok _ => loop_items rec s rest st | Err e => (Err e, st) end
  end.

(** [gather(..., return_exceptions=True)], whose results are dropped. *)
Fixpoint run_branches (rec : runner) (subs : list WorkflowStep) (st : sst) : outcome unit :=
  match subs with
  | [] => (Ok tt, st)
  | sub :: rest =>
      let '(r, st) := rec [sub] st in
      match r with
      | Err e => if catchable e then run_branches rec rest st else (Err e, st)
      | Ok _ => run_branches rec rest st
      end
  end.

(** The [RETRY] loop with [S more] attempts left: the last error is raised. *)
Fixpoint retry_steps (rec : runner) (subs : list WorkflowStep) (more : nat) (st : sst) : outcome unit :=
  let '(r, st) := rec subs st in
  match r with
  | Ok _ => (Ok tt, st)
  | Err e =>
      if catchable e then
        match more with O => (Err e, st) | S more => retry_steps rec subs more st end
      else (Err e, st)
  end.

(** [while i < len(steps) and steps[i].type != ELSE] *)
Fixpoint skip_to_else (steps : list WorkflowStep) : option (WorkflowStep * list WorkflowStep) :=
  match steps with
  | [] => None
  | s :: rest => if decide (type s = ELSE) then Some (s, rest) else skip_to_else rest
  end.

(** [r], then the steps [rest] *)
Definition continue_with (rest : list WorkflowStep) (o : outcome unit) : outcome (list WorkflowStep) :=
  match o with (Ok _, st) => (Ok rest, st) | (Err e, st) => (Err e, st) end.

(** One turn of the loop: the node [s], followed by [rest]; the result is what
    remains to be run.  A [TIMEOUT] node absorbs the cancellations of its own
    limit, and every other one too: see the limits above. *)
Definition seq_node (rec : runner) (s : WorkflowStep) (rest : list WorkflowStep) (st : sst)
    : outcome (list WorkflowStep) :=
  match type s with
  | TASK => continue_with rest (seq_task s st)
  | IF =>
      if condition_met (condition s) (ss_memory st) then continue_with rest (rec (substeps s) st)
      else match skip_to_else rest with
           | Some (e, rest) => continue_with rest (rec (substeps e) st)
           | None => (Ok [], st)
           end
  | ELSE => (Ok rest, st)
  | FOR =>
      match iterate (mem_get (ss_memory st) (collection s) (MList [])) with
      | Ok items => continue_with rest (loop_items rec s items st)
      | Err e => (Err e, st)
      end
  | PARALLEL => continue_with rest (run_branches rec (substeps s) st)
  | WAIT =>
      let st' := mk_sst (ss_memory st) (ss_outputs st) (ss_sent st) (S (ss_waits st)) in
      if wakes (ss_waits st) then (Ok rest, st') else (Err SCancelled, st')
  | RETRY => continue_with rest (retry_steps rec (substeps s) (Z.to_nat (Z.max (retry_count s) 1) - 1) st)
  | TIMEOUT =>
      match rec (substeps s) st with
      | (Err (STimeout | SCancelled), st) => (Ok rest, st)
      | o => continue_with rest o
      end
  | MERGE => (Ok rest, with_output (id s) (merge_texts (ss_outputs st) (merge_strategy s)) st)
  | CONDITIONAL | START | END => (Ok rest, st)
  end.

(** [_execute_workflow_steps] *)
Fixpoint run_steps (fuel : nat) (steps : list WorkflowStep) (st : sst) : outcome unit :=
  match steps with
  | [] => (Ok tt, st)
  | s :: rest =>
      match fuel with
      | O => (Err SFuel, st)
      | S fuel =>
          let '(r, st) := seq_node (run_steps fuel) s rest st in
          match r with Ok rest => run_steps fuel rest st | Err e => (Err e, st) end
      end
  end.

(** The number of nodes bounds the recursion. *)
Fixpoint step_size (s : WorkflowStep) : nat :=
  S (fold_right (λ s n, (step_size s + n)%nat) 0%nat (substeps s)).

Definition steps_size (steps : list WorkflowStep) : nat :=
  fold_right (λ s n, (step_size s + n)%nat) 0%nat steps.

Definition execute_workflow_steps (steps : list WorkflowStep) (st : sst) : outcome unit :=
  run_steps (steps_size steps) steps st.

(** ** [execute_workflow] *)

Definition has_deps (steps : list WorkflowStep) : bool :=
  existsb (λ s, match depends_on s with [] => false | _ => true end) steps.

Record SeqResult := mk_sres {
  sr_outputs : dict string string;
  sr_success : bool;
  sr_error : option SExn
}.

(** For steps without dependencies; the memory and the requests sent remain.
    A cancellation from outside passes. *)
Definition execute_workflow (steps : list WorkflowStep) (context m : memory)
    : result SExn SeqResult * sst :=
  let '(r, st) := execute_workflow_steps steps (mk_sst (mem_update context m) [] [] 0%nat) in
  match r with
  | Ok _ => (Ok (mk_sres (ss_outputs st) true None), st)
  | Err e =>
      if catchable e then (Ok (mk_sres (ss_outputs st) false (Some e)), st) else (Err e, st)
  end.
End Exec.

(** ** [WorkflowBuilder]: each call appends a node *)

Definition blank_step (i : string) (t : WorkflowNodeType) : WorkflowStep :=
  MkWorkflowStep i t "" "" [] "" "" "" [] 0 (float_of_Z 60) "concat" [] "".

Definition build_task (i agent prompt : string) : WorkflowStep :=
  MkWorkflowStep i TASK agent prompt [] "" "" "" [] 0 (float_of_Z 60) "concat" [] "".
Definition build_if (i condition : string) (subs : list WorkflowStep) : WorkflowStep :=
  MkWorkflowStep i IF "" "" [] condition "" "" subs 0 (float_of_Z 60) "concat" [] "".
Definition build_else (i : string) (subs : list WorkflowStep) : WorkflowStep :=
  MkWorkflowStep i ELSE "" "" [] "" "" "" subs 0 (float_of_Z 60) "concat" [] "".
Definition build_for (i collection variable : string) (subs : list WorkflowStep) : WorkflowStep :=
  MkWorkflowStep i FOR "" "" [] "" variable collection subs 0 (float_of_Z 60) "concat" [] "".
Definition build_parallel (i : string) (subs : list WorkflowStep) : WorkflowStep :=
  MkWorkflowStep i PARALLEL "" "" [] "" "" "" subs 0 (float_of_Z 60) "concat" [] "".
Definition build_wait (i duration : string) : WorkflowStep :=
  MkWorkflowStep i WAIT "" duration [] "" "" "" [] 0 (float_of_Z 60) "concat" [] "".
Definition build_retry (i : string) (count : Z) (subs : list WorkflowStep) : WorkflowStep :=
  MkWorkflowStep i RETRY "" "" [] "" "" "" subs count (float_of_Z 60) "concat" [] "".
Definition build_timeout (i : string) (limit : float) (subs : list WorkflowStep) : WorkflowStep :=
  MkWorkflowStep i TIMEOUT "" "" [] "" "" "" subs 0 limit "concat" [] "".
Definition build_merge (i strategy : string) : WorkflowStep :=
  MkWorkflowStep i MERGE "" "" [] "" "" "" [] 0 (float_of_Z 60) strategy [] "".

(** [to_plan_steps] *)
Definition to_plan_steps (steps : list WorkflowStep) : list PlanStep :=
  (λ s, mk_step (id s) (agent s) "sequential" (prompt s) [] (timeout s) (retry_count s) "" "" [] [] "concat")
    <$> List.filter (λ s, bool_decide (type s = TASK)) steps.
End SeqWorkflow.

Module SeqWorkflowSpec.
Import PyRepr ExecMemory Planner Agents PlanExec.
Import WorkflowDag SeqWorkflow.

Section Spec.
Context (chat : nat → ChatRequest → Reply) (reg : registry) (request : option ChatRequest).
Context (py_eval : string → memory → option bool).
Context (wakes : nat → bool).

Abbreviation node := (seq_node chat reg request py_eval wakes).
Abbreviation run_fuel := (run_steps chat reg request py_eval wakes).
Abbreviation run := (execute_workflow_steps chat reg request py_eval wakes).
Abbreviation runner := (list WorkflowStep → sst → result SExn unit * sst).

(** ** The fuel is enough *)

Lemma steps_size_cons s l : steps_size (s :: l) = S (steps_size (substeps s) + steps_size l).
Proof. by destruct s. Qed.

Lemma steps_size_elem s l : s ∈ l → (steps_size [s] <= steps_size l)%nat.
Proof.
  induction l as [|x l IH]; intros H; [by apply elem_of_nil in H|].
  apply elem_of_cons in H as [->|H]; [|specialize (IH H)]; rewrite !steps_size_cons in *; simpl in *; lia.
Qed.

Lemma skip_to_else_size l e rest :
  skip_to_else l = Some (e, rest) →
  type e = ELSE ∧ (steps_size (substeps e) + steps_size rest < steps_size l)%nat.
Proof.
  induction l as [|x l IH]; cbn [skip_to_else]; [done|]. case_decide as Et.
  - intros [= -> ->]. rewrite steps_size_cons. split; [done|lia].
  - intros H. destruct (IH H). rewrite steps_size_cons. split; [done|lia].
Qed.

(** What remains after a node is no longer than what follows it. *)
Lemma node_rest rec s rest st rest' st' :
  node rec s rest st = (Ok rest', st') → (steps_size rest' <= steps_size rest)%nat.
Proof.
  assert (∀ l (o : result SExn unit * sst), continue_with l o = (Ok rest', st') → rest' = l) as Hc.
  { intros l [[u|e] st1]; simpl; congruence. }
  unfold seq_node. intros H.
  destruct (type s); try (apply Hc in H as ->; done); try (injection H as <- <-; done).
  - destruct (condition_met _ _ _); [by apply Hc in H as ->|].
    destruct (skip_to_else rest) as [[e l]|] eqn:E.
    + apply Hc in H as ->. apply skip_to_else_size in E. lia.
    + injection H as <- <-. simpl. lia.
  - destruct (iterate _); [by apply Hc in H as ->|done].
  - destruct (wakes _); [|done]. by injection H as <- <-.
  - destruct (rec (substeps s) st) as [[u|[]] st1]; simpl in H; try done; by injection H as <- <-.
Qed.

Lemma for_each_ext (rec rec' : runner) s items st :
  (∀ st, rec (substeps s) st = rec' (substeps s) st) → loop_items rec s items st = loop_items rec' s items st.
Proof.
  intros H. revert st. induction items as [|x l IH]; intros st; simpl; [done|].
  rewrite H. destruct (rec' _ _) as [[u|e] st1]; [apply IH|done].
Qed.

Lemma run_branches_ext (rec rec' : runner) subs st :
  (∀ s st, s ∈ subs → rec [s] st = rec' [s] st) → run_branches rec subs st = run_branches rec' subs st.
Proof.
  revert st. induction subs as [|s l IH]; intros st H; simpl; [done|].
  rewrite (H s st) by left. assert (∀ st, run_branches rec l st = run_branches rec' l st) as Hl.
  { intros st'. apply IH. intros x st0 Hx. apply H. by right. }
  destruct (rec' [s] st) as [[u|e] st1]; [done|]. by destruct (catchable e).
Qed.

Lemma retry_steps_ext (rec rec' : runner) subs more st :
  (∀ st, rec subs st = rec' subs st) → retry_steps rec subs more st = retry_steps rec' subs more st.
Proof.
  intros H. revert st. induction more as [|n IH]; intros st; simpl; rewrite H; [done|].
  destruct (rec' subs st) as [[u|e] st1]; [done|]. destruct (catchable e); [apply IH|done].
Qed.

(** A node runs only lists that are smaller than it and what follows. *)
Lemma node_ext (rec rec' : runner) s rest st :
  (∀ l st, (steps_size l < steps_size (s :: rest))%nat → rec l st = rec' l st) →
  node rec s rest st = node rec' s rest st.
Proof.
  rewrite steps_size_cons. intros H.
  assert (∀ st, rec (substeps s) st = rec' (substeps s) st) as Hs by (intros; apply H; lia).
  unfold seq_node. destruct (type s); try done.
  - destruct (condition_met _ _ _); [by rewrite Hs|].
    destruct (skip_to_else rest) as [[e l]|] eqn:E; [|done].
    apply skip_to_else_size in E as [_ E]. rewrite H by lia. done.
  - destruct (iterate _); [|done]. by rewrite (for_each_ext rec rec').
  - rewrite (run_branches_ext rec rec'); [done|]. intros x st' Hx. apply H.
    apply steps_size_elem in Hx. lia.
  - by rewrite (retry_steps_ext rec rec').
  - by rewrite Hs.
Qed.

Lemma fuel_irrelevant n m steps st :
  (steps_size steps <= n)%nat → (steps_size steps <= m)%nat → run_fuel n steps st = run_fuel m steps st.
Proof.
  revert m steps st. induction n as [|n IH]; intros m steps st Hn Hm.
  { destruct steps as [|s l]; [by destruct m|]. rewrite steps_size_cons in Hn. lia. }
  destruct steps as [|s l]; [by destruct m|]. rewrite steps_size_cons in Hn, Hm.
  destruct m as [|m]; [lia|]. cbn [run_steps].
  rewrite (node_ext (run_fuel n) (run_fuel m)).
  - destruct (node _ s l st) as [[rest|e] st'] eqn:E; [|done]. apply node_rest in E. apply IH; lia.
  - intros l' st' Hl. rewrite steps_size_cons in Hl. apply IH; lia.
Qed.

(** The equation of the loop. *)
Lemma run_cons s rest st :
  run (s :: rest) st =
  match node run s rest st with (Ok rest, st) => run rest st | (Err e, st) => (Err e, st) end.
Proof.
  unfold execute_workflow_steps at 1. destruct (steps_size (s :: rest)) as [|n] eqn:En;
    rewrite steps_size_cons in En; [lia|]. cbn [run_steps].
  rewrite (node_ext (run_fuel n) run).
  - destruct (node _ s rest st) as [[l|e] st'] eqn:E; [|done]. apply node_rest in E.
    apply fuel_irrelevant; lia.
  - intros l st' Hl. rewrite steps_size_cons in Hl. apply fuel_irrelevant; lia.
Qed.

(** ** Execution ends *)

Definition no_fuel_error (o : result SExn unit * sst) : Prop := o.1 ≠ Err SFuel.

Lemma for_each_ends (rec : runner) s items st :
  (∀ st, no_fuel_error (rec (substeps s) st)) → no_fuel_error (loop_items rec s items st).
Proof.
  intros H. revert st. induction items as [|x l IH]; intros st; simpl; [done|].
  specialize (H (with_memory (mem_set (variable s) x (ss_memory st)) st)).
  destruct (rec _ _) as [[u|e] st1]; [apply IH|exact H].
Qed.

Lemma run_branches_ends (rec : runner) subs st :
  (∀ s st, s ∈ subs → no_fuel_error (rec [s] st)) → no_fuel_error (run_branches rec subs st).
Proof.
  revert st. induction subs as [|s l IH]; intros st H; simpl; [done|].
  pose proof (H s st ltac:(left)) as Hs.
  assert (∀ st, no_fuel_error (run_branches rec l st)) as Hl.
  { intros st'. apply IH. intros x st0 Hx. apply H. by right. }
  destruct (rec [s] st) as [[u|e] st1]; [apply Hl|]. destruct (catchable e); [apply Hl|exact Hs].
Qed.

Lemma retry_steps_ends (rec : runner) subs more st :
  (∀ st, no_fuel_error (rec subs st)) → no_fuel_error (retry_steps rec subs more st).
Proof.
  intros H. revert st. induction more as [|n IH]; intros st; simpl; specialize (H st);
    destruct (rec subs st) as [[u|e] st1]; try done; destruct (catchable e); try exact H. apply IH.
Qed.

Lemma continue_ends l o : no_fuel_error o → (continue_with l o).1 ≠ Err SFuel.
Proof. destruct o as [[u|e] st]; unfold no_fuel_error; simpl; congruence. Qed.

Lemma run_task_ends s st : no_fuel_error (seq_task chat reg request s st).
Proof. unfold seq_task. destruct (get_agent _ _); [|done]. by destruct (chat _ _). Qed.

Lemma node_ends (rec : runner) s rest st :
  (∀ l st, (steps_size l < steps_size (s :: rest))%nat → no_fuel_error (rec l st)) →
  (node rec s rest st).1 ≠ Err SFuel.
Proof.
  rewrite steps_size_cons. intros H.
  assert (∀ st, no_fuel_error (rec (substeps s) st)) as Hs by (intros; apply H; lia).
  unfold seq_node. destruct (type s); try done.
  - apply continue_ends, run_task_ends.
  - destruct (condition_met _ _ _); [by apply continue_ends|].
    destruct (skip_to_else rest) as [[e l]|] eqn:E; [|done].
    apply skip_to_else_size in E as [_ E]. apply continue_ends, H. lia.
  - destruct (iterate _) as [items|e] eqn:E; [by apply continue_ends, for_each_ends|].
    unfold iterate in E. by destruct (mem_get _ _ _); simplify_eq.
  - apply continue_ends, run_branches_ends. intros x st' Hx. apply H. apply steps_size_elem in Hx. lia.
  - by destruct (wakes _).
  - by apply continue_ends, retry_steps_ends.
  - specialize (Hs st). destruct (rec (substeps s) st) as [[u|[]] st1]; done.
Qed.

Lemma run_ends steps st : no_fuel_error (run steps st).
Proof.
  remember (steps_size steps) as n eqn:Hn. revert steps st Hn.
  induction (lt_wf n) as [n _ IH]. intros [|s l] st ->; [done|]. rewrite run_cons.
  pose proof (node_ends run s l st) as Hnode.
  destruct (node run s l st) as [[rest|e] st'] eqn:E.
  - apply node_rest in E. apply (IH (steps_size rest)); [|done]. rewrite steps_size_cons. lia.
  - unfold no_fuel_error. simpl. intros [= ->]. apply Hnode; [|done].
    intros k st0 Hk. by apply (IH (steps_size k)).
Qed.

(** A workflow without dependencies always ends, whatever the agents do: its
    result says whether it succeeded, unless it is cancelled from outside. *)
Theorem sequential_workflow_ends (steps : list WorkflowStep) (context m : memory) :
  (∃ r, (execute_workflow chat reg request py_eval wakes steps context m).1 = Ok r ∧
    (sr_success r = true ↔ sr_error r = None)) ∨
  (execute_workflow chat reg request py_eval wakes steps context m).1 = Err SCancelled.
Proof.
  unfold execute_workflow. pose proof (run_ends steps (mk_sst (mem_update context m) [] [] 0%nat)) as H.
  destruct (run steps _) as [[u|e] st]; [left; eexists; split; [reflexivity|done]|].
  unfold no_fuel_error in H. destruct e; simpl in *; try (left; eexists; split; [reflexivity|done]); by auto.
Qed.

(** ** Structured workflows *)

(** A node of a structured workflow: a leaf (any node but [IF] and [ELSE]), a
    conditional with both branches, or a loop, retry or time limit around a
    structured body. *)
Inductive tree :=
  | PLeaf (s : WorkflowStep)
  | PIf (i condition : string) (yes no : list tree)
  | PNest (s : WorkflowStep) (body : list tree).

Definition with_substeps (subs : list WorkflowStep) (s : WorkflowStep) : WorkflowStep :=
  MkWorkflowStep (id s) (type s) (agent s) (prompt s) (tools s) (condition s) (variable s) (collection s)
    subs (retry_count s) (timeout s) (merge_strategy s) (depends_on s) (parallel_branch s).

(** The flat list of nodes that [WorkflowBuilder] writes. *)
Fixpoint compile (p : tree) : list WorkflowStep :=
  match p with
  | PLeaf s => [s]
  | PIf i c yes no => [build_if i c (List.flat_map compile yes); build_else i (List.flat_map compile no)]
  | PNest s body => [with_substeps (List.flat_map compile body) s]
  end.

Definition compile_all (ps : list tree) : list WorkflowStep := List.flat_map compile ps.

Fixpoint prog_wf (p : tree) : bool :=
  match p with
  | PLeaf s => negb (bool_decide (type s = IF)) && negb (bool_decide (type s = ELSE))
  | PIf _ _ yes no => forallb prog_wf yes && forallb prog_wf no
  | PNest s body =>
      match type s with FOR | RETRY | TIMEOUT => true | _ => false end && forallb prog_wf body
  end.

(** [p; q] *)
Definition and_then (o : result SExn unit * sst) (k : sst → result SExn unit * sst) : result SExn unit * sst :=
  match o with (Ok _, st) => k st | (Err e, st) => (Err e, st) end.

Definition done_with (o : result SExn (list WorkflowStep) * sst) : result SExn unit * sst :=
  match o with (Ok _, st) => (Ok tt, st) | (Err e, st) => (Err e, st) end.

Section InOrder.
Context {A : Type} (f : A → sst → result SExn unit * sst).

Fixpoint in_order (l : list A) (st : sst) : result SExn unit * sst :=
  match l with [] => (Ok tt, st) | x :: l => and_then (f x st) (in_order l) end.
End InOrder.

(** What a structured workflow means: one branch of a conditional, then what
    follows it. *)
Fixpoint eval (p : tree) (st : sst) : result SExn unit * sst :=
  match p with
  | PLeaf s => run [s] st
  | PIf _ c yes no =>
      if condition_met py_eval c (ss_memory st) then in_order eval yes st else in_order eval no st
  | PNest s body => done_with (node (λ _, in_order eval body) s [] st)
  end.

Definition eval_all (ps : list tree) (st : sst) : result SExn unit * sst := in_order eval ps st.

(** Nodes other than [IF] do not look at what follows them. *)
Lemma node_done rec s rest st :
  type s ≠ IF →
  node rec s rest st
  = match done_with (node rec s [] st) with (Ok _, st) => (Ok rest, st) | (Err e, st) => (Err e, st) end.
Proof.
  assert (∀ o : result SExn unit * sst,
    continue_with rest o
    = match done_with (continue_with [] o) with (Ok _, st) => (Ok rest, st) | (Err e, st) => (Err e, st) end) as Hc.
  { by intros [[u|e] st1]. }
  intros H. unfold seq_node. destruct (type s); try done; try apply Hc.
  - destruct (iterate _); [apply Hc|done].
  - by destruct (wakes _).
  - destruct (rec (substeps s) st) as [[u|[]] st1]; done.
Qed.

Lemma run_nil st : run [] st = (Ok tt, st).
Proof. done. Qed.

Lemma run_one s st : type s ≠ IF → run [s] st = done_with (node run s [] st).
Proof.
  intros H. rewrite run_cons, node_done by done. by destruct (node run s [] st) as [[l|e] st'].
Qed.

Lemma run_leaf s rest st : type s ≠ IF → run (s :: rest) st = and_then (run [s] st) (run rest).
Proof.
  intros H. rewrite run_one by done. rewrite run_cons, node_done by done.
  by destruct (node run s [] st) as [[l|e] st'].
Qed.

(** A conditional with its [ELSE] directly behind it. *)
Lemma run_if_else i c yes no rest st :
  run (build_if i c yes :: build_else i no :: rest) st
  = and_then (if condition_met py_eval c (ss_memory st) then run yes st else run no st) (run rest).
Proof.
  rewrite run_cons. unfold seq_node. cbn [type build_if condition substeps].
  destruct (condition_met _ _ _).
  - destruct (run yes st) as [[u|e] st']; [|done]. cbn [continue_with and_then].
    rewrite run_leaf by done. by rewrite run_one.
  - cbn [skip_to_else]. rewrite decide_True by done. cbn [substeps build_else].
    by destruct (run no st) as [[u|e] st'].
Qed.

Lemma node_body_ext (rec rec' : runner) s rest st :
  type s ≠ IF → type s ≠ PARALLEL → (∀ st, rec (substeps s) st = rec' (substeps s) st) →
  node rec s rest st = node rec' s rest st.
Proof.
  intros Hi Hp H. unfold seq_node. destruct (type s); try done.
  - destruct (iterate _); [|done]. by rewrite (for_each_ext rec rec').
  - by rewrite (retry_steps_ext rec rec').
  - by rewrite H.
Qed.

Lemma node_with_substeps (rec rec' : runner) s subs st :
  type s ≠ IF → type s ≠ PARALLEL → (∀ st, rec subs st = rec' (substeps s) st) →
  node rec (with_substeps subs s) [] st = node rec' s [] st.
Proof.
  intros Hi Hp H. unfold seq_node. cbn [type with_substeps collection].
  destruct (type s) eqn:Et; try done.
  - destruct (iterate _) as [items|]; [|done]. f_equal.
    revert st. induction items as [|x l IH]; intros st; simpl; [done|].
    rewrite H. destruct (rec' _ _) as [[u|e] st1]; [apply IH|done].
  - cbn [substeps with_substeps retry_count]. f_equal. generalize (Z.to_nat (Z.max (retry_count s) 1) - 1)%nat as n.
    intros n. revert st. induction n as [|n IH]; intros st; simpl; rewrite H; [done|].
    destruct (rec' (substeps s) st) as [[u|e] st1]; [done|]. destruct (catchable e); [apply IH|done].
  - cbn [substeps with_substeps]. by rewrite H.
Qed.

Lemma in_order_compile n ps :
  (∀ p, p ∈ ps → ∀ rest st, prog_wf p = true → (steps_size (compile p) <= n)%nat →
     run (compile p ++ rest) st = and_then (eval p st) (run rest)) →
  forallb prog_wf ps = true → (steps_size (compile_all ps) <= n)%nat →
  ∀ rest st, run (compile_all ps ++ rest) st = and_then (eval_all ps st) (run rest).
Proof.
  intros Hp. induction ps as [|p ps IH]; intros Hwf Hn rest st; [done|].
  simpl in Hwf. apply andb_prop in Hwf as [Hw Hwf].
  assert (steps_size (compile_all (p :: ps)) = steps_size (compile p) + steps_size (compile_all ps))%nat as Hsz.
  { change (compile_all (p :: ps)) with (compile p ++ compile_all ps)%list.
    generalize (compile p) as l. induction l as [|x l IHl]; [done|]. simpl in *. lia. }
  change (compile_all (p :: ps)) with (compile p ++ compile_all ps)%list. rewrite <- app_assoc.
  rewrite Hp by (left || done || lia). change (eval_all (p :: ps) st) with (and_then (eval p st) (eval_all ps)).
  destruct (eval p st) as [[u|e] st']; [|done]. cbn [and_then].
  apply IH; [|done|lia]. intros q Hq. apply Hp. by right.
Qed.

Lemma compile_refines n p rest st :
  prog_wf p = true → (steps_size (compile p) <= n)%nat →
  run (compile p ++ rest) st = and_then (eval p st) (run rest).
Proof.
  revert p rest st. induction n as [|n IH]; intros p rest st Hwf Hn.
  { destruct p; cbn [compile] in Hn; rewrite steps_size_cons in Hn; lia. }
  assert (∀ ps st, forallb prog_wf ps = true → (steps_size (compile_all ps) <= n)%nat →
    run (compile_all ps) st = eval_all ps st) as Hall.
  { intros ps st' Hps Hsz. rewrite <- (app_nil_r (compile_all ps)).
    rewrite (in_order_compile n); [|intros q _ r s0 Hq Hq'; by apply IH|done|done].
    by destruct (eval_all ps st') as [[[]|e] st1]. }
  destruct p as [s|i c yes no|s body]; cbn [compile prog_wf] in *.
  - apply andb_prop in Hwf as [Hi _]. apply negb_true_iff, bool_decide_eq_false in Hi.
    apply (run_leaf s rest st Hi).
  - apply andb_prop in Hwf as [Hy Hno]. cbn [app]. rewrite run_if_else.
    rewrite !steps_size_cons in Hn. cbn [substeps build_if build_else] in Hn.
    change (List.flat_map compile yes) with (compile_all yes) in *.
    change (List.flat_map compile no) with (compile_all no) in *.
    cbn [eval]. destruct (condition_met _ _ _); rewrite Hall by (done || lia); done.
  - apply andb_prop in Hwf as [Ht Hb]. rewrite steps_size_cons in Hn.
    cbn [substeps with_substeps] in Hn. change (List.flat_map compile body) with (compile_all body) in *.
    assert (type s ≠ IF ∧ type s ≠ PARALLEL) as [Hi Hp] by (by destruct (type s)).
    cbn [app eval]. rewrite run_leaf by done. rewrite run_one by done.
    f_equal. f_equal. apply node_with_substeps; [done..|].
    intros st'. apply Hall; [done|lia].
Qed.

(** (C25) The sequential engine implements structured workflows: a conditional that
    is written as an [IF] node and directly behind it its [ELSE] node runs
    exactly one of the two branches, nested to any depth and inside loops,
    retries and time limits. *)
Theorem structured_workflow_refines (ps : list tree) (st : sst) :
  forallb prog_wf ps = true → run (compile_all ps) st = eval_all ps st.
Proof.
  intros H. rewrite <- (app_nil_r (compile_all ps)).
  rewrite (in_order_compile (steps_size (compile_all ps))); [|intros; by eapply compile_refines|done|done].
  by destruct (eval_all ps st) as [[[]|e] st1].
Qed.

(** ** An [IF] without its [ELSE] *)

(** When the condition is false and no [ELSE] follows, the rest of the list is
    skipped and the workflow succeeds. *)
Theorem false_if_skips_rest (s : WorkflowStep) (rest : list WorkflowStep) (st : sst) :
  type s = IF → condition_met py_eval (condition s) (ss_memory st) = false →
  Forall (λ x, type x ≠ ELSE) rest →
  run (s :: rest) st = (Ok tt, st).
Proof.
  intros Ht Hc Hr. rewrite run_cons. unfold seq_node. rewrite Ht, Hc.
  assert (skip_to_else rest = None) as ->; [|done].
  induction Hr as [|x l Hx _ IH]; simpl; [done|]. by rewrite decide_False.
Qed.

(** ** Retries *)

(** [k] failed attempts lead from [st] to [st']. *)
Inductive failed_attempts (rec : runner) (subs : list WorkflowStep) : nat → sst → sst → Prop :=
  | no_attempt st : failed_attempts rec subs 0 st st
  | one_more k st st1 st2 e :
      rec subs st = (Err e, st1) → catchable e = true →
      failed_attempts rec subs k st1 st2 → failed_attempts rec subs (S k) st st2.

Lemma retry_first_success rec subs more k st st1 st2 :
  failed_attempts rec subs k st st1 → rec subs st1 = (Ok tt, st2) → (k <= more)%nat →
  retry_steps rec subs more st = (Ok tt, st2).
Proof.
  intros Hf. revert more. induction Hf as [st|k st st1 st3 e Hr Hc Hf IH]; intros more Hok Hk.
  - destruct more; simpl; by rewrite Hok.
  - destruct more as [|more]; [lia|]. simpl. rewrite Hr, Hc. apply IH; [done|lia].
Qed.

Lemma retry_all_failed rec subs more st st1 st2 e :
  failed_attempts rec subs more st st1 → rec subs st1 = (Err e, st2) →
  retry_steps rec subs more st = (Err e, st2).
Proof.
  intros Hf. induction Hf as [st|k st st1 st3 e' Hr Hc Hf IH]; intros He; simpl.
  - rewrite He. by destruct (catchable e).
  - rewrite Hr, Hc. by apply IH.
Qed.

(** A [RETRY] node succeeds with the first of its [max(retry_count, 1)]
    attempts that does, and raises the error of the last one when none does; an
    error does not undo what its attempt left behind. *)
Theorem retry_node (s : WorkflowStep) (k : nat) (st st1 st2 : sst) :
  type s = RETRY → failed_attempts run (substeps s) k st st1 → (Z.of_nat k < Z.max (retry_count s) 1) →
  (run (substeps s) st1 = (Ok tt, st2) → run [s] st = (Ok tt, st2)) ∧
  (∀ e, run (substeps s) st1 = (Err e, st2) → Z.of_nat k = Z.max (retry_count s) 1 - 1 →
     run [s] st = (Err e, st2)).
Proof.
  intros Ht Hf Hk. rewrite run_one by congruence. unfold seq_node. rewrite Ht. split.
  - intros Hok. rewrite (retry_first_success run (substeps s) _ k st st1 st2); [done..|lia].
  - intros e He Hlast. rewrite (retry_all_failed run (substeps s) _ st st1 st2 e); [done| |done].
    by replace (Z.to_nat (Z.max (retry_count s) 1) - 1)%nat with k by lia.
Qed.
End Spec.

(** ** Witnesses *)

Definition demo_eval (c : string) (m : memory) : option bool :=
  if bool_decide (c = "True") then Some true else if bool_decide (c = "False") then Some false else None.

(** Answers the prompt back, except the first time. *)
Definition flaky_echo (n : nat) (r : ChatRequest) : Reply :=
  match n, req_messages r with
  | S _, m :: _ => Answer (Some (msg_content m)) "p" "m"
  | _, _ => Raises "busy"
  end.

Definition empty_sst : sst := mk_sst [] [] [] 0.

Definition demo_progs : list tree :=
  [PNest (build_for "loop" "items" "item" [])
     [PIf "c" "{{item}}" [PLeaf (build_task "yes" "chat" "y {{item}}")] [PLeaf (build_task "no" "chat" "n {{item}}")]];
   PLeaf (build_merge "all" "concat")].

Definition demo_sst : sst := mk_sst [("items", MList [MStr "True"; MStr "False"])] [] [] 0.

Lemma structured_workflow_refines_witness :
  execute_workflow_steps PlanSpec.echo default_registry None demo_eval (λ _, true) (compile_all demo_progs) demo_sst
  = eval_all PlanSpec.echo default_registry None demo_eval (λ _, true) demo_progs demo_sst ∧
  ss_outputs (execute_workflow_steps PlanSpec.echo default_registry None demo_eval (λ _, true)
                (compile_all demo_progs) demo_sst).2
  = [("yes", "y True"); ("no", "n False");
     ("all", "y True" +:+ line_break +:+ line_break +:+ "n False")].
Proof.
  split; [|vm_compute; reflexivity].
  apply (structured_workflow_refines PlanSpec.echo default_registry None demo_eval (λ _, true)).
  vm_compute. reflexivity.
Defined.

Definition flaky_body : list WorkflowStep := [build_task "t" "chat" "hello"].

(** The first attempt fails, the second succeeds. *)
Lemma retry_node_witness :
  (execute_workflow_steps flaky_echo default_registry None demo_eval (λ _, true)
     [build_retry "r" 2 flaky_body] empty_sst).1 = Ok tt.
Proof.
  destruct (execute_workflow_steps flaky_echo default_registry None demo_eval (λ _, true) flaky_body empty_sst)
    as [r1 st1] eqn:E1.
  destruct (execute_workflow_steps flaky_echo default_registry None demo_eval (λ _, true) flaky_body st1)
    as [r2 st2] eqn:E2.
  assert (r1 = Err (SAgent "busy")) as -> by (vm_compute in E1; injection E1 as <- <-; reflexivity).
  assert (r2 = Ok tt) as ->.
  { vm_compute in E1. injection E1 as <-. vm_compute in E2. injection E2 as <- <-. reflexivity. }
  destruct (retry_node flaky_echo default_registry None demo_eval (λ _, true)
    (build_retry "r" 2 flaky_body) 1 empty_sst st1 st2 eq_refl
    (one_more _ _ 0 _ _ _ _ E1 eq_refl (no_attempt _ _ st1)) ltac:(vm_compute; reflexivity)) as [H _].
  rewrite (H E2). reflexivity.
Defined.

Definition conditional_steps : list WorkflowStep :=
  [build_if "c" "False" [build_task "extra" "chat" "more"]; build_task "report" "chat" "write the report"].

(** An optional step before a mandatory one: the mandatory one is not run and
    the workflow is a success without outputs. *)
Lemma false_if_skips_rest_witness :
  execute_workflow_steps PlanSpec.echo default_registry None demo_eval (λ _, true) conditional_steps empty_sst
  = (Ok tt, empty_sst).
Proof.
  apply (false_if_skips_rest PlanSpec.echo default_registry None demo_eval (λ _, true)
    (build_if "c" "False" [build_task "extra" "chat" "more"])); [reflexivity|vm_compute; reflexivity|].
  repeat constructor; discriminate.
Defined.

(** ** Behaviours to know *)

(** Steps between an [IF] that is false and its [ELSE] are skipped, and run
    when it is true. *)
Example steps_between_if_and_else :
  let steps c := [build_if "c" c []; build_task "between" "chat" "b"; build_else "c" []] in
  let outputs c := ss_outputs (execute_workflow_steps PlanSpec.echo default_registry None demo_eval
                                 (λ _, true) (steps c) empty_sst).2 in
  outputs "True" = [("between", "b")] ∧ outputs "False" = [].
Proof. split; vm_compute; reflexivity. Qed.

(** An [ELSE] that is a branch of a [PARALLEL] node is never run. *)
Example parallel_else_never_runs :
  (execute_workflow_steps PlanSpec.echo default_registry None demo_eval (λ _, true)
     [build_parallel "p" [build_if "c" "False" [build_task "y" "chat" "y"];
                          build_else "c" [build_task "n" "chat" "n"]]] empty_sst)
  = (Ok tt, empty_sst).
Proof. vm_compute. reflexivity. Qed.

(** The errors of parallel branches are lost: the workflow is a success. *)
Example parallel_errors_lost :
  (execute_workflow (λ _ _, Raises "down") default_registry None demo_eval (λ _, true)
     [build_parallel "p" [build_task "a" "chat" "a"]] [] []).1 = Ok (mk_sres [] true None).
Proof. vm_compute. reflexivity. Qed.

(** A task for an unknown agent is a success with empty content. *)
Example unknown_agent_task_succeeds :
  (execute_workflow PlanSpec.echo default_registry None demo_eval (λ _, true)
     [build_task "t" "nobody" "hello"] [] []).1 = Ok (mk_sres [("t", "")] true None).
Proof. vm_compute. reflexivity. Qed.

(** A condition that does not evaluate counts as true. *)
Example broken_condition_is_true :
  condition_met demo_eval "score >" [] = true.
Proof. vm_compute. reflexivity. Qed.
End SeqWorkflowSpec.
