(* ===== verification/Consensus.v ===== *)
(** * Consensus, reflection, debate and the orchestrator

    - [Voting], [Consensus]: the scores of a response and the strategies of
      [run_consensus], [src/app/orchestration/consensus.py].
    - [Reviews]: the answers of a reviewing model, [_parse_scores] of
      [reflection.py] and [_parse_review] of [debate.py], over a JSON parser that
      is an argument.
    - [Reflection]: [reflect_and_retry] of [reflection.py].
    - [Debate]: [run_debate] of [debate.py].
    - [Orchestrator]: [orchestrate] of [orchestrator.py], which chooses between
      these, a workflow and a plan.

    The state is the list of requests sent so far; what the router answers to
    the [n]-th is an argument ([chat]), and so is the time it takes.  The calls
    of a [gather] are numbered in the order they are started.  An exception of
    a call is a value; cancellation from outside is left out. *)

From Stdlib Require Import ZArith Lia Ascii.
From Stdlib Require Import SpecFloat.
From stdpp Require Import base numbers strings gmap list.
From S2P Require Import Prelude PyFloat PyNum PyMath PyStr PyDict PyVal ModelCosts Reputation ModelRouter Orchestration.

Open Scope string_scope.
Open Scope Z_scope.

(** * Scores *)

Module Voting.

Record VoteScore := mk_vote {
  vs_quality : float;
  vs_cost : float;
  vs_latency : float;
  vs_reliability : float;
  vs_overall : float
}.

Definition no_score : VoteScore := mk_vote fzero fzero fzero fzero fzero.

Definition mentions (ws : list string) (text : string) : bool := existsb (λ w, contains w text) ws.

Definition add_if (b : bool) (score : float) : float := if b then fadd score (flit 1 10) else score.

Definition score_quality (content : string) : float :=
  let n := Z.of_nat (String.length content) in
  if n =? 0 then fzero
  else if n <? 10 then flit 2 10
  else if n <? 50 then flit 5 10
  else if 10000 <? n then flit 8 10
  else
    let score := flit 6 10 in
    let score := add_if (mentions ["therefore"; "because"; "however"; "conclusion"] (lower content)) score in
    let score := add_if (mentions ["."; "!"; "?"] content) score in
    let score := add_if (mentions ["example"; "for instance"; "specifically"] (lower content)) score in
    fmin score fone.

(** From the price of 100 tokens each way. *)
Definition score_cost (provider model : string) : float :=
  let cost := Pricing.estimate_cost provider model 100 100 0 in
  if fle cost fzero then fone else fmax fzero (fsub fone (fdiv cost (flit 1 100))).

Definition score_latency (latency_ms : float) : float :=
  if fle latency_ms fzero then flit 5 10
  else if flt latency_ms (float_of_Z 500) then fone
  else if flt latency_ms (float_of_Z 2000) then flit 8 10
  else if flt latency_ms (float_of_Z 5000) then flit 5 10
  else if flt latency_ms (float_of_Z 10000) then flit 3 10
  else flit 1 10.

(** [stats] are the metrics of the router. *)
Definition score_reliability (stats : dict string ProviderMetrics) (provider : string) : float :=
  match dict_get provider stats with Some p => success_rate p | None => flit 8 10 end.

Definition score_response (stats : dict string ProviderMetrics) (content : string) (latency_ms : float)
    (provider model : string) : VoteScore :=
  let quality := score_quality content in
  let cost := score_cost provider model in
  let latency := score_latency latency_ms in
  let reliability := score_reliability stats provider in
  mk_vote quality cost latency reliability
    (fadd (fadd (fadd (fmul quality (flit 35 100)) (fmul cost (flit 15 100)))
             (fmul latency (flit 25 100))) (fmul reliability (flit 25 100))).

Record Vote := mk_voted { vo_provider : string; vo_model : string; vo_content : string; vo_score : VoteScore }.

Definition choose_winner (votes : list Vote) : Vote :=
  match py_sorted (λ x y, flt (vs_overall (vo_score y)) (vs_overall (vo_score x))) votes with
  | [] => mk_voted "" "" "" no_score
  | v :: _ => v
  end.
End Voting.

(** * Consensus *)

Module Consensus.
Import PyRepr Agents Voting.

Record ConsensusResult := mk_consensus {
  cn_provider : string;
  cn_model : string;
  cn_content : string;
  cn_strategy : string;
  cn_scores : list (string * float);
  cn_votes : Z;
  cn_total_votes : Z
}.

Inductive ConsensusStrategy :=
  MAJORITY_VOTE | WEIGHTED_SCORE | HIGHEST_CONFIDENCE | FIRST_SUCCESS | BEST_LATENCY | BEST_QUALITY.

Instance ConsensusStrategy_eq_dec : EqDecision ConsensusStrategy.
Proof. solve_decision. Defined.

Definition strategy_value (s : ConsensusStrategy) : string :=
  match s with
  | MAJORITY_VOTE => "majority_vote"
  | WEIGHTED_SCORE => "weighted_score"
  | HIGHEST_CONFIDENCE => "highest_confidence"
  | FIRST_SUCCESS => "first_success"
  | BEST_LATENCY => "best_latency"
  | BEST_QUALITY => "best_quality"
  end.

(** [ConsensusStrategy(strategy)] *)
Definition strategy_of (s : string) : option ConsensusStrategy :=
  List.find (λ x, bool_decide (strategy_value x = s))
    [MAJORITY_VOTE; WEIGHTED_SCORE; HIGHEST_CONFIDENCE; FIRST_SUCCESS; BEST_LATENCY; BEST_QUALITY].

Record ModelResponse := mk_resp { rs_provider : string; rs_model : string; rs_content : string; rs_latency : float }.

(** [max(l, key=key)]: the first greatest. *)
Definition first_max {A} (key : A → float) (x : A) (l : list A) : A :=
  fold_left (λ best y, if flt (key best) (key y) then y else best) l x.
Definition first_min {A} (key : A → float) (x : A) (l : list A) : A :=
  fold_left (λ best y, if flt (key y) (key best) then y else best) l x.
Definition longest {A} (x : list A) (l : list (list A)) : list A :=
  fold_left (λ best y, if zlen best <? zlen y then y else best) l x.

Section Run.
Context (chat : nat → ChatRequest → Reply) (latency : nat → float).
Context (stats : dict string ProviderMetrics).

Abbreviation sent := (list ChatRequest).

(** [router.chat] *)
Definition ask (req : ChatRequest) (st : sent) : Reply * sent :=
  (chat (length st) req, (st ++ [req])%list).

(** [query_provider]: the request as it is, whoever the provider. *)
Definition query_provider (request : ChatRequest) (provider : string) (st : sent) : option ModelResponse * sent :=
  let '(reply, st') := ask request st in
  (match reply with
   | Answer content p model => Some (mk_resp provider model (default "" content) (latency (length st)))
   | _ => None
   end, st').

Fixpoint query_all (request : ChatRequest) (providers : list string) (st : sent)
    : list (option ModelResponse) * sent :=
  match providers with
  | [] => ([], st)
  | p :: rest =>
      let '(r, st) := query_provider request p st in
      let '(rs, st) := query_all request rest st in (r :: rs, st)
  end.

(** The responses with content. *)
Definition valid_responses (rs : list (option ModelResponse)) : list ModelResponse :=
  List.filter (λ r, truthy (rs_content r)) (omap (λ r, r) rs).

Definition simplify (content : string) : string := lower (text_take 100 content).

(** [votes_dict.setdefault(simplified, []).append(...)] *)
Definition add_vote (d : dict string (list ModelResponse)) (r : ModelResponse) : dict string (list ModelResponse) :=
  let k := simplify (rs_content r) in
  dict_set k (default [] (dict_get k d) ++ [r])%list d.

Definition count_votes (rs : list ModelResponse) : dict string (list ModelResponse) := fold_left add_vote rs [].

Definition majority (strategy : string) (rs : list ModelResponse) : ConsensusResult :=
  let groups := dict_values (count_votes rs) in
  match groups with
  | [] => mk_consensus "" "" "" strategy [] 0 0
  | g :: rest =>
      let winner := longest g rest in
      match winner with
      | r :: _ =>
          mk_consensus (rs_provider r) (rs_model r) (rs_content r) strategy [] (zlen winner) (zlen rs)
      | [] => mk_consensus "" "" "" strategy [] 0 0
      end
  end.

Definition scored_response (r : ModelResponse) : VoteScore * ModelResponse :=
  (score_response stats (rs_content r) (rs_latency r) (rs_provider r) (rs_model r), r).

Definition score_entries (s : VoteScore) : list (string * float) :=
  [("quality", vs_quality s); ("cost", vs_cost s); ("latency", vs_latency s);
   ("reliability", vs_reliability s); ("overall", vs_overall s)].

(** What the strategies do with the valid responses [r :: rs]; [n] is the
    number of providers. *)
Definition decide_consensus (s : ConsensusStrategy) (strategy : string) (n : Z) (r : ModelResponse)
    (rs : list ModelResponse) : ConsensusResult :=
  let result r scores := mk_consensus (rs_provider r) (rs_model r) (rs_content r) strategy scores 1 n in
  let by_key key :=
    let '(score, r) := first_max (λ x, key x.1) (scored_response r) (scored_response <$> rs) in
    result r (score_entries score) in
  match s with
  | FIRST_SUCCESS => result r []
  | BEST_LATENCY =>
      let best := first_min rs_latency r rs in result best [("latency_ms", rs_latency best)]
  | HIGHEST_CONFIDENCE => by_key vs_quality
  | BEST_QUALITY => by_key vs_quality
  | WEIGHTED_SCORE => by_key vs_overall
  | MAJORITY_VOTE => majority strategy (r :: rs)
  end.

(** [run_consensus]; an unknown strategy raises [ValueError]. *)
Definition run_consensus (request : ChatRequest) (providers : list string) (strategy : string) (st : sent)
    : result string ConsensusResult * sent :=
  let '(results, st) := query_all request providers st in
  match valid_responses results with
  | [] => (Ok (mk_consensus "" "" "" strategy [] 0 0), st)
  | r :: rs =>
      (match strategy_of strategy with
       | None => Err strategy
       | Some s => Ok (decide_consensus s strategy (zlen providers) r rs)
       end, st)
  end.
End Run.
End Consensus.

(** * Consensus: properties *)

Module ConsensusSpec.
Import PyRepr Agents Voting Consensus.

(** ** The first greatest element *)

Lemma max_by_elem {A} (key : A → float) x l : first_max key x l ∈ x :: l.
Proof.
  unfold first_max. revert x. induction l as [|y l IH]; intros x; simpl; [left|].
  specialize (IH (if flt (key x) (key y) then y else x)).
  destruct (flt _ _); apply elem_of_cons in IH as [->|IH]; set_solver.
Qed.

Lemma max_by_fold_best {A} (key : A → float) x l y :
  Forall (λ z, is_nan (key z) = false) (x :: l) → y ∈ x :: l → fle (key y) (key (first_max key x l)) = true.
Proof.
  unfold first_max. revert x y. induction l as [|z l IH]; intros x y Hn Hy; simpl.
  - apply list_elem_of_singleton in Hy as ->. apply Forall_inv in Hn. by apply fle_refl.
  - apply Forall_cons in Hn as [Hx [Hz Hl]%Forall_cons].
    set (b := if flt (key x) (key z) then z else x).
    assert (Forall (λ z, is_nan (key z) = false) (b :: l)) as Hb.
    { constructor; [|done]. unfold b. by destruct (flt _ _). }
    assert (fle (key x) (key b) = true ∧ fle (key z) (key b) = true) as [H1 H2].
    { unfold b. destruct (flt (key x) (key z)) eqn:E.
      - split; [by apply flt_fle|by apply fle_refl].
      - split; [by apply fle_refl|by apply flt_false_fle]. }
    assert (fle (key b) (key (fold_left (λ best y, if flt (key best) (key y) then y else best) l b)) = true) as Hbest
      by (apply IH; [done|left]).
    apply elem_of_cons in Hy as [->|[->|Hy]%elem_of_cons].
    + by eapply fle_trans.
    + by eapply fle_trans.
    + apply IH; [done|by right].
Qed.

Lemma max_by_fmap {A B} (f : A → B) (key : A → float) (key' : B → float) x l :
  (∀ y, key' (f y) = key y) → first_max key' (f x) (f <$> l) = f (first_max key x l).
Proof.
  intros H. unfold first_max. revert x. induction l as [|y l IH]; intros x; [done|]. csimpl.
  rewrite !H. destruct (flt (key x) (key y)); apply IH.
Qed.

Lemma min_by_fmap {A B} (f : A → B) (key : A → float) (key' : B → float) x l :
  (∀ y, key' (f y) = key y) → first_min key' (f x) (f <$> l) = f (first_min key x l).
Proof.
  intros H. unfold first_min. revert x. induction l as [|y l IH]; intros x; [done|]. csimpl.
  rewrite !H. destruct (flt (key y) (key x)); apply IH.
Qed.

Lemma longest_elem {A} (x : list A) l : longest x l ∈ x :: l.
Proof.
  unfold longest. revert x. induction l as [|y l IH]; intros x; simpl; [left|].
  specialize (IH (if zlen x <? zlen y then y else x)).
  destruct (_ <? _); apply elem_of_cons in IH as [->|IH]; set_solver.
Qed.

Lemma longest_ge {A} (x : list A) l y : y ∈ x :: l → zlen y <= zlen (longest x l).
Proof.
  unfold longest. revert x y. induction l as [|z l IH]; intros x y Hy; simpl.
  - apply list_elem_of_singleton in Hy as ->. done.
  - set (b := if zlen x <? zlen z then z else x).
    assert (zlen x <= zlen b ∧ zlen z <= zlen b) as [H1 H2].
    { unfold b. destruct (zlen x <? zlen z) eqn:E; bool_to_prop; lia. }
    pose proof (IH b b ltac:(left)) as Hb.
    apply elem_of_cons in Hy as [->|[->|Hy]%elem_of_cons]; [lia|lia|].
    apply IH. by right.
Qed.

(** ** Sorting and taking the greatest *)

(** The first greatest of a longer list. *)
Lemma max_by_cons {A} (key : A → float) x y l :
  Forall (λ z, is_nan (key z) = false) (x :: y :: l) →
  first_max key x (y :: l) = if flt (key x) (key (first_max key y l)) then first_max key y l else x.
Proof.
  revert x y. induction l as [|z l IH]; intros x y Hn; [done|].
  apply Forall_cons in Hn as [Hx Hyl]. pose proof Hyl as [Hy Hzl]%Forall_cons.
  assert (∀ a b m : A, is_nan (key a) = false → is_nan (key b) = false → is_nan (key m) = false →
    (if flt (key (if flt (key a) (key b) then b else a)) (key m) then m else if flt (key a) (key b) then b else a)
    = if flt (key a) (key (if flt (key b) (key m) then m else b))
      then if flt (key b) (key m) then m else b else a) as Hstep.
  { intros a b m Ha Hb Hm. destruct (flt (key a) (key b)) eqn:E1, (flt (key b) (key m)) eqn:E2; rewrite ?E1, ?E2; try done.
    - by rewrite (flt_trans _ _ _ E1 E2).
    - destruct (flt (key a) (key m)) eqn:E3; [|done].
      pose proof (flt_false_fle _ _ Ha Hb E1) as H1. pose proof (flt_false_fle _ _ Hb Hm E2) as H2.
      pose proof (fle_trans _ _ _ H2 H1) as H3. by rewrite (fle_flt_false _ _ H3) in E3. }
  set (m := first_max key z l).
  assert (is_nan (key m) = false) as Hm.
  { pose proof (max_by_elem key z l) as Hin. rewrite Forall_forall in Hzl. by apply Hzl. }
  change (first_max key x (y :: z :: l)) with (first_max key (if flt (key x) (key y) then y else x) (z :: l)).
  assert (Forall (λ z, is_nan (key z) = false) ((if flt (key x) (key y) then y else x) :: z :: l)) as Hxy.
  { constructor; [by destruct (flt _ _)|done]. }
  rewrite (IH _ z Hxy), (IH y z Hyl). fold m. by apply Hstep.
Qed.

(** [choose_winner], which sorts the votes, picks the first vote of greatest
    overall score, as the strategies do without sorting. *)
Theorem choose_winner_first_best (v : Vote) (vs : list Vote) :
  Forall (λ x, is_nan (vs_overall (vo_score x)) = false) (v :: vs) →
  choose_winner (v :: vs) = first_max (λ x, vs_overall (vo_score x)) v vs.
Proof.
  set (key := λ x, vs_overall (vo_score x)). intros Hn. unfold choose_winner.
  change (λ x y, flt (vs_overall (vo_score y)) (vs_overall (vo_score x))) with (λ x y, flt (key y) (key x)).
  assert (head (py_sorted (λ x y, flt (key y) (key x)) (v :: vs)) = Some (first_max key v vs)) as H;
    [|destruct (py_sorted _ _); simpl in *; congruence].
  revert v Hn. induction vs as [|w vs IH]; intros v Hn; [done|].
  pose proof Hn as [Hv Hw]%Forall_cons. specialize (IH w Hw).
  rewrite max_by_cons by done.
  change (py_sorted (λ x y, flt (key y) (key x)) (v :: w :: vs))
    with (sort_insert (λ x y, flt (key y) (key x)) v (py_sorted (λ x y, flt (key y) (key x)) (w :: vs))).
  destruct (py_sorted _ (w :: vs)) as [|m s]; [done|]. injection IH as ->.
  simpl. by destruct (flt (key v) _).
Qed.

(** ** The majority vote *)

(** The responses that say the same as [k], up to case and after 100
    characters. *)
Definition agreeing (k : string) (rs : list ModelResponse) : list ModelResponse :=
  List.filter (λ r, bool_decide (simplify (rs_content r) = k)) rs.

Lemma agreeing_snoc k rs r :
  agreeing k (rs ++ [r])
  = (agreeing k rs ++ if decide (simplify (rs_content r) = k) then [r] else [])%list.
Proof.
  unfold agreeing. rewrite List.filter_app. f_equal. simpl.
  case_bool_decide; case_decide; done.
Qed.

Lemma count_votes_spec rs :
  dict_wf (count_votes rs) ∧
  ∀ k, dict_get k (count_votes rs) = match agreeing k rs with [] => None | g => Some g end.
Proof.
  unfold count_votes. induction rs as [|r rs [Hwf IH]] using rev_ind.
  { split; [constructor|done]. }
  rewrite fold_left_app. simpl. unfold add_vote. split; [by apply dict_set_wf|].
  intros k. rewrite dict_get_set, agreeing_snoc.
  case_decide as E.
  - subst k. rewrite IH. by destruct (agreeing _ rs).
  - rewrite app_nil_r. apply IH.
Qed.

Lemma agreeing_elem k r rs : r ∈ agreeing k rs → r ∈ rs ∧ simplify (rs_content r) = k.
Proof.
  unfold agreeing. rewrite !list_elem_of_In, List.filter_In. intros [H1 H2].
  split; [done|]. by apply bool_decide_eq_true in H2.
Qed.

Lemma elem_agreeing r rs : r ∈ rs → r ∈ agreeing (simplify (rs_content r)) rs.
Proof.
  unfold agreeing. rewrite !list_elem_of_In, List.filter_In. intros H. split; [done|].
  by apply bool_decide_eq_true.
Qed.

(** The groups are those of the responses, none is empty. *)
Lemma group_of rs g :
  g ∈ dict_values (count_votes rs) → ∃ r, head g = Some r ∧ r ∈ rs ∧ g = agreeing (simplify (rs_content r)) rs.
Proof.
  destruct (count_votes_spec rs) as [Hwf Hget]. unfold dict_values.
  intros ([k g'] & -> & Hin)%list_elem_of_fmap. simpl.
  apply dict_elem_of_get in Hin; [|done]. rewrite Hget in Hin.
  destruct (agreeing k rs) as [|r l] eqn:E; [done|]. injection Hin as <-. exists r. split; [done|].
  assert (r ∈ agreeing k rs) as Hr by (rewrite E; left). apply agreeing_elem in Hr as [Hr <-]. done.
Qed.

Lemma group_in rs r :
  r ∈ rs → agreeing (simplify (rs_content r)) rs ∈ dict_values (count_votes rs).
Proof.
  intros Hr. destruct (count_votes_spec rs) as [_ Hget].
  pose proof (elem_agreeing r rs Hr) as He. specialize (Hget (simplify (rs_content r))).
  destruct (agreeing _ rs) as [|x l]; [by apply elem_of_nil in He|].
  apply dict_get_elem_of in Hget. unfold dict_values. apply list_elem_of_fmap. by eexists (_, _).
Qed.

(** The majority vote returns the first response of a largest group of
    responses that agree, with the number of the group as its votes out of all
    valid responses. *)
Theorem majority_correct (strategy : string) (rs : list ModelResponse) :
  rs ≠ [] →
  ∃ r, r ∈ rs ∧
    let group := agreeing (simplify (rs_content r)) rs in
    head group = Some r ∧
    majority strategy rs
    = mk_consensus (rs_provider r) (rs_model r) (rs_content r) strategy [] (zlen group) (zlen rs) ∧
    ∀ r', r' ∈ rs → zlen (agreeing (simplify (rs_content r')) rs) <= zlen group.
Proof.
  intros Hne. unfold majority. destruct (dict_values (count_votes rs)) as [|g l] eqn:E.
  { destruct rs as [|r rs]; [done|]. pose proof (group_in (r :: rs) r ltac:(left)) as H.
    rewrite E in H. by apply elem_of_nil in H. }
  assert (longest g l ∈ dict_values (count_votes rs)) as Hw by (rewrite E; apply longest_elem).
  apply group_of in Hw as (r & Hh & Hr & Hg). exists r. split; [done|]. cbv zeta. rewrite <- Hg.
  split; [done|]. split.
  - destruct (longest g l); [done|]. by injection Hh as ->.
  - intros r' Hr'. apply longest_ge. rewrite <- E. by apply group_in.
Qed.

(** ** The weighted score *)

(** [weighted_score] returns a response of greatest overall score. *)
Theorem weighted_score_best stats (strategy : string) (n : Z) (r : ModelResponse) (rs : list ModelResponse) :
  Forall (λ x, is_nan (vs_overall (scored_response stats x).1) = false) (r :: rs) →
  ∃ w, w ∈ r :: rs ∧
    decide_consensus stats WEIGHTED_SCORE strategy n r rs
    = mk_consensus (rs_provider w) (rs_model w) (rs_content w) strategy (score_entries (scored_response stats w).1) 1 n ∧
    ∀ x, x ∈ r :: rs → fle (vs_overall (scored_response stats x).1) (vs_overall (scored_response stats w).1) = true.
Proof.
  intros Hn. set (key := λ x : VoteScore * ModelResponse, vs_overall x.1).
  pose proof (max_by_elem key (scored_response stats r) (scored_response stats <$> rs)) as Hin.
  rewrite <- fmap_cons in Hin. apply list_elem_of_fmap in Hin as (w & Hw & Hwr).
  exists w. split; [done|]. split.
  - cbn [decide_consensus]. fold key. rewrite Hw. done.
  - intros x Hx. change (fle (key (scored_response stats x)) (key (scored_response stats w)) = true). rewrite <- Hw.
    apply max_by_fold_best; rewrite <- fmap_cons; [|by apply list_elem_of_fmap_2].
    apply Forall_fmap. exact Hn.
Qed.

(** ** The providers that are asked for do not matter *)

Definition unlabelled (r : ModelResponse) : ModelResponse := mk_resp "" (rs_model r) (rs_content r) (rs_latency r).

Definition anon_opt (o : option ModelResponse) : option ModelResponse := unlabelled <$> o.
Definition anon_group (g : list ModelResponse) : list ModelResponse := unlabelled <$> g.

Definition verdict (c : ConsensusResult) : string * string * Z * Z :=
  (cn_model c, cn_content c, cn_votes c, cn_total_votes c).

Section Labels.
Context (chat : nat → ChatRequest → Reply) (latency : nat → float) (stats : dict string ProviderMetrics).

Abbreviation query := (query_all chat latency).

Lemma query_all_labels request ps qs st :
  length ps = length qs →
  (query request ps st).2 = (query request qs st).2 ∧
  (anon_opt <$> (query request ps st).1) = (anon_opt <$> (query request qs st).1).
Proof.
  revert qs st. induction ps as [|p ps IH]; intros [|q qs] st Hl; try done.
  simpl in Hl. injection Hl as Hl. cbn [query_all]. unfold query_provider, ask.
  destruct (IH qs (st ++ [request])%list Hl) as [H1 H2].
  destruct (query request ps _) as [r1 s1], (query request qs _) as [r2 s2]. cbn [fst snd] in *. subst.
  split; [done|]. rewrite !fmap_cons. f_equal; [by destruct (chat _ _)|exact H2].
Qed.

Lemma valid_labels rs : valid_responses (anon_opt <$> rs) = unlabelled <$> valid_responses rs.
Proof.
  unfold valid_responses. induction rs as [|[r|] rs IH]; [done| |done].
  change (anon_opt <$> (Some r :: rs)) with (Some (unlabelled r) :: (anon_opt <$> rs)).
  cbn [omap list_omap]. cbn [List.filter]. change (rs_content (unlabelled r)) with (rs_content r).
  destruct (truthy _); [rewrite fmap_cons; by f_equal|done].
Qed.

Lemma agreeing_labels k rs : agreeing k (unlabelled <$> rs) = unlabelled <$> agreeing k rs.
Proof.
  unfold agreeing. induction rs as [|r rs IH]; [done|]. rewrite fmap_cons. cbn [List.filter].
  change (rs_content (unlabelled r)) with (rs_content r).
  destruct (bool_decide _); [rewrite fmap_cons; by f_equal|done].
Qed.

Abbreviation anon_votes := (fmap (prod_map id anon_group)).

Lemma get_labels (k : string) (d : dict string (list ModelResponse)) :
  dict_get k (anon_votes d) = anon_group <$> dict_get k d.
Proof. induction d as [|[k' g] d IHd]; [done|]. csimpl. case_decide; [done|apply IHd]. Qed.

Lemma set_labels (k : string) v (d : dict string (list ModelResponse)) :
  dict_set k (anon_group v) (anon_votes d) = anon_votes (dict_set k v d).
Proof. induction d as [|[k' g] d IHd]; [done|]. csimpl. case_decide; [done|]. csimpl. by f_equal. Qed.

Lemma add_vote_labels d r : add_vote (anon_votes d) (unlabelled r) = anon_votes (add_vote d r).
Proof.
  unfold add_vote. change (rs_content (unlabelled r)) with (rs_content r).
  rewrite <- set_labels, get_labels. f_equal. unfold anon_group at 2.
  rewrite fmap_app. by destruct (dict_get _ d).
Qed.

Lemma count_votes_labels rs : count_votes (unlabelled <$> rs) = anon_votes (count_votes rs).
Proof.
  unfold count_votes. induction rs as [|r rs IH] using rev_ind; [done|].
  rewrite fmap_app, !fold_left_app, IH. apply add_vote_labels.
Qed.

Lemma longest_labels (g : list ModelResponse) l :
  longest (anon_group g) (anon_group <$> l) = anon_group (longest g l).
Proof.
  unfold longest. revert g. induction l as [|y l IH]; intros g; [done|]. csimpl.
  assert (zlen (anon_group g) <? zlen (anon_group y) = (zlen g <? zlen y)) as ->
    by (unfold zlen, anon_group; by rewrite !length_fmap).
  destruct (_ <? _); apply IH.
Qed.

Lemma majority_labels strategy rs :
  verdict (majority strategy (unlabelled <$> rs)) = verdict (majority strategy rs).
Proof.
  unfold majority. rewrite count_votes_labels. unfold dict_values.
  rewrite <- list_fmap_compose.
  change (snd ∘ prod_map id anon_group) with (λ x : string * list ModelResponse, anon_group x.2).
  destruct (count_votes rs) as [|[k g] d]; [done|]. csimpl.
  assert ((λ x : string * list ModelResponse, anon_group x.2) <$> d = anon_group <$> d.*2) as ->
    by (by rewrite <- list_fmap_compose).
  rewrite longest_labels. destruct (longest g d.*2) as [|r w]; [done|].
  cbn [anon_group fmap list_fmap]. unfold verdict. cbn. unfold zlen, anon_group. cbn [length].
  by rewrite !length_fmap.
Qed.

Lemma decide_labels s strategy n r rs :
  s ≠ WEIGHTED_SCORE →
  verdict (decide_consensus stats s strategy n (unlabelled r) (unlabelled <$> rs))
  = verdict (decide_consensus stats s strategy n r rs).
Proof.
  intros Hs.
  set (f := λ x : VoteScore * ModelResponse,
    scored_response stats (unlabelled x.2)).
  assert (∀ x l, (∀ y, y ∈ x :: l → ∃ r, y = scored_response stats r) →
    (first_max (λ x, vs_quality x.1) (f x) (f <$> l)).2
    = unlabelled (first_max (λ x, vs_quality x.1) x l).2) as Hmax.
  { intros x l. unfold first_max. revert x. induction l as [|y l IH]; intros x Hx; [done|]. csimpl.
    destruct (Hx x) as [rx ->]; [left|]. destruct (Hx y) as [ry ->]; [right; left|].
    change (vs_quality (f (scored_response stats rx)).1) with (vs_quality (scored_response stats rx).1).
    change (vs_quality (f (scored_response stats ry)).1) with (vs_quality (scored_response stats ry).1).
    destruct (flt _ _); apply IH; intros z Hz; apply Hx; set_solver. }
  assert (verdict (decide_consensus stats BEST_QUALITY strategy n (unlabelled r) (unlabelled <$> rs))
    = verdict (decide_consensus stats BEST_QUALITY strategy n r rs)) as Hq.
  { unfold decide_consensus. specialize (Hmax (scored_response stats r) (scored_response stats <$> rs)).
    change (f (scored_response stats r)) with (scored_response stats (unlabelled r)) in Hmax.
    rewrite <- (list_fmap_compose (scored_response stats) f rs) in Hmax.
    change (f ∘ scored_response stats) with (scored_response stats ∘ unlabelled) in Hmax.
    rewrite (list_fmap_compose unlabelled (scored_response stats) rs) in Hmax.
    destruct (first_max _ (scored_response stats (unlabelled r)) _) as [s1 r1],
      (first_max _ (scored_response stats r) _) as [s2 r2]. simpl in Hmax.
    rewrite Hmax; [done|]. intros y Hy. apply elem_of_cons in Hy as [->|Hy]; [eauto|].
    apply list_elem_of_fmap in Hy as (z & -> & _). eauto. }
  destruct s; try done; try exact Hq.
  - change (unlabelled r :: (unlabelled <$> rs)) with (unlabelled <$> (r :: rs)).
    cbn [decide_consensus]. rewrite <- fmap_cons. apply majority_labels.
  - cbn [decide_consensus]. by rewrite (min_by_fmap unlabelled rs_latency rs_latency).
Qed.

(** The providers of a consensus are not the ones that are asked: every request
    goes to the router as it is.  Two lists of providers of the same length get
    the same requests sent and, except under [weighted_score], which looks up
    prices and reliability under the names, the same verdict. *)
Theorem consensus_ignores_providers (request : ChatRequest) (ps qs : list string) (strategy : string) st :
  length ps = length qs → strategy_of strategy ≠ Some WEIGHTED_SCORE →
  (run_consensus chat latency stats request ps strategy st).2
  = (run_consensus chat latency stats request qs strategy st).2 ∧
  match (run_consensus chat latency stats request ps strategy st).1,
        (run_consensus chat latency stats request qs strategy st).1 with
  | Ok c, Ok d => verdict c = verdict d
  | Err e, Err e' => e = e'
  | _, _ => False
  end.
Proof.
  intros Hl Hs. destruct (query_all_labels request ps qs st Hl) as [H1 H2]. unfold run_consensus.
  destruct (query request ps st) as [r1 s1], (query request qs st) as [r2 s2]. cbn [fst snd] in *. subst s2.
  apply (f_equal valid_responses) in H2. rewrite !valid_labels in H2.
  destruct (valid_responses r1) as [|a l1], (valid_responses r2) as [|b l2]; try done; [].
  split; [done|]. destruct (strategy_of strategy) as [s|] eqn:E; [|done]. simpl.
  assert (s ≠ WEIGHTED_SCORE) as Hw by congruence.
  rewrite <- (decide_labels s strategy _ a l1 Hw), <- (decide_labels s strategy _ b l2 Hw).
  assert (∀ (x y : ModelResponse) l k, x :: l = y :: k → x = y ∧ l = k) as Hinj by (by intros x y l k [= -> ->]).
  apply Hinj in H2 as [Ha Hb]. rewrite Ha. change (unlabelled <$> l1 = unlabelled <$> l2) in Hb. rewrite Hb.
  unfold zlen. by rewrite Hl.
Qed.
End Labels.
End ConsensusSpec.

(** * What a reviewing model answers *)

Module Reviews.
Import PyRepr.

(** [json.loads]; [None] when it raises [JSONDecodeError]. *)
Class JsonLib := { json_loads : string → option MVal }.

(** An exception of a parser: one that the parser itself catches, or another
    one. *)
Inductive ParseExn := Handled | Escapes.

Section Parse.
Context `{!MathLib} `{!JsonLib}.

(** [float(v)]: [TypeError] and [ValueError] are handled, [OverflowError] is
    not. *)
Definition mval_float (v : MVal) : result ParseExn float :=
  match v with
  | MFloat f => Ok f
  | MInt z => match int_to_float z with Ok f => Ok f | Err _ => Err Escapes end
  | MBool b => Ok (if b then fone else fzero)
  | MStr s => match float_of_str s with Some f => Ok f | None => Err Handled end
  | _ => Err Handled
  end.

(** [data.get(k, d)]: [AttributeError] unless the value is an object. *)
Definition json_field (data : MVal) (k : string) (d : MVal) : result ParseExn MVal :=
  match data with MDict l => Ok (default d (dict_get k l)) | _ => Err Escapes end.

Record Scores := mk_scores { sc_correctness : float; sc_hallucination : float; sc_completeness : float }.

Definition score_field (data : MVal) (k : string) : result ParseExn float :=
  match json_field data k (MFloat fzero) with Ok v => mval_float v | Err e => Err e end.

Definition json_scores (data : MVal) : result ParseExn Scores :=
  match score_field data "correctness" with
  | Err e => Err e
  | Ok c =>
      match score_field data "hallucination" with
      | Err e => Err e
      | Ok h => match score_field data "completeness" with Err e => Err e | Ok co => Ok (mk_scores c h co) end
      end
  end.

Definition quoted (s : string) : string := String double_quote (s +:+ String double_quote "").

Fixpoint span_chars (P : ascii → bool) (s : string) : string * string :=
  match s with
  | EmptyString => ("", "")
  | String a rest =>
      if P a then let '(u, v) := span_chars P rest in (String a u, v) else ("", s)
  end.

(** The quoted key, a colon and spaces at the start of the text: what follows it. *)
Definition after_key (key s : string) : option string :=
  if startswith (quoted key) s then
    match lstrip (text_drop (String.length (quoted key)) s) with
    | String a rest => if Ascii.eqb a ":" then Some (lstrip rest) else None
    | EmptyString => None
    end
  else None.

(** [re.search]: the first position where the match succeeds. *)
Section Search.
Context {A : Type} (at_start : string → option A).

Fixpoint re_search (s : string) : option A :=
  match at_start s with
  | Some x => Some x
  | None => match s with EmptyString => None | String _ rest => re_search rest end
  end.
End Search.

Definition score_char (a : ascii) : bool := is_digit a || Ascii.eqb a ".".

(** The digits and dots behind the key. *)
Definition number_after (key s : string) : option string :=
  match after_key key s with
  | Some rest => let '(n, _) := span_chars score_char rest in if truthy n then Some n else None
  | None => None
  end.

Definition fallback_score (key text : string) : result ParseExn float :=
  match re_search (number_after key) text with
  | Some n => match float_of_str n with Some f => Ok f | None => Err Escapes end
  | None => Ok (flit 1 2)
  end.

(** [_parse_scores]; an exception in the handler escapes. *)
Definition parse_scores (text : string) : result ParseExn Scores :=
  match match json_loads text with Some data => json_scores data | None => Err Handled end with
  | Ok s => Ok s
  | Err Escapes => Err Escapes
  | Err Handled =>
      match fallback_score "correctness" text with
      | Err e => Err e
      | Ok c =>
          match fallback_score "hallucination" text with
          | Err e => Err e
          | Ok h =>
              match fallback_score "completeness" text with Err e => Err e | Ok co => Ok (mk_scores c h co) end
          end
      end
  end.

(** ** [_parse_review] *)

Definition fence : string := "```".

(** [\{.*?\}] followed by [\s*```]: the shortest text up to such a brace. *)
Fixpoint lazy_object (s : string) : option string :=
  match s with
  | EmptyString => None
  | String a rest =>
      if Ascii.eqb a "}" && startswith fence (lstrip rest) then Some (String a "")
      else match lazy_object rest with Some t => Some (String a t) | None => None end
  end.

(** [```(?:json)?\s*(\{.*?\})\s*```] at the start of the text. *)
Definition fenced_object (s : string) : option string :=
  if startswith fence s then
    let rest := text_drop 3 s in
    let rest := if startswith "json" rest then text_drop 4 rest else rest in
    match lstrip rest with
    | String a body => if Ascii.eqb a "{" then match lazy_object body with Some t => Some (String a t) | None => None end
                       else None
    | EmptyString => None
    end
  else None.

Fixpoint replace_char (c d : ascii) (s : string) : string :=
  match s with
  | EmptyString => ""
  | String a rest => String (if Ascii.eqb a c then d else a) (replace_char c d rest)
  end.

(** The object's winner and reason; [JSONDecodeError] is handled. *)
Definition json_review (text : string) : result ParseExn (MVal * MVal) :=
  match json_loads text with
  | None => Err Handled
  | Some data =>
      match json_field data "winner" (MStr "A") with
      | Err e => Err e
      | Ok w => match json_field data "reason" (MStr "") with Err e => Err e | Ok r => Ok (w, r) end
      end
  end.

Definition is_ab (a : ascii) : bool := Ascii.eqb a "A" || Ascii.eqb a "B".

(** The key [winner] and, quoted, one of the letters. *)
Definition winner_letter (s : string) : option string :=
  match after_key "winner" s with
  | Some (String q (String a (String q' _))) =>
      if Ascii.eqb q double_quote && is_ab a && Ascii.eqb q' double_quote then Some (String a "") else None
  | _ => None
  end.

(** The same with any text between the quotes. *)
Definition winner_name (s : string) : option string :=
  match after_key "winner" s with
  | Some (String q rest) =>
      if Ascii.eqb q double_quote then
        match partition double_quote rest with
        | (w, Some _) => if truthy w then Some w else None
        | _ => None
        end
      else None
  | _ => None
  end.

(** The word [winner], the next colon, and one of the letters, quoted or not;
    case is ignored. *)
Definition winner_loose (s : string) : option string :=
  if startswith "winner" (lower s) then
    match partition ":" (text_drop 6 s) with
    | (_, Some rest) =>
        match lstrip rest with
        | String a more =>
            let first := if Ascii.eqb a double_quote then more else String a more in
            match first with
            | String b _ => if is_ab (upper_ascii b) then Some (upper (String b "")) else None
            | EmptyString => None
            end
        | EmptyString => None
        end
    | _ => None
    end
  else None.

(** [_parse_review].  The second attempt writes double quotes for single ones;
    its [re.sub] replaces a backslash by a backslash, which changes nothing.
    The last two branches both return [A]. *)
Definition parse_review (text : string) : result ParseExn (MVal * MVal) :=
  let stripped := strip text in
  let stripped := match re_search fenced_object stripped with Some t => strip t | None => stripped end in
  match json_review stripped with
  | Ok r => Ok r
  | Err Escapes => Err Escapes
  | Err Handled =>
      match json_review (replace_char single_quote double_quote stripped) with
      | Ok r => Ok r
      | Err Escapes => Err Escapes
      | Err Handled =>
          match re_search winner_letter stripped with
          | Some w => Ok (MStr w, MStr stripped)
          | None =>
              match re_search winner_name stripped with
              | Some w => Ok (MStr w, MStr stripped)
              | None =>
                  let loose := if contains "winner" (lower stripped) then re_search winner_loose stripped else None in
                  match loose with
                  | Some w => Ok (MStr w, MStr stripped)
                  | None => Ok (MStr "A", MStr stripped)
                  end
              end
          end
      end
  end.
End Parse.
End Reviews.

(** * Reflection *)

Module Reflection.
Import PyRepr Planner Agents Consensus Reviews.

Record ReflectionScore := mk_reflection {
  rf_correctness : float;
  rf_hallucination : float;
  rf_completeness : float;
  rf_overall : float;
  rf_should_retry : bool;
  rf_reason : string
}.

Record ReflectionEngine := mk_refl { re_threshold : float; re_max_retries : Z; re_fallback_providers : list string }.

(** [ReflectionEngine(config)]; [None] is an absent key. *)
Definition new_reflection (threshold : option float) (max_retries : option Z) (fallback : list string)
    : ReflectionEngine :=
  mk_refl (default (flit 7 10) threshold) (default 2 max_retries) fallback.

Section Reflect.
Context `{!MathLib} `{!JsonLib}.
Context (eng : ReflectionEngine) (chat : nat → ChatRequest → Reply).

Abbreviation sent := (list ChatRequest).

Definition user_request (prompt model : string) (meta : Metadata) : ChatRequest :=
  mk_request model [mk_msg prompt false] false meta.

(** [getattr(request, "model", "") if request else ""] *)
Definition model_of (request : option ChatRequest) : string :=
  match request with Some r => req_model r | None => "" end.

Definition eval_prompt (content : string) : string :=
  "Evaluate the following response on three criteria (score 0.0 to 1.0):" +:+ line_break
  +:+ "1. correctness: Is the answer factually correct?" +:+ line_break
  +:+ "2. hallucination: Does the answer contain made-up information? (1.0 = no hallucination)" +:+ line_break
  +:+ "3. completeness: Does the answer fully address the question?" +:+ line_break +:+ line_break
  +:+ "ModelResponse:" +:+ line_break +:+ content +:+ line_break +:+ line_break
  +:+ "Return scores in JSON format: {" +:+ quoted "correctness" +:+ ": 0.0, " +:+ quoted "hallucination"
  +:+ ": 0.0, " +:+ quoted "completeness" +:+ ": 0.0}".

(** The scores of a review, and what is said when they are too low. *)
Definition judge (s : Scores) : ReflectionScore :=
  let overall := fdiv (fadd (fadd (sc_correctness s) (sc_hallucination s)) (sc_completeness s)) (float_of_Z 3) in
  let low x := flt x (re_threshold eng) in
  let should_retry := low overall in
  let reasons := ((if low (sc_correctness s) then ["low correctness"] else [])
                  ++ (if low (sc_hallucination s) then ["possible hallucination"] else [])
                  ++ (if low (sc_completeness s) then ["incomplete"] else []))%list in
  mk_reflection (sc_correctness s) (sc_hallucination s) (sc_completeness s) overall should_retry
    (if should_retry then match reasons with [] => "below threshold" | _ => join ", " reasons end else "").

Definition evaluation_failed : ReflectionScore :=
  mk_reflection fzero fzero fzero (flit 5 10) false "Evaluation failed, defaulting".

Definition empty_response : ReflectionScore :=
  mk_reflection fzero fzero fzero fzero true "Empty response".

Definition evaluate_result (result : AgentResult) (request : option ChatRequest) (st : sent) : ReflectionScore * sent :=
  if negb (truthy (ar_content result)) then (empty_response, st)
  else
    let '(reply, st) := ask chat (user_request (eval_prompt (ar_content result)) (model_of request) no_metadata) st in
    (match reply with
     | Answer content _ _ =>
         match parse_scores (default "{}" content) with Ok s => judge s | Err _ => evaluation_failed end
     | _ => evaluation_failed
     end, st).

Definition improvement_prompt (reason content : string) : string :=
  "The previous response needs improvement: " +:+ reason +:+ line_break
  +:+ "Previous response:" +:+ line_break +:+ content +:+ line_break +:+ line_break
  +:+ "Please provide an improved response addressing the issues above.".

(** The metadata of the [k]-th retry ([k] from 0). *)
Definition retry_metadata (k : nat) : Metadata :=
  match re_fallback_providers eng with
  | [] => no_metadata
  | l => mk_meta "" [] (l !! (k mod length l)%nat)
  end.

(** One retry: an answer with content replaces the result. *)
Definition improve (k : nat) (score : ReflectionScore) (current : AgentResult) (request : option ChatRequest)
    (st : sent) : AgentResult * sent :=
  let '(reply, st) :=
    ask chat (user_request (improvement_prompt (rf_reason score) (ar_content current)) (model_of request)
                (retry_metadata k)) st in
  (match reply with
   | Answer content provider model =>
       if truthy (default "" content) then
         agent_result (ar_agent current) (ar_step current) (default "" content) provider model
       else current
   | _ => current
   end, st).

(** The loop with [more] retries left, after [k]. *)
Fixpoint reflect_loop (more k : nat) (current : AgentResult) (request : option ChatRequest) (st : sent)
    : AgentResult * ReflectionScore * sent :=
  let '(score, st) := evaluate_result current request st in
  if negb (rf_should_retry score) then (current, score, st)
  else match more with
       | O => (current, score, st)
       | S more =>
           let '(current, st) := improve k score current request st in
           reflect_loop more (S k) current request st
       end.

(** [max_retries or self._max_retries] *)
Definition retry_limit (max_retries : option Z) : Z :=
  match max_retries with Some z => if z =? 0 then re_max_retries eng else z | None => re_max_retries eng end.

(** [reflect_and_retry]; with a negative limit the loop is not entered. *)
Definition reflect_and_retry (result : AgentResult) (request : option ChatRequest) (max_retries : option Z)
    (st : sent) : AgentResult * ReflectionScore * sent :=
  let limit := retry_limit max_retries in
  if limit <? 0 then let '(score, st) := evaluate_result result request st in (result, score, st)
  else reflect_loop (Z.to_nat limit) 0 result request st.
End Reflect.
End Reflection.

Module ReflectionSpec.
Import PyRepr Planner Agents Consensus Reviews Reflection.

Section Spec.
Context `{!MathLib} `{!JsonLib}.
Context (eng : ReflectionEngine) (chat : nat → ChatRequest → Reply).

Lemma evaluate_sent r request st :
  (length (evaluate_result eng chat r request st).2 <= S (length st))%nat.
Proof.
  unfold evaluate_result, ask. destruct (negb _); simpl; [lia|]. rewrite length_app. simpl. lia.
Qed.

Lemma improve_sent k score r request st :
  length (improve eng chat k score r request st).2 = S (length st).
Proof. unfold improve, ask. simpl. rewrite length_app. simpl. lia. Qed.

(** What a retry may change: the content, never to nothing. *)
Definition improves (r r' : AgentResult) : Prop :=
  ar_agent r' = ar_agent r ∧ ar_step r' = ar_step r ∧
  (ar_content r ≠ "" → ar_content r' ≠ "").

Lemma improve_improves k score r request st : improves r (improve eng chat k score r request st).1.
Proof.
  unfold improve, ask. simpl. destruct (chat _ _) as [c p m|e| |]; try done; [].
  destruct (truthy (default "" c)) eqn:E; [|done]. split; [done|]. split; [done|].
  simpl. intros _ Hc. by rewrite Hc in E.
Qed.

Lemma reflect_loop_spec more k r request st :
  let '(r', score, st') := reflect_loop eng chat more k r request st in
  improves r r' ∧
  (∃ st0, evaluate_result eng chat r' request st0 = (score, st')) ∧
  (length st' <= length st + 2 * more + 1)%nat.
Proof.
  revert k r st. induction more as [|more IH]; intros k r st; cbn [reflect_loop].
  - pose proof (evaluate_sent r request st) as Hs.
    destruct (evaluate_result eng chat r request st) as [score st1] eqn:E. cbn [snd] in Hs.
    destruct (negb _); (split; [done|split; [eauto|lia]]).
  - pose proof (evaluate_sent r request st) as Hs.
    destruct (evaluate_result eng chat r request st) as [score st1] eqn:E. cbn [snd] in Hs.
    destruct (negb _); [split; [done|split; [eauto|lia]]|].
    pose proof (improve_improves k score r request st1) as Hi.
    pose proof (improve_sent k score r request st1) as Hl.
    destruct (improve eng chat k score r request st1) as [r1 st2]. cbn [fst snd] in *.
    specialize (IH (S k) r1 st2). destruct (reflect_loop _ _ _ _ _ _ _) as [[r' sc] st'].
    destruct IH as ((H1 & H2 & H3) & H4 & H5). destruct Hi as (G1 & G2 & G3).
    split; [|split; [done|lia]]. repeat split; [congruence|congruence|auto].
Qed.

(** Reflection ends after at most one request per evaluation and one per retry;
    the score it returns is that of the result it returns, which belongs to the
    same agent and step and has content if the original had. *)
Theorem reflection_bounded (r : AgentResult) (request : option ChatRequest) (max_retries : option Z) st :
  let '(r', score, st') := reflect_and_retry eng chat r request max_retries st in
  improves r r' ∧
  (∃ st0, evaluate_result eng chat r' request st0 = (score, st')) ∧
  Z.of_nat (length st') <= Z.of_nat (length st) + 2 * Z.max 0 (retry_limit eng max_retries) + 1.
Proof.
  unfold reflect_and_retry. destruct (_ <? 0) eqn:E.
  - pose proof (evaluate_sent r request st) as Hs.
    destruct (evaluate_result eng chat r request st) as [score st1] eqn:Ev. cbn [snd] in Hs.
    split; [done|split; [eauto|lia]].
  - apply Z.ltb_ge in E.
    pose proof (reflect_loop_spec (Z.to_nat (retry_limit eng max_retries)) 0 r request st) as Hloop.
    destruct (reflect_loop _ _ _ _ _ _ _) as [[r' sc] st']. destruct Hloop as (H1 & H2 & H3).
    split; [done|split; [done|lia]].
Qed.

(** A limit of zero retries is not zero: the configured one applies. *)
Theorem zero_retries_ignored : retry_limit eng (Some 0) = re_max_retries eng.
Proof. done. Qed.
End Spec.

(** ** Behaviours to know *)

Definition demo_math : MathLib :=
  {| math_log := λ _, Err ValueErr; math_exp := λ _, Err ValueErr; float_pow := λ _ _, Err ValueErr;
     float_of_str := λ s, if bool_decide (s = "0.9") then Some (flit 9 10) else None |}.

Definition no_json : JsonLib := {| json_loads := λ _, None |}.

(** An answer that is not JSON and has no scores is half good everywhere; one
    without choices counts as [{}], whose scores are zero. *)
Example scores_of_noise :
  @parse_scores demo_math no_json "I like it" = Ok (mk_scores (flit 1 2) (flit 1 2) (flit 1 2)) ∧
  @parse_scores demo_math no_json (quoted "correctness" +:+ " : 0.9 and so on")
  = Ok (mk_scores (flit 9 10) (flit 1 2) (flit 1 2)) ∧
  @parse_scores demo_math no_json (quoted "correctness" +:+ ": 0.9.") = Err Escapes.
Proof. repeat split; vm_compute; reflexivity. Qed.

Example loose_reviews :
  @parse_review no_json ("  the winner is: b  ") = Ok (MStr "B", MStr "the winner is: b") ∧
  @parse_review no_json ("x " +:+ quoted "winner" +:+ ": " +:+ quoted "Claude") = 
    Ok (MStr "Claude", MStr ("x " +:+ quoted "winner" +:+ ": " +:+ quoted "Claude")) ∧
  @parse_review no_json "no idea" = Ok (MStr "A", MStr "no idea").
Proof. repeat split; vm_compute; reflexivity. Qed.
End ReflectionSpec.

(** * Debate *)

Module Debate.
Import PyRepr Planner Agents Consensus Reviews.

Record DebateResult := mk_debate {
  db_provider_a : string;
  db_provider_b : string;
  db_argument_a : string;
  db_argument_b : string;
  db_final_content : string;
  db_winner : string;
  db_reviewer_notes : MVal
}.

Definition with_preferred (provider : string) (r : ChatRequest) : ChatRequest :=
  mk_request (req_model r) (req_messages r) (req_stream r)
    (mk_meta (md_optimization_mode (req_metadata r)) (md_required_capabilities (req_metadata r)) (Some provider)).

Section Debate.
Context `{!MathLib} `{!JsonLib}.
Context (chat : nat → ChatRequest → Reply) (reviewer_model : string).

Abbreviation sent := (list ChatRequest).

(** [get_argument]: the content, empty when the call fails. *)
Definition get_argument (request : ChatRequest) (provider : string) (st : sent) : string * sent :=
  let '(reply, st) := ask chat (with_preferred provider request) st in
  (match reply with Answer content _ _ => default "" content | _ => "" end, st).

Definition review_prompt (request : ChatRequest) (a b arg_a arg_b : string) : string :=
  "You are a judge evaluating two AI responses to the same prompt." +:+ line_break +:+ line_break
  +:+ "Prompt:" +:+ line_break +:+ match last (req_messages request) with Some m => msg_content m | None => "" end
  +:+ line_break +:+ line_break
  +:+ "ModelResponse A (" +:+ a +:+ "):" +:+ line_break +:+ arg_a +:+ line_break +:+ line_break
  +:+ "ModelResponse B (" +:+ b +:+ "):" +:+ line_break +:+ arg_b +:+ line_break +:+ line_break
  +:+ "Evaluate both responses on:" +:+ line_break +:+ "1. Accuracy" +:+ line_break +:+ "2. Completeness"
  +:+ line_break +:+ "3. Clarity" +:+ line_break +:+ line_break
  +:+ "Return JSON: {" +:+ quoted "winner" +:+ ": " +:+ quoted "A" +:+ " or " +:+ quoted "B" +:+ ", "
  +:+ quoted "reason" +:+ ": " +:+ quoted "..." +:+ "}".

(** The review of two arguments: its winner and notes. *)
Definition review (request : ChatRequest) (a b arg_a arg_b : string) (st : sent) : (MVal * MVal) * sent :=
  let req := mk_request reviewer_model [mk_msg (review_prompt request a b arg_a arg_b) false] false no_metadata in
  let '(reply, st) := ask chat req st in
  let failed := (MStr "A", MStr "Review failed, defaulting to A") in
  (match reply with
   | Answer content _ _ => match parse_review (default "" content) with Ok r => r | Err _ => failed end
   | _ => failed
   end, st).

Definition is_b (winner : MVal) : bool := match winner with MStr w => bool_decide (w = "B") | _ => false end.

(** [run_debate].  The copies of the request share its metadata unless it has
    none ([own_metadata = false]): the preference of the second provider stays
    in the request of the caller. *)
Definition run_debate (own_metadata : bool) (request : ChatRequest) (a b : string) (st : sent)
    : DebateResult * ChatRequest * sent :=
  let '(arg_a, st) := get_argument request a st in
  let '(arg_b, st) := get_argument request b st in
  let request := if own_metadata then with_preferred b request else request in
  match truthy arg_a, truthy arg_b with
  | false, false => (mk_debate a b "" "" "" "" (MStr "Both providers failed"), request, st)
  | false, true => (mk_debate a b "" arg_b arg_b b (MStr "Provider A failed, using B"), request, st)
  | true, false => (mk_debate a b arg_a "" arg_a a (MStr "Provider B failed, using A"), request, st)
  | true, true =>
      let '((winner, notes), st) := review request a b arg_a arg_b st in
      (if is_b winner then mk_debate a b arg_a arg_b arg_b b notes
       else mk_debate a b arg_a arg_b arg_a a notes, request, st)
  end.

(** The final content is the argument of the winner; there is a winner exactly
    when a provider answered, and a provider that answered never loses to one
    that did not. *)
Theorem debate_winner (own_metadata : bool) (request : ChatRequest) (a b : string) (st : sent) :
  let '(d, _, st') := run_debate own_metadata request a b st in
  (db_final_content d = db_argument_a d ∧ (db_winner d = a ∨ db_argument_a d = "") ∨
   db_final_content d = db_argument_b d ∧ db_winner d = b) ∧
  (db_final_content d = "" ↔ db_argument_a d = "" ∧ db_argument_b d = "") ∧
  (length st' <= length st + 3)%nat.
Proof.
  unfold run_debate, get_argument, review, ask.
  destruct (match chat (length st) _ with Answer c _ _ => default "" c | _ => "" end) as [|ca arg_a];
    destruct (match chat (length (st ++ _)) _ with Answer c _ _ => default "" c | _ => "" end) as [|cb arg_b];
    cbn [truthy].
  - rewrite !length_app. simpl. split; [auto|split; [done|lia]].
  - rewrite !length_app. simpl. split; [auto|split; [by split; [|intros [_ ?]]|lia]].
  - rewrite !length_app. simpl. split; [auto|split; [by split; [|intros [? _]]|lia]].
  - destruct (match chat _ _ with Answer c _ _ => _ | _ => _ end) as [w n].
    rewrite !length_app. destruct (is_b w); simpl; (split; [auto|split; [by split; [|intros [? ?]]|lia]]).
Qed.
End Debate.

(** The caller's request keeps the preference for the second provider. *)
Example debate_pollutes_request `{!MathLib} `{!JsonLib} :
  let r := mk_request "" [mk_msg "hi" false] false (mk_meta "cheapest" [] None) in
  let '(_, left_behind, _) := run_debate (λ _ _, TimesOut) "" true r "openai" "anthropic" [] in
  md_preferred_provider (req_metadata left_behind) = Some "anthropic".
Proof. reflexivity. Qed.
End Debate.

(** * The orchestrator *)

Module Orchestrator.
Import PyRepr ExecMemory Planner Agents PlanExec Voting Consensus Reviews Reflection Debate.

(** A request, with what the modes besides the plan read. *)
Record FullRequest := mk_full {
  fr_base : OrchestrationRequest;
  fr_consensus : bool;
  fr_consensus_providers : list string;
  fr_consensus_strategy : string;
  fr_debate : bool;
  fr_debate_a : string;
  fr_debate_b : string;
  fr_own_metadata : bool
}.

Record GraphNode := mk_gnode { gn_id : string; gn_agent : string; gn_label : string; gn_status : option bool }.
Record Graph := mk_graph { gr_nodes : list GraphNode; gr_edges : list (string * string) }.

Record OrchestrationResponse := mk_oresp {
  op_content : string;
  op_mode : string;
  op_steps : list PlanStep;
  op_results : list AgentResult;
  op_reflection : option ReflectionScore;
  op_consensus : option ConsensusResult;
  op_debate : option DebateResult;
  op_total_tokens : Z;
  op_total_cost : float;
  op_timeline : list string;
  op_graph : Graph
}.

Inductive OrchExn := EPlan (e : PlanExn) | EStrategy (s : string).

(** [_build_graph_from_plan] *)
Definition node_id (i : Z) (s : PlanStep) : string := str_or (ps_step s) ("step_" +:+ str_of_Z i).

Definition graph_nodes (steps : list PlanStep) (results : list AgentResult) : list GraphNode :=
  imap (λ i s, mk_gnode (node_id (Z.of_nat i) s) (ps_agent s) (str_or (ps_step s) (ps_agent s))
                 (ar_success <$> results !! i)) steps.

Fixpoint chain (l : list string) : list (string * string) :=
  match l with x :: ((y :: _) as l') => (x, y) :: chain l' | _ => [] end.

Definition build_graph_from_plan (steps : list PlanStep) (results : list AgentResult) : Graph :=
  let nodes := graph_nodes steps results in mk_graph nodes (chain (gn_id <$> nodes)).

Definition no_graph : Graph := mk_graph [] [].

Section Orchestrate.
Context `{!MathLib} `{!JsonLib}.
Context (chat : nat → ChatRequest → Reply) (latency : nat → float) (stats : dict string ProviderMetrics).
Context (reg : registry) (eng : ReflectionEngine) (reviewer_model : string) (schedule : list nat).

Definition default_providers : list string := ["openai"; "anthropic"; "google"].

Definition providers_of (r : FullRequest) : list string :=
  match fr_consensus_providers r with [] => default_providers | l => l end.

(** [_run_consensus_mode] *)
Definition run_consensus_mode (r : FullRequest) (st : xst) : result OrchExn OrchestrationResponse * xst :=
  let '(res, sent) :=
    run_consensus chat latency stats (build_chat_request (fr_base r)) (providers_of r)
      (fr_consensus_strategy r) (xs_sent st) in
  (match res with
   | Ok c =>
       Ok (mk_oresp (cn_content c) "consensus" [] [] None (Some c) None 0 fzero
             ["orchestration_started"; "orchestration_completed"] no_graph)
   | Err s => Err (EStrategy s)
   end, mk_xst (xs_memory st) sent).

(** [_run_debate_mode] *)
Definition run_debate_mode (r : FullRequest) (st : xst) : result OrchExn OrchestrationResponse * xst :=
  let '(d, _, sent) :=
    run_debate chat reviewer_model (fr_own_metadata r) (build_chat_request (fr_base r))
      (str_or (fr_debate_a r) "openai") (str_or (fr_debate_b r) "anthropic") (xs_sent st) in
  (Ok (mk_oresp (db_final_content d) "debate" [] [] None None (Some d) 0 fzero
         ["orchestration_started"; "orchestration_completed"] no_graph),
   mk_xst (xs_memory st) sent).

Definition completed_event (r : AgentResult) : string := "agent_" +:+ ar_agent r +:+ "_completed".

(** [_run_plan_mode] *)
Definition run_plan_mode (r : OrchestrationRequest) (plan : ExecutionPlan) (st : xst)
    : result OrchExn OrchestrationResponse * xst :=
  let request := build_chat_request r in
  let '(res, steps, st) := execute_plan chat reg (Some request) schedule plan st in
  match res with
  | Err e => (Err (EPlan e), st)
  | Ok results =>
      let events := ("plan_execution_started" :: (completed_event <$> results))%list in
      let response content reflection extra tokens cost :=
        mk_oresp content (or_mode r) steps results reflection None None tokens cost
          (["orchestration_started"; "plan_created"] ++ events ++ extra ++ ["orchestration_completed"])%list
          (build_graph_from_plan steps results) in
      match last results with
      | None => (Ok (response "" None [] 0 fzero), st)
      | Some final =>
          if or_reflection r then
            let '(improved, score, sent) := reflect_and_retry eng chat final (Some request) None (xs_sent st) in
            (Ok (response (ar_content improved) (Some score) ["reflection_started"; "reflection_completed"]
                   (ar_tokens final) (ar_cost final)), mk_xst (xs_memory st) sent)
          else (Ok (response (ar_content final) None [] (ar_tokens final) (ar_cost final)), st)
      end
  end.

(** [orchestrate], without the workflow mode. *)
Definition orchestrate (r : FullRequest) (st : xst) : result OrchExn OrchestrationResponse * xst :=
  let base := fr_base r in
  if bool_decide (or_mode base = "consensus") || fr_consensus r then run_consensus_mode r st
  else if bool_decide (or_mode base = "debate") || fr_debate r then run_debate_mode r st
  else run_plan_mode base (select_plan base) st.

(** ** Properties *)

Definition costs_nothing (r : AgentResult) : Prop := ar_tokens r = 0 ∧ ar_cost r = fzero.

Lemma step_costs_nothing request step st r step' st' :
  execute_step chat reg request step st = (Ok r, step', st') → costs_nothing r.
Proof.
  unfold execute_step, start_step. destruct (get_agent _ _) as [a|]; simpl; [|by intros [= <- _ _]].
  destruct (fle _ _); simpl; [by intros [= <- _ _]|].
  unfold send. destruct (chat _ _); simpl; intros [= <- _ _]; done.
Qed.

Lemma sequential_costs_nothing request steps st rs steps' st' :
  execute_sequential chat reg request steps st = (Ok rs, steps', st') → Forall costs_nothing rs.
Proof.
  revert st rs steps' st'. induction steps as [|s l IH]; intros st rs steps' st'; cbn [execute_sequential].
  { by intros [= <- _ _]. }
  destruct (execute_step _ _ _ s st) as [[[x|e] s'] st1] eqn:E; [|done].
  apply step_costs_nothing in E. destruct (ar_success x).
  - destruct (execute_sequential _ _ _ l _) as [[[rs1|e] l'] st2] eqn:El; [|done].
    intros [= <- _ _]. constructor; [done|]. by eapply IH.
  - intros [= <- _ _]. by constructor.
Qed.

(** The events of a plan, in order. *)
Definition plan_events (results : list AgentResult) (reflection : bool) : list string :=
  (["orchestration_started"; "plan_created"; "plan_execution_started"] ++ (completed_event <$> results)
   ++ (if reflection then match results with [] => [] | _ => ["reflection_started"; "reflection_completed"] end else [])
   ++ ["orchestration_completed"])%list.

(** The response of a plan: every result is in it and in the timeline, its
    content is that of the last result (improved, when reflection was asked
    for), and it reports no tokens and no cost, whatever the router charged. *)
Theorem plan_response (r : OrchestrationRequest) (st : xst) resp st' :
  run_plan_mode r (select_plan r) st = (Ok resp, st') →
  op_total_tokens resp = 0 ∧ op_total_cost resp = fzero ∧
  op_timeline resp = plan_events (op_results resp) (or_reflection r) ∧
  (or_reflection r = false → op_content resp = match last (op_results resp) with Some x => ar_content x | None => "" end) ∧
  (is_Some (op_reflection resp) ↔ or_reflection r = true ∧ op_results resp ≠ []).
Proof.
  unfold run_plan_mode.
  destruct (execute_plan _ _ _ _ _ st) as [[[rs|e] steps] st1] eqn:E; [|done].
  assert (Forall costs_nothing rs) as Hfree.
  { pose proof (PlanSpec.select_plan_sequential r) as Hs. unfold execute_plan in E.
    destruct (pl_steps (select_plan r)) as [|x l]; [by injection E as <- _ _|].
    unfold PlanSpec.is_sequential in Hs. apply negb_true_iff in Hs. rewrite Hs in E.
    by eapply sequential_costs_nothing. }
  destruct (last rs) as [final|] eqn:El.
  - apply last_Some_elem_of in El as Hin. rewrite Forall_forall in Hfree. destruct (Hfree _ Hin) as [Ht Hc].
    assert (rs ≠ []) as Hne by (by intros ->).
    destruct (or_reflection r).
    + destruct (reflect_and_retry _ _ _ _ _ _) as [[im sc] sent]. intros [= <- _]. cbn.
      unfold plan_events. destruct rs as [|x l]; [done|]. split; [done|]. split; [done|]. split; [done|]. split; [done|]. split; [done|eauto].
    + intros [= <- _]. cbn. unfold plan_events. rewrite El. split; [done|]. split; [done|]. split; [done|]. split; [done|].
      split; [by intros [? ?]|by intros [? _]].
  - apply last_None in El as ->. intros [= <- _]. cbn. unfold plan_events.
    split; [done|]. split; [done|]. split; [by destruct (or_reflection r)|]. split; [done|]. split; [by intros [? ?]|by intros [_ ?]].
Qed.

Lemma chain_length l : length (chain l) = (length l - 1)%nat.
Proof. induction l as [|x [|y l] IH]; [done|done|]. simpl in *. rewrite IH. lia. Qed.

Lemma chain_elem l x y : (x, y) ∈ chain l → x ∈ l ∧ y ∈ l.
Proof.
  induction l as [|a [|b l] IH]; simpl; [by intros ?%elem_of_nil..|].
  intros [[= -> ->]|Hin]%elem_of_cons; [split; [left|right; left]|].
  destruct (IH Hin). split; by right.
Qed.

(** The graph of a plan: a node per step, an edge between any two that follow
    each other. *)
Lemma graph_wf steps results :
  let g := build_graph_from_plan steps results in
  length (gr_nodes g) = length steps ∧ length (gr_edges g) = (length steps - 1)%nat ∧
  ∀ x y, (x, y) ∈ gr_edges g → x ∈ gn_id <$> gr_nodes g ∧ y ∈ gn_id <$> gr_nodes g.
Proof.
  simpl. unfold graph_nodes. rewrite length_imap, chain_length, length_fmap, length_imap.
  split; [done|]. split; [done|]. intros x y. apply chain_elem.
Qed.
End Orchestrate.

(** ** Witness *)

Definition demo_orch : OrchestrationRequest :=
  mk_orch "Design the system, then write code" [] "single" [] false false true "" no_metadata.

Lemma plan_response_witness :
  let run := @run_plan_mode ReflectionSpec.demo_math ReflectionSpec.no_json PlanSpec.echo default_registry
               (new_reflection None None []) [] demo_orch (select_plan demo_orch) (mk_xst [] []) in
  match run.1 with
  | Ok resp => op_total_tokens resp = 0 ∧ length (op_results resp) = 2%nat
  | Err _ => False
  end.
Proof.
  cbv zeta. destruct (run_plan_mode _ _ _ _ _ _ _) as [[resp|e] st'] eqn:E; [|vm_compute in E; discriminate E].
  split.
  - exact (proj1 (@plan_response ReflectionSpec.demo_math ReflectionSpec.no_json PlanSpec.echo default_registry
      (new_reflection None None []) [] demo_orch (mk_xst [] []) resp st' E)).
  - vm_compute in E. by injection E as <- _.
Defined.

(** The second request of an orchestrator sees what the first one got: see
    [memory_crosses_requests]. *)
End Orchestrator.

(** * Witnesses of the consensus theorems *)

Module ConsensusDemo.
Import PyRepr Agents Voting Consensus ConsensusSpec.

Definition demo_responses : list ModelResponse :=
  [mk_resp "openai" "m1" "It is 4." fone; mk_resp "google" "m2" "It is five" fone;
   mk_resp "anthropic" "m3" "it IS 4." fzero].

Lemma majority_correct_witness :
  ∃ r, r ∈ demo_responses ∧ head (agreeing (simplify (rs_content r)) demo_responses) = Some r.
Proof.
  destruct (majority_correct "majority_vote" demo_responses ltac:(discriminate)) as (r & Hr & Hh & _).
  exists r. split; [exact Hr|exact Hh].
Defined.

Example majority_of_two :
  majority "majority_vote" demo_responses = mk_consensus "openai" "m1" "It is 4." "majority_vote" [] 2 3.
Proof. vm_compute. reflexivity. Qed.

Lemma consensus_ignores_providers_witness :
  (run_consensus PlanSpec.echo (λ _, fone) [] (mk_request "" [mk_msg "hi" false] false no_metadata)
     ["openai"; "google"] "majority_vote" []).2
  = (run_consensus PlanSpec.echo (λ _, fone) [] (mk_request "" [mk_msg "hi" false] false no_metadata)
     ["none"; "such"] "majority_vote" []).2.
Proof.
  apply (consensus_ignores_providers PlanSpec.echo (λ _, fone) []
    (mk_request "" [mk_msg "hi" false] false no_metadata) ["openai"; "google"] ["none"; "such"] "majority_vote" []).
  - reflexivity.
  - vm_compute. discriminate.
Defined.

Definition vote_of (p : string) (x : float) : Vote := mk_voted p "" "" (mk_vote x x x x x).

Lemma choose_winner_first_best_witness :
  choose_winner [vote_of "a" fzero; vote_of "b" fone; vote_of "c" fone] = vote_of "b" fone.
Proof.
  etransitivity; [apply (choose_winner_first_best (vote_of "a" fzero) [vote_of "b" fone; vote_of "c" fone])|].
  - repeat constructor.
  - vm_compute. reflexivity.
Defined.

Lemma weighted_score_best_witness :
  ∃ w, w ∈ demo_responses ∧
    ∀ x, x ∈ demo_responses →
      fle (vs_overall (scored_response [] x).1) (vs_overall (scored_response [] w).1) = true.
Proof.
  destruct (weighted_score_best [] "weighted_score" 3 (mk_resp "openai" "m1" "It is 4." fone)
    [mk_resp "google" "m2" "It is five" fone; mk_resp "anthropic" "m3" "it IS 4." fzero]) as (w & H1 & _ & H3).
  - repeat constructor; vm_compute; reflexivity.
  - exists w. split; [exact H1|exact H3].
Defined.

(** An unknown strategy is only noticed when a response is valid. *)
Example unknown_strategy :
  (run_consensus PlanSpec.echo (λ _, fone) [] (mk_request "" [mk_msg "hi" false] false no_metadata)
     ["openai"] "best" []).1 = Err "best" ∧
  (run_consensus (λ _ _, TimesOut) (λ _, fone) [] (mk_request "" [mk_msg "hi" false] false no_metadata)
     ["openai"] "best" []).1 = Ok (mk_consensus "" "" "" "best" [] 0 0).
Proof. split; vm_compute; reflexivity. Qed.
End ConsensusDemo.
