(* ===== verification/Chunking.v ===== *)
(** * Chunking

    [src/app/knowledge/chunking/]: the five strategies that cut a document into
    chunks ([strategies.py]), the token estimate ([tokenizer.py]), the
    validator, the statistics and the pipeline.

    A text is the list of its code points, so that [len] counts what Python
    counts and [ord] is the element itself.  The five regular expressions of
    the module are matched by hand: each of them is a scan that asks, at every
    position, how long the match starting there is.  The loops run on fuel; a
    result [None] means that the fuel was not enough. *)

From Stdlib Require Import ZArith Lia.
From Stdlib Require Import Ascii.
From stdpp Require Import base numbers strings gmap list.
From S2P Require Import Prelude PyFloat PyNum PyStr PyMath.


Open Scope string_scope.
Open Scope Z_scope.

Abbreviation text := (list Z) (only parsing).

(** The code points of an ASCII literal. *)
Fixpoint code_points (s : string) : text :=
  match s with
  | EmptyString => []
  | String a s' => Z.of_nat (Ascii.nat_of_ascii a) :: code_points s'
  end.

(** ** Texts *)

Module Text.

(** [str.isspace] of a character, which is also the class [\s]. *)
Definition is_white (c : Z) : bool :=
  ((9 <=? c) && (c <=? 13)) || ((28 <=? c) && (c <=? 32)) || (c =? 133) || (c =? 160)
  || (c =? 5760) || ((8192 <=? c) && (c <=? 8202)) || (c =? 8232) || (c =? 8233)
  || (c =? 8239) || (c =? 8287) || (c =? 12288).

Definition newline_char : Z := 10.
Definition is_newline (c : Z) : bool := c =? newline_char.

(** [text.strip()] *)
Fixpoint lstrip_text (t : text) : text :=
  match t with [] => [] | c :: t' => if is_white c then lstrip_text t' else t end.
Definition strip_text (t : text) : text := rev (lstrip_text (rev (lstrip_text t))).

(** [p.strip()] as a condition. *)
Definition nonblank (t : text) : bool := negb (bool_decide (strip_text t = [])).

(** [text.rfind(c)] *)
Fixpoint rfind_from (c : Z) (i acc : Z) (t : text) : Z :=
  match t with [] => acc | d :: t' => rfind_from c (i + 1) (if d =? c then i else acc) t' end.
Definition rfind (c : Z) (t : text) : Z := rfind_from c 0 (-1) t.

(** The characters of a text that are not white space. *)
Definition visible_text (t : text) : text := List.filter (λ c, negb (is_white c)) t.

(** The longest prefix that satisfies [p]. *)
Fixpoint span (p : Z → bool) (t : text) : text * text :=
  match t with
  | c :: t' => if p c then let '(a, b) := span p t' in (c :: a, b) else ([], t)
  | [] => ([], [])
  end.

(** ** [re.split] and [str.split]

    [m prev rest] is the length of the match that starts at a position, given
    the character before it and the text from it on; 0 stands for no match.
    [skip] counts the characters of a match that are still to be passed over,
    [cur] is the piece read so far, in reverse. *)

Abbreviation matcher := (option Z → text → nat).

Fixpoint split_scan (m : matcher) (skip : nat) (prev : option Z) (cur t : text) : list text :=
  match t with
  | [] => [rev cur]
  | c :: t' =>
      match skip with
      | S k => split_scan m k (Some c) cur t'
      | O =>
          match m prev t with
          | O => split_scan m O (Some c) (c :: cur) t'
          | S k => rev cur :: split_scan m k (Some c) [] t'
          end
      end
  end.

Definition split_matches (m : matcher) (t : text) : list text := split_scan m O None [] t.

(** [text.split("\n\n")] *)
Definition blank_line : matcher := λ _ t,
  match t with a :: b :: _ => if is_newline a && is_newline b then 2%nat else O | _ => O end.

(** The position after the last newline of [t], 0 when it has none. *)
Fixpoint after_last_newline (t : text) : nat :=
  match t with
  | [] => O
  | c :: t' =>
      match after_last_newline t' with
      | O => if is_newline c then 1%nat else O
      | n => S n
      end
  end.

(** [\n\s*\n]: the greedy run of white space, given back up to its last newline. *)
Definition paragraph_break : matcher := λ _ t,
  match t with
  | a :: t' =>
      if is_newline a then
        match after_last_newline (span is_white t').1 with O => O | n => S n end
      else O
  | [] => O
  end.

Definition ends_sentence (c : Z) : bool := (c =? 46) || (c =? 33) || (c =? 63).
Definition opens_sentence (c : Z) : bool :=
  ((65 <=? c) && (c <=? 90)) || (c =? 34) || (c =? 39) || (c =? 40).

(** [_SENTENCE_PATTERN]: a run of white space between the end of a sentence and
    the beginning of another one.  No prefix of the run can be a match, since
    what follows it is white space. *)
Definition sentence_break : matcher := λ prev t,
  let '(run, rest) := span is_white t in
  match prev, rest with
  | Some p, c :: _ => if ends_sentence p && opens_sentence c then length run else O
  | _, _ => O
  end.

(** [#{1,6}\s] at the head of [t]: how many [#]. *)
Definition is_hash (c : Z) : bool := c =? 35.
Definition heading_marks (t : text) : option nat :=
  let '(marks, rest) := span is_hash t in
  match rest with
  | c :: _ =>
      if (1 <=? zlen marks) && (zlen marks <=? 6) && is_white c then Some (length marks) else None
  | [] => None
  end.

(** [^], in multi-line mode. *)
Definition line_start (prev : option Z) : bool :=
  match prev with None => true | Some c => is_newline c end.

Definition heading_here (prev : option Z) (t : text) : bool :=
  line_start prev && bool_decide (is_Some (heading_marks t)).

(** [re.split] on the empty matches of [(?=^#{1,6}\s)]. *)
Fixpoint split_before (prev : option Z) (cur t : text) : list text :=
  match t with
  | [] => [rev cur]
  | c :: t' =>
      if heading_here prev t then rev cur :: split_before (Some c) [c] t'
      else split_before (Some c) (c :: cur) t'
  end.

(** [re.search(r"^#{1,6}\s", text, re.MULTILINE)] *)
Fixpoint has_heading (prev : option Z) (t : text) : bool :=
  match t with
  | [] => false
  | c :: t' => heading_here prev t || has_heading (Some c) t'
  end.

(** [re.match(r"^(#{1,6})\s+(.+)$", part, re.MULTILINE)]: the number of marks
    and the title, stripped.  When only white space follows the marks the run
    is given back up to a character that is not a newline, and the stripped
    title is empty. *)
Definition heading_match (part : text) : option (nat * text) :=
  match heading_marks part with
  | Some n =>
      let '(run, rest) := span is_white (drop n part) in
      match rest with
      | _ :: _ => Some (n, strip_text (span (λ c, negb (is_newline c)) rest).1)
      | [] => if existsb (λ c, negb (is_newline c)) (drop 1 run) then Some (n, []) else None
      end
  | None => None
  end.

(** [[p.strip() for p in parts if p.strip()]] *)
Definition stripped (parts : list text) : list text := strip_text <$> List.filter nonblank parts.

(** The matches of a pattern that is a sequence of character classes, as
    [re.finditer] yields them: the end of the last one. *)
Fixpoint matches_at (p : list (Z → bool)) (t : text) : bool :=
  match p, t with
  | [], _ => true
  | q :: p', c :: t' => q c && matches_at p' t'
  | _, [] => false
  end.

Fixpoint last_end (p : list (Z → bool)) (skip : nat) (i : Z) (acc : option Z) (t : text) : option Z :=
  match t with
  | [] => acc
  | _ :: t' =>
      match skip with
      | S k => last_end p k (i + 1) acc t'
      | O =>
          if matches_at p t then last_end p (pred (length p)) (i + 1) (Some (i + zlen p)) t'
          else last_end p O (i + 1) acc t'
      end
  end.

End Text.
Import Text.

(** ** Token estimates

    [TokenEstimator] is a protocol: the strategies are written against any
    [estimate], the pipeline needs that a text with content has a token. *)

Class TokenEstimator := estimate : text → Z.
Class TokenEstimatorLaws (E : TokenEstimator) : Prop :=
  estimate_positive t : t ≠ [] → 1 <= estimate t.

(** [math.ceil(n / k)]: the quotient is exact enough below 2^53 characters. *)
Definition ceil_div (n k : Z) : Z := - ((- n) / k).

Definition heuristic_estimate (t : text) : Z :=
  match t with
  | [] => 0
  | _ =>
      let char_count := zlen t in
      let ascii_chars := zlen (List.filter (λ c, c <? 128) t) in
      let non_ascii_chars := char_count - ascii_chars in
      Z.max 1 (ceil_div ascii_chars 4 + ceil_div non_ascii_chars 2)
  end.

Definition HeuristicTokenEstimator : TokenEstimator := heuristic_estimate.

#[export] Instance heuristic_laws : TokenEstimatorLaws HeuristicTokenEstimator.
Proof. intros [|c t] H; [done|]. unfold estimate, HeuristicTokenEstimator, heuristic_estimate. lia. Qed.

(** ** Chunks

    The field [metadata] of a preview is never written. *)

Record ChunkPreview := MkChunk {
  content : text;
  chunk_index : Z;
  start_offset : Z;
  end_offset : Z;
  token_estimate : Z;
  character_count : Z;
  section : list text;
  page_number : option Z
}.

Section Strategies.
Context {E : TokenEstimator}.

(** [_make_chunk]; no caller passes a page number. *)
Definition make_chunk (c : text) (index start : Z) (sec : list text) : ChunkPreview :=
  MkChunk c index start (start + zlen c) (estimate c) (zlen c) sec None.

(** ** Fixed size *)

Definition dot_char (c : Z) : bool := negb (is_newline c).
Definition is_blank (c : Z) : bool := c =? 32.

(** The patterns as [re] reads them: the dot of [". "] is any character. *)
Definition break_patterns : list (list (Z → bool)) :=
  [[is_newline; is_newline]; [is_newline]; [dot_char; is_blank]; [is_blank]].

Fixpoint first_break (patterns : list (list (Z → bool))) (segment : text) (start : Z) : option Z :=
  match patterns with
  | [] => None
  | p :: ps =>
      match last_end p O 0 None segment with
      | Some e => if start <? start + e then Some (start + e) else first_break ps segment start
      | None => first_break ps segment start
      end
  end.

Definition find_break (t : text) (start end_ : Z) : Z :=
  default end_ (first_break break_patterns (py_slice start end_ t) start).

(** Where the chunk that begins at [start] ends. *)
Definition fixed_end (max_ : Z) (t : text) (start : Z) : Z :=
  let end_ := start + max_ in
  if zlen t <=? end_ then zlen t
  else
    let break_pos := find_break t start end_ in
    if start <? break_pos then break_pos else end_.

Fixpoint fixed_loop (fuel : nat) (max_ overlap : Z) (t : text) (start index : Z)
    : option (list ChunkPreview) :=
  match fuel with
  | O => None
  | S fuel' =>
      if start <? zlen t then
        let end_ := fixed_end max_ t start in
        let chunk := make_chunk (py_slice start end_ t) index start [] in
        let next_start := if end_ - overlap <=? start then end_ else end_ - overlap in
        if zlen t <=? next_start then Some [chunk]
        else cons chunk <$> fixed_loop fuel' max_ overlap t next_start (index + 1)
      else Some []
  end.

Definition fixed_split (fuel : nat) (max_ overlap : Z) (t : text) : option (list ChunkPreview) :=
  fixed_loop fuel max_ overlap t 0 0.

(** ** Sliding window *)

Fixpoint sliding_loop (fuel : nat) (window stride : Z) (t : text) (start index : Z)
    : option (list ChunkPreview) :=
  match fuel with
  | O => None
  | S fuel' =>
      if start <? zlen t then
        let end_ := Z.min (start + window) (zlen t) in
        let chunk := make_chunk (py_slice start end_ t) index start [] in
        cons chunk <$> sliding_loop fuel' window stride t (start + stride) (index + 1)
      else Some []
  end.

Definition sliding_split (fuel : nat) (window stride : Z) (t : text) : option (list ChunkPreview) :=
  sliding_loop fuel window stride t 0 0.

(** ** Sentences *)

(** [" ".join(group)] *)
Fixpoint join_blank (group : list text) : text :=
  match group with
  | [] => []
  | [s] => s
  | s :: r => (s ++ 32 :: join_blank r)%list
  end.

Fixpoint sentence_loop (fuel : nat) (n stride : Z) (sentences : list text) (i index : Z)
    : option (list ChunkPreview) :=
  match fuel with
  | O => None
  | S fuel' =>
      if i <? zlen sentences then
        let group := py_slice i (i + n) sentences in
        cons (make_chunk (join_blank group) index 0 []) <$>
          sentence_loop fuel' n stride sentences (i + stride) (index + 1)
      else Some []
  end.

Definition sentences_of (t : text) : list text := stripped (split_matches sentence_break t).

Definition sentence_stride (n overlap : Z) : Z := if n - overlap <? 1 then 1 else n - overlap.

Definition sentence_split (fuel : nat) (n overlap : Z) (t : text) : option (list ChunkPreview) :=
  sentence_loop fuel n (sentence_stride n overlap) (sentences_of t) 0 0.

(** ** Paragraphs: the chunks of a long paragraph keep the offsets they have in
    the paragraph *)

Definition with_index (i : Z) (c : ChunkPreview) : ChunkPreview :=
  MkChunk (content c) i (start_offset c) (end_offset c) (token_estimate c) (character_count c)
    (section c) (page_number c).

Fixpoint reindex (i : Z) (cs : list ChunkPreview) : list ChunkPreview :=
  match cs with [] => [] | c :: cs' => with_index i c :: reindex (i + 1) cs' end.

Fixpoint paragraph_loop (fuel : nat) (max_ overlap : Z) (paragraphs : list text) (index : Z)
    : option (list ChunkPreview) :=
  match paragraphs with
  | [] => Some []
  | para :: ps =>
      let p := strip_text para in
      if bool_decide (p = []) then paragraph_loop fuel max_ overlap ps index
      else if zlen p <=? max_ then
        cons (make_chunk p index 0 []) <$> paragraph_loop fuel max_ overlap ps (index + 1)
      else
        match fixed_split fuel max_ overlap p with
        | Some sub_chunks =>
            app (reindex index sub_chunks) <$>
              paragraph_loop fuel max_ overlap ps (index + zlen sub_chunks)
        | None => None
        end
  end.

Definition paragraph_split (fuel : nat) (max_ overlap : Z) (t : text) : option (list ChunkPreview) :=
  paragraph_loop fuel max_ overlap (split_matches paragraph_break t) 0.

(** ** Recursive *)

Inductive Level := Heading | Paragraph | Sentence | Word.

(** The variable [level] of [_process_parts]: after a heading it holds the
    depth of the heading and no longer a level. *)
Inductive Hint := NoHint | LevelHint (l : Level) | DepthHint (n : nat).

Definition is_heading_hint (h : Hint) : bool :=
  match h with LevelHint Heading => true | _ => false end.

(** [_split_heading_boundaries], its first result: the other one is not used. *)
Definition heading_parts (t : text) : list text := stripped (split_before None [] t).

Definition too_long (max_ : Z) (p : text) : bool := max_ <? zlen p.

Definition detect_level (max_ : Z) (t : text) (current_level : Hint) : Level :=
  if negb (is_heading_hint current_level) && has_heading None t
     && (1 <? zlen (heading_parts t)) then Heading
  else
    let paras := List.filter nonblank (split_matches blank_line t) in
    if (1 <? zlen paras) && existsb (too_long max_) paras then Paragraph
    else
      let sentences := split_matches sentence_break t in
      if (1 <? zlen sentences) && existsb (too_long max_) sentences then Sentence
      else Word.

Definition paragraph_parts (t : text) : list text := stripped (split_matches paragraph_break t).

(** [_split_by_word] *)
Definition word_cut (max_ : Z) (t : text) : text :=
  let chunk := take_z max_ t in
  let space := rfind 32 chunk in
  if zlen chunk / 2 <? space then take_z space chunk else chunk.

Fixpoint word_parts (fuel : nat) (max_ : Z) (t : text) : option (list text) :=
  match fuel with
  | O => None
  | S fuel' =>
      if max_ <? zlen t then
        let chunk := word_cut max_ t in
        cons (strip_text chunk) <$> word_parts fuel' max_ (strip_text (drop (length chunk) t))
      else Some (if bool_decide (t = []) then [] else [strip_text t])
  end.

Definition parts_at (fuel : nat) (max_ : Z) (level : Level) (t : text) : option (list text) :=
  match level with
  | Heading => Some (heading_parts t)
  | Paragraph => Some (paragraph_parts t)
  | Sentence => Some (sentences_of t)
  | Word => word_parts fuel max_ t
  end.

(** [next_hint] *)
Definition next_hint (level : Hint) : Hint :=
  match level with LevelHint Heading => LevelHint Paragraph | h => h end.

(** [current_heading[: level - 1] + [heading_text]], and the new [level]. *)
Definition enter_heading (part : text) (level : Hint) (current_heading : list text)
    : Hint * list text :=
  match heading_match part with
  | Some (n, title) => (DepthHint n, (take (n - 1) current_heading ++ [title])%list)
  | None => (level, current_heading)
  end.

(** [_process_parts], with the recursive call as an argument. *)
Fixpoint process_parts (rec : text → Z → list text → Hint → option (list ChunkPreview))
    (max_ : Z) (parts : list text) (index : Z) (current_heading : list text) (level : Hint)
    : option (list ChunkPreview) :=
  match parts with
  | [] => Some []
  | part :: ps =>
      let '(level', heading') := enter_heading part level current_heading in
      if zlen part <=? max_ then
        cons (make_chunk part index 0 heading') <$>
          process_parts rec max_ ps (index + 1) heading' level'
      else
        match rec part index heading' (next_hint level') with
        | Some sub_chunks =>
            app sub_chunks <$> process_parts rec max_ ps (index + zlen sub_chunks) heading' level'
        | None => None
        end
  end.

(** [_split_recursive] *)
Fixpoint split_recursive (fuel : nat) (max_ : Z) (t : text) (base_index : Z)
    (sec : list text) (level_hint : Hint) : option (list ChunkPreview) :=
  match fuel with
  | O => None
  | S fuel' =>
      if zlen t <=? max_ then Some [make_chunk t base_index 0 sec]
      else
        let level := detect_level max_ t level_hint in
        match parts_at fuel' max_ level t with
        | Some parts =>
            process_parts (split_recursive fuel' max_) max_ parts base_index sec (LevelHint level)
        | None => None
        end
  end.

(** [RecursiveChunkStrategy.split]: the overlap is stored and never read. *)
Definition recursive_split (fuel : nat) (max_ overlap : Z) (t : text) : option (list ChunkPreview) :=
  split_recursive fuel max_ t 0 [] NoHint.

End Strategies.

(** ** [create_strategy] *)

Inductive ChunkStrategy :=
  | FixedSizeChunkStrategy (max_characters overlap : Z)
  | RecursiveChunkStrategy (max_characters overlap : Z)
  | ParagraphChunkStrategy (max_characters overlap : Z)
  | SentenceChunkStrategy (sentences_per_chunk overlap_sentences : Z)
  | SlidingWindowChunkStrategy (window_size stride : Z).

(** [strategy.split(document)] *)
Definition split {E : TokenEstimator} (fuel : nat) (s : ChunkStrategy) (t : text)
    : option (list ChunkPreview) :=
  match s with
  | FixedSizeChunkStrategy m o => fixed_split fuel m o t
  | RecursiveChunkStrategy m o => recursive_split fuel m o t
  | ParagraphChunkStrategy m o => paragraph_split fuel m o t
  | SentenceChunkStrategy n o => sentence_split fuel n o t
  | SlidingWindowChunkStrategy w s => sliding_split fuel w s t
  end.

Inductive ChunkError :=
  | UnknownStrategy (name : string)
  | EmptyContent
  | TooSmall (count min_ : Z)
  | TooLarge (count max_ : Z)
  | InvalidOffsets
  | InvalidTokenEstimate.

Definition create_strategy (name : string) (chunk_size overlap : Z) : result ChunkError ChunkStrategy :=
  if String.eqb name "sentence" then
    Ok (SentenceChunkStrategy (Z.max 1 (chunk_size / 200)) (Z.max 1 (overlap / 200)))
  else if String.eqb name "sliding_window" then
    Ok (SlidingWindowChunkStrategy chunk_size
          (if overlap <? chunk_size then chunk_size - overlap else chunk_size / 2))
  else if String.eqb name "fixed" then Ok (FixedSizeChunkStrategy chunk_size overlap)
  else if String.eqb name "recursive" then Ok (RecursiveChunkStrategy chunk_size overlap)
  else if String.eqb name "paragraph" then Ok (ParagraphChunkStrategy chunk_size overlap)
  else Err (UnknownStrategy name).

(** ** The validator *)

Record ChunkValidator := MkValidator { v_min : Z; v_max : Z }.

Definition validate_chunk (v : ChunkValidator) (c : ChunkPreview) : result ChunkError ChunkPreview :=
  if bool_decide (content c = []) || negb (nonblank (content c)) then Err EmptyContent
  else if character_count c <? v_min v then Err (TooSmall (character_count c) (v_min v))
  else if v_max v <? character_count c then Err (TooLarge (character_count c) (v_max v))
  else if end_offset c <=? start_offset c then Err InvalidOffsets
  else if token_estimate c <? 1 then Err InvalidTokenEstimate
  else Ok c.

(** ** Statistics *)

Record ChunkStatistics := MkChunkStatistics {
  total_chunks : Z;
  average_size : float;
  average_token : float;
  max_size : Z;
  min_size : Z;
  total_characters : Z;
  total_tokens : Z;
  overlap_percentage : float
}.

Definition sum_z (l : list Z) : Z := foldl Z.add 0 l.

(** [round(total / n, 1)] *)
Definition average (total n : Z) : float := py_round (int_ratio total n) 1.

Definition overlap_of (cs : list ChunkPreview) (document_length : Z) : float :=
  match cs with
  | [] => fzero
  | _ =>
      if document_length =? 0 then fzero
      else
        let total_content := sum_z (zlen ∘ content <$> cs) in
        let ratio := int_ratio total_content document_length in
        let excess := fmul (fsub ratio fone) (float_of_Z 100) in
        py_round (if flt fzero excess then excess else fzero) 2
  end.

Definition chunk_statistics (cs : list ChunkPreview) (document_length : Z) : ChunkStatistics :=
  match cs with
  | [] => MkChunkStatistics 0 fzero fzero 0 0 0 0 (overlap_of cs document_length)
  | c :: cs' =>
      let sizes := character_count <$> cs in
      let tokens := token_estimate <$> cs in
      MkChunkStatistics (zlen cs)
        (average (sum_z sizes) (zlen cs)) (average (sum_z tokens) (zlen cs))
        (foldl Z.max (character_count c) (character_count <$> cs'))
        (foldl Z.min (character_count c) (character_count <$> cs'))
        (sum_z sizes) (sum_z tokens) (overlap_of cs document_length)
  end.

(** ** Documents and stored chunks

    A metadata value is the Python value whose [str] the pipeline stores; the
    text of the list of sections is its JSON. *)

Inductive MetaValue :=
  | MetaText (s : string)
  | MetaInt (n : Z)
  | MetaTags (l : list string)
  | MetaSection (l : list text)
  | MetaSectionJson (l : list text).

Record KnowledgeMetadata := MkMetadata { meta_key : string; meta_value : MetaValue; value_type : string }.

Inductive KnowledgeStatus := ACTIVE | ARCHIVED | DELETED.

Record KnowledgeDocument := MkDocument {
  doc_id : string;
  doc_collection_id : string;
  doc_title : string;
  doc_content : text;
  doc_source : string;
  doc_status : KnowledgeStatus;
  doc_metadata : list KnowledgeMetadata;
  doc_tags : list string;
  doc_version : Z;
  doc_chunk_count : Z;
  doc_created_at : float;
  doc_updated_at : float
}.

Record KnowledgeChunk := MkKnowledgeChunk {
  kc_id : string;
  kc_document_id : string;
  kc_collection_id : string;
  kc_content : text;
  kc_chunk_index : Z;
  kc_start_offset : Z;
  kc_end_offset : Z;
  kc_token_estimate : Z;
  kc_character_count : Z;
  kc_metadata : list KnowledgeMetadata;
  kc_created_at : float
}.

(** ** The metadata of a chunk *)

(** [doc_meta["language"]], where a later entry of a key replaces an earlier one. *)
Definition document_meta (key : string) (meta : list KnowledgeMetadata) : option MetaValue :=
  foldl (λ acc m, if String.eqb (meta_key m) key then Some (meta_value m) else acc) None meta.

Definition build_metadata (d : KnowledgeDocument) (index : Z) (sec : list text) (page : option Z)
    : list (string * MetaValue) :=
  ((match document_meta "language" (doc_metadata d) with Some v => [("language", v)] | None => [] end)
   ++ (if truthy (doc_source d) then [("source", MetaText (doc_source d))] else [])
   ++ (match doc_tags d with [] => [] | tags => [("tags", MetaTags tags)] end)
   ++ [("version", MetaInt (doc_version d)); ("chunk_index", MetaInt index);
       ("document_title", MetaText (doc_title d)); ("document_id", MetaText (doc_id d))]
   ++ (match sec with [] => [] | _ => [("section", MetaSection sec)] end)
   ++ (match page with Some p => [("page_number", MetaInt p)] | None => [] end))%list.

Definition string_meta (kv : string * MetaValue) : KnowledgeMetadata := MkMetadata kv.1 kv.2 "string".

Definition chunk_metadata (d : KnowledgeDocument) (index : Z) (p : ChunkPreview)
    : list KnowledgeMetadata :=
  ((match page_number p with Some n => [string_meta ("page_number", MetaInt n)] | None => [] end)
   ++ string_meta ("section", MetaSectionJson (section p))
   :: (string_meta <$> build_metadata d index (section p) (page_number p)))%list.

(** ** The pipeline *)

Record ChunkingConfig := MkChunkingConfig {
  strategy_name : string;
  chunk_size : Z;
  chunk_overlap : Z;
  min_chunk_size : Z;
  max_chunk_size : Z
}.

(** [from_env] with none of its variables set. *)
Definition default_config : ChunkingConfig := MkChunkingConfig "fixed" 1000 200 100 2000.

Record ChunkingPipeline := MkPipeline {
  pl_strategy : ChunkStrategy;
  pl_validator : ChunkValidator
}.

(** [__init__] with a configuration only. *)
Definition new_pipeline (cfg : ChunkingConfig) : result ChunkError ChunkingPipeline :=
  (try s <- create_strategy (strategy_name cfg) (chunk_size cfg) (chunk_overlap cfg) in
  Ok (MkPipeline s (MkValidator (min_chunk_size cfg) (max_chunk_size cfg))))%py.

Record ChunkingResult := MkChunkingResult {
  cr_document_id : string;
  cr_collection_id : string;
  cr_total_chunks : Z;
  cr_chunks : list KnowledgeChunk;
  cr_previews : option (list ChunkPreview);
  cr_statistics : ChunkStatistics
}.

Definition validated (v : ChunkValidator) (previews : list ChunkPreview) : list ChunkPreview :=
  omap (λ p, match validate_chunk v p with Ok c => Some c | Err _ => None end) previews.

Definition knowledge_chunk (d : KnowledgeDocument) (now : float) (ip : Z * ChunkPreview) : KnowledgeChunk :=
  let '(i, p) := ip in
  MkKnowledgeChunk "" (doc_id d) (doc_collection_id d) (content p) i (start_offset p) (end_offset p)
    (token_estimate p) (character_count p) (chunk_metadata d i p) now.

(** [chunk]; [strategy] is its optional argument. *)
Definition chunk {E : TokenEstimator} (fuel : nat) (pl : ChunkingPipeline) (now : float)
    (d : KnowledgeDocument) (strategy : option ChunkStrategy) : option ChunkingResult :=
  match split fuel (default (pl_strategy pl) strategy) (doc_content d) with
  | Some previews =>
      let valid := validated (pl_validator pl) previews in
      let chunks := knowledge_chunk d now <$> enumerate valid in
      Some (MkChunkingResult (doc_id d) (doc_collection_id d) (zlen chunks) chunks None
              (chunk_statistics valid (zlen (doc_content d))))
  | None => None
  end.

Definition preview {E : TokenEstimator} (fuel : nat) (pl : ChunkingPipeline)
    (d : KnowledgeDocument) (strategy : option ChunkStrategy) : option ChunkingResult :=
  match split fuel (default (pl_strategy pl) strategy) (doc_content d) with
  | Some previews =>
      Some (MkChunkingResult (doc_id d) (doc_collection_id d) (zlen previews) [] (Some previews)
              (chunk_statistics previews (zlen (doc_content d))))
  | None => None
  end.

(** * Texts *)

Lemma length_strip t : (length (strip_text t) <= length t)%nat.
Proof.
  assert (∀ u, (length (lstrip_text u) <= length u)%nat) as Hl.
  { induction u as [|c u IH]; simpl; [lia|]. destruct (is_white c); simpl; lia. }
  unfold strip_text. rewrite length_rev. etrans; [apply Hl|]. rewrite length_rev. apply Hl.
Qed.

Lemma visible_app t u : visible_text (t ++ u) = (visible_text t ++ visible_text u)%list.
Proof. apply List.filter_app. Qed.

Lemma visible_rev t : visible_text (rev t) = rev (visible_text t).
Proof.
  induction t as [|c t IH]; [done|]. simpl. rewrite visible_app, IH. simpl.
  destruct (is_white c); simpl; [by rewrite app_nil_r|done].
Qed.

Lemma visible_strip t : visible_text (strip_text t) = visible_text t.
Proof.
  assert (∀ u, visible_text (lstrip_text u) = visible_text u) as Hl.
  { induction u as [|c u IH]; [done|]. simpl. destruct (is_white c) eqn:E; simpl; [done|by rewrite E]. }
  unfold strip_text. rewrite visible_rev, Hl, visible_rev, Hl. apply rev_involutive.
Qed.

Lemma visible_spaces t : Forall (λ c, is_white c = true) t → visible_text t = [].
Proof. induction 1 as [|c t Hc _ IH]; simpl; [done|]. by rewrite Hc. Qed.

Lemma visible_blank t : nonblank t = false → visible_text t = [].
Proof.
  unfold nonblank. intros H%negb_false_iff%bool_decide_eq_true. by rewrite <- visible_strip, H.
Qed.

Lemma visible_stripped parts : visible_text (concat (stripped parts)) = visible_text (concat parts).
Proof.
  unfold stripped. induction parts as [|p ps IH]; [done|]. simpl. destruct (nonblank p) eqn:E; csimpl.
  - by rewrite !visible_app, visible_strip, IH.
  - by rewrite visible_app, (visible_blank p E), IH.
Qed.

Lemma span_app p t : ((span p t).1 ++ (span p t).2)%list = t.
Proof.
  induction t as [|c t IH]; simpl; [done|]. destruct (p c); [|done].
  destruct (span p t); simpl in *. by rewrite IH.
Qed.

Lemma span_Forall p t : Forall (λ c, p c = true) (span p t).1.
Proof.
  induction t as [|c t IH]; simpl; [done|]. destruct (p c) eqn:E; [|done].
  destruct (span p t); simpl in *. by constructor.
Qed.

(** * The scan of [re.split] *)

(** What a matcher takes out of a text is white space. *)
Definition drops_white (m : option Z → text → nat) : Prop :=
  ∀ prev t, Forall (λ c, is_white c = true) (take (m prev t) t).

Lemma split_scan_visible m skip prev cur t :
  drops_white m → Forall (λ c, is_white c = true) (take skip t) →
  visible_text (concat (split_scan m skip prev cur t)) = (visible_text (rev cur) ++ visible_text t)%list.
Proof.
  intros Hm. revert skip prev cur. induction t as [|c t IH]; intros skip prev cur Hs; simpl.
  { by rewrite !app_nil_r. }
  destruct skip as [|k].
  - destruct (m prev (c :: t)) as [|k] eqn:E.
    + rewrite IH by done. simpl. rewrite visible_app. simpl.
      destruct (is_white c); simpl; [by rewrite app_nil_r|by rewrite <- app_assoc].
    + specialize (Hm prev (c :: t)). rewrite E in Hm. apply Forall_cons in Hm as [Hc Hm].
      simpl. rewrite visible_app, IH by done. by rewrite Hc.
  - apply Forall_cons in Hs as [Hc Hs]. rewrite IH by done. by rewrite Hc.
Qed.

Lemma split_on_visible m t : drops_white m → visible_text (concat (split_matches m t)) = visible_text t.
Proof. intros H. unfold split_matches. by rewrite split_scan_visible. Qed.

(** The pieces are shorter than the text by what the matches took. *)
Lemma split_scan_length m skip prev cur t :
  Forall (λ p, (length p + length (split_scan m skip prev cur t) <= S (length cur + length t))%nat)
    (split_scan m skip prev cur t).
Proof.
  revert skip prev cur. induction t as [|c t IH]; intros skip prev cur; simpl.
  { constructor; [rewrite length_rev; lia|done]. }
  destruct skip as [|k].
  - destruct (m prev (c :: t)) as [|k].
    + eapply Forall_impl; [apply IH|]. simpl. intros ? ?. lia.
    + specialize (IH k (Some c) []). simpl in *. constructor.
      * rewrite length_rev. destruct (split_scan m k (Some c) [] t) as [|q qs] eqn:E; simpl; [lia|].
        apply Forall_cons in IH as [IH _]. simpl in IH. lia.
      * eapply Forall_impl; [apply IH|]. simpl. intros ? ?. lia.
  - eapply Forall_impl; [apply IH|]. simpl. intros ? ?. lia.
Qed.

Lemma split_scan_nonempty m skip prev cur t : (1 <= length (split_scan m skip prev cur t))%nat.
Proof.
  revert skip prev cur. induction t as [|c t IH]; intros [|k] prev cur; simpl; [lia..| |done].
  destruct (m prev (c :: t)); simpl; [done|lia].
Qed.

Lemma split_on_shorter m t :
  (2 <= length (split_matches m t))%nat → Forall (λ p, (length p < length t)%nat) (split_matches m t).
Proof. intros H. eapply Forall_impl; [apply split_scan_length|]. unfold split_matches in H. simpl. lia. Qed.

(** A matcher that matches wherever another one does splits at least as well. *)
Lemma split_scan_mono m1 m2 prev cur t :
  (∀ p u, m1 p u ≠ O → m2 p u ≠ O) →
  (2 <= length (split_scan m1 O prev cur t))%nat → (2 <= length (split_scan m2 O prev cur t))%nat.
Proof.
  intros Hm. revert prev cur. induction t as [|c t IH]; intros prev cur; simpl; [done|].
  specialize (Hm prev (c :: t)).
  destruct (m2 prev (c :: t)) as [|k].
  - destruct (m1 prev (c :: t)) as [|k']; [apply IH|]. by destruct Hm.
  - intros _. simpl. pose proof (split_scan_nonempty m2 k (Some c) [] t). lia.
Qed.

Lemma drops_white_paragraph : drops_white paragraph_break.
Proof.
  intros prev [|c t]; simpl; [done|]. destruct (is_newline c) eqn:Ec; [|done].
  destruct (after_last_newline (span is_white t).1) as [|n] eqn:E; [done|].
  assert (S n <= length (span is_white t).1)%nat as Hn.
  { rewrite <- E. clear. induction (span is_white t).1 as [|d u IH]; simpl; [lia|].
    destruct (after_last_newline u); [destruct (is_newline d); simpl|]; lia. }
  change (take (S (S n)) (c :: t)) with (c :: take (S n) t). constructor.
  { apply Z.eqb_eq in Ec as ->. done. }
  rewrite <- (span_app is_white t), take_app_le by done. apply Forall_take, span_Forall.
Qed.

Lemma drops_white_sentence : drops_white sentence_break.
Proof.
  intros prev t. unfold sentence_break. destruct (span is_white t) as [run rest] eqn:E.
  pose proof (span_app is_white t) as Ha. pose proof (span_Forall is_white t) as Hf. rewrite E in Ha, Hf.
  simpl in *. destruct prev as [p|]; [|done]. destruct rest as [|c rest]; [done|].
  destruct (_ && _); [|done]. by rewrite <- Ha, take_app_length.
Qed.

Lemma blank_line_paragraph p u : blank_line p u ≠ O → paragraph_break p u ≠ O.
Proof.
  destruct u as [|a [|b u]]; simpl; [done..|]. destruct (is_newline a); [|done].
  destruct (is_newline b) eqn:Eb; [|done]. intros _.
  assert (is_white b = true) as -> by (by apply Z.eqb_eq in Eb as ->).
  destruct (span is_white u) as [r s]. simpl. rewrite Eb. by destruct (after_last_newline r).
Qed.

(** * Cutting before the headings *)

Lemma split_before_concat prev cur t : concat (split_before prev cur t) = (rev cur ++ t)%list.
Proof.
  revert prev cur. induction t as [|c t IH]; intros prev cur; simpl; [by rewrite app_nil_r|].
  destruct (heading_here prev (c :: t)); simpl; rewrite IH; [done|]. simpl. by rewrite <- app_assoc.
Qed.

(** Of several pieces that are not blank, each is shorter than the whole. *)
Lemma concat_pieces_shorter (parts : list text) :
  (2 <= length parts)%nat → Forall (λ p, p ≠ []) parts →
  Forall (λ p, (length p < length (concat parts))%nat) parts.
Proof.
  assert (∀ (l : list text), Forall (λ p, (length p <= length (concat l))%nat) l) as Hle.
  { induction l as [|p l IH]; constructor; simpl; rewrite length_app; [lia|].
    eapply Forall_impl; [apply IH|]. simpl. intros ? ?. lia. }
  destruct parts as [|p [|q parts]]; simpl; [lia..|]. intros _ Hne.
  apply Forall_cons in Hne as [Hp Hne]. apply Forall_cons in Hne as [Hq Hne].
  assert (0 < length p ∧ 0 < length q)%nat as [Hp0 Hq0] by (destruct p, q; simpl; (done || lia)).
  constructor; [rewrite !length_app; lia|]. constructor; [rewrite !length_app; lia|].
  eapply Forall_impl; [apply Hle|]. simpl. intros x Hx. rewrite !length_app. lia.
Qed.

Lemma nonblank_nonempty p : nonblank p = true → strip_text p ≠ [].
Proof. unfold nonblank. by intros H%negb_true_iff%bool_decide_eq_false. Qed.

Lemma stripped_nonempty parts : Forall (λ p, p ≠ []) (stripped parts).
Proof.
  unfold stripped. apply Forall_fmap, List.Forall_forall. intros p [_ Hp]%filter_In.
  by apply nonblank_nonempty.
Qed.

Lemma length_concat_stripped parts : (length (concat (stripped parts)) <= length (concat parts))%nat.
Proof.
  unfold stripped. induction parts as [|p ps IH]; simpl; [lia|].
  destruct (nonblank p); csimpl; rewrite !length_app; [pose proof (length_strip p)|]; lia.
Qed.

Lemma heading_parts_shorter t :
  (2 <= length (heading_parts t))%nat → Forall (λ p, (length p < length t)%nat) (heading_parts t).
Proof.
  intros H. eapply Forall_impl; [apply (concat_pieces_shorter _ H), stripped_nonempty|].
  pose proof (length_concat_stripped (split_before None [] t)) as Hl.
  rewrite split_before_concat in Hl. simpl in Hl. intros x Hx. unfold heading_parts in Hx. lia.
Qed.

Lemma stripped_shorter n parts :
  Forall (λ p, (length p < n)%nat) parts → Forall (λ p, (length p < n)%nat) (stripped parts).
Proof.
  intros H. unfold stripped. apply Forall_fmap, List.Forall_forall. intros p [Hp _]%filter_In.
  rewrite List.Forall_forall in H. specialize (H p Hp). simpl. pose proof (length_strip p). lia.
Qed.

(** * The recursive strategy *)

Lemma word_cut_take max_ t :
  1 <= max_ → max_ < zlen t →
  ∃ k, word_cut max_ t = take k t ∧ length (word_cut max_ t) = k ∧ (1 <= k)%nat ∧ Z.of_nat k <= max_.
Proof.
  unfold zlen. intros Hm Ht. unfold word_cut, take_z. rewrite (proj2 (Z.leb_le 0 max_)) by lia.
  set (ch := take (Z.to_nat max_) t). assert (length ch = Z.to_nat max_) as Hc by (unfold ch; rewrite length_take; lia).
  destruct (zlen ch / 2 <? rfind 32 ch) eqn:E.
  - apply Z.ltb_lt in E. unfold zlen in E. pose proof (Z.div_pos (Z.of_nat (length ch)) 2).
    rewrite (proj2 (Z.leb_le 0 (rfind 32 ch))) by lia.
    exists (Z.to_nat (rfind 32 ch) `min` Z.to_nat max_)%nat.
    rewrite length_take, Hc. split; [unfold ch; by rewrite take_take|]. repeat split; lia.
  - exists (Z.to_nat max_). repeat split; [done|lia..].
Qed.

Lemma seq_shift_indices index (n m : nat) :
  (((λ i, index + Z.of_nat i) <$> seq 0 n) ++ ((λ i, index + Z.of_nat n + Z.of_nat i) <$> seq 0 m))%list
  = (λ i, index + Z.of_nat i) <$> seq 0 (n + m).
Proof.
  rewrite seq_app, fmap_app. f_equal. rewrite <- (Nat.add_0_r (0 + n)), <- fmap_add_seq, <- list_fmap_compose.
  apply list_fmap_ext. intros i x _. simpl. lia.
Qed.

Section RecursiveSpec.
Context {E : TokenEstimator} (max_ : Z).
Hypothesis max_pos : 1 <= max_.

(** Each part fits, and the parts show what the text shows. *)
Definition fits (p : text) : Prop := zlen p <= max_.

Lemma word_parts_total fuel t :
  (length t < fuel)%nat →
  ∃ parts, word_parts fuel max_ t = Some parts ∧ Forall fits parts ∧ visible_text (concat parts) = visible_text t.
Proof.
  revert t. induction fuel as [|fuel IH]; intros t Hf; [lia|]. simpl.
  destruct (max_ <? zlen t) eqn:El.
  - apply Z.ltb_lt in El. destruct (word_cut_take max_ t max_pos El) as (k & Hc & Hl & Hk & Hm).
    rewrite Hl, Hc.
    destruct (IH (strip_text (drop k t))) as (parts & -> & Hp & Hv).
    { pose proof (length_strip (drop k t)) as Hs. rewrite length_drop in Hs. unfold zlen in El. lia. }
    eexists. split; [done|]. split.
    + constructor; [|done]. unfold fits, zlen. pose proof (length_strip (take k t)) as Hs.
      rewrite length_take in Hs. lia.
    + simpl. rewrite visible_app, Hv, !visible_strip, <- visible_app. by rewrite take_drop.
  - apply Z.ltb_ge in El. eexists. split; [done|]. case_bool_decide as Et; [by subst|]. split.
    + repeat constructor. unfold fits, zlen in *. pose proof (length_strip t). lia.
    + simpl. by rewrite app_nil_r, visible_strip.
Qed.

(** The parts of a level: at every level but the last the parts are shorter than
    the text, at the last one they fit. *)
Lemma parts_at_spec fuel t hint level :
  detect_level max_ t hint = level → (length t < fuel)%nat →
  ∃ parts, parts_at fuel max_ level t = Some parts ∧
    Forall (λ p, fits p ∨ (length p < length t)%nat) parts ∧
    visible_text (concat parts) = visible_text t.
Proof.
  intros Hd Hf. unfold detect_level in Hd.
  destruct (negb _ && _ && _) eqn:E1; [|destruct (_ && existsb _ (List.filter _ _)) eqn:E2;
    [|destruct (_ && existsb _ (split_matches sentence_break t)) eqn:E3]]; subst level; cbn [parts_at].
  - eexists. split; [done|]. apply andb_true_iff in E1 as [_ E1%Z.ltb_lt]. unfold zlen in E1. split.
    + eapply Forall_impl; [apply heading_parts_shorter; lia|]. by right.
    + unfold heading_parts. by rewrite visible_stripped, split_before_concat.
  - eexists. split; [done|]. apply andb_true_iff in E2 as [E2%Z.ltb_lt _]. unfold zlen in E2. split.
    + eapply Forall_impl; [apply stripped_shorter, split_on_shorter|by right].
      eapply split_scan_mono; [apply blank_line_paragraph|].
      assert (∀ (f : text → bool) l, (length (List.filter f l) <= length l)%nat) as Hl.
      { intros f l. induction l as [|x l IH]; simpl; [lia|]. destruct (f x); simpl; lia. }
      specialize (Hl nonblank (split_matches blank_line t)). unfold split_matches in *. lia.
    + unfold paragraph_parts. rewrite visible_stripped. apply split_on_visible, drops_white_paragraph.
  - eexists. split; [done|]. apply andb_true_iff in E3 as [E3%Z.ltb_lt _]. unfold zlen in E3. split.
    + eapply Forall_impl; [apply stripped_shorter, split_on_shorter; lia|by right].
    + unfold sentences_of. rewrite visible_stripped. apply split_on_visible, drops_white_sentence.
  - destruct (word_parts_total fuel t Hf) as (parts & -> & Hp & Hv). exists parts.
    split; [done|]. split; [|done]. eapply Forall_impl; [exact Hp|by left].
Qed.

(** What a split of [t] from the chunk [index] on must be. *)
Record split_ok (t : text) (index : Z) (cs : list ChunkPreview) : Prop := {
  so_fits : Forall (λ c, fits (content c)) cs;
  so_indices : chunk_index <$> cs = (λ i, index + Z.of_nat i) <$> seq 0 (length cs);
  so_visible : visible_text (concat (content <$> cs)) = visible_text t
}.

Lemma split_ok_app t u index cs ds :
  split_ok t index cs → split_ok u (index + zlen cs) ds → split_ok (t ++ u)%list index (cs ++ ds)%list.
Proof.
  intros [F1 I1 V1] [F2 I2 V2]. split.
  - by apply Forall_app.
  - unfold zlen in I2. rewrite fmap_app, I1, I2, length_app. apply seq_shift_indices.
  - rewrite fmap_app, concat_app, !visible_app. by rewrite V1, V2.
Qed.

Lemma split_ok_one t index start sec : fits t → split_ok t index [make_chunk t index start sec].
Proof.
  intros H. split; [by repeat constructor| |simpl; by rewrite app_nil_r].
  simpl. unfold fmap. simpl. f_equal. lia.
Qed.

Lemma process_parts_spec rec parts bound :
  (∀ p index sec hint, (length p < bound)%nat → ∃ cs, rec p index sec hint = Some cs ∧ split_ok p index cs) →
  Forall (λ p, fits p ∨ (length p < bound)%nat) parts →
  ∀ index sec hint, ∃ cs, process_parts rec max_ parts index sec hint = Some cs ∧
    split_ok (concat parts) index cs.
Proof.
  intros Hrec. induction 1 as [|p ps Hp _ IH]; intros index sec hint; simpl.
  { exists []. split; [done|]. split; done. }
  destruct (enter_heading p hint sec) as [level' heading'].
  destruct (zlen p <=? max_) eqn:El.
  - apply Z.leb_le in El. destruct (IH (index + 1) heading' level') as (cs & -> & Hcs).
    eexists. split; [done|]. apply (split_ok_app p (concat ps) index [_] cs); [by apply split_ok_one|done].
  - apply Z.leb_gt in El. destruct Hp as [Hp|Hp]; [unfold fits in Hp; lia|].
    destruct (Hrec p index heading' (next_hint level') Hp) as (ds & -> & Hds).
    destruct (IH (index + zlen ds) heading' level') as (cs & -> & Hcs).
    eexists. split; [done|]. by apply split_ok_app.
Qed.

Lemma split_recursive_spec fuel t index sec hint :
  (length t + 1 < fuel)%nat →
  ∃ cs, split_recursive fuel max_ t index sec hint = Some cs ∧ split_ok t index cs.
Proof.
  revert t index sec hint. induction fuel as [|fuel IH]; intros t index sec hint Hf; [lia|].
  cbn [split_recursive]. destruct (zlen t <=? max_) eqn:El.
  { apply Z.leb_le in El. eexists. split; [done|]. by apply split_ok_one. }
  destruct (parts_at_spec fuel t hint _ eq_refl) as (parts & -> & Hp & Hv); [lia|].
  destruct (process_parts_spec (split_recursive fuel max_) parts (length t)) with
    (index := index) (sec := sec) (hint := LevelHint (detect_level max_ t hint)) as (cs & Hcs & [F I V]).
  { intros p i s h Hl. apply IH. lia. }
  { done. }
  exists cs. split; [done|]. split; [done..|]. by rewrite V.
Qed.

End RecursiveSpec.

(** The recursive strategy with a positive size returns, whatever the document:
    no chunk is longer than the size (in characters), the chunks are numbered
    from 0 on, and read one after the other they show exactly the characters of
    the document that are not white space, in order and each of them once: the
    overlap that was asked for is not there. *)
Theorem recursive_split_lossless {E : TokenEstimator} (max_ overlap : Z) (t : text) (H : 1 <= max_) :
  ∃ cs, recursive_split (length t + 2) max_ overlap t = Some cs ∧
    Forall (λ c, zlen (content c) <= max_) cs ∧
    chunk_index <$> cs = (λ i, Z.of_nat i) <$> seq 0 (length cs) ∧
    visible_text (concat (content <$> cs)) = visible_text t.
Proof.
  destruct (split_recursive_spec max_ H (length t + 2) t 0 [] NoHint) as (cs & Hcs & [F I V]); [lia|].
  exists cs. split; [done|]. split; [exact F|]. split; [exact I|done].
Qed.

(** * Windows over the text *)

Lemma matches_at_length p t : matches_at p t = true → (length p <= length t)%nat.
Proof.
  revert t. induction p as [|q p IH]; intros [|c t]; simpl; [lia..|done|].
  intros [_ H]%andb_true_iff. apply IH in H. lia.
Qed.

Lemma last_end_bounds p skip lo i acc t e :
  p ≠ [] → lo <= i →
  (∀ a, acc = Some a → lo < a ∧ a <= i + zlen t) →
  last_end p skip i acc t = Some e → lo < e ∧ e <= i + zlen t.
Proof.
  intros Hp. revert skip i acc. induction t as [|c t IH]; intros skip i acc Hi Ha; simpl; [by apply Ha|].
  unfold zlen in *. simpl in *. intros He.
  assert (i + Z.of_nat (S (length t)) = i + 1 + Z.of_nat (length t)) as Hz by lia. rewrite Hz in *.
  destruct skip as [|k].
  - destruct (matches_at p (c :: t)) eqn:Em; (eapply IH; [..|exact He]; [lia|]); [|done].
    intros a [= <-]. apply matches_at_length in Em. simpl in Em. destruct p; [done|]. simpl in *. lia.
  - eapply IH; [..|exact He]; [lia|done].
Qed.

Section Windows.
Context {E : TokenEstimator}.

Lemma find_break_bounds t start end_ :
  0 <= start < end_ → end_ <= zlen t → start < find_break t start end_ <= end_.
Proof.
  intros Hs He. unfold find_break.
  assert (∀ ps e, Forall (λ p, p ≠ []) ps →
    first_break ps (py_slice start end_ t) start = Some e → start < e <= end_) as Hb.
  { induction ps as [|p ps IH]; simpl; [done|]. intros e [Hp Hps]%Forall_cons.
    destruct (last_end p O 0 None _) as [e'|] eqn:El; [|by apply IH].
    apply (last_end_bounds p O 0 0 None) in El; [|done..]. rewrite zlen_py_slice in El by lia.
    destruct (start <? start + e'); [intros [= <-]; lia|by apply IH]. }
  destruct (first_break _ _ _) as [e|] eqn:Ef; simpl; [|lia].
  eapply Hb; [|exact Ef]. by repeat constructor.
Qed.

Lemma fixed_end_bounds max_ t start :
  0 < max_ → 0 <= start < zlen t →
  start < fixed_end max_ t start ∧ fixed_end max_ t start <= start + max_ ∧ fixed_end max_ t start <= zlen t.
Proof.
  intros Hm Hs. unfold fixed_end. destruct (zlen t <=? start + max_) eqn:El.
  - apply Z.leb_le in El. lia.
  - apply Z.leb_gt in El. pose proof (find_break_bounds t start (start + max_)).
    destruct (start <? find_break t start (start + max_)); lia.
Qed.

(** A run of chunks that covers the text from [s] on: each is the slice between
    its offsets, is at most [size] long, and the next one begins inside it or at
    its end. *)
Inductive windows (size : Z) (t : text) : Z → Z → list ChunkPreview → Prop :=
  | windows_last s i :
      s < zlen t → zlen t <= s + size →
      windows size t s i [make_chunk (py_slice s (zlen t) t) i s []]
  | windows_next s s' e i cs :
      s < s' → s' <= e → e <= s + size → e <= zlen t →
      windows size t s' (i + 1) cs →
      windows size t s i (make_chunk (py_slice s e t) i s [] :: cs).

Lemma fixed_loop_windows fuel max_ overlap t start index :
  0 < max_ → 0 <= overlap → 0 <= start < zlen t → zlen t - start < Z.of_nat fuel →
  ∃ cs, fixed_loop fuel max_ overlap t start index = Some cs ∧ windows max_ t start index cs.
Proof.
  intros Hm Ho. revert start index. induction fuel as [|fuel IH]; intros start index Hs Hf; [lia|].
  cbn [fixed_loop]. rewrite (proj2 (Z.ltb_lt _ _)) by lia.
  pose proof (fixed_end_bounds max_ t start Hm Hs) as (H1 & H2 & H3).
  set (e := fixed_end max_ t start) in *. set (n := if e - overlap <=? start then e else e - overlap).
  assert (start < n <= e) as Hn by (unfold n; destruct (Z.leb_spec (e - overlap) start); lia).
  destruct (Z.leb_spec (zlen t) n) as [Hl|Hl].
  - eexists. split; [done|]. assert (e = zlen t) as -> by lia. apply windows_last; lia.
  - destruct (IH n (index + 1)) as (cs & -> & Hw); [lia..|].
    eexists. split; [done|]. eapply windows_next; [..|exact Hw]; lia.
Qed.

Lemma sliding_loop_windows fuel window stride t start index :
  0 < stride <= window → 0 <= start < zlen t → zlen t - start < Z.of_nat fuel →
  ∃ cs, sliding_loop fuel window stride t start index = Some cs ∧ windows window t start index cs.
Proof.
  intros Hw. revert start index. induction fuel as [|fuel IH]; intros start index Hs Hf; [lia|].
  cbn [sliding_loop]. rewrite (proj2 (Z.ltb_lt start _)) by lia.
  destruct (Z.leb_spec (zlen t) (start + stride)) as [Hl|Hl].
  - destruct fuel as [|fuel]; [lia|]. cbn [sliding_loop].
    rewrite (proj2 (Z.ltb_ge (start + stride) _)) by lia. eexists. split; [done|].
    rewrite Z.min_r by lia. apply windows_last; lia.
  - destruct (IH (start + stride) (index + 1)) as (cs & -> & Hc); [lia..|].
    eexists. split; [done|]. eapply windows_next; [..|exact Hc]; lia.
Qed.

(** The text put together again from chunks that overlap: each chunk up to where
    the next one starts. *)
Fixpoint rebuild (cs : list ChunkPreview) : text :=
  match cs with
  | [] => []
  | c :: cs' =>
      match cs' with
      | [] => content c
      | d :: _ => (take (Z.to_nat (start_offset d - start_offset c)) (content c) ++ rebuild cs')%list
      end
  end.

(** What the strategies that work on offsets promise of their chunks. *)
Record covers_text (size : Z) (t : text) (cs : list ChunkPreview) : Prop := {
  cov_rebuild : rebuild cs = t;
  cov_slices : Forall (λ c, content c = py_slice (start_offset c) (end_offset c) t
                            ∧ 0 < character_count c <= size) cs;
  cov_indices : chunk_index <$> cs = (λ i, Z.of_nat i) <$> seq 0 (length cs)
}.

Lemma windows_start size t s i cs : windows size t s i cs → ∃ c cs', cs = c :: cs' ∧ start_offset c = s.
Proof. destruct 1; eauto. Qed.

Lemma windows_rebuild size t s i cs : 0 <= s → windows size t s i cs → rebuild cs = drop (Z.to_nat s) t.
Proof.
  intros Hs. induction 1 as [s i H1 H2|s s' e i cs H1 H2 H3 H4 Hw IH].
  - simpl. rewrite py_slice_nonneg by (unfold zlen in *; lia). unfold zlen. by rewrite Nat2Z.id, firstn_all.
  - destruct (windows_start _ _ _ _ _ Hw) as (c & cs' & -> & Hc). cbn [rebuild]. cbn [rebuild] in IH.
    rewrite IH by lia. rewrite Hc. cbn [start_offset make_chunk content].
    rewrite py_slice_nonneg by lia. rewrite take_drop_commute, take_take.
    replace (Z.to_nat s + Z.to_nat (s' - s))%nat with (Z.to_nat s') by lia.
    rewrite Nat.min_l by lia.
    replace (drop (Z.to_nat s) t) with (drop (Z.to_nat s) (take (Z.to_nat s') t ++ drop (Z.to_nat s') t)%list)
      by (by rewrite take_drop).
    rewrite drop_app_le; [done|]. rewrite length_take. unfold zlen in *. lia.
Qed.

Lemma windows_slices size t s i cs :
  0 <= s → windows size t s i cs →
  Forall (λ c, content c = py_slice (start_offset c) (end_offset c) t ∧ 0 < character_count c <= size) cs.
Proof.
  intros Hs. induction 1 as [s i H1 H2|s s' e i cs H1 H2 H3 H4 Hw IH]; constructor.
  - cbn [content start_offset end_offset character_count make_chunk]. rewrite zlen_py_slice by lia.
    rewrite (Z.add_comm s), Z.sub_add. split; [done|lia].
  - done.
  - cbn [content start_offset end_offset character_count make_chunk]. rewrite zlen_py_slice by lia.
    rewrite (Z.add_comm s), Z.sub_add. split; [done|lia].
  - apply IH. lia.
Qed.

Lemma windows_indices size t s i cs :
  windows size t s i cs → chunk_index <$> cs = (λ k, i + Z.of_nat k) <$> seq 0 (length cs).
Proof.
  induction 1 as [s i H1 H2|s s' e i cs H1 H2 H3 H4 Hw IH]; csimpl; [by rewrite Z.add_0_r|].
  rewrite Z.add_0_r. f_equal. rewrite IH, <- fmap_S_seq, <- list_fmap_compose.
  apply list_fmap_ext. intros k x _. simpl. lia.
Qed.

Lemma windows_covers size t cs : windows size t 0 0 cs → covers_text size t cs.
Proof.
  intros H. split.
  - by rewrite (windows_rebuild _ _ _ _ _ (Z.le_refl 0) H).
  - by apply (windows_slices _ _ _ _ _ (Z.le_refl 0) H).
  - by rewrite (windows_indices _ _ _ _ _ H).
Qed.

Lemma covers_nil size : covers_text size [] [].
Proof. by split. Qed.

Lemma fixed_split_total max_ overlap t fuel :
  0 < max_ → 0 <= overlap → (length t < fuel)%nat →
  ∃ cs, fixed_split fuel max_ overlap t = Some cs ∧ covers_text max_ t cs.
Proof.
  intros Hm Ho Hf. destruct t as [|c t].
  - destruct fuel; [lia|]. exists []. split; [done|apply covers_nil].
  - destruct (fixed_loop_windows fuel max_ overlap (c :: t) 0 0) as (cs & Hcs & Hw);
      [lia|lia|unfold zlen; simpl; lia|unfold zlen; lia|].
    exists cs. split; [done|by apply windows_covers].
Qed.

Lemma sliding_split_total window stride t fuel :
  0 < stride <= window → (length t < fuel)%nat →
  ∃ cs, sliding_split fuel window stride t = Some cs ∧ covers_text window t cs.
Proof.
  intros Hw Hf. destruct t as [|c t].
  - destruct fuel; [lia|]. exists []. split; [done|apply covers_nil].
  - destruct (sliding_loop_windows fuel window stride (c :: t) 0 0) as (cs & Hcs & Hc);
      [lia|unfold zlen; simpl; lia|unfold zlen; lia|].
    exists cs. split; [done|by apply windows_covers].
Qed.

(** A window that does not advance is cut out for ever. *)
Lemma sliding_split_diverges window stride t fuel :
  stride <= 0 → t ≠ [] → sliding_split fuel window stride t = None.
Proof.
  intros Hs Ht. unfold sliding_split.
  assert (∀ start index, start <= 0 → sliding_loop fuel window stride t start index = None) as H;
    [|by apply H].
  assert (0 < zlen t) as Hl by (destruct t; [done|unfold zlen; simpl; lia]).
  induction fuel as [|fuel IH]; intros start index Hst; [done|]. cbn [sliding_loop].
  rewrite (proj2 (Z.ltb_lt start _)) by lia. by rewrite IH by lia.
Qed.

End Windows.

(** * Every strategy *)

Section AllStrategies.
Context {E : TokenEstimator}.

(** What a preview says of its content; no strategy makes any other one. *)
Definition preview_wf (c : ChunkPreview) : Prop :=
  end_offset c = start_offset c + zlen (content c) ∧ character_count c = zlen (content c) ∧
  token_estimate c = estimate (content c).

Lemma make_chunk_wf c i s sec : preview_wf (make_chunk c i s sec).
Proof. done. Qed.

Lemma fixed_loop_wf fuel max_ overlap t start index cs :
  fixed_loop fuel max_ overlap t start index = Some cs → Forall preview_wf cs.
Proof.
  revert start index cs. induction fuel as [|fuel IH]; intros start index cs; [done|]. cbn [fixed_loop].
  destruct (start <? zlen t); [|by intros [= <-]].
  destruct (zlen t <=? _); [intros [= <-]; by repeat constructor|].
  intros (ds & Hd & ->)%fmap_Some. constructor; [apply make_chunk_wf|by eapply IH].
Qed.

Lemma sliding_loop_wf fuel window stride t start index cs :
  sliding_loop fuel window stride t start index = Some cs → Forall preview_wf cs.
Proof.
  revert start index cs. induction fuel as [|fuel IH]; intros start index cs; [done|]. cbn [sliding_loop].
  destruct (start <? zlen t); [|by intros [= <-]].
  intros (ds & Hd & ->)%fmap_Some. constructor; [apply make_chunk_wf|by eapply IH].
Qed.

Lemma sentence_loop_wf fuel n stride l i index cs :
  sentence_loop fuel n stride l i index = Some cs → Forall preview_wf cs.
Proof.
  revert i index cs. induction fuel as [|fuel IH]; intros i index cs; [done|]. cbn [sentence_loop].
  destruct (i <? zlen l); [|by intros [= <-]].
  intros (ds & Hd & ->)%fmap_Some. constructor; [apply make_chunk_wf|by eapply IH].
Qed.

Lemma reindex_wf i cs : Forall preview_wf cs → Forall preview_wf (reindex i cs).
Proof. intros H. revert i. by induction H; intros i; simpl; constructor. Qed.

Lemma paragraph_loop_wf fuel max_ overlap ps index cs :
  paragraph_loop fuel max_ overlap ps index = Some cs → Forall preview_wf cs.
Proof.
  revert index cs. induction ps as [|p ps IH]; intros index cs; simpl; [by intros [= <-]|].
  case_bool_decide; [by apply IH|]. destruct (_ <=? _).
  - intros (ds & Hd & ->)%fmap_Some. constructor; [apply make_chunk_wf|by eapply IH].
  - destruct (fixed_split fuel max_ overlap _) as [sub|] eqn:Es; [|done].
    intros (ds & Hd & ->)%fmap_Some. apply Forall_app. split; [|by eapply IH].
    by eapply reindex_wf, fixed_loop_wf.
Qed.

Lemma process_parts_wf rec max_ parts index sec hint cs :
  (∀ p i s h ds, rec p i s h = Some ds → Forall preview_wf ds) →
  process_parts rec max_ parts index sec hint = Some cs → Forall preview_wf cs.
Proof.
  intros Hrec. revert index sec hint cs. induction parts as [|p ps IH]; intros index sec hint cs; simpl.
  { by intros [= <-]. }
  destruct (enter_heading p hint sec) as [level' heading']. destruct (_ <=? _).
  - intros (ds & Hd & ->)%fmap_Some. constructor; [apply make_chunk_wf|by eapply IH].
  - destruct (rec p _ _ _) as [sub|] eqn:Es; [|done].
    intros (ds & Hd & ->)%fmap_Some. apply Forall_app. split; [by eapply Hrec|by eapply IH].
Qed.

Lemma split_recursive_wf fuel max_ t index sec hint cs :
  split_recursive fuel max_ t index sec hint = Some cs → Forall preview_wf cs.
Proof.
  revert t index sec hint cs. induction fuel as [|fuel IH]; intros t index sec hint cs; [done|].
  cbn [split_recursive]. destruct (_ <=? _); [intros [= <-]; by repeat constructor|].
  destruct (parts_at _ _ _ _) as [parts|]; [|done]. apply process_parts_wf. intros. by eapply IH.
Qed.

Lemma split_wf fuel s t cs : split fuel s t = Some cs → Forall preview_wf cs.
Proof.
  destruct s; cbn [split]; eauto using fixed_loop_wf, sliding_loop_wf, sentence_loop_wf,
    paragraph_loop_wf, split_recursive_wf.
Qed.

Lemma sentence_loop_total fuel n stride l i index :
  1 <= stride → 0 <= i → zlen l < i + Z.of_nat fuel → (0 < fuel)%nat →
  ∃ cs, sentence_loop fuel n stride l i index = Some cs.
Proof.
  intros Hs. revert i index. induction fuel as [|fuel IH]; intros i index Hi Hf H0; [lia|].
  cbn [sentence_loop]. destruct (Z.ltb_spec i (zlen l)) as [Hl|Hl]; [|by eexists].
  destruct (IH (i + stride) (index + 1)) as (cs & ->); [lia..|by eexists].
Qed.

Lemma paragraph_loop_total fuel max_ overlap ps index :
  0 < max_ → 0 <= overlap → Forall (λ p, (length p < fuel)%nat) ps →
  ∃ cs, paragraph_loop fuel max_ overlap ps index = Some cs.
Proof.
  intros Hm Ho Hp. revert index. induction Hp as [|p ps Hp _ IH]; intros index; simpl; [by eexists|].
  case_bool_decide; [apply IH|]. destruct (_ <=? _).
  - destruct (IH (index + 1)) as (cs & ->). by eexists.
  - destruct (fixed_split_total max_ overlap (strip_text p) fuel Hm Ho) as (sub & -> & _).
    { pose proof (length_strip p). lia. }
    destruct (IH (index + zlen sub)) as (cs & ->). by eexists.
Qed.

Lemma split_on_pieces m t :
  (length (split_matches m t) <= S (length t))%nat ∧ Forall (λ p, (length p <= length t)%nat) (split_matches m t).
Proof.
  pose proof (split_scan_length m O None [] t) as H. fold (split_matches m t) in H. simpl in H. split.
  - destruct (split_matches m t) as [|p ps]; [simpl; lia|]. apply Forall_cons in H as [H _]. simpl in *. lia.
  - pose proof (split_scan_nonempty m O None [] t) as H0. fold (split_matches m t) in H0.
    eapply Forall_impl; [exact H|]. simpl. intros ? ?. lia.
Qed.

Lemma length_stripped parts : (length (stripped parts) <= length parts)%nat.
Proof.
  unfold stripped. rewrite length_fmap. induction parts as [|p ps IH]; simpl; [lia|].
  destruct (nonblank p); simpl; lia.
Qed.

(** A strategy of [create_strategy]: with a size of at least two characters and
    an overlap that is not negative its parameters are sound. *)
Definition strategy_sound (s : ChunkStrategy) : Prop :=
  match s with
  | FixedSizeChunkStrategy m o | RecursiveChunkStrategy m o | ParagraphChunkStrategy m o =>
      0 < m ∧ 0 <= o
  | SentenceChunkStrategy _ _ => True
  | SlidingWindowChunkStrategy w s => 0 < s <= w
  end.

Lemma create_strategy_sound name size overlap s :
  2 <= size → 0 <= overlap → create_strategy name size overlap = Ok s → strategy_sound s.
Proof.
  intros Hs Ho. unfold create_strategy.
  repeat destruct (String.eqb _ _); intros [= <-]; simpl; try lia.
  pose proof (Z.div_le_lower_bound size 2 1). pose proof (Z.div_le_upper_bound size 2 size).
  destruct (Z.ltb_spec overlap size); lia.
Qed.

Lemma split_total s t : strategy_sound s → ∃ cs, split (length t + 3) s t = Some cs.
Proof.
  destruct s as [m o|m o|m o|n o|w st]; cbn [split strategy_sound]; intros H.
  - destruct (fixed_split_total m o t (length t + 3)) as (cs & Hcs & _); [lia..|eauto].
  - destruct (split_recursive_spec m ltac:(lia) (length t + 3) t 0 [] NoHint) as (cs & Hcs & _); [lia|eauto].
  - apply paragraph_loop_total; [lia..|]. eapply Forall_impl; [apply split_on_pieces|]. simpl. intros ? ?. lia.
  - apply sentence_loop_total; [unfold sentence_stride; destruct (Z.ltb_spec (n - o) 1); lia|lia| |lia].
    pose proof (proj1 (split_on_pieces sentence_break t)). unfold sentences_of, zlen.
    pose proof (length_stripped (split_matches sentence_break t)). lia.
  - destruct (sliding_split_total w st t (length t + 3)) as (cs & Hcs & _); [lia..|eauto].
Qed.

End AllStrategies.

(** (C40) Every strategy that [create_strategy] makes for a size of at least two and an
    overlap that is not negative cuts every document: the length of the
    document bounds the turns of its loops. *)
Theorem create_strategy_terminates {E : TokenEstimator} (name : string) (size overlap : Z)
    (s : ChunkStrategy) (t : text)
    (Hs : 2 <= size) (Ho : 0 <= overlap) (H : create_strategy name size overlap = Ok s) :
  ∃ cs, split (length t + 3) s t = Some cs.
Proof. by eapply split_total, create_strategy_sound. Qed.

(** (C34) The two strategies that keep offsets cover the document: with a positive
    number of characters per chunk, an overlap that is not negative, or a
    positive stride that is not longer than the window, each chunk is the slice
    of the document between its offsets, of at most that many characters; the
    chunks are numbered from 0 on; each begins where the one before it ends or
    earlier, so that cutting off the overlaps and putting the chunks together
    gives the document back.  The loops end: the length of the document is
    enough fuel. *)
Theorem offset_strategies_cover {E : TokenEstimator} (s : ChunkStrategy) (size : Z) (t : text)
    (Hs : match s with
          | FixedSizeChunkStrategy max_characters overlap => size = max_characters ∧ 0 < size ∧ 0 <= overlap
          | SlidingWindowChunkStrategy window stride => size = window ∧ 0 < stride <= window
          | _ => False
          end) :
  ∃ cs, split (length t + 3) s t = Some cs ∧ rebuild cs = t ∧
    Forall (λ c, content c = py_slice (start_offset c) (end_offset c) t
                 ∧ 0 < character_count c <= size) cs ∧
    chunk_index <$> cs = (λ i, Z.of_nat i) <$> seq 0 (length cs).
Proof.
  assert (∃ cs, split (length t + 3) s t = Some cs ∧ covers_text size t cs) as (cs & Hcs & [R S I]); [|eauto].
  destruct s; try done; cbn [split]; destruct Hs as [-> Hs].
  - apply fixed_split_total; lia.
  - apply sliding_split_total; lia.
Qed.

(** A window of one character whose overlap is as large never advances: the
    stride is [1 // 2]. *)
Theorem sliding_window_stuck {E : TokenEstimator} (overlap : Z) (t : text) (fuel : nat)
    (Ho : 1 <= overlap) (Ht : t ≠ []) :
  ∃ s, create_strategy "sliding_window" 1 overlap = Ok s ∧ split fuel s t = None.
Proof.
  eexists. split; [done|]. cbn [split]. rewrite (proj2 (Z.ltb_ge overlap 1)) by lia.
  by apply sliding_split_diverges.
Qed.

(** A document that fits in one chunk but is longer than the overlap is cut in
    two: the second chunk is the end of the first one, over again. *)
Theorem fixed_split_repeats_tail {E : TokenEstimator} (max_ overlap : Z) (t : text)
    (Ho : 0 < overlap < zlen t) (Hm : zlen t <= max_) :
  fixed_split 3 max_ overlap t =
    Some [make_chunk t 0 0 [];
          make_chunk (drop (Z.to_nat (zlen t - overlap)) t) 1 (zlen t - overlap) []].
Proof.
  unfold fixed_split. cbn [fixed_loop].
  assert (∀ s, 0 <= s → fixed_end max_ t s = zlen t) as He.
  { intros s Hs. unfold fixed_end. by rewrite (proj2 (Z.leb_le _ _)) by lia. }
  assert (∀ s, 0 <= s → py_slice s (zlen t) t = drop (Z.to_nat s) t) as Hp.
  { intros s Hs. rewrite py_slice_nonneg by lia. unfold zlen. by rewrite Nat2Z.id, firstn_all. }
  rewrite (proj2 (Z.ltb_lt 0 _)) by lia. rewrite (He 0), (Hp 0) by lia.
  rewrite (proj2 (Z.leb_gt (zlen t - overlap) 0)) by lia.
  rewrite (proj2 (Z.leb_gt (zlen t) (zlen t - overlap))) by lia.
  rewrite (proj2 (Z.ltb_lt (zlen t - overlap) _)) by lia. rewrite He, Hp by lia.
  rewrite (proj2 (Z.leb_le (zlen t - overlap) (zlen t - overlap))) by lia.
  by rewrite (proj2 (Z.leb_le (zlen t) (zlen t))) by lia.
Qed.

(** * The pipeline *)

Section Pipeline.
Context {E : TokenEstimator} `{!TokenEstimatorLaws E}.

(** The chunks that are worth keeping. *)
Definition keeps_chunk (v : ChunkValidator) (c : ChunkPreview) : bool :=
  nonblank (content c) && (v_min v <=? zlen (content c)) && (zlen (content c) <=? v_max v).

Lemma nonblank_not_nil t : nonblank t = true → t ≠ [].
Proof. by intros H ->. Qed.

(** On the chunks that the strategies make, the last two tests of the validator
    never fail. *)
Lemma validate_keeps v c :
  preview_wf c → (match validate_chunk v c with Ok d => Some d | Err _ => None end)
                 = if keeps_chunk v c then Some c else None.
Proof.
  intros (He & Hc & Ht). unfold validate_chunk, keeps_chunk.
  destruct (nonblank (content c)) eqn:En; cbn [negb orb andb]; [|by rewrite orb_true_r].
  pose proof (nonblank_not_nil _ En) as Hne. rewrite orb_false_r, bool_decide_eq_false_2 by done.
  rewrite Hc. destruct (Z.ltb_spec (zlen (content c)) (v_min v)) as [Hl|Hl].
  { by rewrite (proj2 (Z.leb_gt _ _)). }
  rewrite (proj2 (Z.leb_le (v_min v) _)) by done. cbn [andb].
  destruct (Z.ltb_spec (v_max v) (zlen (content c))) as [Hl'|Hl'].
  { by rewrite (proj2 (Z.leb_gt _ _)). }
  rewrite (proj2 (Z.leb_le _ (v_max v))) by done. rewrite He, Ht.
  assert (0 < zlen (content c)) by (unfold zlen; destruct (content c); simpl; (done || lia)).
  rewrite (proj2 (Z.leb_gt _ _)) by lia. pose proof (estimate_positive _ Hne).
  by rewrite (proj2 (Z.ltb_ge _ _)) by lia.
Qed.

Lemma validated_filter v cs : Forall preview_wf cs → validated v cs = List.filter (keeps_chunk v) cs.
Proof.
  unfold validated. induction 1 as [|c cs Hc _ IH]; [done|]. cbn [omap list_omap List.filter].
  rewrite validate_keeps by done. rewrite IH. by destruct (keeps_chunk v c).
Qed.

Lemma chunk_run fuel pl now d s r :
  chunk fuel pl now d s = Some r →
  ∃ cs, split fuel (default (pl_strategy pl) s) (doc_content d) = Some cs ∧
    cr_chunks r = knowledge_chunk d now <$> enumerate (List.filter (keeps_chunk (pl_validator pl)) cs) ∧
    cr_total_chunks r = zlen (cr_chunks r).
Proof.
  unfold chunk. destruct (split fuel _ _) as [cs|] eqn:Es; [|done]. intros [= <-].
  exists cs. cbn [cr_chunks cr_total_chunks]. by rewrite (validated_filter _ _ (split_wf _ _ _ _ Es)).
Qed.

End Pipeline.

(** The pipeline stores exactly the chunks of the strategy that are not blank
    and whose length lies between the two limits, in their order, and numbers
    them again from 0 on: a chunk that is too short is dropped and not merged. *)
Theorem pipeline_keeps {E : TokenEstimator} `{!TokenEstimatorLaws E} (fuel : nat)
    (pl : ChunkingPipeline) (now : float) (d : KnowledgeDocument) (s : option ChunkStrategy)
    (r : ChunkingResult) (H : chunk fuel pl now d s = Some r) :
  ∃ cs, split fuel (default (pl_strategy pl) s) (doc_content d) = Some cs ∧
    kc_content <$> cr_chunks r = content <$> List.filter (keeps_chunk (pl_validator pl)) cs ∧
    kc_chunk_index <$> cr_chunks r = (λ k, Z.of_nat k) <$> seq 0 (length (cr_chunks r)) ∧
    Forall (λ k, kc_document_id k = doc_id d ∧ kc_end_offset k = kc_start_offset k + zlen (kc_content k))
      (cr_chunks r) ∧
    cr_total_chunks r = zlen (cr_chunks r).
Proof.
  destruct (chunk_run fuel pl now d s r H) as (cs & Hcs & Hr & Ht). exists cs.
  split; [done|]. rewrite Ht, Hr, length_fmap. repeat split.
  - rewrite <- list_fmap_compose. rewrite <- (enumerate_from_snd 0 (List.filter _ cs)) at 2.
    rewrite <- list_fmap_compose. apply list_fmap_ext. by intros i [k p] _.
  - rewrite <- list_fmap_compose. unfold enumerate.
    replace (length (enumerate_from 0 (List.filter (keeps_chunk (pl_validator pl)) cs)))
      with (length (List.filter (keeps_chunk (pl_validator pl)) cs))
      by (by rewrite <- (enumerate_from_snd 0 (List.filter (keeps_chunk (pl_validator pl)) cs)) at 1;
          rewrite length_fmap).
    rewrite <- (enumerate_from_fst 0). apply list_fmap_ext. by intros i [k p] _.
  - pose proof (split_wf _ _ _ _ Hcs) as Hw. apply Forall_fmap, Forall_forall. intros [k p] Hk. simpl.
    split; [done|]. apply (list_elem_of_fmap_2 snd) in Hk. unfold enumerate in Hk.
    rewrite enumerate_from_snd in Hk. apply list_elem_of_In, filter_In in Hk as [Hk _].
    rewrite Forall_forall in Hw. by apply Hw, list_elem_of_In.
Qed.

(** With the default configuration a document of less than a hundred characters
    has no chunk. *)
Theorem short_document_dropped {E : TokenEstimator} `{!TokenEstimatorLaws E} (pl : ChunkingPipeline)
    (now : float) (d : KnowledgeDocument)
    (Hp : new_pipeline default_config = Ok pl) (Hd : zlen (doc_content d) < 100) :
  ∃ r, chunk (length (doc_content d) + 3) pl now d None = Some r ∧ cr_chunks r = [].
Proof.
  assert (pl = MkPipeline (FixedSizeChunkStrategy 1000 200) (MkValidator 100 2000)) as ->
    by (by injection Hp as <-).
  destruct (fixed_split_total 1000 200 (doc_content d) (length (doc_content d) + 3)) as (cs & Hcs & [R S I]);
    [lia..|].
  destruct (chunk (length (doc_content d) + 3) _ now d None) as [r|] eqn:Er.
  - exists r. split; [done|]. destruct (chunk_run _ _ _ _ _ _ Er) as (ds & Hds & Hr & _).
    cbn [default pl_strategy split] in Hds. simplify_eq. rewrite Hr.
    enough (List.filter (keeps_chunk (MkValidator 100 2000)) cs = []) as Hf by (simpl; by rewrite Hf).
    clear -S Hd. induction S as [|c cs [Hc Hl] _ IH]; [done|]. cbn [List.filter].
    enough (keeps_chunk (MkValidator 100 2000) c = false) as -> by done.
    unfold keeps_chunk. cbn [v_min v_max].
    assert (zlen (content c) < 100) as Hz; [|by rewrite (proj2 (Z.leb_gt 100 _)), andb_false_r by done].
    rewrite Hc. unfold py_slice, zlen in *. rewrite length_drop, length_take. lia.
  - unfold chunk in Er. cbn [default pl_strategy split] in Er. by rewrite Hcs in Er.
Qed.

(** * Examples *)

Definition fox : text := code_points "The quick brown fox. Jumps over the lazy dog.".
Definition fox_document : KnowledgeDocument :=
  MkDocument "d1" "c1" "Fox" fox "" ACTIVE [] [] 1 0 fzero fzero.

(** The dot of the pattern that is meant for the end of a sentence is any
    character: the chunk ends at the last blank, in the middle of a sentence. *)
Example break_ignores_sentence :
  option_map (List.map content) (@fixed_split HeuristicTokenEstimator 50 30 0 fox)
  = Some [code_points "The quick brown fox. Jumps "; code_points "over the lazy dog."].
Proof. by vm_compute. Qed.

Lemma recursive_split_lossless_witness :
  ∃ cs, @recursive_split HeuristicTokenEstimator (length fox + 2) 20 5 fox = Some cs ∧
    visible_text (concat (content <$> cs)) = visible_text fox.
Proof.
  destruct (@recursive_split_lossless HeuristicTokenEstimator 20 5 fox ltac:(lia)) as (cs & H & _ & _ & V).
  eauto.
Defined.

Lemma create_strategy_terminates_witness :
  ∃ cs, @split HeuristicTokenEstimator (length fox + 3) (SlidingWindowChunkStrategy 20 15) fox = Some cs.
Proof.
  apply (create_strategy_terminates "sliding_window" 20 5); [lia|lia|by vm_compute].
Defined.

Lemma offset_strategies_cover_witness :
  ∃ cs, @split HeuristicTokenEstimator (length fox + 3) (FixedSizeChunkStrategy 20 5) fox = Some cs ∧
    rebuild cs = fox.
Proof.
  destruct (@offset_strategies_cover HeuristicTokenEstimator (FixedSizeChunkStrategy 20 5) 20 fox
    ltac:(split; [reflexivity|lia])) as (cs & H & R & _). eauto.
Defined.

Lemma sliding_window_stuck_witness :
  ∃ s, create_strategy "sliding_window" 1 1 = Ok s ∧ @split HeuristicTokenEstimator 1000 s fox = None.
Proof. apply sliding_window_stuck; [lia|by vm_compute]. Defined.

Lemma fixed_split_repeats_tail_witness :
  option_map (List.map (λ c, zlen (content c))) (@fixed_split HeuristicTokenEstimator 3 1000 10 fox) = Some [45; 10].
Proof. rewrite fixed_split_repeats_tail; [by vm_compute|by vm_compute|by vm_compute]. Defined.

Lemma pipeline_keeps_witness :
  ∃ cs, @split HeuristicTokenEstimator 50 (FixedSizeChunkStrategy 30 0) fox = Some cs ∧
    length cs = 2%nat ∧
    [code_points "The quick brown fox. Jumps "] = content <$> List.filter (keeps_chunk (MkValidator 20 30)) cs.
Proof.
  destruct (@chunk HeuristicTokenEstimator 50 (MkPipeline (FixedSizeChunkStrategy 30 0) (MkValidator 20 30))
    fzero fox_document None) as [r|] eqn:E; [|by vm_compute in E].
  destruct (pipeline_keeps 50 _ fzero fox_document None r E) as (cs & Hs & Hk & _).
  vm_compute in E. injection E as <-. exists cs. split; [exact Hs|]. split; [|etrans; [|exact Hk]; by vm_compute].
  vm_compute in Hs. by injection Hs as <-.
Defined.

Lemma short_document_dropped_witness :
  ∃ r, @chunk HeuristicTokenEstimator (length fox + 3)
         (MkPipeline (FixedSizeChunkStrategy 1000 200) (MkValidator 100 2000)) fzero fox_document None
       = Some r ∧ cr_chunks r = [].
Proof.
  apply (@short_document_dropped HeuristicTokenEstimator heuristic_laws (MkPipeline (FixedSizeChunkStrategy 1000 200) (MkValidator 100 2000)) fzero fox_document); [done|by vm_compute].
Defined.
