(* ===== verification/Knowledge.v ===== *)
(** * The knowledge base

    [src/app/knowledge/]: the in-memory repository of collections, documents,
    chunks and embeddings ([repository.py]), the validation of names and tags
    ([validation.py]) and the service on top of them ([service.py]).

    The repository hands out the objects it stores, and the service changes
    them in place, field by field, validating as it goes: a method is a
    computation that may raise and keeps the state it has reached.  Identifiers
    drawn by [uuid4] and the clock are arguments.  Names, titles and tags are
    ASCII texts; a content is a list of code points, of which [lower] changes
    the ASCII letters. *)

From Stdlib Require Import ZArith Lia.
From Stdlib Require Import Ascii Sorted.
From stdpp Require Import base numbers strings gmap list relations.
From S2P Require Import Prelude PyFloat PyNum PyStr PyDict PyMath Chunking.


Open Scope string_scope.
Open Scope Z_scope.

(** ** Errors *)

Inductive KnowledgeError :=
  | EmptyName
  | NameTooLong
  | EmptyTitle
  | TitleTooLong
  | TagTooLong (tag : string)
  | TooManyTags
  | UnknownCollection (id : string)
  | BadStatus (status : string)
  | MissingKey (key : string).

(** ** Validation *)

Definition str_len (s : string) : Z := Z.of_nat (String.length s).

Definition validate_collection_name (name : string) : result KnowledgeError string :=
  let name := strip name in
  if negb (truthy name) then Err EmptyName
  else if 200 <? str_len name then Err NameTooLong
  else if str_len name <? 1 then Err EmptyName
  else Ok name.

Definition validate_document_title (title : string) : result KnowledgeError string :=
  let title := strip title in
  if negb (truthy title) then Err EmptyTitle
  else if 500 <? str_len title then Err TitleTooLong
  else Ok title.

Fixpoint clean_tags (tags : list string) : result KnowledgeError (list string) :=
  match tags with
  | [] => Ok []
  | t :: ts =>
      let t := strip t in
      if negb (truthy t) then clean_tags ts
      else if 50 <? str_len t then Err (TagTooLong t)
      else (try cleaned <- clean_tags ts in Ok (t :: cleaned))%py
  end.

Definition validate_tags (tags : option (list string)) : result KnowledgeError (list string) :=
  match tags with
  | None => Ok []
  | Some ts =>
      (try cleaned <- clean_tags ts in
       if 50 <? zlen cleaned then Err TooManyTags else Ok cleaned)%py
  end.

(** ** Data *)

Record KnowledgeCollection := MkCollection {
  col_id : string;
  col_name : string;
  col_description : string;
  col_status : KnowledgeStatus;
  col_metadata : list KnowledgeMetadata;
  col_tags : list string;
  col_version : Z;
  col_document_count : Z;
  col_created_at : float;
  col_updated_at : float
}.

Record EmbeddingRecord := MkEmbedding {
  em_id : string;
  em_document_id : string;
  em_chunk_id : string;
  em_model : string;
  em_provider : string;
  em_dimensions : Z;
  em_vector : list float;
  em_token_count : Z;
  em_created_at : float
}.

(** [KnowledgeStatus(status)] *)
Definition parse_status (s : string) : result KnowledgeError KnowledgeStatus :=
  if String.eqb s "active" then Ok ACTIVE
  else if String.eqb s "archived" then Ok ARCHIVED
  else if String.eqb s "deleted" then Ok DELETED
  else Err (BadStatus s).

Definition knowledge_status_value (s : KnowledgeStatus) : string :=
  match s with ACTIVE => "active" | ARCHIVED => "archived" | DELETED => "deleted" end.

(** [KnowledgeMetadata.from_dict] *)
Definition metadata_from_dict (m : dict string string) : result KnowledgeError KnowledgeMetadata :=
  match dict_get "key" m with
  | None => Err (MissingKey "key")
  | Some k =>
      match dict_get "value" m with
      | None => Err (MissingKey "value")
      | Some v => Ok (MkMetadata k (MetaText v) (default "string" (dict_get "value_type" m)))
      end
  end.

Fixpoint metadata_list (ms : list (dict string string)) : result KnowledgeError (list KnowledgeMetadata) :=
  match ms with
  | [] => Ok []
  | m :: ms' =>
      (try x <- metadata_from_dict m in
       try xs <- metadata_list ms' in
       Ok (x :: xs))%py
  end.

Record KB := MkKB {
  kb_collections : dict string KnowledgeCollection;
  kb_documents : dict string KnowledgeDocument;
  kb_chunks : dict string KnowledgeChunk;
  kb_embeddings : dict string EmbeddingRecord
}.

Definition new_kb : KB := MkKB [] [] [] [].

Definition with_collections f (k : KB) : KB :=
  MkKB (f (kb_collections k)) (kb_documents k) (kb_chunks k) (kb_embeddings k).
Definition with_documents f (k : KB) : KB :=
  MkKB (kb_collections k) (f (kb_documents k)) (kb_chunks k) (kb_embeddings k).
Definition with_chunks f (k : KB) : KB :=
  MkKB (kb_collections k) (kb_documents k) (f (kb_chunks k)) (kb_embeddings k).
Definition with_embeddings f (k : KB) : KB :=
  MkKB (kb_collections k) (kb_documents k) (kb_chunks k) (f (kb_embeddings k)).

(** Assignments to the fields of a stored object. *)
Definition set_count (n : Z) (c : KnowledgeCollection) : KnowledgeCollection :=
  MkCollection (col_id c) (col_name c) (col_description c) (col_status c) (col_metadata c) (col_tags c)
    (col_version c) n (col_created_at c) (col_updated_at c).
Definition set_name (n : string) (c : KnowledgeCollection) : KnowledgeCollection :=
  MkCollection (col_id c) n (col_description c) (col_status c) (col_metadata c) (col_tags c)
    (col_version c) (col_document_count c) (col_created_at c) (col_updated_at c).
Definition set_description (d : string) (c : KnowledgeCollection) : KnowledgeCollection :=
  MkCollection (col_id c) (col_name c) d (col_status c) (col_metadata c) (col_tags c)
    (col_version c) (col_document_count c) (col_created_at c) (col_updated_at c).
Definition set_status (s : KnowledgeStatus) (c : KnowledgeCollection) : KnowledgeCollection :=
  MkCollection (col_id c) (col_name c) (col_description c) s (col_metadata c) (col_tags c)
    (col_version c) (col_document_count c) (col_created_at c) (col_updated_at c).
Definition set_metadata (m : list KnowledgeMetadata) (c : KnowledgeCollection) : KnowledgeCollection :=
  MkCollection (col_id c) (col_name c) (col_description c) (col_status c) m (col_tags c)
    (col_version c) (col_document_count c) (col_created_at c) (col_updated_at c).
Definition set_tags (t : list string) (c : KnowledgeCollection) : KnowledgeCollection :=
  MkCollection (col_id c) (col_name c) (col_description c) (col_status c) (col_metadata c) t
    (col_version c) (col_document_count c) (col_created_at c) (col_updated_at c).
Definition bump_collection (now : float) (c : KnowledgeCollection) : KnowledgeCollection :=
  MkCollection (col_id c) (col_name c) (col_description c) (col_status c) (col_metadata c) (col_tags c)
    (col_version c + 1) (col_document_count c) (col_created_at c) now.

Definition doc_set_title (x : string) (d : KnowledgeDocument) : KnowledgeDocument :=
  MkDocument (doc_id d) (doc_collection_id d) x (doc_content d) (doc_source d) (doc_status d)
    (doc_metadata d) (doc_tags d) (doc_version d) (doc_chunk_count d) (doc_created_at d) (doc_updated_at d).
Definition doc_set_content (x : text) (d : KnowledgeDocument) : KnowledgeDocument :=
  MkDocument (doc_id d) (doc_collection_id d) (doc_title d) x (doc_source d) (doc_status d)
    (doc_metadata d) (doc_tags d) (doc_version d) (doc_chunk_count d) (doc_created_at d) (doc_updated_at d).
Definition doc_set_source (x : string) (d : KnowledgeDocument) : KnowledgeDocument :=
  MkDocument (doc_id d) (doc_collection_id d) (doc_title d) (doc_content d) x (doc_status d)
    (doc_metadata d) (doc_tags d) (doc_version d) (doc_chunk_count d) (doc_created_at d) (doc_updated_at d).
Definition doc_set_status (x : KnowledgeStatus) (d : KnowledgeDocument) : KnowledgeDocument :=
  MkDocument (doc_id d) (doc_collection_id d) (doc_title d) (doc_content d) (doc_source d) x
    (doc_metadata d) (doc_tags d) (doc_version d) (doc_chunk_count d) (doc_created_at d) (doc_updated_at d).
Definition doc_set_metadata (x : list KnowledgeMetadata) (d : KnowledgeDocument) : KnowledgeDocument :=
  MkDocument (doc_id d) (doc_collection_id d) (doc_title d) (doc_content d) (doc_source d) (doc_status d)
    x (doc_tags d) (doc_version d) (doc_chunk_count d) (doc_created_at d) (doc_updated_at d).
Definition doc_set_tags (x : list string) (d : KnowledgeDocument) : KnowledgeDocument :=
  MkDocument (doc_id d) (doc_collection_id d) (doc_title d) (doc_content d) (doc_source d) (doc_status d)
    (doc_metadata d) x (doc_version d) (doc_chunk_count d) (doc_created_at d) (doc_updated_at d).
Definition doc_set_chunk_count (x : Z) (d : KnowledgeDocument) : KnowledgeDocument :=
  MkDocument (doc_id d) (doc_collection_id d) (doc_title d) (doc_content d) (doc_source d) (doc_status d)
    (doc_metadata d) (doc_tags d) (doc_version d) x (doc_created_at d) (doc_updated_at d).
Definition bump_document (now : float) (d : KnowledgeDocument) : KnowledgeDocument :=
  MkDocument (doc_id d) (doc_collection_id d) (doc_title d) (doc_content d) (doc_source d) (doc_status d)
    (doc_metadata d) (doc_tags d) (doc_version d + 1) (doc_chunk_count d) (doc_created_at d) now.

(** [d[k].field = x], which does nothing here when [k] is not in [d]. *)
Definition modify {V} (k : string) (f : V → V) (d : dict string V) : dict string V :=
  match dict_get k d with Some v => dict_set k (f v) d | None => d end.

(** ** The repository *)

Definition create_collection (uid : string) (now : float) (c : KnowledgeCollection) (k : KB)
    : KnowledgeCollection * KB :=
  let c' := MkCollection (str_or (col_id c) uid) (col_name c) (col_description c) (col_status c)
              (col_metadata c) (col_tags c) (col_version c) (col_document_count c) now now in
  (c', with_collections (dict_set (col_id c') c') k).

Definition get_collection (id : string) (k : KB) : option KnowledgeCollection :=
  dict_get id (kb_collections k).

(** [update_collection] on the stored object itself, which is what the service
    passes: only the version and the date change. *)
Definition update_collection (now : float) (id : string) (k : KB) : option KnowledgeCollection * KB :=
  match get_collection id k with
  | None => (None, k)
  | Some c =>
      let c' := bump_collection now c in (Some c', with_collections (dict_set id c') k)
  end.

Definition chunk_of (doc : string) (c : KnowledgeChunk) : bool := String.eqb (kc_document_id c) doc.
Definition document_of (col : string) (d : KnowledgeDocument) : bool := String.eqb (doc_collection_id d) col.

(** [{k: v for k, v in chunks.items() if v.document_id != doc_id}] *)
Definition drop_chunks (doc : string) (cs : dict string KnowledgeChunk) : dict string KnowledgeChunk :=
  List.filter (λ p, negb (chunk_of doc p.2)) cs.

Definition delete_collection (id : string) (k : KB) : bool * KB :=
  if dict_mem id (kb_collections k) then
    let docs := doc_id <$> List.filter (document_of id) (dict_values (kb_documents k)) in
    (true,
     MkKB (dict_pop id (kb_collections k)) (pop_all docs (kb_documents k))
       (foldl (λ cs d, drop_chunks d cs) (kb_chunks k) docs) (kb_embeddings k))
  else (false, k).

(** [items[skip : skip + limit]] *)
Definition page {A} (skip limit : Z) (items : list A) : list A := py_slice skip (skip + limit) items.

Definition list_collections (skip limit : Z) (k : KB) : list KnowledgeCollection :=
  page skip limit (dict_values (kb_collections k)).
Definition count_collections (k : KB) : Z := zlen (kb_collections k).

Definition add_count (n : Z) (c : KnowledgeCollection) : KnowledgeCollection :=
  set_count (Z.max 0 (col_document_count c + n)) c.

Definition create_document (uid : string) (now : float) (d : KnowledgeDocument) (k : KB)
    : KnowledgeDocument * KB :=
  let d' := MkDocument (str_or (doc_id d) uid) (doc_collection_id d) (doc_title d) (doc_content d)
              (doc_source d) (doc_status d) (doc_metadata d) (doc_tags d) (doc_version d)
              (doc_chunk_count d) now now in
  (d', with_collections (modify (doc_collection_id d') (λ c, set_count (col_document_count c + 1) c))
         (with_documents (dict_set (doc_id d') d') k)).

Definition get_document (id : string) (k : KB) : option KnowledgeDocument := dict_get id (kb_documents k).

Definition update_document (now : float) (id : string) (k : KB) : option KnowledgeDocument * KB :=
  match get_document id k with
  | None => (None, k)
  | Some d => let d' := bump_document now d in (Some d', with_documents (dict_set id d') k)
  end.

Definition delete_document (id : string) (k : KB) : bool * KB :=
  match get_document id k with
  | None => (false, k)
  | Some d =>
      (true,
       with_collections (modify (doc_collection_id d) (add_count (-1)))
         (with_chunks (drop_chunks id) (with_documents (dict_pop id) k)))
  end.

Definition documents_in (collection_id : string) (k : KB) : list KnowledgeDocument :=
  let docs := dict_values (kb_documents k) in
  if truthy collection_id then List.filter (document_of collection_id) docs else docs.

Definition list_documents (collection_id : string) (skip limit : Z) (k : KB) : list KnowledgeDocument :=
  page skip limit (documents_in collection_id k).

Definition count_documents (collection_id : string) (k : KB) : Z := zlen (documents_in collection_id k).

(** [text.lower()] and [q in text] *)
Definition lower_text (t : text) : text :=
  (λ c, if (65 <=? c) && (c <=? 90) then c + 32 else c) <$> t.
Fixpoint prefix_text (p t : text) : bool :=
  match p, t with
  | [], _ => true
  | a :: p', b :: t' => (a =? b) && prefix_text p' t'
  | _, [] => false
  end.
Fixpoint contains_text (q t : text) : bool :=
  prefix_text q t || match t with [] => false | _ :: t' => contains_text q t' end.

Definition document_matches (q : string) (d : KnowledgeDocument) : bool :=
  contains q (lower (doc_title d)) || contains_text (code_points q) (lower_text (doc_content d))
  || contains q (lower (doc_source d)).

Definition search_documents (query collection_id : string) (limit : Z) (k : KB)
    : list KnowledgeDocument :=
  take_z limit (List.filter (document_matches (lower query)) (documents_in collection_id k)).

Inductive KnowledgeStats :=
  | NoStats
  | CollectionStats (id name : string) (documents chunks total_chars : Z) (tags : gset string)
  | GlobalStats (collections documents chunks total_chars : Z) (list_ : list (string * string * Z)).

Definition total_chars (docs : list KnowledgeDocument) : Z := sum_z (zlen ∘ doc_content <$> docs).

Definition get_statistics (collection_id : string) (k : KB) : KnowledgeStats :=
  if truthy collection_id then
    match get_collection collection_id k with
    | None => NoStats
    | Some c =>
        let docs := List.filter (document_of collection_id) (dict_values (kb_documents k)) in
        let chunks := List.filter (λ x, String.eqb (kc_collection_id x) collection_id)
                        (dict_values (kb_chunks k)) in
        CollectionStats collection_id (col_name c) (zlen docs) (zlen chunks) (total_chars docs)
          (list_to_set (mjoin (doc_tags <$> docs)))
    end
  else
    GlobalStats (zlen (kb_collections k)) (zlen (kb_documents k)) (zlen (kb_chunks k))
      (total_chars (dict_values (kb_documents k)))
      ((λ c, (col_id c, col_name c, col_document_count c)) <$> dict_values (kb_collections k)).

Definition create_chunk (uid : string) (now : float) (c : KnowledgeChunk) (k : KB) : KnowledgeChunk * KB :=
  let c' := MkKnowledgeChunk (str_or (kc_id c) uid) (kc_document_id c) (kc_collection_id c) (kc_content c)
              (kc_chunk_index c) (kc_start_offset c) (kc_end_offset c) (kc_token_estimate c)
              (kc_character_count c) (kc_metadata c) now in
  let chunks := dict_set (kc_id c') c' (kb_chunks k) in
  (c', with_documents
         (modify (kc_document_id c') (doc_set_chunk_count (rcount (chunk_of (kc_document_id c')) chunks)))
         (with_chunks (λ _, chunks) k)).

Definition list_chunks (document_id : string) (k : KB) : list KnowledgeChunk :=
  py_sorted (λ a b, kc_chunk_index a <? kc_chunk_index b)
    (List.filter (chunk_of document_id) (dict_values (kb_chunks k))).

Definition delete_chunks_by_document (document_id : string) (k : KB) : KB :=
  with_chunks (drop_chunks document_id) k.

(** [save_embedding] keeps one record per chunk. *)
Definition save_embedding (uid : string) (now : float) (e : EmbeddingRecord) (k : KB)
    : EmbeddingRecord * KB :=
  let e' := MkEmbedding (str_or (em_id e) uid) (em_document_id e) (em_chunk_id e) (em_model e)
              (em_provider e) (em_dimensions e) (em_vector e) (em_token_count e) now in
  (e', with_embeddings (dict_set (em_chunk_id e') e') k).

Definition get_embedding (chunk_id : string) (k : KB) : option EmbeddingRecord :=
  dict_get chunk_id (kb_embeddings k).

Definition delete_embedding (chunk_id : string) (k : KB) : bool * KB :=
  (dict_mem chunk_id (kb_embeddings k), with_embeddings (dict_pop chunk_id) k).

Definition list_embeddings (document_id : string) (k : KB) : list EmbeddingRecord :=
  if truthy document_id then
    List.filter (λ e, String.eqb (em_document_id e) document_id) (dict_values (kb_embeddings k))
  else dict_values (kb_embeddings k).

(** [ChunkingPipeline.save_chunks] *)
Fixpoint save_chunks (uids : list string) (now : float) (cs : list KnowledgeChunk) (k : KB)
    : list KnowledgeChunk * KB :=
  match cs, uids with
  | c :: cs', uid :: uids' =>
      let '(c', k') := create_chunk uid now c k in
      let '(saved, k'') := save_chunks uids' now cs' k' in (c' :: saved, k'')
  | _, _ => ([], k)
  end.

(** ** The service *)

Module Service.

Abbreviation K A := (SE KnowledgeError KB A) (only parsing).

(** A call of the repository. *)
Definition repo {A} (f : KB → A * KB) : K A := λ k, let '(a, k') := f k in (Ok a, k').

(** [if x is not None: ...] *)
Definition when_some {A} (o : option A) (f : A → K unit) : K unit :=
  match o with None => mret tt | Some a => f a end.

Definition assign_collection (id : string) (f : KnowledgeCollection → KnowledgeCollection) : K unit :=
  se_modify (with_collections (modify id f)).
Definition assign_document (id : string) (f : KnowledgeDocument → KnowledgeDocument) : K unit :=
  se_modify (with_documents (modify id f)).

Definition service_create_collection (uid : string) (now : float) (name description : string)
    (metadata : option (list (dict string string))) (tags : option (list string))
    : K KnowledgeCollection :=
  se_lift (validate_collection_name name) ≫= λ name,
  se_lift (validate_tags tags) ≫= λ tags,
  se_lift (metadata_list (default [] metadata)) ≫= λ meta,
  repo (create_collection uid now (MkCollection "" name description ACTIVE meta tags 1 0 fzero fzero)).

Definition service_update_collection (now : float) (id : string) (name description status : option string)
    (metadata : option (list (dict string string))) (tags : option (list string))
    : K (option KnowledgeCollection) :=
  se_get ≫= λ k,
  match get_collection id k with
  | None => mret None
  | Some _ =>
      when_some name (λ n, se_lift (validate_collection_name n) ≫= λ n, assign_collection id (set_name n)) ≫= λ _,
      when_some description (λ d, assign_collection id (set_description d)) ≫= λ _,
      when_some status (λ s, se_lift (parse_status s) ≫= λ s, assign_collection id (set_status s)) ≫= λ _,
      when_some metadata (λ m, se_lift (metadata_list m) ≫= λ m, assign_collection id (set_metadata m)) ≫= λ _,
      when_some tags (λ t, se_lift (validate_tags (Some t)) ≫= λ t, assign_collection id (set_tags t)) ≫= λ _,
      repo (update_collection now id)
  end.

Definition service_create_document (uid : string) (now : float) (collection_id title : string)
    (content : text) (source : string) (metadata : option (list (dict string string)))
    (tags : option (list string)) : K KnowledgeDocument :=
  se_get ≫= λ k,
  match get_collection collection_id k with
  | None => se_raise (UnknownCollection collection_id)
  | Some _ =>
      se_lift (validate_document_title title) ≫= λ title,
      se_lift (validate_tags tags) ≫= λ tags,
      se_lift (metadata_list (default [] metadata)) ≫= λ meta,
      repo (create_document uid now
        (MkDocument "" collection_id title content source ACTIVE meta tags 1 0 fzero fzero))
  end.

Definition service_update_document (now : float) (id : string) (title : option string)
    (content : option text) (source status : option string)
    (metadata : option (list (dict string string))) (tags : option (list string))
    : K (option KnowledgeDocument) :=
  se_get ≫= λ k,
  match get_document id k with
  | None => mret None
  | Some _ =>
      when_some title (λ x, se_lift (validate_document_title x) ≫= λ x, assign_document id (doc_set_title x)) ≫= λ _,
      when_some content (λ x, assign_document id (doc_set_content x)) ≫= λ _,
      when_some source (λ x, assign_document id (doc_set_source x)) ≫= λ _,
      when_some status (λ s, se_lift (parse_status s) ≫= λ s, assign_document id (doc_set_status s)) ≫= λ _,
      when_some metadata (λ m, se_lift (metadata_list m) ≫= λ m, assign_document id (doc_set_metadata m)) ≫= λ _,
      when_some tags (λ t, se_lift (validate_tags (Some t)) ≫= λ t, assign_document id (doc_set_tags t)) ≫= λ _,
      repo (update_document now id)
  end.

(** The set of present tags is taken before the loop: a tag that is given twice
    is added twice. *)
Definition add_tags (present new : list string) : list string :=
  (present ++ List.filter (λ t, negb (bool_decide (t ∈ present))) new)%list.

Definition remove_tags (present gone : list string) : list string :=
  List.filter (λ t, negb (bool_decide (t ∈ gone))) present.

Definition service_add_document_tags (now : float) (id : string) (tags : list string)
    : K (option KnowledgeDocument) :=
  se_get ≫= λ k,
  match get_document id k with
  | None => mret None
  | Some _ =>
      se_lift (validate_tags (Some tags)) ≫= λ new,
      assign_document id (λ d, doc_set_tags (add_tags (doc_tags d) new) d) ≫= λ _,
      repo (update_document now id)
  end.

Definition service_remove_document_tags (now : float) (id : string) (tags : list string)
    : K (option KnowledgeDocument) :=
  se_get ≫= λ k,
  match get_document id k with
  | None => mret None
  | Some _ =>
      assign_document id (λ d, doc_set_tags (remove_tags (doc_tags d) tags) d) ≫= λ _,
      repo (update_document now id)
  end.

Definition service_add_collection_tags (now : float) (id : string) (tags : list string)
    : K (option KnowledgeCollection) :=
  se_get ≫= λ k,
  match get_collection id k with
  | None => mret None
  | Some _ =>
      se_lift (validate_tags (Some tags)) ≫= λ new,
      assign_collection id (λ c, set_tags (add_tags (col_tags c) new) c) ≫= λ _,
      repo (update_collection now id)
  end.

Definition service_remove_collection_tags (now : float) (id : string) (tags : list string)
    : K (option KnowledgeCollection) :=
  se_get ≫= λ k,
  match get_collection id k with
  | None => mret None
  | Some _ =>
      assign_collection id (λ c, set_tags (remove_tags (col_tags c) tags) c) ≫= λ _,
      repo (update_collection now id)
  end.

End Service.
Import Service.

(** ** Histories

    The operations of the service, and those of the repository.  An object that
    is created has an identifier that is not in use, drawn or given by the
    caller, a new collection counts no documents, and a document that is created
    names a collection that exists; objects that are stored are changed by the
    service. *)

Inductive kb_step : KB → KB → Prop :=
  | step_create_collection uid now n d m t k :
      dict_mem uid (kb_collections k) = false →
      kb_step k (service_create_collection uid now n d m t k).2
  | step_update_collection now id n d s m t k :
      kb_step k (service_update_collection now id n d s m t k).2
  | step_delete_collection id k : kb_step k (delete_collection id k).2
  | step_create_document uid now col title content source m t k :
      dict_mem uid (kb_documents k) = false →
      kb_step k (service_create_document uid now col title content source m t k).2
  | step_put_collection uid now c k :
      dict_mem (str_or (col_id c) uid) (kb_collections k) = false → col_document_count c = 0 →
      kb_step k (create_collection uid now c k).2
  | step_put_document uid now d k :
      dict_mem (str_or (doc_id d) uid) (kb_documents k) = false →
      dict_mem (doc_collection_id d) (kb_collections k) = true →
      kb_step k (create_document uid now d k).2
  | step_update_document now id title content source s m t k :
      kb_step k (service_update_document now id title content source s m t k).2
  | step_delete_document id k : kb_step k (delete_document id k).2
  | step_add_document_tags now id t k : kb_step k (service_add_document_tags now id t k).2
  | step_remove_document_tags now id t k : kb_step k (service_remove_document_tags now id t k).2
  | step_add_collection_tags now id t k : kb_step k (service_add_collection_tags now id t k).2
  | step_remove_collection_tags now id t k : kb_step k (service_remove_collection_tags now id t k).2
  | step_create_chunk uid now c k : kb_step k (create_chunk uid now c k).2
  | step_delete_chunks id k : kb_step k (delete_chunks_by_document id k)
  | step_save_embedding uid now e k : kb_step k (save_embedding uid now e k).2
  | step_delete_embedding id k : kb_step k (delete_embedding id k).2.

(** Objects are stored under their identifiers, every document belongs to a
    collection that exists, and the counter of a collection is the number of its
    documents. *)
Record kb_ok (k : KB) : Prop := {
  ok_collections : keyed col_id (kb_collections k);
  ok_documents : keyed doc_id (kb_documents k);
  ok_owned : ∀ id d, dict_get id (kb_documents k) = Some d →
    dict_mem (doc_collection_id d) (kb_collections k) = true;
  ok_counts : ∀ id c, dict_get id (kb_collections k) = Some c →
    col_document_count c = rcount (document_of id) (kb_documents k)
}.

(** * Lemmas on [modify] *)

Section Modify.
Context {V : Type}.
Implicit Types (d : dict string V) (f : V → V).

Lemma get_modify k k' f d :
  dict_get k' (modify k f d) = if decide (k = k') then f <$> dict_get k d else dict_get k' d.
Proof.
  unfold modify. destruct (dict_get k d) as [v|] eqn:E; [apply dict_get_set|].
  case_decide; [by subst|done].
Qed.

Lemma mem_modify k k' f d : dict_mem k' (modify k f d) = dict_mem k' d.
Proof. unfold dict_mem. rewrite get_modify. case_decide; [subst|done]. by destruct (dict_get k' d). Qed.

Lemma keyed_modify key k f d : (∀ v, key (f v) = key v) → keyed key d → keyed key (modify k f d).
Proof.
  intros Hf Hd. unfold modify. destruct (dict_get k d) as [v|] eqn:E; [|done].
  rewrite <- (keyed_get key k v d Hd E), <- Hf. by apply keyed_set.
Qed.

Lemma rcount_modify P k f d : (∀ v, P (f v) = P v) → rcount P (modify k f d) = rcount P d.
Proof.
  intros Hf. unfold modify. destruct (dict_get k d) as [v|] eqn:E; [|done]. by eapply rcount_set_same.
Qed.
End Modify.

(** * Preservation *)

(** A change of a collection that leaves its identifier and its counter. *)
Lemma ok_modify_collection id f k :
  (∀ c, col_id (f c) = col_id c) → (∀ c, col_document_count (f c) = col_document_count c) →
  kb_ok k → kb_ok (with_collections (modify id f) k).
Proof.
  intros Hi Hc [C D O N]. split; cbn [with_collections kb_collections kb_documents].
  - by apply keyed_modify.
  - done.
  - intros x d Hd. rewrite mem_modify. by eapply O.
  - intros x c. rewrite get_modify. case_decide as E; [|apply N]. subst.
    destruct (dict_get x _) as [c0|] eqn:E; simpl; [|done]. intros [= <-]. rewrite Hc. by apply N.
Qed.

Lemma ok_modify_document id f k :
  (∀ d, doc_id (f d) = doc_id d) → (∀ d, doc_collection_id (f d) = doc_collection_id d) →
  kb_ok k → kb_ok (with_documents (modify id f) k).
Proof.
  intros Hi Hc [C D O N]. split; cbn [with_documents kb_collections kb_documents].
  - done.
  - by apply keyed_modify.
  - intros x d. rewrite get_modify. case_decide as E; [|apply O]. subst.
    destruct (dict_get x _) as [d0|] eqn:E; simpl; [|done]. intros [= <-]. rewrite Hc. by eapply O.
  - intros x c Hx. rewrite rcount_modify; [by apply N|]. intros d. unfold document_of. by rewrite Hc.
Qed.

Lemma ok_with_chunks f k : kb_ok k → kb_ok (with_chunks f k).
Proof. intros [C D O N]. by split. Qed.

Lemma ok_with_embeddings f k : kb_ok k → kb_ok (with_embeddings f k).
Proof. intros [C D O N]. by split. Qed.

Lemma with_modify_set {V} id (f : V → V) v d : dict_get id d = Some v → dict_set id (f v) d = modify id f d.
Proof. unfold modify. by intros ->. Qed.

Lemma ok_update_collection now id : se_inv kb_ok (repo (update_collection now id)).
Proof.
  intros k Hk. unfold repo, update_collection, get_collection.
  destruct (dict_get id (kb_collections k)) as [c|] eqn:E; [|done].
  cbn. unfold with_collections. rewrite (with_modify_set id (bump_collection now) c) by done.
  by apply (ok_modify_collection id (bump_collection now) k).
Qed.

Lemma ok_update_document now id : se_inv kb_ok (repo (update_document now id)).
Proof.
  intros k Hk. unfold repo, update_document, get_document.
  destruct (dict_get id (kb_documents k)) as [d|] eqn:E; [|done].
  cbn. unfold with_documents. rewrite (with_modify_set id (bump_document now) d) by done.
  by apply (ok_modify_document id (bump_document now) k).
Qed.

Lemma ok_assign_collection id f :
  (∀ c, col_id (f c) = col_id c) → (∀ c, col_document_count (f c) = col_document_count c) →
  se_inv kb_ok (assign_collection id f).
Proof. intros Hi Hc k Hk. by apply ok_modify_collection. Qed.

Lemma ok_assign_document id f :
  (∀ d, doc_id (f d) = doc_id d) → (∀ d, doc_collection_id (f d) = doc_collection_id d) →
  se_inv kb_ok (assign_document id f).
Proof. intros Hi Hc k Hk. by apply ok_modify_document. Qed.

Lemma ok_when_some {A} (o : option A) (f : A → SE KnowledgeError KB unit) :
  (∀ a, se_inv kb_ok (f a)) → se_inv kb_ok (when_some o f).
Proof. intros H. destruct o; [apply H|apply se_inv_ret]. Qed.

Lemma ok_get {A} (f : KB → SE KnowledgeError KB A) :
  (∀ k, se_inv kb_ok (f k)) → se_inv kb_ok (se_get ≫= f).
Proof. intros H k Hk. by apply H. Qed.

Lemma create_collection_ok uid now c k :
  dict_mem (str_or (col_id c) uid) (kb_collections k) = false → col_document_count c = 0 →
  kb_ok k → kb_ok (create_collection uid now c k).2.
Proof.
  intros Hu Hz [C D O N]. unfold create_collection. rewrite Hz. revert Hu. generalize (str_or (col_id c) uid).
  intros i Hu.
  split; cbn [snd with_collections kb_collections kb_documents col_id].
  - by apply (keyed_set col_id (MkCollection _ _ _ _ _ _ _ _ _ _)).
  - done.
  - intros x d Hd. unfold dict_mem. rewrite dict_get_set. case_decide; [done|]. by eapply O.
  - intros x c'. rewrite dict_get_set. case_decide as E; [|apply N]. subst. intros [= <-]. cbn.
    symmetry. apply rcount_zero; [|apply D]. intros y d Hd. unfold document_of.
    apply String.eqb_neq. intros Heq. specialize (O y d Hd). rewrite Heq in O. by rewrite O in Hu.
Qed.

Lemma create_document_ok uid now d k :
  dict_mem (str_or (doc_id d) uid) (kb_documents k) = false →
  dict_mem (doc_collection_id d) (kb_collections k) = true →
  kb_ok k → kb_ok (create_document uid now d k).2.
Proof.
  intros Hu Hc [C D O N]. unfold create_document. revert Hu. generalize (str_or (doc_id d) uid).
  intros i Hu.
  assert (dict_get i (kb_documents k) = None) as Hg by (unfold dict_mem in Hu; by destruct (dict_get i _)).
  split; cbn [snd with_collections with_documents kb_collections kb_documents doc_id doc_collection_id].
  - by apply keyed_modify.
  - by apply (keyed_set doc_id (MkDocument _ _ _ _ _ _ _ _ _ _ _ _)).
  - intros x d'. rewrite mem_modify, dict_get_set. case_decide; [by intros [= <-]|by apply O].
  - intros x c. rewrite get_modify, rcount_set_new by done. unfold document_of at 2. cbn [doc_collection_id].
    case_decide as E.
    + subst. destruct (dict_get (doc_collection_id d) _) as [c0|] eqn:E; simpl; [|done]. intros [= <-].
      cbn. rewrite String.eqb_refl, (N _ c0 E). done.
    + intros Hx. rewrite (proj2 (String.eqb_neq _ _)) by done. rewrite (N _ c Hx). lia.
Qed.

Lemma delete_document_ok id k : kb_ok k → kb_ok (delete_document id k).2.
Proof.
  intros [C D O N]. unfold delete_document, get_document.
  destruct (dict_get id (kb_documents k)) as [d|] eqn:Ed; [|by split].
  split; cbn [snd with_collections with_documents with_chunks kb_collections kb_documents].
  - by apply keyed_modify.
  - by apply keyed_pop.
  - intros x d' Hx. rewrite mem_modify. apply (O x). destruct (decide (id = x)) as [->|Hne].
    + by rewrite dict_get_pop_eq in Hx by apply D.
    + by rewrite dict_get_pop_ne in Hx.
  - intros x c. rewrite get_modify, (rcount_pop _ _ d) by done. unfold document_of at 2. case_decide as E.
    + subst. destruct (dict_get (doc_collection_id d) _) as [c0|] eqn:E; simpl; [|done]. intros [= <-].
      cbn. rewrite String.eqb_refl, (N _ c0 E).
      pose proof (rcount_pop (document_of (doc_collection_id d)) id d _ Ed) as Hp.
      unfold document_of in Hp at 3. rewrite String.eqb_refl in Hp.
      pose proof (rcount_nonneg (document_of (doc_collection_id d)) (dict_pop id (kb_documents k))). lia.
    + intros Hx. rewrite (proj2 (String.eqb_neq _ _)) by done. rewrite (N _ c Hx). lia.
Qed.

(** The documents that a deletion of a collection takes with it. *)
Lemma docs_of_collection id k x :
  kb_ok k →
  x ∈ doc_id <$> List.filter (document_of id) (dict_values (kb_documents k)) ↔
  ∃ d, dict_get x (kb_documents k) = Some d ∧ doc_collection_id d = id.
Proof.
  intros Hk. pose proof (ok_documents k Hk) as D. rewrite list_elem_of_fmap. split.
  - intros (d & -> & [Hd Hc%String.eqb_eq]%list_elem_of_In%List.filter_In). exists d. split; [|done].
    by apply keyed_value, list_elem_of_In.
  - intros (d & Hd & Hc). exists d. split; [symmetry; by eapply keyed_get|].
    apply list_elem_of_In, List.filter_In. split.
    + apply list_elem_of_In, list_elem_of_fmap. exists (x, d). split; [done|by apply dict_get_elem_of].
    + by apply String.eqb_eq.
Qed.

Lemma delete_collection_ok id k : kb_ok k → kb_ok (delete_collection id k).2.
Proof.
  intros Hk. pose proof Hk as [C D O N]. unfold delete_collection.
  destruct (dict_mem id _) eqn:Em; [|done].
  set (docs := doc_id <$> List.filter (document_of id) (dict_values (kb_documents k))).
  split; cbn [snd kb_collections kb_documents].
  - by apply keyed_pop.
  - by apply keyed_pop_all.
  - intros x d. rewrite get_pop_all by apply D. case_decide as E; [done|]. intros Hd.
    assert (doc_collection_id d ≠ id) as Hne.
    { intros Hc. apply E, docs_of_collection; [done|]. eauto. }
    unfold dict_mem. rewrite dict_get_pop_ne by done. by apply (O x).
  - intros x c Hx. destruct (decide (id = x)) as [->|Hne]; [by rewrite dict_get_pop_eq in Hx by apply C|].
    rewrite dict_get_pop_ne in Hx by done. rewrite (N _ _ Hx), !rcount_rview. f_equal. symmetry.
    apply rview_pop_all_other; [apply D|]. intros y d Hy Hd. apply docs_of_collection in Hy as (d' & Hd' & <-); [|done].
    simplify_eq. by apply String.eqb_neq.
Qed.

(** One step through the body of a method. *)
Ltac kb_step :=
  match goal with
  | |- se_inv _ (se_get ≫= _) => apply ok_get; intros ?
  | |- se_inv _ (_ ≫= _) => apply se_inv_bind; [|intros ?]
  | |- se_inv _ (when_some _ _) => apply ok_when_some; intros ?
  | |- se_inv _ (se_lift _) => apply se_inv_lift
  | |- se_inv _ (mret _) => apply se_inv_ret
  | |- se_inv _ (assign_collection _ _) => by apply ok_assign_collection
  | |- se_inv _ (assign_document _ _) => by apply ok_assign_document
  | |- se_inv _ (repo (update_collection _ _)) => apply ok_update_collection
  | |- se_inv _ (repo (update_document _ _)) => apply ok_update_document
  | |- se_inv _ (match ?o with _ => _ end) => destruct o
  end.
Ltac kb_steps := repeat kb_step.

Lemma update_services_ok now id :
  (∀ n d s m t, se_inv kb_ok (service_update_collection now id n d s m t)) ∧
  (∀ n c o s m t, se_inv kb_ok (service_update_document now id n c o s m t)) ∧
  (∀ t, se_inv kb_ok (service_add_document_tags now id t)) ∧
  (∀ t, se_inv kb_ok (service_remove_document_tags now id t)) ∧
  (∀ t, se_inv kb_ok (service_add_collection_tags now id t)) ∧
  (∀ t, se_inv kb_ok (service_remove_collection_tags now id t)).
Proof.
  split_and!; intros.
  - unfold service_update_collection. kb_steps.
  - unfold service_update_document. kb_steps.
  - unfold service_add_document_tags. kb_steps.
  - unfold service_remove_document_tags. kb_steps.
  - unfold service_add_collection_tags. kb_steps.
  - unfold service_remove_collection_tags. kb_steps.
Qed.

Lemma kb_step_ok k k' : kb_step k k' → kb_ok k → kb_ok k'.
Proof.
  intros Hs Hk. destruct Hs; try (by apply update_services_ok).
  - unfold service_create_collection, mbind, SE_bind, se_lift.
    destruct (validate_collection_name n) as [n'|]; [|done].
    destruct (validate_tags t) as [t'|]; [|done].
    destruct (metadata_list (default [] m)) as [m'|]; [|done].
    unfold repo. by apply create_collection_ok.
  - by apply delete_collection_ok.
  - unfold service_create_document, mbind, SE_bind, se_get, se_lift, get_collection.
    destruct (dict_get col (kb_collections k)) as [c|] eqn:Ec; [|done].
    destruct (validate_document_title title) as [t'|]; [|done].
    destruct (validate_tags t) as [t''|]; [|done].
    destruct (metadata_list (default [] m)) as [m'|]; [|done].
    unfold repo. apply create_document_ok; [done| |done]. unfold dict_mem. cbn. by rewrite Ec.
  - by apply create_collection_ok.
  - by apply create_document_ok.
  - by apply delete_document_ok.
  - apply ok_modify_document; [done|done|]. by apply ok_with_chunks.
  - by apply ok_with_chunks.
  - by apply ok_with_embeddings.
  - by apply ok_with_embeddings.
Qed.

Lemma kb_reachable_ok k1 k2 : rtc kb_step k1 k2 → kb_ok k1 → kb_ok k2.
Proof. induction 1 as [|k1 k2 k3 Hs _ IH]; [done|]. intros Hk. by eapply IH, kb_step_ok. Qed.

Lemma new_kb_ok : kb_ok new_kb.
Proof. split; [apply keyed_nil|apply keyed_nil|done|done]. Qed.

(** * Properties *)


Lemma drop_all_chunks docs (cs : dict string KnowledgeChunk) p :
  p ∈ foldl (λ cs d, drop_chunks d cs) cs docs ↔ p ∈ cs ∧ kc_document_id p.2 ∉ docs.
Proof.
  revert cs. induction docs as [|d docs IH]; intros cs; simpl; [set_solver|].
  rewrite IH, not_elem_of_cons. unfold drop_chunks, chunk_of.
  rewrite list_elem_of_In, List.filter_In, <- list_elem_of_In, negb_true_iff, String.eqb_neq. tauto.
Qed.

(** Deleting a collection deletes it with its documents and with their chunks,
    and keeps every document of another collection. *)
Theorem delete_collection_cascades (k : KB) (id : string)
    (Hk : kb_ok k) (Hc : dict_mem id (kb_collections k) = true) :
  let k' := (delete_collection id k).2 in
  get_collection id k' = None ∧
  (∀ x, get_document x k' =
        match get_document x k with
        | Some d => if decide (doc_collection_id d = id) then None else Some d
        | None => None
        end) ∧
  (∀ p, p ∈ kb_chunks k' ↔
        p ∈ kb_chunks k ∧
        ∀ d, get_document (kc_document_id p.2) k = Some d → doc_collection_id d ≠ id).
Proof.
  intros k'. unfold k', delete_collection, get_collection, get_document. rewrite Hc.
  cbn [snd kb_collections kb_documents kb_chunks].
  split; [by apply dict_get_pop_eq, ok_collections|]. split.
  - intros x. rewrite get_pop_all by apply (ok_documents _ Hk).
    destruct (decide (x ∈ _)) as [Hx|Hx]; rewrite docs_of_collection in Hx by done.
    + destruct Hx as (d & -> & Hd). by rewrite decide_True.
    + destruct (dict_get x (kb_documents k)) as [d|] eqn:Ed; [|done].
      rewrite decide_False; [done|]. intros Hd. apply Hx. eauto.
  - intros p. rewrite drop_all_chunks, docs_of_collection by done. naive_solver.
Qed.

(** What the assignments of an update leave alone. *)
Definition tracks (id : string) (v n : Z) (k : KB) : Prop :=
  ∃ c, get_collection id k = Some c ∧ col_version c = v ∧ col_document_count c = n.

Lemma tracks_assign id v n f :
  (∀ c, col_version (f c) = col_version c) → (∀ c, col_document_count (f c) = col_document_count c) →
  se_inv (tracks id v n) (assign_collection id f).
Proof.
  intros Hv Hn k (c & Hc & <- & <-). exists (f c). unfold get_collection in *. cbn.
  rewrite get_modify, decide_True, Hc by done. by rewrite Hv, Hn.
Qed.

Lemma tracks_when_some {A B} id v n (o : option A) (r : A → result KnowledgeError B) f :
  (∀ b c, col_version (f b c) = col_version c) →
  (∀ b c, col_document_count (f b c) = col_document_count c) →
  se_inv (tracks id v n) (when_some o (λ a, se_lift (r a) ≫= λ b, assign_collection id (f b))).
Proof.
  intros Hv Hn. destruct o as [a|]; [|apply se_inv_ret].
  apply se_inv_bind; [apply se_inv_lift|]. intros b. apply tracks_assign; auto.
Qed.

Lemma tracks_step {A B} id v n (m : SE KnowledgeError KB A) (f : A → SE KnowledgeError KB B) k b k' :
  se_inv (tracks id v n) m → tracks id v n k → (m ≫= f) k = (Ok b, k') →
  ∃ a k1, tracks id v n k1 ∧ f a k1 = (Ok b, k').
Proof.
  intros Hm Hk (a & k1 & H1 & H2)%se_bind_inv. exists a, k1. split; [|done].
  specialize (Hm k Hk). by rewrite H1 in Hm.
Qed.

(** An update of a collection that succeeds raises its version by one, keeps its
    counter, and returns the object that is stored. *)
Theorem update_collection_version (k k' : KB) (now : float) (id : string)
    (name description status : option string) (metadata : option (list (dict string string)))
    (tags : option (list string)) (c' : KnowledgeCollection)
    (H : service_update_collection now id name description status metadata tags k = (Ok (Some c'), k')) :
  ∃ c, get_collection id k = Some c ∧ get_collection id k' = Some c' ∧
    col_version c' = col_version c + 1 ∧ col_document_count c' = col_document_count c ∧
    col_updated_at c' = now.
Proof.
  unfold service_update_collection in H. apply se_bind_inv in H as (k0 & k1 & [= <- <-] & H).
  destruct (get_collection id k) as [c|] eqn:Ec; [|done]. exists c. split; [done|].
  assert (tracks id (col_version c) (col_document_count c) k) as Hk by (exists c; eauto).
  revert Hk H. generalize (col_version c) as v, (col_document_count c) as n. intros v n Hk H.
  apply (tracks_step id v n) in H as (? & k1 & Hk1 & H); [|by apply tracks_when_some|done].
  apply (tracks_step id v n) in H as (? & k2 & Hk2 & H);
    [|destruct description; [by apply tracks_assign|apply se_inv_ret]|done].
  apply (tracks_step id v n) in H as (? & k3 & Hk3 & H); [|by apply tracks_when_some|done].
  apply (tracks_step id v n) in H as (? & k4 & Hk4 & H); [|by apply tracks_when_some|done].
  apply (tracks_step id v n) in H as (? & k5 & Hk5 & H); [|by apply tracks_when_some|done].
  destruct Hk5 as (c5 & Hc5 & <- & <-). unfold repo, update_collection in H. rewrite Hc5 in H.
  simplify_eq. split; [|done]. unfold get_collection. cbn. by rewrite dict_get_set_eq.
Qed.

(** An update that raises because of its tags has already changed the name, and
    has left the version: an error is not a rollback. *)
Theorem update_collection_not_atomic (k : KB) (now : float) (id name n : string)
    (tags : list string) (e : KnowledgeError) (c : KnowledgeCollection)
    (Hc : get_collection id k = Some c)
    (Hn : validate_collection_name name = Ok n) (Ht : validate_tags (Some tags) = Err e) :
  ∃ k', service_update_collection now id (Some name) None None None (Some tags) k = (Err e, k') ∧
    get_collection id k' = Some (set_name n c).
Proof.
  exists (with_collections (modify id (set_name n)) k).
  unfold service_update_collection, mbind, SE_bind, se_get. rewrite Hc. cbn [when_some].
  unfold mbind, SE_bind, se_lift. rewrite Hn. cbn -[validate_tags]. rewrite Ht. split; [done|].
  unfold get_collection in *. cbn. by rewrite get_modify, decide_True, Hc.
Qed.

(** The chunks of a document are listed in the order of their numbers. *)
Theorem list_chunks_sorted (k : KB) (id : string) :
  StronglySorted (λ a b, kc_chunk_index a <= kc_chunk_index b) (list_chunks id k) ∧
  list_chunks id k ≡ₚ List.filter (chunk_of id) (dict_values (kb_chunks k)).
Proof.
  split; [|apply py_sorted_perm]. unfold list_chunks.
  apply py_sorted_key; intros a b; [intros H%Z.ltb_lt|intros H%Z.ltb_ge]; lia.
Qed.

(** ** Examples *)

Definition demo_history : SE KnowledgeError KB (KnowledgeCollection * KnowledgeDocument) :=
  service_create_collection "c1" fone " Papers " "" None (Some ["ml"; " "]) ≫= λ c,
  service_create_document "d1" fone "c1" "Fox" fox "" None None ≫= λ d,
  mret (c, d).

Definition demo_kb : KB := (demo_history new_kb).2.

Definition demo_chunk (uid : string) (i : Z) : KnowledgeChunk :=
  MkKnowledgeChunk uid "d1" "c1" (code_points "fox") i 0 3 1 3 [] fzero.

Definition chunked_kb : KB :=
  (create_chunk "x2" fone (demo_chunk "" 1) (create_chunk "x1" fone (demo_chunk "" 0) demo_kb).2).2.

(** Deleting the chunks of a document leaves its counter of chunks. *)
Example delete_chunks_keeps_count :
  let k := delete_chunks_by_document "d1" chunked_kb in
  zlen (list_chunks "d1" k) = 0 ∧ option_map doc_chunk_count (get_document "d1" k) = Some 2.
Proof. by vm_compute. Qed.

(** A tag that is given twice is added twice. *)
Example add_tags_repeats : add_tags ["a"] ["b"; "b"; "a"] = ["a"; "b"; "b"].
Proof. by vm_compute. Qed.

Lemma demo_kb_reachable : rtc kb_step new_kb demo_kb.
Proof.
  eapply rtc_l; [apply (step_create_collection "c1" fone " Papers " "" None (Some ["ml"; " "])); done|].
  eapply rtc_l; [|apply rtc_refl].
  apply (step_create_document "d1" fone "c1" "Fox" fox "" None None). by vm_compute.
Defined.

(** A document that is created again under its identifier is counted again. *)
Example created_again_counts_twice :
  match get_document "d1" demo_kb with
  | Some d =>
      let k := (create_document "u" fone d demo_kb).2 in
      zlen (kb_documents k) = 1 ∧ (col_document_count <$> get_collection "c1" k) = Some 2
  | None => False
  end.
Proof. by vm_compute. Qed.


Lemma chunked_ok : kb_ok chunked_kb.
Proof.
  assert (kb_ok demo_kb) as Hd by (apply (kb_reachable_ok _ _ demo_kb_reachable), new_kb_ok).
  eapply kb_step_ok; [apply (step_create_chunk "x2" fone (demo_chunk "" 1))|].
  eapply kb_step_ok; [apply (step_create_chunk "x1" fone (demo_chunk "" 0))|done].
Qed.

Lemma delete_collection_cascades_witness :
  get_collection "c1" (delete_collection "c1" chunked_kb).2 = None.
Proof.
  apply (delete_collection_cascades chunked_kb "c1"); [apply chunked_ok|by vm_compute].
Defined.

Lemma update_collection_version_witness :
  ∃ c, get_collection "c1" demo_kb = Some c ∧ col_version c = 1.
Proof.
  destruct (service_update_collection fone "c1" (Some "Books") None (Some "archived") None None demo_kb)
    as [[[c'|]|e] k'] eqn:E; [|by vm_compute in E..].
  destruct (update_collection_version _ _ _ _ _ _ _ _ _ _ E) as (c & Hc & _ & Hv & _).
  exists c. split; [done|]. vm_compute in Hc. injection Hc as <-. done.
Defined.

Lemma update_collection_not_atomic_witness :
  ∃ k', service_update_collection fone "c1" (Some "Books") None None None
          (Some ["123456789012345678901234567890123456789012345678901"]) demo_kb
        = (Err (TagTooLong "123456789012345678901234567890123456789012345678901"), k') ∧
    option_map col_name (get_collection "c1" k') = Some "Books".
Proof.
  destruct (update_collection_not_atomic demo_kb fone "c1" "Books" "Books"
    ["123456789012345678901234567890123456789012345678901"]
    (TagTooLong "123456789012345678901234567890123456789012345678901")
    (MkCollection "c1" "Papers" "" ACTIVE [] ["ml"] 1 1 fone fone)
    eq_refl eq_refl eq_refl) as (k' & H & Hk). exists k'. split; [exact H|]. by rewrite Hk.
Defined.
