(* ===== verification/VectorStore.v ===== *)
(** * The vector store

    [src/app/knowledge/vector_store/]: the in-memory store of vectors in named
    collections and namespaces ([providers/memory.py]), its validation and its
    statistics.  The collections and the vectors are two [dict]s that the
    operations are meant to keep together; a method that raises keeps what it
    has changed.  Names are ASCII texts; the clock and the identifiers drawn by
    [uuid4] are arguments. *)

From Stdlib Require Import ZArith Lia.
From Stdlib Require Import Ascii Sorted.
From stdpp Require Import base numbers strings gmap list.
From S2P Require Import Prelude PyFloat PyNum PyStr PyDict PyMath PyVal Bm25 Fusion Search.


Open Scope string_scope.
Open Scope Z_scope.

Inductive VectorStoreError :=
  | CollectionNotFoundError (name : string)
  | CollectionAlreadyExistsError (name : string)
  | VectorDimensionError (expected got : Z)
  | InvalidNamespaceError (message : string)
  | ArithmeticError (e : PyErr).

Inductive DistanceMetric := COSINE | EUCLIDEAN | DOT_PRODUCT.

Record VectorCollection := MkVCollection {
  vc_name : string;
  vc_dimensions : Z;
  vc_distance : DistanceMetric;
  vc_namespace : string;
  vc_metadata : metadata;
  vc_vector_count : Z;
  vc_created_at : float
}.

Record VectorRecord := MkVRecord {
  vr_id : string;
  vr_vector : list float;
  vr_metadata : metadata;
  vr_namespace : string
}.

Record VSearchResult := MkVResult {
  sr_id : string;
  sr_score : float;
  sr_vector : option (list float);
  sr_metadata : metadata;
  sr_namespace : string
}.

(** ** Validation *)

Definition is_name_char (a : ascii) : bool := is_word a || bool_decide (a = "-"%char).

Fixpoint all_name_chars (p : ascii → bool) (s : string) : bool :=
  match s with EmptyString => true | String a s' => p a && all_name_chars p s' end.

Definition validate_vcollection_name (name : string) : result VectorStoreError string :=
  let name := strip name in
  if negb (truthy name) then Err (InvalidNamespaceError "Collection name cannot be empty")
  else if negb (all_name_chars is_name_char name) then
    Err (InvalidNamespaceError "Collection name must be alphanumeric with dashes/underscores")
  else Ok name.

Definition validate_namespace (namespace : string) : result VectorStoreError string :=
  let namespace := strip namespace in
  if negb (truthy namespace) then Err (InvalidNamespaceError "Namespace cannot be empty")
  else Ok namespace.

Definition validate_vector (dimensions : Z) (v : list float) : result VectorStoreError (list float) :=
  match v with
  | [] => Err (InvalidNamespaceError "Vector cannot be empty")
  | _ => if negb (zlen v =? dimensions) then Err (VectorDimensionError dimensions (zlen v)) else Ok v
  end.

Definition check_collection_exists (name : string) (exists_ : bool) : result VectorStoreError unit :=
  if negb exists_ then Err (CollectionNotFoundError name) else Ok tt.

(** ** Statistics *)

Record VectorStoreStatistics := MkVStats {
  vs_total_vectors : Z;
  vs_total_collections : Z;
  vs_search_times : list float;
  vs_batch_sizes : list Z
}.

Definition new_vstats : VectorStoreStatistics := MkVStats 0 0 [] [].

Definition record_search (latency : float) (s : VectorStoreStatistics) : VectorStoreStatistics :=
  MkVStats (vs_total_vectors s) (vs_total_collections s) (vs_search_times s ++ [latency])%list (vs_batch_sizes s).
Definition record_upsert (count : Z) (s : VectorStoreStatistics) : VectorStoreStatistics :=
  MkVStats (vs_total_vectors s + count) (vs_total_collections s) (vs_search_times s)
    (if 1 <? count then vs_batch_sizes s ++ [count] else vs_batch_sizes s)%list.
Definition record_vdelete (count : Z) (s : VectorStoreStatistics) : VectorStoreStatistics :=
  MkVStats (Z.max 0 (vs_total_vectors s - count)) (vs_total_collections s) (vs_search_times s) (vs_batch_sizes s).
Definition set_collections (count : Z) (s : VectorStoreStatistics) : VectorStoreStatistics :=
  MkVStats (vs_total_vectors s) count (vs_search_times s) (vs_batch_sizes s).

Record VectorStoreStats := MkVSnapshot {
  st_total_collections : Z;
  st_total_vectors : Z;
  st_average_search_latency : float;
  st_batch_throughput : float;
  st_provider : string;
  st_dimensions : Z
}.

(** [snapshot], whose provider and dimensions the store overwrites. *)
Definition snapshot_of (s : VectorStoreStatistics) (collections vectors dims : Z) : VectorStoreStats :=
  let avg_latency :=
    match vs_search_times s with
    | [] => fzero | ts => fdiv (py_sum ts) (float_of_Z (zlen ts)) end in
  let batch_throughput :=
    match vs_batch_sizes s with
    | [] => fzero | bs => int_ratio (foldl Z.add 0 bs) (zlen bs) end in
  MkVSnapshot collections vectors (py_round avg_latency 6) (py_round batch_throughput 2) "memory" dims.

(** ** The store *)

Abbreviation namespaces := (dict string (list VectorRecord)) (only parsing).

Record InMemoryVectorStore := MkVStore {
  vs_dimensions : Z;
  vs_distance : DistanceMetric;
  vs_stats : VectorStoreStatistics;
  vs_collections : dict string VectorCollection;
  vs_vectors : dict string namespaces
}.

Definition default_collection : string := "default".

Definition new_store (dimensions : Z) (distance : DistanceMetric) : InMemoryVectorStore :=
  MkVStore dimensions distance new_vstats [] [].

Definition with_stats f (s : InMemoryVectorStore) : InMemoryVectorStore :=
  MkVStore (vs_dimensions s) (vs_distance s) (f (vs_stats s)) (vs_collections s) (vs_vectors s).
Definition with_vcollections f (s : InMemoryVectorStore) : InMemoryVectorStore :=
  MkVStore (vs_dimensions s) (vs_distance s) (vs_stats s) (f (vs_collections s)) (vs_vectors s).
Definition with_vectors f (s : InMemoryVectorStore) : InMemoryVectorStore :=
  MkVStore (vs_dimensions s) (vs_distance s) (vs_stats s) (vs_collections s) (f (vs_vectors s)).

Abbreviation V A := (SE VectorStoreError InMemoryVectorStore A) (only parsing).

Definition create_vcollection (now : float) (name : string) (dimensions : option Z)
    (distance : option DistanceMetric) (namespace : string) (meta : metadata) : V VectorCollection :=
  se_lift (validate_vcollection_name name) ≫= λ name, se_get ≫= λ s,
  if dict_mem name (vs_collections s) then se_raise (CollectionAlreadyExistsError name)
  else
    (* [dimensions or self._dimensions] *)
    let dims := match dimensions with
                | Some d => if d =? 0 then vs_dimensions s else d | None => vs_dimensions s end in
    let coll := MkVCollection name dims (default (vs_distance s) distance) namespace meta 0 now in
    se_modify (with_vcollections (dict_set name coll)) ≫= λ _,
    se_modify (with_vectors (dict_set name [])) ≫= λ _,
    se_modify (λ s, with_stats (set_collections (zlen (vs_collections s))) s) ≫= λ _,
    mret coll.

Definition delete_vcollection (name : string) : V bool :=
  se_get ≫= λ s,
  se_lift (check_collection_exists name (dict_mem name (vs_collections s))) ≫= λ _,
  se_modify (with_vcollections (dict_pop name)) ≫= λ _,
  se_modify (with_vectors (dict_pop name)) ≫= λ _,
  se_modify (λ s, with_stats (set_collections (zlen (vs_collections s))) s) ≫= λ _,
  mret true.

Definition list_vcollections (s : InMemoryVectorStore) : list VectorCollection := dict_values (vs_collections s).
Definition collection_exists (name : string) (s : InMemoryVectorStore) : bool := dict_mem name (vs_collections s).

Definition vc_rename (n : string) (c : VectorCollection) : VectorCollection :=
  MkVCollection n (vc_dimensions c) (vc_distance c) (vc_namespace c) (vc_metadata c) (vc_vector_count c)
    (vc_created_at c).
Definition vc_set_count (n : Z) (c : VectorCollection) : VectorCollection :=
  MkVCollection (vc_name c) (vc_dimensions c) (vc_distance c) (vc_namespace c) (vc_metadata c) n
    (vc_created_at c).

(** The collection is taken out before the new name is validated; it is stored
    under the name as given, the object holds the name without its blanks. *)
Definition rename_collection (old_name new_name : string) : V VectorCollection :=
  se_get ≫= λ s,
  se_lift (check_collection_exists old_name (dict_mem old_name (vs_collections s))) ≫= λ _,
  match dict_get old_name (vs_collections s) with
  | None => se_raise (CollectionNotFoundError old_name)
  | Some coll =>
      if String.eqb old_name new_name then mret coll
      else
        se_modify (with_vcollections (dict_pop old_name)) ≫= λ _,
        se_lift (validate_vcollection_name new_name) ≫= λ n,
        let coll := vc_rename n coll in
        se_modify (with_vcollections (dict_set new_name coll)) ≫= λ _,
        se_modify (with_vectors (λ vs, dict_set new_name (default [] (dict_get old_name vs))
                                         (dict_pop old_name vs))) ≫= λ _,
        mret coll
  end.

(** [records.remove(existing[0])] *)
Fixpoint remove_id (id : string) (rs : list VectorRecord) : list VectorRecord :=
  match rs with
  | [] => []
  | r :: rs' => if String.eqb (vr_id r) id then rs' else r :: remove_id id rs'
  end.

Definition put_record (r : VectorRecord) (rs : list VectorRecord) : list VectorRecord :=
  (remove_id (vr_id r) rs ++ [r])%list.

Definition total_in (m : namespaces) : Z := foldl Z.add 0 (zlen <$> dict_values m).

(** The namespaces of a collection: [setdefault] when it writes, [get] when it
    reads. *)
Definition ns_map (name : string) (s : InMemoryVectorStore) : namespaces :=
  default [] (dict_get name (vs_vectors s)).
Definition records_in (name ns : string) (s : InMemoryVectorStore) : list VectorRecord :=
  default [] (dict_get ns (ns_map name s)).

Definition set_records (name ns : string) (rs : list VectorRecord) (s : InMemoryVectorStore)
    : InMemoryVectorStore :=
  with_vectors (dict_set name (dict_set ns rs (ns_map name s))) s.

(** [coll.vector_count = sum(len(v) for v in self._vectors[coll_name].values())] *)
Definition recount (name : string) (s : InMemoryVectorStore) : InMemoryVectorStore :=
  match dict_get name (vs_collections s) with
  | Some c => with_vcollections (dict_set name (vc_set_count (total_in (ns_map name s)) c)) s
  | None => s
  end.

Definition upsert (uid : string) (now : float) (record : VectorRecord) : V VectorRecord :=
  let record := MkVRecord (str_or (vr_id record) uid) (vr_vector record) (vr_metadata record)
                  (vr_namespace record) in
  se_get ≫= λ s,
  se_lift (validate_vector (vs_dimensions s) (vr_vector record)) ≫= λ _,
  (if dict_mem default_collection (vs_collections s) then mret tt
   else create_vcollection now default_collection None None "default" [] ≫= λ _, mret tt) ≫= λ _,
  se_modify (λ s, with_vectors (dict_set default_collection (ns_map default_collection s)) s) ≫= λ _,
  se_lift (validate_namespace (vr_namespace record)) ≫= λ ns,
  se_modify (λ s, set_records default_collection ns
                    (put_record record (records_in default_collection ns s)) s) ≫= λ _,
  se_modify (recount default_collection) ≫= λ _,
  se_modify (with_stats (record_upsert 1)) ≫= λ _,
  mret record.

Fixpoint upsert_batch (uids : list string) (now : float) (records : list VectorRecord)
    : V (list VectorRecord) :=
  match records, uids with
  | r :: rs, uid :: uids' =>
      upsert uid now r ≫= λ r', upsert_batch uids' now rs ≫= λ rs', mret (r' :: rs')
  | _, _ => mret []
  end.

(** ** Search *)

(** One criterion: [r.metadata.get(key) == value]. *)
Definition meets (r : VectorRecord) (kv : string * pyval) : bool :=
  val_eq (meta_get kv.1 (vr_metadata r)) kv.2.

Definition apply_filter (records : list VectorRecord) (flt_ : metadata) : list VectorRecord :=
  foldl (λ result kv, List.filter (λ r, meets r kv) result) records flt_.

Section Similarity.
Context `{Math : !MathLib}.

Definition compute_similarity (d : DistanceMetric) (a b : list float) : result PyErr float :=
  match d with
  | COSINE =>
      let dot := dot_product a b in
      let na := fsqrt (dot_product a a) in
      let nb := fsqrt (dot_product b b) in
      if is_fzero na || is_fzero nb then Ok fzero
      else
        match fdivide dot (fmul na nb) with
        | Ok c => fdivide (fadd c fone) (float_of_Z 2)
        | Err e => Err e
        end
  | EUCLIDEAN =>
      match map_result (λ x, float_pow x (float_of_Z 2)) (zip_with fsub a b) with
      | Ok squares => fdivide fone (fadd fone (fsqrt (py_sum squares)))
      | Err e => Err e
      end
  | DOT_PRODUCT => Ok (dot_product a b)
  end.

Definition score_all (d : DistanceMetric) (query : list float) (records : list VectorRecord)
    : result PyErr (list (VectorRecord * float)) :=
  map_result (λ r, match compute_similarity d query (vr_vector r) with
                   | Ok s => Ok (r, s) | Err e => Err e end) records.

Definition above (threshold : option float) (scored : list (VectorRecord * float))
    : list (VectorRecord * float) :=
  match threshold with
  | Some t => List.filter (λ p, fle t p.2) scored
  | None => scored
  end.

Definition search_result (include_metadata include_vector : bool) (p : VectorRecord * float)
    : VSearchResult :=
  MkVResult (vr_id p.1) p.2 (if include_vector then Some (vr_vector p.1) else None)
    (if include_metadata then vr_metadata p.1 else []) (vr_namespace p.1).

Definition search_vectors (latency : float) (vector : list float) (top_k : Z) (score_threshold : option float)
    (collection namespace : string) (flt_ : metadata) (include_metadata include_vector : bool)
    : V (list VSearchResult) :=
  se_get ≫= λ s,
  se_lift (validate_vector (vs_dimensions s) vector) ≫= λ _,
  let coll_name := str_or collection default_collection in
  se_lift (check_collection_exists coll_name (dict_mem coll_name (vs_collections s))) ≫= λ _,
  let ns := str_or namespace "default" in
  let filtered := apply_filter (records_in coll_name ns s) flt_ in
  match score_all (vs_distance s) vector filtered with
  | Err e => se_raise (ArithmeticError e)
  | Ok scored =>
      let top := take_z top_k (above score_threshold (py_sorted by_score scored)) in
      se_modify (with_stats (record_search latency)) ≫= λ _,
      mret (search_result include_metadata include_vector <$> top)
  end.

End Similarity.

(** ** Deletion

    With identifiers and a filter, the filter is applied to what the
    identifiers have left, and what it finds is deleted: the rest, the records
    with the given identifiers among it, is kept. *)
Definition kept_records (ids : list string) (flt_ : metadata) (records : list VectorRecord) : list VectorRecord :=
  let rest := match ids with
              | [] => records
              | _ => List.filter (λ r, negb (bool_decide (vr_id r ∈ ids))) records
              end in
  match flt_ with
  | [] => rest
  | _ =>
      List.filter
        (λ r, negb (match ids with [] => true | _ => negb (bool_decide (vr_id r ∈ ids)) end
                    && forallb (meets r) flt_)) records
  end.

Definition delete (ids : list string) (flt_ : metadata) (collection namespace : string) : V Z :=
  let coll_name := str_or collection default_collection in
  se_get ≫= λ s,
  se_lift (check_collection_exists coll_name (dict_mem coll_name (vs_collections s))) ≫= λ _,
  let ns := str_or namespace "default" in
  let records := records_in coll_name ns s in
  let rest := kept_records ids flt_ records in
  let deleted := zlen records - zlen rest in
  se_modify (λ s, match dict_get coll_name (vs_vectors s) with
                  | Some _ => set_records coll_name ns rest s | None => s end) ≫= λ _,
  se_modify (with_stats (record_vdelete deleted)) ≫= λ _,
  mret deleted.

(** With an empty namespace the records of [default] are counted twice. *)
Definition clear_vectors (collection namespace : string) : V Z :=
  let coll_name := str_or collection default_collection in
  se_get ≫= λ s,
  let ns := str_or namespace "default" in
  let count := zlen (records_in coll_name ns s) in
  let whole := String.eqb ns "default" && negb (truthy namespace) in
  let count := if whole then count + total_in (ns_map coll_name s) else count in
  se_modify (λ s,
    if whole then with_vectors (dict_set coll_name []) s
    else match dict_get coll_name (vs_vectors s) with
         | Some _ => set_records coll_name ns [] s | None => s end) ≫= λ _,
  se_modify (with_stats (record_vdelete count)) ≫= λ _,
  mret count.

Definition statistics (s : InMemoryVectorStore) : VectorStoreStats :=
  snapshot_of (vs_stats s) (zlen (vs_collections s))
    (foldl Z.add 0 (total_in <$> dict_values (vs_vectors s))) (vs_dimensions s).

(** * The invariant *)

(** Within a namespace no identifier occurs twice and all vectors have the
    dimension of the store. *)
Definition records_ok (dims : Z) (rs : list VectorRecord) : Prop :=
  NoDup (vr_id <$> rs) ∧ Forall (λ r, zlen (vr_vector r) = dims) rs.

Record store_ok (s : InMemoryVectorStore) : Prop := {
  so_vectors : dict_wf (vs_vectors s);
  so_collections : dict_wf (vs_collections s);
  so_space : ∀ n, dict_mem n (vs_collections s) = true → dict_mem n (vs_vectors s) = true;
  so_records : ∀ n m ns rs, dict_get n (vs_vectors s) = Some m → dict_get ns m = Some rs →
    records_ok (vs_dimensions s) rs
}.

Inductive store_step : InMemoryVectorStore → InMemoryVectorStore → Prop :=
  | step_vcreate now n d m ns meta s : store_step s (create_vcollection now n d m ns meta s).2
  | step_vdelete_collection n s : store_step s (delete_vcollection n s).2
  | step_rename o n s : store_step s (rename_collection o n s).2
  | step_upsert uid now r s : store_step s (upsert uid now r s).2
  | step_vdelete ids f c ns s : store_step s (delete ids f c ns s).2
  | step_clear c ns s : store_step s (clear_vectors c ns s).2.

Lemma records_ok_nil dims : records_ok dims [].
Proof. split; constructor. Qed.

Lemma records_ok_filter dims (p : VectorRecord → bool) rs :
  records_ok dims rs → records_ok dims (List.filter p rs).
Proof.
  intros [Hn Hd]. unfold records_ok. induction rs as [|r rs IH]; [by split|]. cbn [List.filter].
  apply NoDup_cons in Hn as [Hr Hn]. apply Forall_cons in Hd as [Hv Hd].
  destruct (IH Hn Hd) as [Hn' Hd']. destruct (p r); [|by split]. split; [|by constructor].
  rewrite fmap_cons. apply NoDup_cons. split; [|done]. intros Hin. apply Hr.
  apply list_elem_of_fmap in Hin as (x & Hx & Hin). apply list_elem_of_In, List.filter_In in Hin as [Hin _].
  apply list_elem_of_fmap. exists x. split; [done|by apply list_elem_of_In].
Qed.

Lemma remove_id_spec id rs :
  NoDup (vr_id <$> rs) → remove_id id rs = List.filter (λ r, negb (String.eqb (vr_id r) id)) rs.
Proof.
  induction rs as [|r rs IH]; [done|]. rewrite fmap_cons. intros [Hr Hn]%NoDup_cons. simpl.
  destruct (String.eqb (vr_id r) id) eqn:E; simpl; [|by rewrite IH].
  apply String.eqb_eq in E. subst. clear IH Hn. induction rs as [|x rs IH]; [done|]. simpl.
  rewrite fmap_cons in Hr. apply not_elem_of_cons in Hr as [Hx Hr].
  rewrite (proj2 (String.eqb_neq _ _)) by done. simpl. by rewrite <- IH.
Qed.

Lemma records_ok_put dims r rs :
  zlen (vr_vector r) = dims → records_ok dims rs → records_ok dims (put_record r rs).
Proof.
  intros Hv Hrs. unfold put_record. rewrite remove_id_spec by apply Hrs.
  destruct (records_ok_filter dims (λ x, negb (String.eqb (vr_id x) (vr_id r))) rs Hrs) as [Hn Hd].
  split; [|apply Forall_app; split; [done|by constructor]].
  rewrite fmap_app. apply NoDup_app. split; [done|]. split; [|apply NoDup_singleton].
  intros id (x & -> & Hx)%list_elem_of_fmap Hr. apply list_elem_of_singleton in Hr.
  apply list_elem_of_In, List.filter_In in Hx as [_ Hx]. by rewrite Hr, String.eqb_refl in Hx.
Qed.

Lemma records_ok_kept dims ids f rs : records_ok dims rs → records_ok dims (kept_records ids f rs).
Proof.
  intros H. unfold kept_records. destruct f; [|by apply records_ok_filter].
  destruct ids; [done|by apply records_ok_filter].
Qed.

Lemma records_in_ok n ns s : store_ok s → records_ok (vs_dimensions s) (records_in n ns s).
Proof.
  intros [V C P R]. unfold records_in, ns_map. destruct (dict_get n (vs_vectors s)) as [m|] eqn:Em; [|apply records_ok_nil].
  simpl. destruct (dict_get ns m) as [rs|] eqn:Er; [by eapply R|apply records_ok_nil].
Qed.

Lemma ok_stats f s : store_ok s → store_ok (with_stats f s).
Proof. intros [V C P R]. by split. Qed.

Lemma ok_pop_collection n s : store_ok s → store_ok (with_vcollections (dict_pop n) s).
Proof.
  intros [V C P R]. split; cbn; [done|by apply dict_pop_wf| |done].
  intros n' H. apply P. unfold dict_mem in *. destruct (decide (n = n')) as [->|Hne].
  - by rewrite dict_get_pop_eq in H.
  - by rewrite dict_get_pop_ne in H.
Qed.

Lemma ok_set_records n ns rs s :
  records_ok (vs_dimensions s) rs → store_ok s → store_ok (set_records n ns rs s).
Proof.
  intros Hrs [V C P R]. split; cbn; [by apply dict_set_wf|done| |].
  - intros n' H. unfold dict_mem. rewrite dict_get_set. case_decide; [done|by apply P].
  - intros n' m ns' rs'. rewrite dict_get_set. case_decide as E; [|apply R]. intros [= <-].
    rewrite dict_get_set. case_decide; [by intros [= <-]|]. subst. unfold ns_map.
    destruct (dict_get n' (vs_vectors s)) as [m|] eqn:Em; [by apply (R n')|done].
Qed.

(** Writing the vectors of a collection anew from those that are there. *)
Lemma ok_set_vectors n (m : namespaces) s :
  (∀ ns rs, dict_get ns m = Some rs → records_ok (vs_dimensions s) rs) →
  store_ok s → store_ok (with_vectors (dict_set n m) s).
Proof.
  intros Hm [V C P R]. split; cbn; [by apply dict_set_wf|done| |].
  - intros n' H. unfold dict_mem. rewrite dict_get_set. case_decide; [done|by apply P].
  - intros n' m' ns rs. rewrite dict_get_set. case_decide; [intros [= <-]; apply Hm|apply R].
Qed.

Lemma ok_set_collection n c s :
  dict_mem n (vs_vectors s) = true → store_ok s → store_ok (with_vcollections (dict_set n c) s).
Proof.
  intros Hn [V C P R]. split; cbn; [done|by apply dict_set_wf| |done].
  intros n'. unfold dict_mem at 1. rewrite dict_get_set. case_decide; [by subst|apply P].
Qed.

Lemma ns_map_ok n s ns rs :
  store_ok s → dict_get ns (ns_map n s) = Some rs → records_ok (vs_dimensions s) rs.
Proof.
  intros Hs. unfold ns_map. destruct (dict_get n (vs_vectors s)) as [m|] eqn:Em; [|done].
  by apply (so_records s Hs n m).
Qed.

Lemma ok_recount n s : store_ok s → store_ok (recount n s).
Proof.
  intros Hs. unfold recount. destruct (dict_get n (vs_collections s)) as [c|] eqn:E; [|done].
  apply ok_set_collection; [|done]. apply (so_space s Hs). unfold dict_mem. by rewrite E.
Qed.

(** A new collection and its empty space, in either order of writing. *)
Lemma ok_new_space n c s :
  store_ok s → store_ok (with_vectors (dict_set n []) (with_vcollections (dict_set n c) s)).
Proof.
  intros Hs. change (store_ok (with_vcollections (dict_set n c) (with_vectors (dict_set n []) s))).
  apply ok_set_collection; [unfold dict_mem; cbn; by rewrite dict_get_set_eq|]. by apply ok_set_vectors.
Qed.

Lemma ok_create now n d m ns meta s : store_ok s → store_ok (create_vcollection now n d m ns meta s).2.
Proof.
  intros Hs. unfold create_vcollection, mbind, SE_bind, se_lift, se_get.
  destruct (validate_vcollection_name n) as [n'|]; [|done].
  destruct (dict_mem n' (vs_collections s)); [done|]. cbn [se_modify snd].
  apply ok_stats. by apply ok_new_space.
Qed.

Lemma ok_delete_collection n s : store_ok s → store_ok (delete_vcollection n s).2.
Proof.
  intros Hs. unfold delete_vcollection, mbind, SE_bind, se_lift, se_get, check_collection_exists.
  destruct (dict_mem n (vs_collections s)); [|done]. cbn [negb se_modify snd].
  apply ok_stats. destruct (ok_pop_collection n s Hs) as [V C P R]. split; cbn in *.
  - by apply dict_pop_wf.
  - done.
  - intros n' H. unfold dict_mem. destruct (decide (n = n')) as [->|Hne].
    + unfold dict_mem in H. by rewrite dict_get_pop_eq in H by apply Hs.
    + rewrite dict_get_pop_ne by done. by apply P.
  - intros n' m ns rs Hm. apply (R n'). destruct (decide (n = n')) as [->|Hne].
    + by rewrite dict_get_pop_eq in Hm.
    + by rewrite dict_get_pop_ne in Hm.
Qed.

Lemma ok_move o n c s :
  store_ok s →
  store_ok (with_vectors (λ vs, dict_set n (default [] (dict_get o vs)) (dict_pop o vs))
    (with_vcollections (dict_set n c) (with_vcollections (dict_pop o) s))).
Proof.
  intros Hs. pose proof Hs as [V C P R]. split; cbn.
  - by apply dict_set_wf, dict_pop_wf.
  - by apply dict_set_wf, dict_pop_wf.
  - intros n'. unfold dict_mem. rewrite !dict_get_set. case_decide; [done|]. intros Hin.
    destruct (decide (o = n')) as [->|Hne]; [by rewrite dict_get_pop_eq in Hin|].
    rewrite dict_get_pop_ne in Hin by done. rewrite dict_get_pop_ne by done. by apply P.
  - intros n' m ns rs. rewrite dict_get_set. case_decide as E.
    + intros [= <-]. by apply (ns_map_ok o).
    + intros Hm. apply (R n'). destruct (decide (o = n')) as [->|Hne]; [by rewrite dict_get_pop_eq in Hm|].
      by rewrite dict_get_pop_ne in Hm.
Qed.

Lemma ok_rename o n s : store_ok s → store_ok (rename_collection o n s).2.
Proof.
  intros Hs. unfold rename_collection, mbind, SE_bind, se_lift, se_get, check_collection_exists, dict_mem.
  destruct (dict_get o (vs_collections s)) as [c|] eqn:Ec; [|done]. cbn [negb].
  destruct (String.eqb o n); [done|]. cbn [se_modify].
  destruct (validate_vcollection_name n) as [n'|]; [|by apply ok_pop_collection].
  cbn [snd]. by apply ok_move.
Qed.

Lemma ok_upsert uid now r s : store_ok s → store_ok (upsert uid now r s).2.
Proof.
  intros Hs. unfold upsert, mbind, SE_bind, se_lift, se_get. cbn [vr_vector vr_namespace].
  destruct (validate_vector (vs_dimensions s) (vr_vector r)) as [v|] eqn:Ev; [|done].
  assert (zlen (vr_vector r) = vs_dimensions s) as Hv.
  { unfold validate_vector in Ev. destruct (vr_vector r); [done|].
    destruct (_ =? vs_dimensions s) eqn:E; [by apply Z.eqb_eq in E|done]. }
  assert (∀ s1, store_ok s1 → vs_dimensions s1 = vs_dimensions s →
    store_ok (match validate_namespace (vr_namespace r) with
      | Ok ns => with_stats (record_upsert 1) (recount default_collection
          (set_records default_collection ns
            (put_record (MkVRecord (str_or (vr_id r) uid) (vr_vector r) (vr_metadata r) (vr_namespace r))
              (records_in default_collection ns (with_vectors (dict_set default_collection
                 (ns_map default_collection s1)) s1)))
            (with_vectors (dict_set default_collection (ns_map default_collection s1)) s1)))
      | Err _ => with_vectors (dict_set default_collection (ns_map default_collection s1)) s1
      end)) as Hrest.
  { intros s1 Hs1 Hd.
    assert (store_ok (with_vectors (dict_set default_collection (ns_map default_collection s1)) s1)) as Hs2.
    { apply ok_set_vectors; [|done]. intros ns rs. by apply ns_map_ok. }
    destruct (validate_namespace (vr_namespace r)) as [ns|]; [|done].
    apply ok_stats, ok_recount, ok_set_records; [|done]. apply records_ok_put; [|by apply records_in_ok].
    cbn. by rewrite Hd. }
  destruct (dict_mem default_collection (vs_collections s)); cbn [mret SE_ret].
  - specialize (Hrest s Hs eq_refl). cbn [se_modify]. by destruct (validate_namespace (vr_namespace r)).
  - pose proof (ok_create now default_collection None None "default" [] s Hs) as Hc.
    assert (vs_dimensions (create_vcollection now default_collection None None "default" [] s).2
      = vs_dimensions s) as Hd.
    { unfold create_vcollection, mbind, SE_bind, se_lift, se_get.
      destruct (validate_vcollection_name default_collection) as [x|]; [|done].
      by destruct (dict_mem x (vs_collections s)). }
    destruct (create_vcollection now default_collection None None "default" [] s) as [[c|e] s1]; [|done].
    specialize (Hrest s1 Hc Hd). cbn [se_modify]. by destruct (validate_namespace (vr_namespace r)).
Qed.

Lemma ok_delete ids f c ns s : store_ok s → store_ok (delete ids f c ns s).2.
Proof.
  intros Hs. unfold delete, mbind, SE_bind, se_lift, se_get, check_collection_exists.
  destruct (dict_mem _ _); [|done]. cbn [negb se_modify snd]. apply ok_stats.
  destruct (dict_get _ (vs_vectors s)); [|done]. apply ok_set_records; [|done].
  by apply records_ok_kept, records_in_ok.
Qed.

Lemma ok_clear c ns s : store_ok s → store_ok (clear_vectors c ns s).2.
Proof.
  intros Hs. unfold clear_vectors, mbind, SE_bind, se_get. cbn [se_modify snd]. apply ok_stats.
  destruct (_ && _); [by apply ok_set_vectors|].
  destruct (dict_get _ (vs_vectors s)); [|done]. by apply ok_set_records; [apply records_ok_nil|].
Qed.

Lemma store_step_ok s s' : store_step s s' → store_ok s → store_ok s'.
Proof. destruct 1; eauto using ok_create, ok_delete_collection, ok_rename, ok_upsert, ok_delete, ok_clear. Qed.

Lemma new_store_ok d m : store_ok (new_store d m).
Proof. split; [constructor|constructor|done|done]. Qed.

(** * Properties *)

(** Whatever the history of the store, operations that raised included, every
    collection has its space of vectors, no identifier occurs twice in a
    namespace, and every vector has the dimension of the store. *)
Theorem vector_store_invariant (dims : Z) (d : DistanceMetric) (s : InMemoryVectorStore)
    (H : rtc store_step (new_store dims d) s) : store_ok s.
Proof.
  assert (∀ s1 s2, rtc store_step s1 s2 → store_ok s1 → store_ok s2) as Hr.
  { induction 1 as [|s1 s2 s3 Hs _ IH]; [done|]. intros Hk. by eapply IH, store_step_ok. }
  by apply (Hr _ _ H), new_store_ok.
Qed.

(** An insertion replaces the record with its identifier and leaves the others,
    in their order, in front of it. *)
Theorem upsert_replaces (s s' : InMemoryVectorStore) (uid : string) (now : float) (r r' : VectorRecord)
    (Hs : store_ok s) (Hd : dict_mem default_collection (vs_collections s) = true)
    (H : upsert uid now r s = (Ok r', s')) :
  let ns := strip (vr_namespace r) in
  vr_id r' = str_or (vr_id r) uid ∧
  records_in default_collection ns s' =
    (List.filter (λ x, negb (String.eqb (vr_id x) (vr_id r'))) (records_in default_collection ns s) ++ [r'])%list
  ∧ (∀ c n, (c, n) ≠ (default_collection, ns) → records_in c n s' = records_in c n s).
Proof.
  unfold upsert, mbind, SE_bind, se_lift, se_get in H. rewrite Hd in H. cbn [vr_vector vr_namespace] in H.
  destruct (validate_vector _ _) as [v|]; [|done]. cbn [mret SE_ret se_modify] in H.
  destruct (validate_namespace (vr_namespace r)) as [ns|] eqn:En; [|done].
  unfold validate_namespace in En. destruct (negb _); [done|]. injection En as <-.
  cbn [vr_id] in H. injection H as <- <-. cbn [vr_id].
  set (ns := strip (vr_namespace r)). set (s1 := with_vectors _ s).
  assert (∀ c n, records_in c n s1 = records_in c n s) as H1.
  { intros c n. unfold records_in, ns_map, s1. cbn. rewrite dict_get_set. case_decide; [by subst|done]. }
  assert (∀ f x c n, records_in c n (with_stats f (recount x s)) = records_in c n s) as Hrc.
  { intros f x c n. unfold recount. by destruct (dict_get x (vs_collections s)). }
  assert (∀ f x c n t, records_in c n (with_stats f (recount x t)) = records_in c n t) as Hst.
  { intros f x c n t. unfold recount. by destruct (dict_get x (vs_collections t)). }
  assert (∀ c n rs t x y, records_in x y (set_records c n rs t)
            = if decide (c = x ∧ n = y) then rs else records_in x y t) as Hset.
  { intros c n rs t x y. unfold records_in, ns_map, set_records. cbn. rewrite dict_get_set.
    destruct (decide (c = x)) as [->|Hc]; [|by rewrite decide_False by tauto]. cbn. rewrite dict_get_set.
    destruct (decide (n = y)) as [->|Hn]; [by rewrite decide_True|]. by rewrite decide_False by tauto. }
  split; [done|]. split.
  - rewrite Hst, Hset, decide_True by done. unfold put_record. cbn [vr_id]. rewrite H1.
    rewrite remove_id_spec; [done|]. by apply records_in_ok.
  - intros c n Hne. rewrite Hst, Hset, decide_False by (intros [<- <-]; done). apply H1.
Qed.

(** ** Search *)

Lemma apply_filter_spec f rs : apply_filter rs f = List.filter (λ r, forallb (meets r) f) rs.
Proof.
  unfold apply_filter. revert rs. induction f as [|kv f IH]; intros rs; simpl.
  - induction rs as [|r rs IHr]; simpl; [done|by f_equal].
  - rewrite IH. induction rs as [|r rs IHr]; simpl; [done|].
    destruct (meets r kv); simpl; [|done]. destruct (forallb (meets r) f); by rewrite IHr.
Qed.

Section SearchSpec.
Context `{Math : !MathLib}.

Lemma score_all_spec d q rs scored :
  score_all d q rs = Ok scored →
  scored.*1 = rs ∧ Forall (λ p, compute_similarity d q (vr_vector p.1) = Ok p.2) scored.
Proof.
  unfold score_all. revert scored. induction rs as [|r rs IH]; intros scored; simpl; [by intros [= <-]|].
  destruct (compute_similarity d q (vr_vector r)) as [x|] eqn:Ex; [|done].
  destruct (map_result _ rs) as [xs|] eqn:Em; [|done]. intros [= <-].
  destruct (IH xs eq_refl) as [Hf Hc]. csimpl. rewrite Hf. split; [done|by constructor].
Qed.

Lemma ranked_filter (p : VectorRecord * float → bool) l : ranked l → ranked (List.filter p l).
Proof.
  unfold ranked. induction 1 as [|x l Hl IH Hx]; simpl; [constructor|]. destruct (p x); [|done].
  constructor; [done|]. apply List.Forall_forall. intros y [Hy _]%List.filter_In.
  rewrite List.Forall_forall in Hx. by apply Hx.
Qed.

Lemma above_ranked t l : ranked l → ranked (above t l).
Proof. destruct t; [apply ranked_filter|done]. Qed.

Lemma elem_of_above t l p :
  p ∈ above t l ↔ p ∈ l ∧ match t with Some x => fle x p.2 = true | None => True end.
Proof.
  destruct t as [x|]; simpl; [|tauto].
  by rewrite list_elem_of_In, List.filter_In, <- list_elem_of_In.
Qed.
End SearchSpec.

(** (C35) A search that returns, with a [top_k] that is not negative and when no
    similarity is a NaN, gives at most [top_k] records of the namespace that meet
    the filter and reach the threshold, each with its similarity, the best first;
    and no such record that it leaves out is better than one that it returns. *)
Theorem search_top_k `{Math : !MathLib} (s s' : InMemoryVectorStore) (latency : float)
    (vector : list float) (top_k : Z) (threshold : option float) (collection namespace : string)
    (flt_ : metadata) (im iv : bool) (res : list VSearchResult)
    (Hk : 0 <= top_k)
    (Hnan : ∀ r x, r ∈ records_in (str_or collection default_collection) (str_or namespace "default") s →
      compute_similarity (vs_distance s) vector (vr_vector r) = Ok x → is_nan x = false)
    (H : search_vectors latency vector top_k threshold collection namespace flt_ im iv s = (Ok res, s')) :
  ∃ top rest,
    res = search_result im iv <$> top ∧
    zlen top <= top_k ∧ (zlen top < top_k → rest = []) ∧
    ranked (top ++ rest)%list ∧
    (∀ r x, (r, x) ∈ (top ++ rest)%list ↔
       r ∈ records_in (str_or collection default_collection) (str_or namespace "default") s ∧
       forallb (meets r) flt_ = true ∧
       compute_similarity (vs_distance s) vector (vr_vector r) = Ok x ∧
       match threshold with Some t => fle t x = true | None => True end).
Proof.
  unfold search_vectors, mbind, SE_bind, se_lift, se_get in H.
  destruct (validate_vector _ vector) as [v|]; [|done].
  destruct (check_collection_exists _ _) as [u|]; [|done].
  set (rs := records_in (str_or collection default_collection) (str_or namespace "default") s) in *.
  destruct (score_all (vs_distance s) vector (apply_filter rs flt_)) as [scored|e] eqn:Es; [|done].
  cbn [se_modify mret SE_ret] in H. injection H as <- _.
  destruct (score_all_spec _ _ _ _ Es) as [Hf Hc]. rewrite apply_filter_spec in Hf.
  set (l := above threshold (py_sorted by_score scored)).
  assert (take_z top_k l = take (Z.to_nat top_k) l) as Ht
    by (unfold take_z; by rewrite (proj2 (Z.leb_le _ _))).
  exists (take_z top_k l), (drop (Z.to_nat top_k) l). rewrite Ht, take_drop. split; [done|].
  assert (∀ r x, (r, x) ∈ scored ↔ r ∈ rs ∧ forallb (meets r) flt_ = true ∧
     compute_similarity (vs_distance s) vector (vr_vector r) = Ok x) as Hin.
  { intros r x. rewrite Forall_forall in Hc. split.
    - intros Hp. pose proof (Hc _ Hp) as Hx. assert (r ∈ scored.*1) as Hr
        by (apply list_elem_of_fmap; by exists (r, x)).
      rewrite Hf in Hr. apply list_elem_of_In, List.filter_In in Hr as [Hr Hm].
      split; [by apply list_elem_of_In|done].
    - intros (Hr & Hm & Hx). assert (r ∈ scored.*1) as Hp
        by (rewrite Hf; apply list_elem_of_In, List.filter_In; split; [by apply list_elem_of_In|done]).
      apply list_elem_of_fmap in Hp as ([r' x'] & -> & Hp). pose proof (Hc _ Hp) as Hx'. cbn [fst snd] in *.
      by assert (x' = x) as <- by congruence. }
  split; [unfold zlen; rewrite length_take; lia|]. split.
  { intros Hlt. apply drop_ge. unfold zlen in Hlt. rewrite length_take in Hlt. lia. }
  split.
  - apply above_ranked, sorted_ranked, Forall_forall. intros [r x] Hp. apply Hin in Hp as (Hr & _ & Hx).
    by apply (Hnan r).
  - intros r x. unfold l. rewrite elem_of_above, elem_of_py_sorted, Hin. simpl. tauto.
Qed.

(** ** Deletion *)

(** A deletion by identifiers alone, or by a filter alone, deletes what it
    describes and reports how many records that was. *)
Theorem delete_removes (s s' : InMemoryVectorStore) (ids : list string) (flt_ : metadata)
    (collection namespace : string) (n : Z)
    (Hs : store_ok s) (Ho : ids = [] ∨ flt_ = [])
    (H : delete ids flt_ collection namespace s = (Ok n, s')) :
  let rs := records_in (str_or collection default_collection) (str_or namespace "default") s in
  let rs' := records_in (str_or collection default_collection) (str_or namespace "default") s' in
  (∀ r, r ∈ rs' ↔ r ∈ rs ∧ vr_id r ∉ ids ∧ (flt_ = [] ∨ forallb (meets r) flt_ = false)) ∧
  n = zlen rs - zlen rs'.
Proof.
  unfold delete, mbind, SE_bind, se_lift, se_get, check_collection_exists in H.
  destruct (dict_mem _ _) eqn:Em; [|done]. cbn [negb se_modify mret SE_ret] in H. injection H as <- <-.
  apply (so_space s Hs) in Em. unfold dict_mem in Em.
  set (c := str_or collection default_collection) in *. set (ns := str_or namespace "default").
  destruct (dict_get c (vs_vectors s)) as [m|] eqn:Ec; [|done].
  assert (∀ x f, records_in c ns (with_stats f (set_records c ns x s)) = x) as ->.
  { intros x f. unfold records_in, ns_map. cbn. rewrite dict_get_set_eq. cbn. by rewrite dict_get_set_eq. }
  split; [|done]. intros r. unfold kept_records. destruct Ho as [-> | ->].
  - destruct flt_ as [|kv f]; [set_solver|]. rewrite list_elem_of_In, List.filter_In, <- list_elem_of_In.
    rewrite negb_true_iff. cbn [andb]. set_solver.
  - destruct ids as [|i ids]; [set_solver|]. rewrite list_elem_of_In, List.filter_In, <- list_elem_of_In.
    rewrite negb_true_iff, bool_decide_eq_false. naive_solver.
Qed.

(** With both, the records with the given identifiers are kept, and those that
    meet the filter and have another identifier are deleted. *)
Theorem delete_both_inverted (ids : list string) (flt_ : metadata) (rs : list VectorRecord)
    (Hi : ids ≠ []) (Hf : flt_ ≠ []) (r : VectorRecord) (Hr : r ∈ rs) :
  r ∈ kept_records ids flt_ rs ↔ vr_id r ∈ ids ∨ forallb (meets r) flt_ = false.
Proof.
  unfold kept_records. destruct flt_ as [|kv f]; [done|]. destruct ids as [|i ids]; [done|].
  rewrite list_elem_of_In, List.filter_In, <- list_elem_of_In, negb_true_iff, andb_false_iff.
  rewrite negb_false_iff, bool_decide_eq_true. tauto.
Qed.

(** ** Renaming *)

(** A rename to a name that the validator refuses raises and loses the
    collection; its vectors stay where they are. *)
Theorem rename_loses_collection (s : InMemoryVectorStore) (o n : string) (e : VectorStoreError)
    (Hs : store_ok s) (Ho : dict_mem o (vs_collections s) = true) (Hne : o ≠ n)
    (Hn : validate_vcollection_name n = Err e) :
  ∃ s', rename_collection o n s = (Err e, s') ∧ collection_exists o s' = false ∧
    (∀ ns, records_in o ns s' = records_in o ns s).
Proof.
  exists (with_vcollections (dict_pop o) s).
  unfold rename_collection, mbind, SE_bind, se_lift, se_get, check_collection_exists, collection_exists, dict_mem in *.
  destruct (dict_get o (vs_collections s)) as [c|] eqn:Ec; [|done]. cbn [negb].
  rewrite (proj2 (String.eqb_neq _ _)) by done. cbn [se_modify]. rewrite Hn. split; [done|]. split; [|done].
  cbn. by rewrite dict_get_pop_eq by apply Hs.
Qed.

(** A rename to the name of another collection replaces it: its vectors are lost. *)
Theorem rename_overwrites (s s' : InMemoryVectorStore) (o n : string) (c : VectorCollection)
    (Hs : store_ok s) (Hne : o ≠ n) (H : rename_collection o n s = (Ok c, s')) :
  (∀ ns, records_in n ns s' = records_in o ns s) ∧ (∀ ns, records_in o ns s' = []) ∧
  (∀ x ns, x ≠ o → x ≠ n → records_in x ns s' = records_in x ns s).
Proof.
  unfold rename_collection, mbind, SE_bind, se_lift, se_get, check_collection_exists, dict_mem in H.
  destruct (dict_get o (vs_collections s)) as [c0|] eqn:Ec; [|done]. cbn [negb] in H.
  rewrite (proj2 (String.eqb_neq _ _)) in H by done. cbn [se_modify] in H.
  destruct (validate_vcollection_name n) as [n'|]; [|done]. injection H as _ <-.
  unfold records_in, ns_map. cbn. split; [|split].
  - intros ns. by rewrite dict_get_set_eq.
  - intros ns. rewrite dict_get_set_ne by done. by rewrite dict_get_pop_eq by apply Hs.
  - intros x ns Ho Hn. rewrite dict_get_set_ne by done. by rewrite dict_get_pop_ne by done.
Qed.

Lemma upsert_batch_ok uids now rs s : store_ok s → store_ok (upsert_batch uids now rs s).2.
Proof.
  revert uids s. induction rs as [|r rs IH]; intros [|uid uids] s Hs; [done..|]. cbn [upsert_batch].
  unfold mbind, SE_bind. pose proof (store_step_ok _ _ (step_upsert uid now r s) Hs) as H1.
  destruct (upsert uid now r s) as [[r'|e] s1]; [|done]. pose proof (IH uids s1 H1) as H2.
  by destruct (upsert_batch uids now rs s1) as [[rs'|e] s2].
Qed.

(** ** Examples *)

Module Demo.

#[local] Instance math : MathLib :=
  {| math_log := λ x, Ok x; math_exp := λ x, Ok x; float_pow := λ x y, Ok (fmul x x);
     float_of_str := λ _, None |}.

Definition vec (a b : Z) : list float := [float_of_Z a; float_of_Z b].
Definition rec_a : VectorRecord := MkVRecord "a" (vec 1 0) [("kind", PStr "x")] "default".
Definition rec_b : VectorRecord := MkVRecord "b" (vec 1 1) [("kind", PStr "x")] "default".
Definition rec_c : VectorRecord := MkVRecord "c" (vec 0 1) [("kind", PStr "y")] "default".

Definition store0 : InMemoryVectorStore := new_store 2 DOT_PRODUCT.
Definition store1 : InMemoryVectorStore := (upsert_batch ["1"; "2"; "3"] fone [rec_a; rec_b; rec_c] store0).2.

Example search_two :
  fst (search_vectors fzero (vec 2 1) 2 None "" "" [] true false store1)
  = Ok [MkVResult "b" (float_of_Z 3) None [("kind", PStr "x")] "default";
        MkVResult "a" (float_of_Z 2) None [("kind", PStr "x")] "default"].
Proof. by vm_compute. Qed.

(** The deletion of the record [a] among those of kind [x] deletes [b]. *)
Example delete_a_deletes_b :
  vr_id <$> kept_records ["a"] [("kind", PStr "x")] [rec_a; rec_b; rec_c] = ["a"; "c"].
Proof. by vm_compute. Qed.

Lemma store1_ok : store_ok store1.
Proof. apply upsert_batch_ok, new_store_ok. Qed.

End Demo.

Lemma vector_store_invariant_witness :
  store_ok (upsert "1" fone Demo.rec_a Demo.store0).2 ∧
  zlen (records_in "default" "default" (upsert "1" fone Demo.rec_a Demo.store0).2) = 1.
Proof.
  split; [|by vm_compute]. apply (vector_store_invariant 2 DOT_PRODUCT).
  eapply rtc_l; [apply (step_upsert "1" fone Demo.rec_a)|apply rtc_refl].
Defined.

Lemma upsert_replaces_witness :
  ∃ s', (upsert "9" fone (MkVRecord "a" (Demo.vec 5 5) [] "default") Demo.store1).2 = s' ∧
    vr_id <$> records_in "default" "default" s' = ["b"; "c"; "a"].
Proof.
  destruct (upsert "9" fone (MkVRecord "a" (Demo.vec 5 5) [] "default") Demo.store1) as [[r'|e] s'] eqn:E;
    [|by vm_compute in E].
  destruct (upsert_replaces Demo.store1 s' _ _ _ r' Demo.store1_ok ltac:(by vm_compute) E) as (Hi & Hr & _).
  exists s'. split; [done|]. etrans; [exact (f_equal (fmap vr_id) Hr)|].
  vm_compute in E. injection E as <- <-. by vm_compute.
Defined.

Lemma search_top_k_witness :
  ∃ res s', @search_vectors Demo.math fzero (Demo.vec 2 1) 2 None "" "" [] true false Demo.store1 = (Ok res, s') ∧
    zlen res <= 2.
Proof.
  destruct (@search_vectors Demo.math fzero (Demo.vec 2 1) 2 None "" "" [] true false Demo.store1) as [[res|e] s'] eqn:E;
    [|by vm_compute in E].
  destruct (@search_top_k Demo.math Demo.store1 s' fzero (Demo.vec 2 1) 2 None "" "" [] true false res)
    as (top & rest & -> & Hl & _); [lia| |exact E|].
  - intros r x Hr Hx. change (r ∈ [Demo.rec_a; Demo.rec_b; Demo.rec_c]) in Hr.
    rewrite !elem_of_cons in Hr. destruct Hr as [-> |[-> |[-> |Hr]]]; [| | |by apply elem_of_nil in Hr];
      vm_compute in Hx; injection Hx as <-; by vm_compute.
  - eexists _, s'. split; [done|]. unfold zlen in *. by rewrite length_fmap.
Defined.

Lemma delete_removes_witness :
  ∃ s', delete ["a"] [] "" "" Demo.store1 = (Ok 1, s').
Proof.
  destruct (delete ["a"] [] "" "" Demo.store1) as [[n|e] s'] eqn:E; [|by vm_compute in E].
  destruct (delete_removes Demo.store1 s' ["a"] [] "" "" n Demo.store1_ok (or_intror eq_refl) E) as [_ Hn].
  exists s'. vm_compute in E. injection E as <- <-. done.
Defined.

Lemma delete_both_inverted_witness :
  Demo.rec_a ∈ kept_records ["a"] [("kind", PStr "x")] [Demo.rec_a; Demo.rec_b; Demo.rec_c].
Proof. apply delete_both_inverted; [done|done|left|by left; left]. Defined.

Lemma rename_loses_collection_witness :
  ∃ e s', rename_collection "default" "a b" Demo.store1 = (Err e, s') ∧ collection_exists "default" s' = false.
Proof.
  destruct (rename_loses_collection Demo.store1 "default" "a b"
    (InvalidNamespaceError "Collection name must be alphanumeric with dashes/underscores")
    Demo.store1_ok ltac:(by vm_compute) ltac:(done) ltac:(by vm_compute)) as (s' & H & Hc & _).
  eauto.
Defined.

Lemma rename_overwrites_witness :
  ∃ s', (rename_collection "default" "other" Demo.store1).2 = s' ∧
    vr_id <$> records_in "other" "default" s' = ["a"; "b"; "c"].
Proof.
  destruct (rename_collection "default" "other" Demo.store1) as [[c|e] s'] eqn:E; [|by vm_compute in E].
  destruct (rename_overwrites Demo.store1 s' "default" "other" c Demo.store1_ok ltac:(done) E) as (H & _).
  exists s'. split; [done|]. rewrite H. by vm_compute.
Defined.
