(* ===== verification/Embedding.v ===== *)
(** * Embeddings

    [src/app/knowledge/embedding/]: the validation of texts, the cache, the
    batches with their retries, the statistics and the service that puts them
    together.

    The provider is a protocol: its [n]-th call is an operation of a class that
    answers with embeddings, times out, or raises with a message.  The digest of
    a text and the readings of the clock are operations of classes too.  The
    pauses between the attempts are not modelled. *)

From Stdlib Require Import ZArith Lia.
From Stdlib Require Import Ascii.
From stdpp Require Import base numbers strings pretty countable gmap list.
From S2P Require Import Prelude PyFloat PyNum PyStr PyDict PyMath Chunking Knowledge.


Open Scope string_scope.
Open Scope Z_scope.

(** ** Validation *)

Inductive EmbeddingError :=
  | EmptyTextError
  | TextTooLongError (length_ max_length : Z)
  | EmptyTextList
  | InvalidResponseError
  | DimensionMismatchError (expected got : Z)
  | ZeroBatchSize
  | ProviderRaised (message : string)
  | EmbeddingFailed (embed_attempts : Z).

Definition MAX_TEXT_LENGTH : Z := 8192.

Definition validate_text (t : text) : result EmbeddingError text :=
  if bool_decide (t = []) || negb (Text.nonblank t) then Err EmptyTextError
  else if MAX_TEXT_LENGTH <? zlen t then Err (TextTooLongError (zlen t) MAX_TEXT_LENGTH)
  else Ok (Text.strip_text t).

Fixpoint validate_each (ts : list text) : result EmbeddingError (list text) :=
  match ts with
  | [] => Ok []
  | t :: ts' =>
      (try v <- validate_text t in try vs <- validate_each ts' in Ok (v :: vs))%py
  end.

Definition validate_texts (ts : list text) : result EmbeddingError (list text) :=
  match ts with [] => Err EmptyTextList | _ => validate_each ts end.

Definition validate_result (v : list float) (expected_dims : Z) : result EmbeddingError (list float) :=
  match v with
  | [] => Err InvalidResponseError
  | _ => if negb (zlen v =? expected_dims) then Err (DimensionMismatchError expected_dims (zlen v)) else Ok v
  end.

(** ** Data *)

Record EmbeddingResult := MkEmbeddingResult {
  er_vector : list float;
  er_model : string;
  er_provider : string;
  er_dimensions : Z;
  er_token_count : Z
}.

Record EmbeddingConfig := MkEmbeddingConfig {
  ec_provider : string;
  ec_model : string;
  ec_batch_size : Z;
  ec_max_retry : Z;
  ec_cache_enabled : bool;
  ec_cache_ttl : Z
}.

Definition default_embedding_config : EmbeddingConfig :=
  MkEmbeddingConfig "local" "text-embedding-3-small" 16 3 true 3600.

(** How a call of a provider ends. *)
Inductive EmbedOutcome := Embedded (rs : list EmbeddingResult) | TimedOut | Raised (message : string).

Class EmbeddingProvider := embed_call : nat → list text → EmbedOutcome.
Class TextDigest := sha256_text : text → string.
Class EmbedClock := clock : nat → float.

(** ** Statistics *)

Record EmbeddingStatistics := MkEStats {
  es_total_embeddings : Z;
  es_total_tokens : Z;
  es_total_latency : float;
  es_batch_count : Z;
  es_batch_sizes : list Z;
  es_provider_usage : dict string Z;
  es_errors : Z
}.

Definition new_estats : EmbeddingStatistics := MkEStats 0 0 fzero 0 [] [] 0.

Definition record_embedding (count tokens : Z) (latency : float) (provider : string) (batch_size : Z)
    (s : EmbeddingStatistics) : EmbeddingStatistics :=
  MkEStats (es_total_embeddings s + count) (es_total_tokens s + tokens) (fadd (es_total_latency s) latency)
    (es_batch_count s + 1) (es_batch_sizes s ++ [batch_size])%list
    (if truthy provider then
       dict_set provider (default 0 (dict_get provider (es_provider_usage s)) + count) (es_provider_usage s)
     else es_provider_usage s)
    (es_errors s).

Definition record_embedding_error (s : EmbeddingStatistics) : EmbeddingStatistics :=
  MkEStats (es_total_embeddings s) (es_total_tokens s) (es_total_latency s) (es_batch_count s)
    (es_batch_sizes s) (es_provider_usage s) (es_errors s + 1).

Record EmbeddingSnapshot := MkESnapshot {
  sn_total_embeddings : Z;
  sn_total_tokens : Z;
  sn_average_latency_ms : float;
  sn_total_latency_sec : float;
  sn_batch_count : Z;
  sn_average_batch_size : float;
  sn_provider_usage : dict string Z;
  sn_errors : Z
}.

Definition embedding_snapshot (s : EmbeddingStatistics) : EmbeddingSnapshot :=
  let avg_latency :=
    if 0 <? es_total_embeddings s
    then py_round (fdiv (es_total_latency s) (float_of_Z (es_total_embeddings s))) 4 else fzero in
  let avg_batch :=
    match es_batch_sizes s with
    | [] => fzero
    | bs => py_round (int_ratio (sum_z bs) (zlen bs)) 1
    end in
  MkESnapshot (es_total_embeddings s) (es_total_tokens s) (py_round (fmul avg_latency (float_of_Z 1000)) 2)
    (py_round (es_total_latency s) 3) (es_batch_count s) avg_batch (es_provider_usage s) (es_errors s).

(** ** State

    The cache, the statistics, and how often the provider has been called and
    the clock read. *)

Record EmbeddingState := MkEState {
  ebs_cache : dict string (list float * float);
  ebs_hits : Z;
  ebs_misses : Z;
  ebs_stats : EmbeddingStatistics;
  ebs_calls : nat;
  ebs_ticks : nat
}.

Definition new_estate : EmbeddingState := MkEState [] 0 0 new_estats 0 0.

Definition with_cache f (s : EmbeddingState) : EmbeddingState :=
  MkEState (f (ebs_cache s)) (ebs_hits s) (ebs_misses s) (ebs_stats s) (ebs_calls s) (ebs_ticks s).
Definition with_estats f (s : EmbeddingState) : EmbeddingState :=
  MkEState (ebs_cache s) (ebs_hits s) (ebs_misses s) (f (ebs_stats s)) (ebs_calls s) (ebs_ticks s).
Definition count_hit (s : EmbeddingState) : EmbeddingState :=
  MkEState (ebs_cache s) (ebs_hits s + 1) (ebs_misses s) (ebs_stats s) (ebs_calls s) (ebs_ticks s).
Definition count_miss (s : EmbeddingState) : EmbeddingState :=
  MkEState (ebs_cache s) (ebs_hits s) (ebs_misses s + 1) (ebs_stats s) (ebs_calls s) (ebs_ticks s).
Definition count_call (s : EmbeddingState) : EmbeddingState :=
  MkEState (ebs_cache s) (ebs_hits s) (ebs_misses s) (ebs_stats s) (S (ebs_calls s)) (ebs_ticks s).
Definition count_tick (s : EmbeddingState) : EmbeddingState :=
  MkEState (ebs_cache s) (ebs_hits s) (ebs_misses s) (ebs_stats s) (ebs_calls s) (S (ebs_ticks s)).

Abbreviation M A := (SE EmbeddingError EmbeddingState A) (only parsing).

Section Embedding.
Context {Provider : EmbeddingProvider} {Digest : TextDigest} {Time : EmbedClock}.

(** [time.time()] *)
Definition read_clock : M float :=
  λ s, (Ok (clock (ebs_ticks s)), count_tick s).

(** ** The cache *)

Definition embedding_key (model : string) (t : text) : string :=
  "emb:" +:+ model +:+ ":" +:+ sha256_text t.

Definition embedding_cache_get (key : string) : M (option (list float)) :=
  se_get ≫= λ s,
  match dict_get key (ebs_cache s) with
  | None => se_modify count_miss ≫= λ _, mret None
  | Some (vector, expires) =>
      read_clock ≫= λ now,
      if flt expires now then
        se_modify (with_cache (dict_pop key)) ≫= λ _, se_modify count_miss ≫= λ _, mret None
      else se_modify count_hit ≫= λ _, mret (Some vector)
  end.

Definition embedding_cache_set (ttl : Z) (key : string) (vector : list float) : M unit :=
  read_clock ≫= λ now,
  se_modify (with_cache (dict_set key (vector, fadd now (float_of_Z ttl)))).

Definition embedding_cache_clear (s : EmbeddingState) : EmbeddingState :=
  MkEState [] 0 0 (ebs_stats s) (ebs_calls s) (ebs_ticks s).

(** [(size, hits, misses, hit_rate)] *)
Definition cache_stats (s : EmbeddingState) : Z * Z * Z * float :=
  let total := ebs_hits s + ebs_misses s in
  (zlen (ebs_cache s), ebs_hits s, ebs_misses s,
   if 0 <? total then py_round (int_ratio (ebs_hits s) total) 4 else fzero).

(** ** Batches *)

(** [_is_retryable] on the message of an exception that is no timeout. *)
Definition retryable_embedding (message : string) : bool :=
  let msg := lower message in
  contains "rate limit" msg || contains "too many" msg || contains "timeout" msg
  || contains "timed out" msg || contains "service unavailable" msg || contains "503" msg.

(** [range(0, n, size)] for [size > 0]; it is empty for a negative size. *)
Definition batch_starts (n size : Z) : list Z :=
  if 0 <? size then (λ k, Z.of_nat k * size) <$> seq 0 (Z.to_nat ((n + size - 1) / size)) else [].

Definition make_batches (texts : list text) (size : Z) : result EmbeddingError (list (list text)) :=
  if size =? 0 then Err ZeroBatchSize
  else Ok ((λ i, py_slice i (i + size) texts) <$> batch_starts (zlen texts) size).

Definition mismatch_message (expected got : Z) : string :=
  "Expected " +:+ str_of_Z expected +:+ " results, got " +:+ str_of_Z got.

(** One attempt: the results, or [None] when there may be another attempt. *)
Definition attempt (texts : list text) : M (option (list EmbeddingResult)) :=
  se_get ≫= λ s,
  let outcome := embed_call (ebs_calls s) texts in
  se_modify count_call ≫= λ _,
  match outcome with
  | Embedded rs =>
      if zlen rs =? zlen texts then mret (Some rs)
      else
        let m := mismatch_message (zlen texts) (zlen rs) in
        if retryable_embedding m then mret None else se_raise (ProviderRaised m)
  | TimedOut => mret None
  | Raised m => if retryable_embedding m then mret None else se_raise (ProviderRaised m)
  end.

Fixpoint embed_attempts (n : nat) (max_retry : Z) (texts : list text) : M (list EmbeddingResult) :=
  match n with
  | O => se_raise (EmbeddingFailed (max_retry + 1))
  | S n' =>
      attempt texts ≫= λ r,
      match r with Some rs => mret rs | None => embed_attempts n' max_retry texts end
  end.

(** [_process_batch_with_retry] *)
Definition process_batch (max_retry : Z) (texts : list text) : M (list EmbeddingResult) :=
  embed_attempts (Z.to_nat (max_retry + 1)) max_retry texts.

Fixpoint process_batches (max_retry : Z) (batches : list (list text)) : M (list EmbeddingResult) :=
  match batches with
  | [] => mret []
  | b :: bs =>
      process_batch max_retry b ≫= λ rs,
      process_batches max_retry bs ≫= λ rest, mret (rs ++ rest)%list
  end.

(** [BatchProcessor.process] *)
Definition process_texts (cfg : EmbeddingConfig) (texts : list text) : M (list EmbeddingResult) :=
  match texts with
  | [] => mret []
  | _ =>
      se_lift (make_batches texts (ec_batch_size cfg)) ≫= λ batches,
      process_batches (ec_max_retry cfg) batches
  end.

(** ** The service *)

Definition cached_result (cfg : EmbeddingConfig) (v : list float) : EmbeddingResult :=
  MkEmbeddingResult v (ec_model cfg) (ec_provider cfg) (zlen v) 0.

(** The cached result of each text, in order, when the cache is on. *)
Fixpoint lookup_cached (cfg : EmbeddingConfig) (texts : list text) : M (list (option EmbeddingResult)) :=
  match texts with
  | [] => mret []
  | t :: ts =>
      (if ec_cache_enabled cfg then embedding_cache_get (embedding_key (ec_model cfg) t) else mret None) ≫= λ v,
      lookup_cached cfg ts ≫= λ rest, mret ((cached_result cfg <$> v) :: rest)
  end.

(** [uncached_indices], from the index [i] on. *)
Fixpoint missing (i : nat) (results : list (option EmbeddingResult)) : list nat :=
  match results with
  | [] => []
  | None :: rs => i :: missing (S i) rs
  | Some _ :: rs => missing (S i) rs
  end.

(** [for idx, result in zip(uncached_indices, batch_results)] *)
Fixpoint fill_missing (cfg : EmbeddingConfig) (texts : list text) (idx : list nat) (found : list EmbeddingResult)
    (results : list (option EmbeddingResult)) : M (list (option EmbeddingResult)) :=
  match idx, found with
  | i :: idx', r :: rs =>
      (if ec_cache_enabled cfg
       then embedding_cache_set (ec_cache_ttl cfg) (embedding_key (ec_model cfg) (default [] (texts !! i))) (er_vector r)
       else mret tt) ≫= λ _,
      fill_missing cfg texts idx' rs (<[i := Some r]> results)
  | _, _ => mret results
  end.

(** [try: ... except Exception: self._stats.record_error(); raise] *)
Definition counting_errors {A} (m : M A) : M A := λ s,
  match m s with
  | (Ok a, s') => (Ok a, s')
  | (Err e, s') => (Err e, with_estats record_embedding_error s')
  end.

(** [_embed_batch] *)
Definition embed_batch (cfg : EmbeddingConfig) (texts : list text) : M (list EmbeddingResult) :=
  read_clock ≫= λ start,
  lookup_cached cfg texts ≫= λ results,
  let idx := missing 0 results in
  let uncached := (λ i, default [] (texts !! i)) <$> idx in
  (match uncached with
   | [] => mret results
   | _ => counting_errors (process_texts cfg uncached ≫= λ found, fill_missing cfg texts idx found results)
   end) ≫= λ results,
  read_clock ≫= λ now,
  let final_results := omap id results in
  se_modify (with_estats (record_embedding (zlen final_results) 0 (fsub now start) (ec_provider cfg)
                            (zlen texts))) ≫= λ _,
  mret final_results.

Definition embed_texts (cfg : EmbeddingConfig) (texts : list text) : M (list EmbeddingResult) :=
  se_lift (validate_texts texts) ≫= λ validated, embed_batch cfg validated.

(** [results[0]] *)
Definition embed_text (cfg : EmbeddingConfig) (t : text) : M (option EmbeddingResult) :=
  se_lift (validate_text t) ≫= λ validated, embed_batch cfg [validated] ≫= λ rs, mret (head rs).

(** The records of the chunks; [uids] are the identifiers that [uuid4] draws. *)
Definition embedding_record (now : float) (cr : KnowledgeChunk * (EmbeddingResult * string)) : EmbeddingRecord :=
  let '(c, (r, uid)) := cr in
  MkEmbedding uid (kc_document_id c) (kc_id c) (er_model r) (er_provider r) (er_dimensions r) (er_vector r)
    (er_token_count r) now.

Definition embed_chunks (cfg : EmbeddingConfig) (uids : list string) (chunks : list KnowledgeChunk)
    : M (list EmbeddingRecord) :=
  se_lift (validate_texts (kc_content <$> chunks)) ≫= λ validated,
  embed_batch cfg validated ≫= λ results,
  read_clock ≫= λ now,
  mret (embedding_record now <$> zip chunks (zip results uids)).

End Embedding.

(** * Batches *)

Lemma py_slice_glue (a b : Z) (l : list text) :
  0 <= a <= b → (py_slice a b l ++ drop (Z.to_nat b) l)%list = drop (Z.to_nat a) l.
Proof.
  intros H. rewrite py_slice_nonneg by lia.
  replace (drop (Z.to_nat b) l) with (drop (Z.to_nat b - Z.to_nat a) (drop (Z.to_nat a) l))
    by (rewrite drop_drop; f_equal; lia).
  replace (drop (Z.to_nat a) (take (Z.to_nat b) l)) with (take (Z.to_nat b - Z.to_nat a) (drop (Z.to_nat a) l)).
  - apply take_drop.
  - rewrite take_drop_commute. do 2 f_equal. lia.
Qed.

Lemma batches_concat (texts : list text) (size : Z) (n k : nat) :
  0 < size → zlen texts <= Z.of_nat (k + n) * size →
  mjoin ((λ i, py_slice i (i + size) texts) <$> ((λ j, Z.of_nat j * size) <$> seq k n))
  = drop (Z.to_nat (Z.of_nat k * size)) texts.
Proof.
  intros Hs. revert k. induction n as [|n IH]; intros k Hl; csimpl.
  - symmetry. apply drop_ge. unfold zlen in Hl. rewrite Nat.add_0_r in Hl. lia.
  - rewrite IH by (rewrite Nat.add_succ_comm; lia).
    replace (Z.of_nat (S k) * size) with (Z.of_nat k * size + size) by lia. apply py_slice_glue. nia.
Qed.

(** The batches, one after the other, are the texts. *)
Lemma make_batches_concat texts size bs :
  0 < size → make_batches texts size = Ok bs → mjoin bs = texts.
Proof.
  intros Hs. unfold make_batches, batch_starts. rewrite (proj2 (Z.eqb_neq size 0)) by lia.
  rewrite (proj2 (Z.ltb_lt 0 size)) by done. intros [= <-].
  rewrite batches_concat; [done|done|]. rewrite Nat.add_0_l, Z2Nat.id.
  - pose proof (Z.mod_pos_bound (zlen texts + size - 1) size Hs).
    pose proof (Z.div_mod (zlen texts + size - 1) size). lia.
  - apply Z.div_pos; [unfold zlen|]; lia.
Qed.

(** * The cache is transparent *)

Section Transparent.
Context {Provider : EmbeddingProvider} {Digest : TextDigest} {Time : EmbedClock}.

(** The embedding that the provider computes, when it answers at all. *)
Context (emb : text → list float).
Hypothesis provider_spec : ∀ n ts rs,
  embed_call n ts = Embedded rs → length rs = length ts → er_vector <$> rs = emb <$> ts.
Hypothesis digest_injective : Inj (=) (=) sha256_text.

Context (cfg : EmbeddingConfig).
Hypothesis batch_positive : 0 < ec_batch_size cfg.

(** What the cache holds for a text is its embedding. *)
Definition cache_coherent (s : EmbeddingState) : Prop :=
  ∀ t v e, dict_get (embedding_key (ec_model cfg) t) (ebs_cache s) = Some (v, e) → v = emb t.

(** The cache is a dictionary. *)
Definition cache_ok (s : EmbeddingState) : Prop := dict_wf (ebs_cache s) ∧ cache_coherent s.

(** A computation that keeps the cache right and, when it returns, returns
    something that satisfies [Q]. *)
Definition yields {A} (m : SE EmbeddingError EmbeddingState A) (Q : A → Prop) : Prop :=
  ∀ s, cache_ok s → cache_ok (m s).2 ∧ match (m s).1 with Ok a => Q a | Err _ => True end.

Lemma yields_bind {A B} (m : SE EmbeddingError EmbeddingState A) (f : A → SE EmbeddingError EmbeddingState B) P Q :
  yields m P → (∀ a, P a → yields (f a) Q) → yields (m ≫= f) Q.
Proof.
  intros Hm Hf s Hs. specialize (Hm s Hs). unfold mbind, SE_bind.
  destruct (m s) as [[a|e] s1]; simpl in *; [|done]. destruct Hm as [Hs1 Ha]. by apply Hf.
Qed.

Lemma yields_ret {A} (a : A) (Q : A → Prop) : Q a → yields (mret a) Q.
Proof. by intros Ha s Hs. Qed.

Lemma yields_raise {A} e (Q : A → Prop) : yields (se_raise e) Q.
Proof. by intros s Hs. Qed.

(** Steps that leave the cache alone. *)
Lemma yields_keep (f : EmbeddingState → EmbeddingState) :
  (∀ s, ebs_cache (f s) = ebs_cache s) → yields (se_modify f) (λ _, True).
Proof. intros Hf s Hs. unfold cache_ok, cache_coherent. cbn. by rewrite Hf. Qed.

Lemma yields_clock : yields read_clock (λ _, True).
Proof. by intros s Hs. Qed.

Lemma yields_get : yields se_get cache_ok.
Proof. by intros s Hs. Qed.

Lemma string_app_inj (a b c : string) : a +:+ b = a +:+ c → b = c.
Proof. induction a as [|x a IH]; simpl; [done|]. intros [= H]. by apply IH. Qed.

Lemma cache_key_inj t u : embedding_key (ec_model cfg) t = embedding_key (ec_model cfg) u → t = u.
Proof.
  unfold embedding_key. intros H. apply string_app_inj in H. apply string_app_inj in H.
  apply string_app_inj in H. by apply (inj sha256_text).
Qed.

Lemma yields_cache_set ttl t v : v = emb t → yields (embedding_cache_set ttl (embedding_key (ec_model cfg) t) v) (λ _, True).
Proof.
  intros Hv. eapply yields_bind; [apply yields_clock|]. intros now _ s [Hw Hc]. split; [|done].
  split; cbn; [by apply dict_set_wf|]. intros u w e. cbn. rewrite dict_get_set. case_decide as E; [|apply Hc].
  apply cache_key_inj in E as ->. by intros [= <- _].
Qed.

Lemma yields_cache_get t :
  yields (embedding_cache_get (embedding_key (ec_model cfg) t)) (λ o, match o with Some v => v = emb t | None => True end).
Proof.
  eapply yields_bind; [apply yields_get|]. intros s0 [Hw0 Hc0].
  destruct (dict_get _ (ebs_cache s0)) as [[v e]|] eqn:E.
  - eapply yields_bind; [apply yields_clock|]. intros now _. destruct (flt e now).
    + eapply (yields_bind _ _ (λ _, True)).
      { intros s [Hw Hc]. split; [|done]. split; cbn; [by apply dict_pop_wf|]. intros u w e' Hu. cbn in Hu.
        apply (Hc u w e'). destruct (decide (embedding_key (ec_model cfg) t = embedding_key (ec_model cfg) u)) as [Heq|Hne].
        - by rewrite Heq, dict_get_pop_eq in Hu.
        - by rewrite dict_get_pop_ne in Hu. }
      intros _ _. eapply yields_bind; [by apply yields_keep|]. intros _ _. by apply yields_ret.
    + eapply yields_bind; [by apply yields_keep|]. intros _ _. apply yields_ret. by apply (Hc0 t v e).
  - eapply yields_bind; [by apply yields_keep|]. intros _ _. by apply yields_ret.
Qed.

Lemma yields_attempt texts :
  yields (attempt texts) (λ o, match o with Some rs => er_vector <$> rs = emb <$> texts | None => True end).
Proof.
  eapply yields_bind; [apply yields_get|]. intros s0 _.
  eapply yields_bind; [by apply yields_keep|]. intros _ _.
  destruct (embed_call (ebs_calls s0) texts) as [rs| |m] eqn:E.
  - destruct (zlen rs =? zlen texts) eqn:El.
    + apply yields_ret, (provider_spec _ _ _ E). apply Z.eqb_eq in El. unfold zlen in El. lia.
    + cbv zeta. destruct (retryable_embedding (mismatch_message _ _)); [by apply yields_ret|apply yields_raise].
  - by apply yields_ret.
  - destruct (retryable_embedding m); [by apply yields_ret|apply yields_raise].
Qed.

Lemma yields_process_batch texts :
  yields (process_batch (ec_max_retry cfg) texts) (λ rs, er_vector <$> rs = emb <$> texts).
Proof.
  unfold process_batch. induction (Z.to_nat _) as [|n IH]; simpl; [apply yields_raise|].
  eapply yields_bind; [apply yields_attempt|]. intros [rs|] Hr; [by apply yields_ret|apply IH].
Qed.

Lemma yields_process_batches bs :
  yields (process_batches (ec_max_retry cfg) bs) (λ rs, er_vector <$> rs = emb <$> mjoin bs).
Proof.
  induction bs as [|b bs IH]; simpl; [by apply yields_ret|].
  eapply yields_bind; [apply yields_process_batch|]. intros rs Hr.
  eapply yields_bind; [apply IH|]. intros rest Hrest. apply yields_ret. by rewrite !fmap_app, Hr, Hrest.
Qed.

Lemma yields_process texts : yields (process_texts cfg texts) (λ rs, er_vector <$> rs = emb <$> texts).
Proof.
  destruct texts as [|t ts]; [by apply yields_ret|]. unfold process_texts.
  destruct (make_batches (t :: ts) (ec_batch_size cfg)) as [bs|e] eqn:E; [|by intros s Hs].
  eapply (yields_bind _ _ (λ x, x = bs)); [by intros s Hs|]. intros x ->.
  rewrite <- (make_batches_concat (t :: ts) (ec_batch_size cfg) bs) by done. apply yields_process_batches.
Qed.

(** A list of results that is right where it has results. *)
Definition partly (texts : list text) (results : list (option EmbeddingResult)) : Prop :=
  Forall2 (λ t o, match o with Some r => er_vector r = emb t | None => True end) texts results.

Lemma yields_lookup_all texts : yields (lookup_cached cfg texts) (partly texts).
Proof.
  induction texts as [|t ts IH]; simpl; [apply yields_ret; constructor|].
  eapply (yields_bind _ _ (λ o, match o with Some v => v = emb t | None => True end)).
  { destruct (ec_cache_enabled cfg); [apply yields_cache_get|by apply yields_ret]. }
  intros o Ho. eapply yields_bind; [apply IH|]. intros rest Hr. apply yields_ret.
  constructor; [by destruct o|done].
Qed.

(** The positions without a result after [fill] has gone through [idx]. *)
Lemma yields_fill texts idx found results :
  er_vector <$> found = (λ i, emb (default [] (texts !! i))) <$> idx →
  partly texts results →
  yields (fill_missing cfg texts idx found results)
    (λ rs, partly texts rs ∧ ∀ i, rs !! i = Some None → results !! i = Some None ∧ i ∉ idx).
Proof.
  revert found results. induction idx as [|i idx IH]; intros found results Hf Hp; simpl.
  { apply yields_ret. split; [done|]. intros i Hi. split; [done|by apply not_elem_of_nil]. }
  destruct found as [|r found]; [done|]. rewrite !fmap_cons in Hf. injection Hf as Hr Hf.
  eapply (yields_bind _ _ (λ _, True)).
  { destruct (ec_cache_enabled cfg); [by apply yields_cache_set|by apply yields_ret]. }
  intros _ _. intros s Hs. destruct (IH found (<[i := Some r]> results) Hf) with s as [Hs' Hq]; [|done|].
  - unfold partly. apply Forall2_lookup. intros j. destruct (decide (i = j)) as [->|Hne].
    + destruct (texts !! j) as [t|] eqn:Et.
      * destruct (Forall2_lookup_l _ _ _ _ _ Hp Et) as (o & Ho & _).
        rewrite list_lookup_insert_eq by (by eapply lookup_lt_Some). constructor. by rewrite Hr.
      * assert (results !! j = None) as Hn.
        { apply lookup_ge_None. apply lookup_ge_None in Et. by rewrite <- (Forall2_length _ _ _ Hp). }
        rewrite list_insert_ge by (by apply lookup_ge_None). rewrite Hn. constructor.
    + rewrite list_lookup_insert_ne by done. apply Forall2_lookup, Hp.
  - split; [done|]. destruct (fill_missing cfg texts idx found (<[i := Some r]> results) s) as [[rs|e] s'] eqn:E;
      cbn in *; [|done]. destruct Hq as [Hp' Hq]. split; [done|]. intros j Hj. destruct (Hq j Hj) as [Hi Hn].
    destruct (decide (i = j)) as [->|Hne].
    + assert (is_Some (results !! j)) as Hsj.
      { destruct (results !! j) eqn:Ej; [done|]. apply lookup_ge_None in Ej.
        by rewrite list_insert_ge, (proj2 (lookup_ge_None results j)) in Hi by done. }
      apply lookup_lt_is_Some in Hsj. by rewrite list_lookup_insert_eq in Hi.
    + rewrite list_lookup_insert_ne in Hi by done. split; [done|]. apply not_elem_of_cons. by split.
Qed.

Lemma elem_of_missing k results i :
  results !! i = Some None → (k + i)%nat ∈ missing k results.
Proof.
  revert k i. induction results as [|[r|] rs IH]; intros k [|i]; simpl; try done.
  - intros H. rewrite Nat.add_succ_r. by apply (IH (S k)).
  - intros _. rewrite Nat.add_0_r. left.
  - intros H. right. rewrite Nat.add_succ_r. by apply (IH (S k)).
Qed.

Lemma partly_complete texts rs :
  partly texts rs → (∀ i, rs !! i ≠ Some None) → er_vector <$> omap id rs = emb <$> texts.
Proof.
  induction 1 as [|t o texts rs Ho _ IH]; intros Hn; [done|].
  destruct o as [r|]; [|by destruct (Hn O)]. csimpl. rewrite Ho, IH; [done|]. intros i. apply (Hn (S i)).
Qed.

Lemma yields_counting {A} (m : SE EmbeddingError EmbeddingState A) Q : yields m Q → yields (counting_errors m) Q.
Proof. intros Hm s Hs. specialize (Hm s Hs). unfold counting_errors. by destruct (m s) as [[a|e] s1]. Qed.

Lemma yields_embed_batch texts : yields (embed_batch cfg texts) (λ rs, er_vector <$> rs = emb <$> texts).
Proof.
  eapply yields_bind; [apply yields_clock|]. intros start _.
  eapply yields_bind; [apply yields_lookup_all|]. intros results Hp.
  eapply (yields_bind _ _ (λ rs, partly texts rs ∧ ∀ i, rs !! i ≠ Some None)).
  - destruct ((λ i, default [] (texts !! i)) <$> missing 0 results) as [|u us] eqn:E.
    + apply yields_ret. split; [done|]. intros i Hi%(elem_of_missing 0).
      apply fmap_nil_inv in E. rewrite E in Hi. by apply elem_of_nil in Hi.
    + apply yields_counting. eapply yields_bind; [apply yields_process|]. intros found Hf.
      intros s Hs. destruct (yields_fill texts (missing 0 results) found results) with s as [Hs' Hq]; [| |done|].
      * rewrite Hf, <- E, <- list_fmap_compose. done.
      * done.
      * split; [done|]. destruct (fill_missing _ _ _ _ _ s) as [[rs|e] s']; cbn in *; [|done].
        destruct Hq as [Hp' Hq]. split; [done|]. intros i Hi. destruct (Hq i Hi) as [Hr Hn].
        by apply Hn, (elem_of_missing 0).
  - intros rs [Hp' Hn]. eapply yields_bind; [apply yields_clock|]. intros now _.
    eapply yields_bind; [by apply yields_keep|]. intros _ _. apply yields_ret. by apply partly_complete.
Qed.

End Transparent.

(** (C27) Embeddings from the service are those of the provider, when the provider
    answers each text by a function of it, the digest of texts has no
    collisions, the batch size is positive and the cache is coherent, that is,
    each vector in it is the one of its text: when a batch of texts returns, it
    returns one vector per text, in order, and each is what the provider
    computes for that text, whatever of it came from the cache, however the
    texts were cut into batches and whatever attempts failed.  The cache stays
    coherent, also when the call raises. *)
Theorem embed_batch_transparent {Provider : EmbeddingProvider} {Digest : TextDigest} {Time : EmbedClock}
    (emb : text → list float) (cfg : EmbeddingConfig) (texts : list text) (s : EmbeddingState)
    (Hprovider : ∀ n ts rs, embed_call n ts = Embedded rs → length rs = length ts →
       er_vector <$> rs = emb <$> ts)
    (Hdigest : Inj (=) (=) sha256_text)
    (Hsize : 0 < ec_batch_size cfg)
    (Hs : cache_ok emb cfg s) :
  cache_ok emb cfg (embed_batch cfg texts s).2 ∧
  ∀ rs, (embed_batch cfg texts s).1 = Ok rs → er_vector <$> rs = emb <$> texts.
Proof.
  destruct (yields_embed_batch emb Hprovider Hdigest cfg Hsize texts s Hs) as [H1 H2].
  split; [done|]. intros rs Hr. by rewrite Hr in H2.
Qed.

(** * Attempts are bounded *)

Section Attempts.
Context {Provider : EmbeddingProvider}.

Lemma attempt_calls texts s : ebs_calls (attempt texts s).2 = S (ebs_calls s).
Proof.
  unfold attempt, mbind, SE_bind, se_get, se_modify.
  destruct (embed_call _ texts) as [rs| |m]; [|done|].
  - destruct (_ =? _); [done|]. cbv zeta. by destruct (retryable_embedding (mismatch_message _ _)).
  - by destruct (retryable_embedding m).
Qed.

Lemma attempts_calls n k texts s :
  (ebs_calls s <= ebs_calls (embed_attempts n k texts s).2 <= ebs_calls s + n)%nat.
Proof.
  revert s. induction n as [|n IH]; intros s; simpl; [lia|]. unfold mbind, SE_bind.
  pose proof (attempt_calls texts s) as Ha. destruct (attempt texts s) as [[[rs|]|e] s1]; cbn in *; [lia| |lia].
  specialize (IH s1). lia.
Qed.
End Attempts.

(** A batch calls the provider at most once more than the number of retries,
    and an exception of the first call that is not retryable is raised at once,
    without another call. *)
Theorem process_batch_attempts {Provider : EmbeddingProvider} (max_retry : Z) (texts : list text)
    (s : EmbeddingState) :
  (ebs_calls (process_batch max_retry texts s).2 <= ebs_calls s + Z.to_nat (max_retry + 1))%nat ∧
  (∀ m, 0 <= max_retry → embed_call (ebs_calls s) texts = Raised m → retryable_embedding m = false →
     process_batch max_retry texts s = (Err (ProviderRaised m), count_call s)).
Proof.
  split; [apply attempts_calls|]. intros m Hm Hc Hr. unfold process_batch.
  destruct (Z.to_nat (max_retry + 1)) as [|n] eqn:E; [lia|]. cbn [embed_attempts].
  unfold attempt, mbind, SE_bind, se_get, se_modify. cbn. by rewrite Hc, Hr.
Qed.

(** * Examples *)

Module Demo.

(** A provider whose first call is limited; the embedding of a text is its length. *)
Definition emb (t : text) : list float := [float_of_Z (zlen t)].
#[local] Instance provider : EmbeddingProvider := λ n ts,
  if bool_decide (n = O) then Raised "Rate limit reached"
  else Embedded ((λ t, MkEmbeddingResult (emb t) "m" "demo" 1 0) <$> ts).
#[local] Instance digest : TextDigest := λ t, pretty (N.pos (encode t)).
#[local] Instance time : EmbedClock := λ n, float_of_Z (Z.of_nat n).

Definition embed_cfg : EmbeddingConfig := MkEmbeddingConfig "demo" "m" 2 3 true 3600.
Definition texts : list text := code_points <$> ["a"; "bb"; "ccc"; "a"].

Example embeds_in_order :
  let '(r, s) := embed_batch embed_cfg texts new_estate in
  (match r with Ok rs => er_vector <$> rs | Err _ => [] end) = emb <$> texts ∧
  ebs_calls s = 3%nat ∧ zlen (ebs_cache s) = 3.
Proof. by vm_compute. Qed.

(** A second call finds everything in the cache. *)
Example second_call_cached :
  let s := (embed_batch embed_cfg texts new_estate).2 in
  let '(r, s') := embed_batch embed_cfg texts s in
  is_ok r = true ∧ ebs_calls s' = ebs_calls s ∧ ebs_hits s' = 4.
Proof. by vm_compute. Qed.

Lemma digest_inj : Inj (=) (=) digest.
Proof. intros t u H. assert (N.pos (encode t) = N.pos (encode u)) as H' by by apply (inj pretty).
  apply (inj encode). congruence. Qed.

Lemma provider_computes n ts rs :
  @embed_call provider n ts = Embedded rs → length rs = length ts → er_vector <$> rs = emb <$> ts.
Proof.
  unfold embed_call, provider. case_bool_decide; [done|]. intros [= <-] _.
  rewrite <- list_fmap_compose. by apply list_fmap_ext.
Qed.

End Demo.

Lemma embed_batch_transparent_witness :
  ∃ rs s, @embed_batch Demo.provider Demo.digest Demo.time Demo.embed_cfg Demo.texts new_estate = (Ok rs, s) ∧
    er_vector <$> rs = Demo.emb <$> Demo.texts.
Proof.
  destruct (@embed_batch Demo.provider Demo.digest Demo.time Demo.embed_cfg Demo.texts new_estate) as [[rs|e] s] eqn:E;
    [|by vm_compute in E].
  destruct (@embed_batch_transparent Demo.provider Demo.digest Demo.time Demo.emb Demo.embed_cfg Demo.texts new_estate
    Demo.provider_computes Demo.digest_inj ltac:(by vm_compute)) as [_ H].
  { split; [constructor|]. intros t v x Hx. done. }
  exists rs, s. split; [done|]. apply H. by rewrite E.
Defined.

Lemma process_batch_attempts_witness :
  @process_batch (λ _ _, Raised "Invalid API key") 3 Demo.texts new_estate
  = (Err (ProviderRaised "Invalid API key"), count_call new_estate).
Proof. apply (process_batch_attempts 3 Demo.texts new_estate); [lia|done|by vm_compute]. Defined.
