(* ===== verification/ClusterOps.v ===== *)
(** * Autoscaling, backups, replication and disaster recovery of the cluster

    [src/app/cluster/autoscale.py], [replication.py] and the discovery of nodes
    from a list or a host name in [discovery.py].

    - [Autoscale]: the rolling windows of the collectors and one evaluation.
      What a source answers is an argument; the text of a decision is kept as
      the numbers it is made of, and the observers and the callback that applies
      a decision are not modelled.
    - [Backups]: a backup keeps the object that the state provider returns, not
      a copy of it: objects live in a heap, and a record holds a location.  The
      digest of the JSON of an object is an operation of a class.
    - [Replication]: a snapshot is sent to every replica; the transport is an
      argument.
    - [Recovery]: promotion, demotion and the failover of a region, on the node
      store of [ClusterStores].
    - [Discovery]: the nodes of a peer list and of a resolved host name. *)

From Stdlib Require Import ZArith Lia.
From Stdlib Require Import SpecFloat.
From Stdlib Require Import Ascii Sorted.
From stdpp Require Import base numbers strings gmap list.
From S2P Require Import Prelude PyFloat PyNum PyStr PyDict PyMath ClusterStores.


Open Scope string_scope.
Open Scope Z_scope.

(** ** Autoscaling *)

Module Autoscale.

Record MetricCollector := MkCollector {
  mc_name : string;
  mc_default_threshold : float;
  mc_window : list float;
  mc_max_window : Z
}.

(** [record]: the oldest values leave a window that is too long. *)
Definition record_metric (value : float) (c : MetricCollector) : MetricCollector :=
  let window := (mc_window c ++ [value])%list in
  MkCollector (mc_name c) (mc_default_threshold c)
    (if mc_max_window c <? zlen window
     then drop (Z.to_nat (zlen window - mc_max_window c)) window else window)
    (mc_max_window c).

Definition window_mean (c : MetricCollector) : float :=
  match mc_window c with
  | [] => fzero
  | w => fdiv (py_sum w) (float_of_Z (zlen w))
  end.

(** [sample]: [value] is what the source answers. *)
Definition sample (value : float) (c : MetricCollector) : float * MetricCollector :=
  let c := record_metric value c in (window_mean c, c).

Definition last_value (c : MetricCollector) : float :=
  List.last (mc_window c) fzero.
Definition reset_metric (c : MetricCollector) : MetricCollector :=
  MkCollector (mc_name c) (mc_default_threshold c) [] (mc_max_window c).

(** [_COLLECTOR_TYPES], each with an empty window of sixty values. *)
Definition new_collector (name : string) (threshold : Z) : string * MetricCollector :=
  (name, MkCollector name (float_of_Z threshold) [] 60).
Definition default_collectors : dict string MetricCollector :=
  [new_collector "cpu" 70; new_collector "memory" 70; new_collector "queue_length" 100;
   new_collector "request_rate" 1000; new_collector "token_throughput" 100000].

Record ScaleConfig := MkScaleConfig {
  sc_enabled : bool;
  sc_cooldown : float;
  sc_min_replicas : Z;
  sc_max_replicas : Z;
  sc_factor : float;
  sc_down_factor : float;
  sc_cpu_threshold : float;
  sc_memory_threshold : float;
  sc_queue_threshold : float;
  sc_request_rate_threshold : float;
  sc_token_throughput_threshold : float
}.

Definition default_scale_config : ScaleConfig :=
  MkScaleConfig true (float_of_Z 30) 1 16 fone (flit 8 10) (float_of_Z 70) (float_of_Z 70)
    (float_of_Z 100) (float_of_Z 1000) (float_of_Z 100000).

Record AutoscaleDecision := MkDecision {
  ad_component : string;
  ad_metric : string;
  ad_current : float;
  ad_threshold : float;
  ad_desired : Z;
  ad_previous : Z;
  ad_up : bool
}.

Record Autoscaler := MkAutoscaler {
  as_collectors : dict string MetricCollector;
  as_decisions : list AutoscaleDecision;
  as_component : string;
  as_last_eval : float;
  as_replicas : Z
}.

Inductive ScaleError := UnknownMetric (name : string) | NotAnInteger.

Definition new_autoscaler (cfg : ScaleConfig) (collectors : option (dict string MetricCollector)) : Autoscaler :=
  MkAutoscaler (match collectors with Some (c :: cs) => c :: cs | _ => default_collectors end)
    [] "cluster" fzero (sc_min_replicas cfg).

Definition set_replicas (n : Z) (a : Autoscaler) : Autoscaler :=
  MkAutoscaler (as_collectors a) (as_decisions a) (as_component a) (as_last_eval a) (Z.max 1 n).
Definition set_component (c : string) (a : Autoscaler) : Autoscaler :=
  MkAutoscaler (as_collectors a) (as_decisions a) c (as_last_eval a) (as_replicas a).
Definition with_collector (name : string) (c : MetricCollector) (a : Autoscaler) : Autoscaler :=
  MkAutoscaler (dict_set name c (as_collectors a)) (as_decisions a) (as_component a) (as_last_eval a)
    (as_replicas a).
Definition with_last_eval (t : float) (a : Autoscaler) : Autoscaler :=
  MkAutoscaler (as_collectors a) (as_decisions a) (as_component a) t (as_replicas a).
Definition with_decision (d : AutoscaleDecision) (a : Autoscaler) : Autoscaler :=
  MkAutoscaler (as_collectors a) (as_decisions a ++ [d])%list (as_component a) (as_last_eval a) (ad_desired d).

(** [Autoscaler.record] *)
Definition autoscaler_record (metric : string) (value : float) : SE ScaleError Autoscaler unit :=
  se_get ≫= λ a,
  match dict_get metric (as_collectors a) with
  | None => se_raise (UnknownMetric metric)
  | Some c => se_modify (with_collector metric (record_metric value c))
  end.

Definition threshold_for (cfg : ScaleConfig) (c : MetricCollector) : float :=
  default (mc_default_threshold c)
    (dict_get (mc_name c)
       [("cpu", sc_cpu_threshold cfg); ("memory", sc_memory_threshold cfg);
        ("queue_length", sc_queue_threshold cfg); ("request_rate", sc_request_rate_threshold cfg);
        ("token_throughput", sc_token_throughput_threshold cfg)]).

(** [int(x)] of a float raises on infinities and NaN. *)
Definition int_of_float (x : float) : result ScaleError Z :=
  match ftrunc x with Some n => Ok n | None => Err NotAnInteger end.

(** The replicas that one metric asks for: [None] when it lies between its two
    thresholds. *)
Definition desired_replicas (cfg : ScaleConfig) (replicas : Z) (current threshold : float)
    : result ScaleError (option (bool * Z)) :=
  let scale_up := fle threshold current in
  let scale_down := flt current (fmul threshold (sc_down_factor cfg)) in
  if negb (scale_up || scale_down) then Ok None
  else
    let ratio := if is_fzero threshold then fone else fdiv current threshold in
    if scale_up then
      (try n <- int_of_float (fmul (fmul (float_of_Z replicas) ratio) (sc_factor cfg)) in
       Ok (Some (true, Z.min (sc_max_replicas cfg) (Z.max replicas (n + 1)))))%py
    else
      (try n <- int_of_float (fmul (float_of_Z replicas) ratio) in
       Ok (Some (false, Z.max (sc_min_replicas cfg) n)))%py.

(** One turn of the loop over the collectors; the result is the decision so far. *)
Definition evaluate_metric (cfg : ScaleConfig) (read : string → float) (name : string)
    (decision : option AutoscaleDecision) : SE ScaleError Autoscaler (option AutoscaleDecision) :=
  se_get ≫= λ a,
  match dict_get name (as_collectors a) with
  | None => mret decision
  | Some c =>
      let '(current, c) := sample (read name) c in
      se_modify (with_collector name c) ≫= λ _,
      let threshold := threshold_for cfg c in
      se_lift (desired_replicas cfg (as_replicas a) current threshold) ≫= λ o,
      match o with
      | None => mret decision
      | Some (up, desired) =>
          if desired =? as_replicas a then mret decision
          else
            let d := MkDecision (as_component a) name current threshold desired (as_replicas a) up in
            se_modify (with_decision d) ≫= λ _, mret (Some d)
      end
  end.

Fixpoint evaluate_metrics (cfg : ScaleConfig) (read : string → float) (names : list string)
    (decision : option AutoscaleDecision) : SE ScaleError Autoscaler (option AutoscaleDecision) :=
  match names with
  | [] => mret decision
  | n :: ns => evaluate_metric cfg read n decision ≫= λ d, evaluate_metrics cfg read ns d
  end.

Definition autoscaler_evaluate (cfg : ScaleConfig) (read : string → float) (now : float)
    : SE ScaleError Autoscaler (option AutoscaleDecision) :=
  if negb (sc_enabled cfg) then mret None
  else
    se_get ≫= λ a,
    if flt (fsub now (as_last_eval a)) (sc_cooldown cfg) then mret None
    else
      se_modify (with_last_eval now) ≫= λ _,
      evaluate_metrics cfg read (dict_keys (as_collectors a)) None.

(** [list(reversed(self._decisions[-limit:]))] *)
Definition decisions (limit : Z) (a : Autoscaler) : list AutoscaleDecision :=
  rev (if limit =? 0 then as_decisions a
       else py_slice (- limit) (zlen (as_decisions a)) (as_decisions a)).

(** ** The decisions of an evaluation *)

(** Each decision starts from the replicas that the one before it has set. *)
Fixpoint linked_decisions (start : Z) (ds : list AutoscaleDecision) (final : Z) : Prop :=
  match ds with
  | [] => start = final
  | d :: ds' => ad_previous d = start ∧ ad_desired d ≠ start ∧ linked_decisions (ad_desired d) ds' final
  end.

Definition sound_decision (cfg : ScaleConfig) (d : AutoscaleDecision) : Prop :=
  sc_min_replicas cfg <= ad_desired d ∧ (ad_up d = true → ad_desired d <= sc_max_replicas cfg).

(** The decisions [ds], made after [before], took the replicas from [start] to
    where they are. *)
Record decided (cfg : ScaleConfig) (before : list AutoscaleDecision) (start : Z) (ds : list AutoscaleDecision)
    (a : Autoscaler) : Prop := {
  dc_history : as_decisions a = (before ++ ds)%list;
  dc_linked : linked_decisions start ds (as_replicas a);
  dc_sound : Forall (sound_decision cfg) ds;
  dc_floor : sc_min_replicas cfg <= as_replicas a
}.

End Autoscale.

(** ** Backups *)

Module Backups.

Inductive BackupStatus := B_PENDING | B_OK | B_FAILED.
#[export] Instance BackupStatus_eq_dec : EqDecision BackupStatus.
Proof. solve_decision. Defined.

(** What the manager computes of a state: the digest and the length of its JSON,
    and its number of entries. *)
Class BackupData (D : Type) := {
  bd_checksum : D → string;
  bd_size : D → Z;
  bd_entries : D → Z
}.

Section Manager.
Context {D : Type} `{BD : !BackupData D}.

Abbreviation location := nat (only parsing).
Abbreviation heap := (nat → D) (only parsing).

Record BackupRecord := MkBackup {
  b_id : string;
  b_name : string;
  b_created_at : float;
  b_size : Z;
  b_checksum : string;
  b_entries : Z;
  b_status : BackupStatus;
  b_metadata : dict string string;
  b_data : nat;
  b_restored_at : option float
}.

Inductive BackupError :=
  | NotADict
  | UnknownBackup (id : string)
  | NotRestorable (id : string) (status : BackupStatus)
  | ChecksumMismatch (id : string)
  | RestoreFailed (id message : string).

Abbreviation BackupStore := (dict string BackupRecord) (only parsing).

Definition newer (a b : BackupRecord) : bool := flt (b_created_at b) (b_created_at a).

Definition bs_save (r : BackupRecord) (s : BackupStore) : BackupStore := dict_set (b_id r) r s.
Definition bs_list (s : BackupStore) : list BackupRecord := py_sorted newer (dict_values s).

(** [prune]: [records[max_keep:]] are removed. *)
Definition pruned (max_keep : Z) (s : BackupStore) : list BackupRecord :=
  py_slice max_keep (zlen (bs_list s)) (bs_list s).
Definition prune_backups (max_keep : Z) (s : BackupStore) : Z * BackupStore :=
  let gone := b_id <$> pruned max_keep s in
  (zlen (List.filter (λ i, dict_mem i s) gone), pop_all gone s).

Definition create_backup (prune_max : Z) (id name gen : string) (now : float)
    (metadata : dict string string) (provider : option location) (h : heap) (s : BackupStore)
    : result BackupError BackupRecord * BackupStore :=
  match provider with
  | None => (Err NotADict, s)
  | Some l =>
      let r := MkBackup id (str_or name ("backup-" +:+ gen)) now (bd_size (h l)) (bd_checksum (h l))
                 (bd_entries (h l)) B_OK metadata l None in
      let s := bs_save r s in
      (Ok r, if 0 <? prune_max then (prune_backups prune_max s).2 else s)
  end.

Definition get_backup (id : string) (s : BackupStore) : result BackupError BackupRecord :=
  match dict_get id s with Some r => Ok r | None => Err (UnknownBackup id) end.

Definition with_restored (t : float) (r : BackupRecord) : BackupRecord :=
  MkBackup (b_id r) (b_name r) (b_created_at r) (b_size r) (b_checksum r) (b_entries r) (b_status r)
    (b_metadata r) (b_data r) (Some t).

(** [restore]: the target receives a copy of the object, and may raise. *)
Definition restore (id : string) (verify : bool) (now : float) (target : D → option string)
    (h : heap) (s : BackupStore) : result BackupError (BackupRecord * D) * BackupStore :=
  match get_backup id s with
  | Err e => (Err e, s)
  | Ok r =>
      if negb (bool_decide (b_status r = B_OK)) then (Err (NotRestorable id (b_status r)), s)
      else if verify && negb (String.eqb (bd_checksum (h (b_data r))) (b_checksum r))
      then (Err (ChecksumMismatch id), s)
      else
        match target (h (b_data r)) with
        | Some m => (Err (RestoreFailed id m), s)
        | None =>
            let r' := with_restored now r in (Ok (r', h (b_data r)), dict_set id r' s)
        end
  end.

Definition delete_backup (id : string) (s : BackupStore) : bool * BackupStore :=
  (dict_mem id s, dict_pop id s).

(** [(count, total_size, latest)] *)
Definition backup_status (s : BackupStore) : Z * Z * option BackupRecord :=
  (zlen (bs_list s), foldl Z.add 0 (b_size <$> bs_list s), head (bs_list s)).

End Manager.
Arguments BackupRecord : clear implicits.
End Backups.

(** ** Replication *)

Module Replication.

Inductive ReplicationState := R_PENDING | R_REPLICATED | R_FAILED.
#[export] Instance ReplicationState_eq_dec : EqDecision ReplicationState.
Proof. solve_decision. Defined.

Record ReplicationRecord := MkRecord {
  rr_id : string;
  rr_snapshot_id : string;
  rr_replica_id : string;
  rr_state : ReplicationState;
  rr_lag_seconds : float;
  rr_replicated_at : float;
  rr_error : string
}.

(** A snapshot is stored as the location of the object. *)
Record SnapshotStore := MkSnapshotStore {
  ss_records : dict string ReplicationRecord;
  ss_snapshots : dict string nat
}.

Definition new_snapshots : SnapshotStore := MkSnapshotStore [] [].

Definition save_record (r : ReplicationRecord) (s : SnapshotStore) : SnapshotStore :=
  MkSnapshotStore (dict_set (rr_id r) r (ss_records s)) (ss_snapshots s).
Definition save_snapshot (id : string) (l : nat) (s : SnapshotStore) : SnapshotStore :=
  MkSnapshotStore (ss_records s) (dict_set id l (ss_snapshots s)).
Definition list_snapshots (s : SnapshotStore) : list string := py_sorted str_lt (dict_keys (ss_snapshots s)).

Definition later_record (a b : ReplicationRecord) : bool := flt (rr_replicated_at b) (rr_replicated_at a).
Definition ss_records_of (snapshot_id : option string) (s : SnapshotStore) : list ReplicationRecord :=
  let values := dict_values (ss_records s) in
  py_sorted later_record
    (match snapshot_id with
     | Some i => List.filter (λ r, String.eqb (rr_snapshot_id r) i) values
     | None => values
     end).

Definition is_replicated (r : ReplicationRecord) : bool := bool_decide (rr_state r = R_REPLICATED).

(** The least lag of all the records, not the lag of the latest one. *)
Definition latest_lag (s : SnapshotStore) : float :=
  match rr_lag_seconds <$> List.filter is_replicated (dict_values (ss_records s)) with
  | [] => finf
  | x :: l => py_min x l
  end.

Record ReplicationManager := MkReplication {
  rm_store : SnapshotStore;
  rm_replicas : list string;
  rm_last_replication : float;
  rm_replications : Z
}.

Definition new_replication (replicas : list string) : ReplicationManager :=
  MkReplication new_snapshots replicas fzero 0.

Definition add_replica (id : string) (m : ReplicationManager) : ReplicationManager :=
  if bool_decide (id ∈ rm_replicas m) then m
  else MkReplication (rm_store m) (rm_replicas m ++ [id])%list (rm_last_replication m) (rm_replications m).

Fixpoint remove_first (id : string) (l : list string) : list string :=
  match l with [] => [] | x :: l' => if String.eqb x id then l' else x :: remove_first id l' end.
Definition remove_replica (id : string) (m : ReplicationManager) : bool * ReplicationManager :=
  if bool_decide (id ∈ rm_replicas m)
  then (true, MkReplication (rm_store m) (remove_first id (rm_replicas m)) (rm_last_replication m)
                (rm_replications m))
  else (false, m).

(** What a replica's transport does and when: the message of the exception it
    raises, or the two readings of the clock after it. *)
Inductive Shipment := Shipped (t1 t2 : float) | Broken (message : string).

(** The record of a replica when its shipment is over: the object that is in the
    store is the one that is returned. *)
Definition replica_record (snapshot_id : string) (started : float) (id replica : string) (o : Shipment)
    : ReplicationRecord :=
  match o with
  | Broken m => MkRecord id snapshot_id replica R_FAILED fzero fzero m
  | Shipped t1 t2 => MkRecord id snapshot_id replica R_REPLICATED (fsub t1 started) t2 ""
  end.

Fixpoint ship_all (transport : string → Shipment) (snapshot_id : string) (started : float)
    (ids replicas : list string) (s : SnapshotStore) : list ReplicationRecord * SnapshotStore :=
  match replicas, ids with
  | r :: rs, i :: is' =>
      let record := replica_record snapshot_id started i r (transport r) in
      let '(records, s') := ship_all transport snapshot_id started is' rs (save_record record s) in
      (record :: records, s')
  | _, _ => ([], s)
  end.

(** [replicate]; [ids] are the identifiers of the new records. *)
Definition replicate_snapshot (transport : string → Shipment) (snapshot : nat) (snapshot_id gen : string)
    (started finished : float) (ids : list string) (m : ReplicationManager)
    : list ReplicationRecord * ReplicationManager :=
  let snapshot_id := str_or snapshot_id ("snapshot-" +:+ gen) in
  let '(records, s) :=
    ship_all transport snapshot_id started ids (rm_replicas m) (save_snapshot snapshot_id snapshot (rm_store m)) in
  (records, MkReplication s (rm_replicas m) finished (rm_replications m + zlen (rm_replicas m))).

End Replication.

(** ** Disaster recovery *)

Module Recovery.

Inductive DRError :=
  | UnknownNode (id : string)
  | PromoteFailedNode (id : string)
  | AlreadyRole (id : string) (r : NodeRole)
  | NoNodesInRegion (region : string)
  | NoCandidates (region : string).

Abbreviation DR A := (SE DRError NodeStore A) (only parsing).

Definition update_node (id : string) (f : NodeInfo → NodeInfo) : DR unit := λ s,
  match ns_update id f s with Ok s' => (Ok tt, s') | Err _ => (Err (UnknownNode id), s) end.

Definition require_node (id : string) : DR NodeInfo := λ s,
  match ns_get id s with Some n => (Ok n, s) | None => (Err (UnknownNode id), s) end.

Definition promote_standby (id : string) : DR NodeInfo :=
  require_node id ≫= λ node,
  if bool_decide (n_state node = FAILED) then se_raise (PromoteFailedNode id)
  else if negb (bool_decide (n_role node = STANDBY)) && negb (bool_decide (n_role node = FOLLOWER))
  then se_raise (AlreadyRole id (n_role node))
  else if bool_decide (n_role node = STANDBY) then
    update_node id (λ n, set_state HEALTHY (set_role FOLLOWER n)) ≫= λ _, require_node id
  else mret node.

Definition demote (id : string) : DR NodeInfo :=
  require_node id ≫= λ _, update_node id (set_role STANDBY) ≫= λ _, require_node id.

Definition in_region (region : string) (n : NodeInfo) : bool := String.eqb (n_region n) region.
Definition candidate (region : string) (n : NodeInfo) : bool :=
  in_region region n && negb (bool_decide (n_state n = FAILED)).

(** The local node is demoted, the others are marked as failed. *)
Definition fence_node (self : string) (id : string) : DR unit :=
  if negb (String.eqb id self) then update_node id (set_state FAILED)
  else update_node id (set_role STANDBY).

Fixpoint each_node {A} (f : string → DR A) (ids : list string) : DR unit :=
  match ids with [] => mret tt | i :: is' => f i ≫= λ _, each_node f is' end.

Definition failover_region (self region standby : string) : DR Z :=
  se_get ≫= λ s,
  let nodes := List.filter (in_region region) (ns_all s) in
  if bool_decide (nodes = []) then se_raise (NoNodesInRegion region)
  else
    let standby := str_or standby region in
    let candidates := List.filter (candidate standby) (ns_all s) in
    if bool_decide (candidates = []) then se_raise (NoCandidates standby)
    else
      each_node (fence_node self) (n_id <$> nodes) ≫= λ _,
      each_node promote_standby (n_id <$> candidates) ≫= λ _,
      mret (zlen nodes).

(** [(standbys, failed, regions)] *)
Definition dr_status (s : NodeStore) : Z * Z * list string :=
  (zlen (List.filter (λ n, bool_decide (n_role n = STANDBY)) (ns_all s)),
   zlen (List.filter (λ n, bool_decide (n_state n = FAILED)) (ns_all s)),
   py_sorted str_lt (remove_dups (n_region <$> ns_all s))).

End Recovery.

(** ** Discovery *)

Module Discovery.

Inductive DiscoveryError := MissingHostname | ResolutionFailed (host message : string) | UnknownType (t : string).

(** [s.rpartition(c)]: [None] when the separator does not occur. *)
Fixpoint rpartition (c : ascii) (s : string) : option (string * string) :=
  match s with
  | EmptyString => None
  | String a s' =>
      match rpartition c s' with
      | Some (h, t) => Some (String a h, t)
      | None => if decide (a = c) then Some (EmptyString, s') else None
      end
  end.

Fixpoint dashed (s : string) : string :=
  match s with
  | EmptyString => EmptyString
  | String a s' =>
      String (if bool_decide (a = "."%char) || bool_decide (a = "/"%char) then "-"%char else a) (dashed s')
  end.

(** [StaticDiscovery._parse_peer] *)
Definition parse_peer (peer : string) : string * string * Z :=
  let '(host_part, port_part) := default ("", peer) (rpartition ":" peer) in
  let host := str_or host_part peer in
  let port := if isdigit port_part then int_of_digits port_part else 8000 in
  let node_id := str_or (dashed host) "peer" in
  ("node-" +:+ node_id +:+ "-" +:+ str_of_Z port, host, port).

(** [DiscoveryBackend._node] *)
Definition discovered_node (region zone version : string) (now : float) (id gen address : string) (port : Z)
    (name : string) : NodeInfo :=
  MkNodeInfo (str_or id gen) (str_or name (str_or id address)) address port FOLLOWER JOINED region zone []
    version 1 0 now now.

Definition static_discover (region zone version : string) (now : float) (peers : list string) : list NodeInfo :=
  (λ p, let '(id, address, port) := parse_peer p in
        discovered_node region zone version now id "" address port "") <$> peers.

(** [DNSDiscovery.discover] with an injected resolver. *)
Definition dns_discover (region zone version : string) (now : float) (hostname prefix : string) (port : Z)
    (resolver : string → result string (list string)) : result DiscoveryError (list NodeInfo) :=
  if negb (truthy hostname) then Err MissingHostname
  else
    match resolver hostname with
    | Err m => Err (ResolutionFailed hostname m)
    | Ok addresses =>
        Ok ((λ ia, discovered_node region zone version now (prefix +:+ "-" +:+ str_of_Z ia.1) "" ia.2 port
                     (hostname +:+ "#" +:+ str_of_Z ia.1)) <$> enumerate addresses)
    end.

Inductive DiscoveryType := StaticDiscovery | DNSDiscovery | KubernetesDiscovery | ConsulDiscovery | EtcdDiscovery.

Definition discovery_backends : dict string DiscoveryType :=
  [("static", StaticDiscovery); ("dns", DNSDiscovery); ("kubernetes", KubernetesDiscovery);
   ("consul", ConsulDiscovery); ("etcd", EtcdDiscovery)].

Definition create_discovery (t : string) : result DiscoveryError DiscoveryType :=
  match dict_get t discovery_backends with Some b => Ok b | None => Err (UnknownType t) end.

End Discovery.

(** * Autoscaling: lemmas and properties *)

Section AutoscaleSpec.
Import Autoscale.

Context (cfg : ScaleConfig).
Hypothesis bounds_ordered : sc_min_replicas cfg <= sc_max_replicas cfg.

Lemma desired_sound r current threshold up d :
  sc_min_replicas cfg <= r → desired_replicas cfg r current threshold = Ok (Some (up, d)) →
  sc_min_replicas cfg <= d ∧ (up = true → d <= sc_max_replicas cfg).
Proof.
  intros Hr. unfold desired_replicas. destruct (negb _); [done|].
  destruct (fle threshold current); destruct (int_of_float _) as [n|]; intros [= <- <-]; (split; [lia|intros; (done || lia)]).
Qed.

Lemma linked_snoc start ds f d :
  linked_decisions start ds f → ad_previous d = f → ad_desired d ≠ f → linked_decisions start (ds ++ [d])%list (ad_desired d).
Proof.
  revert start. induction ds as [|x ds IH]; intros start; simpl; [intros ->; by repeat split|].
  intros (H1 & H2 & H3) Hp Hd. split; [done|]. split; [done|]. by apply IH.
Qed.

Context (before : list AutoscaleDecision) (start : Z).

(** A computation of the evaluation: it goes on deciding, and the decision it
    returns is the last one. *)
Definition decides (m : SE ScaleError Autoscaler (option AutoscaleDecision)) (ds : list AutoscaleDecision) : Prop :=
  ∀ a, decided cfg before start ds a →
    ∃ ds', decided cfg before start ds' (m a).2 ∧ ∀ d, (m a).1 = Ok d → d = last ds'.

Lemma decided_with_collector n c ds a :
  decided cfg before start ds a → decided cfg before start ds (with_collector n c a).
Proof. intros [H L S F]. by split. Qed.

Lemma evaluate_metric_decides read n ds : decides (evaluate_metric cfg read n (last ds)) ds.
Proof.
  intros a Ha. unfold evaluate_metric, mbind, SE_bind, se_get.
  destruct (dict_get n (as_collectors a)) as [c|].
  2: { exists ds. split; [done|]. by intros d [= <-]. }
  cbn [sample se_modify]. set (c' := record_metric (read n) c). unfold se_lift.
  cbn [as_replicas with_collector as_component].
  destruct (desired_replicas cfg (as_replicas a) _ _) as [[[up x]|]|e] eqn:E; cbn.
  - destruct (x =? as_replicas a) eqn:Ex; cbn.
    + exists ds. split; [by apply decided_with_collector|]. by intros d [= <-].
    + apply Z.eqb_neq in Ex. destruct Ha as [H L S F]. apply desired_sound in E as [E1 E2]; [|done].
      set (d := MkDecision _ _ _ _ _ _ _). exists (ds ++ [d])%list. split.
      * split; cbn; [by rewrite H, app_assoc| | |done].
        -- by apply (linked_snoc _ _ (as_replicas a)).
        -- apply Forall_app. split; [done|]. by repeat constructor.
      * intros d' [= <-]. by rewrite last_snoc.
  - exists ds. split; [by apply decided_with_collector|]. by intros d [= <-].
  - exists ds. split; [by apply decided_with_collector|done].
Qed.

Lemma evaluate_metrics_decides read ns ds : decides (evaluate_metrics cfg read ns (last ds)) ds.
Proof.
  revert ds. induction ns as [|n ns IH]; intros ds a Ha; simpl.
  { exists ds. split; [done|]. by intros d [= <-]. }
  destruct (evaluate_metric_decides read n ds a Ha) as (ds1 & H1 & Hr). unfold mbind, SE_bind.
  destruct (evaluate_metric cfg read n (last ds) a) as [[d|e] a1]; cbn in *; [|by exists ds1].
  rewrite (Hr d eq_refl). by apply IH.
Qed.

Lemma evaluate_decides read now : decides (autoscaler_evaluate cfg read now) [].
Proof.
  intros a Ha. unfold autoscaler_evaluate.
  assert (∃ ds', decided cfg before start ds' a ∧ ∀ d : option AutoscaleDecision, Ok (E := ScaleError) None = Ok d → d = last ds') as Hno.
  { exists []. split; [done|]. by intros d [= <-]. }
  destruct (negb _); [exact Hno|]. unfold mbind, SE_bind, se_get. destruct (flt _ _); [exact Hno|].
  cbn [se_modify]. apply (evaluate_metrics_decides read _ []). by destruct Ha.
Qed.

(** The other metrics of an evaluation leave a collector alone. *)
Lemma evaluate_metrics_get read ns d n a :
  n ∉ ns → dict_get n (as_collectors (evaluate_metrics cfg read ns d a).2) = dict_get n (as_collectors a).
Proof.
  revert d a. induction ns as [|m ns IH]; intros d a Hn; simpl; [done|].
  apply not_elem_of_cons in Hn as [Hm Hn]. unfold mbind, SE_bind.
  assert (dict_get n (as_collectors (evaluate_metric cfg read m d a).2) = dict_get n (as_collectors a)) as Hg.
  { unfold evaluate_metric, mbind, SE_bind, se_get, se_lift, se_modify.
    destruct (dict_get m (as_collectors a)) as [c|]; [|done]. cbn [sample].
    destruct (desired_replicas _ _ _ _) as [[[up x]|]|]; cbn; [destruct (x =? _); cbn|..];
      by rewrite dict_get_set_ne. }
  destruct (evaluate_metric cfg read m d a) as [[d'|e] a1]; cbn in *; [by rewrite IH|done].
Qed.

Lemma evaluate_metrics_app read ns ms d a :
  evaluate_metrics cfg read (ns ++ ms)%list d a
  = match evaluate_metrics cfg read ns d a with
    | (Ok d', a') => evaluate_metrics cfg read ms d' a'
    | (Err e, a') => (Err e, a')
    end.
Proof.
  revert d a. induction ns as [|n ns IH]; intros d a; [done|]. cbn [app evaluate_metrics].
  unfold mbind, SE_bind. destruct (evaluate_metric cfg read n d a) as [[d'|e] a1]; [apply IH|done].
Qed.

(** A metric whose mean is zero, under a positive threshold, asks for the
    minimum. *)
Lemma desired_idle r m e o :
  0 <= sc_min_replicas cfg →
  flt fzero (fmul (S754_finite false m e) (sc_down_factor cfg)) = true →
  desired_replicas cfg r fzero (S754_finite false m e) = Ok o → o = Some (false, sc_min_replicas cfg).
Proof.
  intros Hm Hf. unfold desired_replicas. rewrite Hf.
  change (fle (S754_finite false m e) fzero) with false. cbn [orb negb is_fzero].
  change (fdiv fzero (S754_finite false m e)) with fzero.
  destruct (float_of_Z r) as [s|s| |s m' e']; cbn; intros Hok; try done; injection Hok as <-;
    by rewrite Z.max_l.
Qed.

End AutoscaleSpec.

(** (C33) An evaluation of the autoscaler, in whatever state it is, when the minimum is
    not above the maximum and the replicas are not below the minimum: it adds
    decisions to the history, each of which changes the number of replicas and
    starts from what the decision before it, or the state, has set; none goes
    below the minimum, and one that scales up not above the maximum; the
    replicas are those of the last decision, which is the one returned.  When a
    metric makes it raise, the same holds of the decisions made before. *)
Theorem autoscaler_decisions (cfg : Autoscale.ScaleConfig) (read : string → float) (now : float)
    (a a' : Autoscale.Autoscaler) (r : result Autoscale.ScaleError (option Autoscale.AutoscaleDecision))
    (Hb : Autoscale.sc_min_replicas cfg <= Autoscale.sc_max_replicas cfg)
    (Hmin : Autoscale.sc_min_replicas cfg <= Autoscale.as_replicas a)
    (H : Autoscale.autoscaler_evaluate cfg read now a = (r, a')) :
  ∃ ds, Autoscale.decided cfg (Autoscale.as_decisions a) (Autoscale.as_replicas a) ds a' ∧
    ∀ d, r = Ok d → d = last ds.
Proof.
  destruct (evaluate_decides cfg Hb (Autoscale.as_decisions a) (Autoscale.as_replicas a) read now a) as (ds & Hd & Hr).
  { split; [by rewrite app_nil_r|done|constructor|done]. }
  rewrite H in Hd, Hr. by exists ds.
Qed.

(** A collector that nobody feeds undoes the others: when the last collector of
    the autoscaler has the mean 0, every evaluation that runs to its end leaves
    the minimum of replicas, whatever the other metrics have asked for. *)
Theorem idle_collector_wins (cfg : Autoscale.ScaleConfig) (read : string → float) (now : float)
    (a a' : Autoscale.Autoscaler) (d : option Autoscale.AutoscaleDecision)
    (init : dict string Autoscale.MetricCollector) (name : string) (c : Autoscale.MetricCollector)
    (m : positive) (e : Z)
    (Hmin : 0 <= Autoscale.sc_min_replicas cfg)
    (Hon : Autoscale.sc_enabled cfg = true)
    (Hcool : flt (fsub now (Autoscale.as_last_eval a)) (Autoscale.sc_cooldown cfg) = false)
    (Hlast : Autoscale.as_collectors a = (init ++ [(name, c)])%list) (Hwf : dict_wf (Autoscale.as_collectors a))
    (Hmean : Autoscale.window_mean (Autoscale.record_metric (read name) c) = fzero)
    (Hthr : Autoscale.threshold_for cfg c = S754_finite false m e)
    (Hdown : flt fzero (fmul (S754_finite false m e) (Autoscale.sc_down_factor cfg)) = true)
    (H : Autoscale.autoscaler_evaluate cfg read now a = (Ok d, a')) :
  Autoscale.as_replicas a' = Autoscale.sc_min_replicas cfg.
Proof.
  unfold Autoscale.autoscaler_evaluate in H. rewrite Hon in H. cbn [negb] in H.
  unfold mbind, SE_bind, se_get in H. rewrite Hcool in H. cbn [se_modify] in H.
  set (a1 := Autoscale.with_last_eval now a) in H.
  assert (name ∉ dict_keys init) as Hn.
  { unfold dict_wf in Hwf. rewrite Hlast, fmap_app in Hwf. apply NoDup_app in Hwf as (_ & Hd & _).
    intros Hin. apply (Hd _ Hin). left. }
  assert (dict_get name (Autoscale.as_collectors a1) = Some c) as Hg.
  { apply dict_elem_of_get; [done|]. unfold a1. cbn. rewrite Hlast. apply elem_of_app. right. left. }
  unfold dict_keys in H. rewrite Hlast, fmap_app in H. cbn [list_fmap fmap fst] in H.
  rewrite evaluate_metrics_app in H.
  pose proof (evaluate_metrics_get cfg read (init.*1) None name a1 Hn) as Hk.
  destruct (Autoscale.evaluate_metrics cfg read init.*1 None a1) as [[d1|e1] a2]; [|done].
  cbn [snd] in Hk. rewrite Hg in Hk. cbn [list_fmap Autoscale.evaluate_metrics] in H.
  apply se_bind_inv in H as (d2 & a3 & H & Hend). injection Hend as _ <-.
  unfold Autoscale.evaluate_metric, mbind, SE_bind, se_get in H. rewrite Hk in H.
  cbn [Autoscale.sample se_modify] in H. unfold se_lift in H.
  change (Autoscale.threshold_for cfg (Autoscale.record_metric (read name) c)) with (Autoscale.threshold_for cfg c) in H.
  rewrite Hmean, Hthr in H. cbn [Autoscale.as_replicas Autoscale.with_collector] in H.
  destruct (Autoscale.desired_replicas cfg (Autoscale.as_replicas a2) fzero (S754_finite false m e)) as [o|] eqn:Eo;
    [|done].
  apply desired_idle in Eo as ->; [|done..].
  destruct (Autoscale.sc_min_replicas cfg =? Autoscale.as_replicas a2) eqn:Ee; [|by injection H as _ <-].
  injection H as _ <-. apply Z.eqb_eq in Ee. done.
Qed.

(** * Backups: properties *)

Lemma filter_true_id {A} (p : A → bool) (l : list A) : (∀ x, x ∈ l → p x = true) → List.filter p l = l.
Proof.
  induction l as [|x l IH]; intros H; [done|]. cbn [List.filter]. rewrite (H x) by left.
  f_equal. apply IH. intros y Hy. apply H. by right.
Qed.


(** A backup restores the state it was taken from, as long as the object that
    the provider returned has not changed since. *)
Theorem backup_round_trip {D : Type} `{BD : !Backups.BackupData D} (keep : Z) (id name gen : string) (now later_ : float)
    (meta : dict string string) (l : nat) (h h' : nat → D) (s s' : dict string Backups.BackupRecord)
    (r : Backups.BackupRecord) (target : D → option string)
    (H : Backups.create_backup keep id name gen now meta (Some l) h s = (Ok r, s'))
    (Hkept : dict_get id s' = Some r) (Hsame : h' l = h l) (Ht : target (h l) = None) :
  ∃ s'', Backups.restore id true later_ target h' s' = (Ok (Backups.with_restored later_ r, h l), s'').
Proof.
  unfold Backups.create_backup in H. injection H as <- _. unfold Backups.restore, Backups.get_backup.
  rewrite Hkept. cbn. rewrite Hsame, String.eqb_refl. cbn. rewrite Ht. by eexists.
Qed.

(** The record holds the object and not a copy: when the provider returns its
    live state and that state changes afterwards, the backup cannot be restored
    with verification, and without it restores the state of now. *)
Theorem backup_aliases_live_state {D : Type} `{BD : !Backups.BackupData D} (keep : Z) (id name gen : string)
    (now later_ : float) (meta : dict string string) (l : nat) (h h' : nat → D)
    (s s' : dict string Backups.BackupRecord) (r : Backups.BackupRecord) (target : D → option string)
    (H : Backups.create_backup keep id name gen now meta (Some l) h s = (Ok r, s'))
    (Hkept : dict_get id s' = Some r)
    (Hchanged : Backups.bd_checksum (h' l) ≠ Backups.bd_checksum (h l)) (Ht : target (h' l) = None) :
  Backups.restore id true later_ target h' s' = (Err (Backups.ChecksumMismatch id), s') ∧
  ∃ s'', Backups.restore id false later_ target h' s' = (Ok (Backups.with_restored later_ r, h' l), s'').
Proof.
  unfold Backups.create_backup in H. injection H as <- _. unfold Backups.restore, Backups.get_backup.
  rewrite Hkept. cbn. rewrite (proj2 (String.eqb_neq _ _)) by done. cbn. rewrite Ht. split; [done|by eexists].
Qed.

Section Prune.
Context {D : Type} `{BD : !Backups.BackupData D}.
Import Backups.

Definition backups_ok (s : dict string BackupRecord) : Prop :=
  keyed b_id s ∧ Forall (λ p, is_nan (b_created_at p.2) = false) s.

Lemma bs_list_ids_nodup (s : dict string BackupRecord) : keyed b_id s → NoDup (b_id <$> bs_list s).
Proof.
  intros [Hw Hk]. unfold bs_list. rewrite py_sorted_perm. unfold dict_values.
  replace (b_id <$> s.*2) with (s.*1); [exact Hw|]. rewrite <- list_fmap_compose.
  apply list_fmap_ext. intros i [k r] Hi. rewrite Forall_lookup in Hk. symmetry. apply (Hk i (k, r) Hi).
Qed.

Lemma elem_of_bs_list (s : dict string BackupRecord) r :
  keyed b_id s → r ∈ bs_list s ↔ dict_get (b_id r) s = Some r.
Proof.
  intros Hk. unfold bs_list. rewrite elem_of_py_sorted. split; [by apply keyed_value|].
  intros Hg%dict_get_elem_of. apply list_elem_of_fmap. by exists (b_id r, r).
Qed.
End Prune.

(** Pruning to [n] keeps [n] backups, or all of them when there are fewer, and
    none that it deletes is newer than one that it keeps. *)
Theorem prune_keeps_newest {D : Type} `{BD : !Backups.BackupData D} (n : Z) (s : dict string Backups.BackupRecord)
    (Hn : 0 <= n) (Hs : backups_ok s) :
  let '(removed, s') := Backups.prune_backups n s in
  removed = Z.max 0 (zlen s - n) ∧
  (∀ r, r ∈ Backups.bs_list s' ↔ r ∈ take (Z.to_nat n) (Backups.bs_list s)) ∧
  (∀ k g, k ∈ Backups.bs_list s' → g ∈ Backups.bs_list s → g ∉ Backups.bs_list s' →
     flt (Backups.b_created_at k) (Backups.b_created_at g) = false).
Proof.
  destruct Hs as [Hk Hnan]. unfold Backups.prune_backups, Backups.pruned.
  set (l := Backups.bs_list s).
  assert (zlen l = zlen s) as Hl.
  { unfold l, Backups.bs_list. rewrite zlen_sorted. unfold dict_values, zlen. by rewrite length_fmap. }
  assert (py_slice n (zlen l) l = drop (Z.to_nat n) l) as ->.
  { rewrite py_slice_nonneg by (unfold zlen; lia). unfold zlen. by rewrite Nat2Z.id, firstn_all. }
  set (gone := Backups.b_id <$> drop (Z.to_nat n) l).
  pose proof (bs_list_ids_nodup s Hk) as Hnd. fold l in Hnd.
  assert (Backups.b_id <$> l = (Backups.b_id <$> take (Z.to_nat n) l) ++ gone)%list as Happ
    by (unfold gone; by rewrite <- fmap_app, take_drop).
  rewrite Happ in Hnd. apply NoDup_app in Hnd as (Hnd1 & Hdisj & Hnd2).
  assert (keyed Backups.b_id (pop_all gone s)) as Hk' by by apply keyed_pop_all.
  assert (∀ r, r ∈ Backups.bs_list (pop_all gone s) ↔ r ∈ take (Z.to_nat n) l) as Hin.
  { intros r. rewrite elem_of_bs_list, get_pop_all by (done || apply Hk). split.
    - case_decide as Hg; [done|]. intros Hr. apply (elem_of_bs_list s) in Hr; [|done]. fold l in Hr.
      rewrite <- (take_drop (Z.to_nat n) l) in Hr. apply elem_of_app in Hr as [Hr|Hr]; [done|].
      exfalso. apply Hg. by apply list_elem_of_fmap_2.
    - intros Hr. rewrite decide_False; [|by apply Hdisj, list_elem_of_fmap_2].
      apply (elem_of_bs_list s); [done|]. fold l. rewrite <- (take_drop (Z.to_nat n) l).
      apply elem_of_app. by left. }
  split; [|split; [done|]].
  - assert (List.filter (λ i, dict_mem i s) gone = gone) as ->.
    { apply filter_true_id. intros i Hi. apply list_elem_of_fmap in Hi as (r & -> & Hr).
      assert (r ∈ l) as Hrl by (rewrite <- (take_drop (Z.to_nat n) l); apply elem_of_app; by right).
      apply (elem_of_bs_list s) in Hrl; [|done]. unfold dict_mem. by rewrite Hrl. }
    unfold gone, zlen. rewrite length_fmap, length_drop. unfold zlen in Hl. lia.
  - intros k g Hkk Hg Hng. apply Hin in Hkk.
    assert (g ∈ drop (Z.to_nat n) l) as Hgd.
    { fold l in Hg. rewrite <- (take_drop (Z.to_nat n) l) in Hg. apply elem_of_app in Hg as [Hg|Hg]; [|done].
      exfalso. by apply Hng, Hin. }
    assert (descending (Backups.b_created_at <$> l)) as Hsort.
    { unfold l, Backups.bs_list. apply (sorted_descending Backups.b_created_at).
      unfold dict_values. by rewrite <- list_fmap_compose, Forall_fmap. }
    rewrite <- (take_drop (Z.to_nat n) l), fmap_app in Hsort. unfold descending in Hsort.
    apply StronglySorted_app_inv in Hsort as (_ & _ & Hsort).
    apply Hsort; by apply list_elem_of_fmap_2.
Qed.

(** * Replication: properties *)

Lemma ship_all_spec transport sid started ids replicas s :
  length ids = length replicas → NoDup ids →
  let '(records, s') := Replication.ship_all transport sid started ids replicas s in
  records = zip_with (λ i r, Replication.replica_record sid started i r (transport r)) ids replicas ∧
  Replication.ss_snapshots s' = Replication.ss_snapshots s ∧
  (∀ i, i ∉ ids → dict_get i (Replication.ss_records s') = dict_get i (Replication.ss_records s)) ∧
  Forall (λ r, dict_get (Replication.rr_id r) (Replication.ss_records s') = Some r) records.
Proof.
  revert ids s. induction replicas as [|r rs IH]; intros [|i ids] s Hl Hnd; simpl in Hl; try done.
  apply NoDup_cons in Hnd as [Hi Hnd]. cbn [Replication.ship_all].
  set (x := Replication.replica_record sid started i r (transport r)).
  specialize (IH ids (Replication.save_record x s) ltac:(lia) Hnd).
  destruct (Replication.ship_all transport sid started ids rs (Replication.save_record x s)) as [records s'].
  destruct IH as (-> & Hs & Hg & Hf).
  assert (Replication.rr_id x = i) as Hx by (unfold x, Replication.replica_record; by destruct (transport r)).
  split; [done|]. split; [by rewrite Hs|]. split.
  - intros j Hj. apply not_elem_of_cons in Hj as [Hne Hj]. rewrite Hg by done. cbn.
    by rewrite Hx, dict_get_set_ne by done.
  - constructor; [|done]. rewrite Hx, Hg by done. cbn. by rewrite Hx, dict_get_set_eq.
Qed.

(** A snapshot is sent to every replica, whatever happens to the others: there is
    one record for each, in their order, which says whether its transport has
    raised; the records are in the store, next to those of earlier snapshots. *)
Theorem replicate_isolated (transport : string → Replication.Shipment) (snapshot : nat)
    (sid gen : string) (started finished : float) (ids : list string) (m : Replication.ReplicationManager)
    (Hl : length ids = length (Replication.rm_replicas m)) (Hn : NoDup ids) :
  let '(records, m') := Replication.replicate_snapshot transport snapshot sid gen started finished ids m in
  let id := str_or sid ("snapshot-" +:+ gen) in
  Replication.rr_replica_id <$> records = Replication.rm_replicas m ∧
  Forall (λ r, Replication.rr_snapshot_id r = id ∧
               (Replication.rr_state r = Replication.R_REPLICATED ↔
                ∃ t1 t2, transport (Replication.rr_replica_id r) = Replication.Shipped t1 t2) ∧
               dict_get (Replication.rr_id r) (Replication.ss_records (Replication.rm_store m')) = Some r) records ∧
  (∀ i, i ∉ ids → dict_get i (Replication.ss_records (Replication.rm_store m'))
                  = dict_get i (Replication.ss_records (Replication.rm_store m))) ∧
  dict_get id (Replication.ss_snapshots (Replication.rm_store m')) = Some snapshot.
Proof.
  unfold Replication.replicate_snapshot.
  set (id := str_or sid ("snapshot-" +:+ gen)).
  pose proof (ship_all_spec transport id started ids (Replication.rm_replicas m)
    (Replication.save_snapshot id snapshot (Replication.rm_store m)) Hl Hn) as H.
  destruct (Replication.ship_all _ _ _ _ _ _) as [records s'].
  destruct H as (-> & Hs & Hg & Hf). cbn [Replication.rm_store]. split; [|split; [|split]].
  - clear -Hl. revert Hl. generalize (Replication.rm_replicas m) as rs. induction ids as [|i ids IH]; intros [|r rs] Hl;
      simpl in Hl; try done. cbn [zip_with]. rewrite fmap_cons, IH by lia. f_equal.
    unfold Replication.replica_record. by destruct (transport r).
  - rewrite Forall_forall in Hf |- *. intros x Hx. specialize (Hf x Hx).
    apply elem_of_lookup_zip_with in Hx as (k & i & r & -> & _ & _).
    unfold Replication.replica_record in *. destruct (transport r) as [t1 t2|msg] eqn:E; cbn in *;
      (split; [done|]); (split; [|exact Hf]); rewrite E; naive_solver.
  - done.
  - rewrite Hs. cbn. apply dict_get_set_eq.
Qed.

(** * Disaster recovery: properties *)

Section RecoverySpec.
Import Recovery.

Definition nodes_ok (s : NodeStore) : Prop := keyed n_id (ns_nodes s).

(** An update of one node, pointwise. *)
Lemma update_node_spec id f s n :
  ns_get id s = Some n →
  ∃ s', update_node id f s = (Ok tt, s') ∧
    ∀ x, ns_get x s' = if decide (id = x) then Some (f n) else ns_get x s.
Proof.
  unfold ns_get, update_node, ns_update. intros ->. eexists. split; [done|].
  intros x. unfold ns_get. cbn. apply dict_get_set.
Qed.

Definition fenced (self : string) (n : NodeInfo) : NodeInfo :=
  if String.eqb (n_id n) self then set_role STANDBY n else set_state FAILED n.

Lemma fence_all self ids s :
  NoDup ids → (∀ i, i ∈ ids → ∃ n, ns_get i s = Some n ∧ n_id n = i) →
  ∃ s', each_node (fence_node self) ids s = (Ok tt, s') ∧
    ∀ x, ns_get x s' = if decide (x ∈ ids) then fenced self <$> ns_get x s else ns_get x s.
Proof.
  revert s. induction ids as [|i ids IH]; intros s Hnd Hin.
  { exists s. split; [done|]. intros x. by rewrite decide_False by apply not_elem_of_nil. }
  apply NoDup_cons in Hnd as [Hi Hnd]. destruct (Hin i ltac:(left)) as (n & Hn & Hid).
  assert (∃ s1, fence_node self i s = (Ok tt, s1) ∧
    ∀ x, ns_get x s1 = if decide (i = x) then Some (fenced self n) else ns_get x s) as (s1 & Hs1 & Hg1).
  { unfold fence_node, fenced. rewrite Hid. destruct (String.eqb i self); cbn [negb]; by apply update_node_spec. }
  destruct (IH s1 Hnd) as (s' & Hs' & Hg').
  { intros j Hj. destruct (Hin j ltac:(by right)) as (n' & Hn' & Hid'). exists n'. rewrite Hg1.
    by rewrite decide_False by congruence. }
  exists s'. split.
  - cbn [each_node]. unfold mbind, SE_bind. by rewrite Hs1.
  - intros x. rewrite Hg', !Hg1. destruct (decide (i = x)) as [->|Hne].
    + rewrite decide_False by done. rewrite decide_True by left. by rewrite Hn.
    + destruct (decide (x ∈ ids)); [by rewrite decide_True by (by right)|].
      rewrite decide_False; [done|]. by apply not_elem_of_cons.
Qed.

Definition promotable (n : NodeInfo) : Prop := n_state n ≠ FAILED ∧ n_role n ≠ LEADER.
Definition promoted (n : NodeInfo) : NodeInfo :=
  if bool_decide (n_role n = STANDBY) then set_state HEALTHY (set_role FOLLOWER n) else n.

Lemma promote_standby_ok id s n :
  ns_get id s = Some n → promotable n →
  ∃ s', promote_standby id s = (Ok (promoted n), s') ∧
    ∀ x, ns_get x s' = if decide (id = x) then Some (promoted n) else ns_get x s.
Proof.
  intros Hn [Hf Hl]. unfold promote_standby, mbind, SE_bind, require_node at 1. rewrite Hn.
  rewrite bool_decide_eq_false_2 by done. unfold promoted.
  destruct (decide (n_role n = STANDBY)) as [Hst|Hst].
  - rewrite !(bool_decide_eq_true_2 (n_role n = STANDBY)) by done. cbn [negb andb].
    destruct (update_node_spec id (λ n, set_state HEALTHY (set_role FOLLOWER n)) s n Hn) as (s' & Hs' & Hg).
    exists s'. rewrite Hs'. unfold require_node. rewrite Hg. by rewrite decide_True.
  - rewrite !(bool_decide_eq_false_2 (n_role n = STANDBY)) by done.
    rewrite (bool_decide_eq_true_2 (n_role n = FOLLOWER)) by (destruct (n_role n); done). cbn [negb andb].
    exists s. split; [done|]. intros x. destruct (decide (id = x)); [by subst|done].
Qed.

Lemma promote_all ids s :
  NoDup ids → (∀ i, i ∈ ids → ∃ n, ns_get i s = Some n ∧ promotable n) →
  ∃ s', each_node promote_standby ids s = (Ok tt, s') ∧
    ∀ x, ns_get x s' = if decide (x ∈ ids) then promoted <$> ns_get x s else ns_get x s.
Proof.
  revert s. induction ids as [|i ids IH]; intros s Hnd Hin.
  { exists s. split; [done|]. intros x. by rewrite decide_False by apply not_elem_of_nil. }
  apply NoDup_cons in Hnd as [Hi Hnd]. destruct (Hin i ltac:(left)) as (n & Hn & Hp).
  destruct (promote_standby_ok i s n Hn Hp) as (s1 & Hs1 & Hg1).
  destruct (IH s1 Hnd) as (s' & Hs' & Hg').
  { intros j Hj. destruct (Hin j ltac:(by right)) as (n' & Hn' & Hp'). exists n'. rewrite Hg1.
    by rewrite decide_False by congruence. }
  exists s'. split.
  - cbn [each_node]. unfold mbind, SE_bind. by rewrite Hs1.
  - intros x. rewrite Hg', !Hg1. destruct (decide (i = x)) as [->|Hne].
    + rewrite decide_False by done. rewrite decide_True by left. by rewrite Hn.
    + destruct (decide (x ∈ ids)); [by rewrite decide_True by (by right)|].
      rewrite decide_False; [done|]. by apply not_elem_of_cons.
Qed.

(** The identifiers of the nodes that satisfy [p]. *)
Definition ids_of (p : NodeInfo → bool) (s : NodeStore) : list string := n_id <$> List.filter p (ns_all s).

Lemma elem_of_ids_of p s i : nodes_ok s → i ∈ ids_of p s ↔ ∃ n, ns_get i s = Some n ∧ p n = true.
Proof.
  intros Hs. unfold ids_of, ns_all, ns_get. rewrite list_elem_of_fmap. split.
  - intros (n & -> & Hn). apply list_elem_of_In, List.filter_In in Hn as [Hn Hp].
    apply list_elem_of_In in Hn. rewrite elem_of_py_sorted in Hn. exists n. split; [|done]. by apply keyed_value.
  - intros (n & Hn & Hp). exists n. split; [symmetry; by eapply keyed_get|].
    apply list_elem_of_In, List.filter_In. split; [|done]. apply list_elem_of_In. rewrite elem_of_py_sorted.
    apply list_elem_of_fmap. exists (i, n). split; [done|by apply dict_get_elem_of].
Qed.

Lemma ids_of_nodup p s : nodes_ok s → NoDup (ids_of p s).
Proof.
  intros [Hw Hk]. unfold ids_of, ns_all.
  assert (NoDup (n_id <$> py_sorted (λ a b, str_lt (n_id a) (n_id b)) (dict_values (ns_nodes s)))) as Hnd.
  { rewrite py_sorted_perm. unfold dict_values. rewrite <- list_fmap_compose.
    replace (n_id ∘ snd <$> ns_nodes s) with ((ns_nodes s).*1); [exact Hw|].
    apply list_fmap_ext. intros i [k n] Hi. rewrite Forall_lookup in Hk. symmetry. apply (Hk i (k, n) Hi). }
  induction (py_sorted _ _) as [|n l IH]; [constructor|]. rewrite fmap_cons in Hnd.
  apply NoDup_cons in Hnd as [Hn Hnd]. simpl. destruct (p n); [|by apply IH]. rewrite fmap_cons.
  apply NoDup_cons. split; [|by apply IH]. intros Hin. apply Hn.
  apply list_elem_of_fmap in Hin as (x & -> & Hx). apply list_elem_of_In, List.filter_In in Hx as [Hx _].
  by apply list_elem_of_fmap_2, list_elem_of_In.
Qed.

Lemma filter_not_nil p s : nodes_ok s → (∃ i n, ns_get i s = Some n ∧ p n = true) → List.filter p (ns_all s) ≠ [].
Proof.
  intros Hs (i & n & Hn & Hp) He. assert (i ∈ ids_of p s) as Hi by (apply elem_of_ids_of; eauto).
  unfold ids_of in Hi. rewrite He in Hi. by apply elem_of_nil in Hi.
Qed.

(** The promotion of a run of nodes raises when it meets a failed one. *)
Lemma promote_fails self ids s :
  NoDup ids →
  (∀ i, i ∈ ids → ∃ n, ns_get i s = Some n ∧ (if decide (i = self) then promotable n else n_state n = FAILED)) →
  (∃ i, i ∈ ids ∧ i ≠ self) →
  ∃ i s', each_node promote_standby ids s = (Err (PromoteFailedNode i), s') ∧ i ≠ self ∧
    ∀ x, x ≠ self → ns_get x s' = ns_get x s.
Proof.
  revert s. induction ids as [|i ids IH]; intros s Hnd Hin (j & Hj & Hjs); [by apply elem_of_nil in Hj|].
  apply NoDup_cons in Hnd as [Hi Hnd]. destruct (Hin i ltac:(left)) as (n & Hn & Hp).
  cbn [each_node]. unfold mbind, SE_bind at 1. destruct (decide (i = self)) as [->|Hne].
  - destruct (promote_standby_ok self s n Hn Hp) as (s1 & Hs1 & Hg1). rewrite Hs1.
    destruct (IH s1 Hnd) as (k & s' & Hs' & Hk & Hg').
    + intros x Hx. destruct (Hin x ltac:(by right)) as (n' & Hn' & Hp'). exists n'. rewrite Hg1.
      rewrite decide_False by congruence. done.
    + exists j. apply elem_of_cons in Hj as [->|Hj]; [done|by split].
    + exists k, s'. split; [exact Hs'|]. split; [done|]. intros x Hx. rewrite Hg' by done. rewrite Hg1.
      by rewrite decide_False by congruence.
  - exists i, s. unfold promote_standby, mbind, SE_bind, require_node. rewrite Hn.
    by rewrite bool_decide_eq_true_2 by done.
Qed.

End RecoverySpec.

(** The failover of a region to another one: the local node becomes a standby,
    every other node of the region is failed, every standby of the other region
    that is alive becomes a healthy follower, and no other node changes. *)
Theorem failover_region_moves (self region standby : string) (s : NodeStore)
    (Hs : nodes_ok s) (Hne : str_or standby region ≠ region)
    (Hnodes : ∃ i n, ns_get i s = Some n ∧ n_region n = region)
    (Hcands : ∃ i n, ns_get i s = Some n ∧ Recovery.candidate (str_or standby region) n = true)
    (Hleader : ∀ i n, ns_get i s = Some n → Recovery.candidate (str_or standby region) n = true → n_role n ≠ LEADER) :
  ∃ s', Recovery.failover_region self region standby s
        = (Ok (zlen (ids_of (Recovery.in_region region) s)), s') ∧
    ∀ i, ns_get i s' =
      (λ n, if Recovery.in_region region n then fenced self n
            else if Recovery.candidate (str_or standby region) n then promoted n else n) <$> ns_get i s.
Proof.
  set (st := str_or standby region) in *.
  assert (List.filter (Recovery.in_region region) (ns_all s) ≠ []) as H1.
  { apply filter_not_nil; [done|]. destruct Hnodes as (i & n & Hn & Hr). exists i, n.
    split; [done|]. by apply String.eqb_eq. }
  assert (List.filter (Recovery.candidate st) (ns_all s) ≠ []) as H2 by by apply filter_not_nil.
  destruct (fence_all self (ids_of (Recovery.in_region region) s) s) as (s1 & Hs1 & Hg1).
  { by apply ids_of_nodup. }
  { intros i (n & Hn & _)%elem_of_ids_of; [|done]. exists n. split; [done|]. by eapply keyed_get. }
  assert (∀ i n, ns_get i s = Some n → Recovery.candidate st n = true → i ∉ ids_of (Recovery.in_region region) s) as Hdis.
  { intros i n Hn Hc (n' & Hn' & Hr)%elem_of_ids_of; [|done]. simplify_eq.
    apply andb_true_iff in Hc as [Hc _]. unfold Recovery.in_region in *.
    apply String.eqb_eq in Hc, Hr. congruence. }
  destruct (promote_all (ids_of (Recovery.candidate st) s) s1) as (s2 & Hs2 & Hg2).
  { by apply ids_of_nodup. }
  { intros i (n & Hn & Hc)%elem_of_ids_of; [|done]. exists n. rewrite Hg1, decide_False by (by eapply Hdis).
    split; [done|]. split; [|by eapply Hleader]. apply andb_true_iff in Hc as [_ Hc].
    by apply negb_true_iff, bool_decide_eq_false in Hc. }
  exists s2. split.
  - unfold Recovery.failover_region, mbind, SE_bind, se_get. fold st.
    rewrite !bool_decide_eq_false_2 by done. unfold ids_of in Hs1, Hs2. rewrite Hs1, Hs2.
    unfold ids_of, zlen. by rewrite length_fmap.
  - intros i. rewrite Hg2, Hg1. destruct (ns_get i s) as [n|] eqn:En.
    + destruct (Recovery.candidate st n) eqn:Ec.
      * rewrite decide_True by (apply elem_of_ids_of; eauto). rewrite decide_False by (by eapply Hdis).
        cbn. rewrite Ec. destruct (Recovery.in_region region n) eqn:Er; [|done].
        exfalso. apply (Hdis i n En Ec), elem_of_ids_of; eauto.
      * rewrite decide_False; [|intros (n' & Hn' & Hc)%elem_of_ids_of; [simplify_eq; congruence|done]].
        destruct (decide (i ∈ _)) as [Hi|Hi]; rewrite elem_of_ids_of in Hi by done.
        -- destruct Hi as (n' & Hn' & Hr). rewrite En in Hn'. injection Hn' as <-. cbn. by rewrite Hr.
        -- cbn. rewrite Ec. destruct (Recovery.in_region region n) eqn:Er; [|done]. exfalso. apply Hi. eauto.
    + by repeat case_decide.
Qed.

(** Without a standby region the nodes that are to be promoted are the ones that
    have just been failed: the failover raises, after having failed every node of
    the region but the local one. *)
Theorem failover_same_region_raises (self region : string) (s : NodeStore)
    (Hs : nodes_ok s)
    (Hlive : ∃ i n, ns_get i s = Some n ∧ Recovery.candidate region n = true ∧ i ≠ self) :
  ∃ i s', Recovery.failover_region self region "" s = (Err (Recovery.PromoteFailedNode i), s') ∧
    ∀ x n, ns_get x s = Some n → n_region n = region → x ≠ self →
      ns_get x s' = Some (set_state FAILED n).
Proof.
  assert (∀ n, Recovery.candidate region n = true → Recovery.in_region region n = true) as Hci
    by (intros n [H _]%andb_true_iff; done).
  assert (List.filter (Recovery.in_region region) (ns_all s) ≠ []) as H1.
  { apply filter_not_nil; [done|]. destruct Hlive as (i & n & Hn & Hc & _). exists i, n. auto. }
  assert (List.filter (Recovery.candidate region) (ns_all s) ≠ []) as H2.
  { apply filter_not_nil; [done|]. destruct Hlive as (i & n & Hn & Hc & _). eauto. }
  destruct (fence_all self (ids_of (Recovery.in_region region) s) s) as (s1 & Hs1 & Hg1).
  { by apply ids_of_nodup. }
  { intros i (n & Hn & _)%elem_of_ids_of; [|done]. exists n. split; [done|]. by eapply keyed_get. }
  assert (∀ i n, ns_get i s = Some n → Recovery.in_region region n = true → ns_get i s1 = Some (fenced self n)) as Hf.
  { intros i n Hn Hr. rewrite Hg1, decide_True by (apply elem_of_ids_of; eauto). by rewrite Hn. }
  destruct (promote_fails self (ids_of (Recovery.candidate region) s) s1) as (k & s2 & Hs2 & Hk & Hg2).
  - by apply ids_of_nodup.
  - intros i (n & Hn & Hc)%elem_of_ids_of; [|done]. exists (fenced self n). split; [by apply Hf, Hci|].
    unfold fenced. rewrite (keyed_get n_id i n _ Hs Hn). case_decide as Hi.
    + subst. rewrite String.eqb_refl. split; [|done]. cbn. apply andb_true_iff in Hc as [_ Hc].
      by apply negb_true_iff, bool_decide_eq_false in Hc.
    + by rewrite (proj2 (String.eqb_neq _ _)).
  - destruct Hlive as (i & n & Hn & Hc & Hi). exists i. split; [|done]. apply elem_of_ids_of; eauto.
  - exists k, s2. split.
    + unfold Recovery.failover_region, mbind, SE_bind, se_get. change (str_or "" region) with region.
      rewrite !bool_decide_eq_false_2 by done. unfold ids_of in Hs1, Hs2. by rewrite Hs1, Hs2.
    + intros x n Hn Hr Hx. rewrite Hg2 by done. rewrite (Hf x n Hn) by (by apply String.eqb_eq).
      unfold fenced. rewrite (keyed_get n_id x n _ Hs Hn). by rewrite (proj2 (String.eqb_neq _ _)).
Qed.

(** * Examples *)

Module OpsDemo.
Import Autoscale.

Definition scaler : Autoscaler := new_autoscaler default_scale_config None.
(** Only the processor load is fed; the other sources answer 0. *)
Definition busy_cpu (m : string) : float := if String.eqb m "cpu" then float_of_Z 95 else fzero.

(** The evaluation scales up for the processor and at once down again. *)
Example scales_up_and_down :
  let '(r, a) := autoscaler_evaluate default_scale_config busy_cpu (float_of_Z 100) scaler in
  ((λ d, (ad_metric d, ad_previous d, ad_desired d)) <$> as_decisions a) = [("cpu", 1, 2); ("memory", 2, 1)]
  ∧ as_replicas a = 1.
Proof. by vm_compute. Qed.

Definition node (id region : string) (r : NodeRole) (st : NodeState) : NodeInfo :=
  MkNodeInfo id id "" 0 r st region "z" [] "1" 1 0 fzero fzero.
Definition nodes : NodeStore :=
  foldl (λ s n, ns_register n s) ns_new
    [node "a1" "eu" LEADER HEALTHY; node "a2" "eu" FOLLOWER HEALTHY;
     node "b1" "us" STANDBY JOINED; node "b2" "us" FOLLOWER HEALTHY].

Lemma nodes_ok : nodes_ok nodes.
Proof.
  split.
  - unfold dict_wf. apply (bool_decide_unpack _). by vm_compute.
  - by repeat constructor.
Qed.

Example peers :
  Discovery.parse_peer "10.0.0.1:9000" = ("node-10-0-0-1-9000", "10.0.0.1", 9000) ∧
  Discovery.parse_peer "db.local" = ("node-db-local-8000", "db.local", 8000).
Proof. by vm_compute. Qed.

#[local] Instance string_data : Backups.BackupData string :=
  {| Backups.bd_checksum := id; Backups.bd_size := λ d, Z.of_nat (String.length d); Backups.bd_entries := λ _, 1 |}.

Definition heap0 : nat → string := λ _, "v1".
Definition heap1 : nat → string := λ _, "v2".
Definition backed_up := Backups.create_backup 20 "b" "nightly" "g" fone [] (Some 0%nat) heap0 [].

Definition old_backup (id : string) (t : Z) : Backups.BackupRecord :=
  Backups.MkBackup id id (float_of_Z t) 0 "" 0 Backups.B_OK [] 0 None.
Definition three_backups : dict string Backups.BackupRecord :=
  [("x", old_backup "x" 1); ("y", old_backup "y" 3); ("z", old_backup "z" 2)].

(** The lag that is reported is the least one that was ever recorded. *)
Example lag_is_least :
  let ship := λ lag (_ : string), Replication.Shipped (float_of_Z lag) (float_of_Z lag) in
  let '(_, m1) := Replication.replicate_snapshot (ship 1) 0 "s1" "" fzero fone ["r1"] (Replication.new_replication ["n"]) in
  let '(_, m2) := Replication.replicate_snapshot (ship 9) 1 "s2" "" fzero fone ["r2"] m1 in
  Replication.latest_lag (Replication.rm_store m2) = fone.
Proof. by vm_compute. Qed.

End OpsDemo.
#[local] Existing Instance OpsDemo.string_data.

Lemma autoscaler_decisions_witness :
  let r := Autoscale.autoscaler_evaluate Autoscale.default_scale_config OpsDemo.busy_cpu (float_of_Z 100) OpsDemo.scaler in
  ∃ ds, Autoscale.decided Autoscale.default_scale_config [] 1 ds r.2.
Proof.
  intros r.
  destruct (autoscaler_decisions Autoscale.default_scale_config OpsDemo.busy_cpu (float_of_Z 100) OpsDemo.scaler r.2 r.1
    ltac:(by vm_compute) ltac:(by vm_compute) (surjective_pairing r)) as (ds & H & _).
  by exists ds.
Defined.

(** A decision to scale down is not kept below the maximum. *)
Example scales_down_above_maximum :
  let a := Autoscale.set_replicas 40 (Autoscale.new_autoscaler Autoscale.default_scale_config
             (Some [Autoscale.new_collector "cpu" 70])) in
  Autoscale.as_replicas (Autoscale.autoscaler_evaluate Autoscale.default_scale_config (λ _, float_of_Z 50)
    (float_of_Z 100) a).2 = 28 ∧ Autoscale.sc_max_replicas Autoscale.default_scale_config = 16.
Proof. split; by vm_compute. Qed.

Lemma idle_collector_wins_witness :
  ∃ d a', Autoscale.autoscaler_evaluate Autoscale.default_scale_config OpsDemo.busy_cpu (float_of_Z 100)
            OpsDemo.scaler = (Ok d, a') ∧ Autoscale.as_replicas a' = 1.
Proof.
  destruct (Autoscale.autoscaler_evaluate Autoscale.default_scale_config OpsDemo.busy_cpu (float_of_Z 100)
              OpsDemo.scaler) as [[d|e] a'] eqn:E; [|by vm_compute in E].
  exists d, a'. split; [done|].
  eapply (idle_collector_wins Autoscale.default_scale_config OpsDemo.busy_cpu (float_of_Z 100) OpsDemo.scaler a' d
    (take 4 Autoscale.default_collectors) "token_throughput");
    [by vm_compute|by vm_compute|by vm_compute|by vm_compute| |by vm_compute|by vm_compute| |exact E].
  - unfold dict_wf. apply (bool_decide_unpack _). by vm_compute.
  - by vm_compute.
Defined.

Lemma backup_round_trip_witness :
  ∃ r s s'', OpsDemo.backed_up = (Ok r, s) ∧
    Backups.restore "b" true fone (λ _, None) OpsDemo.heap0 s = (Ok (Backups.with_restored fone r, "v1"), s'').
Proof.
  destruct OpsDemo.backed_up as [[r|e] s] eqn:E; [|by vm_compute in E].
  destruct (backup_round_trip 20 "b" "nightly" "g" fone fone [] 0%nat OpsDemo.heap0 OpsDemo.heap0 [] s r
    (λ _, None) E) as (s'' & H); [by vm_compute in E; injection E as <- <-|done|done|].
  exists r, s, s''. split; [done|exact H].
Defined.

Lemma backup_aliases_live_state_witness :
  ∃ r s, OpsDemo.backed_up = (Ok r, s) ∧
    Backups.restore "b" true fone (λ _, None) OpsDemo.heap1 s = (Err (Backups.ChecksumMismatch "b"), s).
Proof.
  destruct OpsDemo.backed_up as [[r|e] s] eqn:E; [|by vm_compute in E].
  destruct (backup_aliases_live_state 20 "b" "nightly" "g" fone fone [] 0%nat OpsDemo.heap0 OpsDemo.heap1 [] s r
    (λ _, None) E) as [H _]; [by vm_compute in E; injection E as <- <-|done|done|].
  exists r, s. split; [done|exact H].
Defined.

Lemma prune_keeps_newest_witness :
  Backups.b_id <$> Backups.bs_list (Backups.prune_backups 2 OpsDemo.three_backups).2 = ["y"; "z"] ∧
  (Backups.prune_backups 2 OpsDemo.three_backups).1 = 1.
Proof.
  pose proof (prune_keeps_newest 2 OpsDemo.three_backups) as H.
  destruct (Backups.prune_backups 2 OpsDemo.three_backups) as [n s] eqn:E.
  destruct H as (Hn & _ & _).
  { lia. }
  { split; [split; [unfold dict_wf; apply (bool_decide_unpack _); by vm_compute|by repeat constructor]|by repeat constructor]. }
  split; [vm_compute in E; injection E as _ <-; by vm_compute|rewrite Hn; by vm_compute].
Defined.

Lemma replicate_isolated_witness :
  let transport := λ r, if String.eqb r "x" then Replication.Broken "down" else Replication.Shipped fone fone in
  let '(records, _) := Replication.replicate_snapshot transport 7 "s" "" fzero fone ["1"; "2"]
                         (Replication.new_replication ["x"; "y"]) in
  Replication.rr_replica_id <$> records = ["x"; "y"].
Proof.
  cbv zeta. pose proof (replicate_isolated
    (λ r, if String.eqb r "x" then Replication.Broken "down" else Replication.Shipped fone fone) 7 "s" "" fzero fone
    ["1"; "2"] (Replication.new_replication ["x"; "y"]) eq_refl) as H.
  destruct (Replication.replicate_snapshot _ _ _ _ _ _ _ _) as [records m'].
  destruct H as [H _]; [apply (bool_decide_unpack _); by vm_compute|exact H].
Defined.

Lemma failover_region_moves_witness :
  ∃ s', Recovery.failover_region "a2" "eu" "us" OpsDemo.nodes = (Ok 2, s') ∧
    option_map n_role (ns_get "b1" s') = Some FOLLOWER ∧ option_map n_state (ns_get "a1" s') = Some FAILED.
Proof.
  destruct (failover_region_moves "a2" "eu" "us" OpsDemo.nodes OpsDemo.nodes_ok) as (s' & H & Hg).
  - done.
  - by exists "a1", (OpsDemo.node "a1" "eu" LEADER HEALTHY).
  - by exists "b1", (OpsDemo.node "b1" "us" STANDBY JOINED).
  - intros i n Hn Hc Hl. apply dict_get_elem_of in Hn.
    assert (Forall (λ p, n_role p.2 = LEADER → Recovery.candidate "us" p.2 = false) (ns_nodes OpsDemo.nodes)) as Hf
      by (repeat constructor; by intros).
    rewrite Forall_forall in Hf. specialize (Hf (i, n) Hn Hl). cbn [snd] in Hf.
    change (str_or "us" "eu") with "us" in Hc. congruence.
  - exists s'. split; [exact H|]. by rewrite !Hg.
Defined.

Lemma failover_same_region_raises_witness :
  ∃ i s', Recovery.failover_region "a2" "eu" "" OpsDemo.nodes = (Err (Recovery.PromoteFailedNode i), s') ∧
    option_map n_state (ns_get "a1" s') = Some FAILED.
Proof.
  destruct (failover_same_region_raises "a2" "eu" OpsDemo.nodes OpsDemo.nodes_ok) as (i & s' & H & Hg).
  - by exists "a1", (OpsDemo.node "a1" "eu" LEADER HEALTHY).
  - exists i, s'. split; [exact H|]. by rewrite (Hg "a1" (OpsDemo.node "a1" "eu" LEADER HEALTHY)).
Defined.
