(* ===== verification/Memory.v ===== *)
(** * Memories

    [src/app/memory/]: the items of long-term memory with their scopes
    ([models.py]), the repository over a [dict] and an optional vector store
    ([repository.py]), duplicates ([dedup.py]), scores ([scoring.py]), expiry,
    archival, pruning and compaction ([lifecycle.py]), summaries
    ([summarizer.py]), the extraction of memories from text ([extractor.py]),
    counters ([statistics.py]) and the manager that composes them
    ([manager.py]).

    The metadata of an item is a [dict] that the caller may share: an item holds
    its location in a heap of such objects.  Every other field is copied with
    the item.  Texts are ASCII; the readings of the clock within one call are
    one argument, as are fresh identifiers; the vector store is the one of
    [VectorStore]; the embedder is a partial function of the text.  Fields of
    the configuration that nothing reads are left out. *)

From Stdlib Require Import ZArith Lia.
From Stdlib Require Import Ascii Sorted SpecFloat.
From stdpp Require Import base numbers strings gmap list.
From S2P Require Import Prelude PyFloat PyNum PyStr PyDict PyMath PyVal Bm25 Fusion Search SearchSpec VectorStore.

Open Scope string_scope.
Open Scope Z_scope.

(** ** Models *)

Inductive MemoryType := SHORT_TERM | LONG_TERM | SESSION | PERSISTENT | EPISODIC | SEMANTIC.
#[export] Instance MemoryType_eq_dec : EqDecision MemoryType.
Proof. solve_decision. Defined.

Inductive MemoryCategory :=
  PREFERENCE | GOAL | FACT | ENTITY | DECISION | CONSTRAINT | MEMORY_TASK | GENERAL.
#[export] Instance MemoryCategory_eq_dec : EqDecision MemoryCategory.
Proof. solve_decision. Defined.

Inductive MemoryEventType :=
  EV_STORE | EV_RETRIEVE | EV_UPDATE | EV_DELETE | EV_ARCHIVE | EV_PRUNE | EV_COMPACT.

Definition memory_types : dict string MemoryType :=
  [("short_term", SHORT_TERM); ("long_term", LONG_TERM); ("session", SESSION);
   ("persistent", PERSISTENT); ("episodic", EPISODIC); ("semantic", SEMANTIC)].

Definition categories : dict string MemoryCategory :=
  [("preference", PREFERENCE); ("goal", GOAL); ("fact", FACT); ("entity", ENTITY);
   ("decision", DECISION); ("constraint", CONSTRAINT); ("task", MEMORY_TASK); ("general", GENERAL)].

Definition memory_type_value (t : MemoryType) : string :=
  match t with
  | SHORT_TERM => "short_term" | LONG_TERM => "long_term" | SESSION => "session"
  | PERSISTENT => "persistent" | EPISODIC => "episodic" | SEMANTIC => "semantic"
  end.

Definition memory_category_value (c : MemoryCategory) : string :=
  match c with
  | PREFERENCE => "preference" | GOAL => "goal" | FACT => "fact" | ENTITY => "entity"
  | DECISION => "decision" | CONSTRAINT => "constraint" | MEMORY_TASK => "task" | GENERAL => "general"
  end.

Record MemoryItem := MkMemory {
  mi_id : string;
  mi_content : string;
  mi_memory_type : MemoryType;
  mi_category : MemoryCategory;
  mi_tenant_id : string;
  mi_workspace_id : string;
  mi_user_id : string;
  mi_session_id : string;
  mi_importance : float;
  mi_confidence : float;
  mi_access_count : Z;
  mi_created_at : float;
  mi_last_accessed_at : float;
  mi_last_updated_at : float;
  mi_metadata : nat;
  mi_embedding : option (list float);
  mi_archived : bool;
  mi_deleted : bool
}.

Definition mi_touch (now : float) (i : MemoryItem) : MemoryItem :=
  MkMemory (mi_id i) (mi_content i) (mi_memory_type i) (mi_category i) (mi_tenant_id i) (mi_workspace_id i)
    (mi_user_id i) (mi_session_id i) (mi_importance i) (mi_confidence i) (mi_access_count i + 1)
    (mi_created_at i) now (mi_last_updated_at i) (mi_metadata i) (mi_embedding i) (mi_archived i) (mi_deleted i).
Definition mi_set_updated (t : float) (i : MemoryItem) : MemoryItem :=
  MkMemory (mi_id i) (mi_content i) (mi_memory_type i) (mi_category i) (mi_tenant_id i) (mi_workspace_id i)
    (mi_user_id i) (mi_session_id i) (mi_importance i) (mi_confidence i) (mi_access_count i) (mi_created_at i)
    (mi_last_accessed_at i) t (mi_metadata i) (mi_embedding i) (mi_archived i) (mi_deleted i).
Definition mi_set_created (t : float) (i : MemoryItem) : MemoryItem :=
  MkMemory (mi_id i) (mi_content i) (mi_memory_type i) (mi_category i) (mi_tenant_id i) (mi_workspace_id i)
    (mi_user_id i) (mi_session_id i) (mi_importance i) (mi_confidence i) (mi_access_count i) t
    (mi_last_accessed_at i) (mi_last_updated_at i) (mi_metadata i) (mi_embedding i) (mi_archived i) (mi_deleted i).
Definition mi_set_content (c : string) (i : MemoryItem) : MemoryItem :=
  MkMemory (mi_id i) c (mi_memory_type i) (mi_category i) (mi_tenant_id i) (mi_workspace_id i)
    (mi_user_id i) (mi_session_id i) (mi_importance i) (mi_confidence i) (mi_access_count i) (mi_created_at i)
    (mi_last_accessed_at i) (mi_last_updated_at i) (mi_metadata i) (mi_embedding i) (mi_archived i) (mi_deleted i).
Definition mi_set_importance (x : float) (i : MemoryItem) : MemoryItem :=
  MkMemory (mi_id i) (mi_content i) (mi_memory_type i) (mi_category i) (mi_tenant_id i) (mi_workspace_id i)
    (mi_user_id i) (mi_session_id i) x (mi_confidence i) (mi_access_count i) (mi_created_at i)
    (mi_last_accessed_at i) (mi_last_updated_at i) (mi_metadata i) (mi_embedding i) (mi_archived i) (mi_deleted i).
Definition mi_set_confidence (x : float) (i : MemoryItem) : MemoryItem :=
  MkMemory (mi_id i) (mi_content i) (mi_memory_type i) (mi_category i) (mi_tenant_id i) (mi_workspace_id i)
    (mi_user_id i) (mi_session_id i) (mi_importance i) x (mi_access_count i) (mi_created_at i)
    (mi_last_accessed_at i) (mi_last_updated_at i) (mi_metadata i) (mi_embedding i) (mi_archived i) (mi_deleted i).
Definition mi_set_embedding (e : option (list float)) (i : MemoryItem) : MemoryItem :=
  MkMemory (mi_id i) (mi_content i) (mi_memory_type i) (mi_category i) (mi_tenant_id i) (mi_workspace_id i)
    (mi_user_id i) (mi_session_id i) (mi_importance i) (mi_confidence i) (mi_access_count i) (mi_created_at i)
    (mi_last_accessed_at i) (mi_last_updated_at i) (mi_metadata i) e (mi_archived i) (mi_deleted i).
Definition mi_set_archived (i : MemoryItem) : MemoryItem :=
  MkMemory (mi_id i) (mi_content i) (mi_memory_type i) (mi_category i) (mi_tenant_id i) (mi_workspace_id i)
    (mi_user_id i) (mi_session_id i) (mi_importance i) (mi_confidence i) (mi_access_count i) (mi_created_at i)
    (mi_last_accessed_at i) (mi_last_updated_at i) (mi_metadata i) (mi_embedding i) true (mi_deleted i).
Definition mi_set_deleted (i : MemoryItem) : MemoryItem :=
  MkMemory (mi_id i) (mi_content i) (mi_memory_type i) (mi_category i) (mi_tenant_id i) (mi_workspace_id i)
    (mi_user_id i) (mi_session_id i) (mi_importance i) (mi_confidence i) (mi_access_count i) (mi_created_at i)
    (mi_last_accessed_at i) (mi_last_updated_at i) (mi_metadata i) (mi_embedding i) (mi_archived i) true.

(** What a new item takes over from its duplicate. *)
Definition mi_adopt (e : MemoryItem) (meta : nat) (i : MemoryItem) : MemoryItem :=
  MkMemory (mi_id e) (mi_content i) (mi_memory_type i) (mi_category i) (mi_tenant_id i) (mi_workspace_id i)
    (mi_user_id i) (mi_session_id i) (fmax (mi_importance e) (mi_importance i))
    (fmax (mi_confidence e) (mi_confidence i)) (mi_access_count e) (mi_created_at e)
    (mi_last_accessed_at i) (mi_last_updated_at i) meta (mi_embedding i) (mi_archived i) (mi_deleted i).

Record MemoryScope := MkScope {
  ms_tenant_id : string;
  ms_workspace_id : string;
  ms_user_id : string;
  ms_session_id : string
}.

Definition empty_scope : MemoryScope := MkScope "" "" "" "".

Definition filter_entry (key value : string) : metadata :=
  if truthy value then [(key, PStr value)] else [].
Definition scope_filter (sc : MemoryScope) : metadata :=
  (filter_entry "tenant_id" (ms_tenant_id sc) ++ filter_entry "workspace_id" (ms_workspace_id sc)
   ++ filter_entry "user_id" (ms_user_id sc) ++ filter_entry "session_id" (ms_session_id sc))%list.

Definition field_isolated (wanted actual : string) : bool := negb (truthy wanted) || String.eqb actual wanted.
Definition is_isolated (sc : MemoryScope) (i : MemoryItem) : bool :=
  field_isolated (ms_tenant_id sc) (mi_tenant_id i) && field_isolated (ms_workspace_id sc) (mi_workspace_id i)
  && field_isolated (ms_user_id sc) (mi_user_id i) && field_isolated (ms_session_id sc) (mi_session_id i).

(** [__bool__] *)
Definition scope_truthy (sc : MemoryScope) : bool :=
  truthy (ms_tenant_id sc) || truthy (ms_workspace_id sc) || truthy (ms_user_id sc) || truthy (ms_session_id sc).

Record ExtractedMemory := MkExtracted {
  xm_content : string;
  xm_category : MemoryCategory;
  xm_confidence : float;
  xm_importance : float;
  xm_metadata : metadata
}.

Record MemoryQuery := MkQuery {
  mq_text : string;
  mq_scope : MemoryScope;
  mq_top_k : Z;
  mq_memory_types : list MemoryType;
  mq_categories : list MemoryCategory;
  mq_min_score : float
}.

Record MemorySearchResult := MkMResult {
  mr_item : MemoryItem;
  mr_score : float;
  mr_similarity : float;
  mr_recency : float;
  mr_access : float;
  mr_importance : float;
  mr_confidence : float
}.

Record MemorySummary := MkSummary {
  su_text : string;
  su_scope : MemoryScope;
  su_entries_count : Z;
  su_categories : dict string Z
}.

Record MemoryVectorConfig := MkMemoryConfig {
  mc_namespace : string;
  mc_default_top_k : Z;
  mc_similarity_weight : float;
  mc_recency_weight : float;
  mc_access_weight : float;
  mc_importance_weight : float;
  mc_confidence_weight : float;
  mc_recency_halflife_days : float;
  mc_enable_ttl : bool;
  mc_ttl_days : float;
  mc_max_entries : Z;
  mc_enable_pruning : bool;
  mc_prune_batch_size : Z;
  mc_enable_archival : bool;
  mc_archive_after_days : float;
  mc_enable_gc : bool;
  mc_enable_compaction : bool;
  mc_compaction_similarity_threshold : float;
  mc_dedup_similarity_threshold : float;
  mc_summarize_max_entries : Z
}.

Definition default_memory_config : MemoryVectorConfig :=
  MkMemoryConfig "memory" 10 (flit 4 10) (flit 2 10) (flit 15 100) (flit 15 100) (flit 1 10) (float_of_Z 7)
    true (float_of_Z 30) 10000 true 100 true (float_of_Z 90) true true (flit 85 100) (flit 85 100) 50.

(** [MEMORY_TYPE_TTL_DAYS] has every type. *)
Definition MEMORY_TYPE_TTL_DAYS (t : MemoryType) : option float :=
  match t with
  | SHORT_TERM => Some fone
  | SESSION => Some fone
  | EPISODIC => Some (float_of_Z 30)
  | LONG_TERM => Some (float_of_Z 90)
  | SEMANTIC => Some (float_of_Z 180)
  | PERSISTENT => None
  end.

Inductive MemoryError :=
  | MemoryValidationError
  | MemoryNotFoundError (id : string)
  | MemoryStorageError
  | MemoryEntryMissing (id : string)
  | MemoryTenantError
  | MemoryDuplicateError (id : string)
  | MemoryScoringError (e : PyErr)
  | MemoryLifecycleError (e : PyErr)
  | OperationFailed (operation : string) (e : MemoryError)
  | InvalidValue (value : string).

(** ** Counters *)

Record MemoryMetrics := MkMemoryMetrics {
  total_ops : Z;
  total_stores : Z;
  total_retrieves : Z;
  total_updates : Z;
  total_deletes : Z;
  total_searches : Z;
  total_extractions : Z;
  total_summarizations : Z;
  total_archives : Z;
  total_prunes : Z;
  total_compactions : Z;
  total_latency_ms : float;
  error_count : Z;
  stored_items : Z
}.

Definition new_metrics : MemoryMetrics := MkMemoryMetrics 0 0 0 0 0 0 0 0 0 0 0 fzero 0 0.

Definition memory_record_event (e : MemoryEventType) (lat : float) (m : MemoryMetrics) : MemoryMetrics :=
  MkMemoryMetrics (total_ops m + 1)
    (total_stores m + match e with EV_STORE => 1 | _ => 0 end)
    (total_retrieves m + match e with EV_RETRIEVE => 1 | _ => 0 end)
    (total_updates m + match e with EV_UPDATE => 1 | _ => 0 end)
    (total_deletes m + match e with EV_DELETE => 1 | _ => 0 end)
    (total_searches m) (total_extractions m) (total_summarizations m)
    (total_archives m + match e with EV_ARCHIVE => 1 | _ => 0 end)
    (total_prunes m + match e with EV_PRUNE => 1 | _ => 0 end)
    (total_compactions m + match e with EV_COMPACT => 1 | _ => 0 end)
    (fadd (total_latency_ms m) lat) (error_count m)
    (match e with
     | EV_STORE => stored_items m + 1
     | EV_DELETE => Z.max 0 (stored_items m - 1)
     | _ => stored_items m
     end).

Definition record_memory_search (lat : float) (m : MemoryMetrics) : MemoryMetrics :=
  MkMemoryMetrics (total_ops m) (total_stores m) (total_retrieves m) (total_updates m) (total_deletes m)
    (total_searches m + 1) (total_extractions m) (total_summarizations m) (total_archives m) (total_prunes m)
    (total_compactions m) (fadd (total_latency_ms m) lat) (error_count m) (stored_items m).
Definition record_extraction (m : MemoryMetrics) : MemoryMetrics :=
  MkMemoryMetrics (total_ops m) (total_stores m) (total_retrieves m) (total_updates m) (total_deletes m)
    (total_searches m) (total_extractions m + 1) (total_summarizations m) (total_archives m) (total_prunes m)
    (total_compactions m) (total_latency_ms m) (error_count m) (stored_items m).
Definition record_summarization (m : MemoryMetrics) : MemoryMetrics :=
  MkMemoryMetrics (total_ops m) (total_stores m) (total_retrieves m) (total_updates m) (total_deletes m)
    (total_searches m) (total_extractions m) (total_summarizations m + 1) (total_archives m) (total_prunes m)
    (total_compactions m) (total_latency_ms m) (error_count m) (stored_items m).
Definition record_memory_error (m : MemoryMetrics) : MemoryMetrics :=
  MkMemoryMetrics (total_ops m) (total_stores m) (total_retrieves m) (total_updates m) (total_deletes m)
    (total_searches m) (total_extractions m) (total_summarizations m) (total_archives m) (total_prunes m)
    (total_compactions m) (total_latency_ms m) (error_count m + 1) (stored_items m).

(** ** The state *)

Record MemoryState := MkMemoryState {
  mm_items : dict string MemoryItem;
  mm_heap : list metadata;
  mm_vectors : option InMemoryVectorStore;
  mm_metrics : MemoryMetrics
}.

Definition new_memory (vs : option InMemoryVectorStore) : MemoryState := MkMemoryState [] [] vs new_metrics.

Definition with_items f (s : MemoryState) : MemoryState :=
  MkMemoryState (f (mm_items s)) (mm_heap s) (mm_vectors s) (mm_metrics s).
Definition with_heap f (s : MemoryState) : MemoryState :=
  MkMemoryState (mm_items s) (f (mm_heap s)) (mm_vectors s) (mm_metrics s).
Definition with_vector_store f (s : MemoryState) : MemoryState :=
  MkMemoryState (mm_items s) (mm_heap s) (f (mm_vectors s)) (mm_metrics s).
Definition with_memory_metrics f (s : MemoryState) : MemoryState :=
  MkMemoryState (mm_items s) (mm_heap s) (mm_vectors s) (f (mm_metrics s)).

(** The metadata object at a location, and a new one. *)
Definition meta_at (l : nat) (s : MemoryState) : metadata := default [] (mm_heap s !! l).

(** [{**m, **n}], [m.update(n)] *)
Definition meta_update (m n : metadata) : metadata := foldl (λ d kv, dict_set kv.1 kv.2 d) m n.

(** [asyncio] callables of the text; [None] covers an embedder that is missing,
    raises, or returns something else. *)
Class Embedder := embed_memory : string → option (list float).
Class MathLog10 := math_log10 : Z → result PyErr float.

Abbreviation MM A := (SE MemoryError MemoryState A) (only parsing).

Definition alloc_metadata (m : metadata) : MM nat := λ s,
  (Ok (length (mm_heap s)), with_heap (λ h, (h ++ [m])%list) s).

(** ** Duplicates: [dedup.py] *)

(** [set(content.lower().split())] *)
Definition word_set (content : string) : gset string := list_to_set (words (lower content)).

(** [len(a & b) / min(len(a), len(b))] of two sets that are not empty. *)
Definition word_overlap (a b : gset string) : float :=
  int_ratio (Z.of_nat (size (a ∩ b))) (Z.min (Z.of_nat (size a)) (Z.of_nat (size b))).

Definition overlap (target : gset string) (content : string) : float :=
  let other := word_set content in
  if bool_decide (other = ∅) then fzero else word_overlap target other.

Definition better_match (target : gset string) (best : float * option MemoryItem) (item : MemoryItem)
    : float * option MemoryItem :=
  let o := overlap target (mi_content item) in if flt best.1 o then (o, Some item) else best.
Definition best_match (target : gset string) (candidates : list MemoryItem)
    : float * option MemoryItem :=
  foldl (better_match target) (fzero, None) candidates.

Section Memory.
Context `{Emb : !Embedder} `{Math : !MathLib} `{Log : !MathLog10} `{Order : !SetOrder}.
Context (cfg : MemoryVectorConfig).

Definition find_duplicate (content : string) (candidates : list MemoryItem) : option MemoryItem :=
  let target := word_set content in
  if bool_decide (target = ∅) then None
  else
    let best := best_match target candidates in
    if fle (mc_dedup_similarity_threshold cfg) best.1 then best.2 else None.

Fixpoint deduplicate_from (enforce : bool) (unique items : list MemoryItem)
    : result MemoryError (list MemoryItem) :=
  match items with
  | [] => Ok unique
  | i :: rest =>
      match find_duplicate (mi_content i) unique with
      | Some dup =>
          if enforce then Err (MemoryDuplicateError (mi_id dup)) else deduplicate_from enforce unique rest
      | None => deduplicate_from enforce (unique ++ [i])%list rest
      end
  end.
Definition deduplicate (items : list MemoryItem) (enforce : bool) : result MemoryError (list MemoryItem) :=
  deduplicate_from enforce [] items.

(** ** Scores: [scoring.py] *)

Definition days_since (t now : float) : float := fdiv (fsub now t) (float_of_Z 86400).

Definition recency_score (i : MemoryItem) (now : float) : result PyErr float :=
  let halflife := mc_recency_halflife_days cfg in
  if fle halflife fzero then Ok fone
  else (try x <- fdivide (days_since (mi_last_accessed_at i) now) halflife in float_pow fhalf x)%py.

Definition access_score (i : MemoryItem) : result PyErr float :=
  if mi_access_count i <=? 0 then Ok fzero
  else (try l <- math_log10 (1 + mi_access_count i) in Ok (fmin fone (fdiv l (float_of_Z 2))))%py.

(** [combine] *)
Definition combine_scores (similarity recency access importance confidence : float) : float :=
  let total_w := py_sum [mc_similarity_weight cfg; mc_recency_weight cfg; mc_access_weight cfg;
                         mc_importance_weight cfg; mc_confidence_weight cfg] in
  let score :=
    fadd (fadd (fadd (fadd (fmul (mc_similarity_weight cfg) similarity) (fmul (mc_recency_weight cfg) recency))
                  (fmul (mc_access_weight cfg) access))
             (fmul (mc_importance_weight cfg) importance))
      (fmul (mc_confidence_weight cfg) confidence) in
  if flt fzero total_w then fdiv score total_w else fzero.

Definition memory_score_item (i : MemoryItem) (similarity now : float) : result MemoryError MemorySearchResult :=
  match recency_score i now with
  | Err e => Err (MemoryScoringError e)
  | Ok recency =>
      match access_score i with
      | Err e => Err (MemoryScoringError e)
      | Ok access =>
          Ok (MkMResult i (combine_scores similarity recency access (mi_importance i) (mi_confidence i))
                similarity recency access (mi_importance i) (mi_confidence i))
      end
  end.

Definition boost (i : MemoryItem) (factor : float) : MemoryItem :=
  mi_set_importance (fmin fone (fmul (mi_importance i) factor)) i.
Definition decay (i : MemoryItem) (factor : float) : MemoryItem :=
  mi_set_confidence (fmax fzero (fmul (mi_confidence i) factor))
    (mi_set_importance (fmax fzero (fmul (mi_importance i) factor)) i).

(** ** The repository: [repository.py] *)

Definition to_vector_record (i : MemoryItem) : VectorRecord :=
  MkVRecord (mi_id i) (default [] (mi_embedding i))
    [("tenant_id", PStr (mi_tenant_id i)); ("workspace_id", PStr (mi_workspace_id i));
     ("user_id", PStr (mi_user_id i)); ("session_id", PStr (mi_session_id i));
     ("memory_type", PStr (memory_type_value (mi_memory_type i)));
     ("category", PStr (memory_category_value (mi_category i))); ("content", PStr (mi_content i))]
    (mc_namespace cfg).

(** The vector store is kept in step when there is an embedding; its exceptions
    are dropped, what it changed before them stays. *)
Definition index_item (now : float) (i : MemoryItem) (vs : option InMemoryVectorStore)
    : option InMemoryVectorStore :=
  match vs, mi_embedding i with
  | Some v, Some (_ :: _) => Some (upsert "" now (to_vector_record i) v).2
  | _, _ => vs
  end.

Definition put_item (now : float) (i : MemoryItem) : MM MemoryItem :=
  se_modify (with_items (dict_set (mi_id i) i)) ≫= λ _,
  se_modify (with_vector_store (index_item now i)) ≫= λ _, mret i.

Definition store_item (now : float) (i : MemoryItem) : MM MemoryItem :=
  if negb (truthy (strip (mi_content i))) then se_raise MemoryStorageError
  else put_item now (mi_set_updated now i).

Fixpoint store_items (now : float) (is_ : list MemoryItem) : MM (list MemoryItem) :=
  match is_ with
  | [] => mret []
  | i :: rest => store_item now i ≫= λ i', store_items now rest ≫= λ rest', mret (i' :: rest')
  end.

Definition get_item (id : string) (s : MemoryState) : option MemoryItem :=
  match dict_get id (mm_items s) with
  | Some i => if mi_deleted i then None else Some i
  | None => None
  end.

Definition live (sc : MemoryScope) (i : MemoryItem) : bool :=
  negb (mi_deleted i) && negb (mi_archived i) && is_isolated sc i.
Definition of_types (types : list MemoryType) (i : MemoryItem) : bool :=
  match types with [] => true | _ => bool_decide (mi_memory_type i ∈ types) end.
Definition fresher (a b : MemoryItem) : bool := flt (mi_last_accessed_at b) (mi_last_accessed_at a).

Definition list_items (sc : MemoryScope) (types : list MemoryType) (s : MemoryState) : list MemoryItem :=
  py_sorted fresher (List.filter (of_types types) (List.filter (live sc) (dict_values (mm_items s)))).

Definition all_items (s : MemoryState) : list MemoryItem := dict_values (mm_items s).

Definition count_items (sc : option MemoryScope) (s : MemoryState) : Z :=
  match sc with
  | Some sc =>
      if scope_truthy sc then rcount (live sc) (mm_items s)
      else rcount (λ i, negb (mi_deleted i)) (mm_items s)
  | None => rcount (λ i, negb (mi_deleted i)) (mm_items s)
  end.

Definition update_item (now : float) (i : MemoryItem) : MM MemoryItem :=
  se_get ≫= λ s,
  match get_item (mi_id i) s with
  | None => se_raise (MemoryEntryMissing (mi_id i))
  | Some existing =>
      if truthy (mi_tenant_id existing) && truthy (mi_tenant_id i)
         && negb (String.eqb (mi_tenant_id existing) (mi_tenant_id i))
      then se_raise MemoryTenantError
      else put_item now (mi_set_created (mi_created_at existing) (mi_set_updated now i))
  end.

(** The entry stays, marked. *)
Definition unindex (id : string) (vs : option InMemoryVectorStore) : option InMemoryVectorStore :=
  match vs with
  | Some v => Some (delete [id] [] "" (mc_namespace cfg) v).2
  | None => None
  end.
Definition delete_item (id : string) : MM bool :=
  se_get ≫= λ s,
  match dict_get id (mm_items s) with
  | None => mret false
  | Some _ =>
      se_modify (with_items (dict_update_all mi_set_deleted [id])) ≫= λ _,
      se_modify (with_vector_store (unindex id)) ≫= λ _, mret true
  end.

(** What the vector store finds: the candidates, in the order in which the set
    of their identifiers is listed, and the map of their similarities. *)
Definition found_items (rs : list VSearchResult) (s : MemoryState) : list MemoryItem :=
  omap (λ id, match dict_get id (mm_items s) with
              | Some i => if negb (mi_deleted i) && negb (mi_archived i) then Some i else None
              | None => None
              end) (iter_set (list_to_set (sr_id <$> rs))).
Definition similarity_map (rs : list VSearchResult) (s : MemoryState) : dict string float :=
  foldl (λ d r, if dict_mem (sr_id r) (mm_items s) then dict_set (sr_id r) (sr_score r) d else d) [] rs.

Definition vector_candidates (lat : float) (query : string) (sc : MemoryScope) (top_k : Z)
    : MM (list MemoryItem * dict string float) := λ s,
  match mm_vectors s, embed_memory query with
  | Some v, Some qv =>
      match search_vectors lat qv (top_k * 4) None "" (mc_namespace cfg) (scope_filter sc) true false v with
      | (Ok rs, v') => (Ok (found_items rs s, similarity_map rs s), with_vector_store (λ _, Some v') s)
      | (Err _, v') => (Ok ([], []), with_vector_store (λ _, Some v') s)
      end
  | _, _ => (Ok ([], []), s)
  end.

Definition by_result_score (a b : MemorySearchResult) : bool := flt (mr_score b) (mr_score a).

Definition search_items (now lat : float) (query : string) (sc : MemoryScope) (top_k : Z)
    (types : list MemoryType) : MM (list MemorySearchResult) :=
  vector_candidates lat query sc top_k ≫= λ '(found, similar),
  se_get ≫= λ s,
  let candidates := match found with [] => list_items sc [] s | _ => found end in
  let candidates := List.filter (of_types types) candidates in
  se_lift (map_result (λ i, memory_score_item i (default fzero (dict_get (mi_id i) similar)) now) candidates) ≫= λ scored,
  mret (take_z top_k (py_sorted by_result_score scored)).

(** The repository's own [find_duplicate]: deleted entries are left out. *)
Definition repository_find_duplicate (content : string) (threshold : float) (s : MemoryState)
    : option MemoryItem :=
  let target := word_set content in
  if bool_decide (target = ∅) then None
  else
    let best := best_match target (List.filter (λ i, negb (mi_deleted i)) (all_items s)) in
    if fle threshold best.1 then best.2 else None.

(** ** Life cycle: [lifecycle.py] *)

Definition ttl_for (i : MemoryItem) (s : MemoryState) : result PyErr (option float) :=
  let v := meta_get "ttl_days" (meta_at (mi_metadata i) s) in
  if is_none v then Ok (MEMORY_TYPE_TTL_DAYS (mi_memory_type i))
  else (try d <- val_float v in Ok (Some d))%py.

Definition check_ttl (now : float) (s : MemoryState) (i : MemoryItem) : result PyErr bool :=
  (try ttl <- ttl_for i s in
   Ok (match ttl with
       | Some d => mc_enable_ttl cfg && flt d (days_since (mi_created_at i) now)
       | None => false
       end))%py.

(** [[i for i in items if await self.check_ttl(i, now)]] *)
Fixpoint expired_items (now : float) (s : MemoryState) (items : list MemoryItem)
    : result PyErr (list MemoryItem) :=
  match items with
  | [] => Ok []
  | i :: rest =>
      (try b <- check_ttl now s i in
       try es <- expired_items now s rest in
       Ok (if b then i :: es else es))%py
  end.

Definition overdue (now : float) (i : MemoryItem) : bool :=
  mc_enable_archival cfg && flt (mc_archive_after_days cfg) (days_since (mi_last_accessed_at i) now).

Definition has_id (ids : list string) (i : MemoryItem) : bool := bool_decide (mi_id i ∈ ids).

(** The order of the tuples [(importance, last_accessed_at)]. *)
Definition less_valued (a b : MemoryItem) : bool :=
  flt (mi_importance a) (mi_importance b)
  || feq (mi_importance a) (mi_importance b) && flt (mi_last_accessed_at a) (mi_last_accessed_at b).

Definition to_prune (items : list MemoryItem) : list MemoryItem :=
  if negb (mc_enable_pruning cfg) then []
  else if zlen items <=? mc_max_entries cfg then []
  else take_z (Z.min (zlen items - mc_max_entries cfg) (mc_prune_batch_size cfg)) (py_sorted less_valued items).

Fixpoint delete_items (ids : list string) : MM unit :=
  match ids with [] => mret tt | id :: rest => delete_item id ≫= λ _, delete_items rest end.

(** [(expired, archived, pruned)]: the list of pruned entries is the object
    [expired], which the entries pruned for space are appended to; the archived
    entries are listed again when they are collected. *)
Definition run_maintenance (sc : MemoryScope) (now : float)
    : MM (list string * list string * list string) :=
  se_get ≫= λ s,
  let items := list_items sc [] s in
  match expired_items now s items with
  | Err e => se_raise (MemoryLifecycleError e)
  | Ok expired =>
      let gone := mi_id <$> expired in
      let active := List.filter (λ i, negb (has_id gone i)) items in
      let archived := mi_id <$> List.filter (overdue now) active in
      let pruned := mi_id <$> to_prune active in
      se_modify (with_items (dict_update_all mi_set_archived archived)) ≫= λ _,
      (if mc_enable_ttl cfg then delete_items gone else mret tt) ≫= λ _,
      se_modify (with_items (pop_all pruned)) ≫= λ _,
      se_modify (λ s, if mc_enable_gc cfg then with_items (pop_all archived) s else s) ≫= λ _,
      mret ((if mc_enable_ttl cfg then gone ++ pruned else gone)%list, (archived ++ archived)%list,
            (gone ++ pruned)%list)
  end.

Definition line_feed : string := String (Ascii.ascii_of_nat 10) EmptyString.

Definition content_similarity (a b : string) : float :=
  if bool_decide (word_set a = ∅) || bool_decide (word_set b = ∅) then fzero
  else word_overlap (word_set a) (word_set b).

(** [_merge]: a new item under the old identifier. *)
Definition merge_items (now : float) (a b : MemoryItem) : MM MemoryItem :=
  se_get ≫= λ s,
  alloc_metadata (meta_update (meta_at (mi_metadata a) s) (meta_at (mi_metadata b) s)) ≫= λ l,
  let separator := if endswith line_feed (mi_content a) then "" else line_feed +:+ line_feed in
  mret (MkMemory (mi_id a) (mi_content a +:+ separator +:+ mi_content b) (mi_memory_type a) (mi_category a)
          (mi_tenant_id a) (mi_workspace_id a) (mi_user_id a) (mi_session_id a)
          (fmax (mi_importance a) (mi_importance b)) (fmax (mi_confidence a) (mi_confidence b))
          (mi_access_count a + mi_access_count b) now now now l (mi_embedding a) false false).

Fixpoint absorb (now threshold : float) (base : MemoryItem) (used : list string) (others : list MemoryItem)
    : MM (MemoryItem * list string) :=
  match others with
  | [] => mret (base, used)
  | o :: rest =>
      if bool_decide (mi_id o ∈ used) then absorb now threshold base used rest
      else if fle threshold (content_similarity (mi_content base) (mi_content o)) then
        merge_items now base o ≫= λ base', absorb now threshold base' (mi_id o :: used) rest
      else absorb now threshold base used rest
  end.

Fixpoint compact_items (now threshold : float) (used : list string) (items : list MemoryItem)
    : MM (list MemoryItem) :=
  match items with
  | [] => mret []
  | i :: rest =>
      if bool_decide (mi_id i ∈ used) then compact_items now threshold used rest
      else
        absorb now threshold i used rest ≫= λ '(base, used'),
        compact_items now threshold used' rest ≫= λ bases, mret (base :: bases)
  end.

(** [threshold or self._config.compaction_similarity_threshold] *)
Definition threshold_or (t : option float) : float :=
  match t with
  | Some x => if is_fzero x then mc_compaction_similarity_threshold cfg else x
  | None => mc_compaction_similarity_threshold cfg
  end.

Definition lifecycle_compact (sc : MemoryScope) (threshold : option float) (now : float) : MM (list MemoryItem) :=
  if negb (mc_enable_compaction cfg) then mret []
  else se_get ≫= λ s, compact_items now (threshold_or threshold) [] (list_items sc [] s).

(** ** The manager: [manager.py]

    Observers and the log are output.  An exception is counted; [store],
    [update] and [summarize] pass the errors of the package on, the others wrap
    every exception. *)

Definition counting_memory_errors {A} (m : MM A) : MM A := λ s,
  match m s with
  | (Ok a, s') => (Ok a, s')
  | (Err e, s') => (Err e, with_memory_metrics record_memory_error s')
  end.
Definition wrapped {A} (operation : string) (m : MM A) : MM A := λ s,
  match m s with
  | (Ok a, s') => (Ok a, s')
  | (Err e, s') => (Err (OperationFailed operation e), with_memory_metrics record_memory_error s')
  end.
Definition note_event (e : MemoryEventType) (lat : float) : MM unit := se_modify (with_memory_metrics (memory_record_event e lat)).

(** [min(1.0, max(0.0, x))] *)
Definition clamp_unit (x : float) : float := fmin fone (fmax fzero x).

(** [metadata or {}]: an empty object of the caller is not kept. *)
Definition own_metadata (meta : option nat) : MM nat :=
  se_get ≫= λ s,
  match meta with
  | Some l => match meta_at l s with [] => alloc_metadata [] | _ => mret l end
  | None => alloc_metadata []
  end.

Definition memory_store (uid : string) (now lat : float) (content : string) (sc : MemoryScope)
    (memory_type : MemoryType) (category : option MemoryCategory) (importance confidence : float)
    (meta : option nat) (embed : bool) : MM MemoryItem :=
  counting_memory_errors (
    if negb (truthy (strip content)) then se_raise MemoryValidationError
    else
      own_metadata meta ≫= λ l,
      let item := MkMemory uid (strip content) memory_type (default GENERAL category) (ms_tenant_id sc)
                    (ms_workspace_id sc) (ms_user_id sc) (ms_session_id sc) (clamp_unit importance)
                    (clamp_unit confidence) 0 now now now l None false false in
      se_get ≫= λ s,
      (match find_duplicate (mi_content item) (all_items s) with
       | Some existing =>
           if truthy (mi_id existing) then
             alloc_metadata (meta_update (meta_at (mi_metadata existing) s)
                      match meta with Some l => meta_at l s | None => [] end) ≫= λ l',
             mret (mi_adopt existing l' item)
           else mret item
       | None => mret item
       end) ≫= λ item,
      let item := if embed then mi_set_embedding (embed_memory (mi_content item)) item else item in
      store_item now item ≫= λ item,
      note_event EV_STORE lat ≫= λ _, mret item).

Definition memory_retrieve (now lat : float) (sc : MemoryScope) (types : list MemoryType) (top_k : option Z)
    : MM (list MemoryItem) :=
  wrapped "retrieve" (
    se_get ≫= λ s,
    let top_k := match top_k with
                 | Some k => if k =? 0 then mc_default_top_k cfg else k | None => mc_default_top_k cfg end in
    let items := take_z top_k (list_items sc types s) in
    se_modify (with_items (dict_update_all (mi_touch now) (mi_id <$> items))) ≫= λ _,
    note_event EV_RETRIEVE lat ≫= λ _, mret (mi_touch now <$> items)).

Definition when_given {A} (o : option A) (f : A → MemoryItem → MemoryItem) (id : string) : MM unit :=
  match o with
  | Some a => se_modify (with_items (dict_update_all (f a) [id]))
  | None => mret tt
  end.

(** The object of the repository is changed field by field, then stored again;
    its embedding stays as it is. *)
Definition memory_update (now lat : float) (id : string) (content : option string)
    (importance confidence : option float) (meta : option metadata) : MM MemoryItem :=
  counting_memory_errors (
    se_get ≫= λ s,
    match get_item id s with
    | None => se_raise (MemoryNotFoundError id)
    | Some item =>
        (match content with
         | Some c =>
             if negb (truthy (strip c)) then se_raise MemoryValidationError
             else when_given (Some (strip c)) mi_set_content id
         | None => mret tt
         end) ≫= λ _,
        when_given importance (λ x, mi_set_importance (clamp_unit x)) id ≫= λ _,
        when_given confidence (λ x, mi_set_confidence (clamp_unit x)) id ≫= λ _,
        (match meta with
         | Some m => se_modify (λ s, with_heap (<[mi_metadata item := meta_update (meta_at (mi_metadata item) s) m]>) s)
         | None => mret tt
         end) ≫= λ _,
        se_get ≫= λ s,
        match get_item id s with
        | None => se_raise (MemoryNotFoundError id)
        | Some item => update_item now item ≫= λ item, note_event EV_UPDATE lat ≫= λ _, mret item
        end
    end).

Definition memory_delete (lat : float) (id : string) : MM bool :=
  wrapped "delete" (delete_item id ≫= λ deleted, note_event EV_DELETE lat ≫= λ _, mret deleted).

(** Summaries: [summarizer.py], without a function of the caller. *)

Definition bullet (i : MemoryItem) : string := "- " +:+ mi_content i.

Definition more_important (a b : MemoryItem) : bool := flt (mi_importance b) (mi_importance a).
Definition concise (items : list MemoryItem) : string :=
  join line_feed (bullet <$> take 10 (py_sorted more_important items)).

Definition more_trusted (a b : MemoryItem) : bool :=
  flt (mi_importance b) (mi_importance a)
  || feq (mi_importance a) (mi_importance b) && flt (mi_confidence b) (mi_confidence a).
Definition key_points (items : list MemoryItem) : string :=
  "Key memories:" +:+ line_feed +:+ join line_feed (bullet <$> take 20 (py_sorted more_trusted items)).

Definition capitalized (s : string) : string :=
  match s with String a s' => String (upper_ascii a) s' | EmptyString => EmptyString end.
Definition grouped (items : list MemoryItem) : string :=
  join (line_feed +:+ line_feed)
    (omap (λ kc,
       match List.filter (λ i, bool_decide (mi_category i = kc.2)) items with
       | [] => None
       | group => Some (capitalized kc.1 +:+ ":" +:+ line_feed +:+ join line_feed (bullet <$> group))
       end) categories).

Definition summarize_items (items : list MemoryItem) (style : string) : string :=
  match items with
  | [] => ""
  | _ => if String.eqb style "key_points" then key_points items
         else if String.eqb style "grouped" then grouped items
         else concise items
  end.

Definition count_category (d : dict string Z) (i : MemoryItem) : dict string Z :=
  let k := memory_category_value (mi_category i) in dict_set k (default 0 (dict_get k d) + 1) d.

Definition memory_summarize (sc : MemoryScope) (style : string) (types : list MemoryType) : MM MemorySummary :=
  se_get ≫= λ s,
  let items := take_z (mc_summarize_max_entries cfg) (list_items sc types s) in
  se_modify (with_memory_metrics record_summarization) ≫= λ _,
  mret (MkSummary (summarize_items items style) sc (zlen items) (foldl count_category [] items)).

Definition touched_result (now : float) (r : MemorySearchResult) : MemorySearchResult :=
  MkMResult (mi_touch now (mr_item r)) (mr_score r) (mr_similarity r) (mr_recency r) (mr_access r)
    (mr_importance r) (mr_confidence r).

Definition above_score (min_score : float) (rs : list MemorySearchResult) : list MemorySearchResult :=
  if flt fzero min_score then List.filter (λ r, fle min_score (mr_score r)) rs else rs.

Definition memory_search (now lat : float) (q : MemoryQuery) (top_k : option Z) : MM (list MemorySearchResult) :=
  wrapped "search" (
    let top_k := match top_k with Some k => if k =? 0 then mq_top_k q else k | None => mq_top_k q end in
    search_items now lat (mq_text q) (mq_scope q) top_k (mq_memory_types q) ≫= λ rs,
    let rs := above_score (mq_min_score q) rs in
    se_modify (with_items (dict_update_all (mi_touch now) ((mi_id ∘ mr_item) <$> rs))) ≫= λ _,
    se_modify (with_memory_metrics (record_memory_search lat)) ≫= λ _,
    mret (touched_result now <$> rs)).

(** One entry of [batch_store]; the values of the enumerations are checked
    outside of [store]. *)
Record BatchEntry := MkEntry {
  be_content : string;
  be_memory_type : string;
  be_category : string;
  be_importance : float;
  be_confidence : float;
  be_metadata : option nat;
  be_embed : bool
}.

Definition enum_value {A} (d : dict string A) (v : string) : MM A :=
  match dict_get v d with Some a => mret a | None => se_raise (InvalidValue v) end.

Fixpoint batch_store (uids : list string) (now lat : float) (entries : list BatchEntry) (sc : MemoryScope)
    : MM (list MemoryItem) :=
  match entries, uids with
  | e :: es, uid :: uids' =>
      enum_value memory_types (be_memory_type e) ≫= λ t,
      enum_value categories (be_category e) ≫= λ c,
      memory_store uid now lat (be_content e) sc t (Some c) (be_importance e) (be_confidence e)
        (be_metadata e) (be_embed e) ≫= λ item,
      batch_store uids' now lat es sc ≫= λ items, mret (item :: items)
  | _, _ => mret []
  end.

Definition batch_retrieve (ids : list string) (sc : MemoryScope) (s : MemoryState) : list MemoryItem :=
  omap (λ id, match get_item id s with
              | Some i => if negb (scope_truthy sc) || is_isolated sc i then Some i else None
              | None => None
              end) ids.

Fixpoint store_extracted (uids : list string) (now lat : float) (sc : MemoryScope)
    (found : list ExtractedMemory) : MM unit :=
  match found, uids with
  | m :: rest, uid :: uids' =>
      alloc_metadata (xm_metadata m) ≫= λ l,
      memory_store uid now lat (xm_content m) sc SHORT_TERM (Some (xm_category m)) (xm_importance m)
        (xm_confidence m) (Some l) true ≫= λ _,
      store_extracted uids' now lat sc rest
  | _, _ => mret tt
  end.

(** [extract], with the function that finds memories. *)
Definition memory_extract (extractor : string → list ExtractedMemory) (uids : list string) (now lat : float)
    (text : string) (sc : MemoryScope) (auto_store : bool) : MM (list ExtractedMemory) :=
  let found := extractor text in
  se_modify (with_memory_metrics record_extraction) ≫= λ _,
  (if auto_store then store_extracted uids now lat sc found else mret tt) ≫= λ _, mret found.

Definition memory_maintenance (sc : MemoryScope) (now : float) : MM (list string * list string * list string) :=
  counting_memory_errors (run_maintenance sc now).

Definition memory_compact (sc : MemoryScope) (threshold : option float) (now : float) : MM (list MemoryItem) :=
  lifecycle_compact sc threshold now ≫= λ merged,
  match merged with
  | [] => mret []
  | _ => store_items now merged ≫= λ _, note_event EV_COMPACT fzero ≫= λ _, mret merged
  end.

End Memory.

(** ** Extraction: [extractor.py] *)

Module Extraction.

Definition starts_ci (p s : string) : bool := startswith (lower p) (lower s).

Definition PATTERNS : list (list string * MemoryCategory) :=
  [ (["I like"; "I prefer"; "I love"; "I hate"; "I enjoy"; "I don't like"; "I dont like"; "my favorite";
      "my favourite"; "I am fond of"], PREFERENCE);
    (["I want to"; "I would like to"; "I hope to"; "I aim to"; "my goal is"; "I am working towards";
      "I plan to"; "I wish to"], GOAL);
    (["I am"; "I'm"; "Im"; "she is"; "he is"; "it is"; "we are"; "they are"; "my name is"; "the fact is";
      "it costs"; "it takes"; "it has"], FACT);
    (["I decided"; "I have decided"; "I choose"; "I chose"; "I will go with"; "we decided"; "decision:";
      "I picked"], DECISION);
    (["I can't"; "I cant"; "I cannot"; "I must"; "I have to"; "I need to avoid"; "I am not allowed";
      "I don't want to"; "I dont want to"; "constraint:"; "I am unable to"], CONSTRAINT);
    (["I need to"; "I have to remember"; "remind me"; "my task is"; "I should"; "I will do"; "todo:";
      "I must remember"], MEMORY_TASK);
    (["remember that"; "note that"; "important:"; "for future reference"], GENERAL) ].

Definition ends_phrase (a : ascii) : bool :=
  bool_decide (a = "."%char) || bool_decide (a = "!"%char) || bool_decide (a = "?"%char)
  || bool_decide (a = Ascii.ascii_of_nat 10).

(** [[^.!?\n]*] *)
Fixpoint phrase (s : string) : string :=
  match s with
  | String a s' => if ends_phrase a then EmptyString else String a (phrase s')
  | EmptyString => EmptyString
  end.

Fixpoint drop_chars (n : nat) (s : string) : string :=
  match n, s with
  | O, _ => s
  | S n', String _ s' => drop_chars n' s'
  | S _, EmptyString => EmptyString
  end.
Fixpoint take_chars (n : nat) (s : string) : string :=
  match n, s with
  | S n', String a s' => String a (take_chars n' s')
  | _, _ => EmptyString
  end.

(** The match at the head of [s]: an alternative, then the rest of its phrase. *)
Definition match_here (alternatives : list string) (s : string) : option string :=
  match List.find (λ p, starts_ci p s) alternatives with
  | Some p => let n := String.length p in Some (take_chars n s +:+ phrase (drop_chars n s))
  | None => None
  end.

(** [re.finditer]: [skip] characters of the match before are to be passed over. *)
Fixpoint find_phrases (alternatives : list string) (skip : nat) (s : string) : list string :=
  match s with
  | EmptyString => []
  | String _ s' =>
      match skip with
      | S k => find_phrases alternatives k s'
      | O =>
          match match_here alternatives s with
          | Some m => m :: find_phrases alternatives (pred (String.length m)) s'
          | None => find_phrases alternatives O s'
          end
      end
  end.

Definition is_edge (a : ascii) : bool :=
  bool_decide (a ∈ [" "%char; ","%char; "."%char; "!"%char; "?"%char; ";"%char; ":"%char]).
Fixpoint lstrip_edges (s : string) : string :=
  match s with
  | String a s' => if is_edge a then lstrip_edges s' else s
  | EmptyString => EmptyString
  end.
Fixpoint rstrip_edges (s : string) : string :=
  match s with
  | String a s' =>
      match rstrip_edges s' with
      | EmptyString => if is_edge a then EmptyString else String a EmptyString
      | r => String a r
      end
  | EmptyString => EmptyString
  end.
(** [re.sub(r"\s+", " ", text.strip()).strip(" ,.!?;:")] *)
Definition clean_phrase (s : string) : string := rstrip_edges (lstrip_edges (join " " (words s))).

Definition confidence_for (c : MemoryCategory) : float :=
  match c with
  | PREFERENCE => flit 7 10 | GOAL => flit 75 100 | FACT => flit 6 10 | DECISION => flit 8 10
  | CONSTRAINT => flit 8 10 | MEMORY_TASK => flit 75 100 | GENERAL => flit 5 10 | ENTITY => flit 5 10
  end.
Definition importance_for (c : MemoryCategory) : float :=
  match c with
  | PREFERENCE => flit 7 10 | GOAL => flit 9 10 | FACT => flit 5 10 | DECISION => flit 8 10
  | CONSTRAINT => flit 9 10 | MEMORY_TASK => flit 7 10 | GENERAL => flit 4 10 | ENTITY => flit 5 10
  end.

Definition upper_letter (a : ascii) : bool := let n := Ascii.nat_of_ascii a in (65 <=? n)%nat && (n <=? 90)%nat.
Definition lower_letter (a : ascii) : bool := let n := Ascii.nat_of_ascii a in (97 <=? n)%nat && (n <=? 122)%nat.

Fixpoint lower_run (s : string) : string :=
  match s with
  | String a s' => if lower_letter a then String a (lower_run s') else EmptyString
  | EmptyString => EmptyString
  end.
Definition word_ahead (s : string) : bool := match s with String a _ => is_word a | EmptyString => false end.

(** [re.findall(r"\b[A-Z][a-z]+\b", text)]; [inside] tells that the character
    before is one of a word. *)
Fixpoint capital_words (inside : bool) (s : string) : list string :=
  match s with
  | EmptyString => []
  | String a s' =>
      let rest := capital_words (is_word a) s' in
      if negb inside && upper_letter a then
        let run := lower_run s' in
        if truthy run && negb (word_ahead (drop_chars (String.length run) s')) then String a run :: rest
        else rest
      else rest
  end.

Definition stopwords : list string :=
  ["I"; "The"; "A"; "An"; "And"; "Or"; "But"; "For"; "With"; "From"; "To"; "My"; "It"; "She"; "He"; "They";
   "We"; "You"; "This"; "That"; "Today"; "Tomorrow"; "Yes"; "No"; "Now"; "Also"; "One"; "Two"; "First"; "Last"].

Definition extract_entities (s : string) : list string :=
  dict_keys (foldl (λ d c, dict_set c tt d) []
               (List.filter (λ c, negb (bool_decide (c ∈ stopwords))) (capital_words false s))).

Definition extracted_of (category : MemoryCategory) (phrase : string) : option ExtractedMemory :=
  let content := clean_phrase phrase in
  if truthy content
  then Some (MkExtracted content category (confidence_for category) (importance_for category) [])
  else None.

Definition extract_by_patterns (s : string) : list ExtractedMemory :=
  (mjoin ((λ pc, omap (extracted_of pc.2) (find_phrases pc.1 O s)) <$> PATTERNS)
   ++ ((λ e, MkExtracted ("Entity: " +:+ e) ENTITY (flit 4 10) (flit 3 10) [("entity", PStr e)])
         <$> extract_entities s))%list.

(** [extract], without a function of the caller. *)
Definition extract (s : string) : list ExtractedMemory :=
  if negb (truthy (strip s)) then [] else extract_by_patterns s.

End Extraction.

(** * Lemmas on views of a repository *)

Section Views.
Context {V : Type} (key : V → string).
Implicit Types (r : dict string V).

Lemma keyed_keys r : keyed key r → key <$> dict_values r = dict_keys r.
Proof.
  intros [_ Hk]. unfold dict_values, dict_keys. rewrite <- list_fmap_compose. apply list_fmap_ext.
  intros n [k v] Hn. rewrite Forall_lookup in Hk. apply (Hk n (k, v) Hn).
Qed.

Lemma fmap_filter_sublist (P : V → bool) l : key <$> List.filter P l `sublist_of` key <$> l.
Proof.
  induction l as [|v l IH]; [constructor|]. simpl List.filter.
  destruct (P v); rewrite !fmap_cons; by constructor.
Qed.

Lemma keyed_view_nodup (lt : V → V → bool) (P : V → bool) r :
  keyed key r → NoDup (key <$> py_sorted lt (List.filter P (dict_values r))).
Proof.
  intros Hr. rewrite py_sorted_perm. eapply sublist_NoDup; [|apply fmap_filter_sublist].
  rewrite (keyed_keys r Hr). by destruct Hr.
Qed.

Lemma keyed_view_elem (lt : V → V → bool) (P : V → bool) r v :
  keyed key r → v ∈ py_sorted lt (List.filter P (dict_values r)) ↔ dict_get (key v) r = Some v ∧ P v = true.
Proof.
  intros Hr. rewrite elem_of_py_sorted, list_elem_of_In, List.filter_In, <- list_elem_of_In. split.
  - intros [Hv Hp]. split; [by apply keyed_value|done].
  - intros [Hv Hp]. split; [|done]. apply list_elem_of_fmap. exists (key v, v).
    split; [done|]. by apply dict_get_elem_of.
Qed.

Lemma keyed_update_all (f : V → V) ks r :
  (∀ v, key (f v) = key v) → keyed key r → keyed key (dict_update_all f ks r).
Proof.
  intros Hf. revert r. induction ks as [|k ks IH]; intros r Hr; simpl; [done|]. apply IH.
  destruct (dict_get k r) as [v|] eqn:E; [|done].
  rewrite <- (keyed_get key k v r Hr E), <- (Hf v). by apply keyed_set.
Qed.

Lemma update_all_inv (Q : V → Prop) (f : V → V) ks r :
  (∀ v, Q v → Q (f v)) → (∀ k v, dict_get k r = Some v → Q v) →
  ∀ k v, dict_get k (dict_update_all f ks r) = Some v → Q v.
Proof.
  intros Hf. revert r. induction ks as [|k0 ks IH]; intros r Hr; simpl; [done|]. apply IH.
  intros k v. destruct (dict_get k0 r) as [w|] eqn:E; [|apply Hr].
  rewrite dict_get_set. case_decide; [intros [= <-]; eauto|apply Hr].
Qed.

Lemma pop_all_inv (Q : V → Prop) ks r :
  dict_wf r → (∀ k v, dict_get k r = Some v → Q v) → ∀ k v, dict_get k (pop_all ks r) = Some v → Q v.
Proof. intros Hw Hr k v. rewrite get_pop_all by done. case_decide; [done|apply Hr]. Qed.

End Views.

(** A text is blank when all its characters are. *)
Lemma strip_blank s : truthy (strip s) = negb (all_chars is_space s).
Proof.
  assert (∀ t, truthy (rstrip t) = negb (all_chars is_space t)) as Hr.
  { induction t as [|a t IH]; [done|]. simpl. destruct (rstrip t) eqn:E; simpl in IH.
    - rewrite (proj1 (negb_false_iff _) (eq_sym IH)), andb_true_r. by destruct (is_space a).
    - symmetry in IH. apply negb_true_iff in IH. by rewrite IH, andb_false_r. }
  unfold strip. rewrite Hr. f_equal. induction s as [|a s IH]; [done|]. simpl.
  destruct (is_space a) eqn:Ea; [done|]. simpl. by rewrite Ea.
Qed.

Lemma lstrip_chars s : all_chars is_space (lstrip s) = all_chars is_space s.
Proof. induction s as [|a s IH]; [done|]. simpl. destruct (is_space a) eqn:Ea; [done|]. simpl. by rewrite Ea. Qed.
Lemma rstrip_chars s : all_chars is_space (rstrip s) = all_chars is_space s.
Proof.
  induction s as [|a s IH]; [done|]. simpl. destruct (rstrip s) eqn:E; simpl in *.
  - rewrite <- IH. destruct (is_space a) eqn:Ea; simpl; [done|]. by rewrite Ea.
  - by rewrite <- IH.
Qed.
Lemma strip_strip_blank s : truthy (strip (strip s)) = truthy (strip s).
Proof. by rewrite !strip_blank; unfold strip; rewrite rstrip_chars, lstrip_chars. Qed.

Lemma strip_app_blank a b : truthy (strip a) = true → truthy (strip (a +:+ b)) = true.
Proof.
  rewrite !strip_blank, !negb_true_iff, all_chars_app. intros ->. done.
Qed.

(** * The invariant of the manager *)

Lemma clamp_in_unit x : in_unit (clamp_unit x).
Proof.
  unfold clamp_unit, fmin, fmax. destruct (flt fzero x) eqn:E.
  - destruct (flt x fone) eqn:E1; split; [by apply flt_fle|by apply flt_fle|done|done].
  - destruct (flt fzero fone) eqn:E1; [|done]. split; [done|by apply flt_fle].
Qed.

(** An item holds a text, weights between 0 and 1, and a metadata object that
    exists. *)
Record memory_item_ok (n : nat) (i : MemoryItem) : Prop := {
  mk_content : truthy (strip (mi_content i)) = true;
  mk_importance : in_unit (mi_importance i);
  mk_confidence : in_unit (mi_confidence i);
  mk_access : 0 <= mi_access_count i;
  mk_metadata : (mi_metadata i < n)%nat
}.

Record memory_ok (s : MemoryState) : Prop := {
  mm_keyed : keyed mi_id (mm_items s);
  mm_each : ∀ k i, dict_get k (mm_items s) = Some i → memory_item_ok (length (mm_heap s)) i
}.

Definition fits (s : MemoryState) (i : MemoryItem) : Prop := memory_item_ok (length (mm_heap s)) i.

Lemma item_ok_mono n n' i : (n <= n')%nat → memory_item_ok n i → memory_item_ok n' i.
Proof. intros Hn [? ? ? ? ?]. constructor; [done..|lia]. Qed.

(** A computation that keeps the invariant, exceptions included. *)
Definition mm_triple {A} (P : MemoryState → Prop) (m : MM A) (Q : A → MemoryState → Prop) : Prop :=
  ∀ s, memory_ok s → P s →
    memory_ok (m s).2 ∧ match (m s).1 with Ok a => Q a (m s).2 | Err _ => True end.

Definition always {A} : A → MemoryState → Prop := λ _ _, True.

Section Triples.
Implicit Types (P : MemoryState → Prop) (s : MemoryState).

Lemma mm_triple_bind {A B} P (m : MM A) (f : A → MM B) Q R :
  mm_triple P m Q → (∀ a, mm_triple (Q a) (f a) R) → mm_triple P (m ≫= f) R.
Proof.
  intros Hm Hf s Hs Hp. destruct (Hm s Hs Hp) as [H1 H2]. unfold mbind, SE_bind.
  destruct (m s) as [[a|e] s1]; simpl in *; [by apply Hf|done].
Qed.

Lemma mm_triple_conseq {A} P P' (m : MM A) (Q Q' : A → MemoryState → Prop) :
  mm_triple P' m Q' → (∀ s, memory_ok s → P s → P' s) → (∀ a s, Q' a s → Q a s) → mm_triple P m Q.
Proof.
  intros Hm Hp Hq s Hs H. destruct (Hm s Hs (Hp s Hs H)) as [H1 H2]. split; [done|].
  destruct (m s).1; [by apply Hq|done].
Qed.

Lemma mm_triple_ret {A} P (a : A) Q : (∀ s, memory_ok s → P s → Q a s) → mm_triple P (mret a) Q.
Proof. intros H s Hs Hp. split; [done|by apply H]. Qed.

Lemma mm_triple_get P (Q : MemoryState → MemoryState → Prop) :
  (∀ s, memory_ok s → P s → Q s s) → mm_triple P se_get Q.
Proof. intros H s Hs Hp. split; [done|by apply H]. Qed.

Lemma mm_triple_modify P f Q :
  (∀ s, memory_ok s → P s → memory_ok (f s) ∧ Q tt (f s)) → mm_triple P (se_modify f) Q.
Proof. intros H s Hs Hp. apply (H s Hs Hp). Qed.

Lemma mm_triple_raise {A} P e (Q : A → MemoryState → Prop) : mm_triple P (se_raise e) Q.
Proof. intros s Hs Hp. done. Qed.

Lemma mm_triple_lift {A} P (r : result MemoryError A) Q :
  (∀ s a, memory_ok s → P s → r = Ok a → Q a s) → mm_triple P (se_lift r) Q.
Proof. intros H s Hs Hp. split; [done|]. simpl. destruct r; [by apply H|done]. Qed.

(** Parts of the state that the invariant does not speak of. *)
Lemma ok_metrics f s : memory_ok s → memory_ok (with_memory_metrics f s).
Proof. by intros []. Qed.
Lemma ok_vectors f s : memory_ok s → memory_ok (with_vector_store f s).
Proof. by intros []. Qed.

Lemma mm_triple_counted {A} P (m : MM A) Q : mm_triple P m Q → mm_triple P (counting_memory_errors m) Q.
Proof.
  intros Hm s Hs Hp. destruct (Hm s Hs Hp) as [H1 H2]. unfold counting_memory_errors.
  destruct (m s) as [[a|e] s1]; simpl in *; [done|]. split; [by apply ok_metrics|done].
Qed.
Lemma mm_triple_wrapped {A} P op (m : MM A) Q : mm_triple P m Q → mm_triple P (wrapped op m) Q.
Proof.
  intros Hm s Hs Hp. destruct (Hm s Hs Hp) as [H1 H2]. unfold wrapped.
  destruct (m s) as [[a|e] s1]; simpl in *; [done|]. split; [by apply ok_metrics|done].
Qed.

Lemma ok_put i s : memory_ok s → fits s i → memory_ok (with_items (dict_set (mi_id i) i) s).
Proof.
  intros [Hk He] Hi. split; simpl; [by apply keyed_set|]. intros k j. rewrite dict_get_set.
  case_decide; [by intros [= <-]|apply He].
Qed.

Lemma ok_update_all f ks s :
  (∀ i, mi_id (f i) = mi_id i) → (∀ i, fits s i → fits s (f i)) →
  memory_ok s → memory_ok (with_items (dict_update_all f ks) s).
Proof.
  intros Hid Hf [Hk He]. split; simpl; [by apply keyed_update_all|]. by apply update_all_inv.
Qed.

Lemma ok_pop_all ks s : memory_ok s → memory_ok (with_items (pop_all ks) s).
Proof.
  intros [Hk He]. split; simpl; [by apply keyed_pop_all|].
  apply pop_all_inv; [by destruct Hk|done].
Qed.

Lemma ok_heap_app m s : memory_ok s → memory_ok (with_heap (λ h, (h ++ [m])%list) s).
Proof.
  intros [Hk He]. split; simpl; [done|]. intros k i Hi. eapply item_ok_mono; [|by eapply He].
  rewrite length_app. lia.
Qed.

Lemma mm_triple_alloc P m (Q : nat → MemoryState → Prop) :
  (∀ s, P s → Q (length (mm_heap s)) (with_heap (λ h, (h ++ [m])%list) s)) → mm_triple P (alloc_metadata m) Q.
Proof. intros H s Hs Hp. split; [by apply ok_heap_app|by apply H]. Qed.

Lemma fits_grow m s i : fits s i → fits (with_heap (λ h, (h ++ [m])%list) s) i.
Proof. apply item_ok_mono. simpl. rewrite length_app. lia. Qed.

End Triples.

Section ManagerOk.
Context `{Emb : !Embedder} `{Math : !MathLib} `{Log : !MathLog10} `{Order : !SetOrder}.
Context (cfg : MemoryVectorConfig).

Lemma record_ok e lat Q : mm_triple Q (note_event e lat) (λ _ _, True).
Proof. apply mm_triple_modify. intros s Hs _. split; [by apply ok_metrics|done]. Qed.

Lemma put_item_ok now i : mm_triple (λ s, fits s i) (put_item cfg now i) (λ j s, fits s j).
Proof.
  eapply mm_triple_bind.
  { apply (mm_triple_modify _ _ (λ _ s, fits s i)). intros s Hs Hi. split; [by apply ok_put|done]. }
  intros u. eapply mm_triple_bind.
  { apply (mm_triple_modify _ _ (λ _ s, fits s i)). intros s Hs Hi. split; [by apply ok_vectors|done]. }
  intros u2. by apply mm_triple_ret.
Qed.

Lemma store_item_ok now i : mm_triple (λ s, fits s i) (store_item cfg now i) (λ j s, fits s j).
Proof.
  unfold store_item. destruct (negb _); [apply mm_triple_raise|].
  eapply mm_triple_conseq; [apply put_item_ok| |done]. intros s _ []. by constructor.
Qed.

Lemma store_items_ok now is_ : mm_triple (λ s, Forall (fits s) is_) (store_items cfg now is_) always.
Proof.
  induction is_ as [|i rest IH]; [by apply mm_triple_ret|]. simpl. eapply mm_triple_bind.
  - instantiate (1 := λ _ s, Forall (fits s) rest). intros s Hs Hf. apply Forall_cons in Hf as [Hi Hr].
    destruct (store_item_ok now i s Hs Hi) as [H1 H2]. split; [done|].
    assert (mm_heap (store_item cfg now i s).2 = mm_heap s) as Hh.
    { unfold store_item. by destruct (negb _). }
    destruct (store_item cfg now i s) as [[j|e] s1]; simpl in *; [|done]. unfold fits in *. by rewrite Hh.
  - intros j. eapply mm_triple_bind; [apply IH|]. intros js. by apply mm_triple_ret.
Qed.

Lemma own_metadata_ok meta :
  mm_triple (λ s, ∀ l, meta = Some l → (l < length (mm_heap s))%nat) (own_metadata meta)
    (λ l s, (l < length (mm_heap s))%nat).
Proof.
  unfold own_metadata. eapply mm_triple_bind; [apply (mm_triple_get _ (λ s0 s, s0 = s ∧
    ∀ l, meta = Some l → (l < length (mm_heap s))%nat)); done|].
  intros s0. destruct meta as [l|].
  - destruct (meta_at l s0).
    + apply mm_triple_alloc. intros s _. simpl. rewrite length_app. simpl. lia.
    + apply mm_triple_ret. intros s _ [-> H]. by apply H.
  - apply mm_triple_alloc. intros s _. simpl. rewrite length_app. simpl. lia.
Qed.

Lemma best_match_elem target l acc :
  (foldl (better_match target) acc l).2 = acc.2 ∨
  ∃ i, i ∈ l ∧ (foldl (better_match target) acc l).2 = Some i.
Proof.
  revert acc. induction l as [|i l IH]; intros acc; [by left|]. simpl.
  destruct (IH (better_match target acc i)) as [Hl|(j & Hj & Hl)]; rewrite Hl.
  - unfold better_match. cbv zeta. destruct (flt _ _); [|by left]. right. exists i. split; [left|done].
  - right. exists j. split; [by right|done].
Qed.

Lemma find_duplicate_elem content l e : find_duplicate cfg content l = Some e → e ∈ l.
Proof.
  unfold find_duplicate. case_bool_decide; [done|]. destruct (fle _ _); [|done].
  unfold best_match. destruct (best_match_elem (word_set content) l (fzero, None)) as [->|(i & Hi & ->)]; [done|].
  by intros [= ->].
Qed.

Lemma fits_adopt e l i s : fits s e → fits s i → (l < length (mm_heap s))%nat → fits s (mi_adopt e l i).
Proof. intros [? ? ? ? ?] [? ? ? ? ?] Hl. constructor; simpl; auto using fmax_unit. Qed.

Lemma all_items_fit s i : memory_ok s → i ∈ all_items s → fits s i.
Proof. intros [Hk He] Hi. eapply He, keyed_value; [exact Hk|exact Hi]. Qed.

Lemma memory_store_ok uid now lat content sc t c imp conf meta emb :
  mm_triple (λ s, ∀ l, meta = Some l → (l < length (mm_heap s))%nat)
    (memory_store cfg uid now lat content sc t c imp conf meta emb) always.
Proof.
  apply mm_triple_counted. destruct (negb (truthy (strip content))) eqn:Hc; [apply mm_triple_raise|].
  apply negb_false_iff in Hc.
  eapply mm_triple_bind; [apply own_metadata_ok|]. intros l. cbv zeta.
  set (item := MkMemory uid _ _ _ _ _ _ _ _ _ _ _ _ _ _ _ _ _).
  assert (∀ s, (l < length (mm_heap s))%nat → fits s item) as Hitem.
  { intros s Hl. constructor; simpl; [by rewrite strip_strip_blank|apply clamp_in_unit..|done|done]. }
  eapply mm_triple_bind.
  { apply (mm_triple_get _ (λ s0 s, s0 = s ∧ (l < length (mm_heap s))%nat)). done. }
  intros s0. eapply (mm_triple_bind _ _ _ (λ i s, fits s i)).
  { destruct (find_duplicate cfg (mi_content item) (all_items s0)) as [e|] eqn:Ef.
    - destruct (truthy (mi_id e)).
      + intros s Hs [-> Hl]. pose proof (all_items_fit s e Hs (find_duplicate_elem _ _ _ Ef)) as He.
        split; [by apply ok_heap_app|]. apply fits_adopt; [by apply fits_grow|by apply fits_grow, Hitem|].
        simpl. rewrite length_app. simpl. lia.
      + apply mm_triple_ret. intros s _ [_ Hl]. by apply Hitem.
    - apply mm_triple_ret. intros s _ [_ Hl]. by apply Hitem. }
  intros i. eapply mm_triple_bind.
  { eapply mm_triple_conseq; [apply store_item_ok| |done]. intros s _ Hf. destruct emb; [|exact Hf].
    destruct Hf. by constructor. }
  intros j. eapply mm_triple_bind; [apply record_ok|]. intros u. by apply mm_triple_ret.
Qed.

Lemma fits_touch now s i : fits s i → fits s (mi_touch now i).
Proof. intros [? ? ? ? ?]. constructor; simpl; try done; lia. Qed.
Lemma fits_archived s i : fits s i → fits s (mi_set_archived i).
Proof. intros [? ? ? ? ?]. by constructor. Qed.
Lemma fits_deleted s i : fits s i → fits s (mi_set_deleted i).
Proof. intros [? ? ? ? ?]. by constructor. Qed.

Lemma memory_retrieve_ok now lat sc types k P : mm_triple P (memory_retrieve cfg now lat sc types k) always.
Proof.
  apply mm_triple_wrapped. eapply mm_triple_bind; [by apply (mm_triple_get _ (λ _ _, True))|]. intros s0. cbv zeta.
  eapply (mm_triple_bind _ _ _ (λ _ _, True)).
  { apply mm_triple_modify. intros s Hs _. split; [|done]. apply ok_update_all; [done| |done]. intros. by apply fits_touch. }
  intros u. eapply mm_triple_bind; [apply record_ok|]. intros u2. by apply mm_triple_ret.
Qed.

Lemma when_given_ok {A} (o : option A) f id :
  (∀ a i, mi_id (f a i) = mi_id i) → (∀ a s i, o = Some a → fits s i → fits s (f a i)) →
  mm_triple (λ _, True) (when_given o f id) (λ _ _, True).
Proof.
  intros Hid Hf. unfold when_given. destruct o as [a|]; [|by apply mm_triple_ret].
  apply mm_triple_modify. intros s Hs _. split; [|done]. apply ok_update_all; [by apply Hid| |done].
  intros i. by apply Hf.
Qed.

Lemma update_item_ok now i : mm_triple (λ s, fits s i) (update_item cfg now i) always.
Proof.
  eapply mm_triple_bind; [apply (mm_triple_get _ (λ _ s, fits s i)); done|]. intros s0.
  destruct (get_item _ _) as [e|]; [|apply mm_triple_raise]. destruct (_ && _); [apply mm_triple_raise|].
  eapply mm_triple_conseq; [apply put_item_ok| |done]. intros s _ []. by constructor.
Qed.

Lemma get_item_fits id s i : memory_ok s → get_item id s = Some i → fits s i.
Proof.
  intros [_ He]. unfold get_item. destruct (dict_get id (mm_items s)) as [j|] eqn:E; [|done].
  destruct (mi_deleted j); [done|]. intros [= <-]. by eapply He.
Qed.

Lemma memory_update_ok now lat id c imp conf meta P :
  mm_triple P (memory_update cfg now lat id c imp conf meta) always.
Proof.
  apply mm_triple_counted. eapply mm_triple_bind; [by apply (mm_triple_get _ (λ _ _, True))|]. intros s0.
  destruct (get_item id s0) as [item|]; [|apply mm_triple_raise].
  eapply (mm_triple_bind _ _ _ (λ _ _, True)).
  { destruct c as [c|]; [|by apply mm_triple_ret]. destruct (negb _) eqn:Hc; [apply mm_triple_raise|].
    apply negb_false_iff in Hc. apply when_given_ok; [done|]. intros a s i [= <-] [? ? ? ? ?].
    constructor; simpl; [by rewrite strip_strip_blank|done..]. }
  intros u1. eapply (mm_triple_bind _ _ _ (λ _ _, True)).
  { apply when_given_ok; [done|]. intros a s i _ [? ? ? ? ?]. constructor; simpl; auto using clamp_in_unit. }
  intros u2. eapply (mm_triple_bind _ _ _ (λ _ _, True)).
  { apply when_given_ok; [done|]. intros a s i _ [? ? ? ? ?]. constructor; simpl; auto using clamp_in_unit. }
  intros u3. eapply (mm_triple_bind _ _ _ (λ _ _, True)).
  { destruct meta as [m|]; [|by apply mm_triple_ret]. apply mm_triple_modify. intros s [Hk He] _. split; [|done].
    split; [done|]. simpl. rewrite length_insert. exact He. }
  intros u4. eapply (mm_triple_bind _ _ _ (λ s0 s, s = s0)); [by apply mm_triple_get|]. intros s1.
  destruct (get_item id s1) as [j|] eqn:Ej; [|apply mm_triple_raise].
  eapply (mm_triple_bind _ _ _ always).
  { eapply mm_triple_conseq; [apply update_item_ok| |done]. intros s Hs ->. by eapply get_item_fits. }
  intros k. eapply mm_triple_bind; [apply record_ok|]. intros u5. by apply mm_triple_ret.
Qed.

Lemma delete_item_ok id P : mm_triple P (delete_item cfg id) always.
Proof.
  eapply mm_triple_bind; [by apply (mm_triple_get _ (λ _ _, True))|]. intros s0.
  destruct (dict_get id (mm_items s0)); [|by apply mm_triple_ret].
  eapply (mm_triple_bind _ _ _ (λ _ _, True)).
  { apply mm_triple_modify. intros s Hs _. split; [|done].
    apply ok_update_all; [done| |done]. intros. by apply fits_deleted. }
  intros u. eapply (mm_triple_bind _ _ _ (λ _ _, True)).
  { apply mm_triple_modify. intros s Hs _. split; [by apply ok_vectors|done]. }
  intros u2. by apply mm_triple_ret.
Qed.

Lemma delete_items_ok ids P : mm_triple P (delete_items cfg ids) always.
Proof.
  revert P. induction ids as [|id ids IH]; intros P; [by apply mm_triple_ret|].
  eapply mm_triple_bind; [apply delete_item_ok|]. intros b. apply IH.
Qed.

Lemma memory_delete_ok lat id P : mm_triple P (memory_delete cfg lat id) always.
Proof.
  apply mm_triple_wrapped. eapply mm_triple_bind; [apply delete_item_ok|]. intros b.
  eapply mm_triple_bind; [apply record_ok|]. intros u. by apply mm_triple_ret.
Qed.

Lemma memory_summarize_ok sc style types P : mm_triple P (memory_summarize cfg sc style types) always.
Proof.
  eapply mm_triple_bind; [by apply (mm_triple_get _ (λ _ _, True))|]. intros s0.
  eapply (mm_triple_bind _ _ _ (λ _ _, True)).
  { apply mm_triple_modify. intros s Hs _. split; [by apply ok_metrics|done]. }
  intros u. by apply mm_triple_ret.
Qed.

Lemma vector_candidates_ok lat q sc k P : mm_triple P (vector_candidates cfg lat q sc k) always.
Proof.
  intros s Hs _. unfold vector_candidates. destruct (mm_vectors s); [|done].
  destruct (embed_memory q); [|done]. destruct (search_vectors _ _ _ _ _ _ _ _ _ _) as [[rs|e] v']; simpl;
    by split; [apply ok_vectors|].
Qed.

Lemma search_items_ok now lat q sc k types P : mm_triple P (search_items cfg now lat q sc k types) always.
Proof.
  eapply mm_triple_bind; [apply vector_candidates_ok|]. intros [found similar].
  eapply mm_triple_bind; [by apply (mm_triple_get _ (λ _ _, True))|]. intros s0. cbv zeta.
  eapply (mm_triple_bind _ _ _ (λ _ _, True)); [by apply mm_triple_lift|]. intros scored. by apply mm_triple_ret.
Qed.

Lemma memory_search_ok now lat q k P : mm_triple P (memory_search cfg now lat q k) always.
Proof.
  apply mm_triple_wrapped. eapply mm_triple_bind; [apply search_items_ok|]. intros rs. cbv zeta.
  eapply (mm_triple_bind _ _ _ (λ _ _, True)).
  { apply mm_triple_modify. intros s Hs _. split; [|done]. apply ok_update_all; [done| |done]. intros. by apply fits_touch. }
  intros u. eapply (mm_triple_bind _ _ _ (λ _ _, True)).
  { apply mm_triple_modify. intros s Hs _. split; [by apply ok_metrics|done]. }
  intros u2. by apply mm_triple_ret.
Qed.

Lemma run_maintenance_ok sc now P : mm_triple P (run_maintenance cfg sc now) always.
Proof.
  eapply mm_triple_bind; [by apply (mm_triple_get _ (λ _ _, True))|]. intros s0. cbv zeta.
  destruct (expired_items cfg now s0 _) as [expired|e]; [|apply mm_triple_raise].
  eapply (mm_triple_bind _ _ _ (λ _ _, True)).
  { apply mm_triple_modify. intros s Hs _. split; [|done].
    apply ok_update_all; [done| |done]. intros. by apply fits_archived. }
  intros u. eapply (mm_triple_bind _ _ _ always).
  { destruct (mc_enable_ttl cfg); [apply delete_items_ok|by apply mm_triple_ret]. }
  intros u2. eapply (mm_triple_bind _ _ _ (λ _ _, True)).
  { apply mm_triple_modify. intros s Hs _. split; [by apply ok_pop_all|done]. }
  intros u3. eapply (mm_triple_bind _ _ _ (λ _ _, True)).
  { apply mm_triple_modify. intros s Hs _. split; [|done]. destruct (mc_enable_gc cfg); [by apply ok_pop_all|done]. }
  intros u4. by apply mm_triple_ret.
Qed.

Lemma merge_items_ok now a b : mm_triple (λ s, fits s a ∧ fits s b) (merge_items now a b) (λ c s, fits s c).
Proof.
  eapply mm_triple_bind; [apply (mm_triple_get _ (λ _ s, fits s a ∧ fits s b)); done|]. intros s0.
  eapply (mm_triple_bind _ _ _ (λ l s, fits s a ∧ fits s b ∧ (l < length (mm_heap s))%nat)).
  { apply mm_triple_alloc. intros s [Ha Hb]. split_and!; [by apply fits_grow..|]. simpl. rewrite length_app. simpl. lia. }
  intros l. cbv zeta. apply mm_triple_ret. intros s _ ([Ha1 Ha2 Ha3 Ha4 Ha5] & [Hb1 Hb2 Hb3 Hb4 Hb5] & Hl).
  constructor; simpl; [by apply strip_app_blank|by apply fmax_unit|by apply fmax_unit|lia|done].
Qed.

(** What a computation of items leaves of the heap: more objects at most. *)
Definition heap_grows {A} (m : MM A) : Prop := ∀ s, (length (mm_heap s) <= length (mm_heap (m s).2))%nat.

Lemma grows_bind {A B} (m : MM A) (f : A → MM B) :
  heap_grows m → (∀ a, heap_grows (f a)) → heap_grows (m ≫= f).
Proof.
  intros Hm Hf s. specialize (Hm s). unfold mbind, SE_bind. destruct (m s) as [[a|e] s1]; simpl in *; [|done].
  etransitivity; [exact Hm|apply Hf].
Qed.
Lemma grows_merge now a b : heap_grows (merge_items now a b).
Proof. intros s. simpl. rewrite length_app. lia. Qed.

(** A mm_triple with items to be kept aside. *)
Lemma mm_triple_frame {A} (is_ : list MemoryItem) P (m : MM A) Q :
  heap_grows m → mm_triple P m Q →
  mm_triple (λ s, P s ∧ Forall (fits s) is_) m (λ a s, Q a s ∧ Forall (fits s) is_).
Proof.
  intros Hg Hm s Hs [Hp Hf]. destruct (Hm s Hs Hp) as [H1 H2]. split; [done|]. specialize (Hg s).
  destruct (m s).1; [|done]. split; [done|]. eapply Forall_impl; [exact Hf|]. intros i. by apply item_ok_mono.
Qed.

Lemma absorb_ok now th base used others :
  mm_triple (λ s, fits s base ∧ Forall (fits s) others) (absorb now th base used others)
    (λ p s, fits s p.1).
Proof.
  revert base used. induction others as [|o rest IH]; intros base used; simpl.
  { apply mm_triple_ret. by intros s _ []. }
  assert (∀ P, (∀ s, P s → fits s base ∧ Forall (fits s) (o :: rest)) →
    mm_triple P (absorb now th base used rest) (λ p s, fits s p.1)) as Hskip.
  { intros P HP. eapply mm_triple_conseq; [apply IH| |done]. intros s _ Hs.
    destruct (HP s Hs) as [? [_ ?]%Forall_cons]. done. }
  case_bool_decide; [by apply Hskip|]. destruct (fle _ _); [|by apply Hskip].
  eapply mm_triple_bind.
  { eapply (mm_triple_conseq _ _ _ _ (λ b s, fits s b ∧ Forall (fits s) rest));
      [exact (mm_triple_frame rest _ _ _ (grows_merge _ _ _) (merge_items_ok _ _ _))| |intros ?? HQ; exact HQ].
    intros s _ [Hb [Ho Hr]%Forall_cons]. by split_and!. }
  intros b. apply IH.
Qed.

Lemma grows_absorb now th base used others : heap_grows (absorb now th base used others).
Proof.
  revert base used. induction others as [|o rest IH]; intros base used; simpl; [intros s; simpl; lia|].
  case_bool_decide; [apply IH|]. destruct (fle _ _); [|apply IH]. apply grows_bind; [apply grows_merge|intros; apply IH].
Qed.
Lemma grows_compact now th used items : heap_grows (compact_items now th used items).
Proof.
  revert used. induction items as [|i rest IH]; intros used; simpl; [intros s; simpl; lia|].
  case_bool_decide; [apply IH|]. apply grows_bind; [apply grows_absorb|]. intros [b u].
  apply grows_bind; [apply IH|]. intros bs s. simpl. lia.
Qed.

Lemma compact_items_ok now th used items :
  mm_triple (λ s, Forall (fits s) items) (compact_items now th used items) (λ bs s, Forall (fits s) bs).
Proof.
  revert used. induction items as [|i rest IH]; intros used; simpl; [by apply mm_triple_ret|].
  case_bool_decide.
  { eapply mm_triple_conseq; [apply IH| |done]. by intros s _ [_ ?]%Forall_cons. }
  eapply mm_triple_bind.
  { eapply (mm_triple_conseq _ _ _ _ (λ p s, fits s p.1 ∧ Forall (fits s) rest));
      [exact (mm_triple_frame rest _ _ _ (grows_absorb _ _ _ _ _) (absorb_ok _ _ _ _ _))| |intros ?? HQ; exact HQ].
    by intros s _ [Hi Hr]%Forall_cons. }
  intros [b u]. eapply mm_triple_bind.
  { eapply (mm_triple_conseq _ _ _ _ (λ bs s, Forall (fits s) bs ∧ Forall (fits s) [b]));
      [exact (mm_triple_frame [b] _ _ _ (grows_compact _ _ _ _) (IH _))| |intros ?? HQ; exact HQ].
    intros s _ [Hb Hr]. split; [done|]. by constructor. }
  intros bs. apply mm_triple_ret. intros s _ [Hbs Hb]. apply Forall_cons. split; [|done].
  by apply Forall_cons in Hb as [Hb _].
Qed.

Lemma listed_fit sc types s : memory_ok s → Forall (fits s) (list_items sc types s).
Proof.
  intros Hs. apply Forall_forall. intros i Hi. unfold list_items in Hi.
  rewrite elem_of_py_sorted, list_elem_of_In, !List.filter_In, <- list_elem_of_In in Hi.
  destruct Hi as [[Hi _] _]. by apply all_items_fit.
Qed.

Lemma memory_compact_ok sc th now P : mm_triple P (memory_compact cfg sc th now) always.
Proof.
  unfold memory_compact. eapply (mm_triple_bind _ _ _ (λ bs s, Forall (fits s) bs)).
  { unfold lifecycle_compact. destruct (negb _); [by apply mm_triple_ret|].
    eapply (mm_triple_bind _ _ _ (λ s0 s, s = s0)); [by apply mm_triple_get|]. intros s0.
    eapply mm_triple_conseq; [apply compact_items_ok| |done]. intros s Hs ->. by apply listed_fit. }
  intros [|m merged]; [by apply mm_triple_ret|].
  eapply mm_triple_bind; [apply store_items_ok|]. intros js.
  eapply mm_triple_bind; [apply record_ok|]. intros u. by apply mm_triple_ret.
Qed.

(** The operations of the manager, and the metadata objects of its callers;
    [batch_store] and [extract] are sequences of such steps. *)
Inductive memory_step : MemoryState → MemoryState → Prop :=
  | step_metadata m s : memory_step s (alloc_metadata m s).2
  | step_store uid now lat content sc t c imp conf meta emb s :
      (∀ l, meta = Some l → (l < length (mm_heap s))%nat) →
      memory_step s (memory_store cfg uid now lat content sc t c imp conf meta emb s).2
  | step_retrieve now lat sc types k s : memory_step s (memory_retrieve cfg now lat sc types k s).2
  | step_update now lat id c imp conf meta s : memory_step s (memory_update cfg now lat id c imp conf meta s).2
  | step_delete lat id s : memory_step s (memory_delete cfg lat id s).2
  | step_summarize sc style types s : memory_step s (memory_summarize cfg sc style types s).2
  | step_search now lat q k s : memory_step s (memory_search cfg now lat q k s).2
  | step_maintenance sc now s : memory_step s (memory_maintenance cfg sc now s).2
  | step_compact sc th now s : memory_step s (memory_compact cfg sc th now s).2.

Lemma memory_step_ok s s' : memory_step s s' → memory_ok s → memory_ok s'.
Proof.
  assert (∀ A (m : MM A) P Q x, mm_triple P m Q → P x → memory_ok x → memory_ok (m x).2) as Ht
    by (intros A m P Q x Hm Hp Hx; by apply Hm).
  intros Hst. destruct Hst; intros Hs.
  - by apply ok_heap_app.
  - by eapply Ht; [apply memory_store_ok|exact H|].
  - by eapply Ht; [apply (memory_retrieve_ok _ _ _ _ _ (λ _, True))| |].
  - by eapply Ht; [apply (memory_update_ok _ _ _ _ _ _ _ (λ _, True))| |].
  - by eapply Ht; [apply (memory_delete_ok _ _ (λ _, True))| |].
  - by eapply Ht; [apply (memory_summarize_ok _ _ _ (λ _, True))| |].
  - by eapply Ht; [apply (memory_search_ok _ _ _ _ (λ _, True))| |].
  - by eapply Ht; [apply mm_triple_counted, (run_maintenance_ok _ _ (λ _, True))| |].
  - by eapply Ht; [apply (memory_compact_ok _ _ _ (λ _, True))| |].
Qed.

Lemma new_memory_ok vs : memory_ok (new_memory vs).
Proof. split; [apply keyed_nil|done]. Qed.

Lemma memory_reachable_ok vs s : rtc memory_step (new_memory vs) s → memory_ok s.
Proof.
  assert (∀ s0, rtc memory_step s0 s → memory_ok s0 → memory_ok s) as H; [|intros Hr; eapply H; [done|apply new_memory_ok]].
  induction 1 as [|a b c Hab _ IH]; [done|]. intros Ha. by apply IH, (memory_step_ok a).
Qed.

(** ** What is listed *)

Lemma elem_of_list_items sc types s i :
  memory_ok s →
  i ∈ list_items sc types s ↔ dict_get (mi_id i) (mm_items s) = Some i ∧ live sc i = true ∧ of_types types i = true.
Proof.
  intros [Hk _]. unfold list_items.
  rewrite elem_of_py_sorted, list_elem_of_In, !List.filter_In, <- list_elem_of_In. split.
  - intros [[Hi Hl] Ht]. split_and!; [by apply keyed_value|done|done].
  - intros (Hi & Hl & Ht). split_and!; [|done|done]. apply list_elem_of_fmap. exists (mi_id i, i).
    split; [done|]. by apply dict_get_elem_of.
Qed.

Definition listed (sc : MemoryScope) (id : string) (s : MemoryState) : Prop :=
  ∃ i, dict_get id (mm_items s) = Some i ∧ live sc i = true.

Definition listed_ids (sc : MemoryScope) (s : MemoryState) : list string := mi_id <$> list_items sc [] s.

Lemma elem_of_listed_ids sc s id : memory_ok s → id ∈ listed_ids sc s ↔ listed sc id s.
Proof.
  intros Hs. unfold listed_ids, listed. rewrite list_elem_of_fmap. split.
  - intros (i & -> & Hi). apply elem_of_list_items in Hi as (Hg & Hl & _); [|done]. by exists i.
  - intros (i & Hg & Hl). pose proof (keyed_get _ _ _ _ (mm_keyed s Hs) Hg) as Hid. exists i. split; [done|].
    apply elem_of_list_items; [done|]. by rewrite Hid.
Qed.

Lemma listed_ids_nodup sc s : memory_ok s → NoDup (listed_ids sc s).
Proof.
  intros [Hk _]. unfold listed_ids, list_items.
  assert (∀ l, List.filter (of_types []) l = l) as Hf.
  { induction l as [|x l IH]; [done|]. simpl. by rewrite IH. }
  rewrite Hf. by apply keyed_view_nodup.
Qed.

(** ** Compaction *)

Definition stays (sc : MemoryScope) (a b : MemoryItem) : Prop :=
  mi_id b = mi_id a ∧ (live sc a = true → live sc b = true).

Lemma merge_stays sc now a o s :
  ∃ b s', merge_items now a o s = (Ok b, s') ∧ mm_items s' = mm_items s ∧ stays sc a b.
Proof.
  eexists _, _. split; [reflexivity|]. split; [done|]. split; [done|].
  unfold live. simpl. intros [_ H]%andb_true_iff. exact H.
Qed.

Lemma absorb_stays sc now th base used others s :
  ∃ b u s', absorb now th base used others s = (Ok (b, u), s') ∧ mm_items s' = mm_items s ∧ stays sc base b.
Proof.
  revert base used s. induction others as [|o rest IH]; intros base used s; simpl.
  { by exists base, used, s. }
  case_bool_decide; [apply IH|]. destruct (fle _ _); [|apply IH].
  destruct (merge_stays sc now base o s) as (b & s1 & Hm & Hi & Hid & Hl).
  destruct (IH b (mi_id o :: used) s1) as (b' & u & s2 & Hr & Hi2 & Hid2 & Hl2).
  exists b', u, s2. rewrite (se_bind_Ok _ _ _ _ _ Hm). split; [done|]. split; [congruence|].
  split; [congruence|auto].
Qed.

Lemma compact_stays sc now th used items s :
  Forall (λ i, live sc i = true) items →
  ∃ bs s', compact_items now th used items s = (Ok bs, s') ∧ mm_items s' = mm_items s ∧
    Forall (λ b, live sc b = true ∧ mi_id b ∈ mi_id <$> items) bs.
Proof.
  intros Hl. revert used s. induction Hl as [|i rest Hi _ IH]; intros used s; simpl.
  { by exists [], s. }
  case_bool_decide.
  - destruct (IH used s) as (bs & s' & Hr & Hit & Hb). exists bs, s'. split_and!; [done..|].
    eapply Forall_impl; [exact Hb|]. intros b [? ?]. split; [done|by right].
  - destruct (absorb_stays sc now th i used rest s) as (b & u & s1 & Hr & Hit & Hid & Hlb).
    destruct (IH u s1) as (bs & s2 & Hr2 & Hit2 & Hb). exists (b :: bs), s2. rewrite (se_bind_Ok _ _ _ _ _ Hr).
    rewrite (se_bind_Ok _ _ _ _ _ Hr2). split; [done|]. split; [congruence|]. constructor.
    + split; [auto|]. rewrite Hid. left.
    + eapply Forall_impl; [exact Hb|]. intros c [? ?]. split; [done|by right].
Qed.

Lemma store_items_listed sc now bs s :
  Forall (λ b, live sc b = true ∧ truthy (strip (mi_content b)) = true ∧ listed sc (mi_id b) s) bs →
  ∃ js s', store_items cfg now bs s = (Ok js, s') ∧ ∀ id, listed sc id s' ↔ listed sc id s.
Proof.
  revert s. induction bs as [|b bs IH]; intros s Hb; simpl; [by exists [], s|].
  apply Forall_cons in Hb as [(Hl & Hc & i & Hg & Hi) Hr].
  set (s1 := with_vector_store (index_item cfg now (mi_set_updated now b))
               (with_items (dict_set (mi_id b) (mi_set_updated now b)) s)).
  assert (store_item cfg now b s = (Ok (mi_set_updated now b), s1)) as Hs1.
  { unfold store_item. by rewrite Hc. }
  assert (∀ id, listed sc id s1 ↔ listed sc id s) as Hsame.
  { intros id. unfold listed, s1. simpl. destruct (decide (mi_id b = id)) as [<-|Hne].
    - rewrite dict_get_set_eq. split; intros _; [by exists i|]. eexists. split; [done|]. exact Hl.
    - by rewrite dict_get_set_ne by done. }
  destruct (IH s1) as (js & s2 & Hr2 & Hs2).
  { eapply Forall_impl; [exact Hr|]. intros c (? & ? & ?). split_and!; [done..|]. by apply Hsame. }
  exists (mi_set_updated now b :: js), s2. rewrite (se_bind_Ok _ _ _ _ _ Hs1), (se_bind_Ok _ _ _ _ _ Hr2).
  split; [done|]. intros id. by rewrite Hs2.
Qed.

Lemma lifecycle_compact_listed sc th now s :
  memory_ok s →
  ∃ bs s', lifecycle_compact cfg sc th now s = (Ok bs, s') ∧ mm_items s' = mm_items s ∧
    Forall (λ b, live sc b = true ∧ truthy (strip (mi_content b)) = true ∧ listed sc (mi_id b) s') bs.
Proof.
  intros Hs. unfold lifecycle_compact. destruct (negb _); [by exists [], s|].
  destruct (compact_stays sc now (threshold_or cfg th) [] (list_items sc [] s) s) as (bs & s' & Hr & Hi & Hb).
  { apply Forall_forall. intros i Hi. by apply elem_of_list_items in Hi as (_ & ? & _). }
  exists bs, s'. split; [exact Hr|]. split; [done|].
  pose proof (compact_items_ok now (threshold_or cfg th) [] (list_items sc [] s) s Hs (listed_fit sc [] s Hs)) as [_ Hf].
  rewrite Hr in Hf. simpl in Hf. apply Forall_and. split; [eapply Forall_impl; [exact Hb|]; by intros b []|].
  apply Forall_and. split; [eapply Forall_impl; [exact Hf|]; by intros b []|].
  eapply Forall_impl; [exact Hb|]. intros b [_ Hin]. apply elem_of_listed_ids in Hin; [|done].
  unfold listed in *. by rewrite Hi.
Qed.

End ManagerOk.

(** (C28) Whatever operations of the manager are made, each item is stored under its
    own identifier, holds a text, has weights between 0 and 1, was accessed a
    nonnegative number of times and has a metadata object. *)
Theorem memory_invariant `{Emb : !Embedder} `{Math : !MathLib} `{Log : !MathLog10} `{Order : !SetOrder}
    (cfg : MemoryVectorConfig) (vs : option InMemoryVectorStore) (s : MemoryState)
    (H : rtc (memory_step cfg) (new_memory vs) s) :
  keyed mi_id (mm_items s) ∧
  ∀ id i, dict_get id (mm_items s) = Some i →
    truthy (strip (mi_content i)) = true ∧ in_unit (mi_importance i) ∧ in_unit (mi_confidence i) ∧
    0 <= mi_access_count i ∧ (mi_metadata i < length (mm_heap s))%nat.
Proof.
  destruct (memory_reachable_ok _ _ _ H) as [Hk He]. split; [done|]. intros id i Hi.
  by destruct (He id i Hi).
Qed.

(** Compaction does not reduce anything: the entries that were absorbed stay in
    the repository, and each scope lists exactly the entries that it listed
    before. *)
Theorem compact_keeps_entries `{Emb : !Embedder} `{Math : !MathLib} `{Log : !MathLog10} `{Order : !SetOrder}
    (cfg : MemoryVectorConfig) (sc : MemoryScope) (threshold : option float) (now : float) (s : MemoryState)
    (Hs : memory_ok s) :
  ∃ merged s', memory_compact cfg sc threshold now s = (Ok merged, s') ∧
    listed_ids sc s' ≡ₚ listed_ids sc s.
Proof.
  pose proof (memory_compact_ok cfg sc threshold now (λ _, True) s Hs I) as [Hs' _].
  destruct (lifecycle_compact_listed cfg sc threshold now s Hs) as (bs & s1 & Hr & Hi & Hb).
  assert (∃ merged s', memory_compact cfg sc threshold now s = (Ok merged, s') ∧
    ∀ id, listed sc id s' ↔ listed sc id s) as (merged & s' & Hm & Hl).
  { unfold memory_compact. rewrite (se_bind_Ok _ _ _ _ _ Hr).
    assert (∀ id, listed sc id s1 ↔ listed sc id s) as H1 by (intros id; unfold listed; by rewrite Hi).
    destruct bs as [|b bs]; [by exists [], s1|].
    destruct (store_items_listed cfg sc now (b :: bs) s1 Hb) as (js & s2 & Hr2 & H2).
    rewrite (se_bind_Ok _ _ _ _ _ Hr2). eexists _, _. split; [reflexivity|].
    intros id. rewrite <- H1, <- H2. done. }
  exists merged, s'. split; [done|]. rewrite Hm in Hs'. simpl in Hs'.
  apply NoDup_Permutation; [by apply listed_ids_nodup..|]. intros id. rewrite !elem_of_listed_ids by done. apply Hl.
Qed.

(** * Maintenance *)

Section Maintenance.
Context `{Math : !MathLib}.
Context (cfg : MemoryVectorConfig).

Lemma delete_item_get id s :
  ∃ b s', delete_item cfg id s = (Ok b, s') ∧ mm_heap s' = mm_heap s ∧
    ∀ k, dict_get k (mm_items s') = if decide (k = id) then mi_set_deleted <$> dict_get k (mm_items s)
                                    else dict_get k (mm_items s).
Proof.
  unfold delete_item, mbind, SE_bind, se_get. destruct (dict_get id (mm_items s)) as [i|] eqn:E.
  - eexists _, _. split; [reflexivity|]. split; [done|]. intros k. simpl. rewrite E, dict_get_set.
    destruct (decide (id = k)) as [<-|Hne]; [by rewrite decide_True, E|by rewrite decide_False].
  - eexists _, _. split; [reflexivity|]. split; [done|]. intros k. case_decide as Hk; [|done]. subst. by rewrite E.
Qed.

Lemma delete_items_get ids s :
  ∃ s', delete_items cfg ids s = (Ok tt, s') ∧
    ∀ k, dict_get k (mm_items s') = if decide (k ∈ ids) then mi_set_deleted <$> dict_get k (mm_items s)
                                    else dict_get k (mm_items s).
Proof.
  revert s. induction ids as [|id ids IH]; intros s; simpl; [by exists s|].
  destruct (delete_item_get id s) as (b & s1 & H1 & _ & Hg1). destruct (IH s1) as (s2 & H2 & Hg2).
  exists s2. rewrite (se_bind_Ok _ _ _ _ _ H1). split; [done|]. intros k. rewrite Hg2, Hg1.
  destruct (decide (k = id)) as [->|Hne].
  - rewrite (decide_True (P := id ∈ id :: ids)) by left. case_decide; [|done]. by destruct (dict_get id (mm_items s)).
  - case_decide; [by rewrite decide_True by by right|]. rewrite decide_False; [done|]. by apply not_elem_of_cons.
Qed.

Definition is_expired (now : float) (s : MemoryState) (i : MemoryItem) : bool :=
  match check_ttl cfg now s i with Ok b => b | Err _ => false end.

Lemma expired_items_filter now s items es :
  expired_items cfg now s items = Ok es → es = List.filter (is_expired now s) items.
Proof.
  revert es. induction items as [|i rest IH]; intros es; simpl; [by intros [= <-]|].
  unfold is_expired at 1. destruct (check_ttl cfg now s i) as [b|]; [|done].
  destruct (expired_items cfg now s rest) as [es'|]; [|done]. intros [= <-]. by rewrite <- (IH es').
Qed.

Lemma id_in_filter (sc : MemoryScope) (s : MemoryState) (p : MemoryItem → bool) id i :
  memory_ok s → dict_get id (mm_items s) = Some i →
  id ∈ mi_id <$> List.filter p (list_items sc [] s) ↔ live sc i = true ∧ p i = true.
Proof.
  intros Hs Hg. pose proof (keyed_get _ _ _ _ (mm_keyed s Hs) Hg) as Hid. rewrite list_elem_of_fmap. split.
  - intros (j & Hj & Hin). apply list_elem_of_In, List.filter_In in Hin as [Hin Hp].
    apply list_elem_of_In, elem_of_list_items in Hin as (Hgj & Hl & _); [|done].
    rewrite <- Hj, Hg in Hgj. by injection Hgj as ->.
  - intros [Hl Hp]. exists i. split; [done|]. apply list_elem_of_In, List.filter_In. split; [|done].
    apply list_elem_of_In, elem_of_list_items; [done|]. by rewrite Hid.
Qed.

Lemma filter_filter_andb {A} (p q : A → bool) (l : list A) :
  List.filter p (List.filter q l) = List.filter (λ x, q x && p x) l.
Proof. induction l as [|x l IH]; [done|]. simpl. destruct (q x); simpl; [|done]. by rewrite IH. Qed.

Lemma elem_of_to_prune items i : i ∈ to_prune cfg items → i ∈ items.
Proof.
  unfold to_prune. destruct (negb _); [by intros ?%elem_of_nil|]. destruct (_ <=? _); [by intros ?%elem_of_nil|].
  destruct (take_z_prefix (Z.min (zlen items - mc_max_entries cfg) (mc_prune_batch_size cfg))
              (py_sorted less_valued items)) as [k Hk].
  intros Hi. rewrite <- (elem_of_py_sorted less_valued), Hk. apply elem_of_app. by left.
Qed.

End Maintenance.

(** (C29) Maintenance, entry by entry.  The entries outside of the scope, archived and
    deleted ones among them, are left alone; of those it lists an expired entry
    is marked as deleted, one that is pruned for space or, under garbage
    collection, overdue for archival is gone, an overdue one is otherwise marked
    as archived, and no other changes. *)
Theorem maintenance_pointwise `{Math : !MathLib} (cfg : MemoryVectorConfig) (sc : MemoryScope) (now : float)
    (s s' : MemoryState) (expired archived pruned : list string)
    (Hs : memory_ok s)
    (H : run_maintenance cfg sc now s = (Ok (expired, archived, pruned), s')) (id : string) :
  dict_get id (mm_items s') =
    match dict_get id (mm_items s) with
    | None => None
    | Some i =>
        if negb (live sc i) then Some i
        else if is_expired cfg now s i then Some (mi_set_deleted i)
        else if bool_decide (id ∈ pruned) || mc_enable_gc cfg && overdue cfg now i then None
        else if overdue cfg now i then Some (mi_set_archived i) else Some i
    end.
Proof.
  revert H. unfold run_maintenance, mbind, SE_bind, se_get. cbv zeta.
  set (items := list_items sc [] s). destruct (expired_items cfg now s items) as [es|] eqn:Ees; [|done].
  apply expired_items_filter in Ees as ->. cbn [se_modify].
  set (gone := mi_id <$> List.filter (is_expired cfg now s) items).
  set (active := List.filter (λ i, negb (has_id gone i)) items).
  set (arch := mi_id <$> List.filter (overdue cfg now) active).
  set (prn := mi_id <$> to_prune cfg active).
  set (s1 := with_items (dict_update_all mi_set_archived arch) s).
  assert (∃ s2, (if mc_enable_ttl cfg then delete_items cfg gone else mret tt) s1 = (Ok tt, s2) ∧
    memory_ok s2 ∧
    ∀ k, dict_get k (mm_items s2) = if decide (k ∈ gone) then mi_set_deleted <$> dict_get k (mm_items s1)
                                    else dict_get k (mm_items s1)) as (s2 & H2 & Hok2 & Hg2).
  { assert (memory_ok s1) as Hok1.
    { apply ok_update_all; [done| |done]. intros. by apply fits_archived. }
    destruct (mc_enable_ttl cfg) eqn:Ettl.
    - destruct (delete_items_get cfg gone s1) as (s2 & H2 & Hg2). exists s2. split; [done|]. split; [|done].
      pose proof (delete_items_ok cfg gone (λ _, True) s1 Hok1 I) as [Hok2 _]. by rewrite H2 in Hok2.
    - exists s1. split; [done|]. split; [done|]. intros k. rewrite decide_False; [done|]. unfold gone.
      rewrite list_elem_of_fmap. intros (i & _ & Hi). apply list_elem_of_In, List.filter_In in Hi as [_ Hi].
      unfold is_expired, check_ttl in Hi. destruct (ttl_for i s) as [[d|]|]; [|done..]. by rewrite Ettl in Hi. }
  rewrite H2. intros [= <- <- <- <-].
  assert (NoDup (mi_id <$> items)) as Hnd by by apply (listed_ids_nodup sc s).
  assert (NoDup arch) as Hndarch.
  { unfold arch, active. eapply sublist_NoDup; [exact Hnd|].
    etransitivity; apply fmap_filter_sublist. }
  assert (∀ k, dict_get k (mm_items s1) = if decide (k ∈ arch) then mi_set_archived <$> dict_get k (mm_items s)
                                          else dict_get k (mm_items s)) as Hg1
    by (intros k; by apply dict_update_all_get).
  assert (dict_get id (mm_items (if mc_enable_gc cfg then with_items (pop_all arch) (with_items (pop_all prn) s2)
                                 else with_items (pop_all prn) s2))
          = if decide (id ∈ prn) then None
            else if decide (mc_enable_gc cfg = true ∧ id ∈ arch) then None else dict_get id (mm_items s2)) as ->.
  { pose proof (keyed_wf _ _ (mm_keyed s2 Hok2)) as Hw. destruct (mc_enable_gc cfg); simpl.
    - rewrite get_pop_all by by apply pop_all_wf. rewrite get_pop_all by done.
      repeat case_decide; naive_solver.
    - rewrite get_pop_all by done. repeat case_decide; naive_solver. }
  rewrite Hg2, Hg1. destruct (dict_get id (mm_items s)) as [i|] eqn:Eg; [|by repeat case_decide].
  pose proof (keyed_get _ _ _ _ (mm_keyed s Hs) Eg) as Hid.
  pose proof (id_in_filter sc s (is_expired cfg now s) id i Hs Eg) as Hgone. fold items gone in Hgone.
  assert (id ∈ mi_id <$> active ↔ live sc i = true ∧ is_expired cfg now s i = false) as Hactive.
  { unfold active, items. rewrite (id_in_filter sc s _ id i Hs Eg). unfold has_id. rewrite Hid.
    rewrite negb_true_iff, bool_decide_eq_false, Hgone. destruct (is_expired cfg now s i); naive_solver. }
  assert (id ∈ arch ↔ live sc i = true ∧ is_expired cfg now s i = false ∧ overdue cfg now i = true) as Harch.
  { unfold arch, active. rewrite filter_filter_andb. unfold items. rewrite (id_in_filter sc s _ id i Hs Eg). unfold has_id. rewrite Hid.
    rewrite andb_true_iff, negb_true_iff, bool_decide_eq_false, Hgone.
    destruct (is_expired cfg now s i); naive_solver. }
  assert (id ∈ prn → id ∈ mi_id <$> active) as Hprn.
  { unfold prn. rewrite !list_elem_of_fmap. intros (j & Hj & Hin). exists j. split; [done|]. by apply elem_of_to_prune in Hin. }
  rewrite (bool_decide_ext (id ∈ (gone ++ prn)%list) (id ∈ gone ∨ id ∈ prn)) by by rewrite elem_of_app.
  destruct (live sc i) eqn:El; simpl.
  2:{ rewrite !decide_False by naive_solver. done. }
  destruct (is_expired cfg now s i) eqn:Ee.
  { rewrite (decide_False (P := id ∈ prn)) by naive_solver. rewrite decide_False by naive_solver.
    rewrite decide_True by naive_solver. rewrite decide_False by naive_solver. done. }
  rewrite (decide_False (P := id ∈ gone)) by naive_solver.
  rewrite (bool_decide_ext (id ∈ gone ∨ id ∈ prn) (id ∈ prn)) by naive_solver.
  destruct (decide (id ∈ prn)); [by rewrite bool_decide_true|]. rewrite bool_decide_false by done. simpl.
  destruct (overdue cfg now i) eqn:Eo; destruct (mc_enable_gc cfg); simpl;
    repeat case_decide; naive_solver.
Qed.


(** ** Search *)

Section SearchLemmas.
Context `{Math : !MathLib} `{Log : !MathLog10}.
Context (cfg : MemoryVectorConfig).

Lemma score_item_item i x now r : memory_score_item cfg i x now = Ok r → mr_item r = i.
Proof.
  unfold memory_score_item. destruct (recency_score cfg i now); [|done]. destruct (access_score i); [|done].
  by intros [= <-].
Qed.

Lemma elem_of_above_score t rs r :
  r ∈ above_score t rs ↔ r ∈ rs ∧ (flt fzero t = true → fle t (mr_score r) = true).
Proof.
  unfold above_score. destruct (flt fzero t); [|naive_solver].
  rewrite list_elem_of_In, List.filter_In, <- list_elem_of_In. naive_solver.
Qed.

Lemma filter_sublist_of {A} (p : A → bool) (l : list A) : List.filter p l `sublist_of` l.
Proof. induction l as [|x l IH]; [done|]. simpl. destruct (p x); by constructor. Qed.

Lemma above_score_sublist t rs : above_score t rs `sublist_of` rs.
Proof. unfold above_score. destruct (flt fzero t); [apply filter_sublist_of|done]. Qed.

Lemma scored_elem now items scored r :
  map_result (λ i, memory_score_item cfg i fzero now) items = Ok scored →
  r ∈ scored ↔ mr_item r ∈ items ∧ memory_score_item cfg (mr_item r) fzero now = Ok r.
Proof.
  intros H%SearchSpec.map_result_Forall2. split.
  - intros (n & Hn)%list_elem_of_lookup. destruct (Forall2_lookup_r _ _ _ _ _ H Hn) as (i & Hi & Hs).
    pose proof (score_item_item _ _ _ _ Hs) as <-. split; [|done]. by eapply list_elem_of_lookup_2.
  - intros [(n & Hn)%list_elem_of_lookup Hs]. destruct (Forall2_lookup_l _ _ _ _ _ H Hn) as (r' & Hr & Hs').
    assert (r' = r) as -> by congruence. by eapply list_elem_of_lookup_2.
Qed.

Lemma scored_items now items scored :
  map_result (λ i, memory_score_item cfg i fzero now) items = Ok scored → mr_item <$> scored = items.
Proof.
  intros H%SearchSpec.map_result_Forall2. induction H as [|i r is_ rs Hs _ IH]; [done|].
  rewrite fmap_cons, IH. by rewrite (score_item_item _ _ _ _ Hs).
Qed.
End SearchLemmas.

(** (C30) A search without a vector store scores the entries of the scope and of the
    wanted types that are neither archived nor deleted, and no others: what it
    returns are the best [k] of them, the best first, less those under the
    smallest score; exactly the entries returned are counted as accessed. *)
Theorem memory_search_scoped `{Emb : !Embedder} `{Math : !MathLib} `{Log : !MathLog10} `{Order : !SetOrder}
    (cfg : MemoryVectorConfig) (s s' : MemoryState) (now lat : float) (q : MemoryQuery) (k : Z)
    (rs : list MemorySearchResult)
    (Hs : memory_ok s) (Hv : mm_vectors s = None) (Hk : 0 < k)
    (Hnan : ∀ i r, dict_get (mi_id i) (mm_items s) = Some i → memory_score_item cfg i fzero now = Ok r →
       is_nan (mr_score r) = false)
    (H : memory_search cfg now lat q (Some k) s = (Ok rs, s')) :
  ∃ top rest,
    rs = touched_result now <$> above_score (mq_min_score q) top ∧
    zlen top <= k ∧ (zlen top < k → rest = []) ∧
    descending (mr_score <$> (top ++ rest)%list) ∧
    (∀ r, r ∈ (top ++ rest)%list ↔
       dict_get (mi_id (mr_item r)) (mm_items s) = Some (mr_item r) ∧
       live (mq_scope q) (mr_item r) = true ∧ of_types (mq_memory_types q) (mr_item r) = true ∧
       memory_score_item cfg (mr_item r) fzero now = Ok r) ∧
    (∀ id, dict_get id (mm_items s') =
       if decide (id ∈ (mi_id ∘ mr_item) <$> rs) then mi_touch now <$> dict_get id (mm_items s)
       else dict_get id (mm_items s)).
Proof.
  unfold memory_search, wrapped in H. rewrite (proj2 (Z.eqb_neq k 0)) in H by lia.
  unfold search_items, vector_candidates, mbind, SE_bind, se_get, se_lift in H. rewrite Hv in H. cbn in H.
  set (items := List.filter (of_types (mq_memory_types q)) (list_items (mq_scope q) [] s)) in H.
  destruct (map_result (λ i, memory_score_item cfg i fzero now) items) as [scored|e] eqn:Es;
    cbn in H; [|discriminate H].
  injection H as <- <-.
  set (l := py_sorted by_result_score scored).
  destruct (take_z_prefix k l) as [rest Hl]. exists (take_z k l), rest. rewrite <- Hl. split; [done|].
  split; [apply take_z_length; lia|]. split.
  { intros Hlt. destruct (decide (rest = [])) as [|Hr]; [done|].
    pose proof (take_z_rest k l rest ltac:(lia) Hl Hr). lia. }
  assert (∀ r, r ∈ l ↔ mr_item r ∈ items ∧ memory_score_item cfg (mr_item r) fzero now = Ok r) as Hin.
  { intros r. unfold l. rewrite elem_of_py_sorted. by apply scored_elem. }
  split; [|split].
  - apply sorted_descending, Forall_fmap, Forall_forall. intros r Hr. cbn.
    apply (scored_elem cfg now items scored r Es) in Hr as [Hi Hr]. eapply Hnan, Hr.
    apply list_elem_of_In, List.filter_In in Hi as [Hi _]. apply list_elem_of_In in Hi.
    by apply elem_of_list_items in Hi as [Hi _].
  - intros r. rewrite Hin. unfold items. rewrite list_elem_of_In, List.filter_In, <- list_elem_of_In.
    rewrite elem_of_list_items by done. cbn. tauto.
  - intros id. cbn [mm_items with_items with_memory_metrics].
    rewrite <- list_fmap_compose. rewrite dict_update_all_get; [done|].
    assert (take_z k l `sublist_of` l) as Hsub by (rewrite Hl at 2; by apply sublist_inserts_r).
    eapply sublist_NoDup; [|apply fmap_sublist; etransitivity; [apply above_score_sublist|exact Hsub]].
    unfold l. rewrite py_sorted_perm, list_fmap_compose, (scored_items cfg now items scored Es).
    eapply sublist_NoDup; [apply (listed_ids_nodup (mq_scope q) s Hs)|apply fmap_filter_sublist].
Qed.

(** ** Duplicates *)

(** A text that the deduplicator takes for a known one replaces the known entry,
    whoever owns it: the entry keeps its identifier, the time of its creation and
    a copy of its metadata, and belongs to the scope of the caller; it is gone
    for every scope that the caller's does not meet. *)
Theorem duplicate_takes_over `{Emb : !Embedder} (cfg : MemoryVectorConfig) (s s' : MemoryState)
    (uid content : string) (now lat : float) (sc : MemoryScope) (t : MemoryType) (c : option MemoryCategory)
    (importance confidence : float) (embed : bool) (e i : MemoryItem)
    (Hs : memory_ok s)
    (Hd : find_duplicate cfg (strip content) (all_items s) = Some e) (He : mi_id e ≠ "")
    (H : memory_store cfg uid now lat content sc t c importance confidence None embed s = (Ok i, s')) :
  mi_id i = mi_id e ∧ mi_created_at i = mi_created_at e ∧
  meta_at (mi_metadata i) s' = meta_at (mi_metadata e) s ∧ is_isolated sc i = true ∧
  (∀ id, dict_get id (mm_items s') = if decide (id = mi_id e) then Some i else dict_get id (mm_items s)) ∧
  (∀ sc', is_isolated sc' i = false → ¬ listed sc' (mi_id e) s').
Proof.
  unfold memory_store, counting_memory_errors in H. destruct (negb (truthy (strip content))); [done|].
  unfold own_metadata, mbind, SE_bind, se_get in H. cbn in H.
  change ((mm_items s).*2) with (all_items s) in H. rewrite Hd in H.
  assert (truthy (mi_id e) = true) as Ht by (by destruct (mi_id e)). rewrite Ht in H. cbn in H.
  pose proof (all_items_fit s e Hs (find_duplicate_elem _ _ _ _ Hd)) as [_ _ _ _ Hm].
  set (i0 := if embed then _ else _) in H. unfold store_item in H.
  destruct (negb (truthy (strip (mi_content i0)))); [done|]. cbn in H. injection H as <- <-.
  assert (mi_id i0 = mi_id e) as Hid by (by destruct embed).
  assert (is_isolated sc i0 = true) as Hsc.
  { assert (∀ x, field_isolated x x = true) as Hf
      by (intros x; unfold field_isolated; by rewrite String.eqb_refl, orb_true_r).
    destruct embed; unfold is_isolated; cbn; by rewrite !Hf. }
  cbn [mm_items mm_heap with_items with_memory_metrics with_heap with_vector_store]. split_and!.
  - done.
  - by destruct embed.
  - change (mi_metadata (mi_set_updated now i0)) with (mi_metadata i0).
    assert (mi_metadata i0 = length (mm_heap s ++ [[]])%list) as -> by (by destruct embed).
    unfold meta_at. cbn. rewrite list_lookup_middle by done. cbn. by rewrite lookup_app_l.
  - done.
  - intros id. rewrite Hid. case_decide as Hc; [subst; by rewrite dict_get_set_eq|by rewrite dict_get_set_ne].
  - intros sc' Hsc' (j & Hj & Hl). cbn in Hj. rewrite Hid, dict_get_set_eq in Hj. injection Hj as <-.
    unfold live in Hl. rewrite Hsc', andb_false_r in Hl. done.
Qed.

(** * Examples *)

Module MemoryDemo.

#[local] Instance embedder : Embedder := λ _, None.
#[local] Instance math : MathLib :=
  {| math_log := λ x, Ok x; math_exp := λ x, Ok x;
     float_pow := λ x y, Ok (if is_fzero y then fone else x); float_of_str := λ _, None |}.
#[local] Instance log10 : MathLog10 := λ n, Ok (if n <? 10 then fzero else fone).

Definition cfg : MemoryVectorConfig := default_memory_config.
Definition alice : MemoryScope := MkScope "acme" "" "alice" "".
Definition bob : MemoryScope := MkScope "globex" "" "bob" "".
Definition day (n : Z) : float := float_of_Z (86400 * n).
Definition put (id : string) (now : float) (text : string) (sc : MemoryScope) (t : MemoryType)
    (meta : option nat) (s : MemoryState) : MemoryState :=
  (memory_store cfg id now fzero text sc t None fhalf fone meta false s).2.

Definition empty : MemoryState := new_memory None.
(** [alice] is known to like green tea *)
Definition one : MemoryState := put "m1" (day 0) "alice likes green tea" alice LONG_TERM None empty.
Definition two : MemoryState := put "m2" (day 0) "deploys happen on monday" alice LONG_TERM None one.

Definition texts (sc : MemoryScope) (s : MemoryState) : list (string * string) :=
  (λ i, (mi_id i, mi_content i)) <$> list_items sc [] s.

Example stored : texts alice two = [("m1", "alice likes green tea"); ("m2", "deploys happen on monday")].
Proof. by vm_compute. Qed.

(** A short text of known words is a duplicate: it replaces the longer text. *)
Example short_replaces_long : texts alice (put "m3" (day 1) "tea" alice LONG_TERM None two)
  = [("m1", "tea"); ("m2", "deploys happen on monday")].
Proof. by vm_compute. Qed.

(** Nothing was deleted, and the counter goes down. *)
Example delete_unknown_counts : stored_items (mm_metrics (memory_delete cfg fzero "m9" two).2) = 1.
Proof. by vm_compute. Qed.

(** A memory that expired and is stored again expires at the next run. *)
Definition expired : MemoryState := (memory_maintenance cfg alice (day 100) one).2.
Definition revived : MemoryState := put "m3" (day 101) "alice likes green tea" alice LONG_TERM None expired.
Example revived_expires :
  texts alice expired = [] ∧ texts alice revived = [("m1", "alice likes green tea")] ∧
  texts alice (memory_maintenance cfg alice (day 101) revived).2 = [].
Proof. by vm_compute. Qed.

(** An entry that is due for archival is removed; it was archived and collected
    in the same run. *)
Definition kept : MemoryState := put "m1" (day 0) "alice likes green tea" alice PERSISTENT None empty.
Example archival_removes :
  (memory_maintenance cfg alice (day 91) kept).1 = Ok ([], ["m1"; "m1"], []) ∧
  mm_items (memory_maintenance cfg alice (day 91) kept).2 = [].
Proof. by vm_compute. Qed.

(** One value of [ttl_days] that is no number stops the maintenance of its scope. *)
Definition bad_ttl : MemoryState :=
  put "m4" (day 0) "rent is due" alice LONG_TERM (Some 2%nat)
    (alloc_metadata [("ttl_days", PStr "soon")] two).2.
Example bad_ttl_blocks :
  meta_at 2 bad_ttl = [("ttl_days", PStr "soon")] ∧
  is_ok (memory_maintenance cfg alice (day 365) bad_ttl).1 = false ∧
  mm_items (memory_maintenance cfg alice (day 365) bad_ttl).2 = mm_items bad_ttl.
Proof. by vm_compute. Qed.

Definition m1 : MemoryItem :=
  MkMemory "m1" "alice likes green tea" LONG_TERM GENERAL "acme" "" "alice" "" fhalf fone 0
    (day 0) (day 0) (day 0) 0 None false false.

Lemma one_items id i : dict_get id (mm_items one) = Some i → id = "m1" ∧ i = m1.
Proof.
  assert (mm_items one = [("m1", m1)]) as -> by by vm_compute.
  unfold dict_get. case_decide as Hid; [|done]. by intros [= <-].
Qed.

End MemoryDemo.

Lemma memory_invariant_witness :
  keyed mi_id (mm_items MemoryDemo.one) ∧
  ∀ id i, dict_get id (mm_items MemoryDemo.one) = Some i →
    truthy (strip (mi_content i)) = true ∧ in_unit (mi_importance i) ∧ in_unit (mi_confidence i) ∧
    0 <= mi_access_count i ∧ (mi_metadata i < length (mm_heap MemoryDemo.one))%nat.
Proof.
  apply (@memory_invariant MemoryDemo.embedder MemoryDemo.math MemoryDemo.log10 _ MemoryDemo.cfg None).
  eapply rtc_l; [|apply rtc_refl]. by apply (@step_store MemoryDemo.embedder MemoryDemo.math MemoryDemo.log10 _).
Defined.

Lemma one_ok : memory_ok MemoryDemo.one.
Proof.
  apply (@memory_step_ok MemoryDemo.embedder MemoryDemo.math MemoryDemo.log10 _ MemoryDemo.cfg MemoryDemo.empty).
  - by apply (@step_store MemoryDemo.embedder MemoryDemo.math MemoryDemo.log10 _).
  - apply new_memory_ok.
Qed.

Lemma compact_keeps_entries_witness :
  ∃ merged s', @memory_compact MemoryDemo.cfg MemoryDemo.alice None (MemoryDemo.day 1) MemoryDemo.one = (Ok merged, s') ∧
    listed_ids MemoryDemo.alice s' ≡ₚ ["m1"].
Proof.
  destruct (@compact_keeps_entries MemoryDemo.embedder MemoryDemo.math MemoryDemo.log10 _ MemoryDemo.cfg
    MemoryDemo.alice None (MemoryDemo.day 1) MemoryDemo.one one_ok) as (merged & s' & Hm & Hp).
  exists merged, s'. split; [exact Hm|]. rewrite Hp. by vm_compute.
Defined.

Lemma maintenance_pointwise_witness :
  dict_get "m1" (mm_items MemoryDemo.expired) = mi_set_deleted <$> dict_get "m1" (mm_items MemoryDemo.one).
Proof.
  rewrite (@maintenance_pointwise MemoryDemo.math MemoryDemo.cfg MemoryDemo.alice (MemoryDemo.day 100)
    MemoryDemo.one MemoryDemo.expired ["m1"] [] ["m1"] one_ok); by vm_compute.
Defined.

Lemma memory_search_scoped_witness :
  ∃ rs s', @memory_search MemoryDemo.embedder MemoryDemo.math MemoryDemo.log10 _ MemoryDemo.cfg (MemoryDemo.day 1) fzero
    (MkQuery "tea" MemoryDemo.alice 5 [] [] fzero) (Some 1) MemoryDemo.one = (Ok rs, s') ∧
    zlen rs = 1 ∧ mi_access_count <$> dict_get "m1" (mm_items s') = Some 1.
Proof.
  set (x := @memory_search MemoryDemo.embedder MemoryDemo.math MemoryDemo.log10 _ MemoryDemo.cfg (MemoryDemo.day 1) fzero
    (MkQuery "tea" MemoryDemo.alice 5 [] [] fzero) (Some 1) MemoryDemo.one).
  destruct x as [[rs|e] s'] eqn:Ex; [|by vm_compute in Ex]. exists rs, s'.
  destruct (@memory_search_scoped MemoryDemo.embedder MemoryDemo.math MemoryDemo.log10 _ MemoryDemo.cfg MemoryDemo.one s'
    (MemoryDemo.day 1) fzero (MkQuery "tea" MemoryDemo.alice 5 [] [] fzero) 1 rs one_ok)
    as (top & rest & _ & _ & _ & _ & _ & Hg).
  - by vm_compute.
  - lia.
  - intros i r Hi Hr. destruct (MemoryDemo.one_items _ _ Hi) as [_ ->].
    vm_compute in Hr. injection Hr as <-. by vm_compute.
  - exact Ex.
  - rewrite Hg. vm_compute in Ex. injection Ex as <- <-. by vm_compute.
Defined.

Lemma duplicate_takes_over_witness :
  ∃ i s', @memory_store MemoryDemo.embedder MemoryDemo.cfg "m2" (MemoryDemo.day 1) fzero "green tea" MemoryDemo.bob LONG_TERM
    None fhalf fone None false MemoryDemo.one = (Ok i, s') ∧
    mi_id i = "m1" ∧ ¬ listed MemoryDemo.alice "m1" s'.
Proof.
  set (x := @memory_store MemoryDemo.embedder MemoryDemo.cfg "m2" (MemoryDemo.day 1) fzero "green tea" MemoryDemo.bob LONG_TERM
    None fhalf fone None false MemoryDemo.one).
  destruct x as [[i|e] s'] eqn:Ex; [|by vm_compute in Ex]. exists i, s'.
  destruct (dict_get "m1" (mm_items MemoryDemo.one)) as [e|] eqn:Ee; [|by vm_compute in Ee].
  assert (mi_id e = "m1") as Hid by (vm_compute in Ee; by injection Ee as <-).
  destruct (@duplicate_takes_over MemoryDemo.embedder MemoryDemo.cfg MemoryDemo.one s' "m2" "green tea" (MemoryDemo.day 1)
    fzero MemoryDemo.bob LONG_TERM None fhalf fone false e i one_ok) as (Hi & _ & _ & _ & _ & Hl).
  - vm_compute in Ee. injection Ee as <-. by vm_compute.
  - by rewrite Hid.
  - exact Ex.
  - rewrite Hid in Hi, Hl. split; [done|]. split; [exact Hi|]. apply Hl.
    vm_compute in Ex. injection Ex as <- <-. by vm_compute.
Defined.
